(* ===== verification/_CoqProject ===== *)
-Q . S2P
Prelude.v
GoStrings.v
GoFloat.v
GoFloatBounds.v
GoTime.v
Netip.v
Kube.v
IPFilterModel.v
IPFilter.v
ProjectFilter.v
PostgresVersions.v
Extensions.v
WakeupModel.v
Wakeup.v
Coalesce.v
OrgStatusStore.v
OrgStatusSync.v
WaitGroup.v
Resolver.v
ClusterDialer.v
Initiator.v
GoUrl.v
PgValues.v
ServerlessErrors.v
SqlOverHttp.v
WebSockets.v
BranchVolumes.v
Sidecar.v
Roles.v
Limits.v
ApiKey.v
PostgresConfig.v
PostgresCatalogue.v
BranchTypes.v
PgBackRestNames.v
BranchBuilder.v
ClusterResources.v
BranchOperatorModel.v
BranchOperator.v
BranchServing.v
NewBranches.v
ClustersModel.v
Clusters.v
ClusterStatus.v
Organizations.v
KeycloakModel.v
Keycloak.v
KeycloakGroups.v
AccessPolicy.v
AccessModel.v
ApiKeysModel.v
Access.v
ApiKeys.v
KeyStore.v
GoText.v
ProjectsModel.v
ProjectStore.v
BackupSchedule.v
Scheduler.v
BranchService.v
BranchCreation.v
ProjectsApi.v
BranchUpdates.v
BranchMigration.v
BranchRequests.v
ProjectsRpc.v
LogQueries.v
MetricQueries.v
LogEntries.v
LogPages.v
Observability.v
ServiceTokens.v
GcsFolders.v
Sessions.v
