(* ===== verification/Prelude.v ===== *)
(** * Verification development for the xata platform

    Xata runs PostgreSQL branches on Kubernetes.  A _projects_ service keeps
    projects, branches and limits in a database and answers the REST API; in
    every cell a _clusters_ service turns requests into Branch resources, a
    _branch operator_ turns Branches into CloudNativePG clusters, volumes and
    Secrets, a sidecar hibernates idle clusters, and a _gateway_ lets clients in
    and wakes what sleeps.  An _auth_ service keeps organizations, roles and API
    keys in Keycloak and a database and decides about every request.  This
    library models the core of these programs as they are written in [src/] and
    proves what makes them correct.

    ** How programs are modelled

    Pure code is Gallina functions, executable by [vm_compute].  A handler that
    talks to Kubernetes, a database, Keycloak, a cell or the clock is a tree of
    calls ([prog] below): a node for every call, with a continuation for each
    answer.  No theorem assumes anything of the answers unless it says so:
    [runs p tr a] holds when [p] makes the exchanges [tr] and returns [a]
    against _some_ environment, and a property of all [tr] is one against every
    environment, failing ones included.  [exec] runs a tree against an executable
    environment, which the witnesses do.  Concurrent code is a transition system
    ([TransitionSystem] below) whose steps are the critical sections; its
    properties are invariants of the reachable states.  An error is a value of
    [res].  64-bit integers are [Z] with the wrap-around or the saturation
    written out where a value can reach it; [float64] is [spec_float]; a string
    is a list of bytes; instants and durations are nanoseconds.

    Third-party code is a class, whose laws, where any are needed, are a second
    class that states documented behaviour: [Quantities] (Kubernetes
    quantities), [ConditionAPI] with [ConditionLaws] (status conditions),
    [Controller] with [ControllerLaws] (owner references), [Libraries] (token
    sources and keys of the operator), [CNPGPhases] (phases of CloudNativePG),
    [ConfigJSON] with [ConfigJSONLaws], [KeycloakJSON], [FormEncoding], [JSON]
    (encodings), [Encoding], [RequestJSON], [URLs], [Pgproto3] (values, requests,
    URLs and wire messages of the gateway), [Base62] with [Base62Laws],
    [AuthLibraries] (JWT, HMAC), [TokenLibraries] with [TokenLaws] (service
    tokens), [Finalizers] with [FinalizersLaws], [RegexpCompile], and data of the
    platform: [Unicode], [UnicodeFolding], [GoRuntime], [LocalZone],
    [ErrnoNames].  [MapRange] is the order in which Go ranges over a
    map: any permutation.  The witnesses instantiate each of them.

    ** Files

    _Shared._  [Prelude]: results, effect trees, transition systems, lemmas.
    [GoStrings], [GoFloat], [GoFloatBounds], [GoTime], [GoText], [Netip]: what
    the code uses of Go's [strings], [strconv], [math], [time], [regexp],
    [encoding/csv], [hash/fnv], [net] and [net/netip].  [GoUrl]: the parts of a
    URL.  [Kube]: errors and conditions of the Kubernetes client.
    [ServiceTokens]: the tokens of calls between services and the interceptor
    that verifies them ([internal/grpc/auth], [internal/api]).

    _The branch operator_ ([services/branch-operator]).  [BranchTypes]: the
    Branch resource ([api/v1alpha1]).  [ClusterResources]: the objects it asks
    for ([pkg/reconciler/resources], [internal/cnpg/pooler]).  [PgBackRestNames]:
    names of repositories and credentials ([internal/pgbackrest]).
    [BranchVolumes]: the steps of a reconciliation that keep, release and clone
    volumes.  [BranchOperatorModel]: the whole of [Reconcile]; [BranchOperator]
    and [BranchServing] its properties.  [WakeupModel], [Wakeup]: the wakeup
    reconciler ([pkg/wakeup]).  [GcsFolders]: the managed folders of backups
    ([pkg/gcp/gcsfolder]).

    _The clusters service_ ([services/clusters]).  [BranchBuilder]: requests to
    Branches ([branchbuilder.go]).  [ClustersModel], [Clusters]: creation with the
    search of a pool, updates, rotation, deletion.  [ClusterStatus]: what is
    reported.  [NewBranches]: a created Branch, reconciled.  [IPFilterModel],
    [IPFilter]: the rules of a branch, from the API through one ConfigMap with
    concurrent writers to the gateway's filter.  [LogQueries], [LogEntries],
    [LogPages], [MetricQueries]: logs and metrics ([observability]).

    _The sidecar and the gateway._  [Sidecar] ([services/scale-to-zero-sidecar]).
    [Resolver], [ClusterDialer], [Initiator], [WaitGroup]: host names, dialing
    and waking, the session's start, the drainer ([services/gateway]);
    [Sessions]: the goroutines of a session, from its start to its end.
    [SqlOverHttp], with the values of [PgValues] and the errors of
    [ServerlessErrors], and [WebSockets]: the serverless handlers
    ([services/gateway/serverless]).
    [Coalesce]: one flight for each key ([internal/coalesce]), which the dialer
    uses.

    _Configuration._  [PostgresVersions], [Extensions], [PostgresConfig],
    [PostgresCatalogue] ([internal/postgresversions], [internal/extensions],
    [internal/postgrescfg]).

    _The projects service_ ([services/projects]).  [Limits]: limits with their
    SQL on a table.  [OrgStatusStore], [OrgStatusSync]: the status of an
    organization, leased to workers ([orgstatus]).  [ProjectsModel]: data, errors
    and calls.  [ProjectStore] ([store/sqlstore]), [BackupSchedule]
    ([branch/backup.go]), [Scheduler] ([scheduler]), [BranchService] ([branch],
    [provisioner], [cells]), [ProjectsApi], [BranchUpdates], [ProjectFilter]
    ([api/handler.go] and its adapters); [BranchCreation], [BranchMigration],
    [BranchRequests]: their properties.  [ProjectsRpc]: the gRPC methods ([rpc]),
    deletions under their lock.  [Observability]: logs and metrics from
    the API to the cell and back.

    _The auth service_ ([services/auth]).  [Organizations], [KeycloakModel],
    [Keycloak], [KeycloakGroups]: the Keycloak client ([keycloak]).  [Roles]:
    roles and invitations ([roles]).  [AccessPolicy], [AccessModel], [Access]:
    claims, scopes, the policy and the middleware ([internal/opa],
    [internal/token], [internal/api]).  [ApiKey]: keys ([internal/api/key]).
    [ApiKeysModel], [ApiKeys], [KeyStore]: their life, with the table of keys.

    ** How the parts meet

    One component's calls are another's operations, and some theorems cross the
    border.  [IPFilter] follows a rule from its validation to a connection that
    is let in; [NewBranches] reconciles what the builder made; [Observability]
    answers the API's requests with the cell's handlers; [BranchCreation] commits
    a row against the cell's answer; [KeyStore] finds the row that a creation
    inserted; [Access] embeds the Keycloak client; the cell of a [Sidecar] and
    the [Wakeup] reconciler write the same annotations that [BranchTypes] reads.

    ** What the theorems show

    - _What must not be lost_: a healthy primary volume is retained before its
      cluster is deleted ([BranchServing]), credentials are never replaced
      ([BranchOperator]), for a cluster claimed from a pool by a wakeup its
      assignment or its deletion is asked for ([Wakeup]), so is the deletion of
      the Secret of a failed creation ([Clusters]), a project outlives its
      branches and a branch is committed with its cluster ([BranchCreation]), an
      organization's status outlives its projects ([ProjectsRpc]), a backup
      folder's finalizer goes last ([GcsFolders]), a batch of statements is all or
      nothing ([SqlOverHttp]).
    - _Who may do what_: the middleware, attenuated keys, the last Admin, IP
      rules, TLS before dialing ([Access], [ApiKeys], [Roles], [IPFilter],
      [Initiator]); statements and WebSockets reach the caller's branch only
      ([SqlOverHttp], [WebSockets]), calls between services carry a token that is
      verified ([ServiceTokens]), credentials are redacted ([ServerlessErrors]),
      a folder is granted to its own account ([GcsFolders]); logs and metrics stay
      in their scope and show no password
      ([LogQueries], [MetricQueries], [LogEntries], [Observability]).
    - _Concurrent requests_: ConfigMap writes are atomic ([IPFilter]), syncs are
      exclusive and rows true while the lease outlasts a sync and the row is not
      deleted ([OrgStatusStore]), rules with their blocks reach every branch
      ([ProjectFilter]), a project is deleted under its lock ([ProjectsRpc]),
      callers get their flight's result ([Coalesce]).
    - _Values_: trimmed parameters stay valid, valid ones are typed ([PostgresConfig],
      [BranchMigration]), requests stay within limits ([BranchCreation],
      [KeyStore], [BranchRequests]), backup settings, attributes and keys are
      read back as written ([BackupSchedule], [Organizations], [KeyStore]), and so
      are arrays of PostgreSQL and the first message of a client ([PgValues],
      [WebSockets]); results are whole and bounded ([SqlOverHttp]).
    - _Completeness and ends_: a listing that does not change and pages of
      complete rows return everything once ([Keycloak], [LogPages]), loops end, tokens are renewed in time
      ([BranchServing], [ServiceTokens]), a session ends cleanly in every
      interleaving ([Sessions]).

    The doc comment of a theorem states its conditions, and a [Witness] module
    shows by computation what happens without one where the code then fails:
    [BranchVolumes] (an unhealthy primary), [Wakeup] and [Clusters] (a refused
    deletion), [OrgStatusStore] (a status deleted during a sync), [ProjectFilter]
    (blocks left out), [LogPages] (a row without a message), [PgValues] (an
    object in an array), [BranchMigration] (surrounding space).

    ** Bounds and fuel

    A loop of the code that has a bound keeps it: 100 pages of 100 members, three
    writes of a ConfigMap whose version moved on, one repetition of a request
    whose admin token was rejected, the deadline of a wait.  Two loops of the code
    have no bound of their own and take fuel here: the poll of a pool, for which
    17 iterations are enough ([Clusters.enough_polls]: the polls that fit the
    timeout, on a clock that does not go back), and the paging over all
    organizations, for which one page more than there are aliases is enough
    ([Keycloak.list_all_terminates]); the sweeps of [KeycloakGroups] page in the
    same way.  [LogPages.follow], a client, needs one request more than there are
    rows.  Parsers recurse on their input or take its length as fuel
    ([PgValues.elements_enough]: more makes no difference).

    ** Not modelled

    Generated code and mocks ([gen], [*mock*], deepcopy and apply
    configurations), the [main] packages, configuration from the environment and
    start-up wiring, watches and predicates of the controllers, observability of
    the services themselves ([internal/o11y], analytics, feature-flag and
    customer.io clients: I/O around a library), billing (a client of an external
    service), the handlers of Vercel and of single sign-on, the gateway's
    listeners and the bytes that a session copies (I/O and libraries), scripts
    and benchmarks.  The list of components in [PROJECT.json] gives the
    reason for each. *)

From stdpp Require Export base tactics option list gmap strings relations sets.
From Stdlib Require Export ZArith Lia.

(** ** Notation scope, hint database *)

Declare Scope go_scope.
Delimit Scope go_scope with go.

Create HintDb go discriminated.

(** ** Go's [(value, error)] pairs

    A Go call returns a value or an error; [res E A] is that pair with the
    convention [err != nil -> value unused]. *)

Inductive res (E A : Type) : Type :=
| Ok (a : A)
| Err (e : E).
Arguments Ok {E A} a.
Arguments Err {E A} e.

Definition is_ok {E A} (r : res E A) : bool :=
  match r with Ok _ => true | Err _ => false end.

Definition res_map {E A B} (f : A → B) (r : res E A) : res E B :=
  match r with Ok a => Ok (f a) | Err e => Err e end.

(** A call whose error is returned at once. *)
Definition res_bind {E A B} (r : res E A) (f : A → res E B) : res E B :=
  match r with Ok a => f a | Err e => Err e end.

Notation "x '<~' r ; q" := (res_bind r (λ x, q))
  (at level 100, r at next level, q at level 200, right associativity) : go_scope.

(** [ctx.Err()] of a context that is done. *)
Inductive ctx_error := Canceled | DeadlineExceeded.

(** ** Counting the entries of a finite map *)

Definition countP {K A} `{Countable K} (P : A → bool) (m : gmap K A) : nat :=
  size (filter (λ kv : K * A, P kv.2 = true) m).

(** ** Ranging over a map

    Go ranges over the keys of a map in an unspecified order. *)

Class MapRange := {
  range_keys : gset string → list string;
  range_perm : ∀ s, range_keys s ≡ₚ elements s;
}.

(** ** Effectful handlers

    A handler that talks to an API server, a database or another service is
    a finite tree of calls: each node is a call [c] with one continuation for
    every response of type [resp c].  The tree says what the code does for
    every answer the environment may give; nothing is assumed about the
    environment. *)

Section Prog.
Context {call : Type}.
Variable resp : call → Type.

Inductive prog (A : Type) : Type :=
| Ret (a : A)
| Call (c : call) (k : resp c → prog A).

(** One exchange with the environment. *)
Inductive event : Type :=
| ev (c : call) (r : resp c).

Fixpoint pbind {A B} (f : A → prog B) (p : prog A) : prog B :=
  match p with
  | Ret _ a => f a
  | Call _ c k => Call B c (λ r, pbind f (k r))
  end.

(** [runs p tr a]: against some environment, [p] performs exactly the
    exchanges [tr] and returns [a]. *)
Fixpoint runs {A} (p : prog A) (tr : list event) (a : A) : Prop :=
  match p with
  | Ret _ a' => tr = [] ∧ a = a'
  | Call _ c k => ∃ r tr', tr = ev c r :: tr' ∧ runs (k r) tr' a
  end.

(** An executable environment with a state of its own. *)
Definition env (W : Type) : Type := W → ∀ c, W * resp c.

Fixpoint exec {W A} (h : env W) (w : W) (p : prog A) : list event * W * A :=
  match p with
  | Ret _ a => ([], w, a)
  | Call _ c k =>
      let '(w', r) := h w c in
      let '(tr, w'', a) := exec h w' (k r) in
      (ev c r :: tr, w'', a)
  end.

(** Symbolic execution of a handler for every answer of the environment,
    collecting the observations [obs] makes of its exchanges. *)
Fixpoint wp {O A} (obs : event → option O) (p : prog A) (acc : list O)
    (Q : list O → A → Prop) : Prop :=
  match p with
  | Ret _ a => Q acc a
  | Call _ c k =>
      ∀ r, wp obs (k r) (match obs (ev c r) with Some o => acc ++ [o] | None => acc end) Q
  end.

(** Every call [p] may make satisfies [P]. *)
Fixpoint only {A} (P : call → bool) (p : prog A) : Prop :=
  match p with
  | Ret _ a => True
  | Call _ c k => P c = true ∧ ∀ r, only P (k r)
  end.
End Prog.
Arguments Ret {call resp A} a.
Arguments Call {call resp A} c k.
Arguments ev {call resp} c r.

#[global] Instance prog_ret {call} (resp : call → Type) : MRet (prog resp) :=
  λ A a, Ret a.
#[global] Instance prog_bind {call} (resp : call → Type) : MBind (prog resp) :=
  λ A B f p, pbind resp f p.

Definition perform {call} {resp : call → Type} (c : call) : prog resp (resp c) :=
  Call c (λ r, Ret r).

(** [if err != nil { return err }] *)
Definition pbind_ok {call} {resp : call → Type} {E A B}
    (p : prog resp (res E A)) (f : A → prog resp (res E B)) : prog resp (res E B) :=
  r ← p; match r with Ok a => f a | Err e => mret (Err e) end.

(** A program of one component as a part of a larger one: its calls are calls
    of the larger program, whose answers it can read. *)
Section Embed.
Context {call1 call2 : Type} {resp1 : call1 → Type} {resp2 : call2 → Type}.
Variable inj : call1 → call2.
Variable out : ∀ c, resp2 (inj c) → resp1 c.

Fixpoint embed {A} (p : prog resp1 A) : prog resp2 A :=
  match p with
  | Ret a => Ret a
  | Call c k => Call (inj c) (λ r, embed (k (out c r)))
  end.
End Embed.

Notation "x '<-?' p ; q" := (pbind_ok p (λ x, q))
  (at level 100, p at next level, q at level 200, right associativity) : go_scope.
Notation "p ';;?' q" := (pbind_ok p (λ _ : unit, q))
  (at level 100, q at level 200, right associativity) : go_scope.

(** ** Transition systems

    Concurrent code is a step relation between states; a safety property is
    an invariant of the reachable states. *)

Class TransitionSystem (S : Type) := {
  ts_init : S → Prop;
  ts_step : relation S;
}.

Definition reachable {S} `{TransitionSystem S} (s : S) : Prop :=
  ∃ s0, ts_init s0 ∧ rtc ts_step s0 s.

Definition inductive_invariant {S} `{TransitionSystem S} (I : S → Prop) : Prop :=
  (∀ s, ts_init s → I s) ∧ (∀ s s', I s → ts_step s s' → I s').

(** ** Lemmas *)

Section ProgLemmas.
Context {call : Type} {resp : call → Type}.

Lemma runs_ret {A} (a b : A) (tr : list (event resp)) :
  runs resp (mret a) tr b ↔ tr = [] ∧ b = a.
Proof. done. Qed.

Lemma runs_perform c (tr : list (event resp)) r :
  runs resp (perform c) tr r ↔ tr = [ev c r].
Proof.
  simpl. split.
  - intros (r' & tr' & -> & -> & ->). done.
  - intros ->. eauto.
Qed.

Lemma runs_bind {A B} (p : prog resp A) (f : A → prog resp B) tr b :
  runs resp (p ≫= f) tr b ↔
  ∃ tr1 tr2 a, tr = tr1 ++ tr2 ∧ runs resp p tr1 a ∧ runs resp (f a) tr2 b.
Proof.
  revert tr. induction p as [a|c k IH]; intros tr; simpl.
  - split.
    + intros H. by exists [], tr, a.
    + by intros (tr1 & tr2 & a' & -> & [-> ->] & H).
  - split.
    + intros (r & tr' & -> & H). apply IH in H as (tr1 & tr2 & a & -> & H1 & H2).
      exists (ev c r :: tr1), tr2, a. split_and!; [done| |done]. eauto.
    + intros (tr1 & tr2 & a & -> & (r & tr' & -> & H1) & H2).
      exists r, (tr' ++ tr2). split; [done|]. apply IH. eauto 10.
Qed.

Lemma runs_bind_ok {E A B} (p : prog resp (res E A)) (f : A → prog resp (res E B)) tr b :
  runs resp (pbind_ok p f) tr b ↔
  (∃ tr1 tr2 a, tr = tr1 ++ tr2 ∧ runs resp p tr1 (Ok a) ∧ runs resp (f a) tr2 b) ∨
  (∃ e, runs resp p tr (Err e) ∧ b = Err e).
Proof.
  unfold pbind_ok. rewrite runs_bind. split.
  - intros (tr1 & tr2 & [a|e] & -> & H1 & H2); [left; eauto 10|].
    apply runs_ret in H2 as [-> ->]. rewrite app_nil_r. eauto.
  - intros [(tr1 & tr2 & a & -> & H1 & H2)|(e & H & ->)]; [eauto 10|].
    exists tr, [], (Err e). rewrite app_nil_r. split_and!; done.
Qed.

Lemma wp_sound {O A} (obs : event resp → option O) (p : prog resp A) acc Q tr a :
  wp resp obs p acc Q → runs resp p tr a → Q (acc ++ omap obs tr) a.
Proof.
  revert acc tr. induction p as [b|c k IH]; intros acc tr; simpl.
  - intros HQ [-> ->]. by rewrite app_nil_r.
  - intros Hwp (r & tr' & -> & Hr). specialize (IH r _ _ (Hwp r) Hr). simpl.
    destruct (obs (ev c r)); [|done]. by rewrite <-app_assoc in IH.
Qed.

Lemma wp_bind {O A B} (obs : event resp → option O) (p : prog resp A)
    (f : A → prog resp B) acc Q :
  wp resp obs p acc (λ acc' a, wp resp obs (f a) acc' Q) → wp resp obs (p ≫= f) acc Q.
Proof.
  revert acc. induction p as [a|c k IH]; intros acc; simpl; [done|].
  intros Hk r. apply IH, Hk.
Qed.

Lemma wp_perform {O B} (obs : event resp → option O) c (f : resp c → prog resp B) acc Q :
  (∀ r, wp resp obs (f r) (match obs (ev c r) with Some o => acc ++ [o] | None => acc end) Q) →
  wp resp obs (perform c ≫= f) acc Q.
Proof. done. Qed.

Lemma wp_mono {O A} (obs : event resp → option O) (p : prog resp A) acc Q Q' :
  (∀ acc' a, Q acc' a → Q' acc' a) → wp resp obs p acc Q → wp resp obs p acc Q'.
Proof.
  intros HQ. revert acc. induction p as [a|c k IH]; intros acc; simpl; [by apply HQ|].
  intros Hk r. apply IH, Hk.
Qed.

Lemma only_ret {A} P (a : A) : only resp P (mret a).
Proof. done. Qed.

Lemma only_perform P c : P c = true → only resp P (perform c).
Proof. done. Qed.

Lemma only_bind {A B} P (p : prog resp A) (f : A → prog resp B) :
  only resp P p → (∀ a, only resp P (f a)) → only resp P (p ≫= f).
Proof.
  intros Hp Hf. induction p as [a|c k IH]; simpl; [apply Hf|].
  destruct Hp as [Hc Hk]. split; [done|]. intros r. apply IH, Hk.
Qed.

Lemma only_bind_ok {E A B} P (p : prog resp (res E A)) (f : A → prog resp (res E B)) :
  only resp P p → (∀ a, only resp P (f a)) → only resp P (pbind_ok p f).
Proof. intros Hp Hf. apply only_bind; [done|]. intros [a|e]; [apply Hf|done]. Qed.

Lemma only_mono {A} P P' (p : prog resp A) :
  (∀ c, P c = true → P' c = true) → only resp P p → only resp P' p.
Proof.
  intros HP. induction p as [a|c k IH]; simpl; [done|]. intros [Hc Hk]. split; auto.
Qed.

Lemma only_runs {A} P (p : prog resp A) tr a c r :
  only resp P p → runs resp p tr a → ev c r ∈ tr → P c = true.
Proof.
  revert tr. induction p as [b|c' k IH]; intros tr; simpl.
  - intros _ [-> _] []%elem_of_nil.
  - intros [Hc Hk] (r' & tr' & -> & Hr) [Heq|Hin]%elem_of_cons; [|by eapply IH].
    inversion Heq. by subst.
Qed.

(** Calls that are not observed leave the observations alone. *)
Lemma wp_only {O A} (obs : event resp → option O) P (p : prog resp A) acc Q :
  only resp P p → (∀ c r, P c = true → obs (ev c r) = None) → (∀ a, Q acc a) →
  wp resp obs p acc Q.
Proof.
  intros Hp Hobs HQ. induction p as [a|c k IH]; simpl; [apply HQ|].
  destruct Hp as [Hc Hk]. intros r. rewrite Hobs by done. by apply IH.
Qed.

(** Every execution against a concrete environment is a run. *)
Lemma exec_runs {W A} (h : env resp W) (w : W) (p : prog resp A) :
  runs resp p (exec resp h w p).1.1 (exec resp h w p).2.
Proof.
  revert w. induction p as [a|c k IH]; intros w; simpl; [done|].
  destruct (h w c) as [w' r] eqn:Hh. specialize (IH r w').
  destruct (exec resp h w' (k r)) as [[tr w''] a]; simpl in *. eauto.
Qed.

(** The final state and result, without the trace. *)
Definition final {W A} (h : env resp W) (w : W) (p : prog resp A) : W * A :=
  let '(_, w', a) := exec resp h w p in (w', a).

Lemma final_bind {W A B} (h : env resp W) w (p : prog resp A) (f : A → prog resp B) w' a :
  final h w p = (w', a) → final h w (p ≫= f) = final h w' (f a).
Proof.
  unfold final. change (p ≫= f) with (pbind resp f p).
  revert w. induction p as [x|c k IH]; intros w; simpl; [by intros [= -> ->]|].
  destruct (h w c) as [w1 r]. specialize (IH r w1).
  destruct (exec resp h w1 (k r)) as [[tr1 w2] b] eqn:Hk. intros [= -> ->].
  specialize (IH eq_refl).
  destruct (exec resp h w1 (pbind resp f (k r))) as [[tr2 w3] z]. by rewrite IH.
Qed.

Lemma final_bind_ok {W E A B} (h : env resp W) w (p : prog resp (res E A))
    (f : A → prog resp (res E B)) w' a :
  final h w p = (w', Ok a) → final h w (pbind_ok p f) = final h w' (f a).
Proof. intros Hp. unfold pbind_ok. by rewrite (final_bind _ _ _ _ _ _ Hp). Qed.
End ProgLemmas.

Section EmbedLemmas.
Context {call1 call2 : Type} {resp1 : call1 → Type} {resp2 : call2 → Type}.
Context (inj : call1 → call2) (out : ∀ c, resp2 (inj c) → resp1 c).

(** The exchanges of an embedded program are its own. *)
Lemma runs_embed {A} (p : prog resp1 A) tr a :
  runs resp2 (embed inj out p) tr a →
  ∃ tr1, runs resp1 p tr1 a ∧ length tr = length tr1 ∧
    ∀ c r, ev c r ∈ tr1 → ∃ r', r = out c r' ∧ ev (inj c) r' ∈ tr.
Proof.
  revert tr. induction p as [b|c k IH]; intros tr; simpl.
  { intros [-> ->]. exists []. split_and!; [done..|]. by intros ?? ?%elem_of_nil. }
  intros (r & tr' & -> & Hr). apply IH in Hr as (tr1 & H1 & Hl & He).
  exists (ev c (out c r) :: tr1). split_and!; [eauto|simpl; congruence|].
  intros c' r' [Heq|Hin]%elem_of_cons.
  - set (P := λ e : event resp1, match e with ev d x =>
      ∃ y : resp2 (inj d), x = out d y ∧ ev (inj d) y ∈ ev (inj c) r :: tr' end).
    assert (P (ev c (out c r))) as Hp by (exists r; split; [done|left]).
    rewrite <- Heq in Hp. exact Hp.
  - destruct (He c' r' Hin) as (r1 & -> & ?). exists r1. split; [done|by right].
Qed.

Lemma only_embed {A} (P : call2 → bool) (p : prog resp1 A) :
  only resp1 (λ c, P (inj c)) p → only resp2 P (embed inj out p).
Proof. induction p as [b|c k IH]; simpl; [done|]. intros [Hc Hk]. eauto. Qed.
End EmbedLemmas.

Section TransitionLemmas.
Context {S : Type} `{TransitionSystem S}.

Lemma invariant_reachable (I : S → Prop) s :
  inductive_invariant I → reachable s → I s.
Proof.
  intros [Hinit Hstep] (s0 & H0 & Hrtc). apply Hinit in H0.
  induction Hrtc; eauto.
Qed.

Lemma reachable_step s s' : reachable s → ts_step s s' → reachable s'.
Proof. intros (s0 & ? & ?) ?. exists s0. split; [done|]. by eapply rtc_r. Qed.

Lemma reachable_rtc s s' : reachable s → rtc ts_step s s' → reachable s'.
Proof. intros Hs Hrtc. induction Hrtc; eauto using reachable_step. Qed.

Lemma reachable_init s : ts_init s → reachable s.
Proof. intros ?. exists s. split; [done|]. apply rtc_refl. Qed.
End TransitionLemmas.

#[export] Hint Resolve reachable_init reachable_step : go.
#[export] Hint Resolve only_ret only_perform only_bind only_bind_ok : go.

Section CountLemmas.
Context {K A : Type} `{Countable K}.
Implicit Types (m : gmap K A) (P : A → bool).

Lemma countP_empty P : countP P (∅ : gmap K A) = 0.
Proof. unfold countP. by rewrite map_filter_empty, map_size_empty. Qed.

Lemma countP_insert_None P m i x :
  m !! i = None → countP P (<[i:=x]> m) = (if P x then 1 else 0) + countP P m.
Proof.
  intros Hi. unfold countP. destruct (P x) eqn:HP.
  - rewrite map_filter_insert_True by done.
    rewrite map_size_insert_None; [done|].
    apply map_lookup_filter_None_2. by left.
  - rewrite map_filter_insert_not'; [done| |].
    + simpl. by rewrite HP.
    + intros y. by rewrite Hi.
Qed.

Lemma countP_delete P m i x :
  m !! i = Some x → countP P m = (if P x then 1 else 0) + countP P (delete i m).
Proof.
  intros Hi. rewrite <-(insert_delete_id m i x Hi) at 1.
  apply countP_insert_None, lookup_delete_eq.
Qed.

(** Changing one entry moves the count by the difference of that entry. *)
Lemma countP_update P m i x y :
  m !! i = Some x →
  (if P x then 1 else 0) + countP P (<[i:=y]> m) = (if P y then 1 else 0) + countP P m.
Proof.
  intros Hi. rewrite (countP_delete P m i x Hi).
  rewrite <-(insert_delete_eq m i y), countP_insert_None by apply lookup_delete_eq.
  lia.
Qed.

Lemma countP_pos P m i x : m !! i = Some x → P x = true → 0 < countP P m.
Proof. intros Hi HP. rewrite (countP_delete P m i x Hi), HP. lia. Qed.

Lemma countP_zero P m : countP P m = 0 ↔ ∀ i x, m !! i = Some x → P x = false.
Proof.
  split.
  - intros H0 i x Hi. destruct (P x) eqn:HP; [|done].
    pose proof (countP_pos P m i x Hi HP). lia.
  - intros Hall. unfold countP. apply map_size_empty_iff.
    apply map_empty. intros i. apply map_lookup_filter_None_2. right.
    intros x Hi. simpl. by rewrite (Hall i x Hi).
Qed.
End CountLemmas.

(** An element outside the first part of a list lies behind it. *)
Lemma filter_id {A} (P : A → Prop) `{!∀ x, Decision (P x)} (l : list A) :
  (∀ x, x ∈ l → P x) → filter P l = l.
Proof.
  induction l as [|x l IH]; intros Hl; [done|].
  rewrite filter_cons_True by (apply Hl; by left). f_equal. apply IH. intros y Hy.
  apply Hl. by right.
Qed.

Lemma split_after {A} (a b l1 l2 : list A) x :
  l1 ++ x :: l2 = a ++ b → x ∉ a → ∃ a', l1 = a ++ a'.
Proof.
  revert l1. induction a as [|y a IH]; intros l1 Heq Hx; [by exists l1|].
  apply not_elem_of_cons in Hx as [Hxy Hx].
  destruct l1 as [|z l1]; simplify_eq/=.
  destruct (IH l1) as [a' ->]; [done..|]. by exists a'.
Qed.

(** *** Properties of every trace of a program *)

Section Always.
Context {call : Type} {resp : call → Type}.
Variable P : list (event resp) → Prop.

Definition always {A} (p : prog resp A) : Prop := ∀ tr a, runs resp p tr a → P tr.

Hypothesis P_nil : P [].
Hypothesis P_app : ∀ t1 t2, P t1 → P t2 → P (t1 ++ t2).

Lemma always_ret {A} (a : A) : always (mret a).
Proof. by intros tr b [-> _]. Qed.

Lemma always_bind {A B} (p : prog resp A) (f : A → prog resp B) :
  always p → (∀ a, always (f a)) → always (p ≫= f).
Proof. intros Hp Hf tr b (t1 & t2 & a & -> & H1 & H2)%runs_bind. apply P_app; [by eapply Hp|by eapply Hf]. Qed.

Lemma always_bind_ok {E A B} (p : prog resp (res E A)) (f : A → prog resp (res E B)) :
  always p → (∀ a, always (f a)) → always (pbind_ok p f).
Proof. intros Hp Hf. apply always_bind; [done|]. intros [a|e]; [apply Hf|apply always_ret]. Qed.

(** Calls that do not matter to [P]. *)
Lemma always_only {A} Q (p : prog resp A) :
  (∀ c w, Q c = true → P [ev c w]) → only resp Q p → always p.
Proof.
  intros HQ. induction p as [a|c k IH]; simpl; intros Ho tr b.
  - by intros [-> _].
  - destruct Ho as [Hc Hk]. intros (w & tr' & -> & Hr). apply (P_app [ev c w]); [by apply HQ|by eapply IH].
Qed.
End Always.

(** *** Locating a call in the trace of a sequence *)

Section Locate.
Context {call : Type} {resp : call → Type}.

(** A call the first part never makes is made by the second, after all of the
    first part. *)
Lemma runs_after {A B} P (p : prog resp A) (f : A → prog resp B) tr1 c w tr2 b :
  runs resp (p ≫= f) (tr1 ++ ev c w :: tr2) b → only resp P p → P c = false →
  ∃ t a tr1', tr1 = t ++ tr1' ∧ runs resp p t a ∧ runs resp (f a) (tr1' ++ ev c w :: tr2) b.
Proof.
  intros (t & t2 & a & Heq & Hp & Hf)%runs_bind Honly Hc.
  destruct (split_after _ _ _ _ _ Heq) as [tr1' ->].
  { intros Hin. pose proof (only_runs _ _ _ _ _ _ Honly Hp Hin) as Ht. congruence. }
  exists t, a, tr1'. split; [done|]. split; [done|].
  rewrite <-app_assoc in Heq. apply app_inv_head in Heq. by subst.
Qed.

Lemma runs_after_ok {E A B} P (p : prog resp (res E A)) (f : A → prog resp (res E B)) tr1 c w tr2 b :
  runs resp (pbind_ok p f) (tr1 ++ ev c w :: tr2) b → only resp P p → P c = false →
  ∃ t a tr1', tr1 = t ++ tr1' ∧ runs resp p t (Ok a) ∧ runs resp (f a) (tr1' ++ ev c w :: tr2) b.
Proof.
  unfold pbind_ok. intros Hr Honly Hc.
  destruct (runs_after _ _ _ _ _ _ _ _ Hr Honly Hc) as (t & [a|e] & tr1' & -> & Hp & Hf); [by eauto 10|].
  destruct Hf as [Hf _]. by destruct tr1'.
Qed.

(** A call the second part never makes is made by the first. *)
Lemma runs_before {A B} P (p : prog resp A) (f : A → prog resp B) tr1 c w tr2 b :
  runs resp (p ≫= f) (tr1 ++ ev c w :: tr2) b → (∀ a, only resp P (f a)) → P c = false →
  ∃ tr2' a, runs resp p (tr1 ++ ev c w :: tr2') a ∧ tr2' `prefix_of` tr2.
Proof.
  intros (t & t2 & a & Heq & Hp & Hf)%runs_bind Honly Hc.
  destruct (decide (length t ≤ length tr1)) as [Hl|Hl].
  - exfalso. assert (ev c w ∈ t2) as Hin.
    { apply (f_equal (drop (length t))) in Heq. rewrite drop_app_length, drop_app_le in Heq by done.
      rewrite <-Heq. apply elem_of_app. right. left. }
    pose proof (only_runs _ _ _ _ _ _ (Honly a) Hf Hin). congruence.
  - apply app_eq_inv in Heq as [(k & Ht & ?)|(k & -> & Heq)].
    + apply (f_equal length) in Ht. rewrite length_app in Ht. lia.
    + destruct k as [|e k]; [rewrite app_nil_r in Hl; lia|].
      injection Heq as <- ->. exists k, a. split; [done|]. by eexists.
Qed.

Lemma runs_before_ok {E A B} P (p : prog resp (res E A)) (f : A → prog resp (res E B)) tr1 c w tr2 b :
  runs resp (pbind_ok p f) (tr1 ++ ev c w :: tr2) b → (∀ a, only resp P (f a)) → P c = false →
  ∃ tr2' a, runs resp p (tr1 ++ ev c w :: tr2') a ∧ tr2' `prefix_of` tr2.
Proof. intros Hr Honly Hc. eapply runs_before; [exact Hr| |done]. intros [a|e]; [apply Honly|done]. Qed.

(** The same for a call somewhere in the trace. *)
Lemma in_later_bind {A B} P (p : prog resp A) (k : A → prog resp B) tr b c w :
  runs resp (p ≫= k) tr b → ev c w ∈ tr → only resp P p → P c = false →
  ∃ t1 t2 a, tr = t1 ++ t2 ∧ runs resp p t1 a ∧ runs resp (k a) t2 b ∧ ev c w ∈ t2.
Proof.
  intros (t1 & t2 & a & -> & Hp & Hk)%runs_bind Hin Ho Hc.
  apply elem_of_app in Hin as [Hin|Hin]; [|by exists t1, t2, a].
  pose proof (only_runs _ _ _ _ _ _ Ho Hp Hin). congruence.
Qed.

Lemma in_later {E A B} P (p : prog resp (res E A)) (k : A → prog resp (res E B)) tr b c w :
  runs resp (pbind_ok p k) tr b → ev c w ∈ tr → only resp P p → P c = false →
  ∃ t1 t2 a, tr = t1 ++ t2 ∧ runs resp p t1 (Ok a) ∧ runs resp (k a) t2 b ∧ ev c w ∈ t2.
Proof.
  unfold pbind_ok. intros Hr Hin Ho Hc.
  destruct (in_later_bind _ _ _ _ _ _ _ Hr Hin Ho Hc) as (t1 & t2 & [a|e] & -> & Hp & Hk & Hin2); [by eauto 10|].
  destruct Hk as [-> _]. by apply not_elem_of_nil in Hin2.
Qed.
End Locate.

(** ** Tactics *)

(** Open a hypothesis about a run: one existential per exchange. *)
Ltac run_step H :=
  let r := fresh "r" in
  lazymatch type of H with
  | runs _ (mret _) _ _ => apply runs_ret in H; destruct H as [-> ->]
  | runs _ (pbind_ok _ _) _ _ => apply runs_bind_ok in H
  | runs _ (_ ≫= _) _ _ => apply runs_bind in H
  end.

(** Case split on a lookup in an updated map. *)
Tactic Notation "lookup_case" ident(E) :=
  rewrite lookup_insert;
  match goal with |- context [decide (?a = ?b)] => destruct (decide (a = b)) as [E|E] end;
  [try subst|].

(** Reduce boolean conditions without unfolding what they guard. *)
Tactic Notation "cond" := cbn [negb andb orb]; cbv iota.
Tactic Notation "cond" "in" hyp(H) := cbn [negb andb orb] in H; cbv iota in H.

(** Decide a closed boolean or decidable goal by computation. *)
Ltac vm_decide := vm_compute; reflexivity.
