(* ===== verification/GoStrings.v ===== *)
(** * Go's [strings], [strconv] and [slices] as the code uses them

    A Go [string] is a byte sequence, here a [string] of 8-bit [ascii]s.  Only
    the standard-library functions the modelled packages call are defined. *)

From stdpp Require Import pretty.
From S2P Require Import Prelude.
From Stdlib Require Export Ascii String.
From stdpp Require Export strings.

#[local] Open Scope Z_scope.

#[global] Arguments String.append : simpl nomatch.

(** ** Bytes *)

Definition byte_val (c : ascii) : Z := Z.of_N (N_of_ascii c).

Definition is_digit (c : ascii) : bool :=
  (48 <=? byte_val c) && (byte_val c <=? 57).

Definition is_upper (c : ascii) : bool :=
  (65 <=? byte_val c) && (byte_val c <=? 90).

Definition is_ascii_byte (c : ascii) : bool := byte_val c <? 128.

Definition to_lower_byte (c : ascii) : ascii :=
  if is_upper c then ascii_of_N (N_of_ascii c + 32) else c.

Fixpoint string_forallb (P : ascii → bool) (s : string) : bool :=
  match s with
  | EmptyString => true
  | String c t => P c && string_forallb P t
  end.

Definition is_ascii (s : string) : bool := string_forallb is_ascii_byte s.

(** [strings.ToLower] on ASCII strings (Go's ASCII fast path). *)
Fixpoint ascii_to_lower (s : string) : string :=
  match s with
  | EmptyString => EmptyString
  | String c t => String (to_lower_byte c) (ascii_to_lower t)
  end.

(** ** [strings] with a one-byte separator *)

Fixpoint contains_byte (sep : ascii) (s : string) : bool :=
  match s with
  | EmptyString => false
  | String c t => bool_decide (c = sep) || contains_byte sep t
  end.

(** [strings.Cut]: around the first separator. *)
Fixpoint Cut (sep : ascii) (s : string) : string * string * bool :=
  match s with
  | EmptyString => (EmptyString, EmptyString, false)
  | String c t =>
      if bool_decide (c = sep) then (EmptyString, t, true)
      else let '(a, b, ok) := Cut sep t in (String c a, b, ok)
  end.

(** Around the last separator: [strings.LastIndex] followed by slicing. *)
Fixpoint cut_last (sep : ascii) (s : string) : option (string * string) :=
  match s with
  | EmptyString => None
  | String c t =>
      match cut_last sep t with
      | Some (a, b) => Some (String c a, b)
      | None => if bool_decide (c = sep) then Some (EmptyString, t) else None
      end
  end.

(** [strings.Split] *)
Fixpoint Split (sep : ascii) (s : string) : list string :=
  match s with
  | EmptyString => [EmptyString]
  | String c t =>
      if bool_decide (c = sep) then EmptyString :: Split sep t
      else match Split sep t with
           | p :: ps => String c p :: ps
           | [] => [String c EmptyString]
           end
  end.

(** [strings.Count(s, sep)] *)
Fixpoint Count (sep : ascii) (s : string) : Z :=
  match s with
  | EmptyString => 0
  | String c t => (if bool_decide (c = sep) then 1 else 0) + Count sep t
  end.

(** ** Prefixes and suffixes *)

(** [strings.CutPrefix] *)
Fixpoint CutPrefix (p s : string) : option string :=
  match p, s with
  | EmptyString, _ => Some s
  | String a p', String b s' => if bool_decide (a = b) then CutPrefix p' s' else None
  | String _ _, EmptyString => None
  end.

Definition HasPrefix (s p : string) : bool :=
  match CutPrefix p s with Some _ => true | None => false end.

(** [strings.CutSuffix]: the part before the suffix. *)
Fixpoint CutSuffix (s suf : string) : option string :=
  if bool_decide (s = suf) then Some EmptyString
  else match s with
       | EmptyString => None
       | String c t =>
           match CutSuffix t suf with Some a => Some (String c a) | None => None end
       end.

Definition HasSuffix (s suf : string) : bool :=
  match CutSuffix s suf with Some _ => true | None => false end.

Fixpoint take_str (n : nat) (s : string) : string :=
  match n, s with
  | S m, String c t => String c (take_str m t)
  | _, _ => EmptyString
  end.

Fixpoint drop_str (n : nat) (s : string) : string :=
  match n, s with
  | S m, String _ t => drop_str m t
  | O, _ => s
  | _, EmptyString => EmptyString
  end.

Fixpoint repeat_str (c : string) (n : nat) : string :=
  match n with O => EmptyString | S m => c +:+ repeat_str c m end.

Fixpoint take_while (P : ascii → bool) (s : string) : string :=
  match s with
  | EmptyString => EmptyString
  | String c t => if P c then String c (take_while P t) else EmptyString
  end.

(** [strings.Contains] *)
Fixpoint Contains (s sub : string) : bool :=
  HasPrefix s sub || match s with EmptyString => false | String _ t => Contains t sub end.

(** [strings.EqualFold] against an ASCII constant without the letters k and s
    (the only ASCII letters with non-ASCII simple foldings). *)
Definition EqualFold (s t : string) : bool :=
  bool_decide (ascii_to_lower s = ascii_to_lower t).

(** ** JSON *)

(** The values of [encoding/json]; a key of an object occurs once. *)
Inductive json :=
| JNull
| JBool (b : bool)
| JNumber (s : string)
| JString (s : string)
| JArray (l : list json)
| JObject (m : list (string * json)).

(** ** [%q] *)

Definition double_quote : ascii := ascii_of_N 34.
Definition backslash : ascii := ascii_of_N 92.

Fixpoint quote_body (s : string) : string :=
  match s with
  | EmptyString => String double_quote EmptyString
  | String c t =>
      if bool_decide (c = double_quote) || bool_decide (c = backslash)
      then String backslash (String c (quote_body t)) else String c (quote_body t)
  end.

(** [%q], on printable text. *)
Definition q (s : string) : string := String double_quote (quote_body s).

(** ** [strconv.ParseInt(s, 10, 64)], also [strconv.Atoi] on 64-bit targets *)

Definition max_int64 : Z := 9223372036854775807.
Definition min_int64 : Z := -9223372036854775808.

Definition digit_val (c : ascii) : Z := byte_val c - 48.

Fixpoint digits_val_acc (acc : Z) (s : string) : option Z :=
  match s with
  | EmptyString => Some acc
  | String c t =>
      if is_digit c then digits_val_acc (acc * 10 + digit_val c) t else None
  end.

Definition ParseUint10 (s : string) : option Z :=
  match s with EmptyString => None | _ => digits_val_acc 0 s end.

Definition ParseInt10 (s : string) : option Z :=
  let '(neg, body) :=
    match s with
    | String c t =>
        if bool_decide (c = "+"%char) then (false, t)
        else if bool_decide (c = "-"%char) then (true, t) else (false, s)
    | EmptyString => (false, s)
    end in
  match ParseUint10 body with
  | Some n =>
      let v := if neg : bool then - n else n in
      if (min_int64 <=? v) && (v <=? max_int64) then Some v else None
  | None => None
  end.

(** ** Lemmas *)

Lemma append_nil_r (s : string) : s +:+ "" = s.
Proof. induction s as [|c s IH]; simpl; [done|by rewrite IH]. Qed.

Lemma append_assoc (a b c : string) : (a +:+ b) +:+ c = a +:+ (b +:+ c).
Proof. induction a as [|x a IH]; simpl; [done|by rewrite IH]. Qed.

Lemma string_length_app (a b : string) :
  String.length (a +:+ b) = (String.length a + String.length b)%nat.
Proof. induction a as [|x a IH]; simpl; [done|by rewrite IH]. Qed.

Lemma append_inj_l (a b c : string) : a +:+ b = a +:+ c → b = c.
Proof. induction a as [|x a IH]; simpl; [done|]. intros [= ?]. auto. Qed.

Lemma contains_byte_app sep (a b : string) :
  contains_byte sep (a +:+ b) = contains_byte sep a || contains_byte sep b.
Proof. induction a as [|x a IH]; simpl; [done|]. rewrite IH. by rewrite orb_assoc. Qed.

Lemma Cut_app sep (a b : string) :
  contains_byte sep a = false → Cut sep (a +:+ String sep b) = (a, b, true).
Proof.
  induction a as [|x a IH]; simpl; intros Ha.
  - by rewrite bool_decide_true.
  - apply orb_false_elim in Ha as [Hx Ha]. by rewrite Hx, IH.
Qed.

Lemma Cut_none sep (s : string) : contains_byte sep s = false → Cut sep s = (s, "", false).
Proof.
  induction s as [|x s IH]; simpl; intros Hs; [done|].
  apply orb_false_elim in Hs as [Hx Hs]. by rewrite Hx, IH.
Qed.

Lemma Cut_spec sep (s a b : string) :
  Cut sep s = (a, b, true) → s = a +:+ String sep b ∧ contains_byte sep a = false.
Proof.
  revert a b. induction s as [|x s IH]; simpl; intros a b; [done|].
  case_bool_decide as Hx; [by intros [= <- <-]; subst|].
  destruct (Cut sep s) as [[a' b'] [|]] eqn:E; intros [= <- <-].
  destruct (IH a' b' eq_refl) as [-> Ha]. simpl. by rewrite bool_decide_false.
Qed.

Lemma Cut_false sep (s a b : string) :
  Cut sep s = (a, b, false) → a = s ∧ b = "" ∧ contains_byte sep s = false.
Proof.
  revert a b. induction s as [|x s IH]; simpl; intros a b; [by intros [= <- <-]|].
  case_bool_decide as Hx; [done|].
  destruct (Cut sep s) as [[a' b'] [|]] eqn:E; intros [= <- <-].
  by destruct (IH a' b' eq_refl) as (-> & -> & ?).
Qed.

Lemma cut_last_none sep (s : string) : cut_last sep s = None ↔ contains_byte sep s = false.
Proof.
  induction s as [|x s IH]; simpl; [done|].
  destruct (cut_last sep s) as [[a b]|]; case_bool_decide; simpl; split; try done.
  all: intros Hs; apply IH in Hs; done.
Qed.

Lemma cut_last_app sep (a b : string) :
  contains_byte sep b = false → cut_last sep (a +:+ String sep b) = Some (a, b).
Proof.
  intros Hb. apply cut_last_none in Hb. induction a as [|x a IH]; simpl.
  - by rewrite Hb, bool_decide_true.
  - by rewrite IH.
Qed.

Lemma cut_last_spec sep (s a b : string) :
  cut_last sep s = Some (a, b) → s = a +:+ String sep b ∧ contains_byte sep b = false.
Proof.
  revert a b. induction s as [|x s IH]; simpl; intros a b; [done|].
  destruct (cut_last sep s) as [[a' b']|] eqn:E.
  - intros [= <- <-]. by destruct (IH a' b' eq_refl) as [-> ?].
  - case_bool_decide; intros [= <- <-]. subst. split; [done|]. by apply cut_last_none.
Qed.

Lemma CutPrefix_app (p s : string) : CutPrefix p (p +:+ s) = Some s.
Proof. induction p as [|x p IH]; simpl; [done|]. by rewrite bool_decide_true. Qed.

Lemma CutPrefix_spec (p s r : string) : CutPrefix p s = Some r ↔ s = p +:+ r.
Proof.
  split; [|intros ->; apply CutPrefix_app].
  revert s. induction p as [|x p IH]; intros [|y s]; simpl; try (by intros [= ->]); try done.
  case_bool_decide as Hxy; [|done]. intros Hs. apply IH in Hs. by subst.
Qed.

Lemma HasPrefix_spec (s p : string) : HasPrefix s p = true ↔ ∃ r, s = p +:+ r.
Proof.
  unfold HasPrefix. destruct (CutPrefix p s) as [r|] eqn:E; split; try done.
  - intros _. apply CutPrefix_spec in E. eauto.
  - intros [r ->]. by rewrite CutPrefix_app in E.
Qed.

Lemma CutSuffix_app (s suf : string) : CutSuffix (s +:+ suf) suf = Some s.
Proof.
  assert (Hlen : ∀ t, t = s +:+ suf → bool_decide (t = suf) = bool_decide (s = "")).
  { intros t ->. apply bool_decide_ext. split.
    - intros E. apply (f_equal String.length) in E. rewrite string_length_app in E.
      destruct s; simpl in *; [done|lia].
    - intros ->. done. }
  induction s as [|x s IH]; simpl.
  - destruct suf; simpl; by rewrite ?bool_decide_true.
  - rewrite bool_decide_false.
    + rewrite IH; [done|]. intros t ->. apply bool_decide_ext. split.
      * intros E. apply (f_equal String.length) in E. rewrite string_length_app in E.
        destruct s; simpl in *; [done|lia].
      * intros ->. done.
    + intros E. specialize (Hlen _ eq_refl). simpl in Hlen.
      by rewrite !bool_decide_true in Hlen by done.
Qed.

Lemma CutSuffix_spec (s suf r : string) : CutSuffix s suf = Some r ↔ s = r +:+ suf.
Proof.
  split; [|intros ->; apply CutSuffix_app].
  revert r. induction s as [|x s IH]; intros r; simpl.
  - case_bool_decide as E; [|done]. intros [= <-]. done.
  - case_bool_decide as E; [by intros [= <-]|].
    destruct (CutSuffix s suf) as [a|] eqn:Ea; [|done]. intros [= <-].
    by rewrite (IH a eq_refl).
Qed.

Lemma HasSuffix_spec (s suf : string) : HasSuffix s suf = true ↔ ∃ r, s = r +:+ suf.
Proof.
  unfold HasSuffix. destruct (CutSuffix s suf) as [r|] eqn:E; split; try done.
  - intros _. apply CutSuffix_spec in E. eauto.
  - intros [r ->]. by rewrite CutSuffix_app in E.
Qed.

Lemma drop_str_app a b : drop_str (String.length a) (a +:+ b) = b.
Proof. induction a; simpl; [by destruct b|done]. Qed.

Lemma take_str_app (a b : string) : take_str (String.length a) (a +:+ b) = a.
Proof. induction a as [|c a IH]; simpl; [by destruct b|by rewrite IH]. Qed.

(** Split a string at a position. *)
Lemma split_at n (s : string) :
  (n ≤ String.length s)%nat → ∃ a b, s = a +:+ b ∧ String.length a = n.
Proof.
  revert s. induction n as [|n IH]; intros s Hn; [by exists "", s|].
  destruct s as [|c s]; simpl in Hn; [lia|].
  destruct (IH s ltac:(lia)) as (a & b & -> & Ha). exists (String c a), b. simpl. by rewrite Ha.
Qed.

Lemma Split_none sep (s : string) : contains_byte sep s = false → Split sep s = [s].
Proof.
  induction s as [|c s IH]; simpl; intros Hs; [done|].
  apply orb_false_elim in Hs as [Hc Hs]. by rewrite Hc, IH.
Qed.

Lemma Split_app sep (a b : string) :
  contains_byte sep a = false → Split sep (a +:+ String sep b) = a :: Split sep b.
Proof.
  induction a as [|c a IH]; simpl; intros Ha; [by rewrite bool_decide_true|].
  apply orb_false_elim in Ha as [Hc Ha]. by rewrite Hc, IH.
Qed.

Lemma digits_val_acc_mono acc (s : string) n :
  0 ≤ acc → digits_val_acc acc s = Some n → acc ≤ n.
Proof.
  revert acc. induction s as [|c s IH]; simpl; intros acc Hacc; [intros [= ->]; lia|].
  destruct (is_digit c) eqn:Hd; [|done]. intros Hs.
  assert (0 ≤ digit_val c).
  { unfold is_digit, digit_val in *. lia. }
  apply IH in Hs; lia.
Qed.

Lemma ParseUint10_nonneg s n : ParseUint10 s = Some n → 0 ≤ n.
Proof. destruct s; [done|]. intros Hs. by apply digits_val_acc_mono in Hs. Qed.

Lemma ParseInt10_range s n : ParseInt10 s = Some n → min_int64 ≤ n ≤ max_int64.
Proof.
  unfold ParseInt10. set (p := match s with EmptyString => _ | String c t => _ end).
  destruct p as [neg body]. destruct (ParseUint10 body); [|done].
  destruct neg; case_match; intros [= <-]; lia.
Qed.

(** An unsigned decimal in range parses to its value. *)
Lemma ParseInt10_digits s n :
  ParseUint10 s = Some n → n ≤ max_int64 → ParseInt10 s = Some n.
Proof.
  intros Hu Hn. pose proof (ParseUint10_nonneg _ _ Hu) as H0. unfold ParseInt10.
  destruct s as [|c t]; [done|].
  assert (is_digit c = true) as Hd.
  { simpl in Hu. by destruct (is_digit c). }
  rewrite !bool_decide_false; [|intros ->; done..].
  rewrite Hu. replace ((min_int64 <=? n) && (n <=? max_int64)) with true; [done|].
  unfold min_int64. lia.
Qed.

(** *** Printing and parsing back *)

Lemma pretty_N_char_digit (x : N) : (x < 10)%N →
  is_digit (pretty_N_char x) = true ∧ digit_val (pretty_N_char x) = Z.of_N x.
Proof.
  intros Hx. destruct (decide (x ∈ [0; 1; 2; 3; 4; 5; 6; 7; 8; 9]%N)) as [Hin|Hn].
  - repeat (apply elem_of_cons in Hin as [->|Hin]; [by vm_compute|]). by apply elem_of_nil in Hin.
  - destruct Hn. rewrite !elem_of_cons. lia.
Qed.

Lemma pretty_N_go_digits (x : N) s :
  digits_val_acc 0 (pretty_N_go x s) = digits_val_acc (Z.of_N x) s.
Proof.
  revert s. induction (N.lt_wf_0 x) as [x _ IH]. intros s.
  destruct (decide (0 < x)%N) as [Hx|Hx].
  2: { assert (x = 0%N) as -> by lia. by rewrite pretty_N_go_0. }
  rewrite pretty_N_go_step by done. rewrite IH by (apply N.div_lt; lia). simpl.
  destruct (pretty_N_char_digit (x mod 10)) as [-> ->]; [by apply N.mod_lt|].
  f_equal. pose proof (N.div_mod x 10). lia.
Qed.

Lemma pretty_N_unsigned (x : N) : ParseUint10 (pretty x) = Some (Z.of_N x).
Proof.
  destruct (decide (x = 0%N)) as [->|Hx]; [by vm_compute|].
  unfold pretty, pretty_N. rewrite decide_False by done.
  assert (Hd : digits_val_acc 0 (pretty_N_go x "") = Some (Z.of_N x)) by apply pretty_N_go_digits.
  unfold ParseUint10. destruct (pretty_N_go x "") eqn:Hp; [|done].
  simpl in Hd. injection Hd as Hd. lia.
Qed.

(** [strconv.FormatInt] and [ParseInt] are inverse on 64-bit integers. *)
Lemma ParseInt10_pretty (z : Z) :
  min_int64 ≤ z ≤ max_int64 → ParseInt10 (pretty z) = Some z.
Proof.
  intros Hz. destruct z as [|p|p]; [by vm_compute| |].
  - apply (ParseInt10_digits (pretty (N.pos p))); [apply pretty_N_unsigned|lia].
  - change (pretty (Z.neg p)) with ("-" +:+ pretty (N.pos p)). unfold ParseInt10.
    simpl. rewrite pretty_N_unsigned. simpl.
    unfold min_int64, max_int64 in *. by replace (_ && _) with true by lia.
Qed.

Create Rewrite HintDb go_str.
#[export] Hint Rewrite append_nil_r append_assoc contains_byte_app string_length_app : go_str.
