(* ===== verification/GoFloat.v ===== *)
(** * Go's floating-point parsing and durations

    [strconv.ParseFloat], the [float64] operations and [time.ParseDuration]
    as the configuration code uses them.  A [float64] is the standard
    library's [spec_float] at binary64 precision, so that rounding, infinities
    and NaN are those of IEEE 754.  What depends on the platform or on the
    Unicode tables is the class [GoRuntime]: the conversion of an out-of-range
    float to an integer, and [strings.ToLower] outside ASCII. *)

From S2P Require Import Prelude GoStrings.
From Stdlib Require Import SpecFloat.

#[local] Open Scope Z_scope.

(** ** [float64] *)

#[global] Notation float64 := spec_float (only parsing).

Definition f64_mul : float64 → float64 → float64 := SFmul 53 1024.
Definition f64_div : float64 → float64 → float64 := SFdiv 53 1024.
Definition f64_lt : float64 → float64 → bool := SFltb.

Definition float_of_int (n : Z) : float64 := binary_normalize 53 1024 n 0 false.

(** [mant * 10^exp10] and [mant * 2^exp2], rounded to nearest even. *)
Definition round_decimal (neg : bool) (mant exp10 : Z) : float64 :=
  match mant with
  | Zpos m =>
      if 0 <=? exp10 then binary_round 53 1024 neg (m * Z.to_pos (10 ^ exp10)) 0
      else let '(q, e, l) := SFdiv_core_binary 53 1024 mant 0 (10 ^ (- exp10)) 0 in
           binary_round_aux 53 1024 neg q e l
  | _ => S754_zero neg
  end.

Definition round_binary (neg : bool) (mant exp2 : Z) : float64 :=
  match mant with Zpos m => binary_round 53 1024 neg m exp2 | _ => S754_zero neg end.

Class GoRuntime := {
  float_out_of_range : float64 → Z;
  unicode_ToLower : string → string
}.

Definition ToLower `{GoRuntime} (s : string) : string :=
  if is_ascii s then ascii_to_lower s else unicode_ToLower s.

(** The integer part, for finite floats. *)
Definition f64_trunc (f : float64) : option Z :=
  match f with
  | S754_zero _ => Some 0
  | S754_finite s m e =>
      let a := if 0 <=? e then Zpos m * 2 ^ e else Zpos m / 2 ^ (- e) in
      Some (if s then - a else a)
  | _ => None
  end.

(** [int64(f)] *)
Definition int64_of_float `{GoRuntime} (f : float64) : Z :=
  match f64_trunc f with
  | Some n => if (min_int64 <=? n) && (n <=? max_int64) then n else float_out_of_range f
  | None => float_out_of_range f
  end.

(** ** [strconv.ParseFloat(s, 64)] *)

(** [lower(c)]: [c | ('x' - 'X')]. *)
Definition lower (c : ascii) : Z := Z.lor (byte_val c) 32.

Definition underscore : ascii := "_"%char.
Definition point : ascii := "."%char.

(** [strconv.special], for strings that it consumes entirely. *)
Definition special (s : string) : option float64 :=
  let inf := λ sign t,
    if bool_decide (ascii_to_lower t = "inf"%string)
       || bool_decide (ascii_to_lower t = "infinity"%string)
    then Some (S754_infinity sign) else None in
  match s with
  | String c t =>
      if bool_decide (c = "+"%char) then inf false t
      else if bool_decide (c = "-"%char) then inf true t
      else if bool_decide (ascii_to_lower s = "nan"%string) then Some S754_nan
      else inf false s
  | EmptyString => None
  end.

(** The digit loop of [strconv.readFloat]: mantissa, whether a digit was
    seen, digits after the point, and the unread rest.  An underscore is
    skipped here and checked by [underscoreOK]. *)
Fixpoint read_mantissa (base mant : Z) (sawdigits sawdot : bool) (frac : Z) (s : string)
    : Z * bool * Z * string :=
  match s with
  | String c t =>
      let digit := λ d, read_mantissa base (mant * base + d) true sawdot
                          (if sawdot then frac + 1 else frac) t in
      if bool_decide (c = underscore) then read_mantissa base mant sawdigits sawdot frac t
      else if bool_decide (c = point) then
        if sawdot then (mant, sawdigits, frac, s)
        else read_mantissa base mant sawdigits true frac t
      else if is_digit c then digit (digit_val c)
      else if (base =? 16) && (97 <=? lower c) && (lower c <=? 102) then digit (lower c - 87)
      else (mant, sawdigits, frac, s)
  | EmptyString => (mant, sawdigits, frac, s)
  end.

(** The exponent digits; [e] stops growing at 10000. *)
Fixpoint read_exponent (e : Z) (s : string) : Z * string :=
  match s with
  | String c t =>
      if bool_decide (c = underscore) then read_exponent e t
      else if is_digit c then
        read_exponent (if e <? 10000 then e * 10 + digit_val c else e) t
      else (e, s)
  | EmptyString => (e, s)
  end.

(** [strconv.underscoreOK] on an unsigned number: [prev] is '0' after a digit
    or the base prefix, '_' after an underscore, '!' otherwise. *)
Fixpoint underscores_ok (hex : bool) (prev : ascii) (s : string) : bool :=
  match s with
  | String c t =>
      if is_digit c || hex && (97 <=? lower c) && (lower c <=? 102)
      then underscores_ok hex "0"%char t
      else if bool_decide (c = underscore) then
        bool_decide (prev = "0"%char) && underscores_ok hex underscore t
      else if bool_decide (prev = underscore) then false
      else underscores_ok hex "!"%char t
  | EmptyString => negb (bool_decide (prev = underscore))
  end.

Definition split_sign (s : string) : bool * string :=
  match s with
  | String c t =>
      if bool_decide (c = "+"%char) then (false, t)
      else if bool_decide (c = "-"%char) then (true, t) else (false, s)
  | EmptyString => (false, s)
  end.

(** [0x] followed by at least one more byte. *)
Definition hex_prefix (s : string) : option string :=
  match s with
  | String c (String x (String d t)) =>
      if bool_decide (c = "0"%char) && (lower x =? 120) then Some (String d t) else None
  | _ => None
  end.

(** The optional exponent: [None] on a syntax error.  A hexadecimal mantissa
    needs one. *)
Definition read_exp_part (hex : bool) (s : string) : option Z :=
  match s with
  | EmptyString => if hex then None else Some 0
  | String c t =>
      if lower c =? (if hex then 112 else 101) then
        let '(neg, t) := split_sign t in
        match t with
        | String d _ =>
            if is_digit d then
              let '(e, rest) := read_exponent 0 t in
              if bool_decide (rest = EmptyString) then Some (if neg : bool then - e else e) else None
            else None
        | EmptyString => None
        end
      else None
  end.

(** A float64 that overflowed is [ErrRange]. *)
Definition in_range (f : float64) : option float64 :=
  match f with S754_infinity _ | S754_nan => None | _ => Some f end.

Definition ParseFloat (s : string) : option float64 :=
  match special s with
  | Some f => Some f
  | None =>
      let '(neg, body) := split_sign s in
      let '(hex, digits) :=
        match hex_prefix body with Some t => (true, t) | None => (false, body) end in
      let '(mant, sawdigits, frac, rest) :=
        read_mantissa (if hex : bool then 16 else 10) 0 false false 0 digits in
      if negb sawdigits then None
      else match read_exp_part hex rest with
           | None => None
           | Some e =>
               if contains_byte underscore s
                  && negb (underscores_ok hex (if hex : bool then "0" else "!")%char digits)
               then None
               else in_range (if hex : bool then round_binary neg mant (e - 4 * frac)
                              else round_decimal neg mant (e - frac))
           end
  end.

(** ** [time.ParseDuration] *)

Definition Nanosecond : Z := 1.
Definition Microsecond : Z := 1000 * Nanosecond.
Definition Millisecond : Z := 1000 * Microsecond.
Definition Second : Z := 1000 * Millisecond.
Definition Minute : Z := 60 * Second.
Definition Hour : Z := 60 * Minute.

(** A byte by its code. *)
Definition byte_of (n : N) : ascii := ascii_of_N n.

Definition unitMap (u : string) : option Z :=
  if bool_decide (u = "ns"%string) then Some Nanosecond
  else if bool_decide (u = "us"%string)
          || bool_decide (u = String (byte_of 194) (String (byte_of 181) "s"))
          || bool_decide (u = String (byte_of 206) (String (byte_of 188) "s"))
  then Some Microsecond
  else if bool_decide (u = "ms"%string) then Some Millisecond
  else if bool_decide (u = "s"%string) then Some Second
  else if bool_decide (u = "m"%string) then Some Minute
  else if bool_decide (u = "h"%string) then Some Hour
  else None.

(** [leadingInt]: the value, the rest, [None] on overflow. *)
Fixpoint leadingInt (x : Z) (s : string) : option (Z * string) :=
  match s with
  | String c t =>
      if is_digit c then
        if 2 ^ 63 / 10 <? x then None
        else let x := x * 10 + digit_val c in
             if 2 ^ 63 <? x then None else leadingInt x t
      else Some (x, s)
  | EmptyString => Some (x, s)
  end.

(** [leadingFraction]: digits beyond the int64 range are dropped. *)
Fixpoint leadingFraction (x scale : Z) (overflow : bool) (s : string) : Z * Z * string :=
  match s with
  | String c t =>
      if is_digit c then
        if overflow then leadingFraction x scale overflow t
        else if (2 ^ 63 - 1) / 10 <? x then leadingFraction x scale true t
        else let y := x * 10 + digit_val c in
             if 2 ^ 63 <? y then leadingFraction x scale true t
             else leadingFraction y (scale * 10) false t
      else (x, scale, s)
  | EmptyString => (x, scale, s)
  end.

Definition unit_byte (c : ascii) : bool := negb (is_digit c || bool_decide (c = point)).

Fixpoint drop_while (P : ascii → bool) (s : string) : string :=
  match s with
  | String c t => if P c then drop_while P t else s
  | EmptyString => s
  end.

(** One [v.f unit] group: nanoseconds and the rest of the string. *)
Definition duration_group (s : string) : option (Z * string) :=
  '(v, t) ← leadingInt 0 s;
  let pre := negb (bool_decide (t = s)) in
  let '(f, scale, post, t) :=
    match t with
    | String c t' =>
        if bool_decide (c = point) then
          let '(f, scale, t'') := leadingFraction 0 1 false t' in
          (f, scale, negb (bool_decide (t'' = t')), t'')
        else (0, 1, false, t)
    | EmptyString => (0, 1, false, t)
    end in
  if negb (pre || post) then None
  else match unitMap (take_while unit_byte t) with
       | None => None
       | Some unit =>
           if 2 ^ 63 / unit <? v then None
           else let v := v * unit in
                let v := if 0 <? f
                         then v + default 0 (f64_trunc (f64_mul (float_of_int f)
                                (f64_div (float_of_int unit) (float_of_int scale))))
                         else v in
                if 2 ^ 63 <? v then None else Some (v, drop_while unit_byte t)
       end.

(** The loop over the groups; each group consumes at least its unit, so the
    length of the string is enough fuel. *)
Fixpoint duration_groups (fuel : nat) (d : Z) (s : string) : option Z :=
  match s with
  | EmptyString => Some d
  | _ =>
      match fuel with
      | O => None
      | S fuel =>
          '(v, t) ← duration_group s;
          let d := (d + v) mod 2 ^ 64 in
          if 2 ^ 63 <? d then None else duration_groups fuel d t
      end
  end.

Definition ParseDuration (s : string) : option Z :=
  let '(neg, s) := split_sign s in
  if bool_decide (s = "0"%string) then Some 0
  else if bool_decide (s = EmptyString) then None
  else match duration_groups (String.length s) 0 s with
       | None => None
       | Some d =>
           if neg : bool then Some (- d)
           else if 2 ^ 63 - 1 <? d then None else Some d
       end.

(** ** [strings.TrimSpace] and [unicode.IsControl] on UTF-8 *)

(** The encodings of the code points of [unicode.IsSpace]. *)
Definition space_runes : list string :=
  let b1 := λ a, String (byte_of a) EmptyString in
  let b2 := λ a b, String (byte_of a) (b1 b) in
  let b3 := λ a b c, String (byte_of a) (b2 b c) in
  [b1 9; b1 10; b1 11; b1 12; b1 13; b1 32; b2 194 133; b2 194 160; b3 225 154 128;
   b3 226 128 128; b3 226 128 129; b3 226 128 130; b3 226 128 131; b3 226 128 132;
   b3 226 128 133; b3 226 128 134; b3 226 128 135; b3 226 128 136; b3 226 128 137;
   b3 226 128 138; b3 226 128 168; b3 226 128 169; b3 226 128 175; b3 226 129 159;
   b3 227 128 128]%N.

Fixpoint strip_one (rs : list string) (s : string) : option string :=
  match rs with
  | [] => None
  | r :: rs => match CutPrefix r s with Some t => Some t | None => strip_one rs s end
  end.

Fixpoint strip_all (fuel : nat) (rs : list string) (s : string) : string :=
  match fuel with
  | O => s
  | S fuel => match strip_one rs s with Some t => strip_all fuel rs t | None => s end
  end.

Fixpoint string_rev_app (s acc : string) : string :=
  match s with String c t => string_rev_app t (String c acc) | EmptyString => acc end.

Definition string_rev (s : string) : string := string_rev_app s EmptyString.

(** Every stripped rune has a byte, so the length is enough fuel.  On the
    right the last rune is read backwards, as by [DecodeLastRuneInString]. *)
Definition TrimSpace (s : string) : string :=
  let s := strip_all (String.length s) space_runes s in
  string_rev (strip_all (String.length s) (map string_rev space_runes) (string_rev s)).

(** [strings.IndexFunc(s, unicode.IsControl) >= 0]: the control characters are
    U+0000-U+001F, U+007F and U+0080-U+009F, the last range encoded as the byte
    C2, which only ever starts a rune, and a byte in 80-9F. *)
Fixpoint has_control (s : string) : bool :=
  match s with
  | EmptyString => false
  | String c t =>
      (byte_val c <? 32) || (byte_val c =? 127)
      || (byte_val c =? 194) && match t with
                                | String d _ => (128 <=? byte_val d) && (byte_val d <=? 159)
                                | EmptyString => false
                                end
      || has_control t
  end.

(** ** Lemmas *)

(** NaN is not below anything, everything else is not below itself. *)
Lemma f64_lt_irrefl (x : float64) : f64_lt x x = false.
Proof.
  unfold f64_lt, SFltb, SFcompare.
  destruct x as [s|s| |s m e]; try destruct s; try done; rewrite Z.compare_refl;
    rewrite ?Pos.compare_cont_refl; done.
Qed.

Lemma f64_lt_nan_l x : f64_lt S754_nan x = false.
Proof. done. Qed.

Lemma f64_lt_nan_r x : f64_lt x S754_nan = false.
Proof. by destruct x. Qed.

Lemma string_length_rev_app s acc :
  String.length (string_rev_app s acc) = (String.length s + String.length acc)%nat.
Proof. revert acc; induction s as [|c s IH]; intros acc; simpl; [done|]. rewrite IH; simpl; lia. Qed.

Lemma drop_while_length P s : (String.length (drop_while P s) ≤ String.length s)%nat.
Proof. induction s as [|c s IH]; simpl; [lia|]. destruct (P c); simpl; lia. Qed.

Example ParseFloat_examples :
  ParseFloat "1.5" = Some (S754_finite false 6755399441055744 (-52))
  ∧ ParseFloat "0x1p-2" = Some (S754_finite false 4503599627370496 (-54))
  ∧ ParseFloat "1e400" = None ∧ ParseFloat "1__0" = None ∧ ParseFloat "." = None.
Proof. vm_compute. done. Qed.

Example ParseDuration_examples :
  ParseDuration "1h30m" = Some (90 * Minute) ∧ ParseDuration "1.5ms" = Some 1500000
  ∧ ParseDuration "-2s" = Some (-2 * Second) ∧ ParseDuration "5min" = None
  ∧ ParseDuration "100" = None.
Proof. vm_compute. done. Qed.

Example TrimSpace_examples :
  TrimSpace "  a b " = "a b"%string ∧ TrimSpace "   " = ""%string.
Proof. vm_compute. done. Qed.
