(* ===== verification/GoFloatBounds.v ===== *)
(** * Bounds on [float64] products

    How far above the exact value a rounded product can be: enough to bound a
    fraction of an integer that the Go code takes in floating point. *)

From S2P Require Import Prelude GoStrings GoFloat.
From Stdlib Require Import SpecFloat.

#[local] Open Scope Z_scope.

(** ** Shifting right *)

Lemma shr_1_le mrs : 0 ≤ shr_m mrs → 0 ≤ shr_m (shr_1 mrs) ∧ shr_m (shr_1 mrs) * 2 ≤ shr_m mrs.
Proof. destruct mrs as [m sr ss]. destruct m as [|[p|p|]|]; simpl; lia. Qed.

Lemma iter_shr_le p mrs :
  0 ≤ shr_m mrs →
  0 ≤ shr_m (iter_pos shr_1 p mrs) ∧ shr_m (iter_pos shr_1 p mrs) * 2 ^ Zpos p ≤ shr_m mrs.
Proof.
  revert mrs. induction p as [p IH|p IH|]; intros mrs Hm; cbn [iter_pos].
  - destruct (shr_1_le mrs Hm) as [H1 H1']. destruct (IH _ H1) as [H2 H2'].
    destruct (IH _ H2) as [H3 H3']. split; [done|].
    replace (Zpos p~1) with (Zpos p + Zpos p + 1) by lia. rewrite !Z.pow_add_r by lia.
    assert (0 < 2 ^ Zpos p) by (apply Z.pow_pos_nonneg; lia). nia.
  - destruct (IH _ Hm) as [H2 H2']. destruct (IH _ H2) as [H3 H3']. split; [done|].
    replace (Zpos p~0) with (Zpos p + Zpos p) by lia. rewrite Z.pow_add_r by lia.
    assert (0 < 2 ^ Zpos p) by (apply Z.pow_pos_nonneg; lia). nia.
  - by apply shr_1_le.
Qed.

Lemma shr_le mrs e n mrs' e' :
  shr mrs e n = (mrs', e') → 0 ≤ shr_m mrs →
  0 ≤ shr_m mrs' ∧ e' = e + Z.max n 0 ∧ shr_m mrs' * 2 ^ Z.max n 0 ≤ shr_m mrs.
Proof.
  destruct n as [|p|p]; cbn [shr]; intros [= <- <-] Hm.
  1,3: rewrite Z.max_r by lia; change (2 ^ 0) with 1; lia.
  destruct (iter_shr_le p mrs Hm). split; [done|]. split; [lia|]. by rewrite Z.max_l by lia.
Qed.

Lemma shr_id mrs e n : n ≤ 0 → shr mrs e n = (mrs, e).
Proof. by destruct n. Qed.

Lemma round_nearest_even_le m l : round_nearest_even m l ≤ m + 1 ∧ m ≤ round_nearest_even m l.
Proof. destruct l as [|[]]; simpl; try case_match; lia. Qed.

(** ** Digits *)

Lemma digits2_pos_bound p : 2 ^ (Zpos (digits2_pos p) - 1) ≤ Zpos p.
Proof.
  induction p as [p IH|p IH|]; cbn [digits2_pos]; [| |done].
  all: replace (Zpos (Pos.succ (digits2_pos p)) - 1) with (Z.succ (Zpos (digits2_pos p) - 1)) by lia.
  all: rewrite Z.pow_succ_r by lia; lia.
Qed.

(** ** Rounding *)

Definition pack (m e : Z) : float64 :=
  match m with
  | Z0 => S754_zero false
  | Zpos m => if e <=? 971 then S754_finite false m e else S754_infinity false
  | _ => S754_nan
  end.

(** Rounding adds at most one part in [2^52]. *)
Lemma round_bound p ex : -1074 ≤ ex →
  ∃ m e, binary_round_aux 53 1024 false (Zpos p) ex loc_Exact = pack m e ∧
    0 ≤ m ∧ ex ≤ e ∧ m * 2 ^ (e - ex) * 2 ^ 52 ≤ Zpos p * (2 ^ 52 + 1).
Proof.
  intros Hex. unfold binary_round_aux, shr_fexp.
  set (n1 := fexp 53 1024 _ - ex).
  destruct (shr (shr_record_of_loc (Zpos p) loc_Exact) ex n1) as [mrs1 e1] eqn:H1.
  set (m1 := round_nearest_even (shr_m mrs1) (loc_of_shr_record mrs1)).
  set (n2 := fexp 53 1024 _ - e1).
  destruct (shr (shr_record_of_loc m1 loc_Exact) e1 n2) as [mrs2 e2] eqn:H2.
  destruct (shr_le _ _ _ _ _ H1) as (Hm1 & He1 & Hv1); [simpl; lia|]. simpl in Hv1.
  destruct (round_nearest_even_le (shr_m mrs1) (loc_of_shr_record mrs1)) as [Hr1 Hr2]. fold m1 in Hr1, Hr2.
  destruct (shr_le _ _ _ _ _ H2) as (Hm2 & He2 & Hv2); [simpl; lia|]. simpl in Hv2.
  exists (shr_m mrs2), e2. split; [done|]. split; [done|]. split; [lia|].
  assert (n1 ≤ 0 ∨ 2 ^ n1 * 2 ^ 52 ≤ Zpos p) as Hn1.
  { unfold n1, fexp, emin. cbn [Zdigits2]. pose proof (digits2_pos_bound p) as Hd.
    destruct (Z.le_gt_cases (Z.max (Zpos (digits2_pos p) + ex - 53) (3 - 1024 - 53) - ex) 0); [by left|right].
    rewrite <-Z.pow_add_r by lia.
    replace (Z.max (Zpos (digits2_pos p) + ex - 53) (3 - 1024 - 53) - ex + 52)
      with (Zpos (digits2_pos p) - 1) by lia. done. }
  replace (e2 - ex) with (Z.max n1 0 + Z.max n2 0) by lia. rewrite Z.pow_add_r by lia.
  assert (0 < 2 ^ Z.max n1 0) by (apply Z.pow_pos_nonneg; lia).
  assert (shr_m mrs2 * (2 ^ Z.max n1 0 * 2 ^ Z.max n2 0) ≤ m1 * 2 ^ Z.max n1 0) by nia.
  destruct (Z.le_gt_cases n1 0) as [Hneg|Hpos].
  - rewrite shr_id in H1 by done. injection H1 as <- <-. unfold m1 in *. cbn [shr_m shr_record_of_loc
      loc_of_shr_record round_nearest_even] in *. rewrite (Z.max_r n1) in * by lia.
    change (2 ^ 0) with 1 in *. nia.
  - destruct Hn1 as [|Hn1]; [lia|]. rewrite (Z.max_l n1) in * by lia. nia.
Qed.

(** The normalisation of a positive integer. *)
Lemma float_of_int_bound p :
  ∃ s m e, float_of_int (Zpos p) = pack m e ∧ 0 ≤ s ≤ 53 ∧ 0 ≤ m ∧ - s ≤ e ∧
    m * 2 ^ (e + s) * 2 ^ 52 ≤ Zpos p * 2 ^ s * (2 ^ 52 + 1).
Proof.
  unfold float_of_int, binary_normalize, binary_round, shl_align.
  destruct (fexp 53 1024 (Zpos (digits2_pos p) + 0) - 0) as [|n|n] eqn:Hn.
  1,2: destruct (round_bound p 0 ltac:(lia)) as (m & e & -> & Hm & He & Hv); exists 0, m, e;
    split; [done|]; rewrite Z.add_0_r, Z.sub_0_r in *; change (2 ^ 0) with 1; lia.
  assert (Zneg n = fexp 53 1024 (Zpos (digits2_pos p) + 0)) as Hf by lia. rewrite <-Hf.
  unfold fexp, emin in Hf.
  destruct (round_bound (Pos.iter xO p n) (Zneg n) ltac:(lia)) as (m & e & -> & Hm & He & Hv).
  exists (Zpos n), m, e. split; [done|]. split; [lia|]. split; [done|]. split; [lia|].
  replace (e - Zneg n) with (e + Zpos n) in Hv by lia.
  replace (Zpos (Pos.iter xO p n)) with (Zpos p * 2 ^ Zpos n) in Hv; [done|].
  clear. induction n using Pos.peano_ind; [simpl; lia|].
  rewrite Pos.iter_succ. rewrite Pos2Z.inj_succ, Z.pow_succ_r by lia. rewrite (Pos2Z.inj_xO (Pos.iter xO p n)), <-IHn. ring.
Qed.

(** The integer part of a float [m * 2^e] that is at most a share of [p]. *)
Lemma trunc_bound p m e s num den :
  Zpos p ≤ 2 ^ 53 → 0 ≤ m → 0 ≤ s → - s - 53 ≤ e → 0 < den ≤ num →
  m * 2 ^ (e + (s + 53)) * num ≤ Zpos p * 2 ^ (s + 53) * den →
  ∃ n, f64_trunc (pack m e) = Some n ∧ 0 ≤ n ∧ n * num ≤ Zpos p * den.
Proof.
  intros Hp Hm Hs Hes Hden Hv.
  assert (0 < 2 ^ (s + 53)) as Hs53 by (apply Z.pow_pos_nonneg; lia).
  destruct m as [|m|]; [exists 0; split; [done|lia]| |lia].
  assert (Zpos m * 2 ^ (e + (s + 53)) ≤ Zpos p * 2 ^ (s + 53)) as Hv'.
  { apply (Z.mul_le_mono_pos_r _ _ num); [lia|]. etransitivity; [exact Hv|].
    apply Z.mul_le_mono_nonneg_l; [|lia]. apply Z.mul_nonneg_nonneg; lia. }
  assert (e ≤ 971) as He'.
  { destruct (Z.le_gt_cases e 971) as [|Hbig]; [done|exfalso].
    assert (2 ^ (e + (s + 53)) = 2 ^ e * 2 ^ (s + 53)) as Heq by (rewrite Z.pow_add_r; lia).
    assert (2 ^ 60 ≤ 2 ^ e) by (apply Z.pow_le_mono_r; lia). nia. }
  simpl. replace (e <=? 971) with true by lia. simpl. eexists. split; [done|]. clear Hv'.
  case_match.
  - rewrite Z.pow_add_r in Hv by lia. assert (0 < 2 ^ e) by (apply Z.pow_pos_nonneg; lia). split; [lia|].
    apply (Z.mul_le_mono_pos_r _ _ (2 ^ (s + 53))); [done|]. lia.
  - assert (0 < 2 ^ (- e)) as Hpos by (apply Z.pow_pos_nonneg; lia). split; [by apply Z.div_pos|].
    assert (2 ^ (s + 53) = 2 ^ (e + (s + 53)) * 2 ^ (- e)) as Heq by (rewrite <-Z.pow_add_r by lia; f_equal; lia).
    assert (0 < 2 ^ (e + (s + 53))) as HA by (apply Z.pow_pos_nonneg; lia). rewrite Heq in Hv.
    pose proof (Z.mul_div_le (Zpos m) (2 ^ (- e)) Hpos) as Hdiv. set (n := Zpos m / 2 ^ (- e)) in *.
    apply (Z.mul_le_mono_pos_r _ _ (2 ^ (e + (s + 53)) * 2 ^ (- e))); [by apply Z.mul_pos_pos|].
    apply (Z.mul_le_mono_nonneg_r _ _ (num * 2 ^ (e + (s + 53)))) in Hdiv; [lia|]. apply Z.mul_nonneg_nonneg; lia.
Qed.

(** Multiplying a positive integer of at most 53 bits by a fraction with a
    53-bit mantissa that is a little below [den / num]: the integer part of the
    rounded product is at most that share of the integer. *)
Lemma fraction_bound p c num den :
  Zpos p ≤ 2 ^ 53 → 0 < den ≤ num → Zpos c * (2 ^ 52 + 1) ^ 2 * num ≤ 2 ^ 157 * den →
  ∃ n, f64_trunc (f64_mul (float_of_int (Zpos p)) (S754_finite false c (-53))) = Some n ∧
    0 ≤ n ∧ n * num ≤ Zpos p * den.
Proof.
  intros Hp Hden Hshare. assert (Zpos c * (2 ^ 52 + 1) ^ 2 ≤ 2 ^ 157) as Hc by nia.
  destruct (float_of_int_bound p) as (s & m1 & e1 & -> & Hs & Hm1 & He1 & Hv1).
  destruct m1 as [|m1|]; [exists 0; split; [done|lia]| |lia].
  assert (e1 ≤ 971) as He1'.
  { destruct (Z.le_gt_cases e1 971) as [|Hbig]; [done|exfalso].
    assert (2 ^ 53 < 2 ^ (e1 + s)) by (apply Z.pow_lt_mono_r; lia).
    assert (0 < 2 ^ s ≤ 2 ^ 53) by (split; [apply Z.pow_pos_nonneg; lia|apply Z.pow_le_mono_r; lia]).
    assert (2 ^ (e1 + s) = 2 ^ e1 * 2 ^ s) as Heq by (rewrite Z.pow_add_r; lia).
    assert (2 ^ 60 ≤ 2 ^ e1) by (apply Z.pow_le_mono_r; lia). nia. }
  simpl. replace (e1 <=? 971) with true by lia. unfold f64_mul. cbn [SFmul xorb].
  destruct (round_bound (m1 * c) (e1 + -53) ltac:(lia)) as (m2 & e2 & -> & Hm2 & He2 & Hv2).
  rewrite Pos2Z.inj_mul in Hv2.
  set (k1 := e1 + s) in *. set (k2 := e2 - (e1 + -53)) in *.
  assert (0 < 2 ^ k1) by (apply Z.pow_pos_nonneg; lia).
  assert (0 < 2 ^ s) by (apply Z.pow_pos_nonneg; lia).
  assert (m2 * 2 ^ k2 * 2 ^ k1 * num ≤ Zpos p * 2 ^ s * 2 ^ 53 * den) as Hv.
  { assert (m2 * 2 ^ k2 * 2 ^ 52 * (2 ^ k1 * 2 ^ 52) ≤ Zpos m1 * Zpos c * (2 ^ 52 + 1) * (2 ^ k1 * 2 ^ 52)) by nia.
    assert (Zpos m1 * 2 ^ k1 * 2 ^ 52 * (Zpos c * (2 ^ 52 + 1))
            ≤ Zpos p * 2 ^ s * (2 ^ 52 + 1) * (Zpos c * (2 ^ 52 + 1))) by nia.
    assert (Zpos p * 2 ^ s * (Zpos c * (2 ^ 52 + 1) ^ 2 * num) ≤ Zpos p * 2 ^ s * (2 ^ 157 * den)) by nia.
    assert (m2 * 2 ^ k2 * 2 ^ k1 * 2 ^ 104 ≤ Zpos p * 2 ^ s * (Zpos c * (2 ^ 52 + 1) ^ 2)) as HX by lia.
    apply (Z.mul_le_mono_nonneg_r _ _ num) in HX; [|lia]. lia. }
  rewrite <-(Z.mul_assoc m2), <-Z.pow_add_r in Hv by lia. rewrite <-(Z.mul_assoc (Zpos p)), <-Z.pow_add_r in Hv by lia.
  replace (k2 + k1) with (e2 + (s + 53)) in Hv by lia.
  apply (trunc_bound p m2 e2 s num den); [done|done|lia|lia|done|exact Hv].
Qed.
