(* ===== verification/GoTime.v ===== *)
(** * Go's [time] package as the operator uses it

    An instant is a number of nanoseconds since the Unix epoch.  [Format] and
    [Parse] with the layout [time.RFC3339] are written out on the proleptic
    Gregorian calendar; [Parse] is the general parser, which accepts more than
    [Format] prints (a one-digit hour, a fraction, a zone offset).  The main
    result is that an instant printed in UTC is read back to the second. *)

From stdpp Require Import pretty.
From S2P Require Import Prelude GoStrings GoFloat.

#[local] Open Scope Z_scope.

(** ** The calendar *)

(** The date of a day counted from 1 January 1970: the 400-year era, the day of
    the era, its year, the day of a year that starts in March, its month. *)
Definition year_of_era (doe : Z) : Z := (doe - doe / 1460 + doe / 36524 - doe / 146096) / 365.

Definition date_of_era (doe : Z) : Z * Z * Z :=
  let yoe := year_of_era doe in
  let doy := doe - (365 * yoe + yoe / 4 - yoe / 100) in
  let mp := (5 * doy + 2) / 153 in
  let d := doy - (153 * mp + 2) / 5 + 1 in
  let m := if mp <? 10 then mp + 3 else mp - 9 in
  (if m <=? 2 then yoe + 1 else yoe, m, d).

Definition civil_of_days (days : Z) : Z * Z * Z :=
  let z := days + 719468 in
  let '(y, m, d) := date_of_era (z mod 146097) in
  (y + 400 * (z / 146097), m, d).

Definition days_of_civil (y m d : Z) : Z :=
  let y := if m <=? 2 then y - 1 else y in
  let yoe := y mod 400 in
  let doy := (153 * (if 2 <? m then m - 3 else m + 9) + 2) / 5 + d - 1 in
  (y / 400) * 146097 + (yoe * 365 + yoe / 4 - yoe / 100 + doy) - 719468.

Definition is_leap (y : Z) : bool :=
  (y mod 4 =? 0) && (negb (y mod 100 =? 0) || (y mod 400 =? 0)).

Definition daysIn (m y : Z) : Z :=
  if m =? 2 then (if is_leap y then 29 else 28)
  else if (m =? 4) || (m =? 6) || (m =? 9) || (m =? 11) then 30 else 31.

(** ** [t.UTC().Format(time.RFC3339)] *)

(** [appendInt]: at least [width] digits. *)
Fixpoint pad (width : nat) (s : string) : string :=
  match width with
  | O => s
  | Datatypes.S w => if (String.length s <=? w)%nat then "0" +:+ pad w s else s
  end.

Definition appendInt (n : Z) (width : nat) : string :=
  if n <? 0 then "-" +:+ pad width (pretty (Z.to_N (- n))) else pad width (pretty (Z.to_N n)).

Definition FormatDate (day : Z) : string :=
  let '(y, m, d) := civil_of_days day in
  appendInt y 4 +:+ "-" +:+ appendInt m 2 +:+ "-" +:+ appendInt d 2.

Definition FormatClock (second : Z) : string :=
  appendInt (second / 3600) 2 +:+ ":" +:+ appendInt (second / 60 mod 60) 2 +:+ ":" +:+
  appendInt (second mod 60) 2.

Definition FormatRFC3339 (t : Z) : string :=
  let sec := t / Second in
  FormatDate (sec / 86400) +:+ "T" +:+ FormatClock (sec mod 86400) +:+ "Z".

(** [Format(time.RFC3339Nano)]: the fraction without its trailing zeros, and no
    point without a fraction. *)
Fixpoint trim_fraction (width : nat) (n : Z) : string :=
  match width with
  | O => ""
  | Datatypes.S w => if n =? 0 then "" else if n mod 10 =? 0 then trim_fraction w (n / 10) else appendInt n width
  end.

Definition FormatRFC3339Nano (t : Z) : string :=
  let sec := t / Second in
  let fraction := trim_fraction 9 (t mod Second) in
  FormatDate (sec / 86400) +:+ "T" +:+ FormatClock (sec mod 86400)
    +:+ (if bool_decide (fraction = "") then "" else "." +:+ fraction) +:+ "Z".

(** [Format("2006-01-02 15:04:05.000000")] of an instant shown [offset] seconds
    east of UTC: the fraction is cut, not rounded. *)
Definition FormatMicros (offset t : Z) : string :=
  let sec := t / Second + offset in
  FormatDate (sec / 86400) +:+ " " +:+ FormatClock (sec mod 86400) +:+ "." +:+
  appendInt (t mod Second / Microsecond) 6.

(** ** [time.Parse(time.RFC3339, value)] *)

(** A number of exactly [n] digits at the head of the value. *)
Fixpoint digits (n : nat) (acc : Z) (s : string) : option (Z * string) :=
  match n, s with
  | O, _ => Some (acc, s)
  | Datatypes.S n, String c s => if is_digit c then digits n (acc * 10 + digit_val c) s else None
  | Datatypes.S _, EmptyString => None
  end.

(** [getnum(value, false)]: one or two digits. *)
Definition getnum (s : string) : option (Z * string) :=
  match digits 2 0 s with Some r => Some r | None => digits 1 0 s end.

Definition skip (c : ascii) (s : string) : option string :=
  match s with
  | String c' s => if bool_decide (c' = c) then Some s else None
  | EmptyString => None
  end.

Definition in_bounds (lo n hi : Z) : option unit :=
  if (lo <=? n) && (n <=? hi) then Some tt else None.

(** Nine digits of a fraction, the missing ones read as zeros. *)
Fixpoint nanoseconds (n : nat) (s : string) : Z :=
  match n, s with
  | O, _ => 0
  | Datatypes.S n, String c s => digit_val c * 10 ^ (Z.of_nat n) + nanoseconds n s
  | Datatypes.S _, EmptyString => 0
  end.

(** A fraction after the seconds although the layout has none. *)
Definition fraction (s : string) : Z * string :=
  match s with
  | String p (String c _ as ds) =>
      if (bool_decide (p = "."%char) || bool_decide (p = ","%char)) && is_digit c
      then let frac := take_while is_digit ds in
           (nanoseconds 9 frac, drop_str (String.length frac) ds)
      else (0, s)
  | _ => (0, s)
  end.

(** The zone: the offset in seconds and what follows. *)
Definition zone (s : string) : option (Z * string) :=
  match skip "Z" s with
  | Some s => Some (0, s)
  | None =>
      match s with
      | String sign s =>
          r ← digits 2 0 s; let '(hr, s) := r : Z * string in
          s ← skip ":" s;
          r ← digits 2 0 s; let '(mm, s) := r : Z * string in
          _ ← in_bounds 0 hr 24; _ ← in_bounds 0 mm 60;
          let offset := (hr * 60 + mm) * 60 in
          if bool_decide (sign = "+"%char) then Some (offset, s)
          else if bool_decide (sign = "-"%char) then Some (- offset, s)
          else None
      | EmptyString => None
      end
  end.

(** The instant, in nanoseconds; [None] on an error. *)
Definition ParseRFC3339 (s : string) : option Z :=
  r ← digits 4 0 s; let '(year, s) := r : Z * string in
  s ← skip "-" s;
  r ← digits 2 0 s; let '(month, s) := r : Z * string in
  _ ← in_bounds 1 month 12;
  s ← skip "-" s;
  r ← digits 2 0 s; let '(day, s) := r : Z * string in
  s ← skip "T" s;
  r ← getnum s; let '(hour, s) := r : Z * string in
  _ ← in_bounds 0 hour 23;
  s ← skip ":" s;
  r ← digits 2 0 s; let '(min, s) := r : Z * string in
  _ ← in_bounds 0 min 59;
  s ← skip ":" s;
  r ← digits 2 0 s; let '(sec, s) := r : Z * string in
  _ ← in_bounds 0 sec 59;
  let '(nsec, s) := fraction s in
  r ← zone s; let '(offset, s) := r : Z * string in
  _ ← (if bool_decide (s = "") then Some tt else None);
  _ ← in_bounds 1 day (daysIn month year);
  Some ((days_of_civil year month day * 86400 + hour * 3600 + min * 60 + sec - offset) * Second + nsec).

#[global] Arguments FormatRFC3339 : simpl never.
#[global] Arguments ParseRFC3339 : simpl never.

(** ** Durations *)

Definition clamp_int64 (n : Z) : Z := Z.max min_int64 (Z.min n max_int64).

(** [t.Sub(u)] saturates. *)
Definition TimeSub (t u : Z) : Z := clamp_int64 (t - u).

(** [int64] arithmetic wraps around. *)
Definition wrap_int64 (n : Z) : Z := (n + 2 ^ 63) mod 2 ^ 64 - 2 ^ 63.

(** ** Lemmas *)

Lemma wrap_int64_id n : min_int64 ≤ n ≤ max_int64 → wrap_int64 n = n.
Proof.
  unfold wrap_int64, min_int64, max_int64. intros Hn. rewrite Z.mod_small; lia.
Qed.

Lemma TimeSub_small t u : min_int64 ≤ t - u ≤ max_int64 → TimeSub t u = t - u.
Proof. unfold TimeSub, clamp_int64. lia. Qed.

(** *** Calendar

    The year of a day of the era grows with the day, so that its value on the
    first and last day of each year gives its value on every day. *)

Definition year_start (yoe : Z) : Z := 365 * yoe + yoe / 4 - yoe / 100.

(** The first day after a year; the era's last year ends with the era. *)
Definition year_end (yoe : Z) : Z := if yoe =? 399 then 146097 else year_start (yoe + 1).

(** All numbers from [k] on, [n] of them. *)
Fixpoint all_from (P : Z → bool) (n : nat) (k : Z) : bool :=
  match n with O => true | Datatypes.S n => P k && all_from P n (k + 1) end.

Lemma all_from_spec P n k i : all_from P n k = true → k ≤ i < k + Z.of_nat n → P i = true.
Proof.
  revert k. induction n as [|n IH]; intros k; simpl; [lia|].
  rewrite andb_true_iff. intros [Hk Hn] Hi.
  destruct (decide (i = k)) as [->|]; [done|]. apply (IH (k + 1)); [done|lia].
Qed.

Lemma year_of_era_mono a b : 0 ≤ a → a ≤ b → year_of_era a ≤ year_of_era b.
Proof.
  intros Ha Hab. apply (Zlt_lower_bound_ind (λ b, year_of_era a ≤ year_of_era b) a); [|done].
  clear b Hab. intros b IH Hb. destruct (decide (b = a)) as [->|]; [lia|].
  transitivity (year_of_era (b - 1)); [apply IH; lia|]. unfold year_of_era.
  apply Z.div_le_mono; [lia|]. Z.to_euclidean_division_equations. lia.
Qed.

Definition year_ok (yoe : Z) : bool :=
  (year_of_era (year_start yoe) =? yoe) && (year_of_era (year_end yoe - 1) =? yoe) &&
  (year_end yoe - year_start yoe =? (if is_leap (yoe + 1) then 366 else 365)).

Lemma years_ok : all_from year_ok 400 0 = true.
Proof. vm_compute. reflexivity. Qed.

(** The month and day of a day of the year that starts in March. *)
Definition month_day (doy : Z) : Z * Z :=
  let mp := (5 * doy + 2) / 153 in
  (if mp <? 10 then mp + 3 else mp - 9, doy - (153 * mp + 2) / 5 + 1).

Definition month_day_ok (doy : Z) : bool :=
  let '(m, d) := month_day doy in
  (1 <=? m) && (m <=? 12) && (1 <=? d) &&
  (d <=? (if m =? 2 then (if doy =? 365 then 29 else 28) else daysIn m 1)) &&
  ((153 * (if 2 <? m then m - 3 else m + 9) + 2) / 5 + d - 1 =? doy) &&
  (negb (doy =? 365) || (m =? 2)).

Lemma months_ok : all_from month_day_ok 366 0 = true.
Proof. vm_compute. reflexivity. Qed.

Lemma year_end_succ a : 0 ≤ a ≤ 398 → year_end a = year_start (a + 1).
Proof. intros Ha. unfold year_end. by replace (a =? 399) with false by lia. Qed.

(** The year computed for a day is the one the day is in. *)
Lemma year_of_era_spec doe : 0 ≤ doe < 146097 →
  let yoe := year_of_era doe in
  0 ≤ yoe < 400 ∧ year_start yoe ≤ doe < year_end yoe ∧ year_ok yoe = true.
Proof.
  intros Hdoe yoe.
  assert (0 ≤ yoe < 400) as Hy.
  { pose proof (year_of_era_mono 0 doe ltac:(lia) ltac:(lia)) as Hlo.
    pose proof (year_of_era_mono doe 146096 ltac:(lia) ltac:(lia)) as Hhi.
    change (year_of_era 0) with 0 in Hlo. change (year_of_era 146096) with 399 in Hhi.
    unfold yoe. lia. }
  assert (∀ a, 0 ≤ a < 400 → year_of_era (year_start a) = a ∧ year_of_era (year_end a - 1) = a) as Hok.
  { intros a Ha. pose proof (all_from_spec _ _ _ a years_ok ltac:(lia)) as Hok.
    unfold year_ok in Hok. rewrite !andb_true_iff, !Z.eqb_eq in Hok. tauto. }
  split; [done|]. split; [|exact (all_from_spec _ _ _ yoe years_ok ltac:(lia))]. split.
  - destruct (decide (year_start yoe ≤ doe)) as [|Hn]; [done|exfalso].
    destruct (decide (yoe = 0)) as [H0|]; [rewrite H0 in Hn; change (year_start 0) with 0 in Hn; lia|].
    pose proof (year_of_era_mono doe (year_start yoe - 1) ltac:(lia) ltac:(lia)) as Hm.
    pose proof (year_end_succ (yoe - 1) ltac:(lia)) as He. rewrite Z.sub_add in He.
    destruct (Hok (yoe - 1) ltac:(lia)) as [_ Hlast]. rewrite He in Hlast. unfold yoe in *. lia.
  - destruct (decide (doe < year_end yoe)) as [|Hn]; [done|exfalso].
    destruct (decide (yoe = 399)) as [H9|]; [rewrite H9 in Hn; change (year_end 399) with 146097 in Hn; lia|].
    rewrite year_end_succ in Hn by lia. destruct (Hok (yoe + 1) ltac:(lia)) as [Hfirst _].
    assert (0 ≤ year_start (yoe + 1)) by (unfold year_start; Z.to_euclidean_division_equations; lia).
    pose proof (year_of_era_mono (year_start (yoe + 1)) doe ltac:(lia) ltac:(lia)). unfold yoe in *. lia.
Qed.

Lemma date_of_era_spec doe y m d : 0 ≤ doe < 146097 → date_of_era doe = (y, m, d) →
  1 ≤ m ≤ 12 ∧ 1 ≤ d ≤ daysIn m y ∧
  let y' := if m <=? 2 then y - 1 else y in
  0 ≤ y' < 400 ∧
  year_start y' + ((153 * (if 2 <? m then m - 3 else m + 9) + 2) / 5 + d - 1) = doe.
Proof.
  intros Hdoe Heq. destruct (year_of_era_spec doe Hdoe) as (Hy & Hr & Hok).
  unfold date_of_era in Heq. set (yoe := year_of_era doe) in *.
  change (365 * yoe + yoe / 4 - yoe / 100) with (year_start yoe) in Heq.
  set (doy := doe - year_start yoe) in *.
  change ((let '(m, d) := month_day doy in (if m <=? 2 then yoe + 1 else yoe, m, d)) = (y, m, d)) in Heq.
  unfold year_ok in Hok. rewrite !andb_true_iff, !Z.eqb_eq in Hok. destruct Hok as [_ Hlen].
  assert (0 ≤ doy < 366) as Hdoy by (unfold doy; destruct (is_leap _); lia).
  pose proof (all_from_spec _ _ _ doy months_ok ltac:(lia)) as Hmd. unfold month_day_ok in Hmd.
  destruct (month_day doy) as [m' d']. injection Heq as <- -> ->.
  rewrite !andb_true_iff, !Z.leb_le, Z.eqb_eq in Hmd. destruct Hmd as [[[[[? ?] ?] Hd] Hdoy'] Hlast].
  split; [lia|]. split; [split; [lia|]|].
  - destruct (m =? 2) eqn:Hm2; [|by unfold daysIn in *; rewrite Hm2 in *].
    apply Z.eqb_eq in Hm2. subst m. unfold daysIn. simpl.
    destruct (doy =? 365) eqn:H365; [|destruct (is_leap _); lia].
    apply Z.eqb_eq in H365. destruct (is_leap (yoe + 1)); [done|]. lia.
  - destruct (m <=? 2); split; try lia. by replace (yoe + 1 - 1) with yoe by lia; lia.
Qed.

Lemma is_leap_era y k : is_leap (y + 400 * k) = is_leap y.
Proof.
  unfold is_leap.
  replace (y + 400 * k) with (y + (100 * k) * 4) at 1 by lia. rewrite Z_mod_plus_full.
  replace (y + 400 * k) with (y + (4 * k) * 100) at 1 by lia. rewrite Z_mod_plus_full.
  replace (y + 400 * k) with (y + k * 400) by lia. by rewrite Z_mod_plus_full.
Qed.

Lemma civil_of_days_valid days y m d :
  civil_of_days days = (y, m, d) → 1 ≤ m ≤ 12 ∧ 1 ≤ d ≤ daysIn m y ∧ days_of_civil y m d = days.
Proof.
  unfold civil_of_days. set (z := days + 719468). intros Heq.
  pose proof (Z_mod_lt z 146097 ltac:(lia)) as Hz. pose proof (Z_div_mod_eq_full z 146097) as Hdm.
  destruct (date_of_era (z mod 146097)) as [[yoe m'] d'] eqn:Hera.
  injection Heq as <- <- <-. destruct (date_of_era_spec _ _ _ _ Hz Hera) as (? & Hd & Hy & Hdoe).
  assert (daysIn m' (yoe + 400 * (z / 146097)) = daysIn m' yoe) as Hin.
  { unfold daysIn. by rewrite is_leap_era. }
  split; [lia|]. split; [lia|]. unfold days_of_civil.
  assert (∀ a, 0 ≤ a < 400 → (a + 400 * (z / 146097)) mod 400 = a ∧
                              (a + 400 * (z / 146097)) / 400 = z / 146097) as Hmod.
  { intros a Ha. split.
    - rewrite Z.mul_comm, Z_mod_plus_full, Z.mod_small; lia.
    - rewrite Z.mul_comm, Z.div_add, Z.div_small; lia. }
  unfold year_start in Hdoe. destruct (m' <=? 2).
  - replace (yoe + 400 * (z / 146097) - 1) with ((yoe - 1) + 400 * (z / 146097)) by lia.
    destruct (Hmod (yoe - 1)) as [-> ->]; [lia|]. lia.
  - destruct (Hmod yoe) as [-> ->]; [lia|]. lia.
Qed.

(** *** Printing and reading back *)

(** Leading zeros do not change the value. *)
Lemma digits_val_pad w s : digits_val_acc 0 (pad w s) = digits_val_acc 0 s.
Proof. induction w as [|w IH]; simpl; [done|]. case_match; [exact IH|done]. Qed.

Lemma length_pad w s : (String.length s ≤ w)%nat → String.length (pad w s) = w.
Proof.
  induction w as [|w IH]; simpl; intros Hs; [lia|].
  destruct (String.length s <=? w)%nat eqn:Hw; [|apply Nat.leb_gt in Hw; lia].
  apply Nat.leb_le in Hw. simpl. by rewrite IH.
Qed.

Lemma length_pretty_N_go w (x : N) s :
  (x < 10 ^ N.of_nat w)%N → (String.length (pretty_N_go x s) ≤ w + String.length s)%nat.
Proof.
  revert x s. induction w as [|w IH]; intros x s Hx.
  - assert (x = 0%N) as -> by (change (10 ^ N.of_nat 0)%N with 1%N in Hx; lia).
    by rewrite pretty_N_go_0.
  - destruct (decide (0 < x)%N) as [Hp|].
    2: { assert (x = 0%N) as -> by lia. rewrite pretty_N_go_0. lia. }
    rewrite pretty_N_go_step by done.
    transitivity (w + String.length (String (pretty_N_char (x mod 10)) s))%nat; [|simpl; lia].
    apply IH. apply N.Div0.div_lt_upper_bound.
    replace (N.of_nat (Datatypes.S w)) with (N.succ (N.of_nat w)) in Hx by lia.
    by rewrite N.pow_succ_r' in Hx.
Qed.

(** As many digits as a number has are read as its value. *)
Lemma digits_all a acc v s :
  digits_val_acc acc a = Some v → digits (String.length a) acc (a +:+ s) = Some (v, s).
Proof.
  revert acc. induction a as [|c a IH]; intros acc; simpl; [by intros [= ->]|].
  destruct (is_digit c); [apply IH|done].
Qed.

Lemma digits_appendInt w n s :
  (0 < w)%nat → 0 ≤ n < 10 ^ Z.of_nat w → digits w 0 (appendInt n w +:+ s) = Some (n, s).
Proof.
  intros Hw Hn. unfold appendInt. replace (n <? 0) with false by lia.
  assert (String.length (pretty (Z.to_N n)) ≤ w)%nat as Hlen.
  { unfold pretty, pretty_N. case_decide; [simpl; lia|].
    pose proof (length_pretty_N_go w (Z.to_N n) "") as Hl. simpl in Hl.
    rewrite Nat.add_0_r in Hl. apply Hl.
    apply N2Z.inj_lt. rewrite N2Z.inj_pow, nat_N_Z, Z2N.id; lia. }
  rewrite <-(length_pad w _ Hlen) at 1. apply digits_all. rewrite digits_val_pad.
  pose proof (pretty_N_unsigned (Z.to_N n)) as Hp. unfold ParseUint10 in Hp.
  destruct (pretty (Z.to_N n)); [done|]. rewrite Hp. f_equal. lia.
Qed.

Lemma digits_year n s : 0 ≤ n ≤ 9999 → digits 4 0 (appendInt n 4 +:+ s) = Some (n, s).
Proof. intros Hn. apply digits_appendInt; lia. Qed.

Lemma digits_two n s : 0 ≤ n ≤ 99 → digits 2 0 (appendInt n 2 +:+ s) = Some (n, s).
Proof. intros Hn. apply digits_appendInt; lia. Qed.

Lemma skip_app c (s : string) : skip c (String c EmptyString +:+ s) = Some s.
Proof. unfold skip. simpl. by rewrite bool_decide_true. Qed.

Lemma in_bounds_true lo n hi : lo ≤ n ≤ hi → in_bounds lo n hi = Some tt.
Proof.
  intros Hn. unfold in_bounds. by replace ((lo <=? n) && (n <=? hi)) with true by lia.
Qed.

Lemma daysIn_bound m y : 28 ≤ daysIn m y ≤ 31.
Proof.
  unfold daysIn. destruct (m =? 2), (is_leap y), ((m =? 4) || (m =? 6) || (m =? 9) || (m =? 11)); lia.
Qed.

(** One step of the parser that succeeds. *)
Ltac parse lem := rewrite lem by lia; cbn [mbind option_bind].

(** The years RFC 3339 can write. *)
Definition printable (t : Z) : Prop :=
  let '(y, _, _) := civil_of_days (t / Second / 86400) in 0 ≤ y ≤ 9999.

(** From 1 January of year 0 to the end of year 9999. *)
Lemma printable_range t : -62167219200 <= t / Second < 253402300800 → printable t.
Proof.
  unfold printable. intros Ht. destruct (civil_of_days (t / Second / 86400)) as [[y m] d] eqn:Hc.
  apply civil_of_days_valid in Hc as (Hm & Hd & Hdays). pose proof (daysIn_bound m y).
  assert (-719528 ≤ t / Second / 86400 ≤ 2932896) as Hr.
  { split; [apply Z.div_le_lower_bound|apply Z.lt_succ_r, Z.div_lt_upper_bound]; lia. }
  rewrite <-Hdays in Hr. unfold days_of_civil in Hr.
  destruct (Z.leb_spec m 2); destruct (Z.ltb_spec 2 m); try lia.
  all: split; [apply Z.nlt_ge|apply Z.lt_succ_r, Z.nle_gt]; intros Hy.
  all: Z.to_euclidean_division_equations; lia.
Qed.

(** An instant printed in UTC is read back to the second. *)
Lemma ParseRFC3339_FormatRFC3339 t :
  printable t → ParseRFC3339 (FormatRFC3339 t) = Some (t / Second * Second).
Proof.
  unfold printable, FormatRFC3339, FormatDate, FormatClock.
  set (sec := t / Second). set (s := sec mod 86400).
  pose proof (Z_mod_lt sec 86400 ltac:(lia)) as Hs. fold s in Hs.
  pose proof (Z_div_mod_eq_full sec 86400) as Hsec.
  destruct (civil_of_days (sec / 86400)) as [[y m] d] eqn:Hc. intros Hy.
  apply civil_of_days_valid in Hc as (Hm & Hd & Hdays).
  assert (0 ≤ s / 3600 ≤ 23 ∧ 0 ≤ s / 60 mod 60 ≤ 59 ∧ 0 ≤ s mod 60 ≤ 59 ∧
          s / 3600 * 3600 + s / 60 mod 60 * 60 + s mod 60 = s) as (Hh & Hmi & Hse & Hsum).
  { Z.to_euclidean_division_equations. lia. }
  pose proof (daysIn_bound m y) as Hd31.
  rewrite !append_assoc. unfold ParseRFC3339.
  parse (digits_year y). parse skip_app. parse (digits_two m). parse (in_bounds_true 1 m).
  parse skip_app. parse (digits_two d). parse skip_app. unfold getnum.
  parse (digits_two (s / 3600)). parse (in_bounds_true 0 (s / 3600)). parse skip_app.
  parse (digits_two (s / 60 mod 60)). parse (in_bounds_true 0 (s / 60 mod 60)). parse skip_app.
  parse (digits_two (s mod 60)). parse (in_bounds_true 0 (s mod 60)).
  change (fraction "Z") with (0, "Z"%string). cbn iota beta.
  change (zone "Z") with (Some (0, ""%string)). cbn [mbind option_bind].
  rewrite bool_decide_true by done. cbn [mbind option_bind]. parse (in_bounds_true 1 d).
  rewrite Hdays. f_equal. lia.
Qed.

(** A leap day, a zone offset, a fraction, a day that does not exist. *)
Example leap_day : ParseRFC3339 "2024-02-29T12:34:56Z" = Some (1709210096 * Second).
Proof. vm_decide. Qed.
Example zone_and_fraction :
  ParseRFC3339 "2024-02-29T14:34:56.5+02:00" = Some (1709210096 * Second + 500 * Millisecond).
Proof. vm_decide. Qed.
Example no_leap_day : ParseRFC3339 "2023-02-29T12:34:56Z" = None.
Proof. vm_decide. Qed.
Example printed_instant : FormatRFC3339 (1709210096 * Second) = "2024-02-29T12:34:56Z".
Proof. vm_decide. Qed.
Example printed_micros : FormatMicros 3600 (1709210096 * Second + 1500) = "2024-02-29 13:34:56.000001".
Proof. vm_decide. Qed.
