(* ===== verification/Netip.v ===== *)
(** * Internet addresses: the standard library's [net] and [net/netip]

    [netip.ParseAddr], [netip.ParsePrefix], [Prefix.Contains] and
    [net.SplitHostPort], as the gateway's IP filter and the validation of the
    projects API use them.  Error texts are left out: no caller shows them. *)

From stdpp Require Import pretty.
From S2P Require Import Prelude GoStrings.

#[local] Open Scope Z_scope.

(** ** Addresses *)

(** [netip.Addr] as [ParseAddr] builds it: an IPv4-mapped IPv6 address stays an
    IPv6 address. *)
Inductive Addr :=
| Addr4 (n : Z)
| Addr6 (n : Z) (zone : string).

#[global] Instance Addr_eq_dec : EqDecision Addr.
Proof. solve_decision. Defined.

Definition BitLen (a : Addr) : Z := match a with Addr4 _ => 32 | Addr6 _ _ => 128 end.
Definition addr_value (a : Addr) : Z := match a with Addr4 n | Addr6 n _ => n end.
Definition Zone (a : Addr) : string := match a with Addr4 _ => "" | Addr6 _ z => z end.
Definition withoutZone (a : Addr) : Addr := match a with Addr4 n => Addr4 n | Addr6 n _ => Addr6 n "" end.

(** A field of a dotted address: digits without a leading zero, at most 255. *)
Definition octet (s : string) : option Z :=
  match s with
  | String c (String _ _) => if bool_decide (c = "0"%char) then None else ParseUint10 s
  | _ => ParseUint10 s
  end ≫= λ n, if n <=? 255 then Some n else None.

(** [parseIPv4Fields] *)
Definition parseIPv4Fields (s : string) : option Z :=
  match map octet (Split "."%char s) with
  | [Some a; Some b; Some c; Some d] => Some (((a * 256 + b) * 256 + c) * 256 + d)
  | _ => None
  end.

Definition is_lower_hex (c : ascii) : bool := (97 <=? byte_val c) && (byte_val c <=? 102).
Definition is_upper_hex (c : ascii) : bool := (65 <=? byte_val c) && (byte_val c <=? 70).
Definition is_hex (c : ascii) : bool := is_digit c || is_lower_hex c || is_upper_hex c.

Definition hex_digit (c : ascii) : Z :=
  if is_digit c then byte_val c - 48
  else if is_lower_hex c then byte_val c - 87 else byte_val c - 55.

Fixpoint hex_value (acc : Z) (s : string) : Z :=
  match s with EmptyString => acc | String c s => hex_value (acc * 16 + hex_digit c) s end.

(** The loop of [parseIPv6]: [gs] are the 16-bit groups read so far, [n] how many
    still fit, [ellipsis] the group the [::] stands before.  The result is what
    the loop leaves; any text that is left over is an error. *)
Fixpoint parse_groups (n : nat) (gs : list Z) (ellipsis : option nat) (s : string)
    : option (list Z * option nat) :=
  match n with
  | O => if bool_decide (s = "") then Some (gs, ellipsis) else None
  | S n' =>
      let digits := take_while is_hex s in
      let off := String.length digits in
      if bool_decide (off = 0 ∨ 4 < off)%nat then None
      else
        let gs' := gs ++ [hex_value 0 digits] in
        match drop_str off s with
        | EmptyString => Some (gs', ellipsis)
        | String c rest =>
            if bool_decide (c = "."%char) then
              if bool_decide (ellipsis = None ∧ length gs ≠ 6)%nat || bool_decide (n' = 0)%nat then None
              else v ← parseIPv4Fields s; Some (gs ++ [Z.shiftr v 16; Z.land v 65535], ellipsis)
            else if negb (bool_decide (c = ":"%char)) then None
            else match rest with
                 | EmptyString => None
                 | String c' rest' =>
                     if bool_decide (c' = ":"%char) then
                       if bool_decide (is_Some ellipsis) then None
                       else if bool_decide (rest' = "") then Some (gs', Some (length gs'))
                       else parse_groups n' gs' (Some (length gs')) rest'
                     else parse_groups n' gs' ellipsis rest
                 end
        end
  end.

(** The groups with the [::] expanded. *)
Definition expand_ellipsis (gs : list Z) (ellipsis : option nat) : option (list Z) :=
  if bool_decide (length gs < 8)%nat then
    match ellipsis with
    | None => None
    | Some e => Some (take e gs ++ replicate (8 - length gs) 0 ++ drop e gs)
    end
  else match ellipsis with None => Some gs | Some _ => None end.

Definition group_value (gs : list Z) : Z := foldl (λ acc g, acc * 65536 + g) 0 gs.

Definition parseIPv6 (inp : string) : option Addr :=
  let '(s, zone, found) := Cut "%"%char inp in
  if found && bool_decide (zone = "") then None
  else
    match CutPrefix "::" s with
    | Some "" => Some (Addr6 0 zone)
    | Some s' => '(gs, e) ← parse_groups 8 [] (Some 0%nat) s';
                 gs ← expand_ellipsis gs e; Some (Addr6 (group_value gs) zone)
    | None => '(gs, e) ← parse_groups 8 [] None s;
              gs ← expand_ellipsis gs e; Some (Addr6 (group_value gs) zone)
    end.

(** The first of [.], [:] and [%] decides the syntax. *)
Fixpoint addr_syntax (s : string) : option ascii :=
  match s with
  | EmptyString => None
  | String c s =>
      if bool_decide (c = "."%char) || bool_decide (c = ":"%char) || bool_decide (c = "%"%char)
      then Some c else addr_syntax s
  end.

Definition ParseAddr (s : string) : option Addr :=
  match addr_syntax s with
  | Some c =>
      if bool_decide (c = "."%char) then Addr4 <$> parseIPv4Fields s
      else if bool_decide (c = ":"%char) then parseIPv6 s else None
  | None => None
  end.

(** ** Prefixes *)

Record Prefix := mkPrefix { pf_ip : Addr; pf_bits : Z }.

(** [PrefixFrom] on a length that fits. *)
Definition PrefixFrom (ip : Addr) (bits : Z) : Prefix := mkPrefix (withoutZone ip) bits.

Definition prefix_bits (s : string) : option Z :=
  match s with
  | String c (String _ _) =>
      if (49 <=? byte_val c) && (byte_val c <=? 57) then ParseInt10 s else None
  | _ => ParseInt10 s
  end.

Definition ParsePrefix (s : string) : option Prefix :=
  '(a, b) ← cut_last "/"%char s;
  ip ← ParseAddr a;
  if negb (bool_decide (Zone ip = "")) then None
  else
    bits ← prefix_bits b;
    if (0 <=? bits) && (bits <=? BitLen ip) then Some (PrefixFrom ip bits) else None.

(** [mask6(n)]: the top [n] of 128 bits. *)
Definition mask6 (n : Z) : Z := Z.shiftl (Z.ones n) (128 - n).

Definition Prefix_Contains (p : Prefix) (ip : Addr) : bool :=
  if negb (bool_decide (Zone ip = "")) then false
  else
    match pf_ip p, ip with
    | Addr4 a, Addr4 b => Z.shiftr (Z.lxor b a) (32 - pf_bits p) =? 0
    | Addr6 a _, Addr6 b _ => Z.land (Z.lxor b a) (mask6 (pf_bits p)) =? 0
    | _, _ => false
    end.

(** ** [net.SplitHostPort], [None] on an error *)

Definition SplitHostPort (hostport : string) : option (string * string) :=
  '(before, port) ← cut_last ":"%char hostport;
  match hostport with
  | String "[" rest =>
      let '(host, after, closed) := Cut "]"%char rest in
      if negb closed then None
      (* the first bracket stands just before the last colon *)
      else if negb (bool_decide (String.length before = String.length host + 2)%nat) then None
      else if contains_byte "["%char rest || contains_byte "]"%char after then None
      else Some (host, port)
  | _ =>
      if contains_byte ":"%char before || contains_byte "["%char hostport
         || contains_byte "]"%char hostport
      then None else Some (before, port)
  end.

(** ** What a prefix means *)

(** The two addresses agree on their top [bits] bits. *)
Definition agree (w bits a b : Z) : Prop :=
  ∀ i, w - bits ≤ i < w → Z.testbit a i = Z.testbit b i.

(** A prefix admits the addresses of its family with its leading bits. *)
Definition admits (p : Prefix) (ip : Addr) : Prop :=
  match pf_ip p, ip with
  | Addr4 a, Addr4 b => agree 32 (pf_bits p) a b
  | Addr6 a _, Addr6 b "" => agree 128 (pf_bits p) a b
  | _, _ => False
  end.

Definition addr_wf (a : Addr) : Prop := 0 ≤ addr_value a < 2 ^ BitLen a.

Definition prefix_wf (p : Prefix) : Prop :=
  addr_wf (pf_ip p) ∧ 0 ≤ pf_bits p ≤ BitLen (pf_ip p) ∧ Zone (pf_ip p) = "".

(** ** Lemmas *)

Lemma lxor_zero_bits a b i : Z.testbit (Z.lxor b a) i = false ↔ Z.testbit a i = Z.testbit b i.
Proof. rewrite Z.lxor_spec. destruct (Z.testbit a i), (Z.testbit b i); naive_solver. Qed.

Lemma testbit_high w a i : 0 ≤ a < 2 ^ w → 0 ≤ w ≤ i → Z.testbit a i = false.
Proof.
  intros [Ha Hw] Hi. destruct (decide (a = 0)) as [->|Hne]; [apply Z.bits_0|].
  apply Z.bits_above_log2; [done|]. apply Z.log2_lt_pow2; [lia|].
  apply Z.lt_le_trans with (2 ^ w); [done|]. apply Z.pow_le_mono_r; lia.
Qed.

Lemma shiftr_agree w bits a b :
  0 ≤ w → 0 ≤ a < 2 ^ w → 0 ≤ b < 2 ^ w → 0 ≤ bits ≤ w →
  Z.shiftr (Z.lxor b a) (w - bits) = 0 ↔ agree w bits a b.
Proof.
  intros Hw Ha Hb Hbits. split.
  - intros H0 i Hi. apply lxor_zero_bits.
    rewrite <- (Z.bits_0 (i - (w - bits))), <- H0, Z.shiftr_spec by lia. f_equal. lia.
  - intros Hag. apply Z.bits_inj'. intros i Hi. rewrite Z.bits_0, Z.shiftr_spec by lia.
    apply lxor_zero_bits. destruct (decide (i + (w - bits) < w)).
    + apply Hag. lia.
    + by rewrite !(testbit_high w) by lia.
Qed.

Lemma mask_agree w bits a b :
  0 ≤ w → 0 ≤ a < 2 ^ w → 0 ≤ b < 2 ^ w → 0 ≤ bits ≤ w →
  Z.land (Z.lxor b a) (Z.shiftl (Z.ones bits) (w - bits)) = 0 ↔ agree w bits a b.
Proof.
  intros Hw Ha Hb Hbits.
  assert (∀ i, 0 ≤ i → Z.testbit (Z.shiftl (Z.ones bits) (w - bits)) i
                      = bool_decide (w - bits ≤ i < w)) as Hmask.
  { intros i Hi. destruct (decide (w - bits ≤ i)).
    - rewrite Z.shiftl_spec, Z.testbit_ones_nonneg by lia.
      destruct (Z.ltb_spec (i - (w - bits)) bits).
      + by rewrite bool_decide_eq_true_2 by lia.
      + by rewrite bool_decide_eq_false_2 by lia.
    - rewrite Z.shiftl_spec_low, bool_decide_eq_false_2 by lia. done. }
  split.
  - intros H0 i Hi. apply lxor_zero_bits.
    assert (Z.testbit (Z.land (Z.lxor b a) (Z.shiftl (Z.ones bits) (w - bits))) i = false) as Hi0
      by (rewrite H0; apply Z.bits_0).
    rewrite Z.land_spec, Hmask, bool_decide_eq_true_2, andb_true_r in Hi0 by lia. done.
  - intros Hag. apply Z.bits_inj'. intros i Hi. rewrite Z.bits_0, Z.land_spec, Hmask by lia.
    destruct (decide (w - bits ≤ i < w)) as [Hin|Hout].
    + by rewrite (proj2 (lxor_zero_bits a b i)) by by apply Hag.
    + by rewrite bool_decide_eq_false_2, andb_false_r by done.
Qed.

(** The bit operations decide exactly whether the leading bits agree. *)
Lemma Prefix_Contains_spec p ip :
  prefix_wf p → addr_wf ip → Prefix_Contains p ip = true ↔ admits p ip.
Proof.
  destruct p as [[a|a za] bits], ip as [b|b zb]; unfold prefix_wf, addr_wf, Prefix_Contains, admits;
    simpl; intros ([Ha Ha'] & Hbits & Hz) [Hb Hb'].
  - rewrite Z.eqb_eq. by apply shiftr_agree.
  - destruct (bool_decide (zb = "")); simpl; by split.
  - done.
  - destruct (decide (zb = "")) as [->|Hne].
    + simpl. unfold mask6. rewrite Z.eqb_eq. by apply mask_agree.
    + rewrite bool_decide_eq_false_2 by done. simpl. split; [done|]. by destruct zb.
Qed.

(** *** What is parsed is well formed *)

Lemma octet_range s n : octet s = Some n → 0 ≤ n ≤ 255.
Proof.
  unfold octet. intros (m & Hm & Hn)%bind_Some.
  assert (ParseUint10 s = Some m) as Hm'%ParseUint10_nonneg
    by (destruct s as [|? [|]]; [done..|]; by case_bool_decide).
  destruct (Z.leb_spec m 255); simplify_eq. lia.
Qed.

Lemma parseIPv4Fields_range s n : parseIPv4Fields s = Some n → 0 ≤ n < 2 ^ 32.
Proof.
  unfold parseIPv4Fields.
  assert (∀ m, Some m ∈ map octet (Split "."%char s) → 0 ≤ m ≤ 255) as Hm.
  { intros m (x & Hx & _)%list_elem_of_fmap. by apply (octet_range x). }
  destruct (map octet _) as [|[a|] [|[b|] [|[c|] [|[d|] [|? ?]]]]]; try discriminate.
  intros [= <-].
  assert (0 ≤ a ≤ 255) by (apply Hm; set_solver). assert (0 ≤ b ≤ 255) by (apply Hm; set_solver).
  assert (0 ≤ c ≤ 255) by (apply Hm; set_solver). assert (0 ≤ d ≤ 255) by (apply Hm; set_solver).
  lia.
Qed.

Lemma hex_digit_range c : is_hex c = true → 0 ≤ hex_digit c < 16.
Proof.
  unfold is_hex, hex_digit, is_digit, is_lower_hex, is_upper_hex. intros Hc.
  destruct ((48 <=? byte_val c) && _) eqn:?; [lia|].
  destruct ((97 <=? byte_val c) && _) eqn:?; lia.
Qed.

Lemma hex_value_range acc s :
  0 ≤ acc → string_forallb is_hex s = true →
  0 ≤ hex_value acc s < (acc + 1) * 16 ^ Z.of_nat (String.length s).
Proof.
  revert acc. induction s as [|c s IH]; intros acc Hacc; cbn [string_forallb hex_value String.length].
  - intros _. lia.
  - intros [Hc Hs]%andb_true_iff. apply hex_digit_range in Hc.
    rewrite Nat2Z.inj_succ, Z.pow_succ_r by lia.
    specialize (IH (acc * 16 + hex_digit c) ltac:(lia) Hs).
    assert (0 < 16 ^ Z.of_nat (String.length s)) by (apply Z.pow_pos_nonneg; lia). nia.
Qed.

Lemma take_while_forallb P s : string_forallb P (take_while P s) = true.
Proof. induction s as [|c s IH]; simpl; [done|]. destruct (P c) eqn:?; simpl; [by apply andb_true_iff|done]. Qed.

Definition group_ok (g : Z) : Prop := 0 ≤ g < 65536.

Lemma group_read s :
  (String.length (take_while is_hex s) ≤ 4)%nat → group_ok (hex_value 0 (take_while is_hex s)).
Proof.
  intros Hl. destruct (hex_value_range 0 (take_while is_hex s) ltac:(lia) (take_while_forallb _ _)).
  split; [done|]. eapply Z.lt_le_trans; [done|]. change 65536 with ((0 + 1) * 16 ^ 4).
  apply Z.mul_le_mono_nonneg_l; [lia|]. apply Z.pow_le_mono_r; lia.
Qed.

Lemma embedded_groups s v :
  parseIPv4Fields s = Some v → group_ok (Z.shiftr v 16) ∧ group_ok (Z.land v 65535).
Proof.
  intros Hv%parseIPv4Fields_range. unfold group_ok. change 65535 with (Z.ones 16).
  rewrite Z.land_ones, Z.shiftr_div_pow2 by lia. pose proof (Z.mod_pos_bound v (2 ^ 16) ltac:(lia)).
  pose proof (Z.div_pos v (2 ^ 16) ltac:(lia) ltac:(lia)).
  assert (v / 2 ^ 16 < 65536) by (apply Z.div_lt_upper_bound; lia). lia.
Qed.

Lemma parse_groups_ok n gs e s gs' e' :
  Forall group_ok gs → (length gs + n = 8)%nat → parse_groups n gs e s = Some (gs', e') →
  Forall group_ok gs' ∧ (length gs' ≤ 8)%nat.
Proof.
  revert gs e s. induction n as [|n IH]; intros gs e s Hgs Hlen; cbn [parse_groups].
  { case_bool_decide; intros; simplify_eq. split; [done|lia]. }
  case_bool_decide as Hoff; [done|].
  assert (Forall group_ok (gs ++ [hex_value 0 (take_while is_hex s)])) as Hgs'.
  { apply Forall_app. split; [done|]. apply Forall_singleton, group_read. lia. }
  assert (length (gs ++ [hex_value 0 (take_while is_hex s)]) + n = 8)%nat as Hlen'
    by (rewrite length_app; simpl; lia).
  destruct (drop_str _ s) as [|c rest].
  { intros [= <- <-]. split; [done|lia]. }
  case_bool_decide.
  { destruct (_ || _) eqn:Hroom; [done|]. intros (v & Hv & [= <- <-])%bind_Some.
    apply orb_false_iff in Hroom as [_ Hn%bool_decide_eq_false].
    apply embedded_groups in Hv as [Hh Hl]. split.
    - apply Forall_app. split; [done|]. auto.
    - rewrite length_app. simpl. lia. }
  destruct (negb _); [done|]. destruct rest as [|c' rest']; [done|].
  case_bool_decide; [|by apply IH]. case_bool_decide; [done|].
  case_bool_decide; [|by apply IH]. intros [= <- <-]. split; [done|lia].
Qed.

Lemma expand_ellipsis_ok gs e gs' :
  Forall group_ok gs → (length gs ≤ 8)%nat → expand_ellipsis gs e = Some gs' →
  Forall group_ok gs' ∧ length gs' = 8%nat.
Proof.
  intros Hgs Hlen. unfold expand_ellipsis. case_bool_decide; destruct e as [e|]; intros; simplify_eq.
  - split.
    + rewrite !Forall_app. split_and!; [by apply Forall_take| |by apply Forall_drop].
      apply Forall_replicate. unfold group_ok. lia.
    + rewrite !length_app, length_replicate, length_take, length_drop. lia.
  - split; [done|lia].
Qed.

Lemma group_value_range gs : Forall group_ok gs → 0 ≤ group_value gs < 65536 ^ Z.of_nat (length gs).
Proof.
  unfold group_value. induction gs as [|g gs IH] using rev_ind; [simpl; lia|].
  intros [Hgs Hg]%Forall_app. rewrite Forall_singleton in Hg. specialize (IH Hgs).
  rewrite foldl_app, length_app, Nat.add_comm. simpl length.
  cbn [Nat.add]. rewrite Nat2Z.inj_succ, Z.pow_succ_r by lia. cbn [foldl]. unfold group_ok in Hg. lia.
Qed.

Lemma groups_addr n e s gs e' gs' z :
  n = 8%nat → parse_groups n [] e s = Some (gs, e') → expand_ellipsis gs e' = Some gs' →
  addr_wf (Addr6 (group_value gs') z).
Proof.
  intros -> [Hgs Hl]%parse_groups_ok He; [|constructor|done].
  apply expand_ellipsis_ok in He as [Hgs' Hl']; [|done..].
  pose proof (group_value_range gs' Hgs') as Hv. rewrite Hl' in Hv. exact Hv.
Qed.

Lemma ParseAddr_wf s a : ParseAddr s = Some a → addr_wf a.
Proof.
  unfold ParseAddr. destruct (addr_syntax s) as [c|]; [|done]. case_bool_decide.
  { intros (n & Hn%parseIPv4Fields_range & ->)%fmap_Some. exact Hn. }
  case_bool_decide; [|done]. unfold parseIPv6. destruct (Cut _ s) as [[s' zone] found].
  destruct (_ && _); [done|].
  destruct (CutPrefix _ s') as [[|c' s'']|]; [by intros [= <-]| |];
    intros ([gs e] & Hg & (gs' & He & [= <-])%bind_Some)%bind_Some; by eapply groups_addr.
Qed.

Lemma PrefixFrom_wf a bits : addr_wf a → 0 ≤ bits ≤ BitLen a → prefix_wf (PrefixFrom a bits).
Proof. by destruct a. Qed.

Lemma ParsePrefix_wf s p : ParsePrefix s = Some p → prefix_wf p.
Proof.
  unfold ParsePrefix. intros ([a b] & _ & (ip & Hip%ParseAddr_wf & Hp)%bind_Some)%bind_Some.
  destruct (negb _); [done|]. apply bind_Some in Hp as (bits & _ & Hp).
  destruct (_ && _) eqn:Hb; simplify_eq. apply PrefixFrom_wf; [done|lia].
Qed.

(** *** A client's address as it is printed *)

Definition dotted (a b c d : Z) : string :=
  pretty a +:+ String "."%char (pretty b +:+ String "."%char
    (pretty c +:+ String "."%char (pretty d))).

Definition byte_range (z : Z) : Prop := 0 ≤ z < 256.

Lemma pretty_byte z :
  byte_range z → octet (pretty z) = Some z ∧ string_forallb is_digit (pretty z) = true.
Proof.
  assert (Forall (λ z : Z, octet (pretty z) = Some z ∧ string_forallb is_digit (pretty z) = true)
            (seqZ 0 256)) as Hall by (repeat constructor; by vm_compute).
  rewrite Forall_forall in Hall. intros Hz. apply Hall, elem_of_seqZ. unfold byte_range in Hz. lia.
Qed.

Lemma digits_no_byte c s :
  string_forallb is_digit s = true → is_digit c = false → contains_byte c s = false.
Proof.
  intros Hs Hc. induction s as [|c' s IH]; simpl in *; [done|].
  apply andb_true_iff in Hs as [Hc' Hs]. rewrite IH by done.
  rewrite bool_decide_eq_false_2 by congruence. done.
Qed.

Lemma parse_dotted a b c d :
  byte_range a → byte_range b → byte_range c → byte_range d →
  parseIPv4Fields (dotted a b c d) = Some (((a * 256 + b) * 256 + c) * 256 + d).
Proof.
  intros [Ha Ha']%pretty_byte [Hb Hb']%pretty_byte [Hc Hc']%pretty_byte [Hd Hd']%pretty_byte.
  unfold parseIPv4Fields, dotted.
  rewrite !Split_app, Split_none by by apply digits_no_byte.
  cbn [map]. by rewrite Ha, Hb, Hc, Hd.
Qed.

Lemma dotted_plain a b c d x :
  byte_range a → byte_range b → byte_range c → byte_range d →
  is_digit x = false → x ≠ "."%char → contains_byte x (dotted a b c d) = false.
Proof.
  intros [_ Ha]%pretty_byte [_ Hb]%pretty_byte [_ Hc]%pretty_byte [_ Hd]%pretty_byte Hx Hdot.
  unfold dotted. rewrite !contains_byte_app. cbn [contains_byte]. rewrite !contains_byte_app.
  cbn [contains_byte]. rewrite !contains_byte_app. cbn [contains_byte].
  by rewrite !digits_no_byte, bool_decide_eq_false_2 by (done || by intros ->).
Qed.

(** The first of the separators in a dotted address is a dot. *)
Lemma addr_syntax_digits s t :
  string_forallb is_digit s = true → addr_syntax (s +:+ String "."%char t) = Some "."%char.
Proof.
  induction s as [|c s IH]; simpl; [done|]. intros [Hc Hs]%andb_true_iff.
  rewrite !bool_decide_eq_false_2 by (intros ->; done). by apply IH.
Qed.

Lemma ParseAddr_dotted a b c d :
  byte_range a → byte_range b → byte_range c → byte_range d →
  ParseAddr (dotted a b c d) = Some (Addr4 (((a * 256 + b) * 256 + c) * 256 + d)).
Proof.
  intros Ha Hb Hc Hd. unfold ParseAddr. rewrite parse_dotted by done.
  unfold dotted. rewrite addr_syntax_digits by by apply pretty_byte. done.
Qed.

Lemma digits_val_digits acc s n : digits_val_acc acc s = Some n → string_forallb is_digit s = true.
Proof.
  revert acc. induction s as [|c s IH]; intros acc; simpl; [done|].
  destruct (is_digit c); [|done]. apply IH.
Qed.

Lemma pretty_digits z : 0 ≤ z → string_forallb is_digit (pretty z) = true.
Proof.
  intros Hz. destruct z as [|p|p]; [by vm_compute| |lia].
  change (pretty (Z.pos p)) with (pretty (N.pos p)). pose proof (pretty_N_unsigned (N.pos p)) as Hp.
  unfold ParseUint10 in Hp. destruct (pretty (N.pos p)); [done|]. by eapply digits_val_digits.
Qed.

(** Without brackets the last colon splits the address. *)
Lemma SplitHostPort_plain host port :
  contains_byte ":"%char host = false → contains_byte "["%char host = false →
  contains_byte "]"%char host = false → string_forallb is_digit port = true →
  SplitHostPort (host +:+ String ":"%char port) = Some (host, port).
Proof.
  intros Hc Ho Hcl Hp. unfold SplitHostPort.
  rewrite cut_last_app by by apply digits_no_byte. cbn [mbind option_bind].
  assert (∀ x, x ≠ ":"%char → is_digit x = false → contains_byte x host = false →
             contains_byte x (host +:+ String ":"%char port) = false) as Hx.
  { intros x Hne Hd Hh. rewrite contains_byte_app, Hh. cbn [contains_byte orb].
    rewrite bool_decide_eq_false_2 by done. by apply digits_no_byte. }
  pose proof (Hx "["%char ltac:(done) ltac:(done) Ho) as Ho'.
  pose proof (Hx "]"%char ltac:(done) ltac:(done) Hcl) as Hcl'. clear Hx.
  revert Ho' Hcl'. generalize (host +:+ String ":"%char port). intros h Ho' Hcl'.
  rewrite Hc, Ho', Hcl'. cbn [orb].
  destruct h as [|x t]; [done|]. cbn [contains_byte] in Ho'.
  apply orb_false_iff in Ho' as [Hne%bool_decide_eq_false _].
  by destruct x as [[] [] [] [] [] [] [] []].
Qed.

(** [net.TCPAddr.String] on an IPv4 address. *)
Lemma SplitHostPort_dotted a b c d port :
  byte_range a → byte_range b → byte_range c → byte_range d → 0 ≤ port →
  SplitHostPort (dotted a b c d +:+ String ":"%char (pretty port)) = Some (dotted a b c d, pretty port).
Proof. intros. apply SplitHostPort_plain; [by apply dotted_plain..|by apply pretty_digits]. Qed.

Module Examples.

Lemma ParseAddr_examples :
  map ParseAddr ["10.0.0.1"; "010.0.0.1"; "10.0.0.256"; "10.0.0"; "::"; "::1"; "1::"; "1:2:3:4:5:6:7:8";
                 "1:2:3:4:5:6:7::"; "::ffff:1.2.3.4"; "fe80::1%eth0"; "1::2::3"; "12345::"; "::%"; ":1"; "1.2.3.4%x"; "1:2:3:4:5:6:7:8:9"; "1:2:3:4:5:6:7:1.2.3.4"]
  = [Some (Addr4 167772161); None; None; None; Some (Addr6 0 ""); Some (Addr6 1 "");
     Some (Addr6 (Z.shiftl 1 112) ""); Some (Addr6 5192455318486707404433266433261576 ""); Some (Addr6 5192455318486707404433266433261568 "");
     Some (Addr6 281470698652420 ""); Some (Addr6 338288524927261089654018896841347694593 "eth0");
     None; None; None; None; None; None; None].
Proof. vm_compute. reflexivity. Qed.

Lemma ParsePrefix_examples :
  map ParsePrefix ["10.0.0.0/8"; "10.0.0.0/33"; "10.0.0.0/08"; "2001:db8::/32"; "10.0.0.1"; "fe80::1%e/64"; "1.2.3.4/"; "1.2.3.4/+"]
  = [Some (mkPrefix (Addr4 167772160) 8); None; None;
     Some (mkPrefix (Addr6 42540766411282592856903984951653826560 "") 32); None; None; None; None].
Proof. vm_compute. reflexivity. Qed.

Lemma SplitHostPort_examples :
  map SplitHostPort ["10.0.0.1:5432"; "[::1]:80"; "::1:80"; "10.0.0.1"; "[::1]"; ":80"; "[a]b:80"; "a]:80"; "[[a]:80"; "[a]:b:80"; "[]:"; "[]]:"]
  = [Some ("10.0.0.1", "5432"); Some ("::1", "80"); None; None; None; Some ("", "80"); None; None; None; None; Some ("",""); None].
Proof. vm_compute. reflexivity. Qed.

End Examples.
