(* ===== verification/Kube.v ===== *)
(** * Kubernetes client errors and status conditions: shared by the reconcilers

    The errors of the Kubernetes client as the reconcilers look at them, and
    [metav1.Condition] with the two third-party functions on it. *)

From S2P Require Import Prelude GoStrings.

(** The reason of an API status: what [apierrors.IsNotFound],
    [apierrors.IsAlreadyExists] and the like test. *)
Inductive StatusReason := NotFound | AlreadyExists | Conflict | Invalid | Forbidden | OtherReason.

Record api_error := mkApiError {
  api_reason : StatusReason;
  api_message : string;
}.

Definition api_not_found (e : api_error) : bool :=
  match api_reason e with NotFound => true | _ => false end.

Definition api_already_exists (e : api_error) : bool :=
  match api_reason e with AlreadyExists => true | _ => false end.

Definition api_conflict (e : api_error) : bool :=
  match api_reason e with Conflict => true | _ => false end.

(** ** Status conditions *)

Inductive ConditionStatus := ConditionTrue | ConditionFalse | ConditionUnknown.

#[global] Instance ConditionStatus_eq_dec : EqDecision ConditionStatus.
Proof. solve_decision. Defined.

(** [metav1.Condition] *)
Record Condition := mkCondition {
  c_Type : string;
  c_Status : ConditionStatus;
  c_ObservedGeneration : Z;
  c_LastTransitionTime : Z;
  c_Reason : string;
  c_Message : string;
}.

(** [k8s.io/apimachinery/pkg/api/meta]: setting and finding a condition. *)
Class ConditionAPI := {
  SetStatusCondition : Z → list Condition → Condition → list Condition;
  FindStatusCondition : list Condition → string → option Condition;
}.

(** What its documentation promises: nothing is found in an empty list, and a
    condition just set is found with the content given. *)
Class ConditionLaws `{ConditionAPI} := {
  find_nil : ∀ t, FindStatusCondition [] t = None;
  find_set : ∀ now cs c, ∃ c',
    FindStatusCondition (SetStatusCondition now cs c) (c_Type c) = Some c' ∧
    c_Status c' = c_Status c ∧ c_Reason c' = c_Reason c ∧ c_Message c' = c_Message c;
}.

Module SimpleConditions.
(** An implementation of the condition functions: replace the condition of
    the type in place, or append it. *)
Fixpoint set_condition (now : Z) (cs : list Condition) (c : Condition) : list Condition :=
  match cs with
  | [] => [mkCondition (c_Type c) (c_Status c) (c_ObservedGeneration c) now (c_Reason c) (c_Message c)]
  | c' :: cs =>
      if bool_decide (c_Type c' = c_Type c)
      then mkCondition (c_Type c) (c_Status c) (c_ObservedGeneration c)
             (if bool_decide (c_Status c' = c_Status c) then c_LastTransitionTime c' else now)
             (c_Reason c) (c_Message c) :: cs
      else c' :: set_condition now cs c
  end.

Definition find_condition (cs : list Condition) (t : string) : option Condition :=
  snd <$> list_find (λ c, c_Type c = t) cs.

#[export] Instance conditions : ConditionAPI := {
  SetStatusCondition := set_condition;
  FindStatusCondition := find_condition;
}.

#[export] Instance conditions_laws : ConditionLaws.
Proof.
  split; [done|]. intros now cs c. simpl. unfold find_condition.
  induction cs as [|c' cs IH]; simpl.
  - rewrite decide_True by done. simpl. eauto.
  - case_bool_decide as Ht; simpl.
    + rewrite decide_True by done. simpl. eauto.
    + rewrite decide_False by done. destruct IH as (c1 & Hf & Hc). exists c1. split; [|done].
      destruct (list_find _ _) as [[? ?]|]; simplify_eq/=. done.
Defined.
End SimpleConditions.
