(* ===== verification/IPFilterModel.v ===== *)
(** * IP filtering: from the projects API to the gateway

    [services/projects/api/ipfiltering.go] validates the rules of a project,
    [services/clusters/internal/ipfiltering/configmap.go] keeps the rules of
    every branch of a cell in one ConfigMap, and
    [services/gateway/ipfiltering/filter.go] enforces them.  The ConfigMap is
    read and written through the Kubernetes API, whose answers are arbitrary
    here; [IPFilter.v] adds a server shared by concurrent writers.  Logging is
    left out. *)

From stdpp Require Import pretty.
From S2P Require Import Prelude GoStrings Kube Netip.

#[local] Open Scope Z_scope.
#[local] Open Scope go_scope.

(** ** The stored configuration *)

Record IPFilteringConfig := mkConfig {
  Enabled : bool;
  Allowed : list string
}.

#[global] Instance IPFilteringConfig_eq_dec : EqDecision IPFilteringConfig.
Proof. solve_decision. Defined.

Definition DefaultIPFilteringConfig : IPFilteringConfig := mkConfig false [].

Abbreviation configs := (gmap string IPFilteringConfig).

(** [encoding/json] on the map from branch IDs to configurations.  [Unmarshal]
    gives [None] for an error and [Some None] for JSON's [null], which leaves
    the Go map nil. *)
Class ConfigJSON := {
  Marshal : configs → string;
  Unmarshal : string → option (option configs)
}.

Definition ascii_configs (m : configs) : Prop :=
  ∀ k c, m !! k = Some c → is_ascii k = true ∧ Forall (λ s, is_ascii s = true) (Allowed c).

(** What is written is read back, and is not the empty string, for text that
    needs no replacement. *)
Class ConfigJSONLaws `{ConfigJSON} := {
  Unmarshal_Marshal m : ascii_configs m → Unmarshal (Marshal m) = Some (Some m);
  Marshal_not_empty m : Marshal m ≠ ""
}.

Definition ConfigMapKey : string := "ipfiltering.json".
Definition MaxRetries : nat := 3.

(** The parts of a ConfigMap that matter; an object not yet created has an
    empty UID.  A nil and an empty [Data] are alike. *)
Record ConfigMap := mkConfigMap {
  cm_UID : string;
  cm_ResourceVersion : Z;
  cm_Data : gmap string string
}.

(** ** [configmap.go] *)

Inductive error :=
| Wrapf (msg : string) (e : api_error)
| Errorf (msg : string)
| NilMapPanic.

Inductive call :=
| GetConfigMap
| CreateConfigMap (cm : ConfigMap)
| UpdateConfigMap (cm : ConfigMap)
| Sleep.

Definition resp (c : call) : Type :=
  match c with
  | GetConfigMap => res api_error ConfigMap
  | CreateConfigMap _ | UpdateConfigMap _ => option api_error
  | Sleep => unit
  end.

#[local] Abbreviation M := (prog resp).

Section Store.
Context `{ConfigJSON}.

(** The map of the existing JSON, [None] for a nil map. *)
Definition existing_configs (cm : ConfigMap) : res error (option configs) :=
  match cm_Data cm !! ConfigMapKey with
  | None | Some "" => Ok (Some ∅)
  | Some raw =>
      match Unmarshal raw with
      | Some m => Ok m
      | None => Err (Errorf "parsing existing IP filtering config")
      end
  end.

Definition with_configs (cm : ConfigMap) (m : configs) : ConfigMap :=
  mkConfigMap (cm_UID cm) (cm_ResourceVersion cm) (<[ConfigMapKey := Marshal m]> (cm_Data cm)).

(** The end of an attempt: [retry] is the next one. *)
Definition write_result (msg : string) (again : api_error → bool) (rest : nat)
    (retry : M (res error unit)) (r : option api_error) : M (res error unit) :=
  match r with
  | None => mret (Ok tt)
  | Some e =>
      if again e && negb (bool_decide (rest = 0)%nat)
      then _ ← perform Sleep; retry
      else mret (Err (Wrapf msg e))
  end.

(** The retry loop that [SetBranchIPFiltering] and [SetBranchesIPFiltering]
    share; [update] is what they do to the map. *)
Fixpoint set_loop (update : configs → configs) (attempts : nat) : M (res error unit) :=
  match attempts with
  | O => mret (Err (Errorf "updating ConfigMap after 3 retries"))
  | S rest =>
      r ← perform GetConfigMap;
      let read :=
        match r with
        | Ok cm => Ok cm
        | Err e => if api_not_found e then Ok (mkConfigMap "" 0 ∅) else Err e
        end in
      match read with
      | Err e => mret (Err (Wrapf "getting ConfigMap" e))
      | Ok cm =>
          match existing_configs cm with
          | Err e => mret (Err e)
          | Ok None => mret (Err NilMapPanic)
          | Ok (Some allConfigs) =>
              let cm' := with_configs cm (update allConfigs) in
              if bool_decide (cm_UID cm = "") then
                perform (CreateConfigMap cm') ≫=
                write_result "creating ConfigMap" (λ e, api_conflict e || api_already_exists e)
                  rest (set_loop update rest)
              else
                perform (UpdateConfigMap cm') ≫=
                write_result "updating ConfigMap" api_conflict rest (set_loop update rest)
          end
      end
  end.

Definition SetBranchIPFiltering (branchID : string) (config : IPFilteringConfig)
    : M (res error unit) :=
  set_loop (<[branchID := config]>) MaxRetries.

Definition set_all (branchIDs : list string) (config : IPFilteringConfig) (m : configs) : configs :=
  foldl (λ m branchID, <[branchID := config]> m) m branchIDs.

Definition SetBranchesIPFiltering (branchIDs : list string) (config : IPFilteringConfig)
    : M (res error unit) :=
  match branchIDs with
  | [] => mret (Ok tt)
  | _ => set_loop (set_all branchIDs config) MaxRetries
  end.

(** The configuration and the error, as the code returns both. *)
Definition GetBranchIPFiltering (branchID : string) : M (IPFilteringConfig * option error) :=
  r ← perform GetConfigMap;
  mret (match r with
        | Err e =>
            if api_not_found e then (DefaultIPFilteringConfig, None)
            else (DefaultIPFilteringConfig, Some (Wrapf "getting ConfigMap" e))
        | Ok cm =>
            match cm_Data cm !! ConfigMapKey with
            | None | Some "" => (DefaultIPFilteringConfig, None)
            | Some raw =>
                match Unmarshal raw with
                | None => (DefaultIPFilteringConfig, Some (Errorf "unmarshaling IP filtering config"))
                | Some m => (default DefaultIPFilteringConfig (default ∅ m !! branchID), None)
                end
            end
        end).

Fixpoint delete_loop (branchID : string) (attempts : nat) : M (res error unit) :=
  match attempts with
  | O => mret (Err (Errorf "deleting branch entry from ConfigMap after 3 retries"))
  | S rest =>
      r ← perform GetConfigMap;
      match r with
      | Err e => mret (if api_not_found e then Ok tt else Err (Wrapf "getting ConfigMap" e))
      | Ok cm =>
          match existing_configs cm with
          | Err e => mret (Err e)
          | Ok m =>
              let allConfigs := default ∅ m in
              match allConfigs !! branchID with
              | None => mret (Ok tt)
              | Some _ =>
                  perform (UpdateConfigMap (with_configs cm (delete branchID allConfigs))) ≫=
                  write_result "updating ConfigMap" api_conflict rest (delete_loop branchID rest)
              end
          end
      end
  end.

Definition DeleteBranchIPFiltering (branchID : string) : M (res error unit) :=
  delete_loop branchID MaxRetries.

(** ** The handlers of the clusters service ([clusters.go]) *)

Definition handle_SetBranchIPFiltering (branchId : string) (ipFiltering : option IPFilteringConfig)
    : M (res error unit) :=
  if bool_decide (branchId = "") then mret (Err (Errorf "branch_id is required"))
  else match ipFiltering with
       | None => mret (Err (Errorf "ip_filtering is required"))
       | Some config => SetBranchIPFiltering branchId config
       end.

Definition handle_SetBranchesIPFiltering (branchIds : list string)
    (ipFiltering : option IPFilteringConfig) : M (res error unit) :=
  match branchIds with
  | [] => mret (Err (Errorf "at least one branch_id is required"))
  | _ => match ipFiltering with
         | None => mret (Err (Errorf "ip_filtering is required"))
         | Some config => SetBranchesIPFiltering branchIds config
         end
  end.

Definition handle_GetBranchIPFiltering (branchId : string) : M (res error IPFilteringConfig) :=
  if bool_decide (branchId = "") then mret (Err (Errorf "branch_id is required"))
  else '(config, err) ← GetBranchIPFiltering branchId;
       mret (match err with Some e => Err e | None => Ok config end).

Definition handle_DeleteBranchIPFiltering (branchId : string) : M (res error unit) :=
  if bool_decide (branchId = "") then mret (Err (Errorf "branch_id is required"))
  else DeleteBranchIPFiltering branchId.

(** ** The gateway's filter ([filter.go]) *)

Record branchRules := mkRules { enabled : bool; prefixes : list Prefix }.

Abbreviation rules_map := (gmap string branchRules).

(** One entry of a configuration, [None] when it is dropped. *)
Definition parse_entry (cidr : string) : option Prefix :=
  match ParsePrefix cidr with
  | Some prefix => Some prefix
  | None => addr ← ParseAddr cidr; Some (PrefixFrom addr (BitLen addr))
  end.

(** The loop over the map fills a new map, so its order does not matter. *)
Definition updateRules (data : configs) : rules_map :=
  omap (λ config, if Enabled config then Some (mkRules true (omap parse_entry (Allowed config)))
                  else None) data.

(** [raw] is the value of the key in the ConfigMap. *)
Definition handleConfigMap (raw : option string) (rules : rules_map) : rules_map :=
  match raw with
  | None => ∅
  | Some raw =>
      match Unmarshal raw with
      | None => rules
      | Some data => updateRules (default ∅ data)
      end
  end.

(** The informer's events. *)
Inductive cm_event := Added (cm : ConfigMap) | Updated (cm : ConfigMap) | Deleted.

Definition on_event (rules : rules_map) (e : cm_event) : rules_map :=
  match e with
  | Added cm | Updated cm => handleConfigMap (cm_Data cm !! ConfigMapKey) rules
  | Deleted => ∅
  end.

Definition IsAllowed (rules : rules_map) (branchID clientAddr : string) : bool :=
  match rules !! branchID with
  | None => true
  | Some r =>
      if negb (enabled r) then true
      else
        let ipStr := match SplitHostPort clientAddr with Some (h, _) => h | None => clientAddr end in
        match ParseAddr ipStr with
        | None => false
        | Some ip => existsb (λ prefix, Prefix_Contains prefix ip) (prefixes r)
        end
  end.
End Store.

(** ** Validation in the projects API ([api/ipfiltering.go]) *)

Definition maxIPFilteringCIDRs : Z := 64.
Definition maxCIDRLength : Z := 64.
Definition maxCIDRDescriptionLength : Z := 100.

Record CidrEntry := mkCidr { Cidr : string; Description : option string }.

(** The slice is [None] when it is nil, which it is when the JSON omits it:
    requests are not checked against the OpenAPI document. *)
Record IPFilteringConfiguration := mkFiltering {
  api_Enabled : bool;
  api_Cidr : option (list CidrEntry)
}.

Definition api_entries (cfg : IPFilteringConfiguration) : list CidrEntry := default [] (api_Cidr cfg).

Definition len (s : string) : Z := Z.of_nat (String.length s).

(** The error text, [None] when the entry is accepted. *)
Definition validateCIDREntry (entry : CidrEntry) : option string :=
  let cidr := Cidr entry in
  let too_long := λ what n limit,
    Some (what +:+ " is too long: " +:+ pretty n +:+ " characters (maximum is " +:+ pretty limit +:+ ")") in
  let description := default ""%string (Description entry) in
  if maxCIDRDescriptionLength <? len description
  then too_long "description"%string (len description) maxCIDRDescriptionLength
  else if bool_decide (cidr = "") then Some "CIDR must not be empty"%string
  else if maxCIDRLength <? len cidr then too_long "CIDR"%string (len cidr) maxCIDRLength
  else
    match ParsePrefix cidr with
    | None =>
        match ParseAddr cidr with
        | None => Some (q cidr +:+ " is not a valid IP address or CIDR block")
        | Some addr =>
            if negb (bool_decide (Zone addr = ""))
            then Some (q cidr +:+ " must not contain a zone identifier") else None
        end
    | Some prefix =>
        if pf_bits prefix =? 0
        then Some (q cidr +:+ " allows all addresses; disable IP filtering instead of using a /0 prefix")
        else None
    end.

(** [ErrorInvalidParam], its parameter and message. *)
Fixpoint validate_entries (i : Z) (entries : list CidrEntry) : option (string * string) :=
  match entries with
  | [] => None
  | entry :: entries =>
      match validateCIDREntry entry with
      | Some msg => Some ("ipFiltering.cidr[" +:+ pretty i +:+ "]", msg)
      | None => validate_entries (i + 1) entries
      end
  end.

Definition validateIPFiltering (cfg : option IPFilteringConfiguration) : option (string * string) :=
  match cfg with
  | None => None
  | Some cfg =>
      if maxIPFilteringCIDRs <? Z.of_nat (length (api_entries cfg))
      then Some ("ipFiltering.cidr", "too many CIDR entries: " +:+ pretty (length (api_entries cfg))
                                     +:+ " (maximum is " +:+ pretty maxIPFilteringCIDRs +:+ ")")
      else validate_entries 0 (api_entries cfg)
  end.
