(* ===== verification/IPFilter.v ===== *)
(** * IP filtering: correctness

    The concurrent writers of the ConfigMap act atomically, and what the API
    accepted is what the gateway enforces. *)

From stdpp Require Import pretty.
From S2P Require Import Prelude GoStrings Kube Netip IPFilterModel.

#[local] Open Scope Z_scope.
#[local] Open Scope go_scope.

(** ** Concurrent writers of one ConfigMap *)

(** The operations of the clusters service on the ConfigMap. *)
Inductive op :=
| SetBranch (branchID : string) (config : IPFilteringConfig)
| SetBranches (branchIDs : list string) (config : IPFilteringConfig)
| DeleteBranch (branchID : string).

(** The specification: what each does to the map, at once. *)
Definition apply_op (o : op) (m : configs) : configs :=
  match o with
  | SetBranch id config => <[id := config]> m
  | SetBranches ids config => set_all ids config m
  | DeleteBranch id => delete id m
  end.

Definition ascii_config (c : IPFilteringConfig) : Prop := Forall (λ s, is_ascii s = true) (Allowed c).

Definition op_ok (o : op) : Prop :=
  match o with
  | SetBranch id config => is_ascii id = true ∧ ascii_config config
  | SetBranches ids config => ids ≠ [] ∧ Forall (λ s, is_ascii s = true) ids ∧ ascii_config config
  | DeleteBranch _ => True
  end.

Section Concurrent.
Context `{ConfigJSONLaws}.

Definition program_of (o : op) : prog resp (res error unit) :=
  match o with
  | SetBranch id config => SetBranchIPFiltering id config
  | SetBranches ids config => SetBranchesIPFiltering ids config
  | DeleteBranch id => DeleteBranchIPFiltering id
  end.

(** The API server: the last version given out and the object, if any. *)
Record server := mkServer { sv_version : Z; sv_cm : option ConfigMap }.

(** A write that was applied answers success, or an error that came too late
    to be a conflict. *)
Definition accepted (r : option api_error) : Prop :=
  match r with None => True | Some e => api_conflict e = false ∧ api_already_exists e = false end.

(** What the server may answer, whether it applied a write, and its next state.
    An update is applied only at the version that was read; any call may
    fail. *)
Definition serve (s : server) (c : call) : resp c → bool → server → Prop :=
  match c with
  | GetConfigMap => λ r applied s', applied = false ∧ s' = s ∧
      match r with Ok cm => sv_cm s = Some cm | Err e => api_not_found e = true → sv_cm s = None end
  | CreateConfigMap cm => λ r applied s',
      (applied = false ∧ s' = s ∧ r ≠ None) ∨
      (applied = true ∧ accepted r ∧ sv_cm s = None ∧ ∃ uid, uid ≠ "" ∧
       s' = mkServer (sv_version s + 1) (Some (mkConfigMap uid (sv_version s + 1) (cm_Data cm))))
  | UpdateConfigMap cm => λ r applied s',
      (applied = false ∧ s' = s ∧ r ≠ None) ∨
      (applied = true ∧ accepted r ∧ ∃ cur, sv_cm s = Some cur ∧
       cm_ResourceVersion cur = cm_ResourceVersion cm ∧
       s' = mkServer (sv_version s + 1)
              (Some (mkConfigMap (cm_UID cur) (sv_version s + 1) (cm_Data cm))))
  | Sleep => λ _ applied s', applied = false ∧ s' = s
  end.

(** The clients by number, each with its operation and the rest of its program,
    and the operations that took effect, in order. *)
Record state := mkState {
  srv : server;
  clients : gmap nat (op * prog resp (res error unit));
  log : list (nat * op)
}.

Definition settled (p : prog resp (res error unit)) : bool :=
  match p with Ret (Ok _) => true | _ => false end.

Definition is_get (c : call) : bool := match c with GetConfigMap => true | _ => false end.

(** An operation takes effect when its write is applied, or when it ends on
    what it has just read. *)
Inductive step : relation state :=
| step_start st i o :
    clients st !! i = None → op_ok o →
    step st (mkState (srv st) (<[i := (o, program_of o)]> (clients st)) (log st))
| step_call st i o c k r applied s' :
    clients st !! i = Some (o, Call c k) → serve (srv st) c r applied s' →
    step st (mkState s' (<[i := (o, k r)]> (clients st))
               (if applied || (is_get c && settled (k r)) then log st ++ [(i, o)] else log st)).

(** The stored map, [None] when it cannot be read; a nil map is empty. *)
Definition content (s : server) : option configs :=
  match sv_cm s with
  | None => Some ∅
  | Some cm => match existing_configs cm with Ok m => Some (default ∅ m) | Err _ => None end
  end.

Definition starts_with (m0 : configs) (st : state) : Prop :=
  clients st = ∅ ∧ log st = [] ∧ content (srv st) = Some m0 ∧ ascii_configs m0 ∧
  ∀ cm, sv_cm (srv st) = Some cm → cm_UID cm ≠ "" ∧ cm_ResourceVersion cm ≤ sv_version (srv st).

Definition replay (m0 : configs) (l : list (nat * op)) : configs :=
  foldl (λ m io, apply_op io.2 m) m0 l.

(** *** A discipline that makes a program atomic

    What a client knows of the server: nothing, that there was no object, or an
    object it has read. *)
Inductive knowledge := Nothing | Absent | Read (cm : ConfigMap).

Definition learn (c : call) : resp c → knowledge :=
  match c with
  | GetConfigMap => λ r,
      match r with
      | Ok cm => Read cm
      | Err e => if api_not_found e then Absent else Nothing
      end
  | _ => λ _, Nothing
  end.

Definition known_map (kn : knowledge) : option configs :=
  match kn with
  | Nothing => None
  | Absent => Some ∅
  | Read cm => match existing_configs cm with Ok m => Some (default ∅ m) | Err _ => None end
  end.

(** A write stores the operation's result on what was just read. *)
Definition may_write (f : configs → configs) (kn : knowledge) (c : call) : Prop :=
  match c with
  | CreateConfigMap cm => kn = Absent ∧ cm_Data cm !! ConfigMapKey = Some (Marshal (f ∅))
  | UpdateConfigMap cm => ∃ old m, kn = Read old ∧ known_map kn = Some m ∧
      cm_ResourceVersion cm = cm_ResourceVersion old ∧
      cm_Data cm !! ConfigMapKey = Some (Marshal (f m))
  | _ => True
  end.

(** Objects of the server have a UID. *)
Definition plausible (c : call) : resp c → Prop :=
  match c with
  | GetConfigMap => λ r, match r with Ok cm => cm_UID cm ≠ "" | Err _ => True end
  | _ => λ _, True
  end.

Definition write_accepted (c : call) : resp c → Prop :=
  match c with CreateConfigMap _ | UpdateConfigMap _ => accepted | _ => λ _, False end.

Definition write_succeeded (c : call) : resp c → Prop :=
  match c with CreateConfigMap _ | UpdateConfigMap _ => λ r, r = None | _ => λ _, False end.

(** A program that writes at most once, from what it has just read, and ends
    without a write only on an error or when there was nothing to do. *)
Fixpoint disciplined (f : configs → configs) (kn : knowledge) (p : prog resp (res error unit)) : Prop :=
  match p with
  | Ret r => r = Ok tt → ∃ m, known_map kn = Some m ∧ f m = m
  | Call c k =>
      may_write f kn c ∧ ∀ r, plausible c r →
        (write_accepted c r → ∃ a, k r = Ret a) ∧
        (write_succeeded c r ∨ disciplined f (learn c r) (k r))
  end.

Lemma existing_with cm m :
  ascii_configs m → existing_configs (with_configs cm m) = Ok (Some m).
Proof.
  intros Hm. unfold existing_configs, with_configs. simpl. rewrite lookup_insert_eq.
  destruct (Marshal m) eqn:HM; [by destruct (Marshal_not_empty m)|].
  by rewrite <- HM, Unmarshal_Marshal.
Qed.

Lemma disciplined_write_result f msg again rest retry (r : option api_error) :
  disciplined f Nothing retry →
  (r ≠ None → disciplined f Nothing (write_result msg again rest retry r)) ∧
  ((∀ e, r = Some e → again e = false) → ∃ a, write_result msg again rest retry r = Ret a).
Proof.
  intros Hretry. destruct r as [e|]; simpl.
  - split.
    + intros _. destruct (again e && _); simpl; [|done]. split; [done|]. intros _ _.
      split; [done|]. by right.
    + intros Ha. rewrite (Ha e eq_refl). by eexists.
  - split; [done|]. intros _. by eexists.
Qed.

Lemma set_loop_disciplined f n kn : disciplined f kn (set_loop f n).
Proof.
  revert kn. induction n as [|n IH]; intros kn; [done|].
  cbn [set_loop]. split; [done|]. intros r Hpl. split; [done|]. right.
  assert (∀ msg again (r : option api_error), accepted r → (∀ e, api_conflict e = false →
            api_already_exists e = false → again e = false) →
          ∃ a, write_result msg again n (set_loop f n) r = Ret a) as Hdone.
  { intros msg again r' Hr' Ha. apply (disciplined_write_result f msg again n _ r'); [apply IH|].
    intros e ->. by destruct Hr'; apply Ha. }
  destruct r as [cm|e]; cbn [learn].
  - simpl. destruct (existing_configs cm) as [[m|]|e] eqn:He; [|done..].
    simpl in Hpl. rewrite bool_decide_eq_false_2 by done. split.
    + exists cm, m. split_and!; [done|by simpl; rewrite He|done|]. simpl. by rewrite lookup_insert_eq.
    + intros r _. split.
      * intros Hr. apply Hdone; [done|]. by intros.
      * destruct r as [e|]; [|by left]. right. by apply disciplined_write_result.
  - destruct (api_not_found e) eqn:Hnf; simpl; rewrite Hnf; [|done]. simpl.
    split; [split; [done|]; simpl; by rewrite lookup_insert_eq|].
    intros r _. split.
    + intros Hr. apply Hdone; [done|]. by intros e' -> ->.
    + destruct r as [e'|]; [|by left]. right. by apply disciplined_write_result.
Qed.

Lemma delete_loop_disciplined id n kn : disciplined (delete id) kn (delete_loop id n).
Proof.
  revert kn. induction n as [|n IH]; intros kn; [done|].
  cbn [delete_loop]. split; [done|]. intros r Hpl. split; [done|]. right.
  destruct r as [cm|e]; cbn [learn].
  - simpl. destruct (existing_configs cm) as [m|e] eqn:He; [|done].
    destruct (default ∅ m !! id) eqn:Hid.
    + simpl. split.
      * exists cm, (default ∅ m). simpl. rewrite He, lookup_insert_eq. done.
      * intros r _. split.
        -- intros Hr. apply (disciplined_write_result (delete id)); [apply IH|].
           by intros e ->; destruct Hr.
        -- destruct r as [e|]; [|by left]. right. by apply disciplined_write_result.
    + simpl. intros _. exists (default ∅ m). rewrite He. split; [done|]. by apply delete_id.
  - simpl. destruct (api_not_found e) eqn:Hnf; simpl; [|done]. intros _. exists ∅.
    split; [done|]. apply delete_empty.
Qed.

Lemma program_disciplined o : op_ok o → disciplined (apply_op o) Nothing (program_of o).
Proof.
  destruct o as [id c|ids c|id]; intros Ho; cbn [program_of apply_op].
  - apply set_loop_disciplined.
  - unfold SetBranchesIPFiltering. destruct ids; [by destruct Ho|]. apply set_loop_disciplined.
  - apply delete_loop_disciplined.
Qed.

Lemma apply_op_ascii o m : op_ok o → ascii_configs m → ascii_configs (apply_op o m).
Proof.
  destruct o as [id c|ids c|id]; cbn [op_ok apply_op]; intros Ho Hm.
  - intros k c' [[<- <-]|[_ Hk]]%lookup_insert_Some; [done|by apply Hm].
  - destruct Ho as (_ & Hids & Hc). unfold set_all. revert m Hm.
    induction Hids as [|id ids Hid Hids IH]; intros m Hm; [done|]. apply IH.
    intros k c' [[<- <-]|[_ Hk]]%lookup_insert_Some; [done|by apply Hm].
  - intros k c' [_ Hk]%lookup_delete_Some. by apply Hm.
Qed.

(** *** The invariant *)

Definition knows (s : server) (kn : knowledge) : Prop :=
  match kn with
  | Read cm => cm_ResourceVersion cm ≤ sv_version s ∧
      ∀ cur, sv_cm s = Some cur → cm_ResourceVersion cur = cm_ResourceVersion cm → cur = cm
  | _ => True
  end.

Definition client_ok (st : state) (i : nat) (o : op) (p : prog resp (res error unit)) : Prop :=
  if bool_decide (i ∈ (log st).*1) then ∃ r, p = Ret r
  else settled p = false ∧ ∃ kn, knows (srv st) kn ∧ disciplined (apply_op o) kn p.

Record Inv (m0 : configs) (st : state) : Prop := {
  inv_content : content (srv st) = Some (replay m0 (log st));
  inv_ascii : ascii_configs (replay m0 (log st));
  inv_server : ∀ cm, sv_cm (srv st) = Some cm →
    cm_UID cm ≠ "" ∧ cm_ResourceVersion cm ≤ sv_version (srv st);
  inv_log : NoDup (log st).*1 ∧
    ∀ i o, (i, o) ∈ log st → ∃ p, clients st !! i = Some (o, p);
  inv_clients : ∀ i o p, clients st !! i = Some (o, p) → op_ok o ∧ client_ok st i o p
}.

Lemma Inv_init m0 st : starts_with m0 st → Inv m0 st.
Proof.
  intros (Hc & Hl & Hm & Ha & Hs). split; rewrite ?Hl; try done.
  - split; [constructor|]. by intros i o []%elem_of_nil.
  - rewrite Hc. intros i o p. by rewrite lookup_empty.
Qed.

Definition server_ok (s : server) : Prop :=
  ∀ cm, sv_cm s = Some cm → cm_UID cm ≠ "" ∧ cm_ResourceVersion cm ≤ sv_version s.

Lemma content_stored cm m :
  cm_Data cm !! ConfigMapKey = Some (Marshal m) → ascii_configs m →
  existing_configs cm = Ok (Some m).
Proof.
  intros Hcm Hm. rewrite <- (existing_with cm m Hm).
  unfold existing_configs, with_configs. simpl. by rewrite Hcm, lookup_insert_eq.
Qed.

(** A new version leaves what was known true. *)
Lemma knows_written s uid data kn :
  knows s kn →
  knows (mkServer (sv_version s + 1) (Some (mkConfigMap uid (sv_version s + 1) data))) kn.
Proof.
  destruct kn as [| |cm]; simpl; [done..|]. intros [Hle _]. split; [lia|].
  intros cur [= <-] Heq. simpl in Heq. lia.
Qed.

Lemma serve_knows s c r applied s' kn :
  serve s c r applied s' → knows s kn → knows s' kn.
Proof.
  destruct c; simpl.
  - by intros (_ & -> & _).
  - intros [(_ & -> & _)|(_ & _ & _ & uid & _ & ->)]; [done|apply knows_written].
  - intros [(_ & -> & _)|(_ & _ & cur & _ & _ & ->)]; [done|apply knows_written].
  - by intros (_ & ->).
Qed.

Lemma serve_ok s c r applied s' :
  serve s c r applied s' → server_ok s → server_ok s' ∧ plausible c r ∧ knows s' (learn c r).
Proof.
  unfold server_ok. destruct c; simpl; intros Hs Hok.
  - destruct Hs as (_ & -> & Hr). split; [done|]. destruct r as [cm|e].
    + split; [by apply Hok|]. split; [by apply Hok|]. intros cur Hcur _. congruence.
    + split; [done|]. by destruct (api_not_found e).
  - split; [|done]. destruct Hs as [(_ & -> & _)|(_ & _ & _ & uid & Huid & ->)]; [done|].
    by intros cm' [= <-].
  - split; [|done]. destruct Hs as [(_ & -> & _)|(_ & _ & cur & Hcur & _ & ->)]; [done|].
    intros cm' [= <-]. simpl. split; [by apply Hok|done].
  - by destruct Hs as (_ & ->).
Qed.

Lemma serve_not_applied s c r s' :
  serve s c r false s' → s' = s ∧ ¬ write_succeeded c r.
Proof. destruct c; simpl; naive_solver. Qed.

Lemma serve_applied s c r s' f kn m :
  serve s c r true s' → may_write f kn c → knows s kn → content s = Some m →
  ascii_configs (f m) → write_accepted c r ∧ content s' = Some (f m).
Proof.
  destruct c; simpl; [naive_solver| | |naive_solver].
  - intros [[? _]|(_ & Hr & Hnone & uid & _ & ->)]; [done|]. intros [_ Hd] _ Hm Ha.
    split; [done|]. unfold content in *. rewrite Hnone in Hm. simplify_eq. simpl.
    by rewrite (content_stored _ (f ∅)).
  - intros [[? _]|(_ & Hr & cur & Hcur & Hv & ->)]; [done|].
    intros (old & m' & -> & Hm' & Hv' & Hd) [_ Hk] Hm Ha. split; [done|].
    assert (cur = old) as -> by (apply Hk; congruence).
    unfold content in *. rewrite Hcur in Hm. simpl in Hm'.
    assert (m' = m) as -> by congruence. simpl. by rewrite (content_stored _ (f m)).
Qed.

(** An operation that ends on what it read had nothing to do. *)
Lemma serve_read s c r applied s' m m' :
  serve s c r applied s' → is_get c = true → known_map (learn c r) = Some m' →
  content s = Some m → m' = m.
Proof.
  destruct c; try done. simpl. intros (_ & _ & Hr) _. unfold content. destruct r as [cm|e].
  - rewrite Hr. simpl. congruence.
  - destruct (api_not_found e); [|done]. rewrite Hr by done. simpl. congruence.
Qed.

Lemma learn_not_get c r : is_get c = false → learn c r = Nothing.
Proof. by destruct c. Qed.

Lemma replay_snoc m0 l i o : replay m0 (l ++ [(i, o)]) = apply_op o (replay m0 l).
Proof. unfold replay. by rewrite foldl_app. Qed.

(** Another client does not notice. *)
Lemma client_ok_other st s' cs l i o j o' p :
  j ≠ i → (l = log st ∨ l = log st ++ [(i, o)]) →
  (∀ kn, knows (srv st) kn → knows s' kn) →
  client_ok st j o' p → client_ok (mkState s' cs l) j o' p.
Proof.
  unfold client_ok. simpl. intros Hne Hl Hk.
  assert (j ∈ l.*1 ↔ j ∈ (log st).*1) as Hin.
  { destruct Hl as [->| ->]; [done|]. rewrite fmap_app, elem_of_app. simpl. set_solver. }
  rewrite (bool_decide_ext _ _ Hin). case_bool_decide; [done|].
  intros (Hs & kn & Hkn & Hd). split; [done|]. exists kn. auto.
Qed.

Lemma Inv_start m0 st i o :
  Inv m0 st → clients st !! i = None → op_ok o →
  Inv m0 (mkState (srv st) (<[i := (o, program_of o)]> (clients st)) (log st)).
Proof.
  intros [Hc Ha Hs [Hnd Hlog] Hcl] Hi Ho. split; try done; simpl.
  - split; [done|]. intros j o' Hj. destruct (Hlog j o' Hj) as [p Hp].
    exists p. rewrite lookup_insert_ne; [done|]. intros ->. congruence.
  - intros j o' p [[<- [= <- <-]]|[Hne Hj]]%lookup_insert_Some.
    + split; [done|]. unfold client_ok. simpl. case_bool_decide as Hin.
      * apply list_elem_of_fmap in Hin as ([i' o'] & -> & Hin). apply Hlog in Hin as [p Hp].
        simpl in Hi. congruence.
      * split; [|by exists Nothing; split; [|apply program_disciplined]].
        destruct o as [| [|]|]; try done. by destruct Ho.
    + destruct (Hcl j o' p Hj) as [Ho' Hok]. split; [done|].
      eapply (client_ok_other st _ _ _ i o); [done|by left|done..].
Qed.

(** The step of a client whose operation takes effect now. *)
Lemma Inv_effect m0 st i o c k r applied s' a :
  Inv m0 st → clients st !! i = Some (o, Call c k) → serve (srv st) c r applied s' →
  i ∉ (log st).*1 → k r = Ret a → content s' = Some (apply_op o (replay m0 (log st))) →
  Inv m0 (mkState s' (<[i := (o, k r)]> (clients st)) (log st ++ [(i, o)])).
Proof.
  intros [Hc Ha Hs [Hnd Hlog] Hcl] Hi Hserve Hnotin Hk Hcont.
  destruct (Hcl i o _ Hi) as [Ho _].
  destruct (serve_ok _ _ _ _ _ Hserve Hs) as (Hs' & _ & _). split; simpl.
  - by rewrite replay_snoc.
  - rewrite replay_snoc. by apply apply_op_ascii.
  - done.
  - split.
    + rewrite fmap_app. apply NoDup_app. split_and!; [done| |apply NoDup_singleton].
      intros x Hx ->%list_elem_of_singleton. done.
    + intros j o' [Hj|[= -> ->]%list_elem_of_singleton]%elem_of_app.
      * destruct (Hlog j o' Hj) as [p Hp]. exists p. rewrite lookup_insert_ne; [done|].
        intros ->. destruct Hnotin. apply list_elem_of_fmap. by exists (j, o').
      * exists (k r). by rewrite lookup_insert_eq.
  - intros j o' p [[<- [= <- <-]]|[Hne Hj]]%lookup_insert_Some.
    + split; [done|]. unfold client_ok. simpl. rewrite bool_decide_eq_true_2.
      * by exists a.
      * rewrite fmap_app. apply elem_of_app. right. by left.
    + destruct (Hcl j o' p Hj) as [Ho' Hok]. split; [done|].
      eapply client_ok_other; [done|by right| |done]. intros kn. by eapply serve_knows.
Qed.

(** The step of a client that goes on, or fails. *)
Lemma Inv_continue m0 st i o c k r kn :
  Inv m0 st → clients st !! i = Some (o, Call c k) → i ∉ (log st).*1 →
  knows (srv st) kn → disciplined (apply_op o) kn (k r) → settled (k r) = false →
  Inv m0 (mkState (srv st) (<[i := (o, k r)]> (clients st)) (log st)).
Proof.
  intros [Hc Ha Hs [Hnd Hlog] Hcl] Hi Hnotin Hkn Hd Hset.
  destruct (Hcl i o _ Hi) as [Ho _]. split; try done; simpl.
  - split; [done|]. intros j o' Hj. destruct (Hlog j o' Hj) as [p Hp].
    exists p. rewrite lookup_insert_ne; [done|].
    intros ->. destruct Hnotin. apply list_elem_of_fmap. by exists (j, o').
  - intros j o' p [[<- [= <- <-]]|[Hne Hj]]%lookup_insert_Some.
    + split; [done|]. unfold client_ok. simpl. rewrite bool_decide_eq_false_2 by done.
      split; [done|]. by exists kn.
    + destruct (Hcl j o' p Hj) as [Ho' Hok]. split; [done|].
      eapply (client_ok_other st _ _ _ i o); [done|by left|done..].
Qed.

Lemma Inv_call m0 st i o c k r applied s' :
  Inv m0 st → clients st !! i = Some (o, Call c k) → serve (srv st) c r applied s' →
  Inv m0 (mkState s' (<[i := (o, k r)]> (clients st))
            (if applied || (is_get c && settled (k r)) then log st ++ [(i, o)] else log st)).
Proof.
  intros HI Hi Hserve. destruct (inv_clients _ _ HI i o _ Hi) as [Ho Hok].
  unfold client_ok in Hok. case_bool_decide as Hin; [by destruct Hok|].
  destruct Hok as (_ & kn & Hkn & Hwrite & Hnext).
  destruct (serve_ok _ _ _ _ _ Hserve (inv_server _ _ HI)) as (_ & Hpl & Hlearn).
  destruct (Hnext r Hpl) as [Hdone Hgo]. destruct applied; simpl.
  - destruct (serve_applied _ _ _ _ _ _ _ Hserve Hwrite Hkn (inv_content _ _ HI)) as [Hacc Hcont];
      [by apply apply_op_ascii, inv_ascii|].
    destruct (Hdone Hacc) as [a Ha]. by eapply Inv_effect.
  - destruct (serve_not_applied _ _ _ _ Hserve) as [-> Hns]. destruct Hgo as [?|Hd]; [done|].
    destruct (settled (k r)) eqn:Hset.
    + destruct (k r) as [[[]|]|] eqn:Hk; try done. destruct Hd as (m & Hm & Hf); [done|].
      destruct (is_get c) eqn:Hg; [|by rewrite learn_not_get in Hm].
      rewrite <- Hk. simpl. eapply Inv_effect; [done..|].
      rewrite (serve_read _ _ _ _ _ _ _ Hserve Hg Hm (inv_content _ _ HI)) in Hf.
      rewrite Hf. apply (inv_content _ _ HI).
    + rewrite andb_false_r. by eapply Inv_continue.
Qed.

Lemma ipfilter_Inv_reachable m0 st0 st : starts_with m0 st0 → rtc step st0 st → Inv m0 st.
Proof.
  intros Hinit%Inv_init Hst. induction Hst as [|st st1 st2 Hstep _ IH]; [done|].
  apply IH. destruct Hstep; [by apply Inv_start|by apply Inv_call].
Qed.

(** C7. Concurrent updates of the cell's IP filtering ConfigMap are atomic: in
    every interleaving of clients' requests, with failing calls, lost
    responses and conflicts, the stored map is the result of applying the
    operations that took effect one after another, each client's at most once
    and exactly once when it returned without an error.  No update is lost and
    none overwrites another branch's rules. *)
Theorem ipfiltering_writes_are_atomic m0 st0 st :
  starts_with m0 st0 → rtc step st0 st →
  content (srv st) = Some (replay m0 (log st))
  ∧ NoDup (log st).*1
  ∧ (∀ i o, (i, o) ∈ log st → ∃ p, clients st !! i = Some (o, p))
  ∧ (∀ i o, clients st !! i = Some (o, Ret (Ok tt)) → (i, o) ∈ log st).
Proof.
  intros Hinit Hst. destruct (ipfilter_Inv_reachable _ _ _ Hinit Hst) as [Hc _ _ [Hnd Hlog] Hcl].
  split_and!; [done..|]. intros i o Hi. destruct (Hcl i o _ Hi) as [_ Hok].
  unfold client_ok in Hok. case_bool_decide as Hin; [|by destruct Hok].
  apply list_elem_of_fmap in Hin as ([i' o'] & -> & Hin).
  destruct (Hlog _ _ Hin) as [p Hp]. simpl in *. congruence.
Qed.
End Concurrent.

(** ** Enforcement *)

(** The address a client connects from, as the filter reads it. *)
Definition client_ip (clientAddr : string) : option Addr :=
  ParseAddr (match SplitHostPort clientAddr with Some (h, _) => h | None => clientAddr end).

(** What the projects service sends to a cell for a project's settings. *)
Definition stored_config (cfg : IPFilteringConfiguration) : IPFilteringConfig :=
  mkConfig (api_Enabled cfg) (map Cidr (api_entries cfg)).

Lemma client_ip_dotted a b c d port :
  byte_range a → byte_range b → byte_range c → byte_range d → 0 ≤ port →
  client_ip (dotted a b c d +:+ String ":"%char (pretty port))
  = Some (Addr4 (((a * 256 + b) * 256 + c) * 256 + d)).
Proof. intros. unfold client_ip. by rewrite SplitHostPort_dotted, ParseAddr_dotted. Qed.

Lemma client_ip_wf addr ip : client_ip addr = Some ip → addr_wf ip.
Proof. apply ParseAddr_wf. Qed.

Lemma parse_entry_wf s p : parse_entry s = Some p → prefix_wf p.
Proof.
  unfold parse_entry. destruct (ParsePrefix s) as [p'|] eqn:Hp.
  - intros [= <-]. by eapply ParsePrefix_wf.
  - intros (a & Ha%ParseAddr_wf & [= <-])%bind_Some. apply PrefixFrom_wf; [done|].
    by destruct a; simpl; lia.
Qed.

(** An accepted entry is kept by the gateway, and is not the whole family. *)
Lemma validateCIDREntry_parsed e :
  validateCIDREntry e = None → ∃ p, parse_entry (Cidr e) = Some p ∧ 0 < pf_bits p.
Proof.
  unfold validateCIDREntry, parse_entry.
  destruct (_ <? len (default _ _)); [done|]. case_bool_decide; [done|].
  destruct (_ <? len _); [done|]. destruct (ParsePrefix (Cidr e)) as [p|] eqn:Hp.
  - destruct (Z.eqb_spec (pf_bits p) 0); [done|]. intros _. exists p. split; [done|].
    apply ParsePrefix_wf in Hp as (_ & ? & _). lia.
  - destruct (ParseAddr (Cidr e)) as [a|]; [|done]. intros _. eexists. split; [done|].
    by destruct a; simpl; lia.
Qed.

Lemma validate_entries_all i es :
  validate_entries i es = None → ∀ e, e ∈ es → validateCIDREntry e = None.
Proof.
  revert i. induction es as [|e es IH]; simpl; intros i.
  - by intros _ e []%elem_of_nil.
  - destruct (validateCIDREntry e) eqn:He; [done|]. intros Hes e' [->|Hin]%elem_of_cons; [done|].
    by eapply IH.
Qed.

Lemma validated_entries cfg e :
  validateIPFiltering (Some cfg) = None → e ∈ api_entries cfg →
  ∃ p, parse_entry (Cidr e) = Some p ∧ 0 < pf_bits p.
Proof.
  simpl. destruct (_ <? _); [done|]. intros Hv He.
  by apply validateCIDREntry_parsed, (validate_entries_all _ _ Hv).
Qed.

Section Enforcement.
Context `{ConfigJSONLaws}.

(** The gateway reads the map that the writers keep. *)
Lemma gateway_loads s m cm rules :
  content s = Some m → sv_cm s = Some cm → cm_Data cm !! ConfigMapKey ≠ Some ""%string →
  on_event rules (Updated cm) = updateRules m.
Proof.
  unfold content, existing_configs. intros Hc Hs Hne. rewrite Hs in Hc. simpl.
  destruct (cm_Data cm !! ConfigMapKey) as [raw|]; [|by simplify_eq].
  simpl. destruct raw as [|x raw]; [done|].
  destruct (Unmarshal (String x raw)) as [m'|]; by simplify_eq.
Qed.

Lemma IsAllowed_unfiltered m branch addr :
  (∀ c, m !! branch = Some c → Enabled c = false) → IsAllowed (updateRules m) branch addr = true.
Proof.
  intros Hm. unfold IsAllowed, updateRules. rewrite lookup_omap.
  destruct (m !! branch) as [c|]; simpl; [|done]. by rewrite (Hm c).
Qed.

Lemma IsAllowed_filtered m branch allowed addr :
  m !! branch = Some (mkConfig true allowed) →
  IsAllowed (updateRules m) branch addr = true ↔
  ∃ ip s p, client_ip addr = Some ip ∧ s ∈ allowed ∧ parse_entry s = Some p ∧ admits p ip.
Proof.
  intros Hm. unfold IsAllowed, updateRules. rewrite lookup_omap, Hm. simpl.
  fold (client_ip addr). destruct (client_ip addr) as [ip|] eqn:Hip; [|naive_solver].
  apply client_ip_wf in Hip. rewrite existsb_exists. split.
  - intros (p & (s & Hs & Hp)%list_elem_of_In%list_elem_of_omap & Hc).
    exists ip, s, p. split_and!; [done..|]. apply Prefix_Contains_spec in Hc; [done| |done].
    by eapply parse_entry_wf.
  - intros (ip' & s & p & [= <-] & Hs & Hp & Ha). exists p. split.
    + apply list_elem_of_In, list_elem_of_omap. by exists s.
    + apply Prefix_Contains_spec; [by eapply parse_entry_wf|done..].
Qed.

(** C11. What the API accepted is what the gateway enforces: once the rules of a
    project that validated are stored for a branch, whatever other branches'
    updates ran concurrently, a gateway that has seen the ConfigMap lets a
    client in exactly when its address lies in one of the project's blocks.
    No accepted entry is dropped, and none admits a whole address family.
    Branches without enabled rules are open. *)
Theorem accepted_rules_are_enforced cfg m0 st0 st cm rules branch addr :
  validateIPFiltering (Some cfg) = None → api_Enabled cfg = true →
  starts_with m0 st0 → rtc step st0 st →
  sv_cm (srv st) = Some cm → cm_Data cm !! ConfigMapKey ≠ Some ""%string →
  replay m0 (log st) !! branch = Some (stored_config cfg) →
  let rules' := on_event rules (Updated cm) in
  (∀ e, e ∈ api_entries cfg → ∃ p, parse_entry (Cidr e) = Some p ∧ 0 < pf_bits p)
  ∧ (IsAllowed rules' branch addr = true ↔
     ∃ ip e p, client_ip addr = Some ip ∧ e ∈ api_entries cfg ∧ parse_entry (Cidr e) = Some p
               ∧ admits p ip)
  ∧ ∀ other, (∀ c, replay m0 (log st) !! other = Some c → Enabled c = false) →
      IsAllowed rules' other addr = true.
Proof.
  intros Hv Hen Hinit Hst Hcm Hne Hb rules'.
  pose proof (inv_content _ _ (ipfilter_Inv_reachable _ _ _ Hinit Hst)) as Hc.
  assert (rules' = updateRules (replay m0 (log st))) as -> by by eapply gateway_loads.
  split; [by intros e; apply validated_entries|]. split.
  - unfold stored_config in Hb. rewrite Hen in Hb. rewrite (IsAllowed_filtered _ _ _ _ Hb).
    split.
    + intros (ip & s & p & Hip & (e & -> & He)%list_elem_of_fmap & Hp & Ha). by exists ip, e, p.
    + intros (ip & e & p & Hip & He & Hp & Ha). exists ip, (Cidr e), p. split_and!; try done.
      apply list_elem_of_fmap. by exists e.
  - intros other Ho. by apply IsAllowed_unfiltered.
Qed.
End Enforcement.

(** ** Concrete inputs *)

Module Witness.

(** A concrete encoding with the laws of [ConfigJSON]. *)
#[local] Instance config_countable : Countable IPFilteringConfig.
Proof.
  refine (inj_countable' (λ c, (Enabled c, Allowed c)) (λ p, mkConfig p.1 p.2) _).
  by intros [].
Defined.

Fixpoint bits_string (p : positive) : string :=
  match p with
  | xH => "."
  | xO p => String "0" (bits_string p)
  | xI p => String "1" (bits_string p)
  end.

Fixpoint string_bits (s : string) : option positive :=
  match s with
  | String "." EmptyString => Some xH
  | String "0" s => xO <$> string_bits s
  | String "1" s => xI <$> string_bits s
  | _ => None
  end.

Lemma string_bits_string p : string_bits (bits_string p) = Some p.
Proof. induction p as [p IH|p IH|]; cbn [bits_string string_bits]; [by rewrite IH..|done]. Qed.

#[local] Instance json : ConfigJSON := {
  Marshal m := bits_string (encode m);
  Unmarshal s := p ← string_bits s; Some <$> decode p
}.

#[local] Instance json_laws : ConfigJSONLaws.
Proof.
  split.
  - intros m _. simpl. rewrite string_bits_string. simpl. by rewrite decode_encode.
  - intros m. simpl. by destruct (encode m).
Defined.

(** A server that never fails. *)
Definition refused (reason : StatusReason) : api_error := mkApiError reason "refused".

Definition handle (s : server) (c : call) : resp c * bool * server :=
  match c return resp c * bool * server with
  | GetConfigMap =>
      (match sv_cm s with Some cm => Ok cm | None => Err (refused NotFound) end, false, s)
  | CreateConfigMap cm =>
      match sv_cm s with
      | Some _ => (Some (refused AlreadyExists), false, s)
      | None => (None, true, mkServer (sv_version s + 1)
                   (Some (mkConfigMap "uid" (sv_version s + 1) (cm_Data cm))))
      end
  | UpdateConfigMap cm =>
      match sv_cm s with
      | Some cur =>
          if bool_decide (cm_ResourceVersion cur = cm_ResourceVersion cm)
          then (None, true, mkServer (sv_version s + 1)
                  (Some (mkConfigMap (cm_UID cur) (sv_version s + 1) (cm_Data cm))))
          else (Some (refused Conflict), false, s)
      | None => (Some (refused NotFound), false, s)
      end
  | Sleep => (tt, false, s)
  end.

Lemma handle_serve s c : serve s c (handle s c).1.1 (handle s c).1.2 (handle s c).2.
Proof.
  destruct c; simpl.
  - destruct (sv_cm s) eqn:Hs; simpl; [done|]. by split_and!.
  - destruct (sv_cm s) eqn:Hs; simpl; [left; done|]. right. split_and!; try done. by exists "uid"%string.
  - destruct (sv_cm s) as [cur|] eqn:Hs; simpl; [|left; done].
    case_bool_decide; simpl; [|left; done]. right. split_and!; try done. by exists cur.
  - done.
Qed.

Definition advance (st : state) (i : nat) : state :=
  match clients st !! i with
  | Some (o, Call c k) =>
      let '(r, applied, s') := handle (srv st) c in
      mkState s' (<[i := (o, k r)]> (clients st))
        (if applied || (is_get c && settled (k r)) then log st ++ [(i, o)] else log st)
  | _ => st
  end.

Lemma advance_steps st l : rtc step st (foldl advance st l).
Proof.
  revert st. induction l as [|i l IH]; intros st; simpl; [apply rtc_refl|].
  transitivity (advance st i); [|apply IH]. unfold advance.
  destruct (clients st !! i) as [[o [a|c k]]|] eqn:Hi; [apply rtc_refl| |apply rtc_refl].
  pose proof (handle_serve (srv st) c) as Hs. destruct (handle (srv st) c) as [[r a] s'].
  apply rtc_once. by eapply step_call.
Qed.

Definition empty_state : state := mkState (mkServer 0 None) ∅ [].

Definition rules_a : IPFilteringConfiguration :=
  mkFiltering true (Some [mkCidr "10.0.0.0/8" None; mkCidr "192.168.1.7" (Some "office"%string)]).
Definition op_a : op := SetBranches ["a1"; "a2"]%string (stored_config rules_a).
Definition op_b : op := SetBranch "b1"%string (mkConfig false []).

Definition started : state :=
  mkState (mkServer 0 None)
    (<[1%nat := (op_b, program_of op_b)]> (<[0%nat := (op_a, program_of op_a)]> ∅)) [].

Lemma started_steps : rtc step empty_state started.
Proof.
  eapply rtc_l; [apply (step_start empty_state 0 op_a); [done|]|].
  { split; [done|]. unfold ascii_config. simpl. split; repeat constructor. }
  apply rtc_once. apply (step_start (mkState (mkServer 0 None) _ []) 1 op_b); [done|].
  by repeat constructor.
Qed.

(** Both read, both try to create; the loser reads again and updates. *)
Definition finished : state := foldl advance started [0; 1; 0; 1; 1; 1; 1]%nat.

Lemma finished_steps : rtc step empty_state finished.
Proof. transitivity started; [apply started_steps|apply advance_steps]. Qed.

Lemma starts_empty : starts_with ∅ empty_state.
Proof. split_and!; done. Qed.

Lemma ipfiltering_writes_are_atomic_witness :
  clients finished !! 1%nat = Some (op_b, Ret (Ok tt)) ∧ (1%nat, op_b) ∈ log finished
  ∧ content (srv finished) = Some (replay ∅ (log finished)).
Proof.
  destruct (ipfiltering_writes_are_atomic ∅ empty_state finished starts_empty finished_steps)
    as (Hc & _ & _ & Hdone).
  assert (clients finished !! 1%nat = Some (op_b, Ret (Ok tt))) as Hb by (vm_compute; reflexivity).
  split; [exact Hb|]. split; [exact (Hdone _ _ Hb)|exact Hc].
Defined.

Definition final_cm : ConfigMap := default (mkConfigMap "" 0 ∅) (sv_cm (srv finished)).

Lemma accepted_rules_are_enforced_witness :
  validateIPFiltering (Some rules_a) = None
  ∧ IsAllowed (on_event ∅ (Updated final_cm)) "a2" "10.1.2.3:40000" = true
  ∧ ∃ ip e p, client_ip "10.1.2.3:40000" = Some ip ∧ e ∈ api_entries rules_a
      ∧ parse_entry (Cidr e) = Some p ∧ admits p ip.
Proof.
  assert (validateIPFiltering (Some rules_a) = None) as Hv by (vm_compute; reflexivity).
  assert (sv_cm (srv finished) = Some final_cm) as Hcm by (vm_compute; reflexivity).
  assert (IsAllowed (on_event ∅ (Updated final_cm)) "a2" "10.1.2.3:40000" = true) as Ha
    by (vm_compute; reflexivity).
  destruct (accepted_rules_are_enforced rules_a ∅ empty_state finished final_cm ∅ "a2"
    "10.1.2.3:40000" Hv eq_refl starts_empty finished_steps Hcm) as (_ & Hiff & _).
  - vm_compute. discriminate.
  - vm_compute. reflexivity.
  - split; [exact Hv|]. split; [exact Ha|]. exact (proj1 Hiff Ha).
Defined.

End Witness.
