(* ===== verification/ProjectFilter.v ===== *)
(** * Updating a project: [services/projects/api/handler.go]

    [UpdateProject] with [applyIPFilteringToBranchCells], the conversions of
    [api_adapter.go] and the transaction of [store_sql.go]: the rules are sent
    to the cells of every branch under the project lock, and the project's row
    is committed only after all cells accepted them.  The database, the cells
    and the lock answer arbitrarily; the authorization around the handler and
    the analytics event are left out. *)

From S2P Require Import Prelude GoStrings IPFilterModel.

#[local] Open Scope Z_scope.
#[local] Open Scope go_scope.

(** ** The store's types ([store.go]) *)

Record CIDREntry := mkCIDREntry { CIDR : string; CIDRDescription : string }.

(** [None] is the nil slice. *)
Record IPFiltering := mkIPFiltering {
  IPF_Enabled : bool;
  CIDRs : option (list CIDREntry)
}.

Definition CIDRStrings (i : IPFiltering) : list string := map CIDR (default [] (CIDRs i)).

Record ScaleToZero := mkScaleToZero { STZ_Enabled : bool; InactivityPeriod : Z }.
Record ProjectScaleToZero := mkProjectScaleToZero {
  BaseBranches : ScaleToZero;
  ChildBranches : ScaleToZero
}.

Record Project := mkProject {
  ProjectName : string;
  Project_ScaleToZero : ProjectScaleToZero;
  Project_IPFiltering : IPFiltering
}.

Record UpdateProjectConfiguration := mkUpdateProject {
  up_Name : option string;
  up_ScaleToZero : option ProjectScaleToZero;
  up_IPFiltering : option IPFiltering
}.

Record Branch := mkBranch { BranchID : string; CellID : string }.

(** ** The request and its conversion ([api_adapter.go]) *)

Record ScaleToZeroBody := mkScaleToZeroBody { body_Enabled : bool; InactivityPeriodMinutes : Z }.

Record UpdateProjectBody := mkBody {
  body_Name : option string;
  body_Configuration : option (option (ScaleToZeroBody * ScaleToZeroBody) * option IPFilteringConfiguration)
}.

Definition Minute : Z := 60000000000.
Definition defaultInactivityDuration : Z := 30 * Minute.

(** [time.Minute * time.Duration(n)] in 64 bits. *)
Definition minutes (n : Z) : Z := (Minute * n + 2 ^ 63) mod 2 ^ 64 - 2 ^ 63.

Definition apiToStoreScaleToZeroConfig (b : ScaleToZeroBody) : ScaleToZero :=
  mkScaleToZero (body_Enabled b)
    (if 0 <? InactivityPeriodMinutes b then minutes (InactivityPeriodMinutes b)
     else defaultInactivityDuration).

Definition apiToStoreIPFiltering (f : IPFilteringConfiguration) : IPFiltering :=
  match api_Cidr f with
  | None => mkIPFiltering (api_Enabled f) None
  | Some entries =>
      mkIPFiltering (api_Enabled f)
        (Some (map (λ e, mkCIDREntry (Cidr e) (default ""%string (Description e))) entries))
  end.

Definition apiToStoreUpdateProjectConfig (b : UpdateProjectBody) : UpdateProjectConfiguration :=
  match body_Configuration b with
  | None => mkUpdateProject (body_Name b) None None
  | Some (stz, ipf) =>
      mkUpdateProject (body_Name b)
        ((λ '(base, child), mkProjectScaleToZero (apiToStoreScaleToZeroConfig base)
                              (apiToStoreScaleToZeroConfig child)) <$> stz)
        (apiToStoreIPFiltering <$> ipf)
  end.

(** ** The row after the update ([store_sql.go])

    [SET c = COALESCE($n, c)]: a parameter that is nil keeps the column. *)

Definition coalesce_stz (u row : ScaleToZero) : ScaleToZero :=
  mkScaleToZero (STZ_Enabled u)
    (if InactivityPeriod u =? 0 then InactivityPeriod row else InactivityPeriod u).

Definition coalesce_row (u : UpdateProjectConfiguration) (row : Project) : Project :=
  mkProject (default (ProjectName row) (up_Name u))
    (match up_ScaleToZero u with
     | None => Project_ScaleToZero row
     | Some z => mkProjectScaleToZero
                   (coalesce_stz (BaseBranches z) (BaseBranches (Project_ScaleToZero row)))
                   (coalesce_stz (ChildBranches z) (ChildBranches (Project_ScaleToZero row)))
     end)
    (match up_IPFiltering u with
     | None => Project_IPFiltering row
     | Some f => mkIPFiltering (IPF_Enabled f)
                   (match CIDRs f with Some l => Some l | None => CIDRs (Project_IPFiltering row) end)
     end).

(** ** The environment *)

Inductive error :=
| ErrorInvalidParam (param message : string)
| ErrProjectBusy
| ErrorText (msg : string)
| Wrapped (msg : string) (e : error).

(** [UpdateRow u] answers the row that the statement updates; what it returns
    is that row with [u]. *)
Inductive call :=
| TryAcquireProjectLock
| ReleaseProjectLock
| BeginTx
| GetProject
| UpdateRow (u : UpdateProjectConfiguration)
| ListBranches
| GetCellConnection (cell : string)
| CellSetBranchesIPFiltering (cell : string) (branchIDs : list string) (config : IPFilteringConfig)
| Commit
| Rollback.

Definition resp (c : call) : Type :=
  match c with
  | UpdateRow _ => res error Project
  | ListBranches => res error (list Branch)
  | ReleaseProjectLock | Rollback => unit
  | _ => option error
  end.

#[local] Abbreviation M := (prog resp).
#[local] Abbreviation E A := (prog resp (res error A)).

Definition try_ (msg : string) (p : M (option error)) : E unit :=
  r ← p; mret (match r with Some e => Err (Wrapped msg e) | None => Ok tt end).

Definition attempt (p : M (option error)) : E unit :=
  r ← p; mret (match r with Some e => Err e | None => Ok tt end).

(** ** The handlers *)

(** The map from cells to branch IDs. *)
Fixpoint group_by_cell (branches : list Branch) (m : gmap string (list string))
    : res error (gmap string (list string)) :=
  match branches with
  | [] => Ok m
  | b :: branches =>
      if bool_decide (CellID b = "")
      then Err (ErrorText ("branch " +:+ BranchID b +:+ " has no cell"))
      else group_by_cell branches (<[CellID b := default [] (m !! CellID b) ++ [BranchID b]]> m)
  end.

Fixpoint connect_cells (cells : list string) : E unit :=
  match cells with
  | [] => mret (Ok tt)
  | cell :: cells =>
      _ <-? try_ ("connecting to cell " +:+ cell) (perform (GetCellConnection cell));
      connect_cells cells
  end.

Fixpoint send_cells (m : gmap string (list string)) (config : IPFilteringConfig)
    (cells : list string) : E unit :=
  match cells with
  | [] => mret (Ok tt)
  | cell :: cells =>
      _ <-? try_ ("setting IP filtering for branches in cell " +:+ cell)
              (perform (CellSetBranchesIPFiltering cell (default [] (m !! cell)) config));
      send_cells m config cells
  end.

(** The two loops over the map may take different orders. *)
Definition applyIPFilteringToBranchCells (order1 order2 : MapRange) (ipFiltering : IPFiltering)
    : E unit :=
  r ← perform ListBranches;
  match r with
  | Err e => mret (Err (Wrapped "listing branches" e))
  | Ok [] => mret (Ok tt)
  | Ok branches =>
      match group_by_cell branches ∅ with
      | Err e => mret (Err e)
      | Ok m =>
          _ <-? connect_cells (@range_keys order1 (dom m));
          send_cells m (mkConfig (IPF_Enabled ipFiltering) (CIDRStrings ipFiltering))
            (@range_keys order2 (dom m))
      end
  end.

(** The transaction of the store's [UpdateProject], around [updateFn]. *)
Definition tx_body (u : UpdateProjectConfiguration) (updateFn : E unit) : E Project :=
  _ <-? attempt (perform GetProject);
  row ← perform (UpdateRow u);
  match row with
  | Err e => mret (Err e)
  | Ok row =>
      _ <-? updateFn;
      _ <-? attempt (perform Commit);
      mret (Ok (coalesce_row u row))
  end.

Definition store_UpdateProject (u : UpdateProjectConfiguration) (updateFn : E unit) : E Project :=
  b ← perform BeginTx;
  match b with
  | Some e => mret (Err e)
  | None =>
      r ← tx_body u updateFn;
      _ ← perform Rollback;
      mret r
  end.

Definition update_under_lock (order1 order2 : MapRange) (u : UpdateProjectConfiguration) : E Project :=
  store_UpdateProject u
    (match up_IPFiltering u with
     | None => mret (Ok tt)
     | Some f => applyIPFilteringToBranchCells order1 order2 f
     end).

Definition UpdateProject (order1 order2 : MapRange) (body : UpdateProjectBody) : E Project :=
  if bool_decide (body_Name body = None) && bool_decide (body_Configuration body = None)
  then mret (Err (ErrorInvalidParam "all" "at least one of the request fields needs to be set"))
  else
    match validateIPFiltering (body_Configuration body ≫= snd) with
    | Some (param, message) => mret (Err (ErrorInvalidParam param message))
    | None =>
        let u := apiToStoreUpdateProjectConfig body in
        match up_IPFiltering u with
        | None => update_under_lock order1 order2 u
        | Some _ =>
            l ← perform TryAcquireProjectLock;
            match l with
            | Some e => mret (Err (Wrapped "acquire project lock" e))
            | None =>
                r ← update_under_lock order1 order2 u;
                _ ← perform ReleaseProjectLock;
                mret r
            end
        end
    end.

(** ** Lemmas *)

Implicit Types (tr : list (event resp)).

Lemma group_by_cell_spec bs m m' :
  group_by_cell bs m = Ok m' →
  (∀ b, b ∈ bs → ∃ ids, m' !! CellID b = Some ids ∧ BranchID b ∈ ids)
  ∧ ∀ c ids id, m !! c = Some ids → id ∈ ids → ∃ ids', m' !! c = Some ids' ∧ id ∈ ids'.
Proof.
  revert m. induction bs as [|b bs IH]; simpl; intros m.
  { intros [= <-]. split; [by intros b []%elem_of_nil|]. intros c ids id Hc Hid. by exists ids. }
  case_bool_decide; [done|]. intros [Hbs Hkeep]%IH. split.
  - intros b' [->|Hb']%elem_of_cons; [|by apply Hbs].
    eapply Hkeep; [by rewrite lookup_insert_eq|]. apply elem_of_app. right. by left.
  - intros c ids id Hc Hid. destruct (decide (c = CellID b)) as [->|Hne].
    + eapply Hkeep; [by rewrite lookup_insert_eq|]. rewrite Hc. apply elem_of_app. by left.
    + eapply Hkeep; [by rewrite lookup_insert_ne by done|done].
Qed.

Lemma send_cells_ok m config cells tr :
  runs resp (send_cells m config cells) tr (Ok tt) →
  ∀ cell, cell ∈ cells →
    ev (CellSetBranchesIPFiltering cell (default [] (m !! cell)) config) None ∈ tr.
Proof.
  revert tr. induction cells as [|c cells IH]; intros tr.
  { by intros _ cell []%elem_of_nil. }
  intros ([e|] & tr' & -> & Hrun); simpl in Hrun; [by destruct Hrun|].
  intros cell [->|Hcell]%elem_of_cons; [by left|]. right. by apply IH.
Qed.

Lemma applyIPFiltering_ok o1 o2 f tr :
  runs resp (applyIPFilteringToBranchCells o1 o2 f) tr (Ok tt) →
  ∃ branches, ev ListBranches (Ok branches) ∈ tr ∧
    ∀ b, b ∈ branches → ∃ ids, BranchID b ∈ ids ∧
      ev (CellSetBranchesIPFiltering (CellID b) ids (mkConfig (IPF_Enabled f) (CIDRStrings f))) None ∈ tr.
Proof.
  intros (r & tr' & -> & Hrun). destruct r as [bs|e]; simpl in Hrun; [|by destruct Hrun].
  destruct bs as [|b0 bs].
  { exists []. split; [by left|]. by intros b []%elem_of_nil. }
  destruct (group_by_cell (b0 :: bs) ∅) as [m|e] eqn:Hm; [|by destruct Hrun].
  apply group_by_cell_spec in Hm as [Hm _].
  apply runs_bind_ok in Hrun as [(tr1 & tr2 & [] & -> & _ & Hrun)|(e & _ & [=])].
  exists (b0 :: bs). split; [by left|]. intros b Hb. destruct (Hm b Hb) as (ids & Hids & Hin).
  exists ids. split; [done|]. right. apply elem_of_app. right.
  pose proof (send_cells_ok _ _ _ _ Hrun (CellID b)) as Hsent. rewrite Hids in Hsent. apply Hsent.
  rewrite range_perm, elem_of_elements, elem_of_dom. by eexists.
Qed.

(** The event of a single call. *)
Ltac performed H :=
  let r := fresh "r" in let t := fresh "tr" in destruct H as (r & t & -> & -> & <-).

(** A call that succeeded, with its event. *)
Ltac call_ok H :=
  let e := fresh "e" in let t := fresh "tr" in
  destruct H as ([e|] & t & -> & H); destruct H as [-> H]; [discriminate H|clear H].

(** A transaction that succeeds runs its body and commits after it. *)
Lemma tx_body_ok u updateFn tr p :
  runs resp (tx_body u updateFn) tr (Ok p) →
  ∃ tr1 tr2 row, tr = tr1 ++ tr2 ++ [ev Commit None] ∧ p = coalesce_row u row ∧
    ev (UpdateRow u) (Ok row) ∈ tr1 ∧ runs resp updateFn tr2 (Ok tt).
Proof.
  unfold tx_body. intros Hrun.
  apply runs_bind_ok in Hrun as [(tr1 & tr2 & [] & -> & Hg & Hrun)|(e & _ & [=])]. call_ok Hg.
  apply runs_bind in Hrun as (tr3 & tr4 & [row|e] & -> & Hrow & Hrun); [|by destruct Hrun].
  performed Hrow.
  apply runs_bind_ok in Hrun as [(tr5 & tr6 & [] & -> & Hfn & Hrun)|(e & _ & [=])].
  apply runs_bind_ok in Hrun as [(tr7 & tr8 & [] & -> & Hc & Hrun)|(e & _ & [=])]. call_ok Hc.
  destruct Hrun as [-> [= ->]].
  exists [ev GetProject None; ev (UpdateRow u) (Ok row)], tr5, row.
  split_and!; [done|done|set_solver|done].
Qed.

Lemma store_UpdateProject_ok u updateFn tr p :
  runs resp (store_UpdateProject u updateFn) tr (Ok p) →
  ∃ tr1 tr2 row, tr = tr1 ++ tr2 ++ [ev Commit None; ev Rollback tt] ∧ p = coalesce_row u row ∧
    ev (UpdateRow u) (Ok row) ∈ tr1 ∧ runs resp updateFn tr2 (Ok tt).
Proof.
  unfold store_UpdateProject. intros Hrun.
  apply runs_bind in Hrun as (tr1 & tr2 & [e|] & -> & Hb & Hrun); [by destruct Hrun|].
  performed Hb.
  apply runs_bind in Hrun as (tr3 & tr4 & r & -> & Hbody & Hrun).
  apply runs_bind in Hrun as (tr5 & tr6 & [] & -> & Hr & Hrun).
  performed Hr. destruct Hrun as [-> <-].
  apply tx_body_ok in Hbody as (tr7 & tr8 & row & -> & -> & Hrow & Hfn).
  exists (ev BeginTx None :: tr7), tr8, row. split_and!; [|done|by right|done].
  by rewrite <- !app_assoc.
Qed.

(** C23. A project update that changes the IP rules, naming their blocks,
    reaches every branch before it is recorded (one that leaves out the blocks
    does not: [Witness.omitted_blocks_lock_everyone_out]): when it succeeds, the
    project lock was held, every branch of the project had been sent exactly the
    rules that the project's row now has, on its own cell, and only then the row
    was committed. *)
Theorem committed_rules_reach_every_branch o1 o2 body tr p f cidrs :
  runs resp (UpdateProject o1 o2 body) tr (Ok p) →
  up_IPFiltering (apiToStoreUpdateProjectConfig body) = Some f → CIDRs f = Some cidrs →
  Project_IPFiltering p = f ∧
  ∃ tr1 branches,
    tr = ev TryAcquireProjectLock None :: tr1
           ++ [ev Commit None; ev Rollback tt; ev ReleaseProjectLock tt] ∧
    ev ListBranches (Ok branches) ∈ tr1 ∧
    ∀ b, b ∈ branches → ∃ ids, BranchID b ∈ ids ∧
      ev (CellSetBranchesIPFiltering (CellID b) ids
            (mkConfig (IPF_Enabled f) (CIDRStrings f))) None ∈ tr1.
Proof.
  intros Hrun Hf Hc. unfold UpdateProject in Hrun. cbv zeta in Hrun. rewrite Hf in Hrun.
  destruct (_ && _); [by destruct Hrun|].
  destruct (validateIPFiltering _) as [[]|]; [by destruct Hrun|].
  apply runs_bind in Hrun as (tr1 & tr2 & [e|] & -> & Hl & Hrun); [by destruct Hrun|].
  performed Hl.
  apply runs_bind in Hrun as (tr3 & tr4 & r & -> & Hu & Hrun).
  apply runs_bind in Hrun as (tr5 & tr6 & [] & -> & Hr & Hrun).
  performed Hr. destruct Hrun as [-> <-].
  unfold update_under_lock in Hu. rewrite Hf in Hu.
  apply store_UpdateProject_ok in Hu as (tr7 & tr8 & row & -> & -> & _ & Hfn).
  apply applyIPFiltering_ok in Hfn as (branches & Hb & Hsent). split.
  { unfold coalesce_row. simpl. rewrite Hf, Hc. destruct f; simpl in *; congruence. }
  exists (tr7 ++ tr8), branches. split_and!.
  - simpl. by rewrite <- !app_assoc.
  - apply elem_of_app. by right.
  - intros b Hin. destruct (Hsent b Hin) as (ids & Hid & Hev). exists ids.
    split; [done|]. apply elem_of_app. by right.
Qed.

(** *** Failures *)

Definition no_commit (c : call) : bool :=
  match c with Commit | TryAcquireProjectLock => false | _ => true end.

Lemma attempt_only p : only resp no_commit p → only resp no_commit (attempt p).
Proof. intros Hp. apply only_bind; [done|]. by intros [e|]. Qed.

Lemma connect_cells_only cells : only resp no_commit (connect_cells cells).
Proof. induction cells as [|c cells IH]; simpl; [done|]. split; [done|]. by intros [e|]. Qed.

Lemma send_cells_only m config cells : only resp no_commit (send_cells m config cells).
Proof. induction cells as [|c cells IH]; simpl; [done|]. split; [done|]. by intros [e|]. Qed.

Lemma applyIPFiltering_only o1 o2 f : only resp no_commit (applyIPFilteringToBranchCells o1 o2 f).
Proof.
  split; [done|]. intros [[|b bs]|e]; try done.
  cbn -[group_by_cell connect_cells send_cells]. destruct (group_by_cell (b :: bs) ∅); [|done].
  apply only_bind_ok; [apply connect_cells_only|]. intros []. apply send_cells_only.
Qed.

Lemma not_committed {A} (p : prog resp A) tr a x :
  only resp no_commit p → runs resp p tr a → ev Commit x ∉ tr.
Proof. intros Hp Hr Hin. by pose proof (only_runs _ _ _ _ _ _ Hp Hr Hin). Qed.

Lemma failed_commit e : @ev _ resp Commit None ≠ ev Commit (Some e).
Proof.
  intros H. by apply (f_equal (λ x, match x with ev Commit None => true | _ => false end)) in H.
Qed.

Lemma failed_lock e : @ev _ resp TryAcquireProjectLock None ≠ ev TryAcquireProjectLock (Some e).
Proof.
  intros H.
  by apply (f_equal (λ x, match x with ev TryAcquireProjectLock None => true | _ => false end)) in H.
Qed.

Lemma tx_body_err u updateFn tr e :
  only resp no_commit updateFn → runs resp (tx_body u updateFn) tr (Err e) → ev Commit None ∉ tr.
Proof.
  intros Hfn Hrun. unfold tx_body in Hrun.
  apply runs_bind_ok in Hrun as [(tr1 & tr2 & [] & -> & Hg & Hrun)|(e' & Hg & _)];
    [|by eapply not_committed, Hg; apply attempt_only].
  call_ok Hg. apply runs_bind in Hrun as (tr3 & tr4 & [row|e'] & -> & Hrow & Hrun); performed Hrow;
    [|destruct Hrun as [-> _]; set_solver].
  apply runs_bind_ok in Hrun as [(tr5 & tr6 & [] & -> & Hf & Hrun)|(e' & Hf & _)].
  2: { apply not_committed with (x := None) in Hf; [set_solver|done]. }
  apply not_committed with (x := None) in Hf; [|done].
  apply runs_bind_ok in Hrun as [(tr7 & tr8 & [] & -> & Hc & [_ [=]])|(e' & Hc & _)].
  destruct Hc as ([e''|] & t & -> & Hc); destruct Hc as [-> Hc]; [|done].
  pose proof (failed_commit e''). set_solver.
Qed.

Lemma store_UpdateProject_err u updateFn tr e :
  only resp no_commit updateFn → runs resp (store_UpdateProject u updateFn) tr (Err e) →
  ev Commit None ∉ tr.
Proof.
  intros Hfn Hrun. unfold store_UpdateProject in Hrun.
  apply runs_bind in Hrun as (tr1 & tr2 & [e'|] & -> & Hb & Hrun); performed Hb.
  { destruct Hrun as [-> _]. set_solver. }
  apply runs_bind in Hrun as (tr3 & tr4 & r & -> & Hbody & Hrun).
  apply runs_bind in Hrun as (tr5 & tr6 & [] & -> & Hr & Hrun). performed Hr.
  destruct Hrun as [-> <-]. apply tx_body_err in Hbody; [set_solver|done].
Qed.

(** A project update that fails is not recorded: whatever call failed, the
    project's row is not committed, and the project lock is released when it
    was taken. *)
Theorem failed_update_is_not_committed o1 o2 body tr e :
  runs resp (UpdateProject o1 o2 body) tr (Err e) →
  ev Commit None ∉ tr
  ∧ (ev TryAcquireProjectLock None ∈ tr → ∃ tr', tr = tr' ++ [ev ReleaseProjectLock tt]).
Proof.
  intros Hrun. unfold UpdateProject in Hrun. cbv zeta in Hrun.
  destruct (_ && _); [destruct Hrun as [-> _]; set_solver|].
  destruct (validateIPFiltering _) as [[]|]; [destruct Hrun as [-> _]; set_solver|].
  set (u := apiToStoreUpdateProjectConfig body) in *.
  assert (∀ tr, runs resp (update_under_lock o1 o2 u) tr (Err e) → ev Commit None ∉ tr) as Hu.
  { intros tr' Ht. eapply store_UpdateProject_err, Ht.
    destruct (up_IPFiltering u); [apply applyIPFiltering_only|done]. }
  destruct (up_IPFiltering u) eqn:Hf.
  - apply runs_bind in Hrun as (tr1 & tr2 & [e'|] & -> & Hl & Hrun); performed Hl.
    { destruct Hrun as [-> _]. split; [by intros [[=]|[]%elem_of_nil]%elem_of_cons|].
      by intros Hin%list_elem_of_singleton%failed_lock. }
    apply runs_bind in Hrun as (tr3 & tr4 & r & -> & Hrun & Hrel).
    apply runs_bind in Hrel as (tr5 & tr6 & [] & -> & Hr & Hret). performed Hr.
    destruct Hret as [-> <-]. apply Hu in Hrun. split; [set_solver|]. intros _.
    by exists (ev TryAcquireProjectLock None :: tr3).
  - split; [by apply Hu|]. intros Hin. exfalso. unfold update_under_lock in Hrun. rewrite Hf in Hrun.
    assert (only resp (λ c, match c with TryAcquireProjectLock => false | _ => true end)
              (store_UpdateProject u (mret (Ok ())))) as Ho.
    { simpl. split; [done|]. intros [|]; simpl; [done|]. split; [done|].
      intros [|]; simpl; [by repeat split|]. split; [done|]. intros [row|]; simpl; [|by repeat split].
      split; [done|]. intros [|]; simpl; by repeat split. }
    by pose proof (only_runs _ _ _ _ _ _ Ho Hrun Hin).
Qed.

(** ** Concrete inputs *)

Module Witness.

#[local] Instance range : MapRange := { range_keys := elements; range_perm := λ s, reflexivity _ }.

Definition row : Project :=
  mkProject "shop" (mkProjectScaleToZero (mkScaleToZero true 0) (mkScaleToZero true 0))
    (mkIPFiltering false (Some [mkCIDREntry "10.0.0.0/8" "vpn"])).

Definition branches : list Branch :=
  [mkBranch "main" "cell1"; mkBranch "dev" "cell2"; mkBranch "test" "cell1"].

(** Everything succeeds, except the commit when [fails]. *)
Definition world (fails : bool) : env resp unit := λ w c,
  match c return unit * resp c with
  | TryAcquireProjectLock => (w, None)
  | ReleaseProjectLock => (w, tt)
  | BeginTx => (w, None)
  | GetProject => (w, None)
  | UpdateRow _ => (w, Ok row)
  | ListBranches => (w, Ok branches)
  | GetCellConnection _ => (w, None)
  | CellSetBranchesIPFiltering _ _ _ => (w, None)
  | Commit => (w, if fails then Some (ErrorText "connection lost") else None)
  | Rollback => (w, tt)
  end.

Definition request (cidr : option (list CidrEntry)) : UpdateProjectBody :=
  mkBody None (Some (None, Some (mkFiltering true cidr))).

Definition run (fails : bool) (cidr : option (list CidrEntry)) :=
  exec resp (world fails) tt (UpdateProject range range (request cidr)).

Definition office : list CidrEntry := [mkCidr "192.168.1.0/24" None].

Lemma committed_rules_reach_every_branch_witness :
  ∃ p f, (run false (Some office)).2 = Ok p ∧ Project_IPFiltering p = f ∧
    ∃ tr1 bs, (run false (Some office)).1.1
      = ev TryAcquireProjectLock None :: tr1
          ++ [ev Commit None; ev Rollback tt; ev ReleaseProjectLock tt]
      ∧ ev ListBranches (Ok bs) ∈ tr1
      ∧ ∀ b, b ∈ bs → ∃ ids, BranchID b ∈ ids ∧
          ev (CellSetBranchesIPFiltering (CellID b) ids
                (mkConfig (IPF_Enabled f) (CIDRStrings f))) None ∈ tr1.
Proof.
  pose proof (exec_runs (world false) tt (UpdateProject range range (request (Some office)))) as Hrun.
  fold (run false (Some office)) in Hrun.
  exists (coalesce_row (apiToStoreUpdateProjectConfig (request (Some office))) row).
  exists (apiToStoreIPFiltering (mkFiltering true (Some office))).
  split; [vm_compute; reflexivity|].
  apply (committed_rules_reach_every_branch range range (request (Some office)) _ _ _
           [mkCIDREntry "192.168.1.0/24" ""]); [|reflexivity|reflexivity].
  assert ((run false (Some office)).2
    = Ok (coalesce_row (apiToStoreUpdateProjectConfig (request (Some office))) row)) as <-
    by (vm_compute; reflexivity).
  exact Hrun.
Defined.

Lemma failed_update_is_not_committed_witness :
  ev Commit None ∉ (run true (Some office)).1.1
  ∧ ∃ tr', (run true (Some office)).1.1 = tr' ++ [ev ReleaseProjectLock tt].
Proof.
  pose proof (exec_runs (world true) tt (UpdateProject range range (request (Some office)))) as Hrun.
  fold (run true (Some office)) in Hrun.
  assert ((run true (Some office)).2 = Err (ErrorText "connection lost")) as Hr
    by (vm_compute; reflexivity).
  rewrite Hr in Hrun.
  destruct (failed_update_is_not_committed _ _ _ _ _ Hrun) as [Hc Hl]. split; [exact Hc|].
  apply Hl. left.
Defined.

(** Enabling the rules without naming blocks: the row keeps its blocks, but
    every cell is sent an empty list, which locks out all clients. *)
Lemma omitted_blocks_lock_everyone_out :
  ∃ p, (run false None).2 = Ok p
    ∧ Project_IPFiltering p = mkIPFiltering true (Some [mkCIDREntry "10.0.0.0/8" "vpn"])
    ∧ ev (CellSetBranchesIPFiltering "cell2" ["dev"] (mkConfig true [])) None ∈ (run false None).1.1.
Proof.
  exists (coalesce_row (apiToStoreUpdateProjectConfig (request None)) row).
  split; [vm_compute; reflexivity|]. split; [reflexivity|].
  vm_compute. repeat first [left | right]; fail.
Qed.

End Witness.
