(* ===== verification/PostgresVersions.v ===== *)
(** * Postgres image names: [internal/postgresversions/versions.go]

    The catalogue read from [versions.yaml] at start-up is a parameter
    [sources].  Go iterates its maps in an unspecified order; the model uses
    the order of [map_to_list] and states only order-independent facts. *)

From S2P Require Import Prelude GoStrings.
From stdpp Require Import sorting.

#[local] Open Scope Z_scope.

Definition Postgres : string := "postgres".
Definition CNPGPostgres : string := "cnpg-postgres-plus".
Definition Analytics : string := "analytics".
Definition XataAnalytics : string := "xata-analytics".

Definition colon : ascii := ":"%char.
Definition slash : ascii := "/"%char.
Definition dot : ascii := "."%char.
Definition dash : ascii := "-"%char.

Definition imageDisplayNames : list (string * string) :=
  [(CNPGPostgres, Postgres); (XataAnalytics, Analytics)].

Definition imageSourceNames : list (string * string) :=
  [(Postgres, CNPGPostgres); (Analytics, XataAnalytics)].

(** [if v, ok := m[k]; ok { return v }; return k] on a literal map. *)
Fixpoint name_lookup (m : list (string * string)) (k : string) : string :=
  match m with
  | [] => k
  | (a, b) :: m' => if bool_decide (a = k) then b else name_lookup m' k
  end.

Definition getDisplayName (sourceImageName : string) : string :=
  name_lookup imageDisplayNames sourceImageName.

Definition getSourceName (displayName : string) : string :=
  name_lookup imageSourceNames displayName.

Record MajorVersion := mkMajorVersion {
  Versions : list string;
  Latest : string;
  Supported : bool;
  ShowOnlyLatest : bool;
  Hidden : bool;
}.

Record Source := mkSource {
  SourceURL : string;
  MajorVersions : gmap string MajorVersion;
}.

Record ImageVersion := mkImageVersion {
  Offering : string;
  Major : Z;
  Minor : Z;
}.

(** The part of a path after its last slash. *)
Definition after_last_slash (s : string) : string :=
  match cut_last slash s with Some (_, b) => b | None => s end.

(** [strings.Index(v, "-")] and slicing: drop everything from the first dash. *)
Definition strip_dash_suffix (v : string) : string := (Cut dash v).1.1.

Definition sourceDisplayName (source : string) : string :=
  getDisplayName (after_last_slash source).

(** [if !seen[v] { seen[v] = true; l = append(l, v) }] over a list. *)
Fixpoint append_unseen (acc : list string) (vs : list string) : list string :=
  match vs with
  | [] => acc
  | v :: vs' => append_unseen (if bool_decide (v ∈ acc) then acc else acc ++ [v]) vs'
  end.

(** [sort.Strings] *)
Definition sort_strings (l : list string) : list string := merge_sort String.le l.

Definition image_tag (imageName version : string) : string :=
  imageName +:+ String colon version.

(** [convertImageName] *)
Definition convertImageName (imageName : string) : string :=
  match Cut colon imageName with
  | (before, after, true) => getSourceName before +:+ String colon after
  | (_, _, false) => getSourceName imageName
  end.

(** [ShortImageName]; the loop over the map is a search in the list. *)
Fixpoint display_prefixed (m : list (string * string)) (imageWithTag : string) : string :=
  match m with
  | [] => imageWithTag
  | (sourceName, displayName) :: m' =>
      if HasPrefix imageWithTag (sourceName +:+ ":")
      then displayName +:+ drop_str (String.length sourceName) imageWithTag
      else display_prefixed m' imageWithTag
  end.

Definition ShortImageName (fullImageName : string) : string :=
  display_prefixed imageDisplayNames (after_last_slash fullImageName).

Definition GetMajorForVersion (version : string) : string :=
  let digits := take_while is_digit version in
  if bool_decide (digits = version) then version
  else if bool_decide (digits = "") then (Cut dot version).1.1
  else digits.

Inductive image_error :=
| InvalidImageFormat
| InvalidVersionFormat
| InvalidMajor
| InvalidMinor
| ImageNotAvailable.

Definition ParseImageVersion (image : string) : res image_error ImageVersion :=
  match Cut colon (ShortImageName image) with
  | (_, _, false) => Err InvalidImageFormat
  | (offering, version, true) =>
      match Cut dot (strip_dash_suffix version) with
      | (_, _, false) => Err InvalidVersionFormat
      | (majorStr, minorStr, true) =>
          match ParseInt10 majorStr with
          | None => Err InvalidMajor
          | Some major =>
              match ParseInt10 minorStr with
              | None => Err InvalidMinor
              | Some minor => Ok (mkImageVersion offering major minor)
              end
          end
      end
  end.

Definition ExtractVersionFromImageName (imageName : string) : string :=
  match cut_last colon imageName with
  | None => ""
  | Some (_, versionPart) => strip_dash_suffix versionPart
  end.

Definition ExtractMajorVersionFromImage (imageName : string) : Z :=
  match cut_last colon imageName with
  | None => 0
  | Some (_, part) =>
      let versionPart := strip_dash_suffix part in
      let versionPart :=
        match Cut dot versionPart with
        | (before, _, true) => before
        | (_, _, false) =>
            let numericPart := take_while is_digit versionPart in
            if bool_decide (numericPart = "") then versionPart else numericPart
        end in
      default 0 (ParseInt10 versionPart)
  end.

Section Catalogue.
Variable sources : list Source.

Definition majors (s : Source) : list (string * MajorVersion) :=
  map_to_list (MajorVersions s).

Definition supported_versions (s : Source) : list string :=
  mjr ← majors s; if Supported mjr.2 then Versions mjr.2 else [].

Definition GetAllVersions : list string :=
  append_unseen [] (sources ≫= supported_versions).

Definition GetVersionsForMajor (major : string) : list string :=
  append_unseen []
    (sources ≫= λ s, match MajorVersions s !! major with
                     | Some mv => if Supported mv then Versions mv else []
                     | None => []
                     end).

(** [>] on Go strings is the bytewise lexicographic order. *)
Definition GetLatestForMajor (major : string) : string :=
  foldl (λ latest s, match MajorVersions s !! major with
                     | Some mv =>
                         if Supported mv &&
                            (bool_decide (latest = "") || String.ltb latest (Latest mv))
                         then Latest mv else latest
                     | None => latest
                     end) "" sources.

Definition IsVersionAvailable (version : string) : bool :=
  bool_decide (version ∈ GetAllVersions).

(** [None] is the run-time panic of slicing with [lastSlashIndex = -1]. *)
Fixpoint build_from (ss : list Source) (imageName imageNamePart : string) : option string :=
  match ss with
  | [] => Some imageName
  | s :: ss' =>
      let sourceImageName := after_last_slash (SourceURL s) in
      if bool_decide (sourceImageName = imageNamePart) ||
         bool_decide (sourceImageName = getSourceName imageNamePart)
      then match cut_last slash (SourceURL s) with
           | Some (registryPath, _) =>
               Some (registryPath +:+ "/" +:+ convertImageName imageName)
           | None => None
           end
      else build_from ss' imageName imageNamePart
  end.

Definition BuildImageURL (imageName : string) : option string :=
  build_from sources imageName (Cut colon imageName).1.1.

Definition source_image_names (s : Source) : list string :=
  let imageName := sourceDisplayName (SourceURL s) in
  image_tag imageName <$> supported_versions s.

Definition GetAllImageNames : list string :=
  sort_strings (append_unseen [] (sources ≫= source_image_names)).

Definition ValidateImage (image : string) : option image_error :=
  if negb (Nat.eqb (length (Split colon image)) 2) then Some InvalidImageFormat
  else if bool_decide (image ∈ GetAllImageNames) then None
  else Some ImageNotAvailable.

Definition HiddenImageNames : list string :=
  sort_strings (append_unseen []
    (sources ≫= λ s,
      mjr ← majors s;
      if Supported mjr.2 && ShowOnlyLatest mjr.2
      then image_tag (sourceDisplayName (SourceURL s)) <$>
             filter (λ v, v ≠ Latest mjr.2) (Versions mjr.2)
      else [])).

(** Later entries overwrite earlier ones, as the Go map does. *)
Definition HiddenMajorImages : gmap string string :=
  foldl (λ hidden kv, <[kv.1 := kv.2]> hidden) ∅
    (sources ≫= λ s,
      mjr ← majors s;
      if Supported mjr.2 && Hidden mjr.2
      then (λ v, (image_tag (sourceDisplayName (SourceURL s)) v, mjr.1)) <$> Versions mjr.2
      else []).
End Catalogue.

(** ** Lemmas *)

Lemma elem_of_append_unseen acc vs v : v ∈ append_unseen acc vs ↔ v ∈ acc ∨ v ∈ vs.
Proof.
  revert acc. induction vs as [|w vs IH]; intros acc; simpl; [set_solver|].
  rewrite IH. case_bool_decide; set_solver.
Qed.

Lemma NoDup_append_unseen acc vs : NoDup acc → NoDup (append_unseen acc vs).
Proof.
  revert acc. induction vs as [|w vs IH]; intros acc Hacc; simpl; [done|].
  apply IH. case_bool_decide; [done|]. apply NoDup_app. split_and!; [done|set_solver|].
  apply NoDup_singleton.
Qed.

Lemma elem_of_sort_strings l v : v ∈ sort_strings l ↔ v ∈ l.
Proof. unfold sort_strings. by rewrite merge_sort_Permutation. Qed.

Lemma elem_of_supported_versions s v :
  v ∈ supported_versions s ↔
  ∃ maj mv, MajorVersions s !! maj = Some mv ∧ Supported mv = true ∧ v ∈ Versions mv.
Proof.
  unfold supported_versions, majors. rewrite list_elem_of_bind. split.
  - intros ([maj mv] & Hv & Hm). apply elem_of_map_to_list in Hm. simpl in *.
    destruct (Supported mv) eqn:?; [eauto|set_solver].
  - intros (maj & mv & Hm & Hs & Hv). exists (maj, mv). simpl. rewrite Hs.
    split; [done|]. by apply elem_of_map_to_list.
Qed.

Lemma name_lookup_no_slash m k :
  Forall (λ p, contains_byte slash p.2 = false) m → contains_byte slash k = false →
  contains_byte slash (name_lookup m k) = false.
Proof.
  induction 1 as [|[a b] m Hb _ IH]; simpl; intros Hk; [done|].
  case_bool_decide; [done|auto].
Qed.

Lemma after_last_slash_app a b :
  contains_byte slash b = false → after_last_slash (a +:+ String slash b) = b.
Proof. intros Hb. unfold after_last_slash. by rewrite cut_last_app. Qed.

Lemma after_last_slash_none b : contains_byte slash b = false → after_last_slash b = b.
Proof. intros Hb. unfold after_last_slash. by rewrite (proj2 (cut_last_none _ _) Hb). Qed.

Lemma getSourceName_no_slash n :
  contains_byte slash n = false → contains_byte slash (getSourceName n) = false.
Proof. apply name_lookup_no_slash. repeat constructor. Qed.

Lemma getSourceName_no_colon n :
  contains_byte colon n = false → contains_byte colon (getSourceName n) = false.
Proof.
  intros Hn. unfold getSourceName, imageSourceNames, name_lookup.
  repeat case_bool_decide; done.
Qed.

Lemma display_of_source n : getDisplayName (getSourceName n) = getDisplayName n.
Proof.
  unfold getSourceName, imageSourceNames, name_lookup.
  repeat case_bool_decide; by subst.
Qed.

(** A name with a tag carries the prefix [src:] only if the name is [src]. *)
Lemma HasPrefix_colon n src tag :
  contains_byte colon n = false → contains_byte colon src = false →
  HasPrefix (image_tag n tag) (src +:+ ":") = bool_decide (src = n).
Proof.
  intros Hn Hs. case_bool_decide as E.
  - subst. apply HasPrefix_spec. exists tag. unfold image_tag. by rewrite append_assoc.
  - destruct (HasPrefix _ _) eqn:Hp; [|done]. apply HasPrefix_spec in Hp as [r Hr].
    destruct E. apply (f_equal (λ x, (Cut colon x).1.1)) in Hr. unfold image_tag in Hr.
    rewrite append_assoc in Hr. simpl in Hr. by rewrite !Cut_app in Hr.
Qed.

Lemma display_prefixed_tag m n tag :
  Forall (λ p, contains_byte colon p.1 = false) m → contains_byte colon n = false →
  display_prefixed m (image_tag n tag) = image_tag (name_lookup m n) tag.
Proof.
  intros Hm Hn. induction Hm as [|[src dn] m Hs _ IH]; simpl; [done|].
  rewrite HasPrefix_colon by done. case_bool_decide as E; [|done].
  subst. unfold image_tag. by rewrite drop_str_app.
Qed.

(** [ShortImageName] of a path whose last component is [n:tag]. *)
Lemma ShortImageName_tag path n tag :
  contains_byte colon n = false → contains_byte slash n = false →
  contains_byte slash tag = false →
  ShortImageName (path +:+ String slash (image_tag n tag)) = image_tag (getDisplayName n) tag ∧
  ShortImageName (image_tag n tag) = image_tag (getDisplayName n) tag.
Proof.
  intros Hc Hn Ht. unfold ShortImageName.
  assert (contains_byte slash (image_tag n tag) = false) as Hs.
  { unfold image_tag. rewrite contains_byte_app. simpl. by rewrite Hn, Ht. }
  rewrite after_last_slash_app, after_last_slash_none by done.
  rewrite display_prefixed_tag; [done|repeat constructor|done].
Qed.

Lemma build_from_shape sources n tag part url :
  contains_byte colon n = false →
  build_from sources (image_tag n tag) part = Some url →
  url = image_tag n tag ∨
  ∃ path, url = path +:+ String slash (image_tag (getSourceName n) tag).
Proof.
  intros Hn. induction sources as [|s sources IH]; simpl; [intros [= <-]; by left|].
  destruct (_ || _); [|done].
  destruct (cut_last slash (SourceURL s)) as [[path b]|]; intros [= <-]. right.
  exists path. unfold convertImageName, image_tag. by rewrite Cut_app.
Qed.

Lemma ShortImageName_built sources off tag url :
  contains_byte colon off = false → contains_byte slash off = false →
  contains_byte slash tag = false →
  BuildImageURL sources (image_tag off tag) = Some url →
  ShortImageName url = image_tag (getDisplayName off) tag.
Proof.
  intros Hc Hs Ht Hb. destruct (build_from_shape _ _ _ _ _ Hc Hb) as [-> | [path ->]].
  - by apply (ShortImageName_tag "").
  - rewrite (proj1 (ShortImageName_tag path (getSourceName off) tag
      (getSourceName_no_colon _ Hc) (getSourceName_no_slash _ Hs) Ht)).
    by rewrite display_of_source.
Qed.

Lemma elem_of_GetAllImageNames sources image :
  image ∈ GetAllImageNames sources ↔
  ∃ s maj mv v, s ∈ sources ∧ MajorVersions s !! maj = Some mv ∧ Supported mv = true ∧
    v ∈ Versions mv ∧ image = image_tag (sourceDisplayName (SourceURL s)) v.
Proof.
  unfold GetAllImageNames. rewrite elem_of_sort_strings, elem_of_append_unseen.
  rewrite list_elem_of_bind. unfold source_image_names.
  setoid_rewrite list_elem_of_fmap. setoid_rewrite elem_of_supported_versions.
  set_solver.
Qed.

Lemma HiddenMajorImages_keys l (m0 : gmap string string) k :
  is_Some (foldl (λ hidden kv, <[kv.1 := kv.2]> hidden) m0 l !! k) →
  is_Some (m0 !! k) ∨ ∃ maj, (k, maj) ∈ l.
Proof.
  revert m0. induction l as [|[k' maj] l IH]; intros m0; simpl; [by left|].
  intros [(x & Hx) | [maj' Hm]]%IH; [|right; set_solver].
  rewrite lookup_insert in Hx. case_decide; [subst; right; set_solver|left; eauto].
Qed.

Lemma hidden_is_listed sources image :
  image ∈ HiddenImageNames sources ∨ is_Some (HiddenMajorImages sources !! image) →
  image ∈ GetAllImageNames sources.
Proof.
  rewrite elem_of_GetAllImageNames. intros [Hi|Hi].
  - unfold HiddenImageNames in Hi.
    rewrite elem_of_sort_strings, elem_of_append_unseen in Hi.
    destruct Hi as [Hi|Hi]; [set_solver|].
    apply list_elem_of_bind in Hi as (s & Hi & Hs).
    apply list_elem_of_bind in Hi as ([maj mv] & Hi & Hm). simpl in Hi.
    destruct (Supported mv && ShowOnlyLatest mv) eqn:E; [|set_solver].
    apply andb_true_iff in E as [E _].
    apply list_elem_of_fmap in Hi as (v & -> & Hv). apply list_elem_of_filter in Hv as [_ Hv].
    apply elem_of_map_to_list in Hm. eauto 10.
  - apply HiddenMajorImages_keys in Hi as [[x Hx]|[maj' Hi]]; [by rewrite lookup_empty in Hx|].
    apply list_elem_of_bind in Hi as (s & Hi & Hs).
    apply list_elem_of_bind in Hi as ([maj mv] & Hi & Hm). simpl in Hi.
    destruct (Supported mv && Hidden mv) eqn:E; [|set_solver].
    apply andb_true_iff in E as [E _].
    apply list_elem_of_fmap in Hi as (v & [= -> ->] & Hv).
    apply elem_of_map_to_list in Hm. eauto 10.
Qed.

(** ** Properties *)

(** Round trip from an offering and a version to a registry URL and back:
    an image named [off:major.minor], with or without a [-build] suffix, that
    [BuildImageURL] places in a registry is parsed back to the offering's
    display name and the same major and minor numbers. *)
Theorem ParseImageVersion_BuildImageURL sources off d1 d2 sfx major minor url :
  contains_byte colon off = false → contains_byte slash off = false →
  contains_byte slash (d1 +:+ String dot (d2 +:+ sfx)) = false →
  contains_byte dot d1 = false → contains_byte dash d1 = false →
  contains_byte dash d2 = false →
  (sfx = "" ∨ ∃ build, sfx = String dash build) →
  ParseInt10 d1 = Some major → ParseInt10 d2 = Some minor →
  BuildImageURL sources (image_tag off (d1 +:+ String dot (d2 +:+ sfx))) = Some url →
  ParseImageVersion url = Ok (mkImageVersion (getDisplayName off) major minor).
Proof.
  intros Hc Hs Ht Hd1 Hh1 Hh2 Hsfx Hmaj Hmin Hb.
  unfold ParseImageVersion. rewrite (ShortImageName_built _ _ _ _ Hc Hs Ht Hb).
  assert (contains_byte colon (getDisplayName off) = false) as Hcd.
  { unfold getDisplayName, imageDisplayNames, name_lookup. by repeat case_bool_decide. }
  unfold image_tag. rewrite Cut_app by done. simpl.
  assert (strip_dash_suffix (d1 +:+ String dot (d2 +:+ sfx)) = d1 +:+ String dot d2) as ->.
  { unfold strip_dash_suffix. destruct Hsfx as [-> | [b ->]].
    - rewrite append_nil_r, Cut_none; [done|]. rewrite contains_byte_app. simpl.
      by rewrite Hh1, Hh2.
    - assert (d1 +:+ String dot (d2 +:+ String dash b) =
              (d1 +:+ String dot d2) +:+ String dash b) as -> by by rewrite append_assoc.
      rewrite Cut_app; [done|]. rewrite contains_byte_app. simpl. by rewrite Hh1, Hh2. }
  rewrite Cut_app by done. by rewrite Hmaj, Hmin.
Qed.

(** [GetAllImageNames] lists, sorted and without duplicates, exactly the
    images of the supported majors of all sources. *)
Theorem GetAllImageNames_spec sources :
  Sorted String.le (GetAllImageNames sources) ∧ NoDup (GetAllImageNames sources) ∧
  ∀ image, image ∈ GetAllImageNames sources ↔
    ∃ s maj mv v, s ∈ sources ∧ MajorVersions s !! maj = Some mv ∧ Supported mv = true ∧
      v ∈ Versions mv ∧ image = image_tag (sourceDisplayName (SourceURL s)) v.
Proof.
  split_and!.
  - apply Sorted_merge_sort, _.
  - unfold GetAllImageNames, sort_strings. rewrite merge_sort_Permutation.
    apply NoDup_append_unseen, NoDup_nil_2.
  - apply elem_of_GetAllImageNames.
Qed.

(** Hiding is not withdrawing: an image hidden by [show_only_latest] or
    by its hidden major still passes [ValidateImage], provided its name has
    the [offering:version] shape. *)
Theorem hidden_images_stay_valid sources image :
  image ∈ HiddenImageNames sources ∨ is_Some (HiddenMajorImages sources !! image) →
  length (Split colon image) = 2%nat →
  ValidateImage sources image = None.
Proof.
  intros Hi Hl. unfold ValidateImage. rewrite Hl. simpl.
  by rewrite bool_decide_true by by apply hidden_is_listed.
Qed.

(** ** Witnesses *)

Module Witness.
Definition registry : list Source :=
  [mkSource "ghcr.io/xataio/postgres-images/cnpg-postgres-plus"
     {[ "17" := mkMajorVersion ["17.5"; "17.6"] "17.6" true true false ]}].

Definition pg175 : string := "ghcr.io/xataio/postgres-images/cnpg-postgres-plus:17.5-08092025".

Lemma ParseImageVersion_BuildImageURL_witness :
  ParseImageVersion pg175 = Ok (mkImageVersion "postgres" 17 5).
Proof.
  apply (ParseImageVersion_BuildImageURL registry "postgres" "17" "5" "-08092025" 17 5 pg175);
    try reflexivity. right. exists "08092025". reflexivity.
Defined.

Lemma hidden_images_stay_valid_witness : ValidateImage registry "postgres:17.5" = None.
Proof.
  apply (hidden_images_stay_valid registry "postgres:17.5"); [left|reflexivity].
  apply (bool_decide_unpack _). vm_compute. exact I.
Defined.
End Witness.
