(* ===== verification/Extensions.v ===== *)
(** * The extensions of an image: [internal/extensions/extensions.go]

    The catalogue embedded from [extensions.yaml] is the parameter
    [imageExtensions] ([None] before it is loaded). *)

From S2P Require Import Prelude GoStrings PostgresVersions.

Record ExtensionSpec := mkExtensionSpec {
  Name : string;
  Version : string;
  Description : string;
  DocsURL : string;
  PreloadRequired : bool;
  Type_ : string
}.

(** [MajorVersionExtensions] has one field, its list of extensions. *)
#[global] Abbreviation MajorVersionExtensions := (list ExtensionSpec) (only parsing).

Record ImageExtensions := mkImageExtensions {
  LastUpdated : string;
  UpdatedBy : string;
  Offerings : gmap string (gmap string MajorVersionExtensions)
}.

Definition with_type (ext : ExtensionSpec) : ExtensionSpec :=
  if bool_decide (Type_ ext = ""%string)
  then mkExtensionSpec (Name ext) (Version ext) (Description ext) (DocsURL ext)
         (PreloadRequired ext) "extension"
  else ext.

(** The check of [loadExtensions] on the decoded document. *)
Definition loadExtensions (doc : ImageExtensions) : res string ImageExtensions :=
  if bool_decide (size (Offerings doc) = 0)
  then Err "no offerings found in extensions.yaml"%string else Ok doc.

Section Extensions.
Variable imageExtensions : option ImageExtensions.

Definition getExtensionsByOfferingVersion (offering majorVersion : string)
    : list ExtensionSpec :=
  match imageExtensions with
  | None => []
  | Some cfg =>
      match Offerings cfg !! offering with
      | None => []
      | Some offeringVersions =>
          match offeringVersions !! majorVersion with
          | None => []
          | Some versionExtensions => map with_type versionExtensions
          end
      end
  end.

Definition GetExtensions (image : string) : list ExtensionSpec :=
  match Split colon image with
  | [offering; version] =>
      getExtensionsByOfferingVersion offering (GetMajorForVersion version)
  | _ => []
  end.

Definition GetExtension (image extensionName : string) : option ExtensionSpec :=
  snd <$> list_find (λ ext, Name ext = extensionName) (GetExtensions image).

Definition IsExtensionAvailable (image extensionName : string) : bool :=
  existsb (λ ext, bool_decide (Name ext = extensionName)) (GetExtensions image).

Definition GetPreloadRequiredExtensions (image : string) : list ExtensionSpec :=
  List.filter PreloadRequired (GetExtensions image).

(** The keys of a Go map, in an unspecified order. *)
Definition GetAllOfferings : list string :=
  match imageExtensions with
  | None => []
  | Some cfg => (map_to_list (Offerings cfg)).*1
  end.

Definition GetVersionsForOffering (offering : string) : list string :=
  match imageExtensions with
  | None => []
  | Some cfg =>
      match Offerings cfg !! offering with
      | None => []
      | Some offeringVersions => (map_to_list offeringVersions).*1
      end
  end.

(** ** Lemmas *)

Lemma elem_of_GetPreloadRequiredExtensions image ext :
  ext ∈ GetPreloadRequiredExtensions image ↔
  ext ∈ GetExtensions image ∧ PreloadRequired ext = true.
Proof.
  unfold GetPreloadRequiredExtensions.
  rewrite !list_elem_of_In, filter_In. done.
Qed.

Lemma IsExtensionAvailable_spec image n :
  IsExtensionAvailable image n = true ↔ ∃ ext, ext ∈ GetExtensions image ∧ Name ext = n.
Proof.
  unfold IsExtensionAvailable. rewrite existsb_exists.
  setoid_rewrite bool_decide_eq_true. setoid_rewrite list_elem_of_In. done.
Qed.

(** An extension is reported available exactly when its spec can be fetched. *)
Lemma GetExtension_available image n :
  IsExtensionAvailable image n = true ↔ is_Some (GetExtension image n).
Proof.
  rewrite IsExtensionAvailable_spec. unfold GetExtension. rewrite fmap_is_Some. split.
  - intros (ext & Hin & He). by eapply list_find_elem_of.
  - intros [[i ext] Hf]. apply list_find_Some in Hf as (Hl & He & _).
    exists ext. split; [by eapply list_elem_of_lookup_2|done].
Qed.

End Extensions.
