(* ===== verification/WakeupModel.v ===== *)
(** * The wakeup reconciler: [services/branch-operator/pkg/wakeup]

    [WakeupReconciler.Reconcile] and every helper it calls, as effect trees
    over the Kubernetes API, the CSI node RPC, the clock and the random source.
    The response to each call is arbitrary.  A [Get] answers with the content
    of the object at the requested key, an [Update] with the stored content;
    logging, tracing and spans are left out. *)

From S2P Require Import Prelude GoStrings Kube PostgresVersions.
From stdpp Require Import pretty.

#[local] Open Scope Z_scope.

(** ** Objects *)

Record WakeupRequestSpec := mkWRSpec {
  BranchName : string;
  XVolName : string;
  PasswordSync : string;
}.

Record WakeupRequestStatus := mkWRStatus {
  ObservedGeneration : Z;
  Conditions : list Condition;
  LastError : string;
}.

(** [wr_deleting]: the deletion timestamp is set. *)
Record WakeupRequest := mkWR {
  wr_Name : string;
  wr_Namespace : string;
  wr_Generation : Z;
  wr_deleting : bool;
  wr_ResourceVersion : string;
  wr_Spec : WakeupRequestSpec;
  wr_Status : WakeupRequestStatus;
}.

Record Branch := mkBranch {
  br_Name : string;
  br_Annotations : gmap string string;
  br_ClusterName : option string;
  br_Image : string;
}.

(** The parts of a CNPG [Cluster] the reconciler reads. *)
Record ClusterBody := mkBody {
  OwnerReferences : list string;
  ImageName : string;
  ReadyInstances : Z;
  HealthyPVC : list string;
  TargetPrimary : string;
  PasswordStatus : gmap string string;
}.

Record Cluster := mkCluster {
  cl_Name : string;
  cl_Namespace : string;
  cl_Body : ClusterBody;
}.

Record Pod := mkPod {
  pod_Name : string;
  pod_NodeName : string;
  pod_PodIP : string;
}.

(** What [assignClusterToBranch] applies; [None] leaves the image out. *)
Record BranchApply := mkApply {
  ap_Branch : string;
  ap_AwaitingWakeup : string;
  ap_Cluster : string;
  ap_Image : option string;
}.

(** ** Errors *)

Inductive error :=
| ApiError (e : api_error)
| Errorf (msg : string)
| Wrapf (msg : string) (e : error)
| ConditionError (ConditionReason : string) (Err : error) (Terminal : bool).

(** [err.Error()] *)
Fixpoint Error (e : error) : string :=
  match e with
  | ApiError e => api_message e
  | Errorf msg => msg
  | Wrapf msg e => msg +:+ ": " +:+ Error e
  | ConditionError reason e _ => reason +:+ ": " +:+ Error e
  end.

(** [errors.AsType[*ConditionError](err)]: reason and terminality. *)
Fixpoint AsConditionError (e : error) : option (string * bool) :=
  match e with
  | ApiError _ | Errorf _ => None
  | Wrapf _ e => AsConditionError e
  | ConditionError reason _ terminal => Some (reason, terminal)
  end.

Fixpoint IsNotFound (e : error) : bool :=
  match e with
  | ApiError e => api_not_found e
  | Errorf _ => false
  | Wrapf _ e | ConditionError _ e _ => IsNotFound e
  end.

(** [client.IgnoreNotFound(err)] *)
Definition IgnoreNotFound (e : error) : option error :=
  if IsNotFound e then None else Some e.

(** [ignoreTerminal] *)
Definition ignoreTerminal (err : error) : option error :=
  match AsConditionError err with
  | Some (_, true) => None
  | _ => Some err
  end.

(** ** Condition reasons, annotations *)

Definition WakeupSucceededConditionType : string := "Succeeded".
Definition WakeupSucceededReason : string := "WakeupSucceeded".
Definition PVNotAvailableReason : string := "PVNotAvailable".
Definition CSINodePodNotFoundReason : string := "CSINodePodNotFound".
Definition PoolNotFoundReason : string := "WakeupPoolNotFound".
Definition NoPoolAnnotationReason : string := "WakeupPoolAnnotationMissing".
Definition WakeupReconciliationFailedReason : string := "ReconciliationFailed".
Definition WakeupInProgressReason : string := "InProgress".
Definition WakeupAwaitingReconciliationReason : string := "AwaitingReconciliation".
Definition BranchNotFoundReason : string := "BranchNotFound".
Definition PoolExhaustedReason : string := "WakeupPoolExhausted".
Definition XVolNotReadyReason : string := "XVolNotReady".
Definition XVolNotFoundReason : string := "XVolNotFound".

Definition WakeupConditionMessages : gmap string string := list_to_map [
  (WakeupSucceededReason, "Wakeup succeeded");
  (WakeupReconciliationFailedReason, "An error occurred during reconciliation");
  (WakeupAwaitingReconciliationReason, "The wakeup request is awaiting reconciliation");
  (BranchNotFoundReason, "The specified branch was not found");
  (NoPoolAnnotationReason, "The branch has no wakeup pool annotation");
  (PoolNotFoundReason, "The specified wakeup pool was not found");
  (PoolExhaustedReason, "The wakeup pool has no healthy clusters");
  (WakeupInProgressReason, "Wakeup is in progress");
  (PVNotAvailableReason, "The cluster's primary PV could not be resolved");
  (CSINodePodNotFoundReason, "No CSI node plugin pod found on the primary pod's node");
  (XVolNotReadyReason, "The XVol status indicates it is not ready for wakeup");
  (XVolNotFoundReason, "The XVol referenced by the branch was not found")].

Definition PasswordSyncModeWait : string := "Wait".
Definition WakeupPoolAnnotation : string := "xata.io/wakeup-pool".
Definition AwokenByXVolAnnotation : string := "xata.io/awoken-by-xvol".
Definition XataRoleName : string := "xata".

Definition HasWakeupPoolAnnotation (b : Branch) : bool :=
  bool_decide (is_Some (br_Annotations b !! WakeupPoolAnnotation)).

Definition WakeupPoolName (b : Branch) : string :=
  default "" (br_Annotations b !! WakeupPoolAnnotation).

(** ** The environment *)

Inductive call :=
| Now
| GetWakeupRequest (namespace name : string)
| UpdateWRStatus (wr : WakeupRequest)
| DeleteWR (wr : WakeupRequest)
| RecordEvent (wr : WakeupRequest) (eventType reason message : string)
| GetBranch (name : string)
| ApplyBranch (ac : BranchApply)
| GetXVolState (name : string)
| GetClusterPool (namespace name : string)
| ListPoolClusters (namespace pool : string)
| RandIntN (n : nat)
| RemoveControllerReference (pool : string) (cluster : Cluster)
| UpdateCluster (cluster : Cluster)
| DeleteCluster (cluster : Cluster)
| GetCluster (namespace name : string)
| ApplyClusterRole (cluster namespace role passwordSecret : string)
| GetSecretVersion (namespace name : string)
| PollTick
| GetPVC (namespace name : string)
| GetPV (name : string)
| PatchPV (name annotation value : string)
| GetPod (namespace name : string)
| ListCSINodePods (namespace : string)
| NewClient (ip : string) (port : Z)
| WakeUpRPC (xvolId pvId : string).

(** A status update answers with the new resource version; [GetPVC] with
    [spec.volumeName]; [GetXVolState] with [status.volumeState], empty when
    absent; [PollTick] tells whether the poll's context is still live. *)
Definition resp (c : call) : Type :=
  match c with
  | Now => Z
  | GetWakeupRequest _ _ => res api_error WakeupRequest
  | UpdateWRStatus _ => res api_error string
  | DeleteWR _ => option api_error
  | RecordEvent _ _ _ _ => unit
  | GetBranch _ => res api_error Branch
  | ApplyBranch _ => option api_error
  | GetXVolState _ => res api_error string
  | GetClusterPool _ _ => res api_error unit
  | ListPoolClusters _ _ => res api_error (list (string * ClusterBody))
  | RandIntN _ => nat
  | RemoveControllerReference _ _ => res api_error (list string)
  | UpdateCluster _ => res api_error ClusterBody
  | DeleteCluster _ => option api_error
  | GetCluster _ _ => res api_error ClusterBody
  | ApplyClusterRole _ _ _ _ => option api_error
  | GetSecretVersion _ _ => res api_error string
  | PollTick => bool
  | GetPVC _ _ => res api_error string
  | GetPV _ => res api_error unit
  | PatchPV _ _ _ => option api_error
  | GetPod _ _ => res api_error string
  | ListCSINodePods _ => res api_error (list Pod)
  | NewClient _ _ => option api_error
  | WakeUpRPC _ _ => option api_error
  end.

#[global] Abbreviation M A := (prog resp A).
#[global] Abbreviation E A := (M (res error A)).

Definition fail {A} (e : error) : E A := mret (Err e).
Definition ok {A} (a : A) : E A := mret (Ok a).

(** A call whose error is returned as it is, or wrapped. *)
Definition try {A} (wrap : api_error → error) (p : M (res api_error A)) : E A :=
  r ← p; match r with Ok a => ok a | Err e => fail (wrap e) end.

Definition try_ (wrap : api_error → error) (p : M (option api_error)) : E unit :=
  r ← p; match r with None => ok tt | Some e => fail (wrap e) end.

(** The reconciler's configuration, durations in nanoseconds. *)
Record WakeupReconciler := mkReconciler {
  CSINodeNamespace : string;
  CSINodePort : Z;
  WakeupRequestTTL : Z;
  PasswordSyncTimeout : Z;
}.

Section Reconciler.
Context `{ConditionAPI}.
Variable cfg : WakeupReconciler.
#[local] Open Scope go_scope.

Definition with_status (wr : WakeupRequest) (st : WakeupRequestStatus) : WakeupRequest :=
  mkWR (wr_Name wr) (wr_Namespace wr) (wr_Generation wr) (wr_deleting wr)
    (wr_ResourceVersion wr) (wr_Spec wr) st.

Definition with_rv (wr : WakeupRequest) (rv : string) : WakeupRequest :=
  mkWR (wr_Name wr) (wr_Namespace wr) (wr_Generation wr) (wr_deleting wr)
    rv (wr_Spec wr) (wr_Status wr).

(** [r.Status().Update(ctx, wr)]: on success the stored object is read back
    into [wr]; on failure the local changes stay. *)
Definition StatusUpdate (wr : WakeupRequest) : M (WakeupRequest * option error) :=
  r ← perform (UpdateWRStatus wr);
  match r with
  | Ok rv => mret (with_rv wr rv, None)
  | Err e => mret (wr, Some (ApiError e))
  end.

(** *** conditions.go *)

Definition new_condition (wr : WakeupRequest) (status : ConditionStatus) (reason : string)
    : Condition :=
  mkCondition WakeupSucceededConditionType status (wr_Generation wr) 0 reason
    (default "" (WakeupConditionMessages !! reason)).

Definition set_conditions (wr : WakeupRequest) (cs : list Condition) : WakeupRequest :=
  with_status wr (mkWRStatus (ObservedGeneration (wr_Status wr)) cs (LastError (wr_Status wr))).

Definition ensureStatusConditions (wr : WakeupRequest) : M (WakeupRequest * option error) :=
  match Conditions (wr_Status wr) with
  | _ :: _ => mret (wr, None)
  | [] =>
      now ← perform Now;
      StatusUpdate (set_conditions wr
        (SetStatusCondition now []
           (new_condition wr ConditionUnknown WakeupAwaitingReconciliationReason)))
  end.

Definition setSucceededCondition (wr : WakeupRequest) (status : ConditionStatus)
    (reason : string) : M (WakeupRequest * option error) :=
  now ← perform Now;
  StatusUpdate (set_conditions wr
    (SetStatusCondition now (Conditions (wr_Status wr)) (new_condition wr status reason))).

Definition setStatusConditionFromError (wr : WakeupRequest) (err : option error)
    : M (WakeupRequest * option error) :=
  match err with
  | None => mret (wr, None)
  | Some err =>
      match AsConditionError err with
      | Some (reason, terminal) =>
          setSucceededCondition wr
            (if terminal : bool then ConditionFalse else ConditionUnknown) reason
      | None => setSucceededCondition wr ConditionUnknown WakeupReconciliationFailedReason
      end
  end.

Definition isWakeupSucceeded (wr : WakeupRequest) : bool :=
  match FindStatusCondition (Conditions (wr_Status wr)) WakeupSucceededConditionType with
  | Some cond => bool_decide (c_Status cond = ConditionTrue)
  | None => false
  end.

Definition isWakeupFailed (wr : WakeupRequest) : bool :=
  match FindStatusCondition (Conditions (wr_Status wr)) WakeupSucceededConditionType with
  | Some cond => bool_decide (c_Status cond = ConditionFalse)
  | None => false
  end.

Definition setLastErrorStatus (wr : WakeupRequest) (err : option error)
    : M (WakeupRequest * option error) :=
  let msg := match err with Some e => Error e | None => "" end in
  StatusUpdate (with_status wr
    (mkWRStatus (ObservedGeneration (wr_Status wr)) (Conditions (wr_Status wr)) msg)).

(** *** events.go *)

Definition recordFailureEvent (wur : WakeupRequest) (err : option error) : M unit :=
  match err with
  | None => mret tt
  | Some err =>
      if bool_decide (Error err = LastError (wr_Status wur)) then mret tt
      else match AsConditionError err with
           | Some (reason, terminal) =>
               perform (RecordEvent wur (if terminal : bool then "Warning" else "Normal")
                          reason (Error err))
           | None =>
               perform (RecordEvent wur "Warning" WakeupReconciliationFailedReason (Error err))
           end
  end.

(** *** ttl.go: [ctrl.Result] is its [RequeueAfter], zero for none. *)

Definition deleteAfterTTL (wr : WakeupRequest) : M (Z * option error) :=
  match FindStatusCondition (Conditions (wr_Status wr)) WakeupSucceededConditionType with
  | None => mret (0, None)
  | Some cond =>
      now ← perform Now;
      let elapsed := now - c_LastTransitionTime cond in
      let remaining := WakeupRequestTTL cfg - elapsed in
      if 0 <? remaining then mret (remaining, None)
      else
        e ← perform (DeleteWR wr);
        match e with
        | Some e => mret (0, IgnoreNotFound (ApiError e))
        | None => mret (0, None)
        end
  end.

(** *** branch.go *)

Definition getBranch (name : string) : E Branch :=
  try (λ e, if api_not_found e
            then ConditionError BranchNotFoundReason (ApiError e) false else ApiError e)
    (perform (GetBranch name)).

Definition wakeupPoolName (branch : Branch) : res error string :=
  if negb (HasWakeupPoolAnnotation branch)
  then Err (ConditionError NoPoolAnnotationReason
              (Errorf ("missing " +:+ q WakeupPoolAnnotation +:+ " annotation")) true)
  else Ok (WakeupPoolName branch).

Definition assignClusterToBranch (branch : Branch) (clusterName image : string) : E unit :=
  try_ ApiError (perform (ApplyBranch
    (mkApply (br_Name branch) "false" clusterName
       (if bool_decide (image = "") then None else Some image)))).

Definition adoptableImage (branchImage clusterImage : string) : string :=
  if bool_decide (branchImage = "") || bool_decide (clusterImage = "") ||
     bool_decide (branchImage = clusterImage) then ""
  else
    match ParseImageVersion branchImage with
    | Err _ => ""
    | Ok branchVersion =>
        match ParseImageVersion clusterImage with
        | Err _ => ""
        | Ok clusterVersion =>
            if negb (bool_decide (Offering clusterVersion = Offering branchVersion)) ||
               negb (Major clusterVersion =? Major branchVersion) ||
               (Minor clusterVersion <=? Minor branchVersion)
            then "" else clusterImage
        end
    end.

(** *** xvol.go *)

Definition wakeableStates : list string := ["Available"; "Bound"].

Definition validateXVolStatus (xvolName : string) : E unit :=
  r ← perform (GetXVolState xvolName);
  match r with
  | Err e =>
      if api_not_found e
      then fail (ConditionError XVolNotFoundReason
                   (Errorf ("XVol " +:+ q xvolName +:+ " not found")) false)
      else fail (Wrapf ("get XVol " +:+ q xvolName) (ApiError e))
  | Ok state =>
      if negb (bool_decide (state ∈ wakeableStates))
      then fail (ConditionError XVolNotReadyReason
             (Errorf ("XVol " +:+ q xvolName +:+ " is in state " +:+ q state
                        +:+ ", not wakeable")) false)
      else ok tt
  end.

(** *** pool.go *)

Definition with_body (c : Cluster) (b : ClusterBody) : Cluster :=
  mkCluster (cl_Name c) (cl_Namespace c) b.

Definition with_owners (c : Cluster) (os : list string) : Cluster :=
  with_body c (mkBody os (ImageName (cl_Body c)) (ReadyInstances (cl_Body c))
    (HealthyPVC (cl_Body c)) (TargetPrimary (cl_Body c)) (PasswordStatus (cl_Body c))).

(** [rand.IntN(n)] answers below [n]: the response is reduced modulo [n]. *)
Definition takeClusterFromPool (namespace poolName : string) : E Cluster :=
  r ← perform (GetClusterPool namespace poolName);
  match r with
  | Err e =>
      if api_not_found e then fail (ConditionError PoolNotFoundReason (ApiError e) true)
      else fail (ApiError e)
  | Ok _ =>
      items <-? try ApiError (perform (ListPoolClusters namespace poolName));
      let items := filter (λ c : string * ClusterBody, ReadyInstances c.2 ≠ 0) items in
      i ← (match items with [] => mret 0%nat | _ => perform (RandIntN (length items)) end);
      match items !! (i mod length items)%nat with
      | None =>
          fail (ConditionError PoolExhaustedReason
                  (Errorf ("no clusters in pool " +:+ q poolName)) false)
      | Some (name, body) =>
          let cluster := mkCluster name namespace body in
          owners <-? try (λ e, Wrapf "remove controller reference" (ApiError e))
                       (perform (RemoveControllerReference poolName cluster));
          let cluster := with_owners cluster owners in
          body <-? try ApiError (perform (UpdateCluster cluster));
          ok (with_body cluster body)
      end
  end.

(** *** cluster.go *)

Definition setUserPasswordSecret (branch : Branch) (cluster : Cluster) : E unit :=
  try_ ApiError (perform (ApplyClusterRole (cl_Name cluster) (cl_Namespace cluster)
    XataRoleName (br_Name branch +:+ "-app"))).

Definition clusterUsesCredsFromSecretVersion (cluster : Cluster) (username secretVersion : string)
    : bool :=
  match PasswordStatus (cl_Body cluster) !! username with
  | Some st => bool_decide (st = secretVersion)
  | None => false
  end.

(** [wait.PollUntilContextCancel]: the condition runs at once and then at
    every tick, until it is done, fails, or the context ends.  The bound
    [n] is the number of polls after which the environment ends the
    context at the latest; every theorem is for all [n]. *)
Fixpoint poll (n : nat) (branchName secretVersion : string) (deadline : Z) (cluster : Cluster)
    : M (Cluster * option error) :=
  r ← perform (GetCluster (cl_Namespace cluster) (cl_Name cluster));
  match r with
  | Err e => mret (cluster, Some (ApiError e))
  | Ok body =>
      let cluster := with_body cluster body in
      if clusterUsesCredsFromSecretVersion cluster XataRoleName secretVersion
      then mret (cluster, None)
      else
        b ← perform (GetBranch branchName);
        match b with
        | Err e => mret (cluster, Some (ApiError e))
        | Ok _ =>
            now ← perform Now;
            if deadline <? now then mret (cluster, None)
            else
              match n with
              | O => mret (cluster, Some (Errorf "context canceled"))
              | S m =>
                  live ← perform PollTick;
                  if live : bool then poll m branchName secretVersion deadline cluster
                  else mret (cluster, Some (Errorf "context canceled"))
              end
        end
  end.

Definition waitForRolePasswordSync (n : nat) (branchName : string) (cluster : Cluster)
    : M (Cluster * option error) :=
  s ← perform (GetSecretVersion (cl_Namespace cluster) (branchName +:+ "-app"));
  match s with
  | Err e =>
      mret (cluster, Some (Wrapf ("get branch secret " +:+ q (branchName +:+ "-app"))
                             (ApiError e)))
  | Ok secretVersion =>
      now ← perform Now;
      poll n branchName secretVersion (now + PasswordSyncTimeout cfg) cluster
  end.

(** *** pv.go *)

Definition pvConditionError (e : error) : error := ConditionError PVNotAvailableReason e true.

Definition getPersistentVolume (cluster : Cluster) : E string :=
  match HealthyPVC (cl_Body cluster) with
  | [] => fail (pvConditionError
            (Errorf ("no healthy PVCs found for cluster " +:+ q (cl_Name cluster))))
  | pvcName :: _ =>
      pvName <-? try (λ e, Wrapf ("get pvc " +:+ q pvcName) (ApiError e))
                   (perform (GetPVC (cl_Namespace cluster) pvcName));
      if bool_decide (pvName = "")
      then fail (pvConditionError (Errorf ("PVC " +:+ q pvcName +:+ " is not bound to a PV")))
      else
        try (λ e, Wrapf ("get pv " +:+ q pvName) (ApiError e)) (perform (GetPV pvName)) ;;?
        ok pvName
  end.

Definition annotatePVWithXVol (pvName xvolName : string) : E unit :=
  try_ (λ e, Wrapf ("patch PV " +:+ q pvName +:+ " with XVol annotation") (ApiError e))
    (perform (PatchPV pvName AwokenByXVolAnnotation xvolName)).

(** *** csinode.go *)

Definition getCSINodePod (cluster : Cluster) : E Pod :=
  let primaryPodName := TargetPrimary (cl_Body cluster) in
  if bool_decide (primaryPodName = "")
  then fail (Errorf ("cluster " +:+ q (cl_Name cluster) +:+ " has no target primary"))
  else
    nodeName <-? try (λ e, Wrapf ("get primary pod " +:+ q primaryPodName) (ApiError e))
                   (perform (GetPod (cl_Namespace cluster) primaryPodName));
    if bool_decide (nodeName = "")
    then fail (Errorf ("primary pod " +:+ q primaryPodName +:+ " is not scheduled to a node"))
    else
      pods <-? try (λ e, Wrapf "list CSI node pods" (ApiError e))
                 (perform (ListCSINodePods (CSINodeNamespace cfg)));
      match list_find (λ p, pod_NodeName p = nodeName) pods with
      | Some (_, p) => ok p
      | None => fail (ConditionError CSINodePodNotFoundReason
                  (Errorf ("no CSI node pod found on node " +:+ q nodeName)) true)
      end.

(** *** rpc.go *)

Definition wakeUp (csiNodePod : Pod) (xvolName pvName : string) : E unit :=
  try_ (λ e, Wrapf ("dial CSI node pod " +:+ q (pod_Name csiNodePod) +:+ " at " +:+
                      pod_PodIP csiNodePod +:+ ":" +:+ pretty (CSINodePort cfg)) (ApiError e))
    (perform (NewClient (pod_PodIP csiNodePod) (CSINodePort cfg))) ;;?
  try_ (λ e, Wrapf ("failed WakeUp RPC on pod " +:+ q (pod_Name csiNodePod)) (ApiError e))
    (perform (WakeUpRPC xvolName pvName)).

(** *** reconciler.go *)

(** The state the deferred functions see when [Reconcile] returns: the
    request, the cluster taken from the pool once it has been taken, the
    variable [err], and the values of the return statement. *)
Record frame := mkFrame {
  fr_wr : WakeupRequest;
  fr_cluster : option Cluster;
  fr_err : option error;
  fr_result : Z;
  fr_return : option error;
}.

(** [return ctrl.Result{}, ignoreTerminal(err)] *)
Definition bail (wr : WakeupRequest) (cluster : option Cluster) (e : error) : M frame :=
  mret (mkFrame wr cluster (Some e) 0 (ignoreTerminal e)).

(** [err = p; if err != nil { return ctrl.Result{}, ignoreTerminal(err) }] *)
Definition guard {A} (wr : WakeupRequest) (cluster : option Cluster) (p : E A)
    (k : A → M frame) : M frame :=
  r ← p; match r with Ok a => k a | Err e => bail wr cluster e end.

(** The end of [Reconcile]: assign the cluster and report success. *)
Definition succeed (wr : WakeupRequest) (cluster : option Cluster) : M frame :=
  '(wr, e) ← setSucceededCondition wr ConditionTrue WakeupSucceededReason;
  match e with
  | Some e => bail wr cluster e
  | None => mret (mkFrame wr cluster None (WakeupRequestTTL cfg) None)
  end.

(** From the cluster taken from the pool to its assignment. *)
Definition wakeCluster (n : nat) (wr : WakeupRequest) (branch : Branch) (cluster : Cluster)
    : M frame :=
  let waits := bool_decide (PasswordSync (wr_Spec wr) = PasswordSyncModeWait) in
  guard wr (Some cluster)
    (if waits then setUserPasswordSecret branch cluster else ok tt) (λ _,
  guard wr (Some cluster) (getPersistentVolume cluster) (λ pv,
  guard wr (Some cluster) (getCSINodePod cluster) (λ csiNodePod,
  guard wr (Some cluster) (wakeUp csiNodePod (XVolName (wr_Spec wr)) pv) (λ _,
  '(cluster, e) ← (if waits then waitForRolePasswordSync n (br_Name branch) cluster
                   else mret (cluster, None));
  match e with
  | Some e => bail wr (Some cluster) e
  | None =>
      guard wr (Some cluster) (annotatePVWithXVol pv (XVolName (wr_Spec wr))) (λ _,
      let adopted := adoptableImage (br_Image branch) (ImageName (cl_Body cluster)) in
      let image := if bool_decide (adopted = "") then br_Image branch else adopted in
      guard wr (Some cluster) (assignClusterToBranch branch (cl_Name cluster) image) (λ _,
      succeed wr (Some cluster)))
  end)))).

(** The part of [Reconcile] after the deferred status handler is installed. *)
Definition reconcileBody (n : nat) (wr : WakeupRequest) : M frame :=
  '(wr, e) ← setSucceededCondition wr ConditionUnknown WakeupInProgressReason;
  match e with
  | Some e => mret (mkFrame wr None (Some e) 0 (Some e))
  | None =>
      guard wr None (getBranch (BranchName (wr_Spec wr))) (λ branch,
      match br_ClusterName branch with
      | Some name =>
          guard wr None (assignClusterToBranch branch name (br_Image branch)) (λ _,
          succeed wr None)
      | None =>
          guard wr None (validateXVolStatus (XVolName (wr_Spec wr))) (λ _,
          match wakeupPoolName branch with
          | Err e => bail wr None e
          | Ok poolName =>
              guard wr None (takeClusterFromPool (wr_Namespace wr) poolName) (λ cluster,
              wakeCluster n wr branch cluster)
          end)
      end)
  end.

(** The deferred functions, last installed first. *)
Definition deferred (fr : frame) : M unit :=
  (match fr_cluster fr, fr_err fr with
   | Some cluster, Some _ => _ ← perform (DeleteCluster cluster); mret tt
   | _, _ => mret tt
   end ≫= λ _,
  recordFailureEvent (fr_wr fr) (fr_err fr) ≫= λ _,
  '(wr, _) ← setStatusConditionFromError (fr_wr fr) (fr_err fr);
  _ ← setLastErrorStatus wr (fr_err fr);
  mret tt).

Definition observeGeneration (wr : WakeupRequest) : M (WakeupRequest * option error) :=
  if ObservedGeneration (wr_Status wr) =? wr_Generation wr then mret (wr, None)
  else StatusUpdate (with_status wr
         (mkWRStatus (wr_Generation wr) (Conditions (wr_Status wr)) (LastError (wr_Status wr)))).

Definition Reconcile (n : nat) (namespace name : string) : M (Z * option error) :=
  r ← perform (GetWakeupRequest namespace name);
  match r with
  | Err e => mret (0, IgnoreNotFound (ApiError e))
  | Ok wr =>
      if wr_deleting wr then mret (0, None)
      else
        '(wr, e) ← ensureStatusConditions wr;
        match e with
        | Some e => mret (0, Some e)
        | None =>
            if isWakeupSucceeded wr then deleteAfterTTL wr
            else if isWakeupFailed wr then mret (0, None)
            else
              '(wr, e) ← observeGeneration wr;
              match e with
              | Some e => mret (0, Some e)
              | None =>
                  fr ← reconcileBody n wr;
                  deferred fr ≫= λ _,
                  mret (fr_result fr, fr_return fr)
              end
        end
  end.
End Reconciler.
