(* ===== verification/Wakeup.v ===== *)
(** * Properties of the wakeup reconciler

    Every theorem is about all runs of [Reconcile], that is, about every
    sequence of answers the API server, the CSI node, the clock and the random
    source may give. *)

From S2P Require Import Prelude GoStrings Kube PostgresVersions WakeupModel.

#[local] Open Scope Z_scope.

(** ** Observations of a run *)

Section Observations.
Context `{ConditionAPI}.

(** The Succeeded status a request carries. *)
Definition succeeded_status (wr : WakeupRequest) : option ConditionStatus :=
  c_Status <$> FindStatusCondition (Conditions (wr_Status wr)) WakeupSucceededConditionType.

(** The effects that matter outside the request: a cluster (namespace, name)
    claimed from a pool, or asked to be deleted with the answer, the WakeUp RPC acknowledged, the PV
    annotated, a cluster assigned to a branch, and the Succeeded status of
    every status update sent. *)
Inductive visible :=
| VClaim (cluster : string * string)
| VDelete (cluster : string * string) (refused : option api_error)
| VWakeUp (xvol pv : string)
| VAnnotate (pv xvol : string)
| VAssign (branch cluster : string)
| VStatus (status : option ConditionStatus).

Definition cluster_key (c : Cluster) : string * string := (cl_Namespace c, cl_Name c).

Definition visible_of (e : event resp) : option visible :=
  match e with
  | ev c r =>
      match c return resp c → option visible with
      | UpdateCluster c => λ r, if is_ok r then Some (VClaim (cluster_key c)) else None
      | DeleteCluster c => λ r, Some (VDelete (cluster_key c) r)
      | WakeUpRPC xvol pv => λ r, match r with None => Some (VWakeUp xvol pv) | _ => None end
      | PatchPV pv _ xvol => λ r, match r with None => Some (VAnnotate pv xvol) | _ => None end
      | ApplyBranch ac => λ r,
          match r with None => Some (VAssign (ap_Branch ac) (ap_Cluster ac)) | _ => None end
      | UpdateWRStatus wr => λ _, Some (VStatus (succeeded_status wr))
      | _ => λ _, None
      end r
  end.

Definition effects (tr : list (event resp)) : list visible := omap visible_of tr.

(** The request [Reconcile] read. *)
Definition request_read (tr : list (event resp)) : option WakeupRequest :=
  match tr with
  | ev c r :: _ =>
      match c return resp c → option WakeupRequest with
      | GetWakeupRequest _ _ => λ r, match r with Ok wr => Some wr | Err _ => None end
      | _ => λ _, None
      end r
  | [] => None
  end.

(** The request is done: being deleted, succeeded, or terminally failed. *)
Definition finished (wr : WakeupRequest) : Prop :=
  wr_deleting wr = true ∨
  succeeded_status wr = Some ConditionTrue ∨ succeeded_status wr = Some ConditionFalse.

(** *** What each part of [Reconcile] does, as shapes of its observations *)

(** [p] observes nothing and returns only values satisfying [P]. *)
Definition quiet {A} (p : M A) (P : A → Prop) : Prop :=
  ∀ (acc : list visible) (Q : list visible → A → Prop), (∀ a, P a → Q acc a) → wp resp visible_of p acc Q.

(** [p] observes [v] when it succeeds and nothing when it fails. *)
Definition notes {A} (p : E A) (v : A → visible) (P : A → Prop) : Prop :=
  ∀ (acc : list visible) (Q : list visible → res error A → Prop),
    (∀ a, P a → Q (acc ++ [v a]) (Ok a)) → (∀ e, Q acc (Err e)) →
    wp resp visible_of p acc Q.

Definition anything {A} (_ : A) : Prop := True.

(** What the body leaves behind for the deferred functions, given the
    observations it added: it stopped before claiming a cluster; it
    re-assigned the branch's own cluster; it claimed one and failed later;
    or it claimed, woke, annotated and assigned one. *)
Inductive body_shape (ttl : Z) : list visible → frame → Prop :=
| shape_unclaimed l wr e :
    l = [] →
    succeeded_status wr = Some ConditionUnknown →
    body_shape ttl l (mkFrame wr None (Some e) 0 (ignoreTerminal e))
| shape_done l wr cluster l' :
    l = l' ++ [VStatus (Some ConditionTrue)] →
    (match cluster with
     | None => ∃ b name, l' = [VAssign b name]
     | Some c => ∃ b x pv, l' = [VClaim (cluster_key c); VWakeUp x pv; VAnnotate pv x;
                                 VAssign b (cl_Name c)]
     end) →
    succeeded_status wr = Some ConditionTrue →
    body_shape ttl l (mkFrame wr cluster None ttl None)
| shape_done_unsaved l wr cluster l' e :
    l = l' ++ [VStatus (Some ConditionTrue)] →
    (match cluster with
     | None => ∃ b name, l' = [VAssign b name]
     | Some c => ∃ b x pv, l' = [VClaim (cluster_key c); VWakeUp x pv; VAnnotate pv x;
                                 VAssign b (cl_Name c)]
     end) →
    AsConditionError e = None →
    body_shape ttl l (mkFrame wr cluster (Some e) 0 (Some e))
| shape_claimed l wr c e x pv :
    l = [VClaim (cluster_key c)] ∨ l = [VClaim (cluster_key c); VWakeUp x pv] ∨
    l = [VClaim (cluster_key c); VWakeUp x pv; VAnnotate pv x] →
    succeeded_status wr = Some ConditionUnknown →
    body_shape ttl l (mkFrame wr (Some c) (Some e) 0 (ignoreTerminal e)).

(** The status of a request that is neither succeeded nor failed. *)
Definition pending (v : visible) : Prop :=
  v = VStatus None ∨ v = VStatus (Some ConditionUnknown).

(** The status the deferred functions leave, and what they do. *)
Definition final_status (fr : frame) : ConditionStatus :=
  match fr_err fr with
  | None => ConditionTrue
  | Some e => match AsConditionError e with
              | Some (_, true) => ConditionFalse
              | _ => ConditionUnknown
              end
  end.

Definition cleanup (fr : frame) (refused : option api_error) : list visible :=
  match fr_cluster fr, fr_err fr with
  | Some c, Some _ => [VDelete (cluster_key c) refused]
  | _, _ => []
  end.

Definition status_writes (fr : frame) : list visible :=
  match fr_err fr with
  | None => [VStatus (succeeded_status (fr_wr fr))]
  | Some _ => [VStatus (Some (final_status fr)); VStatus (Some (final_status fr))]
  end.

(** What one run of [Reconcile] does: it stops before the body, or it runs
    the body and the deferred functions. *)
Inductive run_shape (ttl : Z) : list visible → Z * option error → Prop :=
| run_early l ret :
    Forall pending l → l = [] ∨ (∃ e, ret = (0, Some e)) → run_shape ttl l ret
| run_full pre l fr refused :
    Forall pending pre → body_shape ttl l fr →
    run_shape ttl (pre ++ [VStatus (Some ConditionUnknown)] ++ l ++ cleanup fr refused ++ status_writes fr)
      (fr_result fr, fr_return fr).
End Observations.

(** ** Helper lemmas: one per part of the reconciler *)

Section Lemmas.
Context `{ConditionLaws} (cfg : WakeupReconciler).

Lemma succeeded_status_set wr wr' now cs st reason :
  succeeded_status
    (set_conditions wr (SetStatusCondition now cs (new_condition wr' st reason))) = Some st.
Proof.
  unfold succeeded_status. simpl.
  destruct (find_set now cs (new_condition wr' st reason)) as (c' & Hf & Hs & _).
  simpl in Hf. rewrite Hf. simpl. by rewrite Hs.
Qed.

Lemma isWakeupSucceeded_spec wr :
  isWakeupSucceeded wr = bool_decide (succeeded_status wr = Some ConditionTrue).
Proof.
  unfold isWakeupSucceeded, succeeded_status. destruct (FindStatusCondition _ _) as [c|]; simpl.
  - apply bool_decide_ext. split; [by intros ->|by intros [= ->]].
  - done.
Qed.

Lemma isWakeupFailed_spec wr :
  isWakeupFailed wr = bool_decide (succeeded_status wr = Some ConditionFalse).
Proof.
  unfold isWakeupFailed, succeeded_status. destruct (FindStatusCondition _ _) as [c|]; simpl.
  - apply bool_decide_ext. split; [by intros ->|by intros [= ->]].
  - done.
Qed.

(** A status update sends the request as it is and keeps its status. *)
Lemma wp_StatusUpdate wr acc (Q : list visible → WakeupRequest * option error → Prop) :
  (∀ wr', wr_Status wr' = wr_Status wr → wr_Spec wr' = wr_Spec wr →
     wr_Namespace wr' = wr_Namespace wr →
     Q (acc ++ [VStatus (succeeded_status wr)]) (wr', None)) →
  (∀ e, Q (acc ++ [VStatus (succeeded_status wr)]) (wr, Some (ApiError e))) →
  wp resp visible_of (StatusUpdate wr) acc Q.
Proof. intros Hok Herr. simpl. intros [rv|e]; simpl; [by apply Hok|by apply Herr]. Qed.

Lemma wp_setSucceededCondition wr st reason acc
    (Q : list visible → WakeupRequest * option error → Prop) :
  (∀ wr', succeeded_status wr' = Some st → wr_Spec wr' = wr_Spec wr →
     wr_Namespace wr' = wr_Namespace wr →
     Q (acc ++ [VStatus (Some st)]) (wr', None)) →
  (∀ wr' e, succeeded_status wr' = Some st →
     Q (acc ++ [VStatus (Some st)]) (wr', Some (ApiError e))) →
  wp resp visible_of (setSucceededCondition wr st reason) acc Q.
Proof.
  intros Hok Herr. unfold setSucceededCondition. simpl. intros now.
  apply wp_StatusUpdate.
  - intros wr' Hs Hsp Hns. rewrite succeeded_status_set. apply Hok; [|done..].
    unfold succeeded_status. rewrite Hs. apply (succeeded_status_set wr wr now).
  - intros e. rewrite succeeded_status_set. apply Herr, succeeded_status_set.
Qed.

(** The tactic for helpers without loops: run every answer. *)
Ltac run_answers :=
  repeat (simpl; first [progress intros | case_match]);
  subst; simpl in *; try congruence; eauto.

Lemma getBranch_quiet name : quiet (getBranch name) anything.
Proof. intros acc Q HQ. unfold getBranch, try. run_answers; by apply HQ. Qed.

Lemma validateXVolStatus_quiet x : quiet (validateXVolStatus x) anything.
Proof. intros acc Q HQ. unfold validateXVolStatus. run_answers; by apply HQ. Qed.

Lemma setUserPasswordSecret_quiet b c : quiet (setUserPasswordSecret b c) anything.
Proof. intros acc Q HQ. unfold setUserPasswordSecret. run_answers; by apply HQ. Qed.

Lemma getPersistentVolume_quiet c : quiet (getPersistentVolume c) anything.
Proof. intros acc Q HQ. unfold getPersistentVolume. run_answers; by apply HQ. Qed.

Lemma getCSINodePod_quiet c : quiet (getCSINodePod cfg c) anything.
Proof. intros acc Q HQ. unfold getCSINodePod. run_answers; by apply HQ. Qed.

Lemma recordFailureEvent_quiet wr e : quiet (recordFailureEvent wr e) anything.
Proof. intros acc Q HQ. unfold recordFailureEvent. run_answers; by apply HQ. Qed.

Lemma poll_quiet n b sv d c : quiet (poll n b sv d c) (λ r, cluster_key r.1 = cluster_key c).
Proof.
  revert c. induction n as [|n IH]; intros c acc Q HQ; simpl.
  - run_answers; by apply HQ.
  - intros [body|e]; simpl; [|by apply HQ].
    destruct (clusterUsesCredsFromSecretVersion _ _ _); [by apply HQ|].
    simpl. intros [br|e]; simpl; [|by apply HQ].
    intros now. destruct (d <? now); [by apply HQ|]. simpl.
    intros [|]; [|by apply HQ]. apply IH. intros [c' e] Hc. by apply HQ.
Qed.

Lemma waitForRolePasswordSync_quiet n b c :
  quiet (waitForRolePasswordSync cfg n b c) (λ r, cluster_key r.1 = cluster_key c).
Proof.
  intros acc Q HQ. unfold waitForRolePasswordSync. simpl.
  intros [sv|e]; simpl; [|by apply HQ]. intros now. by apply poll_quiet.
Qed.

Lemma assignClusterToBranch_notes b name image :
  notes (assignClusterToBranch b name image) (λ _, VAssign (br_Name b) name) anything.
Proof.
  intros acc Q Hok Herr. unfold assignClusterToBranch, try_. simpl.
  intros [e|]; simpl; [by apply Herr|by apply Hok].
Qed.

Lemma annotatePVWithXVol_notes pv x :
  notes (annotatePVWithXVol pv x) (λ _, VAnnotate pv x) anything.
Proof.
  intros acc Q Hok Herr. unfold annotatePVWithXVol, try_. simpl.
  intros [e|]; simpl; [by apply Herr|by apply Hok].
Qed.

Lemma wakeUp_notes pod x pv : notes (wakeUp cfg pod x pv) (λ _, VWakeUp x pv) anything.
Proof.
  intros acc Q Hok Herr. unfold wakeUp, try_. simpl.
  intros [e|]; simpl; [by apply Herr|]. intros [e|]; simpl; [by apply Herr|by apply Hok].
Qed.

Lemma takeClusterFromPool_notes ns pool :
  notes (takeClusterFromPool ns pool) (λ c, VClaim (cluster_key c)) anything.
Proof.
  intros acc Q Hok Herr. unfold takeClusterFromPool. simpl.
  intros [u|e]; simpl; [|destruct (api_not_found e); by apply Herr].
  intros [items|e]; simpl; [|by apply Herr].
  set (l := filter _ items).
  apply wp_bind. apply (wp_mono _ _ _ (λ acc' _, acc' = acc)).
  2: { destruct l; simpl; done. }
  intros acc' i ->. destruct (l !! _) as [[name body]|]; simpl; [|by apply Herr].
  intros [os|e]; simpl; [|by apply Herr].
  intros [body'|e]; simpl; [|by apply Herr]. by apply (Hok (mkCluster name ns body')).
Qed.

(** Sequencing through [guard]. *)
Lemma wp_guard_quiet {A} wr cl (p : E A) (k : A → M frame) P acc Q :
  quiet p P →
  (∀ e, Q acc (mkFrame wr cl (Some e) 0 (ignoreTerminal e))) →
  (∀ a, wp resp visible_of (k a) acc Q) →
  wp resp visible_of (guard wr cl p k) acc Q.
Proof.
  intros Hp Herr Hk. unfold guard. apply wp_bind, Hp. intros [a|e] _; [apply Hk|apply Herr].
Qed.

Lemma wp_guard_notes {A} wr cl (p : E A) v (k : A → M frame) P acc Q :
  notes p v P →
  (∀ e, Q acc (mkFrame wr cl (Some e) 0 (ignoreTerminal e))) →
  (∀ a, wp resp visible_of (k a) (acc ++ [v a]) Q) →
  wp resp visible_of (guard wr cl p k) acc Q.
Proof.
  intros Hp Herr Hk. unfold guard. apply wp_bind, Hp; [intros a _; apply Hk|apply Herr].
Qed.

Lemma wp_succeed wr cl acc (Q : list visible → frame → Prop) :
  (∀ wr', succeeded_status wr' = Some ConditionTrue →
     Q (acc ++ [VStatus (Some ConditionTrue)]) (mkFrame wr' cl None (WakeupRequestTTL cfg) None)) →
  (∀ wr' e, Q (acc ++ [VStatus (Some ConditionTrue)])
     (mkFrame wr' cl (Some (ApiError e)) 0 (Some (ApiError e)))) →
  wp resp visible_of (succeed cfg wr cl) acc Q.
Proof.
  intros Hok Herr. unfold succeed. apply wp_bind. apply wp_setSucceededCondition.
  - intros wr' Hs _ _. by apply Hok.
  - intros wr' e _. apply Herr.
Qed.

Lemma wakeCluster_shape n wr branch c acc :
  succeeded_status wr = Some ConditionUnknown →
  wp resp visible_of (wakeCluster cfg n wr branch c) (acc ++ [VClaim (cluster_key c)])
    (λ l fr, ∃ l', l = acc ++ l' ∧ body_shape (WakeupRequestTTL cfg) l' fr).
Proof.
  intros Hwr. unfold wakeCluster.
  assert (Hfail : ∀ l c' e, cluster_key c' = cluster_key c →
    (∃ x pv, l = [] ∨ l = [VWakeUp x pv] ∨ l = [VWakeUp x pv; VAnnotate pv x]) →
    ∃ l', (acc ++ [VClaim (cluster_key c)]) ++ l = acc ++ l' ∧
      body_shape (WakeupRequestTTL cfg) l' (mkFrame wr (Some c') (Some e) 0 (ignoreTerminal e))).
  { intros l c' e Hc (x & pv & Hl). exists (VClaim (cluster_key c) :: l).
    rewrite <-app_assoc. split; [done|]. apply shape_claimed with x pv; [|done].
    rewrite Hc. naive_solver. }
  pose proof (λ c' e Hc, Hfail [] c' e Hc (ex_intro _ "" (ex_intro _ "" (or_introl eq_refl))))
    as Hfail0. setoid_rewrite app_nil_r in Hfail0.
  eapply (wp_guard_quiet _ _ _ _ anything); [|by intros; apply Hfail0|intros []].
  { case_bool_decide; [apply setUserPasswordSecret_quiet|]. intros a Q HQ. by apply HQ. }
  eapply wp_guard_quiet; [apply getPersistentVolume_quiet|by intros; apply Hfail0|intros pv].
  eapply wp_guard_quiet; [apply getCSINodePod_quiet|by intros; apply Hfail0|intros pod].
  eapply wp_guard_notes; [apply wakeUp_notes|by intros; apply Hfail0|intros []].
  apply wp_bind.
  apply (wp_mono _ _ _ (λ l r, l = (acc ++ [VClaim (cluster_key c)]) ++
           [VWakeUp (XVolName (wr_Spec wr)) pv] ∧ cluster_key r.1 = cluster_key c)).
  2: { case_bool_decide; [|done]. apply waitForRolePasswordSync_quiet. done. }
  intros l [c' [e|]] [-> Hc]; simpl in Hc; [by apply Hfail; eauto 10|].
  eapply wp_guard_notes; [apply annotatePVWithXVol_notes|by intros; apply Hfail; eauto 10|intros []].
  rewrite <-(app_assoc _ [_] [_]). simpl app.
  eapply wp_guard_notes; [apply assignClusterToBranch_notes|by intros; apply Hfail; eauto 10|].
  intros []. rewrite <-!app_assoc. simpl app.
  assert (Hshape : ∃ b x pv', [VClaim (cluster_key c); VWakeUp (XVolName (wr_Spec wr)) pv;
      VAnnotate pv (XVolName (wr_Spec wr)); VAssign (br_Name branch) (cl_Name c')] =
      [VClaim (cluster_key c'); VWakeUp x pv'; VAnnotate pv' x; VAssign b (cl_Name c')]).
  { rewrite Hc. eauto. }
  apply wp_succeed.
  - intros wr' Hs. eexists. rewrite <-app_assoc. split; [done|].
    by eapply (shape_done _ _ _ (Some c')).
  - intros wr' e. eexists. rewrite <-app_assoc. split; [done|].
    by eapply (shape_done_unsaved _ _ _ (Some c')).
Qed.

Lemma reconcileBody_shape n wr acc :
  wp resp visible_of (reconcileBody cfg n wr) acc
    (λ l fr, ∃ l', l = acc ++ [VStatus (Some ConditionUnknown)] ++ l' ∧
       body_shape (WakeupRequestTTL cfg) l' fr).
Proof.
  unfold reconcileBody. apply wp_bind. apply wp_setSucceededCondition.
  2: { intros wr' e Hs. exists []. split; [done|]. by apply (shape_unclaimed _ _ _ (ApiError e)). }
  intros wr1 Hs _ _. set (acc1 := acc ++ [VStatus (Some ConditionUnknown)]).
  apply (wp_mono _ _ _ (λ l fr, ∃ l', l = acc1 ++ l' ∧ body_shape (WakeupRequestTTL cfg) l' fr)).
  { intros l fr (l' & -> & Hsh). exists l'. unfold acc1. by rewrite <-app_assoc. }
  assert (Hfail : ∀ e, ∃ l', acc1 = acc1 ++ l' ∧
    body_shape (WakeupRequestTTL cfg) l' (mkFrame wr1 None (Some e) 0 (ignoreTerminal e))).
  { intros e. exists []. rewrite app_nil_r. split; [done|].
    by apply shape_unclaimed. }
  eapply wp_guard_quiet; [apply getBranch_quiet|by intros; apply Hfail|intros branch].
  destruct (br_ClusterName branch) as [name|].
  - eapply wp_guard_notes; [apply assignClusterToBranch_notes|by intros; apply Hfail|intros []].
    apply wp_succeed.
    + intros wr' Hs'. eexists. rewrite <-app_assoc. split; [done|].
      eapply (shape_done _ _ _ None); eauto.
    + intros wr' e. eexists. rewrite <-app_assoc. split; [done|].
      eapply (shape_done_unsaved _ _ _ None); eauto.
  - eapply wp_guard_quiet; [apply validateXVolStatus_quiet|by intros; apply Hfail|intros []].
    destruct (wakeupPoolName branch) as [pool|e]; [|apply Hfail].
    eapply wp_guard_notes; [apply takeClusterFromPool_notes|by intros; apply Hfail|intros c].
    by apply wakeCluster_shape.
Qed.

Lemma wp_setLastErrorStatus wr e acc (Q : list visible → WakeupRequest * option error → Prop) :
  (∀ r, Q (acc ++ [VStatus (succeeded_status wr)]) r) →
  wp resp visible_of (setLastErrorStatus wr e) acc Q.
Proof. intros HQ. apply wp_StatusUpdate; intros; apply HQ. Qed.

Lemma deferred_shape fr acc (Q : list visible → unit → Prop) :
  (∀ refused, Q (acc ++ cleanup fr refused ++ status_writes fr) tt) →
  wp resp visible_of (deferred fr) acc Q.
Proof.
  intros HQ. unfold deferred. apply wp_bind.
  apply (wp_mono _ _ _ (λ l _, ∃ refused, l = acc ++ cleanup fr refused)).
  2: { unfold cleanup. destruct (fr_cluster fr), (fr_err fr); simpl; try (exists None; by rewrite ?app_nil_r).
       intros refused. by exists refused. }
  intros ? [] [refused ->]. specialize (HQ refused). apply wp_bind. apply recordFailureEvent_quiet. intros [] _. apply wp_bind.
  unfold status_writes, final_status in HQ. rewrite app_assoc in HQ.
  unfold setStatusConditionFromError. destruct (fr_err fr) as [e|].
  - assert (Hset : ∀ st reason,
      Q ((acc ++ cleanup fr refused) ++ [VStatus (Some st); VStatus (Some st)]) tt →
      wp resp visible_of (setSucceededCondition (fr_wr fr) st reason) (acc ++ cleanup fr refused)
        (λ acc' r, wp resp visible_of
           (let '(wr, _) := r in _ ← setLastErrorStatus wr (Some e); mret tt) acc' Q)).
    { intros st reason HQ'. apply wp_setSucceededCondition.
      - intros wr' Hs _ _. apply wp_bind, wp_setLastErrorStatus. intros r.
        rewrite Hs, <-app_assoc. apply HQ'.
      - intros wr' e' Hs. apply wp_bind, wp_setLastErrorStatus. intros r.
        rewrite Hs, <-app_assoc. apply HQ'. }
    destruct (AsConditionError e) as [[reason [|]]|]; by apply Hset.
  - apply wp_bind, wp_setLastErrorStatus. intros r. apply HQ.
Qed.

Lemma deleteAfterTTL_quiet wr : quiet (deleteAfterTTL cfg wr) anything.
Proof. intros acc Q HQ. unfold deleteAfterTTL. run_answers; by apply HQ. Qed.

Lemma succeeded_status_pending wr :
  isWakeupSucceeded wr = false → isWakeupFailed wr = false →
  pending (VStatus (succeeded_status wr)).
Proof.
  rewrite isWakeupSucceeded_spec, isWakeupFailed_spec, !bool_decide_eq_false.
  unfold pending. destruct (succeeded_status wr) as [[]|]; naive_solver.
Qed.

Lemma Reconcile_shape n ns name :
  wp resp visible_of (Reconcile cfg n ns name) [] (run_shape (WakeupRequestTTL cfg)).
Proof.
  unfold Reconcile. apply (wp_perform _ (GetWakeupRequest ns name)).
  intros [wr|e]; cbn [visible_of]; [|by apply run_early; eauto].
  destruct (wr_deleting wr); [by apply run_early; eauto|].
  apply wp_bind.
  apply (wp_mono _ _ _ (λ acc r, Forall pending acc ∧
    (acc = [] ∨ succeeded_status r.1 = Some ConditionUnknown))).
  2: { unfold ensureStatusConditions. destruct (Conditions (wr_Status wr)); [|simpl; eauto].
       apply wp_bind. intros now. apply wp_StatusUpdate.
       - intros wr' Hs _ _. rewrite succeeded_status_set. split; [apply Forall_singleton; by right|].
         right. unfold succeeded_status. simpl. rewrite Hs. apply (succeeded_status_set wr wr now).
       - intros e. rewrite succeeded_status_set. split; [apply Forall_singleton; by right|].
         right. apply (succeeded_status_set wr wr now). }
  intros acc [wr1 [e|]] [Hacc Hst]; simpl in Hst; [apply run_early; eauto|].
  destruct (isWakeupSucceeded wr1) eqn:Hsucc.
  { rewrite isWakeupSucceeded_spec, bool_decide_eq_true in Hsucc.
    apply deleteAfterTTL_quiet. intros r _. apply run_early; [done|]. left. naive_solver. }
  destruct (isWakeupFailed wr1) eqn:Hfailed.
  { rewrite isWakeupFailed_spec, bool_decide_eq_true in Hfailed.
    apply run_early; [done|]. left. naive_solver. }
  apply wp_bind.
  apply (wp_mono _ _ _ (λ acc _, Forall pending acc)).
  2: { unfold observeGeneration. destruct (_ =? _); [done|].
       pose proof (succeeded_status_pending _ Hsucc Hfailed) as Hp.
       apply wp_StatusUpdate; intros; apply Forall_app; by rewrite Forall_singleton. }
  intros pre [wr2 [e|]] Hpre; [apply run_early; eauto|].
  apply wp_bind. eapply wp_mono; [|apply reconcileBody_shape].
  intros l fr (l' & -> & Hsh). apply wp_bind. apply deferred_shape. intros refused. rewrite <-!app_assoc.
  by apply run_full.
Qed.
End Lemmas.

(** ** Properties *)

Section Properties.
Context `{ConditionLaws} (cfg : WakeupReconciler).

Lemma runs_shape n ns name tr ret :
  runs resp (Reconcile cfg n ns name) tr ret →
  run_shape (WakeupRequestTTL cfg) (effects tr) ret.
Proof. intros Hr. exact (wp_sound _ _ [] _ _ _ (Reconcile_shape cfg n ns name) Hr). Qed.

Lemma pending_not v l : Forall pending l → v ∈ l → pending v.
Proof. rewrite Forall_forall. eauto. Qed.

(** The members of the observations of a full run. *)
Lemma in_full v pre l fr refused :
  v ∈ pre ++ [VStatus (Some ConditionUnknown)] ++ l ++ cleanup fr refused ++ status_writes fr ↔
  v ∈ pre ∨ v = VStatus (Some ConditionUnknown) ∨ v ∈ l ∨ v ∈ cleanup fr refused ∨ v ∈ status_writes fr.
Proof. rewrite !elem_of_app, list_elem_of_singleton. done. Qed.




(** [Succeeded=True] is only ever reported after the work: the run has
    either re-assigned the branch's own cluster, or taken a cluster from the
    pool, woken it up, annotated its volume and assigned it to the branch, in
    this order and with nothing but pending statuses before. *)
Theorem success_reported_after_wakeup n ns name tr ret
    (Hrun : runs resp (Reconcile cfg n ns name) tr ret)
    (Hok : VStatus (Some ConditionTrue) ∈ effects tr) :
  ∃ pre work post,
    effects tr = pre ++ work ++ VStatus (Some ConditionTrue) :: post ∧
    Forall pending pre ∧
    ((∃ b c, work = [VAssign b c]) ∨
     (∃ c b x pv, work = [VClaim c; VWakeUp x pv; VAnnotate pv x; VAssign b c.2])).
Proof.
  revert Hok. apply runs_shape in Hrun as [l ? Hl _|pre l fr refused Hpre Hb]; intros Hok.
  { by apply (pending_not _ _ Hl) in Hok as [|]. }
  exists (pre ++ [VStatus (Some ConditionUnknown)]).
  assert (Hpre' : Forall pending (pre ++ [VStatus (Some ConditionUnknown)])).
  { apply Forall_app. split; [done|]. apply Forall_singleton. by right. }
  assert (Hdone : ∀ l' (cl : option Cluster),
    (match cl with
     | None => ∃ b name, l' = [VAssign b name]
     | Some c => ∃ b x pv, l' = [VClaim (cluster_key c); VWakeUp x pv; VAnnotate pv x;
                                 VAssign b (cl_Name c)]
     end) → l = l' ++ [VStatus (Some ConditionTrue)] →
    ∃ work post,
      pre ++ [VStatus (Some ConditionUnknown)] ++ l ++ cleanup fr refused ++ status_writes fr =
      (pre ++ [VStatus (Some ConditionUnknown)]) ++ work ++ VStatus (Some ConditionTrue) :: post ∧
      Forall pending (pre ++ [VStatus (Some ConditionUnknown)]) ∧
      ((∃ b c, work = [VAssign b c]) ∨
       (∃ c b x pv, work = [VClaim c; VWakeUp x pv; VAnnotate pv x; VAssign b c.2]))).
  { intros l' cl Hw ->. exists l', (cleanup fr refused ++ status_writes fr).
    rewrite <-!app_assoc. split_and!; [done..|].
    destruct cl as [c|]; [right; exists (cluster_key c)|left]; naive_solver. }
  destruct Hb as [l wr e Hl Hs|l wr cl l' Hl Hw Hs|l wr cl l' e Hl Hw He|l wr c e x pv Hl Hs].
  - exfalso. rewrite in_full in Hok. unfold cleanup, status_writes, final_status in Hok.
    simpl in Hok. destruct Hok as [Hin|Hok].
    + by apply (pending_not _ _ Hpre) in Hin as [|].
    + subst. destruct (AsConditionError e) as [[? []]|]; set_solver.
  - by eapply Hdone.
  - by eapply Hdone.
  - exfalso. rewrite in_full in Hok. unfold cleanup, status_writes, final_status in Hok.
    simpl in Hok. destruct Hok as [Hin|Hok].
    + by apply (pending_not _ _ Hpre) in Hin as [|].
    + destruct Hl as [->|[->| ->]], (AsConditionError e) as [[? []]|]; set_solver.
Qed.

(** Whenever the reconciler does anything visible, it tells the work queue
    not to come back (no requeue, no error) exactly when it reported
    [Succeeded=False]: terminal failures are final, every other failure is
    retried, and a success is requeued for its expiry. *)
Theorem requeued_unless_failed n ns name tr ret
    (Hrun : runs resp (Reconcile cfg n ns name) tr ret)
    (Httl : 0 < WakeupRequestTTL cfg) (Hbusy : effects tr ≠ []) :
  ret = (0, None) ↔ VStatus (Some ConditionFalse) ∈ effects tr.
Proof.
  revert Hbusy. apply runs_shape in Hrun as [l ? Hl He|pre l fr refused Hpre Hb]; intros Hbusy.
  { split; [destruct He as [|[e ->]]; done|].
    intros Hin. by apply (pending_not _ _ Hl) in Hin as [|]. }
  rewrite in_full.
  assert (Hpf : VStatus (Some ConditionFalse) ∉ pre).
  { intros Hin. by apply (pending_not _ _ Hpre) in Hin as [|]. }
  destruct Hb as [l wr e Hl Hs|l wr cl l' Hl Hw Hs|l wr cl l' e Hl Hw He|l wr c e x pv Hl Hs];
    unfold cleanup, status_writes, final_status, ignoreTerminal; simpl.
  - subst. destruct (AsConditionError e) as [[? []]|]; set_solver.
  - subst. split; [intros [=]; lia|]. rewrite Hs.
    destruct cl; [destruct Hw as (b & x & pv & ->)|destruct Hw as (b & nm & ->)]; set_solver.
  - subst. rewrite He.
    destruct cl; [destruct Hw as (b & x & pv & ->)|destruct Hw as (b & nm & ->)]; set_solver.
  - destruct Hl as [->|[->| ->]], (AsConditionError e) as [[? []]|]; set_solver.
Qed.

(** A finished request (being deleted, succeeded or terminally failed) is
    inert: reconciling it again claims, wakes, annotates, assigns and deletes
    no cluster and writes no status. *)
Theorem finished_request_is_inert n ns name tr ret wr
    (Hrun : runs resp (Reconcile cfg n ns name) tr ret)
    (Hread : request_read tr = Some wr) (Hfin : finished wr) :
  effects tr = [].
Proof.
  unfold Reconcile in Hrun.
  apply runs_bind in Hrun as (tr1 & tr2 & r & -> & H1 & H2). destruct H1 as (r' & ? & -> & -> & ->).
  simpl in Hread. destruct r' as [wr'|e]; [|done]. simplify_eq.
  change (effects tr2 = []). unfold finished in Hfin.
  destruct (wr_deleting wr); [by destruct H2 as [-> _]|]. destruct Hfin as [|Hfin]; [done|].
  apply runs_bind in H2 as (tr3 & tr4 & [wr1 e1] & -> & H3 & H4).
  assert (Hens : runs resp (mret (wr, None)) tr3 (wr1, e1)).
  { unfold ensureStatusConditions in H3. unfold succeeded_status in Hfin.
    destruct (Conditions (wr_Status wr)); [|done]. rewrite find_nil in Hfin. naive_solver. }
  apply runs_ret in Hens as [-> [= -> ->]]. simpl app in *.
  rewrite isWakeupSucceeded_spec, isWakeupFailed_spec in H4.
  destruct Hfin as [Hs|Hs]; rewrite Hs in H4; simpl in H4.
  - assert (Hq : wp resp visible_of (deleteAfterTTL cfg wr) [] (λ l _, l = [])).
    { by apply deleteAfterTTL_quiet. }
    exact (wp_sound _ _ [] _ _ _ Hq H4).
  - by destruct H4 as [-> _].
Qed.

(** A succeeded request lives for exactly its time to live: before, the
    run only reads the clock and asks to come back when the rest has passed;
    from then on it deletes the request, and a request already gone is not an
    error. *)
Theorem succeeded_request_expires n ns name tr ret wr cond
    (Hrun : runs resp (Reconcile cfg n ns name) tr ret)
    (Hread : request_read tr = Some wr) (Hlive : wr_deleting wr = false)
    (Hcond : FindStatusCondition (Conditions (wr_Status wr)) WakeupSucceededConditionType
             = Some cond)
    (Htrue : c_Status cond = ConditionTrue) :
  ∃ now, let remaining := c_LastTransitionTime cond + WakeupRequestTTL cfg - now in
    (0 < remaining ∧ ret = (remaining, None) ∧
     tr = [ev (GetWakeupRequest ns name) (Ok wr); ev Now now]) ∨
    (remaining ≤ 0 ∧ ∃ e,
     tr = [ev (GetWakeupRequest ns name) (Ok wr); ev Now now; ev (DeleteWR wr) e] ∧
     ret = (0, match e with
               | Some e => if api_not_found e then None else Some (ApiError e)
               | None => None end)).
Proof.
  unfold Reconcile in Hrun.
  apply runs_bind in Hrun as (tr1 & tr2 & r & -> & H1 & H2). destruct H1 as (r' & ? & -> & -> & ->).
  simpl in Hread. destruct r' as [wr'|e]; [|done]. simplify_eq. rewrite Hlive in H2.
  apply runs_bind in H2 as (tr3 & tr4 & [wr1 e1] & -> & H3 & H4).
  assert (Hens : runs resp (mret (wr, None)) tr3 (wr1, e1)).
  { unfold ensureStatusConditions in H3.
    destruct (Conditions (wr_Status wr)); [|done]. by rewrite find_nil in Hcond. }
  apply runs_ret in Hens as [-> [= -> ->]].
  unfold isWakeupSucceeded in H4. rewrite Hcond, bool_decide_eq_true_2 in H4 by done.
  unfold deleteAfterTTL in H4. rewrite Hcond in H4.
  destruct H4 as (now & tr5 & -> & H5). exists now. simpl in H5.
  destruct (Z.ltb_spec 0 (WakeupRequestTTL cfg - (now - c_LastTransitionTime cond))).
  - left. destruct H5 as [-> ->]. split_and!; [lia|f_equal; lia|done].
  - right. split; [lia|]. destruct H5 as (e & tr6 & -> & H6). exists e.
    by destruct e as [e|]; destruct H6 as [-> ->].
Qed.
End Properties.

(** ** Concrete runs *)

Module Witness.
Import SimpleConditions.
(** A cluster where everything works, except the status updates that
    [updates] refuses. *)
Definition body0 : ClusterBody :=
  mkBody ["pool"] "ghcr.io/xataio/postgres-images/xata-analytics:17.5" 1 ["c1-1"] "c1-1" ∅.

Definition world (updates : WakeupRequest → bool) (wr : WakeupRequest) : env resp unit :=
  λ w c, (w, match c return resp c with
  | Now => 100
  | GetWakeupRequest _ _ => Ok wr
  | UpdateWRStatus wr => if updates wr then Ok "2" else Err (mkApiError Conflict "conflict")
  | DeleteWR _ => None
  | RecordEvent _ _ _ _ => tt
  | GetBranch name => Ok (mkBranch name {[WakeupPoolAnnotation := "pool"]} None "")
  | ApplyBranch _ => None
  | GetXVolState _ => Ok "Available"
  | GetClusterPool _ _ => Ok tt
  | ListPoolClusters _ _ => Ok [("c1", body0)]
  | RandIntN _ => 0%nat
  | RemoveControllerReference _ _ => Ok []
  | UpdateCluster c => Ok (cl_Body c)
  | DeleteCluster _ => None
  | GetCluster _ _ => Ok body0
  | ApplyClusterRole _ _ _ _ => None
  | GetSecretVersion _ _ => Ok "1"
  | PollTick => true
  | GetPVC _ _ => Ok "pv-1"
  | GetPV _ => Ok tt
  | PatchPV _ _ _ => None
  | GetPod _ _ => Ok "node-1"
  | ListCSINodePods _ => Ok [mkPod "csi-1" "node-1" "10.0.0.1"]
  | NewClient _ _ => None
  | WakeUpRPC _ _ => None
  end).

Definition cfg0 : WakeupReconciler := mkReconciler "kube-system" 9000 3600 60.

Definition request (conditions : list Condition) : WakeupRequest :=
  mkWR "wr" "ns" 1 false "1" (mkWRSpec "branch" "xvol" "") (mkWRStatus 1 conditions "").

Definition done_at (t : Z) : list Condition :=
  [mkCondition WakeupSucceededConditionType ConditionTrue 1 t WakeupSucceededReason ""].

Definition run_of (h : env resp unit) : list (event resp) * unit * (Z * option error) :=
  exec resp h tt (Reconcile cfg0 5 "ns" "wr").

Lemma run_of_runs h :
  runs resp (Reconcile cfg0 5 "ns" "wr") (run_of h).1.1 (run_of h).2.
Proof. exact (exec_runs h tt _). Qed.

Definition all_saved (_ : WakeupRequest) : bool := true.
Definition success_unsaved (wr : WakeupRequest) : bool :=
  negb (bool_decide (succeeded_status wr = Some ConditionTrue)).


Lemma success_reported_after_wakeup_witness :
  ∃ pre work post,
    effects (run_of (world all_saved (request []))).1.1 =
      pre ++ work ++ VStatus (Some ConditionTrue) :: post ∧
    Forall pending pre ∧
    ((∃ b c, work = [VAssign b c]) ∨
     (∃ c b x pv, work = [VClaim c; VWakeUp x pv; VAnnotate pv x; VAssign b c.2])).
Proof.
  apply (success_reported_after_wakeup cfg0 5 "ns" "wr" _ _ (run_of_runs (world all_saved (request [])))).
  vm_compute. do 6 right. left.
Defined.

(** A branch without the pool annotation fails terminally. *)
Definition no_pool (wr : WakeupRequest) : env resp unit := λ w c,
  match c return unit * resp c with
  | GetBranch name => (w, Ok (mkBranch name ∅ None ""))
  | c => world all_saved wr w c
  end.

Lemma requeued_unless_failed_witness :
  (run_of (no_pool (request []))).2 = (0, None) ∧
  ((run_of (no_pool (request []))).2 = (0, None) ↔
   VStatus (Some ConditionFalse) ∈ effects (run_of (no_pool (request []))).1.1).
Proof.
  split; [reflexivity|].
  apply (requeued_unless_failed cfg0 5 "ns" "wr" _ _ (run_of_runs (no_pool (request [])))); [reflexivity|].
  vm_compute. congruence.
Defined.

Lemma finished_request_is_inert_witness :
  effects (run_of (world all_saved (request (done_at 10)))).1.1 = [].
Proof.
  apply (finished_request_is_inert cfg0 5 "ns" "wr" _ (run_of (world all_saved (request (done_at 10)))).2
           (request (done_at 10)) (run_of_runs _)); [reflexivity|].
  right. left. reflexivity.
Defined.

Lemma succeeded_request_expires_witness :
  ∃ now, let remaining := 10 + 3600 - now in
    (0 < remaining ∧ (run_of (world all_saved (request (done_at 10)))).2 = (remaining, None) ∧
     (run_of (world all_saved (request (done_at 10)))).1.1 =
       [ev (GetWakeupRequest "ns" "wr") (Ok (request (done_at 10))); ev Now now]) ∨
    (remaining ≤ 0 ∧ ∃ e,
     (run_of (world all_saved (request (done_at 10)))).1.1 =
       [ev (GetWakeupRequest "ns" "wr") (Ok (request (done_at 10))); ev Now now;
        ev (DeleteWR (request (done_at 10))) e] ∧
     (run_of (world all_saved (request (done_at 10)))).2 =
       (0, match e with
           | Some e => if api_not_found e then None else Some (ApiError e)
           | None => None end)).
Proof.
  apply (succeeded_request_expires cfg0 5 "ns" "wr" _ _ (request (done_at 10))
    (mkCondition WakeupSucceededConditionType ConditionTrue 1 10 WakeupSucceededReason "")
    (run_of_runs (world all_saved (request (done_at 10))))); reflexivity.
Defined.

(** The clean-up can delete a cluster in use: when the write of
    [Succeeded=True] fails after the cluster was assigned to the branch, the
    deferred function deletes that very cluster, and the branch keeps its
    name. *)
Theorem assigned_cluster_deleted_when_status_write_fails :
  ∃ tr ret before b c after,
    runs resp (Reconcile cfg0 5 "ns" "wr") tr ret ∧
    effects tr = before ++ [VAssign b c.2; VStatus (Some ConditionTrue); VDelete c None] ++ after.
Proof.
  exists (run_of (world success_unsaved (request []))).1.1,
    (run_of (world success_unsaved (request []))).2,
    (take 5 (effects (run_of (world success_unsaved (request []))).1.1)), "branch", ("ns", "c1"),
    (drop 8 (effects (run_of (world success_unsaved (request []))).1.1)).
  split; [apply run_of_runs|]. vm_compute. reflexivity.
Qed.

(** The pod that wakes volumes cannot be reached, and the cluster's deletion is
    refused: the cluster is no longer in the pool and not the branch's. *)
Definition unreachable (wr : WakeupRequest) : env resp unit := λ w c,
  match c return unit * resp c with
  | NewClient _ _ => (w, Some (mkApiError OtherReason "connection refused"))
  | DeleteCluster _ => (w, Some (mkApiError Forbidden "forbidden"))
  | c => world all_saved wr w c
  end.

Theorem refused_deletion_leaks :
  let seen := effects (run_of (unreachable (request []))).1.1 in
  VClaim ("ns", "c1") ∈ seen ∧ VDelete ("ns", "c1") (Some (mkApiError Forbidden "forbidden")) ∈ seen ∧
  (∀ b c, VAssign b c ∉ seen) ∧ VDelete ("ns", "c1") None ∉ seen.
Proof. vm_compute. split_and!; intros; set_solver. Qed.
End Witness.
