(* ===== verification/Coalesce.v ===== *)
(** * Request coalescing: [internal/coalesce/coalesce.go]

    [Coalescer] runs one execution ("flight") of [fn] per key and shares its
    result with every caller of [Do] for that key.  The goroutines are modelled
    as a transition system whose atomic steps are the critical sections of
    [c.mu], the two outcomes of the [select] in [Do], and the actions of the
    flight goroutine after [fn] returns.  Spans and tracing are not modelled. *)

From S2P Require Import Prelude.

Local Open Scope Z_scope.


#[global] Instance ctx_error_eq_dec : EqDecision ctx_error.
Proof. solve_decision. Defined.

Section Model.
Context {K : Type} `{Countable K} {V Er : Type} (zero : V).

(** Where the goroutine of [start] is: running [c.fn], then after each of its
    four effects. *)
Inductive flight_pc := FRunning | FReturned | FUnregistered | FCancelled | FClosed.

Record flight := Flight {
  f_key : K;
  f_ctx_cancelled : bool;
  f_done : bool;
  f_val : V;
  f_err : option Er;
  numWaiters : Z;
  f_pc : flight_pc;
}.

(** Where a caller of [Do] is, after its first critical section. *)
Inductive do_pc :=
| InSelect (f : nat)
| InLeave (f : nat)
| ReturnedFlight (f : nat) (val : V) (err : option Er)
| ReturnedCtx (val : V) (err : option ctx_error).

Record caller := Caller {
  c_key : K;
  c_ctx : option ctx_error;
  c_pc : do_pc;
}.

(** [flights] is the map guarded by [c.mu]; [heap] holds the flight objects
    the map and the callers point to; [callers] the calls of [Do]. *)
Record state := State {
  flights : gmap K nat;
  heap : gmap nat flight;
  callers : gmap nat caller;
  next : nat;
}.

Definition New : state := State ∅ ∅ ∅ 0%nat.

Definition set_flight (st : state) (f : nat) (F : flight) : state :=
  State (flights st) (<[f := F]> (heap st)) (callers st) (next st).

Definition set_caller (st : state) (t : nat) (c : caller) : state :=
  State (flights st) (heap st) (<[t := c]> (callers st)) (next st).

Definition with_pc (F : flight) (pc : flight_pc) : flight :=
  Flight (f_key F) (f_ctx_cancelled F) (f_done F) (f_val F) (f_err F) (numWaiters F) pc.

Definition with_waiters (F : flight) (n : Z) : flight :=
  Flight (f_key F) (f_ctx_cancelled F) (f_done F) (f_val F) (f_err F) n (f_pc F).

(** [f.cancel()] *)
Definition cancel (F : flight) : flight :=
  Flight (f_key F) true (f_done F) (f_val F) (f_err F) (numWaiters F) (f_pc F).

(** [start]: a new flight object, registered under its key, goroutine running. *)
Definition start (st : state) (key : K) : nat * state :=
  let f := next st in
  let F := Flight key false false zero None 0 FRunning in
  (f, State (<[key := f]> (flights st)) (<[f := F]> (heap st)) (callers st) (S f)).

(** The flight [Do] may join: registered, and its context not cancelled. *)
Definition joinable (st : state) (key : K) : option nat :=
  match flights st !! key with
  | Some f =>
      match heap st !! f with
      | Some F => if f_ctx_cancelled F then None else Some f
      | None => None
      end
  | None => None
  end.

(** The critical section of [Do]: join or start, then [f.numWaiters++]. *)
Definition Do_enter (st : state) (t : nat) (key : K) (ctx : option ctx_error) : state :=
  let '(f, st1) :=
    match joinable st key with
    | Some f => (f, st)
    | None => start st key
    end in
  match heap st1 !! f with
  | Some F =>
      set_caller (set_flight st1 f (with_waiters F (numWaiters F + 1)))
        t (Caller key ctx (InSelect f))
  | None => st1
  end.

(** [case <-f.done: return f.val, f.err] *)
Definition Do_done (st : state) (t : nat) (c : caller) (f : nat) (F : flight) : state :=
  set_caller st t (Caller (c_key c) (c_ctx c) (ReturnedFlight f (f_val F) (f_err F))).

(** [case <-ctx.Done():], before the call of [c.leave]. *)
Definition Do_ctx_done (st : state) (t : nat) (c : caller) (f : nat) : state :=
  set_caller st t (Caller (c_key c) (c_ctx c) (InLeave f)).

(** [leave] and [return zero, ctx.Err()]. *)
Definition leave (F : flight) : flight :=
  let F1 := with_waiters F (numWaiters F - 1) in
  if numWaiters F1 =? 0 then cancel F1 else F1.

Definition Do_leave (st : state) (t : nat) (c : caller) (f : nat) (F : flight) : state :=
  set_caller (set_flight st f (leave F)) t (Caller (c_key c) (c_ctx c) (ReturnedCtx zero (c_ctx c))).

(** [f.val, f.err = c.fn(fctx, key)] *)
Definition fn_returns (st : state) (f : nat) (F : flight) (v : V) (e : option Er) : state :=
  set_flight st f
    (Flight (f_key F) (f_ctx_cancelled F) (f_done F) v e (numWaiters F) FReturned).

(** [if c.flights[key] == f { delete(c.flights, key) }] *)
Definition unregister (st : state) (f : nat) (F : flight) : state :=
  let fl := if decide (flights st !! f_key F = Some f)
            then delete (f_key F) (flights st) else flights st in
  State fl (<[f := with_pc F FUnregistered]> (heap st)) (callers st) (next st).

(** [cancel()] at the end of the goroutine. *)
Definition cancel_ctx (st : state) (f : nat) (F : flight) : state :=
  set_flight st f (with_pc (cancel F) FCancelled).

(** [close(f.done)] *)
Definition close_done (st : state) (f : nat) (F : flight) : state :=
  set_flight st f
    (Flight (f_key F) (f_ctx_cancelled F) true (f_val F) (f_err F) (numWaiters F) FClosed).

Inductive step : relation state :=
| step_enter st t key ctx :
    callers st !! t = None →
    step st (Do_enter st t key ctx)
| step_ctx_ends st t c e :
    callers st !! t = Some c → c_ctx c = None →
    step st (set_caller st t (Caller (c_key c) (Some e) (c_pc c)))
| step_done st t c f F :
    callers st !! t = Some c → c_pc c = InSelect f → heap st !! f = Some F →
    f_done F = true →
    step st (Do_done st t c f F)
| step_ctx_done st t c f :
    callers st !! t = Some c → c_pc c = InSelect f → c_ctx c ≠ None →
    step st (Do_ctx_done st t c f)
| step_leave st t c f F :
    callers st !! t = Some c → c_pc c = InLeave f → heap st !! f = Some F →
    step st (Do_leave st t c f F)
| step_fn_returns st f F v e :
    heap st !! f = Some F → f_pc F = FRunning →
    step st (fn_returns st f F v e)
| step_unregister st f F :
    heap st !! f = Some F → f_pc F = FReturned →
    step st (unregister st f F)
| step_cancel st f F :
    heap st !! f = Some F → f_pc F = FUnregistered →
    step st (cancel_ctx st f F)
| step_close st f F :
    heap st !! f = Some F → f_pc F = FCancelled →
    step st (close_done st f F).

#[global] Instance coalesce_ts : TransitionSystem state := {|
  ts_init := λ st, st = New;
  ts_step := step;
|}.

(** ** Invariant *)

(** The flight a caller still counts for in [numWaiters]. *)
Definition counted (f : nat) (c : caller) : bool :=
  match c_pc c with
  | InSelect g | InLeave g | ReturnedFlight g _ _ => bool_decide (g = f)
  | ReturnedCtx _ _ => false
  end.

(** [FRunning] and [FReturned]: the goroutine has not entered its critical
    section yet. *)
Definition registered_pc (pc : flight_pc) : bool :=
  match pc with FRunning | FReturned => true | _ => false end.

(** The goroutine has not called [cancel] itself yet. *)
Definition uncancelled_pc (pc : flight_pc) : bool :=
  match pc with FRunning | FReturned | FUnregistered => true | _ => false end.

Definition flight_ok (st : state) (f : nat) (F : flight) : Prop :=
  (f < next st)%nat ∧
  numWaiters F = Z.of_nat (countP (counted f) (callers st)) ∧
  (if uncancelled_pc (f_pc F) then f_ctx_cancelled F = true ↔ numWaiters F = 0
   else f_ctx_cancelled F = true) ∧
  (f_done F = true ↔ f_pc F = FClosed) ∧
  (registered_pc (f_pc F) = true → f_ctx_cancelled F = false →
   flights st !! f_key F = Some f).

Definition caller_ok (st : state) (c : caller) : Prop :=
  match c_pc c with
  | InSelect f | InLeave f =>
      ∃ F, heap st !! f = Some F ∧ f_key F = c_key c
  | ReturnedFlight f v e =>
      ∃ F, heap st !! f = Some F ∧ f_key F = c_key c ∧ f_pc F = FClosed ∧
           f_val F = v ∧ f_err F = e
  | ReturnedCtx v e => v = zero ∧ e = c_ctx c ∧ e ≠ None
  end ∧
  match c_pc c with InLeave _ => c_ctx c ≠ None | _ => True end.

Record Inv (st : state) : Prop := {
  inv_registered : ∀ k f, flights st !! k = Some f →
    ∃ F, heap st !! f = Some F ∧ f_key F = k ∧ registered_pc (f_pc F) = true;
  inv_flight : ∀ f F, heap st !! f = Some F → flight_ok st f F;
  inv_caller : ∀ t c, callers st !! t = Some c → caller_ok st c;
}.
End Model.

Arguments flight : clear implicits.
Arguments caller : clear implicits.
Arguments state K {_ _} V Er.
Arguments New {K _ _ V Er}.

(** ** The invariant is inductive *)

Section Proofs.
Context {K : Type} `{Countable K} {V Er : Type} (zero : V).
#[local] Abbreviation flight := (flight K V Er).
#[local] Abbreviation caller := (caller K V Er).
#[local] Abbreviation state := (state K V Er).
#[local] Abbreviation Inv := (Inv zero).
#[local] Abbreviation caller_ok := (caller_ok zero).
Implicit Types (st : state) (F : flight) (c : caller).

Lemma numWaiters_nonneg st f F : flight_ok st f F → 0 ≤ numWaiters F.
Proof. intros (_ & -> & _). lia. Qed.

Lemma counted_set_caller st t c c' f :
  callers st !! t = Some c → counted f c' = counted f c →
  countP (counted f) (<[t:=c']> (callers st)) = countP (counted f) (callers st).
Proof.
  intros Ht Hc. pose proof (countP_update (counted f) _ t c c' Ht) as Hu.
  rewrite Hc in Hu. lia.
Qed.

Lemma flight_ok_callers st f F m :
  countP (counted f) m = countP (counted f) (callers st) →
  flight_ok st f F → flight_ok (State (flights st) (heap st) m (next st)) f F.
Proof. unfold flight_ok. simpl. intros ->. done. Qed.

(** A caller that keeps the flight it counts for moves freely. *)
Lemma Inv_set_caller st t c c' :
  Inv st → callers st !! t = Some c →
  (∀ f, counted f c' = counted f c) → caller_ok st c' → Inv (set_caller st t c').
Proof.
  intros [Hreg Hfl Hca] Ht Hcnt Hok. split; simpl.
  - done.
  - intros f F HF. apply flight_ok_callers; [|by apply Hfl].
    by eapply counted_set_caller.
  - intros t' d. rewrite lookup_insert. case_decide; [|by apply Hca].
    by intros [= <-].
Qed.

(** A caller keeps its state when the flights keep what it relies on. *)
Lemma caller_ok_heap st (h : gmap nat flight) m n fl c :
  (∀ f F, heap st !! f = Some F → ∃ F', h !! f = Some F' ∧ f_key F' = f_key F ∧
     (f_pc F = FClosed → f_pc F' = FClosed ∧ f_val F' = f_val F ∧ f_err F' = f_err F)) →
  caller_ok st c → caller_ok (State fl h m n) c.
Proof.
  intros Hh [Hpc Hctx]. split; [|done]. destruct (c_pc c) as [f|f|f v e|v e]; simpl in *.
  - destruct Hpc as (F & HF & <-). destruct (Hh f F HF) as (F' & ? & ? & _). eauto.
  - destruct Hpc as (F & HF & <-). destruct (Hh f F HF) as (F' & ? & ? & _). eauto.
  - destruct Hpc as (F & HF & <- & Hcl & <- & <-).
    destruct (Hh f F HF) as (F' & ? & ? & Hrest). destruct (Hrest Hcl) as (? & ? & ?).
    eauto 10.
  - done.
Qed.

Lemma heap_insert_kept st f F F' :
  heap st !! f = Some F → f_key F' = f_key F →
  (f_pc F = FClosed → f_pc F' = FClosed ∧ f_val F' = f_val F ∧ f_err F' = f_err F) →
  ∀ g G, heap st !! g = Some G → ∃ G', <[f:=F']> (heap st) !! g = Some G' ∧
    f_key G' = f_key G ∧
    (f_pc G = FClosed → f_pc G' = FClosed ∧ f_val G' = f_val G ∧ f_err G' = f_err G).
Proof.
  intros HF Hk Hcl g G HG. destruct (decide (f = g)) as [<-|Hne].
  - rewrite HF in HG. injection HG as <-. exists F'. by rewrite lookup_insert_eq.
  - exists G. rewrite lookup_insert_ne by done. done.
Qed.

(** The flight goroutine moves without touching the map. *)
Lemma Inv_set_flight st f F F' :
  Inv st → heap st !! f = Some F → flight_ok st f F' → f_key F' = f_key F →
  (registered_pc (f_pc F) = true → flights st !! f_key F = Some f →
   registered_pc (f_pc F') = true) →
  (f_pc F = FClosed → f_pc F' = FClosed ∧ f_val F' = f_val F ∧ f_err F' = f_err F) →
  Inv (set_flight st f F').
Proof.
  intros [Hreg Hfl Hca] HF Hok Hk Hrp Hcl. split; simpl.
  - intros k g Hg. destruct (Hreg k g Hg) as (G & HG & HkG & HpG).
    rewrite lookup_insert. case_decide as Hfg; [subst g|by eauto].
    rewrite HF in HG. injection HG as <-. exists F'. split_and!; [done|congruence|].
    apply Hrp; [done|by rewrite HkG].
  - intros g G. rewrite lookup_insert. case_decide as Hfg; [subst g|by apply Hfl].
    by intros [= <-].
  - intros t c Hc. eapply caller_ok_heap; [|by apply (Hca t)].
    by eapply heap_insert_kept.
Qed.

Lemma Inv_New : Inv (New : state).
Proof. split; simpl; [intros k f|intros f F|intros t c]; by rewrite lookup_empty. Qed.

(** *** The flight goroutine *)

Lemma Inv_fn_returns st f F v e :
  Inv st → heap st !! f = Some F → f_pc F = FRunning → Inv (fn_returns st f F v e).
Proof.
  intros HI HF Hpc. pose proof (inv_flight _ _ HI f F HF) as Hok.
  eapply Inv_set_flight; eauto; [|by rewrite Hpc].
  revert Hok. unfold flight_ok. rewrite Hpc. simpl.
  intros (? & ? & ? & Hd & ?). split_and!; try done. split; [|done].
  intros Ht. by apply Hd in Ht.
Qed.

Lemma Inv_cancel_ctx st f F :
  Inv st → heap st !! f = Some F → f_pc F = FUnregistered → Inv (cancel_ctx st f F).
Proof.
  intros HI HF Hpc. pose proof (inv_flight _ _ HI f F HF) as Hok.
  eapply Inv_set_flight; eauto; rewrite ?Hpc; try done.
  revert Hok. unfold flight_ok. rewrite Hpc. simpl.
  intros (? & ? & ? & Hd & ?). split_and!; try done. split; [|done].
  intros Ht. by apply Hd in Ht.
Qed.

Lemma Inv_close_done st f F :
  Inv st → heap st !! f = Some F → f_pc F = FCancelled → Inv (close_done st f F).
Proof.
  intros HI HF Hpc. pose proof (inv_flight _ _ HI f F HF) as Hok.
  eapply Inv_set_flight; eauto; rewrite ?Hpc; try done.
  revert Hok. unfold flight_ok. rewrite Hpc. simpl.
  intros (? & ? & ? & Hd & ?). split_and!; done.
Qed.

Lemma Inv_unregister st f F :
  Inv st → heap st !! f = Some F → f_pc F = FReturned → Inv (unregister st f F).
Proof.
  intros HI HF Hpc. destruct HI as [Hreg Hfl Hca].
  pose proof (Hfl f F HF) as HokF.
  assert (Hfl' : ∀ k g, (if decide (flights st !! f_key F = Some f)
      then delete (f_key F) (flights st) else flights st) !! k = Some g →
      flights st !! k = Some g ∧ g ≠ f).
  { intros k g. case_decide as Hd; intros Hg.
    - rewrite lookup_delete_Some in Hg. destruct Hg as [Hne Hg]. split; [done|].
      intros ->. destruct (Hreg k f Hg) as (F0 & HF0 & Hk & _). congruence.
    - split; [done|]. intros ->.
      destruct (Hreg k f Hg) as (F0 & HF0 & Hk & _). congruence. }
  split; simpl.
  - intros k g Hg. apply Hfl' in Hg as [Hg Hne].
    rewrite lookup_insert_ne by done. by apply Hreg.
  - intros g G. lookup_case Hfg.
    + intros [= <-]. revert HokF. unfold flight_ok. rewrite Hpc. simpl.
      intros (? & ? & ? & Hd & ?). split_and!; try done. split; [|done].
      intros Ht. by apply Hd in Ht.
    + intros HG. destruct (Hfl g G HG) as (? & ? & ? & ? & Hlast).
      unfold flight_ok. simpl. split_and!; try done. intros Hp Hc.
      specialize (Hlast Hp Hc). case_decide as Hd; [|done].
      rewrite lookup_delete_ne; [done|]. intros Heq. rewrite Heq in Hd. congruence.
  - intros t c Hc. eapply caller_ok_heap; [|by apply (Hca t)].
    apply heap_insert_kept with F; [done|done|by rewrite Hpc].
Qed.

(** *** The critical sections of the callers *)

Lemma Inv_leave st t c f F :
  Inv st → callers st !! t = Some c → c_pc c = InLeave f → heap st !! f = Some F →
  Inv (Do_leave zero st t c f F).
Proof.
  intros [Hreg Hfl Hca] Ht Hpc HF. unfold Do_leave.
  pose proof (Hfl f F HF) as (Hn & Hw & Hcan & Hd & Hr).
  pose proof (Hca t c Ht) as [_ Hctx]. rewrite Hpc in Hctx.
  set (c' := Caller (c_key c) (c_ctx c) (ReturnedCtx zero (c_ctx c))).
  assert (Hcnt : ∀ g, Z.of_nat (countP (counted g) (<[t:=c']> (callers st))) =
    Z.of_nat (countP (counted g) (callers st)) - (if decide (f = g) then 1 else 0)).
  { intros g. pose proof (countP_update (counted g) _ t c c' Ht) as Hu.
    assert (counted g c = bool_decide (f = g)) as Hc1 by (unfold counted; by rewrite Hpc).
    assert (counted g c' = false) as Hc2 by done. rewrite Hc1, Hc2 in Hu.
    destruct (decide (f = g)); [rewrite bool_decide_true in Hu by done
      |rewrite bool_decide_false in Hu by done]; lia. }
  assert (Hlk : f_key (leave F) = f_key F ∧ f_pc (leave F) = f_pc F ∧
    f_val (leave F) = f_val F ∧ f_err (leave F) = f_err F ∧ f_done (leave F) = f_done F ∧
    numWaiters (leave F) = numWaiters F - 1 ∧
    (f_ctx_cancelled (leave F) = true ↔ f_ctx_cancelled F = true ∨ numWaiters F - 1 = 0)).
  { unfold leave. simpl. destruct (Z.eqb_spec (numWaiters F - 1) 0) as [E|E]; simpl.
    all: split_and!; try done; intuition congruence. }
  destruct Hlk as (Hlk & Hlp & Hlv & Hle & Hld & Hlw & Hlc).
  split; simpl.
  - intros k g Hg. destruct (Hreg k g Hg) as (G & HG & HkG & HpG).
    lookup_case Hfg; [|by eauto].
    rewrite HF in HG. injection HG as <-. exists (leave F). rewrite Hlp. eauto with congruence.
  - intros g G. lookup_case Hfg.
    + intros [= <-]. unfold flight_ok. simpl.
      rewrite Hlk, Hlp, Hld, Hlw, Hcnt, decide_True by done.
      split_and!; try done; [lia| |].
      * pose proof (countP_pos (counted g) _ t c Ht) as Hpos.
        assert (counted g c = true) as Hc1.
        { unfold counted. rewrite Hpc. by apply bool_decide_true. }
        specialize (Hpos Hc1). destruct (uncancelled_pc (f_pc F)).
        -- rewrite Hlc, Hcan. lia.
        -- apply Hlc. by left.
      * intros Hp Hc. apply Hr; [done|].
        destruct (f_ctx_cancelled F) eqn:Hfc; [|done].
        assert (f_ctx_cancelled (leave F) = true) by (apply Hlc; by left). congruence.
    + intros HG. destruct (Hfl g G HG) as (? & Hwg & ? & ? & ?).
      unfold flight_ok. simpl. rewrite Hcnt, decide_False, Z.sub_0_r by done.
      split_and!; done.
  - intros t' d. lookup_case Htt.
    + intros [= <-]. split; simpl; done.
    + intros Hd'. eapply caller_ok_heap; [|by apply (Hca t')].
      apply heap_insert_kept with F; [done|done|]. by rewrite Hlp, Hlv, Hle.
Qed.

(** The flight a caller joins: the registered live one, or a fresh one. *)
Lemma joinable_spec st key f :
  joinable st key = Some f ↔
  flights st !! key = Some f ∧ ∃ F, heap st !! f = Some F ∧ f_ctx_cancelled F = false.
Proof.
  unfold joinable. split.
  - destruct (flights st !! key) as [g|]; [|done].
    destruct (heap st !! g) as [G|] eqn:HG; [|done].
    destruct (f_ctx_cancelled G) eqn:?; intros [= ->]. eauto.
  - intros [-> (F & -> & ->)]. done.
Qed.

(** Starting a flight, before the caller is counted: everything holds except
    that the new flight has no waiter and is not cancelled yet. *)
Lemma start_flight_ok st key g G :
  Inv st → joinable st key = None →
  heap (start zero st key).2 !! g = Some G → g ≠ next st →
  flight_ok (start zero st key).2 g G.
Proof.
  intros [Hreg Hfl Hca] Hj. simpl. intros HG Hne. rewrite lookup_insert_ne in HG by done.
  destruct (Hfl g G HG) as (? & ? & ? & ? & Hr). unfold flight_ok. simpl.
  split_and!; try done; [lia|]. intros Hp Hc. specialize (Hr Hp Hc).
  rewrite lookup_insert_ne; [done|]. intros ->.
  assert (joinable st (f_key G) = Some g) as Hj' by (apply joinable_spec; eauto). congruence.
Qed.

(** Counting a new caller for the registered, live flight [f]. *)
Lemma Inv_add_waiter st t key ctx f F :
  (∀ k g, flights st !! k = Some g →
    ∃ G, heap st !! g = Some G ∧ f_key G = k ∧ registered_pc (f_pc G) = true) →
  (∀ g G, heap st !! g = Some G → g ≠ f → flight_ok st g G) →
  (∀ t c, callers st !! t = Some c → caller_ok st c) →
  callers st !! t = None → heap st !! f = Some F →
  (f < next st)%nat → f_key F = key → flights st !! key = Some f →
  f_ctx_cancelled F = false → f_done F = false → registered_pc (f_pc F) = true →
  numWaiters F = Z.of_nat (countP (counted f) (callers st)) →
  Inv (set_caller (set_flight st f (with_waiters F (numWaiters F + 1)))
         t (Caller key ctx (InSelect f))).
Proof.
  intros Hreg Hfl Hca Ht HF Hlt Hk Hkey Hcan Hdone Hpc Hw.
  set (c' := Caller key ctx (InSelect f)).
  assert (Hc : ∀ g, counted g c' = bool_decide (f = g)) by done.
  split; simpl.
  - intros k g Hg. destruct (Hreg k g Hg) as (G & HG & HkG & HpG).
    lookup_case Hfg; [|by eauto].
    rewrite HF in HG. injection HG as <-. eauto.
  - intros g G. destruct (decide (g = f)) as [->|Hne].
    + rewrite lookup_insert_eq. intros [= <-]. unfold flight_ok. simpl.
      rewrite countP_insert_None, Hc, bool_decide_true by done.
      split_and!; [done|lia| | |congruence].
      * rewrite Hcan. destruct (f_pc F); try done; simpl; split; try done; lia.
      * rewrite Hdone. split; [done|]. intros Hx. by rewrite Hx in Hpc.
    + rewrite lookup_insert_ne by done. intros HG.
      destruct (Hfl g G HG Hne) as (? & Hwg & ? & ? & ?).
      unfold flight_ok. simpl. rewrite countP_insert_None, Hc, bool_decide_false by congruence.
      split_and!; done.
  - intros t' d. lookup_case Htt.
    + intros [= <-]. split; [|done]. simpl. rewrite lookup_insert_eq. eauto.
    + intros Hd'. eapply caller_ok_heap; [|by apply (Hca t')].
      by apply heap_insert_kept with F.
Qed.

Lemma Inv_Do_enter st t key ctx :
  Inv st → callers st !! t = None → Inv (Do_enter zero st t key ctx).
Proof.
  intros HI Ht. unfold Do_enter. destruct (joinable st key) as [f|] eqn:Hj.
  - apply joinable_spec in Hj as (Hkey & F & HF & Hcan). rewrite HF.
    destruct (inv_registered _ _ HI key f Hkey) as (F0 & HF0 & Hk & Hpc).
    rewrite HF in HF0. injection HF0 as <-.
    destruct (inv_flight _ _ HI f F HF) as (Hlt & Hw & _ & Hd & _).
    apply Inv_add_waiter; try done; [by apply HI| |by apply HI|].
    + intros g G HG _. by apply HI.
    + destruct (f_done F); [|done]. rewrite (proj1 Hd) in Hpc; done.
  - unfold start. simpl. rewrite lookup_insert_eq.
    assert (Hnew : heap st !! next st = None).
    { destruct (heap st !! next st) as [F|] eqn:HF; [|done].
      destruct (inv_flight _ _ HI _ _ HF) as [? _]. lia. }
    set (F := Flight key false false zero None 0 FRunning).
    set (st1 := State (<[key:=next st]> (flights st)) (<[next st:=F]> (heap st))
                  (callers st) (S (next st))).
    change (Inv (set_caller (set_flight st1 (next st) (with_waiters F (numWaiters F + 1)))
                   t (Caller key ctx (InSelect (next st))))).
    apply Inv_add_waiter; unfold st1; simpl; try done.
    + intros k g. lookup_case Hk.
      * intros [= <-]. exists F. by rewrite lookup_insert_eq.
      * intros Hg. destruct (inv_registered _ _ HI k g Hg) as (G & HG & ? & ?).
        exists G. rewrite lookup_insert_ne by congruence. done.
    + intros g G HG Hne. by apply (start_flight_ok st key g G HI Hj).
    + intros t' c Hc. eapply caller_ok_heap; [|by apply (inv_caller _ _ HI t')].
      intros g G HG. exists G. rewrite lookup_insert_ne by congruence. done.
    + by rewrite lookup_insert_eq.
    + lia.
    + by rewrite lookup_insert_eq.
    + symmetry. apply (Nat2Z.inj_iff _ 0), countP_zero. intros t' c Hc.
      destruct (inv_caller _ _ HI t' c Hc) as [Hpc _].
      unfold counted. destruct (c_pc c) as [g|g|g v e|v e]; try done.
      all: apply bool_decide_false; intros ->; destruct Hpc as (G & HG & _); congruence.
Qed.

Lemma coalesce_Inv_step st st' : Inv st → step zero st st' → Inv st'.
Proof.
  intros HI Hs. destruct Hs as [st t key ctx|st t c e Ht Hn|st t c f F Ht Hpc HF Hd
    |st t c f Ht Hpc Hc|st t c f F Ht Hpc HF|st f F v e HF Hpc|st f F HF Hpc|st f F HF Hpc
    |st f F HF Hpc].
  - by apply Inv_Do_enter.
  - eapply Inv_set_caller; eauto.
    destruct (inv_caller _ _ HI t c Ht) as [Hp Hx]. split; simpl.
    + destruct (c_pc c) as [g|g|g v e'|v e']; try done.
      destruct Hp as (-> & -> & Hne). congruence.
    + by destruct (c_pc c).
  - eapply Inv_set_caller; eauto.
    + intros g. unfold counted. by rewrite Hpc.
    + destruct (inv_caller _ _ HI t c Ht) as [Hp _]. rewrite Hpc in Hp.
      destruct Hp as (F0 & HF0 & Hk). rewrite HF in HF0. injection HF0 as <-.
      destruct (inv_flight _ _ HI f F HF) as (_ & _ & _ & Hdone & _).
      split; simpl; [|done]. exists F. apply Hdone in Hd. done.
  - eapply Inv_set_caller; eauto.
    + intros g. unfold counted. by rewrite Hpc.
    + destruct (inv_caller _ _ HI t c Ht) as [Hp _]. rewrite Hpc in Hp. by split.
  - by apply Inv_leave.
  - by apply Inv_fn_returns.
  - by apply Inv_unregister.
  - by apply Inv_cancel_ctx.
  - by apply Inv_close_done.
Qed.

Lemma coalesce_Inv_reachable st :
  @reachable state (coalesce_ts zero) st → Inv st.
Proof.
  apply invariant_reachable. split.
  - intros s ->. apply Inv_New.
  - apply coalesce_Inv_step.
Qed.
End Proofs.

(** ** Properties *)

Section Properties.
Context {K : Type} `{Countable K} {V Er : Type} (zero : V).
#[local] Abbreviation state := (state K V Er).
#[local] Existing Instance coalesce_ts.
#[local] Abbreviation reach st := (@reachable state (coalesce_ts zero) st).

(** The caller is inside [Do], attached to flight [f]. *)
Definition waits_on (f : nat) (c : caller K V Er) : Prop :=
  c_pc c = InSelect f ∨ c_pc c = InLeave f.

Lemma waits_on_counted f c : waits_on f c → counted f c = true.
Proof. unfold waits_on, counted. intros [-> | ->]; by apply bool_decide_true. Qed.

Lemma counted_running (st : state) f F t c :
  Inv zero st → heap st !! f = Some F → f_pc F ≠ FClosed → callers st !! t = Some c →
  counted f c = true → waits_on f c.
Proof.
  intros HI HF Hpc Ht. destruct (inv_caller _ _ HI t c Ht) as [Hp _].
  unfold counted, waits_on. destruct (c_pc c) as [g|g|g v e|v e] eqn:E; try done.
  - intros ->%bool_decide_eq_true. by left.
  - intros ->%bool_decide_eq_true. by right.
  - intros ->%bool_decide_eq_true. destruct Hp as (G & HG & _ & Hcl & _). congruence.
Qed.

(** An execution is cancelled exactly when every caller that was waiting
    for it has given up: while [fn] runs, the flight's context is cancelled
    if and only if no call of [Do] is attached to the flight.  In particular
    [fn] is never cancelled under a caller that still waits for it. *)
Theorem flight_cancelled_iff_abandoned (st : state) f F :
  reach st → heap st !! f = Some F → f_pc F = FRunning →
  (f_ctx_cancelled F = true ↔
   ∀ t c, callers st !! t = Some c → ¬ waits_on f c).
Proof.
  intros Hr HF Hpc. pose proof (coalesce_Inv_reachable zero st Hr) as HI.
  destruct (inv_flight _ _ HI f F HF) as (_ & Hw & Hcan & _). rewrite Hpc in Hcan.
  simpl in Hcan. rewrite Hcan, Hw. rewrite (Nat2Z.inj_iff _ 0), countP_zero. split.
  - intros Hall t c Ht Hwt. apply waits_on_counted in Hwt. specialize (Hall t c Ht). congruence.
  - intros Hall t c Ht. destruct (counted f c) eqn:Hc; [|done].
    destruct (Hall t c Ht). eapply counted_running; eauto. by rewrite Hpc.
Qed.

(** At most one live execution per key: two flights of the same key
    whose goroutines have not unregistered and whose contexts are not
    cancelled are the same flight. *)
Theorem one_live_flight_per_key (st : state) f F g G :
  reach st → heap st !! f = Some F → heap st !! g = Some G → f_key F = f_key G →
  registered_pc (f_pc F) = true → registered_pc (f_pc G) = true →
  f_ctx_cancelled F = false → f_ctx_cancelled G = false → f = g.
Proof.
  intros Hr HF HG Hk Hpf Hpg Hcf Hcg. pose proof (coalesce_Inv_reachable zero st Hr) as HI.
  destruct (inv_flight _ _ HI f F HF) as (_ & _ & _ & _ & H1).
  destruct (inv_flight _ _ HI g G HG) as (_ & _ & _ & _ & H2).
  specialize (H1 Hpf Hcf). specialize (H2 Hpg Hcg). congruence.
Qed.

(** Callers share results: two calls of [Do] that returned through the
    same flight asked for the same key and got the same value and error,
    the ones [fn] returned for that key. *)
Theorem flight_result_shared (st : state) t1 c1 t2 c2 f v1 e1 v2 e2 :
  reach st → callers st !! t1 = Some c1 → callers st !! t2 = Some c2 →
  c_pc c1 = ReturnedFlight f v1 e1 → c_pc c2 = ReturnedFlight f v2 e2 →
  c_key c1 = c_key c2 ∧ v1 = v2 ∧ e1 = e2 ∧
  ∃ F, heap st !! f = Some F ∧ f_key F = c_key c1 ∧ f_pc F = FClosed ∧
       f_val F = v1 ∧ f_err F = e1.
Proof.
  intros Hr H1 H2 Hp1 Hp2. pose proof (coalesce_Inv_reachable zero st Hr) as HI.
  destruct (inv_caller _ _ HI t1 c1 H1) as [Ha _]. rewrite Hp1 in Ha.
  destruct (inv_caller _ _ HI t2 c2 H2) as [Hb _]. rewrite Hp2 in Hb.
  destruct Ha as (F & HF & Hk & Hcl & <- & <-). destruct Hb as (G & HG & Hk' & _ & <- & <-).
  rewrite HF in HG. injection HG as <-. split_and!; [congruence|done..|eauto 10].
Qed.

(** From [st], the goroutine of [f] alone can close [f.done], keeping the
    callers and the result. *)
Definition can_close (f : nat) (st : state) (F : flight K V Er) : Prop :=
  ∃ st' F', rtc (step zero) st st' ∧ heap st' !! f = Some F' ∧ f_done F' = true ∧
    callers st' = callers st ∧ f_val F' = f_val F ∧ f_err F' = f_err F.

Lemma can_close_step f (st st1 : state) F F1 :
  step zero st st1 → heap st1 !! f = Some F1 → callers st1 = callers st →
  f_val F1 = f_val F → f_err F1 = f_err F → can_close f st1 F1 → can_close f st F.
Proof.
  intros Hs HF1 Hc Hv He (st' & F' & Hr & ? & ? & ? & ? & ?).
  exists st', F'. split_and!; try congruence. by eapply rtc_l.
Qed.

Lemma flight_closes (st : state) f F :
  heap st !! f = Some F → f_pc F ≠ FRunning →
  (f_pc F = FClosed → f_done F = true) → can_close f st F.
Proof.
  intros HF Hpc Hcl.
  assert (Hc : ∀ st F, heap st !! f = Some F → f_pc F = FCancelled → can_close f st F).
  { clear. intros st F HF Hpc.
    eapply can_close_step with (st1 := close_done st f F);
      [by apply step_close|by simpl; rewrite lookup_insert_eq|done|done|done|].
    eexists _, _. split_and!; [apply rtc_refl|by simpl; rewrite lookup_insert_eq|done..]. }
  assert (Hu : ∀ st F, heap st !! f = Some F → f_pc F = FUnregistered → can_close f st F).
  { clear -Hc. intros st F HF Hpc.
    eapply can_close_step with (st1 := cancel_ctx st f F);
      [by apply step_cancel|by simpl; rewrite lookup_insert_eq|done|done|done|].
    apply Hc; [by simpl; rewrite lookup_insert_eq|done]. }
  destruct (f_pc F) eqn:E; [done| |by apply Hu|by apply Hc|].
  - eapply can_close_step with (st1 := unregister st f F);
      [by apply step_unregister|by simpl; rewrite lookup_insert_eq|done|done|done|].
    apply Hu; [by simpl; rewrite lookup_insert_eq|done].
  - exists st, F. split_and!; auto. apply rtc_refl.
Qed.

(** No caller is stranded: once [fn] has returned, the flight goroutine
    alone can run to completion from any reachable state and a caller
    waiting in the [select] then returns exactly [fn]'s value and error. *)
Theorem waiting_caller_gets_result (st : state) t c f F :
  reach st → callers st !! t = Some c → c_pc c = InSelect f →
  heap st !! f = Some F → f_pc F ≠ FRunning →
  ∃ st', rtc (step zero) st st' ∧
    callers st' !! t =
      Some (Caller (c_key c) (c_ctx c) (ReturnedFlight f (f_val F) (f_err F))).
Proof.
  intros Hr Ht Hpc HF Hrun. pose proof (coalesce_Inv_reachable zero st Hr) as HI.
  destruct (inv_flight _ _ HI f F HF) as (_ & _ & _ & Hd & _).
  destruct (flight_closes st f F HF Hrun) as (st' & F' & Hsteps & HF' & Hdone & Hcs & <- & <-).
  { apply Hd. }
  exists (Do_done st' t c f F'). split.
  - eapply rtc_r; [done|]. apply step_done; try done. by rewrite Hcs.
  - simpl. by rewrite lookup_insert_eq.
Qed.
End Properties.

(** ** Witnesses: two callers of one key, and the second one gives up *)

Module Witness.
#[local] Existing Instance coalesce_ts.
Definition s1 : state nat nat unit := Do_enter 0%nat New 0 7%nat None.
Definition s2 : state nat nat unit := Do_enter 0%nat s1 1 7%nat (Some Canceled).
Definition F2 : flight nat nat unit := Flight 7%nat false false 0%nat None 2 FRunning.
Definition s3 : state nat nat unit := fn_returns s2 0 F2 42%nat None.
Definition F3 : flight nat nat unit := Flight 7%nat false false 42%nat None 2 FReturned.
Definition s4 := unregister s3 0 F3.
Definition s5 := cancel_ctx s4 0 (with_pc F3 FUnregistered).
Definition s6 := close_done s5 0 (with_pc (cancel F3) FCancelled).
Definition F6 : flight nat nat unit := Flight 7%nat true true 42%nat None 2 FClosed.
Definition s7 := Do_done s6 0 (Caller 7%nat None (InSelect 0)) 0 F6.
Definition s8 := Do_done s7 1 (Caller 7%nat (Some Canceled) (InSelect 0)) 0 F6.

#[local] Abbreviation reach st := (@reachable _ (coalesce_ts 0%nat) st).

Lemma reach_s2 : reach s2.
Proof.
  exists New. split; [done|].
  eapply rtc_l; [by apply (step_enter _ New 0 7%nat None)|].
  apply rtc_once. by apply (step_enter _ s1 1 7%nat (Some Canceled)).
Qed.

Lemma reach_s3 : reach s3.
Proof. eapply reachable_step; [apply reach_s2|]. by apply step_fn_returns. Qed.

Lemma reach_s8 : reach s8.
Proof.
  assert (reach s6) as H6.
  { eapply reachable_rtc; [apply reach_s3|].
    eapply rtc_l; [by apply (step_unregister _ s3 0 F3)|].
    eapply rtc_l; [by apply (step_cancel _ s4 0 (with_pc F3 FUnregistered))|].
    apply rtc_once. by apply (step_close _ s5 0 (with_pc (cancel F3) FCancelled)). }
  eapply reachable_rtc; [apply H6|].
  eapply rtc_l; [by apply (step_done _ s6 0 (Caller 7%nat None (InSelect 0)) 0 F6)|].
  apply rtc_once. by apply (step_done _ s7 1 (Caller 7%nat (Some Canceled) (InSelect 0)) 0 F6).
Qed.

Lemma flight_cancelled_iff_abandoned_witness :
  ¬ (∀ t c, callers s2 !! t = Some c → ¬ waits_on 0 c).
Proof.
  intros Hall.
  pose proof (proj2 (flight_cancelled_iff_abandoned 0%nat s2 0 F2 reach_s2 eq_refl eq_refl) Hall).
  discriminate.
Defined.

Lemma one_live_flight_per_key_witness : 0%nat = 0%nat ∧ f_key F2 = 7%nat.
Proof.
  split; [|reflexivity].
  apply (one_live_flight_per_key 0%nat s2 0 F2 0 F2 reach_s2); reflexivity.
Defined.

Lemma flight_result_shared_witness : 42%nat = 42%nat ∧ (None : option unit) = None.
Proof.
  destruct (flight_result_shared 0%nat s8 0
    (Caller 7%nat None (ReturnedFlight 0 42%nat None)) 1
    (Caller 7%nat (Some Canceled) (ReturnedFlight 0 42%nat None)) 0 42%nat None 42%nat None
    reach_s8 eq_refl eq_refl eq_refl eq_refl) as (_ & Hv & He & _).
  exact (conj Hv He).
Defined.

Lemma waiting_caller_gets_result_witness :
  ∃ st', rtc (step 0%nat) s3 st' ∧
    callers st' !! 0%nat = Some (Caller 7%nat None (ReturnedFlight 0 42%nat None)).
Proof.
  apply (waiting_caller_gets_result 0%nat s3 0 (Caller 7%nat None (InSelect 0)) 0 F3 reach_s3);
    [reflexivity|reflexivity|reflexivity|discriminate].
Defined.
End Witness.
