(* ===== verification/OrgStatusStore.v ===== *)
(** * Organization statuses: the table and its leases

    The [organization_statuses] functions of
    [services/projects/store/sqlstore/store_sql.go] as operations on a finite
    map from organization to row, and the system of concurrent workers of
    [services/projects/orgstatus] that claim, sync and record.  Times and
    durations are nanoseconds; each SQL statement is one atomic operation. *)

From S2P Require Import Prelude.

#[local] Open Scope Z_scope.

(** ** Data and operations *)

(** [store.OrganizationStatus], a row of [organization_statuses]. *)
Record OrganizationStatus := mkOrgStatus {
  OrganizationID : string;
  Disabled : bool;
  Version : Z;
  UpdatedAt : Z;
  SyncedAt : option Z;
  Attempts : Z;
  NextRetryAt : Z;
  LastError : string;
  LeaseUntil : option Z;
}.

Abbreviation table := (gmap string OrganizationStatus).

Definition UpsertOrganizationStatus (now : Z) (organizationID : string) (disabled : bool)
    (t : table) : OrganizationStatus * table :=
  let row :=
    match t !! organizationID with
    | None => mkOrgStatus organizationID disabled 1 now None 0 now "" None
    | Some r =>
        mkOrgStatus organizationID disabled
          (Version r + (if Bool.eqb (Disabled r) disabled then 0 else 1))
          now None 0 now "" (LeaseUntil r)
    end in
  (row, <[organizationID := row]> t).

(** The [WHERE] clause of the claim. *)
Definition due (now : Z) (r : OrganizationStatus) : bool :=
  bool_decide (SyncedAt r = None) && (NextRetryAt r <=? now) &&
  match LeaseUntil r with None => true | Some l => l <=? now end.

(** [ORDER BY updated_at LIMIT 1] *)
Fixpoint oldest (rs : list (string * OrganizationStatus)) : option (string * OrganizationStatus) :=
  match rs with
  | [] => None
  | (k, r) :: rs =>
      match oldest rs with
      | Some (k', r') => if UpdatedAt r' <? UpdatedAt r then Some (k', r') else Some (k, r)
      | None => Some (k, r)
      end
  end.

(** The interval is written in milliseconds. *)
Definition lease_interval (leaseFor : Z) : Z := Z.quot leaseFor 1000000 * 1000000.

(** [locked] are the rows other transactions hold at this instant. *)
Definition ClaimOrganizationStatusForSync (locked : string → bool) (now leaseFor : Z) (t : table)
    : option OrganizationStatus * table :=
  match oldest (filter (λ kr, due now kr.2 && negb (locked kr.1) = true) (map_to_list t)) with
  | None => (None, t)
  | Some (k, r) =>
      let r' := mkOrgStatus (OrganizationID r) (Disabled r) (Version r) (UpdatedAt r) (SyncedAt r)
                  (Attempts r + 1) (NextRetryAt r) (LastError r)
                  (Some (now + lease_interval leaseFor)) in
      (Some r', <[k := r']> t)
  end.

Definition MarkOrganizationStatusSynced (organizationID : string) (version now : Z) (t : table)
    : bool * table :=
  match t !! organizationID with
  | None => (false, t)
  | Some r =>
      let same := Version r =? version in
      (same, <[organizationID :=
         mkOrgStatus (OrganizationID r) (Disabled r) (Version r) (UpdatedAt r)
           (if same then Some now else SyncedAt r)
           (if same then 0 else Attempts r) (NextRetryAt r)
           (if same then "" else LastError r) None]> t)
  end.

Definition MarkOrganizationStatusFailed (organizationID : string) (version : Z) (reason : string)
    (nextRetryAt : Z) (t : table) : table :=
  match t !! organizationID with
  | None => t
  | Some r =>
      let same := Version r =? version in
      <[organizationID :=
         mkOrgStatus (OrganizationID r) (Disabled r) (Version r) (UpdatedAt r) (SyncedAt r)
           (Attempts r) (if same then nextRetryAt else NextRetryAt r)
           (if same then reason else LastError r) None]> t
  end.

Definition DeleteOrganizationStatus (organizationID : string) (t : table) : table :=
  delete organizationID t.

(** The number of unsynced rows and the least [updated_at]; no row gives the
    zero time. *)
Definition CountUnsyncedOrganizationStatuses (zero : Z) (t : table) : Z * Z :=
  let rows := filter (λ kr : string * OrganizationStatus, SyncedAt kr.2 = None) (map_to_list t) in
  (Z.of_nat (length rows),
   match oldest rows with Some (_, r) => UpdatedAt r | None => zero end).

(** ** Configuration and retry schedule of the worker *)

Definition Second : Z := 1000000000.
Definition Minute : Z := 60 * Second.

Definition DefaultPollInterval : Z := 30 * Second.
Definition DefaultSyncTimeout : Z := 10 * Minute.
Definition DefaultLease : Z := 15 * Minute.
Definition DefaultMaxBackoff : Z := 10 * Minute.
Definition bookkeepingTimeout : Z := 5 * Second.

Record Config := mkConfig {
  PollInterval : Z;
  SyncTimeout : Z;
  Lease : Z;
  MaxBackoff : Z;
}.

Definition withDefaults (c : Config) : Config :=
  let pollInterval := if PollInterval c <=? 0 then DefaultPollInterval else PollInterval c in
  let syncTimeout := if SyncTimeout c <=? 0 then DefaultSyncTimeout else SyncTimeout c in
  let lease := if Lease c <=? 0 then DefaultLease else Lease c in
  let maxBackoff := if MaxBackoff c <=? 0 then DefaultMaxBackoff else MaxBackoff c in
  mkConfig pollInterval syncTimeout (if lease <? syncTimeout then syncTimeout else lease) maxBackoff.

Definition wrap64 (z : Z) : Z := (z + 2^63) mod 2^64 - 2^63.

(** [time.Duration(1<<min(attempts-1, 20)) * time.Second], on 64-bit integers. *)
Definition backoff (cfg : Config) (attempts : Z) : Z :=
  let attempts := if attempts <? 1 then 1 else attempts in
  Z.min (wrap64 (wrap64 (Z.shiftl 1 (Z.min (attempts - 1) 20)) * Second)) (MaxBackoff cfg).

(** ** Concurrent workers

    The workers of all replicas share the table and a clock.  A worker that
    claimed a row fans out for at most [SyncTimeout], the deadline of its
    context; it then records the outcome within [bookkeepingTimeout], or never
    (a crash, a failed write).  Clients upsert statuses, and
    [DeleteProjectsInOrg] of [services/projects/rpc/projects.go] deletes the
    status of an organization, at any time.  [fleet] says which state the
    organization's branches are known to be in: a running or failed fan-out
    leaves it unknown.  [recreated] is history: the organizations whose status
    was deleted and then inserted anew while a worker was still on the old
    one. *)

Inductive phase :=
| Syncing
| Recording (ended : Z) (ok : bool).

Record worker := mkWorker {
  w_claim : OrganizationStatus;
  w_started : Z;
  w_phase : phase;
}.

Record state := mkState {
  clock : Z;
  rows : table;
  workers : gmap nat worker;
  fleet : gmap string bool;
  recreated : gset string;
}.

Definition deadline (cfg : Config) (w : worker) : Z :=
  match w_phase w with
  | Syncing => w_started w + SyncTimeout cfg
  | Recording ended _ => ended + bookkeepingTimeout
  end.

Definition org (w : worker) : string := OrganizationID (w_claim w).

(** The organizations that workers are on. *)
Definition in_work (ws : gmap nat worker) : gset string := list_to_set (map (λ iw, org iw.2) (map_to_list ws)).

(** The history after an upsert. *)
Definition recreating (st : state) (id : string) : gset string :=
  match rows st !! id with
  | None => if bool_decide (id ∈ in_work (workers st)) then {[id]} ∪ recreated st else recreated st
  | Some _ => recreated st
  end.

Inductive step (cfg : Config) : relation state :=
| step_tick st d :
    0 < d →
    (∀ i w, workers st !! i = Some w → clock st + d ≤ deadline cfg w) →
    step cfg st (mkState (clock st + d) (rows st) (workers st) (fleet st) (recreated st))
| step_upsert st id disabled :
    step cfg st (mkState (clock st) (UpsertOrganizationStatus (clock st) id disabled (rows st)).2
               (workers st) (fleet st) (recreating st id))
| step_delete st id :
    step cfg st (mkState (clock st) (DeleteOrganizationStatus id (rows st)) (workers st) (fleet st) (recreated st))
| step_claim st i locked r t :
    workers st !! i = None →
    ClaimOrganizationStatusForSync locked (clock st) (Lease cfg) (rows st) = (Some r, t) →
    step cfg st (mkState (clock st) t (<[i := mkWorker r (clock st) Syncing]> (workers st))
               (delete (OrganizationID r) (fleet st)) (recreated st))
| step_sync_ends st i w ok :
    workers st !! i = Some w → w_phase w = Syncing →
    step cfg st (mkState (clock st) (rows st)
               (<[i := mkWorker (w_claim w) (w_started w) (Recording (clock st) ok)]> (workers st))
               (if ok : bool then <[org w := Disabled (w_claim w)]> (fleet st)
                else delete (org w) (fleet st)) (recreated st))
| step_record_synced st i w ended :
    workers st !! i = Some w → w_phase w = Recording ended true →
    step cfg st (mkState (clock st)
               (MarkOrganizationStatusSynced (org w) (Version (w_claim w)) (clock st) (rows st)).2
               (delete i (workers st)) (fleet st) (recreated st))
| step_record_failed st i w ended reason retryAt :
    workers st !! i = Some w → w_phase w = Recording ended false →
    step cfg st (mkState (clock st)
               (MarkOrganizationStatusFailed (org w) (Version (w_claim w)) reason retryAt (rows st))
               (delete i (workers st)) (fleet st) (recreated st))
| step_crash st i :
    step cfg st (mkState (clock st) (rows st) (delete i (workers st)) (fleet st) (recreated st)).

Definition start (now : Z) : state := mkState now ∅ ∅ ∅ ∅.

#[global] Instance workers_ts (cfg : Config) : TransitionSystem state := {
  ts_init st := ∃ now, st = start now;
  ts_step := step cfg;
}.

(** ** The invariant *)

(** What a working worker knows of its row, if it still has one: it is leased to
    it, still unsynced, and a version it has not seen changed means the state it
    applies. *)
Definition owns (cfg : Config) (st : state) (w : worker) : Prop :=
  rows st !! org w = None ∨ ∃ r, rows st !! org w = Some r ∧
    LeaseUntil r = Some (w_started w + lease_interval (Lease cfg)) ∧
    SyncedAt r = None ∧ Version (w_claim w) ≤ Version r ∧
    (Version r = Version (w_claim w) → Disabled r = Disabled (w_claim w)).

Definition on_time (cfg : Config) (st : state) (w : worker) : Prop :=
  w_started w ≤ clock st ≤ deadline cfg w ∧
  match w_phase w with
  | Syncing => True
  | Recording ended ok =>
      w_started w ≤ ended ≤ w_started w + SyncTimeout cfg ∧
      (ok = true → fleet st !! org w = Some (Disabled (w_claim w)))
  end.

Record Inv (cfg : Config) (st : state) : Prop := {
  inv_keys : ∀ k r, rows st !! k = Some r → OrganizationID r = k;
  inv_owns : ∀ i w, workers st !! i = Some w → org w ∉ recreated st → owns cfg st w ∧ on_time cfg st w;
  inv_unique : ∀ i j w w', workers st !! i = Some w → workers st !! j = Some w' →
    org w ∉ recreated st → org w = org w' → i = j;
  inv_fleet : ∀ k r, rows st !! k = Some r → k ∉ recreated st → SyncedAt r ≠ None →
    fleet st !! k = Some (Disabled r);
}.

(** ** Lemmas *)

Lemma due_spec now r :
  due now r = true ↔
  SyncedAt r = None ∧ NextRetryAt r ≤ now ∧ ∀ l, LeaseUntil r = Some l → l ≤ now.
Proof.
  unfold due. rewrite !andb_true_iff, bool_decide_eq_true, Z.leb_le.
  destruct (LeaseUntil r) as [l|]; [rewrite Z.leb_le|]; naive_solver.
Qed.

Lemma oldest_spec rs :
  match oldest rs with
  | None => rs = []
  | Some kr => kr ∈ rs ∧ ∀ kr', kr' ∈ rs → UpdatedAt kr.2 ≤ UpdatedAt kr'.2
  end.
Proof.
  induction rs as [|[k r] rs IH]; simpl; [done|].
  destruct (oldest rs) as [[k' r']|].
  - destruct IH as [Hin Hmin]. destruct (Z.ltb_spec (UpdatedAt r') (UpdatedAt r)).
    + split; [by right|]. intros kr' [->|Hin']%elem_of_cons; simpl; [lia|by apply Hmin].
    + split; [by left|]. intros kr' [->|Hin']%elem_of_cons; simpl; [lia|].
      specialize (Hmin _ Hin'). simpl in Hmin. lia.
  - subst. split; [by left|]. intros kr' [->|Hin'%elem_of_nil]%elem_of_cons; done.
Qed.

(** What a claim returns and does. *)
Lemma claim_spec locked now leaseFor t :
  match ClaimOrganizationStatusForSync locked now leaseFor t with
  | (None, t') => t' = t ∧ ∀ k r, t !! k = Some r → locked k = false → due now r = false
  | (Some r', t') => ∃ k r,
      t !! k = Some r ∧ due now r = true ∧ locked k = false ∧
      (∀ k2 r2, t !! k2 = Some r2 → due now r2 = true → locked k2 = false →
         UpdatedAt r ≤ UpdatedAt r2) ∧
      r' = mkOrgStatus (OrganizationID r) (Disabled r) (Version r) (UpdatedAt r) (SyncedAt r)
             (Attempts r + 1) (NextRetryAt r) (LastError r)
             (Some (now + lease_interval leaseFor)) ∧
      t' = <[k := r']> t
  end.
Proof.
  unfold ClaimOrganizationStatusForSync.
  assert (Hin : ∀ kr, kr ∈ filter (λ kr, due now kr.2 && negb (locked kr.1) = true) (map_to_list t) ↔
    t !! kr.1 = Some kr.2 ∧ due now kr.2 = true ∧ locked kr.1 = false).
  { intros [k r]. rewrite list_elem_of_filter, elem_of_map_to_list. simpl.
    rewrite andb_true_iff, negb_true_iff. naive_solver. }
  pose proof (oldest_spec (filter (λ kr, due now kr.2 && negb (locked kr.1) = true) (map_to_list t))) as Ho.
  destruct (oldest _) as [[k r]|].
  - destruct Ho as [Hkr Hmin]. apply Hin in Hkr as (Hk & Hd & Hl). simpl in *.
    exists k, r. split_and!; try done.
    intros k2 r2 Hk2 Hd2 Hl2. apply (Hmin (k2, r2)), Hin. done.
  - split; [done|]. intros k r Hk Hl. destruct (due now r) eqn:Hd; [|done].
    assert (Hkr : (k, r) ∈ filter (λ kr, due now kr.2 && negb (locked kr.1) = true) (map_to_list t))
      by (apply Hin; done).
    rewrite Ho in Hkr. by apply elem_of_nil in Hkr.
Qed.

Lemma withDefaults_lease c : SyncTimeout (withDefaults c) ≤ Lease (withDefaults c).
Proof. simpl. destruct (Z.ltb_spec (if Lease c <=? 0 then DefaultLease else Lease c)
  (if SyncTimeout c <=? 0 then DefaultSyncTimeout else SyncTimeout c)); lia. Qed.

Section Workers.
Context (cfg : Config).
(** The lease outlasts the fan-out and the write that records its outcome. *)
Context (Hlease : SyncTimeout cfg + bookkeepingTimeout < lease_interval (Lease cfg)).
Context (Htimeout : 0 ≤ SyncTimeout cfg).

(** A worker on time still holds its lease. *)
Lemma on_time_leased st w :
  on_time cfg st w → clock st < w_started w + lease_interval (Lease cfg).
Proof.
  unfold on_time, deadline, bookkeepingTimeout, Second in *.
  destruct (w_phase w); naive_solver lia.
Qed.

(** A worker that is not seen by the history has an older claim. *)
Lemma in_work_spec ws id : id ∈ in_work ws ↔ ∃ i w, ws !! i = Some w ∧ org w = id.
Proof.
  unfold in_work. rewrite elem_of_list_to_set, list_elem_of_fmap. split.
  - intros ([i w] & -> & Hw%elem_of_map_to_list). by exists i, w.
  - intros (i & w & Hw & <-). exists (i, w). split; [done|]. by apply elem_of_map_to_list.
Qed.

Lemma recreating_spec st id k : k ∉ recreating st id →
  k ∉ recreated st ∧ (k = id → rows st !! id = None → ∀ i w, workers st !! i = Some w → org w ≠ id).
Proof.
  unfold recreating. destruct (rows st !! id) eqn:Hr; [done|]. case_bool_decide as Hw.
  - intros [? ?]%not_elem_of_union. split; [done|]. intros ->. set_solver.
  - intros ?. split; [done|]. intros -> _ i w Hi <-. apply Hw, in_work_spec. by exists i, w.
Qed.

(** Changing a row that no worker owns, or in a way its owner tolerates. *)
Lemma owns_insert st t w :
  (rows st !! org w = None → t !! org w = None) →
  (∀ r, rows st !! org w = Some r → ∃ r', t !! org w = Some r' ∧
     LeaseUntil r' = LeaseUntil r ∧ (SyncedAt r = None → SyncedAt r' = None) ∧
     Version r ≤ Version r' ∧ (Version r' = Version r → Disabled r' = Disabled r)) →
  ∀ c ws fl re, owns cfg st w → owns cfg (mkState c t ws fl re) w.
Proof.
  intros Hn Ht c ws fl re [Hr|(r & Hr & Hl & Hs & Hv & Hd)]; [left; by apply Hn|].
  destruct (Ht r Hr) as (r' & Hr' & Hl' & Hs' & Hv' & Hd'). right. exists r'. simpl.
  split_and!; [done|congruence|auto|lia|]. intros Heq. rewrite Hd' by lia. apply Hd. lia.
Qed.

Lemma owns_same st t w : t !! org w = rows st !! org w → ∀ c ws fl re, owns cfg st w → owns cfg (mkState c t ws fl re) w.
Proof. intros Heq c ws fl re H. unfold owns in *. simpl. by rewrite Heq. Qed.

Lemma Inv_tick st d :
  0 < d → (∀ i w, workers st !! i = Some w → clock st + d ≤ deadline cfg w) →
  Inv cfg st → Inv cfg (mkState (clock st + d) (rows st) (workers st) (fleet st) (recreated st)).
Proof.
  intros Hd Hdl [Hk Ho Hu Hf]. split; simpl; [done| |done|done].
  intros i w Hw Hre. specialize (Ho i w Hw Hre) as [Ho [Ht Hp]]. specialize (Hdl i w Hw).
  split; [by apply (owns_same st)|]. split; [simpl; lia|done].
Qed.

Lemma Inv_upsert st id disabled :
  Inv cfg st →
  Inv cfg (mkState (clock st) (UpsertOrganizationStatus (clock st) id disabled (rows st)).2
         (workers st) (fleet st) (recreating st id)).
Proof.
  intros [Hk Ho Hu Hf]. split; simpl.
  - intros k r. lookup_case E; [|eauto]. destruct (rows st !! k); intros [= <-]; done.
  - intros i w Hw [Hre Hnew]%recreating_spec. specialize (Ho i w Hw Hre) as [Ho Ht]. split; [|done].
    apply (owns_insert st); [| |done].
    + intros Hr. destruct (decide (id = org w)) as [->|Hne]; [by destruct (Hnew eq_refl Hr i w Hw)|].
      by rewrite lookup_insert_ne.
    + intros r Hr. lookup_case E.
      * rewrite Hr. eexists. split; [done|]. simpl. split_and!; try done;
          destruct (Disabled r), disabled; simpl; (lia || done).
      * rewrite Hr. eexists. split; [done|]. split_and!; (lia || done).
  - intros i j w w' Hi Hj [Hre _]%recreating_spec. by apply (Hu i j w w').
  - intros k r. lookup_case E; [|intros ? [? _]%recreating_spec; by apply Hf].
    destruct (rows st !! k); intros [= <-]; done.
Qed.

Lemma Inv_delete st id :
  Inv cfg st → Inv cfg (mkState (clock st) (DeleteOrganizationStatus id (rows st)) (workers st) (fleet st) (recreated st)).
Proof.
  intros [Hk Ho Hu Hf]. unfold DeleteOrganizationStatus. split; simpl; [..|done|].
  - intros k r [_ Hr]%lookup_delete_Some. by apply Hk.
  - intros i w Hw Hre. destruct (Ho i w Hw Hre) as [Hown Ht]. split; [|done].
    destruct (decide (id = org w)) as [->|Hne]; [left; simpl; by rewrite lookup_delete_eq|].
    apply (owns_same st); [by rewrite lookup_delete_ne|done].
  - intros k r [_ Hr]%lookup_delete_Some. by apply Hf.
Qed.

(** An organization that can be claimed has no worker. *)
Lemma claimed_is_free st k r0 i w :
  Inv cfg st → k ∉ recreated st → rows st !! k = Some r0 → (∀ l, LeaseUntil r0 = Some l → l ≤ clock st) →
  workers st !! i = Some w → org w ≠ k.
Proof.
  intros HI Hre Hr0 Hfree Hw <-. destruct (inv_owns _ _ HI i w Hw Hre) as [[Hn|(r1 & Hr1 & Hl1 & _)] Ht]; [congruence|].
  apply on_time_leased in Ht. simplify_eq. specialize (Hfree _ Hl1). lia.
Qed.

Lemma Inv_claim st i locked r t :
  workers st !! i = None →
  ClaimOrganizationStatusForSync locked (clock st) (Lease cfg) (rows st) = (Some r, t) →
  Inv cfg st →
  Inv cfg (mkState (clock st) t (<[i := mkWorker r (clock st) Syncing]> (workers st))
         (delete (OrganizationID r) (fleet st)) (recreated st)).
Proof.
  intros Hi Hclaim HI. pose proof HI as [Hk Ho Hu Hf].
  pose proof (claim_spec locked (clock st) (Lease cfg) (rows st)) as Hs. rewrite Hclaim in Hs.
  destruct Hs as (k & r0 & Hr0 & [Hsync [_ Hfree]]%due_spec & _ & _ & -> & ->). simpl.
  rewrite (Hk k r0 Hr0).
  assert (Hother : ∀ j w, k ∉ recreated st → workers st !! j = Some w → org w ≠ k)
    by (intros j w Hre; by eapply claimed_is_free).
  split; simpl.
  - intros k' r'. lookup_case E; [|eauto]. by intros [= <-].
  - intros j w. lookup_case E.
    + intros [= <-] _. split.
      * right. unfold org. simpl. rewrite lookup_insert_eq. eexists. split; [done|].
        simpl. split_and!; (lia || done).
      * unfold on_time, deadline. simpl. lia.
    + intros Hw Hre. specialize (Ho j w Hw Hre) as [Ho Ht].
      assert (k ≠ org w) as Hne by (intros ->; by apply (Hother j w)). split.
      * apply (owns_same st); [by rewrite lookup_insert_ne|done].
      * unfold on_time in *. simpl. by rewrite lookup_delete_ne.
  - intros j1 j2 w1 w2. rewrite !lookup_insert. unfold org.
    destruct (decide (i = j1)) as [<-|], (decide (i = j2)) as [<-|]; [done|..].
    + intros [= <-] Hw2 Hre. simpl in *. intros Hk2. by edestruct Hother.
    + intros Hw1 [= <-] Hre. simpl. intros Hk1. unfold org in *. by edestruct Hother; [rewrite <- Hk1|..].
    + apply Hu.
  - intros k' r'. lookup_case E.
    + intros [= <-]. simpl. congruence.
    + rewrite lookup_delete_ne by done. apply Hf.
Qed.

Lemma Inv_sync_ends st i w ok :
  workers st !! i = Some w → w_phase w = Syncing →
  Inv cfg st →
  Inv cfg (mkState (clock st) (rows st)
         (<[i := mkWorker (w_claim w) (w_started w) (Recording (clock st) ok)]> (workers st))
         (if ok : bool then <[org w := Disabled (w_claim w)]> (fleet st)
          else delete (org w) (fleet st)) (recreated st)).
Proof.
  intros Hi Hph [Hk Ho Hu Hf].
  assert (Hother : ∀ k, k ≠ org w →
    (if ok then <[org w := Disabled (w_claim w)]> (fleet st) else delete (org w) (fleet st)) !! k =
    fleet st !! k).
  { intros k Hne. destruct ok; [by rewrite lookup_insert_ne|by rewrite lookup_delete_ne]. }
  split; simpl; [done|..].
  - intros j w'. lookup_case E.
    + intros [= <-] Hre. destruct (Ho j w Hi Hre) as [Howns Ht]. split; [exact Howns|].
      unfold on_time, deadline in *. rewrite Hph in Ht. simpl.
      unfold bookkeepingTimeout, Second. split_and!; try lia.
      intros ->. unfold org. simpl. by rewrite lookup_insert_eq.
    + intros Hw' Hre. destruct (Ho j w' Hw' Hre) as [Howns Ht]. split; [exact Howns|].
      unfold on_time, deadline in *. simpl. rewrite Hother; [done|].
      intros Heq. destruct E. symmetry. by apply (Hu j i w' w).
  - intros j1 j2 w1 w2. rewrite !lookup_insert.
    destruct (decide (i = j1)) as [<-|], (decide (i = j2)) as [<-|]; [done|..|apply Hu];
      naive_solver.
  - intros k r Hr Hre Hs. destruct (decide (k = org w)) as [->|Hne].
    + destruct (Ho i w Hi Hre) as [[?|(r1 & Hr1 & _ & Hs1 & _)] _]; simplify_eq.
    + rewrite Hother by done. by apply Hf.
Qed.

Lemma Inv_crash st i :
  Inv cfg st → Inv cfg (mkState (clock st) (rows st) (delete i (workers st)) (fleet st) (recreated st)).
Proof.
  intros [Hk Ho Hu Hf]. split; simpl; [done| | |done].
  - intros j w [_ Hw]%lookup_delete_Some. by apply (Ho j).
  - intros j1 j2 w1 w2 [_ H1]%lookup_delete_Some [_ H2]%lookup_delete_Some. by apply Hu.
Qed.

(** A worker that leaves may change its own row in any way that keeps the
    recorded outcome true. *)
Lemma Inv_record st i w r r' :
  workers st !! i = Some w →
  rows st !! org w = Some r → OrganizationID r' = OrganizationID r →
  (org w ∉ recreated st → SyncedAt r' ≠ None → fleet st !! org w = Some (Disabled r')) →
  Inv cfg st →
  Inv cfg (mkState (clock st) (<[org w := r']> (rows st)) (delete i (workers st)) (fleet st) (recreated st)).
Proof.
  intros Hi Hr Hid Hfl [Hk Ho Hu Hf]. split; simpl.
  - intros k r1. lookup_case E; [|eauto]. intros [= <-]. rewrite Hid. by apply Hk.
  - intros j w' [Hne Hw']%lookup_delete_Some Hre. destruct (Ho j w' Hw' Hre) as [Howns Ht].
    split; [|done]. apply (owns_same st); [|done]. rewrite lookup_insert_ne; [done|].
    intros Heq. destruct Hne. symmetry. by apply (Hu j i w' w).
  - intros j1 j2 w1 w2 [_ H1]%lookup_delete_Some [_ H2]%lookup_delete_Some. by apply Hu.
  - intros k r1. lookup_case E; [|apply Hf]. intros [= <-]. by apply Hfl.
Qed.

Lemma lease_Inv_step st st' : Inv cfg st → step cfg st st' → Inv cfg st'.
Proof.
  intros HI Hst. destruct Hst as [st d Hd Hdl|st id dis|st id|st i locked r t Hi Hc|st i w ok Hi Hp
    |st i w ended Hi Hp|st i w ended reason retryAt Hi Hp|st i].
  - by apply Inv_tick.
  - by apply Inv_upsert.
  - by apply Inv_delete.
  - by eapply Inv_claim.
  - by apply Inv_sync_ends.
  - unfold MarkOrganizationStatusSynced. destruct (rows st !! org w) as [r|] eqn:Hr; [|by apply Inv_crash].
    eapply Inv_record; [done..| |done]. intros Hre.
    destruct (inv_owns _ _ HI i w Hi Hre) as [[?|(r1 & Hr1 & _ & Hs & _ & Hd)] Ht]; [congruence|]. simplify_eq.
    unfold on_time in Ht. rewrite Hp in Ht. destruct Ht as (_ & _ & Hfl).
    simpl. destruct (Z.eqb_spec (Version r) (Version (w_claim w))); [|by rewrite Hs].
    intros _. rewrite Hd by done. by apply Hfl.
  - unfold MarkOrganizationStatusFailed. destruct (rows st !! org w) as [r|] eqn:Hr; [|by apply Inv_crash].
    eapply Inv_record; [done..| |done]. intros Hre.
    destruct (inv_owns _ _ HI i w Hi Hre) as [[?|(r1 & Hr1 & _ & Hs & _)] _]; [congruence|]. simplify_eq.
    simpl. by rewrite Hs.
  - by apply Inv_crash.
Qed.

Lemma lease_Inv_reachable st : @reachable _ (workers_ts cfg) st → Inv cfg st.
Proof.
  apply invariant_reachable. split; [|apply lease_Inv_step].
  intros ? [now ->]. by split.
Qed.

(** C25. Two workers never work on the same organization at the same time, if the
    lease outlasts the sync and the write that records it: from the claim until
    the outcome is recorded (or the worker dies) the row stays leased to the one
    that claimed it, whatever status changes and deletions arrive; only an
    organization whose status was deleted and inserted anew under a working
    worker is excepted. *)
Theorem syncs_are_exclusive st i j w w'
    (Hreach : @reachable _ (workers_ts cfg) st)
    (Hi : workers st !! i = Some w) (Hj : workers st !! j = Some w') (Horg : org w = org w')
    (Hkept : org w ∉ recreated st) :
  i = j.
Proof. exact (inv_unique _ _ (lease_Inv_reachable _ Hreach) i j w w' Hi Hj Hkept Horg). Qed.

(** C26. A row is only ever marked synced while the organization's branches are
    in exactly the state the row asks for, if the lease outlasts the sync and the
    write that records it: a status that changes during a sync is never recorded
    as applied; only an organization whose status was deleted and inserted anew
    under a working worker is excepted. *)
Theorem synced_row_matches_fleet st id r
    (Hreach : @reachable _ (workers_ts cfg) st)
    (Hrow : rows st !! id = Some r) (Hsynced : SyncedAt r ≠ None) (Hkept : id ∉ recreated st) :
  fleet st !! id = Some (Disabled r).
Proof. exact (inv_fleet _ _ (lease_Inv_reachable _ Hreach) id r Hrow Hkept Hsynced). Qed.
End Workers.

(** ** Claims and the retry schedule *)

(** A claim comes back empty exactly when no unlocked organization is due;
    otherwise it leases the due organization whose status is oldest, leaves
    every other row alone, and the row is not due again before its lease ends. *)
Theorem claim_leases_oldest_due locked now leaseFor t :
  match ClaimOrganizationStatusForSync locked now leaseFor t with
  | (None, t') => t' = t ∧ ∀ k r, t !! k = Some r → locked k = false → due now r = false
  | (Some r', t') => ∃ k r,
      t !! k = Some r ∧ due now r = true ∧ locked k = false ∧
      (∀ k2 r2, t !! k2 = Some r2 → due now r2 = true → locked k2 = false →
         UpdatedAt r ≤ UpdatedAt r2) ∧
      t' !! k = Some r' ∧ (∀ k2, k2 ≠ k → t' !! k2 = t !! k2) ∧
      Attempts r' = Attempts r + 1 ∧ Version r' = Version r ∧ Disabled r' = Disabled r ∧
      ∀ later, later < now + lease_interval leaseFor → due later r' = false
  end.
Proof.
  pose proof (claim_spec locked now leaseFor t) as Hs.
  destruct (ClaimOrganizationStatusForSync _ _ _ _) as [[r'|] t']; [|done].
  destruct Hs as (k & r & Hr & Hd & Hl & Hmin & -> & ->). exists k, r.
  split_and!; try done.
  - by rewrite lookup_insert_eq.
  - intros k2 Hne. by rewrite lookup_insert_ne.
  - intros later Hlt. apply not_true_iff_false. intros (_ & _ & Hfree)%due_spec.
    specialize (Hfree _ eq_refl). lia.
Qed.

Lemma wrap64_small z : -9223372036854775808 ≤ z < 9223372036854775808 → wrap64 z = z.
Proof. intros Hz. unfold wrap64. rewrite Z.mod_small; lia. Qed.

(** The retry delay before the cap: no shift or product overflows. *)
Lemma backoff_spec cfg attempts :
  backoff cfg attempts =
  Z.min (2 ^ Z.min (Z.max 1 attempts - 1) 20 * Second) (MaxBackoff cfg).
Proof.
  unfold backoff. set (a := if attempts <? 1 then 1 else attempts).
  assert (Ha : a = Z.max 1 attempts) by (unfold a; destruct (Z.ltb_spec attempts 1); lia).
  rewrite Ha, Z.shiftl_1_l. set (e := Z.min (Z.max 1 attempts - 1) 20).
  assert (He : 1 ≤ 2 ^ e ≤ 1048576).
  { split; [|apply (Z.pow_le_mono_r 2 e 20); unfold e; lia]. apply (Z.pow_le_mono_r 2 0); unfold e; lia. }
  clearbody e. unfold Second. rewrite (wrap64_small (2 ^ e)) by lia. by rewrite wrap64_small by lia.
Qed.

(** The retry delay doubles from one second with every attempt, never
    overflows, never decreases and never exceeds the configured maximum. *)
Theorem backoff_bounded cfg a b (Hmax : Second ≤ MaxBackoff cfg) (Hab : a ≤ b) :
  Second ≤ backoff cfg a ≤ backoff cfg b ∧ backoff cfg b ≤ MaxBackoff cfg ∧
  (1 ≤ a → a < 21 → 2 ^ (a - 1) * Second ≤ MaxBackoff cfg → backoff cfg a = 2 ^ (a - 1) * Second).
Proof.
  rewrite !backoff_spec.
  set (ea := Z.min (Z.max 1 a - 1) 20). set (eb := Z.min (Z.max 1 b - 1) 20).
  assert (1 ≤ 2 ^ ea) by (apply (Z.pow_le_mono_r 2 0); unfold ea; lia).
  assert (2 ^ ea ≤ 2 ^ eb) by (apply Z.pow_le_mono_r; unfold ea, eb; lia).
  unfold Second in *. split_and!; try lia.
  intros Ha Ha' Hle. assert (Hea : ea = a - 1) by (unfold ea; lia). rewrite Hea. lia.
Qed.

Module Witness.
Definition cfg0 : Config := withDefaults (mkConfig 0 0 0 0).
Definition unlocked (_ : string) : bool := false.

Definition upserted : state :=
  mkState 0 (UpsertOrganizationStatus 0 "org" true ∅).2 ∅ ∅ ∅.

Definition claim (cfg : Config) (i : nat) (st : state) : state :=
  match ClaimOrganizationStatusForSync unlocked (clock st) (Lease cfg) (rows st) with
  | (Some r, t) => mkState (clock st) t (<[i := mkWorker r (clock st) Syncing]> (workers st))
                     (delete (OrganizationID r) (fleet st)) (recreated st)
  | (None, _) => st
  end.

Lemma reach_upserted cfg : @reachable _ (workers_ts cfg) upserted.
Proof.
  apply (reachable_step (start 0) upserted); [apply reachable_init; by exists 0|].
  exact (step_upsert cfg (start 0) "org" true).
Qed.

Lemma claim_step cfg i st :
  workers st !! i = None →
  is_Some (ClaimOrganizationStatusForSync unlocked (clock st) (Lease cfg) (rows st)).1 →
  step cfg st (claim cfg i st).
Proof.
  intros Hi Hs. unfold claim.
  destruct (ClaimOrganizationStatusForSync _ _ _ _) as [[r|] t] eqn:Hc; [|by destruct Hs].
  by eapply step_claim.
Qed.

Definition claimed : state := claim cfg0 0 upserted.

Lemma reach_claimed : @reachable _ (workers_ts cfg0) claimed.
Proof.
  eapply reachable_step; [apply (reach_upserted cfg0)|]. apply claim_step; [done|].
  vm_compute. by eexists.
Qed.

Lemma syncs_are_exclusive_witness :
  ∃ w, workers claimed !! 0%nat = Some w ∧ 0%nat = 0%nat.
Proof.
  assert (Hw : is_Some (workers claimed !! 0%nat)) by (vm_compute; by eexists).
  destruct Hw as [w Hw]. exists w. split; [exact Hw|].
  exact (syncs_are_exclusive cfg0 ltac:(vm_compute; reflexivity) ltac:(vm_compute; discriminate)
           claimed 0 0 w w reach_claimed Hw Hw eq_refl ltac:(apply not_elem_of_empty)).
Defined.

(** The claimed organization syncs and is recorded. *)
Definition row1 : OrganizationStatus :=
  mkOrgStatus "org" true 1 0 None 1 0 "" (Some DefaultLease).
Definition worker1 (p : phase) : worker := mkWorker row1 0 p.
Definition recorded : state :=
  mkState 0 (MarkOrganizationStatusSynced "org" 1 0 {["org" := row1]}).2 ∅ {["org" := true]} ∅.

Lemma reach_recorded : @reachable _ (workers_ts cfg0) recorded.
Proof.
  eapply reachable_rtc; [apply reach_claimed|].
  eapply rtc_l; [apply (step_sync_ends cfg0 claimed 0 (worker1 Syncing) true); reflexivity|].
  eapply rtc_l; [eapply (step_record_synced cfg0 _ 0 (worker1 (Recording 0 true))); reflexivity|].
  assert (Heq : ∀ st st' : state, st = st' → rtc (step cfg0) st st') by (intros ? ? ->; apply rtc_refl).
  apply Heq. vm_compute. reflexivity.
Qed.

Lemma synced_row_matches_fleet_witness :
  fleet recorded !! "org" = Some true.
Proof.
  exact (synced_row_matches_fleet cfg0 ltac:(vm_compute; reflexivity) ltac:(vm_compute; discriminate)
           recorded "org" (mkOrgStatus "org" true 1 0 (Some 0) 0 0 "" None) reach_recorded
           ltac:(vm_compute; reflexivity) ltac:(discriminate) ltac:(apply not_elem_of_empty)).
Defined.

Lemma backoff_bounded_witness :
  Second ≤ backoff cfg0 3 ≤ backoff cfg0 30 ∧ backoff cfg0 30 ≤ MaxBackoff cfg0.
Proof.
  pose proof (backoff_bounded cfg0 3 30 ltac:(vm_compute; discriminate) ltac:(lia)) as (H1 & H2 & _).
  exact (conj H1 H2).
Defined.

(** A lease as long as the sync, which [withDefaults] accepts. *)
Definition tight : Config := withDefaults (mkConfig 0 DefaultSyncTimeout DefaultSyncTimeout 0).

Definition row_tight (lease : option Z) (attempts next : Z) : OrganizationStatus :=
  mkOrgStatus "org" true 1 0 None attempts next "" lease.

Definition overlap_start : state := claim tight 0 upserted.
Definition overlap_late : state :=
  mkState DefaultSyncTimeout (rows overlap_start)
    {[0%nat := mkWorker (row_tight (Some DefaultSyncTimeout) 1 0) 0 (Recording DefaultSyncTimeout false)]} ∅ ∅.
Definition overlap_second : state := claim tight 1 overlap_late.
Definition overlap_released : state :=
  mkState DefaultSyncTimeout
    (MarkOrganizationStatusFailed "org" 1 "context deadline exceeded"
       (DefaultSyncTimeout + backoff tight 1) (rows overlap_second))
    (delete 0%nat (workers overlap_second)) ∅ ∅.
Definition overlap_third : state :=
  claim tight 2 (mkState (DefaultSyncTimeout + backoff tight 1) (rows overlap_released)
                   (workers overlap_released) ∅ ∅).

Lemma rtc_eq cfg (st1 st2 st3 : state) :
  st2 = st3 → step cfg st1 st2 → rtc (step cfg) st3 st3 → rtc (step cfg) st1 st3.
Proof. intros -> ? ?. by eapply rtc_l. Qed.

Lemma singleton_deadline cfg (ws : gmap nat worker) i w d :
  map_to_list ws = [(i, w)] → d ≤ deadline cfg w →
  ∀ j w', ws !! j = Some w' → d ≤ deadline cfg w'.
Proof.
  intros Hws Hd j w' Hj%elem_of_map_to_list. rewrite Hws in Hj.
  apply list_elem_of_singleton in Hj. by simplify_eq.
Qed.

(** The exclusivity needs the margin: with a lease equal to the sync
    timeout (which [withDefaults] allows) a worker that records its timed-out
    sync releases the lease its successor holds, and a third worker syncs the
    same organization next to the second. *)
Theorem lease_equal_to_timeout_overlaps :
  ∃ st i j w w', @reachable _ (workers_ts tight) st ∧
    workers st !! i = Some w ∧ workers st !! j = Some w' ∧ i ≠ j ∧ org w = org w' ∧
    w_phase w = Syncing ∧ w_phase w' = Syncing.
Proof.
  exists overlap_third, 1%nat, 2%nat.
  assert (Hreach : @reachable _ (workers_ts tight) overlap_third).
  { eapply reachable_rtc; [apply (reach_upserted tight)|].
    eapply rtc_l; [apply (claim_step tight 0); [reflexivity|vm_compute; by eexists]|].
    eapply rtc_l.
    { apply (step_tick tight _ DefaultSyncTimeout); [reflexivity|].
      eapply singleton_deadline; [vm_compute; reflexivity|vm_compute; discriminate]. }
    eapply rtc_l.
    { apply (step_sync_ends tight _ 0 (mkWorker (row_tight (Some DefaultSyncTimeout) 1 0) 0 Syncing)
               false); reflexivity. }
    eapply rtc_l; [apply (claim_step tight 1); [reflexivity|vm_compute; by eexists]|].
    eapply rtc_l.
    { eapply (step_record_failed tight _ 0
        (mkWorker (row_tight (Some DefaultSyncTimeout) 1 0) 0 (Recording DefaultSyncTimeout false))
        _ "context deadline exceeded" (DefaultSyncTimeout + backoff tight 1)); reflexivity. }
    eapply rtc_l.
    { apply (step_tick tight _ (backoff tight 1)); [reflexivity|].
      eapply singleton_deadline; [vm_compute; reflexivity|vm_compute; discriminate]. }
    eapply rtc_l; [apply (claim_step tight 2); [reflexivity|vm_compute; by eexists]|].
    assert (Heq : ∀ st st' : state, st = st' → rtc (step tight) st st') by (intros ? ? ->; apply rtc_refl).
    apply Heq. vm_compute. reflexivity. }
  do 2 eexists. split; [exact Hreach|]. vm_compute. split_and!; (reflexivity || discriminate).
Qed.

(** The exception is real: with the default configuration, a status that is
    deleted and inserted anew while a worker syncs the organization carries no
    lease, and a second worker syncs it next to the first. *)
Definition deleted_and_inserted : state :=
  let t := DeleteOrganizationStatus "org" (rows claimed) in
  mkState 0 (UpsertOrganizationStatus 0 "org" false t).2 (workers claimed) (fleet claimed) {["org"]}.
Definition overtaken : state := claim cfg0 1 deleted_and_inserted.

Theorem recreated_status_overlaps :
  ∃ w w', @reachable _ (workers_ts cfg0) overtaken ∧
    workers overtaken !! 0%nat = Some w ∧ workers overtaken !! 1%nat = Some w' ∧ org w = org w' ∧
    w_phase w = Syncing ∧ w_phase w' = Syncing.
Proof.
  assert (@reachable _ (workers_ts cfg0) overtaken) as Hreach.
  { eapply reachable_rtc; [exact reach_claimed|].
    eapply rtc_l; [apply (step_delete cfg0 claimed "org")|].
    eapply rtc_l; [apply (step_upsert cfg0 _ "org" false)|].
    eapply rtc_l; [apply (claim_step cfg0 1); [reflexivity|vm_compute; by eexists]|].
    assert (Heq : ∀ st st' : state, st = st' → rtc (step cfg0) st st') by (intros ? ? ->; apply rtc_refl).
    apply Heq. vm_compute. reflexivity. }
  do 2 eexists. split; [exact Hreach|]. vm_compute. split_and!; reflexivity.
Qed.
End Witness.
