(* ===== verification/OrgStatusSync.v ===== *)
(** * Organization statuses: the fan-out and the worker

    [syncBranches] of [services/projects/orgstatus/sync.go] and [syncOne] and
    [ProcessOnce] of [worker.go], as effect trees over the project store, the
    cells' cluster service, the clock and the context.  Logging, spans, metrics
    and closing the connections are left out; the polling loop [Run] is
    [ProcessOnce] again and again. *)

From S2P Require Import Prelude OrgStatusStore.

#[local] Open Scope Z_scope.

(** ** Data *)

Record ScaleToZero := mkS2Z {
  Enabled : bool;
  InactivityPeriodMinutes : Z;
}.

Inductive StatusType := STATUS_TYPE_HIBERNATED | StatusOther (name : string).

#[global] Instance StatusType_eq_dec : EqDecision StatusType.
Proof. solve_decision. Defined.

(** The parts of [DescribePostgresClusterResponse] the fan-out reads. *)
Record Cluster := mkCluster {
  cl_Status : StatusType;
  cl_ScaleToZero : option ScaleToZero;
}.

Record UpdateClusterConfiguration := mkUpdate {
  up_Hibernate : option bool;
  up_ScaleToZero : option ScaleToZero;
}.

Record Branch := mkBranch {
  br_ID : string;
  br_CellID : string;
}.

(** ** Errors: an error of a client is its message. *)

Inductive branch_error :=
| CellConnectionError (cell branch err : string)
| DescribeError (branch err : string)
| UpdateError (branch err : string).

Inductive sync_error :=
| ListProjectsError (err : string)
| ListBranchesError (project err : string)
| Aborted (err : ctx_error) (seen updated : Z)
| BranchesFailed (failed : list branch_error) (seen updated : Z).

(** ** The environment *)

(** [SyncCtxErr] reads the context of one sync, [CtxErr] the worker's. *)
Inductive call :=
| ListProjects (org : string)
| ListBranches (org project : string)
| SyncCtxErr
| CtxErr
| WorkerNow
| GetCellConnection (org cell : string)
| DescribePostgresCluster (cell id : string)
| UpdatePostgresCluster (cell id : string) (configuration : UpdateClusterConfiguration)
| ClaimForSync (now leaseFor : Z)
| MarkSynced (org : string) (version now : Z)
| MarkFailed (org : string) (version : Z) (reason : sync_error) (retryAt : Z).

Definition resp (c : call) : Type :=
  match c with
  | ListProjects _ => res string (list string)
  | ListBranches _ _ => res string (list Branch)
  | SyncCtxErr | CtxErr => option ctx_error
  | WorkerNow => Z
  | GetCellConnection _ _ => option string
  | DescribePostgresCluster _ _ => res string Cluster
  | UpdatePostgresCluster _ _ _ => option string
  | ClaimForSync _ _ => res string (option OrganizationStatus)
  | MarkSynced _ _ _ => res string bool
  | MarkFailed _ _ _ _ => option string
  end.

#[local] Abbreviation M A := (prog resp A).
#[local] Abbreviation E A := (M (res sync_error A)).

(** ** sync.go *)

(** The variables of [syncBranches] the loops change. *)
Record progress := mkProgress {
  connMap : gset string;
  seen : Z;
  updated : Z;
  failed : list branch_error;
}.

Definition hadS2Z (c : Cluster) : bool :=
  match cl_ScaleToZero c with Some z => 0 <? InactivityPeriodMinutes z | None => false end.

Definition isHibernated (c : Cluster) : bool := bool_decide (cl_Status c = STATUS_TYPE_HIBERNATED).

(** The update a cluster needs, if any. *)
Definition desired_update (disabled : bool) (c : Cluster) : option UpdateClusterConfiguration :=
  let hibernate := if Bool.eqb disabled (isHibernated c) then None else Some disabled in
  let s2z :=
    match cl_ScaleToZero c with
    | Some z =>
        let desiredEnabled := negb disabled && hadS2Z c in
        if Bool.eqb (Enabled z) desiredEnabled then None
        else Some (mkS2Z desiredEnabled (InactivityPeriodMinutes z))
    | None => None
    end in
  match hibernate, s2z with
  | None, None => None
  | _, _ => Some (mkUpdate hibernate s2z)
  end.

Definition abortIfDone (st : progress) : E unit :=
  e ← perform SyncCtxErr;
  match e with
  | None => mret (Ok tt)
  | Some e => mret (Err (Aborted e (seen st) (updated st)))
  end.

(** [abortIfDone], then record the failure and go on with the next branch. *)
Definition skip (st : progress) (e : branch_error) : E progress :=
  pbind_ok (abortIfDone st) (λ _,
    mret (Ok (mkProgress (connMap st) (seen st) (updated st) (failed st ++ [e])))).

(** The connection of the branch's cell, kept for the other branches. *)
Definition connect (org : string) (st : progress) (branch : Branch)
    : M (res string progress) :=
  if bool_decide (br_CellID branch ∈ connMap st) then mret (Ok st)
  else
    e ← perform (GetCellConnection org (br_CellID branch));
    match e with
    | Some e => mret (Err e)
    | None => mret (Ok (mkProgress ({[br_CellID branch]} ∪ connMap st) (seen st) (updated st)
                          (failed st)))
    end.

Definition count_update (st : progress) : progress :=
  mkProgress (connMap st) (seen st) (updated st + 1) (failed st).

(** The body of the inner loop. *)
Definition syncBranch (dryRun : bool) (org : string) (disabled : bool) (st : progress)
    (branch : Branch) : E progress :=
  pbind_ok (abortIfDone st) (λ _,
  let st := mkProgress (connMap st) (seen st + 1) (updated st) (failed st) in
  c ← connect org st branch;
  match c with
  | Err e => skip st (CellConnectionError (br_CellID branch) (br_ID branch) e)
  | Ok st =>
      d ← perform (DescribePostgresCluster (br_CellID branch) (br_ID branch));
      match d with
      | Err e => skip st (DescribeError (br_ID branch) e)
      | Ok cluster =>
          match desired_update disabled cluster with
          | None => mret (Ok st)
          | Some configuration =>
              if dryRun then mret (Ok (count_update st))
              else
                u ← perform (UpdatePostgresCluster (br_CellID branch) (br_ID branch) configuration);
                match u with
                | Some e => skip st (UpdateError (br_ID branch) e)
                | None => mret (Ok (count_update st))
                end
          end
      end
  end).

(** A loop whose body may return early with an error. *)
Fixpoint foldE {S A} (f : S → A → E S) (st : S) (l : list A) : E S :=
  match l with
  | [] => mret (Ok st)
  | a :: l => pbind_ok (f st a) (λ st, foldE f st l)
  end.

Definition syncProject (dryRun : bool) (org : string) (disabled : bool) (st : progress)
    (project : string) : E progress :=
  r ← perform (ListBranches org project);
  match r with
  | Err e => mret (Err (ListBranchesError project e))
  | Ok branches => foldE (syncBranch dryRun org disabled) st branches
  end.

Definition syncBranches (dryRun : bool) (org : string) (disabled : bool) : E unit :=
  r ← perform (ListProjects org);
  match r with
  | Err e => mret (Err (ListProjectsError e))
  | Ok projects =>
      pbind_ok (foldE (syncProject dryRun org disabled) (mkProgress ∅ 0 0 []) projects) (λ st,
      match failed st with
      | [] => mret (Ok tt)
      | failed => mret (Err (BranchesFailed failed (seen st) (updated st)))
      end)
  end.

Definition Sync : string → bool → E unit := syncBranches false.
Definition SyncDryRun : string → bool → E unit := syncBranches true.

(** ** worker.go *)

Inductive bookkeeping_error :=
| CtxDone (e : ctx_error)
| ClaimError (err : string)
| RecordFailureError (org err : string)
| RecordSuccessError (org err : string).

Definition syncOne (cfg : Config) (pending : OrganizationStatus)
    : M (res bookkeeping_error unit) :=
  r ← Sync (OrganizationID pending) (Disabled pending);
  match r with
  | Err syncErr =>
      now ← perform WorkerNow;
      let retryAt := now + backoff cfg (Attempts pending) in
      stopped ← perform CtxErr;
      retryAt ← (match stopped with
                 | Some _ => perform WorkerNow
                 | None => mret retryAt
                 end : M Z);
      e ← perform (MarkFailed (OrganizationID pending) (Version pending) syncErr retryAt);
      match e with
      | Some e => mret (Err (RecordFailureError (OrganizationID pending) e))
      | None => mret (Ok tt)
      end
  | Ok _ =>
      now ← perform WorkerNow;
      m ← perform (MarkSynced (OrganizationID pending) (Version pending) now);
      match m with
      | Err e => mret (Err (RecordSuccessError (OrganizationID pending) e))
      | Ok _ => mret (Ok tt)
      end
  end.

(** The claiming loop, for at most [n] claims: [None] when all [n] were
    granted and synced, so the loop would claim again. *)
Fixpoint claim_loop (cfg : Config) (n : nat) (attempted : Z)
    : M (option (Z * option bookkeeping_error)) :=
  match n with
  | O => mret None
  | S n =>
      e ← perform CtxErr;
      match e with
      | Some e => mret (Some (attempted, Some (CtxDone e)))
      | None =>
          now ← perform WorkerNow;
          p ← perform (ClaimForSync now (Lease cfg));
          match p with
          | Err e => mret (Some (attempted, Some (ClaimError e)))
          | Ok None => mret (Some (attempted, None))
          | Ok (Some pending) =>
              r ← syncOne cfg pending;
              match r with
              | Err e => mret (Some (attempted + 1, Some e))
              | Ok _ => claim_loop cfg n (attempted + 1)
              end
          end
      end
  end.

Definition ProcessOnce (cfg : Config) (n : nat) : M (option (Z * option bookkeeping_error)) :=
  claim_loop cfg n 0.

Inductive level := WarnLevel | ErrorLevel.

Definition escalateAfter : Z := 60 * Minute.

Definition failureLevel (unsyncedFor : Z) : level :=
  if escalateAfter <=? unsyncedFor then ErrorLevel else WarnLevel.

(** ** Lemmas *)

Lemma foldE_only {S A} P (f : S → A → E S) st l :
  (∀ st a, only resp P (f st a)) → only resp P (foldE f st l).
Proof.
  intros Hf. revert st. induction l as [|a l IH]; intros st; simpl; [done|].
  apply only_bind_ok; [apply Hf|apply IH].
Qed.

(** The calls of the fan-out; only a real run updates. *)
Definition fan_out_call (dryRun : bool) (c : call) : bool :=
  match c with
  | ListProjects _ | ListBranches _ _ | SyncCtxErr | GetCellConnection _ _
  | DescribePostgresCluster _ _ => true
  | UpdatePostgresCluster _ _ _ => negb dryRun
  | _ => false
  end.

Lemma abortIfDone_only d st : only resp (fan_out_call d) (abortIfDone st).
Proof. split; [done|]. by intros [e|]. Qed.

Lemma skip_only d st e : only resp (fan_out_call d) (skip st e).
Proof. apply only_bind_ok; [apply abortIfDone_only|done]. Qed.

Lemma connect_only d org st b : only resp (fan_out_call d) (connect org st b).
Proof. unfold connect. case_bool_decide; [done|]. split; [done|]. by intros [e|]. Qed.

Lemma syncBranch_only d org dis st b : only resp (fan_out_call d) (syncBranch d org dis st b).
Proof.
  apply only_bind_ok; [apply abortIfDone_only|intros _]. apply only_bind; [apply connect_only|].
  intros [st'|e]; [|apply skip_only]. apply only_bind; [by apply only_perform|].
  intros [c|e]; [|apply skip_only]. destruct (desired_update dis c) as [u|]; [|done].
  destruct d; [done|]. apply only_bind; [by apply only_perform|].
  intros [e|]; [apply skip_only|done].
Qed.

Lemma syncBranches_only d org dis : only resp (fan_out_call d) (syncBranches d org dis).
Proof.
  apply only_bind; [by apply only_perform|]. intros [ps|e]; [|done].
  apply only_bind_ok; [|intros st; by destruct (failed st)].
  apply foldE_only. intros st p. apply only_bind; [by apply only_perform|].
  intros [bs|e]; [|done]. apply foldE_only. intros. apply syncBranch_only.
Qed.

(** A loop that ends without failures ran every iteration without one. *)
Lemma foldE_all {A} (f : progress → A → E progress) st l tr st' :
  (∀ st a tr st', runs resp (f st a) tr (Ok st') → failed st `prefix_of` failed st') →
  runs resp (foldE f st l) tr (Ok st') →
  failed st `prefix_of` failed st' ∧
  (failed st' = [] → ∀ a, a ∈ l → ∃ st1 st2 tr1,
     tr1 ⊆ tr ∧ runs resp (f st1 a) tr1 (Ok st2) ∧ failed st2 = []).
Proof.
  intros Hf. revert st tr. induction l as [|a l IH]; intros st tr.
  - intros [-> [= ->]]. split; [done|]. by intros _ a ?%elem_of_nil.
  - cbn [foldE]. intros [(tr1 & tr2 & st1 & -> & H1 & H2)|(e & _ & [=])]%runs_bind_ok.
    pose proof (Hf _ _ _ _ H1) as Hpre1. apply IH in H2 as [Hpre2 Hall]. split; [by etrans|].
    intros Hnil a' [->|Hin]%elem_of_cons.
    + exists st, st1, tr1. split_and!; [set_solver|done|].
      rewrite Hnil in Hpre2. by apply prefix_nil_inv in Hpre2.
    + destruct (Hall Hnil a' Hin) as (s1 & s2 & t1 & Ht & Hr & Hn).
      exists s1, s2, t1. split_and!; [set_solver|done|done].
Qed.

Lemma skip_runs st e tr st' :
  runs resp (skip st e) tr (Ok st') → failed st' = failed st ++ [e].
Proof.
  intros [(tr1 & tr2 & u & -> & _ & H)|(e' & _ & [=])]%runs_bind_ok.
  by destruct H as [_ [= ->]].
Qed.

(** ** Specification: what the organization's state asks of a branch *)

Definition in_line (disabled hibernated : bool) (s2z : option ScaleToZero) : Prop :=
  hibernated = disabled ∧
  ∀ z, s2z = Some z → Enabled z = negb disabled && (0 <? InactivityPeriodMinutes z).

Definition hibernated_after (u : UpdateClusterConfiguration) (c : Cluster) : bool :=
  default (isHibernated c) (up_Hibernate u).

Definition s2z_after (u : UpdateClusterConfiguration) (c : Cluster) : option ScaleToZero :=
  match up_ScaleToZero u with Some z => Some z | None => cl_ScaleToZero c end.

(** The branch was found in line, or an update that brings it in line was
    accepted. *)
Definition brought_in_line (tr : list (event resp)) (disabled : bool) (b : Branch) : Prop :=
  ∃ c, ev (DescribePostgresCluster (br_CellID b) (br_ID b)) (Ok c) ∈ tr ∧
  (in_line disabled (isHibernated c) (cl_ScaleToZero c) ∨
   ∃ u, ev (UpdatePostgresCluster (br_CellID b) (br_ID b) u) None ∈ tr ∧
     in_line disabled (hibernated_after u c) (s2z_after u c)).

Lemma brought_in_line_mono tr tr' d b :
  tr ⊆ tr' → brought_in_line tr d b → brought_in_line tr' d b.
Proof.
  intros Hs (c & Hc & [H|(u & Hu & H)]); exists c; (split; [by apply Hs|]); [by left|].
  right. exists u. split; [by apply Hs|done].
Qed.

Lemma desired_update_spec disabled c :
  match desired_update disabled c with
  | None => in_line disabled (isHibernated c) (cl_ScaleToZero c)
  | Some u => in_line disabled (hibernated_after u c) (s2z_after u c)
  end.
Proof.
  unfold desired_update, in_line, hibernated_after, s2z_after, hadS2Z.
  destruct (cl_ScaleToZero c) as [[en per]|]; simpl;
    destruct disabled, (isHibernated c); simpl; try (destruct en; simpl);
    try (destruct (0 <? per) eqn:Hper; simpl);
    (split; [done|]); intros z [= <-]; simpl; rewrite ?Hper; done.
Qed.

Lemma syncBranch_runs org disabled st b tr st' :
  runs resp (syncBranch false org disabled st b) tr (Ok st') →
  failed st `prefix_of` failed st' ∧
  (failed st' = [] → brought_in_line tr disabled b).
Proof.
  intros [(tr1 & tr2 & [] & -> & _ & H)|(e & _ & [=])]%runs_bind_ok.
  apply runs_bind in H as (tr3 & tr4 & c & -> & Hc & H).
  assert (Hskip : ∀ st1 e tr, failed st1 = failed st → runs resp (skip st1 e) tr (Ok st') →
    failed st `prefix_of` failed st' ∧ (failed st' = [] → brought_in_line (tr1 ++ tr3 ++ tr4) disabled b)).
  { intros st1 e tr Hst1 ->%skip_runs. rewrite Hst1. split; [by apply prefix_app_r|].
    intros Hnil. by destruct (failed st). }
  destruct c as [st1|e]; [|exact (Hskip (mkProgress (connMap st) (seen st + 1) (updated st) (failed st)) _ _ eq_refl H)].
  assert (Hst1 : failed st1 = failed st).
  { unfold connect in Hc. case_bool_decide; [by destruct Hc as [_ [= ->]]|].
    destruct Hc as ([e|] & ? & -> & -> & [=]). by subst. }
  destruct H as ([c|e] & tr5 & -> & H); [|exact (Hskip _ _ _ Hst1 H)].
  assert (Hdesc : ev (DescribePostgresCluster (br_CellID b) (br_ID b)) (Ok c) ∈
    tr1 ++ tr3 ++ ev (DescribePostgresCluster (br_CellID b) (br_ID b)) (Ok c) :: tr5) by set_solver.
  pose proof (desired_update_spec disabled c) as Hspec. simpl in H.
  destruct (desired_update disabled c) as [u|].
  - destruct H as ([e|] & tr6 & -> & H); [exact (Hskip _ _ _ Hst1 H)|].
    destruct H as [-> [= ->]]. simpl. rewrite Hst1. split; [done|]. intros _.
    exists c. split; [done|]. right. exists u. split; [set_solver|done].
  - destruct H as [-> [= ->]]. rewrite Hst1. split; [done|]. intros _.
    exists c. split; [done|]. by left.
Qed.

(** ** Properties of the fan-out *)

(** A sync that reports success has brought every branch of every project
    of the organization in line: each was found hibernated exactly when the
    organization is disabled and with scale-to-zero on exactly when it is
    enabled and was configured, or an update to that state was accepted. *)
Theorem Sync_brings_every_branch_in_line org disabled tr
    (Hrun : runs resp (Sync org disabled) tr (Ok tt)) :
  ∃ projects, ev (ListProjects org) (Ok projects) ∈ tr ∧
  ∀ project, project ∈ projects → ∃ branches,
    ev (ListBranches org project) (Ok branches) ∈ tr ∧
    ∀ b, b ∈ branches → brought_in_line tr disabled b.
Proof.
  destruct Hrun as ([projects|e] & tr' & -> & Hrun); [|by destruct Hrun as [_ [=]]].
  exists projects. split; [by left|]. intros project Hproject. simpl in Hrun.
  apply runs_bind_ok in Hrun as [(tr1 & tr2 & st & -> & Hfold & Hend)|(e & _ & [=])].
  assert (Hnil : failed st = []) by (destruct (failed st); [done|by destruct Hend as [_ [=]]]).
  assert (Hbranches : ∀ st bs tr st',
    runs resp (foldE (syncBranch false org disabled) st bs) tr (Ok st') →
    failed st `prefix_of` failed st' ∧
    (failed st' = [] → ∀ b, b ∈ bs → brought_in_line tr disabled b)).
  { intros s bs t s' Hr. apply foldE_all in Hr as [Hpre Hall].
    2: { intros. by eapply syncBranch_runs. }
    split; [done|]. intros Hn b Hb. destruct (Hall Hn b Hb) as (s1 & s2 & t1 & Ht & Hr1 & Hn2).
    eapply brought_in_line_mono; [exact Ht|]. by eapply syncBranch_runs. }
  apply foldE_all in Hfold as [_ Hall].
  2: { intros s p t s' ([bs|e] & t' & -> & Hr); [by eapply Hbranches|by destruct Hr as [_ [=]]]. }
  destruct (Hall Hnil project Hproject) as (s1 & s2 & t1 & Ht & ([bs|e] & t' & -> & Hr) & Hn);
    [|by destruct Hr as [_ [=]]].
  exists bs. split; [right; set_solver|]. intros b Hb.
  eapply brought_in_line_mono; [|by eapply Hbranches]. set_solver.
Qed.

(** A dry run changes nothing: whatever it finds, it sends no update to any
    cluster. *)
Theorem SyncDryRun_never_updates org disabled tr r cell id u resp'
    (Hrun : runs resp (SyncDryRun org disabled) tr r) :
  ev (UpdatePostgresCluster cell id u) resp' ∉ tr.
Proof.
  intros Hin. by pose proof (only_runs _ _ _ _ _ _ (syncBranches_only true org disabled) Hrun Hin).
Qed.

(** The fan-out settles: a cluster that the update it asks for has reached
    needs no further update, and an update is only asked for when it changes
    the hibernation or the scale-to-zero switch. *)
Theorem desired_update_settles disabled c :
  match desired_update disabled c with
  | None => in_line disabled (isHibernated c) (cl_ScaleToZero c)
  | Some u =>
      ¬ in_line disabled (isHibernated c) (cl_ScaleToZero c) ∧
      ∀ c', isHibernated c' = hibernated_after u c → cl_ScaleToZero c' = s2z_after u c →
        desired_update disabled c' = None
  end.
Proof.
  unfold desired_update, in_line, hibernated_after, s2z_after, hadS2Z.
  destruct (cl_ScaleToZero c) as [[en per]|]; simpl;
    destruct disabled, (isHibernated c); simpl; try (destruct en; simpl);
    try (destruct (0 <? per) eqn:Hper; simpl);
    (split; [try done|]);
    solve [ intros z [= <-]; simpl; by rewrite ?Hper
          | intros c' -> ->; simpl; by rewrite ?Hper
          | intros [? Hz]; try done; specialize (Hz _ eq_refl); simpl in Hz; by rewrite ?Hper in Hz ].
Qed.

(** ** Properties of the worker *)

(** What the worker's own calls show: the clock, whether it is stopping, the
    claims it was granted and the outcomes it records. *)
Inductive note :=
| NNow (t : Z)
| NStopped (stopped : bool)
| NClaim (r : OrganizationStatus)
| NSynced (org : string) (version at_ : Z)
| NFailed (org : string) (version : Z) (reason : sync_error) (retryAt : Z).

Definition note_of (e : event resp) : option note :=
  match e with
  | ev c r =>
      match c return resp c → option note with
      | WorkerNow => λ t, Some (NNow t)
      | CtxErr => λ e, Some (NStopped (bool_decide (is_Some e)))
      | ClaimForSync _ _ => λ r, match r with Ok (Some r) => Some (NClaim r) | _ => None end
      | MarkSynced org version now => λ _, Some (NSynced org version now)
      | MarkFailed org version reason retryAt => λ _, Some (NFailed org version reason retryAt)
      | _ => λ _, None
      end r
  end.

Definition notes (tr : list (event resp)) : list note := omap note_of tr.

(** One round of the loop: a claim granted to a live worker, and the outcome
    recorded for the claimed version, with the retry delayed by the backoff or,
    when the worker is stopping, not at all. *)
Inductive round (cfg : Config) : list note → Prop :=
| round_synced t0 r t :
    round cfg [NStopped false; NNow t0; NClaim r; NNow t;
               NSynced (OrganizationID r) (Version r) t]
| round_failed t0 r t e :
    round cfg [NStopped false; NNow t0; NClaim r; NNow t; NStopped false;
               NFailed (OrganizationID r) (Version r) e (t + backoff cfg (Attempts r))]
| round_interrupted t0 r t t' e :
    round cfg [NStopped false; NNow t0; NClaim r; NNow t; NStopped true; NNow t';
               NFailed (OrganizationID r) (Version r) e t'].

Definition idle (n : note) : Prop :=
  match n with NNow _ | NStopped _ => True | _ => False end.

Lemma wp_Sync org dis acc (Q : list note → res sync_error unit → Prop) :
  (∀ r, Q acc r) → wp resp note_of (Sync org dis) acc Q.
Proof.
  intros HQ. eapply wp_only; [apply syncBranches_only| |done]. by intros [].
Qed.

(** The rounds of a pass, from any number of earlier ones. *)
Lemma claim_loop_rounds cfg n attempted acc rounds :
  acc = concat rounds → Forall (round cfg) rounds → attempted = Z.of_nat (length rounds) →
  wp resp note_of (claim_loop cfg n attempted) acc (λ l res,
    ∃ rounds' tail, l = concat rounds' ++ tail ∧ Forall (round cfg) rounds' ∧ Forall idle tail ∧
      match res with
      | None => length rounds' = (length rounds + n)%nat ∧ tail = []
      | Some (k, _) => k = Z.of_nat (length rounds')
      end).
Proof.
  revert attempted acc rounds. induction n as [|n IH]; intros attempted acc rounds Hacc Hr Hat.
  { exists rounds, []. rewrite app_nil_r. split_and!; done. }
  cbn [claim_loop]. apply (wp_perform _ CtxErr). intros [e|]; cbn [note_of].
  { exists rounds, [NStopped true]. subst. split_and!; try done. by repeat constructor. }
  apply (wp_perform _ WorkerNow). intros t0. cbn [note_of].
  apply (wp_perform _ (ClaimForSync t0 (Lease cfg))). rewrite <-app_assoc. simpl app.
  assert (Hidle : Forall idle [NStopped false; NNow t0]) by by repeat constructor.
  intros [[r|]|e]; cbn [note_of];
    [|by exists rounds, [NStopped false; NNow t0]; subst|by exists rounds, [NStopped false; NNow t0]; subst].
  assert (Hround : ∀ l, round cfg ([NStopped false; NNow t0; NClaim r] ++ l) → ∀ (x : option string) e',
    wp resp note_of
      (z ← mret (match x with Some e => Err (e' e) | None => Ok tt end : res bookkeeping_error unit);
       match z with
       | Err e => mret (Some (attempted + 1, Some e))
       | Ok _ => claim_loop cfg n (attempted + 1)
       end)
      (acc ++ [NStopped false; NNow t0; NClaim r] ++ l) (λ l res,
      ∃ rounds' tail, l = concat rounds' ++ tail ∧ Forall (round cfg) rounds' ∧ Forall idle tail ∧
      match res with
      | None => length rounds' = (length rounds + S n)%nat ∧ tail = []
      | Some (k, _) => k = Z.of_nat (length rounds')
      end)).
  { intros l Hl x e'. set (rs := rounds ++ [[NStopped false; NNow t0; NClaim r] ++ l]).
    assert (Hrs : Forall (round cfg) rs) by (apply Forall_app; by rewrite Forall_singleton).
    assert (Hlen : length rs = S (length rounds)) by (unfold rs; rewrite length_app; simpl; lia).
    assert (Hc : acc ++ [NStopped false; NNow t0; NClaim r] ++ l = concat rs).
    { unfold rs. rewrite concat_app. simpl. by rewrite app_nil_r, Hacc. }
    destruct x as [e|].
    - exists rs, []. rewrite app_nil_r. split_and!; try done. lia.
    - eapply wp_mono; [|apply (IH _ _ rs Hc Hrs); lia].
      intros l' res (rs' & tl & -> & H1 & H2 & H3). exists rs', tl. split_and!; try done.
      destruct res as [[]|]; [done|]. destruct H3. split; [lia|done]. }
  rewrite <-app_assoc. simpl app. apply wp_bind. unfold syncOne. apply wp_bind, wp_Sync.
  intros [[]|err].
  - apply (wp_perform _ WorkerNow). intros t. cbn [note_of].
    apply (wp_perform _ (MarkSynced (OrganizationID r) (Version r) t)). intros m. cbn [note_of].
    rewrite <-!app_assoc. simpl app.
    pose proof (Hround _ (round_synced cfg t0 r t)) as Hw.
    destruct m as [b|e]; [exact (Hw None (λ e, RecordSuccessError (OrganizationID r) e))|].
    exact (Hw (Some e) (λ e, RecordSuccessError (OrganizationID r) e)).
  - apply (wp_perform _ WorkerNow). intros t. cbn [note_of].
    apply (wp_perform _ CtxErr). intros stopped. cbn [note_of]. rewrite <-!app_assoc.
    destruct stopped as [ce|].
    + apply (wp_perform _ WorkerNow). intros t'. cbn [note_of].
      apply (wp_perform _ (MarkFailed (OrganizationID r) (Version r) err t')). intros x.
      cbn [note_of]. rewrite <-!app_assoc. simpl app.
      pose proof (Hround _ (round_interrupted cfg t0 r t t' err) x
                    (λ e, RecordFailureError (OrganizationID r) e)) as Hw.
      destruct x; exact Hw.
    + apply (wp_perform _ (MarkFailed (OrganizationID r) (Version r) err
                             (t + backoff cfg (Attempts r)))). intros x.
      cbn [note_of]. rewrite <-!app_assoc. simpl app.
      pose proof (Hround _ (round_failed cfg t0 r t err) x
                    (λ e, RecordFailureError (OrganizationID r) e)) as Hw.
      destruct x; exact Hw.
Qed.

(** A pass records an outcome for every organization it claims, before it
    claims the next, under the version it claimed, and reports how many it
    attempted; a failed sync is retried after the backoff, one interrupted by
    a shutdown at once. *)
Theorem pass_records_every_claim cfg n tr r
    (Hrun : runs resp (ProcessOnce cfg n) tr r) :
  ∃ rounds tail, notes tr = concat rounds ++ tail ∧
    Forall (round cfg) rounds ∧ Forall idle tail ∧
    match r with
    | None => length rounds = n ∧ tail = []
    | Some (attempted, _) => attempted = Z.of_nat (length rounds)
    end.
Proof.
  pose proof (claim_loop_rounds cfg n 0 [] [] eq_refl ltac:(constructor) eq_refl) as Hwp.
  exact (wp_sound _ _ [] _ _ _ Hwp Hrun).
Qed.

(** ** A concrete organization *)

Module Witness.
(** One project of two branches in one cell: the first runs, the second is
    already hibernated.  The claim is granted once. *)
Definition row : OrganizationStatus := mkOrgStatus "org" true 3 0 None 1 0 "" None.

Definition running : Cluster := mkCluster (StatusOther "healthy") (Some (mkS2Z true 30)).
Definition asleep : Cluster := mkCluster STATUS_TYPE_HIBERNATED (Some (mkS2Z false 30)).

Definition world : env resp nat := λ w c,
  match c return nat * resp c with
  | ListProjects _ => (w, Ok ["prj"])
  | ListBranches _ _ => (w, Ok [mkBranch "b1" "cell"; mkBranch "b2" "cell"])
  | SyncCtxErr => (w, None)
  | CtxErr => (w, None)
  | WorkerNow => (w, 7)
  | GetCellConnection _ _ => (w, None)
  | DescribePostgresCluster _ id => (w, Ok (if bool_decide (id = "b1") then running else asleep))
  | UpdatePostgresCluster _ _ _ => (w, None)
  | ClaimForSync _ _ => (S w, Ok (if bool_decide (w = 0%nat) then Some row else None))
  | MarkSynced _ _ _ => (w, Ok true)
  | MarkFailed _ _ _ _ => (w, None)
  end.

Definition cfg0 : Config := withDefaults (mkConfig 0 0 0 0).
Definition sync_run := exec resp world 0%nat (Sync "org" true).
Definition dry_run := exec resp world 0%nat (SyncDryRun "org" true).
Definition pass := exec resp world 0%nat (ProcessOnce cfg0 3).

Lemma Sync_brings_every_branch_in_line_witness :
  sync_run.2 = Ok tt ∧
  ∃ projects, ev (ListProjects "org") (Ok projects) ∈ sync_run.1.1 ∧
  ∀ project, project ∈ projects → ∃ branches,
    ev (ListBranches "org" project) (Ok branches) ∈ sync_run.1.1 ∧
    ∀ b, b ∈ branches → brought_in_line sync_run.1.1 true b.
Proof.
  assert (Hok : sync_run.2 = Ok tt) by (vm_compute; reflexivity).
  split; [exact Hok|]. apply (Sync_brings_every_branch_in_line "org" true sync_run.1.1).
  rewrite <-Hok. exact (exec_runs world 0%nat _).
Defined.

Lemma SyncDryRun_never_updates_witness :
  dry_run.2 = Ok tt ∧
  ev (UpdatePostgresCluster "cell" "b1" (mkUpdate (Some true) (Some (mkS2Z false 30)))) None
    ∉ dry_run.1.1.
Proof.
  split; [vm_compute; reflexivity|].
  exact (SyncDryRun_never_updates "org" true _ _ "cell" "b1" _ None (exec_runs world 0%nat _)).
Defined.

Lemma pass_records_every_claim_witness :
  pass.2 = Some (1, None) ∧
  ∃ rounds tail, notes pass.1.1 = concat rounds ++ tail ∧
    Forall (round cfg0) rounds ∧ Forall idle tail ∧
    match pass.2 with
    | None => length rounds = 3%nat ∧ tail = []
    | Some (attempted, _) => attempted = Z.of_nat (length rounds)
    end.
Proof.
  split; [vm_compute; reflexivity|].
  exact (pass_records_every_claim cfg0 3 pass.1.1 pass.2 (exec_runs world 0%nat _)).
Defined.
End Witness.
