(* ===== verification/WaitGroup.v ===== *)
(** * The drainer of the gateway: [services/gateway/timedwaitgroup.go]

    A wait group with a timeout.  [Add] is one critical section; [Done]
    decrements the counter and takes the lock later; [Wait] closes the group,
    loads the counter outside the lock and then selects.  Each of these is a
    step; the steps of all goroutines interleave freely. *)

From S2P Require Import Prelude.

#[local] Open Scope Z_scope.

(** ** State *)

(** Where a caller of [Wait] is. *)
Inductive wait_pc :=
| WClosed
| WSignal
| WSelect
| WReturned (err : option ctx_error).

(** [pendingDone] counts the callers of [Done] that have decremented the
    counter to zero and have not taken the lock yet. *)
Record timedWaitGroup := mkGroup {
  closed : bool;
  connectionCount : Z;
  completed : bool;
  pendingDone : nat;
  waiters : gmap nat wait_pc;
}.

Definition newTimedWaitGroup : timedWaitGroup := mkGroup false 0 false 0 ∅.

(** ** Operations *)

Inductive group_error := errDrainerClosed.

(** A negative delta panics. *)
Definition Add (d : timedWaitGroup) (delta : Z) : option (res group_error unit * timedWaitGroup) :=
  if delta <? 0 then None
  else if closed d then Some (Err errDrainerClosed, d)
  else Some (Ok tt, mkGroup (closed d) (connectionCount d + delta) (completed d) (pendingDone d)
                      (waiters d)).

(** [connectionCount.Add(-1)], up to the test of the new count. *)
Definition Done_decrement (d : timedWaitGroup) : timedWaitGroup :=
  let newCount := connectionCount d - 1 in
  mkGroup (closed d) newCount (completed d)
    (if newCount =? 0 then S (pendingDone d) else pendingDone d) (waiters d).

(** [signalCompletion]: closing the channel twice is prevented by the [Once]. *)
Definition signalCompletion (d : timedWaitGroup) : timedWaitGroup :=
  mkGroup (closed d) (connectionCount d) true (pendingDone d) (waiters d).

(** The critical section of [Done]. *)
Definition Done_signal (d : timedWaitGroup) : timedWaitGroup :=
  let d := mkGroup (closed d) (connectionCount d) (completed d) (pred (pendingDone d)) (waiters d) in
  if closed d then signalCompletion d else d.

Definition set_waiter (d : timedWaitGroup) (i : nat) (pc : wait_pc) : timedWaitGroup :=
  mkGroup (closed d) (connectionCount d) (completed d) (pendingDone d) (<[i := pc]> (waiters d)).

Definition Wait_close (d : timedWaitGroup) (i : nat) : timedWaitGroup :=
  set_waiter (mkGroup true (connectionCount d) (completed d) (pendingDone d) (waiters d)) i WClosed.

Definition Wait_load (timeout : Z) (d : timedWaitGroup) (i : nat) : timedWaitGroup :=
  set_waiter d i (if (connectionCount d =? 0) || (timeout =? 0) then WSignal else WSelect).

Definition Wait_signal (d : timedWaitGroup) (i : nat) : timedWaitGroup :=
  set_waiter (signalCompletion d) i (WReturned None).

Definition GetCount (d : timedWaitGroup) : Z := connectionCount d.

(** Every [Done] follows the [Add] of its connection.  The context of a
    [Wait] can be done at any time. *)
Inductive step (timeout : Z) : relation timedWaitGroup :=
| step_add d delta d' :
    Add d delta = Some (Ok tt, d') → step timeout d d'
| step_done d :
    0 < connectionCount d → step timeout d (Done_decrement d)
| step_done_signal d :
    (0 < pendingDone d)%nat → step timeout d (Done_signal d)
| step_wait_close d i :
    waiters d !! i = None → step timeout d (Wait_close d i)
| step_wait_load d i :
    waiters d !! i = Some WClosed → step timeout d (Wait_load timeout d i)
| step_wait_signal d i :
    waiters d !! i = Some WSignal → step timeout d (Wait_signal d i)
| step_wait_complete d i :
    waiters d !! i = Some WSelect → completed d = true →
    step timeout d (set_waiter d i (WReturned None))
| step_wait_ctx d i e :
    waiters d !! i = Some WSelect → step timeout d (set_waiter d i (WReturned (Some e))).

#[global] Instance group_ts (timeout : Z) : TransitionSystem timedWaitGroup := {
  ts_init d := d = newTimedWaitGroup;
  ts_step := step timeout;
}.

(** ** Invariant *)

(** A waiter that selects will be woken: the group is closed, and once the
    counter is zero either completion was signalled or a [Done] is about to. *)
Record Inv (d : timedWaitGroup) : Prop := {
  inv_closed : ∀ i pc, waiters d !! i = Some pc → closed d = true;
  inv_count : 0 ≤ connectionCount d;
  inv_select : ∀ i, waiters d !! i = Some WSelect → connectionCount d = 0 →
    completed d = true ∨ (0 < pendingDone d)%nat;
}.

Lemma Inv_set_waiter d i pc :
  Inv d → closed d = true →
  (pc = WSelect → connectionCount d = 0 → completed d = true ∨ (0 < pendingDone d)%nat) →
  Inv (set_waiter d i pc).
Proof.
  intros [Hc Hn Hs] Hcl Hpc. split; simpl; [done|done|].
  intros j. lookup_case E; [intros [= ->]; auto|eauto].
Qed.

Lemma Inv_signal d : Inv d → Inv (signalCompletion d).
Proof. intros [Hc Hn Hs]. split; simpl; [done|done|]. intros; by left. Qed.

Lemma group_Inv_step timeout d d' : Inv d → step timeout d d' → Inv d'.
Proof.
  intros HI Hst. pose proof HI as [Hc Hn Hs].
  destruct Hst as [d delta d' Hadd|d Hpos|d Hp|d i Hi|d i Hi|d i Hi|d i Hi Hd|d i e Hi].
  - unfold Add in Hadd. destruct (Z.ltb_spec delta 0); [done|].
    destruct (closed d) eqn:Hcl; simplify_eq. split; simpl; [|lia|].
    + intros i pc Hi. apply Hc in Hi. congruence.
    + intros i Hi. apply Hc in Hi. congruence.
  - split; simpl; [done|lia|]. intros i Hi H0.
    assert (Hz : connectionCount d - 1 =? 0 = true) by lia. rewrite Hz. right. lia.
  - unfold Done_signal. simpl. destruct (closed d) eqn:Hcl.
    + split; simpl; [done|done|]. intros; by left.
    + split; simpl; [done|done|]. intros i Hi. apply Hc in Hi. congruence.
  - unfold Wait_close. apply Inv_set_waiter; [|done|done]. by split.
  - apply Inv_set_waiter; [done|by eapply Hc|].
    destruct (Z.eqb_spec (connectionCount d) 0); [done|]. intros; lia.
  - apply Inv_set_waiter; [by apply Inv_signal|by eapply Hc|done].
  - apply Inv_set_waiter; [done|by eapply Hc|done].
  - apply Inv_set_waiter; [done|by eapply Hc|done].
Qed.

Lemma group_Inv_reachable timeout d : @reachable _ (group_ts timeout) d → Inv d.
Proof.
  apply invariant_reachable. split; [|apply group_Inv_step].
  intros ? ->. split; simpl; [by intros ? ? ?|lia|by intros ? ?].
Qed.

(** ** Properties *)

(** No lost wake-up: when the last connection of a closed group is done
    and no [Done] is still on its way to the lock, every waiter can return
    without an error. *)
Theorem waiter_is_woken timeout d i
    (Hreach : @reachable _ (group_ts timeout) d)
    (Hselect : waiters d !! i = Some WSelect)
    (Hcount : GetCount d = 0) (Hpending : pendingDone d = 0%nat) :
  step timeout d (set_waiter d i (WReturned None)).
Proof.
  apply group_Inv_reachable in Hreach. apply step_wait_complete; [done|].
  destruct (inv_select _ Hreach i Hselect Hcount) as [|]; [done|lia].
Qed.

(** One step of a closed group. *)
Lemma closed_step timeout d d' :
  closed d = true → step timeout d d' →
  closed d' = true ∧ connectionCount d' ≤ connectionCount d ∧
  (completed d = true → completed d' = true).
Proof.
  intros Hcl Hst. destruct Hst; simpl in *; try (split_and!; (done || lia)).
  - unfold Add in *. rewrite Hcl in *. by destruct (delta <? 0).
  - unfold Done_signal. simpl. rewrite Hcl. simpl. split_and!; (done || lia).
Qed.

(** A closed group only drains: from the first [Wait] on [Add] is refused,
    the counter never grows and a signalled completion stays. *)
Theorem closed_group_drains timeout d d'
    (Hclosed : closed d = true) (Hsteps : rtc (step timeout) d d') :
  closed d' = true ∧ GetCount d' ≤ GetCount d ∧ (completed d = true → completed d' = true) ∧
  ∀ delta, 0 ≤ delta → Add d' delta = Some (Err errDrainerClosed, d').
Proof.
  assert (Hall : closed d' = true ∧ connectionCount d' ≤ connectionCount d ∧
    (completed d = true → completed d' = true)).
  { induction Hsteps as [d|d1 d2 d3 Hst _ IH]; [split_and!; (done || lia)|].
    destruct (closed_step _ _ _ Hclosed Hst) as (H1 & H2 & H3).
    destruct (IH H1) as (H4 & H5 & H6). split_and!; [done|lia|auto]. }
  destruct Hall as (H1 & H2 & H3). split_and!; [done|done|done|].
  intros delta Hd. unfold Add. rewrite H1. by destruct (Z.ltb_spec delta 0); [lia|].
Qed.

Module Witness.
(** A connection drains while another caller waits. *)
Definition draining : timedWaitGroup := mkGroup true 0 true 0 {[0%nat := WSelect]}.

Lemma reach_draining : @reachable _ (group_ts 60) draining.
Proof.
  eapply reachable_rtc; [by apply reachable_init|].
  eapply rtc_l; [by apply (step_add 60 _ 1)|].
  eapply rtc_l; [by apply (step_wait_close 60 _ 0)|].
  eapply rtc_l; [by apply (step_wait_load 60 _ 0)|].
  eapply rtc_l; [by apply step_done|].
  eapply rtc_l; [apply step_done_signal; simpl; lia|].
  assert (Heq : ∀ st st' : timedWaitGroup, st = st' → rtc (step 60) st st') by (intros ? ? ->; apply rtc_refl).
  apply Heq. vm_compute. reflexivity.
Qed.

Lemma waiter_is_woken_witness : step 60 draining (set_waiter draining 0 (WReturned None)).
Proof. exact (waiter_is_woken 60 draining 0 reach_draining eq_refl eq_refl eq_refl). Defined.

Lemma closed_group_drains_witness :
  closed draining = true ∧ GetCount draining ≤ GetCount draining ∧
  (completed draining = true → completed draining = true) ∧
  ∀ delta, 0 ≤ delta → Add draining delta = Some (Err errDrainerClosed, draining).
Proof. exact (closed_group_drains 60 draining draining eq_refl (rtc_refl _ _)). Defined.

(** Completion can be signalled too early: a [Done] that brings the
    counter to zero before the group is closed, and takes the lock only after
    a new connection was added and [Wait] has closed the group, completes the
    wait while that connection is still open. *)
Theorem late_done_completes_early :
  ∃ d, @reachable _ (group_ts 60) d ∧ waiters d !! 0%nat = Some (WReturned None) ∧ GetCount d = 1.
Proof.
  exists (mkGroup true 1 true 0 {[0%nat := WReturned None]}). split; [|done].
  eapply reachable_rtc; [by apply reachable_init|].
  eapply rtc_l; [by apply (step_add 60 _ 1)|].
  eapply rtc_l; [by apply step_done|].
  eapply rtc_l; [by apply (step_add 60 _ 1)|].
  eapply rtc_l; [by apply (step_wait_close 60 _ 0)|].
  eapply rtc_l; [by apply (step_wait_load 60 _ 0)|].
  eapply rtc_l; [apply step_done_signal; simpl; lia|].
  eapply rtc_l; [by apply (step_wait_complete 60 _ 0)|].
  assert (Heq : ∀ st st' : timedWaitGroup, st = st' → rtc (step 60) st st') by (intros ? ? ->; apply rtc_refl).
  apply Heq. vm_compute. reflexivity.
Qed.
End Witness.
