(* ===== verification/Resolver.v ===== *)
(** * Hostnames of the gateway: [services/gateway/session/resolver.go]

    How a client-facing hostname becomes a branch, an endpoint and the address
    of a service in the cluster, with [xvalidator.IsValidIdentifier] of
    [internal/xvalidator]. *)

From S2P Require Import Prelude GoStrings.
From stdpp Require Import pretty.

#[local] Open Scope Z_scope.

(** ** [internal/xvalidator]

    Only whether an identifier is valid, and the kind of error with the offset
    of the first offending byte, not its text. *)

Inductive identifier_error :=
| errEmptyIdentifier
| ErrControl (offset : nat)
| ErrNotASCII (offset : nat)
| ErrSymbol (offset : nat).

(** [checkSpecial], then the alphanumerics, [_] and [~]. *)
Definition checkRune (i : nat) (c : ascii) : option identifier_error :=
  let r := byte_val c in
  if (r <? 32) || (r =? 127) then Some (ErrControl i)
  else if 127 <? r then Some (ErrNotASCII i)
  else if negb (is_upper c || ((97 <=? r) && (r <=? 122)) || is_digit c
                || (r =? 95) || (r =? 126)) then Some (ErrSymbol i)
  else None.

Fixpoint checkRunes (i : nat) (id : string) : option identifier_error :=
  match id with
  | EmptyString => None
  | String c t => match checkRune i c with Some e => Some e | None => checkRunes (S i) t end
  end.

Definition IsValidIdentifier (id : string) : option identifier_error :=
  match id with EmptyString => Some errEmptyIdentifier | _ => checkRunes 0 id end.

(** ** resolver.go *)

Inductive resolve_error :=
| errMalformedHostname
| InvalidBranchName (e : identifier_error).

Definition EndpointRW : string := "rw".
Definition EndpointRO : string := "ro".
Definition EndpointR : string := "r".
Definition EndpointPooler : string := "pooler".
Definition deprecatedHostSuffix : string := "-deprecated".

Definition hyphen : ascii := "-"%char.

Record Branch := mkBranch {
  ID : string;
  Address : string;
  Endpoint : string;
}.

Record CNPGBranchResolver := mkResolver {
  cnpgNamespace : string;
  port : Z;
  poolerEnabled : bool;
}.

Definition knownEndpoints (r : CNPGBranchResolver) (e : string) : bool :=
  if bool_decide (e = EndpointPooler) then poolerEnabled r
  else bool_decide (e = EndpointRW) || bool_decide (e = EndpointRO) || bool_decide (e = EndpointR).

Definition parseEndpoint (known : string → bool) (hostnamePart fallbackEndpoint : string)
    : string * string :=
  match cut_last hyphen hostnamePart with
  | Some (name, suffix) =>
      if negb (bool_decide (name = "")) && known suffix then (name, suffix)
      else (hostnamePart, fallbackEndpoint)
  | None => (hostnamePart, fallbackEndpoint)
  end.

(** [strings.CutSuffix(s, deprecatedHostSuffix)] *)
Definition cutDeprecated (s : string) : string * bool :=
  match CutSuffix s deprecatedHostSuffix with Some t => (t, true) | None => (s, false) end.

Definition extractBranch (known : string → bool) (fullHostname fallbackEndpoint : string)
    : res resolve_error (string * string * bool) :=
  let '(hostnamePart, _, found) := Cut "."%char fullHostname in
  if negb found || bool_decide (hostnamePart = "") then Err errMalformedHostname
  else
    let '(hostnamePart, deprecated) := cutDeprecated hostnamePart in
    let '(branchName, endpointType) := parseEndpoint known hostnamePart fallbackEndpoint in
    let '(branchName, deprecated) :=
      if deprecated then (branchName, true) else cutDeprecated branchName in
    match IsValidIdentifier branchName with
    | Some e => Err (InvalidBranchName e)
    | None => Ok (branchName, endpointType, deprecated)
    end.

Definition address (r : CNPGBranchResolver) (branchName endpointType : string) : string :=
  "branch-" +:+ branchName +:+ "-" +:+ endpointType +:+ "." +:+ cnpgNamespace r +:+
  ".svc.cluster.local.:" +:+ pretty (port r).

Definition Resolve (r : CNPGBranchResolver) (serverName fallbackEndpoint : string)
    : res resolve_error Branch :=
  let fallbackEndpoint :=
    if knownEndpoints r fallbackEndpoint then fallbackEndpoint else EndpointRW in
  match extractBranch (knownEndpoints r) serverName fallbackEndpoint with
  | Err e => Err e
  | Ok (branchName, endpointType, _) =>
      Ok (mkBranch branchName (address r branchName endpointType) endpointType)
  end.

(** ** Lemmas *)

(** A character of a valid identifier separates nothing. *)
Definition plain (s : string) : Prop :=
  contains_byte hyphen s = false ∧ contains_byte "."%char s = false.

Lemma checkRunes_plain i s : checkRunes i s = None → plain s.
Proof.
  unfold plain. revert i. induction s as [|c s IH]; intros i; simpl; [done|].
  destruct (checkRune i c) eqn:Hc; [done|]. intros Hs. destruct (IH _ Hs) as [-> ->].
  rewrite !orb_false_r.
  split; apply bool_decide_eq_false; intros ->; by vm_compute in Hc.
Qed.

Lemma IsValidIdentifier_spec s : IsValidIdentifier s = None → s ≠ "" ∧ plain s.
Proof. destruct s; [done|]. intros Hs. split; [done|]. by eapply checkRunes_plain. Qed.

Lemma known_endpoint_plain r e : knownEndpoints r e = true → plain e.
Proof.
  unfold knownEndpoints. case_bool_decide as Hp; [by rewrite Hp|].
  intros [[He|He]%orb_true_iff|He]%orb_true_iff; apply bool_decide_eq_true in He; by rewrite He.
Qed.

(** The last hyphen of a deprecated name precedes the word "deprecated". *)
Lemma cut_last_deprecated s :
  cut_last hyphen (s +:+ deprecatedHostSuffix) = Some (s, "deprecated").
Proof. exact (cut_last_app hyphen s "deprecated" eq_refl). Qed.

Lemma deprecated_not_known r : knownEndpoints r "deprecated" = false.
Proof. done. Qed.

(** A name that ends in another word carries no deprecated marker. *)
Lemma cutDeprecated_none s b e :
  cut_last hyphen s = Some (b, e) → e ≠ "deprecated" → cutDeprecated s = (s, false).
Proof.
  intros Hs He. unfold cutDeprecated.
  destruct (CutSuffix s deprecatedHostSuffix) as [t|] eqn:Ht; [|done].
  apply CutSuffix_spec in Ht as ->. rewrite cut_last_deprecated in Hs. congruence.
Qed.

Lemma cutDeprecated_plain s : plain s → cutDeprecated s = (s, false).
Proof.
  intros [Hs _]. unfold cutDeprecated.
  destruct (CutSuffix s deprecatedHostSuffix) as [t|] eqn:Ht; [|done].
  apply CutSuffix_spec in Ht as ->. apply cut_last_none in Hs.
  by rewrite cut_last_deprecated in Hs.
Qed.

Lemma cutDeprecated_app s : cutDeprecated (s +:+ deprecatedHostSuffix) = (s, true).
Proof. unfold cutDeprecated. by rewrite CutSuffix_app. Qed.

Lemma parseEndpoint_known known name e fb :
  name ≠ "" → plain e → known e = true →
  parseEndpoint known (name +:+ "-" +:+ e) fb = (name, e).
Proof.
  intros Hn [He _] Hk. unfold parseEndpoint.
  change (name +:+ "-" +:+ e) with (name +:+ String hyphen e). rewrite cut_last_app by done.
  by rewrite bool_decide_false, Hk.
Qed.

Lemma parseEndpoint_plain known name fb : plain name → parseEndpoint known name fb = (name, fb).
Proof. intros [Hn _]. unfold parseEndpoint. apply cut_last_none in Hn. by rewrite Hn. Qed.

Lemma parseEndpoint_result r s fb name e :
  knownEndpoints r fb = true → parseEndpoint (knownEndpoints r) s fb = (name, e) →
  knownEndpoints r e = true.
Proof.
  intros Hfb. unfold parseEndpoint. destruct (cut_last hyphen s) as [[n suf]|]; [|naive_solver].
  destruct (knownEndpoints r suf) eqn:Hs; 
    [destruct (negb _)|rewrite andb_false_r]; simpl; naive_solver.
Qed.

(** ** Properties *)

(** The hostname part of a branch in the forms clients use: with or without an
    endpoint, and with the deprecated marker on either side of it. *)
Inductive host_form (id endpoint : string) : string → bool → Prop :=
| host_bare : host_form id endpoint id false
| host_endpoint : host_form id endpoint (id +:+ "-" +:+ endpoint) true
| host_deprecated : host_form id endpoint (id +:+ deprecatedHostSuffix) false
| host_endpoint_deprecated :
    host_form id endpoint ((id +:+ "-" +:+ endpoint) +:+ deprecatedHostSuffix) true
| host_deprecated_endpoint :
    host_form id endpoint ((id +:+ deprecatedHostSuffix) +:+ "-" +:+ endpoint) true.

(** The extraction finds the branch and the endpoint of every form. *)
Lemma extractBranch_form r id endpoint fb host explicit domain :
  IsValidIdentifier id = None → knownEndpoints r endpoint = true →
  host_form id endpoint host explicit →
  ∃ deprecated, extractBranch (knownEndpoints r) (host +:+ "." +:+ domain) fb =
    Ok (id, if explicit then endpoint else fb, deprecated).
Proof.
  intros Hid Hk Hform. destruct (IsValidIdentifier_spec _ Hid) as [Hne Hp].
  pose proof (known_endpoint_plain _ _ Hk) as Hpe.
  assert (Hnd : endpoint ≠ "deprecated") by (intros ->; by rewrite deprecated_not_known in Hk).
  assert (Hcut : Cut "."%char (host +:+ "." +:+ domain) = (host, domain, true)).
  { apply (Cut_app "."%char host domain). destruct Hp as [_ Hp], Hpe as [_ Hpe].
    destruct Hform; autorewrite with go_str; rewrite ?Hp, ?Hpe; done. }
  assert (Hhost : bool_decide (host = "") = false).
  { apply bool_decide_eq_false. intros ->. by inversion Hform; destruct id. }
  unfold extractBranch. rewrite Hcut. simpl. rewrite Hhost.
  assert (Hlast : cut_last hyphen (id +:+ "-" +:+ endpoint) = Some (id, endpoint)).
  { apply (cut_last_app hyphen id endpoint), Hpe. }
  destruct Hform.
  - rewrite cutDeprecated_plain, parseEndpoint_plain, cutDeprecated_plain, Hid by done. eauto.
  - rewrite (cutDeprecated_none _ _ _ Hlast) by done.
    rewrite parseEndpoint_known, cutDeprecated_plain, Hid by done. eauto.
  - rewrite cutDeprecated_app, parseEndpoint_plain, Hid by done. eauto.
  - rewrite cutDeprecated_app, parseEndpoint_known, Hid by done. eauto.
  - rewrite (cutDeprecated_none _ (id +:+ deprecatedHostSuffix) endpoint); [|apply cut_last_app, Hpe|done].
    rewrite parseEndpoint_known, cutDeprecated_app, Hid; [eauto| |done|done].
    by destruct id.
Qed.

(** Every hostname built for a branch resolves to it, under any domain: to
    the endpoint it names, else to the fallback (read-write when the fallback
    is not served), wherever the deprecated marker sits. *)
Theorem Resolve_host_form r id endpoint fallback host explicit domain
    (Hid : IsValidIdentifier id = None) (Hendpoint : knownEndpoints r endpoint = true)
    (Hform : host_form id endpoint host explicit) :
  Resolve r (host +:+ "." +:+ domain) fallback =
  let e := if explicit then endpoint
           else if knownEndpoints r fallback then fallback else EndpointRW in
  Ok (mkBranch id (address r id e) e).
Proof.
  unfold Resolve.
  destruct (extractBranch_form r id endpoint
    (if knownEndpoints r fallback then fallback else EndpointRW) host explicit domain
    Hid Hendpoint Hform) as [d Hd].
  rewrite Hd. by destruct explicit.
Qed.

(** What a hostname resolves to is safe to put in an address: a non-empty
    branch name without dots or hyphens, and an endpoint that is served; the
    address is the service of that branch and endpoint, so no hostname reaches
    a service of another kind or namespace. *)
Theorem Resolve_safe r serverName fallback b
    (Hok : Resolve r serverName fallback = Ok b) :
  IsValidIdentifier (ID b) = None ∧ ID b ≠ "" ∧
  contains_byte "."%char (ID b) = false ∧ contains_byte hyphen (ID b) = false ∧
  knownEndpoints r (Endpoint b) = true ∧ Address b = address r (ID b) (Endpoint b).
Proof.
  unfold Resolve in Hok. set (fb := if knownEndpoints r fallback then fallback else EndpointRW) in Hok.
  assert (Hfb : knownEndpoints r fb = true).
  { unfold fb. destruct (knownEndpoints r fallback) eqn:E; done. }
  unfold extractBranch in Hok. destruct (Cut _ serverName) as [[host rest] found].
  destruct (negb found || bool_decide (host = "")); [done|].
  destruct (cutDeprecated host) as [h d]. destruct (parseEndpoint _ h fb) as [name e] eqn:Hp.
  pose proof (parseEndpoint_result _ _ _ _ _ Hfb Hp) as He.
  destruct (if d then (name, true) else cutDeprecated name) as [n d'].
  destruct (IsValidIdentifier n) eqn:Hn; [done|]. simplify_eq. simpl.
  destruct (IsValidIdentifier_spec _ Hn) as [? [? ?]]. done.
Qed.

Module Witness.
Definition r0 : CNPGBranchResolver := mkResolver "xata-clusters" 5432 true.

Lemma Resolve_host_form_witness :
  Resolve r0 "abc123-deprecated-ro.eu.xata.tech" "pooler" =
  Ok (mkBranch "abc123" "branch-abc123-ro.xata-clusters.svc.cluster.local.:5432" "ro").
Proof.
  exact (Resolve_host_form r0 "abc123" "ro" "pooler" _ true "eu.xata.tech" eq_refl eq_refl
           (host_deprecated_endpoint "abc123" "ro")).
Defined.

Lemma Resolve_safe_witness :
  IsValidIdentifier "abc" = None ∧ "abc" ≠ "" ∧
  contains_byte "."%char "abc" = false ∧ contains_byte hyphen "abc" = false ∧
  knownEndpoints r0 "rw" = true ∧
  "branch-abc-rw.xata-clusters.svc.cluster.local.:5432" = address r0 "abc" "rw".
Proof.
  exact (Resolve_safe r0 "abc.eu.xata.tech" "rw"
    (mkBranch "abc" "branch-abc-rw.xata-clusters.svc.cluster.local.:5432" "rw") eq_refl).
Defined.
End Witness.
