(* ===== verification/ClusterDialer.v ===== *)
(** * The cluster dialer: [services/gateway/session/cluster_dialer.go]

    [Dial] and everything it calls as effect trees over TCP dialing, the
    clusters service, the wait context and the clock, and
    [status_poll_interval.go].  The shared status poll is a call answered with
    the result of [waitUntilAvailable] or the waiter's context error, which is
    what the coalescer (file Coalesce) gives its callers.  The strings CNPG
    uses for phases and pod states are a parameter. *)

From S2P Require Import Prelude GoStrings Resolver.

#[local] Open Scope Z_scope.

(** ** Data *)

(** The strings of the CNPG API the dialer compares with. *)
Record CNPG := mkCNPG {
  PodHealthy : string;
  PodReplicating : string;
  PodFailed : string;
  PhaseWaitingForInstancesToBeActive : string;
  PhaseFirstPrimary : string;
  PhaseCreatingReplica : string;
}.

Inductive StatusType := HIBERNATED | HEALTHY | TRANSIENT | FAULTED | UNKNOWN.

#[global] Instance StatusType_eq_dec : EqDecision StatusType.
Proof. solve_decision. Defined.

Record InstanceStatus := mkInstance {
  Primary : bool;
  inst_Status : string;
}.

Record ClusterStatus := mkStatus {
  Status : string;
  Type_ : StatusType;
  InstanceCount : Z;
  InstanceReadyCount : Z;
  Instances : list InstanceStatus;
}.

(** [cl_ScaleToZero]: the [Enabled] of the scale-to-zero configuration. *)
Record Cluster := mkCluster {
  cl_Status : ClusterStatus;
  cl_ScaleToZero : option bool;
  cl_NumInstances : Z;
}.

(** ** Errors *)

Inductive grpc_code := CodeNotFound | CodeCanceled | CodeDeadlineExceeded | CodeOther.

#[global] Instance grpc_code_eq_dec : EqDecision grpc_code.
Proof. solve_decision. Defined.

(** [DialError]: whether it is [ECONNREFUSED], or a DNS error for a name that
    does not exist. *)
Inductive error :=
| DialError (refused notFound : bool) (msg : string)
| GRPCError (code : grpc_code) (msg : string)
| CtxError (e : ctx_error)
| ErrBranchHibernated
| ErrBranchNotFound
| ErrNoReadReplica
| ErrReactivateTimeout
| Wrapf (msg : string) (e : error).

(** The error at the end of the chain [errors.Is] walks. *)
Fixpoint root (e : error) : error :=
  match e with Wrapf _ e => root e | e => e end.

Definition shouldAttemptReactivation (err : option error) : bool :=
  match err with
  | None => false
  | Some e =>
      match root e with DialError refused notFound _ => refused || notFound | _ => false end
  end.

Definition WaitErrorTimeout : string := "timeout".
Definition WaitErrorCanceled : string := "canceled".
Definition WaitErrorRPC : string := "rpc".
Definition WaitErrorDial : string := "dial".

Definition isGRPCStatusError (e : error) : bool :=
  match root e with GRPCError _ _ => true | _ => false end.

Definition waitErrorType (err : option error) : string :=
  match err with
  | None => ""
  | Some e =>
      match root e with
      | ErrReactivateTimeout => WaitErrorTimeout
      | CtxError _ => WaitErrorCanceled
      | GRPCError (CodeCanceled | CodeDeadlineExceeded) _ => WaitErrorCanceled
      | _ => if isGRPCStatusError e then WaitErrorRPC else WaitErrorDial
      end
  end.

(** ** Predicates on the status *)

Section Status.
Context (cnpg : CNPG).

Definition isScaleToZeroEnabled (c : Cluster) : bool :=
  match cl_ScaleToZero c with Some enabled => enabled | None => false end.

Definition isClusterHibernated (s : ClusterStatus) : bool := bool_decide (Type_ s = HIBERNATED).

Definition isClusterStartingOrHealthy (s : ClusterStatus) : bool :=
  bool_decide (Type_ s = HEALTHY) || bool_decide (Type_ s = TRANSIENT).

Definition isClusterAvailable (s : ClusterStatus) : bool :=
  existsb (λ i, Primary i && bool_decide (inst_Status i = PodHealthy cnpg)) (Instances s) ||
  (bool_decide (Type_ s = HEALTHY) && (InstanceCount s =? InstanceReadyCount s)).

Definition noInstanceHasPod (s : ClusterStatus) : bool :=
  match Instances s with
  | [] => false
  | insts =>
      forallb (λ i, negb (bool_decide (inst_Status i = PodHealthy cnpg) ||
                          bool_decide (inst_Status i = PodReplicating cnpg) ||
                          bool_decide (inst_Status i = PodFailed cnpg))) insts
  end.

Definition startingFromZeroPhases : list string :=
  [PhaseWaitingForInstancesToBeActive cnpg; PhaseFirstPrimary cnpg; PhaseCreatingReplica cnpg].

Definition isStartingFromZero (s : ClusterStatus) : bool :=
  (InstanceCount s =? 0) || bool_decide (Status s ∈ startingFromZeroPhases) || noInstanceHasPod s.
End Status.

(** ** status_poll_interval.go, durations in nanoseconds *)

Definition Second : Z := 1000000000.

(** The doubling loop, [steps] times at most. *)
Fixpoint double_interval (steps : nat) (limit interval : Z) : Z :=
  match steps with
  | O => interval
  | S steps =>
      if interval <? limit then
        if Z.quot limit 2 <=? interval then limit else double_interval steps limit (interval * 2)
      else interval
  end.

Definition statusPollInterval (initial elapsed : Z) : Z :=
  let limit := Z.max initial Second in
  double_interval (Z.to_nat (Z.quot elapsed (5 * Second))) limit initial.

(** ** The environment *)

Definition conn : Type := nat.

Inductive call :=
| DialTCP (address : string)
| DescribePostgresCluster (id : string)
| Reactivate (id : string)
| PollStatus (id : string)
| Ticker (interval : Z)
| Elapsed
| WaitDone
| CauseIsTimeout.

(** [Reactivate] is [UpdatePostgresCluster] with [Hibernate: false].
    [Ticker] is a [select] between a tick ([None]) and the context. *)
Definition resp (c : call) : Type :=
  match c with
  | DialTCP _ => res error conn
  | DescribePostgresCluster _ => res error Cluster
  | Reactivate _ => option error
  | PollStatus _ => option error
  | Ticker _ => option ctx_error
  | Elapsed => Z
  | WaitDone => ctx_error
  | CauseIsTimeout => bool
  end.

Abbreviation M A := (prog resp A).

(** ** The dialer *)

Record ClusterDialer := mkDialer {
  statusCheckInterval : Z;
}.

Section Dialer.
Context (cnpg : CNPG) (d : ClusterDialer).

Definition waitErr (clusterID : string) (err : error) : M error :=
  timeout ← perform CauseIsTimeout;
  mret (if timeout : bool then Wrapf ("cluster " +:+ clusterID) ErrReactivateTimeout else err).

(** The dial loop, for at most [n] ticks: by then the deadline of the wait
    context has passed and only the other branch of the [select] is left. *)
Fixpoint dial_loop (n : nat) (clusterID address : string) : M (res error conn) :=
  r ← perform (DialTCP address);
  match r with
  | Ok c => mret (Ok c)
  | Err e =>
      if negb (shouldAttemptReactivation (Some e))
      then mret (Err (Wrapf ("dialing " +:+ address) e))
      else
        match n with
        | O =>
            e ← perform WaitDone;
            e ← waitErr clusterID (CtxError e);
            mret (Err e)
        | S n =>
            t ← perform (Ticker (statusCheckInterval d));
            match t with
            | Some e => e ← waitErr clusterID (CtxError e); mret (Err e)
            | None => dial_loop n clusterID address
            end
        end
  end.

Definition waitUntilReachable (n : nat) (clusterID address : string) : M (res error conn) :=
  p ← perform (PollStatus clusterID);
  match p with
  | Some e => e ← waitErr clusterID e; mret (Err e)
  | None => dial_loop n clusterID address
  end.

(** What the shared poll runs, for at most [n] ticks before its context ends. *)
Fixpoint poll_loop (n : nat) (clusterID : string) (statusInterval : Z) : M (res error unit) :=
  match n with
  | O => e ← perform WaitDone; mret (Err (CtxError e))
  | S n =>
      t ← perform (Ticker statusInterval);
      match t with
      | Some e => mret (Err (CtxError e))
      | None =>
          r ← perform (DescribePostgresCluster clusterID);
          match r with
          | Err e => mret (Err (Wrapf "checking cluster status" e))
          | Ok cluster =>
              if isClusterAvailable cnpg (cl_Status cluster) then mret (Ok tt)
              else
                elapsed ← perform Elapsed;
                poll_loop n clusterID (statusPollInterval (statusCheckInterval d) elapsed)
          end
      end
  end.

Definition waitUntilAvailable (n : nat) (clusterID : string) : M (res error unit) :=
  poll_loop n clusterID (statusCheckInterval d).

Definition reactivateCluster (n : nat) (clusterID address : string) : M (res error conn) :=
  e ← perform (Reactivate clusterID);
  match e with
  | Some e => mret (Err (Wrapf ("reactivating hibernated cluster " +:+ clusterID) e))
  | None => waitUntilReachable n clusterID address
  end.

(** What [Dial] decides to do with a branch it could not dial. *)
Inductive decision :=
| Surface (e : error)
| Wake
| Hold.

Definition decide_dial (branch : Branch) (dialErr : error) (cluster : Cluster) : decision :=
  let s := cl_Status cluster in
  if bool_decide (Endpoint branch = EndpointRO) && (cl_NumInstances cluster =? 1)
  then Surface ErrNoReadReplica
  else if isClusterHibernated s && isScaleToZeroEnabled cluster then Wake
  else if isClusterHibernated s then Surface ErrBranchHibernated
  else if isClusterStartingOrHealthy s then
    if negb (isClusterAvailable cnpg s) && negb (isStartingFromZero cnpg s)
    then Surface dialErr else Hold
  else Surface dialErr.

Definition Dial (n : nat) (branch : Branch) : M (res error conn) :=
  r ← perform (DialTCP (Address branch));
  match r with
  | Ok c => mret (Ok c)
  | Err dialErr =>
      if negb (shouldAttemptReactivation (Some dialErr)) then mret (Err dialErr)
      else
        c ← perform (DescribePostgresCluster (ID branch));
        match c with
        | Err e =>
            mret (Err (match root e with
                       | GRPCError CodeNotFound _ => ErrBranchNotFound
                       | _ => dialErr
                       end))
        | Ok cluster =>
            match decide_dial branch dialErr cluster with
            | Surface e => mret (Err e)
            | Wake =>
                r ← reactivateCluster n (ID branch) (Address branch);
                mret (match r with Ok c => Ok c | Err _ => Err dialErr end)
            | Hold =>
                r ← waitUntilReachable n (ID branch) (Address branch);
                mret (match r with Ok c => Ok c | Err _ => Err dialErr end)
            end
        end
  end.
End Dialer.

(** ** Observations *)

(** What a run shows of the outside: connections made, hibernated clusters
    woken, clusters described, waits on the shared poll. *)
Inductive note :=
| NConnected (address : string) (c : conn)
| NRefused (address : string) (e : error)
| NDescribed (c : Cluster)
| NUnknown (e : error)
| NWoken (id : string)
| NHeld (id : string) (ready : bool).

Definition note_of (e : event resp) : option note :=
  match e with
  | ev c r =>
      match c return resp c → option note with
      | DialTCP a => λ r, match r with Ok c => Some (NConnected a c) | Err e => Some (NRefused a e) end
      | DescribePostgresCluster _ => λ r,
          match r with Ok c => Some (NDescribed c) | Err e => Some (NUnknown e) end
      | Reactivate id => λ _, Some (NWoken id)
      | PollStatus id => λ r, Some (NHeld id (bool_decide (r = None)))
      | _ => λ _, None
      end r
  end.

Definition notes (tr : list (event resp)) : list note := omap note_of tr.

(** The dials of a wait: refused ones, then a connection if it succeeds. *)
Inductive dials (address : string) : list note → res error conn → Prop :=
| dials_connected c : dials address [NConnected address c] (Ok c)
| dials_failed e err : dials address [NRefused address e] (Err err)
| dials_again e l r :
    shouldAttemptReactivation (Some e) = true → dials address l r →
    dials address (NRefused address e :: l) r.

Inductive waits (id address : string) : list note → res error conn → Prop :=
| waits_gave_up err : waits id address [NHeld id false] (Err err)
| waits_ready l r : dials address l r → waits id address (NHeld id true :: l) r.

(** ** Lemmas *)

Section Lemmas.
Context (cnpg : CNPG) (d : ClusterDialer).

Lemma wp_waitErr id e acc (Q : list note → error → Prop) :
  (∀ e', Q acc e') → wp resp note_of (waitErr id e) acc Q.
Proof. intros HQ. simpl. intros b. apply HQ. Qed.

Lemma dial_loop_dials n id a acc :
  wp resp note_of (dial_loop d n id a) acc (λ l r, ∃ l', l = acc ++ l' ∧ dials a l' r).
Proof.
  revert acc. induction n as [|n IH]; intros acc; cbn [dial_loop];
    apply (wp_perform _ (DialTCP a)); intros [c|e]; cbn [note_of];
    try (eexists; split; [done|constructor]).
  - destruct (shouldAttemptReactivation (Some e)); simpl; [|eexists; split; [done|constructor]].
    intros ce b. eexists. split; [done|constructor].
  - destruct (shouldAttemptReactivation (Some e)) eqn:He; simpl negb; cbv iota;
      [|eexists; split; [done|constructor]].
    apply (wp_perform _ (Ticker (statusCheckInterval d))). intros [ce|]; cbn [note_of].
    + simpl. intros b. eexists. split; [done|constructor].
    + eapply wp_mono; [|apply IH]. intros l r (l' & -> & Hl).
      exists (NRefused a e :: l'). split; [by rewrite <-app_assoc|]. by constructor.
Qed.

Lemma waitUntilReachable_waits n id a acc :
  wp resp note_of (waitUntilReachable d n id a) acc (λ l r, ∃ l', l = acc ++ l' ∧ waits id a l' r).
Proof.
  unfold waitUntilReachable. apply (wp_perform _ (PollStatus id)). intros [e|]; cbn [note_of].
  - apply wp_bind, wp_waitErr. intros e'. eexists. split; [done|].
    rewrite bool_decide_false by done. constructor.
  - eapply wp_mono; [|apply dial_loop_dials]. intros l r (l' & -> & Hl).
    rewrite bool_decide_true by done. rewrite <-app_assoc. eexists. split; [done|]. by constructor.
Qed.

(** *** The runs of [Dial] *)

Definition masked (dialErr : error) (r : res error conn) : res error conn :=
  match r with Ok c => Ok c | Err _ => Err dialErr end.

Inductive dial_shape (b : Branch) : list note → res error conn → Prop :=
| shape_connected c : dial_shape b [NConnected (Address b) c] (Ok c)
| shape_other e :
    shouldAttemptReactivation (Some e) = false →
    dial_shape b [NRefused (Address b) e] (Err e)
| shape_unknown e e' :
    shouldAttemptReactivation (Some e) = true →
    dial_shape b [NRefused (Address b) e; NUnknown e']
      (Err (match root e' with GRPCError CodeNotFound _ => ErrBranchNotFound | _ => e end))
| shape_surfaced e cl e' :
    shouldAttemptReactivation (Some e) = true → decide_dial cnpg b e cl = Surface e' →
    dial_shape b [NRefused (Address b) e; NDescribed cl] (Err e')
| shape_held e cl l r :
    shouldAttemptReactivation (Some e) = true → decide_dial cnpg b e cl = Hold →
    waits (ID b) (Address b) l r →
    dial_shape b (NRefused (Address b) e :: NDescribed cl :: l) (masked e r)
| shape_not_woken e cl :
    shouldAttemptReactivation (Some e) = true → decide_dial cnpg b e cl = Wake →
    dial_shape b [NRefused (Address b) e; NDescribed cl; NWoken (ID b)] (Err e)
| shape_woken e cl l r :
    shouldAttemptReactivation (Some e) = true → decide_dial cnpg b e cl = Wake →
    waits (ID b) (Address b) l r →
    dial_shape b (NRefused (Address b) e :: NDescribed cl :: NWoken (ID b) :: l) (masked e r).

Lemma Dial_shape n b : wp resp note_of (Dial cnpg d n b) [] (dial_shape b).
Proof.
  unfold Dial. apply (wp_perform _ (DialTCP (Address b))). intros [c|e]; cbn [note_of]; [constructor|].
  destruct (shouldAttemptReactivation (Some e)) eqn:He; simpl negb; cbv iota; [|by constructor].
  apply (wp_perform _ (DescribePostgresCluster (ID b))). intros [cl|e']; cbn [note_of]; [|by constructor].
  destruct (decide_dial cnpg b e cl) as [e'| |] eqn:Hd; [by constructor|..].
  - apply wp_bind. unfold reactivateCluster. apply (wp_perform _ (Reactivate (ID b))).
    intros [e'|]; cbn [note_of]; [by constructor|].
    eapply wp_mono; [|apply waitUntilReachable_waits]. intros l r (l' & -> & Hl).
    by apply shape_woken.
  - apply wp_bind. eapply wp_mono; [|apply waitUntilReachable_waits].
    intros l r (l' & -> & Hl). by apply shape_held.
Qed.

Lemma Dial_runs n b tr r : runs resp (Dial cnpg d n b) tr r → dial_shape b (notes tr) r.
Proof. intros Hr. exact (wp_sound _ _ [] _ _ _ (Dial_shape n b) Hr). Qed.

Lemma dials_connects a l c : dials a l (Ok c) → NConnected a c ∈ l.
Proof. intros Hl. remember (Ok c) as r eqn:Hr. induction Hl; simplify_eq; set_solver. Qed.

Lemma dials_only a l r v :
  dials a l r → v ∈ l → (∃ c, v = NConnected a c) ∨ (∃ e, v = NRefused a e).
Proof.
  induction 1; intros Hin; apply elem_of_cons in Hin as [->|Hin]; eauto;
    by apply elem_of_nil in Hin.
Qed.
End Lemmas.

(** ** Properties *)

Section Properties.
Context (cnpg : CNPG) (d : ClusterDialer).

(** The decision is made on the cluster described, before any wait. *)
Lemma dial_shape_described b l r :
  dial_shape cnpg b l r →
  ∀ v, v ∈ l → match v with
    | NWoken id => id = ID b ∧ ∃ e cl, NDescribed cl ∈ l ∧ decide_dial cnpg b e cl = Wake
    | NHeld id _ => id = ID b ∧ ∃ e cl, NDescribed cl ∈ l ∧
        (decide_dial cnpg b e cl = Wake ∨ decide_dial cnpg b e cl = Hold)
    | NDescribed cl => ∀ cl', NDescribed cl' ∈ l → cl' = cl
    | _ => True
    end.
Proof.
  assert (Hw : ∀ l r v, waits (ID b) (Address b) l r → v ∈ l →
    (∃ c, v = NConnected (Address b) c) ∨ (∃ e, v = NRefused (Address b) e) ∨
    ∃ ready, v = NHeld (ID b) ready).
  { intros l' r' v Hl Hin. destruct Hl as [|l1 r1 Hl]; apply elem_of_cons in Hin as [->|Hin]; eauto.
    - by apply elem_of_nil in Hin.
    - destruct (dials_only _ _ _ _ Hl Hin); eauto. }
  assert (Hd : ∀ l r cl, waits (ID b) (Address b) l r → NDescribed cl ∉ l).
  { intros l' r' cl Hl Hin. destruct (Hw _ _ _ Hl Hin) as [[? [=]]|[[? [=]]|[? [=]]]]. }
  intros Hs v Hin.
  destruct Hs as [c|e He|e e' He|e cl e' He Hdec|e cl l r He Hdec Hl|e cl He Hdec|e cl l r He Hdec Hl];
    rewrite ?elem_of_cons, ?elem_of_nil in Hin;
    repeat match goal with H : _ ∨ _ |- _ => destruct H as [->|H] end; try done;
    try (destruct (Hw _ _ _ Hl Hin) as [[c ->]|[[x ->]|[ready ->]]]); try done;
    try (split; [done|]; exists e, cl; split; [set_solver|]; auto; fail);
    intros cl' Hc; rewrite ?elem_of_cons, ?elem_of_nil in Hc;
    repeat match goal with H : _ ∨ _ |- _ => destruct H as [H|H] end; simplify_eq; try done;
    by edestruct Hd.
Qed.

Lemma decide_Wake b e cl :
  decide_dial cnpg b e cl = Wake →
  isClusterHibernated (cl_Status cl) = true ∧ isScaleToZeroEnabled cl = true ∧
  (Endpoint b = EndpointRO → cl_NumInstances cl ≠ 1).
Proof.
  unfold decide_dial. destruct (bool_decide (Endpoint b = EndpointRO) && (cl_NumInstances cl =? 1)) eqn:Hro; [done|].
  destruct (isClusterHibernated _), (isScaleToZeroEnabled _); simpl; try case_match; try done;
    try case_match; try done.
  intros _. split_and!; try done. intros Hr. rewrite bool_decide_true in Hro by done. simpl in Hro. lia.
Qed.

(** The gateway only wakes a cluster it was asked to dial, after the dial
    failed because nothing listens, and only when the cluster is hibernated
    with scale-to-zero on; never for the read-only endpoint of a branch that
    has no replica. *)
Theorem wakes_only_scaled_to_zero n b tr r id
    (Hrun : runs resp (Dial cnpg d n b) tr r) (Hwoken : NWoken id ∈ notes tr) :
  id = ID b ∧ ∃ cl, NDescribed cl ∈ notes tr ∧
    isClusterHibernated (cl_Status cl) = true ∧ isScaleToZeroEnabled cl = true ∧
    (Endpoint b = EndpointRO → cl_NumInstances cl ≠ 1).
Proof.
  apply Dial_runs in Hrun. destruct (dial_shape_described _ _ _ Hrun _ Hwoken) as [-> (e & cl & Hc & Hd)].
  split; [done|]. exists cl. split; [done|]. by eapply decide_Wake.
Qed.

(** A connection is not held for a cluster that serves nothing: when the
    cluster is neither hibernated nor available, has instances, is in no
    starting phase, and one of its instances has a pod that is replicating or
    failed, [Dial] waits for nothing and returns an error. *)
Theorem crashed_cluster_is_not_held n b tr r cl i
    (Hrun : runs resp (Dial cnpg d n b) tr r) (Hcl : NDescribed cl ∈ notes tr)
    (Hhib : isClusterHibernated (cl_Status cl) = false)
    (Havail : isClusterAvailable cnpg (cl_Status cl) = false)
    (Hcount : InstanceCount (cl_Status cl) ≠ 0)
    (Hphase : Status (cl_Status cl) ∉ startingFromZeroPhases cnpg)
    (Hinst : i ∈ Instances (cl_Status cl))
    (Hpod : inst_Status i = PodReplicating cnpg ∨ inst_Status i = PodFailed cnpg) :
  (∀ id ready, NHeld id ready ∉ notes tr) ∧ (∀ id, NWoken id ∉ notes tr).
Proof.
  assert (Hpods : noInstanceHasPod cnpg (cl_Status cl) = false).
  { unfold noInstanceHasPod. destruct (Instances (cl_Status cl)) as [|i0 is0]; [done|].
    apply not_true_iff_false. rewrite forallb_forall. intros Hall.
    specialize (Hall i ltac:(by apply list_elem_of_In)).
    apply negb_true_iff, orb_false_iff in Hall as [[_ Hr]%orb_false_iff Hf].
    apply bool_decide_eq_false in Hr, Hf. by destruct Hpod. }
  assert (Hstart : isStartingFromZero cnpg (cl_Status cl) = false).
  { unfold isStartingFromZero. rewrite Hpods, bool_decide_false by done.
    by destruct (Z.eqb_spec (InstanceCount (cl_Status cl)) 0). }
  assert (Hdec : ∀ e, decide_dial cnpg b e cl ≠ Wake ∧ decide_dial cnpg b e cl ≠ Hold).
  { intros e. unfold decide_dial. rewrite Hhib, Havail, Hstart. simpl.
    destruct (_ && _); [done|]. by destruct (isClusterStartingOrHealthy _). }
  apply Dial_runs in Hrun. pose proof (dial_shape_described _ _ _ Hrun) as Hs.
  split.
  - intros id ready Hin. destruct (Hs _ Hin) as [_ (e & cl' & Hc & Hd)].
    pose proof (Hs _ Hcl _ Hc) as ->. destruct (Hdec e). by destruct Hd.
  - intros id Hin. destruct (Hs _ Hin) as [_ (e & cl' & Hc & Hd)].
    pose proof (Hs _ Hcl _ Hc) as ->. by destruct (Hdec e).
Qed.

(** What [Dial] returns: a connection the run made to the branch's own
    address, or one of four errors, each for its reason: the error of the first
    dial, the branch is unknown, it has no replica, it is hibernated by hand. *)
Theorem Dial_result n b tr r (Hrun : runs resp (Dial cnpg d n b) tr r) :
  match r with
  | Ok c => NConnected (Address b) c ∈ notes tr
  | Err e =>
      head (notes tr) = Some (NRefused (Address b) e) ∨
      (e = ErrBranchNotFound ∧ ∃ e' msg, NUnknown e' ∈ notes tr ∧ root e' = GRPCError CodeNotFound msg) ∨
      ∃ cl, NDescribed cl ∈ notes tr ∧
        ((e = ErrNoReadReplica ∧ Endpoint b = EndpointRO ∧ cl_NumInstances cl = 1) ∨
         (e = ErrBranchHibernated ∧ isClusterHibernated (cl_Status cl) = true ∧
          isScaleToZeroEnabled cl = false))
  end.
Proof.
  apply Dial_runs in Hrun. revert Hrun. generalize (notes tr). intros l0 Hrun.
  assert (Hw : ∀ l c, waits (ID b) (Address b) l (Ok c) → NConnected (Address b) c ∈ l).
  { intros l c Hl. inversion Hl; subst. right. by apply dials_connects. }
  inversion Hrun as [c|e He|e e' He|e cl e' He Hd|e cl l r' He Hd Hl|e cl He Hd|e cl l r' He Hd Hl];
    subst.
  - by left.
  - by left.
  - destruct (root e') as [| [] |?| | | | |] eqn:Hroot; try (by left). right. left. split; [done|].
    exists e', msg. split; [set_solver|done].
  - revert Hd. unfold decide_dial.
    destruct (bool_decide (Endpoint b = EndpointRO) && (cl_NumInstances cl =? 1)) eqn:Hro.
    { intros [= <-]. apply andb_true_iff in Hro as [Hro ?]. apply bool_decide_eq_true in Hro.
      right. right. exists cl. split; [set_solver|]. left. split_and!; [done|done|lia]. }
    destruct (isClusterHibernated (cl_Status cl)) eqn:Hh; simpl.
    { destruct (isScaleToZeroEnabled cl) eqn:Hs; [done|]. intros [= <-].
      right. right. exists cl. split; [set_solver|]. right. done. }
    destruct (isClusterStartingOrHealthy _); [|by intros [= <-]; left].
    destruct (negb (isClusterAvailable cnpg (cl_Status cl)) && negb (isStartingFromZero cnpg (cl_Status cl))); intros [= <-]. by left.
  - destruct r' as [c|e']; simpl; [|by left]. do 2 right. by apply Hw.
  - by left.
  - destruct r' as [c|e']; simpl; [|by left]. do 3 right. by apply Hw.
Qed.
End Properties.

(** ** The shared status poll *)

(** The statuses a poll sees. *)
Definition described_of (e : event resp) : option ClusterStatus :=
  match e with
  | ev c r =>
      match c return resp c → option ClusterStatus with
      | DescribePostgresCluster _ => λ r, match r with Ok c => Some (cl_Status c) | Err _ => None end
      | _ => λ _, None
      end r
  end.

Definition described (tr : list (event resp)) : list ClusterStatus := omap described_of tr.

Section Poll.
Context (cnpg : CNPG) (d : ClusterDialer).

Lemma poll_loop_described n id i acc :
  Forall (λ s, isClusterAvailable cnpg s = false) acc →
  wp resp described_of (poll_loop cnpg d n id i) acc (λ l r,
    match r with
    | Ok _ => ∃ l' s, l = l' ++ [s] ∧ isClusterAvailable cnpg s = true ∧
        Forall (λ s, isClusterAvailable cnpg s = false) l'
    | Err _ => Forall (λ s, isClusterAvailable cnpg s = false) l
    end).
Proof.
  revert i acc. induction n as [|n IH]; intros i acc Hacc; cbn [poll_loop]; [simpl; intros e; done|].
  apply (wp_perform _ (Ticker i)). intros [e|]; cbn [described_of]; [done|].
  apply (wp_perform _ (DescribePostgresCluster id)). intros [cl|e]; cbn [described_of]; [|done].
  destruct (isClusterAvailable cnpg (cl_Status cl)) eqn:Ha; [by exists acc, (cl_Status cl)|].
  apply (wp_perform _ Elapsed). intros el. cbn [described_of]. apply IH.
  apply Forall_app. by rewrite Forall_singleton.
Qed.

(** The poll that releases held connections succeeds exactly on the first
    available status it sees, the same predicate that decides to hold: every
    status before was not available, and it never succeeds without one. *)
Theorem poll_ends_on_first_available n id tr r
    (Hrun : runs resp (waitUntilAvailable cnpg d n id) tr r) :
  match r with
  | Ok _ => ∃ l s, described tr = l ++ [s] ∧ isClusterAvailable cnpg s = true ∧
      Forall (λ s, isClusterAvailable cnpg s = false) l
  | Err _ => Forall (λ s, isClusterAvailable cnpg s = false) (described tr)
  end.
Proof.
  exact (wp_sound _ _ [] _ _ _ (poll_loop_described n id _ [] ltac:(constructor)) Hrun).
Qed.

Lemma double_interval_spec steps limit x :
  0 < x → x ≤ 2 * Z.quot limit 2 → limit = 2 * Z.quot limit 2 →
  double_interval steps limit x = Z.min limit (x * 2 ^ Z.of_nat steps).
Proof.
  intros Hx Hle Heven. revert x Hx Hle. induction steps as [|k IH]; intros x Hx Hle.
  { simpl. lia. }
  rewrite Nat2Z.inj_succ, Z.pow_succ_r by lia.
  assert (Hp : 1 ≤ 2 ^ Z.of_nat k) by (apply (Z.pow_le_mono_r 2 0); lia).
  cbn [double_interval]. destruct (Z.ltb_spec x limit); [|nia].
  destruct (Z.leb_spec (Z.quot limit 2) x); [nia|].
  rewrite IH by lia. nia.
Qed.

(** The polling interval is the initial one, doubled every five seconds and
    capped by the larger of itself and one second. *)
Lemma statusPollInterval_spec initial elapsed :
  0 < initial → 0 ≤ elapsed →
  statusPollInterval initial elapsed =
  Z.min (Z.max initial Second) (initial * 2 ^ Z.quot elapsed (5 * Second)).
Proof.
  intros Hi He. unfold statusPollInterval.
  assert (Hq : 0 ≤ Z.quot elapsed (5 * Second)) by (apply Z.quot_pos; unfold Second; lia).
  assert (Hp : 1 ≤ 2 ^ Z.quot elapsed (5 * Second)) by (apply (Z.pow_le_mono_r 2 0); lia).
  destruct (Z.le_gt_cases Second initial) as [Hl|Hl].
  - replace (Z.max initial Second) with initial by lia.
    assert (Hd : ∀ k, double_interval k initial initial = initial).
    { intros [|k]; simpl; [done|]. by rewrite Z.ltb_irrefl. }
    rewrite Hd. nia.
  - replace (Z.max initial Second) with Second by lia.
    assert (Hs : Z.quot Second 2 = 500000000) by done.
    rewrite double_interval_spec; [|lia|unfold Second in *; lia|unfold Second in *; lia].
    by rewrite Z2Nat.id by done.
Qed.

(** The status poll backs off without overflowing: the interval never
    falls below the initial one, never exceeds the larger of it and one
    second, never shrinks as the wait goes on, and doubles every five seconds
    in between. *)
Theorem statusPollInterval_bounded initial e1 e2
    (Hinitial : 0 < initial) (He1 : 0 ≤ e1) (Hle : e1 ≤ e2) :
  initial ≤ statusPollInterval initial e1 ≤ statusPollInterval initial e2 ∧
  statusPollInterval initial e2 ≤ Z.max initial Second ∧
  statusPollInterval initial e1 =
    Z.min (Z.max initial Second) (initial * 2 ^ Z.quot e1 (5 * Second)).
Proof.
  rewrite !statusPollInterval_spec by lia.
  assert (Hq : 0 ≤ Z.quot e1 (5 * Second)) by (apply Z.quot_pos; unfold Second; lia).
  assert (Hq2 : Z.quot e1 (5 * Second) ≤ Z.quot e2 (5 * Second)).
  { apply Z.quot_le_mono; unfold Second; lia. }
  assert (1 ≤ 2 ^ Z.quot e1 (5 * Second)) by (apply (Z.pow_le_mono_r 2 0); lia).
  assert (2 ^ Z.quot e1 (5 * Second) ≤ 2 ^ Z.quot e2 (5 * Second)) by (apply Z.pow_le_mono_r; lia).
  split_and!; nia.
Qed.
End Poll.

(** ** Timeouts *)

(** The context's cause was looked up and is the reactivation timeout. *)
Definition timed_out_of (e : event resp) : option unit :=
  match e with
  | ev c r =>
      match c return resp c → option unit with
      | CauseIsTimeout => λ b, if b : bool then Some tt else None
      | _ => λ _, None
      end r
  end.

Section Timeouts.
Context (d : ClusterDialer).

(** A failed wait says how it ended: timed out when [CauseIsTimeout] said so. *)
Definition classified (l : list unit) (r : res error conn) : Prop :=
  l = [] ∨ ∃ e, r = Err e ∧ waitErrorType (Some e) = WaitErrorTimeout.

Lemma waitErr_classified id e :
  wp resp timed_out_of (e ← waitErr id e; mret (Err e)) [] classified.
Proof. simpl. intros [|]; simpl; [right; eauto|by left]. Qed.

Lemma dial_loop_classified n id a : wp resp timed_out_of (dial_loop d n id a) [] classified.
Proof.
  induction n as [|n IH]; cbn [dial_loop];
    apply (wp_perform _ (DialTCP a)); intros [c|e]; cbn [timed_out_of]; try (by left);
    destruct (shouldAttemptReactivation (Some e)); simpl negb; cbv iota; try (by left).
  - apply (wp_perform _ WaitDone). intros ce. apply waitErr_classified.
  - apply (wp_perform _ (Ticker (statusCheckInterval d))). intros [ce|]; cbn [timed_out_of].
    + apply waitErr_classified.
    + apply IH.
Qed.

(** A wait that ends because the reactivation timeout passed is reported as
    a timeout, never as the client giving up, whatever error ended the wait. *)
Theorem timeout_is_reported_as_timeout n id a tr r
    (Hrun : runs resp (waitUntilReachable d n id a) tr r)
    (Htimeout : ev CauseIsTimeout true ∈ tr) :
  ∃ e, r = Err e ∧ waitErrorType (Some e) = WaitErrorTimeout.
Proof.
  assert (Hwp : wp resp timed_out_of (waitUntilReachable d n id a) [] classified).
  { apply (wp_perform _ (PollStatus id)). intros [e|]; cbn [timed_out_of];
      [apply waitErr_classified|apply dial_loop_classified]. }
  destruct (wp_sound _ _ [] _ _ _ Hwp Hrun) as [Hnil|]; [|done].
  exfalso. assert (Hin : tt ∈ omap timed_out_of tr).
  { apply list_elem_of_omap. by exists (ev CauseIsTimeout true). }
  simpl in Hnil. rewrite Hnil in Hin. by apply elem_of_nil in Hin.
Qed.
End Timeouts.

Module Witness.
Definition cnpg0 : CNPG := mkCNPG "healthy" "replicating" "failed" "waiting" "primary" "replica".
Definition d0 : ClusterDialer := mkDialer 100000000.
Definition branch0 : Branch := mkBranch "b1" "branch-b1-rw.ns.svc.cluster.local.:5432" "rw".

Definition asleep : Cluster := mkCluster (mkStatus "" HIBERNATED 1 0 []) (Some true) 1.
Definition crashed : Cluster :=
  mkCluster (mkStatus "Cluster in healthy state" HEALTHY 1 0 [mkInstance true "failed"]) None 1.

(** The dial fails [fails] times and then connects; the clusters service
    always describes [cl]. *)
Definition world (fails : nat) (cl : Cluster) : env resp nat := λ w c,
  match c return nat * resp c with
  | DialTCP _ => (S w, if bool_decide (fails ≤ w)%nat then Ok 7%nat
                       else Err (DialError true false "connection refused"))
  | DescribePostgresCluster _ => (w, Ok cl)
  | Reactivate _ => (w, None)
  | PollStatus _ => (w, None)
  | Ticker _ => (w, None)
  | Elapsed => (w, 0)
  | WaitDone => (w, DeadlineExceeded)
  | CauseIsTimeout => (w, true)
  end.

Definition waking := exec resp (world 2 asleep) 0%nat (Dial cnpg0 d0 5 branch0).
Definition crashing := exec resp (world 2 crashed) 0%nat (Dial cnpg0 d0 5 branch0).

Lemma wakes_only_scaled_to_zero_witness :
  waking.2 = Ok 7%nat ∧ "b1" = ID branch0 ∧ ∃ cl, NDescribed cl ∈ notes waking.1.1 ∧
    isClusterHibernated (cl_Status cl) = true ∧ isScaleToZeroEnabled cl = true ∧
    (Endpoint branch0 = EndpointRO → cl_NumInstances cl ≠ 1).
Proof.
  split; [vm_compute; reflexivity|].
  apply (wakes_only_scaled_to_zero cnpg0 d0 5 branch0 waking.1.1 waking.2).
  - exact (exec_runs (world 2 asleep) 0%nat _).
  - vm_compute. do 2 right. left.
Defined.

Lemma crashed_cluster_is_not_held_witness :
  crashing.2 = Err (DialError true false "connection refused") ∧
  (∀ id ready, NHeld id ready ∉ notes crashing.1.1) ∧ (∀ id, NWoken id ∉ notes crashing.1.1).
Proof.
  split; [vm_compute; reflexivity|].
  apply (crashed_cluster_is_not_held cnpg0 d0 5 branch0 crashing.1.1 crashing.2 crashed
           (mkInstance true "failed")).
  - exact (exec_runs (world 2 crashed) 0%nat _).
  - vm_compute. right. left.
  - reflexivity.
  - reflexivity.
  - discriminate.
  - apply (bool_decide_unpack _). vm_compute. exact I.
  - left.
  - right. reflexivity.
Defined.

Lemma Dial_result_witness : NConnected (Address branch0) 7%nat ∈ notes waking.1.1.
Proof.
  exact (Dial_result cnpg0 d0 5 branch0 waking.1.1 (Ok 7%nat) (exec_runs (world 2 asleep) 0%nat _)).
Defined.

Definition healthy : Cluster := mkCluster (mkStatus "" HEALTHY 1 1 []) None 1.
Definition polling := exec resp (world 0 healthy) 0%nat (waitUntilAvailable cnpg0 d0 3 "b1").

Lemma poll_ends_on_first_available_witness :
  ∃ l s, described polling.1.1 = l ++ [s] ∧ isClusterAvailable cnpg0 s = true ∧
    Forall (λ s, isClusterAvailable cnpg0 s = false) l.
Proof.
  exact (poll_ends_on_first_available cnpg0 d0 3 "b1" polling.1.1 (Ok tt)
           (exec_runs (world 0 healthy) 0%nat _)).
Defined.

Lemma statusPollInterval_bounded_witness :
  100000000 ≤ statusPollInterval 100000000 0 ≤ statusPollInterval 100000000 (20 * Second) ∧
  statusPollInterval 100000000 (20 * Second) ≤ Z.max 100000000 Second.
Proof.
  destruct (statusPollInterval_bounded 100000000 0 (20 * Second)) as (H1 & H2 & _);
    [lia|lia|unfold Second; lia|exact (conj H1 H2)].
Defined.

Definition timing_out := exec resp (world 100 healthy) 0%nat (waitUntilReachable d0 3 "b1" "addr").

Lemma timeout_is_reported_as_timeout_witness :
  ∃ e, timing_out.2 = Err e ∧ waitErrorType (Some e) = WaitErrorTimeout.
Proof.
  apply (timeout_is_reported_as_timeout d0 3 "b1" "addr" timing_out.1.1 timing_out.2).
  - exact (exec_runs (world 100 healthy) 0%nat _).
  - vm_compute. do 9 right. left.
Defined.
End Witness.
