(* ===== verification/Initiator.v ===== *)
(** * How the gateway accepts a connection: [services/gateway/initiator] and
    [services/gateway/session/proxy.go]

    [TLSInitiator.InitSession] reads the PostgreSQL startup packets, upgrades
    the connection to TLS and asks the proxy for a backend session; the proxy
    resolves the branch, checks the client's address, dials and forwards the
    startup message.  The packets a client sends are a list, in clear and, after
    the handshake, inside TLS; a list that is used up is a closed connection.
    Everything else is an effect tree with arbitrary answers.  Tracing and
    logging are left out. *)

From S2P Require Import Prelude GoStrings.

(** ** Messages *)

(** [pgproto3.FrontendMessage]: a startup message or cancel request keeps its
    content as text. *)
Inductive FrontendMessage :=
| SSLRequest
| GSSEncRequest
| StartupMessage (body : string)
| CancelRequest (body : string)
| Terminate
| OtherMessage (type : string).

(** A packet as [ReceiveStartupMessage] returns it, or its error's text. *)
#[global] Abbreviation packet := (res string FrontendMessage).

Inductive BackendMessage :=
| NoResponse
| SSLYesResponse
| ErrorResponse (Severity Code Message : string).

(** ** Errors *)

Inductive error :=
| ErrIPNotAllowed
| ErrBranchHibernated
| ErrNoReadReplica
| ErrorSSLRequired
| ErrorStartupMsgCode
| ErrorStartupMsgLength
| Errorf (msg : string)
| Wrapf (msg : string) (e : error)
| branchIDError (branchID : string) (e : error).

(** [errors.Is] against one of the sentinels. *)
Fixpoint Is (sentinel : error → bool) (e : error) : bool :=
  sentinel e ||
  match e with
  | Wrapf _ e | branchIDError _ e => Is sentinel e
  | _ => false
  end.

Definition is_ip_not_allowed (e : error) : bool := match e with ErrIPNotAllowed => true | _ => false end.
Definition is_hibernated (e : error) : bool := match e with ErrBranchHibernated => true | _ => false end.
Definition is_no_replica (e : error) : bool := match e with ErrNoReadReplica => true | _ => false end.

Definition isClientFacingError (e : error) : bool :=
  Is is_ip_not_allowed e || Is is_hibernated e || Is is_no_replica e.

Definition withBranchID (branchID : string) (e : error) : error :=
  if bool_decide (branchID = "") then e else branchIDError branchID e.

(** ** The environment *)

Record Branch := mkBranch {
  ID : string;
  Address : string;
}.

Inductive Session := NoopSession | BackendSession (branchID : string).

(** [tls] tells the connection inside TLS from the one in clear.  [ClientAddr]
    is [RemoteAddr] of the connection. *)
Inductive call :=
| PeekByte
| TLSHandshake
| Send (tls : bool) (m : BackendMessage)
| Flush (tls : bool)
| Resolve (serverName : string)
| ClientAddr
| IsAllowed (branchID clientAddr : string)
| Dial (branch : Branch)
| SendMessage (m : FrontendMessage)
| CloseOut.

(** The handshake answers with the server name the client asked for; errors of
    calls other than [Resolve] and [Dial] are plain texts. *)
Definition resp (c : call) : Type :=
  match c with
  | PeekByte => res string Z
  | TLSHandshake => res string string
  | Send _ _ => unit
  | Flush _ => option string
  | Resolve _ => res error Branch
  | ClientAddr => string
  | IsAllowed _ _ => bool
  | Dial _ => res error unit
  | SendMessage _ => option string
  | CloseOut => option string
  end.

#[global] Abbreviation M A := (prog resp A).
#[global] Abbreviation E A := (M (res error A)).
Definition ok {A} (a : A) : E A := mret (Ok a).
Definition fail {A} (e : error) : E A := mret (Err e).

#[local] Open Scope go_scope.

(** ** session/proxy.go *)

Section Gateway.
(** Whether an IP filter is configured. *)
Variable filtered : bool.

Definition CheckIPAllowed (branchID clientAddr : string) : E unit :=
  if negb filtered then ok tt
  else
    allowed ← perform (IsAllowed branchID clientAddr);
    if allowed : bool then ok tt else fail ErrIPNotAllowed.

(** The branch whose connection was opened; an error comes with the branch ID
    when it is known. *)
Definition initProxyConn (serverName : string) (msg : FrontendMessage)
    : M (res (string * error) string) :=
  r ← perform (Resolve serverName);
  match r with
  | Err e => mret (Err ("", e))
  | Ok branch =>
      clientAddr ← perform ClientAddr;
      allowed ← CheckIPAllowed (ID branch) clientAddr;
      match allowed with
      | Err e => mret (Err ("", e))
      | Ok _ =>
          out ← perform (Dial branch);
          match out with
          | Err e =>
              mret (Err (ID branch, Wrapf "unable to connect to the appropriate database" e))
          | Ok _ =>
              sent ← perform (SendMessage msg);
              match sent with
              | Some e =>
                  _ ← perform CloseOut;
                  mret (Err (ID branch, Wrapf "send startup message" (Errorf e)))
              | None => mret (Ok (ID branch))
              end
          end
      end
  end.

Definition CreateBackendSession (serverName : string) (startupMessage : FrontendMessage) : E Session :=
  r ← initProxyConn serverName startupMessage;
  match r with
  | Err (branchName, e) => fail (withBranchID branchName e)
  | Ok branchName => ok (BackendSession branchName)
  end.

Definition CancelSession (serverName : string) (req : FrontendMessage) : E unit :=
  r ← initProxyConn serverName req;
  match r with
  | Err (branchName, e) => fail (withBranchID branchName e)
  | Ok _ =>
      closed ← perform CloseOut;
      match closed with None => ok tt | Some e => fail (Errorf e) end
  end.

(** ** initiator.go *)

(** The outcome of receiving one packet; a closed connection is one more error
    of [ReceiveStartupMessage]. *)
Definition receiveStartupMessage (p : packet) : res error FrontendMessage :=
  match p with
  | Ok m => Ok m
  | Err e =>
      Err (if Contains e "unknown startup message code" then ErrorStartupMsgCode
           else if Contains e "invalid length of startup packet" then ErrorStartupMsgLength
           else Wrapf "receive startup message" (Errorf e))
  end.

Definition closed : packet := Err "unexpected EOF".

Definition processTLSHandshake : E string :=
  r ← perform TLSHandshake;
  match r with
  | Ok serverName => ok serverName
  | Err e => fail (Wrapf "TLS handshake failed" (Errorf e))
  end.

Definition wrap_error {A} (msg : string) (p : E A) : E A :=
  r ← p; match r with Ok a => ok a | Err e => fail (Wrapf msg e) end.

(** [inbound.Send] and [inbound.Flush]. *)
Definition send (tls : bool) (m : BackendMessage) : M (option string) :=
  _ ← perform (Send tls m); perform (Flush tls).

Definition send_checked (m : BackendMessage) (msg : string) : E unit :=
  r ← send false m;
  match r with None => ok tt | Some e => fail (Wrapf msg (Errorf e)) end.

Definition plain_error (message : string) : BackendMessage := ErrorResponse "" "" message.

(** The loop that waits for an SSL request. *)
Fixpoint await_ssl (gssDone : bool) (inbox : list packet) : E unit :=
  match inbox with
  | [] => match receiveStartupMessage closed with Err e => fail e | Ok _ => ok tt end
  | p :: inbox =>
      match receiveStartupMessage p with
      | Err e => fail e
      | Ok SSLRequest => ok tt
      | Ok GSSEncRequest =>
          _ <-? (if negb gssDone then send_checked NoResponse "send gss response" else ok tt);
          await_ssl gssDone inbox
      | Ok _ =>
          _ ← send false (plain_error "SSL required");
          fail ErrorSSLRequired
      end
  end.

Definition processTLSStartup (inbox : list packet) : E string :=
  b ← perform PeekByte;
  match b with
  | Err e => fail (Wrapf "unable to peek at connection" (Errorf e))
  | Ok b =>
      if bool_decide (b = 22%Z) then wrap_error "secure connection" processTLSHandshake
      else
        _ <-? await_ssl false inbox;
        _ <-? send_checked SSLYesResponse "send SSLYesResponse";
        wrap_error "establish TLS connection" processTLSHandshake
  end.

(** The loop inside TLS, which skips SSL and GSS requests. *)
Fixpoint await_startup (inbox : list packet) : res error FrontendMessage :=
  match inbox with
  | [] => receiveStartupMessage closed
  | p :: inbox =>
      match receiveStartupMessage p with
      | Ok SSLRequest | Ok GSSEncRequest => await_startup inbox
      | r => r
      end
  end.

(** What is sent for an error of [CreateBackendSession]. *)
Definition session_error_reply (e : error) : option BackendMessage :=
  if Is is_ip_not_allowed e then Some (plain_error "forbidden")
  else if Is is_hibernated e then
    Some (ErrorResponse "FATAL" "57P01" "branch is hibernated, reactivate it to continue")
  else if Is is_no_replica e then
    Some (ErrorResponse "FATAL" "57P03"
            "branch has no read replica, use the primary endpoint or add a replica")
  else None.

(** The backend session, or the reply to its error. *)
Definition start_session (serverName : string) (startupMessage : FrontendMessage) : E Session :=
  sess ← CreateBackendSession serverName startupMessage;
  match sess with
  | Ok s => ok s
  | Err e =>
      _ ← match session_error_reply e with Some m => perform (Send true m) | None => mret tt end;
      _ ← perform (Flush true);
      fail e
  end.

(** The packet that ended the loop inside TLS. *)
Definition handle_startup (serverName : string) (msg : res error FrontendMessage) : E Session :=
  match msg with
  | Err e => fail e
  | Ok (StartupMessage _ as startupMessage) => start_session serverName startupMessage
  | Ok (CancelRequest _ as req) =>
      _ ← CancelSession serverName req;
      ok NoopSession
  | Ok Terminate => ok NoopSession
  | Ok _ => fail (Errorf "unexpected message")
  end.

(** The result, and whether [inbound] has become the TLS connection. *)
Definition processStartupPacket (inbox tlsInbox : list packet) : M (bool * res error Session) :=
  tls ← processTLSStartup inbox;
  match tls with
  | Err e => mret (false, Err e)
  | Ok serverName =>
      r ← handle_startup serverName (await_startup tlsInbox);
      mret (true, r)
  end.

Definition InitSession (inbox tlsInbox : list packet) : E Session :=
  r ← processStartupPacket inbox tlsInbox;
  match r with
  | (_, Ok sess) => ok sess
  | (tls, Err e) =>
      if isClientFacingError e then fail e
      else
        _ ← send tls (plain_error "unable to authenticate");
        fail e
  end.

End Gateway.

(** ** What a connection shows *)

Inductive note :=
| NHandshake (serverName : string)
| NResolved (serverName : string) (b : Branch)
| NAddr (clientAddr : string)
| NAllowed (branchID clientAddr : string)
| NDial (b : Branch) (opened : bool)
| NClosed
| NReply (m : BackendMessage).

Definition note_of (e : event resp) : option note :=
  match e with
  | ev c r =>
      match c return resp c → option note with
      | TLSHandshake => λ r, match r with Ok sn => Some (NHandshake sn) | Err _ => None end
      | Resolve sn => λ r, match r with Ok b => Some (NResolved sn b) | Err _ => None end
      | ClientAddr => λ r, Some (NAddr r)
      | IsAllowed id addr => λ r, if r : bool then Some (NAllowed id addr) else None
      | Dial b => λ r, Some (NDial b (is_ok r))
      | CloseOut => λ _, Some NClosed
      | Send _ (ErrorResponse _ _ _ as m) => λ _, Some (NReply m)
      | _ => λ _, None
      end r
  end.

Definition notes (tr : list (event resp)) : list note := omap note_of tr.

Definition ssl_required : BackendMessage := plain_error "SSL required".
Definition unable : BackendMessage := plain_error "unable to authenticate".

(** ** Lemmas *)

Section Lemmas.
Variable filtered : bool.

(** The address of the connection, which the filter, if there is one, allowed. *)
Definition allowed_notes (b : Branch) (addr : string) : list note :=
  NAddr addr :: if filtered then [NAllowed (ID b) addr] else [].

Inductive proxy_outcome (sn : string) : list note → res (string * error) string → Prop :=
| proxy_unresolved e : proxy_outcome sn [] (Err ("", e))
| proxy_refused b addr e : filtered = true → proxy_outcome sn [NResolved sn b; NAddr addr] (Err ("", e))
| proxy_undialled b addr e :
    proxy_outcome sn (NResolved sn b :: allowed_notes b addr ++ [NDial b false]) (Err (ID b, e))
| proxy_unsent b addr e :
    proxy_outcome sn (NResolved sn b :: allowed_notes b addr ++ [NDial b true; NClosed]) (Err (ID b, e))
| proxy_open b addr :
    proxy_outcome sn (NResolved sn b :: allowed_notes b addr ++ [NDial b true]) (Ok (ID b)).

Lemma wp_initProxyConn sn msg acc Q :
  (∀ l r, proxy_outcome sn l r → Q (acc ++ l) r) →
  wp resp note_of (initProxyConn filtered sn msg) acc Q.
Proof.
  intros HQ0. assert (HQ : ∀ l l' r, proxy_outcome sn l r → l' = acc ++ l → Q l' r)
    by (intros l l' r Hl ->; by apply HQ0).
  unfold initProxyConn. apply (wp_perform _ (Resolve sn)). intros [b|e]; cbn [note_of].
  2: { eapply HQ; [apply proxy_unresolved|by rewrite app_nil_r]. }
  apply (wp_perform _ ClientAddr). intros addr. cbn [note_of]. unfold CheckIPAllowed.
  assert (Hgo : wp resp note_of
    (out ← perform (Dial b);
     match out with
     | Err e => mret (Err (ID b, Wrapf "unable to connect to the appropriate database" e))
     | Ok _ =>
         sent ← perform (SendMessage msg);
         match sent with
         | Some e => _ ← perform CloseOut; mret (Err (ID b, Wrapf "send startup message" (Errorf e)))
         | None => mret (Ok (ID b))
         end
     end) (acc ++ NResolved sn b :: allowed_notes b addr) Q).
  { apply (wp_perform _ (Dial b)). intros [u|e]; cbn [note_of is_ok].
    - apply (wp_perform _ (SendMessage msg)). intros [e|]; cbn [note_of].
      + apply (wp_perform _ CloseOut). intros x. cbn [note_of].
        eapply HQ; [apply proxy_unsent|by rewrite <-!app_assoc].
      + eapply HQ; [apply proxy_open|by rewrite <-!app_assoc].
    - eapply HQ; [apply proxy_undialled|by rewrite <-!app_assoc]. }
  unfold allowed_notes in Hgo. destruct filtered eqn:Hf; cond; rewrite <- app_assoc; [|exact Hgo].
  apply wp_bind, (wp_perform _ (IsAllowed (ID b) addr)). intros [|]; cbn [note_of].
  - cbn [mbind]. by rewrite <-app_assoc.
  - eapply HQ; [by eapply proxy_refused|done].
Qed.

(** Before the handshake nothing but an error reply is observed. *)
Inductive tls_outcome : list note → res error string → Prop :=
| tls_done sn : tls_outcome [NHandshake sn] (Ok sn)
| tls_refused : tls_outcome [NReply ssl_required] (Err ErrorSSLRequired)
| tls_failed e : isClientFacingError e = false → tls_outcome [] (Err e).

Lemma receive_error p e : receiveStartupMessage p = Err e → isClientFacingError e = false.
Proof. destruct p as [m|t]; [done|]. simpl. intros [= <-]. by repeat case_match. Qed.

Lemma wp_await_ssl gssDone inbox acc (Q : list note → res error unit → Prop) :
  Q acc (Ok tt) → Q (acc ++ [NReply ssl_required]) (Err ErrorSSLRequired) →
  (∀ e, isClientFacingError e = false → Q acc (Err e)) →
  wp resp note_of (await_ssl gssDone inbox) acc Q.
Proof.
  intros Hok Hreq Herr. induction inbox as [|p inbox IH]; cbn [await_ssl].
  { by apply Herr. }
  destruct (receiveStartupMessage p) as [m|e] eqn:Hp; [|by apply Herr; eapply receive_error].
  destruct m; try (apply wp_bind, wp_bind; intros []; apply (wp_perform _ (Flush false)); intros r; done);
    [done|].
  apply wp_bind. destruct gssDone; cond; [done|].
  apply wp_bind, wp_bind. intros []. apply (wp_perform _ (Flush false)). intros [e|]; [by apply Herr|done].
Qed.

Lemma wp_handshake msg acc (Q : list note → res error string → Prop) :
  (∀ sn, Q (acc ++ [NHandshake sn]) (Ok sn)) →
  (∀ e, isClientFacingError e = false → Q acc (Err e)) →
  wp resp note_of (wrap_error msg processTLSHandshake) acc Q.
Proof.
  intros Hok Herr. apply wp_bind, (wp_perform _ TLSHandshake).
  intros [sn|e]; [apply Hok|by apply Herr].
Qed.

Lemma wp_processTLSStartup inbox Q :
  (∀ l r, tls_outcome l r → Q l r) → wp resp note_of (processTLSStartup inbox) [] Q.
Proof.
  intros HQ. assert (Hs : ∀ msg, wp resp note_of (wrap_error msg processTLSHandshake) [] Q).
  { intros msg. apply wp_handshake; [intros sn; apply HQ, tls_done|intros e He; by apply HQ, tls_failed]. }
  unfold processTLSStartup. apply (wp_perform _ PeekByte). intros [b|e]; cbn [note_of].
  2: { by apply HQ, tls_failed. }
  case_bool_decide; [apply Hs|].
  apply wp_bind, wp_await_ssl; [|apply HQ, tls_refused|intros e He; by apply HQ, tls_failed].
  apply wp_bind, wp_bind, wp_bind. intros []. apply (wp_perform _ (Flush false)).
  intros [e|]; [by apply HQ, tls_failed|apply Hs].
Qed.

Lemma reply_facing e :
  isClientFacingError e = match session_error_reply e with Some _ => true | None => false end.
Proof.
  unfold isClientFacingError, session_error_reply.
  by destruct (Is is_ip_not_allowed e), (Is is_hibernated e), (Is is_no_replica e).
Qed.

Inductive init_outcome : list note → res error Session → Prop :=
| init_tls_failed l e : tls_outcome l (Err e) → init_outcome (l ++ [NReply unable]) (Err e)
| init_terminated sn : init_outcome [NHandshake sn] (Ok NoopSession)
| init_no_startup sn e :
    isClientFacingError e = false → init_outcome [NHandshake sn; NReply unable] (Err e)
| init_cancel sn l r :
    proxy_outcome sn l r →
    init_outcome (NHandshake sn :: l ++ (if is_ok r then [NClosed] else [])) (Ok NoopSession)
| init_session sn l id :
    proxy_outcome sn l (Ok id) → init_outcome (NHandshake sn :: l) (Ok (BackendSession id))
| init_session_failed sn l name e :
    proxy_outcome sn l (Err (name, e)) →
    init_outcome (NHandshake sn :: l ++
      [NReply (default unable (session_error_reply (withBranchID name e)))]) (Err (withBranchID name e)).

Lemma tls_error_facing l e : tls_outcome l (Err e) → isClientFacingError e = false.
Proof. by inversion 1. Qed.

Lemma await_startup_error inbox e : await_startup inbox = Err e → isClientFacingError e = false.
Proof.
  induction inbox as [|p inbox IH]; simpl; [by intros [= <-]|].
  destruct (receiveStartupMessage p) as [[]|e'] eqn:Hp; try done. intros [= <-].
  by eapply receive_error.
Qed.

(** What follows an error of the startup packets: one generic reply. *)
Lemma wp_generic_reply tls e acc (Q : list note → res error Session → Prop) :
  isClientFacingError e = false → Q (acc ++ [NReply unable]) (Err e) →
  wp resp note_of (if isClientFacingError e then fail e
                   else _ ← send tls (plain_error "unable to authenticate"); fail e) acc Q.
Proof.
  intros -> HQ. apply wp_bind, wp_bind. intros []. apply (wp_perform _ (Flush tls)). done.
Qed.

Lemma reply_observed e m : session_error_reply e = Some m → ∃ s c t, m = ErrorResponse s c t.
Proof. unfold session_error_reply, plain_error. repeat case_match; intros [= <-]; eauto. Qed.

Lemma wp_start_session sn m acc (Q : list note → res error Session → Prop) :
  (∀ l id, proxy_outcome sn l (Ok id) → Q (acc ++ l) (Ok (BackendSession id))) →
  (∀ l name e, proxy_outcome sn l (Err (name, e)) →
    Q ((acc ++ l) ++ match session_error_reply (withBranchID name e) with
                     | Some m => [NReply m] | None => [] end) (Err (withBranchID name e))) →
  wp resp note_of (start_session filtered sn m) acc Q.
Proof.
  intros Hok Herr. apply wp_bind, wp_bind, wp_initProxyConn.
  intros l [id|[name e]] Hp; [by apply Hok|]. specialize (Herr l name e Hp).
  cbn [wp fail mret prog_ret]. set (e' := withBranchID name e) in *. apply wp_bind.
  destruct (session_error_reply e') as [m'|] eqn:Hm.
  - destruct (reply_observed _ _ Hm) as (s & c & t & ->). intros []. cbn [note_of].
    apply (wp_perform _ (Flush true)). intros x. exact Herr.
  - rewrite app_nil_r in Herr. apply (wp_perform _ (Flush true)). intros x. exact Herr.
Qed.

Lemma wp_cancel sn m acc (Q : list note → res error Session → Prop) :
  (∀ l r, proxy_outcome sn l r → Q (acc ++ l ++ (if is_ok r then [NClosed] else [])) (Ok NoopSession)) →
  wp resp note_of (_ ← CancelSession filtered sn m; ok NoopSession) acc Q.
Proof.
  intros HQ. apply wp_bind, wp_bind, wp_initProxyConn. intros l [id|[name e]] Hp; specialize (HQ _ _ Hp).
  - apply (wp_perform _ CloseOut). intros [x|]; cbn [note_of]; rewrite <-app_assoc; exact HQ.
  - simpl in HQ. by rewrite app_nil_r in HQ.
Qed.

Lemma wp_InitSession inbox tlsInbox :
  wp resp note_of (InitSession filtered inbox tlsInbox) [] init_outcome.
Proof.
  apply wp_bind, wp_bind, wp_processTLSStartup. intros l [sn|e] Htls.
  2: { pose proof (tls_error_facing _ _ Htls) as He. by apply wp_generic_reply, init_tls_failed. }
  inversion Htls; subst. clear Htls.
  assert (Hbad : ∀ e, isClientFacingError e = false →
    wp resp note_of (if isClientFacingError e then fail e
      else _ ← send true (plain_error "unable to authenticate"); fail e) [NHandshake sn] init_outcome).
  { intros e He. by apply wp_generic_reply, init_no_startup. }
  apply wp_bind. destruct (await_startup tlsInbox) as [m|e] eqn:Hstart.
  2: { apply Hbad. by eapply await_startup_error. }
  destruct m as [| |body|body| |other]; try (by apply Hbad); [| |apply init_terminated].
  - apply wp_start_session; [intros l id Hp; by apply init_session|].
    intros l name e Hp. pose proof (init_session_failed sn l name e Hp) as Hout.
    set (e' := withBranchID name e) in *. pose proof (reply_facing e') as Hf. cbn [wp mret prog_ret].
    destruct (session_error_reply e') as [m|]; [rewrite Hf; exact Hout|].
    apply wp_generic_reply; [done|]. by rewrite app_nil_r.
  - apply wp_cancel. intros l r Hp. by apply (init_cancel sn l r).
Qed.
End Lemmas.

(** ** Properties *)

Definition replies (l : list note) : list BackendMessage :=
  omap (λ n, match n with NReply m => Some m | _ => None end) l.

(** What happens between the handshake and the dial of a branch. *)
Lemma proxy_dial filtered sn l r l1 b o l2 :
  proxy_outcome filtered sn l r → l = l1 ++ NDial b o :: l2 →
  ∃ addr, l1 = NResolved sn b :: allowed_notes filtered b addr.
Proof.
  unfold allowed_notes. intros Hp Hl. destruct Hp, filtered; repeat (destruct l1 as [|? l1]; simplify_eq/=; try by eexists).
Qed.

Lemma proxy_replies filtered sn l r : proxy_outcome filtered sn l r → replies l = [].
Proof. destruct 1; unfold allowed_notes; by destruct filtered. Qed.

Lemma replies_app l l' : replies (l ++ l') = replies l ++ replies l'.
Proof. apply omap_app. Qed.

(** C35. A branch is dialled, for a session or to forward a cancel request, only
    after these steps and no others: a TLS handshake on the connection, the
    resolution of the handshake's server name to this very branch, the reading of
    the connection's own client address, and, with an IP filter, its answer that
    this address is allowed for this branch. *)
Theorem dial_needs_tls_and_permission filtered inbox tlsInbox tr r l1 b o l2
    (Hrun : runs resp (InitSession filtered inbox tlsInbox) tr r)
    (Hdial : notes tr = l1 ++ NDial b o :: l2) :
  ∃ sn addr, l1 = [NHandshake sn; NResolved sn b; NAddr addr] ++
    (if filtered then [NAllowed (ID b) addr] else []).
Proof.
  pose proof (wp_sound _ _ [] _ _ _ (wp_InitSession filtered inbox tlsInbox) Hrun) as Hout.
  simpl in Hout. fold (notes tr) in Hout. rewrite Hdial in Hout. clear Hrun Hdial tr.
  assert (Hgo : ∀ sn l r' tail, proxy_outcome filtered sn l r' → NDial b o ∉ tail →
    NHandshake sn :: l ++ tail = l1 ++ NDial b o :: l2 →
    ∃ sn addr, l1 = NHandshake sn :: NResolved sn b :: allowed_notes filtered b addr).
  { intros sn l r' tail Hp Htail Heq. destruct l1 as [|n l1]; [done|]. injection Heq as <- Heq.
    assert (∃ m2, l = l1 ++ NDial b o :: m2) as [m2 Hl].
    { clear Hp Hout. revert l Heq. induction l1 as [|n l1 IH]; intros [|n' l] Heq; simpl in Heq.
      - destruct Htail. rewrite Heq. by left.
      - injection Heq as -> _. by eexists.
      - destruct Htail. rewrite Heq. right. apply elem_of_app. right. by left.
      - injection Heq as -> Heq. destruct (IH _ Heq) as [m2 ->]. by exists m2. }
    destruct (proxy_dial _ _ _ _ _ _ _ _ Hp Hl) as [addr ->]. by exists sn, addr. }
  inversion Hout as [l e Ht Hl|sn Hl|sn e He Hl|sn l r' Hp Hl|sn l id Hp Hl|sn l name e Hp Hl].
  - assert (NDial b o ∈ l ++ [NReply unable]) as Hin by (rewrite Hl; set_solver).
    inversion Ht; subst; set_solver.
  - assert (NDial b o ∈ [NHandshake sn]) as Hin by (rewrite Hl; set_solver). set_solver.
  - assert (NDial b o ∈ [NHandshake sn; NReply unable]) as Hin by (rewrite Hl; set_solver). set_solver.
  - apply (Hgo _ _ _ _ Hp) in Hl; [done|]. destruct (is_ok r'); set_solver.
  - rewrite <-(app_nil_r l) in Hl. apply (Hgo _ _ _ _ Hp) in Hl; [done|]. apply not_elem_of_nil.
  - apply (Hgo _ _ _ _ Hp) in Hl; [done|]. set_solver.
Qed.

(** A connection to a backend that was opened is handed over with the
    session, or closed. *)
Theorem outbound_handed_over_or_closed filtered inbox tlsInbox tr r b
    (Hrun : runs resp (InitSession filtered inbox tlsInbox) tr r)
    (Hopen : NDial b true ∈ notes tr) :
  r = Ok (BackendSession (ID b)) ∨ NClosed ∈ notes tr.
Proof.
  pose proof (wp_sound _ _ [] _ _ _ (wp_InitSession filtered inbox tlsInbox) Hrun) as Hout.
  simpl in Hout. fold (notes tr) in Hout.
  assert (Hfree : ∀ b' addr, NDial b true ∉ allowed_notes filtered b' addr)
    by (intros b' addr; unfold allowed_notes; destruct filtered; set_solver).
  inversion Hout as [l e Ht Hl|sn Hl|sn e He Hl|sn l r' Hp Hl|sn l id Hp Hl|sn l name e Hp Hl];
    rewrite <-Hl in Hopen.
  - inversion Ht; subst; set_solver.
  - set_solver.
  - set_solver.
  - right. inversion Hp; subst; set_solver.
  - left. inversion Hp; subst. f_equal. f_equal. specialize (Hfree b0 addr). set_solver.
  - right. inversion Hp; subst; first [set_solver|specialize (Hfree b0 addr); set_solver].
Qed.

(** What the client is told: nothing when the connection is accepted;
    exactly the specific reply of a refused address, a hibernated branch or a
    missing replica; and otherwise the generic reply alone, preceded by
    "SSL required" when a client that did not ask for TLS is turned away. *)
Theorem error_replies filtered inbox tlsInbox tr r
    (Hrun : runs resp (InitSession filtered inbox tlsInbox) tr r) :
  match r with
  | Ok _ => replies (notes tr) = []
  | Err e =>
      match session_error_reply e with
      | Some m => replies (notes tr) = [m]
      | None => replies (notes tr) = [unable] ∨
          (e = ErrorSSLRequired ∧ replies (notes tr) = [ssl_required; unable])
      end
  end.
Proof.
  pose proof (wp_sound _ _ [] _ _ _ (wp_InitSession filtered inbox tlsInbox) Hrun) as Hout.
  simpl in Hout. fold (notes tr) in Hout. clear Hrun.
  assert (Hnone : ∀ e, isClientFacingError e = false → session_error_reply e = None).
  { intros e He. rewrite reply_facing in He. by destruct (session_error_reply e). }
  inversion Hout as [l e Ht Hl|sn Hl|sn e He Hl|sn l r' Hp Hl|sn l id Hp Hl|sn l name e Hp Hl];
    clear Hout; subst.
  - rewrite (Hnone _ (tls_error_facing _ _ Ht)). inversion Ht; subst; [by right|by left].
  - done.
  - rewrite (Hnone _ He). by left.
  - change (NHandshake sn :: l ++ (if is_ok r' then [NClosed] else []))
      with ([NHandshake sn] ++ l ++ (if is_ok r' then [NClosed] else [])).
    rewrite !replies_app, (proxy_replies _ _ _ _ Hp). by destruct (is_ok r').
  - change (NHandshake sn :: l) with ([NHandshake sn] ++ l).
    by rewrite replies_app, (proxy_replies _ _ _ _ Hp).
  - change (NHandshake sn :: l ++ ?t) with ([NHandshake sn] ++ l ++ t).
    set (e' := withBranchID name e).
    rewrite !replies_app, (proxy_replies _ _ _ _ Hp). simpl.
    destruct (session_error_reply e') as [m|]; [done|by left].
Qed.

Module Witness.
Definition br : Branch := mkBranch "b1" "10.0.0.1:5432".

(** A resolver of one branch, an address that is allowed, a branch that dials
    as [dial] says. *)
Definition world (dial : res error unit) : env resp unit := λ w c,
  (w, match c return resp c with
      | PeekByte => Ok 0%Z
      | TLSHandshake => Ok "b1.example.com"
      | Send _ _ => tt
      | Flush _ => None
      | Resolve _ => Ok br
      | ClientAddr => "192.0.2.1:999"
      | IsAllowed _ _ => true
      | Dial _ => dial
      | SendMessage _ => None
      | CloseOut => None
      end).

Definition accept := exec resp (world (Ok tt)) tt
  (InitSession true [Ok GSSEncRequest; Ok SSLRequest] [Ok (StartupMessage "user=xata")]).
Definition refuse := exec resp (world (Err ErrBranchHibernated)) tt
  (InitSession true [Ok SSLRequest] [Ok (StartupMessage "user=xata")]).

Lemma accept_runs : runs resp (InitSession true [Ok GSSEncRequest; Ok SSLRequest]
  [Ok (StartupMessage "user=xata")]) accept.1.1 accept.2.
Proof. exact (exec_runs _ tt _). Qed.

Lemma refuse_runs : runs resp (InitSession true [Ok SSLRequest] [Ok (StartupMessage "user=xata")])
  refuse.1.1 refuse.2.
Proof. exact (exec_runs _ tt _). Qed.

Lemma dial_needs_tls_and_permission_witness : ∃ sn addr,
  notes accept.1.1 = [NHandshake sn; NResolved sn br; NAddr addr; NAllowed "b1" addr; NDial br true] ∧
  addr = "192.0.2.1:999".
Proof.
  destruct (dial_needs_tls_and_permission true _ _ accept.1.1 accept.2
    [NHandshake "b1.example.com"; NResolved "b1.example.com" br; NAddr "192.0.2.1:999"; NAllowed "b1" "192.0.2.1:999"] br true []
    accept_runs ltac:(vm_compute; reflexivity)) as (sn & addr & Heq).
  exists sn, addr. injection Heq as Hsn Haddr _. subst. split; [vm_compute|]; reflexivity.
Defined.

Lemma outbound_handed_over_or_closed_witness :
  accept.2 = Ok (BackendSession "b1") ∨ NClosed ∈ notes accept.1.1.
Proof.
  apply (outbound_handed_over_or_closed true _ _ _ _ br accept_runs).
  vm_compute. do 4 right. left.
Defined.

Lemma error_replies_witness :
  replies (notes refuse.1.1) =
  [ErrorResponse "FATAL" "57P01" "branch is hibernated, reactivate it to continue"].
Proof. exact (error_replies true _ _ _ _ refuse_runs). Defined.

(** Every GSS request is answered, though [gssDone] is there to answer one. *)
Theorem gss_answered_every_time :
  length (List.filter (λ e, match e with ev (Send _ NoResponse) _ => true | _ => false end)
    (exec resp (world (Ok tt)) tt (InitSession true [Ok GSSEncRequest; Ok GSSEncRequest; Ok SSLRequest]
       [Ok Terminate])).1.1) = 2%nat.
Proof. vm_compute. reflexivity. Qed.
End Witness.
