(* ===== verification/GoUrl.v ===== *)
(** * URLs: [net/url]

    The parts of a URL that the code reads.  Its parser is a parameter: what it
    accepts depends on the version of Go. *)

From S2P Require Import Prelude GoStrings.

(** [us_User] has a password only when one is given; [us_Hostname] is [us_Host]
    without its port. *)
Record URL := mkURL {
  us_Scheme : string;
  us_Opaque : string;
  us_User : option (string * option string);
  us_Host : string;
  us_Hostname : string;
  us_Path : string;
  us_RawQuery : string;
  us_ForceQuery : bool;
  us_Fragment : string
}.

Class URLs := { ParseURL : string → option URL }.
