(* ===== verification/PgValues.v ===== *)
(** * PostgreSQL's text values in JSON: [services/gateway/serverless/types.go]

    How a value that PostgreSQL answers in its text format becomes a JSON value,
    and how the parameters of a request become arguments of a query.  An array
    is read in one pass over its literal; [fuel] is its length.  The errors of
    [parsePgArray] are only compared with nil.  An object that was decoded is
    the list of its members in the order of their keys, which is the order in
    which [encoding/json] and [fmt] write a map. *)

From stdpp Require Import pretty.
From S2P Require Import Prelude GoStrings GoFloat.

#[local] Open Scope Z_scope.
#[local] Open Scope go_scope.

(** ** Values *)

(** The dynamic types of [any] that occur; [VSlice None] is a nil slice, and
    [VRaw] is [json.RawMessage]. *)
Inductive value :=
| VNil
| VBool (b : bool)
| VInt (n : Z)
| VInt64 (n : Z)
| VFloat (f : float64)
| VString (s : string)
| VNumber (s : string)
| VRaw (s : string)
| VSlice (l : option (list value))
| VMap (m : list (string * value)).

(** [json.Marshal] with the text of its error, [strconv.FormatFloat(v, 'f', -1, 64)] and [%v] of a
    [float64]. *)
Class Encoding := {
  Marshal : value → res string string;
  FormatFloat : float64 → string;
  PrintFloat : float64 → string
}.

(** [append] to a nil slice. *)
Definition slice_of {A} (l : list A) : option (list A) := match l with [] => None | _ => Some l end.

(** ** Types *)

Definition oidBool : Z := 16.
Definition oidInt2 : Z := 21.
Definition oidInt4 : Z := 23.
Definition oidInt8 : Z := 20.
Definition oidFloat4 : Z := 700.
Definition oidFloat8 : Z := 701.
Definition oidJSON : Z := 114.
Definition oidJSONB : Z := 3802.

Definition arrayElemOID (oid : Z) : option Z :=
  if oid =? 1000 then Some oidBool
  else if oid =? 1005 then Some oidInt2
  else if oid =? 1007 then Some oidInt4
  else if oid =? 1016 then Some oidInt8
  else if oid =? 1021 then Some oidFloat4
  else if oid =? 1022 then Some oidFloat8
  else if oid =? 199 then Some oidJSON
  else if oid =? 3807 then Some oidJSONB
  else if (oid =? 1009) || (oid =? 1015) || (oid =? 1231) then Some 0
  else None.

(** ** From PostgreSQL *)

Definition convertFloat (text : string) : value :=
  if bool_decide (text = "NaN" ∨ text = "Infinity" ∨ text = "-Infinity") then VString text
  else match ParseFloat text with Some f => VFloat f | None => VString text end.

(** [convertTextValue] of a type that is not an array's. *)
Definition convert_scalar (text : string) (typeOID : Z) : value :=
  if typeOID =? oidBool then VBool (bool_decide (text = "t"))
  else if (typeOID =? oidInt2) || (typeOID =? oidInt4) then
    match ParseInt10 text with Some n => VInt n | None => VString text end
  else if typeOID =? oidInt8 then VString text
  else if (typeOID =? oidFloat4) || (typeOID =? oidFloat8) then convertFloat text
  else if (typeOID =? oidJSON) || (typeOID =? oidJSONB) then VRaw text
  else VString text.

(** A quoted element: its text, and what follows the closing quote. *)
Fixpoint quoted (s : string) : string * string :=
  match s with
  | EmptyString => (EmptyString, EmptyString)
  | String c t =>
      match t with
      | String d u =>
          if bool_decide (c = backslash) then let '(x, rest) := quoted u in (String d x, rest)
          else if bool_decide (c = double_quote) then (EmptyString, t)
          else let '(x, rest) := quoted t in (String c x, rest)
      | EmptyString =>
          if bool_decide (c = double_quote) then (EmptyString, EmptyString) else (String c EmptyString, EmptyString)
      end
  end.

Definition unquoted_byte (c : ascii) : bool := negb (bool_decide (c = ","%char) || bool_decide (c = "}"%char)).

(** One element, a nested array being read by [inner].  An element of an array
    is not an array of another type, so [convert_scalar] converts it. *)
Definition element (inner : string → option (list value * string)) (elemTypeOID : Z) (s : string) : option (value * string) :=
  match s with
  | EmptyString => None
  | String c t =>
      if bool_decide (c = "{"%char) then '(nested, rest) ← inner t; Some (VSlice (slice_of nested), rest)
      else if bool_decide (c = double_quote) then
        let '(text, rest) := quoted t in Some (convert_scalar text elemTypeOID, rest)
      else
        let token := take_while unquoted_byte s in
        Some (if bool_decide (token = "NULL") then VNil else convert_scalar token elemTypeOID, drop_while unquoted_byte s)
  end.

(** The loop of [parsePgArrayInner], after the opening brace: [first] while
    [result] is empty. *)
Fixpoint elements (fuel : nat) (elemTypeOID : Z) (first : bool) (s : string) : option (list value * string) :=
  match fuel, s with
  | S fuel, String c t =>
      if bool_decide (c = "}"%char) then Some ([], t)
      else
        s ← if first then Some s else if bool_decide (c = ","%char) then Some t else None;
        '(x, rest) ← element (elements fuel elemTypeOID true) elemTypeOID s;
        '(l, rest) ← elements fuel elemTypeOID false rest;
        Some (x :: l, rest)
  | _, _ => None
  end.

Definition parsePgArrayInner (s : string) (elemTypeOID : Z) : option (option (list value) * string) :=
  match s with
  | String c t =>
      if bool_decide (c = "{"%char) then
        '(l, rest) ← elements (String.length s) elemTypeOID true t; Some (slice_of l, rest)
      else None
  | EmptyString => None
  end.

(** [strings.Index(s, "=")]: what follows it. *)
Definition strip_bounds (s : string) : option string :=
  match s with
  | String c _ => if bool_decide (c = "["%char) then let '(_, t, found) := Cut "="%char s in if found : bool then Some t else None
                  else Some s
  | EmptyString => Some s
  end.

Definition parsePgArray (raw : string) (elemTypeOID : Z) : option (option (list value)) :=
  s ← strip_bounds raw;
  if (String.length s <? 2)%nat || negb (HasPrefix s "{") || negb (HasSuffix s "}") then None
  else '(l, _) ← parsePgArrayInner s elemTypeOID; Some l.

(** [raw] is nil for NULL. *)
Definition convertTextValue (raw : option string) (typeOID : Z) : value :=
  match raw with
  | None => VNil
  | Some text =>
      match arrayElemOID typeOID with
      | Some elemOID =>
          match parsePgArray text elemOID with Some arr => VSlice arr | None => VString text end
      | None => convert_scalar text typeOID
      end
  end.

(** ** To PostgreSQL *)

Fixpoint join (sep : string) (l : list string) : string :=
  match l with
  | [] => EmptyString
  | [s] => s
  | s :: l => s +:+ sep +:+ join sep l
  end.

Section Params.
Context `{Encoding}.

(** [fmt.Fprint] of one operand. *)
Fixpoint Fprint (v : value) : string :=
  match v with
  | VNil => "<nil>"
  | VBool b => if b then "true" else "false"
  | VInt n | VInt64 n => pretty n
  | VFloat f => PrintFloat f
  | VString s | VNumber s => s
  | VRaw s => "[" +:+ join " " (map (λ c, pretty (byte_val c)) (String.list_ascii_of_string s)) +:+ "]"
  | VSlice None => "[]"
  | VSlice (Some l) => "[" +:+ join " " (map Fprint l) +:+ "]"
  | VMap m => "map[" +:+ join " " (map (λ kv, kv.1 +:+ ":" +:+ Fprint kv.2) m) +:+ "]"
  end.

(** An element of an array literal; the elements of a nested one recursively. *)
Fixpoint format_element (v : value) : string :=
  match v with
  | VNil => "NULL"
  | VSlice None => "{}"
  | VSlice (Some l) => "{" +:+ join "," (map format_element l) +:+ "}"
  | VBool b => if b then "t" else "f"
  | VString s => q s
  | VFloat f => FormatFloat f
  | VNumber s => s
  | v => Fprint v
  end.

Definition formatPgArray (arr : list value) : string := "{" +:+ join "," (map format_element arr) +:+ "}".

(** [strings.ContainsAny(s, ".eE")] *)
Definition fractional (s : string) : bool := contains_byte "."%char s || contains_byte "e"%char s || contains_byte "E"%char s.

Definition convertParam (p : value) : value :=
  match p with
  | VNumber s =>
      if fractional s then match ParseFloat s with Some f => VFloat f | None => p end
      else match ParseInt10 s with Some n => VInt64 n | None => p end
  | VSlice l => VString (formatPgArray (default [] l))
  | VMap _ => match Marshal p with Ok b => VString b | Err _ => p end
  | _ => p
  end.

Definition convertParams (params : list value) : list value := map convertParam params.
End Params.

(** ** Arrays that are read back *)

Definition number_byte (c : ascii) : bool :=
  is_digit c || bool_decide (c = "-"%char) || bool_decide (c = "+"%char) || bool_decide (c = "."%char)
  || bool_decide (c = "e"%char) || bool_decide (c = "E"%char).

(** What an array of a request holds when no object is in it. *)
Fixpoint plain_element (v : value) : bool :=
  match v with
  | VNil | VBool _ | VString _ => true
  | VNumber s => negb (bool_decide (s = "")) && string_forallb number_byte s
  | VSlice None => true
  | VSlice (Some l) => forallb plain_element l
  | _ => false
  end.

(** What an element is read back as, in an array of [elemTypeOID]. *)
Fixpoint read_as (elemTypeOID : Z) (v : value) : value :=
  match v with
  | VBool b => convert_scalar (if b then "t" else "f") elemTypeOID
  | VString s | VNumber s => convert_scalar s elemTypeOID
  | VSlice (Some l) => VSlice (slice_of (map (read_as elemTypeOID) l))
  | v => v
  end.

Lemma quoted_body s t : quoted (quote_body s +:+ t) = (s, t).
Proof.
  induction s as [|c s IH]; [by destruct t|]. cbn [quote_body].
  assert (∃ d u, quote_body s +:+ t = String d u) as (d & u & Hd).
  { destruct s as [|c' s]; cbn [quote_body]; [by eexists _, _|]. destruct (_ || _); by eexists _, _. }
  destruct (bool_decide (c = double_quote)) eqn:Hq; cbn [orb].
  - apply bool_decide_eq_true in Hq as ->. change (quoted (String backslash (String double_quote (quote_body s +:+ t))) = (String double_quote s, t)).
    cbn [quoted]. by rewrite bool_decide_eq_true_2, IH.
  - destruct (bool_decide (c = backslash)) eqn:Hb.
    + apply bool_decide_eq_true in Hb as ->. change (quoted (String backslash (String backslash (quote_body s +:+ t))) = (String backslash s, t)).
      cbn [quoted]. by rewrite bool_decide_eq_true_2, IH.
    + change (quoted (String c (quote_body s +:+ t)) = (String c s, t)).
      rewrite Hd in IH |- *. cbn [quoted] in IH |- *. by rewrite Hb, Hq, IH.
Qed.

(** A literal that is neither quoted nor nested. *)
Definition bare (s : string) : Prop :=
  string_forallb unquoted_byte s = true ∧
  match s with String c _ => c ≠ "{"%char ∧ c ≠ double_quote | EmptyString => False end.

Lemma bare_token s d t :
  bare s → unquoted_byte d = false → take_while unquoted_byte (s +:+ String d t) = s ∧ drop_while unquoted_byte (s +:+ String d t) = String d t.
Proof.
  intros [Hs _] Hd. induction s as [|c s IH]; simpl in *; [by rewrite Hd|].
  apply andb_true_iff in Hs as [Hc Hs]. rewrite Hc. destruct (IH Hs) as [-> ->]. done.
Qed.

Lemma number_bare s : s ≠ "" → string_forallb number_byte s = true → bare s ∧ s ≠ "NULL".
Proof.
  intros Hne Hs. assert (∀ c, number_byte c = true → unquoted_byte c = true ∧ c ≠ "{"%char ∧ c ≠ double_quote ∧ c ≠ "N"%char) as Hn.
  { intros c Hc. split_and!; [|by intros ->..]. destruct c as [[] [] [] [] [] [] [] []]; vm_compute in Hc |- *; done. }
  split; [split|].
  - clear Hne. induction s as [|c s IH]; simpl in *; [done|]. apply andb_true_iff in Hs as [Hc Hs].
    by rewrite (proj1 (Hn c Hc)), IH.
  - destruct s as [|c s]; [done|]. simpl in Hs. apply andb_true_iff in Hs as [Hc _]. by destruct (Hn c Hc) as (_ & ? & ? & _).
  - intros ->. by vm_compute in Hs.
Qed.

Section Reading.
Context `{Encoding}.

Lemma bare_element e v :
  plain_element v = true → (∀ s, v ≠ VString s) → (∀ l, v ≠ VSlice l) →
  bare (format_element v) ∧
  (if bool_decide (format_element v = "NULL") then VNil else convert_scalar (format_element v) e) = read_as e v.
Proof.
  intros Hp Hs Hl. destruct v as [|b| | | |s|s| |l|]; try done.
  - by destruct b.
  - by destruct (Hs s).
  - cbn in Hp. apply andb_true_iff in Hp as [Hne Hp]. apply negb_true_iff, bool_decide_eq_false in Hne.
    destruct (number_bare s Hne Hp) as [Hb Hn]. split; [done|]. cbn. by rewrite bool_decide_eq_false_2.
  - by destruct (Hl l).
Qed.

Lemma element_text n e v W :
  plain_element v = true → (∃ d u, W = String d u ∧ unquoted_byte d = false) →
  (∀ l, v = VSlice (Some l) → elements n e true (join "," (map format_element l) +:+ String "}"%char W) = Some (map (read_as e) l, W)) →
  (n ≠ 0)%nat →
  element (elements n e true) e (format_element v +:+ W) = Some (read_as e v, W).
Proof.
  intros Hp (d & u & -> & Hd) Hl Hn.
  assert ((∃ s, v = VString s) ∨ (∃ l, v = VSlice l) ∨ (∀ s, v ≠ VString s) ∧ ∀ l, v ≠ VSlice l) as [[s ->]|[[[l|] ->]|[Hs Hsl]]].
  { destruct v; naive_solver. }
  - cbn. by rewrite quoted_body.
  - cbn. rewrite append_assoc. cbn. by rewrite (Hl l).
  - by destruct n.
  - destruct (bare_element e v Hp Hs Hsl) as [Hb Hr]. destruct (bare_token _ d u Hb Hd) as [Ht Hdw].
    rewrite <- Hr. unfold element. destruct Hb as [_ Hhd]. destruct (format_element v) as [|c t]; [done|].
    destruct Hhd as [H1 H2]. change (String c t +:+ String d u) with (String c (t +:+ String d u)) in *.
    cbv iota. rewrite (bool_decide_eq_false_2 _ H1), (bool_decide_eq_false_2 _ H2), Ht, Hdw. done.
Qed.

Definition follow (first : bool) (l : list value) : string :=
  match l with [] => "" | _ => (if first then "" else ",") +:+ join "," (map format_element l) end.

Lemma follow_true l : follow true l = join "," (map format_element l).
Proof. by destruct l. Qed.

Lemma join_cons v l : join "," (map format_element (v :: l)) = format_element v +:+ follow false l.
Proof. destruct l; [by rewrite append_nil_r|done]. Qed.

Lemma follow_stops l rest : ∃ d u, follow false l +:+ String "}"%char rest = String d u ∧ unquoted_byte d = false.
Proof. destruct l as [|v l]; by eexists _, _. Qed.

Lemma format_head v : plain_element v = true → ∃ c t, format_element v = String c t ∧ c ≠ "}"%char.
Proof.
  intros Hp. destruct v as [|[]| | | |s|s| |[l|]|]; try done; try by eexists _, _.
  destruct (bare_element 0 (VNumber s) Hp) as [[Hu Hh] _]; [done..|]. cbn in *. destruct s as [|c s]; [done|].
  exists c, s. split; [done|]. intros ->. done.
Qed.

Lemma elements_text e n : ∀ l first rest,
  forallb plain_element l = true → (String.length (follow first l) < n)%nat →
  elements n e first (follow first l +:+ String "}"%char rest) = Some (map (read_as e) l, rest).
Proof.
  induction n as [|n IH]; intros l first rest Hp Hn; [lia|]. destruct l as [|v l]; [done|].
  cbn [forallb] in Hp. apply andb_true_iff in Hp as [Hv Hp].
  destruct (format_head v Hv) as (c & t & Hf & Hc).
  unfold follow in Hn |- *. rewrite join_cons in Hn |- *. rewrite !string_length_app in Hn.
  rewrite (append_assoc (if first then _ else _)), (append_assoc (format_element v)).
  set (W := follow false l +:+ String "}"%char rest).
  assert (element (elements n e true) e (format_element v +:+ W) = Some (read_as e v, W)) as He.
  { apply element_text; [done|apply follow_stops| |rewrite Hf in Hn; simpl in Hn; lia].
    intros inner ->. rewrite <- follow_true. apply IH; [done|]. rewrite follow_true.
    cbn [format_element] in Hn. rewrite !string_length_app in Hn. simpl in Hn. lia. }
  assert (elements n e false W = Some (map (read_as e) l, rest)) as Hrest.
  { apply IH; [done|]. rewrite Hf in Hn. simpl in Hn. lia. }
  destruct first.
  - change ("" +:+ (format_element v +:+ W)) with (format_element v +:+ W). rewrite Hf in He |- *.
    change (String c t +:+ W) with (String c (t +:+ W)) in *. cbn [elements]. rewrite (bool_decide_eq_false_2 _ Hc).
    cbn [mbind option_bind]. rewrite He. cbn [mbind option_bind]. by rewrite Hrest.
  - change ("," +:+ (format_element v +:+ W)) with (String ","%char (format_element v +:+ W)). cbn [elements].
    rewrite bool_decide_eq_false_2 by done. cbn [mbind option_bind]. rewrite bool_decide_eq_true_2 by done.
    cbn [mbind option_bind]. rewrite He. cbn [mbind option_bind]. by rewrite Hrest.
Qed.

(** C15. An array of strings, numbers, booleans, nulls and arrays of such that a
    request sends is read back as it was sent (an object in it is not:
    [Witness.objects_in_arrays_are_printed]): its literal, parsed for an array
    type of PostgreSQL, has the same elements in the same order and nesting,
    every string with its quotation marks and backslashes, null as NULL and not
    as the text, each converted to the element's type; only an empty array is a
    nil slice. *)
Theorem arrays_are_read_back oid e l :
  arrayElemOID oid = Some e → forallb plain_element l = true →
  ∃ text, convertParam (VSlice (Some l)) = VString text ∧
    convertTextValue (Some text) oid = VSlice (slice_of (map (read_as e) l)).
Proof.
  intros Ho Hp. exists (formatPgArray l). split; [done|]. unfold convertTextValue. rewrite Ho.
  assert (parsePgArray (formatPgArray l) e = Some (slice_of (map (read_as e) l))) as ->; [|done].
  unfold formatPgArray, parsePgArray. rewrite <- follow_true.
  change ("{" +:+ (follow true l +:+ "}")) with (String "{"%char (follow true l +:+ "}")). cbn [strip_bounds].
  rewrite bool_decide_eq_false_2 by done. cbn [mbind option_bind].
  assert (HasSuffix (String "{"%char (follow true l +:+ "}")) "}" = true) as ->.
  { apply HasSuffix_spec. by exists (String "{"%char (follow true l)). }
  change (HasPrefix (String "{"%char (follow true l +:+ "}")) "{") with true.
  cbn [String.length]. rewrite string_length_app, (proj2 (Nat.ltb_ge _ _)) by (simpl; lia). cbn [orb negb].
  unfold parsePgArrayInner. rewrite bool_decide_eq_true_2 by done.
  rewrite elements_text; [done..|]. simpl. rewrite string_length_app. simpl. lia.
Qed.
End Reading.

(** ** Reading an array ends *)

Lemma quoted_length s : (String.length (quoted s).2 ≤ String.length s)%nat.
Proof.
  induction s as [s IH] using (induction_ltof1 _ String.length). unfold ltof in IH.
  destruct s as [|c [|d u]]; simpl; [lia|destruct (bool_decide _); simpl; lia|].
  pose proof (IH u ltac:(simpl; lia)) as Hu. pose proof (IH (String d u) ltac:(simpl; lia)) as Ht.
  destruct (bool_decide (c = backslash)); [destruct (quoted u); simpl in *; lia|].
  destruct (bool_decide (c = double_quote)); [simpl; lia|].
  change (match u with EmptyString => _ | _ => _ end) with (quoted (String d u)).
  destruct (quoted (String d u)); simpl in *; lia.
Qed.

Lemma element_rest inner e s x r :
  (∀ s l r, inner s = Some (l, r) → (String.length r < String.length s)%nat) →
  element inner e s = Some (x, r) → (String.length r ≤ String.length s)%nat.
Proof.
  intros Hi Hx. destruct s as [|d u]; [done|]. cbn [element] in Hx. destruct (bool_decide (d = "{"%char)).
  - apply bind_Some in Hx as ([nested r0] & Hn & [= <- <-]). apply Hi in Hn. simpl. lia.
  - destruct (bool_decide (d = double_quote)).
    + pose proof (quoted_length u). destruct (quoted u). injection Hx as <- <-. simpl in *. lia.
    + injection Hx as _ <-. exact (drop_while_length unquoted_byte (String d u)).
Qed.

Lemma elements_shorter n e : ∀ first s l rest,
  elements n e first s = Some (l, rest) → (String.length rest < String.length s)%nat.
Proof.
  induction n as [|n IH]; intros first [|c t] l rest; cbn [elements]; try done.
  destruct (bool_decide (c = "}"%char)); [intros [= <- <-]; simpl; lia|].
  intros (s' & Hs & Hk)%bind_Some. apply bind_Some in Hk as ([x r] & Hx & Hk).
  apply bind_Some in Hk as ([l' r'] & Hl & [= <- <-]). apply IH in Hl.
  assert (String.length s' ≤ String.length (String c t))%nat as Hs'.
  { destruct first; [by injection Hs as <-|]. destruct (bool_decide (c = ","%char)); [|done]. injection Hs as <-. simpl; lia. }
  apply element_rest in Hx; [simpl in *; lia|]. eauto.
Qed.

(** The fuel of [parsePgArrayInner] is enough: more of it changes nothing. *)
Lemma elements_enough e n : ∀ m (first : bool) s,
  (String.length s + (if first then 1 else 0) ≤ n)%nat → (String.length s + (if first then 1 else 0) ≤ m)%nat →
  elements n e first s = elements m e first s.
Proof.
  induction n as [|n IH]; intros [|m] first [|c t] Hn Hm; simpl in *; try done; try lia.
  destruct (bool_decide (c = "}"%char)); [done|].
  destruct (if first then Some (String c t) else _) as [s'|] eqn:Hs; [|done]. cbn [mbind option_bind].
  assert (String.length s' + (if first then 0 else 1) ≤ S (String.length t))%nat as Hs'.
  { destruct first; [injection Hs as <-; simpl; lia|].
    destruct (bool_decide (c = ","%char)); [|done]. injection Hs as <-. lia. }
  assert (element (elements n e true) e s' = element (elements m e true) e s') as ->.
  { destruct s' as [|d u]; [done|]. cbn [element]. simpl in Hs'. destruct (bool_decide (d = "{"%char)); [|done].
    by rewrite (IH m true u) by (destruct first; simpl in *; lia). }
  destruct (element (elements m e true) e s') as [[x r]|] eqn:Hx; [|done]. cbn [mbind option_bind].
  apply element_rest in Hx; [|by eauto using elements_shorter].
  by rewrite (IH m false r) by (destruct first; simpl in *; lia).
Qed.

(** ** Examples *)

Module Witness.

#[local] Instance encoding : Encoding := {| Marshal := λ _, Err ""%string; FormatFloat := λ _, ""%string; PrintFloat := λ _, ""%string |}.

Definition sent : list value :=
  [VString ("a " +:+ q "b" +:+ ", {c}"); VNil; VString "NULL"; VSlice (Some [VString "\"; VString ""])].

Lemma arrays_are_read_back_witness : ∃ text,
  convertParam (VSlice (Some sent)) = VString text ∧ convertTextValue (Some text) 1009 = VSlice (Some sent).
Proof. exact (arrays_are_read_back 1009 0 sent eq_refl eq_refl). Defined.

(** An object in an array is sent as [fmt] prints it, which is no JSON. *)
Lemma objects_in_arrays_are_printed :
  convertParam (VSlice (Some [VMap [("a", VString "1,2")]])) = VString "{map[a:1,2]}".
Proof. reflexivity. Qed.

End Witness.
