(* ===== verification/SqlOverHttp.v ===== *)
(** * SQL over HTTP: [services/gateway/serverless/http.go]

    One request of the serverless endpoint: the branch that the host of its
    connection string names, the check of the client's address, a connection
    with the caller's credentials, and a query, or a batch of them in one
    transaction.  pgx is third-party: what it answers is arbitrary, rows
    included; that its context's deadline had passed is an answer too.  Tracing,
    metrics and logging are left out. *)

From stdpp Require Import pretty.
From S2P Require Import Prelude GoStrings GoFloat GoUrl Netip Resolver PgValues ServerlessErrors.

#[local] Open Scope Z_scope.
#[local] Open Scope go_scope.

Definition maxQueriesPerBatch : Z := 100.
Definition maxResponseSizeBytes : Z := 10 * 1024 * 1024.
Definition maxQueryParams : Z := 65535.

(** ** Requests *)

Record QueryItem := mkQueryItem {
  qi_Query : string;
  qi_Params : option (list value);
  qi_ArrayMode : option bool
}.

Record SQLRequest := mkSQLRequest {
  sr_Query : option string;
  sr_Params : option (list value);
  sr_ArrayMode : option bool;
  sr_Queries : option (list QueryItem)
}.

Record QueryParams := mkQueryParams {
  qp_ArrayMode : option string;
  qp_RawTextOutput : option string;
  qp_BatchIsolationLevel : option string;
  qp_BatchReadOnly : option string;
  qp_BatchDeferrable : option string
}.

(** [encoding/json] with [UseNumber] on the request types: the value, and
    whether nothing follows it. *)
Class RequestJSON := {
  DecodeQueries : string → option (list QueryItem * bool);
  DecodeRequest : string → option (SQLRequest * bool)
}.

Record connectionInfo := mkConnInfo { ci_Host : string; ci_User : string; ci_Password : string; ci_Database : string }.

Definition parseConnectionString `{URLs} (connStr : string) : res error connectionInfo :=
  if bool_decide (connStr = "") then Err ErrMissingConnectionString
  else
    match ParseURL connStr with
    | None => Err ErrInvalidConnectionString
    | Some u =>
        if negb (bool_decide (us_Scheme u = "postgres") || bool_decide (us_Scheme u = "postgresql")) then Err ErrInvalidConnectionString
        else
          match us_User u with
          | Some (user, Some password) =>
              let database := match CutPrefix "/" (us_Path u) with Some d => d | None => us_Path u end in
              if bool_decide (user = "") || bool_decide (password = "") || bool_decide (us_Host u = "")
              then Err ErrInvalidConnectionString
              else Ok (mkConnInfo (us_Hostname u) user password database)
          | _ => Err ErrInvalidConnectionString
          end
    end.

Definition decodeRequestJSON {A} (decoded : option (A * bool)) : res error A :=
  match decoded with Some (a, true) => Ok a | _ => Err ErrInvalidRequest end.

(** [body] is None when it cannot be read. *)
Definition parseRequest `{RequestJSON} (body : option string) : res error SQLRequest :=
  match body with
  | None => Err ErrInvalidRequest
  | Some data =>
      match TrimSpace data with
      | EmptyString => Err ErrInvalidRequest
      | String c _ as data =>
          if bool_decide (c = "["%char) then
            queries <~ decodeRequestJSON (DecodeQueries data); Ok (mkSQLRequest None None None (Some queries))
          else decodeRequestJSON (DecodeRequest data)
      end
  end.

Definition isBatch (r : SQLRequest) : bool := match sr_Queries r with Some _ => true | None => false end.

Definition too_many (params : option (list value)) : bool := maxQueryParams <? Z.of_nat (length (default [] params)).

Fixpoint check_queries (i : nat) (queries : list QueryItem) : option string :=
  match queries with
  | [] => None
  | q :: queries =>
      if bool_decide (qi_Query q = "") then Some ("query at index " +:+ pretty i +:+ " is empty")
      else if too_many (qi_Params q) then
        Some ("query at index " +:+ pretty i +:+ " has too many parameters: maximum " +:+ pretty maxQueryParams +:+ " allowed")
      else check_queries (S i) queries
  end.

Definition validateRequest (r : SQLRequest) : option string :=
  match sr_Queries r with
  | Some queries =>
      if maxQueriesPerBatch <? Z.of_nat (length queries) then
        Some ("too many queries: maximum " +:+ pretty maxQueriesPerBatch +:+ " allowed")
      else check_queries 0 queries
  | None =>
      if bool_decide (default "" (sr_Query r) = "") then Some (error_text ErrMissingQuery)
      else if too_many (sr_Params r) then Some ("too many parameters: maximum " +:+ pretty maxQueryParams +:+ " allowed")
      else None
  end.

Record queryOptions := mkOptions { qo_arrayMode : bool; qo_rawTextOutput : bool }.

Definition withArrayMode (o : queryOptions) (override : option bool) : queryOptions :=
  match override with Some b => mkOptions b (qo_rawTextOutput o) | None => o end.

(** The words of [BEGIN]. *)
Record TxOptions := mkTxOptions { tx_IsoLevel : string; tx_AccessMode : string; tx_DeferrableMode : string }.

Definition parseTxOptions (params : QueryParams) : res string TxOptions :=
  let level := default "ReadCommitted" (qp_BatchIsolationLevel params) in
  isoLevel <~ (if bool_decide (level = "ReadCommitted") then Ok "read committed"
               else if bool_decide (level = "ReadUncommitted") then Ok "read uncommitted"
               else if bool_decide (level = "RepeatableRead") then Ok "repeatable read"
               else if bool_decide (level = "Serializable") then Ok "serializable"
               else Err ("invalid isolation level: " +:+ level));
  Ok (mkTxOptions isoLevel
        (if bool_decide (default "" (qp_BatchReadOnly params) = "true") then "read only" else "read write")
        (if bool_decide (default "" (qp_BatchDeferrable params) = "true") then "deferrable" else "not deferrable")).

(** ** Results *)

Record FieldDescription := mkField {
  fd_Name : string; fd_TableOID : Z; fd_TableAttributeNumber : Z; fd_DataTypeOID : Z; fd_DataTypeSize : Z; fd_TypeModifier : Z
}.

(** What a query answers while it is read: a value is None for NULL, and a row
    has a value for every field. *)
Record Rows := mkRows {
  ro_Fields : list FieldDescription;
  ro_Rows : list (list (option string));
  ro_Err : option error;
  ro_CommandTag : string
}.

Record FieldDefinition := mkFieldDef {
  df_Name : string; df_TableID : Z; df_ColumnID : Z; df_DataTypeID : Z; df_DataTypeSize : Z; df_DataTypeModifier : Z; df_Format : string
}.

Record QueryResult := mkQueryResult {
  qr_Fields : list FieldDefinition;
  qr_Command : string;
  qr_RowCount : option Z;
  qr_Rows : list string;
  qr_RowAsArray : bool
}.

(** [int16] of a [uint16]. *)
Definition int16 (n : Z) : Z := (n + 2 ^ 15) mod 2 ^ 16 - 2 ^ 15.

Definition field_definition (f : FieldDescription) : FieldDefinition :=
  mkFieldDef (fd_Name f) (fd_TableOID f) (int16 (fd_TableAttributeNumber f)) (fd_DataTypeOID f) (fd_DataTypeSize f)
    (fd_TypeModifier f) "text".

Definition parseCommandTag (tag : string) : string * option Z :=
  match Split " "%char tag with
  | [] => ("", None)
  | command :: args =>
      let countStr := match args with
                      | a :: b :: _ => if bool_decide (command = "INSERT") then b else a
                      | [a] => a
                      | [] => ""
                      end in
      (command, if bool_decide (countStr = "") then None else ParseInt10 countStr)
  end.

(** An assignment to a map, which is kept in the order of its keys. *)
Fixpoint put (k : string) (v : value) (m : list (string * value)) : list (string * value) :=
  match m with
  | [] => [(k, v)]
  | (k', v') :: m' =>
      match String.compare k k' with
      | Lt => (k, v) :: m
      | Eq => (k, v) :: m'
      | Gt => (k', v') :: put k v m'
      end
  end.

Definition row_value (opts : queryOptions) (f : FieldDescription) (rv : option string) : value :=
  if qo_rawTextOutput opts then match rv with None => VNil | Some s => VString s end
  else convertTextValue rv (fd_DataTypeOID f).

(** A slice of the row's values, or a map from the names to them. *)
Definition row_entry (opts : queryOptions) (fields : list FieldDescription) (raw : list (option string)) : value :=
  let values := zip_with (row_value opts) fields raw in
  if qo_arrayMode opts then VSlice (Some values)
  else VMap (foldl (λ m fv, put (fd_Name fv.1) fv.2 m) [] (zip fields values)).

Section Rows.
Context `{Encoding}.

Fixpoint encode_rows (opts : queryOptions) (fields : list FieldDescription) (responseSize : Z)
    (rows : list (list (option string))) : res error (list string) :=
  match rows with
  | [] => Ok []
  | raw :: rows =>
      match Marshal (row_entry opts fields raw) with
      | Err e => Err (Wrapped "marshal row" (ErrorText e))
      | Ok encoded =>
          let responseSize := responseSize + Z.of_nat (String.length encoded) in
          if maxResponseSizeBytes <? responseSize then Err ErrResponseTooLarge
          else rest <~ encode_rows opts fields responseSize rows; Ok (encoded :: rest)
      end
  end.

Definition processRows (opts : queryOptions) (rows : Rows) : res error QueryResult :=
  resultRows <~ encode_rows opts (ro_Fields rows) 0 (ro_Rows rows);
  match ro_Err rows with
  | Some e => Err e
  | None =>
      let '(command, rowCount) := parseCommandTag (ro_CommandTag rows) in
      Ok (mkQueryResult (map field_definition (ro_Fields rows)) command rowCount resultRows (qo_arrayMode opts))
  end.
End Rows.

(** ** Calls *)

(** What [newServerlessConfig] sets; without a host or a port the parsed ones
    remain.  [cf_Branch] is what [DialFunc] dials. *)
Record ConnConfig := mkConnConfig {
  cf_Host : option string; cf_Port : option Z; cf_User : string; cf_Password : string; cf_Database : string; cf_Branch : Branch
}.

Definition newServerlessConfig (host user password database : string) (port : Z) (branch : Branch) : ConnConfig :=
  mkConnConfig (unless_empty host) (if port =? 0 then None else Some port) user password database branch.

Inductive call :=
| IsAllowed (branchID clientAddr : string)
| ParseConfig
| ConnectConfig (cfg : ConnConfig)
| BeginTx (o : TxOptions)
| ExecQuery (tx : bool) (query : string) (args : list value)
| CommitTx
| RollbackTx
| CloseConn
| ExecTimedOut.

(** [ExecTimedOut] is whether the deadline is the cause that the context of the
    execution was cancelled. *)
Definition resp (c : call) : Type :=
  match c with
  | IsAllowed _ _ => bool
  | ParseConfig => option error
  | ConnectConfig _ => option error
  | BeginTx _ => option error
  | ExecQuery _ _ _ => res error Rows
  | CommitTx => option error
  | RollbackTx | CloseConn => unit
  | ExecTimedOut => bool
  end.

Abbreviation M A := (prog resp A).
Abbreviation E A := (M (res error A)).
Definition ok {A} (a : A) : E A := mret (Ok a).
Definition fail {A} (e : error) : E A := mret (Err e).

(** ** Execution *)

Definition connect (branch : Branch) (info : connectionInfo) : E unit :=
  match SplitHostPort (Address branch) with
  | None => fail (Wrapped ("split branch address " +:+ q (Address branch)) (ErrorText ""))
  | Some (host, portStr) =>
      match ParseUint10 portStr with
      | Some port =>
          if 65535 <? port then fail (Wrapped ("parse branch port " +:+ q portStr) (ErrorText ""))
          else
            p ← perform ParseConfig;
            match p with
            | Some e => fail (Wrapped "parse config" e)
            | None =>
                r ← perform (ConnectConfig (newServerlessConfig host (ci_User info) (ci_Password info) (ci_Database info) port branch));
                match r with Some e => fail (ConnectionEstablishment e) | None => ok tt end
            end
      | None => fail (Wrapped ("parse branch port " +:+ q portStr) (ErrorText ""))
      end
  end.

Definition asExecTimeout {A} (e : error) : E A :=
  timedOut ← perform ExecTimedOut;
  fail (if timedOut : bool then ErrQueryExecTimeout else e).

(** [queryArgs] without the result format, which is always text. *)
Definition queryArgs `{Encoding} (params : option (list value)) : list value := convertParams (default [] params).

Section Handler.
Context `{Encoding} `{RequestJSON} `{URLs}.
Variable resolver : CNPGBranchResolver.
Variable resolve_error_text : resolve_error → string.
(** Whether a filter is configured. *)
Variable filtered : bool.

(** A query whose rows are read to their end. *)
Definition run_query (tx : bool) (query : string) (params : option (list value)) (opts : queryOptions) : E QueryResult :=
  r ← perform (ExecQuery tx query (queryArgs params));
  match r with
  | Err e => asExecTimeout e
  | Ok rows => match processRows opts rows with Err e => asExecTimeout e | Ok result => ok result end
  end.

(** A connection that is closed when the body returns. *)
Definition with_conn {A} (branch : Branch) (info : connectionInfo) (body : E A) : E A :=
  _ <-? connect branch info;
  r ← body;
  _ ← perform CloseConn;
  mret r.

Definition executeQuery (branch : Branch) (info : connectionInfo) (query : string) (params : option (list value))
    (opts : queryOptions) : E QueryResult :=
  with_conn branch info (run_query false query params opts).

Fixpoint run_batch (queries : list QueryItem) (opts : queryOptions) : E (list QueryResult) :=
  match queries with
  | [] => ok []
  | q :: queries =>
      result <-? run_query true (qi_Query q) (qi_Params q) (withArrayMode opts (qi_ArrayMode q));
      results <-? run_batch queries opts;
      ok (result :: results)
  end.

(** The transaction of [executeBatch]. *)
Definition transaction (queries : list QueryItem) (opts : queryOptions) (txOpts : TxOptions) : E (list QueryResult) :=
  b ← perform (BeginTx txOpts);
  match b with
  | Some e => asExecTimeout (Wrapped "begin transaction" e)
  | None =>
      r ← (results <-? run_batch queries opts;
           c ← perform CommitTx;
           match c with
           | Some e => asExecTimeout (Wrapped "commit transaction" e)
           | None => ok results
           end);
      _ ← perform RollbackTx;
      mret r
  end.

Definition executeBatch (branch : Branch) (info : connectionInfo) (queries : list QueryItem) (opts : queryOptions)
    (txOpts : TxOptions) : E (list QueryResult) :=
  with_conn branch info (transaction queries opts txOpts).

(** ** The handler *)

Inductive body :=
| ErrorBody (e : ErrorResponse)
| ResultBody (r : QueryResult)
| BatchBody (results : list QueryResult).

(** The answer that was written, if any, and the error that is logged. *)
Record outcome := mkOutcome { oc_Response : option (Z * body); oc_Error : option string }.

Definition answer (status : Z) (b : body) : outcome := mkOutcome (Some (status, b)) None.
Definition refusal (status : Z) (code message : string) : outcome := answer status (ErrorBody (errorResponse code message)).

Record request := mkRequest {
  rq_ConnectionString : string;
  rq_Body : option string;
  rq_RemoteAddr : string;
  rq_Params : QueryParams
}.

Definition CheckIPAllowed (branchID clientAddr : string) : M bool :=
  if filtered then perform (IsAllowed branchID clientAddr) else mret true.

Definition failed (e : error) : outcome :=
  let errorType := classifyError (Some e) in
  mkOutcome
    match handlePgError e with Some (status, r) => Some (status, ErrorBody r) | None => None end
    (if bool_decide (errorType ∈ [errTypeCanceled; errTypeQueryTimeout; errTypeResponseTooLarge]) then None
     else Some (sanitizeError e)).

Definition options_of (p : QueryParams) : queryOptions :=
  mkOptions (bool_decide (default "" (qp_ArrayMode p) = "true")) (bool_decide (default "" (qp_RawTextOutput p) = "true")).

(** The execution of a request that was let in. *)
Definition execute (branch : Branch) (info : connectionInfo) (params : QueryParams) (r : SQLRequest) : M outcome :=
  let opts := options_of params in
  match sr_Queries r with
  | Some queries =>
      match parseTxOptions params with
      | Err msg => mret (refusal 400 "BAD_REQUEST" msg)
      | Ok txOpts =>
          x ← executeBatch branch info queries opts txOpts;
          mret match x with Ok results => answer 200 (BatchBody results) | Err e => failed e end
      end
  | None =>
      x ← executeQuery branch info (default "" (sr_Query r)) (sr_Params r) (withArrayMode opts (sr_ArrayMode r));
      mret match x with Ok result => answer 200 (ResultBody result) | Err e => failed e end
  end.

Definition Query (rq : request) : M outcome :=
  match parseConnectionString (rq_ConnectionString rq) with
  | Err e => mret (refusal 401 "UNAUTHORIZED" (error_text e))
  | Ok info =>
      match parseRequest (rq_Body rq) with
      | Err e => mret (refusal 400 "BAD_REQUEST" (error_text e))
      | Ok r =>
          match validateRequest r with
          | Some msg => mret (refusal 400 "BAD_REQUEST" msg)
          | None =>
              match Resolve resolver (ci_Host info) EndpointPooler with
              | Err e => mret (refusal 400 "INVALID_HOST" (resolve_error_text e))
              | Ok branch =>
                  allowed ← CheckIPAllowed (ID branch) (rq_RemoteAddr rq);
                  if allowed : bool then execute branch info (rq_Params rq) r
                  else mret (refusal 403 "FORBIDDEN" "forbidden")
              end
          end
      end
  end.
End Handler.

(** ** What runs *)

(** The calls that reach PostgreSQL. *)
Definition reaches_database (c : call) : bool :=
  match c with ConnectConfig _ | BeginTx _ | ExecQuery _ _ _ | CommitTx => true | _ => false end.

(** A connection to the branch, with the credentials of the caller. *)
Definition serves (cfg : ConnConfig) (branch : Branch) (info : connectionInfo) : Prop :=
  cf_User cfg = ci_User info ∧ cf_Password cfg = ci_Password info ∧ cf_Database cfg = ci_Database info ∧ cf_Branch cfg = branch.

Section Properties.
Context `{Encoding} `{RequestJSON} `{URLs}.
Variable resolver : CNPGBranchResolver.
Variable resolve_error_text : resolve_error → string.
Variable filtered : bool.

Definition exec_of (tx : bool) (q : QueryItem) : call := ExecQuery tx (qi_Query q) (queryArgs (qi_Params q)).

(** The statements of a request. *)
Definition items (r : SQLRequest) : list QueryItem :=
  match sr_Queries r with
  | Some queries => queries
  | None => [mkQueryItem (default "" (sr_Query r)) (sr_Params r) (sr_ArrayMode r)]
  end.

(** The statements of a batch with their answers, in order. *)
Definition answered (queries : list QueryItem) (rows : list Rows) : list (event resp) :=
  zip_with (λ q r, ev (resp := resp) (ExecQuery true (qi_Query q) (queryArgs (qi_Params q))) (Ok r)) queries rows.

Lemma event_call (c d : call) w v : ev (resp := resp) c w = ev d v → c = d.
Proof. intros He. exact (f_equal (λ e, match e with ev c _ => c end) He). Qed.

Lemma call_runs c tr (r : resp c) : runs resp (perform c) tr r → tr = [ev c r].
Proof. by intros (r' & tr' & -> & -> & ->). Qed.

Lemma asExecTimeout_runs {A} e tr (x : res error A) :
  runs resp (asExecTimeout e) tr x → (∃ b, tr = [ev (resp := resp) ExecTimedOut b]) ∧ ∃ e', x = Err e'.
Proof. intros (b & t & -> & [-> ->]). eauto. Qed.

Lemma run_query_runs tx query params opts tr x :
  runs resp (run_query tx query params opts) tr x →
  ∃ w t, tr = ev (resp := resp) (ExecQuery tx query (queryArgs params)) w :: t ∧
    match x with
    | Ok result => t = [] ∧ ∃ rows, w = Ok rows ∧ processRows opts rows = Ok result
    | Err _ => ∃ b, t = [ev (resp := resp) ExecTimedOut b]
    end.
Proof.
  intros (t1 & t & w & -> & ->%call_runs & Hk)%runs_bind. exists w, t. split; [done|]. destruct w as [rows|e].
  - destruct (processRows opts rows) as [result|e] eqn:Hr; [destruct Hk as [-> ->]; eauto|].
    by apply asExecTimeout_runs in Hk as [? [e' ->]].
  - by apply asExecTimeout_runs in Hk as [? [e' ->]].
Qed.

Lemma run_batch_runs opts queries : ∀ tr x,
  runs resp (run_batch queries opts) tr x →
  (∀ c w, ev c w ∈ tr → c = ExecTimedOut ∨ ∃ q, q ∈ queries ∧ c = exec_of true q) ∧
  (∀ results, x = Ok results → ∃ rows, tr = answered queries rows ∧
     Forall3 (λ q r result, processRows (withArrayMode opts (qi_ArrayMode q)) r = Ok result) queries rows results).
Proof.
  induction queries as [|q queries IH]; intros tr x.
  { intros [-> ->]. split; [by intros c w ?%not_elem_of_nil|]. intros results [= <-]. exists []. split; [done|constructor]. }
  intros [(t1 & t2 & result & -> & Hq & Hk)|(e & Hq & ->)]%runs_bind_ok; apply run_query_runs in Hq as (w & t & -> & Hx).
  - destruct Hx as (-> & rows & -> & Hp). apply runs_bind_ok in Hk as [(t3 & t4 & results & -> & Hr & [-> ->])|(e & Hr & ->)];
      apply IH in Hr as [Hin Hok]; rewrite ?app_nil_r; (split; [|done || intros rs [= <-]]).
    + intros c w' [->%event_call|Hc]%elem_of_cons; [right; exists q; split; [by left|done]|].
      destruct (Hin c w' Hc) as [?|(q' & ? & ->)]; [by left|right; exists q'; split; [by right|done]].
    + destruct (Hok _ eq_refl) as (l & -> & Hl). exists (rows :: l). split; [done|by constructor].
    + intros c w' [->%event_call|Hc]%elem_of_cons; [right; exists q; split; [by left|done]|].
      destruct (Hin c w' Hc) as [?|(q' & ? & ->)]; [by left|right; exists q'; split; [by right|done]].
  - destruct Hx as [b ->]. split; [|done]. intros c w' [->%event_call|[->%event_call|[]%elem_of_nil]%elem_of_cons]%elem_of_cons; [|by left].
    right. exists q. split; [by left|done].
Qed.

(** Before the body of [with_conn]. *)
Definition connecting (cfg : ConnConfig) : list (event resp) :=
  [ev (resp := resp) ParseConfig None; ev (resp := resp) (ConnectConfig cfg) None].

Lemma connect_runs branch info tr x :
  runs resp (connect branch info) tr x →
  match x with
  | Ok _ => ∃ cfg, serves cfg branch info ∧ tr = connecting cfg
  | Err _ => ∀ c w, ev c w ∈ tr → c = ParseConfig ∨ ∃ cfg, c = ConnectConfig cfg ∧ serves cfg branch info
  end.
Proof.
  unfold connect. assert (∀ e : error, runs resp (fail e) tr x → ∃ e', x = Err e' ∧ tr = []) as Hfail
    by (intros e [-> ->]; eauto).
  assert (∀ c w, ev (resp := resp) c w ∈ [] → c = ParseConfig ∨ ∃ cfg, c = ConnectConfig cfg ∧ serves cfg branch info) as Hnil
    by (by intros c w ?%not_elem_of_nil).
  destruct (SplitHostPort (Address branch)) as [[host portStr]|]; [|by intros (e & -> & ->)%Hfail].
  destruct (ParseUint10 portStr) as [port|]; [|by intros (e & -> & ->)%Hfail].
  destruct (65535 <? port); [by intros (e & -> & ->)%Hfail|].
  intros (t1 & t2 & p & -> & ->%call_runs & Hk)%runs_bind. destruct p as [e|].
  { destruct Hk as [-> ->]. intros c w [->%event_call|[]%elem_of_nil]%elem_of_cons. by left. }
  apply runs_bind in Hk as (t3 & t4 & r & -> & ->%call_runs & Hk).
  destruct r as [e|]; destruct Hk as [-> ->].
  - intros c w [->%event_call|[->%event_call|[]%elem_of_nil]%elem_of_cons]%elem_of_cons; [by left|right].
    eexists. split; [done|by split_and!].
  - eexists. split; [|done]. by split_and!.
Qed.

Lemma with_conn_runs {A} branch info (p : E A) tr x :
  runs resp (with_conn branch info p) tr x →
  ((∃ e, x = Err e) ∧ ∀ c w, ev c w ∈ tr → c = ParseConfig ∨ ∃ cfg, c = ConnectConfig cfg ∧ serves cfg branch info) ∨
  ∃ cfg body, serves cfg branch info ∧ runs resp p body x ∧
    tr = connecting cfg ++ body ++ [ev (resp := resp) CloseConn tt].
Proof.
  intros [(t1 & t2 & u & -> & Hc%connect_runs & Hk)|(e & Hc%connect_runs & ->)]%runs_bind_ok; [|by eauto].
  destruct Hc as (cfg & Hs & ->). apply runs_bind in Hk as (body & t3 & y & -> & Hp & Hk).
  apply runs_bind in Hk as (t4 & t5 & [] & -> & ->%call_runs & [-> ->]).
  right. exists cfg, body. by rewrite app_nil_r.
Qed.

Lemma committing_runs queries opts tr r :
  runs resp (results <-? run_batch queries opts;
             c ← perform CommitTx;
             match c with
             | Some e => asExecTimeout (Wrapped "commit transaction" e)
             | None => ok results
             end) tr r →
  (∀ c w, ev c w ∈ tr → c ∈ [CommitTx; ExecTimedOut] ∨ ∃ q, q ∈ queries ∧ c = exec_of true q) ∧
  match r with
  | Ok results => ∃ rows, tr = answered queries rows ++ [ev (resp := resp) CommitTx None] ∧
      Forall3 (λ q r result, processRows (withArrayMode opts (qi_ArrayMode q)) r = Ok result) queries rows results
  | Err _ => ev (resp := resp) CommitTx None ∉ tr
  end.
Proof.
  assert (∀ c w (t : list (event resp)), (∀ c w, ev c w ∈ t → c = ExecTimedOut ∨ ∃ q, q ∈ queries ∧ c = exec_of true q) →
    ev (resp := resp) c w ∈ t → c ∈ [CommitTx; ExecTimedOut] ∨ ∃ q, q ∈ queries ∧ c = exec_of true q) as Hw.
  { intros c w t Ht [->|?]%Ht; [left; rewrite !elem_of_cons; tauto|by right]. }
  assert (∀ t : list (event resp), (∀ c w, ev c w ∈ t → c = ExecTimedOut ∨ ∃ q, q ∈ queries ∧ c = exec_of true q) →
    ev (resp := resp) CommitTx None ∉ t) as Hno by (by intros t Ht [?|(q & _ & ?)]%Ht).
  intros [(t1 & t2 & results & -> & [Hin Hok]%run_batch_runs & Hk)|(e & [Hin _]%run_batch_runs & ->)]%runs_bind_ok; [|by eauto].
  destruct (Hok _ eq_refl) as (rows & Ht1 & Hf).
  apply runs_bind in Hk as (t3 & t4 & c & -> & ->%call_runs & Hk). destruct c as [e|].
  - apply asExecTimeout_runs in Hk as [[b ->] [e' ->]]. split.
    + intros c w [Hc|[->%event_call|[->%event_call|[]%elem_of_nil]%elem_of_cons]%elem_of_cons]%elem_of_app;
        [by eapply Hw|left; rewrite !elem_of_cons; tauto..].
    + intros [Hc|[He|[?%event_call|[]%elem_of_nil]%elem_of_cons]%elem_of_cons]%elem_of_app; [by eapply Hno| |done].
      by apply (f_equal (λ e, match e with ev CommitTx None => true | _ => false end)) in He.
  - destruct Hk as [-> ->]. split; [|exists rows; by rewrite Ht1].
    intros c w [Hc|[->%event_call|[]%elem_of_nil]%elem_of_cons]%elem_of_app; [by eapply Hw|left; rewrite !elem_of_cons; tauto].
Qed.

Lemma transaction_runs queries opts txOpts tr x :
  runs resp (transaction queries opts txOpts) tr x →
  (∀ c w, ev c w ∈ tr → c ∈ [BeginTx txOpts; CommitTx; RollbackTx; ExecTimedOut] ∨ ∃ q, q ∈ queries ∧ c = exec_of true q) ∧
  match x with
  | Ok results => ∃ rows,
      tr = ev (resp := resp) (BeginTx txOpts) None :: answered queries rows ++
           [ev (resp := resp) CommitTx None; ev (resp := resp) RollbackTx tt] ∧
      Forall3 (λ q r result, processRows (withArrayMode opts (qi_ArrayMode q)) r = Ok result) queries rows results
  | Err _ => ev (resp := resp) CommitTx None ∉ tr
  end.
Proof.
  intros (t1 & t2 & b & -> & ->%call_runs & Hk)%runs_bind. destruct b as [e|].
  { apply asExecTimeout_runs in Hk as [[b ->] [e' ->]].
    split; [intros c w [->%event_call|[->%event_call|[]%elem_of_nil]%elem_of_cons]%elem_of_cons; left; rewrite !elem_of_cons; tauto|].
    intros [?%event_call|[?%event_call|[]%elem_of_nil]%elem_of_cons]%elem_of_cons; done. }
  apply runs_bind in Hk as (t3 & t4 & r & -> & Hb & Hk). apply runs_bind in Hk as (t5 & t6 & [] & -> & ->%call_runs & [-> ->]).
  assert ((∀ c w, ev c w ∈ t3 → c ∈ [CommitTx; ExecTimedOut] ∨ ∃ q, q ∈ queries ∧ c = exec_of true q) ∧
    match r with
    | Ok results => ∃ rows, t3 = answered queries rows ++ [ev (resp := resp) CommitTx None] ∧
        Forall3 (λ q r result, processRows (withArrayMode opts (qi_ArrayMode q)) r = Ok result) queries rows results
    | Err _ => ev (resp := resp) CommitTx None ∉ t3
    end) as [Hin Hr].
  { by apply committing_runs. }
  split.
  - intros c w. rewrite app_nil_r, !elem_of_app, !list_elem_of_singleton.
    intros [->%event_call|[Hc| ->%event_call]]; [left; by left|idtac|left; rewrite !elem_of_cons; tauto].
    apply Hin in Hc as [Hc|?]; [left|by right]. rewrite !elem_of_cons in *. tauto.
  - rewrite app_nil_r. destruct r as [results|e].
    + destruct Hr as (rows & -> & Hf). exists rows. by rewrite <- app_assoc.
    + rewrite !elem_of_app, !list_elem_of_singleton. by intros [?%event_call|[?|?%event_call]].
Qed.

(** ** The handler *)

(** The checks that a request has passed. *)
Definition let_in (rq : request) (info : connectionInfo) (r : SQLRequest) (branch : Branch) : Prop :=
  parseConnectionString (rq_ConnectionString rq) = Ok info ∧ parseRequest (rq_Body rq) = Ok r ∧
  validateRequest r = None ∧ Resolve resolver (ci_Host info) EndpointPooler = Ok branch.

Definition admitted (rq : request) (branch : Branch) : list (event resp) :=
  if filtered then [ev (resp := resp) (IsAllowed (ID branch) (rq_RemoteAddr rq)) true] else [].

Lemma Query_runs rq tr oc :
  runs resp (Query resolver resolve_error_text filtered rq) tr oc →
  ((∃ status code message, oc = refusal status code message) ∧ ∀ c w, ev c w ∈ tr → reaches_database c = false) ∨
  ∃ info r branch t, let_in rq info r branch ∧ tr = admitted rq branch ++ t ∧
    runs resp (execute branch info (rq_Params rq) r) t oc.
Proof.
  unfold Query, let_in. assert (∀ c w, ev (resp := resp) c w ∈ [] → reaches_database c = false) as Hnil
    by (by intros c w ?%not_elem_of_nil).
  destruct (parseConnectionString _) as [info|]; [|intros [-> ->]; left; eauto].
  destruct (parseRequest _) as [r|]; [|intros [-> ->]; left; eauto].
  destruct (validateRequest r) eqn:Hv; [intros [-> ->]; left; eauto|].
  destruct (Resolve _ _ _) as [branch|] eqn:Hr; [|intros [-> ->]; left; eauto].
  intros (t1 & t2 & allowed & -> & Ha & Hk)%runs_bind. unfold CheckIPAllowed, admitted in *. destruct filtered.
  - apply call_runs in Ha as ->. destruct allowed.
    + right. exists info, r, branch, t2. by split_and!.
    + destruct Hk as [-> ->]. left. split; [eauto|]. by intros c w [->%event_call|[]%elem_of_nil]%elem_of_cons.
  - destruct Ha as [-> ->]. right. exists info, r, branch, t2. by split_and!.
Qed.

(** What reaches the database in the execution of a request: a connection that
    serves the branch, before anything else, and the statements asked for. *)
Definition asked (r : SQLRequest) (c : call) : Prop :=
  match c with ExecQuery tx _ _ => tx = isBatch r ∧ ∃ q, q ∈ items r ∧ c = exec_of tx q | _ => True end.

Lemma execute_runs branch info params r tr oc :
  runs resp (execute branch info params r) tr oc →
  (∀ c w, ev c w ∈ tr → reaches_database c = false ∨ ∃ cfg, c = ConnectConfig cfg ∧ serves cfg branch info) ∨
  ∃ cfg body, serves cfg branch info ∧ tr = connecting cfg ++ body ∧
    ∀ c w, ev c w ∈ body → (∀ cfg, c ≠ ConnectConfig cfg) ∧ asked r c.
Proof.
  unfold execute. destruct (sr_Queries r) as [queries|] eqn:Hb.
  - destruct (parseTxOptions params) as [txOpts|]; [|intros [-> _]; left; by intros c w ?%not_elem_of_nil].
    intros (t1 & t2 & x & -> & Hx & [-> _])%runs_bind. rewrite app_nil_r.
    apply with_conn_runs in Hx as [[_ Hc]|(cfg & body & Hs & Ht & ->)].
    { left. intros c w [->|?]%Hc; [by left|by right]. }
    right. eexists cfg, _. split_and!; [done|reflexivity|]. apply transaction_runs in Ht as [Ht _].
    intros c w [Hc|Hc%list_elem_of_singleton%event_call]%elem_of_app; [|by subst c].
    apply Ht in Hc as [Hc|(q & Hq & ->)].
    + rewrite !elem_of_cons, elem_of_nil in Hc. destruct Hc as [->|[->|[->|[->|[]]]]]; done.
    + split; [done|]. unfold asked, exec_of, isBatch, items. rewrite Hb. eauto.
  - intros (t1 & t2 & x & -> & Hx & [-> _])%runs_bind. rewrite app_nil_r.
    apply with_conn_runs in Hx as [[_ Hc]|(cfg & body & Hs & Hq & ->)].
    { left. intros c w [->|?]%Hc; [by left|by right]. }
    right. eexists cfg, _. split_and!; [done|reflexivity|]. apply run_query_runs in Hq as (w & t & -> & Hx).
    assert (t = [] ∨ ∃ b, t = [ev (resp := resp) ExecTimedOut b]) as Ht by (destruct x; naive_solver).
    intros c w' [[->%event_call|Hc]%elem_of_cons|Hc%list_elem_of_singleton%event_call]%elem_of_app; [| |by subst c].
    + split; [done|]. unfold asked, exec_of, isBatch, items. rewrite Hb. split; [done|].
      eexists. split; [by left|done].
    + destruct Ht as [->|[b ->]]; [by apply not_elem_of_nil in Hc|].
      apply list_elem_of_singleton, event_call in Hc as ->. done.
Qed.

(** C9. What a request runs is its own, in its branch, as its caller.  Nothing
    reaches a database before the connection string, the request and its limits
    were checked, the host was resolved, and the filter, if there is one, let the
    client's address in for that branch; every connection is to that branch with
    the credentials of the connection string, and every statement is one of the
    request's, with its parameters, on a connection made before. *)
Theorem statements_are_authorized rq tr oc c w :
  runs resp (Query resolver resolve_error_text filtered rq) tr oc → ev c w ∈ tr → reaches_database c = true →
  ∃ info r branch t, let_in rq info r branch ∧ tr = admitted rq branch ++ t ∧
    ((∃ cfg, c = ConnectConfig cfg ∧ serves cfg branch info) ∨
     ∃ cfg body, serves cfg branch info ∧ t = connecting cfg ++ body ∧ ev c w ∈ body ∧ asked r c).
Proof.
  intros Hr Hin Hc. apply Query_runs in Hr as [[_ Hno]|(info & r & branch & t & Hl & -> & Hx)].
  { apply Hno in Hin. congruence. }
  exists info, r, branch, t. split_and!; [done..|]. apply elem_of_app in Hin as [Hin|Hin].
  { unfold admitted in Hin. destruct filtered; [|by apply not_elem_of_nil in Hin].
    apply list_elem_of_singleton, event_call in Hin as ->. done. }
  apply execute_runs in Hx as [Hx|(cfg & body & Hs & -> & Hb)].
  { left. apply Hx in Hin as [?|?]; [congruence|done]. }
  apply elem_of_app in Hin as [Hin|Hin]; [left|right].
  - exists cfg. split; [|done]. by apply elem_of_cons in Hin as [->%event_call|Hin%list_elem_of_singleton%event_call].
  - exists cfg, body. split_and!; [done..|]. by apply (Hb c w).
Qed.

Lemma failed_answer e results : failed e ≠ answer 200 (BatchBody results).
Proof. unfold failed, answer. destruct (handlePgError e) as [[status b]|]; intros [=]. Qed.

(** C10. A batch is all or nothing: it is answered with results exactly when its
    transaction was committed, and then the transaction ran every query of the
    request, in order, each was answered, and the results are those of the
    answers, in the same order. *)
Theorem batches_are_all_or_nothing rq tr oc info r branch queries :
  runs resp (Query resolver resolve_error_text filtered rq) tr oc →
  let_in rq info r branch → sr_Queries r = Some queries →
  (ev (resp := resp) CommitTx None ∈ tr ↔ ∃ results, oc = answer 200 (BatchBody results)) ∧
  ∀ results, oc = answer 200 (BatchBody results) → ∃ cfg txOpts rows,
    parseTxOptions (rq_Params rq) = Ok txOpts ∧
    tr = admitted rq branch ++ connecting cfg ++
         (ev (resp := resp) (BeginTx txOpts) None :: answered queries rows ++
          [ev (resp := resp) CommitTx None; ev (resp := resp) RollbackTx tt]) ++ [ev (resp := resp) CloseConn tt] ∧
    Forall3 (λ q rs result, processRows (withArrayMode (options_of (rq_Params rq)) (qi_ArrayMode q)) rs = Ok result)
      queries rows results.
Proof.
  intros Hr Hl Hq. assert (ev (resp := resp) CommitTx None ∉ admitted rq branch) as Ha.
  { unfold admitted. destruct filtered; [|apply not_elem_of_nil]. by intros Hin%list_elem_of_singleton%event_call. }
  apply Query_runs in Hr as [[(status & code & message & ->) Hno]|(info' & r' & branch' & t & Hl' & -> & Hx)].
  { split; [|by intros results [=]]. split; [by intros ?%Hno|by intros [results [=]]]. }
  assert (info' = info ∧ r' = r ∧ branch' = branch) as (-> & -> & ->).
  { unfold let_in in *. destruct Hl as (Hi & Hp & _ & Hb), Hl' as (Hi' & Hp' & _ & Hb').
    rewrite Hi' in Hi. injection Hi as ->. rewrite Hp' in Hp. injection Hp as ->. rewrite Hb' in Hb. by injection Hb as ->. }
  unfold execute in Hx. rewrite Hq in Hx. destruct (parseTxOptions (rq_Params rq)) as [txOpts|e].
  2: { destruct Hx as [-> ->]. rewrite app_nil_r. split; [|by intros results [=]].
       split; [by intros ?%Ha|by intros [results [=]]]. }
  apply runs_bind in Hx as (t1 & t2 & x & -> & Hx & [-> ->]). rewrite app_nil_r.
  apply with_conn_runs in Hx as [[[e ->] Hc]|(cfg & body & _ & Ht & ->)].
  { split; [|by intros results ?%failed_answer]. split; [|by intros [results ?%failed_answer]].
    intros [?|[?|(cfg & ? & _)]%Hc]%elem_of_app; done. }
  apply transaction_runs in Ht as [_ Ht]. destruct x as [results|e].
  - destruct Ht as (rows & -> & Hf). split.
    + split; [eauto|intros _]. rewrite !elem_of_app, elem_of_cons, elem_of_app, elem_of_cons. tauto.
    + intros results' [= <-]. by exists cfg, txOpts, rows.
  - split; [|by intros results ?%failed_answer]. split; [|by intros [results ?%failed_answer]].
    intros [?|[Hc|[?|?%list_elem_of_singleton%event_call]%elem_of_app]%elem_of_app]%elem_of_app; [done| |done..].
    by apply elem_of_cons in Hc as [?%event_call|?%list_elem_of_singleton%event_call].
Qed.
End Properties.

(** ** Results are whole *)

Definition total_size (rows : list string) : Z := foldr (λ s n, Z.of_nat (String.length s) + n) 0 rows.

Lemma encode_rows_ok `{Encoding} opts fields rows : ∀ size l,
  0 ≤ size ≤ maxResponseSizeBytes →
  encode_rows opts fields size rows = Ok l ↔
  Forall2 (λ raw s, Marshal (row_entry opts fields raw) = Ok s) rows l ∧ size + total_size l ≤ maxResponseSizeBytes.
Proof.
  induction rows as [|raw rows IH]; intros size l Hsize; cbn [encode_rows].
  { split; [intros [= <-]; split; [constructor|simpl; lia]|]. intros [Hf _]. by apply Forall2_nil_inv_l in Hf as ->. }
  assert (∀ l, 0 ≤ total_size l) as Hnn by (intros l'; induction l'; simpl; lia).
  destruct (Marshal (row_entry opts fields raw)) as [s|e] eqn:Hm.
  2: { split; [done|]. intros [(s & l' & Hs & _)%Forall2_cons_inv_l _]. congruence. }
  destruct (Z.ltb_spec maxResponseSizeBytes (size + Z.of_nat (String.length s))) as [Hbig|Hfits].
  - split; [done|]. intros [(s' & l' & Hs & _ & ->)%Forall2_cons_inv_l Ht]. assert (s' = s) as -> by congruence.
    simpl in Ht. specialize (Hnn l'). lia.
  - specialize (IH (size + Z.of_nat (String.length s))). split.
    + destruct (encode_rows opts fields _ rows) as [l'|e]; [|done]. intros [= <-].
      destruct (proj1 (IH l' ltac:(lia)) eq_refl) as [Hf Ht]. split; [by constructor|simpl; lia].
    + intros [(s' & l' & Hs & Hf & ->)%Forall2_cons_inv_l Ht]. assert (s' = s) as -> by congruence.
      rewrite (proj2 (IH l' ltac:(lia))); [done|]. split; [done|]. simpl in Ht. lia.
Qed.

(** A result is whole and bounded: a query is answered with a result exactly
    when its rows ended without an error, every one of them could be written,
    and together they are at most 10 MB; and then the result has all of them, in
    order, with the columns and the count of the command. *)
Theorem results_are_whole_and_bounded `{Encoding} opts rows result :
  processRows opts rows = Ok result ↔
  ro_Err rows = None ∧
  Forall2 (λ raw s, Marshal (row_entry opts (ro_Fields rows) raw) = Ok s) (ro_Rows rows) (qr_Rows result) ∧
  total_size (qr_Rows result) ≤ maxResponseSizeBytes ∧
  qr_Fields result = map field_definition (ro_Fields rows) ∧
  (qr_Command result, qr_RowCount result) = parseCommandTag (ro_CommandTag rows) ∧
  qr_RowAsArray result = qo_arrayMode opts.
Proof.
  unfold processRows. split.
  - destruct (encode_rows _ _ _ _) as [l|e] eqn:Hl; [|done]. apply encode_rows_ok in Hl as [Hf Ht]; [|done].
    cbn [res_bind]. destruct (ro_Err rows); [done|]. destruct (parseCommandTag _) as [command n]. by intros [= <-].
  - intros (He & Hf & Ht & Hd & Hc & Ha).
    assert (encode_rows opts (ro_Fields rows) 0 (ro_Rows rows) = Ok (qr_Rows result)) as ->.
    { apply encode_rows_ok; [done|]. split; [done|lia]. }
    cbn [res_bind]. rewrite He, <- Hc, <- Hd, <- Ha. by destruct result.
Qed.

(** ** A batch of two queries *)

Module Witness.

#[local] Instance encoding : Encoding :=
  {| Marshal := λ v, match v with VSlice (Some [VInt n]) => Ok ("[" +:+ pretty n +:+ "]") | _ => Err "" end;
     FormatFloat := λ _, ""; PrintFloat := λ _, "" |}.

Definition select : QueryItem := mkQueryItem "SELECT $1" (Some [VNumber "7"]) (Some true).
#[local] Instance request_json : RequestJSON :=
  {| DecodeQueries := λ s, if bool_decide (s = "[]") then Some ([], true) else Some ([select; select], true);
     DecodeRequest := λ _, None |}.
#[local] Instance urls : URLs :=
  {| ParseURL := λ s, if bool_decide (s = "postgres") then Some (mkURL "postgres" "" (Some ("app", Some "secret")) "b1.xata.tech" "b1.xata.tech" "/db" "" false "")
                      else None |}.

Definition gateway : CNPGBranchResolver := mkResolver "xata-clusters" 5432 true.
Definition one_row : Rows := mkRows [mkField "n" 0 0 oidInt4 4 0] [[Some "7"]] None "SELECT 1".
Definition server (_ : unit) (c : call) : unit * resp c :=
  (tt, match c as c return resp c with
       | IsAllowed _ _ => true
       | ParseConfig | ConnectConfig _ | BeginTx _ | CommitTx => None
       | ExecQuery _ _ _ => Ok one_row
       | RollbackTx | CloseConn => tt
       | ExecTimedOut => false
       end).

Definition batch : request := mkRequest "postgres" (Some " [..]") "10.0.0.1:4000" (mkQueryParams None None None None None).
Definition running := exec resp server tt (Query gateway (λ _, "") true batch).
Definition info : connectionInfo := mkConnInfo "b1.xata.tech" "app" "secret" "db".
Definition branch : Branch := mkBranch "b1" "branch-b1-pooler.xata-clusters.svc.cluster.local.:5432" "pooler".
Definition parsed : SQLRequest := mkSQLRequest None None None (Some [select; select]).

Definition result : QueryResult := mkQueryResult (map field_definition (ro_Fields one_row)) "SELECT" (Some 1) ["[7]"] true.

Lemma batches_are_all_or_nothing_witness :
  running.2 = answer 200 (BatchBody [result; result]) ∧ ev (resp := resp) CommitTx None ∈ running.1.1.
Proof.
  assert (running.2 = answer 200 (BatchBody [result; result])) as Hok by (vm_compute; reflexivity).
  split; [done|].
  pose proof (batches_are_all_or_nothing gateway (λ _, "") true batch running.1.1 running.2 info parsed branch [select; select]
    (exec_runs server tt _)) as H.
  apply H; [|reflexivity|by eexists]. split_and!; vm_compute; reflexivity.
Defined.

Lemma statements_are_authorized_witness :
  ∃ w info r b t, ev (ExecQuery true "SELECT $1" [VInt64 7]) w ∈ running.1.1 ∧
    let_in gateway batch info r b ∧ running.1.1 = ev (resp := resp) (IsAllowed (ID b) "10.0.0.1:4000") true :: t.
Proof.
  assert (ev (resp := resp) (ExecQuery true "SELECT $1" [VInt64 7]) (Ok one_row) ∈ running.1.1) as Hin.
  { vm_compute. do 4 right. by left. }
  destruct (statements_are_authorized gateway (λ _, "") true batch running.1.1 running.2 _ _ (exec_runs server tt _) Hin eq_refl)
    as (i & r & b & t & Hl & Ht & _).
  exists (Ok one_row), i, r, b, t. split_and!; [done..|exact Ht].
Defined.

Lemma results_are_whole_and_bounded_example :
  processRows (mkOptions true false) one_row = Ok result.
Proof. vm_compute. reflexivity. Qed.

End Witness.
