(* ===== verification/WebSockets.v ===== *)
(** * PostgreSQL over WebSocket: [services/gateway/serverless/websocket.go] and
    [pgauth.go]

    A client's first message holds its startup packet, and its password and
    first statements when it connects in one go: the gateway then authenticates
    for it and forwards the rest.  The messages a client sends before that are a
    list; one that is used up is a closed connection.  The messages of
    PostgreSQL's protocol are encoded by pgproto3, which is third-party; a slice
    out of range is a panic.  Tracing, metrics and logging are left out. *)

From stdpp Require Import pretty.
From S2P Require Import Prelude GoStrings Resolver ServerlessErrors.

#[local] Open Scope Z_scope.
#[local] Open Scope go_scope.

(** ** The first message ([pgauth.go]) *)

Definition maxStartupPacketLen : Z := 10000.
Definition sslRequestCode : Z := 80877103.
Definition gssEncRequestCode : Z := 80877104.

Definition byte_length (s : string) : Z := Z.of_nat (String.length s).

(** [binary.BigEndian.Uint32] of the first four bytes. *)
Definition Uint32 (s : string) : Z :=
  foldl (λ n c, n * 256 + byte_val c) 0 (String.list_ascii_of_string (take_str 4 s)).

(** The startup packet, and what follows it unless nothing does. *)
Definition parseStartupPipeline (data : string) : res error (string * option string) :=
  if byte_length data <? 8 then Err (ErrorText ("startup message too short: " +:+ pretty (byte_length data) +:+ " bytes"))
  else
    let startupLen := Uint32 data in
    if maxStartupPacketLen <? startupLen then
      Err (ErrorText ("startup message too large: " +:+ pretty startupLen +:+ " bytes (max " +:+ pretty maxStartupPacketLen +:+ ")"))
    else if (startupLen <? 8) || (byte_length data <? startupLen) then
      Err (ErrorText ("invalid startup message length: " +:+ pretty startupLen +:+ " (data " +:+ pretty (byte_length data) +:+ " bytes)"))
    else if startupLen =? byte_length data then Ok (data, None)
    else Ok (take_str (Z.to_nat startupLen) data, Some (drop_str (Z.to_nat startupLen) data)).

(** [pgproto3]: the password of the body of a message, and the parameters of a
    startup packet after its length. *)
Class Pgproto3 := {
  DecodePassword : string → res string string;
  DecodeStartup : string → res string (gmap string string)
}.

(** A slice of [s] from [lo] to [hi], or a panic. *)
Definition slice_string (s : string) (lo hi : Z) : option string :=
  if (lo <=? hi) && (hi <=? byte_length s) then Some (take_str (Z.to_nat (hi - lo)) (drop_str (Z.to_nat lo) s)) else None.

(** None is a panic; what remains is nil when nothing does. *)
Definition extractPassword `{Pgproto3} (msg : string) : option (res error (string * option string)) :=
  if (byte_length msg <? 5) || negb (HasPrefix msg "p") then Some (Err (ErrorText "not a password message"))
  else
    let msgLen := Uint32 (drop_str 1 msg) in
    let totalLen := 1 + msgLen in
    if byte_length msg <? totalLen then
      Some (Err (ErrorText ("password message truncated: need " +:+ pretty totalLen +:+ ", have " +:+ pretty (byte_length msg))))
    else
      body ← slice_string msg 5 totalLen;
      Some match DecodePassword body with
           | Err e => Err (Wrapped "decode password message" (ErrorText e))
           | Ok password =>
               Ok (password, if totalLen <? byte_length msg then Some (drop_str (Z.to_nat totalLen) msg) else None)
           end.

(** The user, the database and the other parameters. *)
Definition parseStartupParams `{Pgproto3} (data : string) : res error (string * string * gmap string string) :=
  if byte_length data <? 8 then Err (ErrorText "startup message too short")
  else
    match DecodeStartup (drop_str 4 data) with
    | Err e => Err (Wrapped "decode startup message" (ErrorText e))
    | Ok params => Ok (default "" (params !! "user"), default "" (params !! "database"), delete "user" (delete "database" params))
    end.

Definition extractStartupParam `{Pgproto3} (data key : string) : string :=
  if byte_length data <? 8 then ""
  else match DecodeStartup (drop_str 4 data) with Err _ => "" | Ok params => default "" (params !! key) end.

(** ** Calls *)

Inductive BackendMessage :=
| AuthenticationOk
| ParameterStatus (name value : string)
| BackendKeyData (pid : Z) (secretKey : string)
| ReadyForQuery (txStatus : string)
| PgWireError (e : PgError)
| FatalError (code msg : string).

(** What the gateway logs in with, and the branch that is dialed. *)
Record PgConfig := mkPgConfig {
  pc_User : string; pc_Password : string; pc_Database : string; pc_RuntimeParams : gmap string string; pc_Branch : Branch
}.

(** A connection that was authenticated and taken over. *)
Record HijackedConn := mkHijacked {
  hj_ParameterStatuses : gmap string string; hj_PID : Z; hj_SecretKey : string; hj_TxStatus : string
}.

Inductive call :=
| Accept
| WriteWs (data : string)
| CloseWs (status : Z) (reason : string)
| CloseNow
| IsAllowed (branchID clientAddr : string)
| ParseConfig
| ConnectPg (cfg : PgConfig)
| Hijack
| ClosePgConn
| Dial (branch : Branch)
| WriteClient (messages : list BackendMessage)
| WriteServer (data : string)
| CloseServer
| Proxy.

(** A failed connection of [pgconn] may come with one to close; [Proxy] copies in
    both directions until both ends are closed. *)
Definition resp (c : call) : Type :=
  match c with
  | Accept | WriteWs _ => option error
  | CloseWs _ _ | CloseNow | ClosePgConn | CloseServer | Proxy => unit
  | IsAllowed _ _ => bool
  | ParseConfig => option error
  | ConnectPg _ => res (error * bool) unit
  | Hijack => res error HijackedConn
  | Dial _ => res error unit
  | WriteClient _ => option error
  | WriteServer _ => option error
  end.

Abbreviation M A := (prog resp A).
Abbreviation E A := (M (res error A)).
Definition ok {A} (a : A) : E A := mret (Ok a).
Definition fail {A} (e : error) : E A := mret (Err e).

(** ** The handler ([websocket.go]) *)

Section Handler.
Context `{Pgproto3} `{MapRange}.
Variable resolver : CNPGBranchResolver.
(** Whether a filter is configured. *)
Variable filtered : bool.

Definition statuses (m : gmap string string) : list BackendMessage :=
  omap (λ name, ParameterStatus name <$> m !! name) (range_keys (dom m)).

Definition auth_response (hj : HijackedConn) : list BackendMessage :=
  AuthenticationOk :: statuses (hj_ParameterStatuses hj) ++
  [BackendKeyData (hj_PID hj) (hj_SecretKey hj); ReadyForQuery (hj_TxStatus hj)].

(** Logging in with what the client sent, and then forwarding the rest; the
    panic of a password message that is too short is None. *)
Definition pipelineAuth (branch : Branch) (startupData pipelinedData : string) : M (option (res error unit)) :=
  match extractPassword pipelinedData with
  | None => mret None
  | Some (Err e) => mret (Some (Err (Wrapped "extract password" e)))
  | Some (Ok (password, queryData)) =>
      r ← match parseStartupParams startupData with
          | Err e => fail (Wrapped "parse startup params" e)
          | Ok (user, database, params) =>
              p ← perform ParseConfig;
              match p with
              | Some e => fail (Wrapped "parse config" e)
              | None =>
                  c ← perform (ConnectPg (mkPgConfig user password database params branch));
                  match c with
                  | Err (e, conn) =>
                      _ ← (if conn : bool then perform ClosePgConn else mret tt);
                      match as_PgError e with
                      | Some pgErr =>
                          w ← perform (WriteClient [PgWireError pgErr]);
                          match w with
                          | Some writeErr => fail (Wrapped2 "forward error to client" writeErr e)
                          | None => fail (Wrapped "pgconn auth" e)
                          end
                      | None => fail (Wrapped "pgconn auth" e)
                      end
                  | Ok _ =>
                      h ← perform Hijack;
                      match h with
                      | Err e => _ ← perform ClosePgConn; fail (Wrapped "hijack connection" e)
                      | Ok hj =>
                          w ← perform (WriteClient (auth_response hj));
                          match w with
                          | Some e => _ ← perform CloseServer; fail (Wrapped "write auth response" e)
                          | None =>
                              match queryData with
                              | Some data =>
                                  s ← perform (WriteServer data);
                                  match s with
                                  | Some e => _ ← perform CloseServer; fail (Wrapped "flush pipelined query data" e)
                                  | None => ok tt
                                  end
                              | None => ok tt
                              end
                          end
                      end
                  end
              end
          end;
      mret (Some r)
  end.

(** The first message that asks for no encryption; [inbox] is what the client
    sends.  None when reading or answering fails. *)
Fixpoint read_startup (inbox : list string) : M (option string) :=
  match inbox with
  | [] => mret None
  | data :: inbox =>
      let code := Uint32 (drop_str 4 data) in
      if (byte_length data =? 8) && ((code =? sslRequestCode) || (code =? gssEncRequestCode)) then
        w ← perform (WriteWs "N");
        match w with Some _ => mret None | None => read_startup inbox end
      else mret (Some data)
  end.

(** What the client is told when the branch cannot be reached. *)
Definition is_err_hibernated (e : error) : bool := match e with ErrBranchHibernated => true | _ => false end.
Definition is_err_no_replica (e : error) : bool := match e with ErrNoReadReplica => true | _ => false end.
Definition is_deadline (e : error) : bool := match e with DeadlineExceeded => true | _ => false end.

Definition dial_error (e : error) : option BackendMessage :=
  if Is is_err_hibernated e then Some (FatalError "57P01" "branch is hibernated, reactivate it to continue")
  else if Is is_err_no_replica e then Some (FatalError "57P03" "branch has no read replica, use the primary endpoint or add a replica")
  else None.

Definition auth_error (e : error) : option BackendMessage :=
  match as_PgError e with
  | Some _ => None
  | None =>
      Some match dial_error e with
           | Some m => m
           | None => if Is is_deadline e then FatalError "57P03" "branch is reactivating, please retry"
                     else FatalError "28000" "authentication failed"
           end
  end.

Definition send_error (m : option BackendMessage) : M unit :=
  match m with Some m => _ ← perform (WriteClient [m]); mret tt | None => mret tt end.

(** The connection to the branch; false when there is none, and None after a
    panic. *)
Definition open_server (branch : Branch) (startup : string) (pipelined : option string) : M (option bool) :=
  match pipelined with
  | Some data =>
      r ← pipelineAuth branch startup data;
      match r with
      | None => mret None
      | Some (Err e) => _ ← send_error (auth_error e); mret (Some false)
      | Some (Ok _) => mret (Some true)
      end
  | None =>
      d ← perform (Dial branch);
      match d with
      | Err e => _ ← send_error (dial_error e); mret (Some false)
      | Ok _ =>
          w ← perform (WriteServer startup);
          match w with
          | Some _ => _ ← perform CloseServer; mret (Some false)
          | None => mret (Some true)
          end
      end
  end.

(** Once the branch is known and the client's address is let in. *)
Definition serve (branch : Branch) (startupData : string) : M (option unit) :=
  match parseStartupPipeline startupData with
  | Err _ => mret (Some tt)
  | Ok (startup, pipelined) =>
      s ← open_server branch startup pipelined;
      match s with
      | None => mret None
      | Some false => mret (Some tt)
      | Some true => _ ← perform Proxy; _ ← perform CloseServer; mret (Some tt)
      end
  end.

Definition StatusPolicyViolation : Z := 1008.
Definition StatusInternalError : Z := 1011.

Definition CheckIPAllowed (branchID clientAddr : string) : M bool :=
  if filtered then perform (IsAllowed branchID clientAddr) else mret true.

(** None when the handler panics; [host] is the request's. *)
Definition Websocket (inbox : list string) (host remoteAddr : string) : M (option unit) :=
  a ← perform Accept;
  match a with
  | Some _ => mret (Some tt)
  | None =>
      r ← (s ← read_startup inbox;
           match s with
           | None => mret (Some tt)
           | Some startupData =>
               let param := extractStartupParam startupData "host" in
               let serverName := if bool_decide (param = "") then host else param in
               if bool_decide (serverName = "") then
                 _ ← perform (CloseWs StatusPolicyViolation "missing host"); mret (Some tt)
               else
                 match Resolve resolver serverName EndpointPooler with
                 | Err _ => _ ← perform (CloseWs StatusInternalError "resolve branch failed"); mret (Some tt)
                 | Ok branch =>
                     allowed ← CheckIPAllowed (ID branch) remoteAddr;
                     if allowed : bool then serve branch startupData
                     else _ ← perform (CloseWs StatusPolicyViolation "forbidden"); mret (Some tt)
                 end
           end);
      _ ← perform CloseNow;
      mret r
  end.
End Handler.

(** ** Where the first message is cut *)

Lemma take_drop_string n (s : string) : take_str n s +:+ drop_str n s = s.
Proof. revert s. induction n as [|n IH]; intros [|c s]; try done. cbn. by rewrite IH. Qed.

Lemma take_str_length n (s : string) : (n ≤ String.length s)%nat → String.length (take_str n s) = n.
Proof. revert s. induction n as [|n IH]; intros [|c s]; simpl; try lia. intros ?. rewrite IH; lia. Qed.

Lemma drop_str_length n (s : string) : String.length (drop_str n s) = (String.length s - n)%nat.
Proof. revert s. induction n as [|n IH]; intros [|c s]; simpl; try lia. apply IH. Qed.

Lemma drop_str_add n k (s : string) : drop_str (n + k) s = drop_str k (drop_str n s).
Proof. revert s. induction n as [|n IH]; intros [|c s]; simpl; [done..| |apply IH]. by destruct k. Qed.

Lemma take_take_str n (s : string) : take_str n (take_str n s) = take_str n s.
Proof. revert s. induction n as [|n IH]; intros [|c s]; simpl; [done..|]. by rewrite IH. Qed.

Lemma drop_str_nil n (s : string) : drop_str n s = "" ↔ (String.length s ≤ n)%nat.
Proof.
  rewrite <- Nat.sub_0_le, <- drop_str_length. destruct (drop_str n s); simpl; [done|]. split; [done|lia].
Qed.

Lemma parseStartupPipeline_ok data startup pipelined :
  parseStartupPipeline data = Ok (startup, pipelined) →
  data = startup +:+ default "" pipelined ∧ byte_length startup = Uint32 data ∧
  8 ≤ byte_length startup ≤ maxStartupPacketLen ∧ pipelined ≠ Some "".
Proof.
  unfold parseStartupPipeline, byte_length, maxStartupPacketLen.
  destruct (Z.ltb_spec (Z.of_nat (String.length data)) 8); [done|].
  destruct (Z.ltb_spec 10000 (Uint32 data)); [done|].
  destruct (Z.ltb_spec (Uint32 data) 8); [done|]. destruct (Z.ltb_spec (Z.of_nat (String.length data)) (Uint32 data)); [done|].
  cbn [orb]. destruct (Z.eqb_spec (Uint32 data) (Z.of_nat (String.length data))) as [He|He]; intros [= <- <-].
  - rewrite append_nil_r. split_and!; [done|lia..|done].
  - cbn [default]. rewrite take_drop_string, take_str_length by lia. split_and!; [done|lia..|].
    intros [= Hd]. apply (f_equal String.length) in Hd. rewrite drop_str_length in Hd. simpl in Hd. lia.
Qed.

Section Passwords.
Context `{Pgproto3}.

Lemma extractPassword_ok msg password rest :
  extractPassword msg = Some (Ok (password, rest)) →
  ∃ head body, msg = String "p"%char (head +:+ body +:+ default "" rest) ∧ String.length head = 4%nat ∧
    Uint32 head = 4 + byte_length body ∧ DecodePassword body = Ok password ∧ rest ≠ Some "".
Proof.
  unfold extractPassword, byte_length. destruct (Z.ltb_spec (Z.of_nat (String.length msg)) 5) as [|Hlen]; [done|].
  destruct (HasPrefix msg "p") eqn:Hp; [|done]. cbn [orb negb]. apply HasPrefix_spec in Hp as [m ->].
  change ("p" +:+ m) with (String "p"%char m) in *. cbn [drop_str String.length] in *.
  destruct (Z.ltb_spec (Z.of_nat (S (String.length m))) (1 + Uint32 m)) as [|Htot]; [done|].
  intros (body & Hb & Hk)%bind_Some. unfold slice_string, byte_length in Hb.
  destruct (Z.leb_spec 5 (1 + Uint32 m)) as [Hlo|]; [|done]. cbn [andb String.length] in Hb.
  destruct (Z.leb_spec (1 + Uint32 m) (Z.of_nat (S (String.length m)))); [|done].
  assert (Hn : ∃ n, Uint32 m = 4 + Z.of_nat n) by (exists (Z.to_nat (Uint32 m - 4)); lia). destruct Hn as [n Hn].
  injection Hb as Hb. rewrite Hn in *.
  assert (body = take_str n (drop_str 4 m)) as ->.
  { rewrite <- Hb. replace (Z.to_nat (1 + (4 + Z.of_nat n) - 5)) with n by lia. done. }
  assert (drop_str (Z.to_nat (1 + (4 + Z.of_nat n))) (String "p"%char m) = drop_str n (drop_str 4 m)) as Hdrop.
  { replace (Z.to_nat (1 + (4 + Z.of_nat n))) with (S (4 + n)) by lia. exact (drop_str_add 4 n m). }
  rewrite Hdrop in Hk. remember (drop_str n (drop_str 4 m)) as tail eqn:Htail.
  destruct (DecodePassword _) as [pw|] eqn:Hd; [|done]. injection Hk as -> <-.
  assert (String.length (take_str n (drop_str 4 m)) = n) as Hbody by (apply take_str_length; rewrite drop_str_length; lia).
  exists (take_str 4 m), (take_str n (drop_str 4 m)). split_and!.
  - f_equal. rewrite <- (take_drop_string 4 m) at 1. f_equal. rewrite <- (take_drop_string n (drop_str 4 m)) at 1.
    rewrite <- Htail. f_equal. destruct (Z.ltb_spec (1 + (4 + Z.of_nat n)) (Z.of_nat (S (String.length m)))); [done|].
    rewrite Htail. apply drop_str_nil. rewrite drop_str_length. lia.
  - apply take_str_length. lia.
  - unfold Uint32 in Hn |- *. rewrite take_take_str, Hn. unfold byte_length. by rewrite Hbody.
  - done.
  - destruct (Z.ltb_spec (1 + (4 + Z.of_nat n)) (Z.of_nat (S (String.length m)))); [|done].
    intros [= Ht]. rewrite Htail in Ht. apply drop_str_nil in Ht. rewrite drop_str_length in Ht. lia.
Qed.

(** The first message of a client is cut without loss: the startup packet,
    the password message and the statements that follow are the bytes that came,
    in order; the packet has the length it declares, which is at least 8 and at
    most the limit of PostgreSQL, the password is that of the message's body, and
    nothing that is empty is forwarded. *)
Theorem first_message_is_cut_without_loss data startup pipelined password rest :
  parseStartupPipeline data = Ok (startup, Some pipelined) →
  extractPassword pipelined = Some (Ok (password, rest)) →
  ∃ head body,
    data = startup +:+ String "p"%char (head +:+ body +:+ default "" rest) ∧
    Uint32 data = byte_length startup ∧ 8 ≤ byte_length startup ≤ maxStartupPacketLen ∧
    String.length head = 4%nat ∧ Uint32 head = 4 + byte_length body ∧ DecodePassword body = Ok password ∧ rest ≠ Some "".
Proof.
  intros (-> & Hl & Hb & _)%parseStartupPipeline_ok (head & body & -> & H1 & H2 & H3 & H4)%extractPassword_ok.
  exists head, body. split_and!; [done|symmetry; exact Hl|lia..|done|done|done|done].
Qed.

(** A password message that declares fewer bytes than its own length field
    has is not refused but slices out of range: the handler panics on exactly
    these messages. *)
Theorem short_password_message_panics msg :
  extractPassword msg = None ↔ 5 ≤ byte_length msg ∧ (∃ t, msg = String "p"%char t ∧ Uint32 t < 4).
Proof.
  unfold extractPassword. split.
  - destruct (Z.ltb_spec (byte_length msg) 5); [done|]. destruct (HasPrefix msg "p") eqn:Hp; [|done]. cbn [orb negb].
    apply HasPrefix_spec in Hp as [t ->]. intros Hk. split; [done|]. exists t. split; [done|].
    change (drop_str 1 ("p" +:+ t)) with t in Hk.
    destruct (Z.ltb_spec (byte_length ("p" +:+ t)) (1 + Uint32 t)); [done|]. unfold slice_string in Hk.
    destruct (Z.leb_spec 5 (1 + Uint32 t)); [|lia]. destruct (Z.leb_spec (1 + Uint32 t) (byte_length ("p" +:+ t))); [done|lia].
  - intros (Hl & t & -> & Ht). destruct (Z.ltb_spec (byte_length (String "p"%char t)) 5); [lia|].
    assert (HasPrefix (String "p"%char t) "p" = true) as -> by (apply HasPrefix_spec; by exists t). cbn [orb negb].
    change (drop_str 1 (String "p"%char t)) with t.
    destruct (Z.ltb_spec (byte_length (String "p"%char t)) (1 + Uint32 t)); [lia|]. unfold slice_string.
    destruct (Z.leb_spec 5 (1 + Uint32 t)); [lia|done].
Qed.
End Passwords.

(** ** What is dialed *)

(** What a run shows of the branch: the answer of the filter, a login, the
    client's being told that it is logged in, a dialed connection, what was
    written to it, and that from there on both directions are copied. *)
Inductive note :=
| NAllowed (branchID clientAddr : string) (allowed : bool)
| NLogin (cfg : PgConfig) (accepted : bool)
| NWelcome (told : bool)
| NDial (branch : Branch) (dialed : bool)
| NSent (data : string) (written : bool)
| NProxy.

Definition is_none {A} (o : option A) : bool := match o with None => true | Some _ => false end.

Definition note_of (e : event resp) : option note :=
  match e with
  | ev (IsAllowed id addr) allowed => Some (NAllowed id addr allowed)
  | ev (ConnectPg cfg) r => Some (NLogin cfg (is_ok r))
  | ev (WriteClient (AuthenticationOk :: _)) r => Some (NWelcome (is_none r))
  | ev (Dial b) r => Some (NDial b (is_ok r))
  | ev (WriteServer data) r => Some (NSent data (is_none r))
  | ev Proxy _ => Some NProxy
  | _ => None
  end.

Section Authorized.
Context `{Pgproto3} `{MapRange}.
Variable resolver : CNPGBranchResolver.
Variable filtered : bool.

(** A login to the branch, as the user and with the password of the client's
    first message; [rest] is what follows. *)
Definition login_of (branch : Branch) (startupData : string) (cfg : PgConfig) (rest : option string) : Prop :=
  pc_Branch cfg = branch ∧ ∃ startup pipelined,
    parseStartupPipeline startupData = Ok (startup, Some pipelined) ∧
    extractPassword pipelined = Some (Ok (pc_Password cfg, rest)) ∧
    parseStartupParams startup = Ok (pc_User cfg, pc_Database cfg, pc_RuntimeParams cfg).

(** A login that leads to a connection: accepted, the client was told, and what
    followed was written. *)
Definition authenticated (cfg : PgConfig) (rest : option string) : list note :=
  NLogin cfg true :: NWelcome true :: match rest with Some data => [NSent data true] | None => [] end.

(** One that does not: refused, not taken over, not told, or not written to. *)
Inductive unauthenticated (cfg : PgConfig) (rest : option string) : list note → Prop :=
| un_refused : unauthenticated cfg rest [NLogin cfg false]
| un_hijack : unauthenticated cfg rest [NLogin cfg true]
| un_told : unauthenticated cfg rest [NLogin cfg true; NWelcome false]
| un_written data : rest = Some data → unauthenticated cfg rest [NLogin cfg true; NWelcome true; NSent data false].

Inductive session (branch : Branch) (startupData : string) : list note → Prop :=
| session_none : session branch startupData []
| session_unauthenticated cfg rest l :
    login_of branch startupData cfg rest → unauthenticated cfg rest l → session branch startupData l
| session_login cfg rest :
    login_of branch startupData cfg rest → session branch startupData (authenticated cfg rest ++ [NProxy])
| session_undialed :
    parseStartupPipeline startupData = Ok (startupData, None) → session branch startupData [NDial branch false]
| session_unwritten :
    parseStartupPipeline startupData = Ok (startupData, None) →
    session branch startupData [NDial branch true; NSent startupData false]
| session_dialed :
    parseStartupPipeline startupData = Ok (startupData, None) →
    session branch startupData [NDial branch true; NSent startupData true; NProxy].

Lemma wp_send_error m acc Q : m ≠ Some AuthenticationOk → Q acc tt → wp resp note_of (send_error m) acc Q.
Proof.
  intros Hm HQ. destruct m as [m|]; [|exact HQ]. apply (wp_perform _ (WriteClient [m])). intros r. by destruct m.
Qed.

Lemma dial_error_fatal e : dial_error e ≠ Some AuthenticationOk.
Proof. unfold dial_error. by repeat case_match. Qed.

Lemma auth_error_fatal e : auth_error e ≠ Some AuthenticationOk.
Proof. pose proof (dial_error_fatal e). unfold auth_error. repeat case_match; congruence. Qed.

(** Whether the login led to a connection decides which notes it left. *)
Definition login_notes (cfg : PgConfig) (rest : option string) (r : option (res error unit)) (l : list note) : Prop :=
  match r with Some (Ok _) => l = authenticated cfg rest | _ => unauthenticated cfg rest l end.

Lemma wp_pipelineAuth branch startup pipelined acc (Q : list note → option (res error unit) → Prop) :
  (∀ r, match r with Some (Ok _) => False | _ => True end → Q acc r) →
  (∀ cfg rest l r, pc_Branch cfg = branch → extractPassword pipelined = Some (Ok (pc_Password cfg, rest)) →
     parseStartupParams startup = Ok (pc_User cfg, pc_Database cfg, pc_RuntimeParams cfg) →
     login_notes cfg rest r l → Q (acc ++ l) r) →
  wp resp note_of (pipelineAuth branch startup pipelined) acc Q.
Proof.
  intros Hnone Hlogin. unfold pipelineAuth.
  destruct (extractPassword pipelined) as [[[password rest]|e]|] eqn:He; [|by apply Hnone..].
  destruct (parseStartupParams startup) as [[[user database] params]|e] eqn:Hp; [|by apply Hnone].
  apply wp_bind, (wp_perform _ ParseConfig). intros [e|]; cbn [note_of]; [by apply Hnone|].
  set (cfg := mkPgConfig user password database params branch).
  assert (∀ l r, login_notes cfg rest r l → Q (acc ++ l) r) as HQ by (intros l r; by apply Hlogin).
  apply (wp_perform _ (ConnectPg cfg)). intros [u|[e conn]]; cbn [note_of is_ok].
  - apply (wp_perform _ Hijack). intros [hj|e]; cbn [note_of].
    2: { apply (wp_perform _ ClosePgConn). intros []. apply HQ. constructor. }
    apply (wp_perform _ (WriteClient (auth_response hj))). intros [e|]; cbn [note_of auth_response is_none];
      rewrite <- app_assoc.
    { apply (wp_perform _ CloseServer). intros []. apply HQ. constructor. }
    destruct rest as [data|]; [|by apply HQ].
    apply (wp_perform _ (WriteServer data)). intros [e|]; cbn [note_of is_none]; rewrite <- app_assoc; [|by apply HQ].
    apply (wp_perform _ CloseServer). intros []. apply HQ. by constructor.
  - assert (∀ r, match r with Some (Ok _) => False | _ => True end → Q (acc ++ [NLogin cfg false]) r) as Hr.
    { intros r Hr. apply HQ. destruct r as [[]|]; [done|constructor..]. }
    apply wp_bind. destruct conn; cbn; [intros _|]; destruct (as_PgError e); cbn; auto; intros [w|]; cbn; auto.
Qed.

Lemma wp_proxy acc (Q : list note → option unit → Prop) :
  Q (acc ++ [NProxy]) (Some tt) → wp resp note_of (_ ← perform Proxy; _ ← perform CloseServer; mret (Some tt)) acc Q.
Proof. intros HQ x y. exact HQ. Qed.

Lemma wp_serve branch startupData acc (Q : list note → option unit → Prop) :
  (∀ l r, session branch startupData l → Q (acc ++ l) r) → wp resp note_of (serve branch startupData) acc Q.
Proof.
  intros HQ. assert (∀ r, Q acc r) as Hnone.
  { intros r. rewrite <- (app_nil_r acc). apply HQ. constructor. }
  unfold serve. destruct (parseStartupPipeline startupData) as [[startup [pipelined|]]|e] eqn:Hp; [| |apply Hnone];
    unfold open_server; apply wp_bind.
  - apply wp_bind, wp_pipelineAuth.
    + intros [[u|e]|] Hr; [done|apply wp_bind, wp_send_error; [apply auth_error_fatal|exact (Hnone _)]|exact (Hnone _)].
    + intros cfg rest l r Hb Hx Hs Hl.
      assert (login_of branch startupData cfg rest) as Hlogin by (split; eauto 10).
      destruct r as [[u|e]|]; cbn [login_notes] in Hl.
      * subst l. apply wp_proxy. rewrite <- app_assoc. by apply HQ, session_login.
      * apply wp_bind, wp_send_error; [apply auth_error_fatal|]. eapply HQ, session_unauthenticated; eauto.
      * eapply HQ, session_unauthenticated; eauto.
  - pose proof (parseStartupPipeline_ok _ _ _ Hp) as (-> & _). cbn [default] in *. rewrite append_nil_r in *.
    apply (wp_perform _ (Dial branch)). intros [u|e]; cbn [note_of is_ok].
    + apply (wp_perform _ (WriteServer startup)). intros [e|]; cbn [note_of is_none]; rewrite <- app_assoc.
      * apply (wp_perform _ CloseServer). intros x. by apply HQ, session_unwritten.
      * apply wp_proxy. rewrite <- app_assoc. by apply HQ, session_dialed.
    + apply wp_bind, wp_send_error; [apply dial_error_fatal|]. by apply HQ, session_undialed.
Qed.

Lemma wp_read_startup inbox acc Q :
  (∀ s, match s with Some data => data ∈ inbox | None => True end → Q acc s) → wp resp note_of (read_startup inbox) acc Q.
Proof.
  intros HQ. induction inbox as [|data inbox IH]; [by apply HQ|]. cbn [read_startup]. destruct (_ && _).
  - apply (wp_perform _ (WriteWs "N")). intros [e|]; cbn [note_of]; [by apply (HQ None)|].
    apply IH. intros [d|] Hd; apply HQ; [by right|done].
  - apply (HQ (Some data)). by left.
Qed.

(** The name of the branch that a client asks for. *)
Definition server_name (startupData host : string) : string :=
  let param := extractStartupParam startupData "host" in if bool_decide (param = "") then host else param.

(** C14. A WebSocket reaches only the branch it names and may reach, as its
    client.  The branch is the one that the startup packet or the request names,
    nothing is dialed unless the filter, if there is one, let the client's
    address in, and then at most one connection is made, to that branch: for a
    packet that comes alone it gets that packet; otherwise the gateway logs in
    as the packet's user with the client's own password, and only after the
    login was accepted is the client told so and anything forwarded, namely what
    followed.  The two directions are copied only when all of that succeeded. *)
Theorem websockets_are_authorized inbox host remoteAddr tr r :
  runs resp (Websocket resolver filtered inbox host remoteAddr) tr r →
  omap note_of tr = [] ∨
  ∃ startupData branch, startupData ∈ inbox ∧
    Resolve resolver (server_name startupData host) EndpointPooler = Ok branch ∧
    ((filtered = true ∧ omap note_of tr = [NAllowed (ID branch) remoteAddr false]) ∨
     ∃ l, session branch startupData l ∧
       omap note_of tr = (if filtered then [NAllowed (ID branch) remoteAddr true] else []) ++ l).
Proof.
  intros Hr. refine (wp_sound note_of _ [] (λ l _, l = [] ∨ ∃ startupData branch, startupData ∈ inbox ∧
    Resolve resolver (server_name startupData host) EndpointPooler = Ok branch ∧
    ((filtered = true ∧ l = [NAllowed (ID branch) remoteAddr false]) ∨
     ∃ l', session branch startupData l' ∧
       l = (if filtered then [NAllowed (ID branch) remoteAddr true] else []) ++ l')) tr r _ Hr).
  apply (wp_perform _ Accept). intros [e|]; cbn [note_of]; [by left|].
  apply wp_bind, wp_bind, wp_read_startup. intros [startupData|] Hin; [|by left].
  fold (server_name startupData host). set (name := server_name startupData host).
  case_bool_decide; [by left|]. destruct (Resolve resolver name EndpointPooler) as [branch|e] eqn:Hb; [|by left].
  apply wp_bind. unfold CheckIPAllowed. destruct filtered.
  - apply (wp_perform _ (IsAllowed (ID branch) remoteAddr)). intros [|]; cbn [note_of app].
    + apply wp_serve. intros l x Hl. right. exists startupData, branch. split_and!; [done..|]. right. by exists l.
    + right. exists startupData, branch. split_and!; [done..|]. by left.
  - apply wp_serve. intros l x Hl. right. exists startupData, branch. split_and!; [done..|]. right. by exists l.
Qed.
End Authorized.

(** ** A client that connects in one go *)

Module Witness.

#[local] Instance protocol : Pgproto3 :=
  {| DecodePassword := λ s, Ok (take_str (String.length s - 1) s);
     DecodeStartup := λ _, Ok {["user" := "app"; "host" := "b1.xata.tech"]} |}.
#[local] Instance range : MapRange := { range_keys := elements; range_perm := λ s, reflexivity _ }.

Definition bytes (l : list N) : string := foldr (λ n s, String (ascii_of_N n) s) "" l.
Definition packet : string := bytes [0; 0; 0; 8; 0; 3; 0; 0]%N.
Definition login_message : string := "p" +:+ bytes [0; 0; 0; 11]%N +:+ "secret" +:+ bytes [0]%N.
Definition first_message : string := packet +:+ login_message +:+ "SELECT".

Lemma first_message_is_cut_without_loss_witness : ∃ head body,
  first_message = packet +:+ String "p"%char (head +:+ body +:+ "SELECT") ∧ String.length head = 4%nat ∧
  DecodePassword body = Ok "secret".
Proof.
  destruct (first_message_is_cut_without_loss first_message packet (login_message +:+ "SELECT") "secret" (Some "SELECT"))
    as (head & body & H1 & _ & _ & H2 & _ & H3 & _); [vm_compute; reflexivity..|].
  exists head, body. split_and!; [exact H1|exact H2|exact H3].
Defined.

Definition server (_ : unit) (c : call) : unit * resp c :=
  (tt, match c as c return resp c with
       | Accept | WriteWs _ => None
       | CloseWs _ _ | CloseNow | ClosePgConn | CloseServer | Proxy => tt
       | IsAllowed _ _ => true
       | ParseConfig => None
       | ConnectPg _ => Ok tt
       | Hijack => Ok (mkHijacked ∅ 7 "key" "I")
       | Dial _ => Ok tt
       | WriteClient _ | WriteServer _ => None
       end).

Definition gateway : CNPGBranchResolver := mkResolver "xata-clusters" 5432 true.
Definition connecting := exec resp server tt (Websocket gateway true [first_message] "" "10.0.0.1:4000").

Lemma websockets_are_authorized_witness :
  ∃ branch cfg, omap note_of connecting.1.1 = [NAllowed (ID branch) "10.0.0.1:4000" true; NLogin cfg true; NWelcome true; NSent "SELECT" true; NProxy] ∧
    ID branch = "b1" ∧ pc_Password cfg = "secret" ∧ session branch first_message [NLogin cfg true; NWelcome true; NSent "SELECT" true; NProxy].
Proof.
  pose proof (websockets_are_authorized gateway true [first_message] "" "10.0.0.1:4000" connecting.1.1 connecting.2
    (exec_runs server tt _)) as [H|(data & branch & Hin & Hb & [[_ H]|(l & Hs & H)])].
  - vm_compute in H. done.
  - vm_compute in H. done.
  - apply list_elem_of_singleton in Hin as ->.
    assert (branch = mkBranch "b1" "branch-b1-pooler.xata-clusters.svc.cluster.local.:5432" "pooler") as ->.
    { vm_compute in Hb. by injection Hb as <-. }
    exists (mkBranch "b1" "branch-b1-pooler.xata-clusters.svc.cluster.local.:5432" "pooler").
    eexists. split; [|split; [reflexivity|split; [|]]].
    + vm_compute. reflexivity.
    + reflexivity.
    + assert (l = [NLogin (mkPgConfig "app" "secret" "" (delete "user" (delete "database" {["user" := "app"; "host" := "b1.xata.tech"]}))
        (mkBranch "b1" "branch-b1-pooler.xata-clusters.svc.cluster.local.:5432" "pooler")) true; NWelcome true; NSent "SELECT" true; NProxy]) as Hl.
      { vm_compute in H. injection H as <-. vm_compute. reflexivity. }
      rewrite Hl in Hs. exact Hs.
Defined.

End Witness.
