(* ===== verification/BranchVolumes.v ===== *)
(** * The volumes of a branch: [services/branch-operator/pkg/reconciler]

    The steps of [BranchReconciler.Reconcile] that decide what happens to a
    branch's data: keeping the primary volume when the branch hibernates
    ([xvolretention.go]), deleting superseded clusters ([cluster.go]), cloning
    a parent's volume ([clone.go]), snapshotting it ([volumesnapshot.go]), and
    recording volume and backup status.  Effect trees over the Kubernetes API;
    every response is arbitrary.  A patch carries the object before and after. *)

From S2P Require Import Prelude GoStrings Kube.

(** ** Objects *)

(** [metav1.OwnerReference] *)
Record OwnerReference := mkOwner {
  or_APIVersion : string;
  or_Kind : string;
  or_Name : string;
  or_UID : string;
}.

(** The parts of a CNPG cluster that are read. *)
Record Cluster := mkCluster {
  cl_Name : string;
  cl_deleting : bool;
  Phase : string;
  CurrentPrimary : string;
  TargetPrimary : string;
  DanglingPVC : list string;
  HealthyPVC : list string;
  cl_FirstRecoverabilityPoint : string;
  cl_LastSuccessfulBackup : string;
  cl_LastFailedBackup : string;
  cl_LastRecoverabilityPoint : string;
}.

(** An XVol; an absent [xvolReclaimPolicy] reads as the empty string. *)
Record XVol := mkXVol {
  xv_Name : string;
  xv_Labels : gmap string string;
  xvolReclaimPolicy : string;
  xv_OwnerReferences : list OwnerReference;
  sourceVolume : option string;
  volumeAttributesClassName : option string;
}.

Inductive RestoreType :=
| RestoreTypeVolumeSnapshot
| RestoreTypeXVolClone
| RestoreTypeObjectStore
| RestoreTypeBaseBackup.

#[global] Instance RestoreType_eq_dec : EqDecision RestoreType.
Proof. solve_decision. Defined.

Record RestoreSpec := mkRestore {
  rs_Type : RestoreType;
  rs_Name : string;
}.

Record BranchStatus := mkStatus {
  PrimaryXVolName : string;
  FirstRecoverabilityPoint : string;
  LastSuccessfulBackup : string;
  LastFailedBackup : string;
  LastRecoverabilityPoint : string;
}.

Record Branch := mkBranch {
  br_Name : string;
  br_UID : string;
  br_Annotations : gmap string string;
  br_ClusterName : option string;
  Restore : option RestoreSpec;
  InheritedLabels : option (gmap string string);
  VolumeAttributesClass : option string;
  VolumeSnapshotClass : option string;
  br_Status : BranchStatus;
}.

Definition WakeupPoolAnnotation : string := "xata.io/wakeup-pool".
Definition AwokenByXVolAnnotation : string := "xata.io/awoken-by-xvol".
Definition OperatorName : string := "branch-operator".

Definition ClusterName (b : Branch) : string := default "" (br_ClusterName b).
Definition HasClusterName (b : Branch) : bool := bool_decide (is_Some (br_ClusterName b)).
Definition HasWakeupPoolAnnotation (b : Branch) : bool :=
  bool_decide (is_Some (br_Annotations b !! WakeupPoolAnnotation)).

Definition IsXVolCloneType (r : option RestoreSpec) : bool :=
  match r with Some r => bool_decide (rs_Type r = RestoreTypeXVolClone) | None => false end.
Definition IsVolumeSnapshotType (r : option RestoreSpec) : bool :=
  match r with Some r => bool_decide (rs_Type r = RestoreTypeVolumeSnapshot) | None => false end.

(** [branch.Spec.Restore.Name], where [Restore] is known to be set. *)
Definition RestoreName (b : Branch) : string :=
  match Restore b with Some r => rs_Name r | None => "" end.

Definition XVolCloneName (parentBranchName childBranchName : string) : string :=
  parentBranchName +:+ "-" +:+ childBranchName.

Definition GetVolumeSnapshotClass (b : Branch) : string := default "" (VolumeSnapshotClass b).

(** [ensureLabels]: the labels an object ends up with. *)
Definition ensureLabels (labels : gmap string string) (inheritedMetadata : option (gmap string string))
    : gmap string string :=
  <["app.kubernetes.io/managed-by" := OperatorName]> (default ∅ inheritedMetadata ∪ labels).

(** ** Errors *)

Inductive error :=
| ApiError (e : api_error)
| Errorf (msg : string)
| Wrapf (msg : string) (e : error)
| ConditionError (ConditionType ConditionReason : string) (Err : error).

Definition BranchReadyConditionType : string := "Ready".
Definition XVolNotFoundReason : string := "XVolNotFound".
Definition ParentBranchNotFoundReason : string := "ParentBranchNotFound".
Definition ParentBranchHasNoXVolReason : string := "ParentBranchHasNoXVol".
Definition ParentClusterNotFoundReason : string := "ParentClusterNotFound".
Definition ParentBranchHasNoClusterReason : string := "ParentBranchHasNoCluster".
Definition ParentClusterUnhealthyReason : string := "ParentClusterUnhealthy".
Definition ParentClusterPVCNotFoundReason : string := "ParentClusterPVCNotFound".

Inductive OperationResult := ResultNone | ResultCreated | ResultUpdated.

(** ** The environment *)

(** [VolumeSnapshot] as [CreateOrUpdate]'s callback leaves it. *)
Record SnapshotTarget := mkSnapshot {
  vs_Name : string;
  vs_Controller : string;
  vs_Labels : option (gmap string string);
  vs_SourcePVC : string;
  vs_Class : string;
}.

Inductive call :=
| ListOwnedClusters (branch : string)
| GetCluster (name : string)
| DeleteCluster (name : string)
| GetPVC (name : string)
| GetPV (name : string)
| GetXVol (name : string)
| PatchXVol (old new : XVol)
| CreateXVol (xvol : XVol)
| GetBranch (name : string)
| CreateOrUpdateVolumeSnapshot (vs : SnapshotTarget)
| DeleteVolumeSnapshot (name : string).

(** [GetPVC] answers with [spec.volumeName], [GetPV] with the annotations. *)
Definition resp (c : call) : Type :=
  match c with
  | ListOwnedClusters _ => res api_error (list Cluster)
  | GetCluster _ => res api_error Cluster
  | DeleteCluster _ => option api_error
  | GetPVC _ => res api_error string
  | GetPV _ => res api_error (gmap string string)
  | GetXVol _ => res api_error XVol
  | PatchXVol _ _ => option api_error
  | CreateXVol _ => option api_error
  | GetBranch _ => res api_error Branch
  | CreateOrUpdateVolumeSnapshot _ => res error OperationResult
  | DeleteVolumeSnapshot _ => option api_error
  end.

#[global] Abbreviation M A := (prog resp A).
#[global] Abbreviation E A := (M (res error A)).

Definition ok {A} (a : A) : E A := mret (Ok a).
Definition fail {A} (e : error) : E A := mret (Err e).

(** A call whose error is returned through [wrap]. *)
Definition try {A} (wrap : api_error → error) (p : M (res api_error A)) : E A :=
  r ← p; match r with Ok a => ok a | Err e => fail (wrap e) end.
Definition try_ (wrap : api_error → error) (p : M (option api_error)) : E unit :=
  r ← p; match r with None => ok tt | Some e => fail (wrap e) end.

(** A pure result lifted into the handler. *)
Definition lift {A} (wrap : api_error → error) (r : res api_error A) : E A :=
  match r with Ok a => ok a | Err e => fail (wrap e) end.

(** [client.IgnoreNotFound] on a call that only returns an error. *)
Definition ignore_not_found (p : M (option api_error)) : E unit :=
  r ← p;
  match r with
  | Some e => if api_not_found e then ok tt else fail (ApiError e)
  | None => ok tt
  end.

(** [controllerutil]'s handling of owner references, and the phases CNPG
    names. *)
Class Controller := {
  HasOwnerReference : list OwnerReference → Branch → res api_error bool;
  SetOwnerReference : Branch → list OwnerReference → res api_error (list OwnerReference);
  RemoveOwnerReference : Branch → list OwnerReference → res api_error (list OwnerReference);
  PhaseHealthy : string;
  PhaseUpgradeDelayed : string;
  PhaseFailurePlugin : string;
}.

(** What [controllerutil] documents: an owner that was set is found, one that
    was removed is not. *)
Class ControllerLaws `{Controller} := {
  set_has : ∀ b l l', SetOwnerReference b l = Ok l' → HasOwnerReference l' b = Ok true;
  remove_has : ∀ b l l', RemoveOwnerReference b l = Ok l' → HasOwnerReference l' b = Ok false;
}.

Section Reconciler.
Context `{Controller}.
#[local] Open Scope go_scope.

(** *** resolvers.go *)

Definition getClusterPVC (cluster : Cluster) : res error string :=
  if negb (bool_decide (CurrentPrimary cluster = "")) then Ok (CurrentPrimary cluster)
  else if negb (bool_decide (TargetPrimary cluster = "")) then Ok (TargetPrimary cluster)
  else match DanglingPVC cluster with
       | pvc :: _ => Ok pvc
       | [] => Err (Errorf ("no PVC found for cluster " +:+ cl_Name cluster))
       end.

Definition xVolNameForPV (pvName : string) : E string :=
  annotations <-? try ApiError (perform (GetPV pvName));
  ok (default pvName (annotations !! AwokenByXVolAnnotation)).

Definition wrap_error {A} (msg : string) (p : E A) : E A :=
  r ← p; match r with Ok a => ok a | Err e => fail (Wrapf msg e) end.

Definition getXVolForPVC (pvcName : string) : E XVol :=
  pvName <-? try ApiError (perform (GetPVC pvcName));
  if bool_decide (pvName = "") then fail (Errorf ("PVC " +:+ q pvcName +:+ " is not bound to a PV"))
  else
    xVolName <-? wrap_error ("get xvol name for pv " +:+ q pvName) (xVolNameForPV pvName);
    try (λ e, Wrapf ("get xvol " +:+ q xVolName) (ApiError e)) (perform (GetXVol xVolName)).

(** *** xvolretention.go *)

Definition with_retention (x : XVol) (policy : string) (owners : list OwnerReference) : XVol :=
  mkXVol (xv_Name x) (xv_Labels x) policy owners (sourceVolume x) (volumeAttributesClassName x).

(** The errors of setting or checking an owner on [x]. *)
Definition on_xvol (what : string) (x : XVol) (e : api_error) : error :=
  Wrapf (what +:+ " XVol " +:+ xv_Name x) (ApiError e).

Definition ensureXVolRetained (branch : Branch) (pvcName : string) : E bool :=
  xvol <-? getXVolForPVC pvcName;
  let hasRetainReclaimPolicy := bool_decide (xvolReclaimPolicy xvol = "Retain") in
  hasOwnerRef <-? lift (on_xvol "check owner reference on" xvol)
    (HasOwnerReference (xv_OwnerReferences xvol) branch);
  if hasRetainReclaimPolicy && hasOwnerRef then ok false
  else
    owners <-? lift (on_xvol "set owner reference on" xvol)
      (SetOwnerReference branch (xv_OwnerReferences xvol));
    _ <-? try_ (on_xvol "patch" xvol)
      (perform (PatchXVol xvol (with_retention xvol "Retain" owners)));
    ok true.

Definition ensureXVolNotRetained (branch : Branch) (pvcName : string) : E bool :=
  xvol <-? getXVolForPVC pvcName;
  let hasDeleteReclaimPolicy := bool_decide (xvolReclaimPolicy xvol = "Delete") in
  hasOwnerRef <-? lift (on_xvol "check owner reference on" xvol)
    (HasOwnerReference (xv_OwnerReferences xvol) branch);
  if hasDeleteReclaimPolicy && negb hasOwnerRef then ok false
  else
    owners <-? (if hasOwnerRef
                then lift (on_xvol "remove owner reference on" xvol)
                       (RemoveOwnerReference branch (xv_OwnerReferences xvol))
                else ok (xv_OwnerReferences xvol));
    _ <-? try_ (on_xvol "patch" xvol)
      (perform (PatchXVol xvol (with_retention xvol "Delete" owners)));
    ok true.

(** The loop over one cluster's healthy PVCs. *)
Fixpoint ensure_pvcs (branch : Branch) (primaryPVCName : string) (pvcs : list string)
    (result : OperationResult) : E OperationResult :=
  match pvcs with
  | [] => ok result
  | pvcName :: pvcs =>
      patched <-? wrap_error ("ensure XVol ownership for PVC " +:+ pvcName)
        (if bool_decide (pvcName = primaryPVCName)
         then ensureXVolRetained branch pvcName else ensureXVolNotRetained branch pvcName);
      ensure_pvcs branch primaryPVCName pvcs (if patched : bool then ResultUpdated else result)
  end.

(** The loop over the owned clusters. *)
Fixpoint ensure_clusters (branch : Branch) (clusters : list Cluster) (result : OperationResult)
    : E OperationResult :=
  match clusters with
  | [] => ok result
  | cluster :: clusters =>
      if cl_deleting cluster then ensure_clusters branch clusters result
      else
        match getClusterPVC cluster with
        | Err _ => ensure_clusters branch clusters result
        | Ok primaryPVCName =>
            result <-? ensure_pvcs branch primaryPVCName (HealthyPVC cluster) result;
            ensure_clusters branch clusters result
        end
  end.

Definition reconcileXVolOwnership (branch : Branch) : E OperationResult :=
  if HasClusterName branch then ok ResultNone
  else if negb (HasWakeupPoolAnnotation branch) then ok ResultNone
  else
    clusters <-? try (λ e, Wrapf "list owned clusters" (ApiError e))
      (perform (ListOwnedClusters (br_Name branch)));
    ensure_clusters branch clusters ResultNone.

(** *** cluster.go: owned clusters *)

Fixpoint delete_clusters (branch : Branch) (clusters : list Cluster) (result : OperationResult)
    : E OperationResult :=
  match clusters with
  | [] => ok result
  | cluster :: clusters =>
      if bool_decide (cl_Name cluster = ClusterName branch) then delete_clusters branch clusters result
      else if cl_deleting cluster then delete_clusters branch clusters result
      else
        _ <-? try_ ApiError (perform (DeleteCluster (cl_Name cluster)));
        delete_clusters branch clusters ResultUpdated
  end.

Definition reconcileOwnedClusters (branch : Branch) : E OperationResult :=
  clusters <-? try ApiError (perform (ListOwnedClusters (br_Name branch)));
  delete_clusters branch clusters ResultNone.

(** *** xvolstatus.go, backupstatus.go *)

Definition with_br_status (b : Branch) (st : BranchStatus) : Branch :=
  mkBranch (br_Name b) (br_UID b) (br_Annotations b) (br_ClusterName b) (Restore b)
    (InheritedLabels b) (VolumeAttributesClass b) (VolumeSnapshotClass b) st.

(** The branch with its in-memory status updated. *)
Definition updateXVolStatus (branch : Branch) : E Branch :=
  if negb (HasWakeupPoolAnnotation branch) then ok branch
  else if negb (HasClusterName branch) then ok branch
  else
    cluster <-? try ApiError (perform (GetCluster (ClusterName branch)));
    match getClusterPVC cluster with
    | Err e => fail (Wrapf "update XVol status" e)
    | Ok pvcName =>
        r ← getXVolForPVC pvcName;
        match r with
        | Err e =>
            fail (ConditionError BranchReadyConditionType XVolNotFoundReason
              (Wrapf ("find XVol for PVC " +:+ pvcName) e))
        | Ok xVol =>
            let st := br_Status branch in
            ok (with_br_status branch (mkStatus (xv_Name xVol) (FirstRecoverabilityPoint st)
              (LastSuccessfulBackup st) (LastFailedBackup st) (LastRecoverabilityPoint st)))
        end
    end.

(** A value is only overwritten with a non-empty one. *)
Definition keep_last (old new : string) : string := if bool_decide (new = "") then old else new.

Definition updateBackupStatus (branch : Branch) : E Branch :=
  if negb (HasClusterName branch) then ok branch
  else
    r ← perform (GetCluster (ClusterName branch));
    match r with
    | Err e => if api_not_found e then ok branch else fail (ApiError e)
    | Ok cluster =>
        let st := br_Status branch in
        ok (with_br_status branch (mkStatus (PrimaryXVolName st)
          (keep_last (FirstRecoverabilityPoint st) (cl_FirstRecoverabilityPoint cluster))
          (keep_last (LastSuccessfulBackup st) (cl_LastSuccessfulBackup cluster))
          (keep_last (LastFailedBackup st) (cl_LastFailedBackup cluster))
          (keep_last (LastRecoverabilityPoint st) (cl_LastRecoverabilityPoint cluster))))
    end.

(** *** clone.go *)

Definition createClonedXVol (branch : Branch) (cloneName : string) : E OperationResult :=
  r ← perform (GetBranch (RestoreName branch));
  match r with
  | Err e =>
      if api_not_found e
      then fail (ConditionError BranchReadyConditionType ParentBranchNotFoundReason (ApiError e))
      else fail (ApiError e)
  | Ok parentBranch =>
      let parentXVolName := PrimaryXVolName (br_Status parentBranch) in
      if bool_decide (parentXVolName = "") then
        fail (ConditionError BranchReadyConditionType ParentBranchHasNoXVolReason
          (Errorf ("parent branch " +:+ q (RestoreName branch) +:+ " has no XVol")))
      else
        owners <-? lift ApiError (SetOwnerReference branch []);
        r ← perform (CreateXVol (mkXVol cloneName (ensureLabels ∅ (InheritedLabels branch)) "Retain"
              owners (Some parentXVolName) (VolumeAttributesClass branch)));
        match r with
        | Some e => if api_already_exists e then ok ResultCreated else fail (ApiError e)
        | None => ok ResultCreated
        end
  end.

Definition reconcileXVolClone (branch : Branch) : E OperationResult :=
  if negb (IsXVolCloneType (Restore branch)) then ok ResultNone
  else
    let cloneName := XVolCloneName (RestoreName branch) (br_Name branch) in
    r ← perform (GetXVol cloneName);
    match r with
    | Ok _ => ok ResultNone
    | Err e => if api_not_found e then createClonedXVol branch cloneName else fail (ApiError e)
    end.

(** *** volumesnapshot.go *)

(** [None] when the branch has no cluster. *)
Definition getClusterForBranch (branchID : string) : E (option Cluster) :=
  branch <-? try ApiError (perform (GetBranch branchID));
  if negb (HasClusterName branch) then ok None
  else
    cluster <-? try ApiError (perform (GetCluster (ClusterName branch)));
    ok (Some cluster).

Definition snapshotableClusterPhases : list string :=
  [PhaseHealthy; PhaseUpgradeDelayed; PhaseFailurePlugin].

Definition snapshotName (branch : Branch) : string := RestoreName branch +:+ "-" +:+ br_Name branch.

Definition ensureVolumeSnapshotExists (branch : Branch) : E OperationResult :=
  r ← getClusterForBranch (RestoreName branch);
  match r with
  | Err e => fail (ConditionError BranchReadyConditionType ParentClusterNotFoundReason e)
  | Ok None =>
      fail (ConditionError BranchReadyConditionType ParentBranchHasNoClusterReason
        (Errorf ("parent branch " +:+ q (RestoreName branch) +:+ " has no cluster")))
  | Ok (Some parent) =>
      if negb (bool_decide (Phase parent ∈ snapshotableClusterPhases)) then
        fail (ConditionError BranchReadyConditionType ParentClusterUnhealthyReason
          (Errorf ("parent cluster " +:+ q (cl_Name parent) +:+ " is in non-snapshottable phase " +:+
            Phase parent)))
      else
        match getClusterPVC parent with
        | Err e => fail (ConditionError BranchReadyConditionType ParentClusterPVCNotFoundReason e)
        | Ok sourcePVC =>
            perform (CreateOrUpdateVolumeSnapshot (mkSnapshot (snapshotName branch) (br_Name branch)
              (InheritedLabels branch) sourcePVC (GetVolumeSnapshotClass branch)))
        end
  end.

Definition ensureNoVolumeSnapshotExists (branch : Branch) : E OperationResult :=
  _ <-? ignore_not_found (perform (DeleteVolumeSnapshot (snapshotName branch)));
  ok ResultNone.

Definition reconcileVolumeSnapshot (branch : Branch) : E OperationResult :=
  if negb (IsVolumeSnapshotType (Restore branch)) then ok ResultNone
  else if negb (HasClusterName branch) then ok ResultNone
  else
    r ← perform (GetCluster (ClusterName branch));
    match r with
    | Err e => if api_not_found e then ensureVolumeSnapshotExists branch else fail (ApiError e)
    | Ok cluster =>
        if bool_decide (Phase cluster = PhaseHealthy) then ensureNoVolumeSnapshotExists branch
        else ok ResultNone
    end.

(** *** reconciler.go: the consecutive volume steps of [Reconcile], each of
    which ends it on an error *)
Definition reconcile_volumes (branch : Branch) : E Branch :=
  branch <-? updateXVolStatus branch;
  branch <-? updateBackupStatus branch;
  _ <-? reconcileXVolOwnership branch;
  _ <-? reconcileOwnedClusters branch;
  ok branch.
End Reconciler.

(** ** What a trace shows *)

Section Traces.
Context `{Controller}.
Implicit Types (b : Branch) (x : XVol) (tr : list (event resp)).

(** The exchanges [tr] resolve the PVC to the volume [x]. *)
Definition pvc_xvol tr (pvc : string) x : Prop :=
  ∃ pv annotations,
    ev (GetPVC pvc) (Ok pv) ∈ tr ∧ ev (GetPV pv) (Ok annotations) ∈ tr ∧
    ev (GetXVol (default pv (annotations !! AwokenByXVolAnnotation))) (Ok x) ∈ tr.

Definition retained b x : Prop :=
  xvolReclaimPolicy x = "Retain" ∧ HasOwnerReference (xv_OwnerReferences x) b = Ok true.

Definition released b x : Prop :=
  xvolReclaimPolicy x = "Delete" ∧ HasOwnerReference (xv_OwnerReferences x) b = Ok false.

(** The volume behind the PVC was found retained, or was made so. *)
Definition protected b tr (pvc : string) : Prop :=
  ∃ x, pvc_xvol tr pvc x ∧
    (retained b x ∨ ∃ x', xv_Name x' = xv_Name x ∧ retained b x' ∧ ev (PatchXVol x x') None ∈ tr).

Definition is_delete (c : call) : bool := match c with DeleteCluster _ => true | _ => false end.
Definition is_patch (c : call) : bool := match c with PatchXVol _ _ => true | _ => false end.

(** The clusters a pass deletes. *)
Definition superseded b (cluster : Cluster) : bool :=
  negb (bool_decide (cl_Name cluster = ClusterName b)) && negb (cl_deleting cluster).

(** ** Lemmas *)

Lemma pvc_xvol_mono tr tr' pvc x : tr ⊆ tr' → pvc_xvol tr pvc x → pvc_xvol tr' pvc x.
Proof. intros Hs (pv & ann & ? & ? & ?). exists pv, ann. auto. Qed.

Lemma protected_mono b tr tr' pvc : tr ⊆ tr' → protected b tr pvc → protected b tr' pvc.
Proof.
  intros Hs (x & Hx & Hr). exists x. split; [by eapply pvc_xvol_mono|].
  destruct Hr as [?|(x' & ? & ? & ?)]; [by left|]. right. exists x'. auto.
Qed.

Lemma runs_try {A} wrap (p : M (res api_error A)) tr a :
  runs resp (try wrap p) tr a ↔
  ∃ r, runs resp p tr r ∧ a = match r with Ok a => Ok a | Err e => Err (wrap e) end.
Proof.
  unfold try. rewrite runs_bind. split.
  - intros (tr1 & tr2 & [x|e] & -> & Hp & Hr); apply runs_ret in Hr as [-> ->];
      rewrite app_nil_r; eauto.
  - intros ([x|e] & Hp & ->); exists tr, []; rewrite app_nil_r; eexists; split_and!; try done.
Qed.

Lemma runs_wrap {A} msg (p : E A) tr a :
  runs resp (wrap_error msg p) tr (Ok a) → runs resp p tr (Ok a).
Proof.
  unfold wrap_error. rewrite runs_bind. intros (tr1 & tr2 & [x|e] & -> & Hp & Hr);
    apply runs_ret in Hr as [-> Ha]; [|done]. injection Ha as ->. by rewrite app_nil_r.
Qed.

Lemma runs_bind_Ok {A B} (p : E A) (f : A → E B) tr y :
  runs resp (pbind_ok p f) tr (Ok y) →
  ∃ tr1 tr2 a, tr = tr1 ++ tr2 ∧ runs resp p tr1 (Ok a) ∧ runs resp (f a) tr2 (Ok y).
Proof. rewrite runs_bind_ok. intros [?|(e & _ & [=])]; done. Qed.

Lemma pbind_ok_ok {A B} (a : A) (f : A → E B) : pbind_ok (ok a) f = f a.
Proof. done. Qed.

Lemma runs_lift {A} wrap (r : res api_error A) tr a :
  runs resp (lift wrap r) tr (Ok a) → tr = [] ∧ r = Ok a.
Proof. destruct r as [x|e]; intros [-> [=]]; by subst. Qed.

(** A read whose error is wrapped, in a run that returns its answer. *)
Ltac get_inv H :=
  let Heq := fresh in
  apply runs_try in H as ([?|?] & (? & ? & -> & -> & <-) & Heq); simplify_eq Heq; clear Heq; intros; subst.

Lemma runs_getXVolForPVC pvc tr x :
  runs resp (getXVolForPVC pvc) tr (Ok x) → pvc_xvol tr pvc x.
Proof.
  intros (t1 & t2 & pv & -> & H1 & H2)%runs_bind_Ok. get_inv H1.
  case_bool_decide; [by destruct H2|].
  apply runs_bind_Ok in H2 as (t3 & t4 & xn & -> & H3%runs_wrap & H4).
  apply runs_bind_Ok in H3 as (t5 & t6 & ann & -> & H5 & [-> [= ->]]).
  get_inv H5. get_inv H4.
  eexists _, _. split_and!; [by left|by right; left|by right; right; left].
Qed.

Lemma runs_ensureXVolRetained `{!ControllerLaws} b pvc tr p :
  runs resp (ensureXVolRetained b pvc) tr (Ok p) → protected b tr pvc.
Proof.
  intros (t1 & t2 & x & -> & Hx%runs_getXVolForPVC & H2)%runs_bind_Ok.
  apply runs_bind_Ok in H2 as (t3 & t4 & owned & -> & [-> Hown]%runs_lift & H2).
  destruct (bool_decide _ && owned) eqn:Hr.
  - destruct H2 as [-> _]. exists x. split; [eapply pvc_xvol_mono; [|done]; set_solver|].
    left. apply andb_true_iff in Hr as [Hp%bool_decide_eq_true ->]. done.
  - apply runs_bind_Ok in H2 as (t5 & t6 & owners & -> & [-> Hset]%runs_lift & H2).
    apply runs_bind_Ok in H2 as (t7 & t8 & [] & -> & Hpatch & [-> _]).
    apply runs_bind in Hpatch as (t9 & t10 & [e|] & -> & (r & t & -> & -> & <-) & Hret);
      [by destruct Hret|]. destruct Hret as [-> _].
    exists x. split; [eapply pvc_xvol_mono; [|done]; set_solver|].
    right. exists (with_retention x "Retain" owners). split_and!; [done| |set_solver].
    split; [done|]. by eapply set_has.
Qed.

Lemma runs_ensure_pvcs `{!ControllerLaws} b primary pvcs res0 tr r :
  runs resp (ensure_pvcs b primary pvcs res0) tr (Ok r) → primary ∈ pvcs → protected b tr primary.
Proof.
  revert res0 tr. induction pvcs as [|pvc pvcs IH]; intros res0 tr; [by intros _ ?%elem_of_nil|].
  intros (t1 & t2 & p & -> & H1%runs_wrap & H2)%runs_bind_Ok Hin.
  case_bool_decide as Hp.
  - subst. eapply protected_mono; [|by eapply runs_ensureXVolRetained]. set_solver.
  - eapply protected_mono; [|eapply IH; [done|]]; set_solver.
Qed.

Lemma runs_ensure_clusters `{!ControllerLaws} b clusters res0 tr r cl primary :
  runs resp (ensure_clusters b clusters res0) tr (Ok r) →
  cl ∈ clusters → cl_deleting cl = false → getClusterPVC cl = Ok primary →
  primary ∈ HealthyPVC cl → protected b tr primary.
Proof.
  intros Hrun Hin Hdel Hpvc Hh. revert res0 tr Hrun Hin.
  induction clusters as [|c cls IH]; intros res0 tr; [by intros _ ?%elem_of_nil|].
  simpl. intros Hrun [<-|Hin]%elem_of_cons.
  - rewrite Hdel, Hpvc in Hrun. apply runs_bind_Ok in Hrun as (t1 & t2 & p & -> & H1 & H2).
    eapply protected_mono; [|by eapply runs_ensure_pvcs]. set_solver.
  - destruct (cl_deleting c); [by eapply IH|]. destruct (getClusterPVC c); [|by eapply IH].
    apply runs_bind_Ok in Hrun as (t1 & t2 & p & -> & H1 & H2).
    eapply protected_mono; [|by eapply IH]. set_solver.
Qed.

(** *** Which calls each step makes *)

Lemma only_getXVolForPVC P pvc :
  (∀ n, P (GetPVC n) = true) → (∀ n, P (GetPV n) = true) → (∀ n, P (GetXVol n) = true) →
  only resp P (getXVolForPVC pvc).
Proof.
  intros H1 H2 H3. apply only_bind_ok; [apply only_bind; [by apply only_perform|by intros []]|].
  intros pv. case_bool_decide; [done|]. apply only_bind_ok.
  - apply only_bind; [|by intros []].
    apply only_bind_ok; [apply only_bind; [by apply only_perform|by intros []]|done].
  - intros xn. apply only_bind; [by apply only_perform|by intros []].
Qed.

Definition keeps_clusters (c : call) : bool := negb (is_delete c).

Lemma only_ensure_pvc b (retain : bool) pvc :
  only resp keeps_clusters
    (if retain then ensureXVolRetained b pvc else ensureXVolNotRetained b pvc).
Proof.
  destruct retain; (apply only_bind_ok; [by apply only_getXVolForPVC|intros x]);
    (apply only_bind_ok; [by destruct (HasOwnerReference _ _)|intros owned]);
    destruct (bool_decide _ && _); try done;
    (apply only_bind_ok; [|intros owners]).
  - by destruct (SetOwnerReference _ _).
  - apply only_bind_ok; [|done]. apply only_bind; [by apply only_perform|by intros []].
  - destruct owned; [|done]. by destruct (RemoveOwnerReference _ _).
  - apply only_bind_ok; [|done]. apply only_bind; [by apply only_perform|by intros []].
Qed.

Lemma only_ensure_clusters b clusters res0 :
  only resp keeps_clusters (ensure_clusters b clusters res0).
Proof.
  revert res0. induction clusters as [|c cls IH]; intros res0; simpl; [done|].
  destruct (cl_deleting c); [done|]. destruct (getClusterPVC c) as [primary|]; [|done].
  apply only_bind_ok; [|done]. generalize (HealthyPVC c). intros pvcs. revert res0.
  induction pvcs as [|pvc pvcs IH']; intros res0; [done|].
  apply only_bind_ok; [|intros p; apply IH'].
  apply only_bind; [|by intros []]. apply only_ensure_pvc.
Qed.
Lemma only_delete_clusters P b clusters res0 :
  (∀ n, P (DeleteCluster n) = true) → only resp P (delete_clusters b clusters res0).
Proof.
  intros HP. revert res0. induction clusters as [|c cls IH]; intros res0; simpl; [done|].
  case_bool_decide; [done|]. destruct (cl_deleting c); [done|].
  split; [done|]. intros [e|]; [done|apply IH].
Qed.

(** *** Deleting superseded clusters *)

Definition deletions (clusters : list Cluster) : list (event resp) :=
  map (λ c, ev (DeleteCluster (cl_Name c)) None) clusters.

Lemma runs_delete_clusters b clusters res0 tr r :
  runs resp (delete_clusters b clusters res0) tr r →
  match r with
  | Ok _ => tr = deletions (filter (λ c, superseded b c = true) clusters)
  | Err e => ∃ done failed api rest,
      filter (λ c, superseded b c = true) clusters = done ++ failed :: rest ∧
      tr = deletions done ++ [ev (DeleteCluster (cl_Name failed)) (Some api)] ∧ e = ApiError api
  end.
Proof.
  revert res0 tr. induction clusters as [|c cls IH]; intros res0 tr; simpl; [by intros [-> ->]|].
  assert (Hs : superseded b c = negb (bool_decide (cl_Name c = ClusterName b)) && negb (cl_deleting c))
    by done.
  case_bool_decide as Hn; cond in Hs; [rewrite filter_cons_False by (by rewrite Hs); apply IH|].
  destruct (cl_deleting c); cond in Hs; [rewrite filter_cons_False by (by rewrite Hs); apply IH|].
  rewrite filter_cons_True by done. clear Hs.
  intros (res & t & -> & Hrun). destruct res as [api|]; simpl in Hrun.
  - destruct Hrun as [-> ->]. by exists [], c, api, (filter (λ c, superseded b c = true) cls).
  - apply IH in Hrun. destruct r as [r|e]; [by subst|].
    destruct Hrun as (dn & failed & api & rest & -> & -> & ->). by exists (c :: dn), failed, api, rest.
Qed.

(** *** Patches *)

Definition no_patch (c : call) : bool := negb (is_patch c).

Lemma runs_wrap_any {A} msg (p : E A) tr r :
  runs resp (wrap_error msg p) tr r → ∃ r', runs resp p tr r'.
Proof.
  unfold wrap_error. rewrite runs_bind. intros (tr1 & tr2 & [y|e] & -> & Hp & Hr);
    apply runs_ret in Hr as [-> _]; rewrite app_nil_r; eauto.
Qed.

(** Whether a volume kept or released by [b] is [x']. *)
Definition settled b (retain : bool) x' : Prop := if retain then retained b x' else released b x'.

Lemma runs_patch wrap x x' tr r y z w :
  runs resp (pbind_ok (try_ wrap (perform (PatchXVol x x'))) (λ _, ok true)) tr r →
  ev (PatchXVol y z) w ∈ tr → y = x ∧ z = x'.
Proof.
  intros Hrun Hin. destruct Hrun as ([e|] & t & -> & [-> _]);
    apply list_elem_of_singleton in Hin; inversion Hin; by subst.
Qed.

Lemma ensure_patch `{!ControllerLaws} b (retain : bool) pvc tr r x x' w :
  runs resp (if retain then ensureXVolRetained b pvc else ensureXVolNotRetained b pvc) tr r →
  ev (PatchXVol x x') w ∈ tr →
  pvc_xvol tr pvc x ∧ xv_Name x' = xv_Name x ∧ settled b retain x'.
Proof.
  assert (Hget : ∀ t y, runs resp (getXVolForPVC pvc) t y → ev (PatchXVol x x') w ∉ t).
  { intros t y Ht Hin. assert (Ho : only resp no_patch (getXVolForPVC pvc))
      by (by apply only_getXVolForPVC).
    by apply (only_runs _ _ _ _ _ _ Ho Ht) in Hin. }
  intros Hrun Hin. destruct retain;
    (apply runs_bind_ok in Hrun as [(t1 & t2 & y & -> & Hx & Hrun)|(e & Hx & _)];
      [|by apply Hget in Hx]);
    (apply elem_of_app in Hin as [Hin|Hin]; [by apply Hget in Hx|]);
    (apply runs_bind_ok in Hrun as [(t3 & t4 & owned & -> & [-> Hown]%runs_lift & Hrun)|(e & Hl & _)];
      [|by destruct (HasOwnerReference _ _); destruct Hl as [-> _]; apply elem_of_nil in Hin]);
    (destruct (bool_decide _ && _); [by destruct Hrun as [-> _]; apply elem_of_nil in Hin|]);
    apply runs_getXVolForPVC in Hx; simpl in Hin.
  - apply runs_bind_ok in Hrun as [(t5 & t6 & owners & -> & [-> Hset]%runs_lift & Hrun)|(e & Hl & _)];
      [|by destruct (SetOwnerReference _ _); destruct Hl as [-> _]; apply elem_of_nil in Hin].
    destruct (runs_patch _ _ _ _ _ _ _ _ Hrun Hin) as [-> ->].
    split; [eapply pvc_xvol_mono; [|done]; set_solver|]. split; [done|].
    split; [done|]. by eapply set_has.
  - apply runs_bind_ok in Hrun as [(t5 & t6 & owners & -> & Hrem & Hrun)|(e & Hl & _)].
    + assert (t5 = [] ∧ HasOwnerReference owners b = Ok false) as [-> Hfree].
      { destruct owned; [apply runs_lift in Hrem as [-> Hrem]; split; [done|by eapply remove_has]|].
        by destruct Hrem as [-> [= ->]]. }
      destruct (runs_patch _ _ _ _ _ _ _ _ Hrun Hin) as [-> ->].
      split; [eapply pvc_xvol_mono; [|done]; set_solver|]. done.
    + destruct owned; [destruct (RemoveOwnerReference _ _)|]; destruct Hl as [-> _];
        by apply elem_of_nil in Hin.
Qed.

Lemma ensure_pvcs_patch `{!ControllerLaws} b primary pvcs res0 tr r x x' w :
  runs resp (ensure_pvcs b primary pvcs res0) tr r → ev (PatchXVol x x') w ∈ tr →
  ∃ pvc, pvc ∈ pvcs ∧ pvc_xvol tr pvc x ∧ xv_Name x' = xv_Name x ∧
    settled b (bool_decide (pvc = primary)) x'.
Proof.
  revert res0 tr. induction pvcs as [|pvc pvcs IH]; intros res0 tr.
  { intros [-> _] ?%elem_of_nil. done. }
  assert (Hone : ∀ t y, runs resp (wrap_error ("ensure XVol ownership for PVC " +:+ pvc)
      (if bool_decide (pvc = primary) then ensureXVolRetained b pvc else ensureXVolNotRetained b pvc)) t y →
      ev (PatchXVol x x') w ∈ t → pvc_xvol t pvc x ∧ xv_Name x' = xv_Name x ∧
      settled b (bool_decide (pvc = primary)) x').
  { intros t y [y' Hy]%runs_wrap_any Hin. by eapply ensure_patch. }
  simpl. intros [(t1 & t2 & p & -> & H1 & H2)|(e & H1 & _)]%runs_bind_ok Hin.
  - apply elem_of_app in Hin as [Hin|Hin].
    + destruct (Hone _ _ H1 Hin) as [Hx Hs]. exists pvc. split; [by left|].
      split; [eapply pvc_xvol_mono; [|done]; set_solver|done].
    + destruct (IH _ _ H2 Hin) as (pvc' & Hp & Hx & Hs). exists pvc'. split; [by right|].
      split; [eapply pvc_xvol_mono; [|done]; set_solver|done].
  - destruct (Hone _ _ H1 Hin) as [Hx Hs]. exists pvc. split; [by left|done].
Qed.

Lemma ensure_clusters_patch `{!ControllerLaws} b clusters res0 tr r x x' w :
  runs resp (ensure_clusters b clusters res0) tr r → ev (PatchXVol x x') w ∈ tr →
  ∃ cl primary pvc, cl ∈ clusters ∧ cl_deleting cl = false ∧ getClusterPVC cl = Ok primary ∧
    pvc ∈ HealthyPVC cl ∧ pvc_xvol tr pvc x ∧ xv_Name x' = xv_Name x ∧
    settled b (bool_decide (pvc = primary)) x'.
Proof.
  revert res0 tr. induction clusters as [|c cls IH]; intros res0 tr.
  { intros [-> _] ?%elem_of_nil. done. }
  assert (Hskip : ∀ t res1, runs resp (ensure_clusters b cls res1) t r → ev (PatchXVol x x') w ∈ t →
    ∃ cl primary pvc, cl ∈ c :: cls ∧ cl_deleting cl = false ∧ getClusterPVC cl = Ok primary ∧
      pvc ∈ HealthyPVC cl ∧ pvc_xvol t pvc x ∧ xv_Name x' = xv_Name x ∧
      settled b (bool_decide (pvc = primary)) x').
  { intros t res1 Ht Hin. destruct (IH _ _ Ht Hin) as (cl & pr & pvc & Hcl & Hrest).
    exists cl, pr, pvc. split; [by right|done]. }
  simpl. destruct (cl_deleting c) eqn:Hdel; [by apply Hskip|].
  destruct (getClusterPVC c) as [primary|] eqn:Hpvc; [|by apply Hskip].
  intros [(t1 & t2 & p & -> & H1 & H2)|(e & H1 & _)]%runs_bind_ok Hin.
  - apply elem_of_app in Hin as [Hin|Hin].
    + destruct (ensure_pvcs_patch _ _ _ _ _ _ _ _ _ H1 Hin) as (pvc & Hp & Hx & Hs).
      exists c, primary, pvc. do 4 (split; [by first [left|done]|]).
      split; [eapply pvc_xvol_mono; [|done]; set_solver|done].
    + destruct (Hskip _ _ H2 Hin) as (cl & pr & pvc & Hcl & Hd & Hg & Hp & Hx & Hs).
      exists cl, pr, pvc. do 4 (split; [done|]).
      split; [eapply pvc_xvol_mono; [|done]; set_solver|done].
  - destruct (ensure_pvcs_patch _ _ _ _ _ _ _ _ _ H1 Hin) as (pvc & Hp & Hx & Hs).
    exists c, primary, pvc. do 4 (split; [by first [left|done]|]). done.
Qed.

(** *** Snapshots *)

Lemma snapshot_taken b tr r :
  runs resp (ensureVolumeSnapshotExists b) tr r →
  (∀ vs w, ev (CreateOrUpdateVolumeSnapshot vs) w ∈ tr →
    ∃ parentBranch parent, ev (GetBranch (RestoreName b)) (Ok parentBranch) ∈ tr ∧
      ev (GetCluster (ClusterName parentBranch)) (Ok parent) ∈ tr ∧
      Phase parent ∈ snapshotableClusterPhases ∧ getClusterPVC parent = Ok (vs_SourcePVC vs)) ∧
  (∀ name w, ev (DeleteVolumeSnapshot name) w ∉ tr).
Proof.
  assert (Hreads : ∀ t y, runs resp (getClusterForBranch (RestoreName b)) t y →
    (∀ c w, ev c w ∈ t → match c with GetBranch _ | GetCluster _ => true | _ => false end = true) ∧
    (∀ parent, y = Ok (Some parent) → ∃ pb, ev (GetBranch (RestoreName b)) (Ok pb) ∈ t ∧
      ev (GetCluster (ClusterName pb)) (Ok parent) ∈ t)).
  { intros t y Ht. destruct Ht as ([pb|e] & t' & -> & Ht).
    2: { destruct Ht as [-> ->]. split; [|done].
         intros c w Hin. apply list_elem_of_singleton in Hin. inversion Hin. by subst. }
    simpl in Ht. destruct (HasClusterName pb); simpl in Ht.
    2: { destruct Ht as [-> ->]. split; [|done].
         intros c w Hin. apply list_elem_of_singleton in Hin. inversion Hin. by subst. }
    destruct Ht as ([parent|e] & t'' & -> & [-> ->]); (split; [
      intros c w [Hin|Hin%list_elem_of_singleton]%elem_of_cons; inversion Hin; by subst|]); [|done].
    intros p [= <-]. exists pb. split; [by left|by right; left]. }
  unfold ensureVolumeSnapshotExists. intros (t1 & t2 & y & -> & Hy & Hrun)%runs_bind.
  destruct (Hreads _ _ Hy) as [Honly Hpar]. clear Hreads.
  assert (Hend : t2 = [] → (∀ vs w, ev (CreateOrUpdateVolumeSnapshot vs) w ∉ t1 ++ t2) ∧
    (∀ name w, ev (DeleteVolumeSnapshot name) w ∉ t1 ++ t2)).
  { intros ->. rewrite app_nil_r. split; intros ? ? Hin; by apply Honly in Hin. }
  destruct y as [[parent|]|e]; cycle 1.
  { destruct Hrun as [Ht _]. destruct (Hend Ht) as [H1 H2]. split; [|done].
    intros vs w Hin. by apply H1 in Hin. }
  { destruct Hrun as [Ht _]. destruct (Hend Ht) as [H1 H2]. split; [|done].
    intros vs w Hin. by apply H1 in Hin. }
  case_bool_decide as Hphase; cond in Hrun; cycle 1.
  { destruct Hrun as [Ht _]. destruct (Hend Ht) as [H1 H2]. split; [|done].
    intros vs w Hin. by apply H1 in Hin. }
  destruct (getClusterPVC parent) as [pvc|] eqn:Hpvc; cycle 1.
  { destruct Hrun as [Ht _]. destruct (Hend Ht) as [H1 H2]. split; [|done].
    intros vs w Hin. by apply H1 in Hin. }
  clear Hend. destruct (Hpar parent eq_refl) as (pb & Hb & Hc).
  destruct Hrun as (w' & t & -> & -> & _). split.
  - intros vs w [Hin|Hin%list_elem_of_singleton]%elem_of_app; [by apply Honly in Hin|].
    inversion Hin; subst. exists pb, parent. split_and!; set_solver.
  - intros name w [Hin|Hin%list_elem_of_singleton]%elem_of_app; [by apply Honly in Hin|inversion Hin].
Qed.

(** When a branch of a pool has given up its cluster, the ownership step lists
    its clusters and protects the primary volume of each. *)
Lemma ownership_protects `{!ControllerLaws} b t y
    (Hname : HasClusterName b = false) (Hpool : HasWakeupPoolAnnotation b = true) :
  runs resp (reconcileXVolOwnership b) t (Ok y) →
  ∃ clusters, ev (ListOwnedClusters (br_Name b)) (Ok clusters) ∈ t ∧
    ∀ cl primary, cl ∈ clusters → cl_deleting cl = false → getClusterPVC cl = Ok primary →
      primary ∈ HealthyPVC cl → protected b t primary.
Proof.
  unfold reconcileXVolOwnership. rewrite Hname, Hpool. cond.
  intros (t3 & t4 & cls & -> & H3 & H4)%runs_bind_Ok. get_inv H3.
  eexists. split; [by left|]. intros cl primary Hin Hdel Hpvc Hh.
  eapply protected_mono; [|by eapply runs_ensure_clusters]. set_solver.
Qed.

(** Only the deletion step deletes clusters. *)
Lemma only_ownership b : only resp keeps_clusters (reconcileXVolOwnership b).
Proof.
  unfold reconcileXVolOwnership. destruct (HasClusterName b); cond; [done|].
  destruct (HasWakeupPoolAnnotation b); cond; [|done].
  apply only_bind_ok; [by apply only_bind; [apply only_perform|intros []]|].
  intros cls. apply only_ensure_clusters.
Qed.

(** ** Properties *)

(** No cluster is deleted before the data it holds is safe: when a branch of
    a pool has given up its cluster, the pass deletes a cluster only after every
    live cluster it listed has its primary volume, if the primary's PVC is
    healthy, found or made to be retained and owned by the branch. *)
Theorem primary_volume_kept_before_deletion `{!ControllerLaws} b tr1 name r tr2 a
    (Hname : HasClusterName b = false) (Hpool : HasWakeupPoolAnnotation b = true)
    (Hrun : runs resp (reconcile_volumes b) (tr1 ++ ev (DeleteCluster name) r :: tr2) a) :
  ∃ clusters, ev (ListOwnedClusters (br_Name b)) (Ok clusters) ∈ tr1 ∧
    ∀ cl primary, cl ∈ clusters → cl_deleting cl = false → getClusterPVC cl = Ok primary →
      primary ∈ HealthyPVC cl → protected b tr1 primary.
Proof.
  assert (HX : updateXVolStatus b = ok b) by (unfold updateXVolStatus; by rewrite Hname, Hpool).
  assert (HB : updateBackupStatus b = ok b) by (unfold updateBackupStatus; by rewrite Hname).
  unfold reconcile_volumes in Hrun. rewrite HX in Hrun. rewrite pbind_ok_ok in Hrun.
  rewrite HB, pbind_ok_ok in Hrun. clear HX HB.
  assert (Hnot : ∀ t y, runs resp (reconcileXVolOwnership b) t y → ev (DeleteCluster name) r ∉ t).
  { intros t y Ht Hin. by apply (only_runs _ _ _ _ _ _ (only_ownership b) Ht) in Hin. }
  apply runs_bind_ok in Hrun as [(t1 & t2 & res & Heq & H1 & H2)|(e & Hr & _)].
  2: { exfalso. apply (Hnot _ _ Hr). set_solver. }
  destruct (split_after _ _ _ _ _ Heq (Hnot _ _ H1)) as [rest ->].
  destruct (ownership_protects _ _ _ Hname Hpool H1) as (cls & Hl & Hp). exists cls.
  split; [set_solver|]. intros cl primary ????. eapply protected_mono; [|by eapply Hp]. set_solver.
Qed.

(** The pass never deletes the cluster the branch names, nor one already
    being deleted; it deletes every other cluster the branch owns, in the order
    listed, stopping at the first failure. *)
Theorem owned_clusters_deletions b tr r
    (Hrun : runs resp (reconcileOwnedClusters b) tr r) :
  match tr with
  | ev (ListOwnedClusters _) (Ok clusters) :: tr' =>
      let doomed := filter (λ c, superseded b c = true) clusters in
      match r with
      | Ok _ => tr' = deletions doomed
      | Err e => ∃ done failed api rest, doomed = done ++ failed :: rest ∧
          tr' = deletions done ++ [ev (DeleteCluster (cl_Name failed)) (Some api)] ∧ e = ApiError api
      end
  | ev (ListOwnedClusters _) (Err e) :: tr' => tr' = [] ∧ r = Err (ApiError e)
  | _ => False
  end.
Proof.
  unfold reconcileOwnedClusters in Hrun. simpl in Hrun.
  destruct Hrun as ([cls|e] & t & -> & Hrun); simpl in Hrun.
  - exact (runs_delete_clusters _ _ _ _ _ Hrun).
  - done.
Qed.

(** Volumes change hands only as intended: a volume is patched only when a
    branch of a pool has given up its cluster, only for a healthy PVC of a live
    cluster that was listed, and then to be retained and owned by the branch
    when the PVC is the primary's, and released otherwise. *)
Theorem only_replica_volumes_are_released `{!ControllerLaws} b tr r x x' w
    (Hrun : runs resp (reconcileXVolOwnership b) tr r) (Hpatch : ev (PatchXVol x x') w ∈ tr) :
  HasClusterName b = false ∧ HasWakeupPoolAnnotation b = true ∧
  ∃ clusters cl primary pvc,
    ev (ListOwnedClusters (br_Name b)) (Ok clusters) ∈ tr ∧ cl ∈ clusters ∧
    cl_deleting cl = false ∧ getClusterPVC cl = Ok primary ∧ pvc ∈ HealthyPVC cl ∧
    pvc_xvol tr pvc x ∧ xv_Name x' = xv_Name x ∧
    if bool_decide (pvc = primary) then retained b x' else released b x'.
Proof.
  unfold reconcileXVolOwnership in Hrun.
  destruct (HasClusterName b); [by destruct Hrun as [-> _]; apply elem_of_nil in Hpatch|].
  destruct (HasWakeupPoolAnnotation b); cond in Hrun;
    [|by destruct Hrun as [-> _]; apply elem_of_nil in Hpatch].
  do 2 (split; [done|]).
  destruct Hrun as ([cls|e] & t & -> & Hrun).
  2: { destruct Hrun as [-> _]. apply list_elem_of_singleton in Hpatch. inversion Hpatch. }
  apply elem_of_cons in Hpatch as [Hpatch|Hpatch]; [inversion Hpatch|].
  destruct (ensure_clusters_patch _ _ _ _ _ _ _ _ Hrun Hpatch)
    as (cl & pr & pvc & Hcl & Hd & Hg & Hp & Hx & Hs).
  exists cls, cl, pr, pvc. split; [by left|]. do 4 (split; [done|]).
  split; [eapply pvc_xvol_mono; [|done]; set_solver|done].
Qed.

(** A volume is cloned only when no clone exists yet: the clone then has
    the volume recorded by the parent branch as its source, is retained and
    owned by the child, so it outlives the child's cluster but not the child. *)
Theorem clone_is_retained_copy_of_parent `{!ControllerLaws} b tr r x w
    (Hrun : runs resp (reconcileXVolClone b) tr r) (Hcreate : ev (CreateXVol x) w ∈ tr) :
  IsXVolCloneType (Restore b) = true ∧
  xv_Name x = XVolCloneName (RestoreName b) (br_Name b) ∧
  (∃ e, ev (GetXVol (xv_Name x)) (Err e) ∈ tr ∧ api_not_found e = true) ∧
  (∃ parent, ev (GetBranch (RestoreName b)) (Ok parent) ∈ tr ∧
    PrimaryXVolName (br_Status parent) ≠ "" ∧
    sourceVolume x = Some (PrimaryXVolName (br_Status parent))) ∧
  retained b x.
Proof.
  unfold reconcileXVolClone in Hrun.
  destruct (IsXVolCloneType (Restore b)); cond in Hrun;
    [|by destruct Hrun as [-> _]; apply elem_of_nil in Hcreate].
  destruct Hrun as ([y|e] & t & -> & Hrun).
  { destruct Hrun as [-> _]. apply list_elem_of_singleton in Hcreate. inversion Hcreate. }
  apply elem_of_cons in Hcreate as [Heq|Hcreate]; [inversion Heq|].
  simpl in Hrun. destruct (api_not_found e) eqn:He;
    [|by destruct Hrun as [-> _]; apply elem_of_nil in Hcreate].
  destruct Hrun as ([parent|e'] & t' & -> & Hrun).
  2: { simpl in Hrun. destruct (api_not_found e'); destruct Hrun as [-> _];
         apply list_elem_of_singleton in Hcreate; inversion Hcreate. }
  apply elem_of_cons in Hcreate as [Heq|Hcreate]; [inversion Heq|]. simpl in Hrun.
  case_bool_decide as Hp; [by destruct Hrun as [-> _]; apply elem_of_nil in Hcreate|].
  destruct (SetOwnerReference b []) as [owners|] eqn:Hset;
    [|by destruct Hrun as [-> _]; apply elem_of_nil in Hcreate].
  destruct Hrun as (w' & t'' & -> & Hrun).
  assert (t'' = []) as ->.
  { destruct w' as [e''|]; [destruct (api_already_exists e'')|]; by destruct Hrun. }
  apply list_elem_of_singleton in Hcreate. inversion Hcreate; subst.
  split_and!; try done.
  - exists e. split; [by left|done].
  - exists parent. split; [by right; left|done].
  - split; [done|]. by eapply set_has.
Qed.

(** A snapshot of the parent is taken only to bootstrap a child cluster that
    does not exist yet, from the volume of a parent cluster in a phase that can
    be snapshotted; it is deleted only once the child's cluster is healthy. *)
Theorem snapshot_only_bootstraps b tr r
    (Hrun : runs resp (reconcileVolumeSnapshot b) tr r) :
  (∀ vs w, ev (CreateOrUpdateVolumeSnapshot vs) w ∈ tr →
    (∃ e, ev (GetCluster (ClusterName b)) (Err e) ∈ tr ∧ api_not_found e = true) ∧
    ∃ parentBranch parent, ev (GetBranch (RestoreName b)) (Ok parentBranch) ∈ tr ∧
      ev (GetCluster (ClusterName parentBranch)) (Ok parent) ∈ tr ∧
      Phase parent ∈ snapshotableClusterPhases ∧ getClusterPVC parent = Ok (vs_SourcePVC vs)) ∧
  (∀ name w, ev (DeleteVolumeSnapshot name) w ∈ tr →
    ∃ cluster, ev (GetCluster (ClusterName b)) (Ok cluster) ∈ tr ∧ Phase cluster = PhaseHealthy).
Proof.
  assert (Hnil : tr = [] → ∀ c w, ev c w ∉ tr) by (intros -> ? ? ?%elem_of_nil; done).
  unfold reconcileVolumeSnapshot in Hrun.
  destruct (IsVolumeSnapshotType _); cond in Hrun;
    [|destruct Hrun as [Ht _]; split; intros ? ? Hin; by apply (Hnil Ht) in Hin].
  destruct (HasClusterName b); cond in Hrun;
    [|destruct Hrun as [Ht _]; split; intros ? ? Hin; by apply (Hnil Ht) in Hin].
  clear Hnil. destruct Hrun as ([cluster|e] & t & -> & Hrun).
  - simpl in Hrun. case_bool_decide as Hp.
    + split; [|intros name w _; exists cluster; split; [by left|done]].
      intros vs w [Heq|Hin]%elem_of_cons; [inversion Heq|].
      destruct Hrun as (w' & t' & -> & Hrun).
      assert (t' = []) as ->.
      { destruct w' as [e'|]; [simpl in Hrun; destruct (api_not_found e')|]; by destruct Hrun. }
      apply list_elem_of_singleton in Hin. inversion Hin.
    + destruct Hrun as [-> _]. split; intros ? ? Hin; apply list_elem_of_singleton in Hin; inversion Hin.
  - simpl in Hrun. destruct (api_not_found e) eqn:He.
    2: { destruct Hrun as [-> _]. split; intros ? ? Hin; apply list_elem_of_singleton in Hin; inversion Hin. }
    pose proof (snapshot_taken _ _ _ Hrun) as [Htake Hdel]. split.
    + intros vs w [Heq|Hin]%elem_of_cons; [inversion Heq|].
      split; [exists e; split; [by left|done]|].
      destruct (Htake vs w Hin) as (pb & parent & ? & ? & ? & ?). exists pb, parent.
      split_and!; try done; by right.
    + intros name w [Heq|Hin]%elem_of_cons; [inversion Heq|]. by apply Hdel in Hin.
Qed.
End Traces.

Module Witness.
(** Owner references as the controller library keeps them: one per owner, by
    kind and name. *)
Definition owner_of (b : Branch) : OwnerReference :=
  mkOwner "xata.io/v1alpha1" "Branch" (br_Name b) (br_UID b).
Definition is_owner (b : Branch) (o : OwnerReference) : bool :=
  bool_decide (or_Kind o = "Branch") && bool_decide (or_Name o = br_Name b).

#[local] Instance controller : Controller := {
  HasOwnerReference l b := Ok (existsb (is_owner b) l);
  SetOwnerReference b l := Ok (filter (λ o, is_owner b o = false) l ++ [owner_of b]);
  RemoveOwnerReference b l := Ok (filter (λ o, is_owner b o = false) l);
  PhaseHealthy := "Cluster in healthy state";
  PhaseUpgradeDelayed := "Cluster upgrade delayed";
  PhaseFailurePlugin := "Cluster cannot proceed to reconciliation";
}.

Lemma is_owner_self b : is_owner b (owner_of b) = true.
Proof. unfold is_owner, owner_of. simpl. by rewrite bool_decide_true. Qed.

Lemma none_left b l : existsb (is_owner b) (filter (λ o, is_owner b o = false) l) = false.
Proof.
  induction l as [|o l IH]; [done|]. rewrite filter_cons.
  case_decide as Ho; [|done]. simpl. by rewrite Ho, IH.
Qed.

#[local] Instance controller_laws : ControllerLaws.
Proof.
  split; simpl; intros b l l' [= <-].
  - by rewrite existsb_app, none_left; simpl; rewrite is_owner_self.
  - by rewrite none_left.
Defined.

Definition no_status : BranchStatus := mkStatus "" "" "" "" "".

(** A branch of a pool that gave up its cluster [c1], with a healthy primary
    [c1-1] and a replica [c1-2]. *)
Definition sleepy : Branch :=
  mkBranch "br1" "u1" {[ WakeupPoolAnnotation := "pool" ]} None None None None None no_status.
Definition c1 (healthy : list string) : Cluster :=
  mkCluster "c1" false "Cluster in healthy state" "c1-1" "c1-1" [] healthy "" "" "" "".
Definition volume (name policy : string) : XVol := mkXVol name ∅ policy [] None None.

Definition api (healthy : list string) : env resp unit := λ w c,
  (w, match c return resp c with
      | ListOwnedClusters _ => Ok [c1 healthy]
      | GetCluster n => if bool_decide (n = "c1") then Ok (c1 healthy) else Err (mkApiError NotFound "none")
      | GetPVC n => Ok (n +:+ "-pv")
      | GetPV n => Ok ∅
      | GetXVol n =>
          if bool_decide (n = "br0-br2") then Err (mkApiError NotFound "none")
          else Ok (volume n (if bool_decide (n = "c1-1-pv") then "Delete" else "Retain"))
      | GetBranch n =>
          Ok (mkBranch n "u0" ∅ (Some "c1") None None None None (mkStatus "xv0" "" "" "" ""))
      | CreateOrUpdateVolumeSnapshot _ => Ok ResultCreated
      | DeleteCluster _ | PatchXVol _ _ | CreateXVol _ | DeleteVolumeSnapshot _ => None
      end).

Definition pass := exec resp (api ["c1-1"; "c1-2"]) tt (reconcile_volumes sleepy).
Definition before_deletion := removelast pass.1.1.

Lemma pass_deletes :
  runs resp (reconcile_volumes sleepy) (before_deletion ++ ev (DeleteCluster "c1") None :: []) pass.2.
Proof.
  assert (Heq : pass.1.1 = before_deletion ++ [ev (DeleteCluster "c1") None]) by (vm_compute; reflexivity).
  rewrite <-Heq. exact (exec_runs _ tt _).
Qed.

Lemma primary_volume_kept_before_deletion_witness :
  ∃ clusters, ev (ListOwnedClusters "br1") (Ok clusters) ∈ before_deletion ∧
    ∀ cl primary, cl ∈ clusters → cl_deleting cl = false → getClusterPVC cl = Ok primary →
      primary ∈ HealthyPVC cl → protected sleepy before_deletion primary.
Proof.
  exact (primary_volume_kept_before_deletion sleepy before_deletion "c1" None [] _
    ltac:(vm_compute; reflexivity) ltac:(vm_compute; reflexivity) pass_deletes).
Defined.

Definition owned := exec resp (api ["c1-1"]) tt (reconcileOwnedClusters sleepy).

Lemma owned_runs : runs resp (reconcileOwnedClusters sleepy) owned.1.1 owned.2.
Proof. exact (exec_runs _ tt _). Qed.

Lemma owned_clusters_deletions_witness :
  owned.1.1 = [ev (ListOwnedClusters "br1") (Ok [c1 ["c1-1"]]); ev (DeleteCluster "c1") None] ∧
  [ev (DeleteCluster "c1") None] = deletions (filter (λ c, superseded sleepy c = true) [c1 ["c1-1"]]).
Proof.
  split; [vm_compute; reflexivity|].
  exact (owned_clusters_deletions sleepy _ _ owned_runs).
Defined.

Definition ownership := exec resp (api ["c1-1"; "c1-2"]) tt (reconcileXVolOwnership sleepy).

Lemma ownership_runs : runs resp (reconcileXVolOwnership sleepy) ownership.1.1 ownership.2.
Proof. exact (exec_runs _ tt _). Qed.

Lemma only_replica_volumes_are_released_witness :
  HasClusterName sleepy = false ∧ HasWakeupPoolAnnotation sleepy = true.
Proof.
  destruct (only_replica_volumes_are_released sleepy _ _
    (volume "c1-2-pv" "Retain") (volume "c1-2-pv" "Delete") None ownership_runs) as (H1 & H2 & _).
  { vm_compute. do 8 right. left. }
  by split.
Defined.

(** A child of [br0] that clones its volume, or is bootstrapped from a snapshot
    of it. *)
Definition child (t : RestoreType) : Branch :=
  mkBranch "br2" "u2" ∅ (Some "c2") (Some (mkRestore t "br0")) None None None no_status.

Definition clone := exec resp (api []) tt (reconcileXVolClone (child RestoreTypeXVolClone)).
Definition copy : XVol :=
  mkXVol "br0-br2" (ensureLabels ∅ None) "Retain" [owner_of (child RestoreTypeXVolClone)] (Some "xv0") None.

Lemma clone_runs : runs resp (reconcileXVolClone (child RestoreTypeXVolClone)) clone.1.1 clone.2.
Proof. exact (exec_runs _ tt _). Qed.

Lemma clone_is_retained_copy_of_parent_witness :
  ev (CreateXVol copy) None ∈ clone.1.1 ∧ retained (child RestoreTypeXVolClone) copy.
Proof.
  assert (Hin : ev (CreateXVol copy) None ∈ clone.1.1) by (vm_compute; do 2 right; left).
  split; [exact Hin|].
  exact (proj2 (proj2 (proj2 (proj2 (clone_is_retained_copy_of_parent _ _ _ _ _ clone_runs Hin))))).
Defined.

Definition snapshot := exec resp (api []) tt (reconcileVolumeSnapshot (child RestoreTypeVolumeSnapshot)).

Lemma snapshot_runs :
  runs resp (reconcileVolumeSnapshot (child RestoreTypeVolumeSnapshot)) snapshot.1.1 snapshot.2.
Proof. exact (exec_runs _ tt _). Qed.

Lemma snapshot_only_bootstraps_witness :
  ∃ parentBranch parent, ev (GetBranch "br0") (Ok parentBranch) ∈ snapshot.1.1 ∧
    ev (GetCluster (ClusterName parentBranch)) (Ok parent) ∈ snapshot.1.1 ∧
    Phase parent ∈ snapshotableClusterPhases ∧ getClusterPVC parent = Ok "c1-1".
Proof.
  destruct (snapshot_only_bootstraps _ _ _ snapshot_runs) as [Htake _].
  exact (proj2 (Htake (mkSnapshot "br0-br2" "br2" None "c1-1" "") (Ok ResultCreated)
    ltac:(vm_compute; do 3 right; left))).
Defined.

(** The hypothesis on the primary's PVC matters: when it is not among the
    healthy ones the volume is left as it is, and the cluster is deleted. *)
Theorem unhealthy_primary_is_not_retained :
  (exec resp (api ["c1-2"]) tt (reconcile_volumes sleepy)).1.1 !! 6 = Some (ev (DeleteCluster "c1") None) ∧
  forallb (λ e, match e with ev (PatchXVol x _) _ => negb (bool_decide (xv_Name x = "c1-1-pv")) | _ => true end)
    (exec resp (api ["c1-2"]) tt (reconcile_volumes sleepy)).1.1 = true.
Proof. split; vm_compute; reflexivity. Qed.
End Witness.
