(* ===== verification/Sidecar.v ===== *)
(** * The scale-to-zero sidecar

    [services/scale-to-zero-sidecar/internal/sidecar]: [scale_to_zero.go] and
    the caching [cluster_client.go].  One tick of [Start] is an effect tree
    over the Kubernetes API, the database and the clock that threads the
    sidecar's state.  Times are nanoseconds.  [Minutes()] of an elapsed time is
    compared exactly, not through a float. *)

From S2P Require Import Prelude GoStrings.

#[local] Open Scope Z_scope.

(** ** Data *)

Definition healthyClusterStatus : string := "Cluster in healthy state".
Definition hibernationAnnotation : string := "cnpg.io/hibernation".
Definition scaleToZeroEnabledAnnotation : string := "xata.io/scale-to-zero-enabled".
Definition inactivityMinutesAnnotation : string := "xata.io/scale-to-zero-inactivity-minutes".
Definition branchAnnotation : string := "xata.io/branch".
Definition WakeupPoolAnnotation : string := "xata.io/wakeup-pool".
Definition defaultInactivityMinutes : Z := 30.
Definition Minute : Z := 60000000000.

Record Cluster := mkCluster {
  cl_Annotations : gmap string string;
  cl_CurrentPrimary : string;
  cl_Phase : string;
}.

Record Branch := mkBranch {
  br_Name : string;
  br_Annotations : gmap string string;
}.

(** A Kubernetes error: whether [IsNotFound] holds of it, wrapped or not. *)
Record error := mkError {
  not_found : bool;
  message : string;
}.

Definition wrap (msg : string) (e : error) : error :=
  mkError (not_found e) (msg +:+ ": " +:+ message e).

(** An error of the connection query: whether the pool is worth resetting
    (connection refused, invalid authorization). *)
Record query_error := mkQueryError {
  resettable : bool;
  query_message : string;
}.

Record config := mkConfig {
  podName : string;
  clusterName : string;
  clusterRefreshInterval : Z;
}.

(** [lastActive]: [None] is the zero time.  [cache]: the cluster object the
    client holds and when it was read.  [object] is the identity of that object:
    every read makes a new one. *)
Record state := mkState {
  lastActive : option Z;
  cache : option (Cluster * Z);
  object : nat;
}.

Definition newScaleToZero : state := mkState None None 0.

Definition set_lastActive (st : state) (t : option Z) : state := mkState t (cache st) (object st).

(** ** The environment *)

Inductive call :=
| Now
| GetCluster
| UpdateCluster (c : Cluster)
| GetBranch (name : string)
| PatchBranchHibernation (b : Branch)
| PatchBranchClusterName (b : Branch)
| GetScheduledBackup (name : string)
| SuspendScheduledBackup (name : string)
| OpenConnections
| InitQuerier.

Definition resp (c : call) : Type :=
  match c with
  | Now => Z
  | GetCluster | UpdateCluster _ => res error Cluster
  | GetBranch _ => res error Branch
  | PatchBranchHibernation _ | PatchBranchClusterName _ | SuspendScheduledBackup _ => option error
  | GetScheduledBackup _ => res error unit
  | OpenConnections => res query_error Z
  | InitQuerier => option error
  end.

Abbreviation M A := (prog resp A).

Section Sidecar.
Context (cfg : config).

(** *** cluster_client.go *)

Definition fetchCluster (st : state) : M (res error Cluster * state) :=
  r ← perform GetCluster;
  match r with
  | Err e => mret (Err e, st)
  | Ok c => now ← perform Now; mret (Ok c, mkState (lastActive st) (Some (c, now)) (S (object st)))
  end.

Definition getCluster (forceUpdate : bool) (st : state) : M (res error Cluster * state) :=
  if forceUpdate then fetchCluster st
  else
    match cache st with
    | Some (c, t) =>
        now ← perform Now;
        if now - t <? clusterRefreshInterval cfg then mret (Ok c, st) else fetchCluster st
    | None => fetchCluster st
    end.

Definition getBranchName (st : state) : M (res error string * state) :=
  '(r, st) ← getCluster false st;
  match r with
  | Err e => mret (Err (wrap "get cluster for branch name resolution" e), st)
  | Ok c => mret (Ok (default (clusterName cfg) (cl_Annotations c !! branchAnnotation)), st)
  end.

Definition getBranch (st : state) : M (res error Branch * state) :=
  '(r, st) ← getBranchName st;
  match r with
  | Err e => mret (Err e, st)
  | Ok name => b ← perform (GetBranch name); mret (b, st)
  end.

(** The scheduled backup, by its name. *)
Definition getClusterScheduledBackup (st : state) : M (res error string * state) :=
  '(r, st) ← getBranchName st;
  match r with
  | Err e => mret (Err e, st)
  | Ok name =>
      b ← perform (GetScheduledBackup name);
      mret (match b with Ok _ => Ok name | Err e => Err e end, st)
  end.

(** *** scale_to_zero.go *)

Definition isPrimary (c : Cluster) : bool :=
  bool_decide (cl_CurrentPrimary c = "") || bool_decide (cl_CurrentPrimary c = podName cfg).

Record scaleToZeroConfig := mkS2Z {
  enabled : bool;
  inactivityMinutes : Z;
}.

Definition getClusterScaleToZeroConfig (c : Cluster) : scaleToZeroConfig :=
  mkS2Z (bool_decide (cl_Annotations c !! scaleToZeroEnabledAnnotation = Some "true"))
    (match cl_Annotations c !! inactivityMinutesAnnotation with
     | Some value => default defaultInactivityMinutes (ParseInt10 value)
     | None => defaultInactivityMinutes
     end).

Inductive activity_error :=
| ReinitializeError (e : error)
| QueryError (e : query_error).

Definition openConnections : M (res activity_error Z) :=
  r ← perform OpenConnections;
  match r with
  | Ok n => mret (Ok n)
  | Err e =>
      if resettable e then
        i ← perform InitQuerier;
        match i with
        | Some e => mret (Err (ReinitializeError e))
        | None =>
            r ← perform OpenConnections;
            mret (match r with Ok n => Ok n | Err e => Err (QueryError e) end)
        end
      else mret (Err (QueryError e))
  end.

Definition isClusterActive (inactivityMinutes : Z) (st : state)
    : M (res activity_error bool * state) :=
  r ← openConnections;
  match r with
  | Err e => mret (Err e, st)
  | Ok openConns =>
      match lastActive st with
      | Some t =>
          if 0 <? openConns then
            now ← perform Now; mret (Ok true, set_lastActive st (Some now))
          else
            now ← perform Now;
            mret (Ok (negb (inactivityMinutes * Minute <=? now - t)), st)
      | None => now ← perform Now; mret (Ok true, set_lastActive st (Some now))
      end
  end.

Definition hibernateBranch (b : Branch) : M (option error) :=
  match br_Annotations b !! WakeupPoolAnnotation with
  | Some _ => perform (PatchBranchClusterName b)
  | None => perform (PatchBranchHibernation b)
  end.

Definition pauseScheduledBackup (st : state) : M (option error * state) :=
  '(r, st) ← getClusterScheduledBackup st;
  match r with
  | Err e => mret (if not_found e then None else Some (wrap "failed to get scheduled backup" e), st)
  | Ok name =>
      u ← perform (SuspendScheduledBackup name);
      mret (match u with Some e => Some (wrap "failed to update scheduled backup" e) | None => None end, st)
  end.

(** The object [id] itself is annotated, and [Update] reads the stored object
    back into it: the cache sees it if it still holds that object. *)
Definition hibernateCluster (st : state) (id : nat) (c : Cluster) : M (option error * state) :=
  let c := mkCluster (<[hibernationAnnotation := "on"]> (cl_Annotations c)) (cl_CurrentPrimary c)
             (cl_Phase c) in
  let recache c := mkState (lastActive st)
                     (match cache st with
                      | Some (held, t) => Some (if decide (object st = id) then c else held, t)
                      | None => None
                      end) (object st) in
  u ← perform (UpdateCluster c);
  match u with
  | Err e => mret (Some e, recache c)
  | Ok c => pauseScheduledBackup (recache c)
  end.

Definition hibernate (st : state) : M (option error * state) :=
  '(r, st) ← getCluster true st;
  match r with
  | Err e => mret (Some (wrap "failed to retrieve cluster" e), st)
  | Ok c =>
      if negb (bool_decide (cl_Phase c = healthyClusterStatus)) then mret (None, st)
      else
        let id := object st in
        '(b, st) ← getBranch st;
        match b with
        | Ok branch => e ← hibernateBranch branch; mret (e, st)
        | Err e =>
            if not_found e then hibernateCluster st id c
            else mret (Some (wrap "failed to check for branch" e), st)
        end
  end.

(** One tick of [Start]. *)
Definition tick (st : state) : M state :=
  '(r, st) ← getCluster false st;
  match r with
  | Err _ => mret st
  | Ok c =>
      if negb (isPrimary c) then mret (set_lastActive st None)
      else
        let cfg := getClusterScaleToZeroConfig c in
        if negb (enabled cfg) then mret (set_lastActive st None)
        else
          '(r, st) ← isClusterActive (inactivityMinutes cfg) st;
          match r with
          | Err _ | Ok true => mret st
          | Ok false => '(_, st) ← hibernate st; mret st
          end
  end.

(** [n] ticks of the loop. *)
Fixpoint Start (n : nat) (st : state) : M state :=
  match n with
  | O => mret st
  | S n => st ← tick st; Start n st
  end.
End Sidecar.

(** ** Observations *)

(** [ViaCluster] comes with what the update left in the cluster object. *)
Inductive how := ViaPool | ViaBranch | ViaCluster (c : Cluster).

Inductive note :=
| NNow (t : Z)
| NCluster (c : Cluster)
| NConns (n : Z)
| NBranch (b : Branch)
| NNoBranch
| NHibernate (h : how).

Definition note_of (e : event resp) : option note :=
  match e with
  | ev c r =>
      match c return resp c → option note with
      | Now => λ t, Some (NNow t)
      | GetCluster => λ r, match r with Ok c => Some (NCluster c) | Err _ => None end
      | OpenConnections => λ r, match r with Ok n => Some (NConns n) | Err _ => None end
      | GetBranch _ => λ r,
          match r with
          | Ok b => Some (NBranch b)
          | Err e => if not_found e then Some NNoBranch else None
          end
      | PatchBranchClusterName _ => λ _, Some (NHibernate ViaPool)
      | PatchBranchHibernation _ => λ _, Some (NHibernate ViaBranch)
      | UpdateCluster c => λ r, Some (NHibernate (ViaCluster (match r with Ok c => c | Err _ => c end)))
      | _ => λ _, None
      end r
  end.

Definition notes (tr : list (event resp)) : list note := omap note_of tr.

(** Nothing seen that counts as activity. *)
Definition idle_note (v : note) : Prop :=
  match v with NConns n => n ≤ 0 | _ => True end.

Definition is_hibernate (v : note) : bool := match v with NHibernate _ => true | _ => false end.

(** The sidecar's own record of activity is in the observations: at the time
    it holds, and with no connection seen since. *)
Definition tracked (acc : list note) (st : state) : Prop :=
  ∀ t, lastActive st = Some t → ∃ pre mid, acc = pre ++ NNow t :: mid ∧ Forall idle_note mid.

Section Specification.
Context (cfg : config).

(** A cluster that was read at [t], unless the sidecar has since annotated the
    object itself. *)
Definition known (acc : list note) (c : Cluster) (t : Z) : Prop :=
  ∃ pre c0 mid, acc = pre ++ NCluster c0 :: NNow t :: mid ∧ (c = c0 ∨ NHibernate (ViaCluster c) ∈ mid).

Definition cache_known (acc : list note) (st : state) : Prop :=
  ∀ c t, cache st = Some (c, t) → known acc c t.

(** The cluster that a tick decides with, at the last note of [acc]: it was read
    just now, or no longer ago than the refresh interval. *)
Definition current (acc : list note) (c : Cluster) : Prop :=
  (∃ pre now, acc = pre ++ [NCluster c; NNow now]) ∨
  (∃ pre now t, acc = pre ++ [NNow now] ∧ known pre c t ∧ now - t < clusterRefreshInterval cfg).

(** What has been seen when the sidecar hibernates.  [before]: up to the tick's
    look at the cluster [c], current then, of which this pod was the primary and
    for which scale-to-zero was on; since the time [t] in it nothing counted as
    activity.  Then no connection was counted, at a time [now] at least the
    configured minutes after [t].  [look]: the cluster was read afresh and was
    healthy, and a branch is hibernated the way its annotations ask. *)
Definition slept (acc : list note) (h : how) : Prop :=
  ∃ before c n now look,
    acc = before ++ [NConns n; NNow now] ++ look ∧ n ≤ 0 ∧
    current before c ∧ isPrimary cfg c = true ∧ enabled (getClusterScaleToZeroConfig c) = true ∧
    (∃ pre t mid, before = pre ++ NNow t :: mid ∧ Forall idle_note mid ∧
       inactivityMinutes (getClusterScaleToZeroConfig c) * Minute ≤ now - t) ∧
    (∃ c', NCluster c' ∈ look ∧ cl_Phase c' = healthyClusterStatus) ∧
    match h with
    | ViaPool => ∃ b, NBranch b ∈ look ∧ is_Some (br_Annotations b !! WakeupPoolAnnotation)
    | ViaBranch => ∃ b, NBranch b ∈ look ∧ br_Annotations b !! WakeupPoolAnnotation = None
    | ViaCluster _ => ∀ b, NBranch b ∉ look
    end.

Definition all_slept (acc : list note) : Prop :=
  ∀ l1 h l2, acc = l1 ++ NHibernate h :: l2 → slept l1 h.

Record Inv (acc : list note) (st : state) : Prop := {
  inv_tracked : tracked acc st;
  inv_slept : all_slept acc;
  inv_cache : cache_known acc st;
}.
End Specification.

(** ** Lemmas *)

Section Lemmas.
Context (cfg : config).

(** Observations that are neither a count of connections nor a hibernation. *)
Definition passive (v : note) : Prop :=
  match v with NConns _ | NHibernate _ => False | _ => True end.

Lemma passive_idle l : Forall passive l → Forall idle_note l.
Proof. intros Hl. eapply Forall_impl; [exact Hl|]. by intros []. Qed.

Lemma all_slept_snoc acc v :
  (∀ h, v = NHibernate h → slept cfg acc h) → all_slept cfg acc → all_slept cfg (acc ++ [v]).
Proof.
  intros Hv Hacc l1 h l2 Heq. destruct l2 as [|x l2 _] using rev_ind.
  - apply app_inj_tail in Heq as [-> ->]. by apply Hv.
  - rewrite app_comm_cons, app_assoc in Heq. apply app_inj_tail in Heq as [-> ->].
    by eapply Hacc.
Qed.

Lemma all_slept_app acc new :
  Forall (λ v, is_hibernate v = false) new → all_slept cfg acc → all_slept cfg (acc ++ new).
Proof.
  intros Hnew. revert acc. induction Hnew as [|v new Hv _ IH]; intros acc Hacc.
  - by rewrite app_nil_r.
  - rewrite cons_middle, app_assoc. apply IH, all_slept_snoc; [|done]. by intros h ->.
Qed.

Lemma all_slept_passive acc new : Forall passive new → all_slept cfg acc → all_slept cfg (acc ++ new).
Proof. intros Hp. apply all_slept_app. eapply Forall_impl; [exact Hp|]. by intros []. Qed.

Lemma tracked_app acc new st : Forall idle_note new → tracked acc st → tracked (acc ++ new) st.
Proof.
  intros Hnew Ht t Hl. destruct (Ht t Hl) as (pre & mid & -> & Hmid).
  exists pre, (mid ++ new). rewrite <-app_assoc. split; [done|]. by apply Forall_app.
Qed.

Lemma known_app acc new c t : known acc c t → known (acc ++ new) c t.
Proof.
  intros (pre & c0 & mid & -> & H). exists pre, c0, (mid ++ new). split; [by rewrite <-app_assoc|].
  rewrite elem_of_app. tauto.
Qed.

Lemma cache_known_app acc new st : cache_known acc st → cache_known (acc ++ new) st.
Proof. intros H c t Hc. by eapply known_app, H. Qed.

Lemma Inv_passive acc new st : Forall passive new → Inv cfg acc st → Inv cfg (acc ++ new) st.
Proof.
  intros Hp [H1 H2 H3]. split.
  - by apply tracked_app; [apply passive_idle|].
  - by apply all_slept_passive.
  - by apply cache_known_app.
Qed.

(** Reading the cluster: passive, keeps the activity record, and the cache
    holds what it returns. *)
Lemma wp_fetchCluster st acc (Q : list note → res error Cluster * state → Prop) :
  (∀ e, Q acc (Err e, st)) →
  (∀ c now, Q (acc ++ [NCluster c; NNow now]) (Ok c, mkState (lastActive st) (Some (c, now)) (S (object st)))) →
  wp resp note_of (fetchCluster st) acc Q.
Proof.
  intros Herr Hok. apply (wp_perform _ GetCluster). intros [c|e]; cbn [note_of]; [|apply Herr].
  apply (wp_perform _ Now). intros now. cbn [note_of]. rewrite <-app_assoc. apply Hok.
Qed.

Lemma wp_getCluster force st acc (Q : list note → res error Cluster * state → Prop) :
  cache_known acc st →
  (∀ new r st', Forall passive new → (∀ b, NBranch b ∉ new) → lastActive st' = lastActive st →
     cache_known (acc ++ new) st' →
     (∀ c, r = Ok c → (force = true → NCluster c ∈ new) ∧ current cfg (acc ++ new) c) →
     Q (acc ++ new) (r, st')) →
  wp resp note_of (getCluster cfg force st) acc Q.
Proof.
  intros Hk HQ. unfold getCluster.
  assert (Hfetch : ∀ pre, Forall passive pre → (∀ b, NBranch b ∉ pre) → wp resp note_of (fetchCluster st) (acc ++ pre) Q).
  { intros pre Hpre Hb. apply wp_fetchCluster.
    - intros e. by apply (HQ pre (Err e)); [..|apply cache_known_app|].
    - intros c now. rewrite <-app_assoc. apply (HQ _ (Ok c)).
      + apply Forall_app. by repeat constructor.
      + intros b. specialize (Hb b). set_solver.
      + done.
      + intros c' t [= <- <-]. exists (acc ++ pre), c, []. rewrite <-app_assoc. by split; [|left].
      + intros c' [= <-]. split; [set_solver|]. left. exists (acc ++ pre), now. by rewrite <-app_assoc. }
  pose proof (Hfetch [] ltac:(constructor) ltac:(set_solver)) as Hfetch0. rewrite app_nil_r in Hfetch0.
  destruct force; [done|]. destruct (cache st) as [[c t]|] eqn:Hcache; [|done].
  apply (wp_perform _ Now). intros now. cbn [note_of].
  destruct (Z.ltb_spec (now - t) (clusterRefreshInterval cfg)); [|by apply Hfetch; [repeat constructor|set_solver]].
  apply (HQ [NNow now] (Ok c)); [by repeat constructor|set_solver|done|by apply cache_known_app|].
  intros c' [= <-]. split; [done|]. right. exists acc, now, t. split_and!; [done|by apply Hk|done].
Qed.

Lemma wp_getBranchName st acc (Q : list note → res error string * state → Prop) :
  cache_known acc st →
  (∀ new r st', Forall passive new → (∀ b, NBranch b ∉ new) → lastActive st' = lastActive st →
     cache_known (acc ++ new) st' → Q (acc ++ new) (r, st')) →
  wp resp note_of (getBranchName cfg st) acc Q.
Proof.
  intros Hk HQ. unfold getBranchName. apply wp_bind, wp_getCluster; [done|].
  intros new [c|e] st' Hnew Hb Hl Hc _; by apply HQ.
Qed.

Lemma wp_getBranch st acc (Q : list note → res error Branch * state → Prop) :
  cache_known acc st →
  (∀ new r st', Forall passive new → lastActive st' = lastActive st → cache_known (acc ++ new) st' →
     match r with Ok b => NBranch b ∈ new | Err _ => ∀ b, NBranch b ∉ new end → Q (acc ++ new) (r, st')) →
  wp resp note_of (getBranch cfg st) acc Q.
Proof.
  intros Hk HQ. unfold getBranch. apply wp_bind, wp_getBranchName; [done|].
  intros new [name|e] st' Hnew Hb Hl Hc; [|by apply HQ].
  apply (wp_perform _ (GetBranch name)). intros [b|e]; cbn [note_of]; [|destruct (not_found e)].
  - rewrite <-app_assoc. apply (HQ _ (Ok b)); [apply Forall_app; by rewrite Forall_singleton|done| |].
    + rewrite app_assoc. by apply cache_known_app.
    + set_solver.
  - rewrite <-app_assoc. apply (HQ _ (Err e)); [apply Forall_app; by rewrite Forall_singleton|done| |].
    + rewrite app_assoc. by apply cache_known_app.
    + intros b. specialize (Hb b). set_solver.
  - by apply HQ.
Qed.

(** Passive observations that keep the activity record keep the invariant. *)
Lemma Inv_read acc new st st' :
  Forall passive new → lastActive st' = lastActive st → cache_known (acc ++ new) st' →
  Inv cfg acc st → Inv cfg (acc ++ new) st'.
Proof.
  intros Hnew Hl Hc HI. destruct (Inv_passive _ _ _ Hnew HI) as [H1 H2 _]. split; [|done|done].
  intros t Ht. rewrite Hl in Ht. by apply H1.
Qed.

Lemma wp_pauseScheduledBackup st acc :
  Inv cfg acc st →
  wp resp note_of (pauseScheduledBackup cfg st) acc (λ l r, Inv cfg l r.2).
Proof.
  intros HI. unfold pauseScheduledBackup, getClusterScheduledBackup. apply wp_bind, wp_bind.
  apply wp_getBranchName; [apply HI|]. intros new [name|e] st' Hnew _ Hl Hc;
    pose proof (Inv_read _ _ _ _ Hnew Hl Hc HI) as HI'; [|done].
  apply (wp_perform _ (GetScheduledBackup name)). intros [u|e]; cbn [note_of]; [|done].
  simpl. by intros [e|].
Qed.

(** Recording a hibernation. *)
Lemma Inv_hibernate acc st h :
  slept cfg acc h → Inv cfg acc st → Inv cfg (acc ++ [NHibernate h]) st.
Proof.
  intros Hs [H1 H2 H3]. split.
  - apply tracked_app; [|done]. by repeat constructor.
  - apply all_slept_snoc; [|done]. by intros h' [= <-].
  - by apply cache_known_app.
Qed.

(** The update of the cluster object, which the cache may hold. *)
Lemma Inv_update acc st id c :
  (∀ c, slept cfg acc (ViaCluster c)) → Inv cfg acc st →
  Inv cfg (acc ++ [NHibernate (ViaCluster c)]) (mkState (lastActive st)
    (match cache st with Some (held, t) => Some (if decide (object st = id) then c else held, t) | None => None end) (object st)).
Proof.
  intros Hs HI. destruct (Inv_hibernate _ _ _ (Hs c) HI) as [H1 H2 H3]. split; [exact H1|done|].
  intros c1 t Hc. simpl in Hc. destruct (cache st) as [[held t']|] eqn:Hcache; [|done]. injection Hc as <- ->.
  destruct (decide (object st = id)); [|by apply H3].
  destruct (inv_cache _ _ _ HI _ _ Hcache) as (pre & c0 & mid & -> & _).
  exists pre, c0, (mid ++ [NHibernate (ViaCluster c)]). split; [by rewrite <-app_assoc|]. right. set_solver.
Qed.

(** What the look at the cluster and its branch shows for a hibernation. *)
Definition looked (look : list note) (h : how) : Prop :=
  (∃ c', NCluster c' ∈ look ∧ cl_Phase c' = healthyClusterStatus) ∧
  match h with
  | ViaPool => ∃ b, NBranch b ∈ look ∧ is_Some (br_Annotations b !! WakeupPoolAnnotation)
  | ViaBranch => ∃ b, NBranch b ∈ look ∧ br_Annotations b !! WakeupPoolAnnotation = None
  | ViaCluster _ => ∀ b, NBranch b ∉ look
  end.

Lemma wp_hibernate st acc :
  Inv cfg acc st →
  (∀ look h, Forall passive look → looked look h → slept cfg (acc ++ look) h) →
  wp resp note_of (hibernate cfg st) acc (λ l r, Inv cfg l r.2).
Proof.
  intros HI Hslept. unfold hibernate. apply wp_bind, wp_getCluster; [apply HI|].
  intros n1 r st1 Hn1 Hb1 Hl1 Hc1 Hr. pose proof (Inv_read _ _ _ _ Hn1 Hl1 Hc1 HI) as HI1.
  destruct r as [c|e]; [|done]. destruct (Hr c eq_refl) as [Hin _]. specialize (Hin eq_refl).
  case_bool_decide as Hph; simpl; [|done].
  apply wp_bind, wp_getBranch; [apply HI1|]. intros n2 r st2 Hn2 Hl2 Hc2 Hb.
  pose proof (Inv_read _ _ _ _ Hn2 Hl2 Hc2 HI1) as HI2.
  assert (Hs : ∀ h, match h with
     | ViaPool => ∃ b, NBranch b ∈ n2 ∧ is_Some (br_Annotations b !! WakeupPoolAnnotation)
     | ViaBranch => ∃ b, NBranch b ∈ n2 ∧ br_Annotations b !! WakeupPoolAnnotation = None
     | ViaCluster _ => ∀ b, NBranch b ∉ n2
     end → slept cfg ((acc ++ n1) ++ n2) h).
  { intros h Hh. rewrite <-app_assoc. apply Hslept; [by apply Forall_app|]. split; [exists c; set_solver|].
    destruct h; [set_solver..|]. intros b. specialize (Hb1 b). specialize (Hh b). set_solver. }
  destruct r as [b|e].
  - unfold hibernateBranch. apply wp_bind.
    destruct (br_Annotations b !! WakeupPoolAnnotation) eqn:Ha; simpl; intros u; apply Inv_hibernate;
      try done; apply Hs; eauto.
  - destruct (not_found e); [|done]. unfold hibernateCluster. set (c' := mkCluster _ _ _).
    apply (wp_perform _ (UpdateCluster c')). intros u. cbn [note_of].
    assert (∀ c, slept cfg ((acc ++ n1) ++ n2) (ViaCluster c)) as Hv by (intros c0; by apply Hs).
    destruct u as [c1|e1]; [|by apply Inv_update]. by apply wp_pauseScheduledBackup, Inv_update.
Qed.

Lemma wp_openConnections acc (Q : list note → res activity_error Z → Prop) :
  (∀ n, Q (acc ++ [NConns n]) (Ok n)) → (∀ e, Q acc (Err e)) →
  wp resp note_of openConnections acc Q.
Proof.
  intros Hok Herr. apply (wp_perform _ OpenConnections). intros [n|e]; cbn [note_of]; [apply Hok|].
  destruct (resettable e); [|apply Herr].
  apply (wp_perform _ InitQuerier). intros [e'|]; cbn [note_of]; [apply Herr|].
  apply (wp_perform _ OpenConnections). intros [n|e']; cbn [note_of]; [apply Hok|apply Herr].
Qed.

(** Activity is recorded at the time just read. *)
Lemma Inv_active acc st n now :
  Inv cfg acc st → Inv cfg ((acc ++ [NConns n]) ++ [NNow now]) (set_lastActive st (Some now)).
Proof.
  intros [H1 H2 H3]. split.
  - intros t [= <-]. exists (acc ++ [NConns n]), []. done.
  - rewrite <-app_assoc. apply all_slept_app; [by repeat constructor|done].
  - intros c t Hc. do 2 apply known_app. by eapply H3.
Qed.

Lemma Inv_reset acc st : Inv cfg acc st → Inv cfg acc (set_lastActive st None).
Proof. intros [H1 H2 H3]. by split. Qed.

Lemma wp_tick st acc :
  Inv cfg acc st → wp resp note_of (tick cfg st) acc (λ l st', Inv cfg l st').
Proof.
  intros HI. unfold tick. apply wp_bind, wp_getCluster; [apply HI|].
  intros n1 r st1 Hn1 _ Hl1 Hc1 Hr. pose proof (Inv_read _ _ _ _ Hn1 Hl1 Hc1 HI) as HI1.
  destruct r as [c|e]; [|done]. destruct (Hr c eq_refl) as [_ Hcurrent].
  destruct (isPrimary cfg c) eqn:Hp; cbn [negb]; cbv iota; [|by apply Inv_reset].
  set (conf := getClusterScaleToZeroConfig c). cbv zeta.
  destruct (enabled conf) eqn:He; cbn [negb]; cbv iota; [|by apply Inv_reset].
  apply wp_bind. unfold isClusterActive. apply wp_bind, wp_openConnections; [|done].
  intros n. destruct (lastActive st1) as [t|] eqn:Hlast.
  2: { apply (wp_perform _ Now). intros now. cbn [note_of]. by apply Inv_active. }
  destruct (Z.ltb_spec 0 n).
  { apply (wp_perform _ Now). intros now. cbn [note_of]. by apply Inv_active. }
  apply (wp_perform _ Now). intros now. cbn [note_of]. rewrite <-app_assoc. simpl app.
  assert (Hidle : Forall idle_note [NConns n; NNow now]) by (by repeat constructor).
  assert (HI2 : Inv cfg ((acc ++ n1) ++ [NConns n; NNow now]) st1).
  { destruct HI1 as [H1 H2 H3]. split; [by apply tracked_app| |by apply cache_known_app].
    by apply all_slept_app; [repeat constructor|]. }
  destruct (Z.leb_spec (inactivityMinutes conf * Minute) (now - t)) as [Hlong|]; cbn [negb]; [|done].
  destruct (inv_tracked _ _ _ HI1 t Hlast) as (pre & mid & Hacc & Hmid).
  apply wp_bind. eapply wp_mono; [|apply wp_hibernate; [exact HI2|]]; [by intros l [e st2]|].
  intros look h _ [Hc' Hh]. exists (acc ++ n1), c, n, now, look. rewrite <-app_assoc.
  split_and!; [done|done|done|done|done| |done|done]. exists pre, t, mid. by split_and!.
Qed.

Lemma wp_Start n st acc :
  Inv cfg acc st → wp resp note_of (Start cfg n st) acc (λ l st', Inv cfg l st').
Proof.
  revert st acc. induction n as [|n IH]; intros st acc HI; [done|].
  cbn [Start]. apply wp_bind. eapply wp_mono; [|by apply wp_tick]. intros l st' HI'. by apply IH.
Qed.

(** Without a recorded activity a tick never hibernates. *)
Lemma untracked_tick st acc :
  lastActive st = None → cache_known acc st → Forall (λ v, is_hibernate v = false) acc →
  wp resp note_of (tick cfg st) acc (λ l _, Forall (λ v, is_hibernate v = false) l).
Proof.
  intros Hl Hk Hacc. unfold tick. apply wp_bind, wp_getCluster; [done|].
  intros new r st1 Hnew _ Hl1 _ _.
  assert (Hall : Forall (λ v, is_hibernate v = false) (acc ++ new)).
  { apply Forall_app. split; [done|]. eapply Forall_impl; [exact Hnew|]. by intros []. }
  destruct r as [c|e]; [|done]. destruct (isPrimary cfg c); cbn [negb]; cbv iota; [|done].
  cbv zeta. destruct (enabled (getClusterScaleToZeroConfig c)); cbn [negb]; cbv iota; [|done].
  apply wp_bind. unfold isClusterActive. apply wp_bind, wp_openConnections; [|done].
  intros n. rewrite Hl1, Hl. apply (wp_perform _ Now). intros now. cbn [note_of].
  rewrite <-app_assoc. apply Forall_app. split; [done|]. by repeat constructor.
Qed.
End Lemmas.

(** ** Properties *)

Section Properties.
Context (cfg : config).

(** C36. The sidecar hibernates a cluster only after it has been idle for the
    configured time.  The tick that hibernates decides with a cluster object that
    it has just read or that was read less than the refresh interval ago (and has
    been changed since by its own update at most); by that object its pod is the
    primary and scale-to-zero is on; it then counts no connection, none was
    counted since the last activity recorded, and the time since is at least the
    minutes that the object configures; then it reads the cluster afresh, which
    is healthy.  A branch with a wakeup pool gives its cluster back, any other
    branch is hibernated in place, and the cluster itself is annotated only if
    no branch was read. *)
Theorem hibernates_only_after_idle_period n tr st l1 h l2
    (Hrun : runs resp (Start cfg n newScaleToZero) tr st)
    (Hsleep : notes tr = l1 ++ NHibernate h :: l2) :
  slept cfg l1 h.
Proof.
  assert (HI : Inv cfg [] newScaleToZero).
  { split; [by intros ? ?| |by intros ? ?]. intros [|? ?] ? ? [=]. }
  pose proof (wp_sound _ _ [] _ _ _ (wp_Start cfg n newScaleToZero [] HI) Hrun) as [_ Hs _].
  by eapply Hs.
Qed.

(** A switchover or a pause of scale-to-zero starts the tracking over: a
    tick on a pod that is not the primary, or with scale-to-zero off, forgets
    the last activity and hibernates nothing, and the next tick that tracks
    again counts as activity even without connections. *)
Theorem tracking_restarts tr tr' st st1 st2 c t
    (Hcache : cache st = Some (c, t))
    (Hfresh : ∀ now, ev Now now ∈ tr → now - t < clusterRefreshInterval cfg)
    (Hoff : isPrimary cfg c = false ∨ enabled (getClusterScaleToZeroConfig c) = false)
    (Hrun : runs resp (tick cfg st) tr st1) (Hrun' : runs resp (tick cfg st1) tr' st2) :
  lastActive st1 = None ∧ (∀ h, NHibernate h ∉ notes tr) ∧ (∀ h, NHibernate h ∉ notes tr').
Proof.
  assert (Hst1 : st1 = set_lastActive st None ∧ ∀ h, NHibernate h ∉ notes tr).
  { unfold tick, getCluster in Hrun. rewrite Hcache in Hrun.
    apply runs_bind in Hrun as (tr1 & tr2 & [r s] & -> & (now & tr3 & -> & H1) & H2).
    specialize (Hfresh now ltac:(set_solver)).
    change (runs resp (if now - t <? clusterRefreshInterval cfg then mret (Ok c, st)
      else fetchCluster st) tr3 (r, s)) in H1.
    replace (now - t <? clusterRefreshInterval cfg) with true in H1 by lia.
    destruct H1 as [-> [= -> ->]].
    assert (Hend : tr2 = [] ∧ st1 = set_lastActive st None).
    { destruct (isPrimary cfg c); cbn [negb] in H2; cbv iota in H2; [|exact H2].
      destruct Hoff as [|Hoff]; [done|]. rewrite Hoff in H2. exact H2. }
    destruct Hend as [-> ->]. split; [done|]. intros h. simpl. set_solver. }
  destruct Hst1 as [-> Hn]. split; [done|]. split; [done|].
  intros h Hin.
  assert (cache_known [NCluster c; NNow t] (set_lastActive st None)) as Hknown.
  { intros c' t' Hc'. simpl in Hc'. rewrite Hcache in Hc'. injection Hc' as <- <-. exists [], c, []. by split; [|left]. }
  pose proof (wp_sound _ _ [NCluster c; NNow t] _ _ _
    (untracked_tick cfg (set_lastActive st None) [NCluster c; NNow t] eq_refl Hknown ltac:(by repeat constructor)) Hrun') as Hno.
  rewrite Forall_forall in Hno.
  assert (is_hibernate (NHibernate h) = false) as [=]. apply Hno. by do 2 right.
Qed.
End Properties.

Module Witness.
Definition cfg0 : config := mkConfig "c-1" "c" 30000000000.
Definition annotations : gmap string string :=
  {[scaleToZeroEnabledAnnotation := "true"; inactivityMinutesAnnotation := "5"]}.
Definition cluster0 : Cluster := mkCluster annotations "c-1" healthyClusterStatus.
Definition cluster_off : Cluster := mkCluster ∅ "c-1" healthyClusterStatus.

(** A minute passes at every reading of the clock; nobody connects. *)
Definition world (c : Cluster) : env resp Z := λ w call,
  match call return Z * resp call with
  | Now => (w + Minute, w)
  | GetCluster => (w, Ok c)
  | UpdateCluster c => (w, Ok c)
  | GetBranch name => (w, Ok (mkBranch name {[WakeupPoolAnnotation := "pool"]}))
  | PatchBranchHibernation _ | PatchBranchClusterName _ => (w, None)
  | GetScheduledBackup _ => (w, Ok tt)
  | SuspendScheduledBackup _ => (w, None)
  | OpenConnections => (w, Ok 0)
  | InitQuerier => (w, None)
  end.

Definition run := exec resp (world cluster0) 0 (Start cfg0 3 newScaleToZero).

Lemma run_runs : runs resp (Start cfg0 3 newScaleToZero) run.1.1 run.2.
Proof. exact (exec_runs (world cluster0) 0 _). Qed.

Lemma hibernates_only_after_idle_period_witness :
  ∃ l1 h l2, notes run.1.1 = l1 ++ NHibernate h :: l2 ∧ slept cfg0 l1 h.
Proof.
  assert (Hs : ∃ k, match drop k (notes run.1.1) with
    | NHibernate h :: l2 => notes run.1.1 = take k (notes run.1.1) ++ NHibernate h :: l2
    | _ => False end) by (exists 20%nat; vm_compute; reflexivity).
  destruct Hs as [k Hk]. destruct (drop k (notes run.1.1)) as [|[t|x|z|b| |h] l2]; try contradiction.
  exists (take k (notes run.1.1)), h, l2. split; [exact Hk|].
  exact (hibernates_only_after_idle_period cfg0 3 _ _ _ h l2 run_runs Hk).
Defined.

Definition st0 : state := mkState (Some 0) (Some (cluster_off, 0)) 0.
Definition off := exec resp (world cluster_off) 0 (tick cfg0 st0).
Definition on_ := exec resp (world cluster_off) 0 (tick cfg0 off.2).

Lemma tracking_restarts_witness :
  lastActive off.2 = None ∧ (∀ h, NHibernate h ∉ notes off.1.1) ∧ (∀ h, NHibernate h ∉ notes on_.1.1).
Proof.
  apply (tracking_restarts cfg0 off.1.1 on_.1.1 st0 off.2 on_.2 cluster_off 0).
  - reflexivity.
  - intros now Hin. vm_compute in Hin. apply list_elem_of_singleton in Hin.
    apply (f_equal (λ e, match e with ev c r =>
      match c return resp c → Z with Now => λ t, t | _ => λ _, 0 end r end)) in Hin.
    simpl in Hin. subst. reflexivity.
  - right. reflexivity.
  - exact (exec_runs (world cluster_off) 0 _).
  - exact (exec_runs (world cluster_off) 0 _).
Defined.
End Witness.
