(* ===== verification/Roles.v ===== *)
(** * Organization roles: [services/auth/roles]

    [roles.go] and [invitations.go]: which role each member holds, who may
    change it, the order of the group changes, and the last-Admin rule, as
    effect trees over the Keycloak groups of one organization.  The reads that
    the code issues concurrently are issued one after the other here.  Group
    names and e-mail addresses are ASCII. *)

From S2P Require Import Prelude GoStrings.

#[local] Open Scope Z_scope.

(** ** Roles *)

Definition Admin : string := "admin".
Definition Editor : string := "editor".
Definition Viewer : string := "viewer".

(** [All]: role and group name, from most to least privileged. *)
Definition All : list (string * string) :=
  [(Admin, "Admin"); (Editor, "Editor"); (Viewer, "Viewer")].

Definition groupName (r : string) : string :=
  match list_find (λ d, d.1 = r) All with Some (_, d) => d.2 | None => "" end.

Definition Valid (r : string) : bool := negb (bool_decide (groupName r = "")).

Definition Grantable (viewer : bool) (r : string) : bool :=
  Valid r && (viewer || negb (bool_decide (r = Viewer))).

Definition Reported (viewer : bool) (r : string) : string :=
  if bool_decide (r = Viewer) && negb viewer then Editor else r.

Definition Offered (viewer : bool) : list (string * string) :=
  filter (λ d, Grantable viewer d.1 = true) All.

(** The last of the offered roles. *)
Definition Unassigned (viewer : bool) : string :=
  match last (Offered viewer) with Some d => d.1 | None => "" end.

Definition roleOfGroup (name : string) : option string :=
  match list_find (λ d, EqualFold name d.2 = true) All with Some (_, d) => Some d.1 | None => None end.

(** [slices.IndexFunc], [-1] when absent. *)
Definition rank (r : string) : Z :=
  match list_find (λ d, d.1 = r) All with Some (i, _) => Z.of_nat i | None => -1 end.

(** ** Keycloak *)

Record Group := mkGroup {
  g_ID : string;
  g_Name : string;
  g_Path : string;
  g_InvitedRoles : list string;
}.

(** An error: whether it is [ErrUserNotFound] or [ErrGroupAlreadyExists]. *)
Record kc_error := mkKCError {
  user_not_found : bool;
  already_exists : bool;
  kc_message : string;
}.

Inductive error :=
| Wrapf (msg : string) (e : kc_error)
| ErrUnknownRole (role : string)
| ErrRoleNotGrantable (role : string)
| ErrNotAdmin
| ErrUserNotOrganizationMember (user : string)
| ErrLastAdmin
| ErrEmailTooLong
| Joined (es : list error).

Inductive call :=
| ListGroups
| ListMembers
| ListGroupMembers (group : string)
| ListMemberGroups (user : string)
| CreateGroup (name : string)
| AddGroupMember (group user : string)
| RemoveGroupMember (group user : string)
| UpdateInvitedRoles (group : string) (update : list string → list string).

(** Members are their user ids; a created group is its id. *)
Definition resp (c : call) : Type :=
  match c with
  | ListGroups | ListMemberGroups _ => res kc_error (list Group)
  | ListMembers | ListGroupMembers _ => res kc_error (list string)
  | CreateGroup _ => res kc_error string
  | AddGroupMember _ _ | RemoveGroupMember _ _ | UpdateInvitedRoles _ _ => option kc_error
  end.

Abbreviation M A := (prog resp A).
Abbreviation E A := (M (res error A)).

Definition try {A} (msg : string) (p : M (res kc_error A)) : E A :=
  r ← p; mret (match r with Ok a => Ok a | Err e => Err (Wrapf msg e) end).

Definition try_ (msg : string) (p : M (option kc_error)) : E unit :=
  r ← p; mret (match r with None => Ok tt | Some e => Err (Wrapf msg e) end).

(** ** roles.go *)

Record roleGroup := mkRoleGroup {
  rg_id : string;
  rg_role : string;
  rg_members : list string;
}.

Definition reserved (groups : list Group) : list roleGroup :=
  omap (λ g, r ← roleOfGroup (g_Name g); Some (mkRoleGroup (g_ID g) r [])) groups.

(** The members of every reserved group, less those who left. *)
Fixpoint read_members (members : list string) (gs : list roleGroup) : E (list roleGroup) :=
  match gs with
  | [] => mret (Ok [])
  | g :: gs =>
      pbind_ok (try "list role members" (perform (ListGroupMembers (rg_id g)))) (λ ms,
      pbind_ok (read_members members gs) (λ gs,
      mret (Ok (mkRoleGroup (rg_id g) (rg_role g) (filter (λ m, m ∈ members) ms) :: gs))))
  end.

Definition read : E (list string * list roleGroup) :=
  pbind_ok (try "list groups" (perform ListGroups)) (λ groups,
  pbind_ok (try "list organization members" (perform ListMembers)) (λ members,
  pbind_ok (read_members members (reserved groups)) (λ gs,
  mret (Ok (members, gs))))).

(** One member of one group: [held] keeps the rank, [byUser] the role. *)
Definition hold (role : string) (acc : gmap string Z * gmap string string) (m : string)
    : gmap string Z * gmap string string :=
  let better := match acc.1 !! m with None => true | Some r => rank role <? r end in
  if better then (<[m := rank role]> acc.1, <[m := role]> acc.2) else acc.

Definition rolesByUser (members : list string) (gs : list roleGroup) (unassigned : string)
    : gmap string string :=
  let byUser := foldl (λ acc m, <[m := unassigned]> acc) ∅ members in
  (foldl (λ acc g, foldl (hold (rg_role g)) acc (rg_members g)) (∅, byUser) gs).2.

Definition List_ (viewer : bool) : E (list string * gmap string string) :=
  pbind_ok read (λ r, mret (Ok (r.1, rolesByUser r.1 r.2 (Unassigned viewer)))).

Definition Members (viewer : bool) : E (gmap string string) :=
  pbind_ok (List_ viewer) (λ r, mret (Ok r.2)).

Definition countRole (byUser : gmap string string) (role : string) : nat :=
  countP (λ r, bool_decide (r = role)) byUser.

Record Audit := mkAudit {
  au_Members : Z;
  MissingRoles : list string;
  DuplicateRoles : list string;
  Admins : Z;
  au_Unassigned : list string;
}.

Definition audit (members : list string) (gs : list roleGroup) : Audit :=
  let groupsOf r := length (filter (λ g, rg_role g = r) gs) in
  let admins : gset string :=
    list_to_set (concat (map rg_members (filter (λ g, rg_role g = Admin) gs))) in
  mkAudit (Z.of_nat (length members))
    (map fst (filter (λ d : string * string, groupsOf d.1 = 0%nat) All))
    (map fst (filter (λ d : string * string, (1 < groupsOf d.1)%nat) All))
    (Z.of_nat (size admins))
    (filter (λ m, m ∉ concat (map rg_members gs)) members).

Definition Audit_ : E Audit := pbind_ok read (λ r, mret (Ok (audit r.1 r.2))).

Definition IsAdmin (userID : string) : E bool :=
  if bool_decide (userID = "") then mret (Ok false)
  else
    r ← perform (ListMemberGroups userID);
    mret (match r with
          | Err e => if user_not_found e then Ok false else Err (Wrapf "list member groups" e)
          | Ok groups =>
              Ok (existsb (λ g, bool_decide (roleOfGroup (g_Name g) = Some Admin) &&
                                (Count "/"%char (g_Path g) <=? 1)) groups)
          end).

Definition findRoleGroup (gs : list roleGroup) (role : string) : option string :=
  match list_find (λ g, rg_role g = role) gs with Some (_, g) => Some (rg_id g) | None => None end.

Definition groupFor (gs : list roleGroup) (role : string) : E string :=
  match findRoleGroup gs role with
  | Some id => mret (Ok id)
  | None =>
      created ← perform (CreateGroup (groupName role));
      match created with
      | Ok id => mret (Ok id)
      | Err e =>
          if negb (already_exists e) then mret (Err (Wrapf ("create role " +:+ role) e))
          else
            pbind_ok (try "list groups" (perform ListGroups)) (λ current,
            mret (match findRoleGroup (reserved current) role with
                  | Some id => Ok id
                  | None => Err (Wrapf ("create role " +:+ role) e)
                  end))
      end
  end.

Record Caller := mkCaller {
  UserID : string;
  OrganizationKey : bool;
}.

(** Leave the groups of every other role. *)
Fixpoint leave_others (role userID : string) (gs : list roleGroup) : E unit :=
  match gs with
  | [] => mret (Ok tt)
  | g :: gs =>
      if bool_decide (rg_role g = role) then leave_others role userID gs
      else pbind_ok (try_ ("clear role " +:+ rg_role g) (perform (RemoveGroupMember (rg_id g) userID)))
             (λ _, leave_others role userID gs)
  end.

Definition keepAnAdmin (viewer : bool) (gs : list roleGroup) (userID demotedTo : string) : E unit :=
  pbind_ok (Members viewer) (λ after,
  if bool_decide (0 < countRole after Admin)%nat then mret (Ok tt)
  else
    pbind_ok (groupFor gs Admin) (λ admin,
    pbind_ok (try_ "restore role admin" (perform (AddGroupMember admin userID))) (λ _,
    pbind_ok (try_ "undo role change" (perform (RemoveGroupMember demotedTo userID))) (λ _,
    mret (Err ErrLastAdmin))))).

(** The checks of [SetMember] on the roles read. *)
Definition authorize (viewer : bool) (current : gmap string string) (userID role : string)
    (caller : Caller) : option error :=
  if negb (OrganizationKey caller) && negb (bool_decide (current !! UserID caller = Some Admin))
  then Some ErrNotAdmin
  else if bool_decide (current !! userID = None) then Some (ErrUserNotOrganizationMember userID)
  else if negb (Grantable viewer role) then Some (ErrRoleNotGrantable role)
  else if negb (bool_decide (role = Admin)) && bool_decide (current !! userID = Some Admin) &&
          bool_decide (countRole current Admin ≤ 1)%nat
  then Some ErrLastAdmin
  else None.

Definition SetMember (viewer : bool) (userID role : string) (caller : Caller) : E unit :=
  if negb (Valid role) then mret (Err (ErrUnknownRole role))
  else
    pbind_ok read (λ r,
    let current := rolesByUser r.1 r.2 (Unassigned viewer) in
    match authorize viewer current userID role caller with
    | Some e => mret (Err e)
    | None =>
        pbind_ok (groupFor r.2 role) (λ target,
        pbind_ok (try_ ("assign role " +:+ role) (perform (AddGroupMember target userID))) (λ _,
        pbind_ok (leave_others role userID r.2) (λ _,
        if bool_decide (role = Admin) || negb (bool_decide (current !! userID = Some Admin))
        then mret (Ok tt)
        else keepAnAdmin viewer r.2 userID target)))
    end).

Definition ensureGroups : E (list (string * string)) :=
  pbind_ok (try "list groups" (perform ListGroups)) (λ groups,
  let gs := reserved groups in
  pbind_ok (groupFor gs Admin) (λ a,
  pbind_ok (groupFor gs Editor) (λ e,
  pbind_ok (groupFor gs Viewer) (λ v,
  mret (Ok [(Admin, a); (Editor, e); (Viewer, v)]))))).

Definition group_id (ids : list (string * string)) (role : string) : string :=
  match list_find (λ d, d.1 = role) ids with Some (_, d) => d.2 | None => "" end.

(** [errors.Join] of what the calls of a loop returned. *)
Definition join (es : list error) : res error unit :=
  match es with [] => Ok tt | _ => Err (Joined es) end.

Fixpoint each (p : string → E unit) (l : list string) : M (list error) :=
  match l with
  | [] => mret []
  | x :: l =>
      r ← p x;
      es ← each p l;
      mret (match r with Ok _ => es | Err e => e :: es end)
  end.

Definition AddAdmins (userIDs : list string) : E unit :=
  pbind_ok ensureGroups (λ ids,
  es ← each (λ id, try_ ("grant admin " +:+ id) (perform (AddGroupMember (group_id ids Admin) id)))
         (filter (λ id, id ≠ "") userIDs);
  mret (join es)).

Definition CheckOrganizationMemberRemovable (viewer : bool) (userID : string) : E unit :=
  pbind_ok (Members viewer) (λ current,
  mret (if bool_decide (current !! userID = Some Admin) &&
           bool_decide (countRole current Admin ≤ 1)%nat
        then Err ErrLastAdmin else Ok tt)).

Definition RemoveMemberFromAllRoles (userID : string) : E unit :=
  pbind_ok (try "list groups" (perform ListGroups)) (λ groups,
  es ← each (λ id, try_ "clear role" (perform (RemoveGroupMember id userID)))
         (map rg_id (reserved groups));
  mret (join es)).

(** ** invitations.go *)

Definition maxInvitationLength : Z := 255.

Definition is_space (c : ascii) : bool :=
  let v := byte_val c in ((9 <=? v) && (v <=? 13)) || (v =? 32).

Fixpoint trim_left (s : string) : string :=
  match s with
  | EmptyString => EmptyString
  | String c t => if is_space c then trim_left t else s
  end.

(** Drop the trailing spaces. *)
Fixpoint trim_right (s : string) : string :=
  match s with
  | EmptyString => EmptyString
  | String c t =>
      match trim_right t with
      | EmptyString => if is_space c then EmptyString else String c EmptyString
      | t => String c t
      end
  end.

Definition TrimSpace (s : string) : string := trim_right (trim_left s).

Definition NormalizeEmail (email : string) : string := ascii_to_lower (TrimSpace email).

Definition invitationEntry (email role : string) : string := email +:+ "=" +:+ role.

Definition parseInvitation (entry : string) : string * string * bool :=
  match cut_last "="%char entry with
  | None => ("", "", false)
  | Some (e, role) =>
      let email := NormalizeEmail e in
      (email, role, negb (bool_decide (email = "")) && Valid role)
  end.

Definition CheckInvitation (email role : string) (viewer : bool) : option error :=
  if negb (Valid role) then Some (ErrUnknownRole role)
  else if negb (Grantable viewer role) then Some (ErrRoleNotGrantable role)
  else if maxInvitationLength <? Z.of_nat (String.length (invitationEntry (NormalizeEmail email) role))
  then Some ErrEmailTooLong
  else None.

Definition forgetInvitation (entries : list string) (email : string) : list string :=
  filter (λ e, (parseInvitation e).1.1 ≠ email) entries.

Definition updateInvitations (update : list string → list string) : E unit :=
  pbind_ok ensureGroups (λ ids,
  try_ "update invitation roles" (perform (UpdateInvitedRoles (group_id ids Viewer) update))).

(** The change [SetInvitation] makes to the recorded entries. *)
Definition record_invitation (email role : string) (entries : list string) : list string :=
  forgetInvitation entries (NormalizeEmail email) ++ [invitationEntry (NormalizeEmail email) role].

Definition SetInvitation (viewer : bool) (email role : string) : E unit :=
  match CheckInvitation email role viewer with
  | Some e => mret (Err e)
  | None => updateInvitations (record_invitation email role)
  end.

Definition ClearInvitation (email : string) : E unit :=
  updateInvitations (λ entries, forgetInvitation entries (NormalizeEmail email)).

(** The entries of one group as a map; a later entry wins. *)
Definition add_entry (byEmail : gmap string string) (entry : string) : gmap string string :=
  let '(email, role, ok) := parseInvitation entry in
  if ok : bool then <[email := role]> byEmail else byEmail.

Definition invitations_of (entries : list string) : gmap string string :=
  foldl add_entry ∅ entries.

Definition Invitations : E (gmap string string) :=
  pbind_ok (try "list groups" (perform ListGroups)) (λ groups,
  mret (Ok (match list_find (λ g, roleOfGroup (g_Name g) = Some Viewer) groups with
            | Some (_, g) => invitations_of (g_InvitedRoles g)
            | None => ∅
            end))).

(** ** Which role a member holds *)

Section RolesByUser.
Context (base : gmap string string).

(** The accumulator after the (role, member) pairs [P]. *)
Definition holds (P : list (string * string)) (acc : gmap string Z * gmap string string) : Prop :=
  ∀ u, if decide (u ∈ map snd P) then
         ∃ r, (r, u) ∈ P ∧ acc.1 !! u = Some (rank r) ∧ acc.2 !! u = Some r ∧
           ∀ r', (r', u) ∈ P → rank r ≤ rank r'
       else acc.1 !! u = None ∧ acc.2 !! u = base !! u.

Lemma holds_step P acc role m : holds P acc → holds (P ++ [(role, m)]) (hold role acc m).
Proof.
  intros HP u. specialize (HP u). rewrite map_app. simpl. unfold hold.
  destruct (decide (u = m)) as [->|Hne].
  - rewrite decide_True by set_solver. destruct (decide (m ∈ map snd P)) as [Hin|Hin].
    + destruct HP as (r & Hr & H1 & H2 & Hmin). rewrite H1.
      destruct (Z.ltb_spec (rank role) (rank r)); simpl.
      * exists role. rewrite !lookup_insert_eq. split_and!; [set_solver|done|done|].
        intros r' [Hr'|Hr'%list_elem_of_singleton]%elem_of_app; [|by simplify_eq].
        specialize (Hmin _ Hr'). lia.
      * exists r. split_and!; [set_solver|done|done|].
        intros r' [Hr'|Hr'%list_elem_of_singleton]%elem_of_app; [by apply Hmin|by simplify_eq].
    + destruct HP as [H1 H2]. rewrite H1. exists role. simpl. rewrite !lookup_insert_eq.
      split_and!; [set_solver|done|done|].
      intros r' [Hr'|Hr'%list_elem_of_singleton]%elem_of_app; [|by simplify_eq].
      destruct Hin. apply list_elem_of_fmap. by exists (r', m).
  - assert (Hacc : ∀ b : bool, (if b then (<[m:=rank role]> acc.1, <[m:=role]> acc.2) else acc).1 !! u
        = acc.1 !! u ∧
      (if b then (<[m:=rank role]> acc.1, <[m:=role]> acc.2) else acc).2 !! u = acc.2 !! u).
    { intros []; simpl; by rewrite ?lookup_insert_ne. }
    destruct (Hacc (match acc.1 !! m with Some r => rank role <? r | None => true end)) as [-> ->].
    destruct (decide (u ∈ map snd P)).
    + rewrite decide_True by set_solver. destruct HP as (r & Hr & H1 & H2 & Hmin).
      exists r. split_and!; [set_solver|done|done|].
      intros r' [Hr'|Hr'%list_elem_of_singleton]%elem_of_app; [by apply Hmin|by simplify_eq].
    + rewrite decide_False by set_solver. done.
Qed.

Lemma holds_group P acc role ms :
  holds P acc → holds (P ++ map (pair role) ms) (foldl (hold role) acc ms).
Proof.
  revert P acc. induction ms as [|m ms IH]; intros P acc HP; simpl; [by rewrite app_nil_r|].
  rewrite cons_middle, app_assoc. by apply IH, holds_step.
Qed.

Definition pairs (gs : list roleGroup) : list (string * string) :=
  concat (map (λ g, map (pair (rg_role g)) (rg_members g)) gs).

Lemma holds_groups P acc gs :
  holds P acc →
  holds (P ++ pairs gs) (foldl (λ acc g, foldl (hold (rg_role g)) acc (rg_members g)) acc gs).
Proof.
  revert P acc. unfold pairs. induction gs as [|g gs IH]; intros P acc HP; simpl.
  - by rewrite app_nil_r.
  - rewrite app_assoc. by apply IH, holds_group.
Qed.
End RolesByUser.

Lemma elem_of_pairs gs r u : (r, u) ∈ pairs gs ↔ ∃ g, g ∈ gs ∧ rg_role g = r ∧ u ∈ rg_members g.
Proof.
  unfold pairs. induction gs as [|g gs IH]; simpl; [set_solver|].
  rewrite elem_of_app, IH, list_elem_of_fmap. split.
  - intros [(m & [= -> ->] & Hm)|(g' & ? & ? & ?)]; [exists g|exists g']; set_solver.
  - intros (g' & [->|Hg']%elem_of_cons & <- & Hu); [left; eauto|right; eauto].
Qed.

Lemma unassigned_base (members : list string) un (m0 : gmap string string) u :
  foldl (λ acc m, <[m := un]> acc) m0 members !! u =
  if decide (u ∈ members) then Some un else m0 !! u.
Proof.
  revert m0. induction members as [|m ms IH]; intros m0; cbn [foldl].
  - by rewrite decide_False by set_solver.
  - rewrite IH. destruct (decide (u ∈ ms)); [by rewrite decide_True by set_solver|].
    lookup_case E; [by rewrite decide_True by set_solver|].
    by rewrite decide_False by set_solver.
Qed.

(** A member holds exactly one role: the most privileged of the reserved
    groups that list them, and the unassigned role when none does; nobody else
    holds any. *)
Theorem rolesByUser_most_privileged members gs un u :
  match rolesByUser members gs un !! u with
  | Some r =>
      (∃ g, g ∈ gs ∧ rg_role g = r ∧ u ∈ rg_members g ∧
         ∀ g', g' ∈ gs → u ∈ rg_members g' → rank r ≤ rank (rg_role g')) ∨
      ((∀ g, g ∈ gs → u ∉ rg_members g) ∧ u ∈ members ∧ r = un)
  | None => u ∉ members ∧ ∀ g, g ∈ gs → u ∉ rg_members g
  end.
Proof.
  set (base := foldl (λ acc m, <[m := un]> acc) (∅ : gmap string string) members).
  assert (H0 : holds base [] (∅, base)).
  { intros x. rewrite decide_False by set_solver. simpl. by rewrite lookup_empty. }
  pose proof (holds_groups base [] (∅, base) gs H0 u) as Hu. simpl app in Hu.
  unfold rolesByUser. fold base.
  assert (Hiff : u ∈ map snd (pairs gs) ↔ ∃ g, g ∈ gs ∧ u ∈ rg_members g).
  { rewrite list_elem_of_fmap. split.
    - intros ([r x] & -> & Hp). apply elem_of_pairs in Hp. naive_solver.
    - intros (g & Hg & Hm). exists (rg_role g, u). split; [done|]. apply elem_of_pairs. eauto. }
  destruct (decide (u ∈ map snd (pairs gs))) as [Hin|Hnin].
  - destruct Hu as (r & Hr & _ & -> & Hmin). left. apply elem_of_pairs in Hr as (g & Hg & Hrole & Hm).
    exists g. split_and!; try done. intros g' Hg' Hm'. apply Hmin, elem_of_pairs. eauto.
  - destruct Hu as [_ ->]. unfold base. rewrite unassigned_base.
    assert (Hno : ∀ g, g ∈ gs → u ∉ rg_members g) by (intros g Hg Hm; apply Hnin, Hiff; eauto).
    destruct (decide (u ∈ members)); [right; done|]. rewrite lookup_empty. done.
Qed.

(** ** Reads and writes *)

Definition is_write (c : call) : bool :=
  match c with
  | CreateGroup _ | AddGroupMember _ _ | RemoveGroupMember _ _ | UpdateInvitedRoles _ _ => true
  | _ => false
  end.

Lemma try_only {A} P msg (p : M (res kc_error A)) : only resp P p → only resp P (try msg p).
Proof. intros Hp. apply only_bind; [done|]. by intros [a|e]. Qed.

Lemma try__only P msg (p : M (option kc_error)) : only resp P p → only resp P (try_ msg p).
Proof. intros Hp. apply only_bind; [done|]. by intros [e|]. Qed.

Lemma read_only : only resp (λ c, negb (is_write c)) read.
Proof.
  unfold read. apply only_bind_ok; [by apply try_only, only_perform|]. intros groups.
  apply only_bind_ok; [by apply try_only, only_perform|]. intros members.
  apply only_bind_ok; [|done].
  induction (reserved groups) as [|g gs IH]; [done|]. cbn [read_members].
  apply only_bind_ok; [by apply try_only, only_perform|]. intros ms.
  apply only_bind_ok; [exact IH|done].
Qed.

(** Nothing is written unless the change is authorized on the roles read: an
    unknown role, a caller who is neither an Admin nor an organization key, a
    target outside the organization, a role that cannot be granted, or the
    demotion of the only Admin leave Keycloak untouched and return an error. *)
Theorem SetMember_writes_only_if_authorized viewer user role caller tr r
    (Hrun : runs resp (SetMember viewer user role caller) tr r) :
  (∃ tr1 tr2 members gs, tr = tr1 ++ tr2 ∧ runs resp read tr1 (Ok (members, gs)) ∧
     authorize viewer (rolesByUser members gs (Unassigned viewer)) user role caller = None) ∨
  ((∀ c x, ev c x ∈ tr → is_write c = false) ∧ ∃ e, r = Err e).
Proof.
  unfold SetMember in Hrun. destruct (Valid role); cond in Hrun.
  2: { destruct Hrun as [-> ->]. right. split; [by intros c x ?%elem_of_nil|eauto]. }
  assert (Hread : ∀ tr x, runs resp read tr x → ∀ c y, ev c y ∈ tr → is_write c = false).
  { intros t x Hx c y Hin. pose proof (only_runs _ _ _ _ _ _ read_only Hx Hin) as Hw.
    simpl in Hw. by destruct (is_write c). }
  apply runs_bind_ok in Hrun as [(tr1 & tr2 & [members gs] & -> & H1 & H2)|(e & H1 & ->)].
  2: { right. split; [by eapply Hread|eauto]. }
  cbn [fst snd] in H2. cbv zeta in H2. destruct (authorize _ _ _ _ _) as [e|] eqn:Ha.
  - destruct H2 as [-> ->]. rewrite app_nil_r. right. split; [by eapply Hread|eauto].
  - left. by exists tr1, tr2, members, gs.
Qed.

(** C24. Demoting an Admin leaves an Admin: a successful [SetMember] that takes
    Admin away from a member read more than one Admin before the change, and
    ends with a read that still shows one. *)
Theorem demotion_keeps_an_admin viewer user role caller tr
    (Hrun : runs resp (SetMember viewer user role caller) tr (Ok tt)) (Hrole : role ≠ Admin) :
  ∃ tr1 tr2 members gs, tr = tr1 ++ tr2 ∧ runs resp read tr1 (Ok (members, gs)) ∧
    let current := rolesByUser members gs (Unassigned viewer) in
    (current !! user = Some Admin →
     (1 < countRole current Admin)%nat ∧
     ∃ tr3 tr4 after, tr2 = tr3 ++ tr4 ∧ runs resp (Members viewer) tr4 (Ok after) ∧
       (0 < countRole after Admin)%nat).
Proof.
  unfold SetMember in Hrun. destruct (Valid role); cond in Hrun; [|by destruct Hrun].
  apply runs_bind_ok in Hrun as [(tr1 & tr2 & [members gs] & -> & H1 & H2)|(e & H1 & [=])].
  exists tr1, tr2, members, gs. split_and!; [done|done|]. cbv zeta. intros Hadmin. cbn [fst snd] in H2.
  set (current := rolesByUser members gs (Unassigned viewer)) in *.
  unfold authorize in H2. rewrite Hadmin in H2.
  rewrite (bool_decide_false (role = Admin)), (bool_decide_true (Some Admin = Some Admin)) in H2 by done.
  destruct (negb (OrganizationKey caller) && _); [by destruct H2|].
  rewrite (bool_decide_false (Some Admin = None)) in H2 by done.
  destruct (Grantable viewer role); cond in H2; [|by destruct H2].
  case_bool_decide as Hcount; [by destruct H2|]. split; [lia|].
  apply runs_bind_ok in H2 as [(t3 & t4 & target & -> & _ & H2)|(e & _ & [=])].
  apply runs_bind_ok in H2 as [(t5 & t6 & [] & -> & _ & H2)|(e & _ & [=])].
  apply runs_bind_ok in H2 as [(t7 & t8 & [] & -> & _ & H2)|(e & _ & [=])].
  unfold keepAnAdmin in H2.
  apply runs_bind_ok in H2 as [(t9 & t10 & after & -> & Hafter & H2)|(e & _ & [=])].
  case_bool_decide as Hpos.
  - destruct H2 as [-> _]. exists (t3 ++ t5 ++ t7), t9, after.
    rewrite app_nil_r, <-!app_assoc. done.
  - exfalso.
    apply runs_bind_ok in H2 as [(? & ? & ? & -> & _ & H2)|(e & _ & [=])].
    apply runs_bind_ok in H2 as [(? & ? & ? & -> & _ & H2)|(e & _ & [=])].
    apply runs_bind_ok in H2 as [(? & ? & ? & -> & _ & H2)|(e & _ & [=])].
    by destruct H2.
Qed.

(** ** The order of the group changes *)

Inductive note :=
| NJoined (group user : string)
| NLeft (group user : string).

(** A join that Keycloak accepted; a leave that was asked for. *)
Definition note_of (e : event resp) : option note :=
  match e with
  | ev c r =>
      match c return resp c → option note with
      | AddGroupMember g u => λ r, match r with None => Some (NJoined g u) | _ => None end
      | RemoveGroupMember g u => λ _, Some (NLeft g u)
      | _ => λ _, None
      end r
  end.

Definition notes (tr : list (event resp)) : list note := omap note_of tr.

(** Every leave is of [user], after [user] joined a group. *)
Definition joined_first (user : string) (acc : list note) : Prop :=
  ∀ l1 g u l2, acc = l1 ++ NLeft g u :: l2 → u = user ∧ ∃ target, NJoined target user ∈ l1.

Definition has_joined (user : string) (acc : list note) : Prop := ∃ target, NJoined target user ∈ acc.

Lemma joined_first_snoc user acc v :
  (∀ g u, v = NLeft g u → u = user ∧ has_joined user acc) →
  joined_first user acc → joined_first user (acc ++ [v]).
Proof.
  intros Hv Hacc l1 g u l2 Heq. destruct l2 as [|x l2 _] using rev_ind.
  - apply app_inj_tail in Heq as [-> ->]. by eapply Hv.
  - rewrite app_comm_cons, app_assoc in Heq. apply app_inj_tail in Heq as [-> ->]. by eapply Hacc.
Qed.

Lemma has_joined_app user acc l : has_joined user acc → has_joined user (acc ++ l).
Proof. intros [t Ht]. exists t. set_solver. Qed.

Lemma groupFor_only gs role :
  only resp (λ c, match c with AddGroupMember _ _ | RemoveGroupMember _ _ => false | _ => true end)
    (groupFor gs role).
Proof.
  unfold groupFor. destruct (findRoleGroup gs role); [done|].
  apply only_bind; [by apply only_perform|]. intros [id|e]; [done|].
  destruct (already_exists e); cond; [|done].
  apply only_bind_ok; [by apply try_only, only_perform|].
  intros cur. by destruct (findRoleGroup _ _).
Qed.

Lemma wp_groupFor gs role acc (Q : list note → res error string → Prop) :
  (∀ r, Q acc r) → wp resp note_of (groupFor gs role) acc Q.
Proof. intros HQ. eapply wp_only; [apply groupFor_only| |done]. by intros []. Qed.

Lemma wp_read acc (Q : list note → res error (list string * list roleGroup) → Prop) :
  (∀ r, Q acc r) → wp resp note_of read acc Q.
Proof. intros HQ. eapply wp_only; [apply read_only| |done]. by intros []. Qed.

Lemma wp_leave user acc role (gs : list roleGroup) :
  joined_first user acc → has_joined user acc →
  wp resp note_of (leave_others role user gs) acc
    (λ l _, joined_first user l ∧ has_joined user l).
Proof.
  revert acc. induction gs as [|g gs IH]; intros acc Hj Hh; cbn [leave_others]; [done|].
  case_bool_decide; [by apply IH|]. apply wp_bind, wp_bind. intros r. cbn [note_of].
  assert (Hj' : joined_first user (acc ++ [NLeft (rg_id g) user])).
  { apply joined_first_snoc; [|done]. by intros ? ? [= <- <-]. }
  destruct r as [e|]; [split; [done|by apply has_joined_app]|].
  apply IH; [done|by apply has_joined_app].
Qed.

Lemma wp_keepAnAdmin viewer gs user demoted acc :
  joined_first user acc → has_joined user acc →
  wp resp note_of (keepAnAdmin viewer gs user demoted) acc (λ l _, joined_first user l).
Proof.
  intros Hj Hh. unfold keepAnAdmin, Members, List_.
  apply wp_bind, wp_bind, wp_bind, wp_read. intros [[ms gs']|e]; [|done].
  cbn [pbind prog_bind mbind mret prog_ret wp fst snd].
  case_bool_decide; [done|]. apply wp_bind, wp_groupFor. intros [admin|e]; [|done].
  apply wp_bind, wp_bind. intros [e|]; cbn [note_of]; [done|].
  apply wp_bind, wp_bind. intros r. cbn [note_of].
  assert (Hj' : joined_first user ((acc ++ [NJoined admin user]) ++ [NLeft demoted user])).
  { apply joined_first_snoc; [intros ? ? [= <- <-]; split; [done|by apply has_joined_app]|].
    apply joined_first_snoc; [by intros ? ? [=]|done]. }
  by destruct r.
Qed.

(** Join first: whatever fails on the way, [SetMember] only ever takes the
    member itself out of groups, and only after Keycloak has added them to the
    group of the new role, so a change that stops half-way leaves the member
    with too much rather than nothing. *)
Theorem SetMember_joins_before_leaving viewer user role caller tr r l1 g u l2
    (Hrun : runs resp (SetMember viewer user role caller) tr r)
    (Hleft : notes tr = l1 ++ NLeft g u :: l2) :
  u = user ∧ ∃ target, NJoined target user ∈ l1.
Proof.
  assert (Hwp : wp resp note_of (SetMember viewer user role caller) [] (λ l _, joined_first user l)).
  { assert (Hnil : joined_first user []) by (intros [|? ?] ? ? ? [=]).
    unfold SetMember. destruct (Valid role); cond; [|done].
    apply wp_bind, wp_read. intros [[ms gs]|e]; [|done]. cbv zeta.
    destruct (authorize _ _ _ _ _); [done|].
    apply wp_bind, wp_groupFor. intros [target|e]; [|done].
    apply wp_bind, wp_bind. intros [e|]; cbn [note_of]; [done|]. simpl app.
    assert (Hj : joined_first user [NJoined target user]).
    { apply (joined_first_snoc user []); [by intros ? ? [=]|done]. }
    assert (Hh : has_joined user [NJoined target user]) by (exists target; by left).
    apply wp_bind. eapply wp_mono; [|by apply wp_leave].
    intros l [[]|e] [Hj' Hh']; [|done].
    destruct (_ || _); [done|]. by apply wp_keepAnAdmin. }
  exact (wp_sound _ _ [] _ _ _ Hwp Hrun l1 g u l2 Hleft).
Qed.

(** ** Invitations *)

Lemma to_lower_byte_val c :
  byte_val (to_lower_byte c) = if is_upper c then byte_val c + 32 else byte_val c.
Proof.
  unfold to_lower_byte. destruct (is_upper c) eqn:Hu; [|done].
  unfold is_upper, byte_val in *. rewrite N_ascii_embedding; lia.
Qed.

Lemma is_space_lower c : is_space (to_lower_byte c) = is_space c.
Proof.
  unfold is_space. rewrite to_lower_byte_val. destruct (is_upper c) eqn:Hu; [|done].
  unfold is_upper in Hu. lia.
Qed.

Lemma to_lower_byte_idem c : to_lower_byte (to_lower_byte c) = to_lower_byte c.
Proof.
  unfold to_lower_byte at 1. destruct (is_upper (to_lower_byte c)) eqn:Hu; [|done].
  exfalso. unfold is_upper in Hu. rewrite to_lower_byte_val in Hu.
  destruct (is_upper c) eqn:Hc; unfold is_upper in Hc; lia.
Qed.

Lemma ascii_to_lower_idem s : ascii_to_lower (ascii_to_lower s) = ascii_to_lower s.
Proof. induction s as [|c s IH]; simpl; [done|]. by rewrite to_lower_byte_idem, IH. Qed.

Lemma trim_left_lower s : trim_left (ascii_to_lower s) = ascii_to_lower (trim_left s).
Proof.
  induction s as [|c s IH]; simpl; [done|]. rewrite is_space_lower. by destruct (is_space c).
Qed.

Lemma trim_right_lower s : trim_right (ascii_to_lower s) = ascii_to_lower (trim_right s).
Proof.
  induction s as [|c s IH]; simpl; [done|]. rewrite IH, is_space_lower.
  destruct (trim_right s); simpl; [by destruct (is_space c)|done].
Qed.

Lemma trim_right_idem s : trim_right (trim_right s) = trim_right s.
Proof.
  induction s as [|c s IH]; simpl; [done|]. destruct (trim_right s) as [|c' t] eqn:E.
  - destruct (is_space c) eqn:Hc; simpl; [done|by rewrite Hc].
  - cbn [trim_right] in IH |- *. by rewrite IH.
Qed.

Lemma trim_left_idem s : trim_left (trim_left s) = trim_left s.
Proof.
  induction s as [|c s IH]; simpl; [done|]. destruct (is_space c) eqn:Hc; [done|]. simpl. by rewrite Hc.
Qed.

Lemma trim_left_right s : trim_left s = s → trim_left (trim_right s) = trim_right s.
Proof.
  destruct s as [|c s]; simpl; [done|]. destruct (is_space c) eqn:Hc.
  - intros Heq. exfalso. assert (Hlen : ∀ t, (String.length (trim_left t) ≤ String.length t)%nat).
    { induction t as [|x t IH]; simpl; [done|]. destruct (is_space x); simpl; lia. }
    specialize (Hlen s). rewrite Heq in Hlen. simpl in Hlen. lia.
  - intros _. destruct (trim_right s); simpl; by rewrite Hc.
Qed.

Lemma NormalizeEmail_idem e : NormalizeEmail (NormalizeEmail e) = NormalizeEmail e.
Proof.
  unfold NormalizeEmail, TrimSpace.
  rewrite trim_left_lower, trim_right_lower, ascii_to_lower_idem.
  rewrite (trim_left_right (trim_left e)) by apply trim_left_idem.
  by rewrite trim_right_idem.
Qed.

Lemma Valid_cases r : Valid r = true → r = Admin ∨ r = Editor ∨ r = Viewer.
Proof.
  unfold Valid, groupName. intros Hv.
  destruct (list_find (λ d, d.1 = r) All) as [[i d]|] eqn:Hf; [|done].
  apply list_find_Some in Hf as (Hi & <- & _). apply list_elem_of_lookup_2 in Hi.
  unfold All in Hi. rewrite !elem_of_cons in Hi.
  destruct Hi as [->|[->|[->|[]%elem_of_nil]]]; simpl; auto.
Qed.

Lemma parseInvitation_entry email role :
  Valid role = true →
  parseInvitation (invitationEntry (NormalizeEmail email) role) =
  (NormalizeEmail email, role, negb (bool_decide (NormalizeEmail email = ""))).
Proof.
  intros Hv. unfold parseInvitation, invitationEntry.
  change (NormalizeEmail email +:+ "=" +:+ role) with (NormalizeEmail email +:+ String "="%char role).
  rewrite cut_last_app; [|by destruct (Valid_cases _ Hv) as [->|[->| ->]]].
  by rewrite NormalizeEmail_idem, Hv, andb_true_r.
Qed.

(** Entries of an address do not matter to another. *)
Lemma invitations_of_forget email e m m' l :
  e ≠ email → m !! e = m' !! e →
  foldl add_entry m (forgetInvitation l email) !! e =
  foldl add_entry m' l !! e.
Proof.
  intros Hne. revert m m'. induction l as [|x l IH]; intros m m' Hm; [done|].
  unfold forgetInvitation in *. rewrite filter_cons. cbn [foldl].
  unfold add_entry at 3. destruct (parseInvitation x) as [[em r] ok] eqn:Hx. cbn [fst].
  destruct (decide (em ≠ email)) as [Hem|Hem].
  - cbn [foldl]. unfold add_entry at 2. rewrite Hx. apply IH. destruct ok; [|done].
    destruct (decide (em = e)) as [->|]; [by rewrite !lookup_insert_eq|by rewrite !lookup_insert_ne].
  - apply IH. apply dec_stable in Hem as ->. destruct ok; [|done].
    by rewrite lookup_insert_ne.
Qed.

(** Invitations round trip: after [SetInvitation] recorded a role for an
    address the list of invitations gives the address that role, whatever was
    recorded before and however the address was spelled, and every other
    address keeps what it had; forgetting an address removes exactly it. *)
Theorem invitation_roundtrip viewer email role entries other
    (Hok : CheckInvitation email role viewer = None) (Haddr : NormalizeEmail email ≠ "")
    (Hother : other ≠ NormalizeEmail email) :
  invitations_of (record_invitation email role entries) !! NormalizeEmail email = Some role ∧
  invitations_of (record_invitation email role entries) !! other = invitations_of entries !! other ∧
  invitations_of (forgetInvitation entries (NormalizeEmail email)) !! NormalizeEmail email = None ∧
  invitations_of (forgetInvitation entries (NormalizeEmail email)) !! other =
    invitations_of entries !! other.
Proof.
  assert (Hv : Valid role = true).
  { unfold CheckInvitation in Hok. by destruct (Valid role). }
  assert (Hne : negb (bool_decide (NormalizeEmail email = "")) = true) by by rewrite bool_decide_false.
  assert (Hforget : invitations_of (forgetInvitation entries (NormalizeEmail email)) !! other =
    invitations_of entries !! other) by by apply invitations_of_forget.
  unfold record_invitation, invitations_of in *. rewrite !foldl_app. cbn [foldl].
  unfold add_entry at 1 3. rewrite parseInvitation_entry, Hne by done. split_and!.
  - by rewrite lookup_insert_eq.
  - by rewrite lookup_insert_ne.
  - clear Hother Hforget. set (m := ∅). assert (Hm : m !! NormalizeEmail email = None) by done.
    clearbody m. revert m Hm. induction entries as [|x l IH]; intros m Hm; [done|].
    unfold forgetInvitation in *. rewrite filter_cons.
    destruct (decide _) as [Hx|]; [|by apply IH]. cbn [foldl].
    apply IH. unfold add_entry. destruct (parseInvitation x) as [[em r] ok]. cbn [fst] in Hx.
    destruct ok; [by rewrite lookup_insert_ne|done].
  - done.
Qed.

Module Witness.
Definition g_admin : Group := mkGroup "ga" "Admin" "/Admin" [].
Definition g_viewer : Group := mkGroup "gv" "viewer" "/viewer" [].

(** Two Admins, u1 and u2; the Viewer group exists, the Editor group does not. *)
Definition world : env resp unit := λ w c,
  (w, match c return resp c with
      | ListGroups | ListMemberGroups _ => Ok [g_admin; g_viewer]
      | ListMembers => Ok ["u1"; "u2"; "u3"]
      | ListGroupMembers g => Ok (if bool_decide (g = "ga") then ["u1"; "u2"; "gone"] else [])
      | CreateGroup _ => Ok "new"
      | AddGroupMember _ _ | RemoveGroupMember _ _ | UpdateInvitedRoles _ _ => None
      end).

Definition by_u1 : Caller := mkCaller "u1" false.
Definition demote := exec resp world tt (SetMember true "u2" Viewer by_u1).

Lemma demote_runs : runs resp (SetMember true "u2" Viewer by_u1) demote.1.1 demote.2.
Proof. exact (exec_runs world tt _). Qed.

Lemma SetMember_writes_only_if_authorized_witness :
  (∃ tr1 tr2 members gs, demote.1.1 = tr1 ++ tr2 ∧ runs resp read tr1 (Ok (members, gs)) ∧
     authorize true (rolesByUser members gs (Unassigned true)) "u2" Viewer by_u1 = None) ∨
  ((∀ c x, ev c x ∈ demote.1.1 → is_write c = false) ∧ ∃ e, demote.2 = Err e).
Proof.
  exact (SetMember_writes_only_if_authorized true "u2" Viewer by_u1 _ _ demote_runs).
Defined.

Lemma demotion_keeps_an_admin_witness :
  ∃ tr1 tr2 members gs, demote.1.1 = tr1 ++ tr2 ∧ runs resp read tr1 (Ok (members, gs)) ∧
    let current := rolesByUser members gs (Unassigned true) in
    (current !! "u2" = Some Admin →
     (1 < countRole current Admin)%nat ∧
     ∃ tr3 tr4 after, tr2 = tr3 ++ tr4 ∧ runs resp (Members true) tr4 (Ok after) ∧
       (0 < countRole after Admin)%nat).
Proof.
  assert (Hok : demote.2 = Ok tt) by (vm_compute; reflexivity).
  pose proof demote_runs as Hr. rewrite Hok in Hr.
  exact (demotion_keeps_an_admin true "u2" Viewer by_u1 _ Hr ltac:(discriminate)).
Defined.

Lemma SetMember_joins_before_leaving_witness :
  "u2" = "u2" ∧ ∃ target, NJoined target "u2" ∈ [NJoined "gv" "u2"].
Proof.
  exact (SetMember_joins_before_leaving true "u2" Viewer by_u1 _ _ [NJoined "gv" "u2"] "ga" "u2" []
    demote_runs ltac:(vm_compute; reflexivity)).
Defined.

Lemma invitation_roundtrip_witness :
  invitations_of (record_invitation " Ann@Example.com" Viewer ["bob@x.io=admin"]) !!
    "ann@example.com" = Some Viewer.
Proof.
  destruct (invitation_roundtrip true " Ann@Example.com" Viewer ["bob@x.io=admin"] "bob@x.io"
    ltac:(vm_compute; reflexivity) ltac:(vm_compute; discriminate) ltac:(vm_compute; discriminate))
    as [H _].
  exact H.
Defined.
End Witness.
