(* ===== verification/Limits.v ===== *)
(** * Organization and project limits

    [services/projects/rpc/limits.go] (the gRPC operations), the limit part of
    [services/projects/store/store.go] and [store/sqlstore/store_sql.go] (tier
    defaults, overrides and their SQL), and [ResolveOrgLimits] of
    [services/projects/provisioner/provisioner.go].  The operations are effect
    trees over the database; [sql] is the table their statements work on. *)

From S2P Require Import Prelude GoStrings.
From stdpp Require Import pretty.

#[local] Open Scope Z_scope.

(** ** Keys and tiers *)

#[global] Abbreviation LimitKey := string.

Definition LimitMaxDescriptionLength : LimitKey := "max_description_length".
Definition LimitMaxBranchesPerProject : LimitKey := "max_branches_per_project".
Definition LimitMaxInstancesPerBranch : LimitKey := "max_instances_per_branch".
Definition LimitMinInstancesPerBranch : LimitKey := "min_instances_per_branch".
Definition LimitMaxStorageGBPerBranch : LimitKey := "max_storage_gb_per_branch".
Definition LimitMaxAllowedInstanceType : LimitKey := "max_allowed_instance_type".
Definition LimitMaxBranchesPerHour : LimitKey := "max_branches_per_hour".
Definition LimitMaxBranchesPerOrg : LimitKey := "max_branches_per_org".
Definition LimitMaxProjects : LimitKey := "max_projects".
Definition LimitMaxProjectsPerHour : LimitKey := "max_projects_per_hour".

(** [LimitKey.IsValid] *)
Definition IsValid (k : LimitKey) : bool :=
  bool_decide (k ∈ [LimitMaxDescriptionLength; LimitMaxBranchesPerProject; LimitMaxBranchesPerOrg;
    LimitMaxInstancesPerBranch; LimitMinInstancesPerBranch; LimitMaxStorageGBPerBranch;
    LimitMaxAllowedInstanceType; LimitMaxBranchesPerHour; LimitMaxProjects; LimitMaxProjectsPerHour]).

Inductive UsageTier := TierT1 | TierT2.

#[global] Instance UsageTier_eq_dec : EqDecision UsageTier.
Proof. solve_decision. Defined.

Definition DefaultMaxDescriptionLength : Z := 255.
Definition XatastorMaxBranchesPerOrg : Z := 10000.
Definition XatastorMaxBranchesPerProject : Z := 1000.
Definition XatastorMaxBranchesPerHour : Z := 500.

Definition tierDefaults (tier : UsageTier) : gmap LimitKey Z :=
  match tier with
  | TierT1 => list_to_map [
      (LimitMaxDescriptionLength, DefaultMaxDescriptionLength);
      (LimitMaxBranchesPerProject, 200);
      (LimitMaxBranchesPerOrg, 200);
      (LimitMaxInstancesPerBranch, 5);
      (LimitMinInstancesPerBranch, 1);
      (LimitMaxBranchesPerHour, 100);
      (LimitMaxProjects, 10);
      (LimitMaxProjectsPerHour, 5);
      (LimitMaxAllowedInstanceType, 2000);
      (LimitMaxStorageGBPerBranch, 250)]
  | TierT2 => list_to_map [
      (LimitMaxDescriptionLength, DefaultMaxDescriptionLength);
      (LimitMaxBranchesPerProject, 1000);
      (LimitMaxBranchesPerOrg, 1000);
      (LimitMaxInstancesPerBranch, 5);
      (LimitMinInstancesPerBranch, 1);
      (LimitMaxBranchesPerHour, 100);
      (LimitMaxProjects, 100);
      (LimitMaxProjectsPerHour, 20);
      (LimitMaxAllowedInstanceType, 32000);
      (LimitMaxStorageGBPerBranch, 5000)]
  end.

(** Anything unknown is [TierT1]. *)
Definition ParseUsageTier (s : string) : UsageTier * bool :=
  if bool_decide (s = "t1") then (TierT1, true)
  else if bool_decide (s = "t2") then (TierT2, true)
  else (TierT1, false).

Definition TierDefaultInt (tier : UsageTier) (key : LimitKey) (fallback : Z) : Z :=
  default fallback (tierDefaults tier !! key).

(** ** Override values *)

(** A decoded override: a [json.Number] with its text, one of Go's integers,
    or anything else. *)
Inductive any :=
| Number (text : string)
| Int64 (n : Z)
| Int (n : Z)
| OtherValue.

#[global] Abbreviation overrides := (gmap LimitKey any).

(** An override that is not a number of type [json.Number] in range is not
    used. *)
Definition ResolveIntLimit (m : overrides) (key : LimitKey) (def : Z) : Z :=
  match m !! key with
  | None => def
  | Some (Number text) => default def (ParseInt10 text)
  | Some _ => def
  end.

Definition limitToInt64 (v : any) : option Z :=
  match v with
  | Number text => ParseInt10 text
  | Int64 n | Int n => Some n
  | OtherValue => None
  end.

(** ** The [Limits] message *)

Record Limits := mkLimits {
  MaxDescriptionLength : option Z;
  MaxBranchesPerProject : option Z;
  MaxInstancesPerBranch : option Z;
  MinInstancesPerBranch : option Z;
  MaxStorageGbPerBranch : option Z;
  MaxAllowedInstanceType : option Z;
  MaxBranchesPerHour : option Z;
  MaxBranchesPerOrg : option Z;
  MaxProjects : option Z;
  MaxProjectsPerHour : option Z;
}.

Definition no_limits : Limits := mkLimits None None None None None None None None None None.

Record limitField := mkField {
  lf_key : LimitKey;
  lf_get : Limits → option Z;
  lf_set : Limits → Z → Limits;
}.

Definition limitFields : list limitField := [
  mkField LimitMaxDescriptionLength MaxDescriptionLength
    (λ '(mkLimits a b c d e f g h i j) v, mkLimits (Some v) b c d e f g h i j);
  mkField LimitMaxBranchesPerProject MaxBranchesPerProject
    (λ '(mkLimits a b c d e f g h i j) v, mkLimits a (Some v) c d e f g h i j);
  mkField LimitMaxInstancesPerBranch MaxInstancesPerBranch
    (λ '(mkLimits a b c d e f g h i j) v, mkLimits a b (Some v) d e f g h i j);
  mkField LimitMinInstancesPerBranch MinInstancesPerBranch
    (λ '(mkLimits a b c d e f g h i j) v, mkLimits a b c (Some v) e f g h i j);
  mkField LimitMaxStorageGBPerBranch MaxStorageGbPerBranch
    (λ '(mkLimits a b c d e f g h i j) v, mkLimits a b c d (Some v) f g h i j);
  mkField LimitMaxAllowedInstanceType MaxAllowedInstanceType
    (λ '(mkLimits a b c d e f g h i j) v, mkLimits a b c d e (Some v) g h i j);
  mkField LimitMaxBranchesPerHour MaxBranchesPerHour
    (λ '(mkLimits a b c d e f g h i j) v, mkLimits a b c d e f (Some v) h i j);
  mkField LimitMaxBranchesPerOrg MaxBranchesPerOrg
    (λ '(mkLimits a b c d e f g h i j) v, mkLimits a b c d e f g (Some v) i j);
  mkField LimitMaxProjects MaxProjects
    (λ '(mkLimits a b c d e f g h i j) v, mkLimits a b c d e f g h (Some v) j);
  mkField LimitMaxProjectsPerHour MaxProjectsPerHour
    (λ '(mkLimits a b c d e f g h i j) v, mkLimits a b c d e f g h i (Some v))].

(** ** The database and the project lookup *)

(** A row of [organization_limits]: its project and the decoded JSON object,
    or the decoder's error. *)
Definition row : Type := string * res string overrides.

(** A query fails as a whole, or yields rows until one cannot be scanned or
    the iteration ends, possibly with an error. *)
Inductive query_end := RowsDone | ScanFailed (e : string) | RowsFailed (e : string).

Inductive project_error := ErrProjectNotFound | ProjectError (msg : string).

Inductive call :=
| QueryOrgLimits (org project : string)
| UpsertOrgLimit (org project : string) (key : LimitKey) (valueJSON : string)
| RemoveOrgLimit (org project : string) (key : LimitKey)
| GetProject (org project : string)
| CountActiveOrgProjects (org : string)
| CountProjectsCreatedInLastHour (org : string)
| CountActiveOrgBranches (org : string)
| CountBranchesCreatedInLastHour (org : string)
| CountActiveProjectBranches (project : string).

Definition resp (c : call) : Type :=
  match c with
  | QueryOrgLimits _ _ => res string (list row * query_end)
  | UpsertOrgLimit _ _ _ _ | RemoveOrgLimit _ _ _ => option string
  | GetProject _ _ => option project_error
  | _ => res string Z
  end.

Inductive Code := InvalidArgument | NotFound | Internal.

#[global] Instance Code_eq_dec : EqDecision Code.
Proof. solve_decision. Defined.

(** A gRPC status, the errors of a limit that is reached, or any other error. *)
Inductive error :=
| Status (c : Code) (msg : string)
| Errorf (msg : string)
| ErrOrgProjectLimitExceeded (org : string) (limit : Z)
| ErrProjectRateLimitExceeded (org : string) (limit : Z)
| ErrOrgBranchLimitExceeded (org : string) (limit : Z)
| ErrBranchRateLimitExceeded (org : string) (limit : Z)
| ErrTooManyBranches (project : string) (limit : Z).

#[global] Abbreviation E A := (prog resp (res error A)).
Definition ok {A} (a : A) : E A := mret (Ok a).
Definition fail {A} (e : error) : E A := mret (Err e).

(** [fmt.Errorf("msg: %w", err)] around an error of the store. *)
Definition wrap_error {A} (msg : string) (p : E A) : E A :=
  r ← p;
  match r with
  | Err (Errorf e) => fail (Errorf (msg +:+ ": " +:+ e))
  | r => mret r
  end.

#[local] Open Scope go_scope.

(** ** The store *)

(** The row of the organization and the row of the project; a row with the
    empty project is the organization's. *)
Fixpoint scan_rows (rows : list row) (last : query_end) (orgLimits projectLimits : overrides)
    : res error (overrides * overrides) :=
  match rows with
  | [] =>
      match last with
      | RowsDone => Ok (orgLimits, projectLimits)
      | ScanFailed e => Err (Errorf ("scan org limit: " +:+ e))
      | RowsFailed e => Err (Errorf ("iterate org limits: " +:+ e))
      end
  | (_, Err e) :: _ => Err (Errorf ("unmarshal org limits: " +:+ e))
  | (pid, Ok m) :: rows =>
      if bool_decide (pid = "") then scan_rows rows last m projectLimits
      else scan_rows rows last orgLimits m
  end.

Definition GetOrgLimits (orgID projectID : string) : E overrides :=
  r ← perform (QueryOrgLimits orgID projectID);
  match r with
  | Err e => fail (Errorf ("query org limits: " +:+ e))
  | Ok (rows, last) =>
      match scan_rows rows last ∅ ∅ with
      | Err e => fail e
      | Ok (orgLimits, projectLimits) => ok (projectLimits ∪ orgLimits)
      end
  end.

(** The value is an [int64] in every call; [json.Marshal] prints it in decimal. *)
Definition SetOrgLimit (orgID projectID : string) (key : LimitKey) (value : Z) : E unit :=
  if negb (IsValid key) then fail (Errorf ("unknown limit key " +:+ q key))
  else
    r ← perform (UpsertOrgLimit orgID projectID key (pretty value));
    match r with None => ok tt | Some e => fail (Errorf ("set org limit: " +:+ e)) end.

Definition DeleteOrgLimit (orgID projectID : string) (key : LimitKey) : E unit :=
  r ← perform (RemoveOrgLimit orgID projectID key);
  match r with None => ok tt | Some e => fail (Errorf ("delete org limit: " +:+ e)) end.

(** A limit that is checked against a count. *)
Definition check_limit (what : string) (count : prog resp (res string Z)) (limit : Z)
    (exceeded : error) : E unit :=
  r ← count;
  match r with
  | Err e => fail (Errorf (what +:+ ": " +:+ e))
  | Ok n => if limit <=? n then fail exceeded else ok tt
  end.

(** The store methods' own wrapping of a failed count is left out. *)
Definition enforceBranchCreationLimits (organizationID projectID : string)
    (maxPerOrg maxPerProject maxPerHour : Z) : E unit :=
  _ <-? check_limit "count active org branches" (perform (CountActiveOrgBranches organizationID))
          maxPerOrg (ErrOrgBranchLimitExceeded organizationID maxPerOrg);
  _ <-? check_limit "count branches created in last hour"
          (perform (CountBranchesCreatedInLastHour organizationID))
          maxPerHour (ErrBranchRateLimitExceeded organizationID maxPerHour);
  check_limit "count active project branches" (perform (CountActiveProjectBranches projectID))
    maxPerProject (ErrTooManyBranches projectID maxPerProject).

Definition enforceProjectCreationLimits (organizationID usageTier : string) : E unit :=
  let '(tier, _) := ParseUsageTier usageTier in
  m <-? (if bool_decide (tier = TierT1) then ok ∅
         else wrap_error "get org limits" (GetOrgLimits organizationID ""));
  let maxProjects := ResolveIntLimit m LimitMaxProjects (TierDefaultInt tier LimitMaxProjects 0) in
  _ <-? (if maxProjects =? 0 then ok tt
         else check_limit "count active org projects" (perform (CountActiveOrgProjects organizationID))
                maxProjects (ErrOrgProjectLimitExceeded organizationID maxProjects));
  let maxPerHour :=
    ResolveIntLimit m LimitMaxProjectsPerHour (TierDefaultInt tier LimitMaxProjectsPerHour 0) in
  if maxPerHour =? 0 then ok tt
  else check_limit "count projects created in last hour"
         (perform (CountProjectsCreatedInLastHour organizationID))
         maxPerHour (ErrProjectRateLimitExceeded organizationID maxPerHour).

(** The table, by organization and project, and what the three statements do
    to it; the rows of a query come in either order. *)
#[global] Abbreviation table := (gmap (string * string) overrides).

Definition upsert (org project : string) (key : LimitKey) (v : any) (t : table) : table :=
  <[(org, project) := <[key := v]> (default ∅ (t !! (org, project)))]> t.

Definition remove (org project : string) (key : LimitKey) (t : table) : table :=
  match t !! (org, project) with
  | None => t
  | Some m => <[(org, project) := delete key m]> t
  end.

Definition select (org project : string) (t : table) : list row :=
  let at_ p := match t !! (org, p) with Some m => [(p, Ok m)] | None => [] end in
  if bool_decide (project = "") then at_ "" else at_ "" ++ at_ project.

(** Statements that succeed, and projects that exist as [exists_] says. *)
Definition sql (exists_ : string → string → bool) (counts : call → Z) : env resp table := λ t c,
  match c as c' return table * resp c' with
  | QueryOrgLimits org p => (t, Ok (select org p t, RowsDone))
  | UpsertOrgLimit org p k json => (upsert org p k (Number json) t, None)
  | RemoveOrgLimit org p k => (remove org p k t, None)
  | GetProject org p => (t, if exists_ org p then None else Some ErrProjectNotFound)
  | CountActiveOrgProjects _ | CountProjectsCreatedInLastHour _ | CountActiveOrgBranches _
  | CountBranchesCreatedInLastHour _ | CountActiveProjectBranches _ => (t, Ok (counts c))
  end.

(** ** [rpc/limits.go] *)

Definition validateProject (orgID projectID : string) : E unit :=
  if bool_decide (projectID = "") then ok tt
  else
    r ← perform (GetProject orgID projectID);
    match r with
    | None => ok tt
    | Some ErrProjectNotFound => fail (Status NotFound ("project " +:+ q projectID +:+ " not found"))
    | Some (ProjectError e) => fail (Errorf ("get project: " +:+ e))
    end.

(** One step of the loop that converts overrides to the message; the value and
    its type are left out of the error's text. *)
Definition store_field (m : overrides) (r : res error Limits) (f : limitField) : res error Limits :=
  match r with
  | Err e => Err e
  | Ok limits =>
      match m !! lf_key f with
      | None => Ok limits
      | Some raw =>
          match limitToInt64 raw with
          | None => Err (Status Internal ("stored override " +:+ q (lf_key f) +:+ " has invalid value"))
          | Some v => Ok (lf_set f limits v)
          end
      end
  end.

Definition storedLimits (orgID projectID : string) : E Limits :=
  m <-? wrap_error "get limits" (GetOrgLimits orgID projectID);
  mret (foldl (store_field m) (Ok no_limits) limitFields).

Definition GetOrganizationLimits (orgID projectID : string) : E Limits :=
  if bool_decide (orgID = "") then fail (Status InvalidArgument "organization_id is required")
  else
    _ <-? validateProject orgID projectID;
    storedLimits orgID projectID.

Record SetRequest := mkSet {
  OrganizationId : string;
  ProjectId : string;
  ReqLimits : option Limits;
  Reset_ : list string;
}.

(** The keys to reset, all valid. *)
Fixpoint collect_reset (keys : list string) (resetKeys : gset LimitKey) : res error (gset LimitKey) :=
  match keys with
  | [] => Ok resetKeys
  | k :: keys =>
      if negb (IsValid k) then Err (Status InvalidArgument ("invalid reset key " +:+ q k))
      else collect_reset keys ({[k]} ∪ resetKeys)
  end.

(** The values to set, none of them to be reset too. *)
Fixpoint collect_updates (reqLimits : Limits) (resetKeys : gset LimitKey) (fields : list limitField)
    : res error (list (LimitKey * Z)) :=
  match fields with
  | [] => Ok []
  | f :: fields =>
      match lf_get f reqLimits with
      | None => collect_updates reqLimits resetKeys fields
      | Some v =>
          if bool_decide (lf_key f ∈ resetKeys)
          then Err (Status InvalidArgument ("limit " +:+ q (lf_key f) +:+ " is both set and reset"))
          else
            match collect_updates reqLimits resetKeys fields with
            | Ok us => Ok ((lf_key f, v) :: us)
            | Err e => Err e
            end
      end
  end.

Fixpoint each {A} (f : A → E unit) (l : list A) : E unit :=
  match l with
  | [] => ok tt
  | a :: l => _ <-? f a; each f l
  end.

Section Rpc.
Context `{MapRange}.

Definition SetOrganizationLimits (req : SetRequest) : E Limits :=
  let org := OrganizationId req in
  let project := ProjectId req in
  if bool_decide (org = "") then fail (Status InvalidArgument "organization_id is required")
  else
    match collect_reset (Reset_ req) ∅ with
    | Err e => fail e
    | Ok resetKeys =>
        _ <-? validateProject org project;
        let reqLimits := default no_limits (ReqLimits req) in
        match collect_updates reqLimits resetKeys limitFields with
        | Err e => fail e
        | Ok updates =>
            _ <-? each (λ '(k, v), wrap_error ("set limit " +:+ q k) (SetOrgLimit org project k v)) updates;
            _ <-? each (λ k, wrap_error ("reset limit " +:+ q k) (DeleteOrgLimit org project k))
                    (range_keys resetKeys);
            storedLimits org project
        end
    end.
End Rpc.

(** ** [provisioner.ResolveOrgLimits] *)

Record OrgLimits := mkOrgLimits {
  ol_MaxProjects : Z;
  ol_MaxProjectsPerHour : Z;
  ol_MaxBranchesPerProject : Z;
  ol_MaxBranchesPerOrg : Z;
  ol_MaxBranchesPerHour : Z;
  ol_MaxInstancesPerBranch : Z;
  ol_MinInstancesPerBranch : Z;
  ol_MaxDescriptionLength : Z;
  ol_MaxAllowedInstanceType : Z;
  ol_MaxStorageGBPerBranch : Z;
}.

(** The effective limits, from the overrides read. *)
Definition resolve_limits (tier : UsageTier) (useXatastor : bool) (m : overrides) : OrgLimits :=
  let def key := TierDefaultInt tier key 0 in
  let xatastor := useXatastor && negb (bool_decide (tier = TierT1)) in
  let resolve key fallback := ResolveIntLimit m key fallback in
  {| ol_MaxProjects := resolve LimitMaxProjects (def LimitMaxProjects);
     ol_MaxProjectsPerHour := resolve LimitMaxProjectsPerHour (def LimitMaxProjectsPerHour);
     ol_MaxBranchesPerProject := resolve LimitMaxBranchesPerProject
       (if xatastor then XatastorMaxBranchesPerProject else def LimitMaxBranchesPerProject);
     ol_MaxBranchesPerOrg := resolve LimitMaxBranchesPerOrg
       (if xatastor then XatastorMaxBranchesPerOrg else def LimitMaxBranchesPerOrg);
     ol_MaxBranchesPerHour := resolve LimitMaxBranchesPerHour
       (if xatastor then XatastorMaxBranchesPerHour else def LimitMaxBranchesPerHour);
     ol_MaxInstancesPerBranch := resolve LimitMaxInstancesPerBranch (def LimitMaxInstancesPerBranch);
     ol_MinInstancesPerBranch := resolve LimitMinInstancesPerBranch (def LimitMinInstancesPerBranch);
     ol_MaxDescriptionLength := resolve LimitMaxDescriptionLength (def LimitMaxDescriptionLength);
     ol_MaxAllowedInstanceType := resolve LimitMaxAllowedInstanceType (def LimitMaxAllowedInstanceType);
     ol_MaxStorageGBPerBranch := resolve LimitMaxStorageGBPerBranch (def LimitMaxStorageGBPerBranch) |}.

Definition ResolveOrgLimits (usageTier organizationID projectID : string) (useXatastor : bool)
    : E OrgLimits :=
  let '(tier, _) := ParseUsageTier usageTier in
  m <-? (if bool_decide (tier = TierT1) then ok ∅
         else wrap_error "get org limits" (GetOrgLimits organizationID projectID));
  ok (resolve_limits tier useXatastor m).

(** ** Overrides in force *)

(** The override stored at one level, and the one in force for a project. *)
Definition stored (t : table) (org project : string) (k : LimitKey) : option any :=
  t !! (org, project) ≫= (.!! k).

Definition in_force (t : table) (org project : string) (k : LimitKey) : option any :=
  match stored t org project k with Some v => Some v | None => stored t org "" k end.

(** The value a request sets for a key. *)
Definition requested (limits : Limits) (k : LimitKey) : option Z :=
  match filter (λ f, lf_key f = k) limitFields with
  | f :: _ => lf_get f limits
  | [] => None
  end.

(** ** Lemmas: the message *)

Lemma field_laws f g limits v :
  f ∈ limitFields → g ∈ limitFields →
  lf_get f (lf_set g limits v) =
  if decide (lf_key f = lf_key g) then Some v else lf_get f limits.
Proof.
  intros Hf Hg. destruct limits. unfold limitFields in *.
  repeat (apply elem_of_cons in Hf as [->|Hf]; [
    repeat (apply elem_of_cons in Hg as [->|Hg]; [reflexivity|]); by apply elem_of_nil in Hg|]).
  by apply elem_of_nil in Hf.
Qed.

Lemma field_keys_valid f : f ∈ limitFields → IsValid (lf_key f) = true.
Proof.
  intros Hf. unfold limitFields in Hf.
  repeat (apply elem_of_cons in Hf as [->|Hf]; [reflexivity|]). by apply elem_of_nil in Hf.
Qed.

Lemma field_of_key f : f ∈ limitFields → filter (λ g, lf_key g = lf_key f) limitFields = [f].
Proof.
  intros Hf. unfold limitFields in Hf.
  repeat (apply elem_of_cons in Hf as [->|Hf]; [reflexivity|]). by apply elem_of_nil in Hf.
Qed.

Lemma requested_field f limits : f ∈ limitFields → requested limits (lf_key f) = lf_get f limits.
Proof. intros Hf. unfold requested. by rewrite field_of_key. Qed.

Lemma no_limits_field f : f ∈ limitFields → lf_get f no_limits = None.
Proof.
  intros Hf. unfold limitFields in Hf.
  repeat (apply elem_of_cons in Hf as [->|Hf]; [reflexivity|]). by apply elem_of_nil in Hf.
Qed.

Lemma field_keys_NoDup : NoDup (map lf_key limitFields).
Proof. by apply (bool_decide_unpack _). Qed.

#[local] Opaque limitFields.

(** The conversion loop reads back every override that is an integer. *)
Lemma store_fields_spec (m : overrides) fields limits :
  fields ⊆ limitFields →
  (∀ f raw, f ∈ fields → m !! lf_key f = Some raw → is_Some (limitToInt64 raw)) →
  ∃ limits', foldl (store_field m) (Ok limits) fields = Ok limits' ∧
    ∀ f, f ∈ limitFields → lf_get f limits' =
      if decide (lf_key f ∈ map lf_key fields)
      then match m !! lf_key f with Some raw => limitToInt64 raw | None => lf_get f limits end
      else lf_get f limits.
Proof.
  revert limits. induction fields as [|g fields IH]; intros limits Hsub Hm.
  { exists limits. split; [done|]. intros f _. by rewrite decide_False by (by intros ?%elem_of_nil). }
  assert (Hg : g ∈ limitFields) by (apply Hsub; by left).
  cbn [foldl]. unfold store_field at 2. destruct (m !! lf_key g) as [raw|] eqn:Hraw.
  - destruct (Hm g raw) as [v Hv]; [by left|done|]. rewrite Hv.
    destruct (IH (lf_set g limits v)) as (limits' & Hfold & Hget);
      [set_solver|intros f r Hf; apply Hm; by right|].
    exists limits'. split; [done|]. intros f Hf. rewrite Hget, field_laws by done.
    destruct (decide (lf_key f = lf_key g)) as [Hk|Hk].
    + rewrite Hk, Hraw, Hv, (decide_True (P := lf_key g ∈ map lf_key (g :: fields)))
        by (simpl; by left). by case_decide.
    + apply decide_ext. cbn [map]. rewrite elem_of_cons. tauto.
  - destruct (IH limits) as (limits' & Hfold & Hget);
      [set_solver|intros f r Hf; apply Hm; by right|].
    exists limits'. split; [done|]. intros f Hf. rewrite Hget by done.
    destruct (decide (lf_key f = lf_key g)) as [Hk|Hk].
    + rewrite Hk, Hraw. by repeat case_decide.
    + apply decide_ext. cbn [map]. rewrite elem_of_cons. tauto.
Qed.

(** ** Lemmas: the table *)

Section Table.
Variable exists_ : string → string → bool.
Variable counts : call → Z.
#[local] Abbreviation db := (sql exists_ counts).

(** What a query sees of the table. *)
Definition visible (t : table) (org project : string) : overrides :=
  default ∅ (if bool_decide (project = "") then None else t !! (org, project)) ∪
  default ∅ (t !! (org, "")).

Lemma visible_in_force t org project k : visible t org project !! k = in_force t org project k.
Proof.
  unfold visible, in_force, stored. rewrite lookup_union.
  case_bool_decide as Hp; [subst project|];
    [|destruct (t !! (org, project)) as [m|]]; destruct (t !! (org, "")) as [m'|]; simpl;
    rewrite ?lookup_empty; repeat (destruct (_ !! k) as [?|]; simpl); done.
Qed.

Lemma final_GetOrgLimits t org project :
  final db t (GetOrgLimits org project) = (t, Ok (visible t org project)).
Proof.
  unfold final, visible. simpl. unfold select.
  case_bool_decide as Hp; [by destruct (t !! (org, ""))|].
  destruct (t !! (org, "")) as [m|], (t !! (org, project)) as [m'|]; simpl;
    by rewrite ?(bool_decide_false (project = "")) by done.
Qed.

Lemma final_wrap {A} msg (p : E A) t t' a :
  final db t p = (t', Ok a) → final db t (wrap_error msg p) = (t', Ok a).
Proof. intros Hp. unfold wrap_error. by rewrite (final_bind _ _ _ _ _ _ Hp). Qed.

Lemma final_validateProject t org project :
  (project = "" ∨ exists_ org project = true) → final db t (validateProject org project) = (t, Ok tt).
Proof.
  intros Hp. unfold validateProject. case_bool_decide; [done|].
  destruct Hp as [?|Hp]; [done|]. unfold final. simpl. by rewrite Hp.
Qed.

Lemma final_each {A} (f : A → E unit) (g : A → table → table) l t :
  (∀ a t, a ∈ l → final db t (f a) = (g a t, Ok tt)) →
  final db t (each f l) = (foldl (λ t a, g a t) t l, Ok tt).
Proof.
  revert t. induction l as [|a l IH]; intros t Hf; [done|]. cbn [each foldl].
  rewrite (final_bind_ok _ _ _ _ _ _ (Hf a t ltac:(by left))).
  apply IH. intros b t' Hb. apply Hf. by right.
Qed.

Lemma final_set org project k v t :
  IsValid k = true →
  final db t (wrap_error ("set limit " +:+ q k) (SetOrgLimit org project k v)) =
  (upsert org project k (Number (pretty v)) t, Ok tt).
Proof. intros Hk. apply final_wrap. unfold SetOrgLimit. by rewrite Hk. Qed.

Lemma final_reset org project k t :
  final db t (wrap_error ("reset limit " +:+ q k) (DeleteOrgLimit org project k)) =
  (remove org project k t, Ok tt).
Proof. by apply final_wrap. Qed.

Lemma final_storedLimits t org project :
  (∀ f raw, f ∈ limitFields → in_force t org project (lf_key f) = Some raw →
    is_Some (limitToInt64 raw)) →
  ∃ limits, final db t (storedLimits org project) = (t, Ok limits) ∧
    ∀ f, f ∈ limitFields → lf_get f limits = in_force t org project (lf_key f) ≫= limitToInt64.
Proof.
  intros Hraw. unfold storedLimits.
  rewrite (final_bind_ok _ _ _ _ _ _ (final_wrap "get limits" _ _ _ _ (final_GetOrgLimits t org project))).
  destruct (store_fields_spec (visible t org project) limitFields no_limits)
    as (limits & Hfold & Hget); [done|intros f raw; rewrite visible_in_force; apply Hraw|].
  exists limits. rewrite Hfold. split; [done|]. intros f Hf.
  rewrite Hget, visible_in_force by done. rewrite decide_True
    by (apply list_elem_of_fmap; by exists f).
  by destruct (in_force t org project (lf_key f)); [|rewrite no_limits_field].
Qed.

End Table.

(** *** Rows after writes *)

Lemma stored_upsert org project k v t o p k' :
  stored (upsert org project k v t) o p k' =
  if decide ((o, p) = (org, project) ∧ k' = k) then Some v else stored t o p k'.
Proof.
  unfold stored, upsert. destruct (decide ((o, p) = (org, project))) as [Heq|Hne].
  - rewrite Heq, lookup_insert_eq. simpl. destruct (decide (k' = k)) as [->|Hk].
    + by rewrite lookup_insert_eq, decide_True.
    + rewrite lookup_insert_ne by done. rewrite decide_False by tauto.
      by destruct (t !! (org, project)).
  - rewrite lookup_insert_ne by done. by rewrite decide_False by tauto.
Qed.

Lemma stored_remove org project k t o p k' :
  stored (remove org project k t) o p k' =
  if decide ((o, p) = (org, project) ∧ k' = k) then None else stored t o p k'.
Proof.
  unfold stored, remove. destruct (decide ((o, p) = (org, project))) as [Heq|Hne].
  - rewrite Heq. destruct (t !! (org, project)) as [m|] eqn:Hm.
    + rewrite lookup_insert_eq. simpl. destruct (decide (k' = k)) as [->|Hk].
      * by rewrite lookup_delete_eq, decide_True.
      * rewrite lookup_delete_ne by done. by rewrite decide_False by tauto.
    + rewrite Hm. simpl. by case_decide.
  - destruct (t !! (org, project)); rewrite ?lookup_insert_ne by done;
      by rewrite decide_False by tauto.
Qed.

Lemma stored_sets org project (us : list (LimitKey * Z)) t o p k :
  NoDup us.*1 →
  stored (foldl (λ t u, upsert org project u.1 (Number (pretty u.2)) t) t us) o p k =
  match (list_to_map us : gmap LimitKey Z) !! k with
  | Some v => if decide ((o, p) = (org, project)) then Some (Number (pretty v)) else stored t o p k
  | None => stored t o p k
  end.
Proof.
  revert t. induction us as [|[k' v] us IH]; intros t Hnd; [done|].
  apply NoDup_cons in Hnd as [Hk' Hnd]. cbn [foldl]. rewrite IH by done.
  rewrite stored_upsert. simpl. destruct (decide (k = k')) as [->|Hne].
  - rewrite lookup_insert_eq. rewrite not_elem_of_list_to_map_1 by done.
    destruct (decide ((o, p) = (org, project))); [by rewrite decide_True|].
    by rewrite decide_False by tauto.
  - rewrite lookup_insert_ne by done. by rewrite decide_False by tauto.
Qed.

Lemma stored_resets org project keys t o p k :
  stored (foldl (λ t k, remove org project k t) t keys) o p k =
  if decide ((o, p) = (org, project) ∧ k ∈ keys) then None else stored t o p k.
Proof.
  revert t. induction keys as [|k' keys IH]; intros t.
  { rewrite decide_False; [done|]. intros [_ ?%elem_of_nil]. done. }
  cbn [foldl]. rewrite IH, stored_remove. pose proof (elem_of_cons keys k k').
  repeat case_decide; tauto.
Qed.

(** *** The checks of a request *)

Lemma collect_reset_spec keys s :
  match collect_reset keys s with
  | Ok s' => Forall (λ k, IsValid k = true) keys ∧ s' = list_to_set keys ∪ s
  | Err _ => ¬ Forall (λ k, IsValid k = true) keys
  end.
Proof.
  revert s. induction keys as [|k keys IH]; intros s; simpl; [split; [done|set_solver]|].
  destruct (IsValid k) eqn:Hk; cond; [|by intros [? _]%Forall_cons; congruence].
  specialize (IH ({[k]} ∪ s)). destruct (collect_reset keys ({[k]} ∪ s)) as [s'|e].
  - destruct IH as [Hall ->]. split; [by constructor|set_solver].
  - by intros [_ ?]%Forall_cons.
Qed.

(** No requested field of [fields] is among the keys to reset. *)
Definition no_conflict (limits : Limits) (resetKeys : gset LimitKey) (fields : list limitField) : Prop :=
  ∀ f, f ∈ fields → is_Some (lf_get f limits) → lf_key f ∉ resetKeys.

Lemma collect_updates_spec limits s fields :
  match collect_updates limits s fields with
  | Ok us => no_conflict limits s fields ∧
      us = omap (λ f, v ← lf_get f limits; Some (lf_key f, v)) fields
  | Err _ => ¬ no_conflict limits s fields
  end.
Proof.
  induction fields as [|f fields IH]; simpl; [split; [by intros ? ?%elem_of_nil|done]|].
  destruct (lf_get f limits) as [v|] eqn:Hv; simpl.
  - case_bool_decide as Hs.
    { intros Hno. apply (Hno f); [by left|by rewrite Hv|done]. }
    destruct (collect_updates limits s fields) as [us|e].
    + destruct IH as [Hno ->]. split; [|done].
      intros g [->|Hg]%elem_of_cons Hsome; [done|by apply Hno].
    + intros Hno. apply IH. intros g Hg. apply Hno. by right.
  - destruct (collect_updates limits s fields) as [us|e].
    + destruct IH as [Hno ->]. split; [|done].
      intros g [->|Hg]%elem_of_cons Hsome; [rewrite Hv in Hsome; by destruct Hsome|by apply Hno].
    + intros Hno. apply IH. intros g Hg. apply Hno. by right.
Qed.

Definition updates_of (limits : Limits) (fields : list limitField) : list (LimitKey * Z) :=
  omap (λ f, v ← lf_get f limits; Some (lf_key f, v)) fields.

Lemma updates_of_keys limits fields : (updates_of limits fields).*1 ⊆ map lf_key fields.
Proof.
  intros k Hk. apply list_elem_of_fmap in Hk as ([k' v] & -> & Hin).
  apply list_elem_of_omap in Hin as (f & Hf & Hv).
  destruct (lf_get f limits); simplify_eq/=. apply list_elem_of_fmap. by exists f.
Qed.

Lemma updates_of_NoDup limits fields :
  NoDup (map lf_key fields) → NoDup (updates_of limits fields).*1.
Proof.
  induction fields as [|f fields IH]; [constructor|]. cbn [map]. intros [Hf Hnd]%NoDup_cons.
  unfold updates_of. simpl. destruct (lf_get f limits) as [v|]; simpl; [|by apply IH].
  constructor; [|by apply IH]. intros Hin. by apply Hf, (updates_of_keys limits).
Qed.

Lemma updates_of_lookup limits f :
  f ∈ limitFields →
  (list_to_map (updates_of limits limitFields) : gmap LimitKey Z) !! lf_key f = lf_get f limits.
Proof.
  intros Hf. pose proof (updates_of_NoDup limits _ field_keys_NoDup) as Hnd.
  destruct (lf_get f limits) as [v|] eqn:Hv.
  - apply elem_of_list_to_map_1; [done|]. apply list_elem_of_omap. exists f. by rewrite Hv.
  - apply not_elem_of_list_to_map_1. intros Hin. apply list_elem_of_fmap in Hin as ([k v] & Hk & Hin).
    apply list_elem_of_omap in Hin as (g & Hg & Hgv). simpl in Hk.
    destruct (lf_get g limits) as [w|] eqn:Hw; [|done]. simpl in Hgv. injection Hgv as Hkg _.
    pose proof (field_of_key f Hf) as H1. rewrite Hk, <-Hkg, (field_of_key g Hg) in H1.
    injection H1 as ->. congruence.
Qed.

Lemma updates_of_valid limits k v : (k, v) ∈ updates_of limits limitFields →
  IsValid k = true ∧ requested limits k = Some v.
Proof.
  intros (f & Hf & Hv)%list_elem_of_omap. destruct (lf_get f limits) as [w|] eqn:Hw; simplify_eq/=.
  split; [by apply field_keys_valid|]. by rewrite requested_field.
Qed.

(** ** Properties *)

Definition is_write (c : call) : bool :=
  match c with UpsertOrgLimit _ _ _ _ | RemoveOrgLimit _ _ _ => true | _ => false end.

(** The writes a request asks for. *)
Definition asked (req : SetRequest) (c : call) : bool :=
  match c with
  | UpsertOrgLimit o p k json =>
      bool_decide (o = OrganizationId req) && bool_decide (p = ProjectId req) &&
      match requested (default no_limits (ReqLimits req)) k with
      | Some v => bool_decide (json = pretty v)
      | None => false
      end
  | RemoveOrgLimit o p k =>
      bool_decide (o = OrganizationId req) && bool_decide (p = ProjectId req) &&
      bool_decide (k ∈ Reset_ req)
  | _ => true
  end.

Lemma only_wrap {A} P msg (p : E A) : only resp P p → only resp P (wrap_error msg p).
Proof. intros Hp. apply only_bind; [done|]. intros [a|[]]; done. Qed.

Lemma only_each {A} P (f : A → E unit) l :
  (∀ a, a ∈ l → only resp P (f a)) → only resp P (each f l).
Proof.
  induction l as [|a l IH]; intros Hf; [done|]. apply only_bind_ok; [apply Hf; by left|].
  intros _. apply IH. intros b Hb. apply Hf. by right.
Qed.

Lemma only_storedLimits P org project :
  P (QueryOrgLimits org project) = true → only resp P (storedLimits org project).
Proof.
  intros HP. apply only_bind_ok; [|done]. apply only_wrap, only_bind; [by apply only_perform|].
  intros [[rows last]|e]; [|done]. by destruct (scan_rows _ _ _ _) as [[? ?]|].
Qed.

(** The limit read for a key after a request, from the rows it leaves. *)
Lemma limit_after t t2 org project set_to (reset : list string) f :
  (∀ v, lf_get f set_to = Some v → min_int64 ≤ v ≤ max_int64) →
  (is_Some (lf_get f set_to) → lf_key f ∉ reset) →
  (∀ p, stored t2 org p (lf_key f) =
    if decide (p = project ∧ lf_key f ∈ reset) then None
    else match lf_get f set_to with
         | Some v => if decide (p = project) then Some (Number (pretty v)) else stored t org p (lf_key f)
         | None => stored t org p (lf_key f)
         end) →
  in_force t2 org project (lf_key f) ≫= limitToInt64 =
  match lf_get f set_to with
  | Some v => Some v
  | None =>
      if decide (lf_key f ∈ reset)
      then (if decide (project = "") then None else stored t org "" (lf_key f) ≫= limitToInt64)
      else in_force t org project (lf_key f) ≫= limitToInt64
  end.
Proof.
  intros Hint Hconf Hrow. unfold in_force at 1. rewrite !Hrow.
  destruct (lf_get f set_to) as [v|] eqn:Hv.
  - rewrite decide_False by (intros [_ Hr]; by apply Hconf; [eexists|]). rewrite decide_True by done.
    simpl. by rewrite ParseInt10_pretty by (by apply Hint).
  - destruct (decide (lf_key f ∈ reset)) as [Hr|Hr].
    + rewrite decide_True by done. destruct (decide (project = "")) as [->|Hp].
      * by rewrite decide_True by done.
      * by rewrite decide_False by (intros [? _]; by subst).
    + rewrite !decide_False by tauto. done.
Qed.

(** Requests only store integers. *)
Lemma raw_integer t t2 org project f raw :
  (∀ p raw, stored t org p (lf_key f) = Some raw → is_Some (limitToInt64 raw)) →
  in_force t2 org project (lf_key f) = Some raw →
  (∀ p, stored t2 org p (lf_key f) = None ∨ stored t2 org p (lf_key f) = stored t org p (lf_key f) ∨
    ∃ v, stored t2 org p (lf_key f) = Some (Number (pretty v)) ∧ min_int64 ≤ v ≤ max_int64) →
  is_Some (limitToInt64 raw).
Proof.
  intros Hold Hraw Hnew.
  assert (Hlevel : ∀ p r, stored t2 org p (lf_key f) = Some r → is_Some (limitToInt64 r)).
  { intros p r Hr. destruct (Hnew p) as [Hn|[Hs|(v & Hs & Hv)]].
    - congruence.
    - apply (Hold p). congruence.
    - rewrite Hs in Hr. injection Hr as <-. simpl. rewrite ParseInt10_pretty by done. done. }
  unfold in_force in Hraw. destruct (stored t2 org project (lf_key f)) eqn:Hp.
  - simplify_eq. by eapply Hlevel.
  - by eapply Hlevel.
Qed.

Section Properties.
Context `{MapRange}.

(** A request is checked as a whole before anything is written: a write
    happens only if the organization is named, every key to reset is valid, the
    project exists and no limit is both set and reset; and then it is one of
    the writes the request asks for. *)
Theorem limits_written_only_if_valid req tr r c x
    (Hrun : runs resp (SetOrganizationLimits req) tr r)
    (Hin : ev c x ∈ tr) (Hwrite : is_write c = true) :
  OrganizationId req ≠ "" ∧ Forall (λ k, IsValid k = true) (Reset_ req) ∧
  (ProjectId req = "" ∨ ev (GetProject (OrganizationId req) (ProjectId req)) None ∈ tr) ∧
  no_conflict (default no_limits (ReqLimits req)) (list_to_set (Reset_ req)) limitFields ∧
  asked req c = true.
Proof.
  unfold SetOrganizationLimits in Hrun.
  case_bool_decide as Horg; [destruct Hrun as [-> _]; by apply elem_of_nil in Hin|].
  pose proof (collect_reset_spec (Reset_ req) ∅) as Hreset.
  destruct (collect_reset (Reset_ req) ∅) as [s|e];
    [|destruct Hrun as [-> _]; by apply elem_of_nil in Hin].
  destruct Hreset as [Hvalid ->]. rewrite (right_id_L ∅ (∪)) in Hrun.
  set (lims := default no_limits (ReqLimits req)) in *. cbv zeta in Hrun.
  assert (Hproj : ∀ t y, runs resp (validateProject (OrganizationId req) (ProjectId req)) t y →
    ev c x ∉ t ∧ (y = Ok tt → ProjectId req = "" ∨
      ev (GetProject (OrganizationId req) (ProjectId req)) None ∈ t)).
  { intros t y Ht. unfold validateProject in Ht. case_bool_decide as Hp.
    { destruct Ht as [-> ->]. split; [apply not_elem_of_nil|by left]. }
    destruct Ht as (z & t' & -> & Ht). assert (t' = []) as -> by (by destruct z as [[|]|]; destruct Ht).
    split; [intros Heq%list_elem_of_singleton; inversion Heq; by subst|].
    intros ->. right. destruct z as [[|]|]; destruct Ht; [done..|by left]. }
  apply runs_bind_ok in Hrun as [(t1 & t2 & [] & -> & Ht1 & Hrun)|(e & Ht1 & _)];
    destruct (Hproj _ _ Ht1) as [Hno Hex]; [|done].
  apply elem_of_app in Hin as [Hin|Hin]; [done|].
  pose proof (collect_updates_spec lims (list_to_set (Reset_ req)) limitFields) as Hupd.
  destruct (collect_updates lims _ limitFields) as [us|e];
    [|destruct Hrun as [-> _]; by apply elem_of_nil in Hin].
  destruct Hupd as [Hconf ->]. do 2 (split; [done|]). split; [destruct (Hex eq_refl); set_solver|].
  split; [done|]. eapply (only_runs (asked req)); [|exact Hrun|exact Hin].
  apply only_bind_ok; [apply only_each; intros [k v] Hk; apply only_wrap|intros _].
  { destruct (updates_of_valid _ _ _ Hk) as [Hv Hreq]. unfold SetOrgLimit. rewrite Hv. cond.
    apply only_bind; [|by intros []]. apply only_perform. simpl. fold lims. rewrite Hreq.
    by rewrite !bool_decide_true. }
  apply only_bind_ok; [apply only_each; intros k Hk; apply only_wrap|intros _].
  { apply only_bind; [|by intros []]. apply only_perform. simpl.
    rewrite range_perm, elem_of_elements in Hk. by rewrite !bool_decide_true by set_solver. }
  by apply only_storedLimits.
Qed.

(** *** The effect of a valid request *)

Definition after_request (req : SetRequest) (t : table) : table :=
  let org := OrganizationId req in
  let project := ProjectId req in
  foldl (λ t k, remove org project k t)
    (foldl (λ t u, upsert org project u.1 (Number (pretty u.2)) t) t
       (updates_of (default no_limits (ReqLimits req)) limitFields))
    (range_keys (list_to_set (Reset_ req))).

Lemma stored_after_request req t o p f :
  f ∈ limitFields →
  stored (after_request req t) o p (lf_key f) =
  if decide ((o, p) = (OrganizationId req, ProjectId req) ∧ lf_key f ∈ Reset_ req) then None
  else match lf_get f (default no_limits (ReqLimits req)) with
       | Some v =>
           if decide ((o, p) = (OrganizationId req, ProjectId req)) then Some (Number (pretty v))
           else stored t o p (lf_key f)
       | None => stored t o p (lf_key f)
       end.
Proof.
  intros Hf. unfold after_request. rewrite stored_resets, stored_sets, updates_of_lookup
    by (done || apply updates_of_NoDup, field_keys_NoDup).
  apply decide_ext. by rewrite range_perm, elem_of_elements, elem_of_list_to_set.
Qed.

Lemma stored_after_other req t o p k :
  (o, p) ≠ (OrganizationId req, ProjectId req) →
  stored (after_request req t) o p k = stored t o p k.
Proof.
  intros Hne. unfold after_request. rewrite stored_resets, decide_False by tauto.
  rewrite stored_sets by (apply updates_of_NoDup, field_keys_NoDup).
  destruct (_ !! k); [by rewrite decide_False|done].
Qed.

(** A valid request runs all its writes and then reads. *)
Lemma final_valid_request exists_ counts t req :
  OrganizationId req ≠ "" → Forall (λ k, IsValid k = true) (Reset_ req) →
  (ProjectId req = "" ∨ exists_ (OrganizationId req) (ProjectId req) = true) →
  no_conflict (default no_limits (ReqLimits req)) (list_to_set (Reset_ req)) limitFields →
  final (sql exists_ counts) t (SetOrganizationLimits req) =
  final (sql exists_ counts) (after_request req t)
    (storedLimits (OrganizationId req) (ProjectId req)).
Proof.
  intros Horg Hreset Hproj Hconf. unfold SetOrganizationLimits. rewrite bool_decide_false by done.
  pose proof (collect_reset_spec (Reset_ req) ∅) as Hcr.
  destruct (collect_reset _ _) as [s|]; [|done]. destruct Hcr as [_ ->]. rewrite (right_id_L ∅ (∪)).
  rewrite (final_bind_ok _ _ _ _ _ _ (final_validateProject exists_ counts t _ _ Hproj)). cbv zeta.
  set (lims := default no_limits (ReqLimits req)) in *.
  pose proof (collect_updates_spec lims (list_to_set (Reset_ req)) limitFields) as Hcu.
  destruct (collect_updates _ _ _) as [us|]; [|done]. destruct Hcu as [_ ->].
  erewrite final_bind_ok.
  2: { apply (final_each _ _ _ (λ u t, upsert (OrganizationId req) (ProjectId req) u.1
         (Number (pretty u.2)) t)).
       intros [k v] t' Hk. apply final_set. by destruct (updates_of_valid _ _ _ Hk). }
  erewrite final_bind_ok.
  2: { apply (final_each _ _ _ (λ k t, remove (OrganizationId req) (ProjectId req) k t)).
       intros k t' _. apply final_reset. }
  done.
Qed.

(** A valid request takes effect: the answer, which is what a later read
    returns, shows the values that were set, falls back to the organization's
    override (for a project) or to nothing where a limit was reset, and leaves
    every other limit as it was; no other row changes. *)
Theorem SetOrganizationLimits_effect exists_ counts t req
    (Horg : OrganizationId req ≠ "")
    (Hreset : Forall (λ k, IsValid k = true) (Reset_ req))
    (Hproj : ProjectId req = "" ∨ exists_ (OrganizationId req) (ProjectId req) = true)
    (Hconf : no_conflict (default no_limits (ReqLimits req)) (list_to_set (Reset_ req)) limitFields)
    (Hint : ∀ f v, f ∈ limitFields → lf_get f (default no_limits (ReqLimits req)) = Some v →
      min_int64 ≤ v ≤ max_int64)
    (Hstored : ∀ p k raw, stored t (OrganizationId req) p k = Some raw → is_Some (limitToInt64 raw)) :
  let org := OrganizationId req in
  let project := ProjectId req in
  let set_to := default no_limits (ReqLimits req) in
  ∃ t' limits,
    final (sql exists_ counts) t (SetOrganizationLimits req) = (t', Ok limits) ∧
    final (sql exists_ counts) t' (GetOrganizationLimits org project) = (t', Ok limits) ∧
    (∀ f, f ∈ limitFields → lf_get f limits =
      match lf_get f set_to with
      | Some v => Some v
      | None =>
          if decide (lf_key f ∈ Reset_ req)
          then (if decide (project = "") then None else stored t org "" (lf_key f) ≫= limitToInt64)
          else in_force t org project (lf_key f) ≫= limitToInt64
      end) ∧
    (∀ o p k, (o, p) ≠ (org, project) → stored t' o p k = stored t o p k).
Proof.
  intros org project set_to. set (t' := after_request req t).
  assert (Hread : ∀ f, f ∈ limitFields → in_force t' org project (lf_key f) ≫= limitToInt64 =
    match lf_get f set_to with
    | Some v => Some v
    | None =>
        if decide (lf_key f ∈ Reset_ req)
        then (if decide (project = "") then None else stored t org "" (lf_key f) ≫= limitToInt64)
        else in_force t org project (lf_key f) ≫= limitToInt64
    end).
  { intros f Hf. apply limit_after; [intros v Hv; by apply (Hint f v)| |].
    - intros Hsome. pose proof (Hconf f Hf Hsome) as Hc. by rewrite elem_of_list_to_set in Hc.
    - intros p. unfold t'. rewrite stored_after_request by done. fold org project set_to.
      clear -Hf. repeat case_decide; try done; destruct (lf_get f set_to);
        repeat case_decide; naive_solver. }
  destruct (final_storedLimits exists_ counts t' org project) as (limits & Hst & Hget).
  { intros f raw Hf Hraw. apply (raw_integer t t' org project f raw); [|done|].
    - intros p. apply Hstored.
    - intros p. unfold t'. rewrite stored_after_request by done. fold org project set_to.
      destruct (decide ((org, p) = (org, project) ∧ lf_key f ∈ Reset_ req)); [by left|right].
      destruct (lf_get f set_to) as [v|] eqn:Hv; [|by left].
      destruct (decide ((org, p) = (org, project))); [right|by left].
      exists v. split; [done|by apply (Hint f v)]. }
  exists t', limits. split_and!.
  - by rewrite final_valid_request.
  - unfold GetOrganizationLimits. rewrite bool_decide_false by done.
    by rewrite (final_bind_ok _ _ _ _ _ _ (final_validateProject exists_ counts t' org project Hproj)).
  - intros f Hf. by rewrite Hget, Hread.
  - intros o p k Hne. by apply stored_after_other.
Qed.
End Properties.

(** ** Effective limits *)

(** Each limit with its key. *)
Definition resolved_fields : list (LimitKey * (OrgLimits → Z)) := [
  (LimitMaxProjects, ol_MaxProjects); (LimitMaxProjectsPerHour, ol_MaxProjectsPerHour);
  (LimitMaxBranchesPerProject, ol_MaxBranchesPerProject);
  (LimitMaxBranchesPerOrg, ol_MaxBranchesPerOrg); (LimitMaxBranchesPerHour, ol_MaxBranchesPerHour);
  (LimitMaxInstancesPerBranch, ol_MaxInstancesPerBranch);
  (LimitMinInstancesPerBranch, ol_MinInstancesPerBranch);
  (LimitMaxDescriptionLength, ol_MaxDescriptionLength);
  (LimitMaxAllowedInstanceType, ol_MaxAllowedInstanceType);
  (LimitMaxStorageGBPerBranch, ol_MaxStorageGBPerBranch)].

Lemma resolve_fields tier x m k get :
  (k, get) ∈ resolved_fields →
  (∃ text v, m !! k = Some (Number text) ∧ ParseInt10 text = Some v ∧
    get (resolve_limits tier x m) = v) ∨
  ((∀ text v, m !! k = Some (Number text) → ParseInt10 text ≠ Some v) ∧
    get (resolve_limits tier x m) = get (resolve_limits tier x ∅)).
Proof.
  assert (Hres : ∀ k d, (∃ text v, m !! k = Some (Number text) ∧ ParseInt10 text = Some v ∧
      ResolveIntLimit m k d = v) ∨
    ((∀ text v, m !! k = Some (Number text) → ParseInt10 text ≠ Some v) ∧
      ResolveIntLimit m k d = ResolveIntLimit ∅ k d)).
  { intros k' d. unfold ResolveIntLimit. rewrite lookup_empty.
    destruct (m !! k') as [[text| | |]|]; try (right; split; [by intros|done]).
    destruct (ParseInt10 text) as [v|] eqn:Hv; [left; by exists text, v|].
    right. split; [|done]. intros t v [= ->]. by rewrite Hv. }
  unfold resolved_fields. intros Hin.
  repeat (apply elem_of_cons in Hin as [[= -> ->]|Hin]; [apply Hres|]). by apply elem_of_nil in Hin.
Qed.

(** The limits in force: an organization of tier t1, or of an unknown tier,
    has the tier's defaults whatever is stored; one of tier t2 has, for each
    limit, the integer stored for the project, else the one stored for the
    organization, else the default. *)
Theorem ResolveOrgLimits_spec exists_ counts t usageTier org project x :
  ∃ limits, final (sql exists_ counts) t (ResolveOrgLimits usageTier org project x) = (t, Ok limits) ∧
  ∀ k get, (k, get) ∈ resolved_fields →
    if decide (usageTier = "t2") then
      match in_force t org project k ≫= (λ raw, match raw with Number s => ParseInt10 s | _ => None end) with
      | Some v => get limits = v
      | None => get limits = get (resolve_limits TierT2 x ∅)
      end
    else get limits = TierDefaultInt TierT1 k 0.
Proof.
  unfold ResolveOrgLimits, ParseUsageTier. destruct (decide (usageTier = "t2")) as [->|Hne].
  - exists (resolve_limits TierT2 x (visible t org project)). split.
    + rewrite (bool_decide_false ("t2" = "t1")), (bool_decide_true ("t2" = "t2")) by done.
      rewrite (bool_decide_false (TierT2 = TierT1)) by done.
      by rewrite (final_bind_ok _ _ _ _ _ _
        (final_wrap exists_ counts "get org limits" _ _ _ _ (final_GetOrgLimits exists_ counts t org project))).
    + intros k get Hin. rewrite <-visible_in_force.
      destruct (resolve_fields TierT2 x (visible t org project) k get Hin)
        as [(text & v & Hm & Hv & Hget)|[Hno Hget]].
      * by rewrite Hm; simpl; rewrite Hv.
      * destruct (visible t org project !! k) as [[text| | |]|]; simpl; try done.
        destruct (ParseInt10 text) as [v|] eqn:Hv; [|done]. by destruct (Hno text v eq_refl).
  - exists (resolve_limits TierT1 x ∅). split.
    + rewrite (bool_decide_false (usageTier = "t2")) by done.
      by case_bool_decide; rewrite bool_decide_true by done.
    + intros k get Hin. unfold resolved_fields in Hin.
      repeat (apply elem_of_cons in Hin as [[= -> ->]|Hin]; [by destruct x|]). by apply elem_of_nil in Hin.
Qed.

(** A limit of zero stops every branch creation, though a limit of zero means
    no limit for projects. *)
Theorem zero_branch_limit_blocks exists_ counts t org project maxPerProject maxPerHour
    (Hcount : ∀ c, 0 ≤ counts c) :
  final (sql exists_ counts) t (enforceBranchCreationLimits org project 0 maxPerProject maxPerHour) =
  (t, Err (ErrOrgBranchLimitExceeded org 0)).
Proof.
  unfold final, enforceBranchCreationLimits, check_limit. simpl.
  specialize (Hcount (CountActiveOrgBranches org)). by replace (0 <=? _) with true by lia.
Qed.

Module Witness.
#[local] Transparent limitFields.

#[local] Instance range : MapRange := { range_keys := elements; range_perm := λ s, reflexivity _ }.

(** The organization allows 50 branches per project and 5 projects per hour;
    project p1 overrides the first with 70. *)
Definition stored_rows : table :=
  {[ ("org", "") := {[ LimitMaxBranchesPerProject := Number "50"; LimitMaxProjectsPerHour := Number "5" ]};
     ("org", "p1") := {[ LimitMaxBranchesPerProject := Number "70" ]} ]}.

Definition request : SetRequest :=
  mkSet "org" "p1" (Some (lf_set (mkField LimitMaxBranchesPerOrg MaxBranchesPerOrg
    (λ '(mkLimits a b c d e f g h i j) v, mkLimits a b c d e f g (Some v) i j)) no_limits 9))
    [LimitMaxBranchesPerProject].

Definition db := sql (λ _ p, bool_decide (p = "p1")) (λ _, 3).
Definition setting := exec resp db stored_rows (SetOrganizationLimits request).

Lemma setting_runs : runs resp (SetOrganizationLimits request) setting.1.1 setting.2.
Proof. exact (exec_runs db stored_rows _). Qed.

Lemma limits_written_only_if_valid_witness :
  ev (UpsertOrgLimit "org" "p1" LimitMaxBranchesPerOrg "9") None ∈ setting.1.1 ∧
  asked request (UpsertOrgLimit "org" "p1" LimitMaxBranchesPerOrg "9") = true.
Proof.
  assert (Hin : ev (UpsertOrgLimit "org" "p1" LimitMaxBranchesPerOrg "9") None ∈ setting.1.1)
    by (vm_compute; right; left).
  split; [exact Hin|].
  exact (proj2 (proj2 (proj2 (proj2 (limits_written_only_if_valid request _ _ _ _ setting_runs Hin eq_refl))))).
Defined.

Lemma request_no_conflict :
  no_conflict (default no_limits (ReqLimits request)) (list_to_set (Reset_ request)) limitFields.
Proof.
  intros f Hf. unfold limitFields in Hf. simpl.
  repeat (apply elem_of_cons in Hf as [->|Hf]; [simpl; first [by intros [? [=]]|intros _; by apply (bool_decide_unpack _)]|]).
  by apply elem_of_nil in Hf.
Qed.

Lemma request_in_range f v : f ∈ limitFields →
  lf_get f (default no_limits (ReqLimits request)) = Some v → min_int64 ≤ v ≤ max_int64.
Proof.
  intros Hf. unfold limitFields in Hf.
  repeat (apply elem_of_cons in Hf as [->|Hf]; [simpl; intros [=]; subst; vm_compute; split; discriminate|]).
  by apply elem_of_nil in Hf.
Qed.

Lemma stored_integers p k raw : stored stored_rows "org" p k = Some raw → is_Some (limitToInt64 raw).
Proof.
  unfold stored, stored_rows. destruct (decide (p = "")) as [->|Hp];
    [|destruct (decide (p = "p1")) as [->|Hp1]].
  - rewrite lookup_insert_eq. simpl. rewrite !lookup_insert, lookup_singleton.
    repeat case_decide; intros [=]; subst; by eexists.
  - rewrite lookup_insert_ne, lookup_singleton_eq by done. simpl. rewrite lookup_singleton.
    case_decide; intros [=]; subst; by eexists.
  - by rewrite lookup_insert_ne, lookup_singleton_ne by congruence.
Qed.

Lemma SetOrganizationLimits_effect_witness :
  ∃ t' limits, final db stored_rows (SetOrganizationLimits request) = (t', Ok limits) ∧
    MaxBranchesPerOrg limits = Some 9 ∧ MaxBranchesPerProject limits = Some 50.
Proof.
  destruct (SetOrganizationLimits_effect (λ _ p, bool_decide (p = "p1")) (λ _, 3) stored_rows request
    ltac:(discriminate) ltac:(repeat constructor) ltac:(right; reflexivity) request_no_conflict
    request_in_range stored_integers) as (t' & limits & Hset & _ & Hlim & _).
  exists t', limits. split; [exact Hset|].
  pose proof (Hlim (mkField LimitMaxBranchesPerOrg MaxBranchesPerOrg
    (λ '(mkLimits a b c d e f g h i j) v, mkLimits a b c d e f g (Some v) i j))
    ltac:(unfold limitFields; do 7 right; left)) as H1.
  pose proof (Hlim (mkField LimitMaxBranchesPerProject MaxBranchesPerProject
    (λ '(mkLimits a b c d e f g h i j) v, mkLimits a (Some v) c d e f g h i j))
    ltac:(unfold limitFields; right; left)) as H2.
  split; [exact H1|exact H2].
Defined.
End Witness.
