(* ===== verification/ApiKey.v ===== *)
(** * API keys: [internal/api/key/key.go]

    Generation, validation, obfuscation and matching of keys.  Base62 is a
    third-party encoding: a parameter with its round-trip law.  CRC-32 (IEEE)
    is written out; bytes are integers from 0 to 255.  The HMAC of a key is not
    modelled. *)

From S2P Require Import Prelude GoStrings.

#[local] Open Scope Z_scope.

(** ** [hash/crc32], IEEE polynomial, reflected *)

Definition crc_poly : Z := 3988292384.
Definition mask32 : Z := 4294967295.

Definition crc_shift (s : Z) : Z :=
  Z.lxor (Z.shiftr s 1) (if Z.odd s then crc_poly else 0).

Definition crc_byte (s b : Z) : Z := Nat.iter 8 crc_shift (Z.lxor s b).

Definition ChecksumIEEE (bs : list Z) : Z := Z.lxor (foldl crc_byte mask32 bs) mask32.

(** ** Encoding of the checksum *)

Definition i32tob (val : Z) : list Z :=
  map (λ i, Z.land (Z.shiftr val (8 * i)) 255) [0; 1; 2; 3].

Definition btoi32 (val : list Z) : Z :=
  foldl (λ r '(i, b), Z.lor r (Z.shiftl b (8 * i))) 0 (zip [0; 1; 2; 3] val).

(** ** Base62 *)

Class Base62 := {
  EncodeToString : list Z → string;
  DecodeString : string → option (list Z);
}.

(** What the encoding promises: the alphabet is alphanumeric and decoding
    inverts encoding. *)
Class Base62Laws `{Base62} := {
  decode_encode : ∀ bs, Forall (λ b, 0 ≤ b < 256) bs → DecodeString (EncodeToString bs) = Some bs;
  encode_alphabet : ∀ bs, contains_byte "_"%char (EncodeToString bs) = false;
}.

(** ** Keys *)

Definition MaxLength : nat := 40.
Definition UserKeyPrefix : string := "xau".
Definition OrganizationKeyPrefix : string := "xao".
Definition obfuscatedChar : ascii := "*"%char.
Definition underscore : ascii := "_"%char.

Section Keys.
Context `{Base62}.

(** [b] are the random bytes. *)
Definition newKey (prefix : string) (b : list Z) : string :=
  prefix +:+ "_" +:+ EncodeToString (b ++ i32tob (ChecksumIEEE b)).

Definition NewUserKey (b : list Z) : string := newKey UserKeyPrefix b.
Definition NewOrganizationKey (b : list Z) : string := newKey OrganizationKeyPrefix b.

(** The checks on the decoded part. *)
Definition valid_payload (decoded : list Z) : bool :=
  if bool_decide (length decoded < 4)%nat then false
  else
    let n := (length decoded - 4)%nat in
    ChecksumIEEE (take n decoded) =? btoi32 (drop n decoded).

Definition IsValid (k : string) : bool :=
  if bool_decide (MaxLength < String.length k)%nat then false
  else
    match Split underscore k with
    | [prefix; part] =>
        if negb (HasPrefix prefix UserKeyPrefix) && negb (HasPrefix prefix OrganizationKeyPrefix)
        then false
        else match DecodeString part with None => false | Some decoded => valid_payload decoded end
    | _ => false
    end.
End Keys.

(** A negative count shows nothing. *)
Definition Obfuscate (k : string) (showLastNChars : Z) : string :=
  let n := Z.to_nat showLastNChars in
  let len := String.length k in
  if bool_decide (len ≤ n)%nat then k
  else
    match Cut underscore k with
    | (_, _, false) => repeat_str "*" (len - n) +:+ drop_str (len - n) k
    | (p, _, true) =>
        let prefixEndIndex := S (String.length p) in
        let endIndex := (len - n)%nat in
        if bool_decide (endIndex < prefixEndIndex)%nat then k
        else take_str prefixEndIndex k +:+ repeat_str "*" (endIndex - prefixEndIndex) +:+
             drop_str endIndex k
    end.

Fixpoint remove_byte (c : ascii) (s : string) : string :=
  match s with
  | EmptyString => EmptyString
  | String x t => if bool_decide (x = c) then remove_byte c t else String x (remove_byte c t)
  end.

Definition extractUnobfuscatedPart (k : string) : string := remove_byte obfuscatedChar k.

(** A full key against an obfuscated one. *)
Definition matches_obfuscated (full obf : string) : bool :=
  let suffix :=
    match cut_last obfuscatedChar obf with
    | Some (_, EmptyString) | None => None
    | Some (_, suffix) => Some suffix
    end in
  match Cut underscore obf with
  | (p, _, true) =>
      if negb (HasPrefix full (p +:+ "_")) then false
      else match suffix with Some suffix => HasSuffix full suffix | None => true end
  | (_, _, false) => match suffix with Some suffix => HasSuffix full suffix | None => false end
  end.

Definition Matches (k otherKey : string) : bool :=
  if bool_decide (k = otherKey) then true
  else
    let o := contains_byte obfuscatedChar in
    if negb (o k) && negb (o otherKey) then false
    else if negb (o k) && o otherKey then matches_obfuscated k otherKey
    else if negb (o otherKey) && o k then matches_obfuscated otherKey k
    else bool_decide (extractUnobfuscatedPart k = extractUnobfuscatedPart otherKey).

Example crc_check_value :
  ChecksumIEEE [49; 50; 51; 52; 53; 54; 55; 56; 57] = 3421780262.
Proof. vm_compute. reflexivity. Qed.

(** ** Lemmas: CRC-32 *)

Definition word32 (s : Z) : Prop := 0 ≤ s < 2 ^ 32.

Lemma word_lt n s : 0 ≤ n → 0 ≤ s → (∀ i, n ≤ i → Z.testbit s i = false) → s < 2 ^ n.
Proof.
  intros Hn Hs Hbits. destruct (Z.eq_dec s 0) as [->|Hne]; [apply Z.pow_pos_nonneg; lia|].
  apply Z.log2_lt_pow2; [lia|]. destruct (Z.lt_ge_cases (Z.log2 s) n) as [|Hge]; [done|].
  specialize (Hbits _ Hge). by rewrite Z.bit_log2 in Hbits by lia.
Qed.

Lemma word_bits n s i : 0 ≤ s < 2 ^ n → n ≤ i → Z.testbit s i = false.
Proof.
  intros [H0 Hs] Hi. destruct (Z.eq_dec s 0) as [->|]; [apply Z.testbit_0_l|].
  apply Z.bits_above_log2; [done|]. apply Z.log2_lt_pow2 in Hs; lia.
Qed.

Lemma word32_lxor s t : word32 s → word32 t → word32 (Z.lxor s t).
Proof.
  intros Hs Ht. assert (H0 : 0 ≤ Z.lxor s t) by (apply Z.lxor_nonneg; unfold word32 in *; lia).
  split; [done|]. apply word_lt; [lia|done|]. intros i Hi.
  by rewrite Z.lxor_spec, (word_bits 32 s), (word_bits 32 t).
Qed.

Lemma shiftr1_bound s : word32 s → 0 ≤ Z.shiftr s 1 < 2 ^ 31.
Proof.
  intros Hs. unfold word32 in Hs. rewrite Z.shiftr_div_pow2 by lia.
  change (2 ^ 1) with 2. change (2 ^ 31) with 2147483648. change (2 ^ 32) with 4294967296 in Hs.
  split; [apply Z.div_pos; lia|apply Z.div_lt_upper_bound; lia].
Qed.

Lemma word32_crc_shift s : word32 s → word32 (crc_shift s).
Proof.
  intros Hs. apply word32_lxor.
  - pose proof (shiftr1_bound s Hs). unfold word32. lia.
  - destruct (Z.odd s); by vm_compute.
Qed.

(** The top bit of the shifted register tells which bit fell out. *)
Lemma crc_shift_top s : word32 s → Z.testbit (crc_shift s) 31 = Z.odd s.
Proof.
  intros Hs. unfold crc_shift. rewrite Z.lxor_spec.
  rewrite (word_bits 31 (Z.shiftr s 1)) by (try apply shiftr1_bound; done || lia).
  by destruct (Z.odd s).
Qed.

Lemma crc_shift_inj s t : word32 s → word32 t → crc_shift s = crc_shift t → s = t.
Proof.
  intros Hs Ht Heq. pose proof (crc_shift_top s Hs) as Hso. rewrite Heq, crc_shift_top in Hso by done.
  unfold crc_shift in Heq. rewrite Hso in Heq.
  apply (f_equal (λ x, Z.lxor x (if Z.odd s then crc_poly else 0))) in Heq.
  rewrite !Z.lxor_assoc, Z.lxor_nilpotent, !Z.lxor_0_r in Heq.
  rewrite !Z.shiftr_div_pow2 in Heq by lia.
  pose proof (Z.div_mod s 2) as Hsd. pose proof (Z.div_mod t 2) as Htd.
  rewrite Zmod_odd in Hsd, Htd. rewrite Hso in Htd. change (2 ^ 1) with 2 in Heq. lia.
Qed.

Lemma crc_iter n s t :
  word32 s → word32 t →
  word32 (Nat.iter n crc_shift s) ∧ (Nat.iter n crc_shift s = Nat.iter n crc_shift t → s = t).
Proof.
  intros Hs Ht. split.
  - induction n as [|n IH]; [done|]. by apply word32_crc_shift.
  - assert (Hw : ∀ n x, word32 x → word32 (Nat.iter n crc_shift x)).
    { clear. intros n x Hx. induction n as [|n IH]; [done|]. by apply word32_crc_shift. }
    induction n as [|n IH]; [done|]. simpl. intros Heq. apply crc_shift_inj in Heq; auto.
Qed.

Lemma byte_word32 b : 0 ≤ b < 256 → word32 b.
Proof. unfold word32. lia. Qed.

Lemma lxor_cancel_r a b c : Z.lxor a c = Z.lxor b c → a = b.
Proof.
  intros Heq. apply (f_equal (λ x, Z.lxor x c)) in Heq.
  by rewrite !Z.lxor_assoc, !Z.lxor_nilpotent, !Z.lxor_0_r in Heq.
Qed.

Lemma crc_byte_word s b : word32 s → 0 ≤ b < 256 → word32 (crc_byte s b).
Proof.
  intros Hs Hb. assert (Hx : word32 (Z.lxor s b)) by (by apply word32_lxor, byte_word32).
  unfold crc_byte. revert Hx. generalize 8%nat (Z.lxor s b). intros n x Hx.
  exact (proj1 (crc_iter n x x Hx Hx)).
Qed.

Lemma crc_byte_inj s b t c :
  word32 (Z.lxor s b) → word32 (Z.lxor t c) → crc_byte s b = crc_byte t c → Z.lxor s b = Z.lxor t c.
Proof.
  unfold crc_byte. generalize 8%nat (Z.lxor s b) (Z.lxor t c). intros n x y Hx Hy.
  apply (crc_iter n x y Hx Hy).
Qed.

(** Registers that differ stay different under the same bytes. *)
Lemma crc_fold_inj bs s t :
  word32 s → word32 t → Forall (λ b, 0 ≤ b < 256) bs →
  foldl crc_byte s bs = foldl crc_byte t bs → s = t.
Proof.
  intros Hs Ht Hbs. revert s t Hs Ht. induction Hbs as [|b bs Hb _ IH]; intros s t Hs Ht; [done|].
  simpl. intros Heq. apply IH in Heq; [|by apply crc_byte_word..].
  assert (Hsx : word32 (Z.lxor s b)) by (by apply word32_lxor, byte_word32).
  assert (Htx : word32 (Z.lxor t b)) by (by apply word32_lxor, byte_word32).
  apply crc_byte_inj in Heq; [|done..]. by apply lxor_cancel_r in Heq.
Qed.

Lemma crc_fold_word bs s : word32 s → Forall (λ b, 0 ≤ b < 256) bs → word32 (foldl crc_byte s bs).
Proof.
  intros Hs Hbs. revert s Hs. induction Hbs as [|b bs Hb _ IH]; intros s Hs; [done|].
  by apply IH, crc_byte_word.
Qed.

Lemma checksum_word bs : Forall (λ b, 0 ≤ b < 256) bs → word32 (ChecksumIEEE bs).
Proof. intros Hbs. apply word32_lxor; [by apply crc_fold_word; [vm_compute|]|by vm_compute]. Qed.

(** Changing one byte changes the checksum. *)
Lemma checksum_one_byte l x y r :
  Forall (λ b, 0 ≤ b < 256) (l ++ x :: r) → 0 ≤ y < 256 → x ≠ y →
  ChecksumIEEE (l ++ x :: r) ≠ ChecksumIEEE (l ++ y :: r).
Proof.
  intros Hall Hy Hxy Heq. apply Forall_app in Hall as [Hl Hr].
  apply Forall_cons in Hr as [Hx Hr]. apply lxor_cancel_r in Heq.
  rewrite !foldl_app in Heq. simpl in Heq.
  assert (Hw : word32 (foldl crc_byte mask32 l)) by (by apply crc_fold_word; [vm_compute|]).
  apply crc_fold_inj in Heq; [|by apply crc_byte_word..|done].
  assert (H1 : word32 (Z.lxor (foldl crc_byte mask32 l) x)) by (by apply word32_lxor, byte_word32).
  assert (H2 : word32 (Z.lxor (foldl crc_byte mask32 l) y)) by (by apply word32_lxor, byte_word32).
  apply crc_byte_inj in Heq; [|done..]. rewrite !(Z.lxor_comm (foldl _ _ _)) in Heq.
  by apply lxor_cancel_r in Heq.
Qed.

(** ** Lemmas: the checksum bytes *)

Lemma byte_lane v k i :
  0 ≤ k → 0 ≤ i →
  Z.testbit (Z.shiftl (Z.land (Z.shiftr v k) 255) k) i =
  if (k <=? i) && (i <? k + 8) then Z.testbit v i else false.
Proof.
  intros Hk Hi. rewrite Z.shiftl_spec by done.
  destruct (Z.leb_spec k i).
  - change 255 with (Z.ones 8). rewrite Z.land_spec, Z.testbit_ones_nonneg, Z.shiftr_spec by lia.
    replace (i - k + k) with i by lia. simpl.
    destruct (Z.ltb_spec i (k + 8)), (Z.ltb_spec (i - k) 8); simpl; try lia; by rewrite ?andb_true_r, ?andb_false_r.
  - by rewrite Z.testbit_neg_r by lia.
Qed.

Lemma btoi32_i32tob v : word32 v → btoi32 (i32tob v) = v.
Proof.
  intros Hv. unfold btoi32, i32tob. cbn [map zip_with zip foldl].
  apply Z.bits_inj'. intros i Hi. rewrite !Z.lor_spec, !byte_lane by lia.
  rewrite Z.testbit_0_l. change (8 * 0) with 0. change (8 * 1) with 8. change (8 * 2) with 16.
  change (8 * 3) with 24.
  destruct (Z.leb_spec 32 i) as [Hbig|Hsmall].
  - rewrite (word_bits 32 v i Hv Hbig).
    by repeat match goal with |- context [if ?c then false else false] => destruct c end.
  - destruct (Z.leb_spec 0 i), (Z.ltb_spec i (0 + 8)), (Z.leb_spec 8 i), (Z.ltb_spec i (8 + 8)),
      (Z.leb_spec 16 i), (Z.ltb_spec i (16 + 8)), (Z.leb_spec 24 i), (Z.ltb_spec i (24 + 8));
      simpl; try lia; by rewrite ?orb_false_r.
Qed.

Lemma length_i32tob v : length (i32tob v) = 4%nat.
Proof. done. Qed.

Lemma i32tob_bytes v : Forall (λ b, 0 ≤ b < 256) (i32tob v).
Proof.
  unfold i32tob. apply Forall_forall. intros b Hb. apply list_elem_of_fmap in Hb as (i & -> & _).
  change 255 with (Z.ones 8). rewrite Z.land_ones by lia. apply Z.mod_pos_bound. lia.
Qed.

Lemma valid_payload_app key cs :
  length cs = 4%nat → valid_payload (key ++ cs) = (ChecksumIEEE key =? btoi32 cs).
Proof.
  intros Hcs. unfold valid_payload. rewrite length_app, Hcs, bool_decide_false by lia.
  replace (length key + 4 - 4)%nat with (length key) by lia.
  by rewrite take_app_length, drop_app_length.
Qed.

(** ** Properties *)

Section Properties.
Context `{Base62Laws}.

(** Every key that is generated is valid: user and organization keys pass
    [IsValid], whatever the random bytes, as long as the encoding fits the
    maximum length. *)
Theorem generated_keys_are_valid prefix b
    (Hprefix : prefix = UserKeyPrefix ∨ prefix = OrganizationKeyPrefix)
    (Hbytes : Forall (λ x, 0 ≤ x < 256) b)
    (Hlen : (String.length (EncodeToString (b ++ i32tob (ChecksumIEEE b))) ≤ 36)%nat) :
  IsValid (newKey prefix b) = true.
Proof.
  unfold IsValid, newKey. set (part := EncodeToString _) in *.
  assert (Hl : String.length (prefix +:+ "_" +:+ part) = (4 + String.length part)%nat).
  { rewrite string_length_app. by destruct Hprefix as [->| ->]. }
  rewrite Hl, bool_decide_false by (unfold MaxLength; lia).
  assert (Hs : Split underscore (prefix +:+ "_" +:+ part) = [prefix; part]).
  { change (prefix +:+ "_" +:+ part) with (prefix +:+ String underscore part).
    rewrite Split_app by (by destruct Hprefix as [->| ->]).
    by rewrite Split_none by apply encode_alphabet. }
  rewrite Hs.
  assert (Hp : negb (HasPrefix prefix UserKeyPrefix) && negb (HasPrefix prefix OrganizationKeyPrefix)
    = false) by (by destruct Hprefix as [->| ->]).
  rewrite Hp. unfold part. rewrite decode_encode by (apply Forall_app; split; [done|apply i32tob_bytes]).
  rewrite valid_payload_app by done. rewrite btoi32_i32tob by (by apply checksum_word).
  apply Z.eqb_refl.
Qed.

(** A key in which one byte was altered is rejected: of two keys whose
    payloads differ in exactly one byte and carry the same checksum at most one
    is valid. *)
Theorem altered_key_is_rejected k k' p p' part part' l x y r cs
    (Hk : Split underscore k = [p; part]) (Hk' : Split underscore k' = [p'; part'])
    (Hd : DecodeString part = Some ((l ++ x :: r) ++ cs))
    (Hd' : DecodeString part' = Some ((l ++ y :: r) ++ cs))
    (Hcs : length cs = 4%nat) (Hbytes : Forall (λ b, 0 ≤ b < 256) (l ++ x :: r))
    (Hy : 0 ≤ y < 256) (Hxy : x ≠ y) (Hvalid : IsValid k = true) :
  IsValid k' = false.
Proof.
  unfold IsValid in *. rewrite Hk, Hd in Hvalid. rewrite Hk', Hd'.
  destruct (bool_decide (_ < String.length k)%nat); [done|].
  destruct (negb (HasPrefix p _) && _); [done|].
  rewrite valid_payload_app in Hvalid by done. apply Z.eqb_eq in Hvalid.
  destruct (bool_decide _); [done|]. destruct (negb (HasPrefix p' _) && _); [done|].
  rewrite valid_payload_app by done. apply Z.eqb_neq. rewrite <-Hvalid.
  intros Heq. by apply (checksum_one_byte l x y r).
Qed.
End Properties.

Lemma contains_repeat m : contains_byte underscore (repeat_str "*" m) = false.
Proof. induction m as [|m IH]; [done|]. simpl. by rewrite IH. Qed.

Lemma repeat_str_snoc m : repeat_str "*" (S m) = repeat_str "*" m +:+ "*".
Proof. induction m as [|m IH]; [done|]. simpl in *. by rewrite <-IH. Qed.

(** A key always matches its own obfuscation: [Matches] recognizes what
    [Obfuscate] shows of a key (that has the prefix separator and no asterisk
    of its own), for any number of characters shown. *)
Theorem obfuscated_key_matches p rest n
    (Hp : contains_byte underscore p = false)
    (Hstar : contains_byte obfuscatedChar (p +:+ "_" +:+ rest) = false) :
  Matches (p +:+ "_" +:+ rest) (Obfuscate (p +:+ "_" +:+ rest) n) = true.
Proof.
  set (k := p +:+ "_" +:+ rest) in *.
  assert (Hsame : Matches k k = true) by (unfold Matches; by rewrite bool_decide_true).
  unfold Obfuscate. case_bool_decide as Hlen; [done|].
  assert (Hcut : Cut underscore k = (p, rest, true)) by (by apply Cut_app).
  rewrite Hcut. case_bool_decide as Hmid; [done|].
  set (m := (String.length k - Z.to_nat n - S (String.length p))%nat).
  assert (Hk : k = (p +:+ "_") +:+ rest) by (unfold k; by rewrite append_assoc).
  assert (Hpl : String.length (p +:+ "_") = S (String.length p)).
  { rewrite string_length_app. simpl. lia. }
  assert (Hkl : String.length k = (S (String.length p) + String.length rest)%nat).
  { by rewrite Hk, string_length_app, Hpl. }
  destruct (split_at m rest ltac:(lia)) as (mid & suf & Hrest & Hm).
  assert (Ht : take_str (S (String.length p)) k = p +:+ "_").
  { rewrite Hk, <-Hpl. apply take_str_app. }
  assert (Hd : drop_str (String.length k - Z.to_nat n) k = suf).
  { replace (String.length k - Z.to_nat n)%nat with (String.length ((p +:+ "_") +:+ mid)).
    - rewrite Hk, Hrest, <-(append_assoc _ mid suf). apply drop_str_app.
    - rewrite string_length_app, Hpl. lia. }
  rewrite Ht, Hd. fold m. destruct m as [|m'] eqn:Em.
  { destruct mid; [|done]. assert (Hkk : (p +:+ "_") +:+ repeat_str "*" 0 +:+ suf = k).
    { by rewrite Hk, Hrest. } by rewrite Hkk. }
  assert (Hsuf : contains_byte obfuscatedChar suf = false).
  { rewrite Hk, Hrest in Hstar. autorewrite with go_str in Hstar.
    rewrite !orb_false_iff in Hstar. tauto. }
  set (obf := (p +:+ "_") +:+ repeat_str "*" (S m') +:+ suf).
  assert (Hlast : cut_last obfuscatedChar obf = Some ((p +:+ "_") +:+ repeat_str "*" m', suf)).
  { unfold obf. rewrite repeat_str_snoc, (append_assoc (repeat_str "*" m')), <-(append_assoc (p +:+ "_")).
    by apply cut_last_app. }
  assert (Ho : contains_byte obfuscatedChar obf = true).
  { destruct (contains_byte obfuscatedChar obf) eqn:E; [done|].
    apply cut_last_none in E. by rewrite Hlast in E. }
  assert (Hobf : Cut underscore obf = (p, repeat_str "*" (S m') +:+ suf, true)).
  { unfold obf. rewrite append_assoc. by apply Cut_app. }
  unfold Matches. rewrite (bool_decide_false (k = obf)) by (intros ->; by rewrite Ho in Hstar).
  rewrite Hstar, Ho. simpl. unfold matches_obfuscated. rewrite Hobf, Hlast.
  assert (Hpre : HasPrefix k (p +:+ "_") = true) by (rewrite Hk; apply HasPrefix_spec; by exists rest).
  rewrite Hpre. simpl. destruct suf as [|c suf']; [done|].
  apply HasSuffix_spec. exists ((p +:+ "_") +:+ mid). rewrite Hk, Hrest. symmetry. apply append_assoc.
Qed.

Module Witness.
(** A toy encoding with two characters per byte. *)
Definition hex (n : Z) : ascii := ascii_of_N (Z.to_N (97 + n)).
Definition unhex (c : ascii) : Z := byte_val c - 97.

Fixpoint enc (bs : list Z) : string :=
  match bs with
  | [] => EmptyString
  | b :: bs => String (hex (b / 16)) (String (hex (b mod 16)) (enc bs))
  end.

Fixpoint dec (s : string) : option (list Z) :=
  match s with
  | EmptyString => Some []
  | String a (String b s) =>
      match dec s with Some bs => Some (16 * unhex a + unhex b :: bs) | None => None end
  | _ => None
  end.

Lemma unhex_hex n : 0 ≤ n < 158 → unhex (hex n) = n.
Proof. intros Hn. unfold unhex, hex, byte_val. rewrite N_ascii_embedding; lia. Qed.

Lemma hex_not_underscore n : 0 ≤ n < 158 → bool_decide (hex n = "_"%char) = false.
Proof.
  intros Hn. apply bool_decide_eq_false. intros Heq. apply (f_equal unhex) in Heq.
  rewrite unhex_hex in Heq by done. vm_compute in Heq. lia.
Qed.

Lemma dec_enc bs : Forall (λ b, 0 ≤ b < 256) bs →
  dec (enc bs) = Some bs ∧ contains_byte "_"%char (enc bs) = false.
Proof.
  induction 1 as [|b bs Hb _ [IH1 IH2]]; [done|].
  pose proof (Z.div_mod b 16) as Hdm. pose proof (Z.mod_pos_bound b 16) as Hm.
  assert (0 ≤ b / 16 < 16) by (split; [apply Z.div_pos; lia|apply Z.div_lt_upper_bound; lia]).
  cbn [enc dec contains_byte]. rewrite IH1, IH2, !unhex_hex, !hex_not_underscore by lia.
  split; [|done]. f_equal. f_equal. lia.
Qed.

(** Everything but bytes encodes to nothing. *)
Definition is_bytes (bs : list Z) : bool := forallb (λ b, (0 <=? b) && (b <? 256)) bs.

#[local] Instance toy_checked : Base62 := {
  EncodeToString bs := if is_bytes bs then enc bs else "";
  DecodeString := dec;
}.

Lemma is_bytes_spec bs : Forall (λ b, 0 ≤ b < 256) bs ↔ is_bytes bs = true.
Proof.
  unfold is_bytes. rewrite forallb_forall, Forall_forall.
  split; intros Hb b Hin; specialize (Hb b); rewrite list_elem_of_In in *; specialize (Hb Hin); lia.
Qed.

#[local] Instance toy_laws : Base62Laws.
Proof.
  split; simpl.
  - intros bs Hbs. pose proof (proj1 (is_bytes_spec bs) Hbs) as Hb. rewrite Hb. by apply dec_enc.
  - intros bs. destruct (is_bytes bs) eqn:Hb; [|done]. apply dec_enc. by apply is_bytes_spec.
Defined.

Definition random_bytes : list Z := [7; 200; 13].

Lemma generated_keys_are_valid_witness : IsValid (NewUserKey random_bytes) = true.
Proof.
  apply (generated_keys_are_valid UserKeyPrefix random_bytes); [by left| |].
  - apply is_bytes_spec. vm_compute. reflexivity.
  - vm_compute. lia.
Defined.

Definition good : string := NewUserKey random_bytes.
Definition altered : string :=
  UserKeyPrefix +:+ "_" +:+ EncodeToString ([7; 201; 13] ++ i32tob (ChecksumIEEE random_bytes)).

Lemma altered_key_is_rejected_witness : IsValid altered = false.
Proof.
  apply (altered_key_is_rejected good altered "xau" "xau"
    (EncodeToString (random_bytes ++ i32tob (ChecksumIEEE random_bytes)))
    (EncodeToString ([7; 201; 13] ++ i32tob (ChecksumIEEE random_bytes)))
    [7] 200 201 [13] (i32tob (ChecksumIEEE random_bytes)));
    try (vm_compute; reflexivity); try lia.
  apply is_bytes_spec. vm_compute. reflexivity.
Defined.

Lemma obfuscated_key_matches_witness :
  Matches "xau_0123456789" (Obfuscate "xau_0123456789" 3) = true.
Proof. exact (obfuscated_key_matches "xau" "0123456789" 3 eq_refl eq_refl). Defined.
End Witness.
