(* ===== verification/PostgresConfig.v ===== *)
(** * Postgres parameters: [internal/postgrescfg] (parameters.go, overrides.go,
    preload_libraries.go)

    The parameter catalogue decoded from [parameters.yaml] is the variable
    [configurableParameters]; the per-instance override tables are Go literals
    and are definitions here.  A panic of [MergeParametersMaps] is the error
    [MissingBase].  The maps are [gmap]s: Go's iteration order is unspecified,
    and no result below depends on it. *)

From S2P Require Import Prelude GoStrings GoFloat PostgresVersions Extensions.

#[local] Open Scope Z_scope.

(** ** The parameter catalogue *)

(** [ParameterTypeUnset] is the zero value, the type of the override literals. *)
Inductive ParameterType :=
| ParameterTypeUnset
| ParameterTypeString
| ParamTypeInt
| ParamTypeFloat
| ParamTypeBytes
| ParamTypeEnum
| ParamTypeDuration
| ParamTypeBoolean.

#[global] Instance ParameterType_eq_dec : EqDecision ParameterType.
Proof. solve_decision. Defined.

Record PostgresParameterSpec := mkSpec {
  ParamType : ParameterType;
  Section_ : string;
  Description : string;
  DefaultValue : string;
  MinValue : string;
  MaxValue : string;
  Values : list string;
  DocsLink : string;
  Recommendation : string;
  RestartRequired : bool;
  AllowEmpty : bool;
  PostgresMinimumVersion : option Z;
  Extension : string
}.

Record yamlParameterSpec := mkYaml {
  y_Section : string;
  y_ParameterType : string;
  y_Description : string;
  y_DefaultValue : string;
  y_MinValue : string;
  y_MaxValue : string;
  y_Values : list string;
  y_DocsLink : string;
  y_Recommendation : string;
  y_RestartRequired : bool;
  y_AllowEmpty : bool;
  y_PostgresMinimumVersion : option Z;
  y_Extension : string
}.

#[global] Abbreviation ParametersMap := (gmap string PostgresParameterSpec) (only parsing).

Inductive config_error :=
| UnknownParameterType (ty : string)
| UnknownInstanceSize (name : string)
| InvalidInstanceType (name : string)
| UnknownConfigurableParameter (name : string)
| UnknownOffering (name : string)
| InvalidPreloadLibrary (name : string)
| MissingBase (name : string).

Definition yaml_type (ty : string) : option ParameterType :=
  if bool_decide (ty = "string"%string) then Some ParameterTypeString
  else if bool_decide (ty = "int"%string) then Some ParamTypeInt
  else if bool_decide (ty = "float"%string) then Some ParamTypeFloat
  else if bool_decide (ty = "bytes"%string) then Some ParamTypeBytes
  else if bool_decide (ty = "enum"%string) then Some ParamTypeEnum
  else if bool_decide (ty = "duration"%string) then Some ParamTypeDuration
  else if bool_decide (ty = "boolean"%string) then Some ParamTypeBoolean
  else None.

Definition convertYAMLSpec (y : yamlParameterSpec) : res config_error PostgresParameterSpec :=
  match yaml_type (y_ParameterType y) with
  | None => Err (UnknownParameterType (y_ParameterType y))
  | Some paramType =>
      Ok (mkSpec paramType (y_Section y) (y_Description y) (y_DefaultValue y) (y_MinValue y)
            (y_MaxValue y) (y_Values y) (y_DocsLink y) (y_Recommendation y)
            (y_RestartRequired y) (y_AllowEmpty y) (y_PostgresMinimumVersion y)
            (y_Extension y))
  end.

(** The loop of [loadConfigurableParameters] over the decoded document. *)
Definition loadConfigurableParameters (yamlParams : gmap string yamlParameterSpec)
    : res config_error ParametersMap :=
  map_fold (λ name y acc,
    match acc with
    | Err e => Err e
    | Ok m => match convertYAMLSpec y with
              | Err e => Err e
              | Ok spec => Ok (<[name := spec]> m)
              end
    end) (Ok ∅) yamlParams.

(** ** Parsing sizes and durations *)

(** Up to the last byte that can belong to a number, and the unit after it. *)
Definition number_byte (c : ascii) : bool :=
  is_digit c || bool_decide (c = point) || bool_decide (c = "-"%char).

Fixpoint split_unit (s : string) : option (string * string) :=
  match s with
  | EmptyString => None
  | String c t =>
      match split_unit t with
      | Some (a, b) => Some (String c a, b)
      | None => if number_byte c then Some (String c EmptyString, t) else None
      end
  end.

Definition byte_multiplier (unit : string) : option Z :=
  if bool_decide (unit = "B"%string) || bool_decide (unit = ""%string) then Some 1
  else if bool_decide (unit = "kB"%string) then Some 1024
  else if bool_decide (unit = "MB"%string) then Some (1024 * 1024)
  else if bool_decide (unit = "GB"%string) then Some (1024 * 1024 * 1024)
  else if bool_decide (unit = "TB"%string) then Some (1024 * 1024 * 1024 * 1024)
  else None.

(** Without a unit the multiplier keeps its zero value. *)
Definition duration_multiplier (unit : string) : option Z :=
  if bool_decide (unit = ""%string) then Some 0
  else if bool_decide (unit = "s"%string) then Some Second
  else if bool_decide (unit = "min"%string) then Some Minute
  else if bool_decide (unit = "h"%string) then Some Hour
  else if bool_decide (unit = "d"%string) then Some (24 * Hour)
  else None.

Section Parsing.
Context `{GoRuntime}.

Definition parseBytes (s : string) : option Z :=
  let s := TrimSpace s in
  if bool_decide (s = "0B"%string) then Some 0
  else
    '(numStr, unit) ← split_unit s;
    num ← ParseFloat numStr;
    multiplier ← byte_multiplier unit;
    Some (int64_of_float (f64_mul num (float_of_int multiplier))).

Definition parseDuration (s : string) : option Z :=
  let s := ToLower (TrimSpace s) in
  if bool_decide (s = "0"%string) then Some 0
  else match ParseDuration s with
       | Some d => Some d
       | None =>
           '(numStr, unit) ← split_unit s;
           multiplier ← duration_multiplier unit;
           num ← ParseFloat numStr;
           Some (int64_of_float (f64_mul num (float_of_int multiplier)))
       end.

(** ** Validation of one value *)

Inductive value_error :=
| ControlCharacters
| InvalidValue (value : string)
| InvalidMinValue (bound : string)
| InvalidMaxValue (bound : string)
| BelowMinimum (value bound : string)
| AboveMaximum (value bound : string)
| NoAllowedValues
| NotAllowed (value : string) (allowed : list string)
| NotBoolean (value : string)
| EmptyStringValue
| UnknownType
| UnknownParameter (name : string).

(** The four bounded types share this body: parse the value, then compare it
    with each bound that is set.  [None] is Go's nil error. *)
Definition validate_bounds {A} (parse : string → option A) (lt : A → A → bool)
    (spec : PostgresParameterSpec) (value : string) : option value_error :=
  match parse value with
  | None => Some (InvalidValue value)
  | Some val =>
      match (if bool_decide (MinValue spec = ""%string) then None
             else match parse (MinValue spec) with
                  | None => Some (InvalidMinValue (MinValue spec))
                  | Some minVal =>
                      if lt val minVal then Some (BelowMinimum value (MinValue spec)) else None
                  end) with
      | Some e => Some e
      | None =>
          if bool_decide (MaxValue spec = ""%string) then None
          else match parse (MaxValue spec) with
               | None => Some (InvalidMaxValue (MaxValue spec))
               | Some maxVal =>
                   if lt maxVal val then Some (AboveMaximum value (MaxValue spec)) else None
               end
      end
  end.

Definition validateIntValue := validate_bounds ParseInt10 Z.ltb.
Definition validateFloatValue := validate_bounds ParseFloat f64_lt.
Definition validateBytesValue := validate_bounds parseBytes Z.ltb.
Definition validateDurationValue := validate_bounds parseDuration Z.ltb.

Definition validateEnumValue (spec : PostgresParameterSpec) (value : string)
    : option value_error :=
  if bool_decide (length (Values spec) = 0%nat) then Some NoAllowedValues
  else if bool_decide (value ∈ Values spec) then None
  else Some (NotAllowed value (Values spec)).

Definition true_values : list string := ["true"; "on"; "yes"; "1"]%string.
Definition false_values : list string := ["false"; "off"; "no"; "0"]%string.

Definition validateBooleanValue (spec : PostgresParameterSpec) (value : string)
    : option value_error :=
  if bool_decide (value ∈ true_values) then None
  else if bool_decide (value ∈ false_values) then None
  else Some (NotBoolean value).

Definition ValidateParameterValue (spec : PostgresParameterSpec) (value : string)
    : option value_error :=
  if has_control value then Some ControlCharacters
  else
    let value := TrimSpace value in
    match ParamType spec with
    | ParamTypeInt => validateIntValue spec value
    | ParamTypeFloat => validateFloatValue spec value
    | ParamTypeBytes => validateBytesValue spec value
    | ParamTypeEnum => validateEnumValue spec value
    | ParamTypeDuration => validateDurationValue spec value
    | ParamTypeBoolean => validateBooleanValue spec value
    | ParameterTypeString =>
        if bool_decide (value = ""%string) && negb (AllowEmpty spec)
        then Some EmptyStringValue else None
    | ParameterTypeUnset => Some UnknownType
    end.

(** ** Adjustment of one value *)

Definition adjust_bounds {A} (parse : string → option A) (lt : A → A → bool)
    (value minValue maxValue : string) : string * bool :=
  match parse value with
  | None => (value, false)
  | Some val =>
      let adjusted := value in
      let adjusted :=
        if bool_decide (minValue = ""%string) then adjusted
        else match parse minValue with
             | Some minVal => if lt val minVal then minValue else adjusted
             | None => adjusted
             end in
      let adjusted :=
        if bool_decide (maxValue = ""%string) then adjusted
        else match parse maxValue with
             | Some maxVal => if lt maxVal val then maxValue else adjusted
             | None => adjusted
             end in
      (adjusted, true)
  end.

Definition adjustIntValueToBounds := adjust_bounds ParseInt10 Z.ltb.
Definition adjustFloatValueToBounds := adjust_bounds ParseFloat f64_lt.
Definition adjustBytesValueToBounds := adjust_bounds parseBytes Z.ltb.
Definition adjustDurationValueToBounds := adjust_bounds parseDuration Z.ltb.

Definition AdjustValueToBounds (value : string) (spec : PostgresParameterSpec) : string :=
  if bool_decide (MinValue spec = ""%string) && bool_decide (MaxValue spec = ""%string)
  then value
  else
    let keep := λ r : string * bool, if r.2 then r.1 else value in
    match ParamType spec with
    | ParamTypeInt => keep (adjustIntValueToBounds value (MinValue spec) (MaxValue spec))
    | ParamTypeFloat => keep (adjustFloatValueToBounds value (MinValue spec) (MaxValue spec))
    | ParamTypeBytes => keep (adjustBytesValueToBounds value (MinValue spec) (MaxValue spec))
    | ParamTypeDuration =>
        keep (adjustDurationValueToBounds value (MinValue spec) (MaxValue spec))
    | _ => value
    end.

End Parsing.

(** ** Defaults and limits per instance type *)

(** A literal [{DefaultValue: ..., MaxValue: ...}]: the other fields are zero. *)
Definition override (name defaultValue maxValue : string) : string * PostgresParameterSpec :=
  (name, mkSpec ParameterTypeUnset "" "" defaultValue "" maxValue [] "" "" false false None "").

Definition xataMicroOverrides : ParametersMap :=
  list_to_map [
   override "max_connections" "50" "150";
   override "shared_buffers" "256MB" "700MB";
   override "effective_cache_size" "768MB" "";
   override "maintenance_work_mem" "64MB" "";
   override "checkpoint_completion_target" "0.9" "";
   override "wal_buffers" "7864kB" "";
   override "default_statistics_target" "100" "";
   override "random_page_cost" "1.1" "";
   override "effective_io_concurrency" "32" "";
   override "work_mem" "2259kB" "";
   override "huge_pages" "off" "";
   override "min_wal_size" "1GB" "";
   override "max_wal_size" "4GB" ""]%string.

Definition smallDefaultParameters : ParametersMap :=
  list_to_map [
   override "max_connections" "100" "200";
   override "shared_buffers" "512MB" "1.5GB";
   override "effective_cache_size" "1536MB" "";
   override "maintenance_work_mem" "128MB" "";
   override "checkpoint_completion_target" "0.9" "";
   override "wal_buffers" "16MB" "";
   override "default_statistics_target" "100" "";
   override "random_page_cost" "1.1" "";
   override "effective_io_concurrency" "32" "";
   override "work_mem" "2427kB" "";
   override "huge_pages" "off" "";
   override "min_wal_size" "1GB" "";
   override "max_wal_size" "4GB" ""]%string.

Definition mediumDefaultParameters : ParametersMap :=
  list_to_map [
   override "max_connections" "200" "400";
   override "shared_buffers" "1GB" "3GB";
   override "effective_cache_size" "3GB" "";
   override "maintenance_work_mem" "256MB" "";
   override "checkpoint_completion_target" "0.9" "";
   override "wal_buffers" "16MB" "";
   override "default_statistics_target" "100" "";
   override "random_page_cost" "1.1" "";
   override "effective_io_concurrency" "32" "";
   override "work_mem" "2520kB" "";
   override "huge_pages" "off" "";
   override "min_wal_size" "1GB" "";
   override "max_wal_size" "4GB" ""]%string.

Definition largeDefaultParameters : ParametersMap :=
  list_to_map [
   override "max_connections" "400" "800";
   override "shared_buffers" "2GB" "6GB";
   override "effective_cache_size" "6GB" "";
   override "maintenance_work_mem" "512MB" "";
   override "checkpoint_completion_target" "0.9" "";
   override "wal_buffers" "16MB" "";
   override "default_statistics_target" "100" "";
   override "random_page_cost" "1.1" "";
   override "effective_io_concurrency" "32" "";
   override "work_mem" "2570kB" "";
   override "huge_pages" "off" "";
   override "min_wal_size" "1GB" "";
   override "max_wal_size" "4GB" ""]%string.

Definition xataXLargeDefaultParameters : ParametersMap :=
  list_to_map [
   override "max_connections" "800" "1600";
   override "shared_buffers" "4GB" "12GB";
   override "effective_cache_size" "12GB" "";
   override "maintenance_work_mem" "1GB" "";
   override "checkpoint_completion_target" "0.9" "";
   override "wal_buffers" "16MB" "";
   override "default_statistics_target" "100" "";
   override "random_page_cost" "1.1" "";
   override "effective_io_concurrency" "32" "";
   override "work_mem" "2608kB" "";
   override "huge_pages" "off" "";
   override "min_wal_size" "1GB" "";
   override "max_wal_size" "4GB" "";
   override "max_worker_processes" "4" "";
   override "max_parallel_workers_per_gather" "2" "";
   override "max_parallel_workers" "4" "";
   override "max_parallel_maintenance_workers" "2" ""]%string.

Definition xata2XLargeDefaultParameters : ParametersMap :=
  list_to_map [
   override "max_connections" "1600" "3200";
   override "shared_buffers" "8GB" "24GB";
   override "effective_cache_size" "24GB" "";
   override "maintenance_work_mem" "2GB" "";
   override "checkpoint_completion_target" "0.9" "";
   override "wal_buffers" "16MB" "";
   override "default_statistics_target" "100" "";
   override "random_page_cost" "1.1" "";
   override "effective_io_concurrency" "32" "";
   override "work_mem" "2608kB" "";
   override "huge_pages" "try" "";
   override "min_wal_size" "1GB" "";
   override "max_wal_size" "4GB" "";
   override "max_worker_processes" "8" "";
   override "max_parallel_workers_per_gather" "4" "";
   override "max_parallel_workers" "8" "";
   override "max_parallel_maintenance_workers" "4" ""]%string.

Definition xata4XLargeDefaultParameters : ParametersMap :=
  list_to_map [
   override "max_connections" "3200" "5000";
   override "shared_buffers" "16GB" "48GB";
   override "effective_cache_size" "48GB" "";
   override "maintenance_work_mem" "2GB" "";
   override "checkpoint_completion_target" "0.9" "";
   override "wal_buffers" "16MB" "";
   override "default_statistics_target" "100" "";
   override "random_page_cost" "1.1" "";
   override "effective_io_concurrency" "32" "";
   override "work_mem" "2608kB" "";
   override "huge_pages" "try" "";
   override "min_wal_size" "1GB" "";
   override "max_wal_size" "4GB" "";
   override "max_worker_processes" "16" "";
   override "max_parallel_workers_per_gather" "4" "";
   override "max_parallel_workers" "16" "";
   override "max_parallel_maintenance_workers" "4" ""]%string.

Definition xata8XLargeDefaultParameters : ParametersMap :=
  list_to_map [
   override "max_connections" "5000" "5000";
   override "shared_buffers" "32GB" "96GB";
   override "effective_cache_size" "96GB" "";
   override "maintenance_work_mem" "2GB" "";
   override "checkpoint_completion_target" "0.9" "";
   override "wal_buffers" "16MB" "";
   override "default_statistics_target" "100" "";
   override "random_page_cost" "1.1" "";
   override "effective_io_concurrency" "32" "";
   override "work_mem" "3334kB" "";
   override "huge_pages" "try" "";
   override "min_wal_size" "1GB" "";
   override "max_wal_size" "4GB" "";
   override "max_worker_processes" "32" "";
   override "max_parallel_workers_per_gather" "4" "";
   override "max_parallel_workers" "32" "";
   override "max_parallel_maintenance_workers" "4" ""]%string.

Definition defaultParametersByInstanceType : list (string * ParametersMap) :=
  [("xata.micro"%string, xataMicroOverrides);
   ("xata.small"%string, smallDefaultParameters);
   ("xata.medium"%string, mediumDefaultParameters);
   ("xata.large"%string, largeDefaultParameters);
   ("xata.xlarge"%string, xataXLargeDefaultParameters);
   ("xata.2xlarge"%string, xata2XLargeDefaultParameters);
   ("xata.4xlarge"%string, xata4XLargeDefaultParameters);
   ("xata.8xlarge"%string, xata8XLargeDefaultParameters)].

Definition GetDefaultPostgresConfigByInstanceType (instanceName : string)
    : res config_error ParametersMap :=
  match list_find (λ kv, kv.1 = instanceName) defaultParametersByInstanceType with
  | Some (_, (_, params)) => Ok params
  | None => Err (UnknownInstanceSize instanceName)
  end.

(** The body of the override loop for a key that the base has. *)
Definition merge_spec (baseVal overrideVal : PostgresParameterSpec) : PostgresParameterSpec :=
  let pick := λ f, if bool_decide (f overrideVal = ""%string) then f baseVal else f overrideVal in
  mkSpec (ParamType baseVal) (Section_ baseVal) (pick Description) (pick DefaultValue)
    (pick MinValue) (pick MaxValue)
    (match Values overrideVal with [] => Values baseVal | vs => vs end)
    (DocsLink baseVal) (Recommendation baseVal) (RestartRequired baseVal) (AllowEmpty baseVal)
    (PostgresMinimumVersion baseVal) (Extension baseVal).

Definition MergeParametersMaps (base overrides : ParametersMap) : res config_error ParametersMap :=
  map_fold (λ k overrideVal acc,
    match acc with
    | Err e => Err e
    | Ok merged =>
        match merged !! k with
        | Some baseVal => Ok (<[k := merge_spec baseVal overrideVal]> merged)
        | None => Err (MissingBase k)
        end
    end) (Ok base) overrides.

(** ** The configuration operations *)

Inductive ConfigValueType :=
| ConfigValueDefault
| ConfigValueInstanceDefault
| ConfigValueCustom.

Section Config.
Context `{GoRuntime}.
Variable imageExtensions : option ImageExtensions.
Variable configurableParameters : ParametersMap.

(** The map [availableExtensions] is filled in list order: the last extension
    of a name wins. *)
Definition available_extensions (image : string) : gmap string ExtensionSpec :=
  foldl (λ m ext, <[Name ext := ext]> m) ∅
    (GetExtensions imageExtensions (ShortImageName image)).

(** The filter of [GetConfigurableParameters]; a nil [preloadLibraries] is
    [None]. *)
Definition keeps_parameter (majorVersion : Z) (image : string)
    (preloadLibraries : option (list string)) (spec : PostgresParameterSpec) : bool :=
  let too_old :=
    match PostgresMinimumVersion spec with
    | Some v => negb (majorVersion =? 0) && (majorVersion <? v)
    | None => false
    end in
  if too_old then false
  else if bool_decide (Extension spec = ""%string) || bool_decide (image = ""%string) then true
  else match available_extensions image !! Extension spec with
       | None => false
       | Some ext =>
           match preloadLibraries with
           | None => true
           | Some libs =>
               negb (PreloadRequired ext && negb (bool_decide (Extension spec ∈ libs)))
           end
       end.

Definition GetConfigurableParameters (majorVersion : Z) (image : string)
    (preloadLibraries : option (list string)) : ParametersMap :=
  filter (λ kv, keeps_parameter majorVersion image preloadLibraries kv.2 = true)
    configurableParameters.

Definition GetParametersSpec (instanceType : string) (majorVersion : Z) (image : string)
    (preloadLibraries : option (list string)) : res config_error ParametersMap :=
  match GetDefaultPostgresConfigByInstanceType instanceType with
  | Err e => Err e
  | Ok overrides =>
      MergeParametersMaps (GetConfigurableParameters majorVersion image preloadLibraries) overrides
  end.

Definition GetDefaultPostgresParameters (instanceType : string) (majorVersion : Z)
    (image : string) (preloadLibraries : option (list string))
    : res config_error (gmap string string) :=
  match GetDefaultPostgresConfigByInstanceType instanceType with
  | Err e => Err e
  | Ok overrides =>
      match MergeParametersMaps
              (GetConfigurableParameters majorVersion image preloadLibraries) overrides with
      | Err e => Err e
      | Ok merged => Ok (DefaultValue <$> merged)
      end
  end.

(** The error map of [ValidateSettings]; nil is the empty map. *)
Definition setting_error (mergedParams : ParametersMap) (paramName paramValue : string)
    : option value_error :=
  match mergedParams !! paramName with
  | None => Some (UnknownParameter paramName)
  | Some spec => ValidateParameterValue spec paramValue
  end.

Definition ValidateSettings (instanceType : string) (settings : gmap string string)
    (majorVersion : Z) (image : string) (preloadLibraries : option (list string))
    : res config_error (gmap string value_error) :=
  let baseParams := GetConfigurableParameters majorVersion image preloadLibraries in
  match GetDefaultPostgresConfigByInstanceType instanceType with
  | Err _ => Err (InvalidInstanceType instanceType)
  | Ok instanceParams =>
      match MergeParametersMaps baseParams instanceParams with
      | Err e => Err e
      | Ok mergedParams => Ok (map_imap (setting_error mergedParams) settings)
      end
  end.

Definition FilterConfigurableParameters (params : gmap string string) (majorVersion : Z)
    (image : string) (preloadLibraries : option (list string)) : gmap string string :=
  let configurableParams := GetConfigurableParameters majorVersion image preloadLibraries in
  filter (λ kv, is_Some (configurableParams !! kv.1)) params.

Definition DetermineConfigValueType (instanceSize paramName paramValue : string)
    (majorVersion : Z) (image : string) (preloadLibraries : option (list string))
    : ConfigValueType * option config_error :=
  match GetConfigurableParameters majorVersion image preloadLibraries !! paramName with
  | None => (ConfigValueCustom, Some (UnknownConfigurableParameter paramName))
  | Some postgresDefault =>
      match GetDefaultPostgresConfigByInstanceType instanceSize with
      | Err e => (ConfigValueCustom, Some e)
      | Ok instanceParams =>
          let instance_match :=
            match instanceParams !! paramName with
            | Some instanceParam => bool_decide (DefaultValue instanceParam = paramValue)
            | None => false
            end in
          if instance_match then (ConfigValueInstanceDefault, None)
          else if bool_decide (DefaultValue postgresDefault = paramValue)
          then (ConfigValueDefault, None)
          else (ConfigValueCustom, None)
      end
  end.

(** ** Preload libraries *)

Definition defaultPreloadLibraries : list (string * list string) :=
  [("postgres", ["pg_stat_statements"; "auto_explain"]);
   ("experimental", ["pg_stat_statements"; "auto_explain"]);
   ("analytics", ["pg_stat_statements"; "auto_explain"; "pg_duckdb"])]%string.

Definition internalPreloadLibraries : list string := ["xatautils"]%string.

Definition GetDefaultPreloadLibraries (image : string) : res config_error (list string) :=
  let offering :=
    match Split colon (ShortImageName image) with
    | part :: _ => part
    | [] => "postgres"%string
    end in
  match list_find (λ kv, kv.1 = offering) defaultPreloadLibraries with
  | Some (_, (_, libs)) => Ok libs
  | None => Err (UnknownOffering offering)
  end.

(** [None] is the nil error; otherwise the first library that is not a
    preloadable extension of the image. *)
Definition ValidatePreloadLibraries (image : string) (libraries : list string)
    : option config_error :=
  let preloadExtensions := GetPreloadRequiredExtensions imageExtensions (ShortImageName image) in
  match list_find (λ lib, lib ∉ map Name preloadExtensions) libraries with
  | Some (_, lib) => Some (InvalidPreloadLibrary lib)
  | None => None
  end.

Definition GetInternalPreloadLibraries : list string := internalPreloadLibraries.

Definition FilterOutInternalPreloadLibraries (libraries : list string) : list string :=
  filter (λ lib, lib ∉ internalPreloadLibraries) libraries.

End Config.

(** ** Values and their types *)

(** What a configuration string denotes at each parameter type. *)
Inductive pg_value :=
| PgString (s : string)
| PgInt (z : Z)
| PgFloat (f : float64)
| PgBytes (z : Z)
| PgEnum (s : string)
| PgDuration (z : Z)
| PgBool (b : bool).

Section Types.
Context `{GoRuntime}.

Definition denote_bool (s : string) : option pg_value :=
  if bool_decide (s ∈ true_values) then Some (PgBool true)
  else if bool_decide (s ∈ false_values) then Some (PgBool false) else None.

Definition denote (ty : ParameterType) (s : string) : option pg_value :=
  match ty with
  | ParameterTypeUnset => None
  | ParameterTypeString => Some (PgString s)
  | ParamTypeInt => PgInt <$> ParseInt10 s
  | ParamTypeFloat => PgFloat <$> ParseFloat s
  | ParamTypeBytes => PgBytes <$> parseBytes s
  | ParamTypeEnum => Some (PgEnum s)
  | ParamTypeDuration => PgDuration <$> parseDuration s
  | ParamTypeBoolean => denote_bool s
  end.

Definition value_lt (x y : pg_value) : bool :=
  match x, y with
  | PgInt a, PgInt b | PgBytes a, PgBytes b | PgDuration a, PgDuration b => a <? b
  | PgFloat a, PgFloat b => f64_lt a b
  | _, _ => false
  end.

Definition bounded_type (ty : ParameterType) : bool :=
  match ty with
  | ParamTypeInt | ParamTypeFloat | ParamTypeBytes | ParamTypeDuration => true
  | _ => false
  end.

(** A bound that is set denotes a value [y] of the type with [ok y]. *)
Definition bound_holds (ty : ParameterType) (bound : string) (ok : pg_value → Prop) : Prop :=
  bound = ""%string ∨ ∃ y, denote ty bound = Some y ∧ ok y.

(** The value [x] belongs to the parameter. *)
Definition admits (spec : PostgresParameterSpec) (x : pg_value) : Prop :=
  if bounded_type (ParamType spec) then
    bound_holds (ParamType spec) (MinValue spec) (λ y, value_lt x y = false)
    ∧ bound_holds (ParamType spec) (MaxValue spec) (λ y, value_lt y x = false)
  else match x with
       | PgEnum s => s ∈ Values spec
       | PgString s => s = ""%string → AllowEmpty spec = true
       | _ => True
       end.

(** [value] is a well-typed setting of the parameter. *)
Definition well_typed (spec : PostgresParameterSpec) (value : string) : Prop :=
  has_control value = false
  ∧ ∃ x, denote (ParamType spec) (TrimSpace value) = Some x ∧ admits spec x.

(** The value of decimal digits, by their places, and what a signed decimal
    numeral denotes. *)
Fixpoint digits_value (ds : string) : Z :=
  match ds with
  | EmptyString => 0
  | String c ds => digit_val c * 10 ^ Z.of_nat (String.length ds) + digits_value ds
  end.

Definition decimal (s : string) (z : Z) : Prop :=
  ∃ sign ds, s = sign +:+ ds ∧ ds ≠ ""%string ∧ string_forallb is_digit ds = true ∧
    (sign ∈ [""; "+"]%string ∧ z = digits_value ds ∨ sign = "-"%string ∧ z = - digits_value ds).

(** A bound that is set is read, and the value is not beyond it. *)
Definition not_beyond {A} (reads : string → A → Prop) (bound : string) (beyond : A → bool) : Prop :=
  bound = ""%string ∨ ∃ b, reads bound b ∧ beyond b = false.

Definition between {A} (reads : string → A → Prop) (lt : A → A → bool) (spec : PostgresParameterSpec) (x : A) : Prop :=
  not_beyond reads (MinValue spec) (λ lo, lt x lo) ∧ not_beyond reads (MaxValue spec) (λ hi, lt hi x).

(** What the text [s] of a setting is, in terms of the text where that is simple:
    an integer is a decimal numeral of 64 bits between its bounds, a boolean one
    of eight words, an enumerated value one of the allowed ones, and a string is
    not empty unless it may be.  Floats, sizes and durations are what the code
    reads them as, not below the minimum and not above the maximum it reads. *)
Definition sound_value (spec : PostgresParameterSpec) (s : string) : Prop :=
  match ParamType spec with
  | ParamTypeInt => ∃ z, decimal s z ∧ min_int64 ≤ z ≤ max_int64 ∧ between decimal Z.ltb spec z
  | ParamTypeBoolean => s ∈ ["true"; "on"; "yes"; "1"; "false"; "off"; "no"; "0"]%string
  | ParamTypeEnum => s ∈ Values spec
  | ParameterTypeString => s = ""%string → AllowEmpty spec = true
  | ParamTypeFloat => ∃ x, ParseFloat s = Some x ∧ between (λ b y, ParseFloat b = Some y) f64_lt spec x
  | ParamTypeBytes => ∃ n, parseBytes s = Some n ∧ between (λ b m, parseBytes b = Some m) Z.ltb spec n
  | ParamTypeDuration => ∃ n, parseDuration s = Some n ∧ between (λ b m, parseDuration b = Some m) Z.ltb spec n
  | ParameterTypeUnset => False
  end.

(** A spec whose bounds are usable: they parse, carry no surrounding space or
    control character, and the minimum is not above the maximum. *)
Definition clean (s : string) : Prop := TrimSpace s = s ∧ has_control s = false.

Definition well_formed_bounds (spec : PostgresParameterSpec) : Prop :=
  clean (MinValue spec) ∧ clean (MaxValue spec)
  ∧ bound_holds (ParamType spec) (MinValue spec) (λ _, True)
  ∧ bound_holds (ParamType spec) (MaxValue spec) (λ _, True)
  ∧ (∀ x y, denote (ParamType spec) (MinValue spec) = Some x →
            denote (ParamType spec) (MaxValue spec) = Some y → value_lt y x = false).

Lemma value_lt_irrefl x : value_lt x x = false.
Proof. destruct x; simpl; auto using Z.ltb_irrefl, f64_lt_irrefl. Qed.

(** *** One proof for the four bounded types *)

Section Bounds.
Context {A : Type} (parse : string → option A) (lt : A → A → bool) (inj : A → pg_value).
Hypothesis lt_inj : ∀ a b, value_lt (inj a) (inj b) = lt a b.

Lemma validate_bounds_None spec value :
  validate_bounds parse lt spec value = None ↔
  ∃ a, parse value = Some a
    ∧ (MinValue spec = ""%string
       ∨ ∃ b, parse (MinValue spec) = Some b ∧ lt a b = false)
    ∧ (MaxValue spec = ""%string
       ∨ ∃ b, parse (MaxValue spec) = Some b ∧ lt b a = false).
Proof.
  unfold validate_bounds. split.
  - intros Hv. destruct (parse value) as [a|]; [|done]. exists a. split; [done|].
    case_bool_decide as Hmin; [|destruct (parse (MinValue spec)) as [lo|] eqn:Hlo;
      [destruct (lt a lo) eqn:Hl|]; try done];
    (case_bool_decide as Hmax; [|destruct (parse (MaxValue spec)) as [hi|] eqn:Hhi;
      [destruct (lt hi a) eqn:Hh|]; try done]); eauto 8.
  - intros (a & -> & Hmin & Hmax).
    destruct Hmin as [->|(lo & -> & Hlo)]; [rewrite bool_decide_eq_true_2 by done|case_bool_decide; try rewrite Hlo];
    destruct Hmax as [->|(hi & -> & Hhi)]; try (rewrite bool_decide_eq_true_2 by done); try done;
    case_bool_decide; try rewrite Hhi; done.
Qed.

Lemma if_empty_same (s x y : string) :
  s = ""%string ∨ x = y → (if bool_decide (s = ""%string) then y else x) = y.
Proof. by case_bool_decide; intros [?|?]. Qed.

(** A valid value is not adjusted. *)
Lemma adjust_valid_same value spec a :
  parse value = Some a → validate_bounds parse lt spec value = None →
  adjust_bounds parse lt value (MinValue spec) (MaxValue spec) = (value, true).
Proof.
  intros Ha Hv. apply validate_bounds_None in Hv as (a' & Ha' & Hmin & Hmax).
  unfold adjust_bounds. rewrite Ha. simplify_eq.
  rewrite (if_empty_same (MinValue spec)), if_empty_same; [done| |];
    [destruct Hmax as [?|(hi & -> & ->)]|destruct Hmin as [?|(lo & -> & ->)]]; auto.
Qed.

(** Inside the bounds an adjusted value is unchanged; outside it is one of
    them. *)
Lemma adjust_bounds_cases value lo hi a :
  parse value = Some a →
  adjust_bounds parse lt value lo hi = (value, true)
    ∧ (lo ≠ ""%string → ∀ b, parse lo = Some b → lt a b = false)
    ∧ (hi ≠ ""%string → ∀ b, parse hi = Some b → lt b a = false)
  ∨ adjust_bounds parse lt value lo hi = (lo, true) ∧ lo ≠ ""%string
  ∨ adjust_bounds parse lt value lo hi = (hi, true) ∧ hi ≠ ""%string.
Proof.
  intros Ha. unfold adjust_bounds. rewrite Ha.
  case_bool_decide as Hlo; case_bool_decide as Hhi;
    repeat match goal with
           | |- context [match parse ?s with _ => _ end] => destruct (parse s) eqn:?
           | |- context [if lt ?x ?y then _ else _] => destruct (lt x y) eqn:?
           end; naive_solver.
Qed.

(** The same facts on the values the strings denote. *)
Section Denoted.
Variable ty : ParameterType.
Hypothesis ty_bounded : bounded_type ty = true.
Hypothesis denote_parse : ∀ s, denote ty s = inj <$> parse s.

Lemma bound_holds_parse bound (P : pg_value → Prop) :
  bound_holds ty bound P ↔
  bound = ""%string ∨ ∃ b, parse bound = Some b ∧ P (inj b).
Proof.
  unfold bound_holds. rewrite denote_parse.
  split; (intros [?|Hb]; [by left|right]).
  - destruct Hb as (y & [b [-> ->]]%fmap_Some & HP). eauto.
  - destruct Hb as (b & -> & HP). simpl. eauto.
Qed.

Lemma validate_bounds_spec spec value :
  ParamType spec = ty →
  validate_bounds parse lt spec value = None ↔
  ∃ x, denote (ParamType spec) value = Some x ∧ admits spec x.
Proof.
  intros Hty. rewrite validate_bounds_None. unfold admits. rewrite Hty, ty_bounded.
  setoid_rewrite bound_holds_parse. rewrite denote_parse. split.
  - intros (a & -> & Hmin & Hmax). exists (inj a). split; [done|].
    setoid_rewrite lt_inj. done.
  - intros (x & [a [-> ->]]%fmap_Some & Hb). setoid_rewrite lt_inj in Hb. eauto.
Qed.

Lemma adjusted_admitted spec value a :
  ParamType spec = ty → well_formed_bounds spec → clean value → parse value = Some a →
  let adjusted := (adjust_bounds parse lt value (MinValue spec) (MaxValue spec)).1 in
  well_typed spec adjusted
  ∧ (validate_bounds parse lt spec value = None → adjusted = value).
Proof.
  intros Hty (Hclo & Hchi & Hlo & Hhi & Hord) Hcv Ha adjusted. subst adjusted.
  rewrite Hty in Hlo, Hhi, Hord.
  unfold well_typed, admits. rewrite Hty, ty_bounded.
  destruct (adjust_bounds_cases value (MinValue spec) (MaxValue spec) a Ha)
    as [(-> & Hin)|[[Heq Hne]|[Heq Hne]]]; simpl.
  - destruct Hcv as [-> ->]. split; [|done]. split; [done|].
    exists (inj a). rewrite denote_parse, Ha. split; [done|].
    rewrite !bound_holds_parse. setoid_rewrite lt_inj.
    rewrite bound_holds_parse in Hlo, Hhi. destruct Hin as [Hl Hh].
    split; [destruct Hlo as [?|(b & Hb & _)]|destruct Hhi as [?|(b & Hb & _)]]; auto;
      match goal with |- ?s = _ ∨ _ => destruct (decide (s = ""%string)); eauto end.
  - rewrite Heq; simpl. destruct Hlo as [?|(y & Hy & _)]; [done|].
    destruct Hclo as [-> ->]. split.
    + split; [done|]. exists y. split; [done|]. split; [right; eauto using value_lt_irrefl|].
      destruct Hhi as [?|(z & Hz & _)]; [by left|right; eauto].
    + intros Hv. pose proof (adjust_valid_same value spec a Ha Hv). congruence.
  - rewrite Heq; simpl. destruct Hhi as [?|(y & Hy & _)]; [done|].
    destruct Hchi as [-> ->]. split.
    + split; [done|]. exists y. split; [done|]. split; [|right; eauto using value_lt_irrefl].
      destruct Hlo as [?|(z & Hz & _)]; [by left|right; eauto].
    + intros Hv. pose proof (adjust_valid_same value spec a Ha Hv). congruence.
Qed.

End Denoted.

End Bounds.

(** *** One value *)

Lemma and_true_l (P Q : Prop) : P → (P ∧ Q) ↔ Q.
Proof. tauto. Qed.

Lemma ex_denoted (d : option pg_value) x (P : pg_value → Prop) :
  d = Some x → (∃ y, d = Some y ∧ P y) ↔ P x.
Proof. naive_solver. Qed.

Lemma ValidateParameterValue_iff spec value :
  ValidateParameterValue spec value = None ↔ well_typed spec value.
Proof.
  unfold ValidateParameterValue, well_typed.
  destruct (has_control value); [naive_solver|]. rewrite and_true_l by done.
  destruct (ParamType spec) eqn:Hty.
  - naive_solver.
  - rewrite ex_denoted by done. unfold admits. rewrite Hty. simpl.
    case_bool_decide as He; destruct (AllowEmpty spec); simpl; intuition (congruence || done).
  - rewrite <- Hty. by apply (validate_bounds_spec ParseInt10 Z.ltb PgInt (λ _ _, eq_refl) ParamTypeInt).
  - rewrite <- Hty. by apply (validate_bounds_spec ParseFloat f64_lt PgFloat (λ _ _, eq_refl) ParamTypeFloat).
  - rewrite <- Hty. by apply (validate_bounds_spec parseBytes Z.ltb PgBytes (λ _ _, eq_refl) ParamTypeBytes).
  - unfold admits, validateEnumValue. rewrite Hty. simpl.
    rewrite ex_denoted by done.
    case_bool_decide as Hl; [apply nil_length_inv in Hl as ->; set_solver|].
    case_bool_decide; naive_solver.
  - rewrite <- Hty. by apply (validate_bounds_spec parseDuration Z.ltb PgDuration (λ _ _, eq_refl) ParamTypeDuration).
  - unfold admits, validateBooleanValue, denote, denote_bool. rewrite Hty. simpl.
    destruct (bool_decide (TrimSpace value ∈ true_values)),
      (bool_decide (TrimSpace value ∈ false_values));
      first [rewrite ex_denoted by done; done|naive_solver].
Qed.

(** A value is accepted for a parameter exactly when, once trimmed, it
    denotes a value of the parameter's type that the parameter admits: inside
    the bounds that are set, among the allowed values of an enumeration, and
    without control characters. *)
Theorem ValidateParameterValue_well_typed spec value :
  ValidateParameterValue spec value = None ↔ well_typed spec value.
Proof. apply ValidateParameterValue_iff. Qed.

(** *** Decimal numerals *)

Lemma digits_val_acc_value acc (s : string) n :
  digits_val_acc acc s = Some n →
  string_forallb is_digit s = true ∧ n = acc * 10 ^ Z.of_nat (String.length s) + digits_value s.
Proof.
  revert acc. induction s as [|c s IH]; intros acc; cbn [digits_val_acc string_forallb digits_value String.length].
  - intros [= <-]. split; [done|]. change (10 ^ Z.of_nat 0) with 1. lia.
  - destruct (is_digit c) eqn:Hc; [|done]. intros [-> ->]%IH. split; [done|].
    rewrite Nat2Z.inj_succ, Z.pow_succ_r by lia. ring.
Qed.

Lemma ParseUint10_value s n : ParseUint10 s = Some n →
  s ≠ ""%string ∧ string_forallb is_digit s = true ∧ n = digits_value s.
Proof.
  intros Hs. assert (s ≠ ""%string ∧ digits_val_acc 0 s = Some n) as [Hne [Hd Hn]%digits_val_acc_value] by (by destruct s).
  by rewrite Z.mul_0_l in Hn.
Qed.

Lemma ParseInt10_decimal s z : ParseInt10 s = Some z → decimal s z ∧ min_int64 ≤ z ≤ max_int64.
Proof.
  intros Hs. split; [|by apply ParseInt10_range in Hs]. revert Hs. unfold ParseInt10, decimal.
  assert (∀ (neg : bool) body, match ParseUint10 body with
      | Some n => let v := if neg then - n else n in if (min_int64 <=? v) && (v <=? max_int64) then Some v else None
      | None => None end = Some z →
    body ≠ ""%string ∧ string_forallb is_digit body = true ∧ z = if neg then - digits_value body else digits_value body) as Hbody.
  { intros neg body. destruct (ParseUint10 body) as [n|] eqn:Hn; [|done]. apply ParseUint10_value in Hn as (? & ? & ->).
    cbv zeta. destruct neg; case_match; by intros [= <-]. }
  destruct s as [|c t]; [by intros (? & _)%(Hbody false)|].
  case_bool_decide as Hp; [subst c; intros (? & ? & ->)%(Hbody false)|case_bool_decide as Hm; [subst c; intros (? & ? & ->)%(Hbody true)|intros (? & ? & ->)%(Hbody false)]].
  - exists "+"%string, t. split_and!; [done..|]. left. split; [set_solver|done].
  - exists "-"%string, t. split_and!; [done..|]. by right.
  - exists ""%string, (String c t). split_and!; [done..|]. left. split; [set_solver|done].
Qed.

Lemma between_admitted {A} (reads : string → A → Prop) lt ty (inj : A → pg_value) spec x :
  (∀ bound y, denote ty bound = Some y → ∃ b, y = inj b ∧ reads bound b) →
  (∀ a b, value_lt (inj a) (inj b) = lt a b) →
  bound_holds ty (MinValue spec) (λ y, value_lt (inj x) y = false) ∧
  bound_holds ty (MaxValue spec) (λ y, value_lt y (inj x) = false) → between reads lt spec x.
Proof.
  intros Hreads Hlt [Hlo Hhi]. split; [destruct Hlo as [?|(y & Hy & Hn)]|destruct Hhi as [?|(y & Hy & Hn)]];
    try (by left); right; destruct (Hreads _ y Hy) as (b & -> & Hb); exists b; by rewrite <- Hlt.
Qed.

Lemma well_typed_sound spec value : well_typed spec value → sound_value spec (TrimSpace value).
Proof.
  intros (_ & x & Hd & Ha). unfold admits in Ha. unfold sound_value.
  destruct (ParamType spec); cbn [bounded_type denote] in *; try done.
  - by injection Hd as <-.
  - apply fmap_Some in Hd as (z & Hz & ->). exists z. apply ParseInt10_decimal in Hz as [? ?]. do 2 (split; [done|]).
    eapply (between_admitted _ _ ParamTypeInt PgInt); [|done|exact Ha].
    intros bound y (b & [? _]%ParseInt10_decimal & ->)%fmap_Some. by exists b.
  - apply fmap_Some in Hd as (z & Hz & ->). exists z. split; [done|].
    eapply (between_admitted _ _ ParamTypeFloat PgFloat); [|done|exact Ha]. by intros bound y (b & ? & ->)%fmap_Some; exists b.
  - apply fmap_Some in Hd as (z & Hz & ->). exists z. split; [done|].
    eapply (between_admitted _ _ ParamTypeBytes PgBytes); [|done|exact Ha]. by intros bound y (b & ? & ->)%fmap_Some; exists b.
  - by injection Hd as <-.
  - apply fmap_Some in Hd as (z & Hz & ->). exists z. split; [done|].
    eapply (between_admitted _ _ ParamTypeDuration PgDuration); [|done|exact Ha]. by intros bound y (b & ? & ->)%fmap_Some; exists b.
  - unfold denote_bool in Hd. repeat case_bool_decide; [| |done]; unfold true_values, false_values in *; set_solver.
Qed.

(** A value error is never about an unknown parameter. *)
Definition unknown_parameter (e : value_error) : bool :=
  match e with UnknownParameter _ => true | _ => false end.

Lemma value_error_known spec value e :
  ValidateParameterValue spec value = Some e → unknown_parameter e = false.
Proof.
  unfold ValidateParameterValue, validateEnumValue, validateBooleanValue, validateIntValue,
    validateFloatValue, validateBytesValue, validateDurationValue, validate_bounds.
  intros He. repeat case_match; by simplify_eq.
Qed.

(** [AdjustValueToBounds] at a bounded type is one of the four adjusters. *)
Definition adjuster (ty : ParameterType) (value lo hi : string) : string :=
  match ty with
  | ParamTypeInt => (adjustIntValueToBounds value lo hi).1
  | ParamTypeFloat => (adjustFloatValueToBounds value lo hi).1
  | ParamTypeBytes => (adjustBytesValueToBounds value lo hi).1
  | ParamTypeDuration => (adjustDurationValueToBounds value lo hi).1
  | _ => value
  end.

Lemma adjust_bounds_keep {A} (parse : string → option A) lt value lo hi :
  let r := adjust_bounds parse lt value lo hi in
  (if r.2 then r.1 else value) = r.1.
Proof. unfold adjust_bounds. by destruct (parse value). Qed.

Lemma adjust_bounds_empty {A} (parse : string → option A) lt value :
  (adjust_bounds parse lt value "" "").1 = value.
Proof. unfold adjust_bounds. by destruct (parse value). Qed.

Lemma AdjustValueToBounds_adjuster value spec :
  AdjustValueToBounds value spec
  = adjuster (ParamType spec) value (MinValue spec) (MaxValue spec).
Proof.
  unfold AdjustValueToBounds, adjuster, adjustIntValueToBounds, adjustFloatValueToBounds,
    adjustBytesValueToBounds, adjustDurationValueToBounds.
  destruct (decide (MinValue spec = ""%string ∧ MaxValue spec = ""%string)) as [[-> ->]|Hne].
  - rewrite !bool_decide_eq_true_2 by done. simpl.
    destruct (ParamType spec); by rewrite ?adjust_bounds_empty.
  - destruct (bool_decide (MinValue spec = ""%string) && bool_decide (MaxValue spec = ""%string))
      eqn:Hb; [destruct Hne; by apply andb_true_iff in Hb as [?%bool_decide_eq_true ?%bool_decide_eq_true]|].
    destruct (ParamType spec); simpl; by rewrite ?adjust_bounds_keep.
Qed.

Lemma adjuster_valid spec value x :
  bounded_type (ParamType spec) = true → well_formed_bounds spec → clean value →
  denote (ParamType spec) value = Some x →
  let adjusted := adjuster (ParamType spec) value (MinValue spec) (MaxValue spec) in
  well_typed spec adjusted ∧ (ValidateParameterValue spec value = None → adjusted = value).
Proof.
  intros Hb Hwf Hc Hx. unfold ValidateParameterValue.
  destruct (Hc) as [-> ->]. simpl.
  destruct (ParamType spec) eqn:Hty; try done; simpl in Hx;
    apply fmap_Some in Hx as (a & Ha & ->).
  - by apply (adjusted_admitted ParseInt10 Z.ltb PgInt (λ _ _, eq_refl) ParamTypeInt eq_refl
               (λ _, eq_refl) spec value a).
  - by apply (adjusted_admitted ParseFloat f64_lt PgFloat (λ _ _, eq_refl) ParamTypeFloat eq_refl
               (λ _, eq_refl) spec value a).
  - by apply (adjusted_admitted parseBytes Z.ltb PgBytes (λ _ _, eq_refl) ParamTypeBytes eq_refl
               (λ _, eq_refl) spec value a).
  - by apply (adjusted_admitted parseDuration Z.ltb PgDuration (λ _ _, eq_refl) ParamTypeDuration
               eq_refl (λ _, eq_refl) spec value a).
Qed.

(** [AdjustValueToBounds] always returns a value the parameter accepts,
    for every parameter with usable bounds and every value of its type, and it
    leaves a value that is already accepted alone. *)
Theorem adjusted_value_is_accepted spec value x :
  bounded_type (ParamType spec) = true → well_formed_bounds spec → clean value →
  denote (ParamType spec) value = Some x →
  ValidateParameterValue spec (AdjustValueToBounds value spec) = None
  ∧ (ValidateParameterValue spec value = None → AdjustValueToBounds value spec = value).
Proof.
  intros Hb Hwf Hc Hx. rewrite AdjustValueToBounds_adjuster.
  destruct (adjuster_valid spec value x Hb Hwf Hc Hx) as [Hw Hs].
  split; [by apply ValidateParameterValue_iff|done].
Qed.

End Types.

(** ** Merging *)

Section Merge.

Definition merged_at (base overrides : ParametersMap) (k : string)
    : option PostgresParameterSpec :=
  match overrides !! k with
  | Some o => (λ b, merge_spec b o) <$> base !! k
  | None => base !! k
  end.

(** The override loop panics exactly when some override has no base, and
    otherwise merges key by key. *)
Lemma MergeParametersMaps_spec base overrides :
  match MergeParametersMaps base overrides with
  | Ok merged => (∀ k, k ∈ dom overrides → k ∈ dom base)
                 ∧ ∀ k, merged !! k = merged_at base overrides k
  | Err e => ∃ k, e = MissingBase k ∧ k ∈ dom overrides ∧ k ∉ dom base
  end.
Proof.
  unfold MergeParametersMaps. revert overrides.
  apply (map_fold_weak_ind (λ r overrides, match r with
    | Ok merged => (∀ k, k ∈ dom overrides → k ∈ dom base)
                   ∧ ∀ k, merged !! k = merged_at base overrides k
    | Err e => ∃ k, e = MissingBase k ∧ k ∈ dom overrides ∧ k ∉ dom base
    end)).
  - split; [set_solver|]. intros k. unfold merged_at. by rewrite lookup_empty.
  - intros k o m r Hm IH. destruct r as [merged|e].
    + destruct IH as [Hdom Hat]. rewrite Hat. unfold merged_at at 1. rewrite Hm.
      destruct (base !! k) as [b|] eqn:Hb.
      * split; [set_unfold; intros k' [->|?]; [by apply elem_of_dom_2 in Hb|auto]|].
        intros k'. destruct (decide (k = k')) as [<-|Hne].
        -- rewrite lookup_insert_eq. unfold merged_at. by rewrite lookup_insert_eq, Hb.
        -- rewrite lookup_insert_ne by done. rewrite Hat. unfold merged_at.
           by rewrite lookup_insert_ne.
      * exists k. rewrite not_elem_of_dom. set_solver.
    + destruct IH as (k' & -> & Hk' & Hn). exists k'. set_solver.
Qed.

Lemma MergeParametersMaps_lookup base overrides merged k :
  MergeParametersMaps base overrides = Ok merged → merged !! k = merged_at base overrides k.
Proof.
  intros Hm. pose proof (MergeParametersMaps_spec base overrides) as Hs.
  rewrite Hm in Hs. apply Hs.
Qed.

Lemma MergeParametersMaps_total base overrides :
  (∀ k, k ∈ dom overrides → k ∈ dom base) →
  ∃ merged, MergeParametersMaps base overrides = Ok merged.
Proof.
  intros Hd. pose proof (MergeParametersMaps_spec base overrides) as Hs.
  destruct (MergeParametersMaps base overrides) as [m|e]; [eauto|].
  destruct Hs as (k & _ & Hk & Hn). by apply Hd in Hk.
Qed.

End Merge.

(** ** Properties of the configuration operations *)

Section ConfigFacts.
Context `{GoRuntime}.
Variable imageExtensions : option ImageExtensions.
Variable configurableParameters : ParametersMap.

(** The catalogue has every overridden parameter, without a restriction to a
    version or an extension. *)
Definition unrestricted (spec : PostgresParameterSpec) : bool :=
  bool_decide (PostgresMinimumVersion spec = None) && bool_decide (Extension spec = ""%string).

Definition covers (overrides : ParametersMap) : bool :=
  forallb (λ kv, match configurableParameters !! kv.1 with
                 | Some base => unrestricted base
                 | None => false
                 end) (map_to_list overrides).

Definition covers_overrides : bool :=
  forallb (λ kv, covers kv.2) defaultParametersByInstanceType.

Abbreviation GetParametersSpec := (GetParametersSpec imageExtensions configurableParameters).
Abbreviation GetConfigurableParameters :=
  (GetConfigurableParameters imageExtensions configurableParameters).
Abbreviation ValidateSettings := (ValidateSettings imageExtensions configurableParameters).
Abbreviation FilterConfigurableParameters :=
  (FilterConfigurableParameters imageExtensions configurableParameters).
Abbreviation keeps_parameter := (keeps_parameter imageExtensions).

Lemma lookup_GetConfigurableParameters mv image libs k spec :
  GetConfigurableParameters mv image libs !! k = Some spec ↔
  configurableParameters !! k = Some spec ∧ keeps_parameter mv image libs spec = true.
Proof. unfold PostgresConfig.GetConfigurableParameters. by rewrite map_lookup_filter_Some. Qed.

Lemma known_instance_type it params :
  GetDefaultPostgresConfigByInstanceType it = Ok params →
  (it, params) ∈ defaultParametersByInstanceType.
Proof.
  unfold GetDefaultPostgresConfigByInstanceType.
  destruct (list_find _ _) as [[i [n ps]]|] eqn:Hf; [|done]. intros [= ->].
  apply list_find_Some in Hf as (Hl & Hn & _). simpl in Hn. subst n.
  by eapply list_elem_of_lookup_2.
Qed.

Lemma known_instance_config it :
  it ∈ defaultParametersByInstanceType.*1 →
  ∃ params, GetDefaultPostgresConfigByInstanceType it = Ok params.
Proof.
  intros (kv & -> & Hkv)%list_elem_of_fmap. unfold GetDefaultPostgresConfigByInstanceType.
  destruct (list_find _ _) as [[i [n ps]]|] eqn:Hf; [eauto|].
  apply list_find_None in Hf. rewrite Forall_forall in Hf. by apply (Hf kv) in Hkv.
Qed.

Lemma instance_config_error it e :
  GetDefaultPostgresConfigByInstanceType it = Err e → e = UnknownInstanceSize it.
Proof.
  unfold GetDefaultPostgresConfigByInstanceType.
  destruct (list_find _ _) as [[i [n ps]]|]; congruence.
Qed.

Lemma unrestricted_kept mv image libs spec :
  unrestricted spec = true → keeps_parameter mv image libs spec = true.
Proof.
  unfold unrestricted, PostgresConfig.keeps_parameter.
  intros [Hv%bool_decide_eq_true He]%andb_true_iff. by rewrite Hv, He.
Qed.

Lemma covered_overrides it params mv image libs :
  covers_overrides = true → GetDefaultPostgresConfigByInstanceType it = Ok params →
  ∃ merged, MergeParametersMaps (GetConfigurableParameters mv image libs) params = Ok merged.
Proof.
  intros Hc Hp%known_instance_type. apply MergeParametersMaps_total. intros k Hk.
  unfold covers_overrides in Hc. rewrite forallb_forall in Hc.
  specialize (Hc (it, params)). rewrite <- list_elem_of_In in Hc. specialize (Hc Hp).
  unfold covers in Hc. simpl in Hc. rewrite forallb_forall in Hc.
  apply elem_of_dom in Hk as [o Ho]. specialize (Hc (k, o)).
  rewrite <- list_elem_of_In, elem_of_map_to_list in Hc. specialize (Hc Ho). simpl in Hc.
  destruct (configurableParameters !! k) as [base|] eqn:Hb; [|done].
  apply elem_of_dom. exists base. apply lookup_GetConfigurableParameters.
  by eauto using unrestricted_kept.
Qed.

Lemma ValidateSettings_Ok it settings mv image libs errs :
  ValidateSettings it settings mv image libs = Ok errs ↔
  ∃ specs, GetParametersSpec it mv image libs = Ok specs
    ∧ errs = map_imap (setting_error specs) settings.
Proof.
  unfold PostgresConfig.ValidateSettings, PostgresConfig.GetParametersSpec.
  destruct (GetDefaultPostgresConfigByInstanceType it) as [params|]; [|naive_solver].
  destruct (MergeParametersMaps _ params); naive_solver.
Qed.

(** A parameter of the merged specification comes from the catalogue, with its
    type. *)
Lemma GetParametersSpec_lookup it mv image libs specs k spec :
  GetParametersSpec it mv image libs = Ok specs → specs !! k = Some spec →
  ∃ base, configurableParameters !! k = Some base
    ∧ keeps_parameter mv image libs base = true ∧ ParamType spec = ParamType base.
Proof.
  unfold PostgresConfig.GetParametersSpec.
  destruct (GetDefaultPostgresConfigByInstanceType it) as [params|]; [|done].
  intros Hm. rewrite (MergeParametersMaps_lookup _ _ _ _ Hm). unfold merged_at.
  destruct (params !! k) as [o|].
  - intros (base & Hb & ->)%fmap_Some. apply lookup_GetConfigurableParameters in Hb as [? ?].
    by exists base.
  - intros [? ?]%lookup_GetConfigurableParameters. by exists spec.
Qed.

Lemma specs_dom it mv image libs specs k :
  GetParametersSpec it mv image libs = Ok specs →
  is_Some (specs !! k) ↔ is_Some (GetConfigurableParameters mv image libs !! k).
Proof.
  unfold PostgresConfig.GetParametersSpec.
  destruct (GetDefaultPostgresConfigByInstanceType it) as [params|]; [|done].
  intros Hm. rewrite (MergeParametersMaps_lookup _ _ _ _ Hm). unfold merged_at.
  destruct (params !! k); [by rewrite fmap_is_Some|done].
Qed.

(** C39. Each setting that passes validation names a parameter of the catalogue
    that is available for the version, the image and the preloaded libraries; its
    text holds no control character and, trimmed, is sound for that parameter's
    declared type under the bounds of the instance type: an integer parameter has
    a signed decimal numeral of 64 bits that is not below the minimum and not
    above the maximum, a boolean one of eight words, an enumerated parameter one
    of its values, a string is not empty unless it may be.  Of floats, sizes and
    durations it says only what the code's own readers make of the text and the
    bounds: by these a float NaN and a duration without a unit pass. *)
Theorem valid_settings_are_typed it settings mv image libs k v :
  ValidateSettings it settings mv image libs = Ok ∅ → settings !! k = Some v →
  ∃ base specs spec,
    configurableParameters !! k = Some base ∧ keeps_parameter mv image libs base = true
    ∧ GetParametersSpec it mv image libs = Ok specs ∧ specs !! k = Some spec
    ∧ ParamType spec = ParamType base ∧ has_control v = false ∧ sound_value spec (TrimSpace v).
Proof.
  intros (specs & Hs & He)%ValidateSettings_Ok Hk.
  pose proof (map_lookup_imap (setting_error specs) settings k) as Hi.
  rewrite <- He, Hk, lookup_empty in Hi. simpl in Hi. unfold setting_error in Hi.
  destruct (specs !! k) as [spec|] eqn:Hspec; [|done].
  destruct (GetParametersSpec_lookup _ _ _ _ _ _ _ Hs Hspec) as (base & Hb & Hkeep & Hty).
  assert (well_typed spec v) as Hw by by apply ValidateParameterValue_iff.
  exists base, specs, spec. split_and!; [done..|apply Hw|by apply well_typed_sound].
Qed.

(** Validation never reaches the panic of the merge: with a catalogue that has
    every overridden parameter, each known instance type yields an error map
    and any other name the instance-type error, for every version, image and
    set of libraries. *)
Theorem ValidateSettings_never_panics it settings mv image libs :
  covers_overrides = true →
  if bool_decide (it ∈ defaultParametersByInstanceType.*1)
  then ∃ errs, ValidateSettings it settings mv image libs = Ok errs
  else ValidateSettings it settings mv image libs = Err (InvalidInstanceType it).
Proof.
  intros Hc. unfold PostgresConfig.ValidateSettings.
  destruct (GetDefaultPostgresConfigByInstanceType it) as [params|e] eqn:Hp.
  - rewrite bool_decide_eq_true_2
      by (apply list_elem_of_fmap; exists (it, params); eauto using known_instance_type).
    destruct (covered_overrides it params mv image libs Hc Hp) as [merged ->]. eauto.
  - case_bool_decide as Hin; [|done].
    apply known_instance_config in Hin as [params Hin]. congruence.
Qed.

(** Filtering settings to the configurable ones removes exactly the
    unknown-parameter errors: validation of the filtered settings reports the
    other errors unchanged, and settings that validate are not touched. *)
Theorem filtered_settings_errors it settings mv image libs errs :
  ValidateSettings it settings mv image libs = Ok errs →
  ValidateSettings it (FilterConfigurableParameters settings mv image libs) mv image libs
    = Ok (filter (λ ke, unknown_parameter ke.2 = false) errs)
  ∧ (errs = ∅ → FilterConfigurableParameters settings mv image libs = settings).
Proof.
  intros (specs & Hs & ->)%ValidateSettings_Ok.
  unfold PostgresConfig.FilterConfigurableParameters. split.
  - apply ValidateSettings_Ok. exists specs. split; [done|]. f_equal.
    apply map_eq. intros k. rewrite map_lookup_imap, !map_lookup_filter, map_lookup_imap.
    destruct (settings !! k) as [v|]; simpl; [|done].
    pose proof (specs_dom _ _ _ _ _ k Hs) as Hdom. unfold setting_error.
    case_guard as Hc; simpl.
    + apply Hdom in Hc as [spec ->]. destruct (ValidateParameterValue spec v) as [e|] eqn:He; [|done].
      simpl. rewrite option_guard_True; [done|]. by eapply value_error_known.
    + destruct (specs !! k); [by destruct Hc; apply Hdom|done].
  - intros Hempty. apply map_filter_id. intros k v Hk. simpl. apply (specs_dom _ _ _ _ _ k Hs).
    pose proof (map_lookup_imap (setting_error specs) settings k) as Hi.
    rewrite Hempty, Hk, lookup_empty in Hi. simpl in Hi. unfold setting_error in Hi.
    destruct (specs !! k); [eauto|done].
Qed.

(** The default the configuration service hands out for a parameter is never
    classified as a custom value: it is the instance default or the Postgres
    default. *)
Theorem default_is_not_custom it mv image libs defaults k v :
  GetDefaultPostgresParameters imageExtensions configurableParameters it mv image libs = Ok defaults →
  defaults !! k = Some v →
  ∃ ty, DetermineConfigValueType imageExtensions configurableParameters it k v mv image libs
        = (ty, None) ∧ ty ≠ ConfigValueCustom.
Proof.
  unfold GetDefaultPostgresParameters, DetermineConfigValueType.
  destruct (GetDefaultPostgresConfigByInstanceType it) as [params|]; [|done].
  destruct (MergeParametersMaps _ params) as [merged|] eqn:Hm; [|done]. intros [= <-].
  rewrite lookup_fmap, (MergeParametersMaps_lookup _ _ _ _ Hm). unfold merged_at.
  destruct (GetConfigurableParameters mv image libs !! k) as [base|] eqn:Hb.
  2: { by destruct (params !! k). }
  destruct (params !! k) as [o|]; simpl; intros [= <-].
  - destruct (decide (DefaultValue o = ""%string)) as [He|He];
      [rewrite (bool_decide_eq_true_2 _ He)|rewrite (bool_decide_eq_false_2 _ He)].
    + case_bool_decide; [eauto|]. rewrite bool_decide_eq_true_2 by done. eauto.
    + rewrite bool_decide_eq_true_2 by done. eauto.
  - rewrite bool_decide_eq_true_2 by done. eauto.
Qed.

End ConfigFacts.
