(* ===== verification/PostgresCatalogue.v ===== *)
(** * The parameter catalogue: [internal/postgrescfg/parameters.yaml]

    The document that [loadConfigurableParameters] decodes, as data, and what
    the configuration operations give on it.  The texts shown to users (the
    description, the documentation link and the recommendation) are left
    empty: no operation reads them. *)

From S2P Require Import Prelude GoStrings GoFloat PostgresVersions Extensions PostgresConfig.

#[local] Open Scope Z_scope.

Definition parameter (name section type defaultValue minValue maxValue : string)
    (values : list string) (restartRequired allowEmpty : bool) (minimumVersion : option Z)
    (extension : string) : string * yamlParameterSpec :=
  (name, mkYaml section type "" defaultValue minValue maxValue values "" "" restartRequired
           allowEmpty minimumVersion extension).

Definition parametersYAML : list (string * yamlParameterSpec) := [
   parameter "max_connections" "Connections" "int" "100" "0" "5000"
     [] true false None "";
   parameter "idle_session_timeout" "Connections" "duration" "0ms" "0ms" "20d"
     [] false false None "";
   parameter "idle_in_transaction_session_timeout" "Connections" "duration" "0ms" "0ms" "20d"
     [] false false None "";
   parameter "statement_timeout" "Connections" "duration" "0ms" "0ms" "20d"
     [] false false None "";
   parameter "shared_buffers" "Resource consumption" "bytes" "32MB" "0B" "512GB"
     [] true false None "";
   parameter "work_mem" "Resource consumption" "bytes" "1MB" "0B" "1GB"
     [] false false None "";
   parameter "temp_buffers" "Resource consumption" "bytes" "8MB" "0B" "1GB"
     [] false false None "";
   parameter "maintenance_work_mem" "Resource consumption" "bytes" "16MB" "0B" "10GB"
     [] false false None "";
   parameter "huge_pages" "Resource consumption" "enum" "try" "" ""
     ["on"; "off"; "try"] true false None "";
   parameter "track_io_timing" "Resource consumption" "enum" "on" "" ""
     ["on"; "off"] false false None "";
   parameter "track_wal_io_timing" "Resource consumption" "enum" "on" "" ""
     ["on"; "off"] false false None "";
   parameter "effective_cache_size" "Planner" "bytes" "4GB" "0B" "1TB"
     [] false false None "";
   parameter "random_page_cost" "Planner" "float" "4.0" "0" "100"
     [] false false None "";
   parameter "seq_page_cost" "Planner" "float" "1.0" "0" "100"
     [] false false None "";
   parameter "default_statistics_target" "Planner" "int" "100" "0" "1000"
     [] false false None "";
   parameter "io_method" "Async behavior" "enum" "worker" "" ""
     ["worker"; "io_uring"; "sync"] true false (Some 18) "";
   parameter "io_workers" "Async behavior" "int" "3" "1" "32"
     [] true false (Some 18) "";
   parameter "effective_io_concurrency" "Async behavior" "int" "16" "0" "1000"
     [] false false None "";
   parameter "maintenance_io_concurrency" "Async behavior" "int" "16" "0" "1000"
     [] false false None "";
   parameter "backend_flush_after" "Async behavior" "bytes" "0B" "0B" "2MB"
     [] false false None "";
   parameter "max_worker_processes" "Async behavior" "int" "32" "1" "1024"
     [] true false None "";
   parameter "io_combine_limit" "Async behavior" "bytes" "128kB" "0B" "1GB"
     [] false false (Some 17) "";
   parameter "max_parallel_workers_per_gather" "Async behavior" "int" "2" "1" "1024"
     [] false false None "";
   parameter "max_parallel_workers" "Async behavior" "int" "32" "1" "1024"
     [] false false None "";
   parameter "max_parallel_maintenance_workers" "Async behavior" "int" "2" "1" "1024"
     [] false false None "";
   parameter "wal_buffers" "WAL" "bytes" "-1" "-1" "2097144kB"
     [] true false None "";
   parameter "wal_compression" "WAL" "enum" "zstd" "" ""
     ["off"; "on"; "pglz"; "lz4"; "zstd"] false false (Some 15) "";
   parameter "max_wal_size" "WAL" "bytes" "1GB" "10MB" "100GB"
     [] false false None "";
   parameter "min_wal_size" "WAL" "bytes" "80mb" "10MB" "100GB"
     [] false false None "";
   parameter "checkpoint_completion_target" "WAL" "float" "0.9" "0" "1.0"
     [] false false None "";
   parameter "checkpoint_timeout" "WAL" "duration" "5min" "30s" "24h"
     [] false false None "";
   parameter "wal_sender_timeout" "Replication" "duration" "30s" "0ms" "20d"
     [] false false None "";
   parameter "wal_receiver_timeout" "Replication" "duration" "30s" "0ms" "20d"
     [] false false None "";
   parameter "pg_stat_statements.max" "Extensions" "int" "5000" "0" "1000000"
     [] true false None "pg_stat_statements";
   parameter "pg_stat_statements.track" "Extensions" "enum" "top" "" ""
     ["top"; "all"; "none"] true false None "pg_stat_statements";
   parameter "auth_delay.milliseconds" "Extensions" "int" "0" "0" "3600000"
     [] true false None "auth_delay";
   parameter "auto_explain.log_min_duration" "Extensions" "duration" "10s" "-1" "1h"
     [] true false None "auto_explain";
   parameter "pg_prewarm.autoprewarm" "Extensions" "boolean" "on" "" ""
     [] true false None "pg_prewarm";
   parameter "cron.database_name" "Extensions" "string" "xata" "" ""
     [] true false None "pg_cron";
   parameter "cron.use_background_workers" "Extensions" "string" "on" "" ""
     [] true false None "pg_cron";
   parameter "duckdb.postgres_role" "Extensions" "string" "xata" "" ""
     [] true false None "pg_duckdb";
   parameter "pgaudit.log" "Extensions" "string" "none" "" ""
     [] false false None "pgaudit";
   parameter "pgaudit.log_catalog" "Extensions" "boolean" "on" "" ""
     [] false false None "pgaudit";
   parameter "pgaudit.log_client" "Extensions" "boolean" "off" "" ""
     [] false false None "pgaudit";
   parameter "pgaudit.log_level" "Extensions" "enum" "log" "" ""
     ["debug1"; "debug2"; "debug3"; "debug4"; "debug5"; "info"; "notice"; "warning"; "log"] false false None "pgaudit";
   parameter "pgaudit.log_relation" "Extensions" "boolean" "off" "" ""
     [] false false None "pgaudit";
   parameter "pgaudit.log_rows" "Extensions" "boolean" "off" "" ""
     [] false false None "pgaudit";
   parameter "pgaudit.log_statement" "Extensions" "boolean" "on" "" ""
     [] false false None "pgaudit";
   parameter "pgaudit.log_statement_once" "Extensions" "boolean" "off" "" ""
     [] false false None "pgaudit";
   parameter "pgaudit.role" "Extensions" "string" "" "" ""
     [] false true None "pgaudit"]%string.

(** [configurableParameters] after [init], which panics on an error. *)
Definition configurableParameters : ParametersMap :=
  match loadConfigurableParameters (list_to_map parametersYAML) with
  | Ok m => m
  | Err _ => ∅
  end.

Lemma catalogue_loads : is_ok (loadConfigurableParameters (list_to_map parametersYAML)) = true.
Proof. vm_compute. done. Qed.

Lemma catalogue_size : size configurableParameters = 50%nat.
Proof. vm_compute. done. Qed.

Lemma catalogue_covers : covers_overrides configurableParameters = true.
Proof. vm_compute. done. Qed.

(** ** The defaults validate *)

Section Defaults.
Context `{GoRuntime}.
Variable imageExtensions : option ImageExtensions.

(** The value handed out for one catalogue entry under one override table
    passes the merged specification of that entry. *)
Definition default_ok (overrides : ParametersMap) (kv : string * PostgresParameterSpec) : bool :=
  match merged_at configurableParameters overrides kv.1 with
  | Some spec => match ValidateParameterValue spec (DefaultValue spec) with
                 | None => true | Some _ => false end
  | None => false
  end.

Lemma all_defaults_ok :
  forallb (λ o, forallb (default_ok o.2) (map_to_list configurableParameters))
    defaultParametersByInstanceType = true.
Proof. vm_compute. done. Qed.

#[local] Opaque configurableParameters defaultParametersByInstanceType.

Lemma default_ok_at it overrides k spec :
  (it, overrides) ∈ defaultParametersByInstanceType →
  merged_at configurableParameters overrides k = Some spec →
  ValidateParameterValue spec (DefaultValue spec) = None.
Proof.
  intros Hit Hm. pose proof all_defaults_ok as Hall. rewrite forallb_forall in Hall.
  rewrite list_elem_of_In in Hit. specialize (Hall _ Hit).
  cbn [snd] in Hall. rewrite forallb_forall in Hall.
  assert (is_Some (configurableParameters !! k)) as [base Hb].
  { unfold merged_at in Hm. destruct (overrides !! k); [|eauto].
    by apply fmap_Some in Hm as (b & Hb & _); rewrite Hb. }
  specialize (Hall (k, base)). rewrite <- list_elem_of_In, elem_of_map_to_list in Hall.
  specialize (Hall Hb). unfold default_ok in Hall. cbn [fst] in Hall. rewrite Hm in Hall.
  clear -Hall. by destruct (ValidateParameterValue spec (DefaultValue spec)).
Qed.

(** Merging after the filter gives the same entry as merging the catalogue. *)
Lemma merged_at_filtered mv image libs overrides k spec :
  merged_at (GetConfigurableParameters imageExtensions configurableParameters mv image libs)
    overrides k = Some spec →
  merged_at configurableParameters overrides k = Some spec.
Proof.
  unfold merged_at. destruct (overrides !! k).
  - intros (b & [Hb _]%lookup_GetConfigurableParameters & ->)%fmap_Some. by rewrite Hb.
  - by intros [Hb _]%lookup_GetConfigurableParameters.
Qed.

(** The defaults pass validation: for every instance type the service knows, and
    for every Postgres version, image and set of preloaded libraries, the
    default parameters it hands out are accepted by [ValidateSettings] for the
    same instance type, version, image and libraries, without any error. *)
Theorem defaults_pass_validation it mv image libs :
  it ∈ defaultParametersByInstanceType.*1 →
  ∃ defaults,
    GetDefaultPostgresParameters imageExtensions configurableParameters it mv image libs
      = Ok defaults
    ∧ ValidateSettings imageExtensions configurableParameters it defaults mv image libs = Ok ∅.
Proof.
  intros Hit. unfold GetDefaultPostgresParameters, ValidateSettings.
  destruct (known_instance_config it Hit) as [overrides Ho]. rewrite Ho.
  destruct (covered_overrides imageExtensions _ it overrides mv image libs catalogue_covers Ho)
    as [merged Hm]. rewrite Hm. eexists. split; [done|]. f_equal.
  apply map_eq. intros k. rewrite map_lookup_imap, lookup_fmap, lookup_empty. unfold setting_error.
  destruct (merged !! k) as [spec|] eqn:Hk; [|done]. simpl.
  rewrite (MergeParametersMaps_lookup _ _ _ _ Hm) in Hk. apply merged_at_filtered in Hk.
  by eapply default_ok_at; [apply known_instance_type|].
Qed.

(** ** What the catalogue lets through *)

Definition statement_timeout : PostgresParameterSpec :=
  default (override "" "" "").2 (configurableParameters !! "statement_timeout"%string).

Definition random_page_cost : PostgresParameterSpec :=
  default (override "" "" "").2 (configurableParameters !! "random_page_cost"%string).

Definition min_wal_size : PostgresParameterSpec :=
  default (override "" "" "").2 (configurableParameters !! "min_wal_size"%string).

(** A number without a unit is a zero duration, whatever the number: a
    [statement_timeout] of 9999999999 (milliseconds, for Postgres) is accepted
    under the maximum of 20 days. *)
Lemma unitless_duration_is_accepted :
  parseDuration "9999999999" = Some 0
  ∧ MaxValue statement_timeout = "20d"%string
  ∧ ValidateParameterValue statement_timeout "9999999999" = None.
Proof. vm_compute. done. Qed.

(** NaN passes every float bound, and is not adjusted to one. *)
Lemma nan_is_accepted :
  ValidateParameterValue random_page_cost "NaN" = None
  ∧ AdjustValueToBounds "NaN" random_page_cost = "NaN"%string.
Proof. vm_compute. done. Qed.

(** The catalogue's own default for [min_wal_size] has a unit the parser
    rejects; every instance type overrides it. *)
Lemma min_wal_size_default_is_invalid :
  ValidateParameterValue min_wal_size (DefaultValue min_wal_size)
  = Some (InvalidValue "80mb").
Proof. vm_compute. done. Qed.

End Defaults.

(** ** Witnesses *)

Module Witness.

(** The conversions of amd64. *)
#[local] Instance amd64 : GoRuntime :=
  {| float_out_of_range := λ _, min_int64; unicode_ToLower := λ s, s |}.

Definition catalogue : option ImageExtensions :=
  Some (mkImageExtensions "" "" {[ "postgres"%string := {[ "17"%string :=
    [mkExtensionSpec "pg_stat_statements" "1.11" "" "" true "extension";
     mkExtensionSpec "pgaudit" "17.0" "" "" true ""] ]} ]}).

Definition image : string := "ghcr.io/xataio/postgres-images/cnpg-postgres-plus:17.5".
Definition libs : option (list string) := Some ["pg_stat_statements"%string].

Definition settings : gmap string string :=
  list_to_map [("work_mem", "64MB"); ("statement_timeout", "5min");
               ("pg_stat_statements.track", "all"); ("random_page_cost", "1.25")]%string.

Example parse_tests :
  parseBytes "1.5MB" = Some 1572864 ∧ parseBytes "1.5" = Some 1 ∧ parseBytes "-1MB" = Some (-1048576)
  ∧ parseBytes "1kb" = None ∧ parseBytes "abc123" = None
  ∧ parseDuration "1d" = Some (24 * Hour) ∧ parseDuration "1.5MIN" = Some (90 * Second)
  ∧ parseDuration "1x" = None ∧ parseDuration "1h30m" = Some (90 * Minute).
Proof. vm_compute. done. Qed.

Lemma defaults_pass_validation_witness :
  ∃ defaults,
    GetDefaultPostgresParameters catalogue configurableParameters "xata.large" 17 image libs
      = Ok defaults
    ∧ ValidateSettings catalogue configurableParameters "xata.large" defaults 17 image libs = Ok ∅.
Proof. apply (defaults_pass_validation catalogue "xata.large" 17 image libs). set_solver. Defined.

Definition int_settings : gmap string string := {["max_connections" := " +50"]}.

Lemma valid_settings_are_typed_witness :
  ∃ base specs spec,
    configurableParameters !! "max_connections"%string = Some base
    ∧ keeps_parameter catalogue 17 image libs base = true
    ∧ GetParametersSpec catalogue configurableParameters "xata.small" 17 image libs = Ok specs
    ∧ specs !! "max_connections"%string = Some spec ∧ ParamType base = ParamTypeInt
    ∧ ∃ z, decimal "+50" z ∧ min_int64 ≤ z ≤ max_int64 ∧ between decimal Z.ltb spec z.
Proof.
  destruct (valid_settings_are_typed catalogue configurableParameters "xata.small" int_settings 17 image
              libs "max_connections" " +50") as (base & specs & spec & Hb & Hk & Hs & Hl & Ht & _ & Hv).
  - vm_compute. reflexivity.
  - vm_compute. reflexivity.
  - assert (ParamType base = ParamTypeInt) as Hty.
    { apply (f_equal (fmap ParamType)) in Hb. vm_compute in Hb. by injection Hb. }
    exists base, specs, spec. do 5 (split; [assumption|]). unfold sound_value in Hv. rewrite Ht, Hty in Hv. exact Hv.
Defined.

Lemma ValidateSettings_never_panics_witness :
  ∃ errs, ValidateSettings catalogue configurableParameters "xata.micro" settings 17 image libs
          = Ok errs.
Proof.
  apply (ValidateSettings_never_panics catalogue configurableParameters "xata.micro" settings 17
           image libs).
  vm_compute. done.
Defined.

Definition wrong_settings : gmap string string :=
  list_to_map [("work_mem", "64 mb"); ("pgaudit.log", "all"); ("huge_pages", "on")]%string.

Definition wrong_errors : gmap string value_error :=
  list_to_map [("work_mem", InvalidValue "64 mb"); ("pgaudit.log", UnknownParameter "pgaudit.log")]%string.

Lemma filtered_settings_errors_witness :
  ValidateSettings catalogue configurableParameters "xata.micro"
      (FilterConfigurableParameters catalogue configurableParameters wrong_settings 17 image libs)
      17 image libs
    = Ok (filter (λ ke, unknown_parameter ke.2 = false) wrong_errors)
  ∧ (wrong_errors = ∅ →
     FilterConfigurableParameters catalogue configurableParameters wrong_settings 17 image libs
     = wrong_settings).
Proof.
  apply (filtered_settings_errors catalogue configurableParameters "xata.micro" wrong_settings 17
           image libs wrong_errors).
  vm_compute. reflexivity.
Defined.

Definition defaults_small : gmap string string :=
  match GetDefaultPostgresParameters catalogue configurableParameters "xata.small" 17 image libs with
  | Ok m => m
  | Err _ => ∅
  end.

Lemma defaults_small_ok :
  GetDefaultPostgresParameters catalogue configurableParameters "xata.small" 17 image libs
  = Ok defaults_small.
Proof.
  assert (∀ r : res config_error (gmap string string),
            is_ok r = true → r = Ok (match r with Ok m => m | Err _ => ∅ end)) as Hok by by intros [].
  apply Hok. vm_compute. reflexivity.
Qed.

Lemma default_is_not_custom_witness :
  ∃ ty, DetermineConfigValueType catalogue configurableParameters "xata.small" "shared_buffers"
          "512MB" 17 image libs = (ty, None) ∧ ty ≠ ConfigValueCustom.
Proof.
  refine (default_is_not_custom catalogue configurableParameters "xata.small" 17 image libs
           defaults_small "shared_buffers" "512MB" defaults_small_ok _).
  vm_compute. reflexivity.
Defined.

Definition max_connections_small : PostgresParameterSpec :=
  mkSpec ParamTypeInt "Connections" "" "100" "0" "200" [] "" "" true false None "".

Lemma adjusted_value_is_accepted_witness :
  ValidateParameterValue max_connections_small (AdjustValueToBounds "5000" max_connections_small)
    = None
  ∧ (ValidateParameterValue max_connections_small "5000" = None →
     AdjustValueToBounds "5000" max_connections_small = "5000"%string).
Proof.
  apply (adjusted_value_is_accepted max_connections_small "5000" (PgInt 5000)); try done.
  repeat split; try done.
  - right. exists (PgInt 0). done.
  - right. exists (PgInt 200). done.
  - intros x y. vm_compute. intros [= <-] [= <-]. done.
Defined.

End Witness.
