(* ===== verification/BranchTypes.v ===== *)
(** * The Branch resource: [services/branch-operator/api/v1alpha1/branch_types.go]

    The whole [Branch] object with its accessors.  A Go pointer is an
    [option], a nil map the empty map where nothing distinguishes them.
    Kubernetes quantities are third-party: the class [Quantities] lists the
    operations the code uses. *)

From S2P Require Import Prelude GoStrings.

#[local] Open Scope Z_scope.

(** [k8s.io/apimachinery/pkg/api/resource] *)
Class Quantities := {
  Quantity : Type;
  ParseQuantity : string → option Quantity;
  QuantityString : Quantity → string;
  QuantityAdd : Quantity → Quantity → Quantity;
  QuantitySub : Quantity → Quantity → Quantity;
  QuantityCmp : Quantity → Quantity → comparison;
  QuantityValue : Quantity → Z;
  QuantityMilliValue : Quantity → Z;
  QuantityZero : Quantity
}.

(** A run-time panic of the calling goroutine. *)
Inductive panic :=
| BadQuantity (s : string)
| NilPointer.

Definition MustParse `{Quantities} (s : string) : res panic Quantity :=
  match ParseQuantity s with Some q => Ok q | None => Err (BadQuantity s) end.

(** ** Restore *)

Inductive RestoreType :=
| RestoreTypeVolumeSnapshot
| RestoreTypeXVolClone
| RestoreTypeObjectStore
| RestoreTypeBaseBackup.

#[global] Instance RestoreType_eq_dec : EqDecision RestoreType.
Proof. solve_decision. Defined.

(** [corev1.SecretKeySelector] *)
Record SecretKeySelector := mkSelector {
  sel_Name : string;
  sel_Key : string
}.

Record RestoreSpec := mkRestore {
  rs_Type : RestoreType;
  rs_Name : string;
  rs_Timestamp : option Z;
  rs_ServerName : string;
  rs_CipherPassphraseSecretRef : option SecretKeySelector
}.

Definition is_restore (ty : RestoreType) (r : option RestoreSpec) : bool :=
  match r with Some r => bool_decide (rs_Type r = ty) | None => false end.

Definition IsXVolCloneType := is_restore RestoreTypeXVolClone.
Definition IsVolumeSnapshotType := is_restore RestoreTypeVolumeSnapshot.
Definition IsObjectStoreType := is_restore RestoreTypeObjectStore.

Definition XVolCloneName (parentBranchName childBranchName : string) : string :=
  parentBranchName +:+ "-" +:+ childBranchName.

(** ** The cluster *)

Record StorageSpec := mkStorage {
  Size : string;
  StorageClass : option string;
  VolumeAttributesClass : option string;
  VolumeSnapshotClass : option string;
  MountPropagation : option string
}.

Record PostgresConfiguration := mkPostgres {
  Parameters : list (string * string);
  SharedPreloadLibraries : list string
}.

Record ScaleToZeroConfiguration := mkScaleToZero {
  stz_Enabled : bool;
  InactivityPeriodMinutes : Z
}.

Inductive HibernationMode := HibernationModeEnabled | HibernationModeDisabled.

#[global] Instance HibernationMode_eq_dec : EqDecision HibernationMode.
Proof. solve_decision. Defined.

Definition hibernation_enabled (hm : option HibernationMode) : bool :=
  bool_decide (hm = Some HibernationModeEnabled).

(** [corev1.ResourceRequirements] with the two resources the code sets. *)
Record ResourceList `{Quantities} := mkResources {
  res_cpu : option Quantity;
  res_memory : option Quantity
}.

Record ResourceRequirements `{Quantities} := mkRequirements {
  Requests : ResourceList;
  Limits : ResourceList
}.

Record ClusterSpec `{Quantities} := mkClusterSpec {
  Name : option string;
  Image : string;
  Instances : Z;
  Resources : ResourceRequirements;
  Storage : StorageSpec;
  Postgres : option PostgresConfiguration;
  ScaleToZero : option ScaleToZeroConfiguration;
  Hibernation : option HibernationMode;
  NodeSelector : option (gmap string string);
  SmartShutdownTimeout : option Z
}.

(** ** Backups *)

Inductive BackupMethod := BackupMethodUnset | BackupMethodBarman | BackupMethodPgBackRest.

#[global] Instance BackupMethod_eq_dec : EqDecision BackupMethod.
Proof. solve_decision. Defined.

Inductive WALArchivingMode :=
| WALArchivingUnset | WALArchivingModeEnabled | WALArchivingModeDisabled.

#[global] Instance WALArchivingMode_eq_dec : EqDecision WALArchivingMode.
Proof. solve_decision. Defined.

Record PgBackRestS3Spec := mkS3 {
  s3_Bucket : string;
  s3_Region : string;
  s3_Endpoint : string;
  s3_CredentialsSecretName : string;
  s3_KeyType : string
}.

Record PgBackRestGCSSpec := mkGCS {
  gcs_Bucket : string;
  gcs_ServiceAccountEmail : string;
  gcs_KeyType : string
}.

Record PgBackRestAzureSpec := mkAzure {
  az_Account : string;
  az_Container : string
}.

Record PgBackRestSpec := mkPgBackRest {
  S3 : option PgBackRestS3Spec;
  GCS : option PgBackRestGCSSpec;
  Azure : option PgBackRestAzureSpec;
  CipherPassphraseSecretRef : option SecretKeySelector;
  RetentionFullDays : Z;
  CompressType : string;
  CompressLevel : option Z;
  ArchiveAsync : bool;
  ArchivePushQueueMax : string;
  ArchiveGetQueueMax : string;
  RepoPath : string;
  StanzaName : string
}.

(** [ScheduledBackupSpec] has one field, its schedule. *)
Record BackupSpec := mkBackup {
  Method : BackupMethod;
  Retention : string;
  WALArchiving : WALArchivingMode;
  ScheduledBackup : option string;
  ServerName : string;
  PgBackRest : option PgBackRestSpec
}.

Definition IsWALArchivingDisabled (b : option BackupSpec) : bool :=
  match b with Some b => bool_decide (WALArchiving b = WALArchivingModeDisabled) | None => false end.

Definition IsScheduledBackupEnabled (b : option BackupSpec) : bool :=
  match b with Some b => bool_decide (is_Some (ScheduledBackup b)) | None => false end.

Definition RequiresBarmanPlugin (b : option BackupSpec) : bool :=
  match b with
  | Some b =>
      negb (bool_decide (Method b = BackupMethodPgBackRest))
      && (bool_decide (WALArchiving b = WALArchivingModeEnabled)
          || bool_decide (is_Some (ScheduledBackup b)))
  | None => false
  end.

(** [IsPgBackRest], returning the pgbackrest settings it guarantees. *)
Definition pgbackrest_of (b : option BackupSpec) : option PgBackRestSpec :=
  match b with
  | Some b => if bool_decide (Method b = BackupMethodPgBackRest) then PgBackRest b else None
  | None => None
  end.

Definition IsPgBackRest (b : option BackupSpec) : bool :=
  bool_decide (is_Some (pgbackrest_of b)).

Definition GetStanzaName (p : PgBackRestSpec) (branchName : string) : string :=
  if bool_decide (StanzaName p = ""%string) then branchName else StanzaName p.

Definition GetRepoPath (p : PgBackRestSpec) (branchName : string) : string :=
  if bool_decide (RepoPath p = ""%string) then GetStanzaName p branchName else RepoPath p.

(** ** The pooler *)

Inductive PoolMode := PoolModeSession | PoolModeTransaction.

Record PoolerSpec := mkPooler {
  po_Instances : Z;
  Mode : PoolMode;
  MaxClientConn : string;
  DefaultPoolSize : string
}.

(** ** The branch *)

Record BranchSpec `{Quantities} := mkBranchSpec {
  Restore : option RestoreSpec;
  Cluster : ClusterSpec;
  Backup : option BackupSpec;
  Pooler : option PoolerSpec;
  InheritedLabels : option (gmap string string)
}.

Record BranchStatus := mkStatus {
  PrimaryXVolName : string;
  FirstRecoverabilityPoint : string;
  LastSuccessfulBackup : string;
  LastFailedBackup : string;
  LastRecoverabilityPoint : string
}.

Record Branch `{Quantities} := mkBranch {
  br_Name : string;
  br_ResourceVersion : string;
  br_Labels : gmap string string;
  br_Annotations : gmap string string;
  br_Spec : BranchSpec;
  br_Status : BranchStatus
}.

Definition WakeupPoolAnnotation : string := "xata.io/wakeup-pool".
Definition AwokenByXVolAnnotation : string := "xata.io/awoken-by-xvol".
Definition AwaitingWakeupAnnotation : string := "xata.io/awaiting-wakeup".

(** [strconv.ParseBool], [None] on an error. *)
Definition ParseBool (s : string) : option bool :=
  if bool_decide (s ∈ ["1"; "t"; "T"; "true"; "TRUE"; "True"]%string) then Some true
  else if bool_decide (s ∈ ["0"; "f"; "F"; "false"; "FALSE"; "False"]%string) then Some false
  else None.

Section Accessors.
Context `{Quantities}.

Definition ClusterName (b : Branch) : string := default ""%string (Name (Cluster (br_Spec b))).
Definition HasClusterName (b : Branch) : bool :=
  bool_decide (is_Some (Name (Cluster (br_Spec b)))).

Definition HasBackupData (b : Branch) : bool :=
  negb (bool_decide (FirstRecoverabilityPoint (br_Status b) = ""%string))
  || negb (bool_decide (LastSuccessfulBackup (br_Status b) = ""%string))
  || negb (bool_decide (LastRecoverabilityPoint (br_Status b) = ""%string)).

Definition HasWakeupPoolAnnotation (b : Branch) : bool :=
  bool_decide (is_Some (br_Annotations b !! WakeupPoolAnnotation)).

Definition WakeupPoolName (b : Branch) : string :=
  default ""%string (br_Annotations b !! WakeupPoolAnnotation).

Definition IsAwaitingWakeup (b : Branch) : bool :=
  match br_Annotations b !! AwaitingWakeupAnnotation with
  | Some value => default false (ParseBool value)
  | None => false
  end.

(** ** Functional updates *)

Definition set_annotations (f : gmap string string → gmap string string) (b : Branch) : Branch :=
  mkBranch _ (br_Name b) (br_ResourceVersion b) (br_Labels b) (f (br_Annotations b)) (br_Spec b)
    (br_Status b).

Definition set_spec (f : BranchSpec → BranchSpec) (b : Branch) : Branch :=
  mkBranch _ (br_Name b) (br_ResourceVersion b) (br_Labels b) (br_Annotations b) (f (br_Spec b))
    (br_Status b).

Definition set_cluster (f : ClusterSpec → ClusterSpec) : Branch → Branch :=
  set_spec (λ s, mkBranchSpec _ (Restore s) (f (Cluster s)) (Backup s) (Pooler s) (InheritedLabels s)).

Definition set_restore (f : option RestoreSpec → option RestoreSpec) : Branch → Branch :=
  set_spec (λ s, mkBranchSpec _ (f (Restore s)) (Cluster s) (Backup s) (Pooler s) (InheritedLabels s)).

Definition set_backup (f : option BackupSpec → option BackupSpec) : Branch → Branch :=
  set_spec (λ s, mkBranchSpec _ (Restore s) (Cluster s) (f (Backup s)) (Pooler s) (InheritedLabels s)).

Definition set_pooler (p : option PoolerSpec) : Branch → Branch :=
  set_spec (λ s, mkBranchSpec _ (Restore s) (Cluster s) (Backup s) p (InheritedLabels s)).

Definition set_name (n : option string) (c : ClusterSpec) : ClusterSpec :=
  mkClusterSpec _ n (Image c) (Instances c) (Resources c) (Storage c) (Postgres c) (ScaleToZero c)
    (Hibernation c) (NodeSelector c) (SmartShutdownTimeout c).

Definition set_image (i : string) (c : ClusterSpec) : ClusterSpec :=
  mkClusterSpec _ (Name c) i (Instances c) (Resources c) (Storage c) (Postgres c) (ScaleToZero c)
    (Hibernation c) (NodeSelector c) (SmartShutdownTimeout c).

Definition set_instances (n : Z) (c : ClusterSpec) : ClusterSpec :=
  mkClusterSpec _ (Name c) (Image c) n (Resources c) (Storage c) (Postgres c) (ScaleToZero c)
    (Hibernation c) (NodeSelector c) (SmartShutdownTimeout c).

Definition set_resources (r : ResourceRequirements) (c : ClusterSpec) : ClusterSpec :=
  mkClusterSpec _ (Name c) (Image c) (Instances c) r (Storage c) (Postgres c) (ScaleToZero c)
    (Hibernation c) (NodeSelector c) (SmartShutdownTimeout c).

Definition set_storage (s : StorageSpec) (c : ClusterSpec) : ClusterSpec :=
  mkClusterSpec _ (Name c) (Image c) (Instances c) (Resources c) s (Postgres c) (ScaleToZero c)
    (Hibernation c) (NodeSelector c) (SmartShutdownTimeout c).

Definition set_postgres (p : option PostgresConfiguration) (c : ClusterSpec) : ClusterSpec :=
  mkClusterSpec _ (Name c) (Image c) (Instances c) (Resources c) (Storage c) p (ScaleToZero c)
    (Hibernation c) (NodeSelector c) (SmartShutdownTimeout c).

Definition set_scale_to_zero (z : option ScaleToZeroConfiguration) (c : ClusterSpec) : ClusterSpec :=
  mkClusterSpec _ (Name c) (Image c) (Instances c) (Resources c) (Storage c) (Postgres c) z
    (Hibernation c) (NodeSelector c) (SmartShutdownTimeout c).

Definition set_hibernation (h : option HibernationMode) (c : ClusterSpec) : ClusterSpec :=
  mkClusterSpec _ (Name c) (Image c) (Instances c) (Resources c) (Storage c) (Postgres c)
    (ScaleToZero c) h (NodeSelector c) (SmartShutdownTimeout c).

Definition set_node_selector (n : option (gmap string string)) (c : ClusterSpec) : ClusterSpec :=
  mkClusterSpec _ (Name c) (Image c) (Instances c) (Resources c) (Storage c) (Postgres c)
    (ScaleToZero c) (Hibernation c) n (SmartShutdownTimeout c).

Definition set_shutdown_timeout (t : option Z) (c : ClusterSpec) : ClusterSpec :=
  mkClusterSpec _ (Name c) (Image c) (Instances c) (Resources c) (Storage c) (Postgres c)
    (ScaleToZero c) (Hibernation c) (NodeSelector c) t.

End Accessors.

(** The setters compute on the projections. *)
#[global] Arguments set_annotations {_} f b /.
#[global] Arguments set_spec {_} f b /.
#[global] Arguments set_cluster {_} f b /.
#[global] Arguments set_restore {_} f b /.
#[global] Arguments set_backup {_} f b /.
#[global] Arguments set_pooler {_} p b /.
