(* ===== verification/PgBackRestNames.v ===== *)
(** * Names the operators agree on: [internal/pgbackrest]

    The Secrets, ServiceAccounts, repository paths and pod mounts that the
    branch operator and the clusters service derive from a branch or cluster
    name, and the Cloud Storage URI of a repository folder. *)

From S2P Require Import Prelude GoStrings.

Definition KeyTypeWebID : string := "web-id".
Definition CipherSecretSuffix : string := "-pgbackrest".
Definition CipherPassphraseKey : string := "cipher-passphrase".
Definition RestoreCipherPassphraseKey : string := "restore-cipher-passphrase".
Definition TokenKey : string := "token".
Definition GCSCredentialsKey : string := "gcs-credentials.json".
Definition tokenDir : string := "pgbackrest".
Definition projectedDir : string := "/projected".

Definition CipherSecretName (branchName : string) : string := branchName +:+ CipherSecretSuffix.
Definition ServiceAccountName (branchName : string) : string := branchName +:+ "-pgbackrest".
Definition WebIdentitySecretName (clusterName : string) : string :=
  clusterName +:+ "-pgbackrest-web-identity".
Definition PgBackRestRepoPath (namespace branchName : string) : string :=
  "system:serviceaccount:" +:+ namespace +:+ ":" +:+ ServiceAccountName branchName.

(** ** What the pods mount *)

(** [corev1.ProjectedVolumeSource] with its one optional Secret: the items are
    keys and the paths they appear at. *)
Record ProjectedVolume := mkVolume {
  pv_Secret : string;
  pv_Items : list (string * string);
  pv_Optional : bool
}.

(** [path.Join] of clean elements. *)
Definition projectedPath (key : string) : string :=
  projectedDir +:+ "/" +:+ tokenDir +:+ "/" +:+ key.

Definition webIdentityVolume (clusterName : string) (keys : list string) : ProjectedVolume :=
  mkVolume (WebIdentitySecretName clusterName)
    (map (λ key, (key, tokenDir +:+ "/" +:+ key)) keys) true.

Definition WebIdentity (clusterName roleARN : string) : ProjectedVolume * list (string * string) :=
  (webIdentityVolume clusterName [TokenKey],
   [("AWS_ROLE_ARN", roleARN); ("AWS_WEB_IDENTITY_TOKEN_FILE", projectedPath TokenKey)]).

Definition GCSWebIdentity (clusterName : string) : ProjectedVolume * list (string * string) :=
  (webIdentityVolume clusterName [TokenKey; GCSCredentialsKey],
   [("PGBACKREST_REPO1_GCS_KEY", projectedPath GCSCredentialsKey)]).

(** The value [GCSCredentials] hands to [json.Marshal]. *)
Record GCSCredentialFile := mkCredentialFile {
  cf_type : string;
  cf_audience : string;
  cf_subject_token_type : string;
  cf_token_url : string;
  cf_source_file : string;
  cf_source_format : string
}.

Definition GCSCredentials (pool issuer : string) : GCSCredentialFile :=
  mkCredentialFile "external_account" ("identitynamespace:" +:+ pool +:+ ":" +:+ issuer)
    "urn:ietf:params:oauth:token-type:jwt" "https://sts.googleapis.com/v1/token"
    (projectedPath TokenKey) "text".

(** ** The URI of a repository folder *)

(** [strings.Trim(s, "/")] *)
Fixpoint trim_left (s : string) : string :=
  match s with
  | String c s' => if bool_decide (c = "/"%char) then trim_left s' else s
  | EmptyString => EmptyString
  end.

Fixpoint trim_right (s : string) : string :=
  match s with
  | EmptyString => EmptyString
  | String c s' =>
      match trim_right s' with
      | EmptyString => if bool_decide (c = "/"%char) then EmptyString else String c EmptyString
      | t => String c t
      end
  end.

Definition TrimSlashes (s : string) : string := trim_right (trim_left s).

Definition hex_digit (n : N) : ascii :=
  if (n <? 10)%N then ascii_of_N (48 + n) else ascii_of_N (55 + n).

Definition is_alnum (c : ascii) : bool :=
  is_digit c || is_upper c || is_upper (ascii_of_N (N_of_ascii c - 32)) && (32 <=? N_of_ascii c)%N.

(** [shouldEscape] for a path and for a host; the other bytes are kept. *)
Definition path_byte (c : ascii) : bool :=
  is_alnum c || bool_decide (c ∈ ["-"; "_"; "."; "~"; "$"; "&"; "+"; ","; "/"; ":"; ";"; "="; "@"]%char).
Definition host_byte (c : ascii) : bool :=
  is_alnum c || bool_decide (c ∈ ["-"; "_"; "."; "~"; "!"; "$"; "&"; "'"; "("; ")"; "*"; "+"; ","; ";";
    "="; ":"; "["; "]"; "<"; ">"; double_quote]%char).

Fixpoint escape (keep : ascii → bool) (s : string) : string :=
  match s with
  | EmptyString => EmptyString
  | String c s =>
      if keep c then String c (escape keep s)
      else String "%" (String (hex_digit (N_of_ascii c / 16))
             (String (hex_digit (N_of_ascii c mod 16)) (escape keep s)))
  end.

(** [(&url.URL{Scheme: "gs", ...}).String()] of an absolute path. *)
Definition GCSFolderURI (bucket folder : string) : string :=
  "gs://" +:+ escape host_byte bucket +:+ escape path_byte ("/" +:+ TrimSlashes folder +:+ "/").

Example escaped_folder : GCSFolderURI "backups" "branch #1" = "gs://backups/branch%20%231/".
Proof. vm_decide. Qed.
