(* ===== verification/BranchBuilder.v ===== *)
(** * Building Branch resources: [services/clusters/branchbuilder.go],
    [overrides.go], [vac.go]

    Each [BranchBuilder] method is a function on the branch under
    construction.  Building works on values: the parent's Postgres settings
    that the Go code shares with the child are only read afterwards.  A
    malformed quantity panics in Go ([resource.MustParse]), as does a missing
    Postgres section in an update. *)

From stdpp Require Import pretty sorting.
From S2P Require Import Prelude GoStrings GoFloat PostgresVersions Extensions BranchTypes PgBackRestNames.

#[local] Open Scope Z_scope.
#[local] Open Scope go_scope.

(** ** Requests ([gen/proto/clusters/v1]) *)

(** The generated getters return zero values on nil messages: an absent
    configuration is the record of zero values. *)
Record ScaleToZeroMsg := mkStzMsg {
  m_Enabled : bool;
  m_InactivityPeriodMinutes : Z
}.

Record BackupConfiguration := mkBackupMsg {
  BackupSchedule : string;
  BackupRetention : string;
  BackupsEnabled : bool;
  BackupMethodName : string
}.

Record ClusterConfiguration := mkConfiguration {
  cc_NumInstances : Z;
  cc_StorageSize : Z;
  cc_ImageName : string;
  cc_Memory : string;
  cc_ScaleToZero : option ScaleToZeroMsg;
  cc_VcpuRequest : string;
  cc_VcpuLimit : string;
  cc_Parameters : gmap string string;
  cc_PreloadLibraries : list string;
  cc_StorageQosClass : option string
}.

Inductive DataSource :=
| ClusterSnapshot (clusterId : string)
| ContinuousBackup (clusterId : string) (timestamp : option Z)
| BaseBackup (backupId : string).

Record CreateRequest := mkCreate {
  cr_Id : string;
  cr_Configuration : ClusterConfiguration;
  cr_ParentId : string;
  cr_OrganizationId : string;
  cr_ProjectId : string;
  cr_BackupConfiguration : option BackupConfiguration;
  cr_DataSource : option DataSource;
  cr_UsePool : bool;
  cr_UseXatastor : bool;
  cr_IdempotencyKey : string
}.

Record UpdateConfiguration := mkUpdate {
  u_NumInstances : option Z;
  u_StorageSize : option Z;
  u_ImageName : option string;
  u_Memory : option string;
  u_Hibernate : option bool;
  u_ScaleToZero : option ScaleToZeroMsg;
  u_VcpuRequest : option string;
  u_VcpuLimit : option string;
  u_Parameters : gmap string string;
  u_PreloadLibraries : list string;
  u_BackupConfiguration : option BackupConfiguration;
  u_StorageQosClass : option string
}.

(** ** Constants *)

Definition LabelOrgID : string := "xata.io/organizationID".
Definition LabelProjectID : string := "xata.io/projectID".
Definition LabelBranchID : string := "xata.io/branchID".
Definition LabelXatastorAntiAffinityGroup : string := "xatastor.xata.io/anti-affinity-group".
Definition AnnotationIdempotencyKey : string := "xata.io/idempotency-key".
Definition XataUtilsPreloadName : string := "xatautils".
Definition DefaultPgBackRestRetentionDays : Z := 7.
Definition DefaultPgBackRestCompressType : string := "lz4".
Definition DefaultPgBackRestArchiveAsync : bool := true.
Definition DefaultPgBackRestPushQueueMax : string := "2GiB".
Definition DefaultPgBackRestGetQueueMax : string := "2GiB".

Inductive CloudProvider := CloudProviderAWS | CloudProviderGCP | CloudProviderAzure | OtherProvider.

Definition parse_provider (s : string) : CloudProvider :=
  if bool_decide (s = "aws"%string) then CloudProviderAWS
  else if bool_decide (s = "gcp"%string) then CloudProviderGCP
  else if bool_decide (s = "azure"%string) then CloudProviderAzure else OtherProvider.

(** ** Storage QoS classes ([vac.go]) *)

Definition volumeAttributesClassNames : gmap string (gmap string string) :=
  {[ "xatastor" := list_to_map [
       ("micro", "xatastor-micro"); ("small", "xatastor-small"); ("medium", "xatastor-medium");
       ("large", "xatastor-large"); ("xlarge", "xatastor-xlarge"); ("2xlarge", "xatastor-2xlarge");
       ("4xlarge", "xatastor-4xlarge"); ("8xlarge", "xatastor-8xlarge")] ]}%string.

Definition vac_for (storageClass qosClass : string) : option string :=
  volumeAttributesClassNames !! storageClass ≫= λ m, m !! qosClass.

(** The loop returns the first match; the names are distinct, so the order of
    the map does not matter. *)
Definition storageQoSClassForVAC (storageClass vac : string) : option string :=
  fst <$> (snd <$> list_find (λ kv, kv.2 = vac)
    (map_to_list (default ∅ (volumeAttributesClassNames !! storageClass)))).

Definition storageWithQoSClass (storage : StorageSpec) (useStorageQoSClasses : bool)
    (storageQoSClass : string) : StorageSpec :=
  if negb useStorageQoSClasses then storage
  else match StorageClass storage with
       | None => storage
       | Some sc =>
           match vac_for sc storageQoSClass with
           | None => storage
           | Some vac => mkStorage (Size storage) (StorageClass storage) (Some vac)
                           (VolumeSnapshotClass storage) (MountPropagation storage)
           end
       end.

(** ** Mandatory Postgres parameters ([overrides.go]) *)

Fixpoint join (sep : string) (l : list string) : string :=
  match l with
  | [] => ""
  | [x] => x
  | x :: l => x +:+ sep +:+ join sep l
  end.

Definition privilegedExtensions (imageExtensions : option ImageExtensions) (image : string)
    : string :=
  join ", " (sort_strings
    (map Extensions.Name (GetExtensions imageExtensions (ShortImageName image)))).

Definition MandatoryPostgresParameters (imageExtensions : option ImageExtensions)
    (image : string) : gmap string string :=
  list_to_map [
    ("lc_messages", "C.utf8");
    ("lc_monetary", "C.utf8");
    ("lc_numeric", "C.utf8");
    ("lc_time", "C.utf8");
    ("pg_stat_statements.track_utility", "off");
    ("recovery_init_sync_method", "syncfs");
    ("xatautils.privileged_role", "xata");
    ("xatautils.privileged_extensions", privilegedExtensions imageExtensions image);
    ("xatautils.extension_custom_scripts_path", "/etc/xatautils/extensions");
    ("xatautils.reserved_memberships", "xata_superuser, pg_read_server_files, pg_write_server_files, pg_execute_server_program");
    ("xatautils.reserved_roles", "cnpg_pooler_pgbouncer, pgbouncer, postgres, streaming_replica, xata_superuser");
    ("xatautils.privileged_role_allowed_configs", "auth_delay.*, auto_explain.*, log_lock_waits, log_min_duration_statement, log_min_messages, log_replication_commands, log_statement, log_temp_files, pg_net.batch_size, pg_net.ttl, pg_stat_statements.*, pgaudit.log, pgaudit.log_catalog, pgaudit.log_client, pgaudit.log_level, pgaudit.log_relation, pgaudit.log_rows, pgaudit.log_statement, pgaudit.log_statement_once, pgaudit.role, pgrst.*, plan_filter.*, safeupdate.enabled, session_replication_role, track_io_timing, wal_compression")]%string.

(** ** Conversions *)

(** Sorted by name. *)
Definition postgresParametersFromMap (params : gmap string string) : list (string * string) :=
  omap (λ k, (λ v, (k, v)) <$> params !! k) (sort_strings (elements (dom params))).

(** The loop that fills a map from a parameter list: the last entry wins. *)
Definition parameters_to_map (ps : list (string * string)) : gmap string string :=
  foldl (λ m kv, <[kv.1 := kv.2]> m) ∅ ps.

(** [int32(n)] *)
Definition to_int32 (n : Z) : Z := (n + 2 ^ 31) mod 2 ^ 32 - 2 ^ 31.

Definition scaleToZeroConfig (s : option ScaleToZeroMsg) : option ScaleToZeroConfiguration :=
  (λ s, mkScaleToZero (m_Enabled s) (to_int32 (m_InactivityPeriodMinutes s))) <$> s.

Definition storageSize (sizeGi : Z) : string :=
  if sizeGi =? 0 then "" else pretty sizeGi +:+ "Gi".

(** [fmt.Sscanf(s, "%dd", &parsed)]: blanks, an integer, then the letter d;
    what follows is not read. *)
Definition scan_blanks : list string :=
  filter (λ r, r ≠ String (byte_of 10) "") space_runes.

Definition sscanf_days (s : string) : option Z :=
  let s := strip_all (String.length s) scan_blanks s in
  let '(_, body) := split_sign s in
  let digits := take_while is_digit body in
  let sign := take_str (String.length s - String.length body) s in
  match CutPrefix "d" (drop_while is_digit body) with
  | Some _ => ParseInt10 (sign +:+ digits)
  | None => None
  end.

Definition positive_days (s : string) : option Z :=
  match sscanf_days s with Some n => if 0 <? n then Some n else None | None => None end.

Definition default_pgbackrest (retention : string) : PgBackRestSpec :=
  mkPgBackRest None None None None (default DefaultPgBackRestRetentionDays (positive_days retention))
    DefaultPgBackRestCompressType None DefaultPgBackRestArchiveAsync
    DefaultPgBackRestPushQueueMax DefaultPgBackRestGetQueueMax "" "".

Definition backupSpec (b : option BackupConfiguration) : option BackupSpec :=
  match b with
  | None => None
  | Some b =>
      if negb (BackupsEnabled b) then None
      else
        let sbSpec :=
          if bool_decide (BackupSchedule b = ""%string) then None else Some (BackupSchedule b) in
        if bool_decide (BackupMethodName b = "pgbackrest"%string)
        then Some (mkBackup BackupMethodPgBackRest (BackupRetention b) WALArchivingUnset sbSpec ""
                     (Some (default_pgbackrest (BackupRetention b))))
        else Some (mkBackup BackupMethodUnset (BackupRetention b) WALArchivingUnset sbSpec "" None)
  end.

Definition restoreSpec (ds : option DataSource) : option RestoreSpec :=
  match ds with
  | Some (ClusterSnapshot id) => Some (mkRestore RestoreTypeVolumeSnapshot id None "" None)
  | Some (ContinuousBackup id ts) => Some (mkRestore RestoreTypeObjectStore id ts "" None)
  | Some (BaseBackup id) => Some (mkRestore RestoreTypeBaseBackup id None "" None)
  | None => None
  end.

Section Builder.
Context `{Quantities}.
Variable imageExtensions : option ImageExtensions.

Definition poolerMemoryReservation : Quantity :=
  default QuantityZero (ParseQuantity "100Mi").

(** [resource.MustParse] of an optional field. *)
Definition parse_if_set (s : string) : res panic (option Quantity) :=
  if bool_decide (s = ""%string) then Ok None else res_map Some (MustParse s).

Definition resourceRequirements (vcpuRequest vcpuLimit memory : string)
    : res panic ResourceRequirements :=
  cpuReq <~ parse_if_set vcpuRequest;
  mem <~ parse_if_set memory;
  cpuLim <~ parse_if_set vcpuLimit;
  let mem := (λ m, QuantitySub m poolerMemoryReservation) <$> mem in
  Ok (mkRequirements _ (mkResources _ cpuReq mem) (mkResources _ cpuLim mem)).

(** ** The builder methods *)

Definition FromCreateClusterRequest (r : CreateRequest) : res panic Branch :=
  let cfg := cr_Configuration r in
  resources <~ resourceRequirements (cc_VcpuRequest cfg) (cc_VcpuLimit cfg) (cc_Memory cfg);
  Ok (mkBranch _ (cr_Id r) ""
        (list_to_map [(LabelOrgID, cr_OrganizationId r); (LabelProjectID, cr_ProjectId r)])
        (if bool_decide (cr_IdempotencyKey r = ""%string) then ∅
         else {[ AnnotationIdempotencyKey := cr_IdempotencyKey r ]})
        (mkBranchSpec _ (restoreSpec (cr_DataSource r))
           (mkClusterSpec _ (Some (cr_Id r)) (cc_ImageName cfg) (cc_NumInstances cfg) resources
              (mkStorage (storageSize (cc_StorageSize cfg)) None None None
                 (Some "HostToContainer"%string))
              (Some (mkPostgres (postgresParametersFromMap (cc_Parameters cfg))
                       (cc_PreloadLibraries cfg)))
              (scaleToZeroConfig (cc_ScaleToZero cfg)) None None None)
           (backupSpec (cr_BackupConfiguration r)) None
           (Some (list_to_map [(LabelOrgID, cr_OrganizationId r); (LabelProjectID, cr_ProjectId r);
                               (LabelBranchID, cr_Id r);
                               (LabelXatastorAntiAffinityGroup, cr_Id r)])))
        (mkStatus "" "" "" "" "")).

(** The fields a child takes from its parent's cluster. *)
Definition inherit_cluster (parent child : ClusterSpec) : ClusterSpec :=
  mkClusterSpec _ (Name child) (Image parent) (Instances child) (Resources parent) (Storage parent)
    (Postgres parent) (ScaleToZero child) (Hibernation child) (NodeSelector child)
    (SmartShutdownTimeout parent).

Definition adopt_wakeup_pool (parent b : Branch) : Branch :=
  if HasWakeupPoolAnnotation parent && IsVolumeSnapshotType (Restore (br_Spec b))
  then
    set_cluster (set_name None)
      (set_restore (fmap (λ r, mkRestore RestoreTypeXVolClone (rs_Name r) (rs_Timestamp r)
                                 (rs_ServerName r) (rs_CipherPassphraseSecretRef r)))
         (set_annotations (λ a, <[AwaitingWakeupAnnotation := "true"%string]>
                                  (<[WakeupPoolAnnotation := WakeupPoolName parent]> a)) b))
  else b.

Definition WithOverridesFromParent (parent : option Branch) (b : Branch) : Branch :=
  match parent with
  | None => b
  | Some parent =>
      let b := set_cluster (inherit_cluster (Cluster (br_Spec parent))) b in
      let b := adopt_wakeup_pool parent b in
      let b := set_cluster (set_instances 1) b in
      match Backup (br_Spec parent) with
      | None => set_backup (λ _, None) b
      | Some _ => b
      end
  end.

Definition update_hibernation (h : option bool) (b : Branch) : Branch :=
  match h with
  | None => b
  | Some true =>
      if HasWakeupPoolAnnotation b
      then set_annotations (<[AwaitingWakeupAnnotation := "false"%string]>)
             (set_cluster (λ c, set_name None (set_hibernation None c)) b)
      else set_cluster (set_hibernation (Some HibernationModeEnabled)) b
  | Some false =>
      if HasWakeupPoolAnnotation b
      then set_annotations (<[AwaitingWakeupAnnotation := "true"%string]>)
             (set_cluster (set_hibernation None) b)
      else set_cluster (set_hibernation (Some HibernationModeDisabled)) b
  end.

(** [if update.F != nil { ... }] *)
Definition update_with {A} (o : option A) (f : A → ClusterSpec → ClusterSpec)
    (c : ClusterSpec) : ClusterSpec :=
  match o with Some a => f a c | None => c end.

Definition update_resources (u : UpdateConfiguration) (c : ClusterSpec) : res panic ClusterSpec :=
  match u_VcpuRequest u, u_VcpuLimit u, u_Memory u with
  | Some req, Some lim, Some mem =>
      r <~ resourceRequirements req lim mem; Ok (set_resources r c)
  | _, _, _ => Ok c
  end.

Definition update_parameters (params : gmap string string) (c : ClusterSpec)
    : res panic ClusterSpec :=
  if bool_decide (params = ∅) then Ok c
  else match Postgres c with
       | None => Err NilPointer
       | Some p =>
           Ok (set_postgres (Some (mkPostgres
                 (postgresParametersFromMap (params ∪ parameters_to_map (Parameters p)))
                 (SharedPreloadLibraries p))) c)
       end.

Definition update_libraries (libs : list string) (c : ClusterSpec) : res panic ClusterSpec :=
  match libs with
  | [] => Ok c
  | _ => match Postgres c with
         | None => Err NilPointer
         | Some p => Ok (set_postgres (Some (mkPostgres (Parameters p) libs)) c)
         end
  end.

Definition set_pgbackrest (f : PgBackRestSpec → PgBackRestSpec) (b : option BackupSpec)
    : option BackupSpec :=
  (λ b, mkBackup (Method b) (Retention b) (WALArchiving b) (ScheduledBackup b) (ServerName b)
          (f <$> PgBackRest b)) <$> b.

Definition set_retention_days (days : Z) (p : PgBackRestSpec) : PgBackRestSpec :=
  mkPgBackRest (S3 p) (GCS p) (Azure p) (CipherPassphraseSecretRef p) days (CompressType p)
    (CompressLevel p) (ArchiveAsync p) (ArchivePushQueueMax p) (ArchiveGetQueueMax p)
    (RepoPath p) (StanzaName p).

(** The two settings an update can change in an existing backup spec. *)
Definition update_backup_spec (bc : BackupConfiguration) (b : BackupSpec) : BackupSpec :=
  let b :=
    if bool_decide (BackupSchedule bc = ""%string) then b
    else mkBackup (Method b) (Retention b) (WALArchiving b) (Some (BackupSchedule bc))
           (ServerName b) (PgBackRest b) in
  if bool_decide (BackupRetention bc = ""%string) then b
  else
    let b := mkBackup (Method b) (BackupRetention bc) (WALArchiving b) (ScheduledBackup b)
               (ServerName b) (PgBackRest b) in
    if bool_decide (Method b = BackupMethodPgBackRest)
    then match positive_days (BackupRetention bc) with
         | Some days => default b (set_pgbackrest (set_retention_days days) (Some b))
         | None => b
         end
    else b.

Definition update_backup (o : option BackupConfiguration) (b : option BackupSpec)
    : option BackupSpec :=
  match o with
  | None => b
  | Some bc => match b with
               | None => backupSpec (Some bc)
               | Some spec => Some (update_backup_spec bc spec)
               end
  end.

Definition set_size (size : string) (s : StorageSpec) : StorageSpec :=
  mkStorage size (StorageClass s) (VolumeAttributesClass s) (VolumeSnapshotClass s)
    (MountPropagation s).

(** The cluster part of [WithUpdatesFrom], in the order of the code. *)
Definition update_cluster (u : UpdateConfiguration) (useStorageQoSClasses : bool)
    (c : ClusterSpec) : res panic ClusterSpec :=
  let c := update_with (u_ImageName u) set_image c in
  let c := update_with (u_NumInstances u) set_instances c in
  let c := update_with (u_StorageSize u)
             (λ n c, set_storage (set_size (storageSize n) (Storage c)) c) c in
  let c := update_with (u_StorageQosClass u)
             (λ q c, set_storage (storageWithQoSClass (Storage c) useStorageQoSClasses q) c) c in
  c <~ update_resources u c;
  let c := update_with (u_ScaleToZero u)
             (λ z, set_scale_to_zero (scaleToZeroConfig (Some z))) c in
  c <~ update_parameters (u_Parameters u) c;
  update_libraries (u_PreloadLibraries u) c.

Definition WithUpdatesFrom (u : UpdateConfiguration) (useStorageQoSClasses : bool) (b : Branch)
    : res panic Branch :=
  let b := update_hibernation (u_Hibernate u) b in
  c <~ update_cluster u useStorageQoSClasses (Cluster (br_Spec b));
  Ok (set_backup (update_backup (u_BackupConfiguration u)) (set_cluster (λ _, c) b)).

Definition WithClusterFromPool (clusterName wakeupPool : string) (b : Branch) : Branch :=
  if bool_decide (clusterName = ""%string) then b
  else
    let b := set_cluster (set_name (Some clusterName)) b in
    let b := if IsPgBackRest (Backup (br_Spec b)) then b else set_backup (λ _, None) b in
    set_annotations (<[WakeupPoolAnnotation := wakeupPool]>) b.

Definition WithDefaultStorageSize (size : Z) (b : Branch) : Branch :=
  set_cluster (λ c, if bool_decide (Size (Storage c) = ""%string)
                    then set_storage (set_size (pretty size +:+ "Gi") (Storage c)) c else c) b.

Definition WithDefaultStorageClass (sc : string) (b : Branch) : Branch :=
  set_cluster (λ c, match StorageClass (Storage c) with
                    | Some _ => c
                    | None =>
                        let s := Storage c in
                        set_storage (mkStorage (Size s) (Some sc) (VolumeAttributesClass s)
                                       (VolumeSnapshotClass s) (MountPropagation s)) c
                    end) b.

Definition WithDefaultVolumeSnapshotClass (vsc : string) (b : Branch) : Branch :=
  set_cluster (λ c, match VolumeSnapshotClass (Storage c) with
                    | Some _ => c
                    | None =>
                        let s := Storage c in
                        set_storage (mkStorage (Size s) (StorageClass s) (VolumeAttributesClass s)
                                       (Some vsc) (MountPropagation s)) c
                    end) b.

Definition WithStorageQoSClass (useStorageQoSClasses : bool) (storageQoSClass : string)
    (b : Branch) : Branch :=
  set_cluster (λ c, set_storage (storageWithQoSClass (Storage c) useStorageQoSClasses
                                   storageQoSClass) c) b.

(** ** pgBackRest *)

Record BackrestConfig := mkBackrestConfig {
  bk_provider : CloudProvider;
  bk_bucket : string;
  bk_region : string;
  bk_endpoint : string;
  bk_serviceAccount : string;
  bk_credentialsSecretName : string;
  bk_azureAccount : string;
  bk_azureContainer : string;
  bk_clustersNamespace : string
}.

Definition pgBackRestS3Spec (k : BackrestConfig) (keyType : string) : PgBackRestS3Spec :=
  mkS3 (bk_bucket k) (bk_region k) (bk_endpoint k) (bk_credentialsSecretName k) keyType.

Definition set_backend (s3 : option PgBackRestS3Spec) (gcs : option PgBackRestGCSSpec)
    (azure : option PgBackRestAzureSpec) (repoPath : string) (p : PgBackRestSpec)
    : PgBackRestSpec :=
  mkPgBackRest s3 gcs azure (CipherPassphraseSecretRef p) (RetentionFullDays p) (CompressType p)
    (CompressLevel p) (ArchiveAsync p) (ArchivePushQueueMax p) (ArchiveGetQueueMax p) repoPath
    (StanzaName p).

Definition pgbackrest_backend (k : BackrestConfig) (branchName : string) (p : PgBackRestSpec)
    : PgBackRestSpec :=
  match bk_provider k with
  | CloudProviderGCP =>
      set_backend (S3 p) (Some (mkGCS (bk_bucket k) (bk_serviceAccount k) KeyTypeWebID)) (Azure p)
        branchName p
  | CloudProviderAzure =>
      set_backend (S3 p) (GCS p) (Some (mkAzure (bk_azureAccount k) (bk_azureContainer k)))
        (RepoPath p) p
  | CloudProviderAWS =>
      if bool_decide (bk_endpoint k = ""%string)
      then set_backend (Some (pgBackRestS3Spec k KeyTypeWebID)) (GCS p) (Azure p)
             (PgBackRestRepoPath (bk_clustersNamespace k) branchName) p
      else set_backend (Some (pgBackRestS3Spec k "")) (GCS p) (Azure p) (RepoPath p) p
  | OtherProvider =>
      set_backend (Some (pgBackRestS3Spec k "")) (GCS p) (Azure p) (RepoPath p) p
  end.

Definition WithPgBackRest (k : BackrestConfig) (b : Branch) : Branch :=
  if IsPgBackRest (Backup (br_Spec b))
  then set_backup (set_pgbackrest (pgbackrest_backend k (br_Name b))) b else b.

Definition set_cipher (sel : SecretKeySelector) (p : PgBackRestSpec) : PgBackRestSpec :=
  mkPgBackRest (S3 p) (GCS p) (Azure p) (Some sel) (RetentionFullDays p) (CompressType p)
    (CompressLevel p) (ArchiveAsync p) (ArchivePushQueueMax p) (ArchiveGetQueueMax p)
    (RepoPath p) (StanzaName p).

Definition WithPgBackRestCipher (encryptionEnabled : bool) (b : Branch) : Branch :=
  if encryptionEnabled && IsPgBackRest (Backup (br_Spec b))
  then set_backup (set_pgbackrest (set_cipher
         (mkSelector (CipherSecretName (br_Name b)) CipherPassphraseKey))) b
  else b.

Definition encrypts (b : Branch) : bool :=
  match pgbackrest_of (Backup (br_Spec b)) with
  | Some p => bool_decide (is_Some (CipherPassphraseSecretRef p))
  | None => false
  end.

Definition WithPgBackRestRestoreCipher (source : option Branch) (b : Branch) : Branch :=
  match source with
  | None => b
  | Some source =>
      if IsObjectStoreType (Restore (br_Spec b)) && IsPgBackRest (Backup (br_Spec b))
         && encrypts source
      then set_restore (fmap (λ r, mkRestore (rs_Type r) (rs_Name r) (rs_Timestamp r)
             (rs_ServerName r)
             (Some (mkSelector (CipherSecretName (br_Name b)) RestoreCipherPassphraseKey)))) b
      else b
  end.

(** ** Postgres settings, pods *)

Definition postgres_or_empty (c : ClusterSpec) : PostgresConfiguration :=
  default (mkPostgres [] []) (Postgres c).

Definition WithXataUtilsPreloadLibrary (b : Branch) : Branch :=
  set_cluster (λ c,
    let p := postgres_or_empty c in
    set_postgres (Some (mkPostgres (Parameters p)
      (XataUtilsPreloadName ::
       filter (λ s, s ≠ XataUtilsPreloadName) (SharedPreloadLibraries p)))) c) b.

Definition WithMandatoryPostgresParameters (b : Branch) : Branch :=
  set_cluster (λ c,
    let p := postgres_or_empty c in
    set_postgres (Some (mkPostgres
      (postgresParametersFromMap
         (MandatoryPostgresParameters imageExtensions (Image c)
          ∪ parameters_to_map (Parameters p)))
      (SharedPreloadLibraries p))) c) b.

Definition WithDefaultNodeSelector (nodeSelector : gmap string string) (b : Branch) : Branch :=
  if bool_decide (nodeSelector = ∅) then b
  else set_cluster (set_node_selector (Some nodeSelector)) b.

Definition WithPooler (enabled : bool) (b : Branch) : Branch :=
  if enabled then set_pooler (Some (mkPooler 1 PoolModeTransaction "10000" "")) b else b.

(** ** The two chains of [clusters.go] *)

Record BuilderConfig := mkBuilderConfig {
  ClustersStorageRequest : Z;
  ClustersNodeSelector : gmap string string;
  UseStorageQoSClasses : bool;
  EnablePooler : bool;
  PgBackRestEncryptionEnabled : bool;
  Backrest : BackrestConfig
}.

(** The chain of [CreatePostgresCluster]. *)
Definition build_new (cfg : BuilderConfig) (storageClass volumeSnapshotClass : string)
    (req : CreateRequest) (parent restoreSource : option Branch) : res panic Branch :=
  b <~ FromCreateClusterRequest req;
  let b := WithOverridesFromParent parent b in
  let b := WithDefaultStorageSize (ClustersStorageRequest cfg) b in
  let b := WithDefaultStorageClass storageClass b in
  let b := WithStorageQoSClass (UseStorageQoSClasses cfg)
             (default ""%string (cc_StorageQosClass (cr_Configuration req))) b in
  let b := WithDefaultVolumeSnapshotClass volumeSnapshotClass b in
  let b := WithDefaultNodeSelector (ClustersNodeSelector cfg) b in
  let b := WithPooler (EnablePooler cfg) b in
  let b := WithPgBackRest (Backrest cfg) b in
  let b := WithPgBackRestCipher (PgBackRestEncryptionEnabled cfg) b in
  let b := WithPgBackRestRestoreCipher restoreSource b in
  let b := WithXataUtilsPreloadLibrary b in
  Ok (WithMandatoryPostgresParameters b).

(** The chain of [UpdatePostgresCluster]. *)
Definition build_update (u : UpdateConfiguration) (useStorageQoSClasses : bool)
    (existing : Branch) : res panic Branch :=
  b <~ WithUpdatesFrom u useStorageQoSClasses existing;
  Ok (WithMandatoryPostgresParameters (WithXataUtilsPreloadLibrary b)).

End Builder.

(** ** Parameter lists and maps *)

Lemma elem_of_postgresParameters m k v :
  (k, v) ∈ postgresParametersFromMap m ↔ m !! k = Some v.
Proof.
  unfold postgresParametersFromMap. rewrite list_elem_of_omap. split.
  - intros (k' & _ & [v' [Hv [= -> ->]]]%fmap_Some). done.
  - intros Hk. exists k. rewrite elem_of_sort_strings, elem_of_elements, elem_of_dom, Hk. eauto.
Qed.

Lemma postgresParameters_keys m :
  (postgresParametersFromMap m).*1 = sort_strings (elements (dom m)).
Proof.
  unfold postgresParametersFromMap.
  assert (∀ l, (∀ k, k ∈ l → is_Some (m !! k)) →
    (omap (λ k, (λ v, (k, v)) <$> m !! k) l).*1 = l) as Hgen.
  { induction l as [|k l IH]; intros Hl; [done|]. simpl.
    destruct (Hl k) as [v Hv]; [by left|]. rewrite Hv. simpl. f_equal. apply IH.
    intros k' Hk'. apply Hl. by right. }
  apply Hgen. intros k. by rewrite elem_of_sort_strings, elem_of_elements, elem_of_dom.
Qed.

Lemma NoDup_postgresParameters m : NoDup (postgresParametersFromMap m).*1.
Proof.
  rewrite postgresParameters_keys. unfold sort_strings.
  rewrite merge_sort_Permutation. apply NoDup_elements.
Qed.

Lemma foldl_insert_lookup (l : list (string * string)) (m : gmap string string) k v :
  NoDup l.*1 → (k, v) ∈ l → foldl (λ (m : gmap string string) kv, <[kv.1 := kv.2]> m) m l !! k = Some v.
Proof.
  assert (∀ l m k, k ∉ l.*1 →
    foldl (λ (m : gmap string string) kv, <[kv.1 := kv.2]> m) m l !! k = m !! k) as Hno.
  { clear. induction l as [|[k' v'] l IH]; intros m k Hk; [done|]. simpl in *.
    apply not_elem_of_cons in Hk as [? ?]. rewrite IH by done. by rewrite lookup_insert_ne. }
  revert m. induction l as [|[k' v'] l IH]; intros m Hnd Hin; [by apply elem_of_nil in Hin|].
  simpl in *. apply NoDup_cons in Hnd as [Hnin Hnd].
  apply elem_of_cons in Hin as [[= -> ->]|Hin]; [|by apply IH].
  rewrite Hno by done. apply lookup_insert_eq.
Qed.

(** The list and the map carry the same parameters. *)
Lemma parameters_roundtrip m : parameters_to_map (postgresParametersFromMap m) = m.
Proof.
  apply map_eq. intros k. unfold parameters_to_map. destruct (m !! k) as [v|] eqn:Hk.
  - apply foldl_insert_lookup; [apply NoDup_postgresParameters|].
    by apply elem_of_postgresParameters.
  - assert (k ∉ (postgresParametersFromMap m).*1) as Hno.
    { rewrite postgresParameters_keys, elem_of_sort_strings, elem_of_elements, not_elem_of_dom.
      done. }
    revert Hno. generalize (postgresParametersFromMap m).
    assert (∀ l m0, k ∉ l.*1 → m0 !! k = None →
      foldl (λ (m : gmap string string) kv, <[kv.1 := kv.2]> m) m0 l !! k = None) as Hgen.
    { induction l as [|[k' v'] l IH]; intros m0 Hl Hm0; [done|]. simpl in *.
      apply not_elem_of_cons in Hl as [? ?]. apply IH; [done|]. by rewrite lookup_insert_ne. }
    intros l Hl. by apply Hgen.
Qed.

(** ** What the builders guarantee *)

Section BuilderFacts.
Context `{Quantities}.
Variable imageExtensions : option ImageExtensions.

Abbreviation mandatory := (MandatoryPostgresParameters imageExtensions).
Abbreviation WithMandatory := (WithMandatoryPostgresParameters imageExtensions).
Abbreviation build_new := (build_new imageExtensions).
Abbreviation build_update := (build_update imageExtensions).

(** The Postgres section of a built branch: the mandatory parameters of its
    image win over any other value, names are listed once and in order, and
    the xatautils library is loaded first and once. *)
Definition postgres_normal (b : Branch) : Prop :=
  let p := postgres_or_empty (Cluster (br_Spec b)) in
  (∃ params, Parameters p
     = postgresParametersFromMap (mandatory (Image (Cluster (br_Spec b))) ∪ params))
  ∧ (∃ libs, SharedPreloadLibraries p = XataUtilsPreloadName :: libs ∧ XataUtilsPreloadName ∉ libs)
  ∧ is_Some (Postgres (Cluster (br_Spec b))).

Lemma finished_postgres_normal b :
  postgres_normal (WithMandatory (WithXataUtilsPreloadLibrary b)).
Proof.
  split; [eexists; done|]. split; [|by eexists]. simpl. eexists. split; [done|].
  intros [Hne _]%list_elem_of_filter. done.
Qed.

Lemma mandatory_over_union i params :
  mandatory i ∪ parameters_to_map (postgresParametersFromMap (mandatory i ∪ params))
  = mandatory i ∪ params.
Proof.
  rewrite parameters_roundtrip. apply map_eq. intros k.
  rewrite !lookup_union. destruct (mandatory i !! k), (params !! k); done.
Qed.

(** Finishing a finished branch changes nothing. *)
Lemma finish_postgres_normal b :
  postgres_normal b → WithMandatory (WithXataUtilsPreloadLibrary b) = b.
Proof.
  intros ((params & Hp) & (libs & Hl & Hno) & [p Hs]).
  destruct b as [n rv ls an [r [cn im ins rs st pg sz hb ns ss] bk po il] bs]. simpl in *.
  subst pg. unfold postgres_or_empty in *. simpl in *. destruct p as [ps ls']. simpl in *. subst.
  unfold WithMandatoryPostgresParameters, WithXataUtilsPreloadLibrary, postgres_or_empty.
  simpl. rewrite mandatory_over_union. rewrite filter_cons_False by (by intros Hx).
  assert (filter (λ s, s ≠ XataUtilsPreloadName) libs = libs) as ->; [|done].
  apply filter_id. by intros x Hx ->.
Qed.

(** Any branch the service builds is finished. *)
Lemma build_new_normal cfg sc vsc req parent source b :
  build_new cfg sc vsc req parent source = Ok b → postgres_normal b.
Proof.
  unfold BranchBuilder.build_new. destruct (FromCreateClusterRequest req) as [b0|]; [|done].
  cbn [res_bind]. intros [= <-]. apply finished_postgres_normal.
Qed.

Lemma build_update_normal u q e b :
  build_update u q e = Ok b → postgres_normal b.
Proof.
  unfold BranchBuilder.build_update. destruct (WithUpdatesFrom u q e) as [b0|]; [|done].
  cbn [res_bind]. intros [= <-]. apply finished_postgres_normal.
Qed.

Lemma postgres_normal_mandatory b k v :
  postgres_normal b → mandatory (Image (Cluster (br_Spec b))) !! k = Some v →
  ∀ v', (k, v') ∈ Parameters (postgres_or_empty (Cluster (br_Spec b))) ↔ v' = v.
Proof.
  intros ((params & ->) & _ & _) Hk v'. rewrite elem_of_postgresParameters, lookup_union, Hk.
  rewrite union_Some_l. split; [by intros [= ->]|by intros ->].
Qed.

(** Users cannot set or omit a mandatory Postgres parameter: in every branch
    the service creates or updates, each mandatory parameter of the branch's
    image is listed exactly with its mandated value, whatever the request or
    the parent says, and the xatautils library is the first preload library
    and occurs once. *)
Theorem mandatory_parameters_win cfg sc vsc req parent source u q e b k v :
  build_new cfg sc vsc req parent source = Ok b ∨ build_update u q e = Ok b →
  mandatory (Image (Cluster (br_Spec b))) !! k = Some v →
  (∀ v', (k, v') ∈ Parameters (postgres_or_empty (Cluster (br_Spec b))) ↔ v' = v)
  ∧ ∃ libs, SharedPreloadLibraries (postgres_or_empty (Cluster (br_Spec b)))
              = XataUtilsPreloadName :: libs ∧ XataUtilsPreloadName ∉ libs.
Proof.
  intros Hb Hk.
  assert (postgres_normal b) as Hn
    by (destruct Hb; eauto using build_new_normal, build_update_normal).
  split; [by apply postgres_normal_mandatory|]. by destruct Hn as (_ & Hl & _).
Qed.

(** The update request that sets nothing. *)
Definition no_update : UpdateConfiguration :=
  mkUpdate None None None None None None None None ∅ [] None None.

(** An update that sets nothing is idempotent on what the service built: it
    gives back the same branch, for new and for updated branches. *)
Theorem no_update_changes_nothing cfg sc vsc req parent source u q e b useQoS :
  build_new cfg sc vsc req parent source = Ok b ∨ build_update u q e = Ok b →
  build_update no_update useQoS b = Ok b.
Proof.
  intros Hb.
  assert (postgres_normal b) as Hn
    by (destruct Hb; eauto using build_new_normal, build_update_normal).
  unfold BranchBuilder.build_update, WithUpdatesFrom, update_cluster. simpl.
  unfold update_resources. simpl. unfold update_parameters.
  rewrite bool_decide_eq_true_2 by done. simpl. f_equal.
  destruct b as [n rv ls an [r c bk po il] bs].
  apply (finish_postgres_normal (mkBranch _ n rv ls an (mkBranchSpec _ r c bk po il) bs)). done.
Qed.

(** *** The life of a branch *)

(** What the hibernation settings of a branch mean.  A pool branch gives its
    cluster up when it hibernates and waits for a new one when it wakes; any
    other branch keeps its cluster. *)
Inductive phase :=
| Running (cluster : string)
| Hibernated (cluster : option string)
| Waking.

Definition phase_of (b : Branch) : phase :=
  match Name (Cluster (br_Spec b)) with
  | Some n =>
      if negb (HasWakeupPoolAnnotation b) && hibernation_enabled (Hibernation (Cluster (br_Spec b)))
      then Hibernated (Some n) else Running n
  | None => if IsAwaitingWakeup b then Waking else Hibernated None
  end.

(** The specification of an update request: [Some true] hibernates, [Some
    false] wakes. *)
Definition phase_step (pool : bool) (h : option bool) (p : phase) : phase :=
  match h, p with
  | None, _ => p
  | Some true, Running c => Hibernated (if pool then None else Some c)
  | Some true, Hibernated c => Hibernated c
  | Some true, Waking => Hibernated None
  | Some false, Hibernated (Some c) => Running c
  | Some false, Hibernated None => Waking
  | Some false, _ => p
  end.

(** A branch outside the wakeup pools has a cluster, a pool branch does not use
    the hibernation mode. *)
Definition lifecycle_ok (b : Branch) : Prop :=
  if HasWakeupPoolAnnotation b then True else is_Some (Name (Cluster (br_Spec b))).

Definition cluster_anchor (c : ClusterSpec) : option string * option HibernationMode :=
  (Name c, Hibernation c).

Lemma update_with_keeps {A} (o : option A) f c :
  (∀ a c, cluster_anchor (f a c) = cluster_anchor c) →
  cluster_anchor (update_with o f c) = cluster_anchor c.
Proof. by destruct o; simpl. Qed.

Lemma update_resources_keeps u c c' :
  update_resources u c = Ok c' → cluster_anchor c' = cluster_anchor c.
Proof. unfold update_resources, res_bind. intros Hu. repeat case_match; by simplify_eq. Qed.

Lemma update_parameters_keeps ps c c' :
  update_parameters ps c = Ok c' → cluster_anchor c' = cluster_anchor c.
Proof. unfold update_parameters. intros Hu. repeat case_match; by simplify_eq. Qed.

Lemma update_libraries_keeps ls c c' :
  update_libraries ls c = Ok c' → cluster_anchor c' = cluster_anchor c.
Proof. unfold update_libraries. intros Hu. repeat case_match; by simplify_eq. Qed.

Lemma update_cluster_keeps u q (c c' : ClusterSpec) :
  update_cluster u q c = Ok c' → cluster_anchor c' = cluster_anchor c.
Proof.
  unfold update_cluster, res_bind.
  destruct (update_resources u _) as [c1|] eqn:H1; [|done].
  destruct (update_parameters _ _) as [c2|] eqn:H2; [|done]. intros H3.
  apply update_resources_keeps in H1. apply update_parameters_keeps in H2.
  apply update_libraries_keeps in H3. rewrite H3, H2.
  rewrite update_with_keeps by done. rewrite H1. by rewrite !update_with_keeps.
Qed.

Lemma hibernation_refines h b :
  lifecycle_ok b →
  let b' := update_hibernation h b in
  phase_of b' = phase_step (HasWakeupPoolAnnotation b) h (phase_of b)
  ∧ HasWakeupPoolAnnotation b' = HasWakeupPoolAnnotation b ∧ lifecycle_ok b'.
Proof.
  destruct b as [n rv ls an [r [cn im ins rs st pg sz hb ns ss] bk po il] bs].
  unfold lifecycle_ok. intros Hok.
  assert (∀ v, HasWakeupPoolAnnotation
      (mkBranch _ n rv ls (<[AwaitingWakeupAnnotation := v]> an)
         (mkBranchSpec _ r (mkClusterSpec _ cn im ins rs st pg sz hb ns ss) bk po il) bs)
    = bool_decide (is_Some (an !! WakeupPoolAnnotation))) as Hpool.
  { intros v. unfold HasWakeupPoolAnnotation. simpl. by rewrite lookup_insert_ne. }
  unfold HasWakeupPoolAnnotation in *. simpl in *.
  unfold phase_of, update_hibernation, HasWakeupPoolAnnotation, IsAwaitingWakeup. simpl.
  destruct (bool_decide (is_Some (an !! WakeupPoolAnnotation))) eqn:Hp;
    destruct h as [[]|]; simpl; rewrite ?Hpool, ?Hp; simpl; rewrite ?lookup_insert_eq; simpl;
    rewrite ?Hpool, ?Hp; simpl.
  - destruct cn; repeat case_match; done.
  - destruct cn; simpl; [done|]. by repeat case_match.
  - done.
  - destruct Hok as [c ->]. simpl. by destruct hb as [[]|].
  - destruct Hok as [c ->]. simpl. by destruct hb as [[]|].
  - done.
Qed.

(** Requests one after another, each on the branch the previous one left. *)
Fixpoint build_updates (us : list (UpdateConfiguration * bool)) (b : Branch) : res panic Branch :=
  match us with
  | [] => Ok b
  | (u, q) :: us => b <~ build_update u q b; build_updates us b
  end.

(** No update touches the pool of a branch. *)
Lemma build_update_pool u q b b' :
  build_update u q b = Ok b' → br_Annotations b' !! WakeupPoolAnnotation = br_Annotations b !! WakeupPoolAnnotation.
Proof.
  unfold BranchBuilder.build_update, WithUpdatesFrom. destruct (update_cluster _ _ _) as [c|]; [|done].
  cbn [res_bind]. intros [= <-]. unfold update_hibernation.
  destruct (u_Hibernate u) as [[]|]; simpl; repeat case_match; simpl; by rewrite ?lookup_insert_ne.
Qed.

Lemma build_updates_pool us b b' :
  build_updates us b = Ok b' → br_Annotations b' !! WakeupPoolAnnotation = br_Annotations b !! WakeupPoolAnnotation.
Proof.
  revert b. induction us as [|[u q] us IH]; intros b; simpl; [by intros [= <-]|].
  destruct (build_update u q b) as [b1|] eqn:Hu; [|done]. cbn [res_bind].
  intros Hus. by rewrite (IH b1 Hus), (build_update_pool u q b b1 Hu).
Qed.

Lemma build_update_refines u q b b' :
  lifecycle_ok b → build_update u q b = Ok b' →
  phase_of b' = phase_step (HasWakeupPoolAnnotation b) (u_Hibernate u) (phase_of b)
  ∧ HasWakeupPoolAnnotation b' = HasWakeupPoolAnnotation b ∧ lifecycle_ok b'.
Proof.
  intros Hok. unfold BranchBuilder.build_update, WithUpdatesFrom.
  destruct (hibernation_refines (u_Hibernate u) b Hok) as (Hph & Hpool & Hok').
  destruct (update_cluster u q (Cluster (br_Spec (update_hibernation (u_Hibernate u) b))))
    as [c|] eqn:Hc; [|done]. cbn [res_bind]. intros [= <-].
  apply update_cluster_keeps in Hc. injection Hc as Hn Hh.
  rewrite <- Hph, <- Hpool. revert Hok' Hn Hh. generalize (update_hibernation (u_Hibernate u) b).
  intros b1 Hok1 Hn Hh. unfold phase_of, lifecycle_ok, HasWakeupPoolAnnotation, IsAwaitingWakeup in *.
  simpl. by rewrite Hn, Hh.
Qed.

(** The annotations, the cluster name and the hibernation mode: all that the
    phase depends on. *)
Definition anchor (b : Branch) : gmap string string * option string * option HibernationMode :=
  (br_Annotations b, Name (Cluster (br_Spec b)), Hibernation (Cluster (br_Spec b))).

Lemma anchor_phase b b' :
  anchor b = anchor b' →
  phase_of b = phase_of b' ∧ HasWakeupPoolAnnotation b = HasWakeupPoolAnnotation b'
  ∧ (lifecycle_ok b → lifecycle_ok b').
Proof.
  unfold phase_of, lifecycle_ok, HasWakeupPoolAnnotation, IsAwaitingWakeup.
  intros [= -> -> ->]. done.
Qed.

(** The steps of the chain after [WithOverridesFromParent]. *)
Definition complete_new (cfg : BuilderConfig) (sc vsc qos : string) (source : option Branch)
    (b : Branch) : Branch :=
  WithMandatory (WithXataUtilsPreloadLibrary (WithPgBackRestRestoreCipher source
    (WithPgBackRestCipher (PgBackRestEncryptionEnabled cfg) (WithPgBackRest (Backrest cfg)
      (WithPooler (EnablePooler cfg) (WithDefaultNodeSelector (ClustersNodeSelector cfg)
        (WithDefaultVolumeSnapshotClass vsc (WithStorageQoSClass (UseStorageQoSClasses cfg) qos
          (WithDefaultStorageClass sc
            (WithDefaultStorageSize (ClustersStorageRequest cfg) b)))))))))).

Lemma build_new_complete cfg sc vsc req parent source :
  build_new cfg sc vsc req parent source
  = res_map (λ b, complete_new cfg sc vsc
      (default ""%string (cc_StorageQosClass (cr_Configuration req))) source
      (WithOverridesFromParent parent b)) (FromCreateClusterRequest req).
Proof. unfold BranchBuilder.build_new. by destruct (FromCreateClusterRequest req). Qed.

Lemma complete_new_anchor cfg sc vsc qos source b :
  anchor (complete_new cfg sc vsc qos source b) = anchor b.
Proof.
  assert (∀ f b, (∀ c, Name (f c) = Name c ∧ Hibernation (f c) = Hibernation c) →
                 anchor (set_cluster f b) = anchor b) as Hc.
  { intros f b0 Hf. unfold anchor. simpl. by destruct (Hf (Cluster (br_Spec b0))) as [-> ->]. }
  assert (∀ f b, anchor (set_backup f b) = anchor b) as Hbk by done.
  unfold complete_new, WithMandatoryPostgresParameters, WithXataUtilsPreloadLibrary.
  do 2 (rewrite Hc by done).
  unfold WithPgBackRestRestoreCipher, WithPgBackRestCipher, WithPgBackRest, WithPooler,
    WithDefaultNodeSelector.
  assert (∀ b : Branch, anchor (set_pooler (Some (mkPooler 1 PoolModeTransaction "10000" "")) b)
                        = anchor b) as Hpo by done.
  transitivity (anchor (WithDefaultVolumeSnapshotClass vsc
    (WithStorageQoSClass (UseStorageQoSClasses cfg) qos
      (WithDefaultStorageClass sc (WithDefaultStorageSize (ClustersStorageRequest cfg) b))))).
  - generalize (WithDefaultVolumeSnapshotClass vsc
      (WithStorageQoSClass (UseStorageQoSClasses cfg) qos
        (WithDefaultStorageClass sc (WithDefaultStorageSize (ClustersStorageRequest cfg) b)))).
    intros b0. destruct source as [s|]; repeat case_match; try done.
  - unfold WithDefaultVolumeSnapshotClass, WithStorageQoSClass, WithDefaultStorageClass,
      WithDefaultStorageSize.
    rewrite !Hc; try done; intros c; by repeat case_match.
Qed.

Lemma WithOverridesFromParent_anchor p b :
  anchor (WithOverridesFromParent (Some p) b)
  = if HasWakeupPoolAnnotation p && IsVolumeSnapshotType (Restore (br_Spec b))
    then (<[AwaitingWakeupAnnotation := "true"%string]>
            (<[WakeupPoolAnnotation := WakeupPoolName p]> (br_Annotations b)), None,
          Hibernation (Cluster (br_Spec b)))
    else anchor b.
Proof.
  unfold WithOverridesFromParent, adopt_wakeup_pool, anchor. simpl.
  destruct (HasWakeupPoolAnnotation p), (IsVolumeSnapshotType (Restore (br_Spec b)));
    by destruct (Backup (br_Spec p)).
Qed.

(** The annotations of a request mention no wakeup. *)
Definition request_annotations (req : CreateRequest) : gmap string string :=
  if bool_decide (cr_IdempotencyKey req = ""%string) then ∅
  else {[ AnnotationIdempotencyKey := cr_IdempotencyKey req ]}.

Lemma request_not_pool req : request_annotations req !! WakeupPoolAnnotation = None.
Proof. unfold request_annotations. by case_bool_decide. Qed.

Lemma FromCreateClusterRequest_anchor req b :
  FromCreateClusterRequest req = Ok b →
  anchor b = (request_annotations req, Some (cr_Id req), None)
  ∧ Restore (br_Spec b) = restoreSpec (cr_DataSource req).
Proof.
  unfold FromCreateClusterRequest. destruct (resourceRequirements _ _ _); [|done].
  by intros [= <-].
Qed.

(** A new branch runs on the cluster of its own name, unless it is a snapshot
    child of a pool branch: then it waits for a cluster of that pool. *)
Lemma build_new_phase cfg sc vsc req parent source b :
  build_new cfg sc vsc req parent source = Ok b →
  lifecycle_ok b
  ∧ phase_of b = match parent with
                 | Some p => if HasWakeupPoolAnnotation p
                                && IsVolumeSnapshotType (restoreSpec (cr_DataSource req))
                             then Waking else Running (cr_Id req)
                 | None => Running (cr_Id req)
                 end.
Proof.
  rewrite build_new_complete. destruct (FromCreateClusterRequest req) as [b0|] eqn:Hb0; [|done].
  cbn [res_map]. intros [= <-]. apply FromCreateClusterRequest_anchor in Hb0 as [Ha Hr].
  match goal with |- lifecycle_ok (complete_new ?x1 ?x2 ?x3 ?x4 ?x5 ?x6) ∧ _ =>
    pose proof (complete_new_anchor x1 x2 x3 x4 x5 x6) as Hc;
    generalize dependent (complete_new x1 x2 x3 x4 x5 x6)
  end. intros b Hc.
  assert (anchor b0 = anchor b →
    lifecycle_ok b ∧ phase_of b = Running (cr_Id req)) as Hplain.
  { intros Hb. rewrite Ha in Hb. unfold anchor in Hb. injection Hb as Han Hn Hh.
    unfold lifecycle_ok, phase_of, HasWakeupPoolAnnotation.
    rewrite <- Han, <- Hn, <- Hh, request_not_pool. split; [by eexists|done]. }
  destruct parent as [p|]; [|by apply Hplain].
  rewrite WithOverridesFromParent_anchor, Hr in Hc.
  destruct (HasWakeupPoolAnnotation p && IsVolumeSnapshotType _); [|by apply Hplain].
  unfold anchor in Hc. injection Hc as Han Hn Hh.
  unfold lifecycle_ok, phase_of, HasWakeupPoolAnnotation, IsAwaitingWakeup.
  rewrite Han, Hn, lookup_insert_ne, lookup_insert_eq by done.
  rewrite lookup_insert_eq. done.
Qed.

Lemma build_updates_refine us b b' :
  lifecycle_ok b → build_updates us b = Ok b' →
  phase_of b' = foldl (λ p u, phase_step (HasWakeupPoolAnnotation b) (u_Hibernate u.1) p)
                  (phase_of b) us.
Proof.
  revert b. induction us as [|[u q] us IH]; intros b Hok; simpl; [by intros [= <-]|].
  destruct (build_update u q b) as [b1|] eqn:Hu; [|done]. cbn [res_bind]. intros Hus.
  destruct (build_update_refines u q b b1 Hok Hu) as (Hph & Hpool & Hok1).
  by rewrite (IH b1 Hok1 Hus), Hph, Hpool.
Qed.

(** C6. The life of a branch refines its specification: a branch starts running on
    its own cluster, or waking when it is a snapshot child of a pool branch; and
    from any branch that has a cluster or a pool (new ones, and those that were
    given a cluster of their pool, do), any sequence of update requests moves it
    through running, hibernated and waking exactly as the hibernation field of
    the requests says, whatever else they change: a branch of a pool gives its
    cluster up when it hibernates, any other keeps it, and neither leaves or
    changes its pool. *)
Theorem updates_refine_lifecycle :
  (∀ cfg sc vsc req parent source b, build_new cfg sc vsc req parent source = Ok b →
     lifecycle_ok b ∧
     phase_of b = match parent with
                  | Some p => if HasWakeupPoolAnnotation p
                                 && IsVolumeSnapshotType (restoreSpec (cr_DataSource req))
                              then Waking else Running (cr_Id req)
                  | None => Running (cr_Id req)
                  end) ∧
  (∀ b0 us b, lifecycle_ok b0 → build_updates us b0 = Ok b →
     phase_of b = foldl (λ p u, phase_step (HasWakeupPoolAnnotation b0) (u_Hibernate u.1) p) (phase_of b0) us ∧
     br_Annotations b !! WakeupPoolAnnotation = br_Annotations b0 !! WakeupPoolAnnotation).
Proof.
  split; [apply build_new_phase|]. intros b0 us b Hok Hus.
  split; [by apply build_updates_refine|by eapply build_updates_pool].
Qed.

(** *** Backups *)

Definition backends (p : PgBackRestSpec) : nat :=
  ((if S3 p then 1 else 0) + (if GCS p then 1 else 0) + (if Azure p then 1 else 0))%nat.

Definition provider_backend (k : BackrestConfig) (p : PgBackRestSpec) : Prop :=
  match bk_provider k with
  | CloudProviderGCP => is_Some (GCS p)
  | CloudProviderAzure => is_Some (Azure p)
  | CloudProviderAWS | OtherProvider => is_Some (S3 p)
  end.

(** The two pgbackrest steps on the backup spec. *)
Definition backup_step (k : BackrestConfig) (enc : bool) (name : string) (bk : option BackupSpec)
    : option BackupSpec :=
  let bk := if IsPgBackRest bk then set_pgbackrest (pgbackrest_backend k name) bk else bk in
  if enc && IsPgBackRest bk
  then set_pgbackrest (set_cipher (mkSelector (CipherSecretName name) CipherPassphraseKey)) bk
  else bk.

Lemma backup_step_spec k enc b :
  Backup (br_Spec (WithPgBackRestCipher enc (WithPgBackRest k b)))
  = backup_step k enc (br_Name b) (Backup (br_Spec b)).
Proof.
  unfold WithPgBackRestCipher, WithPgBackRest, backup_step.
  destruct (IsPgBackRest (Backup (br_Spec b))); simpl.
  - by destruct (enc && IsPgBackRest (set_pgbackrest _ _)).
  - by destruct (enc && IsPgBackRest (Backup (br_Spec b))).
Qed.

Lemma complete_new_backup cfg sc vsc qos source b :
  Backup (br_Spec (complete_new cfg sc vsc qos source b))
  = backup_step (Backrest cfg) (PgBackRestEncryptionEnabled cfg) (br_Name b) (Backup (br_Spec b)).
Proof.
  unfold complete_new. simpl.
  match goal with |- Backup (br_Spec (WithPgBackRestRestoreCipher ?s ?x)) = _ =>
    transitivity (Backup (br_Spec x));
    [generalize x; intros x0; unfold WithPgBackRestRestoreCipher; destruct s; by repeat case_match|]
  end.
  rewrite backup_step_spec. unfold WithPooler, WithDefaultNodeSelector. by repeat case_match.
Qed.

Lemma WithOverridesFromParent_backup parent b :
  br_Name (WithOverridesFromParent parent b) = br_Name b
  ∧ (Backup (br_Spec (WithOverridesFromParent parent b)) = Backup (br_Spec b)
     ∨ Backup (br_Spec (WithOverridesFromParent parent b)) = None).
Proof.
  unfold WithOverridesFromParent, adopt_wakeup_pool. destruct parent as [p|]; [|by auto].
  destruct (HasWakeupPoolAnnotation p && _); destruct (Backup (br_Spec p)); simpl; auto.
Qed.

Lemma pgbackrest_of_set f bk :
  pgbackrest_of (set_pgbackrest f bk) = f <$> pgbackrest_of bk.
Proof. destruct bk as [b|]; [|done]. simpl. by case_bool_decide. Qed.

Lemma IsPgBackRest_of bk : IsPgBackRest bk = match pgbackrest_of bk with Some _ => true | None => false end.
Proof. unfold IsPgBackRest. by destruct (pgbackrest_of bk). Qed.

Lemma backup_step_backends k enc name bk p :
  (∀ p0, pgbackrest_of bk = Some p0 → backends p0 = 0%nat) →
  pgbackrest_of (backup_step k enc name bk) = Some p →
  backends p = 1%nat ∧ provider_backend k p
  ∧ (enc = true → CipherPassphraseSecretRef p
                  = Some (mkSelector (CipherSecretName name) CipherPassphraseKey)).
Proof.
  intros H0. unfold backup_step. rewrite (IsPgBackRest_of bk).
  destruct (pgbackrest_of bk) as [p0|] eqn:Hp0.
  2: { rewrite IsPgBackRest_of, Hp0, andb_false_r, Hp0. done. }
  rewrite IsPgBackRest_of, pgbackrest_of_set, Hp0. simpl. rewrite andb_true_r.
  assert (backends (pgbackrest_backend k name p0) = 1%nat
          ∧ provider_backend k (pgbackrest_backend k name p0)) as [Hb Hpb].
  { specialize (H0 p0 eq_refl). unfold backends, provider_backend, pgbackrest_backend in *.
    destruct p0 as [s g a c d ct cl aa ap ag rp sn]. simpl in *.
    destruct s, g, a; try done.
    destruct (bk_provider k); repeat case_match; simpl; split; (done || by eexists). }
  destruct enc; rewrite !pgbackrest_of_set, Hp0; simpl; intros [= <-]; [|done].
  done.
Qed.

(** A new branch that backs up with pgbackrest has exactly one storage backend,
    the one of the cell's cloud provider, as the resource's validation rules
    require, and references its cipher passphrase when the cell encrypts. *)
Theorem new_branch_has_one_backend cfg sc vsc req parent source b p :
  build_new cfg sc vsc req parent source = Ok b →
  pgbackrest_of (Backup (br_Spec b)) = Some p →
  backends p = 1%nat ∧ provider_backend (Backrest cfg) p
  ∧ (PgBackRestEncryptionEnabled cfg = true →
     CipherPassphraseSecretRef p
     = Some (mkSelector (CipherSecretName (cr_Id req)) CipherPassphraseKey)).
Proof.
  rewrite build_new_complete. unfold FromCreateClusterRequest.
  destruct (resourceRequirements _ _ _) as [rr|]; [|done]. cbn [res_bind res_map].
  intros [= <-]. rewrite complete_new_backup.
  match goal with |- context [WithOverridesFromParent parent ?b0] =>
    destruct (WithOverridesFromParent_backup parent b0) as [-> Hbk] end.
  apply backup_step_backends. intros p0.
  destruct Hbk as [->| ->]; [|done]. simpl. unfold backupSpec.
  destruct (cr_BackupConfiguration req) as [m|]; [|done].
  destruct (negb (BackupsEnabled m)); [done|].
  case_bool_decide; simpl; [|done]. by intros [= <-].
Qed.

End BuilderFacts.

(** ** Witnesses *)

Module Witness.

(** Quantities in thousandths. *)
Definition parse_quantity (s : string) : option Z :=
  match CutSuffix s "Gi", CutSuffix s "Mi", CutSuffix s "m" with
  | Some d, _, _ => (λ n, n * (1024 * 1024 * 1024 * 1000)) <$> ParseUint10 d
  | _, Some d, _ => (λ n, n * (1024 * 1024 * 1000)) <$> ParseUint10 d
  | _, _, Some d => ParseUint10 d
  | _, _, _ => (λ n, n * 1000) <$> ParseUint10 s
  end.

#[export] Instance quantities : Quantities := {|
  Quantity := Z;
  ParseQuantity := parse_quantity;
  QuantityString := λ z, pretty z +:+ "m";
  QuantityAdd := Z.add;
  QuantitySub := Z.sub;
  QuantityCmp := Z.compare;
  QuantityValue := λ z, z / 1000;
  QuantityMilliValue := λ z, z;
  QuantityZero := 0 |}.

Definition builder : BuilderConfig :=
  mkBuilderConfig 250 ∅ false true false
    (mkBackrestConfig CloudProviderAWS "bucket" "us-east-1" "" "" "" "" "" "xata-clusters").

Definition image : string := "ghcr.io/xataio/postgres-images/cnpg-postgres-plus:17.5".

(** A pgbackrest branch of 2 GB on a pool cluster. *)
Definition request : CreateRequest :=
  mkCreate "br1" (mkConfiguration 1 10 image "2Gi" None "500m" "1" ∅ [] None) "" "org" "prj"
    (Some (mkBackupMsg "0 0 0 * * 0" "14d" true "pgbackrest")) None true false "key-1".

Definition new_branch : res panic Branch :=
  build_new None builder "gp3" "ebs-snapshots" request None None.

Definition empty_branch : Branch :=
  mkBranch _ "" "" ∅ ∅
    (mkBranchSpec _ None (mkClusterSpec _ None "" 0
       (mkRequirements _ (mkResources _ None None) (mkResources _ None None))
       (mkStorage "" None None None None) None None None None None) None None None)
    (mkStatus "" "" "" "" "").

Definition ok_or (b : Branch) (r : res panic Branch) : Branch :=
  match r with Ok b' => b' | Err _ => b end.

Lemma ok_or_ok r b : is_ok r = true → r = Ok (ok_or b r).
Proof. by destruct r. Qed.

Definition branch : Branch := ok_or empty_branch new_branch.

Lemma new_branch_ok : new_branch = Ok branch.
Proof. apply ok_or_ok. vm_compute. reflexivity. Qed.

Lemma mandatory_parameters_win_witness :
  (∀ v', ("lc_time"%string, v') ∈ Parameters (postgres_or_empty (Cluster (br_Spec branch)))
         ↔ v' = "C.utf8"%string)
  ∧ ∃ libs, SharedPreloadLibraries (postgres_or_empty (Cluster (br_Spec branch)))
              = XataUtilsPreloadName :: libs ∧ XataUtilsPreloadName ∉ libs.
Proof.
  apply (mandatory_parameters_win None builder "gp3" "ebs-snapshots" request None None no_update
           false branch branch "lc_time" "C.utf8"); [left; apply new_branch_ok|].
  vm_compute. reflexivity.
Defined.

Lemma no_update_changes_nothing_witness : build_update None no_update true branch = Ok branch.
Proof.
  apply (no_update_changes_nothing None builder "gp3" "ebs-snapshots" request None None no_update
           false branch branch true).
  left. apply new_branch_ok.
Defined.

(** A child of a pool branch: it hibernates while it waits, and wakes again. *)
Definition pool_parent : Branch := WithClusterFromPool "c0" "pg17-micro-slot" branch.

Definition child_request : CreateRequest :=
  mkCreate "br2" (cr_Configuration request) "br1" "org" "prj" None
    (Some (ClusterSnapshot "br1")) false false "".

Definition child : Branch :=
  ok_or empty_branch (build_new None builder "gp3" "ebs-snapshots" child_request
                        (Some pool_parent) None).

Definition set_hibernate (h : bool) : UpdateConfiguration :=
  mkUpdate None None None None (Some h) None None None ∅ [] None None.

Definition requests : list (UpdateConfiguration * bool) :=
  [(set_hibernate true, false); (no_update, false); (set_hibernate false, false)].

Definition updated : Branch := ok_or empty_branch (build_updates None requests child).

(** A branch that was given a cluster of its pool. *)
Definition pooled : Branch := ok_or empty_branch (build_updates None [(set_hibernate true, false)] pool_parent).

Lemma updates_refine_lifecycle_witness :
  phase_of updated = Waking ∧ phase_of pool_parent = Running "c0" ∧ phase_of pooled = Hibernated None
  ∧ br_Annotations pooled !! WakeupPoolAnnotation = Some "pg17-micro-slot"%string.
Proof.
  destruct (updates_refine_lifecycle None) as [Hnew Hups].
  assert (build_new None builder "gp3" "ebs-snapshots" child_request (Some pool_parent) None
          = Ok child) as Hchild by (apply ok_or_ok; vm_compute; reflexivity).
  apply Hnew in Hchild as [Hok Hph].
  assert (build_updates None requests child = Ok updated) as Hus by (apply ok_or_ok; vm_compute; reflexivity).
  apply Hups in Hus as [Hus _]; [|exact Hok].
  assert (build_updates None [(set_hibernate true, false)] pool_parent = Ok pooled) as Hus2
    by (apply ok_or_ok; vm_compute; reflexivity).
  apply Hups in Hus2 as [Hus2 Hpool]; [|vm_compute; exact I]. rewrite Hus, Hus2, Hpool, Hph.
  vm_compute. split_and!; reflexivity.
Defined.

Definition backend : PgBackRestSpec :=
  default (default_pgbackrest "") (pgbackrest_of (Backup (br_Spec branch))).

Lemma new_branch_has_one_backend_witness :
  backends backend = 1%nat ∧ provider_backend (Backrest builder) backend
  ∧ (PgBackRestEncryptionEnabled builder = true →
     CipherPassphraseSecretRef backend
     = Some (mkSelector (CipherSecretName "br1") CipherPassphraseKey)).
Proof.
  apply (new_branch_has_one_backend None builder "gp3" "ebs-snapshots" request None None branch
           backend); [apply new_branch_ok|].
  vm_compute. reflexivity.
Defined.

Example days_examples :
  sscanf_days "14d" = Some 14 ∧ sscanf_days " -3d" = Some (-3) ∧ sscanf_days "2w" = None
  ∧ positive_days "60d" = Some 60 ∧ positive_days "0d" = None.
Proof. vm_compute. done. Qed.

End Witness.
