(* ===== verification/ClusterResources.v ===== *)
(** * The resources of a branch: [services/branch-operator/pkg/reconciler/resources],
    [internal/cnpg/pooler], [services/branch-operator/pkg/shared]

    What the operator asks Kubernetes for, as functions of the branch and the
    operator's configuration.  An apply configuration is a record of the fields
    the builder sets; a field it leaves unset is [None].  Names of Secrets and
    other objects are strings. *)

From stdpp Require Import pretty.
From S2P Require Import Prelude GoStrings GoTime PostgresVersions BranchTypes PgBackRestNames.

#[local] Open Scope Z_scope.

(** The zone of the instants [metav1.Time] decodes: seconds east of UTC. *)
Class LocalZone := { zone_offset : Z → Z }.

(** [corev1.Toleration] *)
Record Toleration := mkToleration {
  tol_Key : string;
  tol_Operator : string;
  tol_Value : string;
  tol_Effect : string;
  tol_Seconds : option Z
}.

(** Constants that CNPG names. *)
Inductive BackupTarget := BackupTargetStandby.
Inductive ServiceSelectorType := ServiceSelectorTypeR | ServiceSelectorTypeRO.
Inductive EnsureOption := EnsurePresent.

(** ** Post-init SQL *)

Definition base_privileges : list string :=
  ["pg_monitor"; "pg_stat_scan_tables"; "pg_signal_backend"].
Definition pg14Privileges : list string :=
  ["pg_read_all_data"; "pg_write_all_data"] ++ base_privileges ++
  ["pg_read_all_settings"; "pg_read_all_stats"].
Definition pg15Privileges : list string :=
  ["pg_read_all_data"; "pg_write_all_data"] ++ base_privileges ++
  ["pg_checkpoint"; "pg_read_all_settings"; "pg_read_all_stats"].
Definition pg16Privileges : list string :=
  pg15Privileges ++ ["pg_create_subscription"; "pg_use_reserved_connections"].
Definition pg17Privileges : list string :=
  ["pg_read_all_data"; "pg_write_all_data"; "pg_maintain"] ++ base_privileges ++
  ["pg_checkpoint"; "pg_read_all_settings"; "pg_read_all_stats";
   "pg_create_subscription"; "pg_use_reserved_connections"].

(** [strings.Join] *)
Fixpoint Join (sep : string) (l : list string) : string :=
  match l with
  | [] => ""
  | [x] => x
  | x :: l => x +:+ sep +:+ Join sep l
  end.

Definition privileges (majorVersion : Z) : list string :=
  if 17 <=? majorVersion then pg17Privileges
  else if 16 <=? majorVersion then pg16Privileges
  else if 15 <=? majorVersion then pg15Privileges
  else pg14Privileges.

Definition GeneratePostInitSQL (majorVersion : Z) : list string :=
  ["CREATE ROLE xata_superuser NOLOGIN;";
   "GRANT " +:+ Join ", " (privileges majorVersion) +:+ " TO xata_superuser;";
   "GRANT xata_superuser TO xata;";
   "ALTER ROLE xata LOGIN INHERIT CREATEDB CREATEROLE BYPASSRLS REPLICATION;";
   "ALTER SCHEMA public OWNER TO xata;";
   "GRANT CREATE ON DATABASE postgres TO xata;"].

(** ** The CNPG cluster *)

Record BootstrapInitDBAC := mkInitDB {
  idb_Database : string;
  idb_Encoding : string;
  idb_LocaleCType : string;
  idb_LocaleCollate : string;
  idb_Owner : string;
  idb_Secret : string;
  idb_PostInitSQL : list string
}.

Inductive RecoveryTarget :=
| TargetImmediate
| TargetTime (t : string).

(** [corev1.TypedLocalObjectReference] *)
Record TypedReference := mkTypedRef {
  tr_Name : string;
  tr_Kind : string;
  tr_APIGroup : string
}.

Record BootstrapRecoveryAC := mkRecovery {
  rec_Owner : string;
  rec_Database : string;
  rec_Secret : string;
  rec_VolumeSnapshot : option TypedReference;
  rec_Source : option string;
  rec_Target : option RecoveryTarget
}.

Inductive Bootstrap :=
| InitDB (i : BootstrapInitDBAC)
| Recovery (r : BootstrapRecoveryAC)
| Noop.

(** [PgBackRestS3] with either a key type or static credentials. *)
Record PgBackRestS3AC := mkS3AC {
  s3a_Bucket : string;
  s3a_Region : string;
  s3a_KeyType : option string;
  s3a_Endpoint : option string;
  s3a_AccessKeyID : option SecretKeySelector;
  s3a_SecretAccessKey : option SecretKeySelector
}.

Inductive RepositoryBackend :=
| RepoAzure (account container keyType : string)
| RepoGCS (bucket keyType : string)
| RepoS3 (s3 : PgBackRestS3AC).

Record PgBackRestCipherAC := mkCipherAC {
  ci_Type : string;
  ci_Passphrase : SecretKeySelector
}.

Record PgBackRestRepositoryAC := mkRepository {
  repo_Backend : option RepositoryBackend;
  repo_Cipher : option PgBackRestCipherAC
}.

Record PgBackRestOptionsAC := mkOptions {
  opt_CompressType : string;
  opt_ArchiveAsync : bool;
  opt_ArchivePushQueueMax : string;
  opt_ArchiveGetQueueMax : string;
  opt_Bundle : bool;
  opt_BlockIncremental : bool;
  opt_StartFast : bool;
  opt_Delta : bool;
  opt_Priority : Z;
  opt_RetentionFull : Z;
  opt_RetentionFullType : string;
  opt_CompressLevel : option Z;
  opt_RepoPath : option string
}.

Inductive ExternalClusterAC :=
| ExternalPgBackRest (name : string) (repository : PgBackRestRepositoryAC) (repoPath : string)
| ExternalPlugin (name plugin : string) (parameters : gmap string string).

Definition external_name (e : ExternalClusterAC) : string :=
  match e with ExternalPgBackRest n _ _ => n | ExternalPlugin n _ _ => n end.

Record PluginAC := mkPlugin {
  pl_Name : string;
  pl_Enabled : option bool;
  pl_IsWALArchiver : option bool;
  pl_Parameters : gmap string string
}.

Record PgBackRestConfigurationAC := mkPgBackRestAC {
  pba_StanzaName : string;
  pba_Repository : PgBackRestRepositoryAC;
  pba_Options : PgBackRestOptionsAC
}.

(** The volume snapshot part is online with an immediate checkpoint. *)
Record BackupConfigurationAC := mkBackupAC {
  ba_SnapshotClass : string;
  ba_Online : bool;
  ba_ImmediateCheckpoint : bool;
  ba_PgBackRest : option PgBackRestConfigurationAC;
  ba_Target : option BackupTarget
}.

Record StorageAC := mkStorageAC {
  sa_Size : string;
  sa_StorageClass : option string;
  sa_VolumeAttributesClass : option string;
  sa_MountPropagation : option string
}.

Record AffinityAC := mkAffinity {
  af_NodeSelector : gmap string string;
  af_Tolerations : list Toleration;
  af_PodAntiAffinityType : option string;
  af_TopologyKey : option string
}.

(** The managed role of the [xata] user. *)
Record RoleAC := mkRole {
  ro_Name : string;
  ro_Ensure : EnsureOption;
  ro_PasswordSecret : string;
  ro_Login : bool;
  ro_Inherit : bool;
  ro_CreateDB : bool;
  ro_CreateRole : bool;
  ro_BypassRLS : bool;
  ro_Replication : bool;
  ro_InRoles : list string
}.

Record ClusterSpecAC `{Quantities} := mkClusterAC {
  ca_Instances : Z;
  ca_EnablePDB : bool;
  ca_Storage : StorageAC;
  ca_ImageName : string;
  ca_ImagePullSecrets : list string;
  ca_EnableSuperuserAccess : bool;
  ca_SuperuserSecret : string;
  ca_Bootstrap : Bootstrap;
  ca_Parameters : gmap string string;
  ca_AdditionalLibraries : list string;
  ca_Plugins : list PluginAC;
  ca_Resources : ResourceRequirements;
  ca_Backup : BackupConfigurationAC;
  (* timeout, period, success and failure thresholds *)
  ca_StartupProbe : Z * Z * Z * Z;
  ca_DisabledDefaultServices : list ServiceSelectorType;
  ca_Role : RoleAC;
  ca_MonitoringTLS : bool;
  ca_CustomQueries : SecretKeySelector;
  ca_Affinity : AffinityAC;
  ca_InheritedAnnotations : gmap string string;
  ca_InheritedLabels : gmap string string;
  ca_PrimaryUpdateStrategy : string;
  ca_PrimaryUpdateMethod : string;
  ca_ExternalClusters : list ExternalClusterAC;
  ca_SmartShutdownTimeout : Z;
  ca_ServiceAccountAnnotations : option (gmap string string);
  ca_ProjectedVolume : option ProjectedVolume;
  ca_Env : list (string * string)
}.

Record BackupCredentials := mkCredentials {
  SecretName : string;
  AccessKeyIDKey : string;
  SecretAccessKeyKey : string
}.

Record ClusterConfig `{Quantities} := mkConfig {
  cc_Cluster : ClusterSpec;
  cc_Backup : option BackupSpec;
  cc_InheritedLabels : option (gmap string string);
  cc_Restore : option RestoreSpec;
  Tolerations : list Toleration;
  EnforceZone : bool;
  ImagePullSecrets : list string;
  cc_Credentials : BackupCredentials;
  PgBackRestWebIdentityRoleARN : string;
  PgBackRestGCSWebIdentity : bool
}.

Definition kubeTrue : string := "true".
Definition kubeFalse : string := "false".
Definition InheritedAnnotations : gmap string string := {[ "prometheus.io/scheme" := "https" ]}.
Definition pgbackrestPriority : Z := 19.
Definition DefaultSmartShutdownTimeout : Z := 1.
Definition barmanPlugin : string := "barman-cloud.cloudnative-pg.io".

Section Builders.
Context `{Quantities} `{LocalZone}.

(** [cmp.Or] on strings. *)
Definition Or (a b : string) : string := if bool_decide (a = "") then b else a.

Definition BarmanPluginParameters (branchName serverName : string) : gmap string string :=
  let params := {[ "barmanObjectName" := branchName ]} : gmap string string in
  if negb (bool_decide (serverName = "")) && negb (bool_decide (serverName = branchName))
  then <["serverName" := serverName]> params else params.

Definition VolumeSnapshotBootstrapRecovery (branchName targetBranchName : string) : BootstrapRecoveryAC :=
  mkRecovery "xata" "xata" (branchName +:+ "-app")
    (Some (mkTypedRef (targetBranchName +:+ "-" +:+ branchName) "VolumeSnapshot"
      "snapshot.storage.k8s.io")) None (Some TargetImmediate).

Definition ObjectStoreBootstrapRecovery (branchName : string) (r : RestoreSpec) : BootstrapRecoveryAC :=
  mkRecovery "xata" "xata" (branchName +:+ "-app") None (Some (rs_Name r))
    ((λ t, TargetTime (FormatMicros (zone_offset t) t)) <$> rs_Timestamp r).

Definition BootstrapInitDB (branchName : string) (majorVersion : Z) : BootstrapInitDBAC :=
  mkInitDB "xata" "UTF8" "C" "C" "xata" (branchName +:+ "-app") (GeneratePostInitSQL majorVersion).

Definition restore_server_name (r : RestoreSpec) : string := Or (rs_ServerName r) (rs_Name r).

(** *** pgbackrest repositories *)

Definition pgbackrestS3 (s3 : PgBackRestS3Spec) (creds : BackupCredentials) : PgBackRestS3AC :=
  if bool_decide (s3_Endpoint s3 = "")
  then mkS3AC (s3_Bucket s3) (s3_Region s3) (Some (s3_KeyType s3)) None None None
  else
    let secretName := Or (s3_CredentialsSecretName s3) (SecretName creds) in
    mkS3AC (s3_Bucket s3) (s3_Region s3) None (Some (s3_Endpoint s3))
      (Some (mkSelector secretName (AccessKeyIDKey creds)))
      (Some (mkSelector secretName (SecretAccessKeyKey creds))).

Definition pgbackrestRepository (pgb : PgBackRestSpec) (creds : BackupCredentials)
    (cipherPassphraseSecretRef : option SecretKeySelector) : PgBackRestRepositoryAC :=
  mkRepository
    (match Azure pgb, GCS pgb, S3 pgb with
     | Some az, _, _ => Some (RepoAzure (az_Account az) (az_Container az) "auto")
     | None, Some g, _ => Some (RepoGCS (gcs_Bucket g) (gcs_KeyType g))
     | None, None, Some s3 => Some (RepoS3 (pgbackrestS3 s3 creds))
     | None, None, None => None
     end)
    (mkCipherAC "aes-256-cbc" <$> cipherPassphraseSecretRef).

Definition UsesAWSIAM (b : option BackupSpec) : bool :=
  match pgbackrest_of b with
  | Some p =>
      match Azure p, GCS p, S3 p with
      | None, None, Some s3 => bool_decide (s3_Endpoint s3 = "")
      | _, _, _ => false
      end
  | None => false
  end.

Definition ExternalClusters (cfg : ClusterConfig) : list ExternalClusterAC :=
  match cc_Restore cfg with
  | Some r =>
      if negb (IsObjectStoreType (Some r)) then []
      else
        match pgbackrest_of (cc_Backup cfg) with
        | Some pgb =>
            [ExternalPgBackRest (rs_Name r)
               (pgbackrestRepository pgb (cc_Credentials cfg) (rs_CipherPassphraseSecretRef r))
               (Or (RepoPath pgb) (rs_Name r))]
        | None =>
            [ExternalPlugin (rs_Name r) barmanPlugin
               (<["serverName" := restore_server_name r]> {[ "barmanObjectName" := rs_Name r ]})]
        end
  | None => []
  end.

Definition PostgresParametersToMap (cfg : option PostgresConfiguration) : gmap string string :=
  match cfg with
  | None => ∅
  | Some cfg => foldl (λ m kv, <[kv.1 := kv.2]> m) ∅ (Parameters cfg)
  end.

Definition smartShutdownTimeout (t : option Z) : Z := default DefaultSmartShutdownTimeout t.

Definition clusterPlugins (branchName : string) (cfg : ClusterConfig) : list PluginAC :=
  mkPlugin "cnpg-i-scale-to-zero.xata.io" None None ∅ ::
  if IsPgBackRest (cc_Backup cfg) then []
  else [mkPlugin barmanPlugin (Some (RequiresBarmanPlugin (cc_Backup cfg))) (Some true)
          (BarmanPluginParameters branchName (from_option ServerName "" (cc_Backup cfg)))].

Definition pgbackrestOptions (pgb : PgBackRestSpec) : PgBackRestOptionsAC :=
  mkOptions (CompressType pgb) (ArchiveAsync pgb) (ArchivePushQueueMax pgb)
    (ArchiveGetQueueMax pgb) true true true true pgbackrestPriority (RetentionFullDays pgb) "time"
    (CompressLevel pgb) (if bool_decide (RepoPath pgb = "") then None else Some (RepoPath pgb)).

Definition backupConfiguration (branchName : string) (cfg : ClusterConfig) : BackupConfigurationAC :=
  let snapshotClass := default "" (VolumeSnapshotClass (Storage (cc_Cluster cfg))) in
  match pgbackrest_of (cc_Backup cfg) with
  | None => mkBackupAC snapshotClass true true None None
  | Some pgb =>
      mkBackupAC snapshotClass true true
        (Some (mkPgBackRestAC (GetStanzaName pgb branchName)
          (pgbackrestRepository pgb (cc_Credentials cfg) (CipherPassphraseSecretRef pgb))
          (pgbackrestOptions pgb)))
        (Some BackupTargetStandby)
  end.

Definition gkeServiceAccountAnnotation : string := "iam.gke.io/gcp-service-account".

Definition serviceAccountTemplate (cfg : ClusterConfig) : option (gmap string string) :=
  match pgbackrest_of (cc_Backup cfg) with
  | Some p =>
      match Azure p, GCS p with
      | None, Some g =>
          if bool_decide (gcs_ServiceAccountEmail g = "") then None
          else Some {[ gkeServiceAccountAnnotation := gcs_ServiceAccountEmail g ]}
      | _, _ => None
      end
  | None => None
  end.

Definition XataRoleConfiguration (branchName : string) : RoleAC :=
  mkRole "xata" EnsurePresent (branchName +:+ "-app") true true true true true true ["xata_superuser"].

(** *** [ClusterSpec] *)

Definition bootstrap_of (branchName : string) (cfg : ClusterConfig) : Bootstrap :=
  match cc_Restore cfg with
  | Some r =>
      match rs_Type r with
      | RestoreTypeVolumeSnapshot => Recovery (VolumeSnapshotBootstrapRecovery branchName (rs_Name r))
      | RestoreTypeObjectStore => Recovery (ObjectStoreBootstrapRecovery branchName r)
      | RestoreTypeXVolClone => Noop
      | RestoreTypeBaseBackup =>
          InitDB (BootstrapInitDB branchName (ExtractMajorVersionFromImage (Image (cc_Cluster cfg))))
      end
  | None => InitDB (BootstrapInitDB branchName (ExtractMajorVersionFromImage (Image (cc_Cluster cfg))))
  end.

Definition affinity_of (cfg : ClusterConfig) : AffinityAC :=
  mkAffinity (default ∅ (NodeSelector (cc_Cluster cfg))) (Tolerations cfg)
    (if EnforceZone cfg then Some "preferred" else None)
    (if EnforceZone cfg then Some "topology.kubernetes.io/zone" else None).

Definition storage_of (s : StorageSpec) : StorageAC :=
  mkStorageAC (Size s) (StorageClass s) (VolumeAttributesClass s) (MountPropagation s).

(** The projected volume and environment for web identity tokens. *)
Definition web_identity (clusterName : string) (cfg : ClusterConfig)
    : option ProjectedVolume * list (string * string) :=
  if negb (bool_decide (PgBackRestWebIdentityRoleARN cfg = "")) then
    let '(volume, env) := WebIdentity clusterName (PgBackRestWebIdentityRoleARN cfg) in
    (Some volume, env)
  else if PgBackRestGCSWebIdentity cfg then
    let '(volume, env) := GCSWebIdentity clusterName in (Some volume, env)
  else (None, []).

Definition cluster_spec (branchName clusterName : string) (cfg : ClusterConfig) : ClusterSpecAC :=
  let c := cc_Cluster cfg in
  {| ca_Instances := Instances c;
     ca_EnablePDB := 1 <? Instances c;
     ca_Storage := storage_of (Storage c);
     ca_ImageName := Image c;
     ca_ImagePullSecrets := ImagePullSecrets cfg;
     ca_EnableSuperuserAccess := true;
     ca_SuperuserSecret := branchName +:+ "-superuser";
     ca_Bootstrap := bootstrap_of branchName cfg;
     ca_Parameters := PostgresParametersToMap (Postgres c);
     ca_AdditionalLibraries := from_option SharedPreloadLibraries [] (Postgres c);
     ca_Plugins := clusterPlugins branchName cfg;
     ca_Resources := Resources c;
     ca_Backup := backupConfiguration branchName cfg;
     ca_StartupProbe := (5, 1, 1, 3600);
     ca_DisabledDefaultServices := [ServiceSelectorTypeR; ServiceSelectorTypeRO];
     ca_Role := XataRoleConfiguration branchName;
     ca_MonitoringTLS := true;
     ca_CustomQueries := mkSelector "cnpg-custom-metrics" "metrics.yaml";
     ca_Affinity := affinity_of cfg;
     ca_InheritedAnnotations := InheritedAnnotations;
     ca_InheritedLabels := default ∅ (cc_InheritedLabels cfg);
     ca_PrimaryUpdateStrategy := "unsupervised";
     ca_PrimaryUpdateMethod := "switchover";
     ca_ExternalClusters := ExternalClusters cfg;
     ca_SmartShutdownTimeout := smartShutdownTimeout (SmartShutdownTimeout c);
     ca_ServiceAccountAnnotations := serviceAccountTemplate cfg;
     ca_ProjectedVolume := (web_identity clusterName cfg).1;
     ca_Env := (web_identity clusterName cfg).2 |}.

(** ** Connection pooling ([internal/cnpg/pooler], [pooler.go]) *)

(** Requested and allowed CPU and memory, as the quantities are written. *)
Record FixedResources := mkFixed {
  fx_RequestCPU : string;
  fx_RequestMemory : string;
  fx_LimitCPU : string;
  fx_LimitMemory : string
}.

Record PoolerAC := mkPoolerAC {
  pa_Cluster : string;
  pa_Instances : Z;
  pa_PoolMode : PoolMode;
  pa_Parameters : gmap string string;
  pa_ServiceAnnotations : gmap string string;
  pa_EnableServiceLinks : bool;
  pa_Container : string * FixedResources;
  pa_ImagePullSecrets : list string;
  pa_Tolerations : list Toleration;
  pa_NodeSelector : gmap string string
}.

Definition pooler_spec (clusterName : string) (instances : Z) (poolMode : PoolMode)
    (maxClientConn defaultPoolSize : string) (imagePullSecrets : list string)
    (tolerations : list Toleration) (nodeSelector : gmap string string) : PoolerAC :=
  let params := <["max_client_conn" := maxClientConn]>
    (<["max_prepared_statements" := "1000"]>
    (<["query_wait_timeout" := "120"]> {[ "server_idle_timeout" := "60" ]})) : gmap string string in
  mkPoolerAC clusterName instances poolMode
    (if bool_decide (defaultPoolSize = "") then params
     else <["default_pool_size" := defaultPoolSize]> params)
    InheritedAnnotations false ("pgbouncer", mkFixed "200m" "100Mi" "500m" "100Mi")
    imagePullSecrets tolerations nodeSelector.

(** The first [max_connections] parameter decides. *)
Fixpoint max_connections (ps : list (string * string)) : Z :=
  match ps with
  | [] => 0
  | (name, value) :: ps =>
      if negb (bool_decide (name = "max_connections")) then max_connections ps
      else match ParseInt10 value with
           | Some v => if v <=? 0 then 0 else v
           | None => 0
           end
  end.

Definition maxConnectionsFromBranch (branch : Branch) : Z :=
  match Postgres (Cluster (br_Spec branch)) with
  | None => 0
  | Some p => max_connections (Parameters p)
  end.

(** [branch.Spec.Pooler] is known to be set. *)
Definition defaultPoolSize (p : PoolerSpec) (branch : Branch) : string :=
  let v := DefaultPoolSize p in
  if negb (bool_decide (v = "")) &&
     (match ParseInt10 v with Some n => 0 <? n | None => false end)
  then v
  else
    let maxConns := maxConnectionsFromBranch branch in
    if maxConns <=? 0 then "" else pretty (Z.quot (wrap_int64 (maxConns * 9)) 10).

(** ** Services, network policy and scale-to-zero rules ([resources.go]) *)

(** A ClusterIP Service with one TCP port, exposed and forwarded as 5432. *)
Record ServiceSpec := mkService {
  svc_PortName : string;
  svc_Port : Z;
  svc_TargetPort : Z;
  svc_Selector : gmap string string
}.

Definition AdditionalServiceSpec (clusterName selectorType : string) : ServiceSpec :=
  let selector := {[ "cnpg.io/cluster" := clusterName ]} : gmap string string in
  mkService "postgres" 5432 5432
    (if bool_decide (selectorType = "rw") then <["cnpg.io/instanceRole" := "primary"]> selector
     else if bool_decide (selectorType = "r") then <["cnpg.io/podRole" := "instance"]> selector
     else if bool_decide (selectorType = "ro") then <["cnpg.io/instanceRole" := "replica"]> selector
     else selector).

Definition PoolerServiceSpec (poolerName : string) : ServiceSpec :=
  mkService "pgbouncer" 5432 5432
    (<["cnpg.io/podRole" := "pooler"]> {[ "cnpg.io/poolerName" := poolerName ]}).

Inductive Protocol := ProtocolTCP | ProtocolUDP.

(** Peers by pod labels, or ports open to every peer. *)
Inductive PolicyRule :=
| PeerPods (labels : gmap string string)
| AnyPeerPorts (ports : list (Z * Protocol)).

Record NetworkPolicy := mkNetworkPolicy {
  np_PodSelector : gmap string string;
  np_Ingress : list PolicyRule;
  np_Egress : list PolicyRule
}.

Definition NetworkPolicySpec (clusterName : string) : NetworkPolicy :=
  let matchLabels := {[ "cnpg.io/cluster" := clusterName ]} in
  mkNetworkPolicy matchLabels [PeerPods matchLabels]
    [PeerPods matchLabels; AnyPeerPorts [(53, ProtocolUDP); (53, ProtocolTCP)]].

Record RBACRule := mkRule {
  rule_APIGroups : list string;
  rule_Resources : list string;
  rule_ResourceNames : list string;
  rule_Verbs : list string
}.

Definition ScaleToZeroClusterRoleRules (branchName : string) : list RBACRule :=
  [mkRule ["xata.io"] ["branches"] [branchName] ["get"; "patch"]].

(** ** Barman object stores and scheduled backups *)

Inductive BarmanCredentials :=
| InheritFromIAMRole (region : SecretKeySelector)
| StaticKeys (region accessKeyID secretAccessKey : SecretKeySelector)
| GKEEnvironment.

(** The WAL and the data are compressed the same way. *)
Record ObjectStore := mkObjectStore {
  os_RetentionPolicy : string;
  os_DestinationPath : string;
  os_EndpointURL : string;
  os_Credentials : BarmanCredentials;
  os_Compression : string;
  os_DataArgs : list string;
  os_Sidecar : FixedResources;
  os_RetentionPolicyIntervalSeconds : Z
}.

Definition ObjectStoreSpec (backupsBucket backupsEndpoint barmanRegionSecretName
    barmanRegionSecretKey retention cloudProvider : string) (credentials : BackupCredentials)
    : ObjectStore :=
  let region := mkSelector barmanRegionSecretName barmanRegionSecretKey in
  mkObjectStore retention backupsBucket backupsEndpoint
    (if negb (bool_decide (backupsEndpoint = ""))
     then StaticKeys region (mkSelector (SecretName credentials) (AccessKeyIDKey credentials))
            (mkSelector (SecretName credentials) (SecretAccessKeyKey credentials))
     else if bool_decide (cloudProvider = "gcp") then GKEEnvironment
     else InheritFromIAMRole region)
    "gzip" ["--min-chunk-size=5MB"; "--read-timeout=60"; "-vv"]
    (mkFixed "100m" "512Mi" "250m" "512Mi") 86400.

Inductive ScheduledMethod := FullPgBackRest | BarmanPluginBackup.

Record ScheduledBackupAC := mkScheduled {
  sb_Cluster : string;
  sb_Schedule : string;
  sb_Immediate : bool;
  sb_Suspend : bool;
  sb_Method : ScheduledMethod
}.

Definition ScheduledBackupSpec (clusterName schedule : string) (suspend : bool)
    (method : BackupMethod) : ScheduledBackupAC :=
  mkScheduled clusterName schedule true suspend
    (if bool_decide (method = BackupMethodPgBackRest) then FullPgBackRest else BarmanPluginBackup).

(** ** Labels and annotations of the cluster ([cluster.go], [common.go]) *)

Definition OperatorName : string := "branch-operator".
Definition managedBy : string := "app.kubernetes.io/managed-by".

(** Inherited labels may override the operator's, unlike in [ensureLabels]. *)
Definition clusterLabels (inherited : option (gmap string string)) : gmap string string :=
  default ∅ inherited ∪ {[ managedBy := OperatorName ]}.

Definition BranchAnnotation : string := "xata.io/branch".
Definition ScaleToZeroEnabledAnnotation : string := "xata.io/scale-to-zero-enabled".
Definition ScaleToZeroInactivityAnnotation : string := "xata.io/scale-to-zero-inactivity-minutes".
Definition HibernationAnnotation : string := "cnpg.io/hibernation".
Definition PodPatchAnnotation : string := "cnpg.io/podPatch".
Definition SkipWALArchivingAnnotation : string := "cnpg.io/skipWalArchiving".

(** The pod patch, whose text holds double quotes. *)
Definition dq (s : string) : string := String double_quote (s +:+ String double_quote EmptyString).
Definition podPatch : string :=
  "[{" +:+ dq "op" +:+ ": " +:+ dq "add" +:+ ", " +:+ dq "path" +:+ ": " +:+
  dq "/spec/enableServiceLinks" +:+ ", " +:+ dq "value" +:+ ": false},{" +:+
  dq "op" +:+ ": " +:+ dq "add" +:+ ", " +:+ dq "path" +:+ ": " +:+ dq "/spec/dnsConfig" +:+ ", " +:+
  dq "value" +:+ ": {" +:+ dq "options" +:+ ": [{" +:+ dq "name" +:+ ": " +:+ dq "ndots" +:+ ", " +:+
  dq "value" +:+ ": " +:+ dq "1" +:+ "}]}}]".

(** [utils.PgBackRestSuspended], a name CNPG defines, is the argument
    [suspendedAnnotation]. *)
Definition clusterAnnotations (suspendedAnnotation : string) (branch : Branch) : gmap string string :=
  let cSpec := Cluster (br_Spec branch) in
  let a := <[BranchAnnotation := br_Name branch]> {[ PodPatchAnnotation := podPatch ]} : gmap string string in
  let a := match ScaleToZero cSpec with
           | Some s =>
               if stz_Enabled s
               then <[ScaleToZeroInactivityAnnotation := pretty (InactivityPeriodMinutes s)]>
                      (<[ScaleToZeroEnabledAnnotation := kubeTrue]> a)
               else <[ScaleToZeroEnabledAnnotation := kubeFalse]> a
           | None => <[ScaleToZeroEnabledAnnotation := kubeFalse]> a
           end in
  let a := <[HibernationAnnotation := if hibernation_enabled (Hibernation cSpec) then "on" else "off"]> a in
  let a := <[SkipWALArchivingAnnotation :=
               if IsWALArchivingDisabled (Backup (br_Spec branch)) then "enabled" else "disabled"]> a in
  <[suspendedAnnotation := "disabled"]> a.
End Builders.

(** ** Facts *)

Section Facts.
Context `{Quantities} `{LocalZone}.

Definition is_barman (p : PluginAC) : bool := bool_decide (pl_Name p = barmanPlugin).

(** The cluster the operator asks for is well formed for every branch: it has
    exactly one WAL archiver, the barman plugin or an in-core pgbackrest
    repository; and it is bootstrapped from a named source exactly when it
    declares one external cluster, which then has that name. *)
Theorem cluster_spec_is_wellformed branchName clusterName cfg :
  let c := cluster_spec branchName clusterName cfg in
  (length (filter (λ p, is_barman p = true) (ca_Plugins c)) +
   match ba_PgBackRest (ca_Backup c) with Some _ => 1 | None => 0 end = 1)%nat ∧
  map external_name (ca_ExternalClusters c) =
    match ca_Bootstrap c with
    | Recovery rc => match rec_Source rc with Some s => [s] | None => [] end
    | _ => []
    end.
Proof.
  split.
  - simpl. unfold clusterPlugins, backupConfiguration, IsPgBackRest.
    destruct (pgbackrest_of (cc_Backup cfg)) as [p|]; [by rewrite bool_decide_true by eauto|].
    rewrite bool_decide_false by (by intros [? ?]). done.
  - simpl. unfold ExternalClusters, bootstrap_of, IsObjectStoreType, is_restore.
    destruct (cc_Restore cfg) as [rs|]; [|done].
    destruct (rs_Type rs); simpl; try done. by destruct (pgbackrest_of (cc_Backup cfg)).
Qed.

(** The connection pool never asks for more server connections than Postgres
    accepts: without an override its size is nine tenths of [max_connections],
    rounded down, for every limit that Go's [int] can multiply by nine. *)
Theorem pool_fits_connection_limit p b m
    (Hdefault : DefaultPoolSize p = "")
    (Hlimit : maxConnectionsFromBranch b = m) (Hm : 0 < m ≤ max_int64 / 9) :
  ParseInt10 (defaultPoolSize p b) = Some (m * 9 / 10) ∧ 0 ≤ m * 9 / 10 < m.
Proof.
  assert (9 * m ≤ max_int64) as H9 by (pose proof (Z.mul_div_le max_int64 9); lia).
  assert (0 ≤ m * 9 / 10 < m) as Hb by (split; [apply Z.div_pos|apply Z.div_lt_upper_bound]; lia).
  split; [|done]. unfold defaultPoolSize. rewrite Hdefault, Hlimit. simpl.
  replace (m <=? 0) with false by lia.
  rewrite wrap_int64_id by (unfold min_int64; lia).
  rewrite Z.quot_div_nonneg by lia. apply ParseInt10_pretty. unfold min_int64. lia.
Qed.

(** The privileges of the database owner grow with the Postgres version. *)
Lemma privileges_grow v v' : v ≤ v' → privileges v ⊆ privileges v'.
Proof.
  intros Hv. unfold privileges.
  destruct (Z.leb_spec 17 v), (Z.leb_spec 16 v), (Z.leb_spec 15 v),
    (Z.leb_spec 17 v'), (Z.leb_spec 16 v'), (Z.leb_spec 15 v'); try lia; try done;
    intros x Hx; repeat (apply elem_of_cons in Hx as [->|Hx]; [by apply (bool_decide_eq_true_1 _); vm_compute|]);
    by apply elem_of_nil in Hx.
Qed.
End Facts.
