(* ===== verification/BranchOperatorModel.v ===== *)
(** * The branch reconciler: [services/branch-operator/pkg/reconciler]

    [BranchReconciler.Reconcile] with every step it takes, as effect trees
    over the Kubernetes API; every answer is arbitrary.  The volume steps are
    those of [BranchVolumes], lifted into the calls of this file.

    [controllerutil.CreateOrUpdate] is third-party.  What it does with its
    callback is a conversation: it hands the object it loaded (or an empty one)
    to the callback ([LoadSecret], [LoadObject]), and takes what the callback
    leaves ([SaveSecret], [SaveObject]); an error of the callback ends it.
    Logging and metrics are left out. *)

From stdpp Require Import pretty.
From S2P Require Import Prelude GoStrings GoFloat GoTime Kube BranchVolumes PostgresVersions BranchTypes PgBackRestNames ClusterResources.

#[local] Open Scope Z_scope.

(** ** Objects *)

(** The metadata a callback reads and writes; a nil map reads as empty. *)
Record Meta := mkMeta {
  m_Labels : gmap string string;
  m_Annotations : gmap string string;
  m_Owners : list OwnerReference
}.

Record Secret := mkSecret {
  sec_Meta : Meta;
  sec_Type : string;
  sec_Data : gmap string string;
  sec_Immutable : bool
}.

(** The Branch as the reconciler holds it: the status fields are those it
    builds up in memory. *)
Record BranchObject `{Quantities} := mkBranchObject {
  bo_Branch : Branch;
  bo_UID : string;
  bo_Generation : Z;
  bo_Deleting : bool;
  bo_ObservedGeneration : Z;
  bo_Conditions : list Condition;
  bo_LastError : string
}.

Record Subject := mkSubject {
  sub_Kind : string;
  sub_Name : string;
  sub_Namespace : string
}.

Inductive kind :=
| KObjectStore | KService | KNetworkPolicy | KClusterRole | KClusterRoleBinding
| KServiceAccount | KPooler | KScheduledBackup.

Inductive body :=
| BObjectStore (spec : ObjectStore)
| BService (spec : ServiceSpec)
| BNetworkPolicy (spec : NetworkPolicy)
| BClusterRole (rules : list RBACRule)
| BClusterRoleBinding (roleName : string) (subjects : list Subject)
| BServiceAccount (automountToken : bool).

(** An owner reference of an applied object. *)
Record AppliedOwner := mkAppliedOwner {
  ao_Kind : string;
  ao_Name : string;
  ao_UID : string;
  ao_BlockOwnerDeletion : bool;
  ao_Controller : bool
}.

(** An object applied server-side, by its name in the clusters namespace. *)
Record Applied (spec : Type) := mkApplied {
  ap_Name : string;
  ap_Labels : gmap string string;
  ap_Annotations : gmap string string;
  ap_Owner : AppliedOwner;
  ap_Spec : spec
}.
Arguments mkApplied {spec} _ _ _ _ _.
Arguments ap_Name {spec} _.
Arguments ap_Labels {spec} _.
Arguments ap_Annotations {spec} _.
Arguments ap_Owner {spec} _.
Arguments ap_Spec {spec} _.

(** What [applyStatus] sends: the empty fields are left unset. *)
Record StatusAC := mkStatusAC {
  st_ObservedGeneration : Z;
  st_LastError : string;
  st_Conditions : list Condition;
  st_PrimaryXVolName : option string;
  st_FirstRecoverabilityPoint : option string;
  st_LastSuccessfulBackup : option string;
  st_LastFailedBackup : option string;
  st_LastRecoverabilityPoint : option string
}.

(** The CNPG cluster as an owner. *)
Record ClusterRef := mkClusterRef {
  clr_Name : string;
  clr_UID : string
}.

(** [authenticationv1.TokenRequest] *)
Record TokenRequest := mkTokenRequest {
  tq_UID : string;
  tq_Audiences : list string;
  tq_ExpirationSeconds : Z
}.

Section Calls.
Context `{Quantities}.

Inductive call :=
| Now
| Rand (below : Z)
| GetBranchObject (name : string)
| GetSecret (name : string)
| GetClusterRef (name : string)
| LoadSecret (name : string)
| SaveSecret (name : string) (s : Secret)
| LoadObject (k : kind) (name : string)
| SaveObject (k : kind) (name : string) (m : Meta) (b : body)
| DeleteObject (k : kind) (name : string)
| ApplyCluster (c : Applied ClusterSpecAC)
| ApplyPooler (p : Applied PoolerAC)
| ApplyScheduledBackup (sb : Applied ScheduledBackupAC)
| ApplyStatus (name : string) (st : StatusAC)
| RequestToken (serviceAccount : string) (tr : TokenRequest)
| GeneratePassword
| GeneratePassphrase
| Volumes (c : BranchVolumes.call).

(** [SaveObject] answers with the object's UID, [RequestToken] with the token
    and its expiration, the generators with an error message on failure. *)
Definition resp (c : call) : Type :=
  match c with
  | Now | Rand _ => Z
  | GetBranchObject _ => res api_error BranchObject
  | GetSecret _ | LoadSecret _ => res api_error Secret
  | GetClusterRef _ => res api_error ClusterRef
  | LoadObject _ _ => res api_error Meta
  | SaveObject _ _ _ _ => res api_error string
  | SaveSecret _ _ | DeleteObject _ _ => option api_error
  | ApplyCluster _ | ApplyPooler _ | ApplyScheduledBackup _ | ApplyStatus _ _ => option api_error
  | RequestToken _ _ => res api_error (string * Z)
  | GeneratePassword | GeneratePassphrase => res string string
  | Volumes c => BranchVolumes.resp c
  end.

(** The calls of a volume step as calls of the reconciler. *)
Fixpoint lift_volumes {A} (p : prog BranchVolumes.resp A) : prog resp A :=
  match p with
  | Ret a => Ret a
  | Call c k => Call (Volumes c) (λ r : resp (Volumes c), lift_volumes (k r))
  end.
End Calls.

#[global] Abbreviation M A := (prog resp A).
#[global] Abbreviation E A := (M (res error A)).

(** The operator's configuration. *)
Record ReconcilerConfig := mkReconciler {
  ClustersNamespace : string;
  BackupsBucket : string;
  BackupsEndpoint : string;
  r_WebIdentityRoleARN : string;
  PgBackRestWorkloadIdentityPool : string;
  r_Credentials : BackupCredentials;
  r_CloudProvider : string;
  BarmanRegionSecretName : string;
  BarmanRegionSecretKey : string;
  r_Tolerations : list Toleration;
  r_EnforceZone : bool;
  r_ImagePullSecrets : list string
}.

(** Third-party functions: [controllerutil]'s owner references for a Branch and
    for a Cluster, the unverified parse of a token, [json.Marshal], and a name
    CNPG defines. *)
Class Libraries := {
  SetControllerReference : string → string → list OwnerReference → res api_error (list OwnerReference);
  SetClusterOwner : ClusterRef → list OwnerReference → res api_error (list OwnerReference);
  ParseIssuer : string → res string string;
  MarshalCredentials : GCSCredentialFile → res string string;
  PgBackRestSuspended : string
}.

Section Reconciler.
Context `{Quantities} `{LocalZone} `{Controller} `{ConditionAPI} `{GoRuntime} `{Libraries}.
Variable r : ReconcilerConfig.
#[local] Open Scope go_scope.

Definition ok {A} (a : A) : E A := mret (Ok a).
Definition fail {A} (e : error) : E A := mret (Err e).

Definition try {A} (wrap : api_error → error) (p : M (res api_error A)) : E A :=
  x ← p; match x with Ok a => ok a | Err e => fail (wrap e) end.
Definition try_ (wrap : api_error → error) (p : M (option api_error)) : E unit :=
  x ← p; match x with None => ok tt | Some e => fail (wrap e) end.

(** [client.IgnoreNotFound] *)
Definition ignore_not_found (wrap : api_error → error) (p : M (option api_error)) : E unit :=
  x ← p;
  match x with
  | Some e => if api_not_found e then ok tt else fail (wrap e)
  | None => ok tt
  end.

Definition wrap_error {A} (msg : string) (p : E A) : E A :=
  x ← p; match x with Ok a => ok a | Err e => fail (Wrapf msg e) end.

(** A step whose result is dropped. *)
Definition void {A} (p : E A) : E unit := _ <-? p; ok tt.

Definition spec (bo : BranchObject) : BranchSpec := br_Spec (bo_Branch bo).
Definition name (bo : BranchObject) : string := br_Name (bo_Branch bo).

(** ** Errors *)

Fixpoint error_message (e : error) : string :=
  match e with
  | ApiError e => api_message e
  | Errorf msg => msg
  | Wrapf msg e => msg +:+ ": " +:+ error_message e
  | ConditionError ty reason e => ty +:+ " - " +:+ reason +:+ ": " +:+ error_message e
  end.

(** [errors.AsType[*ConditionError]] *)
Fixpoint condition_error (e : error) : option (string * string) :=
  match e with
  | ConditionError ty reason _ => Some (ty, reason)
  | Wrapf _ e => condition_error e
  | ApiError _ | Errorf _ => None
  end.

(** ** CreateOrUpdate *)

Definition create_or_update_secret (name : string) (mutate : Secret → E Secret) : E unit :=
  secret <-? try ApiError (perform (LoadSecret name));
  secret <-? mutate secret;
  try_ ApiError (perform (SaveSecret name secret)).

(** The callbacks that set the owner, the labels and the body; the result is
    the object's UID. *)
Definition create_or_update (k : kind) (name : string)
    (mutate : Meta → res api_error (Meta * body)) : E string :=
  m <-? try ApiError (perform (LoadObject k name));
  match mutate m with
  | Err e => fail (ApiError e)
  | Ok (m, b) => try ApiError (perform (SaveObject k name m b))
  end.

Definition with_labels (f : gmap string string → gmap string string) (m : Meta) : Meta :=
  mkMeta (f (m_Labels m)) (m_Annotations m) (m_Owners m).

(** [SetControllerReference] and [ensureLabels] on an object of the branch. *)
Definition own_and_label (bo : BranchObject) (m : Meta) : res api_error Meta :=
  owners <~ SetControllerReference (name bo) (bo_UID bo) (m_Owners m);
  Ok (mkMeta (ensureLabels (m_Labels m) (InheritedLabels (spec bo))) (m_Annotations m) owners).

Definition owned_object (bo : BranchObject) (b : body) (m : Meta) : res api_error (Meta * body) :=
  m <~ own_and_label bo m; Ok (m, b).

(** ** objectstore.go *)

Definition reconcileObjectStore (bo : BranchObject) : E unit :=
  match Backup (spec bo) with
  | None => ignore_not_found ApiError (perform (DeleteObject KObjectStore (name bo)))
  | Some b =>
      if IsPgBackRest (Some b)
      then ignore_not_found ApiError (perform (DeleteObject KObjectStore (name bo)))
      else
        void (create_or_update KObjectStore (name bo) (owned_object bo (BObjectStore
          (ObjectStoreSpec (BackupsBucket r) (BackupsEndpoint r) (BarmanRegionSecretName r)
             (BarmanRegionSecretKey r) (Retention b) (r_CloudProvider r) (r_Credentials r)))))
  end.

(** ** usersecrets.go *)

Definition reloadLabel : string := "cnpg.io/reload".
Definition SecretTypeBasicAuth : string := "kubernetes.io/basic-auth".
Definition SecretTypeOpaque : string := "Opaque".
Definition BasicAuthUsernameKey : string := "username".
Definition BasicAuthPasswordKey : string := "password".

Definition mutate_user_secret (bo : BranchObject) (username : string) (secret : Secret) : E Secret :=
  match own_and_label bo (mkMeta (m_Labels (sec_Meta secret)) (m_Annotations (sec_Meta secret)) []) with
  | Err e => fail (ApiError e)
  | Ok m =>
      let m := with_labels <[reloadLabel := kubeTrue]> m in
      if negb (bool_decide (sec_Data secret = ∅)) then
        ok (mkSecret m (sec_Type secret) (sec_Data secret) (sec_Immutable secret))
      else
        pw ← perform GeneratePassword;
        match pw with
        | Err e => fail (Wrapf "generate password" (Errorf e))
        | Ok pw =>
            ok (mkSecret m SecretTypeBasicAuth
              (<[BasicAuthUsernameKey := username]> {[ BasicAuthPasswordKey := pw ]})
              (sec_Immutable secret))
        end
  end.

Definition reconcileSecret (bo : BranchObject) (secretName username : string) : E unit :=
  create_or_update_secret secretName (mutate_user_secret bo username).

Definition superuserSecretName (branchName : string) : string := branchName +:+ "-superuser".
Definition appSecretName (branchName : string) : string := branchName +:+ "-app".

Definition reconcileSuperuserSecret (bo : BranchObject) : E unit :=
  reconcileSecret bo (superuserSecretName (name bo)) "postgres".

Definition reconcileAppSecret (bo : BranchObject) : E unit :=
  reconcileSecret bo (appSecretName (name bo)) "xata".

(** ** pgbackrestcipher.go *)

Definition PgBackRestCipherLostReason : string := "PgBackRestCipherLost".

Definition pgbackrestCipherKeys (bo : BranchObject) : string * string :=
  let targetKey :=
    match pgbackrest_of (Backup (spec bo)) with
    | Some p => from_option sel_Key "" (CipherPassphraseSecretRef p)
    | None => ""
    end in
  let restoreKey :=
    match Restore (spec bo) with
    | Some rs => if IsObjectStoreType (Some rs)
                 then from_option sel_Key "" (rs_CipherPassphraseSecretRef rs) else ""
    | None => ""
    end in
  (targetKey, restoreKey).

Definition cipher_ref (b : option BackupSpec) : option SecretKeySelector :=
  match b with
  | Some b => match PgBackRest b with Some p => CipherPassphraseSecretRef p | None => None end
  | None => None
  end.

Definition restoreSourcePgBackRestCipher (sourceName : string) : E string :=
  x ← perform (GetBranchObject sourceName);
  match x with
  | Err e =>
      if api_not_found e
      then fail (ConditionError BranchReadyConditionType ParentBranchNotFoundReason (ApiError e))
      else fail (Wrapf ("get restore source branch " +:+ sourceName) (ApiError e))
  | Ok source =>
      match cipher_ref (Backup (spec source)) with
      | None => fail (Errorf ("restore source branch " +:+ sourceName +:+ " has no pgbackrest cipher"))
      | Some ref =>
          secret <-? try (λ e, Wrapf ("get restore source cipher secret " +:+ sel_Name ref) (ApiError e))
            (perform (GetSecret (sel_Name ref)));
          let passphrase := default "" (sec_Data secret !! sel_Key ref) in
          if bool_decide (passphrase = "")
          then fail (Errorf ("restore source cipher secret " +:+ sel_Name ref +:+
                 " does not contain key " +:+ sel_Key ref))
          else ok passphrase
      end
  end.

Definition pgbackrestCipherData (bo : BranchObject) (targetKey restoreKey : string)
    : E (gmap string string) :=
  data <-? (if bool_decide (targetKey = "") then ok ∅
            else
              x ← perform GeneratePassphrase;
              match x with
              | Err e => fail (Wrapf "generate pgbackrest cipher" (Errorf e))
              | Ok passphrase => ok {[ targetKey := passphrase ]}
              end);
  if bool_decide (restoreKey = "") then ok data
  else
    passphrase <-? restoreSourcePgBackRestCipher (from_option rs_Name "" (Restore (spec bo)));
    ok (<[restoreKey := passphrase]> data).

Definition mutate_cipher_secret (bo : BranchObject) (targetKey restoreKey : string) (secret : Secret)
    : E Secret :=
  match own_and_label bo (sec_Meta secret) with
  | Err e => fail (ApiError e)
  | Ok m =>
      let m := with_labels <[reloadLabel := kubeTrue]> m in
      if negb (bool_decide (sec_Data secret = ∅)) then
        ok (mkSecret m (sec_Type secret) (sec_Data secret) true)
      else if negb (bool_decide (targetKey = "")) && HasBackupData (bo_Branch bo) then
        fail (ConditionError BranchReadyConditionType PgBackRestCipherLostReason
          (Errorf ("lost cipher passphrase for repository " +:+ CipherSecretName (name bo))))
      else
        data <-? pgbackrestCipherData bo targetKey restoreKey;
        ok (mkSecret m SecretTypeOpaque data true)
  end.

Definition reconcilePgBackRestCipher (bo : BranchObject) : E unit :=
  let '(targetKey, restoreKey) := pgbackrestCipherKeys bo in
  if bool_decide (targetKey = "") && bool_decide (restoreKey = "") then ok tt
  else create_or_update_secret (CipherSecretName (name bo)) (mutate_cipher_secret bo targetKey restoreKey).

(** ** cluster.go *)

Definition BranchKind : string := "Branch".
Definition branch_owner (bo : BranchObject) : AppliedOwner :=
  mkAppliedOwner BranchKind (name bo) (bo_UID bo) true true.

Definition cluster_config (bo : BranchObject) : ClusterConfig :=
  mkConfig _ (BranchTypes.Cluster (spec bo)) (Backup (spec bo)) (InheritedLabels (spec bo))
    (Restore (spec bo)) (r_Tolerations r) (r_EnforceZone r) (r_ImagePullSecrets r) (r_Credentials r)
    (r_WebIdentityRoleARN r) (negb (bool_decide (PgBackRestWorkloadIdentityPool r = ""))).

Definition cluster_ac (bo : BranchObject) : Applied ClusterSpecAC :=
  let clusterName := ClusterName (bo_Branch bo) in
  mkApplied clusterName (clusterLabels (InheritedLabels (spec bo)))
    (clusterAnnotations PgBackRestSuspended (bo_Branch bo)) (branch_owner bo)
    (cluster_spec (name bo) clusterName (cluster_config bo)).

Definition reconcileCluster (bo : BranchObject) : E unit :=
  if negb (HasClusterName (bo_Branch bo)) then ok tt
  else try_ ApiError (perform (ApplyCluster (cluster_ac bo))).

(** ** additionalservices.go *)

Definition PoolerSuffix : string := "-pooler".

Definition reconcileAdditionalService (bo : BranchObject) (serviceName selectorType : string) : E unit :=
  void (create_or_update KService serviceName (owned_object bo
    (BService (AdditionalServiceSpec (ClusterName (bo_Branch bo)) selectorType)))).

Definition reconcileAdditionalServiceRW (bo : BranchObject) : E unit :=
  reconcileAdditionalService bo ("branch-" +:+ name bo +:+ "-rw") "rw".
Definition reconcileAdditionalServiceR (bo : BranchObject) : E unit :=
  reconcileAdditionalService bo ("branch-" +:+ name bo +:+ "-r") "r".
Definition reconcileAdditionalServiceRO (bo : BranchObject) : E unit :=
  reconcileAdditionalService bo ("branch-" +:+ name bo +:+ "-ro") "ro".

Definition reconcileAdditionalServicePooler (bo : BranchObject) : E unit :=
  if negb (bool_decide (is_Some (Pooler (spec bo)))) || negb (HasClusterName (bo_Branch bo)) then ok tt
  else
    void (create_or_update KService ("branch-" +:+ name bo +:+ "-pooler") (owned_object bo
      (BService (PoolerServiceSpec (ClusterName (bo_Branch bo) +:+ PoolerSuffix))))).

(** ** pooler.go *)

Definition hibernating (bo : BranchObject) : bool :=
  hibernation_enabled (Hibernation (BranchTypes.Cluster (spec bo))).

Definition reconcilePooler (bo : BranchObject) : E unit :=
  if negb (HasClusterName (bo_Branch bo)) then ok tt
  else
    let poolerName := ClusterName (bo_Branch bo) +:+ PoolerSuffix in
    match Pooler (spec bo) with
    | None => ignore_not_found ApiError (perform (DeleteObject KPooler poolerName))
    | Some p =>
        cluster <-? try ApiError (perform (GetClusterRef (ClusterName (bo_Branch bo))));
        let instances := if hibernating bo then 0 else po_Instances p in
        try_ ApiError (perform (ApplyPooler (mkApplied poolerName
          (clusterLabels (InheritedLabels (spec bo))) ∅
          (mkAppliedOwner "Cluster" (clr_Name cluster) (clr_UID cluster) true false)
          (pooler_spec (ClusterName (bo_Branch bo)) instances (Mode p) (MaxClientConn p)
             (defaultPoolSize p (bo_Branch bo)) (r_ImagePullSecrets r) (r_Tolerations r)
             (default ∅ (NodeSelector (BranchTypes.Cluster (spec bo))))))))
    end.

(** ** scheduledbackup.go *)

Definition reconcileScheduledBackup (bo : BranchObject) : E unit :=
  let absent := ignore_not_found ApiError (perform (DeleteObject KScheduledBackup (name bo))) in
  match Backup (spec bo) with
  | None => absent
  | Some b =>
      match ScheduledBackup b with
      | None => absent
      | Some schedule =>
          try_ ApiError (perform (ApplyScheduledBackup (mkApplied (name bo)
            (clusterLabels (InheritedLabels (spec bo))) ∅ (branch_owner bo)
            (ScheduledBackupSpec (ClusterName (bo_Branch bo)) schedule
               (negb (HasClusterName (bo_Branch bo)) || hibernating bo) (Method b)))))
      end
  end.

(** ** networkpolicy.go *)

Definition reconcileNetworkPolicy (bo : BranchObject) : E unit :=
  if negb (HasClusterName (bo_Branch bo))
  then ignore_not_found ApiError (perform (DeleteObject KNetworkPolicy (name bo)))
  else
    void (create_or_update KNetworkPolicy (name bo) (owned_object bo
      (BNetworkPolicy (NetworkPolicySpec (ClusterName (bo_Branch bo)))))).

(** ** scaletozero.go *)

Definition ScaleToZeroRBACSuffix : string := "-scale-to-zero".
Definition scaleToZeroRBACName (bo : BranchObject) : string := name bo +:+ ScaleToZeroRBACSuffix.

Definition scaleToZeroSubjects (bo : BranchObject) : list Subject :=
  [mkSubject "ServiceAccount" (ClusterName (bo_Branch bo)) (ClustersNamespace r)].

Definition reconcileScaleToZeroClusterRole (bo : BranchObject) : E unit :=
  void (create_or_update KClusterRole (scaleToZeroRBACName bo) (owned_object bo
    (BClusterRole (ScaleToZeroClusterRoleRules (name bo))))).

Definition reconcileScaleToZeroClusterRoleBinding (bo : BranchObject) : E unit :=
  void (create_or_update KClusterRoleBinding (scaleToZeroRBACName bo) (owned_object bo
    (BClusterRoleBinding (scaleToZeroRBACName bo) (scaleToZeroSubjects bo)))).

(** The binding first. *)
Definition deleteScaleToZeroRBAC (bo : BranchObject) : E unit :=
  let n := scaleToZeroRBACName bo in
  _ <-? ignore_not_found (λ e, Wrapf ("delete *v1.ClusterRoleBinding " +:+ n) (ApiError e))
    (perform (DeleteObject KClusterRoleBinding n));
  ignore_not_found (λ e, Wrapf ("delete *v1.ClusterRole " +:+ n) (ApiError e))
    (perform (DeleteObject KClusterRole n)).

Definition reconcileScaleToZeroRBAC (bo : BranchObject) : E unit :=
  if negb (HasClusterName (bo_Branch bo)) then deleteScaleToZeroRBAC bo
  else
    _ <-? wrap_error "reconcile ClusterRole" (reconcileScaleToZeroClusterRole bo);
    wrap_error "reconcile ClusterRoleBinding" (reconcileScaleToZeroClusterRoleBinding bo).

(** ** pgbackrestidentity.go *)

Definition PgBackRestTokenRequestAnnotation : string := "xata.io/token-request".
Definition PgBackRestTokenExpirationAnnotation : string := "xata.io/token-expiration".
Definition PgBackRestTokenRefreshAnnotation : string := "xata.io/token-refresh-after".
Definition pgBackRestAWSTokenAudience : string := "sts.amazonaws.com".
Definition pgBackRestTokenLifetime : Z := 24 * Hour.
Definition pgBackRestTokenRefreshFraction : float64 := round_decimal false 8 (-1).
Definition pgBackRestTokenRefreshJitter : Z := 30 * Minute.
Definition pgBackRestTokenRetryDelay : Z := 5 * Minute.
Definition GCSFolderAnnotation : string := "xata.io/gcs-managed-folder-uri".

Definition usesGCS (b : option BackupSpec) : option PgBackRestGCSSpec :=
  match pgbackrest_of b with Some p => GCS p | None => None end.

Definition usesPgBackRestBranchIdentity (bo : BranchObject) : bool :=
  if bool_decide (r_CloudProvider r = "aws")
  then bool_decide (BackupsEndpoint r = "") && UsesAWSIAM (Backup (spec bo))
  else if bool_decide (r_CloudProvider r = "gcp")
  then negb (bool_decide (PgBackRestWorkloadIdentityPool r = ""))
       && bool_decide (is_Some (usesGCS (Backup (spec bo))))
  else false.

Definition pgBackRestTokenAudience : string :=
  if bool_decide (r_CloudProvider r = "gcp") then PgBackRestWorkloadIdentityPool r
  else pgBackRestAWSTokenAudience.

(** The folder annotation of a ServiceAccount of a branch on GCS web identity. *)
Definition folder_annotation (bo : BranchObject) (annotations : gmap string string)
    : gmap string string :=
  match pgbackrest_of (Backup (spec bo)) with
  | Some p =>
      match GCS p with
      | Some g =>
          if bool_decide (gcs_KeyType g = KeyTypeWebID)
          then <[GCSFolderAnnotation := GCSFolderURI (gcs_Bucket g) (GetRepoPath p (name bo))]> annotations
          else annotations
      | None => annotations
      end
  | None => annotations
  end.

(** The name and UID of the ServiceAccount. *)
Definition reconcilePgBackRestServiceAccount (bo : BranchObject) : E (string * string) :=
  let sa := ServiceAccountName (name bo) in
  uid <-? create_or_update KServiceAccount sa (λ m,
    m <~ own_and_label bo m;
    Ok (mkMeta (m_Labels m) (folder_annotation bo (m_Annotations m)) (m_Owners m), BServiceAccount false));
  ok (sa, uid).

(** [%v] of a slice of strings. *)
Definition pgBackRestTokenRequestKey (sa : string * string) (tr : TokenRequest) : string :=
  "serviceAccount=" +:+ sa.1 +:+ ",uid=" +:+ sa.2 +:+ ",audiences=[" +:+
  Join " " (tq_Audiences tr) +:+ "],expirationSeconds=" +:+ pretty (tq_ExpirationSeconds tr).

Definition token_request (sa : string * string) : TokenRequest :=
  mkTokenRequest sa.2 [pgBackRestTokenAudience] (pgBackRestTokenLifetime / Second).

Record pgBackRestToken := mkToken {
  tk_valid : bool;
  expiresAt : Z;
  refreshAt : Z
}.

Definition no_token : pgBackRestToken := mkToken false 0 0.

Definition annotation (m : Meta) (k : string) : string := default "" (m_Annotations m !! k).

Definition currentPgBackRestToken (secret : Secret) (request : string) : pgBackRestToken :=
  if bool_decide (default "" (sec_Data secret !! TokenKey) = "") ||
     negb (bool_decide (annotation (sec_Meta secret) PgBackRestTokenRequestAnnotation = request))
  then no_token
  else
    match ParseRFC3339 (annotation (sec_Meta secret) PgBackRestTokenExpirationAnnotation),
          ParseRFC3339 (annotation (sec_Meta secret) PgBackRestTokenRefreshAnnotation) with
    | Some e, Some rf => mkToken true e rf
    | _, _ => no_token
    end.

(** [rand.N(d)]: an arbitrary draw reduced below [d]. *)
Definition randDuration (d : Z) : M Z :=
  if d <=? 0 then mret 0
  else
    x ← perform (Rand d);
    mret (x mod d).

Definition refresh_offset (lifetime : Z) : Z :=
  int64_of_float (f64_mul (float_of_int lifetime) pgBackRestTokenRefreshFraction).

Definition pgBackRestRefreshTime (issuedAt expiresAt : Z) : M Z :=
  let lifetime := TimeSub expiresAt issuedAt in
  x ← randDuration pgBackRestTokenRefreshJitter;
  let jitter := Z.min x (Z.quot lifetime 10) in
  mret (issuedAt + wrap_int64 (refresh_offset lifetime - jitter)).

(** [setGCSCredentials]: a nil data map that is written to panics; the data
    then has a token, without which the issuer cannot be read. *)
Definition setGCSCredentials (data : gmap string string) : res error (gmap string string) :=
  if negb (bool_decide (r_CloudProvider r = "gcp")) ||
     bool_decide (PgBackRestWorkloadIdentityPool r = "")
  then Ok data
  else
    match ParseIssuer (default "" (data !! TokenKey)) with
    | Err e => Err (Wrapf "read token issuer" (Wrapf "parse token" (Errorf e)))
    | Ok issuer =>
        if bool_decide (issuer = "")
        then Err (Wrapf "read token issuer" (Errorf "token has no issuer"))
        else
          match MarshalCredentials (GCSCredentials (PgBackRestWorkloadIdentityPool r) issuer) with
          | Err e => Err (Wrapf "build GCS credential file" (Errorf e))
          | Ok credentials => Ok (<[GCSCredentialsKey := credentials]> data)
          end
    end.

(** A token that was issued: itself, its expiration and its refresh time. *)
Definition issued_annotations (request : string) (issued : option (string * Z * Z)) (m : Meta) : Meta :=
  match issued with
  | None => m
  | Some (_, expiration, next) =>
      mkMeta (m_Labels m)
        (<[PgBackRestTokenRefreshAnnotation := FormatRFC3339 next]>
        (<[PgBackRestTokenExpirationAnnotation := FormatRFC3339 expiration]>
        (<[PgBackRestTokenRequestAnnotation := request]> (m_Annotations m)))) (m_Owners m)
  end.

Definition mutate_token_secret (bo : BranchObject) (cluster : ClusterRef) (request : string)
    (issued : option (string * Z * Z)) (secret : Secret) : E Secret :=
  match SetClusterOwner cluster (m_Owners (sec_Meta secret)) with
  | Err e => fail (ApiError e)
  | Ok owners =>
      let m := mkMeta (ensureLabels (m_Labels (sec_Meta secret)) (InheritedLabels (spec bo)))
                 (m_Annotations (sec_Meta secret)) owners in
      let data := match issued with
                  | Some (token, _, _) => {[ TokenKey := token ]}
                  | None => sec_Data secret
                  end in
      match setGCSCredentials data with
      | Err e => fail e
      | Ok data =>
          ok (mkSecret (issued_annotations request issued m) (sec_Type secret) data (sec_Immutable secret))
      end
  end.

Definition empty_secret : Secret := mkSecret (mkMeta ∅ ∅ []) "" ∅ false.

(** Request a token when there is none, it was requested differently or it is
    due; the next refresh and the token if one was issued. *)
Definition refresh_token (sa : string * string) (now : Z) (current : pgBackRestToken)
    : E (Z * option (string * Z * Z)) :=
  if tk_valid current && (now <? refreshAt current) then ok (refreshAt current, None)
  else
    x ← perform (RequestToken sa.1 (token_request sa));
    match x with
    | Err e =>
        if negb (tk_valid current) || negb (now <? expiresAt current) then
          fail (Wrapf ("request token for ServiceAccount " +:+ sa.1) (ApiError e))
        else
          delay ← randDuration pgBackRestTokenRetryDelay;
          ok (Z.min (now + (pgBackRestTokenRetryDelay + delay)) (expiresAt current), None)
    | Ok (token, expiration) =>
        next ← pgBackRestRefreshTime now expiration;
        ok (next, Some (token, expiration, next))
    end.

Definition reconcilePgBackRestToken (bo : BranchObject) (cluster : ClusterRef) (sa : string * string)
    : E Z :=
  let secretName := WebIdentitySecretName (clr_Name cluster) in
  let request := pgBackRestTokenRequestKey sa (token_request sa) in
  x ← perform (GetSecret secretName);
  secret <-? (match x with
              | Ok secret => ok secret
              | Err e => if api_not_found e then ok empty_secret
                         else fail (Wrapf ("get Secret " +:+ secretName) (ApiError e))
              end);
  now ← perform Now;
  upd <-? refresh_token sa now (currentPgBackRestToken secret request);
  let '(next, issued) := upd : Z * option (string * Z * Z) in
  _ <-? create_or_update_secret secretName (mutate_token_secret bo cluster request issued);
  later ← perform Now;
  ok (Z.max (TimeSub next later) Second).

Definition reconcilePgBackRestIdentity (bo : BranchObject) : E Z :=
  if negb (usesPgBackRestBranchIdentity bo) then ok 0
  else
    sa <-? wrap_error "reconcile pgbackrest ServiceAccount" (reconcilePgBackRestServiceAccount bo);
    if negb (HasClusterName (bo_Branch bo)) then ok 0
    else
      cluster <-? try (λ e, Wrapf ("get Cluster " +:+ ClusterName (bo_Branch bo)) (ApiError e))
        (perform (GetClusterRef (ClusterName (bo_Branch bo))));
      wrap_error "reconcile pgbackrest web identity Secret" (reconcilePgBackRestToken bo cluster sa).

(** ** conditions.go *)

Definition ResourcesReadyReason : string := "ResourcesReady".
Definition ReconciliationFailedReason : string := "ReconciliationFailed".
Definition ReconciliationPausedReason : string := "ReconciliationPaused".

Definition BranchConditionMessages : gmap string string :=
  list_to_map
    [(ResourcesReadyReason, "All resources created");
     (ParentBranchNotFoundReason, "The parent branch was not found");
     (ParentBranchHasNoXVolReason, "The parent branch has no XVol");
     (ParentClusterNotFoundReason, "The parent cluster for the branch was not found");
     (ParentBranchHasNoClusterReason, "The parent branch has no cluster");
     (ParentClusterUnhealthyReason, "The parent cluster for the branch is not healthy");
     (ParentClusterPVCNotFoundReason, "The PVC for the parent cluster was not found");
     ("AwaitingReconciliation", "The branch is awaiting reconciliation");
     (ReconciliationPausedReason, "Reconciliation has been paused");
     (ReconciliationFailedReason, "An error occurred during reconciliation");
     (XVolNotFoundReason, "No XVol found for the primary volume");
     (PgBackRestCipherLostReason, "The pgbackreset cipher secret is missing")]%string.

Definition with_conditions (bo : BranchObject) (cs : list Condition) : BranchObject :=
  mkBranchObject _ (bo_Branch bo) (bo_UID bo) (bo_Generation bo) (bo_Deleting bo)
    (bo_ObservedGeneration bo) cs (bo_LastError bo).
Definition with_last_error (bo : BranchObject) (e : string) : BranchObject :=
  mkBranchObject _ (bo_Branch bo) (bo_UID bo) (bo_Generation bo) (bo_Deleting bo)
    (bo_ObservedGeneration bo) (bo_Conditions bo) e.
Definition with_observed (bo : BranchObject) : BranchObject :=
  mkBranchObject _ (bo_Branch bo) (bo_UID bo) (bo_Generation bo) (bo_Deleting bo)
    (bo_Generation bo) (bo_Conditions bo) (bo_LastError bo).

Definition setStatusCondition (bo : BranchObject) (conditionType : string) (status : ConditionStatus)
    (reason : string) : M BranchObject :=
  now ← perform Now;
  mret (with_conditions bo (SetStatusCondition now (bo_Conditions bo)
    (mkCondition conditionType status (bo_Generation bo) 0 reason
       (default "" (BranchConditionMessages !! reason))))).

Definition setReadyCondition (bo : BranchObject) (status : ConditionStatus) (reason : string)
    : M BranchObject :=
  setStatusCondition bo BranchReadyConditionType status reason.

Definition setStatusConditionFromError (bo : BranchObject) (err : option error) : M BranchObject :=
  match err with
  | None => mret bo
  | Some e =>
      let '(conditionType, reason) :=
        default (BranchReadyConditionType, ReconciliationFailedReason) (condition_error e) in
      setStatusCondition bo conditionType ConditionFalse reason
  end.

Definition errorMessage (err : option error) : string := from_option error_message "" err.

Definition if_set (s : string) : option string := if bool_decide (s = "") then None else Some s.

Definition status_ac (bo : BranchObject) : StatusAC :=
  let st := br_Status (bo_Branch bo) in
  mkStatusAC (bo_ObservedGeneration bo) (bo_LastError bo) (bo_Conditions bo)
    (if_set (PrimaryXVolName st)) (if_set (FirstRecoverabilityPoint st))
    (if_set (LastSuccessfulBackup st)) (if_set (LastFailedBackup st))
    (if_set (LastRecoverabilityPoint st)).

Definition applyStatus (bo : BranchObject) : M (option api_error) :=
  perform (ApplyStatus (name bo) (status_ac bo)).

(** ** The volume steps on the branch they read *)

Definition restore_type (t : BranchTypes.RestoreType) : BranchVolumes.RestoreType :=
  match t with
  | RestoreTypeVolumeSnapshot => BranchVolumes.RestoreTypeVolumeSnapshot
  | RestoreTypeXVolClone => BranchVolumes.RestoreTypeXVolClone
  | RestoreTypeObjectStore => BranchVolumes.RestoreTypeObjectStore
  | RestoreTypeBaseBackup => BranchVolumes.RestoreTypeBaseBackup
  end.

Definition volumes_view (bo : BranchObject) : BranchVolumes.Branch :=
  let b := bo_Branch bo in
  let storage := Storage (BranchTypes.Cluster (br_Spec b)) in
  let st := br_Status b in
  BranchVolumes.mkBranch (br_Name b) (bo_UID bo) (br_Annotations b)
    (Name (BranchTypes.Cluster (br_Spec b)))
    ((λ rs, BranchVolumes.mkRestore (restore_type (rs_Type rs)) (rs_Name rs)) <$> Restore (br_Spec b))
    (InheritedLabels (br_Spec b)) (VolumeAttributesClass storage) (VolumeSnapshotClass storage)
    (BranchVolumes.mkStatus (PrimaryXVolName st) (FirstRecoverabilityPoint st)
       (LastSuccessfulBackup st) (LastFailedBackup st) (LastRecoverabilityPoint st)).

(** The status a volume step leaves, written back to the branch. *)
Definition with_volume_status (bo : BranchObject) (v : BranchVolumes.Branch) : BranchObject :=
  let b := bo_Branch bo in
  let st := BranchVolumes.br_Status v in
  mkBranchObject _ (mkBranch _ (br_Name b) (br_ResourceVersion b) (br_Labels b) (br_Annotations b)
      (br_Spec b) (mkStatus (BranchVolumes.PrimaryXVolName st)
        (BranchVolumes.FirstRecoverabilityPoint st) (BranchVolumes.LastSuccessfulBackup st)
        (BranchVolumes.LastFailedBackup st) (BranchVolumes.LastRecoverabilityPoint st)))
    (bo_UID bo) (bo_Generation bo) (bo_Deleting bo) (bo_ObservedGeneration bo) (bo_Conditions bo)
    (bo_LastError bo).

Definition volume_step {A} (step : BranchVolumes.Branch → prog BranchVolumes.resp (res error A))
    (bo : BranchObject) : E unit :=
  void (lift_volumes (step (volumes_view bo))).

Definition status_step
    (step : BranchVolumes.Branch → prog BranchVolumes.resp (res error BranchVolumes.Branch))
    (bo : BranchObject) : E BranchObject :=
  v <-? lift_volumes (step (volumes_view bo));
  ok (with_volume_status bo v).

(** ** reconciler.go *)

Definition ReconciliationPausedAnnotation : string := "xata.io/reconciliation-paused".

Definition isReconciliationPaused (bo : BranchObject) : bool :=
  match br_Annotations (bo_Branch bo) !! ReconciliationPausedAnnotation with
  | None => false
  | Some value => default false (ParseBool value)
  end.

(** The steps before the status fields are read from the cluster. *)
Definition data_steps (bo : BranchObject) : E unit :=
  _ <-? reconcileObjectStore bo;
  _ <-? volume_step reconcileVolumeSnapshot bo;
  _ <-? volume_step reconcileXVolClone bo;
  _ <-? reconcileSuperuserSecret bo;
  _ <-? reconcileAppSecret bo;
  _ <-? reconcilePgBackRestCipher bo;
  reconcileCluster bo.

(** The steps after; the time until the next token refresh. *)
Definition serving_steps (bo : BranchObject) : E Z :=
  _ <-? volume_step reconcileXVolOwnership bo;
  _ <-? volume_step reconcileOwnedClusters bo;
  _ <-? reconcileAdditionalServiceRW bo;
  _ <-? reconcileAdditionalServiceR bo;
  _ <-? reconcileAdditionalServiceRO bo;
  _ <-? reconcileAdditionalServicePooler bo;
  _ <-? reconcilePooler bo;
  _ <-? reconcileScheduledBackup bo;
  _ <-? reconcileNetworkPolicy bo;
  _ <-? reconcileScaleToZeroRBAC bo;
  reconcilePgBackRestIdentity bo.

(** All steps; the branch with the status built up so far, on an error too. *)
Definition all_steps (bo : BranchObject) : M (BranchObject * res error Z) :=
  x ← data_steps bo;
  match x with
  | Err e => mret (bo, Err e)
  | Ok _ =>
      x ← status_step updateXVolStatus bo;
      match x with
      | Err e => mret (bo, Err e)
      | Ok bo =>
          x ← status_step updateBackupStatus bo;
          match x with
          | Err e => mret (bo, Err e)
          | Ok bo =>
              x ← serving_steps bo;
              mret (bo, x)
          end
      end
  end.

(** The deferred function: its own error is only logged. *)
Definition finish (bo : BranchObject) (err : option error) : M unit :=
  bo ← setStatusConditionFromError bo err;
  _ ← applyStatus (with_last_error bo (errorMessage err));
  mret tt.

(** [Reconcile], with the delay until the next one ([0]: none is asked for). *)
Definition Reconcile (req : string) : E Z :=
  x ← perform (GetBranchObject req);
  match x with
  | Err e => if api_not_found e then ok 0 else fail (ApiError e)
  | Ok bo =>
      if bo_Deleting bo then ok 0
      else if isReconciliationPaused bo then
        bo ← setReadyCondition bo ConditionUnknown ReconciliationPausedReason;
        _ <-? try_ ApiError (applyStatus bo);
        ok 0
      else
        x ← all_steps (with_observed bo);
        let '(bo, result) := x : BranchObject * res error Z in
        match result with
        | Err e => _ ← finish bo (Some e); fail e
        | Ok delay =>
            bo ← setReadyCondition bo ConditionTrue ResourcesReadyReason;
            _ ← finish bo None;
            ok delay
        end
  end.
End Reconciler.
