(* ===== verification/BranchOperator.v ===== *)
(** * The branch reconciler is correct

    What a run of [Reconcile] shows: what it reports in the status, in which
    order it writes a cluster and the Secrets the cluster names, and which data
    it never overwrites.  [BranchServing] goes on with the other steps. *)

From stdpp Require Import pretty.
From S2P Require Import Prelude GoStrings GoFloat GoFloatBounds GoTime Kube BranchVolumes PostgresVersions BranchTypes PgBackRestNames ClusterResources BranchOperatorModel.

#[local] Open Scope Z_scope.

(** ** Which calls a step may make *)

Section Kinds.
Context `{Quantities}.

Definition is_status (c : call) : bool := match c with ApplyStatus _ _ => true | _ => false end.
Definition is_cluster (c : call) : bool := match c with ApplyCluster _ => true | _ => false end.
Definition is_save_secret (c : call) : bool := match c with SaveSecret _ _ => true | _ => false end.
Definition is_volume (c : call) : bool := match c with Volumes _ => true | _ => false end.
End Kinds.

Section Calls.
Context `{Quantities} `{LocalZone} `{Controller} `{ConditionAPI} `{GoRuntime} `{Libraries}.
Variable r : ReconcilerConfig.

Lemma only_lift_volumes {A} P (p : prog BranchVolumes.resp A) :
  (∀ c, P (Volumes c) = true) → only resp P (lift_volumes p).
Proof. intros HP. induction p as [a|c k IH]; simpl; [done|]. by split. Qed.

Definition lift_event (e : event BranchVolumes.resp) : event resp :=
  match e with ev c w => ev (Volumes c) (w : resp (Volumes c)) end.

Lemma runs_lift_volumes {A} (p : prog BranchVolumes.resp A) tr a :
  runs resp (lift_volumes p) tr a →
  ∃ tr', tr = map lift_event tr' ∧
    runs BranchVolumes.resp p tr' a.
Proof.
  revert tr. induction p as [b|c k IH]; intros tr; simpl.
  - intros [-> ->]. by exists [].
  - intros (w & tr' & -> & Hr). apply IH in Hr as (t & -> & Hr).
    exists (ev c w :: t). split; [done|]. by exists w, t.
Qed.
End Calls.

(** Which calls a program makes, by its structure; [known] settles the parts
    that have a lemma of their own. *)
Tactic Notation "only_tac" "using" tactic3(known) :=
  repeat first
    [ exact I
    | known
    | apply only_lift_volumes; intros ?; reflexivity
    | apply only_perform; reflexivity
    | apply only_bind_ok; [|intros ?]
    | apply only_bind; [|intros ?]
    | apply only_ret
    | progress cbv beta zeta
    | case_match
    | progress unfold try, try_, ignore_not_found, wrap_error, void, volume_step, status_step, ok, fail,
        create_or_update_secret, create_or_update, randDuration, setStatusCondition, setReadyCondition,
        setStatusConditionFromError, applyStatus ].
Tactic Notation "only_tac" := only_tac using fail.

Section Steps.
Context `{Quantities} `{LocalZone} `{Controller} `{ConditionAPI} `{GoRuntime} `{Libraries}.
Variable r : ReconcilerConfig.

Definition not_status (c : call) : bool := negb (is_status c).
Definition plain (c : call) : bool := negb (is_status c) && negb (is_cluster c).

Lemma plain_not_status c : plain c = true → not_status c = true.
Proof. unfold plain, not_status. by intros [? _]%andb_true_iff. Qed.

Lemma data_steps_status bo : only resp not_status (data_steps r bo).
Proof.
  unfold data_steps, reconcileObjectStore, reconcileSuperuserSecret, reconcileAppSecret, reconcileSecret,
    mutate_user_secret, reconcilePgBackRestCipher, mutate_cipher_secret, pgbackrestCipherData,
    restoreSourcePgBackRestCipher, reconcileCluster.
  only_tac.
Qed.

Lemma token_plain bo cluster sa : only resp plain (reconcilePgBackRestToken r bo cluster sa).
Proof.
  unfold reconcilePgBackRestToken, refresh_token, mutate_token_secret, pgBackRestRefreshTime. only_tac.
Qed.

Lemma identity_plain bo : only resp plain (reconcilePgBackRestIdentity r bo).
Proof.
  unfold reconcilePgBackRestIdentity, reconcilePgBackRestServiceAccount.
  only_tac using (apply token_plain).
Qed.

Lemma serving_steps_plain bo : only resp plain (serving_steps r bo).
Proof.
  unfold serving_steps, reconcileAdditionalServiceRW, reconcileAdditionalServiceR,
    reconcileAdditionalServiceRO, reconcileAdditionalService, reconcileAdditionalServicePooler,
    reconcilePooler, reconcileScheduledBackup, reconcileNetworkPolicy, reconcileScaleToZeroRBAC,
    deleteScaleToZeroRBAC, reconcileScaleToZeroClusterRole, reconcileScaleToZeroClusterRoleBinding.
  only_tac using (apply identity_plain).
Qed.

Lemma secret_plain bo n u : only resp plain (reconcileSecret bo n u).
Proof. unfold reconcileSecret, mutate_user_secret. only_tac. Qed.

Lemma cipher_plain bo : only resp plain (reconcilePgBackRestCipher bo).
Proof.
  unfold reconcilePgBackRestCipher, mutate_cipher_secret, pgbackrestCipherData,
    restoreSourcePgBackRestCipher.
  only_tac.
Qed.

Lemma object_store_plain bo : only resp plain (reconcileObjectStore r bo).
Proof. unfold reconcileObjectStore. only_tac. Qed.

Lemma volume_step_plain {A} (step : BranchVolumes.Branch → prog BranchVolumes.resp (res error A)) bo :
  only resp plain (volume_step step bo).
Proof. unfold volume_step. only_tac. Qed.

Lemma status_step_plain step bo : only resp plain (status_step step bo).
Proof. unfold status_step. only_tac. Qed.

Lemma all_steps_status bo : only resp not_status (all_steps r bo).
Proof.
  unfold all_steps. apply only_bind; [apply data_steps_status|intros [|]].
  all: only_tac using (apply (only_mono _ _ _ plain_not_status), serving_steps_plain).
Qed.
End Steps.

Section Status.
Context `{Quantities} `{LocalZone} `{Controller} `{ConditionLaws} `{GoRuntime} `{Libraries}.
Variable r : ReconcilerConfig.
#[local] Open Scope go_scope.

(** What the steps leave of the branch besides the recorded status. *)
Definition same_branch (bo bo' : BranchObject) : Prop :=
  name bo' = name bo ∧ spec bo' = spec bo ∧ bo_UID bo' = bo_UID bo ∧
  bo_Generation bo' = bo_Generation bo ∧ bo_ObservedGeneration bo' = bo_ObservedGeneration bo.

#[export] Instance same_branch_preorder : PreOrder same_branch.
Proof. split; [done|]. unfold same_branch. intros ??? (?&?&?&?&?) (?&?&?&?&?). split_and!; congruence. Qed.

Lemma status_step_same step bo tr bo' :
  runs resp (status_step step bo) tr (Ok bo') → same_branch bo bo'.
Proof.
  unfold status_step. intros [(t1 & t2 & v & -> & _ & [_ [= ->]])|(e & _ & [=])]%runs_bind_ok. done.
Qed.

Lemma all_steps_same bo tr bo' x : runs resp (all_steps r bo) tr (bo', x) → same_branch bo bo'.
Proof.
  unfold all_steps. intros (t1 & t2 & [[]|e] & -> & _ & Hr)%runs_bind; [|by destruct Hr as [_ [= -> ->]]].
  apply runs_bind in Hr as (t3 & t4 & [bo1|e] & -> & Hs1 & Hr);
    [apply status_step_same in Hs1|by destruct Hr as [_ [= -> ->]]].
  apply runs_bind in Hr as (t5 & t6 & [bo2|e] & -> & Hs2 & Hr);
    [apply status_step_same in Hs2|by destruct Hr as [_ [= -> ->]]].
  apply runs_bind in Hr as (t7 & t8 & y & -> & _ & [_ [= -> ->]]). by transitivity bo1.
Qed.

Definition branch_answer (e : event resp) : option (res api_error BranchObject) :=
  match e with ev (GetBranchObject _) w => Some w | _ => None end.

(** A run whose first exchange reads the branch. *)
Lemma runs_Reconcile req bo tail result :
  runs resp (Reconcile r req) (ev (GetBranchObject req) (Ok bo) :: tail) result →
  runs resp (if bo_Deleting bo then ok 0
             else if isReconciliationPaused bo then
               bo ← setReadyCondition bo ConditionUnknown ReconciliationPausedReason;
               _ <-? try_ ApiError (applyStatus bo); ok 0
             else
               x ← all_steps r (with_observed bo);
               let '(bo, result) := x : BranchObject * res error Z in
               match result with
               | Err e => _ ← finish bo (Some e); fail e
               | Ok delay =>
                   bo ← setReadyCondition bo ConditionTrue ResourcesReadyReason;
                   _ ← finish bo None;
                   ok delay
               end) tail result.
Proof.
  intros (x & t & Heq & Hrun).
  assert (x = Ok bo) as -> by (apply (f_equal (λ l, branch_answer <$> head l)) in Heq; by injection Heq).
  apply (f_equal (λ l, List.tl l)) in Heq. simpl in Heq. by subst.
Qed.

(** The condition the status reports for an outcome. *)
Definition reported (result : res error Z) : string * ConditionStatus * string :=
  match result with
  | Ok _ => (BranchReadyConditionType, ConditionTrue, ResourcesReadyReason)
  | Err e =>
      let '(ty, reason) := default (BranchReadyConditionType, ReconciliationFailedReason) (condition_error e) in
      (ty, ConditionFalse, reason)
  end.

Definition shows (st : StatusAC) (result : res error Z) : Prop :=
  st_LastError st = (match result with Ok _ => "" | Err e => error_message e end) ∧
  let '(ty, status, reason) := reported result in
  ∃ c, FindStatusCondition (st_Conditions st) ty = Some c ∧ c_Status c = status ∧ c_Reason c = reason ∧
    c_Message c = default "" (BranchConditionMessages !! reason).

Lemma condition_set now cs ty status gen reason msg :
  ∃ c, FindStatusCondition (SetStatusCondition now cs (mkCondition ty status gen 0 reason msg)) ty = Some c ∧
    c_Status c = status ∧ c_Reason c = reason ∧ c_Message c = msg.
Proof. exact (find_set now cs (mkCondition ty status gen 0 reason msg)). Qed.

(** The condition set last is the one the status shows. *)
Lemma shows_set bo now ty status reason msg result :
  reported result = (ty, status, reason) →
  msg = match result with Ok _ => ""%string | Err e => error_message e end →
  shows (status_ac (with_last_error (with_conditions bo (SetStatusCondition now (bo_Conditions bo)
    (mkCondition ty status (bo_Generation bo) 0 reason (default ""%string (BranchConditionMessages !! reason)))))
    msg)) result.
Proof.
  intros Hrep ->. unfold shows. rewrite Hrep. split; [done|]. simpl.
  apply condition_set.
Qed.

End Status.

Section Outcome.
Context `{Quantities} `{LocalZone} `{Controller} `{ConditionLaws} `{GoRuntime} `{Libraries}.
Variable r : ReconcilerConfig.

(** A branch that is being deleted is not touched at all; one whose
    reconciliation is paused only has its readiness set to unknown: nothing else
    is read, created or deleted. *)
Theorem unreconciled_branch_is_left_alone req bo tail result
    (Hrun : runs resp (Reconcile r req) (ev (GetBranchObject req) (Ok bo) :: tail) result) :
  (bo_Deleting bo = true → tail = [] ∧ result = Ok 0) ∧
  (bo_Deleting bo = false → isReconciliationPaused bo = true →
    ∃ now st w, tail = [ev Now now; ev (ApplyStatus (name bo) st) w] ∧
      (∃ c, FindStatusCondition (st_Conditions st) BranchReadyConditionType = Some c ∧
        c_Status c = ConditionUnknown ∧ c_Reason c = ReconciliationPausedReason) ∧
      st_LastError st = bo_LastError bo ∧
      result = match w with None => Ok 0 | Some e => Err (ApiError e) end).
Proof.
  apply runs_Reconcile in Hrun. split.
  - intros Hd. by rewrite Hd in Hrun.
  - intros Hd Hp. rewrite Hd, Hp in Hrun. destruct Hrun as (now & t1 & -> & w & t2 & -> & Hw).
    exists now. eexists _, w. assert (t2 = []) as -> by (by destruct w; destruct Hw).
    split; [done|]. split; [|split; [done|by destruct w; destruct Hw]]. simpl.
    destruct (condition_set now (bo_Conditions bo) BranchReadyConditionType ConditionUnknown
      (bo_Generation bo) ReconciliationPausedReason
      (default "" (BranchConditionMessages !! ReconciliationPausedReason))) as (c & Hc & ? & ? & _).
    by exists c.
Qed.

(** C34. Every reconciliation of a live branch that is not paused ends by
    reporting its outcome, and reports nothing before: the status names the
    generation that was reconciled, and holds either [Ready=True] without an
    error, when every step succeeded, or the error that ended the pass and a
    false condition with the error's own reason. *)
Theorem status_reports_outcome req bo tail result
    (Hrun : runs resp (Reconcile r req) (ev (GetBranchObject req) (Ok bo) :: tail) result)
    (Hlive : bo_Deleting bo = false) (Hpaused : isReconciliationPaused bo = false) :
  ∃ before st w, tail = before ++ [ev (ApplyStatus (name bo) st) w] ∧
    (∀ n st' w', ev (ApplyStatus n st') w' ∉ before) ∧
    st_ObservedGeneration st = bo_Generation bo ∧ shows st result.
Proof.
  apply runs_Reconcile in Hrun. rewrite Hlive, Hpaused in Hrun.
  apply runs_bind in Hrun as (t1 & t2 & [bo' y] & -> & Hsteps & Hrun).
  pose proof (all_steps_same _ _ _ _ _ Hsteps) as (Hn & _ & _ & Hg & Ho).
  assert (∀ n st' w', ev (ApplyStatus n st') w' ∉ t1) as Hnone.
  { intros n st' w' Hin. by pose proof (only_runs _ _ _ _ _ _ (all_steps_status r _) Hsteps Hin). }
  assert (∀ now n st' w', ev (ApplyStatus n st') w' ∉ t1 ++ [ev Now now]) as Hnone'.
  { intros now n st' w' [Hin|Hin]%elem_of_app; [by eapply Hnone|]. by apply list_elem_of_singleton in Hin. }
  change (name (with_observed bo)) with (name bo) in Hn. rewrite <-Hn. destruct y as [delay|e].
  - destruct Hrun as (now & t3 & -> & w & t4 & -> & -> & ->).
    exists (t1 ++ [ev Now now]). eexists _, w. rewrite <-app_assoc. split; [done|].
    split; [by eauto|]. split; [by simpl; rewrite Ho|]. by apply shows_set.
  - unfold finish, setStatusConditionFromError in Hrun.
    destruct (default _ (condition_error e)) as [ty reason] eqn:Hty.
    destruct Hrun as (now & t3 & -> & w & t4 & -> & -> & ->).
    exists (t1 ++ [ev Now now]). eexists _, w. rewrite <-app_assoc. split; [done|].
    split; [by eauto|]. split; [by simpl; rewrite Ho|]. apply shows_set; [|done]. simpl. by rewrite Hty.
Qed.
End Outcome.

(** ** The Secrets of a branch *)

Section Secrets.
Context `{Quantities} `{LocalZone} `{Controller} `{ConditionAPI} `{GoRuntime} `{Libraries}.
Variable r : ReconcilerConfig.

(** The Secrets a cluster's specification names. *)
Definition bootstrap_secrets (b : Bootstrap) : list string :=
  match b with InitDB i => [idb_Secret i] | Recovery rc => [rec_Secret rc] | Noop => [] end.

Definition cipher_secrets (repo : PgBackRestRepositoryAC) : list string :=
  match repo_Cipher repo with Some c => [sel_Name (ci_Passphrase c)] | None => [] end.

Definition external_secrets (e : ExternalClusterAC) : list string :=
  match e with ExternalPgBackRest _ repo _ => cipher_secrets repo | ExternalPlugin _ _ _ => [] end.

Definition secret_refs (c : ClusterSpecAC) : list string :=
  [ca_SuperuserSecret c; ro_PasswordSecret (ca_Role c)] ++ bootstrap_secrets (ca_Bootstrap c) ++
  match ba_PgBackRest (ca_Backup c) with Some p => cipher_secrets (pba_Repository p) | None => [] end ++
  concat (map external_secrets (ca_ExternalClusters c)).

(** The references the clusters service puts on a branch: keys of the branch's
    own cipher Secret. *)
Definition own_cipher (bo : BranchObject) (ref : option SecretKeySelector) : Prop :=
  match ref with
  | Some ref => sel_Name ref = CipherSecretName (name bo) ∧ sel_Key ref ≠ ""%string
  | None => True
  end.

Definition own_ciphers (bo : BranchObject) : Prop :=
  (∀ p, pgbackrest_of (Backup (spec bo)) = Some p → own_cipher bo (CipherPassphraseSecretRef p)) ∧
  (∀ rs, Restore (spec bo) = Some rs → own_cipher bo (rs_CipherPassphraseSecretRef rs)).

(** [n] was written with data. *)
Definition written (tr : list (event resp)) (n : string) : Prop :=
  ∃ s, ev (SaveSecret n s) None ∈ tr ∧ sec_Data s ≠ ∅.

Lemma written_mono tr tr' n : tr ⊆ tr' → written tr n → written tr' n.
Proof. intros Ht (s & Hin & ?). exists s. auto. Qed.

Lemma runs_create_or_update_secret n mutate t :
  runs resp (create_or_update_secret n mutate) t (Ok tt) →
  ∃ s0 s t', t = ev (LoadSecret n) (Ok s0) :: t' ++ [ev (SaveSecret n s) None] ∧
    runs resp (mutate s0) t' (Ok s).
Proof.
  unfold create_or_update_secret, try. simpl.
  intros ([s0|e] & t1 & -> & Hr); [|by destruct Hr as [_ [=]]].
  apply runs_bind_ok in Hr as [(t0 & t2' & s1 & -> & [-> [= ->]] & Hr)|(e & _ & [=])].
  apply runs_bind_ok in Hr as [(t2 & t3 & s & -> & Hm & Hs)|(e & _ & [=])].
  destruct Hs as ([e|] & t4 & -> & -> & [=]). by exists s0, s, t2.
Qed.

(** A user Secret is never left without data. *)
Lemma runs_mutate_user_secret bo u s0 t s :
  runs resp (mutate_user_secret bo u s0) t (Ok s) →
  sec_Data s ≠ ∅ ∧ (sec_Data s0 ≠ ∅ → sec_Data s = sec_Data s0).
Proof.
  unfold mutate_user_secret. destruct (own_and_label _ _) as [m|e]; [|by intros [_ [=]]].
  case_bool_decide as Hd; simpl.
  - intros ([pw|e] & t' & -> & Hr); [|by destruct Hr as [_ [=]]]. destruct Hr as [-> [= ->]]. simpl.
    split; [apply insert_non_empty|done].
  - by intros [-> [= ->]].
Qed.

Lemma runs_mutate_cipher_secret bo tk rk s0 t s :
  runs resp (mutate_cipher_secret bo tk rk s0) t (Ok s) → tk ≠ ""%string ∨ rk ≠ ""%string →
  sec_Data s ≠ ∅ ∧ (sec_Data s0 ≠ ∅ → sec_Data s = sec_Data s0).
Proof.
  unfold mutate_cipher_secret. destruct (own_and_label _ _) as [m|e]; [|by intros [_ [=]]].
  case_bool_decide as Hd; cond; [|by intros [-> [= ->]]].
  destruct (_ && HasBackupData _); [by intros [_ [=]]|].
  intros [(t1 & t2 & data & -> & Hr & [-> [= ->]])|(e & _ & [=])]%runs_bind_ok Hkeys. simpl.
  split; [|done]. unfold pgbackrestCipherData in Hr.
  apply runs_bind_ok in Hr as [(t3 & t4 & d & -> & Hd1 & Hd2)|(e & _ & [=])].
  case_bool_decide as Hrk.
  - destruct Hd2 as [-> [= ->]]. rewrite bool_decide_false in Hd1 by naive_solver.
    destruct Hd1 as ([pw|e] & t' & -> & Hr); [|by destruct Hr as [_ [=]]].
    destruct Hr as [-> [= ->]]. apply map_non_empty_singleton.
  - apply runs_bind_ok in Hd2 as [(t5 & t6 & pp & -> & _ & [_ [= ->]])|(e & _ & [=])].
    apply insert_non_empty.
Qed.

Lemma user_secret_written bo n u t :
  runs resp (reconcileSecret bo n u) t (Ok tt) → written t n.
Proof.
  intros (s0 & s & t' & -> & [Hd _]%runs_mutate_user_secret)%runs_create_or_update_secret.
  exists s. split; [|done]. set_solver.
Qed.

Lemma cipher_secret_written bo t :
  runs resp (reconcilePgBackRestCipher bo) t (Ok tt) →
  pgbackrestCipherKeys bo ≠ (""%string, ""%string) → written t (CipherSecretName (name bo)).
Proof.
  unfold reconcilePgBackRestCipher. destruct (pgbackrestCipherKeys bo) as [tk rk]. intros Hr Hk.
  destruct (bool_decide (tk = "") && bool_decide (rk = "")) eqn:Hnone.
  { apply andb_true_iff in Hnone as [->%bool_decide_eq_true ->%bool_decide_eq_true]. done. }
  apply runs_create_or_update_secret in Hr as (s0 & s & t' & -> & Hm).
  destruct (runs_mutate_cipher_secret _ _ _ _ _ _ Hm) as [Hd _].
  { destruct (decide (tk = ""%string)) as [->|]; [right|by left]. intros ->. done. }
  exists s. split; [|done]. set_solver.
Qed.

(** The cluster applied by the first steps comes after every Secret they keep. *)
Lemma data_steps_cluster bo before c w after result :
  runs resp (data_steps r bo) (before ++ ev (ApplyCluster c) w :: after) result →
  c = cluster_ac r bo ∧ written before (superuserSecretName (name bo)) ∧
  written before (appSecretName (name bo)) ∧
  (pgbackrestCipherKeys bo ≠ (""%string, ""%string) → written before (CipherSecretName (name bo))).
Proof.
  unfold data_steps. intros Hr.
  apply (runs_after_ok plain) in Hr as (t1 & [] & b1 & -> & _ & Hr); [|apply object_store_plain|done].
  apply (runs_after_ok plain) in Hr as (t2 & [] & b2 & -> & _ & Hr); [|apply volume_step_plain|done].
  apply (runs_after_ok plain) in Hr as (t3 & [] & b3 & -> & _ & Hr); [|apply volume_step_plain|done].
  apply (runs_after_ok plain) in Hr as (t4 & [] & b4 & -> & Hsu & Hr); [|apply secret_plain|done].
  apply (runs_after_ok plain) in Hr as (t5 & [] & b5 & -> & Hap & Hr); [|apply secret_plain|done].
  apply (runs_after_ok plain) in Hr as (t6 & [] & b6 & -> & Hci & Hr); [|apply cipher_plain|done].
  apply user_secret_written in Hsu, Hap. split.
  - unfold reconcileCluster in Hr. destruct (HasClusterName _); [|by destruct Hr as [Hr _]; destruct b6].
    destruct Hr as (w' & t & Heq & Hr).
    assert (t = []) as -> by (by destruct w' as [e|]; destruct Hr).
    destruct b6 as [|? b6]; [|by apply (f_equal length) in Heq; simpl in Heq; rewrite length_app in Heq; simpl in Heq; lia].
    by injection Heq.
  - split_and!.
    + eapply written_mono; [|exact Hsu]. set_solver.
    + eapply written_mono; [|exact Hap]. set_solver.
    + intros Hk. eapply written_mono; [|by apply cipher_secret_written]. set_solver.
Qed.

(** The cluster a reconciliation applies is the one of its first steps. *)
Lemma Reconcile_cluster req bo before c w after result :
  runs resp (Reconcile r req)
    (ev (GetBranchObject req) (Ok bo) :: before ++ ev (ApplyCluster c) w :: after) result →
  ∃ after' x, runs resp (data_steps r (with_observed bo)) (before ++ ev (ApplyCluster c) w :: after') x.
Proof.
  intros Hr%runs_Reconcile. destruct (bo_Deleting bo); [by destruct Hr as [Hr _]; destruct before|].
  assert (∀ c' : call, is_cluster c' = true → negb (is_cluster c') = false) as Hneg by (by intros ? ->).
  destruct (isReconciliationPaused bo).
  { exfalso. eapply (only_runs (λ c, negb (is_cluster c)) _ _ _ (ApplyCluster c) w) in Hr;
      [done| |apply elem_of_app; right; left].
    only_tac. }
  apply (runs_before (λ c, negb (is_cluster c))) in Hr as (t & x & Hr & _); [| |done].
  2: { intros [bo' [?|?]]; unfold finish; only_tac. }
  unfold all_steps in Hr.
  apply (runs_before (λ c, negb (is_cluster c))) in Hr as (t' & y & Hr & _); [by eauto| |done].
  assert (∀ c', plain c' = true → negb (is_cluster c') = true) as Hp.
  { intros c'. unfold plain. by intros [_ ?]%andb_true_iff. }
  intros [[]|e]; only_tac using (apply (only_mono _ _ _ Hp), serving_steps_plain).
Qed.
End Secrets.

Section ClusterSecrets.
Context `{Quantities} `{LocalZone} `{Controller} `{ConditionAPI} `{GoRuntime} `{Libraries}.
Variable r : ReconcilerConfig.

(** Every Secret the branch's cluster names is one of its three own. *)
Lemma secret_refs_own bo n :
  own_ciphers bo → n ∈ secret_refs (ap_Spec (cluster_ac r bo)) →
  n = superuserSecretName (name bo) ∨ n = appSecretName (name bo) ∨
  (n = CipherSecretName (name bo) ∧ pgbackrestCipherKeys bo ≠ (""%string, ""%string)).
Proof.
  intros [Hown Hrest]. unfold secret_refs, cluster_ac. simpl.
  intros [->|[->|[Hb|[Hp|He]%elem_of_app]%elem_of_app]%elem_of_cons]%elem_of_cons; [by left|by right; left|..].
  - right; left. unfold bootstrap_of, cluster_config in Hb. simpl in Hb.
    destruct (Restore (spec bo)) as [rs|]; [destruct (rs_Type rs)|]; simpl in Hb;
      by (apply list_elem_of_singleton in Hb || apply elem_of_nil in Hb).
  - right; right. unfold backupConfiguration, cluster_config in Hp. simpl in Hp.
    unfold pgbackrestCipherKeys.
    destruct (pgbackrest_of (Backup (spec bo))) as [p|] eqn:Hpg; [|by apply elem_of_nil in Hp].
    specialize (Hown p eq_refl). unfold cipher_secrets in Hp. simpl in Hp.
    destruct (CipherPassphraseSecretRef p) as [ref|]; simpl in Hp; [|by apply elem_of_nil in Hp].
    apply list_elem_of_singleton in Hp as ->. destruct Hown as [-> Hk]. split; [done|].
    simpl. naive_solver.
  - right; right. unfold ExternalClusters, cluster_config in He. cbn [cc_Restore cc_Backup cc_Credentials] in He.
    unfold pgbackrestCipherKeys. destruct (Restore (spec bo)) as [rs|] eqn:Hrs; [|by apply elem_of_nil in He].
    specialize (Hrest rs eq_refl). change (is_restore RestoreTypeObjectStore (Some rs)) with
      (IsObjectStoreType (Some rs)) in He.
    destruct (IsObjectStoreType (Some rs)); simpl in He; [|by apply elem_of_nil in He]. destruct (pgbackrest_of (Backup (spec bo))) as [p|] eqn:Hpg;
      simpl in He; [|by apply elem_of_nil in He].
    rewrite app_nil_r in He. unfold cipher_secrets in He. simpl in He.
    destruct (rs_CipherPassphraseSecretRef rs) as [ref|]; simpl in He; [|by apply elem_of_nil in He].
    apply list_elem_of_singleton in He as ->. destruct Hrest as [-> Hk]. split; [done|].
    simpl. naive_solver.
Qed.

(** When a reconciliation applies a branch's cluster, every Secret the
    cluster's specification names (its superuser and application credentials,
    the passphrases of its repository and of the repository it restores from)
    has been written with data before, in the same reconciliation. *)
Theorem cluster_follows_its_secrets req bo before c w after result n
    (Hrun : runs resp (Reconcile r req)
      (ev (GetBranchObject req) (Ok bo) :: before ++ ev (ApplyCluster c) w :: after) result)
    (Hown : own_ciphers bo) (Hn : n ∈ secret_refs (ap_Spec c)) :
  ap_Name c = ClusterName (bo_Branch bo) ∧
  ∃ s, ev (SaveSecret n s) None ∈ before ∧ sec_Data s ≠ ∅.
Proof.
  apply Reconcile_cluster in Hrun as (after' & x & Hrun).
  apply data_steps_cluster in Hrun as (-> & Hsu & Hap & Hci). split; [done|].
  apply secret_refs_own in Hn as [->|[->|[-> Hk]]]; [done|done|by apply Hci|done].
Qed.

(** *** What is written over *)

Definition web_identity_suffix : string := "-pgbackrest-web-identity".

(** In a trace of a branch: the Secrets saved over one that held data keep that
    data, the web identity Secrets apart, and no passphrase is made for a
    repository that holds data. *)
Definition careful (has_data : bool) (tr : list (event resp)) : Prop :=
  (∀ n s w, ev (SaveSecret n s) w ∈ tr → HasSuffix n web_identity_suffix = false →
    ∃ s0, ev (LoadSecret n) (Ok s0) ∈ tr ∧ (sec_Data s0 ≠ ∅ → sec_Data s = sec_Data s0)) ∧
  (∀ w, ev GeneratePassphrase w ∈ tr → has_data = false).

Lemma careful_nil d : careful d [].
Proof. split; [intros n s w ?%elem_of_nil|intros w ?%elem_of_nil]; done. Qed.

Lemma careful_app d t1 t2 : careful d t1 → careful d t2 → careful d (t1 ++ t2).
Proof.
  intros [Hk1 Hg1] [Hk2 Hg2]. split.
  - intros n s w [Hin|Hin]%elem_of_app Hn;
      [destruct (Hk1 n s w Hin Hn) as (s0 & Hs & ?)|destruct (Hk2 n s w Hin Hn) as (s0 & Hs & ?)];
      exists s0; (split; [apply elem_of_app; auto|done]).
  - intros w [Hin|Hin]%elem_of_app; eauto.
Qed.

Definition is_generate (c : call) : bool := match c with GeneratePassphrase => true | _ => false end.
Definition harmless (c : call) : bool := negb (is_save_secret c) && negb (is_generate c).

Lemma careful_event d c w : harmless c = true → careful d [ev c w].
Proof.
  intros [Hs Hg]%andb_true_iff.
  split; [intros n s w' Hin _|intros w' Hin]; exfalso; apply list_elem_of_singleton in Hin.
  - apply (f_equal (λ e : event resp, match e with ev c _ => is_save_secret c end)) in Hin. simpl in Hin.
    by rewrite <-Hin in Hs.
  - apply (f_equal (λ e : event resp, match e with ev c _ => is_generate c end)) in Hin. simpl in Hin.
    by rewrite <-Hin in Hg.
Qed.

Lemma careful_only {A} d (p : M A) : only resp harmless p → always (careful d) p.
Proof. apply always_only; [apply careful_nil|apply careful_app|apply careful_event]. Qed.

Lemma careful_generate w : careful false [ev GeneratePassphrase w].
Proof.
  split; [intros n s w' Hin _|done]. exfalso. apply list_elem_of_singleton in Hin.
  by apply (f_equal (λ e : event resp, match e with ev c _ => is_save_secret c end)) in Hin.
Qed.

(** A callback that saves no Secret itself and keeps what it is given. *)
Lemma careful_create_or_update d n mutate :
  (∀ s0, only resp (λ c, negb (is_save_secret c)) (mutate s0)) → (∀ s0, always (careful d) (mutate s0)) →
  (∀ s0 t s, runs resp (mutate s0) t (Ok s) → HasSuffix n web_identity_suffix = false →
    sec_Data s0 ≠ ∅ → sec_Data s = sec_Data s0) →
  always (careful d) (create_or_update_secret n mutate).
Proof.
  intros Honly Hmut Hkeep tr x Hr. unfold create_or_update_secret, try in Hr. simpl in Hr.
  destruct Hr as ([s0|e] & t1 & -> & Hr).
  2: { destruct Hr as [-> _]. by apply careful_event. }
  apply (runs_bind_ok (mutate s0)) in Hr as [(t2 & t3 & s & -> & Hm & Hs)|(e & Hm & ->)].
  2: { apply (careful_app _ [_]); [by apply careful_event|by eapply Hmut]. }
  destruct Hs as (w & t4 & -> & Hw). assert (t4 = []) as -> by (by destruct w; destruct Hw).
  pose proof (Hmut _ _ _ Hm) as [_ Hgen]. split.
  - intros n' s' w' [Hin|[Hin|Hin]%elem_of_app]%elem_of_cons Hn.
    + by apply (f_equal (λ e : event resp, match e with ev c _ => is_save_secret c end)) in Hin.
    + by pose proof (only_runs _ _ _ _ _ _ (Honly s0) Hm Hin).
    + apply list_elem_of_singleton in Hin.
      assert (n' = n ∧ s' = s) as [-> ->].
      { apply (f_equal (λ e : event resp, match e with ev (SaveSecret n s) _ => Some (n, s) | _ => None end)) in Hin.
        by injection Hin as -> ->. }
      exists s0. split; [by left|]. by eapply Hkeep.
  - intros w' [Hin|[Hin|Hin]%elem_of_app]%elem_of_cons; [|by eapply Hgen|].
    + by apply (f_equal (λ e : event resp, match e with ev c _ => is_generate c end)) in Hin.
    + apply list_elem_of_singleton in Hin.
      by apply (f_equal (λ e : event resp, match e with ev c _ => is_generate c end)) in Hin.
Qed.

(** *** The steps are careful *)

Lemma user_secret_careful d bo n u : always (careful d) (reconcileSecret bo n u).
Proof.
  apply careful_create_or_update.
  - intros s0. unfold mutate_user_secret. only_tac.
  - intros s0. apply careful_only. unfold mutate_user_secret. only_tac.
  - intros s0 t s Hm%runs_mutate_user_secret _. apply Hm.
Qed.

Lemma cipher_data_careful bo tk rk :
  HasBackupData (bo_Branch bo) = false ∨ tk = ""%string →
  always (careful (HasBackupData (bo_Branch bo))) (pgbackrestCipherData bo tk rk).
Proof.
  intros Hd. unfold pgbackrestCipherData. apply always_bind_ok; [apply careful_nil|apply careful_app| |].
  - case_bool_decide as Htk; [apply careful_only; only_tac|]. destruct Hd as [->|]; [|done].
    apply always_bind; [apply careful_app| |].
    + intros tr a (w & t & -> & -> & _). apply careful_generate.
    + intros [?|?]; apply careful_only; only_tac.
  - intros data. apply careful_only. unfold restoreSourcePgBackRestCipher. only_tac.
Qed.

Lemma cipher_careful bo : always (careful (HasBackupData (bo_Branch bo))) (reconcilePgBackRestCipher bo).
Proof.
  unfold reconcilePgBackRestCipher. destruct (pgbackrestCipherKeys bo) as [tk rk].
  destruct (bool_decide (tk = "") && bool_decide (rk = "")) eqn:Hnone; [apply careful_only; only_tac|].
  apply careful_create_or_update.
  - intros s0. unfold mutate_cipher_secret, pgbackrestCipherData, restoreSourcePgBackRestCipher. only_tac.
  - intros s0. unfold mutate_cipher_secret. destruct (own_and_label _ _); [|apply careful_only; only_tac].
    destruct (bool_decide (sec_Data s0 = ∅)); cond; [|apply careful_only; only_tac].
    destruct (negb (bool_decide (tk = ""%string)) && HasBackupData (bo_Branch bo)) eqn:Hlost; [apply careful_only; only_tac|].
    apply always_bind_ok; [apply careful_nil|apply careful_app| |intros; apply careful_only; only_tac].
    apply cipher_data_careful. apply andb_false_iff in Hlost as [Htk|]; [right|by left].
    by apply negb_false_iff, bool_decide_eq_true in Htk.
  - intros s0 t s Hm _ Hd. eapply runs_mutate_cipher_secret; [exact Hm| |done].
    apply andb_false_iff in Hnone as [Hk%bool_decide_eq_false|Hk%bool_decide_eq_false]; auto.
Qed.

Lemma data_steps_careful bo : always (careful (HasBackupData (bo_Branch bo))) (data_steps r bo).
Proof.
  unfold data_steps.
  repeat (apply always_bind_ok; [apply careful_nil|apply careful_app| |intros _]);
    try apply user_secret_careful; try apply cipher_careful; apply careful_only;
    unfold reconcileObjectStore, reconcileCluster; only_tac.
Qed.

Lemma HasSuffix_app a b : HasSuffix (a +:+ b) b = true.
Proof. unfold HasSuffix. by rewrite CutSuffix_app. Qed.

Lemma token_careful d bo cluster sa : always (careful d) (reconcilePgBackRestToken r bo cluster sa).
Proof.
  unfold reconcilePgBackRestToken.
  apply always_bind; [apply careful_app|apply careful_only; only_tac|intros x].
  apply always_bind_ok; [apply careful_nil|apply careful_app|apply careful_only; only_tac|intros secret].
  apply always_bind; [apply careful_app|apply careful_only; only_tac|intros now].
  apply always_bind_ok; [apply careful_nil|apply careful_app| |intros [next issued]].
  { apply careful_only. unfold refresh_token, pgBackRestRefreshTime. only_tac. }
  apply always_bind_ok; [apply careful_nil|apply careful_app| |intros _; apply careful_only; only_tac].
  apply careful_create_or_update.
  - intros s0. unfold mutate_token_secret. only_tac.
  - intros s0. apply careful_only. unfold mutate_token_secret. only_tac.
  - intros s0 t s _ Hn. unfold WebIdentitySecretName in Hn. by rewrite HasSuffix_app in Hn.
Qed.

Lemma serving_steps_careful d bo : always (careful d) (serving_steps r bo).
Proof.
  unfold serving_steps.
  repeat (apply always_bind_ok; [apply careful_nil|apply careful_app| |intros _]).
  all: try (apply careful_only; unfold reconcileAdditionalServiceRW, reconcileAdditionalServiceR,
    reconcileAdditionalServiceRO, reconcileAdditionalService, reconcileAdditionalServicePooler,
    reconcilePooler, reconcileScheduledBackup, reconcileNetworkPolicy, reconcileScaleToZeroRBAC,
    deleteScaleToZeroRBAC, reconcileScaleToZeroClusterRole, reconcileScaleToZeroClusterRoleBinding;
    only_tac; done).
  unfold reconcilePgBackRestIdentity. case_match; [apply careful_only; only_tac|].
  apply always_bind_ok; [apply careful_nil|apply careful_app| |intros sa].
  { apply careful_only. unfold reconcilePgBackRestServiceAccount. only_tac. }
  case_match; [apply careful_only; only_tac|].
  apply always_bind_ok; [apply careful_nil|apply careful_app|apply careful_only; only_tac|intros cluster].
  unfold wrap_error. apply always_bind; [apply careful_app|apply token_careful|].
  intros [?|?]; apply careful_only; only_tac.
Qed.

Lemma all_steps_careful bo : always (careful (HasBackupData (bo_Branch bo))) (all_steps r bo).
Proof.
  unfold all_steps.
  apply always_bind; [apply careful_app|apply data_steps_careful|intros [[]|e]; [|apply careful_only; only_tac]].
  apply always_bind; [apply careful_app|apply careful_only; only_tac|intros [bo1|e]; [|apply careful_only; only_tac]].
  apply always_bind; [apply careful_app|apply careful_only; only_tac|intros [bo2|e]; [|apply careful_only; only_tac]].
  apply always_bind; [apply careful_app|apply serving_steps_careful|intros x; apply careful_only; only_tac].
Qed.

(** C8. No reconciliation changes a password or a repository passphrase that
    exists: a Secret saved under a name whose Secret held data has the same
    data, unless it carries a refreshed web identity token; and no passphrase is
    generated for a branch that already has backups. *)
Theorem credentials_are_never_replaced req bo tail result
    (Hrun : runs resp (Reconcile r req) (ev (GetBranchObject req) (Ok bo) :: tail) result) :
  careful (HasBackupData (bo_Branch bo)) tail.
Proof.
  apply runs_Reconcile in Hrun.
  destruct (bo_Deleting bo); [destruct Hrun as [-> _]; apply careful_nil|].
  destruct (isReconciliationPaused bo).
  { eapply careful_only; [|exact Hrun]. only_tac. }
  eapply always_bind in Hrun; [exact Hrun|apply careful_app|apply (all_steps_careful (with_observed bo))|].
  intros [bo' [?|?]]; apply careful_only; unfold finish; only_tac.
Qed.
End ClusterSecrets.
