(* ===== verification/BranchServing.v ===== *)
(** * The branch reconciler keeps data, follows the branch and renews tokens

    A whole run of [Reconcile]: when it deletes a cluster, what the objects it
    writes point at, and how it keeps the web identity token of a cluster fresh. *)

From stdpp Require Import pretty.
From S2P Require Import Prelude GoStrings GoFloat GoFloatBounds GoTime Kube BranchVolumes PostgresVersions BranchTypes PgBackRestNames ClusterResources BranchOperatorModel BranchOperator.

#[local] Open Scope Z_scope.

(** ** The volumes of a branch, in a whole reconciliation *)

Section Volumes.
Context `{Quantities} `{LocalZone} `{Controller} `{ConditionAPI} `{GoRuntime} `{Libraries}.
Variable r : ReconcilerConfig.

(** The exchanges of the volume steps. *)
Definition volume_events (tr : list (event resp)) : list (event BranchVolumes.resp) :=
  omap (λ e, match e with ev (Volumes c) w => Some (ev c (w : BranchVolumes.resp c)) | _ => None end) tr.

Lemma volume_events_app t1 t2 : volume_events (t1 ++ t2) = volume_events t1 ++ volume_events t2.
Proof. apply omap_app. Qed.

Lemma volume_events_lift tr :
  volume_events (map lift_event tr) = tr.
Proof. induction tr as [|[c w] tr IH]; [done|]. simpl. f_equal. exact IH. Qed.

Definition deletes_cluster (c : call) : bool :=
  match c with Volumes c => BranchVolumes.is_delete c | _ => false end.
Definition keeps (c : call) : bool := negb (deletes_cluster c).

Lemma only_lift_keeps {A} (p : prog BranchVolumes.resp A) :
  only BranchVolumes.resp BranchVolumes.keeps_clusters p → only resp keeps (lift_volumes p).
Proof. induction p as [a|c k IH]; simpl; [done|]. intros [Hc Hk]. split; [exact Hc|]. intros w. apply IH, Hk. Qed.

(** The volume steps before the deletions. *)
Ltac keep_tac :=
  repeat first
    [ exact I
    | apply BranchVolumes.only_getXVolForPVC; reflexivity
    | apply only_perform; reflexivity
    | apply only_bind_ok; [|intros ?]
    | apply only_bind; [|intros ?]
    | apply only_ret
    | progress cbv beta zeta
    | case_match
    | progress unfold BranchVolumes.try, BranchVolumes.try_, BranchVolumes.ignore_not_found,
        BranchVolumes.ok, BranchVolumes.fail, BranchVolumes.lift ].

Lemma volume_step_keeps {A} (step : BranchVolumes.Branch → prog BranchVolumes.resp (res error A)) bo :
  (∀ b, only BranchVolumes.resp BranchVolumes.keeps_clusters (step b)) →
  only resp keeps (volume_step step bo).
Proof. intros Hs. apply only_bind_ok; [apply only_lift_keeps, Hs|done]. Qed.

Lemma status_step_keeps step bo :
  (∀ b, only BranchVolumes.resp BranchVolumes.keeps_clusters (step b)) →
  only resp keeps (status_step step bo).
Proof. intros Hs. apply only_bind_ok; [apply only_lift_keeps, Hs|done]. Qed.

Lemma snapshot_keeps b : only BranchVolumes.resp BranchVolumes.keeps_clusters (reconcileVolumeSnapshot b).
Proof.
  unfold reconcileVolumeSnapshot, ensureVolumeSnapshotExists, getClusterForBranch,
    ensureNoVolumeSnapshotExists. keep_tac.
Qed.

Lemma clone_keeps b : only BranchVolumes.resp BranchVolumes.keeps_clusters (reconcileXVolClone b).
Proof. unfold reconcileXVolClone, createClonedXVol. keep_tac. Qed.

Lemma xvol_status_keeps b : only BranchVolumes.resp BranchVolumes.keeps_clusters (updateXVolStatus b).
Proof. unfold updateXVolStatus. keep_tac. Qed.

Lemma backup_status_keeps b : only BranchVolumes.resp BranchVolumes.keeps_clusters (updateBackupStatus b).
Proof. unfold updateBackupStatus. keep_tac. Qed.

Lemma data_steps_keep bo : only resp keeps (data_steps r bo).
Proof.
  unfold data_steps, reconcileObjectStore, reconcileSuperuserSecret, reconcileAppSecret, reconcileSecret,
    mutate_user_secret, reconcilePgBackRestCipher, mutate_cipher_secret, pgbackrestCipherData,
    restoreSourcePgBackRestCipher, reconcileCluster.
  only_tac using (apply volume_step_keeps; intros ?; first [apply snapshot_keeps | apply clone_keeps]).
Qed.

(** A branch without a cluster goes through the status steps unchanged. *)
Lemma status_steps_idle bo :
  HasClusterName (bo_Branch bo) = false → HasWakeupPoolAnnotation (bo_Branch bo) = true →
  status_step updateXVolStatus bo = ok bo ∧ status_step updateBackupStatus bo = ok bo.
Proof.
  intros Hn Hp.
  assert (BranchVolumes.HasClusterName (volumes_view bo) = false) as Hn' by exact Hn.
  assert (BranchVolumes.HasWakeupPoolAnnotation (volumes_view bo) = true) as Hp' by exact Hp.
  assert (with_volume_status bo (volumes_view bo) = bo) as Hbo by (by destruct bo as [[? ? ? ? ? []]]).
  unfold status_step, updateXVolStatus, updateBackupStatus. rewrite Hn', Hp'. simpl.
  split; cbn; by rewrite Hbo.
Qed.

(** C1. The healthy primary volumes outlive their clusters: when a branch of a
    pool has given up its cluster, a reconciliation deletes a cluster only after
    it has listed the branch's clusters and, for each live one whose status names
    a primary that is among its healthy PVCs, found or made the primary's volume
    retained and owned by the branch.  A primary that is not among the healthy
    PVCs is not kept ([BranchVolumes.Witness.unhealthy_primary_is_not_retained]). *)
Theorem volume_survives_cluster `{!ControllerLaws} req bo before n w after result
    (Hrun : runs resp (Reconcile r req) (ev (GetBranchObject req) (Ok bo) ::
      before ++ ev (Volumes (DeleteCluster n)) w :: after) result)
    (Hname : HasClusterName (bo_Branch bo) = false)
    (Hpool : HasWakeupPoolAnnotation (bo_Branch bo) = true) :
  ∃ clusters, ev (ListOwnedClusters (name bo)) (Ok clusters) ∈ volume_events before ∧
    ∀ cl primary, cl ∈ clusters → cl_deleting cl = false → getClusterPVC cl = Ok primary →
      primary ∈ HealthyPVC cl → protected (volumes_view bo) (volume_events before) primary.
Proof.
  apply runs_Reconcile in Hrun. destruct (bo_Deleting bo); [by destruct Hrun as [Hr _]; destruct before|].
  destruct (isReconciliationPaused bo).
  { exfalso. eapply (only_runs keeps _ _ _ (Volumes (DeleteCluster n)) w) in Hrun;
      [done|only_tac|apply elem_of_app; right; left]. }
  apply (runs_before keeps) in Hrun as (after' & x & Hrun & _); [|intros [bo' [?|?]]; unfold finish; only_tac|done].
  destruct (status_steps_idle (with_observed bo) Hname Hpool) as [Hx Hb]. unfold all_steps in Hrun.
  apply (runs_after keeps) in Hrun as (t1 & [[]|e] & b1 & -> & _ & Hrun); [|by destruct Hrun as [Hr _]; destruct b1|apply data_steps_keep|done].
  rewrite Hx in Hrun. simpl in Hrun. rewrite Hb in Hrun. simpl in Hrun.
  apply (runs_before keeps) in Hrun as (after2 & y & Hrun & _); [|intros ?; only_tac|done].
  unfold serving_steps in Hrun.
  apply (runs_after_ok keeps) in Hrun as (t2 & [] & b2 & -> & Hown & _);
    [|apply volume_step_keeps; intros; apply BranchVolumes.only_ownership|done].
  apply runs_bind_ok in Hown as [(t3 & t4 & z & -> & Hown & _)|(e & _ & [=])].
  apply runs_lift_volumes in Hown as (tv & -> & Hown).
  apply ownership_protects in Hown as (cls & Hl & Hp); [|done|done].
  exists cls. rewrite !volume_events_app, volume_events_lift. split; [set_solver|].
  intros cl primary ????. eapply protected_mono; [|by eapply Hp]. set_solver.
Qed.
End Volumes.

(** ** What the objects of a branch point at *)

#[global] Instance Subject_eq_dec : EqDecision Subject.
Proof. solve_decision. Defined.
#[global] Instance RBACRule_eq_dec : EqDecision RBACRule.
Proof. solve_decision. Defined.
#[global] Instance Protocol_eq_dec : EqDecision Protocol.
Proof. solve_decision. Defined.
#[global] Instance PolicyRule_eq_dec : EqDecision PolicyRule.
Proof. solve_decision. Defined.
#[global] Instance NetworkPolicy_eq_dec : EqDecision NetworkPolicy.
Proof. solve_decision. Defined.

(** The steps of a chain, one goal each. *)
Ltac only_chain := apply only_bind_ok; [|intros _; try only_chain].

Section Targets.
Context `{Quantities} `{LocalZone} `{Controller} `{ConditionLaws} `{GoRuntime} `{Libraries}.
Variable r : ReconcilerConfig.

(** The cluster a branch specification names. *)
Definition cluster_of (sp : BranchSpec) : string := default "" (Name (BranchTypes.Cluster sp)).
Definition sleeps (sp : BranchSpec) : bool := hibernation_enabled (Hibernation (BranchTypes.Cluster sp)).

(** What a call may write for the branch [nm] with the specification [sp]:
    everything is about its current cluster, sleeps when the branch does, and
    lets the cluster's own pods hibernate the branch and nothing else. *)
Definition follows (nm : string) (sp : BranchSpec) (c : call) : bool :=
  match c with
  | ApplyCluster c =>
      bool_decide (ap_Name c = cluster_of sp) &&
      bool_decide (ap_Annotations c !! HibernationAnnotation = Some (if sleeps sp then "on" else "off")%string)
  | ApplyPooler p =>
      bool_decide (ap_Name p = cluster_of sp +:+ "-pooler") &&
      bool_decide (pa_Cluster (ap_Spec p) = cluster_of sp) &&
      bool_decide (pa_Instances (ap_Spec p) = if sleeps sp then 0 else from_option po_Instances 0 (Pooler sp))
  | ApplyScheduledBackup sb =>
      bool_decide (sb_Cluster (ap_Spec sb) = cluster_of sp) &&
      bool_decide (sb_Suspend (ap_Spec sb) = negb (bool_decide (is_Some (Name (BranchTypes.Cluster sp)))) || sleeps sp)
  | SaveObject _ _ _ (BService svc) =>
      bool_decide (svc_Selector svc !! "cnpg.io/cluster" = Some (cluster_of sp)) ||
      bool_decide (svc_Selector svc !! "cnpg.io/poolerName" = Some (cluster_of sp +:+ "-pooler"))
  | SaveObject _ _ _ (BNetworkPolicy np) => bool_decide (np = NetworkPolicySpec (cluster_of sp))
  | SaveObject _ n _ (BClusterRole rules) =>
      bool_decide (n = nm +:+ "-scale-to-zero") &&
      bool_decide (rules = [mkRule ["xata.io"] ["branches"] [nm] ["get"; "patch"]])
  | SaveObject _ _ _ (BClusterRoleBinding role subjects) =>
      bool_decide (role = nm +:+ "-scale-to-zero") &&
      bool_decide (subjects = [mkSubject "ServiceAccount" (cluster_of sp) (ClustersNamespace r)])
  | _ => true
  end.

(** The calls [follows] says nothing of. *)
Definition unmarked (c : call) : bool :=
  match c with
  | ApplyCluster _ | ApplyPooler _ | ApplyScheduledBackup _ => false
  | SaveObject _ _ _ (BObjectStore _ | BServiceAccount _) => true
  | SaveObject _ _ _ _ => false
  | _ => true
  end.

Lemma unmarked_follows nm sp c : unmarked c = true → follows nm sp c = true.
Proof. destruct c as [| | | | | | | |? ? ? b| | | | | | | | |]; try done. by destruct b. Qed.

Lemma status_step_unmarked step bo : only resp unmarked (status_step step bo).
Proof. unfold status_step. only_tac. Qed.

(** An object of the branch whose body is right. *)
Lemma owned_object_follows nm sp bo k n b :
  (∀ m, follows nm sp (SaveObject k n m b) = true) →
  only resp (follows nm sp) (create_or_update k n (owned_object bo b)).
Proof.
  intros Hb. unfold create_or_update. apply only_bind_ok; [only_tac|intros m].
  unfold owned_object. destruct (own_and_label bo m) as [m'|e]; cbn [res_bind]; [|done].
  split; [apply (Hb m')|].
  by intros [?|?].
Qed.

Lemma data_steps_follow bo : PgBackRestSuspended ≠ HibernationAnnotation →
  only resp (follows (name bo) (spec bo)) (data_steps r bo).
Proof.
  intros Hsus. unfold data_steps. only_chain.
  7: { unfold reconcileCluster. case_match; [done|]. unfold try_. apply only_bind; [|intros [?|]; done].
       apply only_perform. simpl. rewrite bool_decide_true by done. simpl. apply bool_decide_eq_true.
       unfold clusterAnnotations. rewrite lookup_insert_ne by done.
       rewrite lookup_insert_ne by done. by rewrite lookup_insert_eq. }
  all: apply (only_mono unmarked); [apply unmarked_follows|].
  all: unfold reconcileObjectStore, reconcileSuperuserSecret, reconcileAppSecret, reconcileSecret,
    mutate_user_secret, reconcilePgBackRestCipher, mutate_cipher_secret, pgbackrestCipherData,
    restoreSourcePgBackRestCipher.
  2-6: only_tac.
  repeat case_match; try (only_tac; done). unfold void. apply only_bind_ok; [|intros _; only_tac].
  unfold create_or_update. apply only_bind_ok; [only_tac|intros m].
  unfold owned_object. destruct (own_and_label bo m) as [m'|e]; cbn; [|done]. split; [done|].
  by intros [?|?].
Qed.

(** The two kinds of Services. *)
Lemma additional_service_follows nm sp k n m ty :
  follows nm sp (SaveObject k n m (BService (AdditionalServiceSpec (cluster_of sp) ty))) = true.
Proof.
  simpl. apply orb_true_iff. left. apply bool_decide_eq_true. unfold AdditionalServiceSpec. simpl.
  by repeat case_bool_decide; rewrite ?lookup_insert_ne by done; rewrite lookup_singleton_eq.
Qed.

Lemma pooler_service_follows nm sp k n m :
  follows nm sp (SaveObject k n m (BService (PoolerServiceSpec (cluster_of sp +:+ "-pooler")))) = true.
Proof.
  simpl. apply orb_true_iff. right. apply bool_decide_eq_true. unfold PoolerServiceSpec. simpl.
  rewrite lookup_insert_ne by done. by rewrite lookup_singleton_eq.
Qed.

Lemma identity_follows nm sp bo : only resp (follows nm sp) (reconcilePgBackRestIdentity r bo).
Proof.
  unfold reconcilePgBackRestIdentity. case_match; [done|].
  apply only_bind_ok.
  { unfold wrap_error. apply only_bind; [|intros [?|?]; done].
    unfold reconcilePgBackRestServiceAccount. apply only_bind_ok; [|done].
    unfold create_or_update. apply only_bind_ok; [only_tac|intros m].
    destruct (own_and_label bo m) as [m'|e]; cbn; [|done]. split; [done|]. by intros [?|?]. }
  intros sa. case_match; [done|]. apply (only_mono unmarked); [apply unmarked_follows|].
  unfold reconcilePgBackRestToken, refresh_token, mutate_token_secret, pgBackRestRefreshTime. only_tac.
Qed.

Lemma serving_steps_follow bo : only resp (follows (name bo) (spec bo)) (serving_steps r bo).
Proof.
  unfold serving_steps.
  assert (∀ k n b, (∀ m, follows (name bo) (spec bo) (SaveObject k n m b) = true) →
    only resp (follows (name bo) (spec bo)) (void (create_or_update k n (owned_object bo b)))) as Hobj.
  { intros k n b Hb. unfold void. apply only_bind_ok; [by apply owned_object_follows|done]. }
  only_chain.
  1-2: unfold volume_step; only_tac.
  1-3: apply Hobj; intros m; apply additional_service_follows.
  - unfold reconcileAdditionalServicePooler. case_match; [done|]. apply Hobj. intros m.
    apply pooler_service_follows.
  - unfold reconcilePooler. case_match; [done|]. destruct (Pooler (spec bo)) as [p|] eqn:Hp; [|only_tac].
    apply only_bind_ok; [only_tac|intros cl]. unfold try_. apply only_bind; [|intros [?|]; done].
    apply only_perform. simpl. rewrite Hp. by rewrite !bool_decide_true by done.
  - unfold reconcileScheduledBackup. destruct (Backup (spec bo)) as [b|]; [|only_tac].
    destruct (ScheduledBackup b); [|only_tac]. unfold try_. apply only_bind; [|intros [?|]; done].
    apply only_perform. simpl. by rewrite !bool_decide_true by done.
  - unfold reconcileNetworkPolicy. case_match; [only_tac|]. apply Hobj. intros m. simpl.
    by apply bool_decide_eq_true.
  - unfold reconcileScaleToZeroRBAC. case_match; [unfold deleteScaleToZeroRBAC; only_tac|].
    unfold wrap_error, reconcileScaleToZeroClusterRole, reconcileScaleToZeroClusterRoleBinding.
    apply only_bind_ok; [|intros _]; (apply only_bind; [|intros [?|?]; done]); apply Hobj; intros m; simpl;
      by rewrite !bool_decide_true by done.
  - apply identity_follows.
Qed.

(** Everything a reconciliation writes is about the branch's current
    cluster: its cluster, pooler, backup schedule, services and network policy
    name it, are asleep exactly when the branch is, and the role it grants lets
    that cluster's pods read and patch this branch only. *)
Theorem objects_follow_the_branch req bo tail result c w
    (Hsus : PgBackRestSuspended ≠ HibernationAnnotation)
    (Hrun : runs resp (Reconcile r req) (ev (GetBranchObject req) (Ok bo) :: tail) result)
    (Hin : ev c w ∈ tail) :
  follows (name bo) (spec bo) c = true.
Proof.
  assert (∀ A (p : M A) t a, only resp unmarked p → runs resp p t a → ev c w ∈ t →
    follows (name bo) (spec bo) c = true) as Hun.
  { intros A p t a Ho Hr Hc. by eapply unmarked_follows, only_runs. }
  apply runs_Reconcile in Hrun. destruct (bo_Deleting bo); [destruct Hrun as [-> _]; by apply elem_of_nil in Hin|].
  destruct (isReconciliationPaused bo); [eapply Hun; [|exact Hrun|done]; only_tac|].
  apply runs_bind in Hrun as (t1 & t2 & [bo' x] & -> & Hsteps & Hfin).
  apply elem_of_app in Hin as [Hin|Hin].
  2: { eapply Hun; [|exact Hfin|done]. destruct x; unfold finish; only_tac. }
  unfold all_steps in Hsteps. apply runs_bind in Hsteps as (t3 & t4 & y & -> & Hdata & Hsteps).
  apply elem_of_app in Hin as [Hin|Hin].
  { exact (only_runs _ _ _ _ _ _ (data_steps_follow (with_observed bo) Hsus) Hdata Hin). }
  destruct y as [[]|e]; [|destruct Hsteps as [-> _]; by apply elem_of_nil in Hin].
  apply runs_bind in Hsteps as (t5 & t6 & y & -> & Hst & Hsteps).
  apply elem_of_app in Hin as [Hin|Hin]; [eapply Hun; [apply status_step_unmarked|exact Hst|done]|].
  destruct y as [bo1|e]; [|destruct Hsteps as [-> _]; by apply elem_of_nil in Hin].
  apply runs_bind in Hsteps as (t7 & t8 & y & -> & Hst2 & Hsteps).
  apply elem_of_app in Hin as [Hin|Hin]; [eapply Hun; [apply status_step_unmarked|exact Hst2|done]|].
  destruct y as [bo2|e]; [|destruct Hsteps as [-> _]; by apply elem_of_nil in Hin].
  apply runs_bind in Hsteps as (t9 & t10 & y & -> & Hserve & [-> _]). rewrite app_nil_r in Hin.
  apply status_step_same in Hst as (Hn1 & Hs1 & _). apply status_step_same in Hst2 as (Hn2 & Hs2 & _).
  pose proof (only_runs _ _ _ _ _ _ (serving_steps_follow bo2) Hserve Hin) as Hf.
  by rewrite Hn2, Hs2, Hn1, Hs1 in Hf.
Qed.
End Targets.

(** ** Web identity tokens *)

Section Tokens.
Context `{Quantities} `{LocalZone} `{Controller} `{ConditionAPI} `{GoRuntime} `{Libraries}.
Variable r : ReconcilerConfig.

(** The refresh fraction of a lifetime of at most [2^53] nanoseconds (104 days)
    is at most nine tenths of it, for all the rounding. *)
Lemma refresh_offset_bound l : 0 < l ≤ 2 ^ 53 → 0 ≤ refresh_offset l ∧ refresh_offset l * 10 ≤ l * 9.
Proof.
  intros Hl. destruct l as [|p|p]; try lia. unfold refresh_offset, int64_of_float.
  change pgBackRestTokenRefreshFraction with (SpecFloat.S754_finite false 7205759403792794 (-53)).
  destruct (fraction_bound p 7205759403792794 10 9) as (n & -> & Hn); [lia|lia|vm_compute; discriminate|].
  replace ((min_int64 <=? n) && (n <=? max_int64)) with true by (unfold min_int64, max_int64; lia). lia.
Qed.

(** A new token is refreshed when at most nine tenths of its life are over. *)
Lemma runs_refresh_time now e tr next :
  runs resp (pgBackRestRefreshTime now e) tr next → 0 < e - now ≤ 2 ^ 53 →
  now - (e - now) ≤ next ∧ (next - now) * 10 ≤ (e - now) * 9.
Proof.
  intros (x & t & -> & [_ ->]) Hl. rewrite TimeSub_small by (unfold min_int64, max_int64; lia).
  pose proof (refresh_offset_bound (e - now) Hl) as Ho.
  pose proof (Z.mod_pos_bound x pgBackRestTokenRefreshJitter ltac:(done)) as Hx.
  rewrite Z.quot_div_nonneg by lia. pose proof (Z.div_pos (e - now) 10 ltac:(lia) ltac:(lia)).
  pose proof (Z.div_le_upper_bound (e - now) 10 (e - now) ltac:(lia) ltac:(lia)).
  rewrite wrap_int64_id; unfold min_int64, max_int64; lia.
Qed.

Definition token_secret (cluster : ClusterRef) : string := WebIdentitySecretName (clr_Name cluster).
Definition request_key (sa : string * string) : string :=
  pgBackRestTokenRequestKey sa (token_request r sa).

(** The exchanges of a pass that succeeds. *)
Lemma runs_token bo cluster sa tr delay :
  runs resp (reconcilePgBackRestToken r bo cluster sa) tr (Ok delay) →
  ∃ x s now next issued t s0 s1 later,
    tr = [ev (GetSecret (token_secret cluster)) x; ev Now now] ++ t ++
         [ev (LoadSecret (token_secret cluster)) (Ok s0);
          ev (SaveSecret (token_secret cluster) s1) None; ev Now later] ∧
    (x = Ok s ∨ (∃ e, x = Err e ∧ api_not_found e = true) ∧ s = empty_secret) ∧
    runs resp (refresh_token r sa now (currentPgBackRestToken s (request_key sa))) t (Ok (next, issued)) ∧
    runs resp (mutate_token_secret r bo cluster (request_key sa) issued s0) [] (Ok s1) ∧
    delay = Z.max (TimeSub next later) Second.
Proof.
  unfold reconcilePgBackRestToken. fold (token_secret cluster). intros (x & t & -> & Hr).
  apply runs_bind_ok in Hr as [(t1 & t2 & s & -> & Hs & Hr)|(e & _ & [=])].
  assert (t1 = [] ∧ (x = Ok s ∨ (∃ e, x = Err e ∧ api_not_found e = true) ∧ s = empty_secret)) as [-> Hx].
  { destruct x as [s'|e]; [by destruct Hs as [-> [= ->]]; auto|].
    destruct (api_not_found e) eqn:He; destruct Hs as [-> [= ->]]. eauto 10. }
  destruct Hr as (now & t3 & -> & Hr).
  apply runs_bind_ok in Hr as [(t4 & t5 & [next issued] & -> & Href & Hr)|(e & _ & [=])].
  apply runs_bind_ok in Hr as [(t6 & t7 & [] & -> & Hc & Hr)|(e & _ & [=])].
  apply runs_create_or_update_secret in Hc as (s0 & s1 & t8 & -> & Hm).
  destruct Hr as (later & t9 & -> & -> & [= ->]).
  assert (t8 = []) as ->.
  { unfold mutate_token_secret in Hm. repeat case_match; by destruct Hm. }
  exists x, s, now, next, issued, t4, s0, s1, later. split; [|done]. simpl. done.
Qed.

(** What the callback leaves as the current token. *)
Lemma mutate_token_current bo cluster sa issued s0 s1 :
  runs resp (mutate_token_secret r bo cluster (request_key sa) issued s0) [] (Ok s1) →
  currentPgBackRestToken s1 (request_key sa) =
  match issued with
  | None => currentPgBackRestToken s0 (request_key sa)
  | Some (token, e, next) =>
      if bool_decide (token = "") then no_token
      else match ParseRFC3339 (FormatRFC3339 e), ParseRFC3339 (FormatRFC3339 next) with
           | Some e, Some n => mkToken true e n
           | _, _ => no_token
           end
  end.
Proof.
  unfold mutate_token_secret. destruct (SetClusterOwner _ _) as [owners|]; [|by intros [_ [=]]].
  assert (∀ d d', setGCSCredentials r d = Ok d' → d' !! TokenKey = d !! TokenKey) as Hkeep.
  { intros d d'. unfold setGCSCredentials. repeat case_match; intros [= <-]; try done.
    by rewrite lookup_insert_ne. }
  destruct (setGCSCredentials r _) as [data|] eqn:Hset; [|by intros [_ [=]]].
  apply Hkeep in Hset. intros [_ [= ->]]. unfold currentPgBackRestToken, annotation.
  cbn [sec_Data sec_Meta]. rewrite Hset. destruct issued as [[[token e] next]|]; [|done].
  unfold issued_annotations. cbn [m_Annotations]. rewrite lookup_singleton_eq.
  rewrite !lookup_insert_eq, (lookup_insert_ne _ _ PgBackRestTokenRequestAnnotation) by done.
  rewrite (lookup_insert_ne _ _ PgBackRestTokenRequestAnnotation) by done.
  rewrite lookup_insert_eq. cbn [default from_option id].
  rewrite (bool_decide_true (request_key sa = request_key sa)) by done.
  cbn [negb]. rewrite orb_false_r, lookup_insert_ne by done. by rewrite lookup_insert_eq.
Qed.

(** What a pass relies on: a token that is to be refreshed before it ends. *)
Definition refreshable (tk : pgBackRestToken) : Prop := tk_valid tk = true → refreshAt tk < expiresAt tk.

(** The API server issues tokens that are valid for a while (at most [2^53]
    nanoseconds, 104 days), to the second, at times RFC 3339 can write. *)
Definition issues_fresh_tokens (tr : list (event resp)) : Prop :=
  ∀ sa tq token e now, ev (RequestToken sa tq) (Ok (token, e)) ∈ tr → ev Now now ∈ tr →
    token ≠ ""%string ∧ e mod Second = 0 ∧ now < e ≤ now + 2 ^ 53 ∧ 0 ≤ 2 * now - e ∧
    e / Second < 253402300800.

(** No one else writes the Secret during the pass. *)
Definition undisturbed (n : string) (tr : list (event resp)) : Prop :=
  ∀ x s, ev (GetSecret n) x ∈ tr → ev (LoadSecret n) (Ok s) ∈ tr →
    s = match x with Ok s => s | Err _ => empty_secret end.

(** When the next pass is due, for a token that is current after a pass at
    [now]: at the refresh time of a token that was kept; for a new token when at
    most nine tenths of its life are over; after a request for a token that
    failed, within ten minutes, and when the token expires at the latest. *)
Definition due (tr : list (event resp)) (now : Z) (tk : pgBackRestToken) (next : Z) : Prop :=
  (next = refreshAt tk ∧ now < next < expiresAt tk) ∨
  (∃ sa tq token, ev (RequestToken sa tq) (Ok (token, expiresAt tk)) ∈ tr ∧ (next - now) * 10 ≤ (expiresAt tk - now) * 9) ∨
  (∃ sa tq e, ev (RequestToken sa tq) (Err e) ∈ tr ∧ next ≤ expiresAt tk ∧ now < next < now + 2 * pgBackRestTokenRetryDelay).

(** C37. A pass that succeeds leaves a token that has not expired in the Secret of
    the cluster, and asks for the next pass when that is due, or in a second if it
    is nearer: before the token expires, at the latest when nine tenths of a new
    token's life are over; only after a request for a token that failed, which
    keeps the old one while it is valid, may it be as late as the expiry.  What a
    pass relies on holds again after it.  It relies on this: the API server issues
    tokens as [issues_fresh_tokens] says, nobody else writes the Secret between
    the two reads of the pass, and a valid token in it is to be refreshed before
    it ends. *)
Theorem token_is_replaced_in_time bo cluster sa tr delay
    (Hrun : runs resp (reconcilePgBackRestToken r bo cluster sa) tr (Ok delay))
    (Hissue : issues_fresh_tokens tr) (Halone : undisturbed (token_secret cluster) tr)
    (Hbefore : ∀ s, ev (GetSecret (token_secret cluster)) (Ok s) ∈ tr →
      refreshable (currentPgBackRestToken s (request_key sa))) :
  ∃ s now later next, ev (SaveSecret (token_secret cluster) s) None ∈ tr ∧
    ev Now now ∈ tr ∧ last tr = Some (ev Now later) ∧
    let tk := currentPgBackRestToken s (request_key sa) in
    tk_valid tk = true ∧ now < expiresAt tk ∧ refreshable tk ∧
    due tr now tk next ∧ delay = Z.max (TimeSub next later) Second.
Proof.
  destruct (runs_token _ _ _ _ _ Hrun) as (x & s & now & next & issued & t & s0 & s1 & later &
    Htr & Hx & Href & Hmut & Hdelay).
  assert (ev (GetSecret (token_secret cluster)) x ∈ tr) as Hget by (subst; by left).
  assert (ev Now now ∈ tr) as Hnow by (subst; right; left).
  assert (ev (SaveSecret (token_secret cluster) s1) None ∈ tr) as Hsave.
  { subst. apply elem_of_app. right. apply elem_of_app. do 2 right. left. }
  assert (s0 = s) as ->.
  { rewrite (Halone x s0 Hget); [|subst; apply elem_of_app; right; apply elem_of_app; right; left].
    by destruct Hx as [->|[(e & -> & _) ->]]. }
  assert (refreshable (currentPgBackRestToken s (request_key sa))) as Hok.
  { destruct Hx as [->|[_ ->]]; [by apply Hbefore|]. done. }
  apply mutate_token_current in Hmut.
  exists s1, now, later, next. do 2 (split; [done|]). split; [by subst; rewrite app_assoc, last_app|].
  assert (∀ c w, ev c w ∈ t → ev c w ∈ tr) as Hin.
  { intros c w Hc. subst tr. rewrite elem_of_app, elem_of_app. auto. }
  rewrite Hmut. clear Hmut Hrun. cbv zeta. unfold refresh_token in Href. revert Hok Href.
  set (tk := currentPgBackRestToken s (request_key sa)). intros Hok Href.
  destruct (tk_valid tk && (now <? refreshAt tk)) eqn:Hfresh.
  - destruct Href as [_ [= -> ->]]. apply andb_true_iff in Hfresh as [Hv Hlt%Z.ltb_lt].
    specialize (Hok Hv). split_and!; [done|lia|by intros _| |done]. left. done.
  - destruct Href as ([[token e]|err] & t1 & -> & Href).
    + apply (runs_bind (pgBackRestRefreshTime now e)) in Href as (t2 & t3 & n & -> & Ht & [_ [= -> ->]]).
      specialize (Hin _ _ (list_elem_of_here _ _)).
      destruct (Hissue _ _ token e now Hin Hnow) as (Htok & Hsec & Hlife & Hpos & Hmax).
      apply runs_refresh_time in Ht; [|lia]. rewrite bool_decide_false by done. assert (0 < Second) by done.
      rewrite !ParseRFC3339_FormatRFC3339; cycle 1.
      { apply printable_range. split; [apply Z.div_le_lower_bound; lia|].
        eapply Z.le_lt_trans; [apply Z.div_le_mono; [lia|]|exact Hmax]. lia. }
      { apply printable_range. split; [apply Z.div_le_lower_bound; lia|done]. }
      assert (e / Second * Second = e) as -> by (pose proof (Z_div_mod_eq_full e Second); lia).
      pose proof (Z.mul_div_le n Second ltac:(done)). unfold refreshable. simpl.
      split_and!; [done|lia|intros _; lia| |done]. right; left.
      exists sa.1, (token_request r sa), token. split; [exact Hin|cbn [expiresAt]; lia].
    + destruct (tk_valid tk) eqn:Hv; cbn [negb orb] in Href; [|by destruct Href as [_ [=]]].
      destruct (Z.ltb_spec now (expiresAt tk)) as [Hlt|]; cbn [negb] in Href; [|by destruct Href as [_ [=]]].
      destruct Href as (d & t2 & -> & -> & [= -> ->]). specialize (Hin _ _ (list_elem_of_here _ _)).
      pose proof (Z.mod_pos_bound d pgBackRestTokenRetryDelay ltac:(done)).
      split_and!; [done|done|done| |done]. right; right. exists sa.1, (token_request r sa), err. split; [exact Hin|].
      assert (0 < pgBackRestTokenRetryDelay) by done. lia.
Qed.
End Tokens.
