(* ===== verification/NewBranches.v ===== *)
(** * From a create request to a reconciled cluster

    The clusters service builds a Branch ([BranchBuilder]); the branch operator
    turns it into a cluster and its Secrets ([BranchOperator]).  This file puts
    the two together, and runs the reconciler on branches the builder made. *)

From stdpp Require Import pretty.
From S2P Require Import Prelude GoStrings GoFloat GoTime Kube BranchVolumes PostgresVersions Extensions BranchTypes PgBackRestNames BranchBuilder ClusterResources BranchOperatorModel BranchOperator BranchServing.

#[local] Open Scope Z_scope.

Section Composition.
Context `{Quantities}.
Variable imageExtensions : option ImageExtensions.

(** A cipher reference the operator fills: a key of the branch's own Secret. *)
Definition named_cipher (nm : string) (ref : option SecretKeySelector) : Prop :=
  match ref with Some ref => sel_Name ref = CipherSecretName nm ∧ sel_Key ref ≠ "" | None => True end.

Definition ciphers_named (nm : string) (b : Branch) : Prop :=
  (∀ p, pgbackrest_of (Backup (br_Spec b)) = Some p → named_cipher nm (CipherPassphraseSecretRef p)) ∧
  (∀ rs, Restore (br_Spec b) = Some rs → named_cipher nm (rs_CipherPassphraseSecretRef rs)).

(** The methods that touch neither the backups nor the restore source. *)
Lemma named_same nm b b' :
  Backup (br_Spec b') = Backup (br_Spec b) → Restore (br_Spec b') = Restore (br_Spec b) →
  ciphers_named nm b → ciphers_named nm b'.
Proof. unfold ciphers_named. by intros -> ->. Qed.

Lemma named_request req b : FromCreateClusterRequest req = Ok b → ciphers_named (cr_Id req) b.
Proof.
  unfold FromCreateClusterRequest. destruct (resourceRequirements _ _ _); [|done].
  cbn [res_bind]. intros [= <-]. split; simpl.
  - intros p. unfold backupSpec. destruct (cr_BackupConfiguration req) as [m|]; [|done].
    destruct (negb (BackupsEnabled m)); [done|]. simpl. case_bool_decide; [|done]. by intros [= <-].
  - intros rs. unfold restoreSpec. destruct (cr_DataSource req) as [[]|]; try done; by intros [= <-].
Qed.

Lemma named_parent nm parent b : ciphers_named nm b → ciphers_named nm (WithOverridesFromParent parent b).
Proof.
  intros [Hb Hr]. destruct parent as [p|]; [|done]. unfold WithOverridesFromParent, adopt_wakeup_pool.
  split.
  - intros q. destruct (HasWakeupPoolAnnotation p && _), (Backup (br_Spec p)); simpl; try done; apply Hb.
  - intros rs. destruct (HasWakeupPoolAnnotation p && _), (Backup (br_Spec p)); simpl; try apply Hr.
    all: destruct (Restore (br_Spec b)) as [rs0|]; simpl; [|done]; intros [= <-]; simpl; by apply Hr.
Qed.

Lemma named_pgbackrest nm k b : ciphers_named nm b → ciphers_named nm (WithPgBackRest k b).
Proof.
  intros [Hb Hr]. unfold WithPgBackRest. destruct (IsPgBackRest _); [|done]. split; simpl; [|apply Hr].
  intros p. rewrite pgbackrest_of_set. destruct (pgbackrest_of _) as [p0|] eqn:Hp; simpl; [|done].
  intros [= <-]. specialize (Hb p0 eq_refl). unfold pgbackrest_backend. by destruct (bk_provider k); [case_bool_decide|..].
Qed.

Lemma named_cipher_step enc b : ciphers_named (br_Name b) b → ciphers_named (br_Name b) (WithPgBackRestCipher enc b).
Proof.
  intros [Hb Hr]. unfold WithPgBackRestCipher. destruct (enc && _); [|done]. split; simpl; [|apply Hr].
  intros p. rewrite pgbackrest_of_set. destruct (pgbackrest_of _) as [p0|]; simpl; [|done]. by intros [= <-].
Qed.

Lemma named_restore_step source b :
  ciphers_named (br_Name b) b → ciphers_named (br_Name b) (WithPgBackRestRestoreCipher source b).
Proof.
  intros [Hb Hr]. unfold WithPgBackRestRestoreCipher. destruct source as [src|]; [|done].
  destruct (_ && _ && _); [|done]. split; simpl; [apply Hb|].
  intros rs. destruct (Restore (br_Spec b)) as [rs0|]; simpl; [|done]. by intros [= <-].
Qed.

(** Every branch the clusters service creates refers to ciphers in its own
    Secret, which is the one the operator keeps. *)
Lemma new_branch_owns_its_ciphers cfg sc vsc req parent source b bo :
  build_new imageExtensions cfg sc vsc req parent source = Ok b → bo_Branch bo = b → own_ciphers bo.
Proof.
  rewrite build_new_complete. destruct (FromCreateClusterRequest req) as [b0|e] eqn:Hreq; [|done].
  cbn [res_map]. intros [= Hb] Hbo.
  assert (br_Name b0 = cr_Id req) as Hname.
  { unfold FromCreateClusterRequest in Hreq. destruct (resourceRequirements _ _ _); [|done].
    cbn [res_bind] in Hreq. by injection Hreq as <-. }
  pose proof (named_parent _ parent _ (named_request _ _ Hreq)) as Hn.
  destruct (WithOverridesFromParent_backup parent b0) as [Hpn _]. rewrite <-Hname, <-Hpn in Hn.
  revert Hb Hn. generalize (WithOverridesFromParent parent b0). intros b1 Hb Hn.
  set (b2 := WithPooler (EnablePooler cfg) (WithDefaultNodeSelector (ClustersNodeSelector cfg)
    (WithDefaultVolumeSnapshotClass vsc (WithStorageQoSClass (UseStorageQoSClasses cfg)
      (default ""%string (cc_StorageQosClass (cr_Configuration req))) (WithDefaultStorageClass sc
      (WithDefaultStorageSize (ClustersStorageRequest cfg) b1)))))).
  assert (br_Name b2 = br_Name b1 ∧ ciphers_named (br_Name b1) b2) as [Hn2 Hc2].
  { unfold b2, WithPooler, WithDefaultNodeSelector. repeat case_match; (split; [done|]);
      (eapply named_same; [| |exact Hn]; done). }
  rewrite <-Hn2 in Hc2. set (b3 := WithPgBackRest (Backrest cfg) b2).
  assert (br_Name b3 = br_Name b2) as Hn3 by (unfold b3, WithPgBackRest; by case_match).
  pose proof (named_pgbackrest _ (Backrest cfg) _ Hc2) as Hc3. fold b3 in Hc3. rewrite <-Hn3 in Hc3.
  set (b4 := WithPgBackRestCipher (PgBackRestEncryptionEnabled cfg) b3).
  assert (br_Name b4 = br_Name b3) as Hn4 by (unfold b4, WithPgBackRestCipher; by case_match).
  pose proof (named_cipher_step (PgBackRestEncryptionEnabled cfg) _ Hc3) as Hc4. fold b4 in Hc4.
  rewrite <-Hn4 in Hc4. pose proof (named_restore_step source _ Hc4) as Hc5.
  assert (br_Name (WithPgBackRestRestoreCipher source b4) = br_Name b4) as Hn5.
  { unfold WithPgBackRestRestoreCipher. destruct source; by repeat case_match. }
  unfold own_ciphers, own_cipher, spec, name. rewrite Hbo, <-Hb.
  change (complete_new imageExtensions cfg sc vsc
    (default ""%string (cc_StorageQosClass (cr_Configuration req))) source b1)
    with (WithMandatoryPostgresParameters imageExtensions (WithXataUtilsPreloadLibrary
      (WithPgBackRestRestoreCipher source b4))).
  unfold WithMandatoryPostgresParameters, WithXataUtilsPreloadLibrary. simpl. rewrite Hn5. exact Hc5.
Qed.
End Composition.

Module Witness.
Import BranchBuilder.Witness SimpleConditions.

#[local] Instance zone : LocalZone := { zone_offset := λ _, 0 }.
#[local] Existing Instance BranchVolumes.Witness.controller.
#[local] Existing Instance BranchVolumes.Witness.controller_laws.
#[local] Instance runtime : GoRuntime := {
  float_out_of_range := λ _, min_int64;
  unicode_ToLower := λ s, s
}.
#[local] Instance libraries : Libraries := {
  SetControllerReference := λ n u _, Ok [mkOwner "xata.io/v1alpha1" "Branch" n u];
  SetClusterOwner := λ c _, Ok [mkOwner "postgresql.cnpg.io/v1" "Cluster" (clr_Name c) (clr_UID c)];
  ParseIssuer := λ t, if bool_decide (t = "") then Err "malformed" else Ok "https://issuer";
  MarshalCredentials := λ _, Ok "credentials";
  PgBackRestSuspended := "cnpg.io/pgbackrestSuspended"
}.

Definition operator : ReconcilerConfig :=
  mkReconciler "xata-clusters" "bucket" "" "arn:aws:iam::1:role/backups" "" (mkCredentials "creds" "id" "key")
    "aws" "region" "region" [] false [].

(** A branch restored from the encrypted continuous backup of [src]. *)
Definition encrypting : BuilderConfig :=
  mkBuilderConfig 250 ∅ false true true (Backrest builder).

Definition source_request : CreateRequest :=
  mkCreate "src" (cr_Configuration request) "" "org" "prj" (cr_BackupConfiguration request) None false false "".
Definition source : Branch :=
  ok_or empty_branch (build_new None encrypting "gp3" "ebs-snapshots" source_request None None).

Definition restore_request : CreateRequest :=
  mkCreate "br2" (cr_Configuration request) "" "org" "prj" (cr_BackupConfiguration request)
    (Some (ContinuousBackup "src" None)) false false "".
Definition restored_branch : res panic Branch :=
  build_new None encrypting "gp3" "ebs-snapshots" restore_request None (Some source).
Definition restored : Branch := ok_or empty_branch restored_branch.

Lemma restored_ok : restored_branch = Ok restored.
Proof. apply ok_or_ok. vm_compute. reflexivity. Qed.

Definition object (b : Branch) : BranchObject := mkBranchObject _ b "uid" 3 false 2 [] "".

Definition now : Z := 1709210096 * Second.

(** The source's cipher Secret exists, nothing else does; every write works. *)
Definition api (bo : BranchObject) : env resp unit := λ w c,
  (w, match c return resp c with
      | Now => now
      | Rand _ => 7
      | GetBranchObject n => Ok (if bool_decide (n = "src") then object source else bo)
      | GetSecret n =>
          if bool_decide (n = "src-pgbackrest")
          then Ok (mkSecret (mkMeta ∅ ∅ []) "Opaque" {[ CipherPassphraseKey := "old" ]} true)
          else Err (mkApiError NotFound "none")
      | GetClusterRef n => Ok (mkClusterRef n "cuid")
      | LoadSecret _ => Ok empty_secret
      | LoadObject _ _ => Ok (mkMeta ∅ ∅ [])
      | SaveObject _ _ _ _ => Ok "ouid"
      | RequestToken _ _ => Ok ("token", now + 24 * Hour)
      | GeneratePassword | GeneratePassphrase => Ok "generated"
      | Volumes c => (BranchVolumes.Witness.api ["c1-1"; "c1-2"] tt c).2
      | SaveSecret _ _ | DeleteObject _ _ | ApplyCluster _ | ApplyPooler _
      | ApplyScheduledBackup _ | ApplyStatus _ _ => None
      end).

Definition run (bo : BranchObject) := exec resp (api bo) tt (Reconcile operator "br2").
Definition trace (bo : BranchObject) := (run bo).1.1.
Definition bo : BranchObject := object restored.

Lemma reconcile_runs b : runs resp (Reconcile operator "br2") (trace b) (run b).2.
Proof. exact (exec_runs _ tt _). Qed.

(** A pass begins by reading its branch. *)
Definition begins (b : BranchObject) : Prop :=
  trace b = ev (GetBranchObject "br2") (Ok b) :: List.tl (trace b).

Lemma begins_runs b : begins b →
  runs resp (Reconcile operator "br2") (ev (GetBranchObject "br2") (Ok b) :: List.tl (trace b)) (run b).2.
Proof. unfold begins. intros <-. apply reconcile_runs. Qed.

Lemma exec_perform {W A} (h : env resp W) (w : W) (c : call) (k : resp c → prog resp A) :
  (exec resp h w (x ← perform c; k x)).1.1 =
    ev c (h w c).2 :: List.tl (exec resp h w (x ← perform c; k x)).1.1.
Proof.
  change (x ← perform c; k x) with (Call c k). simpl. destruct (h w c) as [w' x]. simpl.
  by destruct (exec resp h w' (k x)) as [[??]?].
Qed.

Lemma object_begins b : begins b.
Proof. unfold begins, trace, run, Reconcile. exact (exec_perform (api b) tt (GetBranchObject "br2") _). Qed.

(** The same branch while it is deleted. *)
Definition deleted : BranchObject := mkBranchObject _ restored "uid" 3 true 2 [] "".
Lemma unreconciled_branch_is_left_alone_witness : List.tl (trace deleted) = [] ∧ (run deleted).2 = Ok 0.
Proof.
  exact (proj1 (unreconciled_branch_is_left_alone operator "br2" deleted _ _ (begins_runs _ (object_begins _))) eq_refl).
Defined.

Lemma status_reports_outcome_witness :
  ∃ before st w, List.tl (trace bo) = before ++ [ev (ApplyStatus "br2" st) w] ∧
    (∀ n st' w', ev (ApplyStatus n st') w' ∉ before) ∧
    st_ObservedGeneration st = 3 ∧ shows st (run bo).2.
Proof.
  exact (status_reports_outcome operator "br2" bo _ _ (begins_runs _ (object_begins _)) eq_refl
    ltac:(vm_compute; reflexivity)).
Defined.

Lemma credentials_are_never_replaced_witness :
  careful (HasBackupData restored) (List.tl (trace bo)).
Proof. exact (credentials_are_never_replaced operator "br2" bo _ _ (begins_runs _ (object_begins _))). Defined.

(** The cluster is applied by the fourteenth call. *)
Definition applied_of (e : option (event resp)) : option (Applied ClusterSpecAC) :=
  match e with Some (ev (ApplyCluster c) None) => Some c | _ => None end.

Definition is_applied (e : option (event resp)) : bool :=
  match e with Some (ev (ApplyCluster _) None) => true | _ => false end.

Lemma applied_call e d : is_applied e = true → e = Some (ev (ApplyCluster (default d (applied_of e))) None).
Proof. destruct e as [[[] x]|]; try done. simpl. by destruct x. Qed.

Definition applied : Applied ClusterSpecAC :=
  default (mkApplied "" ∅ ∅ (mkAppliedOwner "" "" "" false false)
    (cluster_spec "" "" (cluster_config operator bo))) (applied_of (trace bo !! 13%nat)).

Lemma applied_at : trace bo !! 13%nat = Some (ev (ApplyCluster applied) None).
Proof. apply applied_call. vm_compute. reflexivity. Qed.

Lemma split_tail {A} (l : list A) x e k :
  l = x :: List.tl l → l !! S k = Some e → l = x :: take k (List.tl l) ++ e :: drop (S k) (List.tl l).
Proof. intros -> He. simpl. by rewrite (take_drop_middle _ k e He). Qed.

Lemma trace_parts :
  trace bo = ev (GetBranchObject "br2") (Ok bo) ::
    take 12 (List.tl (trace bo)) ++ ev (ApplyCluster applied) None :: drop 13 (List.tl (trace bo)).
Proof. exact (split_tail _ _ _ 12 (object_begins bo) applied_at). Qed.

Lemma cluster_follows_its_secrets_witness :
  ap_Name applied = ClusterName restored ∧
  ∃ s, ev (SaveSecret "br2-pgbackrest" s) None ∈ take 12 (List.tl (trace bo)) ∧ sec_Data s ≠ ∅.
Proof.
  eapply (cluster_follows_its_secrets operator "br2" bo _ applied None _ (run bo).2).
  - rewrite <-trace_parts. apply reconcile_runs.
  - exact (new_branch_owns_its_ciphers _ _ _ _ _ _ _ _ bo restored_ok eq_refl).
  - apply (bool_decide_unpack ("br2-pgbackrest" ∈ secret_refs (ap_Spec applied))). vm_compute. exact I.
Defined.

(** A branch of a pool that the clusters service has hibernated: it gave up its
    cluster [c1]. *)
Definition dormant : Branch :=
  update_hibernation (Some true) (WithClusterFromPool "c1" "pool" restored).
Definition asleep : BranchObject := object dormant.

Definition is_deletion (e : option (event resp)) : bool :=
  match e with
  | Some (ev (Volumes (DeleteCluster n)) None) => bool_decide (n = "c1")
  | _ => false
  end.

Lemma deletion_call e : is_deletion e = true → e = Some (ev (Volumes (DeleteCluster "c1")) None).
Proof.
  destruct e as [[c x]|]; [|done]. destruct c; try done. destruct c; try done. simpl.
  destruct x; [done|]. case_bool_decide; [|done]. by subst.
Qed.

Lemma deleted_at : trace asleep !! 23%nat = Some (ev (Volumes (DeleteCluster "c1")) None).
Proof. apply deletion_call. vm_compute. reflexivity. Qed.

Lemma volume_survives_cluster_witness :
  ∃ clusters, ev (ListOwnedClusters "br2") (Ok clusters) ∈ volume_events (take 22 (List.tl (trace asleep))) ∧
    ∀ cl primary, cl ∈ clusters → cl_deleting cl = false → getClusterPVC cl = Ok primary →
      primary ∈ HealthyPVC cl →
      protected (volumes_view asleep) (volume_events (take 22 (List.tl (trace asleep)))) primary.
Proof.
  eapply (volume_survives_cluster operator "br2" asleep _ "c1" None _ (run asleep).2);
    [|vm_compute; reflexivity..].
  rewrite <-(split_tail _ _ _ 22 (object_begins asleep) deleted_at). apply reconcile_runs.
Defined.

Lemma objects_follow_the_branch_witness : follows operator "br2" (br_Spec restored) (ApplyCluster applied) = true.
Proof.
  assert (PgBackRestSuspended ≠ HibernationAnnotation) as Hsus by done.
  refine (objects_follow_the_branch operator "br2" bo _ _ (ApplyCluster applied) None Hsus
    (begins_runs _ (object_begins _)) _).
  rewrite (f_equal List.tl trace_parts). apply elem_of_app. right. left.
Defined.

(** The pooler of a branch that raises the connection limit. *)
Definition busy : Branch :=
  set_cluster (set_postgres (Some (mkPostgres [("max_connections", "250")] []))) restored.
Lemma pool_fits_connection_limit_witness :
  ParseInt10 (defaultPoolSize (mkPooler 1 PoolModeTransaction "" "") busy) = Some 225 ∧ 0 ≤ 225 < 250.
Proof.
  exact (pool_fits_connection_limit (mkPooler 1 PoolModeTransaction "" "") busy 250 eq_refl
    ltac:(vm_compute; reflexivity) ltac:(vm_compute; split; [reflexivity|discriminate])).
Defined.

(** A pass of the token step alone. *)
Definition cluster2 : ClusterRef := mkClusterRef "br2" "cuid".
Definition account : string * string := ("br2-pgbackrest", "ouid").
Definition token_pass := exec resp (api bo) tt (reconcilePgBackRestToken operator bo cluster2 account).

Lemma token_runs :
  runs resp (reconcilePgBackRestToken operator bo cluster2 account) token_pass.1.1 (Ok 69119999999993).
Proof.
  assert (token_pass.2 = Ok 69119999999993) as <- by (vm_compute; reflexivity).
  exact (exec_runs _ tt _).
Qed.

#[local] Instance OwnerReference_eq_dec : EqDecision OwnerReference.
Proof. solve_decision. Defined.
#[local] Instance Meta_eq_dec : EqDecision Meta.
Proof. solve_decision. Defined.
#[local] Instance Secret_eq_dec : EqDecision Secret.
Proof. solve_decision. Defined.

(** What the API server and the clock answer during the pass. *)
Definition token_event (e : event resp) : bool :=
  match e with
  | ev Now t => t =? now
  | ev (RequestToken _ _) (Ok (token, e)) => bool_decide (token = "token") && (e =? now + 24 * Hour)
  | ev (RequestToken _ _) (Err _) => true
  | ev (GetSecret _) (Ok _) => false
  | ev (LoadSecret _) (Ok s) => bool_decide (s = empty_secret)
  | _ => true
  end.

Lemma token_events e : e ∈ token_pass.1.1 → token_event e = true.
Proof.
  intros He. assert (forallb token_event token_pass.1.1 = true) as Hall by (vm_compute; reflexivity).
  exact (proj1 (forallb_forall _ _) Hall e (proj1 (list_elem_of_In _ _) He)).
Qed.

Lemma token_is_replaced_in_time_witness :
  ∃ s now' later next, ev (SaveSecret (token_secret cluster2) s) None ∈ token_pass.1.1 ∧
    ev Now now' ∈ token_pass.1.1 ∧ last token_pass.1.1 = Some (ev Now later) ∧
    let tk := currentPgBackRestToken s (request_key operator account) in
    tk_valid tk = true ∧ now' < expiresAt tk ∧ refreshable tk ∧
    due token_pass.1.1 now' tk next ∧ 69119999999993 = Z.max (TimeSub next later) Second.
Proof.
  apply (token_is_replaced_in_time operator bo cluster2 account _ _ token_runs).
  - intros sa tq token e n Ht Hn. apply token_events in Ht, Hn. simpl in Ht, Hn.
    apply andb_true_iff in Ht as [Ht He]. apply bool_decide_eq_true in Ht as ->.
    apply Z.eqb_eq in He as ->, Hn as ->. split; [done|]. repeat split; vm_compute; done.
  - intros x s Hg Hl. apply token_events in Hg, Hl. simpl in Hg, Hl.
    apply bool_decide_eq_true in Hl as ->. by destruct x.
  - intros s Hg. apply token_events in Hg. by simpl in Hg.
Defined.

(** *** A restore looks for its backups in the wrong repository

    The builder gives every branch a repository of its own, and the operator
    restores a branch from that path instead of the path of the source: the
    restored branch's repository is still empty. *)
Definition restored_from : list string :=
  omap (λ x, match x with ExternalPgBackRest _ _ path => Some path | _ => None end)
    (ExternalClusters (cluster_config operator bo)).
Definition repository (b : Branch) : option string := RepoPath <$> pgbackrest_of (Backup (br_Spec b)).

Theorem restore_reads_own_repository :
  Restore (br_Spec restored) ≫= (λ rs, Some (rs_Name rs)) = Some "src" ∧
  restored_from = [PgBackRestRepoPath "xata-clusters" "br2"] ∧
  repository restored = Some (PgBackRestRepoPath "xata-clusters" "br2") ∧
  repository source = Some (PgBackRestRepoPath "xata-clusters" "src").
Proof. repeat split; vm_compute; reflexivity. Qed.
End Witness.
