(* ===== verification/ClustersModel.v ===== *)
(** * The clusters service: [services/clusters]

    [clusters.go], [pool.go], [wur.go], [secrets.go], [describe.go] and
    [errors.go] as effect trees over the Kubernetes API, the clock and the
    password generator; every response is arbitrary.  Logging is left out.  A
    panic of the branch builder is the error [Panicked]. *)

From stdpp Require Import pretty.
From S2P Require Import Prelude GoStrings GoFloat Kube PostgresVersions Extensions BranchTypes.
From S2P Require Import BranchBuilder.

#[local] Open Scope Z_scope.
#[local] Open Scope go_scope.

(** ** Objects *)

(** The parts of a CNPG [Cluster] the pool search reads. *)
Record PoolCluster := mkPoolCluster {
  pc_Name : string;
  pc_ResourceVersion : string;
  pc_deleting : bool;
  pc_Size : string;
  pc_ReadyInstances : Z
}.

(** The cluster template of a [ClusterPool]. *)
Record ClusterPool `{Quantities} := mkPool {
  pl_Name : string;
  pl_StorageClass : option string;
  pl_ImageName : string;
  pl_Cpu : option Quantity;
  pl_Memory : option Quantity;
  pl_Size : string
}.

Record Secret := mkSecret {
  se_Name : string;
  se_Labels : gmap string string;
  se_Data : gmap string string
}.

Inductive PasswordSyncMode := PasswordSyncModeSkip | PasswordSyncModeWait.

Inductive ConditionStatus := ConditionTrue | ConditionFalse | ConditionUnknown.

(** A [WakeupRequest]; [wu_Succeeded] is the status of its Succeeded
    condition, [None] when it has none. *)
Record WakeupRequest := mkWakeup {
  wu_Name : string;
  wu_BranchName : string;
  wu_XVolName : string;
  wu_PasswordSync : PasswordSyncMode;
  wu_Owner : string;
  wu_Succeeded : option ConditionStatus
}.

(** One entry of an ObjectStore's [ServerRecoveryWindow]: the times that are
    set, in RFC 3339. *)
Record RecoveryWindow := mkWindow {
  w_FirstRecoverabilityPoint : option string;
  w_LastSuccessfulBackupTime : option string
}.

(** ** Errors *)

(** [google.golang.org/grpc/codes], the ones used. *)
Inductive code :=
| NotFoundCode | AlreadyExistsCode | InvalidArgument | PermissionDenied | Aborted
| UnknownCode | FailedPrecondition.

Inductive error :=
| Status (c : code) (msg : string)
| ApiError (e : api_error)
| ContextError (e : ctx_error)
| Errorf (msg : string)
| Wrapf (msg : string) (e : error)
| BackupsNotEnabled
| Panicked (p : panic).

(** The reason an error unwraps to. *)
Fixpoint reason_of (e : error) : option StatusReason :=
  match e with
  | ApiError e => Some (api_reason e)
  | Wrapf _ e => reason_of e
  | _ => None
  end.

Definition IsNotFound (e : error) : bool :=
  match reason_of e with Some NotFound => true | _ => false end.
Definition IsAlreadyExists (e : error) : bool :=
  match reason_of e with Some AlreadyExists => true | _ => false end.
Definition IsConflict (e : error) : bool :=
  match reason_of e with Some Conflict => true | _ => false end.

(** [err.Error()]; only codes matter below. *)
Fixpoint error_text (e : error) : string :=
  match e with
  | Status _ msg | Errorf msg => msg
  | ApiError e => api_message e
  | ContextError Canceled => "context canceled"
  | ContextError DeadlineExceeded => "context deadline exceeded"
  | Wrapf msg e => msg +:+ ": " +:+ error_text e
  | BackupsNotEnabled => "backups are not enabled on the branch"
  | Panicked _ => "panic"
  end.

Definition k8sErrorToGRPCError (e : error) : error :=
  match reason_of e with
  | Some NotFound => Status NotFoundCode ("resource not found: " +:+ error_text e)
  | Some AlreadyExists => Status AlreadyExistsCode ("resource already exists: " +:+ error_text e)
  | Some Invalid => Status InvalidArgument ("invalid resource: " +:+ error_text e)
  | Some Forbidden => Status PermissionDenied ("forbidden: " +:+ error_text e)
  | Some Conflict => Status Aborted ("conflict: " +:+ error_text e)
  | _ => Status UnknownCode ("kubernetes error: " +:+ error_text e)
  end.

(** ** The environment *)

Section Service.
Context `{Quantities}.

Inductive call :=
| GetBranch (id : string)
| CreateBranch (b : Branch)
| UpdateBranch (b : Branch)
| DeleteBranch (name : string)
| ListPools
| ListPoolClusters (pool : string)
| OrphanCluster (c : PoolCluster)
| Now
| PollWait
| WaitForClusterCache
| GetSecret (name : string)
| CreateSecret (s : Secret)
| UpdateSecret (s : Secret)
| DeleteSecret (name : string)
| GeneratePassword
| GetObjectStore (id : string)
| GetWakeupRequest (name : string)
| CreateWakeupRequest (w : WakeupRequest)
| DeleteWakeupRequest (name : string)
| Backoff.

Definition resp (c : call) : Type :=
  match c with
  | GetBranch _ => res api_error Branch
  | ListPools => res api_error (list ClusterPool)
  | ListPoolClusters _ => res api_error (list PoolCluster)
  | Now => Z
  | PollWait | WaitForClusterCache => option ctx_error
  | GetSecret _ => res api_error Secret
  | GeneratePassword => res string string
  | GetObjectStore _ => res api_error (gmap string RecoveryWindow)
  | GetWakeupRequest _ => res api_error WakeupRequest
  | Backoff => unit
  | _ => option api_error
  end.

#[local] Abbreviation prog := (prog resp) (only parsing).

(** A call that returns [(value, error)]. *)
Definition lift {A} (r : res api_error A) : res error A :=
  match r with Ok a => Ok a | Err e => Err (ApiError e) end.

Definition api {A} (p : prog (res api_error A)) : prog (res error A) := r ← p; mret (lift r).

(** A call that returns only an error. *)
Definition api_unit (p : prog (option api_error)) : prog (res error unit) :=
  r ← p; mret (match r with Some e => Err (ApiError e) | None => Ok tt end).

Definition map_err {A} (f : error → error) (p : prog (res error A)) : prog (res error A) :=
  r ← p; mret (match r with Ok a => Ok a | Err e => Err (f e) end).

Definition panics {A} (r : res panic A) : prog (res error A) :=
  mret (match r with Ok a => Ok a | Err p => Err (Panicked p) end).

Definition getBranch (id : string) : prog (res error Branch) := api (perform (GetBranch id)).

(** ** Taking a cluster from a pool ([pool.go]) *)

Definition poolClusterWaitTimeout : Z := 15 * Second.
Definition poolClusterPollInterval : Z := 1 * Second.

Definition storageLargerThan (size : string) (requested : Quantity) : res string bool :=
  if bool_decide (size = ""%string) then Ok false
  else match ParseQuantity size with
       | None => Err size
       | Some quantity => Ok (match QuantityCmp quantity requested with Gt => true | _ => false end)
       end.

Definition slotPoolName (poolName : string) : string :=
  default poolName (CutSuffix poolName "-slot") +:+ "-slot".

(** The patch clears the owner references under the resource version that was
    read. *)
Definition orphanCluster (cluster : PoolCluster) : prog (res error unit) :=
  map_err (Wrapf ("patch cluster " +:+ pc_Name cluster)) (api_unit (perform (OrphanCluster cluster))).

Fixpoint first_healthy (requestedStorage : Quantity) (cs : list PoolCluster)
    : prog (res error (option PoolCluster)) :=
  match cs with
  | [] => mret (Ok None)
  | cluster :: cs =>
      if pc_deleting cluster then first_healthy requestedStorage cs
      else match storageLargerThan (pc_Size cluster) requestedStorage with
           | Err s => mret (Err (Wrapf ("parse storage size of cluster " +:+ pc_Name cluster) (Errorf s)))
           | Ok true => first_healthy requestedStorage cs
           | Ok false =>
               if 0 <? pc_ReadyInstances cluster then
                 r ← orphanCluster cluster;
                 match r with
                 | Ok _ => mret (Ok (Some cluster))
                 | Err e =>
                     if IsConflict e then first_healthy requestedStorage cs
                     else mret (Err (Wrapf ("orphan cluster " +:+ pc_Name cluster) e))
                 end
               else first_healthy requestedStorage cs
           end
  end.

Definition findHealthyClusterInPool (pool : ClusterPool) (requestedStorage : Quantity)
    : prog (res error (option PoolCluster)) :=
  clusters <-? map_err (Wrapf "list clusters") (api (perform (ListPoolClusters (pl_Name pool))));
  first_healthy requestedStorage clusters.

(** The poll loop; [None] when [fuel] iterations were not enough. *)
Fixpoint poll_pool (fuel : nat) (deadline : Z) (pool : ClusterPool) (requestedStorage : Quantity)
    : prog (option (res error (option PoolCluster))) :=
  match fuel with
  | O => mret None
  | S fuel =>
      r ← findHealthyClusterInPool pool requestedStorage;
      match r with
      | Err e => mret (Some (Err e))
      | Ok (Some cluster) => mret (Some (Ok (Some cluster)))
      | Ok None =>
          now ← perform Now;
          if deadline <? now then mret (Some (Ok None))
          else
            w ← perform PollWait;
            match w with
            | Some e => mret (Some (Err (ContextError e)))
            | None => poll_pool fuel deadline pool requestedStorage
            end
      end
  end.

Definition findAvailableClusterInPool (fuel : nat) (pool : ClusterPool)
    (requestedStorage : Quantity) : prog (option (res error (option PoolCluster))) :=
  now ← perform Now;
  poll_pool fuel (now + poolClusterWaitTimeout) pool requestedStorage.

(** The pool's template is what the request asks for. *)
Definition pool_matches (storageClass image : string) (requestedCPU requestedMemory : Quantity)
    (pool : ClusterPool) : bool :=
  let eq := λ p q, match QuantityCmp (default QuantityZero p) q with Eq => true | _ => false end in
  bool_decide (default ""%string (pl_StorageClass pool) = storageClass)
  && bool_decide (ShortImageName (pl_ImageName pool) = ShortImageName image)
  && eq (pl_Cpu pool) requestedCPU && eq (pl_Memory pool) requestedMemory.

Fixpoint search_pools (fuel : nat) (storageClass image : string)
    (requestedCPU requestedMemory requestedStorage : Quantity) (pools : list ClusterPool)
    : prog (option (res error (option (string * PoolCluster)))) :=
  match pools with
  | [] => mret (Some (Ok None))
  | pool :: pools =>
      let next := search_pools fuel storageClass image requestedCPU requestedMemory
                    requestedStorage pools in
      if negb (pool_matches storageClass image requestedCPU requestedMemory pool) then next
      else match storageLargerThan (pl_Size pool) requestedStorage with
           | Err s => mret (Some (Err (Wrapf ("parse storage size of pool " +:+ pl_Name pool) (Errorf s))))
           | Ok true => next
           | Ok false =>
               r ← findAvailableClusterInPool fuel pool requestedStorage;
               match r with
               | None => mret None
               | Some (Err e) =>
                   mret (Some (Err (Wrapf ("find available cluster in pool " +:+ pl_Name pool) e)))
               | Some (Ok (Some cluster)) => mret (Some (Ok (Some (pl_Name pool, cluster))))
               | Some (Ok None) => next
               end
           end
  end.

Definition findPoolCluster (fuel : nat) (storageClass image cpuRequest memory storageSize : string)
    : prog (option (res error (option (string * PoolCluster)))) :=
  pools ← api (perform ListPools);
  match pools with
  | Err e => mret (Some (Err (Wrapf "list cluster pools" e)))
  | Ok pools =>
      match MustParse cpuRequest, MustParse memory, MustParse storageSize with
      | Ok requestedCPU, Ok requestedMemory, Ok requestedStorage =>
          search_pools fuel storageClass image requestedCPU requestedMemory requestedStorage pools
      | Err p, _, _ | _, Err p, _ | _, _, Err p => mret (Some (Err (Panicked p)))
      end
  end.

(** ** Wakeup requests ([wur.go]) *)

Definition ensureWakeupRequest (branch : Branch) (xvolName : string) (mode : PasswordSyncMode)
    : prog (res error unit) :=
  let create :=
    r ← perform (CreateWakeupRequest
          (mkWakeup (br_Name branch) (br_Name branch) xvolName mode (br_Name branch) None));
    mret (match r with
          | Some e => if api_already_exists e then Ok tt
                      else Err (Wrapf "create wakeup request" (ApiError e))
          | None => Ok tt
          end) in
  existing ← perform (GetWakeupRequest (br_Name branch));
  match existing with
  | Err e =>
      if api_not_found e then create
      else mret (Err (Wrapf "get wakeup request" (ApiError e)))
  | Ok wur =>
      match wu_Succeeded wur with
      | None | Some ConditionUnknown => mret (Ok tt)
      | Some _ =>
          d ← perform (DeleteWakeupRequest (wu_Name wur));
          match d with
          | Some e => if api_not_found e then create
                      else mret (Err (Wrapf "delete wakeup request" (ApiError e)))
          | None => create
          end
      end
  end.

Definition createWakeupRequestFromUpdateClusterRequest (branch : Branch)
    (u : UpdateConfiguration) : prog (res error unit) :=
  match u_Hibernate u with
  | None => mret (Ok tt)
  | Some true => mret (Ok tt)
  | Some false =>
      if negb (HasWakeupPoolAnnotation branch) then mret (Ok tt)
      else ensureWakeupRequest branch (PrimaryXVolName (br_Status branch)) PasswordSyncModeSkip
  end.

Definition createWakeupRequestForNewBranch (branch : Branch) (parent : option Branch)
    : prog (res error unit) :=
  if negb (IsXVolCloneType (Restore (br_Spec branch))) then mret (Ok tt)
  else match parent with
       | None => mret (Ok tt)
       | Some parent =>
           ensureWakeupRequest branch (XVolCloneName (br_Name parent) (br_Name branch))
             PasswordSyncModeWait
       end.

(** ** Application passwords ([secrets.go]) *)

Definition BasicAuthUsernameKey : string := "username".
Definition BasicAuthPasswordKey : string := "password".
Definition ApplicationUserSecretSuffix : string := "-app".

Definition app_secret (name : string) (req : CreateRequest) (password : string) : Secret :=
  mkSecret name
    (list_to_map [("cnpg.io/reload"%string, "true"%string); (LabelOrgID, cr_OrganizationId req);
                  (LabelProjectID, cr_ProjectId req); (LabelBranchID, cr_Id req)])
    (list_to_map [(BasicAuthUsernameKey, "xata"%string); (BasicAuthPasswordKey, password)]).

(** [Some name] when this call created the secret. *)
Definition createAppSecret (name : string) (req : CreateRequest) (password : string)
    : prog (res error (option string)) :=
  r ← perform (CreateSecret (app_secret name req password));
  mret (match r with
        | Some e => if api_already_exists e then Ok None else Err (k8sErrorToGRPCError (ApiError e))
        | None => Ok (Some name)
        end).

Definition poolClusterAppPassword (cluster : PoolCluster) : prog (res error string) :=
  let secretName := pc_Name cluster +:+ ApplicationUserSecretSuffix in
  r ← perform (GetSecret secretName);
  mret (match r with
        | Err e =>
            if api_not_found e
            then Err (Status FailedPrecondition
                   ("pool cluster " +:+ pc_Name cluster +:+ " has no app secret " +:+ secretName))
            else Err (k8sErrorToGRPCError (ApiError e))
        | Ok secret =>
            let password := default ""%string (se_Data secret !! BasicAuthPasswordKey) in
            if bool_decide (password = ""%string)
            then Err (Status FailedPrecondition
                   ("pool cluster app secret " +:+ secretName +:+ " has no password"))
            else Ok password
        end).

Definition appPasswordForNewBranch (cluster : option PoolCluster) : prog (res error string) :=
  match cluster with
  | None => r ← perform GeneratePassword;
            mret (match r with Ok p => Ok p | Err e => Err (Errorf e) end)
  | Some cluster => poolClusterAppPassword cluster
  end.

(** ** Creating a branch ([clusters.go]) *)

Record Config := mkConfig {
  ClustersStorageClass : string;
  ClustersVolumeSnapshotClass : string;
  XatastorEnabled : bool;
  Builder : BuilderConfig
}.

Definition validatePgBackRestConfigured (p : PgBackRestSpec) : option error :=
  let unconfigured := λ what,
    Some (Status FailedPrecondition ("pgbackrest backup method requested but the " +:+ what
                                     +:+ " is not configured in this cell")) in
  match Azure p with
  | Some a => if bool_decide (az_Account a = ""%string) || bool_decide (az_Container a = ""%string)
              then unconfigured "Azure storage account or container"%string else None
  | None =>
      match GCS p with
      | Some g => if bool_decide (gcs_Bucket g = ""%string)
                  then unconfigured "GCS bucket"%string else None
      | None =>
          match S3 p with
          | Some s => if bool_decide (s3_Bucket s = ""%string) || bool_decide (s3_Region s = ""%string)
                      then unconfigured "S3 bucket or region"%string else None
          | None => None
          end
      end
  end.

Definition validateBarmanRecoverySource (sourceID : string) : prog (res error unit) :=
  r ← perform (GetObjectStore sourceID);
  mret (match r with
        | Err e => Err (k8sErrorToGRPCError (ApiError e))
        | Ok windows =>
            match windows !! sourceID ≫= w_FirstRecoverabilityPoint with
            | Some _ => Ok tt
            | None => Err (Status NotFoundCode
                             ("no continuous backup for source cluster " +:+ sourceID))
            end
        end).

Variable imageExtensions : option ImageExtensions.
Variable config : Config.

(** The source of a continuous backup restore, with the branch it names. *)
Definition restore_source (req : CreateRequest) : prog (res error (string * option Branch)) :=
  match cr_DataSource req with
  | Some (ContinuousBackup clusterId _) =>
      if bool_decide (clusterId = ""%string)
      then mret (Err (Status InvalidArgument "continuous_backup.cluster_id is required"))
      else source <-? map_err k8sErrorToGRPCError (getBranch clusterId);
           mret (Ok (clusterId, Some source))
  | _ => mret (Ok (""%string, None))
  end.

Definition parent_branch (req : CreateRequest) : prog (res error (option Branch)) :=
  if bool_decide (cr_ParentId req = ""%string) then mret (Ok None)
  else parent <-? map_err k8sErrorToGRPCError (getBranch (cr_ParentId req)); mret (Ok (Some parent)).

Definition storage_classes (req : CreateRequest) (parent : option Branch) : string * string :=
  if cr_UseXatastor req && XatastorEnabled config
     && match parent with None => true | Some _ => false end
  then ("xatastor"%string, "xatastor"%string)
  else (ClustersStorageClass config, ClustersVolumeSnapshotClass config).

(** The search of a pool cluster for the branch under construction: the branch
    to create, and the cluster that was taken. *)
Definition adopt_pool_cluster (fuel : nat) (req : CreateRequest) (parent : option Branch)
    (branch : Branch) : prog (option (res error (Branch * option PoolCluster))) :=
  if cr_UsePool req && match parent with None => true | Some _ => false end then
    ready ← perform WaitForClusterCache;
    match ready with
    | Some e => mret (Some (Err (Wrapf "wait for cluster cache" (ContextError e))))
    | None =>
        let c := Cluster (br_Spec branch) in
        let show := λ q, QuantityString (default QuantityZero q) in
        found ← findPoolCluster fuel (default ""%string (StorageClass (Storage c))) (Image c)
                  (show (res_cpu (Requests (Resources c)))) (show (res_memory (Requests (Resources c))))
                  (Size (Storage c));
        mret (match found with
              | None => None
              | Some (Err e) => Some (Err (Wrapf "find pool cluster" e))
              | Some (Ok None) => Some (Ok (branch, None))
              | Some (Ok (Some (poolName, cluster))) =>
                  Some (Ok (WithClusterFromPool (pc_Name cluster) (slotPoolName poolName) branch,
                            Some cluster))
              end)
    end
  else mret (Some (Ok (branch, None))).

(** The Create of the Branch, taking an existing branch with the same
    idempotency key as its result. *)
Definition create_branch (req : CreateRequest) (branch : Branch) : prog (res error Branch) :=
  r ← perform (CreateBranch branch);
  match r with
  | None => mret (Ok branch)
  | Some e =>
      if api_already_exists e then
        existing ← getBranch (cr_Id req);
        mret (match existing with
              | Err e' => Err e'
              | Ok existing =>
                  if negb (bool_decide (cr_IdempotencyKey req = ""%string))
                     && bool_decide (default ""%string (br_Annotations existing
                                       !! AnnotationIdempotencyKey) = cr_IdempotencyKey req)
                  then Ok existing else Err (ApiError e)
              end)
      else mret (Err (ApiError e))
  end.

(** From the application secret on. *)
Definition create_resources (req : CreateRequest) (parent : option Branch) (branch : Branch)
    (poolCluster : option PoolCluster) : prog (res error unit) :=
  appPassword <-? map_err (Wrapf "get app password") (appPasswordForNewBranch poolCluster);
  createdSecret <-? map_err (Wrapf "create app secret")
                      (createAppSecret (cr_Id req +:+ "-app") req appPassword);
  created ← create_branch req branch;
  match created with
  | Err e =>
      match createdSecret with
      | Some name => _ ← perform (DeleteSecret name); mret (Err (k8sErrorToGRPCError e))
      | None => mret (Err (k8sErrorToGRPCError e))
      end
  | Ok branch => map_err k8sErrorToGRPCError (createWakeupRequestForNewBranch branch parent)
  end.

(** [None] only if the pool poll ran out of fuel. *)
Definition CreatePostgresCluster (fuel : nat) (req : CreateRequest)
    : prog (option (res error unit)) :=
  parent ← parent_branch req;
  match parent with
  | Err e => mret (Some (Err e))
  | Ok parent =>
      source ← restore_source req;
      match source with
      | Err e => mret (Some (Err e))
      | Ok (continuousBackupSource, restoreSource) =>
          let '(storageClass, volumeSnapshotClass) := storage_classes req parent in
          match build_new imageExtensions (Builder config) storageClass volumeSnapshotClass req
                  parent restoreSource with
          | Err p => mret (Some (Err (Panicked p)))
          | Ok branch =>
              match pgbackrest_of (Backup (br_Spec branch)) ≫= validatePgBackRestConfigured with
              | Some e => mret (Some (Err e))
              | None =>
                  adopted ← adopt_pool_cluster fuel req parent branch;
                  match adopted with
                  | None => mret None
                  | Some (Err e) => mret (Some (Err e))
                  | Some (Ok (branch, poolCluster)) =>
                      r ← (_ <-? (if negb (bool_decide (continuousBackupSource = ""%string))
                                     && negb (IsPgBackRest (Backup (br_Spec branch)))
                                  then validateBarmanRecoverySource continuousBackupSource
                                  else mret (Ok tt));
                           create_resources req parent branch poolCluster);
                      mret (Some r)
                  end
              end
          end
      end
  end.

(** ** The other operations *)

Definition MaxStorageSizeGi : Z := 65536.

(** [retry.RetryOnConflict]: up to [steps] attempts, backing off after a
    conflict. *)
Fixpoint RetryOnConflict {A} (steps : nat) (p : prog (res error A)) : prog (res error A) :=
  r ← p;
  match r with
  | Ok a => mret (Ok a)
  | Err e =>
      match steps with
      | S (S _ as steps) => if IsConflict e then _ ← perform Backoff; RetryOnConflict steps p
                            else mret (Err e)
      | _ => mret (Err e)
      end
  end.

(** The branch rebuilt from the request and written back. *)
Definition write_update (u : UpdateConfiguration) (existing : Branch) : prog (res error Branch) :=
  branch <-? panics (build_update imageExtensions u (UseStorageQoSClasses (Builder config)) existing);
  _ <-? api_unit (perform (UpdateBranch branch));
  mret (Ok branch).

Definition update_once (id : string) (u : UpdateConfiguration) : prog (res error Branch) :=
  existing <-? getBranch id;
  match u_BackupConfiguration u, Backup (br_Spec existing) with
  | Some _, None => mret (Err BackupsNotEnabled)
  | _, _ => write_update u existing
  end.

Definition update_and_wake (steps : nat) (id : string) (u : UpdateConfiguration)
    : prog (res error unit) :=
  r ← RetryOnConflict steps (update_once id u);
  match r with
  | Err BackupsNotEnabled =>
      mret (Err (Status InvalidArgument ("branch " +:+ id +:+ " has no backups to configure")))
  | Err (Panicked p) => mret (Err (Panicked p))
  | Err e => mret (Err (k8sErrorToGRPCError e))
  | Ok branch =>
      map_err k8sErrorToGRPCError (createWakeupRequestFromUpdateClusterRequest branch u)
  end.

Definition UpdatePostgresCluster (steps : nat) (id : string) (u : UpdateConfiguration)
    : prog (res error unit) :=
  let too_large :=
    match u_StorageSize u with Some n => MaxStorageSizeGi <? n | None => false end in
  if too_large
  then mret (Err (Status InvalidArgument
         ("storage size cannot exceed " +:+ pretty MaxStorageSizeGi +:+ "Gi (requested: "
          +:+ pretty (default 0 (u_StorageSize u)) +:+ "Gi)")))
  else update_and_wake steps id u.

Definition credentials_secret (id user : string) : option string :=
  if bool_decide (user = "xata"%string) then Some (id +:+ "-app")
  else if bool_decide (user = "postgres"%string) then Some (id +:+ "-superuser") else None.

Definition rotate_once (secretName pw : string) : prog (res error unit) :=
  secret <-? api (perform (GetSecret secretName));
  api_unit (perform (UpdateSecret
    (mkSecret (se_Name secret) (se_Labels secret)
       (<[BasicAuthPasswordKey := pw]> (se_Data secret))))).

Definition RotatePostgresClusterCredentials (steps : nat) (id user : string)
    : prog (res error unit) :=
  _ <-? map_err k8sErrorToGRPCError (getBranch id);
  match credentials_secret id user with
  | None => mret (Err (Status InvalidArgument ("unknown user " +:+ q user)))
  | Some secretName =>
      pw ← perform GeneratePassword;
      match pw with
      | Err e => mret (Err (Wrapf "generate password" (Errorf e)))
      | Ok pw => map_err k8sErrorToGRPCError (RetryOnConflict steps (rotate_once secretName pw))
      end
  end.

Definition DeletePostgresCluster (id : string) : prog (res error unit) :=
  branch <-? map_err k8sErrorToGRPCError (getBranch id);
  map_err k8sErrorToGRPCError (api_unit (perform (DeleteBranch (br_Name branch)))).

(** [GetRecoveryWindow]: first and last recoverability point, last successful
    and last failed backup. *)
Record RecoveryWindowResponse := mkWindowResponse {
  rw_FirstRecoverabilityPoint : string;
  rw_LastRecoverabilityPoint : string;
  rw_LastSuccessfulBackup : string;
  rw_LastFailedBackup : string
}.

Definition GetRecoveryWindow (id : string) : prog (res error RecoveryWindowResponse) :=
  branch <-? map_err k8sErrorToGRPCError (getBranch id);
  match Backup (br_Spec branch) with
  | None => mret (Err (Status NotFoundCode ("branch " +:+ id +:+ " has no backups")))
  | Some _ =>
      if IsPgBackRest (Backup (br_Spec branch)) then
        let st := br_Status branch in
        mret (Ok (mkWindowResponse (FirstRecoverabilityPoint st) (LastRecoverabilityPoint st)
                    (LastSuccessfulBackup st) (LastFailedBackup st)))
      else
        r ← perform (GetObjectStore id);
        mret (match r with
              | Err e =>
                  if api_not_found e
                  then Err (Status NotFoundCode ("object store not found for branch " +:+ id))
                  else Err (Wrapf "get object store status" (ApiError e))
              | Ok windows =>
                  match windows !! id with
                  | None => Ok (mkWindowResponse "" "" "" "")
                  | Some w =>
                      Ok (mkWindowResponse (default ""%string (w_FirstRecoverabilityPoint w)) ""
                            (default ""%string (w_LastSuccessfulBackupTime w)) "")
                  end
              end)
  end.

End Service.
