(* ===== verification/Clusters.v ===== *)
(** * Properties of the clusters service

    Taking a cluster from a pool terminates and claims at most the cluster it
    returns; wakeup requests in progress are never replaced; a failed creation
    leaves no application secret behind. *)

From stdpp Require Import pretty.
From S2P Require Import Prelude GoStrings GoFloat Kube PostgresVersions Extensions BranchTypes.
From S2P Require Import BranchBuilder ClustersModel.

#[local] Open Scope Z_scope.
#[local] Open Scope go_scope.

Section Clusters.
Context `{Quantities}.

#[local] Abbreviation prog := (prog resp) (only parsing).
#[local] Abbreviation runs := (runs resp) (only parsing).
#[local] Abbreviation event := (event resp) (only parsing).
#[local] Abbreviation only := (only resp) (only parsing).
#[local] Abbreviation wp := (wp resp) (only parsing).

(** ** The clock *)

(** Time does not go back, and a poll interval that elapsed takes its length:
    the earliest time after an exchange, [None] when the clock is wrong. *)
Definition tick (lo : Z) (e : event) : option Z :=
  match e with
  | ev Now t => if lo <=? t then Some t else None
  | ev PollWait None => Some (lo + poolClusterPollInterval)
  | _ => Some lo
  end.

Fixpoint clock_after (lo : Z) (tr : list event) : option Z :=
  match tr with
  | [] => Some lo
  | e :: tr => lo ← tick lo e; clock_after lo tr
  end.

Definition clock_advances (tr : list event) : Prop := ∃ lo, is_Some (clock_after lo tr).

Lemma clock_after_app lo tr1 tr2 :
  clock_after lo (tr1 ++ tr2) = clock_after lo tr1 ≫= λ lo, clock_after lo tr2.
Proof.
  revert lo. induction tr1 as [|e tr1 IH]; intros lo; simpl; [done|].
  destruct (tick lo e); simpl; [apply IH|done].
Qed.

Definition quiet (c : call) : bool :=
  match c with Now | PollWait => false | _ => true end.

Lemma clock_quiet {A} (p : prog A) lo tr a :
  only quiet p → runs p tr a → clock_after lo tr = Some lo.
Proof.
  revert tr. induction p as [b|c k IH]; intros tr; simpl.
  - by intros _ [-> _].
  - intros [Hc Hk] (r & tr' & -> & Hr). simpl. destruct c; try done; simpl; by eapply IH.
Qed.

Lemma quiet_map_err {A} f (p : prog (res error A)) : only quiet p → only quiet (map_err f p).
Proof. intros Hp. apply only_bind; [done|]. by intros []. Qed.

Lemma quiet_first_healthy req cs : only quiet (first_healthy req cs).
Proof.
  induction cs as [|c cs IH]; [done|]. cbn [first_healthy].
  destruct (pc_deleting c); [done|]. destruct (storageLargerThan _ _) as [[]|]; [done| |done].
  destruct (0 <? _); [|done]. apply only_bind; [by apply quiet_map_err|].
  intros [?|e]; [done|]. by destruct (IsConflict e).
Qed.

Lemma quiet_findHealthy pool req : only quiet (findHealthyClusterInPool pool req).
Proof.
  unfold findHealthyClusterInPool. apply only_bind_ok; [by apply quiet_map_err|].
  intros cs. apply quiet_first_healthy.
Qed.

(** ** The poll terminates *)

Lemma runs_call {A} c (f : resp c → prog A) tr a :
  runs (r ← perform c; f r) tr a → ∃ r tr', tr = ev c r :: tr' ∧ runs (f r) tr' a.
Proof. by intros (r & tr' & -> & Hr); exists r, tr'. Qed.

Ltac returned H := by apply runs_ret in H as [_ ->].

Lemma poll_terminates fuel deadline pool req tr r lo :
  (0 < fuel)%nat → runs (poll_pool fuel deadline pool req) tr r → is_Some (clock_after lo tr) →
  deadline < lo + (Z.of_nat fuel - 1) * poolClusterPollInterval → r ≠ None.
Proof.
  revert tr lo. induction fuel as [|fuel IH]; [lia|].
  intros tr lo _ Hrun Hclk Hdl. cbn [poll_pool] in Hrun.
  apply runs_bind in Hrun as (tr1 & tr2 & a & -> & Hfind & Hrun).
  apply (clock_quiet _ lo) in Hfind; [|apply quiet_findHealthy].
  rewrite clock_after_app, Hfind in Hclk. cbn [mbind option_bind] in Hclk. clear Hfind.
  destruct a as [[c|]|e]; [returned Hrun| |returned Hrun].
  apply runs_call in Hrun as (now & tr3 & -> & Hrun).
  cbn [clock_after tick] in Hclk. destruct (lo <=? now) eqn:Hlo; [|by destruct Hclk].
  apply Z.leb_le in Hlo. cbn [mbind option_bind] in Hclk.
  destruct (deadline <? now) eqn:Hnow; [returned Hrun|].
  apply Z.ltb_ge in Hnow. apply runs_call in Hrun as (w & tr4 & -> & Hrun). destruct w as [e|]; [returned Hrun|].
  cbn [clock_after tick mbind option_bind] in Hclk.
  destruct (decide (fuel = 0%nat)) as [->|Hf]; [lia|].
  eapply (IH tr4 (now + poolClusterPollInterval)); [lia|exact Hrun|done|lia].
Qed.

(** Seventeen polls cover the timeout. *)
Definition enough_polls : nat := 17.

Lemma findAvailable_terminates fuel pool req tr r lo :
  (enough_polls ≤ fuel)%nat → runs (findAvailableClusterInPool fuel pool req) tr r →
  is_Some (clock_after lo tr) → r ≠ None.
Proof.
  unfold enough_polls, findAvailableClusterInPool. intros Hf Hrun Hclk.
  apply runs_call in Hrun as (now & tr' & -> & Hrun). cbn [clock_after tick] in Hclk.
  destruct (lo <=? now); [|by destruct Hclk]. cbn [mbind option_bind] in Hclk.
  eapply poll_terminates; [|exact Hrun|exact Hclk|]; [lia|].
  unfold poolClusterWaitTimeout, poolClusterPollInterval, Second, Millisecond, Microsecond,
    Nanosecond. lia.
Qed.

Lemma clock_after_split lo tr1 tr2 :
  is_Some (clock_after lo (tr1 ++ tr2)) →
  is_Some (clock_after lo tr1) ∧ ∃ lo', is_Some (clock_after lo' tr2).
Proof. rewrite clock_after_app. destruct (clock_after lo tr1) as [lo'|]; [eauto|by intros []]. Qed.

Lemma search_terminates fuel sc img cpu mem req pools tr r lo :
  (enough_polls ≤ fuel)%nat → runs (search_pools fuel sc img cpu mem req pools) tr r →
  is_Some (clock_after lo tr) → r ≠ None.
Proof.
  intros Hf. revert tr lo. induction pools as [|pool pools IH]; intros tr lo Hrun Hclk.
  { returned Hrun. }
  cbn [search_pools] in Hrun. destruct (negb _); [by eapply IH|].
  destruct (storageLargerThan _ _) as [[]|]; [by eapply IH| |returned Hrun].
  apply runs_bind in Hrun as (tr1 & tr2 & a & -> & Hfind & Hrun).
  apply clock_after_split in Hclk as (Hclk & lo' & Hclk').
  pose proof (findAvailable_terminates _ _ _ _ _ _ Hf Hfind Hclk) as Ha.
  destruct a as [[[c|]|e]|]; [returned Hrun|by eapply IH|returned Hrun|done].
Qed.

Lemma findPoolCluster_terminates fuel sc img cpu mem size tr r lo :
  (enough_polls ≤ fuel)%nat → runs (findPoolCluster fuel sc img cpu mem size) tr r →
  is_Some (clock_after lo tr) → r ≠ None.
Proof.
  intros Hf Hrun Hclk. unfold findPoolCluster in Hrun.
  apply runs_bind in Hrun as (tr1 & tr2 & a & -> & _ & Hrun).
  apply clock_after_split in Hclk as (_ & lo' & Hclk').
  destruct a as [pools|e]; [|returned Hrun].
  destruct (MustParse cpu), (MustParse mem), (MustParse size);
    first [returned Hrun|by eapply search_terminates].
Qed.

(** Creating a branch terminates: with a clock that does not go back and poll
    waits that take their interval, the pool polls of every request end within
    seventeen iterations each, so [CreatePostgresCluster] returns a result
    whatever the API server answers. *)
Theorem CreatePostgresCluster_terminates images config fuel req tr r :
  (enough_polls ≤ fuel)%nat → runs (CreatePostgresCluster images config fuel req) tr r →
  clock_advances tr → is_Some r.
Proof.
  intros Hf Hrun [lo Hclk]. apply not_eq_None_Some. unfold CreatePostgresCluster in Hrun.
  apply runs_bind in Hrun as (tr1 & tr2 & parent & -> & _ & Hrun).
  apply clock_after_split in Hclk as (_ & lo1 & Hclk).
  destruct parent as [parent|e]; [|returned Hrun].
  apply runs_bind in Hrun as (tr3 & tr4 & source & -> & _ & Hrun).
  apply clock_after_split in Hclk as (_ & lo2 & Hclk).
  destruct source as [[src restore]|e]; [|returned Hrun].
  destruct (storage_classes config req parent) as [sc vsc].
  destruct (build_new _ _ _ _ _ _ _) as [branch|p]; [|returned Hrun].
  destruct (pgbackrest_of _ ≫= _); [returned Hrun|].
  apply runs_bind in Hrun as (tr5 & tr6 & adopted & -> & Hadopt & Hrun).
  apply clock_after_split in Hclk as (Hclk & lo3 & _).
  assert (adopted ≠ None) as Ha.
  { unfold adopt_pool_cluster in Hadopt. destruct (cr_UsePool req && _); [|returned Hadopt].
    apply runs_call in Hadopt as (ready & tr7 & -> & Hadopt).
    destruct ready; [returned Hadopt|].
    cbn [clock_after tick mbind option_bind] in Hclk.
    apply runs_bind in Hadopt as (tr8 & tr9 & found & -> & Hfound & Hadopt).
    apply clock_after_split in Hclk as (Hclk & _).
    pose proof (findPoolCluster_terminates _ _ _ _ _ _ _ _ _ Hf Hfound Hclk) as Hne.
    apply runs_ret in Hadopt as [_ ->]. by destruct found as [[[[? ?]|]|]|]. }
  destruct adopted as [[[b pc]|e]|]; [|returned Hrun|done].
  apply runs_bind in Hrun as (tr7 & tr8 & res & -> & _ & Hrun). returned Hrun.
Qed.

(** ** What is taken from a pool *)

Inductive note :=
| Pools (ps : list ClusterPool)
| Listed (pool : string) (cs : list PoolCluster)
| Claimed (c : PoolCluster).

(** A cluster is claimed when the patch that orphans it succeeds. *)
Definition note_of (e : event) : option note :=
  match e with
  | ev ListPools (Ok ps) => Some (Pools ps)
  | ev (ListPoolClusters pool) (Ok cs) => Some (Listed pool cs)
  | ev (OrphanCluster c) None => Some (Claimed c)
  | _ => None
  end.

Definition claims (l : list note) : list PoolCluster :=
  omap (λ n, match n with Claimed c => Some c | _ => None end) l.

Lemma claims_app l1 l2 : claims (l1 ++ l2) = claims l1 ++ claims l2.
Proof. apply omap_app. Qed.

(** A cluster a branch can use. *)
Definition usable (requested : Quantity) (c : PoolCluster) : Prop :=
  pc_deleting c = false ∧ storageLargerThan (pc_Size c) requested = Ok false
  ∧ 0 < pc_ReadyInstances c.

(** The claims a search leaves: the cluster it returns, if any. *)
Definition claims_result {A} (get : A → PoolCluster) (acc l : list note)
    (r : res error (option A)) : Prop :=
  claims l = claims acc ++ match r with Ok (Some a) => [get a] | _ => [] end.

Lemma wp_return {O A} (obs : event → option O) (a : A) acc (Q : list O → A → Prop) :
  Q acc a → wp obs (mret a) acc Q.
Proof. done. Qed.

Lemma wp_orphan {A} c (f : res error unit → prog A) acc Q :
  wp note_of (f (Ok tt)) (acc ++ [Claimed c]) Q →
  (∀ e, wp note_of (f (Err e)) acc Q) → wp note_of (orphanCluster c ≫= f) acc Q.
Proof. intros Hok Herr [e|]; [apply Herr|apply Hok]. Qed.

Lemma first_healthy_claims req cs acc :
  wp note_of (first_healthy req cs) acc (λ l r,
    claims_result id acc l r ∧ acc `prefix_of` l
    ∧ ∀ c, r = Ok (Some c) → c ∈ cs ∧ usable req c).
Proof.
  unfold claims_result. revert acc. induction cs as [|c cs IH]; intros acc; cbn [first_healthy].
  { simpl. rewrite app_nil_r. done. }
  assert (wp note_of (first_healthy req cs) acc (λ l r,
    claims_result id acc l r ∧ acc `prefix_of` l
    ∧ ∀ c0, r = Ok (Some c0) → c0 ∈ c :: cs ∧ usable req c0)) as Hnext.
  { eapply wp_mono; [|apply IH]. intros l r (? & ? & Hin). split_and!; [done..|].
    intros c0 Hc0. destruct (Hin c0 Hc0). split; [by right|done]. }
  destruct (pc_deleting c) eqn:Hdel; [done|].
  destruct (storageLargerThan (pc_Size c) req) as [[]|] eqn:Hsize; [done| |].
  2: { simpl. rewrite app_nil_r. done. }
  destruct (0 <? pc_ReadyInstances c) eqn:Hready; [|done]. apply Z.ltb_lt in Hready.
  apply wp_orphan.
  - simpl. rewrite claims_app. split_and!; [done|by eexists|]. intros c0 [= <-].
    split; [by left|]. done.
  - intros e. destruct (IsConflict e); [done|]. simpl. rewrite app_nil_r. done.
Qed.

(** The cluster comes from a listing of the pool. *)
Definition found_in (pool : string) (requested : Quantity) (l : list note) (c : PoolCluster)
    : Prop :=
  usable requested c ∧ ∃ cs, Listed pool cs ∈ l ∧ c ∈ cs.

Lemma found_in_prefix pool req l l' c :
  found_in pool req l c → l `prefix_of` l' → found_in pool req l' c.
Proof.
  intros (Hu & cs & Hl & Hc) [k ->]. split; [done|]. exists cs. split; [|done].
  apply elem_of_app. by left.
Qed.

Lemma findHealthy_claims pool req acc :
  wp note_of (findHealthyClusterInPool pool req) acc (λ l r,
    claims_result id acc l r ∧ acc `prefix_of` l
    ∧ ∀ c, r = Ok (Some c) → found_in (pl_Name pool) req l c).
Proof.
  unfold findHealthyClusterInPool, claims_result. apply wp_bind.
  intros [cs|e]; cbn [note_of lift]; simpl.
  - eapply wp_mono; [|apply first_healthy_claims]. intros l r (Hcl & [k ->] & Hin).
    unfold claims_result in Hcl. rewrite !claims_app in Hcl |- *. simpl in Hcl |- *.
    rewrite !app_nil_r in Hcl |- *.
    split_and!; [done|exists ([Listed (pl_Name pool) cs] ++ k); by rewrite app_assoc|].
    intros c Hc. destruct (Hin c Hc) as [? ?]. split; [done|]. exists cs. split; [|done].
    apply elem_of_app. left. apply elem_of_app. right. by left.
  - rewrite app_nil_r. done.
Qed.

(** The same facts for a search that may run out of fuel. *)
Definition search_result {A} (get : A → PoolCluster) (P : list note → A → Prop)
    (acc l : list note) (r : option (res error (option A))) : Prop :=
  claims_result get acc l (default (Ok None) r) ∧ acc `prefix_of` l
  ∧ ∀ a, r = Some (Ok (Some a)) → P l a.

Lemma search_result_nothing {A} (get : A → PoolCluster) P acc r :
  (∀ a, r ≠ Some (Ok (Some a))) → search_result get P acc acc r.
Proof.
  intros Hr. unfold search_result, claims_result. split_and!; [|done|by intros a ->; destruct (Hr a)].
  destruct r as [[[a|]|]|]; simpl; rewrite ?app_nil_r; try done. by destruct (Hr a).
Qed.

Lemma search_result_trans {A} (get : A → PoolCluster) P acc l l' r :
  claims l = claims acc → acc `prefix_of` l → search_result get P l l' r →
  search_result get P acc l' r.
Proof.
  unfold search_result, claims_result. intros -> Hp (? & ? & ?). split_and!; [done| |done].
  by etrans.
Qed.

Lemma poll_claims fuel deadline pool req acc :
  wp note_of (poll_pool fuel deadline pool req) acc
    (search_result id (λ l c, found_in (pl_Name pool) req l c) acc).
Proof.
  revert acc. induction fuel as [|fuel IH]; intros acc; cbn [poll_pool].
  { apply wp_return. by apply search_result_nothing. }
  apply wp_bind. eapply wp_mono; [|apply findHealthy_claims].
  intros l [[c|]|e] (Hcl & Hp & Hin); unfold claims_result in Hcl; simpl in Hcl.
  - apply wp_return. split_and!; [done..|]. intros c0 [= <-]. by apply Hin.
  - rewrite app_nil_r in Hcl. apply (wp_perform _ Now). intros now. cbn [note_of].
    destruct (deadline <? now); [apply wp_return|apply (wp_perform _ PollWait); intros [e|]; cbn [note_of]].
    + by apply (search_result_trans _ _ _ l); [..|apply search_result_nothing].
    + apply wp_return. by apply (search_result_trans _ _ _ l); [..|apply search_result_nothing].
    + eapply wp_mono; [|apply IH]. intros l' r Hr. by apply (search_result_trans _ _ _ l).
  - rewrite app_nil_r in Hcl. apply wp_return.
    by apply (search_result_trans _ _ _ l); [..|apply search_result_nothing].
Qed.

(** The returned cluster comes from a pool that matches the request. *)
Definition from_matching_pool (sc img : string) (cpu mem requested : Quantity)
    (pools : list ClusterPool) (l : list note) (a : string * PoolCluster) : Prop :=
  ∃ pool, pool ∈ pools ∧ pl_Name pool = a.1 ∧ pool_matches sc img cpu mem pool = true
    ∧ storageLargerThan (pl_Size pool) requested = Ok false ∧ found_in a.1 requested l a.2.

Lemma search_claims fuel sc img cpu mem req pools acc :
  wp note_of (search_pools fuel sc img cpu mem req pools) acc
    (search_result snd (from_matching_pool sc img cpu mem req pools) acc).
Proof.
  revert acc. induction pools as [|pool pools IH]; intros acc; cbn [search_pools].
  { by apply search_result_nothing. }
  assert (∀ acc, wp note_of (search_pools fuel sc img cpu mem req pools) acc
    (search_result snd (from_matching_pool sc img cpu mem req (pool :: pools)) acc)) as Hnext.
  { intros acc0. eapply wp_mono; [|apply IH]. intros l r (? & ? & HP). split_and!; [done..|].
    intros a Ha. destruct (HP a Ha) as (pl & Hpl & ?). exists pl. split; [by right|done]. }
  destruct (pool_matches sc img cpu mem pool) eqn:Hmatch; simpl negb; cbv iota; [|apply Hnext].
  destruct (storageLargerThan (pl_Size pool) req) as [[]|] eqn:Hsize;
    [apply Hnext| |by apply search_result_nothing].
  unfold findAvailableClusterInPool. apply wp_bind, (wp_perform _ Now). intros now. cbn [note_of].
  eapply wp_mono; [|apply poll_claims].
  intros l r (Hcl & Hp & HP). unfold claims_result in Hcl.
  destruct r as [[[c|]|e]|]; simpl in Hcl.
  - split_and!; [done..|]. intros a [= <-]. exists pool. split; [by left|].
    split_and!; [done..|]. by apply HP.
  - rewrite app_nil_r in Hcl. eapply wp_mono; [|apply Hnext].
    intros l' r Hr. by apply (search_result_trans _ _ _ l).
  - rewrite app_nil_r in Hcl. apply wp_return.
    by apply (search_result_trans _ _ _ l); [..|apply search_result_nothing].
  - rewrite app_nil_r in Hcl. apply wp_return.
    by apply (search_result_trans _ _ _ l); [..|apply search_result_nothing].
Qed.

(** The search of a pool cluster claims exactly the cluster it returns, and
    nothing when it returns none or fails: the cluster was listed in a pool
    whose storage class, image, CPU and memory are those requested, it is
    ready, not being deleted, and its disk is not larger than requested. *)
Theorem pool_search_claims_what_it_returns fuel sc img cpu mem size tr r :
  runs (findPoolCluster fuel sc img cpu mem size) tr r →
  claims (omap note_of tr)
  = match r with Some (Ok (Some (_, c))) => [c] | _ => [] end
  ∧ ∀ pool c, r = Some (Ok (Some (pool, c))) →
    ∃ pools qcpu qmem qsize,
      ParseQuantity cpu = Some qcpu ∧ ParseQuantity mem = Some qmem
      ∧ ParseQuantity size = Some qsize ∧ Pools pools ∈ omap note_of tr
      ∧ from_matching_pool sc img qcpu qmem qsize pools (omap note_of tr) (pool, c).
Proof.
  intros Hrun.
  assert (wp note_of (findPoolCluster fuel sc img cpu mem size) [] (λ l r,
    claims l = match r with Some (Ok (Some (_, c))) => [c] | _ => [] end
    ∧ ∀ pool c, r = Some (Ok (Some (pool, c))) →
      ∃ pools qcpu qmem qsize,
        ParseQuantity cpu = Some qcpu ∧ ParseQuantity mem = Some qmem
        ∧ ParseQuantity size = Some qsize ∧ Pools pools ∈ l
        ∧ from_matching_pool sc img qcpu qmem qsize pools l (pool, c))) as Hwp;
    [|exact (wp_sound _ _ [] _ _ _ Hwp Hrun)].
  clear tr r Hrun. unfold findPoolCluster, MustParse. intros [pools|e]; cbn [note_of]; [|done].
  cbn [lift api mret prog_ret app].
  destruct (ParseQuantity cpu) as [qc|]; [|by destruct (ParseQuantity mem), (ParseQuantity size)].
  destruct (ParseQuantity mem) as [qm|]; [|by destruct (ParseQuantity size)].
  destruct (ParseQuantity size) as [qs|]; [|done].
  eapply wp_mono; [|apply search_claims]. intros l r (Hcl & [k ->] & HP).
  unfold claims_result in Hcl. simpl in Hcl. split.
  - transitivity (claims k); [done|]. etrans; [exact Hcl|].
    by destruct r as [[[[? ?]|]|]|].
  - intros pool c Hr. exists pools, qc, qm, qs. split_and!; [done..|by left|]. by apply HP.
Qed.

(** ** Wakeup requests *)

(** A wakeup request whose wakeup is still under way. *)
Definition in_progress (w : WakeupRequest) : bool :=
  match wu_Succeeded w with None | Some ConditionUnknown => true | _ => false end.

Definition new_wakeup (b : Branch) (xvol : string) (mode : PasswordSyncMode) : WakeupRequest :=
  mkWakeup (br_Name b) (br_Name b) xvol mode (br_Name b) None.

(** The branch has a wakeup request: one in progress, or the new one, which the
    call created or found created by a concurrent caller. *)
Definition wakeup_ensured (b : Branch) (xvol : string) (mode : PasswordSyncMode)
    (tr : list event) : Prop :=
  (∃ w, ev (GetWakeupRequest (br_Name b)) (Ok w) ∈ tr ∧ in_progress w = true)
  ∨ (∃ r, ev (CreateWakeupRequest (new_wakeup b xvol mode)) r ∈ tr
       ∧ match r with None => True | Some e => api_already_exists e = true end).

Lemma ensureWakeupRequest_ok b xvol mode tr :
  runs (ensureWakeupRequest b xvol mode) tr (Ok tt) → wakeup_ensured b xvol mode tr.
Proof.
  unfold ensureWakeupRequest. intros (existing & tr1 & -> & Hrun).
  assert (∀ pre tr,
    runs (r ← perform (CreateWakeupRequest (new_wakeup b xvol mode));
          mret (match r with
                | Some e => if api_already_exists e then Ok tt
                            else Err (Wrapf "create wakeup request" (ApiError e))
                | None => Ok tt
                end)) tr (Ok tt) → wakeup_ensured b xvol mode (pre ++ tr)) as Hcreate.
  { intros pre tr (r & tr2 & -> & Hr). apply runs_ret in Hr as [-> Hr]. right. exists r.
    split; [apply elem_of_app; right; by left|]. destruct r as [e|]; [|done].
    by destruct (api_already_exists e). }
  simpl in Hrun. destruct existing as [w|e].
  - destruct (wu_Succeeded w) as [[]|] eqn:Hs.
    + destruct Hrun as (d & tr2 & -> & Hrun). destruct d as [e|].
      * destruct (api_not_found e); [by apply (Hcreate [_; _])|by destruct Hrun].
      * by apply (Hcreate [_; _]).
    + destruct Hrun as (d & tr2 & -> & Hrun). destruct d as [e|].
      * destruct (api_not_found e); [by apply (Hcreate [_; _])|by destruct Hrun].
      * by apply (Hcreate [_; _]).
    + left. exists w. split; [by left|]. unfold in_progress. by rewrite Hs.
    + left. exists w. split; [by left|]. unfold in_progress. by rewrite Hs.
  - destruct (api_not_found e); [by apply (Hcreate [_])|by destruct Hrun].
Qed.

(** A wakeup in progress is never disturbed: a wakeup request is deleted only
    after it was read with a final outcome, and when the call succeeds the
    branch has a request in progress or the new one asking for its volume. *)
Theorem wakeup_in_progress_is_kept b xvol mode tr r :
  runs (ensureWakeupRequest b xvol mode) tr r →
  (∀ n d, ev (DeleteWakeupRequest n) d ∈ tr →
     ∃ w, n = wu_Name w ∧ ev (GetWakeupRequest (br_Name b)) (Ok w) ∈ tr ∧ in_progress w = false)
  ∧ (r = Ok tt → wakeup_ensured b xvol mode tr).
Proof.
  intros Hrun. split; [|intros ->; by apply ensureWakeupRequest_ok].
  intros n d Hin. unfold ensureWakeupRequest in Hrun.
  destruct Hrun as (existing & tr1 & -> & Hrun).
  apply elem_of_cons in Hin as [[=]|Hin]. simpl in Hrun.
  assert (∀ tr r, runs (r ← perform (CreateWakeupRequest (new_wakeup b xvol mode));
          mret (match r with
                | Some e => if api_already_exists e then Ok tt
                            else Err (Wrapf "create wakeup request" (ApiError e))
                | None => Ok tt
                end)) tr r → ev (DeleteWakeupRequest n) d ∉ tr) as Hno.
  { intros tr r0 (r1 & tr2 & -> & Hr). apply runs_ret in Hr as [-> _].
    intros [[=]|[]%elem_of_nil]%elem_of_cons. }
  assert (∀ w, existing = Ok w → in_progress w = false → ∀ d0 tr2,
    tr1 = ev (DeleteWakeupRequest (wu_Name w)) d0 :: tr2 → ev (DeleteWakeupRequest n) d ∉ tr2 →
    ∃ w, n = wu_Name w ∧ ev (GetWakeupRequest (br_Name b)) (Ok w)
           ∈ ev (GetWakeupRequest (br_Name b)) existing :: tr1 ∧ in_progress w = false) as Hyes.
  { intros w -> Hw d0 tr2 -> Hn. apply elem_of_cons in Hin as [[= Hname _]|Hin]; [|done].
    exists w. split_and!; [done|by left|done]. }
  destruct existing as [w|e].
  - destruct (wu_Succeeded w) as [[]|] eqn:Hs; [| |by destruct Hrun as [-> _]; apply elem_of_nil in Hin..].
    all: destruct Hrun as (d0 & tr2 & -> & Hrun);
      eapply (Hyes w eq_refl); [unfold in_progress; by rewrite Hs|done|].
    all: destruct d0 as [e|]; [destruct (api_not_found e)|];
      solve [by eapply Hno|destruct Hrun as [-> _]; by apply not_elem_of_nil].
  - destruct (api_not_found e); [by apply Hno in Hrun|destruct Hrun as [-> _]; by apply elem_of_nil in Hin].
Qed.

Lemma RetryOnConflict_ok {A} steps (p : prog (res error A)) tr a :
  runs (RetryOnConflict steps p) tr (Ok a) → ∃ tr1 tr2, tr = tr1 ++ tr2 ∧ runs p tr2 (Ok a).
Proof.
  revert tr. induction steps as [|steps IH]; intros tr; cbn [RetryOnConflict];
    intros (tr1 & tr2 & [x|e] & -> & Hp & Hrun)%runs_bind.
  - apply runs_ret in Hrun as [-> [= ->]]. exists [], tr1. by rewrite app_nil_r.
  - by apply runs_ret in Hrun as [_ ?].
  - apply runs_ret in Hrun as [-> [= ->]]. exists [], tr1. by rewrite app_nil_r.
  - destruct steps as [|steps]; [by apply runs_ret in Hrun as [_ ?]|].
    destruct (IsConflict e); [|by apply runs_ret in Hrun as [_ ?]].
    apply runs_call in Hrun as (u & tr3 & -> & Hrun).
    apply IH in Hrun as (tr4 & tr5 & -> & Hrun).
    exists (tr1 ++ ev Backoff u :: tr4), tr5. by rewrite <- app_assoc.
Qed.

Lemma wakeup_ensured_app b xvol mode tr1 tr2 :
  wakeup_ensured b xvol mode tr2 → wakeup_ensured b xvol mode (tr1 ++ tr2).
Proof.
  intros [(w & Hw & ?)|(r & Hr & ?)]; [left; exists w|right; exists r];
    rewrite elem_of_app; auto.
Qed.

Lemma runs_map_err_ok {A} f (p : prog (res error A)) tr a :
  runs (map_err f p) tr (Ok a) → runs p tr (Ok a).
Proof.
  intros (tr1 & tr2 & [x|e] & -> & Hp & Hr)%runs_bind; apply runs_ret in Hr as [-> Hr]; [|done].
  rewrite app_nil_r. by injection Hr as ->.
Qed.

Lemma runs_api_ok {A} (p : prog (res api_error A)) tr a : runs (api p) tr (Ok a) → runs p tr (Ok a).
Proof.
  intros (tr1 & tr2 & [x|e] & -> & Hp & Hr)%runs_bind; apply runs_ret in Hr as [-> Hr]; [|done].
  rewrite app_nil_r. by injection Hr as ->.
Qed.

Lemma write_update_ok images config u existing tr b :
  runs (write_update images config u existing) tr (Ok b) →
  ev (UpdateBranch b) None ∈ tr
  ∧ build_update images u (UseStorageQoSClasses (Builder config)) existing = Ok b.
Proof.
  unfold write_update.
  intros [(tr1 & tr2 & b' & -> & Hp & Hrun)|(e & _ & [=])]%runs_bind_ok.
  unfold panics in Hp. apply runs_ret in Hp as [-> Hp].
  destruct (build_update _ _ _ _) as [b0|]; [|done]. injection Hp as ->.
  apply runs_bind_ok in Hrun as [(tr3 & tr4 & [] & -> & Hu & Hrun)|(e & _ & [=])].
  apply runs_ret in Hrun as [-> [= ->]]. destruct Hu as (r & tr5 & -> & Hu).
  apply runs_ret in Hu as [-> Hu]. destruct r; [done|]. split; [by left|done].
Qed.

Lemma update_once_ok images config id u tr b :
  runs (update_once images config id u) tr (Ok b) →
  ∃ existing, ev (GetBranch id) (Ok existing) ∈ tr ∧ ev (UpdateBranch b) None ∈ tr
    ∧ build_update images u (UseStorageQoSClasses (Builder config)) existing = Ok b.
Proof.
  unfold update_once.
  intros [(tr1 & tr2 & existing & -> & Hget & Hrun)|(e & _ & [=])]%runs_bind_ok.
  apply runs_api_ok in Hget. destruct Hget as (r & tr3 & -> & Hget).
  apply runs_ret in Hget as [-> <-]. exists existing.
  split; [by left|].
  assert (runs (write_update images config u existing) tr2 (Ok b)) as Hrun'
    by (destruct (u_BackupConfiguration u), (Backup (br_Spec existing)); try done;
        by apply runs_ret in Hrun as [_ ?]).
  apply write_update_ok in Hrun' as [Hin Hb]. split; [apply elem_of_app; by right|done].
Qed.

(** A wake request reaches the pool: when an update that wakes a branch
    succeeds, the branch written back is running or waking, never hibernated;
    a branch outside the pools runs on the cluster it kept, and a pool branch
    has a wakeup request for its primary volume. *)
Theorem wake_request_reaches_the_pool images config steps id u tr :
  runs (UpdatePostgresCluster images config steps id u) tr (Ok tt) →
  u_Hibernate u = Some false →
  ∃ existing b,
    ev (GetBranch id) (Ok existing) ∈ tr ∧ ev (UpdateBranch b) None ∈ tr
    ∧ (lifecycle_ok existing →
       phase_of b = phase_step (HasWakeupPoolAnnotation existing) (Some false) (phase_of existing)
       ∧ ∀ c, phase_of b ≠ Hibernated c)
    ∧ (HasWakeupPoolAnnotation existing = true →
       wakeup_ensured b (PrimaryXVolName (br_Status b)) PasswordSyncModeSkip tr).
Proof.
  unfold UpdatePostgresCluster. intros Hrun Hwake.
  destruct (match u_StorageSize u with Some n => _ | None => _ end); [by apply runs_ret in Hrun as [_ ?]|].
  unfold update_and_wake in Hrun. apply runs_bind in Hrun as (tr1 & tr2 & [b|e] & -> & Hretry & Hrun).
  2: { by destruct e; apply runs_ret in Hrun as [_ ?]. }
  apply RetryOnConflict_ok in Hretry as (tr3 & tr4 & -> & Honce).
  apply update_once_ok in Honce as (existing & Hget & Hupd & Hb).
  exists existing, b. rewrite !elem_of_app. split_and!; [by left; right|by left; right| |].
  - intros Hok. destruct (build_update_refines _ _ _ _ _ Hok Hb) as (Hph & _ & _).
    rewrite Hwake in Hph. split; [done|]. intros c. rewrite Hph.
    unfold phase_step. by destruct (phase_of existing) as [|[]|].
  - intros Hpool. apply wakeup_ensured_app. apply runs_map_err_ok in Hrun.
    assert (lifecycle_ok existing) as Hok by (unfold lifecycle_ok; by rewrite Hpool).
    destruct (build_update_refines _ _ _ _ _ Hok Hb) as (_ & Hpool' & _).
    unfold createWakeupRequestFromUpdateClusterRequest in Hrun.
    rewrite Hwake, Hpool', Hpool in Hrun. simpl in Hrun. by apply ensureWakeupRequest_ok.
Qed.

(** ** The application secret of a new branch *)

Inductive outcome :=
| SecretMade (name : string)
| SecretDropRequested (name : string) (refused : option api_error)
| BranchStands.

Definition idempotent_match (req : CreateRequest) (b : Branch) : bool :=
  negb (bool_decide (cr_IdempotencyKey req = ""%string))
  && bool_decide (default ""%string (br_Annotations b !! AnnotationIdempotencyKey)
                  = cr_IdempotencyKey req).

(** The branch stands once it is created, or read back as the result of an
    earlier attempt of the same operation. *)
Definition outcome_of (req : CreateRequest) (e : event) : option outcome :=
  match e with
  | ev (CreateSecret s) None => Some (SecretMade (se_Name s))
  | ev (DeleteSecret n) refused => Some (SecretDropRequested n refused)
  | ev (CreateBranch _) None => Some BranchStands
  | ev (GetBranch i) (Ok b) =>
      if bool_decide (i = cr_Id req) && idempotent_match req b then Some BranchStands else None
  | _ => None
  end.

Definition silent (req : CreateRequest) (c : call) : bool :=
  match c with
  | CreateSecret _ | DeleteSecret _ | CreateBranch _ => false
  | GetBranch i => negb (bool_decide (i = cr_Id req))
  | _ => true
  end.

Lemma silent_no_outcome req c r : silent req c = true → outcome_of req (ev c r) = None.
Proof.
  destruct c; simpl; try done. destruct (bool_decide _); simpl; [done|]. by destruct r.
Qed.

Lemma silent_first_healthy req q cs : only (silent req) (first_healthy q cs).
Proof.
  induction cs as [|c cs IH]; [done|]. cbn [first_healthy].
  destruct (pc_deleting c); [done|]. destruct (storageLargerThan _ _) as [[]|]; [done| |done].
  destruct (0 <? _); [|done]. apply only_bind; [by split; [|by intros []]|].
  intros [?|e]; [done|]. by destruct (IsConflict e).
Qed.

Lemma silent_poll req fuel dl pool q : only (silent req) (poll_pool fuel dl pool q).
Proof.
  induction fuel as [|fuel IH]; [done|]. cbn [poll_pool]. apply only_bind.
  - apply only_bind_ok; [by split; [|by intros []]|]. intros cs. apply silent_first_healthy.
  - intros [[c|]|e]; [done| |done]. apply only_bind; [done|]. intros now.
    destruct (dl <? now); [done|]. apply only_bind; [done|]. by intros [e|].
Qed.

Lemma silent_search req fuel sc img cpu mem q pools :
  only (silent req) (search_pools fuel sc img cpu mem q pools).
Proof.
  induction pools as [|pool pools IH]; [done|]. cbn [search_pools].
  destruct (negb _); [done|]. destruct (storageLargerThan _ _) as [[]|]; [done| |done].
  apply only_bind.
  - apply only_bind; [done|]. intros now. apply silent_poll.
  - by intros [[[c|]|e]|].
Qed.

Lemma silent_adopt req fuel parent b :
  only (silent req) (adopt_pool_cluster fuel req parent b).
Proof.
  unfold adopt_pool_cluster. destruct (cr_UsePool req && _); [|done].
  apply only_bind; [done|]. intros [e|]; [done|]. apply only_bind; [|by intros [[[[? ?]|]|]|]].
  apply only_bind; [by split; [|by intros []]|]. intros [pools|e]; [|done].
  repeat case_match; try done. apply silent_search.
Qed.

(** What a creation leaves: nothing after an error, with the deletion of the
    secret requested if this call made it, or the branch. *)
Definition created (req : CreateRequest) (l : list outcome) (r : option (res error unit)) : Prop :=
  let n := cr_Id req +:+ "-app" in
  (l = [] ∨ ∃ refused, l = [SecretMade n; SecretDropRequested n refused]) ∧ r ≠ Some (Ok tt)
  ∨ l = [BranchStands] ∨ l = [SecretMade n; BranchStands].

Lemma silent_wakeup req b x m : only (silent req) (ensureWakeupRequest b x m).
Proof.
  unfold ensureWakeupRequest. apply only_bind; [done|].
  assert (only (silent req) (r ← perform (CreateWakeupRequest (new_wakeup b x m));
    mret (match r with
          | Some e => if api_already_exists e then Ok tt
                      else Err (Wrapf "create wakeup request" (ApiError e))
          | None => Ok tt
          end))) as Hc by (apply only_bind; [done|]; by intros [e|]).
  intros [w|e].
  - destruct (wu_Succeeded w) as [[]|]; try done; (apply only_bind; [done|]);
      (intros [e|]; [destruct (api_not_found e)|]; [apply Hc|done|apply Hc]).
  - destruct (api_not_found e); [apply Hc|done].
Qed.

Lemma wp_silent {A} req (p : prog A) acc (Q : list outcome → A → Prop) :
  only (silent req) p → (∀ a, Q acc a) → wp (outcome_of req) p acc Q.
Proof. intros Hp HQ. eapply wp_only; [exact Hp|apply silent_no_outcome|exact HQ]. Qed.

(** The last step cannot undo the branch. *)
Lemma wakeup_outcome req b parent acc :
  wp (outcome_of req) (map_err k8sErrorToGRPCError (createWakeupRequestForNewBranch b parent)) acc
    (λ l _, l = acc).
Proof.
  apply wp_silent; [|done]. apply only_bind; [|by intros []].
  unfold createWakeupRequestForNewBranch. destruct (negb _); [done|].
  destruct parent; [apply silent_wakeup|done].
Qed.

Lemma create_branch_outcome req b acc :
  wp (outcome_of req) (create_branch req b) acc
    (λ l r, match r with Ok _ => l = acc ++ [BranchStands] | Err _ => l = acc end).
Proof.
  unfold create_branch. apply (wp_perform _ (CreateBranch b)).
  intros [e|]; cbn [outcome_of]; [|by apply wp_return].
  destruct (api_already_exists e); [|by apply wp_return].
  apply wp_bind. intros [ex|e']; cbn [outcome_of].
  - rewrite bool_decide_eq_true_2 by done. simpl andb. unfold idempotent_match.
    destruct (negb _ && bool_decide _) eqn:Hm; simpl in *; by rewrite Hm.
  - done.
Qed.

Lemma createAppSecret_outcome req f n pw acc Q :
  Q acc (Ok None) → (∀ e, Q acc (Err e)) → Q (acc ++ [SecretMade n]) (Ok (Some n)) →
  wp (outcome_of req) (map_err f (createAppSecret n req pw)) acc Q.
Proof. intros H1 H2 H3 [e|]; simpl; [destruct (api_already_exists e); simpl; auto|done]. Qed.

Lemma create_resources_outcome req parent b pc :
  wp (outcome_of req) (create_resources req parent b pc) []
    (λ l r, created req l (Some r)).
Proof.
  unfold create_resources, created. apply wp_bind. apply wp_silent.
  { apply only_bind; [|by intros []]. destruct pc; simpl; (split; [done|]); by intros []. }
  intros [pw|e]; [|simpl; auto].
  apply wp_bind, createAppSecret_outcome; [|intros e; simpl; auto|].
  - apply wp_bind. eapply wp_mono; [|apply create_branch_outcome].
    intros l [b'|e'] ->; [|simpl; auto].
    eapply wp_mono; [|apply wakeup_outcome]. intros l r ->. auto.
  - apply wp_bind. eapply wp_mono; [|apply create_branch_outcome].
    intros l [b'|e'] ->; simpl.
    + eapply wp_mono; [|apply wakeup_outcome]. intros l r ->. auto.
    + intros d. left. split; [right; by exists d|done].
Qed.

(** C18. A failed creation deletes the secret it made: whatever the API server
    answers, [CreatePostgresCluster], for a branch that is not its own parent or
    source, either ends with an error, having made no application secret or
    having requested, once and after everything else, that the one it made is
    deleted, or it leaves the branch standing, created now or by an earlier
    attempt with the same idempotency key, and then deletes no secret.  A secret
    that existed before is never deleted, and at most one secret, named after
    the branch, is made.  The deletion is best effort: its answer is ignored,
    and if it is refused the secret stays
    ([Witness.refused_deletion_leaves_the_secret]). *)
Theorem failed_create_deletes_its_secret images config fuel req tr r :
  cr_ParentId req ≠ cr_Id req →
  (∀ source ts, cr_DataSource req = Some (ContinuousBackup source ts) → source ≠ cr_Id req) →
  runs (CreatePostgresCluster images config fuel req) tr r →
  created req (omap (outcome_of req) tr) r.
Proof.
  intros Hparent Hsource Hrun.
  assert (wp (outcome_of req) (CreatePostgresCluster images config fuel req) [] (created req)) as Hwp;
    [|exact (wp_sound _ _ [] _ _ _ Hwp Hrun)].
  assert (∀ e : error, created req [] (Some (Err e))) as Herr by (intros e; left; auto).
  unfold CreatePostgresCluster. apply wp_bind, wp_silent.
  { unfold parent_branch. case_bool_decide; [done|].
    split; [by simpl; rewrite bool_decide_eq_false_2|by intros []]. }
  intros [parent|e]; [|apply Herr]. apply wp_bind, wp_silent.
  { unfold restore_source. destruct (cr_DataSource req) as [[|source ts|]|] eqn:Hds; try done.
    case_bool_decide; [done|]. split; [|by intros []]. simpl.
    by rewrite bool_decide_eq_false_2 by (by eapply Hsource). }
  intros [[src restore]|e]; [|apply Herr].
  destruct (storage_classes config req parent) as [sc vsc].
  destruct (build_new _ _ _ _ _ _ _) as [b|p]; [|apply Herr].
  destruct (pgbackrest_of _ ≫= _); [apply Herr|].
  apply wp_bind, wp_silent; [apply silent_adopt|].
  intros [[[b' pc]|e]|]; [|apply Herr|left; auto].
  apply wp_bind. apply wp_bind. apply wp_silent.
  { destruct (negb _ && _); [|done]. split; [done|]. intros r'. done. }
  intros [[]|e]; [|apply Herr]. apply create_resources_outcome.
Qed.

End Clusters.

(** ** Witnesses *)

Module Witness.

Import BranchBuilder.Witness.

Definition config : Config := mkConfig "gp3" "ebs-snapshots" false builder.

(** 2 GiB less the memory of the pooler. *)
Definition pool_memory : Z := (2048 - 100) * (1024 * 1024 * 1000).

Definition pool : ClusterPool :=
  mkPool quantities "pg17-micro" (Some "gp3"%string) image (Some 500) (Some pool_memory) "10Gi".

Definition free : PoolCluster := mkPoolCluster "c1" "7" false "10Gi" 1.

Definition missing : api_error := mkApiError NotFound "not found".
Definition exists_ : api_error := mkApiError AlreadyExists "already exists".

(** The branch an earlier attempt with the same key created. *)
Definition earlier : Branch :=
  match build_new None builder "gp3" "ebs-snapshots" request None None with
  | Ok b => WithClusterFromPool "c0" "pg17-micro-slot" b
  | Err _ => mkBranch _ "" "" ∅ ∅
               (mkBranchSpec _ None (mkClusterSpec _ None "" 0
                  (mkRequirements _ (mkResources _ None None) (mkResources _ None None))
                  (mkStorage "" None None None None) None None None None None) None None None)
               (mkStatus "" "" "" "" "")
  end.

(** An API server: the free clusters of the pool, and whether the pool
    cluster's secret and the branch exist.  The state is the clock. *)
Definition world (cs : list PoolCluster) (secret branch : bool) : env resp Z := λ now c,
  match c as c0 return Z * resp c0 with
  | GetBranch _ => (now, if branch then Ok earlier else Err missing)
  | CreateBranch _ => (now, if branch then Some exists_ else None)
  | ListPools => (now, Ok [pool])
  | ListPoolClusters _ => (now, Ok cs)
  | Now => (now, now)
  | PollWait => (now + poolClusterPollInterval, None)
  | WaitForClusterCache => (now, None)
  | GetSecret n =>
      (now, if secret then Ok (mkSecret n ∅ {[ BasicAuthPasswordKey := "pw"%string ]}) else Err missing)
  | GeneratePassword => (now, Ok "generated"%string)
  | GetObjectStore _ => (now, Err missing)
  | GetWakeupRequest _ => (now, Err missing)
  | Backoff => (now, tt)
  | UpdateBranch _ | DeleteBranch _ | OrphanCluster _ | CreateSecret _ | UpdateSecret _
  | DeleteSecret _ | CreateWakeupRequest _ | DeleteWakeupRequest _ => (now, None)
  end.

Definition create (h : env resp Z) :=
  exec resp h 1000 (CreatePostgresCluster None config enough_polls request).

(** An empty pool: seventeen polls, then a branch with a cluster of its own. *)
Lemma CreatePostgresCluster_terminates_witness :
  (enough_polls ≤ 17)%nat ∧ clock_advances (create (world [] true false)).1.1
  ∧ is_Some (create (world [] true false)).2.
Proof.
  assert (clock_advances (create (world [] true false)).1.1) as Hclk.
  { exists 0. vm_compute. eauto. }
  split_and!; [done|exact Hclk|].
  exact (CreatePostgresCluster_terminates None config enough_polls request _ _ (le_n _)
           (exec_runs _ _ _) Hclk).
Defined.

Definition search := exec resp (world [free] true false) 0
  (findPoolCluster 1 "gp3" image "500m" "2042626048000m" "10Gi").

Lemma pool_search_claims_what_it_returns_witness :
  search.2 = Some (Ok (Some ("pg17-micro"%string, free)))
  ∧ claims (omap note_of search.1.1) = [free].
Proof.
  assert (search.2 = Some (Ok (Some ("pg17-micro"%string, free)))) as Hr by (vm_compute; reflexivity).
  split; [exact Hr|].
  destruct (pool_search_claims_what_it_returns 1 "gp3" image "500m" "2042626048000m" "10Gi"
              search.1.1 search.2 (exec_runs _ _ _)) as [Hc _].
  rewrite Hc. vm_compute. reflexivity.
Defined.

Definition b0 : Branch := earlier.

Definition wakeup := exec resp (world [] true false) 0
  (ensureWakeupRequest b0 "xvol-1" PasswordSyncModeSkip).

Lemma wakeup_in_progress_is_kept_witness : wakeup_ensured b0 "xvol-1" PasswordSyncModeSkip wakeup.1.1.
Proof.
  apply (wakeup_in_progress_is_kept b0 "xvol-1" PasswordSyncModeSkip wakeup.1.1 wakeup.2
           (exec_runs _ _ _)).
  vm_compute. reflexivity.
Defined.

Definition wake : UpdateConfiguration :=
  mkUpdate None None None None (Some false) None None None ∅ [] None None.

Definition waking := exec resp (world [] true true) 0 (UpdatePostgresCluster None config 5 "br1" wake).

Lemma wake_request_reaches_the_pool_witness :
  ∃ existing b,
    ev (GetBranch "br1") (Ok existing) ∈ waking.1.1 ∧ ev (UpdateBranch b) None ∈ waking.1.1
    ∧ (lifecycle_ok existing →
       phase_of b = phase_step (HasWakeupPoolAnnotation existing) (Some false) (phase_of existing)
       ∧ ∀ c, phase_of b ≠ Hibernated c)
    ∧ (HasWakeupPoolAnnotation existing = true →
       wakeup_ensured b (PrimaryXVolName (br_Status b)) PasswordSyncModeSkip waking.1.1).
Proof.
  apply (wake_request_reaches_the_pool None config 5 "br1" wake waking.1.1); [|reflexivity].
  assert (waking.2 = Ok tt) as <- by (vm_compute; reflexivity). apply exec_runs.
Defined.

(** The branch cannot be created and every deletion is answered with [d]. *)
Definition refusing (d : option api_error) : env resp Z := λ now c,
  match c as c0 return Z * resp c0 with
  | CreateBranch _ => (now, Some missing)
  | DeleteSecret _ => (now, d)
  | c => world [] true false now c
  end.

Lemma failed_create_deletes_its_secret_witness :
  (create (refusing None)).2 = Some (Err (k8sErrorToGRPCError (ApiError missing)))
  ∧ omap (outcome_of request) (create (refusing None)).1.1 =
    [SecretMade "br1-app"; SecretDropRequested "br1-app" None].
Proof.
  assert ((create (refusing None)).2 = Some (Err (k8sErrorToGRPCError (ApiError missing)))) as Hr by (vm_compute; reflexivity).
  split; [exact Hr|].
  destruct (failed_create_deletes_its_secret None config enough_polls request
    (create (refusing None)).1.1 (create (refusing None)).2) as [[[H|[d H]] _]|[H|H]].
  - done.
  - done.
  - apply exec_runs.
  - vm_compute in H. discriminate H.
  - rewrite H. vm_compute in H. injection H as <-. reflexivity.
  - vm_compute in H. discriminate H.
  - vm_compute in H. discriminate H.
Defined.

Lemma refused_deletion_leaves_the_secret :
  (create (refusing (Some missing))).2 = Some (Err (k8sErrorToGRPCError (ApiError missing)))
  ∧ omap (outcome_of request) (create (refusing (Some missing))).1.1 =
    [SecretMade "br1-app"; SecretDropRequested "br1-app" (Some missing)].
Proof. by vm_compute. Qed.

(** The claimed cluster is lost when the creation fails after the claim: it has
    no owner any more, no branch names it and nothing deletes it. *)
Lemma claimed_cluster_is_leaked_on_error :
  let '(tr, _, r) := create (world [free] false false) in
  claims (omap note_of tr) = [free] ∧ omap (outcome_of request) tr = []
  ∧ r = Some (Err (Wrapf "get app password" (Status FailedPrecondition
          "pool cluster c1 has no app secret c1-app"))).
Proof. vm_compute. done. Qed.

(** A retry with the same idempotency key claims another cluster and returns
    the branch of the first attempt. *)
Lemma claimed_cluster_is_leaked_on_retry :
  let '(tr, _, r) := create (world [free] true true) in
  claims (omap note_of tr) = [free] ∧ r = Some (Ok tt) ∧ ClusterName earlier = "c0"%string.
Proof. vm_compute. done. Qed.

End Witness.
