(* ===== verification/ClusterStatus.v ===== *)
(** * The status of a branch's cluster: [services/clusters/describe.go] and
    [DescribePostgresCluster]

    The phase names are CNPG's: a class.  A Go map from statuses to instance
    lists is an association list, in the order the loop visits it. *)

From stdpp Require Import pretty.
From S2P Require Import Prelude GoStrings GoFloat Kube PostgresVersions Extensions BranchTypes.
From S2P Require Import BranchBuilder.

#[local] Open Scope Z_scope.

(** The phases of [apiv1] that the code names. *)
Class CNPGPhases := {
  PhaseHealthy : string;
  transientClusterStates : list string
}.

(** The parts of a CNPG cluster that are described. *)
Record CNPGCluster := mkCNPG {
  cn_Annotations : gmap string string;
  cn_Phase : string;
  cn_Instances : Z;
  cn_ReadyInstances : Z;
  cn_InstancesStatus : list (string * list string);
  cn_InstanceNames : list string;
  cn_CurrentPrimary : string;
  cn_TargetPrimary : string
}.

Inductive StatusType :=
| STATUS_TYPE_TRANSIENT | STATUS_TYPE_HEALTHY | STATUS_TYPE_FAULT | STATUS_TYPE_HIBERNATED.

#[global] Instance StatusType_eq_dec : EqDecision StatusType.
Proof. solve_decision. Defined.

Record InstanceStatus := mkInstance {
  in_Status : string;
  in_Primary : bool;
  in_TargetPrimary : bool
}.

Record ClusterStatus := mkClusterStatus {
  cs_Status : string;
  cs_StatusType : StatusType;
  cs_InstanceCount : Z;
  cs_InstanceReadyCount : Z;
  cs_Instances : gmap string InstanceStatus
}.

Definition StatusUnknown : string := "unknown".
Definition InstanceStatusUnknown : string := "Unknown".
Definition hibernationAnnotation : string := "cnpg.io/hibernation".
Definition hibernationEnabled : string := "on".

Section Status.
Context `{CNPGPhases}.

Definition isTransientClusterState (value : string) : bool :=
  bool_decide (value ∈ transientClusterStates).

Definition phase_type (phase : string) : StatusType :=
  if bool_decide (phase = ""%string) then STATUS_TYPE_TRANSIENT
  else if bool_decide (phase = PhaseHealthy) then STATUS_TYPE_HEALTHY
  else if isTransientClusterState phase then STATUS_TYPE_TRANSIENT
  else STATUS_TYPE_FAULT.

(** The entry of an instance, created on first use with the given status. *)
Definition instance_or (status : string) (m : gmap string InstanceStatus) (i : string)
    : InstanceStatus :=
  default (mkInstance status false false) (m !! i).

Definition listed_instances (sts : list (string * list string)) (m : gmap string InstanceStatus)
    : gmap string InstanceStatus :=
  foldl (λ m st, foldl (λ m i,
           let e := instance_or "" m i in
           <[i := mkInstance st.1 (in_Primary e) (in_TargetPrimary e)]> m) m st.2) m sts.

Definition named_instances (names : list string) (m : gmap string InstanceStatus)
    : gmap string InstanceStatus :=
  foldl (λ m i, match m !! i with
                | Some _ => m
                | None => <[i := mkInstance InstanceStatusUnknown false false]> m
                end) m names.

Definition mark_primary (i : string) (m : gmap string InstanceStatus) : gmap string InstanceStatus :=
  if bool_decide (i = ""%string) then m
  else let e := instance_or InstanceStatusUnknown m i in
       <[i := mkInstance (in_Status e) true (in_TargetPrimary e)]> m.

Definition mark_target (i : string) (m : gmap string InstanceStatus) : gmap string InstanceStatus :=
  if bool_decide (i = ""%string) then m
  else let e := instance_or InstanceStatusUnknown m i in
       <[i := mkInstance (in_Status e) (in_Primary e) true]> m.

Definition instances_of (cluster : CNPGCluster) : gmap string InstanceStatus :=
  let m := listed_instances (cn_InstancesStatus cluster) ∅ in
  let m := match cn_InstancesStatus cluster with
           | [] => named_instances (cn_InstanceNames cluster) m
           | _ => m
           end in
  mark_target (cn_TargetPrimary cluster) (mark_primary (cn_CurrentPrimary cluster) m).

Definition instancesReconciled (ready count : Z) (m : gmap string InstanceStatus) : bool :=
  negb (ready <? count)
  && forallb (λ ki, negb (bool_decide (in_Status ki.2 = InstanceStatusUnknown))) (map_to_list m).

Definition BuildClusterStatus (cluster : CNPGCluster) : ClusterStatus :=
  let clusterStatus :=
    if bool_decide (cn_Phase cluster = ""%string) then StatusUnknown else cn_Phase cluster in
  let statusType :=
    if bool_decide (cn_Annotations cluster !! hibernationAnnotation = Some hibernationEnabled)
    then STATUS_TYPE_HIBERNATED else phase_type (cn_Phase cluster) in
  let instances := instances_of cluster in
  let statusType :=
    if bool_decide (statusType = STATUS_TYPE_HEALTHY)
       && negb (instancesReconciled (cn_ReadyInstances cluster) (cn_Instances cluster) instances)
    then STATUS_TYPE_TRANSIENT else statusType in
  mkClusterStatus clusterStatus statusType (cn_Instances cluster) (cn_ReadyInstances cluster)
    instances.

(** ** [DescribePostgresCluster]: the status part *)

(** [lookup] is the cluster named by the branch: [None] when it is not found. *)
Definition described_status `{Quantities} (branch : Branch) (lookup : option CNPGCluster)
    : ClusterStatus :=
  let default_status :=
    mkClusterStatus PhaseHealthy
      (if IsAwaitingWakeup branch then STATUS_TYPE_TRANSIENT else STATUS_TYPE_HIBERNATED) 0 0 ∅ in
  if HasClusterName branch
  then match lookup with Some cluster => BuildClusterStatus cluster | None => default_status end
  else default_status.

(** [quantityGi] truncates to int32. *)
Definition quantityGi `{Quantities} (q : Quantity) : Z :=
  to_int32 (Z.quot (QuantityValue q) (1024 * 1024 * 1024)).

Definition quantityGiStringWithPoolerReservation `{Quantities} (q : Quantity) : string :=
  pretty (quantityGi (QuantityAdd q poolerMemoryReservation)).

Definition formatCPUResource (milliCPUs : Z) : string :=
  if milliCPUs <? 1000 then pretty milliCPUs +:+ "m" else pretty (Z.quot milliCPUs 1000).

(** ** Properties *)

Lemma BuildClusterStatus_healthy cluster :
  cs_StatusType (BuildClusterStatus cluster) = STATUS_TYPE_HEALTHY →
  cn_Phase cluster = PhaseHealthy
  ∧ cn_Annotations cluster !! hibernationAnnotation ≠ Some hibernationEnabled
  ∧ instancesReconciled (cn_ReadyInstances cluster) (cn_Instances cluster)
      (instances_of cluster) = true.
Proof.
  unfold BuildClusterStatus. simpl.
  destruct (decide (cn_Annotations cluster !! hibernationAnnotation
                    = Some hibernationEnabled)) as [Hh|Hh].
  { rewrite (bool_decide_eq_true_2 _ Hh). done. }
  rewrite (bool_decide_eq_false_2 _ Hh).
  destruct (decide (phase_type (cn_Phase cluster) = STATUS_TYPE_HEALTHY)) as [Hp|Hp].
  - rewrite Hp. destruct (instancesReconciled _ _ _) eqn:Hr; simpl; [|done]. intros _.
    split_and!; [|done..]. revert Hp. unfold phase_type.
    do 2 (case_bool_decide; [done|]). by destruct (isTransientClusterState _).
  - rewrite (bool_decide_eq_false_2 _ Hp). done.
Qed.

(** A cluster is described as healthy only when its phase is healthy, it is not
    hibernated, at least as many instances are ready as it has, and no
    instance, primary or target has an unknown status. *)
Theorem healthy_status_is_reconciled cluster i s :
  cs_StatusType (BuildClusterStatus cluster) = STATUS_TYPE_HEALTHY →
  cs_Instances (BuildClusterStatus cluster) !! i = Some s →
  cn_Phase cluster = PhaseHealthy
  ∧ cn_Annotations cluster !! hibernationAnnotation ≠ Some hibernationEnabled
  ∧ cn_Instances cluster ≤ cn_ReadyInstances cluster
  ∧ in_Status s ≠ InstanceStatusUnknown.
Proof.
  intros (Hp & Hh & [Hr Hall]%andb_true_iff)%BuildClusterStatus_healthy Hi.
  split_and!; [done..| |].
  - apply negb_true_iff, Z.ltb_ge in Hr. done.
  - rewrite forallb_forall in Hall. specialize (Hall (i, s)).
    rewrite <- list_elem_of_In, elem_of_map_to_list in Hall. specialize (Hall Hi).
    by apply negb_true_iff, bool_decide_eq_false in Hall.
Qed.

(** The description of a branch agrees with its life cycle: a waking branch is
    transient, a hibernated pool branch is hibernated, and a branch with a
    cluster shows that cluster's status while it exists. *)
Theorem described_status_follows_phase `{Quantities} branch lookup :
  match phase_of branch with
  | Waking => cs_StatusType (described_status branch lookup) = STATUS_TYPE_TRANSIENT
  | Hibernated None => cs_StatusType (described_status branch lookup) = STATUS_TYPE_HIBERNATED
  | Running _ | Hibernated (Some _) =>
      ∀ cluster, lookup = Some cluster →
      described_status branch lookup = BuildClusterStatus cluster
  end.
Proof.
  unfold phase_of, described_status, HasClusterName.
  destruct (Name (Cluster (br_Spec branch))) as [n|].
  - rewrite bool_decide_eq_true_2 by by eexists.
    destruct (negb _ && _); by intros c ->.
  - rewrite bool_decide_eq_false_2 by by intros [].
    by destruct (IsAwaitingWakeup branch).
Qed.

End Status.

Module Witness.

#[local] Instance phases : CNPGPhases :=
  {| PhaseHealthy := "Cluster in healthy state";
     transientClusterStates := ["Failing over"; "Switchover in progress"]%string |}.

Definition healthy : CNPGCluster :=
  mkCNPG ∅ "Cluster in healthy state" 1 1 [("healthy"%string, ["c1-1"%string])] ["c1-1"%string]
    "c1-1" "c1-1".

Lemma healthy_status_is_reconciled_witness :
  cn_Phase healthy = PhaseHealthy
  ∧ cn_Annotations healthy !! hibernationAnnotation ≠ Some hibernationEnabled
  ∧ cn_Instances healthy ≤ cn_ReadyInstances healthy
  ∧ in_Status (mkInstance "healthy" true true) ≠ InstanceStatusUnknown.
Proof.
  apply (healthy_status_is_reconciled healthy "c1-1"); vm_compute; reflexivity.
Defined.

End Witness.
