(* ===== verification/Organizations.v ===== *)
(** * Organizations as Keycloak attributes: [services/auth/keycloak]

    An organization's state lives in the multi-valued attributes of a Keycloak
    organization.  This file has the attributes and what is derived from them
    ([organization.go], [marketplace.go] and the pure functions of
    [keycloak_rest.go]), and shows that what is written is what is read back. *)

From S2P Require Import Prelude GoStrings GoFloat GoTime.

#[local] Open Scope Z_scope.

(** ** organization.go *)

Abbreviation attributes := (gmap string (list string)).

Definition OrganizationDisplayNameKey : string := "displayName".
Definition OrganizationDisabledByAdminKey : string := "disabledByAdmin".
Definition OrganizationBillingStatusKey : string := "billingStatus".
Definition OrganizationForceBillingStatusOkKey : string := "forceBillingStatusOk".
Definition OrganizationBillingCollectionMethodKey : string := "billingCollectionMethod".
Definition OrganizationAdminReasonKey : string := "adminReason".
Definition OrganizationBillingReasonKey : string := "billingReason".
Definition OrganizationLastUpdatedKey : string := "lastUpdated".
Definition OrganizationCreatedAtKey : string := "createdAt".
Definition OrganizationResourcesCleanedAtKey : string := "resourcesCleanedAt".
Definition OrganizationDeletedAtKey : string := "deletedAt".
Definition OrganizationSSODomainsMissingSinceKey : string := "ssoDomainsMissingSince".
Definition OrganizationSSOPendingDomainsKey : string := "ssoPendingDomains".
Definition OrganizationUsageTierKey : string := "usageTier".
Definition OrganizationMarketplaceKey : string := "marketplace".
Definition OrganizationAWSCustomerIDKey : string := "awsCustomerId".
Definition OrganizationAWSProductIDKey : string := "awsProductId".
Definition OrganizationAWSAccountIDKey : string := "awsAccountId".
Definition OrganizationVercelInstallationIDKey : string := "vercelInstallationId".
Definition OrganizationVercelAccountIDKey : string := "vercelAccountId".
Definition OrganizationVercelAccountEmailKey : string := "vercelAccountEmail".

(** The string types [OrganizationBillingStatus], [..CollectionMethod],
    [OrganizationUsageTier], [..MarketplaceProvider] and [OrganizationState]
    are strings: any value can be read or requested. *)
Definition BillingStatusOK : string := "ok".
Definition BillingStatusNoPaymentMethod : string := "no_payment_method".
Definition BillingStatusInvoiceOverdue : string := "invoice_overdue".
Definition BillingStatusDeletionRequested : string := "deletion_requested".
Definition BillingStatusUnknown : string := "unknown".

Definition MethodUnknown : string := "unknown".
Definition MethodStripePaymentMethod : string := "stripe_payment_method".
Definition MethodMarketplace : string := "marketplace".
Definition MethodBankTransfer : string := "bank_transfer".

(** [OrganizationBillingCollectionMethod.Valid] *)
Definition valid_method (m : string) : bool :=
  bool_decide (m ∈ [MethodStripePaymentMethod; MethodMarketplace; MethodBankTransfer]).

Definition UsageTierT1 : string := "t1".
Definition UsageTierT2 : string := "t2".
Definition MarketplaceProviderAWS : string := "aws".
Definition MarketplaceProviderVercel : string := "vercel".
Definition StateEnabled : string := "enabled".
Definition StateDisabled : string := "disabled".

Record AWSMarketplace := mkAWS {
  CustomerID : string;
  ProductID : string;
  aws_AccountID : string
}.

Record VercelMarketplace := mkVercel {
  InstallationID : string;
  vercel_AccountID : string;
  Email : string
}.

(** [MarketplaceAttributes] *)
Inductive MarketplaceAttributes :=
| AWS (m : AWSMarketplace)
| Vercel (m : VercelMarketplace).

Record OrganizationStatus := mkOrgStatus {
  DisabledByAdmin : bool;
  BillingStatus : string;
  AdminReason : option string;
  BillingReason : option string;
  LastUpdated : Z;
  CreatedAt : option Z;
  DeletedAt : option Z;
  UsageTier : string
}.

Definition EffectiveState (s : OrganizationStatus) : string :=
  if negb (DisabledByAdmin s) && bool_decide (BillingStatus s = BillingStatusOK)
  then StateEnabled else StateDisabled.

Record Organization := mkOrganization {
  org_ID : string;
  org_Name : string;
  BillingCollectionMethod : string;
  ForceBillingStatusOk : bool;
  Marketplace : option string;
  org_AWSMarketplace : option AWSMarketplace;
  org_VercelMarketplace : option VercelMarketplace;
  Status : OrganizationStatus
}.

Record Domain := mkDomain {
  dom_Name : string;
  Verified : bool;
  IdentityProviderAlias : string;
  AutoRedirect : bool
}.

Record KeycloakOrganization := mkKeycloakOrganization {
  kc_ID : string;
  kc_Name : string;
  kc_Alias : string;
  kc_Description : string;
  kc_Domains : list Domain;
  kc_Attributes : attributes;
  kc_RedirectURL : string;
  kc_Enabled : option bool
}.

Definition MaxOrganizationMembers : nat := 100.

Record OrganizationMember := mkMember {
  mem_ID : string;
  mem_Email : string;
  mem_Name : string
}.

Record SSOOrganization := mkSSO {
  sso_Alias : string;
  sso_Domains : list Domain;
  PendingDomains : list string;
  DomainsMissingSince : string
}.

Record OrganizationCreate := mkOrganizationCreate {
  cr_Name : string;
  cr_Marketplace : option MarketplaceAttributes;
  cr_UsageTier : string;
  cr_BillingStatus : string;
  cr_BillingReason : string;
  cr_BillingCollectionMethod : string
}.

Record OrganizationUpdate := mkOrganizationUpdate {
  up_Name : option string;
  up_BillingStatus : option string;
  up_BillingReason : option string;
  up_AdminReason : option string;
  up_DisabledByAdmin : option bool;
  up_ForceBillingStatusOk : option bool;
  up_ResourcesCleanedAt : option string;
  up_UsageTier : option string;
  up_BillingCollectionMethod : option string;
  up_SSOPendingDomains : option string;
  up_SSODomainsMissingSince : option string
}.

Definition no_update : OrganizationUpdate :=
  mkOrganizationUpdate None None None None None None None None None None None.

(** ** Reading attributes *)

(** The value and whether it counts: a blank one does not.  The value is only
    used together with the flag. *)
Definition FirstAttr (attrs : attributes) (key : string) : option string :=
  match attrs !! key with
  | Some (v :: _) => let s := TrimSpace v in if bool_decide (s = "") then None else Some s
  | _ => None
  end.

Definition attr_or (attrs : attributes) (key dflt : string) : string :=
  default dflt (FirstAttr attrs key).

Definition AWSMarketplaceFromKeycloakAttributes (attrs : attributes) : AWSMarketplace :=
  mkAWS (attr_or attrs OrganizationAWSCustomerIDKey "") (attr_or attrs OrganizationAWSProductIDKey "")
    (attr_or attrs OrganizationAWSAccountIDKey "").

Definition VercelMarketplaceFromKeycloakAttributes (attrs : attributes) : VercelMarketplace :=
  mkVercel (attr_or attrs OrganizationVercelInstallationIDKey "")
    (attr_or attrs OrganizationVercelAccountIDKey "")
    (attr_or attrs OrganizationVercelAccountEmailKey "").

Definition extractBillingCollectionMethod (attrs : attributes) : string :=
  match FirstAttr attrs OrganizationBillingCollectionMethodKey with
  | Some value => if valid_method value then value else MethodUnknown
  | None => MethodUnknown
  end.

(** The zero [time.Time], 1 January of year 1. *)
Definition zero_time : Z := -62135596800 * Second.

Definition attr_time (attrs : attributes) (key : string) : option Z :=
  FirstAttr attrs key ≫= ParseRFC3339.

Section Runtime.
Context `{GoRuntime}.

Definition extractStatus (attrs : attributes) : OrganizationStatus :=
  mkOrgStatus
    (match FirstAttr attrs OrganizationDisabledByAdminKey with
     | Some v => bool_decide (ToLower v = "true")
     | None => false
     end)
    (match FirstAttr attrs OrganizationBillingStatusKey with
     | Some v =>
         if bool_decide (v ∈ [BillingStatusOK; BillingStatusInvoiceOverdue;
                              BillingStatusNoPaymentMethod; BillingStatusDeletionRequested])
         then v else BillingStatusUnknown
     | None => BillingStatusOK
     end)
    (FirstAttr attrs OrganizationAdminReasonKey)
    (FirstAttr attrs OrganizationBillingReasonKey)
    (match attr_time attrs OrganizationLastUpdatedKey with
     | Some t => if t =? zero_time then 0 else t
     | None => 0
     end)
    (attr_time attrs OrganizationCreatedAtKey)
    (attr_time attrs OrganizationDeletedAtKey)
    (match FirstAttr attrs OrganizationUsageTierKey with
     | Some v => if bool_decide (v = UsageTierT2) then UsageTierT2 else UsageTierT1
     | None => UsageTierT1
     end).

Definition OrganizationFromAttributes (alias : string) (attrs : attributes) : Organization :=
  let marketplace := FirstAttr attrs OrganizationMarketplaceKey in
  mkOrganization alias "" (extractBillingCollectionMethod attrs)
    (match FirstAttr attrs OrganizationForceBillingStatusOkKey with
     | Some v => EqualFold v "true"
     | None => false
     end)
    marketplace
    (if bool_decide (marketplace = Some MarketplaceProviderAWS)
     then Some (AWSMarketplaceFromKeycloakAttributes attrs) else None)
    (if bool_decide (marketplace = Some MarketplaceProviderVercel)
     then Some (VercelMarketplaceFromKeycloakAttributes attrs) else None)
    (extractStatus attrs).

Definition displayName (name : string) (attrs : attributes) : string :=
  match attrs !! OrganizationDisplayNameKey with Some (v :: _) => v | _ => name end.

Definition set_org_name (name : string) (o : Organization) : Organization :=
  mkOrganization (org_ID o) name (BillingCollectionMethod o) (ForceBillingStatusOk o)
    (Marketplace o) (org_AWSMarketplace o) (org_VercelMarketplace o) (Status o).

Definition convertToOrganization (org : KeycloakOrganization) : Organization :=
  set_org_name (displayName (kc_Name org) (kc_Attributes org))
    (OrganizationFromAttributes (kc_Alias org) (kc_Attributes org)).
End Runtime.

(** ** Writing attributes *)

Definition BuildKeycloakAttributes (m : MarketplaceAttributes) : attributes :=
  match m with
  | AWS a =>
      list_to_map [(OrganizationMarketplaceKey, [MarketplaceProviderAWS]);
        (OrganizationAWSCustomerIDKey, [CustomerID a]);
        (OrganizationAWSProductIDKey, [ProductID a]);
        (OrganizationAWSAccountIDKey, [aws_AccountID a])]
  | Vercel v =>
      list_to_map [(OrganizationMarketplaceKey, [MarketplaceProviderVercel]);
        (OrganizationVercelInstallationIDKey, [InstallationID v]);
        (OrganizationVercelAccountIDKey, [vercel_AccountID v]);
        (OrganizationVercelAccountEmailKey, [Email v])]
  end.

(** [Validate], as the name of the field that is missing. *)
Definition validate_marketplace (m : MarketplaceAttributes) : option string :=
  match m with
  | AWS a =>
      if bool_decide (CustomerID a = "") then Some "aws marketplace: customerID is required"
      else if bool_decide (ProductID a = "") then Some "aws marketplace: productID is required"
      else if bool_decide (aws_AccountID a = "") then Some "aws marketplace: accountID is required"
      else None
  | Vercel v =>
      if bool_decide (InstallationID v = "") then Some "vercel marketplace: installationID is required"
      else if bool_decide (vercel_AccountID v = "") then Some "vercel marketplace: accountID is required"
      else None
  end.

Definition buildCreateOrganizationPayload (frontendURL : string) (now : Z) (id : string)
    (params : OrganizationCreate) : KeycloakOrganization :=
  let stamp := FormatRFC3339 now in
  let attrs := list_to_map
    [(OrganizationDisplayNameKey, [cr_Name params]);
     (OrganizationDisabledByAdminKey, ["false"]);
     (OrganizationBillingStatusKey, [cr_BillingStatus params]);
     (OrganizationBillingReasonKey, [cr_BillingReason params]);
     (OrganizationUsageTierKey, [cr_UsageTier params]);
     (OrganizationLastUpdatedKey, [stamp]);
     (OrganizationCreatedAtKey, [stamp]);
     (OrganizationBillingCollectionMethodKey, [cr_BillingCollectionMethod params])] : attributes in
  mkKeycloakOrganization "" id id "" []
    (match cr_Marketplace params with
     | Some m => BuildKeycloakAttributes m ∪ attrs
     | None => attrs
     end)
    (frontendURL +:+ "/organizations/" +:+ id) None.

Definition show_bool (b : bool) : string := if b then "true" else "false".

Definition one_attr {A} (key : string) (show : A → string) (v : option A) : attributes :=
  match v with Some v => {[ key := [show v] ]} | None => ∅ end.

(** An attribute that the empty string deletes. *)
Definition clearable (key : string) (v : option string) : attributes :=
  match v with Some v => if bool_decide (v = "") then ∅ else {[ key := [v] ]} | None => ∅ end.
Definition cleared (key : string) (v : option string) (attrs : attributes) : attributes :=
  if bool_decide (v = Some "") then delete key attrs else attrs.

(** The attributes an update sets ([updates]). *)
Definition updates_of (u : OrganizationUpdate) : attributes :=
  one_attr OrganizationDisplayNameKey id (up_Name u) ∪
  one_attr OrganizationDisabledByAdminKey show_bool (up_DisabledByAdmin u) ∪
  one_attr OrganizationForceBillingStatusOkKey show_bool (up_ForceBillingStatusOk u) ∪
  one_attr OrganizationBillingStatusKey id (up_BillingStatus u) ∪
  one_attr OrganizationAdminReasonKey id (up_AdminReason u) ∪
  one_attr OrganizationBillingReasonKey id (up_BillingReason u) ∪
  one_attr OrganizationUsageTierKey id (up_UsageTier u) ∪
  one_attr OrganizationBillingCollectionMethodKey id (up_BillingCollectionMethod u) ∪
  clearable OrganizationSSOPendingDomainsKey (up_SSOPendingDomains u) ∪
  clearable OrganizationResourcesCleanedAtKey (up_ResourcesCleanedAt u) ∪
  clearable OrganizationSSODomainsMissingSinceKey (up_SSODomainsMissingSince u).

Definition changes_nothing (u : OrganizationUpdate) : bool :=
  bool_decide (updates_of u = ∅) && negb (bool_decide (up_ResourcesCleanedAt u = Some ""))
  && negb (bool_decide (up_SSODomainsMissingSince u = Some ""))
  && negb (bool_decide (up_SSOPendingDomains u = Some "")).

Definition apply_update (now : Z) (u : OrganizationUpdate) (attrs : attributes) : attributes :=
  <[OrganizationLastUpdatedKey := [FormatRFC3339 now]]>
  (cleared OrganizationSSOPendingDomainsKey (up_SSOPendingDomains u)
  (cleared OrganizationSSODomainsMissingSinceKey (up_SSODomainsMissingSince u)
  (cleared OrganizationResourcesCleanedAtKey (up_ResourcesCleanedAt u)
  (updates_of u ∪ attrs)))).

Definition set_attributes (attrs : attributes) (org : KeycloakOrganization) : KeycloakOrganization :=
  mkKeycloakOrganization (kc_ID org) (kc_Name org) (kc_Alias org) (kc_Description org)
    (kc_Domains org) attrs (kc_RedirectURL org) (kc_Enabled org).

Definition set_domains (domains : list Domain) (org : KeycloakOrganization) : KeycloakOrganization :=
  mkKeycloakOrganization (kc_ID org) (kc_Name org) (kc_Alias org) (kc_Description org)
    domains (kc_Attributes org) (kc_RedirectURL org) (kc_Enabled org).

Definition is_deleted (org : KeycloakOrganization) : bool :=
  bool_decide (is_Some (FirstAttr (kc_Attributes org) OrganizationDeletedAtKey)).

(** ** Time stamps have no space around them *)

Definition graphic (c : ascii) : bool := (33 <=? byte_val c) && (byte_val c <=? 126).

Lemma strip_all_graphic fuel c t :
  graphic c = true → strip_all fuel space_runes (String c t) = String c t.
Proof.
  intros Hc. destruct fuel; [done|]. cbn [strip_all].
  replace (strip_one space_runes (String c t)) with (@None string); [done|].
  destruct c as [[] [] [] [] [] [] [] []]; (discriminate Hc || reflexivity).
Qed.

Lemma strip_all_graphic_rev fuel c t :
  graphic c = true →
  strip_all fuel (map string_rev space_runes) (String c t) = String c t.
Proof.
  intros Hc. destruct fuel; [done|]. cbn [strip_all].
  replace (strip_one (map string_rev space_runes) (String c t)) with (@None string); [done|].
  destruct c as [[] [] [] [] [] [] [] []]; (discriminate Hc || reflexivity).
Qed.

Lemma string_rev_app_cons s t acc : string_rev_app (s +:+ t) acc = string_rev_app t (string_rev_app s acc).
Proof. revert acc. induction s as [|c s IH]; intros acc; simpl; [done|apply IH]. Qed.

Lemma string_rev_rev s acc acc' :
  string_rev_app (string_rev_app s acc) acc' = string_rev_app acc (s +:+ acc').
Proof. revert acc acc'. induction s as [|c s IH]; intros; simpl; [done|]. by rewrite IH. Qed.

(** A string between two visible ASCII characters. *)
Lemma TrimSpace_graphic c t s d :
  String c t = s +:+ String d "" → graphic c = true → graphic d = true →
  TrimSpace (String c t) = String c t.
Proof.
  intros Heq Hc Hd. unfold TrimSpace. rewrite strip_all_graphic by done.
  assert (∃ r, string_rev (String c t) = String d r) as [r Hr].
  { rewrite Heq. unfold string_rev. rewrite string_rev_app_cons. simpl. eauto. }
  rewrite Hr, strip_all_graphic_rev by done. rewrite <- Hr. unfold string_rev.
  rewrite string_rev_rev. simpl. by rewrite append_nil_r.
Qed.

(** The year has at least four digits, and the last character is the Z. *)
Lemma FormatRFC3339_trimmed t : printable t → TrimSpace (FormatRFC3339 t) = FormatRFC3339 t.
Proof.
  unfold printable, FormatRFC3339, FormatDate.
  destruct (civil_of_days (t / Second / 86400)) as [[y m] d]. intros Hy.
  set (stamp := (appendInt y 4 +:+ _) +:+ _).
  assert (∃ tl, stamp = appendInt y 4 +:+ tl) as [tl Hyear] by (eexists; apply append_assoc).
  assert (∃ date, stamp = date +:+ "Z") as [date Hz].
  { unfold stamp. eexists. rewrite <- !append_assoc. reflexivity. }
  clearbody stamp. pose proof (digits_year y tl ltac:(lia)) as Hdigits. rewrite <- Hyear in Hdigits.
  destruct stamp as [|c s]; [done|]. cbn [digits] in Hdigits.
  destruct (is_digit c) eqn:Hc; [|done]. unfold is_digit in Hc.
  eapply TrimSpace_graphic; [exact Hz| |done]. unfold graphic. lia.
Qed.

(** ** What is written is read back *)

Lemma one_attr_eq {A} key (show : A → string) v : one_attr key show v !! key = (λ x, [show x]) <$> v.
Proof. destruct v; simpl; [apply lookup_singleton_eq|apply lookup_empty]. Qed.
Lemma one_attr_ne {A} key key' (show : A → string) v :
  key' ≠ key → one_attr key' show v !! key = None.
Proof. intros. destruct v; simpl; [by apply lookup_singleton_ne|apply lookup_empty]. Qed.
Lemma clearable_eq key v :
  clearable key v !! key = v ≫= λ x, if bool_decide (x = "") then None else Some [x].
Proof. destruct v; simpl; [case_bool_decide; [apply lookup_empty|apply lookup_singleton_eq]|apply lookup_empty]. Qed.
Lemma clearable_ne key key' v : key' ≠ key → clearable key' v !! key = None.
Proof.
  intros. destruct v; simpl; [case_bool_decide|]; by rewrite ?lookup_empty, ?lookup_singleton_ne.
Qed.
Lemma cleared_ne key key' v attrs : key' ≠ key → cleared key' v attrs !! key = attrs !! key.
Proof. intros. unfold cleared. case_bool_decide; [by apply lookup_delete_ne|done]. Qed.

(** The lookup of a key in an updated map, in terms of the one field of the
    update that has this key. *)
Ltac updated_lookup :=
  unfold apply_update, updates_of;
  rewrite ?lookup_insert_ne by done; rewrite ?cleared_ne by done;
  rewrite ?lookup_union, ?one_attr_eq;
  repeat rewrite one_attr_ne by done; repeat rewrite clearable_ne by done;
  rewrite ?(left_id_L None (∪)), ?(right_id_L None (∪)); reflexivity.

Section ReadBack.
Context {rt : GoRuntime}.
Variable now : Z.
Variable u : OrganizationUpdate.
Variable attrs : attributes.

(** The value of an attribute after the update: the new one when there is one. *)
Definition new_or_old {A} (show : A → string) (v : option A) (old : option string) : option string :=
  match v with
  | Some x => let s := TrimSpace (show x) in if bool_decide (s = "") then None else Some s
  | None => old
  end.

Lemma FirstAttr_updated {A} key (show : A → string) (v : option A) :
  apply_update now u attrs !! key = ((λ x, [show x]) <$> v) ∪ attrs !! key →
  FirstAttr (apply_update now u attrs) key = new_or_old show v (FirstAttr attrs key).
Proof. unfold FirstAttr. intros ->. by destruct v, (attrs !! key). Qed.

Lemma FirstAttr_kept key :
  apply_update now u attrs !! key = attrs !! key →
  FirstAttr (apply_update now u attrs) key = FirstAttr attrs key.
Proof. unfold FirstAttr. by intros ->. Qed.

Lemma FirstAttr_stamp : printable now →
  FirstAttr (apply_update now u attrs) OrganizationLastUpdatedKey = Some (FormatRFC3339 now).
Proof.
  intros Hp. unfold FirstAttr, apply_update. rewrite lookup_insert_eq. simpl.
  rewrite FormatRFC3339_trimmed by done.
  pose proof (ParseRFC3339_FormatRFC3339 now Hp) as Hr.
  case_bool_decide as He; [|done]. by rewrite He in Hr.
Qed.

(** What an update means: the fields it names change, to the value as it is
    read; the others stay. *)
Definition trimmed (s : string) : option string :=
  let s := TrimSpace s in if bool_decide (s = "") then None else Some s.

Definition updated_status (old : OrganizationStatus) : OrganizationStatus :=
  mkOrgStatus
    (default (DisabledByAdmin old) (up_DisabledByAdmin u))
    (from_option (λ v, match trimmed v with
       | None => BillingStatusOK
       | Some v => if bool_decide (v ∈ [BillingStatusOK; BillingStatusInvoiceOverdue;
                      BillingStatusNoPaymentMethod; BillingStatusDeletionRequested])
                   then v else BillingStatusUnknown
       end) (BillingStatus old) (up_BillingStatus u))
    (from_option trimmed (AdminReason old) (up_AdminReason u))
    (from_option trimmed (BillingReason old) (up_BillingReason u))
    (let t := now / Second * Second in if t =? zero_time then 0 else t)
    (CreatedAt old) (DeletedAt old)
    (from_option (λ v, if bool_decide (TrimSpace v = UsageTierT2) then UsageTierT2 else UsageTierT1)
       (UsageTier old) (up_UsageTier u)).

Definition updated_organization (old : Organization) : Organization :=
  mkOrganization (org_ID old) (default (org_Name old) (up_Name u))
    (from_option (λ v, match trimmed v with
       | None => MethodUnknown
       | Some v => if valid_method v then v else MethodUnknown
       end) (BillingCollectionMethod old) (up_BillingCollectionMethod u))
    (default (ForceBillingStatusOk old) (up_ForceBillingStatusOk u))
    (Marketplace old) (org_AWSMarketplace old) (org_VercelMarketplace old)
    (updated_status (Status old)).

Lemma status_updated : printable now →
  extractStatus (apply_update now u attrs) = updated_status (extractStatus attrs).
Proof.
  intros Hp. unfold extractStatus, attr_time. cbv zeta.
  rewrite (FirstAttr_updated OrganizationDisabledByAdminKey show_bool (up_DisabledByAdmin u)) by updated_lookup.
  rewrite (FirstAttr_updated OrganizationBillingStatusKey id (up_BillingStatus u)) by updated_lookup.
  rewrite (FirstAttr_updated OrganizationAdminReasonKey id (up_AdminReason u)) by updated_lookup.
  rewrite (FirstAttr_updated OrganizationBillingReasonKey id (up_BillingReason u)) by updated_lookup.
  rewrite (FirstAttr_updated OrganizationUsageTierKey id (up_UsageTier u)) by updated_lookup.
  rewrite (FirstAttr_kept OrganizationCreatedAtKey), (FirstAttr_kept OrganizationDeletedAtKey) by updated_lookup.
  rewrite FirstAttr_stamp by done.
  unfold updated_status. f_equal.
  - by destruct (up_DisabledByAdmin u) as [[]|].
  - by destruct (up_BillingStatus u).
  - simpl. by rewrite ParseRFC3339_FormatRFC3339.
  - destruct (up_UsageTier u) as [v|]; [|done]. simpl. unfold id.
    destruct (decide (TrimSpace v = "")) as [->|?]; [done|]. by rewrite bool_decide_eq_false_2.
Qed.

Lemma marketplace_updated key :
  key ∈ [OrganizationMarketplaceKey; OrganizationAWSCustomerIDKey; OrganizationAWSProductIDKey;
         OrganizationAWSAccountIDKey; OrganizationVercelInstallationIDKey;
         OrganizationVercelAccountIDKey; OrganizationVercelAccountEmailKey] →
  FirstAttr (apply_update now u attrs) key = FirstAttr attrs key.
Proof.
  intros Hk. apply FirstAttr_kept. rewrite !elem_of_cons, elem_of_nil in Hk.
  destruct_or!; subst key; updated_lookup.
Qed.
End ReadBack.

(** An update of an organization is read back: reading the attributes an
    update writes gives the organization with the fields the update names
    replaced, the time of the update to the second, and every other field
    (its creation, its deletion, its marketplace) as it was. *)
Theorem update_reads_back {rt : GoRuntime} now u org :
  printable now →
  convertToOrganization (set_attributes (apply_update now u (kc_Attributes org)) org) =
  updated_organization now u (convertToOrganization org).
Proof.
  intros Hp. unfold convertToOrganization, updated_organization, set_org_name, OrganizationFromAttributes,
    extractBillingCollectionMethod, AWSMarketplaceFromKeycloakAttributes,
    VercelMarketplaceFromKeycloakAttributes, attr_or. simpl.
  rewrite (FirstAttr_updated _ _ _ OrganizationForceBillingStatusOkKey show_bool (up_ForceBillingStatusOk u))
    by updated_lookup.
  rewrite (FirstAttr_updated _ _ _ OrganizationBillingCollectionMethodKey id (up_BillingCollectionMethod u))
    by updated_lookup.
  rewrite !marketplace_updated by (rewrite !elem_of_cons; tauto). rewrite status_updated by done.
  f_equal.
  - unfold displayName.
    replace (apply_update now u (kc_Attributes org) !! OrganizationDisplayNameKey) with
      (((λ x : string, [id x]) <$> up_Name u) ∪ kc_Attributes org !! OrganizationDisplayNameKey)
      by (symmetry; updated_lookup).
    by destruct (up_Name u), (kc_Attributes org !! OrganizationDisplayNameKey) as [[]|].
  - by destruct (up_BillingCollectionMethod u).
  - by destruct (up_ForceBillingStatusOk u) as [[]|].
Qed.

Definition disable : OrganizationUpdate :=
  mkOrganizationUpdate None None None (Some "abuse") (Some true) None None None None None None.

Definition acme : KeycloakOrganization :=
  mkKeycloakOrganization "1" "acme" "acme" "" [] {[ OrganizationDisplayNameKey := ["Acme"] ]} "" None.

#[local] Instance runtime : GoRuntime := {| float_out_of_range := λ _, 0; unicode_ToLower := id |}.

Lemma update_reads_back_witness :
  printable 0 ∧
  convertToOrganization (set_attributes (apply_update 0 disable (kc_Attributes acme)) acme) =
  updated_organization 0 disable (convertToOrganization acme).
Proof.
  assert (printable 0) as Hp by (apply printable_range; done).
  split; [exact Hp|]. apply update_reads_back. exact Hp.
Defined.
