(* ===== verification/KeycloakModel.v ===== *)
(** * The Keycloak Admin REST client: [services/auth/keycloak/keycloak_rest.go]

    Every request goes through [makeAuthenticatedRequest], which logs in with a
    cached admin token and repeats a request whose token was rejected.  A URL is
    its path segments below the realm; [url.JoinPath] accepts them when it
    accepts the configured server URL.  Request bodies are the values that are
    encoded; the decoding of response bodies is a class.  The realm is fixed. *)

From stdpp Require Import pretty.
From S2P Require Import Prelude GoStrings GoFloat GoTime Organizations.

#[local] Open Scope Z_scope.
#[local] Open Scope go_scope.

Inductive error :=
| Errorf (msg : string)
| Wrapf (msg : string) (e : error)
| ErrOrganizationNotFound (id : string)
| ErrOrganizationMemberLimitReached (id : string)
| ErrUnableToAddMember (id organizationID : string)
| ErrDomainAlreadyClaimed
| ErrInvalidDomain
| ErrInvitationConflict (email : string)
| ErrInvitationFailed (email : string)
| ErrInvitationNotFound (id : string)
| ErrGroupNotFound (id : string)
| ErrGroupAlreadyExists (name : string)
| ErrUserNotFound (id : string)
| ErrIdentityProviderNotLinked (provider : string)
| ErrIdentityProviderTokenForbidden (provider : string)
| ErrDiscoveryFailed (url : string)
| Panic
| OutOfFuel.

(** [errors.AsType[ErrOrganizationNotFound]] *)
Fixpoint organization_not_found (e : error) : bool :=
  match e with
  | ErrOrganizationNotFound _ => true
  | Wrapf _ e => organization_not_found e
  | _ => false
  end.

Record User := mkUser {
  usr_ID : string;
  Username : string;
  FirstName : string;
  LastName : string;
  usr_Email : string;
  usr_Attributes : attributes;
  usr_Marketplace : string;
  AWSCustomerID : string;
  AWSProductID : string;
  AWSAccountID : string
}.

Record UserAttributesUpdate := mkUserAttributesUpdate {
  uu_Marketplace : option string;
  uu_MarketplaceRegisteredAt : option string;
  uu_AWSAccountID : option string;
  uu_AWSCustomerID : option string;
  uu_AWSProductID : option string
}.

Record OrganizationInvitation := mkInvitation {
  inv_ID : string;
  inv_OrganizationID : string;
  inv_Email : string;
  inv_FirstName : option string;
  inv_LastName : option string;
  inv_CreatedAt : Z;
  inv_ExpiresAt : Z;
  inv_Status : string
}.

Record ListInvitationsParams := mkListInvitationsParams {
  li_Status : option string;
  li_Email : option string;
  li_FirstName : option string;
  li_LastName : option string;
  li_Search : option string;
  li_First : option Z;
  li_Max : option Z
}.

Record Group := mkGroup {
  g_ID : string;
  g_Name : string;
  g_Path : string;
  g_Description : string;
  g_Attributes : attributes
}.

Record IdentityProvider := mkIdentityProvider {
  idp_Alias : string;
  idp_DisplayName : string;
  ProviderID : string;
  idp_Enabled : bool;
  HideOnLogin : bool;
  TrustEmail : bool;
  FirstBrokerLoginFlowAlias : string;
  PostBrokerLoginFlowAlias : string;
  Config : gmap string string
}.

(** [gocloak.JWT] *)
Record JWT := mkJWT {
  AccessToken : string;
  ExpiresIn : Z
}.

Inductive method := GET | POST | PUT | DELETE.

Inductive body :=
| NoBody
| BOrganization (o : KeycloakOrganization)
| BText (s : string)
| BForm (values : list (string * string))
| BGroup (name : string)
| BGroupAttributes (name description : string) (attrs : attributes)
| BProvider (p : IdentityProvider)
| BConfig (config : gmap string string)
| BObject (m : list (string * json)).

Record request := mkRequest {
  rq_Method : method;
  rq_Path : list string;
  rq_Query : list (string * string);
  rq_Body : body
}.

Record response := mkResponse {
  StatusCode : Z;
  rs_Body : string;
  LocationHeader : string
}.

(** [encoding/json] on the bodies Keycloak answers with. *)
Class KeycloakJSON := {
  DecodeOrganizations : string → res string (list KeycloakOrganization);
  DecodeUsers : string → res string (list User);
  DecodeUser : string → res string User;
  DecodeStrings : string → option (list string);
  EncodeStrings : list string → res string string;
  EncodeString : string → res string string;
  DecodeInvitations : string → res string (list OrganizationInvitation);
  DecodeInvitation : string → res string OrganizationInvitation;
  DecodeGroups : string → res string (list Group);
  DecodeGroup : string → res string Group;
  DecodeProviders : string → res string (list IdentityProvider);
  DecodeConfig : string → res string (gmap string string);
  (** An object, or a nil map for null. *)
  DecodeObject : string → res string (option (list (string * json)));
  (** The field [access_token]. *)
  DecodeAccessTokenField : string → option string;
}.

(** [strings.EqualFold] on two arbitrary strings: exact on ASCII, by Unicode's
    simple folding otherwise. *)
Class UnicodeFolding := { unicode_EqualFold : string → string → bool }.

Definition equal_fold `{UnicodeFolding} (s t : string) : bool :=
  if is_ascii s && is_ascii t then EqualFold s t else unicode_EqualFold s t.

(** [LoginAdmin] and [Send] talk to the server, [Send] with an access token.
    The cached token and the cache of internal identifiers are shared by all
    requests; an access to the token holds [tokenMu].  [GetBrokerToken] asks for
    the stored token of an identity provider, with the user's own token. *)
Inductive call :=
| Now
| NewOrganizationID
| LoadToken
| StoreToken (t : option (JWT * Z))
| LoginAdmin
| Send (token : string) (r : request)
| GetBrokerToken (provider userToken : string)
| LoadInternalID (key : string)
| StoreInternalID (key id : string).

Definition resp (c : call) : Type :=
  match c with
  | Now => Z
  | NewOrganizationID => string
  | LoadToken => option (JWT * Z)
  | LoginAdmin => res string JWT
  | Send _ _ | GetBrokerToken _ _ => res string response
  | LoadInternalID _ => option string
  | StoreToken _ | StoreInternalID _ _ => unit
  end.

Abbreviation M A := (prog resp A).
Abbreviation E A := (M (res error A)).

Definition ok {A} (a : A) : E A := mret (Ok a).
Definition fail {A} (e : error) : E A := mret (Err e).
Definition wrap_error {A} (msg : string) (p : E A) : E A :=
  x ← p; match x with Ok a => ok a | Err e => fail (Wrapf msg e) end.

Definition tokenSafetyMargin : Z := 10 * Second.

Definition StatusOK : Z := 200.
Definition StatusCreated : Z := 201.
Definition StatusNoContent : Z := 204.
Definition StatusBadRequest : Z := 400.
Definition StatusUnauthorized : Z := 401.
Definition StatusNotFound : Z := 404.
Definition StatusConflict : Z := 409.

Definition isSuccessStatus (actual : Z) (expected : list Z) : bool := bool_decide (actual ∈ expected).

(** ** The admin token *)

Definition login : E JWT :=
  x ← perform LoginAdmin;
  match x with
  | Err e => fail (Wrapf "failed to login as admin" (Errorf e))
  | Ok jwt =>
      now ← perform Now;
      _ ← perform (StoreToken
        (Some (jwt, now + (wrap_int64 (ExpiresIn jwt * Second) - tokenSafetyMargin))));
      ok jwt
  end.

Definition getToken : E JWT :=
  cached ← perform LoadToken;
  match cached with
  | None => login
  | Some (jwt, expiry) =>
      now ← perform Now;
      if now <? expiry then ok jwt else login
  end.

Definition invalidateToken : M unit := perform (StoreToken None).

(** ** Requests *)

Definition doRequest (r : request) : E response :=
  jwt <-? getToken;
  x ← perform (Send (AccessToken jwt) r);
  match x with Err e => fail (Errorf e) | Ok s => ok s end.

Definition makeAuthenticatedRequest (r : request) : E response :=
  s <-? doRequest r;
  if StatusCode s =? StatusUnauthorized then _ ← invalidateToken; doRequest r
  else ok s.

(** The configuration: whether the server URL parses, the frontend, and
    whether internal identifiers are cached. *)
Record AuthConfig := mkAuthConfig {
  urlValid : bool;
  FrontendURL : string;
  FrontendClientID : string;
  organizationIDCache : bool
}.

Section Client.
Context `{GoRuntime} `{KeycloakJSON}.
Variable cfg : AuthConfig.

Definition buildRealmURL (segments : list string) : res error (list string) :=
  if urlValid cfg then Ok segments else Err (Errorf "parse server URL").

(** A request below the realm. *)
Definition realm_request (m : method) (segments : list string) (query : list (string * string))
    (b : body) : E response :=
  match buildRealmURL segments with
  | Err e => fail e
  | Ok path => makeAuthenticatedRequest (mkRequest m path query b)
  end.

Definition unexpected {A} (msg : string) (s : response) : E A :=
  fail (Errorf (msg +:+ pretty (StatusCode s))).

Definition full : string * string := ("briefRepresentation", "false").

(** ** Organizations *)

Definition searchOrganization (alias : string) : E KeycloakOrganization :=
  s <-? wrap_error "failed to get organization"
          (realm_request GET ["organizations"] [("q", "alias:" +:+ alias); full] NoBody);
  if negb (isSuccessStatus (StatusCode s) [StatusOK]) then
    unexpected ("search organization " +:+ alias +:+ ": unexpected status code ") s
  else
    match DecodeOrganizations (rs_Body s) with
    | Err e => fail (Wrapf "failed to unmarshal organization" (Errorf e))
    | Ok [] => fail (ErrOrganizationNotFound alias)
    | Ok (org :: _) => ok org
    end.

Definition organizationInternalID (alias : string) : E string :=
  cached ← (if organizationIDCache cfg then perform (LoadInternalID alias) else mret None);
  match cached with
  | Some id => ok id
  | None =>
      org <-? searchOrganization alias;
      _ ← (if organizationIDCache cfg then perform (StoreInternalID alias (kc_ID org)) else mret tt);
      ok (kc_ID org)
  end.

Definition GetOrganization (alias : string) (includeDeleted : bool) : E Organization :=
  org <-? wrap_error "failed to get organization" (searchOrganization alias);
  match FirstAttr (kc_Attributes org) OrganizationDeletedAtKey with
  | Some _ =>
      if negb includeDeleted then fail (ErrOrganizationNotFound alias)
      else
        let organization := convertToOrganization org in
        match DeletedAt (Status organization) with
        | None => fail (Errorf ("parse deletedAt for organization " +:+ alias))
        | Some _ => ok organization
        end
  | None => ok (convertToOrganization org)
  end.

Definition live (orgs : list KeycloakOrganization) : list KeycloakOrganization :=
  filter (λ org, is_deleted org = false) orgs.

Definition ListOrganizations (userID : string) : E (list Organization) :=
  if bool_decide (userID = "") then fail (Errorf "userID is empty")
  else
    s <-? wrap_error "keycloak request"
            (realm_request GET ["organizations/members"; userID; "organizations"] [full] NoBody);
    if negb (isSuccessStatus (StatusCode s) [StatusOK; StatusConflict]) then
      unexpected "unexpected status code: " s
    else
      match DecodeOrganizations (rs_Body s) with
      | Err e => fail (Wrapf "unmarshal organization list" (Errorf e))
      | Ok orgs => ok (map convertToOrganization (live orgs))
      end.

Definition CreateOrganization (params : OrganizationCreate) : E Organization :=
  if bool_decide (cr_UsageTier params = "") then fail (Errorf "usage tier is required")
  else if bool_decide (cr_BillingCollectionMethod params = "") then
    fail (Errorf "billing collection method is required")
  else if negb (valid_method (cr_BillingCollectionMethod params)) then
    fail (Errorf "unsupported billing collection method")
  else if bool_decide (cr_BillingCollectionMethod params = MethodMarketplace) &&
          bool_decide (cr_Marketplace params = None) then
    fail (Errorf "marketplace billing collection method requires a marketplace organization")
  else
    match cr_Marketplace params ≫= validate_marketplace with
    | Some msg => fail (Wrapf "validate marketplace" (Errorf msg))
    | None =>
        match buildRealmURL ["organizations"] with
        | Err e => fail e
        | Ok path =>
            id ← perform NewOrganizationID;
            now ← perform Now;
            let createOrg := buildCreateOrganizationPayload (FrontendURL cfg) now id params in
            s <-? wrap_error "failed to create organization"
                    (makeAuthenticatedRequest (mkRequest POST path [] (BOrganization createOrg)));
            if negb (isSuccessStatus (StatusCode s) [StatusCreated; StatusOK]) then
              unexpected ("failed to create organization: " +:+ cr_Name params +:+ ", status ") s
            else ok (convertToOrganization createOrg)
        end
    end.

Definition put_organization (msg : string) (org : KeycloakOrganization) : E response :=
  wrap_error msg (realm_request PUT ["organizations"; kc_ID org] [] (BOrganization org)).

(** The marketplace method needs an organization of a marketplace. *)
Definition needs_marketplace (u : OrganizationUpdate) (org : KeycloakOrganization) : bool :=
  bool_decide (up_BillingCollectionMethod u = Some MethodMarketplace) &&
  bool_decide (FirstAttr (kc_Attributes org) OrganizationMarketplaceKey = None).

Definition UpdateOrganization (organizationID : string) (u : OrganizationUpdate) : E Organization :=
  if negb (from_option valid_method true (up_BillingCollectionMethod u)) then
    fail (Errorf "unsupported billing collection method")
  else
    org <-? wrap_error "failed to get organization" (searchOrganization organizationID);
    if needs_marketplace u org then
      fail (Errorf "marketplace billing collection method requires a marketplace organization")
    else if changes_nothing u then GetOrganization organizationID true
    else
      now ← perform Now;
      s <-? put_organization "failed to update organization"
              (set_attributes (apply_update now u (kc_Attributes org)) org);
      if negb (isSuccessStatus (StatusCode s) [StatusOK; StatusNoContent]) then
        unexpected ("failed to update organization: " +:+ organizationID +:+ ", status code: ") s
      else GetOrganization organizationID true.

(** A soft deletion: the organization stays, marked. *)
Definition DeleteOrganization (organizationID : string) : E unit :=
  org <-? wrap_error "get organization" (searchOrganization organizationID);
  if is_deleted org then ok tt
  else
    now ← perform Now;
    let stamp := [FormatRFC3339 now] in
    s <-? put_organization "set deletedAt"
            (set_attributes (<[OrganizationLastUpdatedKey := stamp]>
              (<[OrganizationDeletedAtKey := stamp]> (kc_Attributes org))) org);
    if negb (isSuccessStatus (StatusCode s) [StatusOK; StatusNoContent]) then
      unexpected "set deletedAt: unexpected status " s
    else ok tt.

Definition pageSize : nat := 200.

(** The organizations of a page that were not seen before, with the aliases
    seen after them. *)
Fixpoint unseen (page : list KeycloakOrganization) (seen : gset string)
    : list KeycloakOrganization * gset string :=
  match page with
  | [] => ([], seen)
  | org :: page =>
      if decide (kc_Alias org ∈ seen) then unseen page seen
      else let '(orgs, seen) := unseen page ({[ kc_Alias org ]} ∪ seen) in (org :: orgs, seen)
  end.

Fixpoint store_ids (orgs : list KeycloakOrganization) : M unit :=
  match orgs with
  | [] => mret tt
  | org :: orgs =>
      _ ← (if organizationIDCache cfg then perform (StoreInternalID (kc_Alias org) (kc_ID org)) else mret tt);
      store_ids orgs
  end.

(** The loop has no bound of its own: [fuel] bounds its iterations. *)
Fixpoint list_all (fuel : nat) (first : nat) (seen : gset string) (result : list Organization)
    : E (list Organization) :=
  match fuel with
  | O => fail OutOfFuel
  | S fuel =>
      s <-? wrap_error ("list organizations from offset " +:+ pretty (Z.of_nat first))
              (realm_request GET ["organizations"]
                 [full; ("first", pretty (Z.of_nat first)); ("max", pretty (Z.of_nat pageSize))] NoBody);
      if negb (isSuccessStatus (StatusCode s) [StatusOK]) then
        unexpected "list organizations: unexpected status " s
      else
        match DecodeOrganizations (rs_Body s) with
        | Err e => fail (Wrapf "unmarshal organizations" (Errorf e))
        | Ok page =>
            let '(added, seen) := unseen page seen in
            _ ← store_ids (live added);
            let result := result ++ map convertToOrganization (live added) in
            if (length page <? pageSize)%nat then ok result
            else match added with
                 | [] => fail (Errorf "full page repeats organizations already read")
                 | _ => list_all fuel (first + pageSize) seen result
                 end
        end
  end.

Definition ListAllOrganizations (fuel : nat) : E (list Organization) :=
  if urlValid cfg then list_all fuel 0 ∅ []
  else fail (Wrapf "build organizations url" (Errorf "parse server URL")).

(** ** Members *)

Definition memberPageSize : nat := 100.
Definition maxMemberPages : nat := 100.

Definition member_of (u : User) : OrganizationMember :=
  mkMember (usr_ID u) (usr_Email u) (FirstName u +:+ " " +:+ LastName u).

Fixpoint add_members (users : list User) (seen : gset string) (members : list OrganizationMember)
    : gset string * list OrganizationMember :=
  match users with
  | [] => (seen, members)
  | u :: users =>
      if decide (usr_ID u ∈ seen) then add_members users seen members
      else add_members users ({[ usr_ID u ]} ∪ seen) (members ++ [member_of u])
  end.

Fixpoint member_pages (path : list string) (pages : nat) (page : nat) (seen : gset string)
    (members : list OrganizationMember) : E (list OrganizationMember) :=
  match pages with
  | O => fail (Errorf "list members: more than 100 pages")
  | S pages =>
      s <-? makeAuthenticatedRequest (mkRequest GET path
              [("first", pretty (Z.of_nat (page * memberPageSize)));
               ("max", pretty (Z.of_nat memberPageSize)); ("briefRepresentation", "true")] NoBody);
      if negb (isSuccessStatus (StatusCode s) [StatusOK]) then unexpected "unexpected status code: " s
      else
        match DecodeUsers (rs_Body s) with
        | Err e => fail (Wrapf "failed to unmarshal members" (Errorf e))
        | Ok users =>
            let '(seen, members) := add_members users seen members in
            if (length users <? memberPageSize)%nat then ok members
            else member_pages path pages (S page) seen members
        end
  end.

Definition listAllMembers (path : list string) : E (list OrganizationMember) :=
  member_pages path maxMemberPages 0 ∅ [].

Definition ListMembers (organizationID : string) : E (list OrganizationMember) :=
  orgID <-? wrap_error "failed to get organization" (organizationInternalID organizationID);
  match buildRealmURL ["organizations"; orgID; "members"] with
  | Err e => fail (Wrapf "failed to join URL" e)
  | Ok path => listAllMembers path
  end.

Definition AddMember (organizationID userID : string) : E unit :=
  org <-? wrap_error "failed to get organization" (searchOrganization organizationID);
  members <-? wrap_error "failed to list members" (ListMembers organizationID);
  if (MaxOrganizationMembers <=? length members)%nat then
    fail (ErrOrganizationMemberLimitReached organizationID)
  else
    match buildRealmURL ["organizations"; kc_ID org; "members"] with
    | Err e => fail (Wrapf "failed to join URL" e)
    | Ok path =>
        x ← makeAuthenticatedRequest (mkRequest POST path [] (BText userID));
        match x with
        | Ok s =>
            if isSuccessStatus (StatusCode s) [StatusOK; StatusCreated] then ok tt
            else fail (ErrUnableToAddMember userID organizationID)
        | Err _ => fail (ErrUnableToAddMember userID organizationID)
        end
    end.

Definition RemoveMember (organizationID userID : string) : E unit :=
  org <-? wrap_error "failed to get organization" (searchOrganization organizationID);
  s <-? realm_request DELETE ["organizations"; kc_ID org; "members"; userID] [] NoBody;
  if StatusCode s =? StatusNotFound then ok tt
  else if isSuccessStatus (StatusCode s) [StatusOK; StatusNoContent] then ok tt
  else unexpected "failed to remove member: status code: " s.

(** ** Users *)

Definition parseUserAttributes (u : User) : User :=
  mkUser (usr_ID u) (Username u) (FirstName u) (LastName u) (usr_Email u) (usr_Attributes u)
    (attr_or (usr_Attributes u) "marketplace" (usr_Marketplace u))
    (attr_or (usr_Attributes u) "awsCustomerId" (AWSCustomerID u))
    (attr_or (usr_Attributes u) "awsProductId" (AWSProductID u))
    (attr_or (usr_Attributes u) "awsAccountId" (AWSAccountID u)).

Definition GetUserRepresentation (userID : string) : E User :=
  s <-? wrap_error "failed to get user representation" (realm_request GET ["users"; userID] [] NoBody);
  if negb (isSuccessStatus (StatusCode s) [StatusOK]) then unexpected "unexpected status code: " s
  else
    match DecodeUser (rs_Body s) with
    | Err e => fail (Wrapf "failed to unmarshal user representation" (Errorf e))
    | Ok u => ok (parseUserAttributes u)
    end.

(** ** Domains ([organization_domain.go]) *)

Definition GetOrganizationDomains (organizationID : string) : E (list Domain) :=
  org <-? wrap_error "get organization" (searchOrganization organizationID);
  ok (kc_Domains org).

(** The alias of the first organization found that lists the domain. *)
Definition OrganizationForDomain `{UnicodeFolding} (domain : string) : E string :=
  s <-? wrap_error "search organizations by domain" (realm_request GET ["organizations"]
          [("search", domain); ("exact", "true"); ("briefRepresentation", "true")] NoBody);
  if negb (isSuccessStatus (StatusCode s) [StatusOK]) then
    unexpected ("search organizations by domain " +:+ domain +:+ ": unexpected status ") s
  else
    match DecodeOrganizations (rs_Body s) with
    | Err e => fail (Wrapf "unmarshal organizations" (Errorf e))
    | Ok orgs =>
        ok (from_option (λ x, kc_Alias x.2) ""
              (list_find (λ org, existsb (λ d, equal_fold (dom_Name d) domain) (kc_Domains org) = true) orgs))
    end.

Definition SetOrganizationDomains (organizationID : string) (domains : list Domain) : E unit :=
  org <-? wrap_error "get organization" (searchOrganization organizationID);
  s <-? put_organization "set organization domains" (set_domains domains org);
  let badRequest := StatusCode s =? StatusBadRequest in
  if (StatusCode s =? StatusConflict) ||
     badRequest && Contains (rs_Body s) "is already linked to organization" then fail ErrDomainAlreadyClaimed
  else if badRequest && Contains (rs_Body s) "Invalid domain format" then fail ErrInvalidDomain
  else if negb (isSuccessStatus (StatusCode s) [StatusOK; StatusNoContent]) then
    unexpected ("set organization domains for " +:+ organizationID +:+ ": unexpected status ") s
  else ok tt.

Definition ssoPendingDomains (org : KeycloakOrganization) : list string :=
  default [] (FirstAttr (kc_Attributes org) OrganizationSSOPendingDomainsKey ≫= DecodeStrings).

Definition GetSSOPendingDomains (organizationID : string) : E (list string) :=
  org <-? wrap_error "get organization" (searchOrganization organizationID);
  ok (ssoPendingDomains org).

Definition SetSSOPendingDomains (organizationID : string) (domains : list string) : E unit :=
  match (match domains with [] => Ok "" | _ => EncodeStrings domains end) with
  | Err e => fail (Wrapf "marshal pending domains" (Errorf e))
  | Ok encoded =>
      _ <-? wrap_error "set pending domains" (UpdateOrganization organizationID
        (mkOrganizationUpdate None None None None None None None None None (Some encoded) None));
      ok tt
  end.

Definition toSSOOrganization (org : KeycloakOrganization) : SSOOrganization :=
  mkSSO (kc_Alias org) (kc_Domains org) (ssoPendingDomains org)
    (attr_or (kc_Attributes org) OrganizationSSODomainsMissingSinceKey "").

Definition GetSSOOrganization (organizationID : string) : E SSOOrganization :=
  org <-? wrap_error "get organization" (searchOrganization organizationID);
  ok (toSSOOrganization org).
End Client.
