(* ===== verification/Keycloak.v ===== *)
(** * The Keycloak client, proved

    What a request answers with, the paging of members and organizations, and
    the two loops' ends. *)

From stdpp Require Import pretty.
From S2P Require Import Prelude GoStrings GoFloat GoTime Organizations KeycloakModel.

#[local] Open Scope Z_scope.
#[local] Open Scope go_scope.

(** ** Requests *)

Lemma wrap_error_ok {A} msg (p : E A) tr a :
  runs resp (wrap_error msg p) tr (Ok a) → runs resp p tr (Ok a).
Proof.
  intros (tr1 & tr2 & [b|e] & -> & Hp & Hk)%runs_bind; apply runs_ret in Hk as [-> [= ->]].
  by rewrite app_nil_r.
Qed.

(** Some request that was sent got the answer. *)
Definition answered (r : request) (s : response) (tr : list (event resp)) : Prop :=
  ∃ token, ev (Send token r) (Ok s) ∈ tr.

Lemma answered_app_r r s tr tr' : answered r s tr' → answered r s (tr ++ tr').
Proof. intros (t & ?). exists t. apply elem_of_app. by right. Qed.

Lemma doRequest_answered r tr s : runs resp (doRequest r) tr (Ok s) → answered r s tr.
Proof.
  intros [(tr1 & tr2 & jwt & -> & _ & Hk)|(e & _ & [=])]%runs_bind_ok.
  apply answered_app_r. destruct Hk as (x & tr3 & -> & Hx).
  exists (AccessToken jwt).
  destruct x as [s'|e]; apply runs_ret in Hx as [-> [= ->]]. simpl. by left.
Qed.

Lemma makeAuthenticatedRequest_answered r tr s :
  runs resp (makeAuthenticatedRequest r) tr (Ok s) → answered r s tr.
Proof.
  intros [(tr1 & tr2 & s1 & -> & H1 & Hk)|(e & _ & [=])]%runs_bind_ok.
  destruct (StatusCode s1 =? StatusUnauthorized).
  - apply runs_bind in Hk as (tr3 & tr4 & [] & -> & _ & Hk).
    apply answered_app_r, answered_app_r. by apply doRequest_answered.
  - apply runs_ret in Hk as [-> [= ->]]. rewrite app_nil_r. by apply doRequest_answered.
Qed.

Lemma realm_request_answered `{KeycloakJSON} cfg m path query b tr s :
  runs resp (realm_request cfg m path query b) tr (Ok s) →
  answered (mkRequest m path query b) s tr.
Proof.
  unfold realm_request, buildRealmURL. destruct (urlValid cfg).
  - apply makeAuthenticatedRequest_answered.
  - intros [_ [=]]%runs_ret.
Qed.

(** ** Readers *)

Section Readers.
Context {rt : GoRuntime} {kj : KeycloakJSON}.
Variable cfg : AuthConfig.

Lemma GetUserRepresentation_answered userID tr u :
  runs resp (GetUserRepresentation cfg userID) tr (Ok u) →
  ∃ s u', answered (mkRequest GET ["users"; userID] [] NoBody) s tr ∧
    DecodeUser (rs_Body s) = Ok u' ∧ u = parseUserAttributes u'.
Proof.
  intros [(tr1 & tr2 & s & -> & H1 & Hk)|(e & _ & [=])]%runs_bind_ok.
  apply wrap_error_ok, realm_request_answered in H1 as (t & H1).
  destruct (isSuccessStatus _ _) in Hk; [|by apply runs_ret in Hk as [_ [=]]].
  cbn [negb] in Hk. destruct (DecodeUser (rs_Body s)) as [u'|e] eqn:Hd;
    apply runs_ret in Hk as [-> [= ->]].
  exists s, u'. split_and!; [|done..]. exists t. rewrite app_nil_r. done.
Qed.

Definition user_organizations (userID : string) : request :=
  mkRequest GET ["organizations/members"; userID; "organizations"] [full] NoBody.

Lemma ListOrganizations_answered userID tr l :
  runs resp (ListOrganizations cfg userID) tr (Ok l) →
  ∃ s orgs, answered (user_organizations userID) s tr ∧
    DecodeOrganizations (rs_Body s) = Ok orgs ∧ l = map convertToOrganization (live orgs).
Proof.
  unfold ListOrganizations. case_bool_decide; [by intros [_ [=]]%runs_ret|].
  intros [(tr1 & tr2 & s & -> & H1 & Hk)|(e & _ & [=])]%runs_bind_ok.
  apply wrap_error_ok, realm_request_answered in H1 as (t & H1).
  destruct (isSuccessStatus _ _) in Hk; [|by apply runs_ret in Hk as [_ [=]]].
  cbn [negb] in Hk. destruct (DecodeOrganizations (rs_Body s)) as [orgs|e] eqn:Hd;
    apply runs_ret in Hk as [-> [= ->]].
  exists s, orgs. split_and!; [|done..]. exists t. rewrite app_nil_r. done.
Qed.
End Readers.

(** ** The members of an organization *)

(** The first occurrence of every identifier. *)
Fixpoint distinct_users (seen : gset string) (l : list User) : list User :=
  match l with
  | [] => []
  | u :: l => if decide (usr_ID u ∈ seen) then distinct_users seen l
              else u :: distinct_users ({[ usr_ID u ]} ∪ seen) l
  end.

Definition seen_after (seen : gset string) (l : list User) : gset string :=
  list_to_set (map usr_ID l) ∪ seen.

Lemma seen_after_cons seen u l : seen_after seen (u :: l) = seen_after ({[ usr_ID u ]} ∪ seen) l.
Proof. unfold seen_after. simpl. set_solver. Qed.

Lemma seen_after_nil seen : seen_after seen [] = seen.
Proof. unfold seen_after. simpl. set_solver. Qed.

Lemma seen_already (x : string) (seen : gset string) : x ∈ seen → {[ x ]} ∪ seen = seen.
Proof. set_solver. Qed.

Lemma distinct_users_app seen l l' :
  distinct_users seen (l ++ l') = distinct_users seen l ++ distinct_users (seen_after seen l) l'.
Proof.
  revert seen. induction l as [|u l IH]; intros seen; simpl; [by rewrite seen_after_nil|].
  rewrite seen_after_cons. case_decide as Hu; rewrite IH; [by rewrite seen_already|done].
Qed.

Lemma add_members_spec l seen members :
  add_members l seen members = (seen_after seen l, members ++ map member_of (distinct_users seen l)).
Proof.
  revert seen members. induction l as [|u l IH]; intros seen members; simpl.
  { by rewrite seen_after_nil, app_nil_r. }
  rewrite seen_after_cons. case_decide as Hu; rewrite IH; [by rewrite seen_already|].
  simpl. by rewrite <- app_assoc.
Qed.

Definition member_query (page : nat) : list (string * string) :=
  [("first", pretty (Z.of_nat (page * memberPageSize)));
   ("max", pretty (Z.of_nat memberPageSize)); ("briefRepresentation", "true")].

Lemma member_query_inj i j : member_query i = member_query j → j = i.
Proof. intros [= Hq%(inj pretty)]. unfold memberPageSize in Hq. lia. Qed.

Lemma request_query m path q b q' : mkRequest m path q b = mkRequest m path q' b → q = q'.
Proof. by intros [= ->]. Qed.

(** Page [i] of the members [L]. *)
Definition page_of (L : list User) (i : nat) : list User :=
  take memberPageSize (drop (i * memberPageSize) L).

(** No request fails. *)
Definition healthy (tr : list (event resp)) : Prop :=
  (∀ x, ev LoginAdmin x ∈ tr → is_ok x = true) ∧
  (∀ token r x, ev (Send token r) x ∈ tr → ∃ s, x = Ok s ∧ StatusCode s = StatusOK).

Lemma healthy_app tr tr' : healthy (tr ++ tr') → healthy tr ∧ healthy tr'.
Proof.
  intros [Hl Hs]. split; (split; [intros x Hx; apply Hl|intros t r x Hx; apply (Hs t r)]);
    apply elem_of_app; auto.
Qed.

Lemma login_healthy tr x : healthy tr → runs resp login tr x → is_ok x = true.
Proof.
  intros [Hl _] (y & tr1 & -> & Hk).
  assert (is_ok y = true) as Hy by (apply Hl; by left).
  destruct y as [jwt|e]; [|done].
  destruct Hk as (n & tr3 & -> & [] & tr4 & -> & -> & ->). done.
Qed.

Lemma getToken_healthy tr x : healthy tr → runs resp getToken tr x → is_ok x = true.
Proof.
  intros Hh (y & tr1 & -> & Hk). apply (healthy_app [_]) in Hh as [_ Hh].
  destruct y as [[jwt expiry]|]; [|by eapply login_healthy].
  destruct Hk as (n & tr2 & -> & Hk). apply (healthy_app [_]) in Hh as [_ Hh]. change (runs resp (if n <? expiry then ok jwt else login) tr2 x) in Hk.
  destruct (n <? expiry); [by apply runs_ret in Hk as [_ ->]|by eapply login_healthy].
Qed.

Lemma doRequest_healthy r tr x :
  healthy tr → runs resp (doRequest r) tr x → ∃ s, x = Ok s ∧ StatusCode s = StatusOK.
Proof.
  intros Hh [(tr1 & tr2 & jwt & -> & _ & Hk)|(e & Hk & ->)]%runs_bind_ok.
  - apply healthy_app in Hh as [_ [_ Hs]].
    destruct Hk as (y & tr3 & -> & Hx).
    destruct (Hs (AccessToken jwt) r y) as (s & -> & ?); [by left|].
    apply runs_ret in Hx as [_ ->]. eauto.
  - by apply getToken_healthy in Hk.
Qed.

Lemma makeAuthenticatedRequest_healthy r tr x :
  healthy tr → runs resp (makeAuthenticatedRequest r) tr x → ∃ s, x = Ok s ∧ StatusCode s = StatusOK.
Proof.
  intros Hh [(tr1 & tr2 & s & -> & H1 & Hk)|(e & Hk & ->)]%runs_bind_ok.
  - apply healthy_app in Hh as [Hh _]. destruct (doRequest_healthy _ _ _ Hh H1) as (s' & [= ->] & Hs).
    rewrite Hs in Hk. apply runs_ret in Hk as [_ ->]. eauto.
  - by apply (doRequest_healthy r tr).
Qed.

Section Members.
Context {kj : KeycloakJSON}.
Variable path : list string.
Variable L : list User.

(** Every page answered with success is that page of [L]. *)
Definition serves_members (tr : list (event resp)) : Prop :=
  ∀ i s, answered (mkRequest GET path (member_query i) NoBody) s tr → StatusCode s = StatusOK →
    DecodeUsers (rs_Body s) = Ok (page_of L i).

Lemma serves_app tr tr' : serves_members (tr ++ tr') → serves_members tr ∧ serves_members tr'.
Proof.
  intros Hs. split; intros i s (t & Ht); apply Hs; exists t; apply elem_of_app; auto.
Qed.

Lemma page_of_short i : (length (page_of L i) < memberPageSize)%nat ↔ (length L < S i * memberPageSize)%nat.
Proof. unfold page_of, memberPageSize. rewrite length_take, length_drop. lia. Qed.

Lemma take_next_page i :
  take (S i * memberPageSize) L = take (i * memberPageSize) L ++ page_of L i.
Proof. unfold page_of. rewrite take_take_drop. f_equal. lia. Qed.

(** What has been read before page [i]. *)
Definition members_before (i : nat) : list User := distinct_users ∅ (take (i * memberPageSize) L).

Lemma members_before_end i : (length L < S i * memberPageSize)%nat →
  members_before (S i) = distinct_users ∅ L.
Proof. intros Hl. unfold members_before. rewrite take_ge by lia. done. Qed.

Lemma member_pages_spec n i tr out :
  serves_members tr →
  runs resp (member_pages path n i (seen_after ∅ (take (i * memberPageSize) L))
               (map member_of (members_before i))) tr out →
  (∀ l, out = Ok l → l = map member_of (distinct_users ∅ L) ∧ (length L < (i + n) * memberPageSize)%nat) ∧
  (healthy tr → (i * memberPageSize ≤ length L)%nat →
   if decide (length L < (i + n) * memberPageSize)%nat then is_ok out = true
   else out = Err (Errorf "list members: more than 100 pages")).
Proof.
  revert i tr. induction n as [|n IH]; intros i tr Hs.
  { intros [_ ->]%runs_ret. split; [done|]. intros _ ?. rewrite decide_False by lia. done. }
  intros [(tr1 & tr2 & s & -> & H1 & Hk)|(e & Hk & ->)]%runs_bind_ok.
  2: { split; [done|]. intros Hh. by apply makeAuthenticatedRequest_healthy in Hk as (? & [=] & _). }
  destruct (decide (StatusCode s = StatusOK)) as [Hok|Hok].
  2: { unfold isSuccessStatus in Hk. rewrite bool_decide_eq_false_2 in Hk by set_solver.
       apply runs_ret in Hk as [_ ->]. split; [done|]. intros [Hh _]%healthy_app.
       by destruct (makeAuthenticatedRequest_healthy _ _ _ Hh H1) as (? & [= ->] & ?). }
  unfold isSuccessStatus in Hk. rewrite bool_decide_eq_true_2 in Hk by set_solver. cbn [negb] in Hk.
  apply serves_app in Hs as [Hs1 Hs2].
  rewrite (Hs1 i s) in Hk by (by (apply makeAuthenticatedRequest_answered in H1) || done).
  rewrite add_members_spec in Hk.
  replace (map member_of (members_before i) ++
           map member_of (distinct_users (seen_after ∅ (take (i * memberPageSize) L)) (page_of L i)))
    with (map member_of (members_before (S i))) in Hk
    by (unfold members_before; by rewrite take_next_page, distinct_users_app, map_app).
  replace (seen_after (seen_after ∅ (take (i * memberPageSize) L)) (page_of L i))
    with (seen_after ∅ (take (S i * memberPageSize) L)) in Hk
    by (unfold seen_after; rewrite take_next_page, map_app; set_solver).
  destruct (length (page_of L i) <? memberPageSize)%nat eqn:Hshort.
  - apply Nat.ltb_lt, page_of_short in Hshort. apply runs_ret in Hk as [-> ->]. split.
    + intros l [= <-]. split; [by rewrite members_before_end|lia].
    + intros _ _. rewrite decide_True by lia. done.
  - apply Nat.ltb_ge in Hshort. apply IH in Hk as [Hk1 Hk2]; [|done].
    replace (S i + n)%nat with (i + S n)%nat in Hk1, Hk2 by lia. split; [done|].
    intros [_ Hh]%healthy_app _. apply Hk2; [done|].
    pose proof (page_of_short i). lia.
Qed.

(** C33. If the members of an organization do not change while they are read, that
    is, if every page that the server answers with success is that page of one
    list, the listing returns every member of it once, in the server's order; a
    listing that cannot be completed is then an error and never a shorter list.
    When no request fails it succeeds exactly when there are fewer than 100 full
    pages.  (When a member leaves between two pages, another can be skipped, as
    the source says.) *)
Theorem members_are_complete tr out :
  serves_members tr →
  runs resp (listAllMembers path) tr out →
  (∀ l, out = Ok l → l = map member_of (distinct_users ∅ L)) ∧
  (healthy tr → is_ok out = bool_decide (length L < maxMemberPages * memberPageSize)%nat).
Proof.
  intros Hs Hr. apply (member_pages_spec maxMemberPages 0) in Hr as [H1 H2]; [|done]. split.
  - intros l ->. by apply H1.
  - intros Hh. specialize (H2 Hh ltac:(simpl; lia)). simpl plus in H2. revert H2. case_decide.
    + by rewrite bool_decide_eq_true_2.
    + intros ->. by rewrite bool_decide_eq_false_2.
Qed.
End Members.

(** ** All the organizations *)

Section AllOrganizations.
Context {rt : GoRuntime} {kj : KeycloakJSON}.
Variable cfg : AuthConfig.

Lemma unseen_spec page seen added seen' :
  unseen page seen = (added, seen') →
  seen' = list_to_set (map kc_Alias page) ∪ seen ∧ size seen' = (size seen + length added)%nat.
Proof.
  revert seen added seen'. induction page as [|o page IH]; intros seen added seen'; simpl.
  { intros [= <- <-]. simpl. split; [set_solver|lia]. }
  case_decide as Ho.
  - intros [-> Hl]%IH. split; [set_solver|lia].
  - destruct (unseen page _) as [added1 seen1] eqn:Hu. intros [= <- <-].
    apply IH in Hu as [-> Hl]. simpl. split; [set_solver|].
    rewrite Hl. rewrite size_union by set_solver. rewrite size_singleton. lia.
Qed.

(** The aliases of the organizations a server answers with. *)
Definition aliases_within (U : gset string) (tr : list (event resp)) : Prop :=
  ∀ token r s page o, ev (Send token r) (Ok s) ∈ tr → DecodeOrganizations (rs_Body s) = Ok page →
    o ∈ page → kc_Alias o ∈ U.

Lemma aliases_app U tr tr' : aliases_within U (tr ++ tr') → aliases_within U tr ∧ aliases_within U tr'.
Proof.
  intros HU. split; intros t r s page o Hin; apply (HU t r s page o); apply elem_of_app; auto.
Qed.

Lemma list_all_terminates U fuel first seen result tr out :
  aliases_within U tr → seen ⊆ U → (size U < size seen + fuel)%nat →
  runs resp (list_all cfg fuel first seen result) tr out → out ≠ Err OutOfFuel.
Proof.
  revert first seen result tr. induction fuel as [|fuel IH]; intros first seen result tr HU Hseen Hsize.
  { apply subseteq_size in Hseen. lia. }
  intros [(tr1 & tr2 & s & -> & H1 & Hk)|(e & Hk & ->)]%runs_bind_ok.
  2: { unfold wrap_error in Hk. apply runs_bind in Hk as (tr1 & tr2 & [a|e'] & -> & _ & Hk);
       apply runs_ret in Hk as [_ [=]]; by subst. }
  apply wrap_error_ok, realm_request_answered in H1 as (t & H1).
  apply aliases_app in HU as [HU1 HU2].
  destruct (isSuccessStatus _ _) in Hk; [|by apply runs_ret in Hk as [_ ->]]. cbn [negb] in Hk.
  destruct (DecodeOrganizations (rs_Body s)) as [page|e] eqn:Hd; [|by apply runs_ret in Hk as [_ ->]].
  destruct (unseen page seen) as [added seen'] eqn:Hu. apply unseen_spec in Hu as [-> Hl].
  apply runs_bind in Hk as (tr3 & tr4 & [] & -> & _ & Hk).
  apply aliases_app in HU2 as [_ HU2].
  destruct (length page <? pageSize)%nat; [by apply runs_ret in Hk as [_ ->]|].
  destruct added as [|o added]; [by apply runs_ret in Hk as [_ ->]|].
  eapply IH; [exact HU2| | |exact Hk]; [|rewrite Hl; simpl; lia].
  intros x [Hx%elem_of_list_to_set|Hx]%elem_of_union; [|by apply Hseen].
  apply list_elem_of_fmap in Hx as (o' & -> & Ho). by eapply HU1.
Qed.

(** C40. The sweep over all organizations, whose loop has no bound of its own,
    ends against every server that names finitely many organizations: every full
    page adds one that was not read before, or the listing fails.  One iteration
    more than there are aliases in the answers is enough, in whatever pages and
    order, changing or repeating, the server answers with them.  (Against a server
    that makes up new organizations for every page it would not end.) *)
Theorem listing_terminates {W} (server : env resp W) (w : W) U fuel :
  aliases_within U (exec resp server w (ListAllOrganizations cfg fuel)).1.1 → (size U < fuel)%nat →
  (exec resp server w (ListAllOrganizations cfg fuel)).2 ≠ Err OutOfFuel.
Proof.
  intros HU Hf. pose proof (exec_runs server w (ListAllOrganizations cfg fuel)) as Hr. revert HU Hr.
  generalize (exec resp server w (ListAllOrganizations cfg fuel)).1.1. intros tr HU.
  unfold ListAllOrganizations. destruct (urlValid cfg).
  - apply (list_all_terminates U); [done|set_solver|]. rewrite size_empty. lia.
  - by intros [_ ->]%runs_ret.
Qed.
End AllOrganizations.

(** ** A server *)

Module Witness.

Definition user (id : string) : User := mkUser id id "Ada" "L" (id +:+ "@xata.io") ∅ "" "" "" "".
Definition organization (alias : string) : KeycloakOrganization :=
  mkKeycloakOrganization ("id-" +:+ alias) alias alias "" [] {[ OrganizationUsageTierKey := ["t2"] ]} "" None.

Definition group (id : string) : Group := mkGroup id id "" "" {[ "role" := ["admin"] ]}.

(** A body is a list of identifiers. *)
#[local] Instance json : KeycloakJSON := {|
  DecodeOrganizations s := Ok (map organization (Split ","%char s));
  DecodeUsers s := Ok (map user (Split ","%char s));
  DecodeUser s := Ok (user s);
  DecodeStrings s := Some (Split ","%char s);
  EncodeStrings l := Ok "";
  EncodeString s := Ok s;
  DecodeInvitations s := Err s;
  DecodeInvitation s := Err s;
  DecodeGroups s := Ok (map group (Split ","%char s));
  DecodeGroup s := Ok (group s);
  DecodeProviders s := Err s;
  DecodeConfig s := Err s;
  DecodeObject s := Err s;
  DecodeAccessTokenField s := Some s
|}.

#[local] Instance runtime : GoRuntime := {| float_out_of_range := λ _, 0; unicode_ToLower := id |}.

(** A server without a state; a token is cached. *)
Definition answering (answer : request → response) (c : call) : resp c :=
  match c return resp c with
  | Now => 0
  | NewOrganizationID => "new"
  | LoadToken => Some (mkJWT "token" 60, 1)
  | LoginAdmin => Err "unreachable"
  | Send _ r => Ok (answer r)
  | GetBrokerToken _ _ => Err "unreachable"
  | LoadInternalID _ => None
  | StoreToken _ | StoreInternalID _ _ => tt
  end.

Definition stateless (f : ∀ c, resp c) : env resp unit := λ w c, (w, f c).

(** Every request is answered with the same page. *)
Definition server (page : string) : env resp unit := stateless (answering (λ _, mkResponse 200 page "")).

Lemma stateless_answers {A} (f : ∀ c, resp c) (p : prog resp A) c x :
  ev c x ∈ (exec resp (stateless f) tt p).1.1 → x = f c.
Proof.
  assert (Forall (λ e : event resp, match e with ev c x => x = f c end) (exec resp (stateless f) tt p).1.1) as H.
  { induction p as [a|d k IH]; [by constructor|]. simpl. specialize (IH (f d)).
    destruct (exec resp (stateless f) tt (k (f d))) as [[tr w] a]. by constructor. }
  rewrite Forall_forall in H. intros Hin. exact (H _ Hin).
Qed.

Definition cfg : AuthConfig := mkAuthConfig true "https://console" "console" true.

(** 150 members, in two pages. *)
Definition many : list User := map (λ n : nat, user ("u" +:+ pretty n)) (seq 0 150).

Definition nth_page (queries : list (list (string * string))) (pages : list (list string)) (r : request) : response :=
  match list_find (λ q, q = rq_Query r) queries with
  | Some found => mkResponse 200 (String.concat "," (default [] (pages !! found.1))) ""
  | None => mkResponse 404 "" ""%string
  end.

Definition member_server : env resp unit :=
  stateless (answering (nth_page [member_query 0; member_query 1]
    [map usr_ID (page_of many 0); map usr_ID (page_of many 1)])).

Definition members : prog resp (res error (list OrganizationMember)) := listAllMembers ["members"].
Definition listed := exec resp member_server tt members.

Lemma many_served : serves_members ["members"] many listed.1.1.
Proof.
  intros i s (t & Ht%stateless_answers) Hs. injection Ht as ->. destruct i as [|[|i]]; [by vm_compute..|].
  exfalso. unfold nth_page in Hs. destruct (list_find _ _) as [[j q]|] eqn:Hf; [|done].
  apply list_find_Some in Hf as (Hj & Hq & _). cbn [rq_Query] in Hq. subst q.
  destruct j as [|[|j]]; [| |done];
    [change (Some (member_query 0) = Some (member_query (S (S i)))) in Hj|
     change (Some (member_query 1) = Some (member_query (S (S i)))) in Hj];
    by apply (inj Some), member_query_inj in Hj.
Qed.

Lemma members_are_complete_witness :
  listed.2 = Ok (map member_of many) ∧ length many = 150%nat.
Proof.
  split; [|reflexivity]. destruct (members_are_complete ["members"] many listed.1.1 listed.2 many_served
    (exec_runs member_server tt members)) as [H _].
  destruct listed.2 as [l|e] eqn:He; [|vm_compute in He; discriminate He].
  rewrite (H l eq_refl). vm_compute. reflexivity.
Defined.

(** 420 organizations, in three pages of which the first two are full. *)
Definition aliases : list string := map (λ n : nat, "o" +:+ pretty n) (seq 0 420).
Definition organization_query (i : nat) : list (string * string) :=
  [full; ("first", pretty (Z.of_nat (i * pageSize))); ("max", pretty (Z.of_nat pageSize))].
Definition aliases_page (i : nat) : list string := take pageSize (drop (i * pageSize) aliases).

Definition organization_server : env resp unit :=
  stateless (answering (nth_page (map organization_query (seq 0 3)) (map aliases_page (seq 0 3)))).

Definition sweep := exec resp organization_server tt (ListAllOrganizations cfg 422).

Lemma within_page i page : (i < 3)%nat →
  DecodeOrganizations (String.concat "," (default [] (map aliases_page (seq 0 3) !! i))) = Ok page →
  Forall (λ o, kc_Alias o ∈ "" :: aliases) page.
Proof.
  intros Hi Hd. injection Hd as <-. destruct i as [|[|[|i]]]; [| | |lia]; apply (bool_decide_unpack _); by vm_compute.
Qed.

Lemma listing_terminates_witness :
  sweep.2 ≠ Err OutOfFuel ∧ is_ok sweep.2 = true.
Proof.
  split; [|vm_compute; reflexivity].
  apply (listing_terminates cfg organization_server tt (list_to_set ("" :: aliases))).
  - intros t r s page o Hin%stateless_answers Hd Ho. injection Hin as ->. unfold nth_page in Hd.
    destruct (list_find _ _) as [[i q]|] eqn:Hf.
    + apply list_find_Some in Hf as (Hi%lookup_lt_Some & _). pose proof (within_page i page Hi Hd) as Hw.
      rewrite Forall_forall in Hw. by apply elem_of_list_to_set, Hw.
    + vm_compute in Hd. injection Hd as <-. apply list_elem_of_singleton in Ho as ->. by apply elem_of_list_to_set; left.
  - apply Nat.ltb_lt. vm_compute. reflexivity.
Defined.
End Witness.
