(* ===== verification/KeycloakGroups.v ===== *)
(** * The rest of the Keycloak client: groups, invitations, providers

    [group.go], [identity_provider.go], and the invitations, the sweeps over
    organizations and the user attributes of [keycloak_rest.go] and
    [organization_domain.go].  What is written to a group or a provider keeps
    what Keycloak would otherwise clear. *)

From stdpp Require Import pretty.
From S2P Require Import Prelude GoStrings GoFloat GoTime Organizations KeycloakModel Keycloak.

#[local] Open Scope Z_scope.
#[local] Open Scope go_scope.

(** The tail of a handler that expects a status and reads nothing. *)
Definition expect_status (expected : list Z) (msg : string) (s : response) : E unit :=
  if isSuccessStatus (StatusCode s) expected then ok tt else unexpected msg s.

Definition decoded {A} (msg : string) (r : res string A) : E A :=
  match r with Ok a => ok a | Err e => fail (Wrapf msg (Errorf e)) end.

Section Client.
Context `{GoRuntime} `{KeycloakJSON}.
Variable cfg : AuthConfig.

(** ** Invitations *)

Definition organization_path (organizationID : string) (rest : list string) : E (list string) :=
  org <-? wrap_error "failed to get organization" (searchOrganization cfg organizationID);
  match buildRealmURL cfg ("organizations" :: kc_ID org :: rest) with
  | Err e => fail (Wrapf "failed to join URL" e)
  | Ok path => ok path
  end.

Definition CreateInvitation (organizationID email : string) : E unit :=
  path <-? organization_path organizationID ["members"; "invite-user"];
  s <-? makeAuthenticatedRequest
          (mkRequest POST path [("client_id", FrontendClientID cfg)] (BForm [("email", email)]));
  if StatusCode s =? StatusConflict then fail (ErrInvitationConflict email)
  else if negb (isSuccessStatus (StatusCode s) [StatusCreated; StatusNoContent; StatusOK]) then
    fail (ErrInvitationFailed email)
  else ok tt.

Definition param {A} (key : string) (show : A → string) (v : option A) : list (string * string) :=
  match v with Some v => [(key, show v)] | None => [] end.

Definition invitation_query (p : ListInvitationsParams) : list (string * string) :=
  param "status" id (li_Status p) ++ param "email" id (li_Email p) ++
  param "firstName" id (li_FirstName p) ++ param "lastName" id (li_LastName p) ++
  param "search" id (li_Search p) ++ param "first" pretty (li_First p) ++ param "max" pretty (li_Max p).

Definition ListInvitations (organizationID : string) (p : ListInvitationsParams)
    : E (list OrganizationInvitation) :=
  path <-? organization_path organizationID ["invitations"];
  s <-? wrap_error "failed to list invitations"
          (makeAuthenticatedRequest (mkRequest GET path (invitation_query p) NoBody));
  expect_status [StatusOK] "unexpected status code: " s ;;?
  decoded "failed to unmarshal invitations" (DecodeInvitations (rs_Body s)).

Definition GetInvitation (organizationID invitationID : string) : E OrganizationInvitation :=
  path <-? organization_path organizationID ["invitations"; invitationID];
  s <-? wrap_error "failed to get invitation" (makeAuthenticatedRequest (mkRequest GET path [] NoBody));
  if StatusCode s =? StatusNotFound then fail (ErrInvitationNotFound invitationID)
  else expect_status [StatusOK] "unexpected status code: " s ;;?
       decoded "failed to unmarshal invitation" (DecodeInvitation (rs_Body s)).

Definition ResendInvitation (organizationID invitationID : string) : E unit :=
  path <-? organization_path organizationID ["invitations"; invitationID; "resend"];
  s <-? wrap_error "failed to resend invitation" (makeAuthenticatedRequest (mkRequest POST path [] NoBody));
  if StatusCode s =? StatusNotFound then fail (ErrInvitationNotFound invitationID)
  else expect_status [StatusOK; StatusNoContent] "unexpected status code: " s.

Definition DeleteInvitation (organizationID invitationID : string) : E unit :=
  path <-? organization_path organizationID ["invitations"; invitationID];
  s <-? wrap_error "failed to delete invitation" (makeAuthenticatedRequest (mkRequest DELETE path [] NoBody));
  if StatusCode s =? StatusNotFound then ok tt
  else expect_status [StatusOK; StatusNoContent] "unexpected status code: " s.

(** ** Sweeps *)

(** [for first := 0; fetched >= pageSize; first += pageSize]: [fuel] bounds the
    pages read; [keep] folds a page into the result. *)
Fixpoint sweep {S} (fuel first : nat) (query : list (string * string)) (msg status_msg json_msg : string)
    (keep : list KeycloakOrganization → S → S) (acc : S) : E S :=
  match fuel with
  | O => fail OutOfFuel
  | Datatypes.S fuel =>
      s <-? wrap_error msg (realm_request cfg GET ["organizations"]
              (query ++ [full; ("first", pretty (Z.of_nat first)); ("max", pretty (Z.of_nat pageSize))]) NoBody);
      expect_status [StatusOK] status_msg s ;;?
      (page <-? decoded json_msg (DecodeOrganizations (rs_Body s));
       let acc := keep page acc in
       if (pageSize <=? length page)%nat then sweep fuel (first + pageSize) query msg status_msg json_msg keep acc
       else ok acc)
  end.

Definition disabled_queries : list string :=
  ["disabledByAdmin:true"; "billingStatus:no_payment_method"; "billingStatus:invoice_overdue";
   "billingStatus:unknown"; "billingStatus:deletion_requested"].

Definition cleaned_up (org : KeycloakOrganization) : bool :=
  bool_decide (is_Some (FirstAttr (kc_Attributes org) OrganizationResourcesCleanedAtKey)).

Definition keep_disabled (returnCleanedUpOrgs : bool) (page : list KeycloakOrganization)
    (acc : gset string * list Organization) : gset string * list Organization :=
  let '(added, seen) := unseen page acc.1 in
  (seen, acc.2 ++ map convertToOrganization
     (filter (λ org, negb (returnCleanedUpOrgs) && cleaned_up org = false) (live added))).

Fixpoint list_disabled (fuel : nat) (returnCleanedUpOrgs : bool) (queries : list string)
    (acc : gset string * list Organization) : E (list Organization) :=
  match queries with
  | [] => ok acc.2
  | q :: queries =>
      acc <-? sweep fuel 0 [("q", q)] ("keycloak request for " +:+ q)
        ("unexpected status code for " +:+ q +:+ ": ") ("unmarshal organization list for " +:+ q) (keep_disabled returnCleanedUpOrgs) acc;
      list_disabled fuel returnCleanedUpOrgs queries acc
  end.

Definition ListDisabledOrganizations (fuel : nat) (returnCleanedUpOrgs : bool) : E (list Organization) :=
  if urlValid cfg then list_disabled fuel returnCleanedUpOrgs disabled_queries (∅, [])
  else fail (Errorf "parse server URL").

Definition has_domains (org : KeycloakOrganization) : bool := negb (bool_decide (kc_Domains org = [])).

Definition ListSSOOrganizations (fuel : nat) : E (list SSOOrganization) :=
  if urlValid cfg then
    sweep fuel 0 [] "list organizations" "list organizations: unexpected status " "unmarshal organization list"
      (λ page acc, acc ++ map toSSOOrganization (filter (λ org, has_domains org = true) (live page))) []
  else fail (Errorf "parse server URL").

(** ** User attributes *)

Definition user_updates (u : UserAttributesUpdate) : list (string * string) :=
  param "marketplace" id (uu_Marketplace u) ++
  param "marketplaceRegisteredAt" id (uu_MarketplaceRegisteredAt u) ++
  param "awsAccountId" id (uu_AWSAccountID u) ++ param "awsCustomerId" id (uu_AWSCustomerID u) ++
  param "awsProductId" id (uu_AWSProductID u).

(** An entry of an object: replaced in place, or added. *)
Fixpoint set_field (k : string) (v : json) (m : list (string * json)) : list (string * json) :=
  match m with
  | [] => [(k, v)]
  | (k', v') :: m => if bool_decide (k' = k) then (k, v) :: m else (k', v') :: set_field k v m
  end.

Fixpoint get_field (k : string) (m : list (string * json)) : option json :=
  match m with
  | [] => None
  | (k', v) :: m => if bool_decide (k' = k) then Some v else get_field k m
  end.

Definition merge_attributes (updates : list (string * string)) (raw : list (string * json)) : list (string * json) :=
  let existing := match get_field "attributes" raw with Some (JObject m) => m | _ => [] end in
  set_field "attributes"
    (JObject (foldl (λ m kv, set_field kv.1 (JArray [JString kv.2]) m) existing updates)) raw.

Definition UpdateUserAttributes (userID : string) (u : UserAttributesUpdate) : E unit :=
  match user_updates u with
  | [] => ok tt
  | updates =>
      s <-? wrap_error "get user" (realm_request cfg GET ["users"; userID] [] NoBody);
      expect_status [StatusOK] "get user: status " s ;;?
      (raw <-? decoded "unmarshal user" (DecodeObject (rs_Body s));
       match raw with
       | None => fail Panic
       | Some raw =>
           s <-? wrap_error "update user"
                   (realm_request cfg PUT ["users"; userID] [] (BObject (merge_attributes updates raw)));
           expect_status [StatusOK; StatusNoContent] "update user: status " s
       end)
  end.

(** ** Identity provider tokens *)

Class FormEncoding := {
  (** [url.ParseQuery], then [Get]. *)
  ParseQueryGet : string → string → res string string
}.

Definition parseIdentityProviderToken `{FormEncoding} (body : string) : res error string :=
  let present t := if bool_decide (t = "") then Err (Errorf "no access_token in response") else Ok t in
  match DecodeAccessTokenField body with
  | Some t => present t
  | None =>
      match ParseQueryGet body "access_token" with
      | Err _ => Err (Errorf "response is neither JSON nor form-encoded")
      | Ok t => present t
      end
  end.

Definition StatusForbidden : Z := 403.

Definition GetIdentityProviderToken `{FormEncoding} (provider userToken : string) : E string :=
  if negb (urlValid cfg) then fail (Wrapf "build broker token url" (Errorf "parse server URL"))
  else
    x ← perform (GetBrokerToken provider userToken);
    match x with
    | Err e => fail (Wrapf "get identity provider token" (Errorf e))
    | Ok s =>
        if StatusCode s =? StatusOK then
          match parseIdentityProviderToken (rs_Body s) with
          | Ok t => ok t
          | Err e => fail (Wrapf ("parse " +:+ provider +:+ " identity provider token") e)
          end
        else if (StatusCode s =? StatusBadRequest) || (StatusCode s =? StatusNotFound) then
          fail (ErrIdentityProviderNotLinked provider)
        else if StatusCode s =? StatusForbidden then fail (ErrIdentityProviderTokenForbidden provider)
        else unexpected "get identity provider token: status " s
    end.

(** ** Groups *)

Definition group_path (orgID : string) (rest : list string) : E (list string) :=
  match buildRealmURL cfg ("organizations" :: orgID :: rest) with
  | Err e => fail (Wrapf "failed to join URL" e)
  | Ok path => ok path
  end.

Definition internal_path (organizationID : string) (rest : list string) : E (list string) :=
  orgID <-? wrap_error "failed to get organization" (organizationInternalID cfg organizationID);
  group_path orgID rest.

Definition listOrgGroups (orgInternalID : string) : E (list Group) :=
  path <-? group_path orgInternalID ["groups"];
  s <-? makeAuthenticatedRequest (mkRequest GET path [full] NoBody);
  expect_status [StatusOK] "unexpected status code: " s ;;?
  decoded "failed to unmarshal groups" (DecodeGroups (rs_Body s)).

Definition getOrgGroup (orgInternalID groupID : string) : E Group :=
  path <-? group_path orgInternalID ["groups"; groupID];
  s <-? makeAuthenticatedRequest (mkRequest GET path [] NoBody);
  if StatusCode s =? StatusNotFound then fail (ErrGroupNotFound groupID)
  else expect_status [StatusOK] "unexpected status code: " s ;;?
       decoded "failed to unmarshal group" (DecodeGroup (rs_Body s)).

Definition ListGroups (organizationID : string) : E (list Group) :=
  orgID <-? wrap_error "failed to get organization" (organizationInternalID cfg organizationID);
  listOrgGroups orgID.

Definition GetGroup (organizationID groupID : string) : E Group :=
  orgID <-? wrap_error "failed to get organization" (organizationInternalID cfg organizationID);
  getOrgGroup orgID groupID.

(** [path.Base]: trailing slashes removed, then what follows the last slash. *)
Fixpoint trim_slashes (s : string) : string :=
  match s with
  | EmptyString => EmptyString
  | String c t =>
      match trim_slashes t with
      | EmptyString => if bool_decide (c = "/"%char) then EmptyString else String c EmptyString
      | t => String c t
      end
  end.
Definition path_base (s : string) : string :=
  if bool_decide (s = "") then "."
  else
    let s := trim_slashes s in
    match cut_last "/"%char s with
    | Some (_, b) => b
    | None => if bool_decide (s = "") then "/" else s
    end.

Definition CreateGroup (organizationID name : string) : E Group :=
  path <-? internal_path organizationID ["groups"];
  s <-? wrap_error "failed to create group" (makeAuthenticatedRequest (mkRequest POST path [] (BGroup name)));
  if StatusCode s =? StatusConflict then fail (ErrGroupAlreadyExists name)
  else expect_status [StatusCreated; StatusOK; StatusNoContent] "failed to create group: status code: " s ;;?
       if bool_decide (LocationHeader s = "") then
         fail (Errorf ("create group " +:+ name +:+ ": no id in Location header"))
       else ok (mkGroup (path_base (LocationHeader s)) name "" "" ∅).

Definition UpdateGroup (organizationID groupID name : string) : E Group :=
  orgID <-? wrap_error "failed to get organization" (organizationInternalID cfg organizationID);
  path <-? group_path orgID ["groups"; groupID];
  s <-? wrap_error "failed to update group" (makeAuthenticatedRequest (mkRequest PUT path [] (BGroup name)));
  if StatusCode s =? StatusNotFound then fail (ErrGroupNotFound groupID)
  else if StatusCode s =? StatusConflict then fail (ErrGroupAlreadyExists name)
  else expect_status [StatusOK; StatusNoContent] "failed to update group: status code: " s ;;?
       getOrgGroup orgID groupID.

Definition DeleteGroup (organizationID groupID : string) : E unit :=
  path <-? internal_path organizationID ["groups"; groupID];
  s <-? wrap_error "failed to delete group" (makeAuthenticatedRequest (mkRequest DELETE path [] NoBody));
  if StatusCode s =? StatusNotFound then ok tt
  else expect_status [StatusOK; StatusNoContent] "failed to delete group: status code: " s.

(** [ListGroupMembers] reads its pages like [ListMembers]; a 404 is the group's. *)
Fixpoint group_member_pages (groupID : string) (path : list string) (pages page : nat)
    (seen : gset string) (members : list OrganizationMember) : E (list OrganizationMember) :=
  match pages with
  | O => fail (Errorf "list members: more than 100 pages")
  | S pages =>
      s <-? makeAuthenticatedRequest (mkRequest GET path (member_query page) NoBody);
      if negb (isSuccessStatus (StatusCode s) [StatusOK]) then
        if StatusCode s =? StatusNotFound then fail (ErrGroupNotFound groupID)
        else unexpected "unexpected status code: " s
      else
        users <-? decoded "failed to unmarshal members" (DecodeUsers (rs_Body s));
        let '(seen, members) := add_members users seen members in
        if (length users <? memberPageSize)%nat then ok members
        else group_member_pages groupID path pages (S page) seen members
  end.

Definition ListGroupMembers (organizationID groupID : string) : E (list OrganizationMember) :=
  path <-? internal_path organizationID ["groups"; groupID; "members"];
  group_member_pages groupID path maxMemberPages 0 ∅ [].

Definition ListMemberGroups (organizationID userID : string) : E (list Group) :=
  path <-? internal_path organizationID ["members"; userID; "groups"];
  s <-? wrap_error "failed to list member groups" (makeAuthenticatedRequest (mkRequest GET path [] NoBody));
  if StatusCode s =? StatusNotFound then fail (ErrUserNotFound userID)
  else expect_status [StatusOK] "failed to list member groups: status code: " s ;;?
       decoded "failed to unmarshal groups" (DecodeGroups (rs_Body s)).

Definition AddGroupMember (organizationID groupID userID : string) : E unit :=
  path <-? internal_path organizationID ["groups"; groupID; "members"; userID];
  s <-? wrap_error "failed to add group member" (makeAuthenticatedRequest (mkRequest PUT path [] NoBody));
  if StatusCode s =? StatusNotFound then fail (ErrGroupNotFound groupID)
  else if StatusCode s =? StatusConflict then ok tt
  else expect_status [StatusOK; StatusCreated; StatusNoContent] "failed to add group member: status code: " s.

Definition isNotGroupMember (s : response) : bool :=
  (StatusCode s =? StatusBadRequest) && Contains (rs_Body s) "User not a member".

Definition RemoveGroupMember (organizationID groupID userID : string) : E unit :=
  path <-? internal_path organizationID ["groups"; groupID; "members"; userID];
  s <-? wrap_error "failed to remove group member" (makeAuthenticatedRequest (mkRequest DELETE path [] NoBody));
  if (StatusCode s =? StatusNotFound) || isNotGroupMember s then ok tt
  else expect_status [StatusOK; StatusNoContent] "failed to remove group member: status code: " s.

Definition set_attribute (key : string) (values : list string) (attrs : attributes) : attributes :=
  match values with [] => delete key attrs | _ => <[key := values]> attrs end.

Definition UpdateGroupAttribute (organizationID groupID key : string)
    (update : list string → list string) : E unit :=
  org <-? wrap_error "failed to get organization" (searchOrganization cfg organizationID);
  group <-? getOrgGroup (kc_ID org) groupID;
  let current := default [] (g_Attributes group !! key) in
  let values := update current in
  if bool_decide (values = current) then ok tt
  else
    path <-? group_path (kc_ID org) ["groups"; groupID];
    s <-? wrap_error "update group attribute" (makeAuthenticatedRequest (mkRequest PUT path []
            (BGroupAttributes (g_Name group) (g_Description group) (set_attribute key values (g_Attributes group)))));
    if StatusCode s =? StatusNotFound then fail (ErrGroupNotFound groupID)
    else expect_status [StatusOK; StatusNoContent] "update group attribute: status code: " s.

(** ** Identity providers *)

Definition FirstBrokerLoginFlow : string := "xata first broker login".
Definition PostBrokerLoginFlow : string := "xata post broker login".
Definition configTrue : string := "true".

Definition or_flow (alias flow : string) : string := if bool_decide (alias = "") then flow else alias.

Definition bindBrokerFlows (p : IdentityProvider) : IdentityProvider :=
  mkIdentityProvider (idp_Alias p) (idp_DisplayName p) (ProviderID p) (idp_Enabled p) (HideOnLogin p)
    (TrustEmail p) (or_flow (FirstBrokerLoginFlowAlias p) FirstBrokerLoginFlow)
    (or_flow (PostBrokerLoginFlowAlias p) PostBrokerLoginFlow) (Config p).

Definition Issuer (p : IdentityProvider) : string := default "" (Config p !! "issuer").
Definition ClientID (p : IdentityProvider) : string := default "" (Config p !! "clientId").

Record OIDCEndpoints := mkEndpoints {
  AuthorizationURL : string;
  TokenURL : string;
  JWKSURL : string;
  UserInfoURL : string;
  LogoutURL : string
}.

Record IdentityProviderSpec := mkProviderSpec {
  sp_OrganizationID : string;
  sp_Domain : string;
  sp_ProviderID : string;
  sp_DisplayName : string;
  sp_Issuer : string;
  sp_ClientID : string;
  ClientSecret : string;
  Endpoints : OIDCEndpoints;
  Extra : gmap string string
}.

Fixpoint replace_byte (old new : ascii) (s : string) : string :=
  match s with
  | EmptyString => EmptyString
  | String c t => String (if bool_decide (c = old) then new else c) (replace_byte old new t)
  end.

Definition OrganizationIdentityProviderAlias (organizationID domain : string) : string :=
  "sso-" +:+ organizationID +:+ "-" +:+ replace_byte "."%char "-"%char domain.

Definition endpoint (key value : string) : gmap string string :=
  if bool_decide (value = "") then ∅ else {[ key := value ]}.

Definition provider_config (spec : IdentityProviderSpec) : gmap string string :=
  let e := Endpoints spec in
  Extra spec ∪
  (endpoint "authorizationUrl" (AuthorizationURL e) ∪ endpoint "tokenUrl" (TokenURL e) ∪
   endpoint "jwksUrl" (JWKSURL e) ∪ endpoint "userInfoUrl" (UserInfoURL e) ∪
   endpoint "logoutUrl" (LogoutURL e)) ∪
  list_to_map [("clientId", sp_ClientID spec); ("clientSecret", ClientSecret spec);
    ("clientAuthMethod", "client_secret_post"); ("issuer", sp_Issuer spec);
    ("defaultScope", "openid profile email"); ("validateSignature", configTrue); ("useJwksUrl", configTrue)].

Definition NewIdentityProvider (spec : IdentityProviderSpec) : IdentityProvider :=
  mkIdentityProvider (OrganizationIdentityProviderAlias (sp_OrganizationID spec) (sp_Domain spec))
    (sp_DisplayName spec) (sp_ProviderID spec) true true true FirstBrokerLoginFlow PostBrokerLoginFlow
    (provider_config spec).

Definition organizationIdentityProvidersURL (organizationID : string) : E (list string) :=
  org <-? wrap_error "get organization" (searchOrganization cfg organizationID);
  match buildRealmURL cfg ["organizations"; kc_ID org; "identity-providers"] with
  | Err e => fail (Wrapf "build organization identity providers URL" e)
  | Ok path => ok path
  end.

Definition ImportIdentityProviderConfig (fromURL providerID : string) : E (gmap string string) :=
  s <-? wrap_error "import identity provider config" (realm_request cfg POST ["identity-provider"; "import-config"] []
          (BConfig (list_to_map [("fromUrl", fromURL); ("providerId", providerID)])));
  if negb (isSuccessStatus (StatusCode s) [StatusOK]) then fail (ErrDiscoveryFailed fromURL)
  else decoded "unmarshal imported config" (DecodeConfig (rs_Body s)).

Definition UpsertIdentityProvider (p : IdentityProvider) : E unit :=
  let idp := bindBrokerFlows p in
  s <-? wrap_error "create identity provider"
          (realm_request cfg POST ["identity-provider"; "instances"] [] (BProvider idp));
  if isSuccessStatus (StatusCode s) [StatusCreated; StatusOK; StatusNoContent] then ok tt
  else if negb (StatusCode s =? StatusConflict) then
    unexpected ("create identity provider " +:+ idp_Alias idp +:+ ": unexpected status ") s
  else
    s <-? wrap_error "update identity provider"
            (realm_request cfg PUT ["identity-provider"; "instances"; idp_Alias idp] [] (BProvider idp));
    expect_status [StatusOK; StatusNoContent]
      ("update identity provider " +:+ idp_Alias idp +:+ ": unexpected status ") s.

Definition DeleteIdentityProvider (alias : string) : E unit :=
  s <-? wrap_error "delete identity provider"
          (realm_request cfg DELETE ["identity-provider"; "instances"; alias] [] NoBody);
  if StatusCode s =? StatusNotFound then ok tt
  else expect_status [StatusOK; StatusNoContent]
         ("delete identity provider " +:+ alias +:+ ": unexpected status ") s.

Definition LinkIdentityProviderToOrganization (organizationID alias : string) : E unit :=
  path <-? organizationIdentityProvidersURL organizationID;
  match EncodeString alias with
  | Err e => fail (Wrapf "marshal identity provider alias" (Errorf e))
  | Ok body =>
      s <-? wrap_error "link identity provider" (makeAuthenticatedRequest (mkRequest POST path [] (BText body)));
      if StatusCode s =? StatusConflict then ok tt
      else expect_status [StatusCreated; StatusOK; StatusNoContent]
             ("link identity provider " +:+ alias +:+ " to organization " +:+ organizationID +:+ ": unexpected status ") s
  end.

Definition ListOrganizationIdentityProviders (organizationID : string) : E (list IdentityProvider) :=
  path <-? organizationIdentityProvidersURL organizationID;
  s <-? wrap_error "list organization identity providers"
          (makeAuthenticatedRequest (mkRequest GET path [] NoBody));
  expect_status [StatusOK] ("list identity providers for " +:+ organizationID +:+ ": unexpected status ") s ;;?
  decoded "unmarshal organization identity providers" (DecodeProviders (rs_Body s)).
End Client.

(** ** What is written *)

Definition sends (P : request → bool) (c : call) : bool :=
  match c with Send _ r => P r | _ => true end.

Lemma getToken_only P : only resp (sends P) getToken.
Proof.
  assert (only resp (sends P) login) as Hl.
  { split; [done|]. intros [jwt|e]; [|done]. split; [done|]. intros n. by split. }
  split; [done|]. intros [[jwt expiry]|]; [|exact Hl]. split; [done|]. intros now.
  change (only resp (sends P) (if now <? expiry then ok jwt else login)). by destruct (now <? expiry).
Qed.

Lemma makeAuthenticatedRequest_only P r :
  P r = true → only resp (sends P) (makeAuthenticatedRequest r).
Proof.
  intros Hr. assert (only resp (sends P) (doRequest r)) as Hd.
  { apply only_bind_ok; [apply getToken_only|]. intros jwt. split; [exact Hr|]. by intros [s|e]. }
  apply only_bind_ok; [exact Hd|]. intros s. by destruct (StatusCode s =? StatusUnauthorized).
Qed.

Lemma wrap_error_only {A} P msg (p : E A) : only resp P p → only resp P (wrap_error msg p).
Proof. intros Hp. apply only_bind; [done|]. by intros [x|e]. Qed.

(** A request sends nothing but itself. *)
Lemma makeAuthenticatedRequest_sends r tr x token r' y :
  runs resp (makeAuthenticatedRequest r) tr x → ev (resp := resp) (Send token r') y ∈ tr → r' = r.
Proof.
  assert (∀ tr x, runs resp (doRequest r) tr x → ev (resp := resp) (Send token r') y ∈ tr → r' = r) as Hd.
  { intros tr0 x0 [(tr1 & tr2 & jwt & -> & H1 & Hk)|(e & H1 & _)]%runs_bind_ok Hin.
    2: by pose proof (only_runs _ _ _ _ _ _ (getToken_only (λ _, false)) H1 Hin).
    apply elem_of_app in Hin as [Hin|Hin].
    1: by pose proof (only_runs _ _ _ _ _ _ (getToken_only (λ _, false)) H1 Hin).
    destruct Hk as (z & tr3 & -> & Hk). apply elem_of_cons in Hin as [Hin|Hin].
    - set (P := λ e : event resp, match e with ev (Send _ r0) _ => r0 = r | _ => True end).
      assert (P (ev (resp := resp) (Send (AccessToken jwt) r) z)) as HP by done. by rewrite <- Hin in HP.
    - destruct z; destruct Hk as [-> _]; by apply elem_of_nil in Hin. }
  intros [(tr1 & tr2 & s & -> & H1 & Hk)|(e & H1 & _)]%runs_bind_ok Hin; [|by eapply Hd].
  apply elem_of_app in Hin as [Hin|Hin]; [by eapply Hd|].
  destruct (StatusCode s =? StatusUnauthorized); [|destruct Hk as [-> _]; by apply elem_of_nil in Hin].
  destruct Hk as ([] & tr3 & -> & Hk). apply elem_of_cons in Hin as [Hin|Hin]; [|by eapply Hd].
  by set (P := λ e : event resp, match e with ev (StoreToken _) _ => True | _ => False end);
  assert (P (ev (resp := resp) (StoreToken None) tt)) as HP by done; rewrite <- Hin in HP.
Qed.

Section Writes.
Context {rt : GoRuntime} {kj : KeycloakJSON}.
Variable cfg : AuthConfig.

Lemma realm_request_only P m path query b :
  P (mkRequest m path query b) = true → only resp (sends P) (realm_request cfg m path query b).
Proof. intros HP. unfold realm_request, buildRealmURL. destruct (urlValid cfg); [by apply makeAuthenticatedRequest_only|done]. Qed.

Definition is_read (r : request) : bool := match rq_Method r with GET => true | _ => false end.

Lemma expect_status_only P l msg s : only resp P (expect_status l msg s).
Proof. unfold expect_status. by destruct (isSuccessStatus _ _). Qed.

Lemma decoded_only {A} P msg (r : res string A) : only resp P (decoded msg r).
Proof. by destruct r. Qed.

Lemma group_path_only P orgID rest : only resp P (group_path cfg orgID rest).
Proof. unfold group_path. by destruct (buildRealmURL cfg _). Qed.

Lemma searchOrganization_only alias : only resp (sends is_read) (searchOrganization cfg alias).
Proof.
  apply only_bind_ok; [by apply wrap_error_only, realm_request_only|]. intros s.
  destruct (isSuccessStatus _ _); [|done]. simpl. by destruct (DecodeOrganizations _) as [[]|].
Qed.

Lemma getOrgGroup_only orgID groupID : only resp (sends is_read) (getOrgGroup cfg orgID groupID).
Proof.
  apply only_bind_ok; [apply group_path_only|]. intros path.
  apply only_bind_ok; [by apply makeAuthenticatedRequest_only|]. intros s.
  destruct (StatusCode s =? StatusNotFound); [done|].
  apply only_bind_ok; [apply expect_status_only|intros []; apply decoded_only].
Qed.

(** What is known of a group that was read. *)
Lemma getOrgGroup_answered orgID groupID tr g :
  runs resp (getOrgGroup cfg orgID groupID) tr (Ok g) →
  ∃ s, answered (mkRequest GET ["organizations"; orgID; "groups"; groupID] [] NoBody) s tr ∧
    DecodeGroup (rs_Body s) = Ok g.
Proof.
  unfold getOrgGroup, group_path, buildRealmURL. destruct (urlValid cfg); [|by intros [_ [=]]].
  intros [(tr1 & tr2 & path & -> & [-> [= <-]] & Hk)|(e & [_ [=]] & _)]%runs_bind_ok.
  apply runs_bind_ok in Hk as [(tr3 & tr4 & s & -> & Ha%makeAuthenticatedRequest_answered & Hk)|(e & _ & [=])].
  destruct (StatusCode s =? StatusNotFound); [by destruct Hk as [_ [=]]|].
  apply runs_bind_ok in Hk as [(tr5 & tr6 & [] & -> & _ & Hk)|(e & _ & [=])].
  destruct (DecodeGroup (rs_Body s)) as [g'|e] eqn:Hd; [|by destruct Hk as [_ [=]]].
  destruct Hk as [-> [= ->]]. exists s. split; [|done]. destruct Ha as (t & Ha). exists t.
  simpl. apply elem_of_app. by left.
Qed.

Lemma read_only_runs {A} (p : E A) tr x m token path q b y :
  only resp (sends is_read) p → runs resp p tr x →
  ev (resp := resp) (Send token (mkRequest m path q b)) y ∈ tr → m = GET.
Proof. intros Ho Hr Hin. pose proof (only_runs _ _ _ _ _ _ Ho Hr Hin) as HP. by destruct m. Qed.

Lemma put_sends path (r : list string → request) msg (k : response → E unit) tr out token r' y :
  (∀ s, ∃ u, k s = mret u) →
  runs resp (pbind_ok (ok path) (λ p : list string, pbind_ok (wrap_error msg (makeAuthenticatedRequest (r p))) k)) tr out →
  ev (resp := resp) (Send token r') y ∈ tr → r' = r path.
Proof.
  intros Hk [(tr1 & tr2 & p & -> & [-> [= <-]] & Hr)|(e & [_ [=]] & _)]%runs_bind_ok Hin. simpl in Hin.
  apply runs_bind_ok in Hr as [(tr3 & tr4 & s & -> & Hw%wrap_error_ok & Hr)|(e & Hw & _)].
  - destruct (Hk s) as [u Hu]. rewrite Hu in Hr. destruct Hr as [-> _]. rewrite app_nil_r in Hin.
    by eapply makeAuthenticatedRequest_sends.
  - apply runs_bind in Hw as (tr5 & tr6 & z & -> & Hw & Hz).
    assert (tr6 = []) as -> by (by destruct z; destruct Hz). rewrite app_nil_r in Hin.
    by eapply makeAuthenticatedRequest_sends.
Qed.

(** A write of one attribute of a group keeps what Keycloak's update would
    otherwise clear: the request carries the name, the description and every
    other attribute of the group as it was read, and the new values under the
    one key, which is removed when they are empty; when the values do not
    change nothing is written. *)
Theorem group_write_keeps_the_rest organizationID groupID key update tr out token path q b y :
  runs resp (UpdateGroupAttribute cfg organizationID groupID key update) tr out →
  ev (resp := resp) (Send token (mkRequest PUT path q b)) y ∈ tr →
  ∃ orgID g s attrs, answered (mkRequest GET ["organizations"; orgID; "groups"; groupID] [] NoBody) s tr ∧
    DecodeGroup (rs_Body s) = Ok g ∧ path = ["organizations"; orgID; "groups"; groupID] ∧
    b = BGroupAttributes (g_Name g) (g_Description g) attrs ∧
    (let values := update (default [] (g_Attributes g !! key)) in
     values ≠ default [] (g_Attributes g !! key) ∧
     attrs !! key = match values with [] => None | _ => Some values end) ∧
    ∀ k, k ≠ key → attrs !! k = g_Attributes g !! k.
Proof.
  intros [(tr1 & tr2 & org & -> & H1 & Hk)|(e & H1 & _)]%runs_bind_ok Hin.
  2: by pose proof (read_only_runs _ _ _ _ _ _ _ _ _ (wrap_error_only _ _ _ (searchOrganization_only _)) H1 Hin).
  apply elem_of_app in Hin as [Hin|Hin].
  1: by pose proof (read_only_runs _ _ _ _ _ _ _ _ _ (wrap_error_only _ _ _ (searchOrganization_only _)) H1 Hin).
  apply runs_bind_ok in Hk as [(tr3 & tr4 & g & -> & H3 & Hk)|(e & H3 & _)].
  2: by pose proof (read_only_runs _ _ _ _ _ _ _ _ _ (getOrgGroup_only _ _) H3 Hin).
  apply elem_of_app in Hin as [Hin|Hin].
  1: by pose proof (read_only_runs _ _ _ _ _ _ _ _ _ (getOrgGroup_only _ _) H3 Hin).
  apply getOrgGroup_answered in H3 as (s & (t & Ha) & Hd).
  revert Hk. cbv zeta. case_bool_decide as Hchange; [intros [-> _]; by apply elem_of_nil in Hin|]. intros Hk.
  set (attrs := set_attribute key (update (default [] (g_Attributes g !! key))) (g_Attributes g)) in Hk.
  assert (path = ["organizations"; kc_ID org; "groups"; groupID] ∧
          b = BGroupAttributes (g_Name g) (g_Description g) attrs) as [-> ->].
  { revert Hk. unfold group_path, buildRealmURL.
    destruct (urlValid cfg); [|by intros [-> _]; apply elem_of_nil in Hin]. intros Hk.
    enough (mkRequest PUT path q b = mkRequest PUT ["organizations"; kc_ID org; "groups"; groupID] []
      (BGroupAttributes (g_Name g) (g_Description g) attrs)) as [= -> _ ->] by done.
    eapply (put_sends _ (λ p, mkRequest PUT p [] (BGroupAttributes (g_Name g) (g_Description g) attrs)));
      [|exact Hk|exact Hin].
    intros u. simpl. unfold expect_status. destruct (StatusCode u =? StatusNotFound); [by eexists|].
    destruct (isSuccessStatus _ _); by eexists. }
  exists (kc_ID org), g, s, attrs. unfold attrs.
  split_and!; [exists t; rewrite !elem_of_app; auto|done..| |].
  - unfold set_attribute. destruct (update _); [apply lookup_delete_eq|apply lookup_insert_eq].
  - intros k Hne. unfold set_attribute. destruct (update _); [by apply lookup_delete_ne|by apply lookup_insert_ne].
Qed.
End Writes.

Module Witness.
#[local] Existing Instance Keycloak.Witness.json.
#[local] Existing Instance Keycloak.Witness.runtime.

Definition add_owner : prog resp (res error unit) :=
  UpdateGroupAttribute Keycloak.Witness.cfg "acme" "admins" "role" (λ l, "owner" :: l).
Definition trace : list (event resp) := (exec resp (Keycloak.Witness.server "acme") tt add_owner).1.1.

Definition is_put (e : event resp) : bool :=
  match e with ev (Send _ r) _ => match rq_Method r with PUT => true | _ => false end | _ => false end.

Lemma group_write_keeps_the_rest_witness :
  ∃ token path q b y, ev (resp := resp) (Send token (mkRequest PUT path q b)) y ∈ trace ∧
    ∃ g attrs, b = BGroupAttributes (g_Name g) (g_Description g) attrs ∧
      ∀ k, k ≠ "role" → attrs !! k = g_Attributes g !! k.
Proof.
  assert (existsb is_put trace = true) as Hi by (vm_compute; reflexivity).
  apply existsb_exists in Hi as ([c y] & Hin & Hc). apply list_elem_of_In in Hin.
  destruct c as [| | | | |token [[] path q b]| | |]; try discriminate Hc.
  exists token, path, q, b, y. split; [exact Hin|].
  assert (runs resp add_owner trace (exec resp (Keycloak.Witness.server "acme") tt add_owner).2) as Hr
    by exact (exec_runs (Keycloak.Witness.server "acme") tt add_owner).
  pose proof (group_write_keeps_the_rest Keycloak.Witness.cfg "acme" "admins" "role" (λ l, "owner" :: l)
    trace _ token path q b y Hr Hin) as Hw.
  destruct Hw as (orgID & g & s & attrs & _ & _ & _ & Hb & _ & Hk).
  exists g, attrs. split; [exact Hb|exact Hk].
Defined.
End Witness.
