(* ===== verification/AccessPolicy.v ===== *)
(** * Who may call which route: [internal/opa], [internal/token] and the scope tables

    The claims of a caller, the scopes each route requires (the generated table
    [services/auth/api/spec/scopes.gen.go]) and the authorization policy
    [internal/opa/policy/policy.rego] on them.  A Rego rule is a boolean
    function: a rule is true when one of its bodies is. *)

From S2P Require Import Prelude GoStrings.

(** ** [token.Claims] *)

Record Organization := mkOrg {
  o_ID : string;
  o_Status : string;
  o_CreatedAt : option Z;
  o_UsageTier : string;
  o_Marketplace : string
}.

Definition OrgEnabledStatus : string := "enabled".

Record Claims := mkClaims {
  Organizations : gmap string Organization;
  cl_ID : string;
  cl_KeyID : string;
  cl_Email : string;
  Scopes : list string;
  Projects : list string;
  Branches : list string
}.

(** The methods accept a nil receiver. *)
Definition UserID (c : option Claims) : string := from_option cl_ID "" c.
Definition APIKeyID (c : option Claims) : string := from_option cl_KeyID "" c.
Definition IsOrganizationKey (c : option Claims) : bool :=
  match c with
  | Some c => bool_decide (cl_ID c = "") && negb (bool_decide (cl_KeyID c = ""))
  | None => false
  end.

Definition HasAccessToOrganization (c : option Claims) (id : string) : bool :=
  match c with
  | Some c => negb (bool_decide (id = "")) && bool_decide (is_Some (Organizations c !! id))
  | None => false
  end.

Definition IsEnabledOrganization (c : option Claims) (id : string) : bool :=
  match c with
  | Some c => negb (bool_decide (id = "")) &&
      match Organizations c !! id with
      | Some o => bool_decide (o_Status o = OrgEnabledStatus)
      | None => false
      end
  | None => false
  end.

Definition contains (l : list string) (s : string) : bool := bool_decide (s ∈ l).

Definition HasAccessToProject (c : option Claims) (id : string) : bool :=
  match c with
  | Some c => negb (bool_decide (id = "")) && (contains (Projects c) "*" || contains (Projects c) id)
  | None => false
  end.

Definition HasAccessToBranch (c : option Claims) (id : string) : bool :=
  match c with
  | Some c => negb (bool_decide (id = "")) && (contains (Branches c) "*" || contains (Branches c) id)
  | None => false
  end.

(** ** [opa.PolicyInput]; a nil slice is normalized to an empty one *)

Record RequestInput := mkRequestInput {
  Method : string;
  Path : string;
  rq_Scopes : list string;
  rq_Organization : string;
  rq_Project : string;
  rq_Branch : string
}.

Record ClaimsInput := mkClaimsInput {
  ci_Scopes : list string;
  ci_Organizations : gmap string (string * string);
  ci_Projects : list string;
  ci_Branches : list string
}.

(** ** policy.rego *)

Module policy.

(** [replace(s, old, new)] replaces every occurrence. *)
Fixpoint replace_from (old new : string) (skip : nat) (s : string) : string :=
  match s with
  | EmptyString => EmptyString
  | String c t =>
      match skip with
      | S n => replace_from old new n t
      | O =>
          if HasPrefix s old then new +:+ replace_from old new (String.length old - 1) t
          else String c (replace_from old new 0 t)
      end
  end.
Definition replace (s old new : string) : string := replace_from old new 0 s.

Section Rules.
Variable request : RequestInput.
Variable claims : ClaimsInput.

(** The other conditions hold for every input of the service: [normalized]
    leaves no null. *)
Definition valid_input : bool :=
  negb (bool_decide (Method request = "")) && negb (bool_decide (Path request = "")).

Definition scope_allowed (scope : string) (claims : list string) : bool :=
  contains claims scope ||
  HasSuffix scope ":read" && contains claims (replace scope ":read" ":write").

Definition valid_scope : bool :=
  contains (ci_Scopes claims) "*" ||
  forallb (λ scope, scope_allowed scope (ci_Scopes claims)) (rq_Scopes request).

Definition valid_organization : bool :=
  negb (Contains (Path request) ":organizationID") ||
  bool_decide (is_Some (ci_Organizations claims !! rq_Organization request)).

Definition permission_granted (value : string) (allowed : list string) : bool :=
  contains allowed "*" || contains allowed value.

Definition requires_project_write_scope : bool := contains (rq_Scopes request) "project:write".

Definition valid_project : bool :=
  let named := Contains (Path request) ":projectID" in
  named && permission_granted (rq_Project request) (ci_Projects claims) ||
  negb named && negb requires_project_write_scope ||
  negb named && contains (ci_Projects claims) "*".

Definition requires_branch_write_scope : bool := contains (rq_Scopes request) "branch:write".

Definition valid_branch : bool :=
  let named := Contains (Path request) ":branchID" in
  named && permission_granted (rq_Branch request) (ci_Branches claims) ||
  negb named && negb requires_branch_write_scope ||
  negb named && contains (ci_Branches claims) "*".

Definition allow : bool :=
  valid_input && valid_scope && valid_organization && valid_project && valid_branch.
End Rules.
End policy.

(** ** The scopes of the routes *)

Definition organization_route : string := "/organizations/:organizationID".
Definition project_route : string := organization_route +:+ "/projects/:projectID".
Definition branch_route : string := project_route +:+ "/branches/:branchID".

Definition routes : list (string * list (string * string)) :=
  [("DELETE",
    [("/api-keys", "keys:write");
     (organization_route, "org:write");
     (organization_route +:+ "/api-keys", "keys:write");
     (organization_route +:+ "/invitations/:invitationID", "invite:write");
     (organization_route +:+ "/members/:userID", "org:write");
     (project_route, "project:write");
     (branch_route, "branch:write");
     (branch_route +:+ "/githubapp/repository", "project:write");
     (organization_route +:+ "/sso/domains/:domain", "org:write");
     (organization_route +:+ "/sso/providers/:providerAlias", "org:write")]);
   ("GET",
    [("/api-keys", "keys:read");
     ("/organizations", "org:read");
     (organization_route, "org:read");
     (organization_route +:+ "/api-keys", "keys:read");
     (organization_route +:+ "/billing/customer", "org:read");
     (organization_route +:+ "/billing/invoices", "org:read");
     (organization_route +:+ "/billing/invoices/upcoming", "org:read");
     (organization_route +:+ "/extensions", "org:read");
     (organization_route +:+ "/githubapp/installations", "project:read");
     (organization_route +:+ "/images", "org:read");
     (organization_route +:+ "/instanceTypes", "org:read");
     (organization_route +:+ "/invitations", "invite:read");
     (organization_route +:+ "/invitations/:invitationID", "invite:read");
     (organization_route +:+ "/limits", "org:read");
     (organization_route +:+ "/members", "org:read");
     (organization_route +:+ "/membership-limits", "org:read");
     (organization_route +:+ "/projects", "project:read");
     (project_route, "project:read");
     (project_route +:+ "/backups", "project:read");
     (project_route +:+ "/backups/:backupID", "project:read");
     (project_route +:+ "/branches", "branch:read");
     (branch_route, "branch:read");
     (branch_route +:+ "/credentials", "credentials:read");
     (branch_route +:+ "/githubapp/repository", "project:read");
     (branch_route +:+ "/postgres-config", "branch:read");
     (project_route +:+ "/limits", "project:read");
     (organization_route +:+ "/regions", "project:read");
     (organization_route +:+ "/roles", "role:read");
     (organization_route +:+ "/sso", "org:read")]);
   ("PATCH",
    [(organization_route +:+ "/billing/customer", "org:write");
     (project_route, "project:write");
     (branch_route, "branch:write")]);
   ("POST",
    [("/api-keys", "keys:write");
     ("/marketplace/register", "marketplace:write");
     ("/organizations", "org:write");
     (organization_route +:+ "/api-keys", "keys:write");
     (organization_route +:+ "/billing/checkout-session", "org:write");
     (organization_route +:+ "/billing/payment-method-session", "org:write");
     (organization_route +:+ "/deletion-request", "org:write");
     (organization_route +:+ "/githubapp/installations", "org:write");
     (organization_route +:+ "/invitations", "invite:write");
     (organization_route +:+ "/invitations/:invitationID/resend", "invite:write");
     (organization_route +:+ "/projects", "project:write");
     (project_route +:+ "/branches", "branch:write");
     (branch_route +:+ "/credentials/rotate", "credentials:write");
     (branch_route +:+ "/githubapp/repository", "project:write");
     (branch_route +:+ "/logs", "logs:read");
     (branch_route +:+ "/metrics", "metrics:read");
     (branch_route +:+ "/restore", "branch:write");
     (organization_route +:+ "/sso/domains", "org:write");
     (organization_route +:+ "/sso/domains/:domain/verify", "org:write");
     (organization_route +:+ "/sso/providers", "org:write")]);
   ("PUT",
    [(organization_route, "org:write");
     (organization_route +:+ "/githubapp/installations/:githubInstallationID", "org:write");
     (organization_route +:+ "/members/:userID/role", "role:write");
     (branch_route +:+ "/githubapp/repository", "project:write");
     (organization_route +:+ "/sso/providers/:providerAlias", "org:write");
     (organization_route +:+ "/sso/providers/:providerAlias/enforcement", "org:write")])].

Definition to_upper_byte (c : ascii) : ascii :=
  let n := byte_val c in
  if (97 <=? n)%Z && (n <=? 122)%Z then ascii_of_N (Z.to_N (n - 32)) else c.
Fixpoint ascii_to_upper (s : string) : string :=
  match s with EmptyString => EmptyString | String c t => String (to_upper_byte c) (ascii_to_upper t) end.

(** Each route requires one scope; other routes none.  A method that is not
    ASCII is none of the cases. *)
Definition find_key {A} (k : string) (l : list (string * A)) : option A :=
  snd <$> (snd <$> list_find (λ x : string * A, x.1 = k) l).

Definition GetScopes (method path : string) : list string :=
  match find_key (ascii_to_upper method) routes ≫= find_key path with
  | Some scope => [scope]
  | None => []
  end.

Definition GetAllScopes : list string :=
  ["branch:read"; "branch:write"; "credentials:read"; "credentials:write"; "invite:read";
   "invite:write"; "keys:read"; "keys:write"; "logs:read"; "marketplace:write"; "metrics:read";
   "org:read"; "org:write"; "project:read"; "project:write"; "role:read"; "role:write"].

(** ** Lemmas *)

Lemma contains_spec l s : contains l s = true ↔ s ∈ l.
Proof. apply bool_decide_eq_true. Qed.

(** Every scope the table requires is one that keys can hold. *)
Lemma routes_scopes :
  Forall (λ e, Forall (λ r, r.2 ∈ GetAllScopes) e.2) routes.
Proof. apply (bool_decide_unpack _). vm_compute. exact I. Qed.

(** For the known scopes, Rego's [replace] changes the suffix only. *)
Lemma known_scopes_replace :
  Forall (λ s, match CutSuffix s ":read" with
               | Some base => policy.replace s ":read" ":write" = base +:+ ":write"
               | None => HasSuffix s ":read" = false
               end) GetAllScopes.
Proof. repeat (constructor; [vm_compute; reflexivity|]). constructor. Qed.

(** ** What the policy permits

    The same decision, said without Rego: the route's scopes are granted (a
    write scope grants the reads), and every organization, project and branch
    the route names is one the caller may use; a route that writes projects or
    branches without naming one needs access to all of them. *)

Definition grants (allowed : list string) (scope : string) : Prop :=
  "*" ∈ allowed ∨ scope ∈ allowed ∨
  ∃ base, scope = base +:+ ":read" ∧ (base +:+ ":write") ∈ allowed.

Definition usable (allowed : list string) (id : string) : Prop := "*" ∈ allowed ∨ id ∈ allowed.

Record permits (rq : RequestInput) (c : ClaimsInput) : Prop := {
  permits_scopes : ∀ s, s ∈ rq_Scopes rq → grants (ci_Scopes c) s;
  permits_organization : Contains (Path rq) ":organizationID" = true →
    is_Some (ci_Organizations c !! rq_Organization rq);
  permits_project : Contains (Path rq) ":projectID" = true → usable (ci_Projects c) (rq_Project rq);
  permits_branch : Contains (Path rq) ":branchID" = true → usable (ci_Branches c) (rq_Branch rq);
  permits_new_project : Contains (Path rq) ":projectID" = false →
    "project:write" ∈ rq_Scopes rq → "*" ∈ ci_Projects c;
  permits_new_branch : Contains (Path rq) ":branchID" = false →
    "branch:write" ∈ rq_Scopes rq → "*" ∈ ci_Branches c
}.

Lemma scope_allowed_known s allowed :
  s ∈ GetAllScopes → policy.scope_allowed s allowed = true →
  s ∈ allowed ∨ ∃ base, s = base +:+ ":read" ∧ (base +:+ ":write") ∈ allowed.
Proof.
  intros Hs Ha. pose proof known_scopes_replace as Hk. rewrite Forall_forall in Hk. specialize (Hk s Hs).
  unfold policy.scope_allowed in Ha.
  apply orb_true_iff in Ha as [Ha|[Hr Ha]%andb_true_iff]; [left; by apply contains_spec|].
  right. destruct (CutSuffix s ":read") as [base|] eqn:Hc; [|congruence].
  rewrite Hk in Ha. exists base. split; [by apply CutSuffix_spec in Hc|by apply contains_spec].
Qed.

Lemma allowed_known s allowed :
  s ∈ GetAllScopes →
  s ∈ allowed ∨ (∃ base, s = base +:+ ":read" ∧ (base +:+ ":write") ∈ allowed) →
  policy.scope_allowed s allowed = true.
Proof.
  intros Hs Ha. pose proof known_scopes_replace as Hk. rewrite Forall_forall in Hk. specialize (Hk s Hs).
  unfold policy.scope_allowed. apply orb_true_iff.
  destruct Ha as [Ha|(base & -> & Ha)]; [left; by apply contains_spec|right].
  unfold HasSuffix. rewrite CutSuffix_app in Hk |- *. simpl. rewrite Hk. by apply contains_spec.
Qed.

Lemma valid_scope_spec rq c :
  (∀ s, s ∈ rq_Scopes rq → s ∈ GetAllScopes) →
  policy.valid_scope rq c = true ↔ ∀ s, s ∈ rq_Scopes rq → grants (ci_Scopes c) s.
Proof.
  intros Hknown. unfold policy.valid_scope. rewrite orb_true_iff, contains_spec, forallb_forall. split.
  - intros [Hs|Hs] s Hin; [by left|]. right.
    apply scope_allowed_known; [by apply Hknown|apply Hs; by apply list_elem_of_In].
  - intros Hg. destruct (decide ("*" ∈ ci_Scopes c)) as [|Hn]; [by left|right].
    intros s Hin%list_elem_of_In. apply allowed_known; [by apply Hknown|].
    destruct (Hg s Hin) as [?|?]; [done|done].
Qed.

Lemma permission_granted_spec v l : policy.permission_granted v l = true ↔ usable l v.
Proof. unfold policy.permission_granted, usable. by rewrite orb_true_iff, !contains_spec. Qed.

Lemma named_rule (named writes all : bool) (P : Prop) granted :
  (granted = true ↔ P) →
  (named && granted || negb named && negb writes || negb named && all = true ↔
   (named = true → P) ∧ (named = false → writes = true → all = true)).
Proof. intros HP. destruct named, writes, all, granted; simpl; intuition congruence. Qed.

(** The policy decides exactly what [permits] says. *)
Lemma allow_permits rq c :
  (∀ s, s ∈ rq_Scopes rq → s ∈ GetAllScopes) →
  policy.allow rq c = true ↔ policy.valid_input rq = true ∧ permits rq c.
Proof.
  intros Hknown. unfold policy.allow. rewrite !andb_true_iff, valid_scope_spec by done.
  unfold policy.valid_organization, policy.valid_project, policy.valid_branch,
    policy.requires_project_write_scope, policy.requires_branch_write_scope.
  rewrite (named_rule _ _ _ _ _ (permission_granted_spec (rq_Project rq) (ci_Projects c))),
    (named_rule _ _ _ _ _ (permission_granted_spec (rq_Branch rq) (ci_Branches c))).
  rewrite !contains_spec, orb_true_iff, negb_true_iff, bool_decide_eq_true.
  assert (∀ (b : bool) (P : Prop), (b = false ∨ P ↔ (b = true → P))) as Hor
    by (intros [] P; intuition congruence).
  rewrite Hor. split.
  - intros [[[[? ?] ?] [? ?]] [? ?]]. split; [done|]. by constructor.
  - intros [? []]. tauto.
Qed.

Lemma find_key_elem {A} k (l : list (string * A)) a : find_key k l = Some a → (k, a) ∈ l.
Proof.
  unfold find_key. destruct (list_find _ l) as [[i [k' a']]|] eqn:Hf; [|done]. intros [= <-].
  apply list_find_Some in Hf as (Hl & Hk & _). simpl in Hk. subst. by apply list_elem_of_lookup_2 in Hl.
Qed.

Lemma GetScopes_known m p s : s ∈ GetScopes m p → s ∈ GetAllScopes.
Proof.
  unfold GetScopes. destruct (find_key _ routes) as [rs|] eqn:Hm; [|set_solver].
  change (Some rs ≫= find_key p) with (find_key p rs). destruct (find_key p rs) as [sc|] eqn:Hp; [|set_solver].
  intros ->%list_elem_of_singleton. apply find_key_elem in Hm, Hp.
  pose proof routes_scopes as Hr. rewrite Forall_forall in Hr. specialize (Hr _ Hm).
  rewrite Forall_forall in Hr. exact (Hr _ Hp).
Qed.
