(* ===== verification/AccessModel.v ===== *)
(** * The authorization service: [services/auth/rpc], [internal/api/auth.go]

    [ValidateAccess] turns a bearer token (an API key or an access token of
    Keycloak) into the caller's claims and asks the policy; the middleware runs
    a handler only when it allows the call.  Keycloak is reached through
    [KeycloakModel], whose programs are embedded here. *)

From S2P Require Import Prelude GoStrings GoFloat GoTime ApiKey Organizations KeycloakModel AccessPolicy.

#[local] Open Scope Z_scope.
#[local] Open Scope go_scope.

Abbreviation KCOrganization := Organizations.Organization.
Abbreviation TokenOrganization := AccessPolicy.Organization.

(** ** Data *)

(** [jwt.MapClaims], a Go map: a key occurs once. *)
Abbreviation MapClaims := (list (string * json)).

(** [store.APIKey], a row of the table [api_keys]. *)
Record APIKey := mkAPIKey {
  ak_ID : string;
  ak_Name : string;
  ak_KeyHash : string;
  ak_KeyPreview : string;
  ak_TargetType : string;
  ak_TargetID : string;
  ak_Expiry : option Z;
  ak_Scopes : list string;
  ak_Projects : list string;
  ak_Branches : list string;
  ak_CreatedBy : option string;
  ak_CreatedByKey : option string
}.

Definition KeyTargetOrganization : string := "organization".
Definition KeyTargetUser : string := "user".

Inductive error :=
| Errorf (msg : string)
| Wrapf (msg : string) (e : error)
| KeycloakError (e : KeycloakModel.error)
| ErrInvalidAPIKey
| ErrFailedToDecodeJWT (msg : string)
| ErrInvalidJWTToken
| ErrInvalidAPIKeyTargetType (t : string)
| ErrUnsupportedTargetType (t : string)
| ErrAPIKeyNotFound (id : string)
| ErrAPIKeyExpiresInPast
| ErrAPIKeyLimitReached
| ErrAPIKeyScopesLimitReached
| ErrAPIKeyProjectsLimitReached
| ErrAPIKeyBranchesLimitReached
| ErrAPIKeyAlreadyExists (name : string)
| ErrorMissingRequiredField (field : string)
| ErrorNoOrganizationAccess (id : string)
| ErrorTooManyAPIKeys (limit count : Z)
| ErrInvalidResourceRestrictions (msg : string)
| ErrInvalidExpiry (reason : string)
| ErrInvalidName (reason : string)
| ErrorAuthorizationFailed (reason : string)
| ErrorOrganizationDisabled (id : string)
| HTTPError (code : Z) (msg : string).

(** The SQL statements are calls; a query answers with its rows.  [InsertKey]
    answers [None] when the name is taken for its target.  [TouchKey] runs in the
    background.  The policy engine may fail; its answer is the policy's.
    [FirstError] says which of two goroutines failed first.  [Handle] is the
    handler behind the middleware. *)
Inductive call :=
| Keycloak (c : KeycloakModel.call)
| Now
| DecodeAccessToken (token : string)
| SelectKeyByHash (hash : string)
| SelectKeyByID (id : string)
| SelectKeys (targetType targetID : string)
| DeleteKeys (targetType targetID : string) (ids : list string)
| TouchKey (id : string)
| BeginTx
| CountKeys (targetType targetID : string)
| InsertKey (row : APIKey)
| Commit
| Rollback
| RandomBytes
| NewID
| ValidateHierarchy (organizations projects branches : list string)
| EvalPolicy
| FirstError
| Handle (c : Claims).

Definition resp (c : call) : Type :=
  match c with
  | Keycloak c => KeycloakModel.resp c
  | Now => Z
  | DecodeAccessToken _ => res string (bool * MapClaims)
  | SelectKeyByHash _ | SelectKeyByID _ => res string (option APIKey)
  | SelectKeys _ _ => res string (list APIKey)
  | DeleteKeys _ _ _ | BeginTx | Commit | ValidateHierarchy _ _ _ | EvalPolicy => option string
  | TouchKey _ | Rollback => unit
  | CountKeys _ _ => res string Z
  | InsertKey _ => res string (option APIKey)
  | RandomBytes => res string (list Z)
  | NewID => string
  | FirstError => bool
  | Handle _ => option error
  end.

Abbreviation M A := (prog resp A).
Abbreviation E A := (M (res error A)).

Definition ok {A} (a : A) : E A := mret (Ok a).
Definition fail {A} (e : error) : E A := mret (Err e).
Definition wrap_error {A} (msg : string) (p : E A) : E A :=
  x ← p; match x with Ok a => ok a | Err e => fail (Wrapf msg e) end.

(** A request to Keycloak. *)
Definition keycloak {A} (p : prog KeycloakModel.resp (res KeycloakModel.error A)) : E A :=
  x ← embed (resp2 := resp) Keycloak (λ c (r : resp (Keycloak c)), r) p;
  match x with Ok a => ok a | Err e => fail (KeycloakError e) end.

(** Third-party and cryptographic functions: the subject of the claims of
    [golang-jwt], and the HMAC a key is stored by. *)
Class AuthLibraries := {
  GetSubject : MapClaims → res string string;
  HMACKey : string → string → string
}.

(** ** token_claims.go *)

Inductive fallbackReason :=
| reasonTrusted
| reasonNoEmail
| reasonNoOrgClaim
| reasonEmptyOrgClaim
| reasonOrgClaimMalformed
| reasonOrgNotXata
| reasonOrgNotInToken
| reasonOrgNotEnabled.

#[global] Instance fallbackReason_eq_dec : EqDecision fallbackReason.
Proof. solve_decision. Defined.

Definition organizationClaim : string := "organization".
Definition emailClaim : string := "email".

Definition xataOrganizationAttributes : list string :=
  [OrganizationDisplayNameKey; OrganizationBillingStatusKey; OrganizationUsageTierKey;
   OrganizationCreatedAtKey; OrganizationLastUpdatedKey].

(** [json.Unmarshal] into a [[]string], a [map[string][]string] and a map of
    those: null is the zero value. *)
Definition decode_string (j : json) : option string :=
  match j with JString s => Some s | JNull => Some "" | _ => None end.

Definition decode_values (j : json) : option (list string) :=
  match j with JNull => Some [] | JArray l => mapM decode_string l | _ => None end.

Definition decode_fields {A} (decode : json → option A) (m : list (string * json)) : option (gmap string A) :=
  (λ l, list_to_map (rev l)) <$> mapM (λ kv, (λ v, (kv.1, v)) <$> decode kv.2) m.

Definition decode_attributes (j : json) : option attributes :=
  match j with JNull => Some ∅ | JObject m => decode_fields decode_values m | _ => None end.

Definition decode_claimed (j : json) : option (gmap string attributes) :=
  match j with JNull => Some ∅ | JObject m => decode_fields decode_attributes m | _ => None end.

Definition hasXataAttributes (attrs : attributes) : bool :=
  existsb (λ key, bool_decide (is_Some (FirstAttr attrs key))) xataOrganizationAttributes.

Section Service.
Context `{GoRuntime} `{KeycloakJSON} `{Base62} `{AuthLibraries}.

Definition tokenOrganization (o : KCOrganization) : TokenOrganization :=
  mkOrg (org_ID o) (EffectiveState (Status o)) (CreatedAt (Status o)) (UsageTier (Status o))
    (default "" (Marketplace o)).

Definition claimed_deleted (attrs : attributes) : bool :=
  bool_decide (is_Some (FirstAttr attrs OrganizationDeletedAtKey)).

(** The organizations of the claim that are not deleted. *)
Definition claimed_organizations (claimed : gmap string attributes) : gmap string TokenOrganization :=
  map_imap (λ alias attrs, if claimed_deleted attrs then None
                           else Some (tokenOrganization (OrganizationFromAttributes alias attrs))) claimed.

(** The loop over the claim fails on an organization without a known attribute,
    in whatever order it meets it. *)
Definition claimsFromAccessToken (userID : string) (mc : MapClaims) : res fallbackReason Claims :=
  let email := match find_key emailClaim mc with Some (JString s) => s | _ => "" end in
  if bool_decide (email = "") then Err reasonNoEmail
  else
    match find_key organizationClaim mc with
    | None => Err reasonNoOrgClaim
    | Some raw =>
        match decode_claimed raw with
        | None => Err reasonOrgClaimMalformed
        | Some claimed =>
            if bool_decide (claimed = ∅) then Err reasonEmptyOrgClaim
            else if bool_decide (map_Forall (λ _ attrs, hasXataAttributes attrs = true) claimed) then
              Ok (mkClaims (claimed_organizations claimed) userID "" email ["*"] ["*"] ["*"])
            else Err reasonOrgNotXata
        end
    end.

Definition addDefaultOrganization (orgs : gmap string TokenOrganization) (defaultOrgID : string)
    : gmap string TokenOrganization :=
  if bool_decide (defaultOrgID = "") then orgs
  else match orgs !! defaultOrgID with
       | Some _ => orgs
       | None => <[defaultOrgID := mkOrg defaultOrgID OrgEnabledStatus None UsageTierT2 ""]> orgs
       end.

Definition set_organizations (orgs : gmap string TokenOrganization) (c : Claims) : Claims :=
  mkClaims orgs (cl_ID c) (cl_KeyID c) (cl_Email c) (Scopes c) (Projects c) (Branches c).

(** ** auth.go *)

(** The service: the Keycloak configuration, the default organization and the
    secret of the key hashes. *)
Record AuthService := mkAuthService {
  as_Keycloak : AuthConfig;
  as_DefaultOrgID : string;
  as_HMACSecret : string
}.
Variable a : AuthService.

Definition HashKey (k : string) : string := HMACKey (as_HMACSecret a) k.

Definition trustedClaims (userID organizationID : string) (mc : MapClaims) : res fallbackReason Claims :=
  match claimsFromAccessToken userID mc with
  | Err reason => Err reason
  | Ok claims =>
      let claims := set_organizations
        (addDefaultOrganization (Organizations claims) (as_DefaultOrgID a)) claims in
      if bool_decide (organizationID = "") then Ok claims
      else match Organizations claims !! organizationID with
           | None => Err reasonOrgNotInToken
           | Some o =>
               if bool_decide (o_Status o = OrgEnabledStatus) then Ok claims
               else Err reasonOrgNotEnabled
           end
  end.

(** Two goroutines; an error of either is returned, the first one of two. *)
Definition buildUserClaims (userID : string) : E Claims :=
  if bool_decide (userID = "") then fail (Errorf "user ID cannot be empty")
  else
    user ← wrap_error "failed to get user from Keycloak"
             (keycloak (GetUserRepresentation (as_Keycloak a) userID));
    orgList ← wrap_error "failed to list user organizations"
                (keycloak (ListOrganizations (as_Keycloak a) userID));
    match user, orgList with
    | Err e1, Err e2 => first ← perform FirstError; fail (if first : bool then e1 else e2)
    | Err e, Ok _ | Ok _, Err e => fail e
    | Ok user, Ok orgList =>
        if bool_decide (usr_ID user = "") then fail (Errorf ("user not found in Keycloak: " +:+ userID))
        else
          let organizations := foldl (λ m o, <[org_ID o := tokenOrganization o]> m) ∅ orgList in
          ok (mkClaims (addDefaultOrganization organizations (as_DefaultOrgID a))
                (usr_ID user) "" (usr_Email user) ["*"] ["*"] ["*"])
    end.

Definition buildOrgClaims (orgID : string) : E Claims :=
  if bool_decide (orgID = "") then fail (Errorf "organization ID cannot be empty")
  else
    o <-? wrap_error ("failed to get organization [" +:+ orgID +:+ "] from Keycloak")
            (keycloak (GetOrganization (as_Keycloak a) orgID false));
    ok (mkClaims {[ org_ID o := tokenOrganization o ]} "" "" "" ["*"] ["*"] ["*"]).

Definition validateJWT (token organizationID : string) : E Claims :=
  x ← perform (DecodeAccessToken token);
  match x with
  | Err e => fail (ErrFailedToDecodeJWT e)
  | Ok (valid, claims) =>
      if negb valid then fail ErrInvalidJWTToken
      else
        match GetSubject claims with
        | Err e => fail (Wrapf "failed to get user ID from JWT claims" (Errorf e))
        | Ok userID =>
            match trustedClaims userID organizationID claims with
            | Ok claims => ok claims
            | Err _ => buildUserClaims userID
            end
        end
  end.

(** [sqlAuthStore.ValidateAPIKey] *)
Definition expired (now : Z) (k : APIKey) : bool :=
  match ak_Expiry k with Some e => e <? now | None => false end.

Definition ValidateAPIKey (key : string) : E APIKey :=
  row ← perform (SelectKeyByHash (HashKey key));
  match row with
  | Ok (Some k) =>
      match ak_Expiry k with
      | None => _ ← perform (TouchKey (ak_ID k)); ok k
      | Some e =>
          now ← perform Now;
          if e <? now then fail ErrInvalidAPIKey
          else _ ← perform (TouchKey (ak_ID k)); ok k
      end
  | _ => fail ErrInvalidAPIKey
  end.

Definition restrict (k : APIKey) (c : Claims) : Claims :=
  mkClaims (Organizations c) (cl_ID c) (ak_ID k) (cl_Email c) (ak_Scopes k) (ak_Projects k) (ak_Branches k).

Definition key_claims (key : string) : E Claims :=
  k <-? ValidateAPIKey key;
  if bool_decide (ak_TargetType k = KeyTargetOrganization) then
    c <-? buildOrgClaims (ak_TargetID k); ok (restrict k c)
  else if bool_decide (ak_TargetType k = KeyTargetUser) then
    c <-? buildUserClaims (ak_TargetID k); ok (restrict k c)
  else fail (ErrInvalidAPIKeyTargetType (ak_TargetType k)).

(** [authv1.ValidateAccessRequest]: the token and the request of the policy. *)
Definition token_claims (token organizationID : string) : E Claims :=
  if IsValid token then key_claims token else validateJWT token organizationID.

Definition policy_claims (c : Claims) : ClaimsInput :=
  mkClaimsInput (Scopes c) ((λ o, (o_ID o, o_Status o)) <$> Organizations c) (Projects c) (Branches c).

(** The response carries the decision and the claims. *)
Definition ValidateAccess (token : string) (rq : RequestInput) : E (bool * Claims) :=
  claims <-? token_claims token (rq_Organization rq);
  e ← perform EvalPolicy;
  match e with
  | Some e => fail (Wrapf "OPA policy evaluation failed" (Errorf e))
  | None => ok (policy.allow rq (policy_claims claims), claims)
  end.

(** ** [internal/api/auth.go] *)

(** The parts of an HTTP request the middleware reads: the method, the route
    with its parameters and the Authorization header. *)
Record http_request := mkHTTP {
  h_Method : string;
  h_Route : string;
  h_OrganizationID : string;
  h_ProjectID : string;
  h_BranchID : string;
  h_Authorization : string
}.

Definition BearerTokenFromHeader (rq : http_request) : option string :=
  let auth := h_Authorization rq in
  if (7 <? Z.of_nat (String.length auth)) &&
     bool_decide (ascii_to_lower (take_str 6 auth) = "bearer")
  then Some (drop_str 7 auth) else None.

Definition policy_request (rq : http_request) : RequestInput :=
  mkRequestInput (h_Method rq) (h_Route rq) (GetScopes (h_Method rq) (h_Route rq))
    (h_OrganizationID rq) (h_ProjectID rq) (h_BranchID rq).

(** [next] gets the claims stored in the context. *)
Definition AuthMiddleware (next : Claims → M (option error)) (rq : http_request) : M (option error) :=
  match BearerTokenFromHeader rq with
  | None => mret (Some (HTTPError 401 "no token found"))
  | Some token =>
      x ← ValidateAccess token (policy_request rq);
      match x with
      | Err _ => mret (Some (HTTPError 401 "invalid token"))
      | Ok (allowed, claims) =>
          if negb allowed then mret (Some (HTTPError 403 "access denied"))
          else next claims
      end
  end.

(** ** The organization check of the handlers
    ([services/projects/api/handler.go], [services/auth/api/handler.go]) *)

Inductive Permission := All | OnlyEnabled.

Definition withOrganizationAccess (claims : option Claims) (organizationID : string) (p : Permission)
    (fn : M (option error)) : M (option error) :=
  match claims with
  | None => mret (Some (HTTPError 401 ""))
  | Some _ =>
      if negb (HasAccessToOrganization claims organizationID) then
        mret (Some (ErrorAuthorizationFailed ("no access to organization [" +:+ organizationID +:+ "]")))
      else if match p with OnlyEnabled => negb (IsEnabledOrganization claims organizationID) | All => false end
      then mret (Some (ErrorOrganizationDisabled organizationID))
      else fn
  end.
End Service.
