(* ===== verification/ApiKeysModel.v ===== *)
(** * The life of an API key: [services/auth/api/handler.go] and the store

    Creation, listing and deletion of the keys of a user or an organization:
    the checks of the handlers, and the statements of [sqlAuthStore].  The times
    of creation and last use of a row are not modelled. *)

From S2P Require Import Prelude GoStrings ApiKey Organizations KeycloakModel AccessPolicy AccessModel.

#[local] Open Scope Z_scope.
#[local] Open Scope go_scope.

Definition MaxAPIKeyNameLength : Z := 256.
Definition MaxBulkDeleteAPIKeys : Z := 50.
Definition MaxAPIKeysPerTarget : Z := 50.
Definition MaxScopesPerAPIKey : Z := 50.
Definition MaxProjectsPerAPIKey : Z := 50.
Definition MaxBranchesPerAPIKey : Z := 50.
Definition DefaultObfuscateCharsCount : Z := 3.

Definition len {A} (l : list A) : Z := Z.of_nat (length l).
Definition is_empty {A} (l : list A) : bool := match l with [] => true | _ => false end.

(** [store.APIKeyCreate] *)
Record APIKeyCreate := mkAPIKeyCreate {
  kc_Name : string;
  kc_Expiry : option Z;
  kc_Scopes : list string;
  kc_Projects : list string;
  kc_Branches : list string;
  kc_CreatedBy : option string;
  kc_CreatedByKey : option string
}.

(** The body of a creation request; an omitted list is nil. *)
Record CreateBody := mkCreateBody {
  cb_Name : string;
  cb_Expiry : option Z;
  cb_Scopes : option (list string);
  cb_Projects : option (list string);
  cb_Branches : option (list string)
}.

(** [spec.FullAPIKey] and [spec.APIKeyPreview] *)
Record APIKeyPreview := mkPreview {
  pv_Id : string;
  pv_Name : string;
  pv_Preview : string;
  pv_Expiry : option Z;
  pv_Scopes : list string;
  pv_Projects : list string;
  pv_Branches : list string;
  pv_CreatedBy : option string;
  pv_CreatedByKey : option string
}.
Record FullAPIKey := mkFullKey { fk_Token : string; fk_Preview : APIKeyPreview }.

(** ** The lists of a request *)

Definition rejectMixedWildcard (slice : option (list string)) (field : string) : option error :=
  match slice with
  | None => None
  | Some l =>
      if negb (contains l "*") then None
      else if existsb (λ s, negb (bool_decide (s = "*")) && negb (bool_decide (s = ""))) l
      then Some (ErrInvalidResourceRestrictions (field +:+ " cannot mix '*' with specific values"))
      else None
  end.

(** The first occurrence of every value is kept. *)
Fixpoint distinct_from (seen l : list string) : list string :=
  match l with
  | [] => []
  | s :: t =>
      if bool_decide (s = "") || contains seen s then distinct_from seen t
      else s :: distinct_from (s :: seen) t
  end.

Definition cleanPermissionArray (slice : option (list string)) : list string :=
  match slice with
  | None => []
  | Some l => if contains l "*" then ["*"] else distinct_from [] l
  end.

Definition scopeAllowed (scope : string) (allowed : list string) : bool :=
  if contains allowed "*" || contains allowed scope then true
  else match CutSuffix scope ":read" with
       | Some base => contains allowed (base +:+ ":write")
       | None => false
       end.

Definition validateResourceList (requested userAccess : list string) (resourceType : string) : option error :=
  if is_empty requested then None
  else if contains userAccess "*" then None
  else match List.find (λ r, negb (contains userAccess r)) requested with
       | Some r => Some (ErrInvalidResourceRestrictions
                           ("insufficient access to " +:+ resourceType +:+ ": " +:+ r))
       | None => None
       end.

(** [if err := ...; err != nil { return err }] *)
Definition check {A} (e : option error) (k : E A) : E A :=
  match e with Some e => fail e | None => k end.

Definition guard_error {A} (b : bool) (e : error) (k : E A) : E A := if b then fail e else k.

(** ** The store *)

Section Store.
Context `{Base62} `{AuthLibraries}.
Variable a : AuthService.

Definition generateAPIKey (targetType : string) : E string :=
  let key prefix :=
    b ← perform RandomBytes;
    match b with Err e => fail (Errorf e) | Ok b => ok (newKey prefix b) end in
  if bool_decide (targetType = KeyTargetOrganization) then key OrganizationKeyPrefix
  else if bool_decide (targetType = KeyTargetUser) then key UserKeyPrefix
  else fail (ErrUnsupportedTargetType targetType).

Definition or_all (l : list string) : list string := if is_empty l then ["*"] else l.
Definition non_empty_ptr (s : option string) : option string :=
  match s with Some "" => None | _ => s end.

(** [Rollback] is deferred: it runs after [Commit] too, and does nothing then. *)
Definition insert_key (targetType targetID rawKey : string) (k : APIKeyCreate) : E APIKey :=
  count ← perform (CountKeys targetType targetID);
  match count with
  | Err e => fail (Wrapf "failed to count API keys" (Errorf e))
  | Ok count =>
      if MaxAPIKeysPerTarget <=? count then fail ErrAPIKeyLimitReached
      else
        id ← perform NewID;
        row ← perform (InsertKey (mkAPIKey id (kc_Name k) (HashKey a rawKey)
                 (Obfuscate rawKey DefaultObfuscateCharsCount) targetType targetID (kc_Expiry k)
                 (kc_Scopes k) (kc_Projects k) (kc_Branches k)
                 (non_empty_ptr (kc_CreatedBy k)) (non_empty_ptr (kc_CreatedByKey k))));
        match row with
        | Ok None => fail (ErrAPIKeyAlreadyExists (kc_Name k))
        | Err e => fail (Errorf e)
        | Ok (Some apiKey) =>
            e ← perform Commit;
            match e with
            | Some e => fail (Wrapf "failed to commit transaction" (Errorf e))
            | None => ok apiKey
            end
        end
  end.

Definition CreateAPIKey (targetType targetID : string) (k : APIKeyCreate) : E (string * APIKey) :=
  past ← match kc_Expiry k with
         | None => mret false
         | Some e => now ← perform Now; mret (e <? now)
         end;
  guard_error past ErrAPIKeyExpiresInPast
  (guard_error (MaxScopesPerAPIKey <? len (kc_Scopes k)) ErrAPIKeyScopesLimitReached
  (guard_error (MaxProjectsPerAPIKey <? len (kc_Projects k)) ErrAPIKeyProjectsLimitReached
  (guard_error (MaxBranchesPerAPIKey <? len (kc_Branches k)) ErrAPIKeyBranchesLimitReached
  (rawKey <-? generateAPIKey targetType;
   e ← perform BeginTx;
   match e with
   | Some e => fail (Wrapf "failed to begin transaction" (Errorf e))
   | None =>
       r ← insert_key targetType targetID rawKey
             (mkAPIKeyCreate (kc_Name k) (kc_Expiry k) (or_all (kc_Scopes k)) (or_all (kc_Projects k))
                (or_all (kc_Branches k)) (kc_CreatedBy k) (kc_CreatedByKey k));
       _ ← perform Rollback;
       match r with Ok apiKey => ok (rawKey, apiKey) | Err e => fail e end
   end)))).

Definition DeleteAPIKeys (targetType targetID : string) (keyIDs : list string) : E unit :=
  if is_empty keyIDs then ok ()
  else e ← perform (DeleteKeys targetType targetID keyIDs);
       match e with Some e => fail (Errorf e) | None => ok () end.

Definition GetAPIKey (id : string) : E APIKey :=
  row ← perform (SelectKeyByID id);
  match row with
  | Ok (Some k) => ok k
  | Ok None => fail (ErrAPIKeyNotFound id)
  | Err e => fail (Wrapf "get API key" (Errorf e))
  end.

Definition ListAPIKeys (targetType targetID : string) : E (list APIKey) :=
  rows ← perform (SelectKeys targetType targetID);
  match rows with
  | Ok l => ok l
  | Err e => fail (Wrapf "failed to query API keys" (Errorf e))
  end.

(** ** The handlers *)

Definition mapAPIKeyPreview (k : APIKey) : APIKeyPreview :=
  mkPreview (ak_ID k) (ak_Name k) (ak_KeyPreview k) (ak_Expiry k) (ak_Scopes k) (ak_Projects k)
    (ak_Branches k) (ak_CreatedBy k) (ak_CreatedByKey k).
Definition mapAPIKeyPreviews (l : list APIKey) : list APIKeyPreview := map mapAPIKeyPreview l.
Definition mapAPIKeyResponse (k : APIKey) (token : string) : FullAPIKey :=
  mkFullKey token (mapAPIKeyPreview k).

(** The three lists a key holds. *)
Record Permissions := mkPermissions {
  p_Scopes : list string;
  p_Projects : list string;
  p_Branches : list string
}.

Definition claims_permissions (c : Claims) : Permissions := mkPermissions (Scopes c) (Projects c) (Branches c).
Definition key_permissions (k : APIKey) : Permissions := mkPermissions (ak_Scopes k) (ak_Projects k) (ak_Branches k).

Definition inherit (l parent : list string) : list string := if is_empty l then parent else l.

(** The upper bound on what the new key can hold, and what it asks for. *)
Definition bounded_by_parent (claims : Claims) (expiry : option Z) (asked : Permissions)
    : E (Permissions * Permissions) :=
  if bool_decide (cl_KeyID claims = "") then ok (claims_permissions claims, asked)
  else
    parent <-? wrap_error "get parent api key" (GetAPIKey (cl_KeyID claims));
    guard_error (is_empty (ak_Scopes parent) || is_empty (ak_Projects parent) || is_empty (ak_Branches parent))
      (ErrInvalidResourceRestrictions "parent API key has invalid permissions")
    (guard_error
       match ak_Expiry parent with
       | None => false
       | Some pe => match expiry with None => true | Some e => pe <? e end
       end
       (ErrInvalidExpiry "expiry must not exceed parent API key expiry")
     (ok (key_permissions parent,
          mkPermissions (inherit (p_Scopes asked) (ak_Scopes parent))
            (inherit (p_Projects asked) (ak_Projects parent))
            (inherit (p_Branches asked) (ak_Branches parent))))).

Definition concrete (l : list string) : list string := if contains l "*" then [] else l.
Definition organizationIDs (c : Claims) : list string := (map_to_list (Organizations c)).*1.

Definition validate_hierarchy (claims : Claims) (p : Permissions) : E unit :=
  let projects := concrete (p_Projects p) in
  let branches := concrete (p_Branches p) in
  if is_empty projects && is_empty branches then ok ()
  else e ← perform (ValidateHierarchy (organizationIDs claims) projects branches);
       match e with Some e => fail (ErrInvalidResourceRestrictions e) | None => ok () end.

Definition within (p allowed : Permissions) : option error :=
  match List.find (λ s, negb (scopeAllowed s (p_Scopes allowed))) (p_Scopes p) with
  | Some s => Some (ErrInvalidResourceRestrictions ("insufficient access to scope: " +:+ s))
  | None =>
      match validateResourceList (p_Projects p) (p_Projects allowed) "project" with
      | Some e => Some e
      | None => validateResourceList (p_Branches p) (p_Branches allowed) "branch"
      end
  end.

Definition unknown_scope (scopes : list string) : option error :=
  match List.find (λ s, negb (bool_decide (s = "*")) && negb (contains GetAllScopes s)) scopes with
  | Some s => Some (ErrInvalidResourceRestrictions ("invalid scope: " +:+ s))
  | None => None
  end.

Definition future (expiry : option Z) : M bool :=
  match expiry with None => mret true | Some e => now ← perform Now; mret (now <? e) end.

Definition createAPIKey (claims : option Claims) (targetType targetID : string) (body : CreateBody)
    : E FullAPIKey :=
  guard_error (bool_decide (cb_Name body = "")) (ErrorMissingRequiredField "name")
  (guard_error (MaxAPIKeyNameLength <? Z.of_nat (String.length (cb_Name body)))
     (ErrInvalidName "must be at most 256 characters")
  (later ← future (cb_Expiry body);
   guard_error (negb later) (ErrInvalidExpiry "expiry must be in the future")
   (check (rejectMixedWildcard (cb_Scopes body) "scopes")
   (check (rejectMixedWildcard (cb_Projects body) "projects")
   (check (rejectMixedWildcard (cb_Branches body) "branches")
   (match claims with
    | None => fail (HTTPError 401 "")
    | Some claims =>
        let asked := mkPermissions (cleanPermissionArray (cb_Scopes body))
          (cleanPermissionArray (cb_Projects body)) (cleanPermissionArray (cb_Branches body)) in
        check (unknown_scope (p_Scopes asked))
        (bounds <-? bounded_by_parent claims (cb_Expiry body) asked;
         let '(allowed, p) := bounds in
         validate_hierarchy claims p ;;?
         check (within p allowed)
         (created <-? CreateAPIKey targetType targetID
            (mkAPIKeyCreate (cb_Name body) (cb_Expiry body) (p_Scopes p) (p_Projects p) (p_Branches p)
               (Some (cl_ID claims)) (Some (cl_KeyID claims)));
          let '(token, apiKey) := created in
          ok (mapAPIKeyResponse apiKey token)))
    end)))))).

Definition withOrganizationAccess {A} (claims : option Claims) (organizationID : string) (fn : E A) : E A :=
  match claims with
  | None => fail (HTTPError 401 "")
  | Some _ =>
      if negb (HasAccessToOrganization claims organizationID)
      then fail (ErrorNoOrganizationAccess organizationID)
      else fn
  end.

Definition withAuthenticatedUser {A} (claims : option Claims) (fn : string → E A) : E A :=
  match claims with
  | None => fail (HTTPError 401 "")
  | Some _ =>
      let userID := UserID claims in
      if bool_decide (userID = "")
      then fail (HTTPError 400 "Endpoint only available for authenticated users")
      else fn userID
  end.

(** [body] is what [api.ReadBody] makes of the request's body. *)
Definition with_body {B A} (body : res error B) (k : B → E A) : E A :=
  match body with Err e => fail e | Ok b => k b end.

Definition delete_keys (targetType targetID : string) (ids : list string) (too_many : error) : E unit :=
  guard_error (MaxBulkDeleteAPIKeys <? len ids) too_many (DeleteAPIKeys targetType targetID ids).

Definition DeleteUserAPIKeys (claims : option Claims) (body : res error (list string)) : E unit :=
  withAuthenticatedUser claims (λ userId, with_body body (λ ids,
    delete_keys KeyTargetUser userId ids (ErrorTooManyAPIKeys MaxBulkDeleteAPIKeys (len ids)))).

Definition DeleteOrganizationAPIKeys (claims : option Claims) (organizationID : string)
    (body : res error (list string)) : E unit :=
  withOrganizationAccess claims organizationID (with_body body (λ ids,
    delete_keys KeyTargetOrganization organizationID ids (ErrorTooManyAPIKeys 0 0))).

Definition ListUserAPIKeys (claims : option Claims) : E (list APIKeyPreview) :=
  withAuthenticatedUser claims (λ userId,
    l <-? ListAPIKeys KeyTargetUser userId; ok (mapAPIKeyPreviews l)).

Definition ListOrganizationAPIKeys (claims : option Claims) (organizationID : string) : E (list APIKeyPreview) :=
  withOrganizationAccess claims organizationID (
    l <-? ListAPIKeys KeyTargetOrganization organizationID; ok (mapAPIKeyPreviews l)).

Definition CreateUserAPIKey (claims : option Claims) (body : res error CreateBody) : E FullAPIKey :=
  withAuthenticatedUser claims (λ userId, with_body body (createAPIKey claims KeyTargetUser userId)).

Definition CreateOrganizationAPIKey (claims : option Claims) (organizationID : string)
    (body : res error CreateBody) : E FullAPIKey :=
  withOrganizationAccess claims organizationID
    (with_body body (createAPIKey claims KeyTargetOrganization organizationID)).
End Store.
