(* ===== verification/Access.v ===== *)
(** * Access control, proved

    What a request must carry to reach a handler, and where the claims of a
    session come from. *)

From S2P Require Import Prelude GoStrings GoFloat GoTime ApiKey Organizations KeycloakModel Keycloak AccessPolicy AccessModel.

#[local] Open Scope Z_scope.
#[local] Open Scope go_scope.

(** ** Programs *)

(** The exchanges of a request to Keycloak are among those of the service. *)
Lemma keycloak_ok {A} (p : prog KeycloakModel.resp (res KeycloakModel.error A)) tr a :
  runs resp (keycloak p) tr (Ok a) →
  ∃ tr1, runs KeycloakModel.resp p tr1 (Ok a) ∧
    ∀ c r, ev (resp := KeycloakModel.resp) c r ∈ tr1 → ev (resp := resp) (Keycloak c) r ∈ tr.
Proof.
  intros (tr1 & tr2 & [b|e] & -> & Hp & Hk)%runs_bind; apply runs_ret in Hk as [-> [= ->]].
  apply runs_embed in Hp as (tr0 & H0 & _ & He). exists tr0. split; [done|].
  intros c r Hin. destruct (He c r Hin) as (r' & -> & Hr'). apply elem_of_app. by left.
Qed.

Lemma wrap_access_error_ok {A} msg (p : E A) tr a :
  runs resp (wrap_error msg p) tr (Ok a) → runs resp p tr (Ok a).
Proof.
  intros (tr1 & tr2 & [b|e] & -> & Hp & Hk)%runs_bind; apply runs_ret in Hk as [-> [= ->]].
  by rewrite app_nil_r.
Qed.

(** ** Scopes of routes *)

Lemma find_key_elem_of {A} k (l : list (string * A)) v : find_key k l = Some v → (k, v) ∈ l.
Proof.
  unfold find_key. intros Hf. destruct (list_find _ l) as [[i [k' v']]|] eqn:Hl; [|done].
  apply list_find_Some in Hl as (Hl & Hk & _). simpl in Hf, Hk. injection Hf as ->. subst k'.
  by eapply list_elem_of_lookup_2.
Qed.

Lemma GetScopes_all method path s : s ∈ GetScopes method path → s ∈ GetAllScopes.
Proof.
  unfold GetScopes. destruct (find_key _ routes ≫= find_key path) as [scope|] eqn:Hf; [|by intros ?%elem_of_nil].
  intros ->%list_elem_of_singleton. apply bind_Some in Hf as (table & Ht & Hs).
  apply find_key_elem_of in Ht, Hs. pose proof routes_scopes as Hr.
  rewrite Forall_forall in Hr. specialize (Hr _ Ht). simpl in Hr.
  rewrite Forall_forall in Hr. exact (Hr _ Hs).
Qed.

(** ** Authentication *)

Section Access.
Context {rt : GoRuntime} {kj : KeycloakJSON} {b62 : Base62} {al : AuthLibraries}.
Variable a : AuthService.

(** The claims were computed by [p] in some of the exchanges. *)
Definition obtained (p : E Claims) (claims : Claims) (tr : list (event resp)) : Prop :=
  ∃ tr1 tr2 tr3, tr = tr1 ++ tr2 ++ tr3 ∧ runs resp p tr2 (Ok claims).

(** A session: a token that was decoded and found valid, for the user it names. *)
Definition session (token organizationID : string) (claims : Claims) (tr : list (event resp)) : Prop :=
  ∃ mc userID, ev (resp := resp) (DecodeAccessToken token) (Ok (true, mc)) ∈ tr ∧
    GetSubject mc = Ok userID ∧
    (trustedClaims a userID organizationID mc = Ok claims ∨ obtained (buildUserClaims a userID) claims tr).

(** A key: a row found by the hash of the token, not expired when it was
    checked; the claims have exactly its restrictions and are those of its owner. *)
Definition by_row (k : APIKey) (token : string) (claims : Claims) (tr : list (event resp)) : Prop :=
  ev (resp := resp) (SelectKeyByHash (HashKey a token)) (Ok (Some k)) ∈ tr ∧
  (∀ e, ak_Expiry k = Some e → ∃ now, ev (resp := resp) Now now ∈ tr ∧ now <= e) ∧
  ∃ owner, claims = restrict k owner ∧
    ((ak_TargetType k = KeyTargetOrganization ∧ obtained (buildOrgClaims a (ak_TargetID k)) owner tr) ∨
     (ak_TargetType k = KeyTargetUser ∧ obtained (buildUserClaims a (ak_TargetID k)) owner tr)).

Definition by_key (token : string) (claims : Claims) (tr : list (event resp)) : Prop :=
  ∃ k, by_row k token claims tr.

Lemma obtained_mid p claims tr1 tr2 tr3 :
  runs resp p tr2 (Ok claims) → obtained p claims (tr1 ++ tr2 ++ tr3).
Proof. intros. by exists tr1, tr2, tr3. Qed.

Lemma validateJWT_session token organizationID tr claims :
  runs resp (validateJWT a token organizationID) tr (Ok claims) → session token organizationID claims tr.
Proof.
  intros (x & tr1 & -> & Hk). destruct x as [[[] mc]|e]; [|by destruct Hk as [_ [=]]..].
  destruct (GetSubject mc) as [userID|e] eqn:Hs; cbn in Hk; rewrite Hs in Hk; [|by destruct Hk as [_ [=]]].
  exists mc, userID. split_and!; [by left|done|].
  destruct (trustedClaims a userID organizationID mc) as [c|reason].
  - destruct Hk as [_ [= ->]]. by left.
  - right. rewrite <- (app_nil_r tr1). by apply (obtained_mid _ _ [_]).
Qed.

Lemma ValidateAPIKey_spec key tr k :
  runs resp (ValidateAPIKey a key) tr (Ok k) →
  ev (resp := resp) (SelectKeyByHash (HashKey a key)) (Ok (Some k)) ∈ tr ∧
  ∀ e, ak_Expiry k = Some e → ∃ now, ev (resp := resp) Now now ∈ tr ∧ now <= e.
Proof.
  intros (x & tr1 & -> & Hk). destruct x as [[row|]|e]; [|by destruct Hk as [_ [=]]..].
  destruct (ak_Expiry row) as [e|] eqn:He; cbn in Hk; rewrite He in Hk.
  - destruct Hk as (now & tr2 & -> & Hk). destruct (e <? now) eqn:Hn; [by destruct Hk as [_ [=]]|].
    destruct Hk as ([] & tr3 & -> & -> & [= ->]). split; [by left|].
    intros e' He'. exists now. split; [right; by left|]. rewrite He in He'. injection He' as ->. lia.
  - destruct Hk as ([] & tr2 & -> & -> & [= ->]). split; [by left|]. intros e' He'. by rewrite He in He'.
Qed.

Lemma key_claims_by_key key tr claims :
  runs resp (key_claims a key) tr (Ok claims) → by_key key claims tr.
Proof.
  intros [(tr1 & tr2 & k & -> & H1 & Hk)|(e & _ & [=])]%runs_bind_ok.
  apply ValidateAPIKey_spec in H1 as [Hfound Halive].
  assert (∃ p owner, obtained p owner (tr1 ++ tr2) ∧ claims = restrict k owner ∧
    ((ak_TargetType k = KeyTargetOrganization ∧ p = buildOrgClaims a (ak_TargetID k)) ∨
     (ak_TargetType k = KeyTargetUser ∧ p = buildUserClaims a (ak_TargetID k))))
    as (p & owner & Hp & -> & Htype).
  { revert Hk. case_bool_decide; [|case_bool_decide; [|by intros [_ [=]]]].
    all: intros [(tr3 & tr4 & c & -> & H3 & [-> [= ->]])|(e & _ & [=])]%runs_bind_ok.
    all: eexists _, c; split; [apply obtained_mid; exact H3|]; eauto. }
  exists k. split; [|split].
  - apply elem_of_app. by left.
  - intros e He. destruct (Halive e He) as (now & ? & ?). exists now. rewrite elem_of_app. auto.
  - exists owner. split; [done|]. destruct Htype as [[Ht ->]|[Ht ->]]; eauto.
Qed.

Definition authenticated (token organizationID : string) (claims : Claims) (tr : list (event resp)) : Prop :=
  if IsValid token then by_key token claims tr else session token organizationID claims tr.

Lemma token_claims_authenticated token organizationID tr claims :
  runs resp (token_claims a token organizationID) tr (Ok claims) →
  authenticated token organizationID claims tr.
Proof.
  unfold token_claims, authenticated.
  destruct (IsValid token); [apply key_claims_by_key|apply validateJWT_session].
Qed.

Lemma ValidateAccess_spec token rq tr allowed claims :
  runs resp (ValidateAccess a token rq) tr (Ok (allowed, claims)) →
  authenticated token (rq_Organization rq) claims tr ∧ allowed = policy.allow rq (policy_claims claims).
Proof.
  intros [(tr1 & tr2 & c & -> & H1%token_claims_authenticated & e & tr3 & -> & Hk)|(e & _ & [=])]%runs_bind_ok.
  destruct e as [e|]; [by destruct Hk as [_ [=]]|]. destruct Hk as [-> [= -> ->]]. split; [|done].
  revert H1. unfold authenticated, by_key, by_row, session, obtained. destruct (IsValid token).
  - intros (k & Hf & Ha & owner & -> & Ho). exists k. split_and!; [apply elem_of_app; by left| |].
    + intros e He. destruct (Ha e He) as (now & ? & ?). exists now. rewrite elem_of_app. auto.
    + exists owner. split; [done|].
      destruct Ho as [(? & t1 & t2 & t3 & -> & ?)|(? & t1 & t2 & t3 & -> & ?)]; [left|right];
        (split; [done|]; exists t1, t2; eexists; split; [by rewrite <- !app_assoc|done]).
  - intros (mc & userID & Hd & Hs & Hc). exists mc, userID. split_and!; [apply elem_of_app; by left|done|].
    destruct Hc as [Hc|(t1 & t2 & t3 & -> & ?)]; [by left|right].
    exists t1, t2. eexists. split; [by rewrite <- !app_assoc|done].
Qed.

(** The handler ran with claims the token authenticates and the policy permits. *)
Definition authorized (next : Claims → M (option error)) rq (tr : list (event resp)) out : Prop :=
  ∃ token claims tr1 tr2,
    BearerTokenFromHeader rq = Some token ∧ tr = tr1 ++ tr2 ∧
    authenticated token (h_OrganizationID rq) claims tr1 ∧
    permits (policy_request rq) (policy_claims claims) ∧ runs resp (next claims) tr2 out.

(** The answer is the same for every handler: 401, or 403 when the policy
    forbids the request to the claims. *)
Definition rejected rq (tr : list (event resp)) (out : option error) : Prop :=
  ∃ code msg, out = Some (HTTPError code msg) ∧
    (∀ next, runs resp (AuthMiddleware a next rq) tr out) ∧
    (code = 401 ∨ code = 403 ∧ ∃ token claims,
       authenticated token (h_OrganizationID rq) claims tr ∧
       policy.allow (policy_request rq) (policy_claims claims) = false).

(** C3. A handler behind the authentication middleware runs only for a request
    that carries a bearer token, with claims that the token authenticates: an
    API key's row found by the token's hash, not expired, whose scopes, projects
    and branches are the ones of the claims; or a valid session token, whose
    claims are trusted or read from Keycloak.  The policy permits the request to
    these claims.  Any other request is answered 401, or 403 when the policy
    forbids it, whatever the handler is. *)
Theorem middleware_authorizes next rq tr out :
  runs resp (AuthMiddleware a next rq) tr out → authorized next rq tr out ∨ rejected rq tr out.
Proof.
  unfold authorized, rejected, AuthMiddleware. destruct (BearerTokenFromHeader rq) as [token|].
  2: { intros [-> ->]. right. do 2 eexists. split_and!; [reflexivity|done|by left]. }
  intros (tr1 & tr2 & x & -> & H1 & Hk)%runs_bind. destruct x as [[allowed claims]|e].
  2: { destruct Hk as [-> ->]. right. do 2 eexists. split_and!; [reflexivity| |by left].
       intros next'. apply runs_bind. by exists tr1, [], (Err e). }
  pose proof (ValidateAccess_spec _ _ _ _ _ H1) as [Hauth Hallowed]. destruct allowed; simpl in Hk.
  - left. exists token, claims, tr1, tr2. split_and!; [done..| |done].
    apply allow_permits; [|done]. intros s. apply GetScopes_all.
  - destruct Hk as [-> ->]. rewrite app_nil_r. right. do 2 eexists. split_and!; [reflexivity| |].
    + intros next'. apply runs_bind. exists tr1, [], (Ok (false, claims)). by rewrite app_nil_r.
    + right. split; [done|]. by exists token, claims.
Qed.

(** ** A trusted token and Keycloak *)

(** The token carries what Keycloak holds: the user's email and the attributes
    of each of the user's organizations, deleted ones too. *)
Record token_mirrors (userID : string) (mc : MapClaims) (user : User) (orgs : list KeycloakOrganization) : Prop := {
  mirrors_id : usr_ID user = userID;
  mirrors_email : find_key emailClaim mc = Some (JString (usr_Email user));
  mirrors_organizations : ∃ raw, find_key organizationClaim mc = Some raw ∧
    decode_claimed raw = Some (list_to_map (map (λ o, (kc_Alias o, kc_Attributes o)) orgs));
  mirrors_aliases : NoDup (map kc_Alias orgs)
}.

(** In the exchanges, Keycloak answers with this user and these organizations. *)
Definition keycloak_answers (userID : string) (user : User) (orgs : list KeycloakOrganization)
    (tr : list (event resp)) : Prop :=
  ∀ token s r, ev (resp := resp) (Keycloak (Send token r)) (Ok s) ∈ tr →
    (r = mkRequest GET ["users"; userID] [] NoBody → ∀ u, DecodeUser (rs_Body s) = Ok u → u = user) ∧
    (r = user_organizations userID → ∀ l, DecodeOrganizations (rs_Body s) = Ok l → l = orgs).

Lemma tokenOrganization_convert org :
  tokenOrganization (convertToOrganization org) =
  tokenOrganization (OrganizationFromAttributes (kc_Alias org) (kc_Attributes org)).
Proof. done. Qed.

(** The organizations of the claim are those Keycloak lists. *)
Lemma organizations_fold orgs m :
  NoDup (map kc_Alias orgs) →
  foldl (λ m o, <[org_ID o := tokenOrganization o]> m) m (map convertToOrganization (live orgs)) =
  claimed_organizations (list_to_map (map (λ o, (kc_Alias o, kc_Attributes o)) orgs)) ∪ m.
Proof.
  revert m. induction orgs as [|o orgs IH]; intros m; simpl.
  { intros _. unfold claimed_organizations. rewrite map_imap_empty. by rewrite (left_id_L ∅ (∪)). }
  intros [Hnot Hnodup]%NoDup_cons. unfold live in *. rewrite filter_cons.
  assert (claimed_organizations (list_to_map (map (λ o, (kc_Alias o, kc_Attributes o)) orgs)) !! kc_Alias o = None)
    as Hnone.
  { unfold claimed_organizations. rewrite map_lookup_imap, not_elem_of_list_to_map_1; [done|].
    intros Hin. apply Hnot. rewrite map_map in Hin. exact Hin. }
  unfold claimed_organizations in *. rewrite map_imap_insert.
  destruct (is_deleted o) eqn:Hd; unfold is_deleted in Hd.
  - rewrite decide_False by done. unfold claimed_deleted at 1. rewrite Hd. rewrite IH by done.
    f_equal. symmetry. by apply delete_id.
  - rewrite decide_True by done. simpl. unfold claimed_deleted at 1. rewrite Hd. rewrite IH by done.
    rewrite tokenOrganization_convert. rewrite <- insert_union_r by done. by rewrite insert_union_l.
Qed.

Lemma trusted_claims_mirror userID organizationID mc user orgs claims :
  token_mirrors userID mc user orgs → trustedClaims a userID organizationID mc = Ok claims →
  claims = mkClaims (addDefaultOrganization
    (foldl (λ m o, <[org_ID o := tokenOrganization o]> m) ∅ (map convertToOrganization (live orgs)))
    (as_DefaultOrgID a)) userID "" (usr_Email user) ["*"] ["*"] ["*"].
Proof.
  intros [Hid Hemail (raw & Hraw & Hclaimed) Hnodup].
  rewrite organizations_fold, (right_id_L ∅ (∪)) by done.
  unfold trustedClaims, claimsFromAccessToken. rewrite Hemail, Hraw, Hclaimed.
  case_bool_decide; [done|]. case_bool_decide; [done|]. case_bool_decide; [|done]. cbv zeta.
  case_bool_decide; [by intros [= <-]|]. case_match; [|done]. case_bool_decide; [by intros [= <-]|done].
Qed.

Lemma buildUserClaims_answered userID tr user orgs claims :
  usr_ID user = userID → keycloak_answers userID user orgs tr →
  runs resp (buildUserClaims a userID) tr (Ok claims) →
  claims = mkClaims (addDefaultOrganization
    (foldl (λ m o, <[org_ID o := tokenOrganization o]> m) ∅ (map convertToOrganization (live orgs)))
    (as_DefaultOrgID a)) userID "" (usr_Email user) ["*"] ["*"] ["*"].
Proof.
  intros Hid Hans. unfold buildUserClaims. case_bool_decide; [by intros [_ [=]]|].
  intros (tr1 & tr2 & u & -> & Hu & Hk)%runs_bind.
  apply runs_bind in Hk as (tr3 & tr4 & l & -> & Hl & Hk).
  destruct u as [u|e1], l as [l|e2].
  2: by destruct Hk as [_ [=]]. 2: by destruct Hk as [_ [=]].
  2: by destruct Hk as (f & tr5 & -> & [_ [=]]).
  apply wrap_access_error_ok, keycloak_ok in Hu as (ku & Hu & Heu).
  apply wrap_access_error_ok, keycloak_ok in Hl as (kl & Hl & Hel).
  apply GetUserRepresentation_answered in Hu as (s & u' & (t & Ht%Heu) & Hd & ->).
  apply ListOrganizations_answered in Hl as (s' & orgs' & (t' & Ht'%Hel) & Hd' & ->).
  destruct (Hans t s _ ltac:(apply elem_of_app; by left)) as [Hu' _].
  rewrite (Hu' eq_refl _ Hd) in *. clear Hu'.
  destruct (Hans t' s' _ ltac:(apply elem_of_app; right; apply elem_of_app; by left)) as [_ Ho'].
  rewrite (Ho' eq_refl _ Hd') in *.
  change (usr_ID (parseUserAttributes user)) with (usr_ID user) in Hk.
  case_bool_decide; [by destruct Hk as [_ [=]]|]. destruct Hk as [_ [= ->]]. by rewrite Hid.
Qed.

(** Claims trusted from an access token are the claims Keycloak would give:
    when the token carries the user's email and the attributes of the user's
    organizations as Keycloak holds them, the two computations, which share no
    request, have the same result, with deleted organizations left out and the
    default organization added by both. *)
Theorem token_claims_match_keycloak userID organizationID mc user orgs claims tr claims' :
  token_mirrors userID mc user orgs → keycloak_answers userID user orgs tr →
  trustedClaims a userID organizationID mc = Ok claims →
  runs resp (buildUserClaims a userID) tr (Ok claims') →
  claims' = claims.
Proof.
  intros Hm Ha Hc Hr. rewrite (trusted_claims_mirror _ _ _ _ _ _ Hm Hc).
  eapply buildUserClaims_answered; [apply Hm|exact Ha|exact Hr].
Qed.

(** A session that a trusted token would keep out of the organization of the
    request is checked again in Keycloak. *)
Lemma session_denial_rechecked token organizationID tr claims :
  organizationID ≠ "" → runs resp (validateJWT a token organizationID) tr (Ok claims) →
  IsEnabledOrganization (Some claims) organizationID = false →
  ∃ userID, obtained (buildUserClaims a userID) claims tr.
Proof.
  intros Ho Hr Hd. apply validateJWT_session in Hr as (mc & userID & _ & _ & [Ht|?]); [|by exists userID].
  exfalso. unfold trustedClaims in Ht. destruct (claimsFromAccessToken userID mc); [|done].
  rewrite bool_decide_eq_false_2 in Ht by done. case_match; [|done]. case_bool_decide; [|done].
  injection Ht as <-. unfold IsEnabledOrganization in Hd. rewrite bool_decide_eq_false_2 in Hd by done.
  simplify_option_eq.
Qed.
End Access.

(** ** A service *)

Module Witness.

(** Every key's payload decodes to a checksum of nothing. *)
#[local] Instance base62 : Base62 := {|
  EncodeToString _ := ""; DecodeString _ := Some (i32tob (ChecksumIEEE []))
|}.
#[local] Instance libraries : AuthLibraries := {|
  GetSubject _ := Ok "acme"; HMACKey secret k := secret +:+ k
|}.
#[local] Existing Instance Keycloak.Witness.json.
#[local] Existing Instance Keycloak.Witness.runtime.

Definition service : AuthService := mkAuthService Keycloak.Witness.cfg "" "secret".
Definition row : APIKey :=
  mkAPIKey "k1" "ci" "hash" "xau_***" KeyTargetUser "acme" (Some 10) ["branch:write"] ["*"] ["br1"] None None.

(** The token of the user [acme], of the one organization [acme]. *)
Definition mc : MapClaims :=
  [(emailClaim, JString "acme@xata.io");
   (organizationClaim, JObject [("acme", JObject [(OrganizationUsageTierKey, JArray [JString "t2"])])])].

Definition server : env resp unit := λ w c, (w,
  match c return resp c with
  | Keycloak c => (Keycloak.Witness.server "acme" tt c).2
  | Now => 5
  | DecodeAccessToken _ => Ok (true, mc)
  | SelectKeyByHash _ | SelectKeyByID _ => Ok (Some row)
  | SelectKeys _ _ => Ok [row]
  | CountKeys _ _ => Ok 1
  | InsertKey row => Ok (Some row)
  | RandomBytes => Ok []
  | NewID => "id"
  | FirstError => true
  | TouchKey _ | Rollback => tt
  | Handle _ | DeleteKeys _ _ _ | BeginTx | Commit | ValidateHierarchy _ _ _ | EvalPolicy => None
  end).

Definition handler (c : Claims) : M (option error) := perform (Handle c).

(** A key of [acme] restricted to the branch [br1] reads that branch. *)
Definition read_branch : http_request :=
  mkHTTP "GET" branch_route "acme" "prj1" "br1" "Bearer xau_key".

Lemma middleware_authorizes_witness :
  authorized service handler read_branch
    (exec resp server tt (AuthMiddleware service handler read_branch)).1.1 None.
Proof.
  assert ((exec resp server tt (AuthMiddleware service handler read_branch)).2 = None) as Hout
    by (vm_compute; reflexivity).
  pose proof (exec_runs server tt (AuthMiddleware service handler read_branch)) as Hr.
  rewrite Hout in Hr. destruct (middleware_authorizes service handler read_branch _ _ Hr) as [Ha|Hn].
  - exact Ha.
  - exfalso. destruct Hn as (code & msg & Hn & _). discriminate Hn.
Defined.

Definition acme : User := Keycloak.Witness.user "acme".
Definition acme_organizations : list KeycloakOrganization := [Keycloak.Witness.organization "acme"].

Definition user_trace : list (event resp) := (exec resp server tt (buildUserClaims service "acme")).1.1.

Lemma user_trace_answers : keycloak_answers "acme" acme acme_organizations user_trace.
Proof.
  intros t s r Hin. set (P := λ e : event resp, match e with
    | ev (Keycloak (Send _ _)) x => x = Ok (mkResponse 200 "acme" "") | _ => True end).
  assert (Forall P user_trace) as HP by repeat constructor.
  rewrite Forall_forall in HP. pose proof (HP _ Hin) as [= ->].
  split; intros _ x [= <-]; reflexivity.
Qed.

Lemma acme_mirrored : token_mirrors "acme" mc acme acme_organizations.
Proof.
  split; [done|vm_compute; reflexivity| |].
  - exists (JObject [("acme", JObject [(OrganizationUsageTierKey, JArray [JString "t2"])])]).
    split; [vm_compute; reflexivity|]. vm_compute. reflexivity.
  - repeat constructor. by intros ?%elem_of_nil.
Qed.

Lemma token_claims_match_keycloak_witness :
  ∃ claims, trustedClaims service "acme" "acme" mc = Ok claims ∧
    (exec resp server tt (buildUserClaims service "acme")).2 = Ok claims.
Proof.
  assert (is_ok (trustedClaims service "acme" "acme" mc) = true) as Hc by (vm_compute; reflexivity).
  assert (is_ok (exec resp server tt (buildUserClaims service "acme")).2 = true) as He by (vm_compute; reflexivity).
  pose proof (exec_runs server tt (buildUserClaims service "acme")) as Hr. revert Hc He Hr.
  fold user_trace. generalize (exec resp server tt (buildUserClaims service "acme")).2 as built.
  intros built. destruct (trustedClaims service "acme" "acme" mc) as [claims|reason] eqn:Hc; [|intros [=]].
  destruct built as [claims'|e]; [|intros _ [=]]. intros _ _ Hr.
  exists claims. split; [reflexivity|]. f_equal.
  exact (token_claims_match_keycloak service "acme" "acme" mc acme acme_organizations claims _ claims'
    acme_mirrored user_trace_answers Hc Hr).
Defined.
End Witness.
