(* ===== verification/ApiKeys.v ===== *)
(** * API keys, proved: a key never grants more than the key that made it

    Attenuation of keys, and the way from a created key back to its row. *)

From S2P Require Import Prelude GoStrings GoFloat GoTime ApiKey Organizations KeycloakModel Keycloak AccessPolicy AccessModel ApiKeysModel Access.

#[local] Open Scope Z_scope.
#[local] Open Scope go_scope.

(** ** Lists of permissions *)

Lemma is_empty_false {A} (l : list A) : is_empty l = false ↔ l ≠ [].
Proof. by destruct l. Qed.

Lemma or_all_id l : l ≠ [] → or_all l = l.
Proof. by destruct l. Qed.

Lemma inherit_ne l parent : parent ≠ [] → inherit l parent ≠ [].
Proof. by destruct l. Qed.

Lemma scopeAllowed_spec s allowed :
  scopeAllowed s allowed = true →
  "*" ∈ allowed ∨ s ∈ allowed ∨ ∃ base, s = base +:+ ":read" ∧ (base +:+ ":write") ∈ allowed.
Proof.
  unfold scopeAllowed. destruct (contains allowed "*" || contains allowed s) eqn:Hc.
  - intros _. apply orb_true_iff in Hc as [Hc%contains_spec|Hc%contains_spec]; auto.
  - destruct (CutSuffix s ":read") as [base|] eqn:Hs; [|done]. intros Hw%contains_spec.
    right. right. exists base. apply CutSuffix_spec in Hs. done.
Qed.

Lemma find_none {A} (f : A → bool) l x : List.find f l = None → x ∈ l → f x = false.
Proof. intros Hf Hx. apply (List.find_none _ _ Hf). by apply list_elem_of_In. Qed.

Lemma validateResourceList_spec requested access t r :
  validateResourceList requested access t = None → r ∈ requested → "*" ∈ access ∨ r ∈ access.
Proof.
  unfold validateResourceList. destruct (is_empty requested) eqn:He.
  { destruct requested; [|done]. by intros _ ?%elem_of_nil. }
  destruct (contains access "*") eqn:Hs; [apply contains_spec in Hs; by left|].
  destruct (List.find _ requested) eqn:Hf; [done|]. intros _ Hr.
  pose proof (find_none _ _ _ Hf Hr) as Hn%negb_false_iff. right. by apply contains_spec.
Qed.

(** What the check against the parent establishes. *)
Record attenuates (p allowed : Permissions) : Prop := {
  att_scopes : ∀ s, s ∈ p_Scopes p → scopeAllowed s (p_Scopes allowed) = true;
  att_projects : ∀ r, r ∈ p_Projects p → "*" ∈ p_Projects allowed ∨ r ∈ p_Projects allowed;
  att_branches : ∀ r, r ∈ p_Branches p → "*" ∈ p_Branches allowed ∨ r ∈ p_Branches allowed
}.

Lemma within_attenuates p allowed : within p allowed = None → attenuates p allowed.
Proof.
  unfold within. destruct (List.find _ _) eqn:Hf; [done|].
  destruct (validateResourceList (p_Projects p) _ _) eqn:Hp; [done|]. intros Hb. split.
  - intros s Hs. by apply (find_none _ _ _ Hf), negb_false_iff in Hs.
  - intros r. by apply (validateResourceList_spec _ _ "project").
  - intros r. by apply (validateResourceList_spec _ _ "branch").
Qed.

Lemma last_byte s c t d : s +:+ String c "" = t +:+ String d "" → c = d.
Proof.
  revert t. induction s as [|x s IH]; intros [|y t]; simpl; [by intros [= ->]| | |intros [= _ H]; eauto].
  - intros [= _ H]. by destruct t.
  - intros [= _ H]. by destruct s.
Qed.

Lemma write_not_read base b : base +:+ ":write" ≠ b +:+ ":read".
Proof.
  change ":write" with (":writ" +:+ "e"). change ":read" with (":rea" +:+ "d").
  rewrite <- !append_assoc. intros H%last_byte. discriminate H.
Qed.

Lemma star_not_read b : "*" ≠ b +:+ ":read".
Proof. intros Hb. destruct b as [|c [|d b]]; discriminate Hb. Qed.

(** A smaller list grants less. *)
Lemma grants_attenuated l allowed s :
  (∀ s, s ∈ l → scopeAllowed s allowed = true) → grants l s → grants allowed s.
Proof.
  intros Hl [Hs|[Hs|(base & -> & Hs)]]; apply Hl, scopeAllowed_spec in Hs as [?|[?|(b & Hb & Hw)]];
    unfold grants; eauto.
  - by apply star_not_read in Hb.
  - by apply write_not_read in Hb.
Qed.

Lemma usable_attenuated l allowed r :
  (∀ r, r ∈ l → "*" ∈ allowed ∨ r ∈ allowed) → usable l r → usable allowed r.
Proof. intros Hl [Hr|Hr]; apply Hl in Hr as [?|?]; unfold usable; auto. Qed.

Lemma permits_attenuated row parent owner rq :
  attenuates (key_permissions row) (key_permissions parent) →
  permits rq (policy_claims (restrict row owner)) → permits rq (policy_claims (restrict parent owner)).
Proof.
  intros [Hs Hp Hb] [Ps Po Pp Pb Pnp Pnb]. simpl in *.
  assert (∀ l, "*" ∈ l → usable l "*") as Hstar by (intros; by left).
  split; simpl; [| |by intros ?; eapply usable_attenuated, Pp|by intros ?; eapply usable_attenuated, Pb| |].
  - intros s Hin. eapply grants_attenuated; [exact Hs|by apply Ps].
  - exact Po.
  - intros Hn Hw. destruct (Hp "*" (Pnp Hn Hw)); done.
  - intros Hn Hw. destruct (Hb "*" (Pnb Hn Hw)); done.
Qed.

(** ** What is inserted *)

Definition inserts (P : APIKey → bool) (c : call) : bool :=
  match c with InsertKey row => P row | _ => true end.
Definition no_insert : call → bool := inserts (λ _, false).

Section Keys.
Context {b62 : Base62} {al : AuthLibraries}.
Variable a : AuthService.

(** A row with this owner, expiry and permissions. *)
Definition row_with (targetType targetID : string) (expiry : option Z) (p : Permissions) (row : APIKey) : bool :=
  bool_decide (ak_TargetType row = targetType) && bool_decide (ak_TargetID row = targetID) &&
  bool_decide (ak_Expiry row = expiry) && bool_decide (ak_Scopes row = p_Scopes p) &&
  bool_decide (ak_Projects row = p_Projects p) && bool_decide (ak_Branches row = p_Branches p).

Lemma row_with_spec targetType targetID expiry p row :
  row_with targetType targetID expiry p row = true →
  ak_TargetType row = targetType ∧ ak_TargetID row = targetID ∧ ak_Expiry row = expiry ∧
  key_permissions row = p.
Proof.
  unfold row_with, key_permissions. rewrite !andb_true_iff, !bool_decide_eq_true.
  intros [[[[[-> ->] ->] ->] ->] ->]. by destruct p.
Qed.

(** The permissions a creation stores. *)
Definition stored (k : APIKeyCreate) : Permissions :=
  mkPermissions (or_all (kc_Scopes k)) (or_all (kc_Projects k)) (or_all (kc_Branches k)).

Lemma generateAPIKey_only targetType P :
  only resp (inserts P) (generateAPIKey targetType).
Proof.
  unfold generateAPIKey. repeat case_bool_decide; [..|done].
  all: apply only_bind; [done|]; by intros [].
Qed.

Lemma insert_key_only targetType targetID raw k :
  only resp (inserts (row_with targetType targetID (kc_Expiry k)
    (mkPermissions (kc_Scopes k) (kc_Projects k) (kc_Branches k)))) (insert_key a targetType targetID raw k).
Proof.
  split; [done|]. intros [count|e]; [|done]. cbn. destruct (MaxAPIKeysPerTarget <=? count); [done|].
  split; [done|]. intros id. split; [unfold inserts, row_with; simpl; by rewrite !bool_decide_eq_true_2 by done|].
  intros [[key|]|e]; [|done..]. split; [done|]. by intros [e|].
Qed.

Lemma CreateAPIKey_only targetType targetID k :
  only resp (inserts (row_with targetType targetID (kc_Expiry k) (stored k))) (CreateAPIKey a targetType targetID k).
Proof.
  unfold CreateAPIKey. apply only_bind; [by destruct (kc_Expiry k)|]. intros past.
  unfold guard_error. do 4 (case_match; [done|]).
  apply only_bind_ok; [apply generateAPIKey_only|]. intros raw.
  split; [done|]. intros [e|]; [done|].
  apply only_bind; [apply (insert_key_only _ _ _ (mkAPIKeyCreate _ _ _ _ _ _ _))|]. intros r. split; [done|]. intros []. by destruct r.
Qed.

Lemma future_only P expiry : only resp (inserts P) (future expiry).
Proof. by destruct expiry. Qed.

Lemma bounded_only P claims expiry asked : only resp (inserts P) (bounded_by_parent claims expiry asked).
Proof.
  unfold bounded_by_parent. case_bool_decide; [done|]. apply only_bind_ok.
  - split; [done|]. intros [[k|]|e]; done.
  - intros parent. unfold guard_error. by repeat case_match.
Qed.

Lemma validate_hierarchy_only P claims p : only resp (inserts P) (validate_hierarchy claims p).
Proof. unfold validate_hierarchy. case_match; [done|]. split; [done|]. by intros [e|]. Qed.

(** The bound a key's caller is held to: the row of that key. *)
Lemma bounded_by_parent_spec claims expiry asked tr allowed p :
  cl_KeyID claims ≠ "" → runs resp (bounded_by_parent claims expiry asked) tr (Ok (allowed, p)) →
  ∃ parent, ev (resp := resp) (SelectKeyByID (cl_KeyID claims)) (Ok (Some parent)) ∈ tr ∧
    allowed = key_permissions parent ∧
    p_Scopes p ≠ [] ∧ p_Projects p ≠ [] ∧ p_Branches p ≠ [] ∧
    ∀ pe, ak_Expiry parent = Some pe → ∃ e, expiry = Some e ∧ e <= pe.
Proof.
  intros Hk. unfold bounded_by_parent. rewrite bool_decide_eq_false_2 by done.
  intros [(tr1 & tr2 & parent & -> & H1%wrap_access_error_ok & Hr)|(e & _ & [=])]%runs_bind_ok.
  destruct H1 as (x & tr3 & -> & Hx). destruct x as [[row|]|e]; [|by destruct Hx as [_ [=]]..].
  destruct Hx as [-> [= <-]]. exists parent. split; [by left|].
  unfold guard_error in Hr. destruct (_ || _ || _) eqn:Hne in Hr; [by destruct Hr as [_ [=]]|].
  apply orb_false_iff in Hne as [[Hs%is_empty_false Hp%is_empty_false]%orb_false_iff Hb%is_empty_false].
  destruct (ak_Expiry parent) as [pe|].
  - destruct expiry as [e|]; [|by destruct Hr as [_ [=]]].
    destruct (pe <? e) eqn:He; [by destruct Hr as [_ [=]]|]. destruct Hr as [_ [= -> ->]].
    split_and!; [done|by apply inherit_ne..|]. intros ? [= <-]. exists e. split; [done|lia].
  - destruct Hr as [_ [= -> ->]]. split_and!; [done|by apply inherit_ne..|done].
Qed.

Lemma inserts_nothing {A} (p : M A) tr x row r :
  only resp no_insert p → runs resp p tr x → ev (resp := resp) (InsertKey row) r ∈ tr → False.
Proof. intros Ho Hr Hin. by pose proof (only_runs _ _ _ _ _ _ Ho Hr Hin). Qed.

(** An exchange of a sequence that is none of the first part is of the second. *)
Lemma later_insert {A} (p : M A) tr1 tr2 x row r :
  only resp no_insert p → runs resp p tr1 x →
  ev (resp := resp) (InsertKey row) r ∈ tr1 ++ tr2 → ev (resp := resp) (InsertKey row) r ∈ tr2.
Proof. intros Ho Hr [Hin|]%elem_of_app; [|done]. by pose proof (only_runs _ _ _ _ _ _ Ho Hr Hin). Qed.

Lemma createAPIKey_inserts claims targetType targetID body tr out row x :
  cl_KeyID claims ≠ "" →
  runs resp (createAPIKey a (Some claims) targetType targetID body) tr out →
  ev (resp := resp) (InsertKey row) x ∈ tr →
  ∃ parent p, ev (resp := resp) (SelectKeyByID (cl_KeyID claims)) (Ok (Some parent)) ∈ tr ∧
    attenuates p (key_permissions parent) ∧
    row_with targetType targetID (cb_Expiry body) p row = true ∧
    ∀ pe, ak_Expiry parent = Some pe → ∃ e, cb_Expiry body = Some e ∧ e <= pe.
Proof.
  intros Hkey. unfold createAPIKey, guard_error, check.
  do 2 (case_match; [by intros [-> _] ?%elem_of_nil|]).
  intros (tr1 & tr2 & later & -> & Hnow & Hr)%runs_bind Hin.
  apply (later_insert _ _ _ _ _ _ (future_only _ _) Hnow) in Hin.
  do 5 (case_match; [by destruct Hr as [-> _]; apply elem_of_nil in Hin|]).
  apply runs_bind_ok in Hr as [(tr3 & tr4 & [allowed p] & -> & Hbound & Hr)|(e & Hbound & _)].
  2: by apply (inserts_nothing _ _ _ _ _ (bounded_only _ _ _ _) Hbound) in Hin.
  apply (later_insert _ _ _ _ _ _ (bounded_only _ _ _ _) Hbound) in Hin.
  apply bounded_by_parent_spec in Hbound as (parent & Hparent & -> & Hs & Hp & Hb & He); [|done].
  apply runs_bind_ok in Hr as [(tr5 & tr6 & [] & -> & Hhier & Hr)|(e & Hhier & _)].
  2: by apply (inserts_nothing _ _ _ _ _ (validate_hierarchy_only _ _ _) Hhier) in Hin.
  apply (later_insert _ _ _ _ _ _ (validate_hierarchy_only _ _ _) Hhier) in Hin.
  destruct (within p (key_permissions parent)) eqn:Hw; [by destruct Hr as [-> _]; apply elem_of_nil in Hin|].
  exists parent, p. split_and!; [rewrite !elem_of_app; auto|by apply within_attenuates| |done].
  assert (∃ tr7 y, runs resp (CreateAPIKey a targetType targetID (mkAPIKeyCreate (cb_Name body) (cb_Expiry body)
    (p_Scopes p) (p_Projects p) (p_Branches p) (Some (cl_ID claims)) (Some (cl_KeyID claims)))) tr7 y ∧
    ev (resp := resp) (InsertKey row) x ∈ tr7) as (tr7 & y & Hcreate & Hin7).
  { apply runs_bind_ok in Hr as [(tr7 & tr8 & [token key] & -> & Hcreate & [-> _])|(e & Hcreate & _)]; [|eauto].
    rewrite app_nil_r in Hin. eauto. }
  pose proof (only_runs _ _ _ _ _ _ (CreateAPIKey_only _ _ _) Hcreate Hin7) as Hrow. simpl in Hrow.
  unfold stored in Hrow. simpl in Hrow. rewrite !or_all_id in Hrow by done. by destruct p.
Qed.

(** A request for a new key: of the caller, or of an organization. *)
Definition create_key (claims : option Claims) (organization : option string) (body : res error CreateBody)
    : E FullAPIKey :=
  match organization with
  | None => CreateUserAPIKey a claims body
  | Some o => CreateOrganizationAPIKey a claims o body
  end.

(** The new key belongs to the caller, or to an organization of the caller. *)
Definition owned_by (claims : Claims) (organization : option string) (row : APIKey) : Prop :=
  match organization with
  | None => ak_TargetType row = KeyTargetUser ∧ ak_TargetID row = cl_ID claims
  | Some o => ak_TargetType row = KeyTargetOrganization ∧ ak_TargetID row = o ∧
      HasAccessToOrganization (Some claims) o = true
  end.

(** C5. For one and the same owner, a key made with a key permits nothing that
    the key does not: the row inserted for a caller authenticated by a key
    belongs to the caller or to an organization of the caller; it expires no
    later than the caller's key; and whatever request the policy permits to the
    new key, it permits to the caller's key with the same owner.  Owners are not
    compared: a user's key may make a key of one of the user's organizations,
    which from then on is judged with the organization as its owner. *)
Theorem child_key_is_attenuated claims organization body tr out row x :
  cl_KeyID claims ≠ "" →
  runs resp (create_key (Some claims) organization body) tr out →
  ev (resp := resp) (InsertKey row) x ∈ tr →
  owned_by claims organization row ∧
  ∃ parent, ev (resp := resp) (SelectKeyByID (cl_KeyID claims)) (Ok (Some parent)) ∈ tr ∧
    (∀ pe, ak_Expiry parent = Some pe → ∃ e, ak_Expiry row = Some e ∧ e <= pe) ∧
    ∀ rq owner, permits rq (policy_claims (restrict row owner)) →
                permits rq (policy_claims (restrict parent owner)).
Proof.
  intros Hkey Hr Hin.
  assert (∃ t id b, runs resp (createAPIKey a (Some claims) t id b) tr out ∧
    (ak_TargetType row = t → ak_TargetID row = id → owned_by claims organization row))
    as (t & id & b & Hr' & Hown).
  { revert Hr. unfold create_key, CreateUserAPIKey, CreateOrganizationAPIKey, withAuthenticatedUser,
      withOrganizationAccess, with_body, owned_by. destruct organization as [o|].
    - destruct (HasAccessToOrganization _ _) eqn:Hacc; [|by intros [-> _]; apply elem_of_nil in Hin].
      destruct body as [b|e]; [|by intros [-> _]; apply elem_of_nil in Hin].
      intros Hr. by exists KeyTargetOrganization, o, b.
    - case_bool_decide; [by intros [-> _]; apply elem_of_nil in Hin|].
      destruct body as [b|e]; [|by intros [-> _]; apply elem_of_nil in Hin].
      intros Hr. by exists KeyTargetUser, (cl_ID claims), b. }
  destruct (createAPIKey_inserts _ _ _ _ _ _ _ _ Hkey Hr' Hin) as (parent & p & Hp & Ha & Hrow & He).
  apply row_with_spec in Hrow as (Ht & Hid & Hexp & Hperm). split; [by apply Hown|].
  exists parent. split_and!; [done|by rewrite Hexp|]. intros rq owner.
  apply permits_attenuated. by rewrite Hperm.
Qed.
End Keys.
