(* ===== verification/KeyStore.v ===== *)
(** * The table of API keys

    The statements of [sqlAuthStore] against a table: a creation is one
    transaction that inserts a row or nothing, the limit of keys and their
    distinct names are kept by requests that follow one another, and a created
    key finds its row again. *)

From S2P Require Import Prelude GoStrings GoFloat GoTime ApiKey Organizations KeycloakModel Keycloak AccessPolicy AccessModel ApiKeysModel Access ApiKeys.

#[local] Open Scope Z_scope.
#[local] Open Scope go_scope.

(** ** The table, for one connection *)

Record table (B : Type) := mkTable {
  committed : list APIKey;
  pending : option (list APIKey);
  world : B
}.
Arguments mkTable {B} _ _ _.
Arguments committed {B} _.
Arguments pending {B} _.
Arguments world {B} _.

Definition of_target (targetType targetID : string) (k : APIKey) : Prop :=
  ak_TargetType k = targetType ∧ ak_TargetID k = targetID.
#[export] Instance of_target_dec t i k : Decision (of_target t i k).
Proof. unfold of_target. apply _. Defined.

Definition same_name (k k' : APIKey) : Prop :=
  of_target (ak_TargetType k) (ak_TargetID k) k' ∧ ak_Name k = ak_Name k'.
#[export] Instance same_name_dec k k' : Decision (same_name k k').
Proof. unfold same_name. apply _. Defined.

Definition with_hash (h : string) (k : APIKey) : Prop := ak_KeyHash k = h.
#[export] Instance with_hash_dec h k : Decision (with_hash h k).
Proof. unfold with_hash. apply _. Defined.

Definition with_id (id : string) (k : APIKey) : Prop := ak_ID k = id.
#[export] Instance with_id_dec id k : Decision (with_id id k).
Proof. unfold with_id. apply _. Defined.

Definition first_row (P : APIKey → Prop) `{∀ k, Decision (P k)} (l : list APIKey) : option APIKey :=
  snd <$> list_find P l.

Definition taken (row : APIKey) (l : list APIKey) : bool := existsb (λ k, bool_decide (same_name row k)) l.

(** [base] is the rest of the world.  It decides whether a statement that
    changes the table fails; the answers about the table are the table's. *)
Section Table.
Context {B : Type} (base : env resp B).

Definition put (t : table B) (l : option (list APIKey)) (w : B) : table B := mkTable (committed t) l w.

Definition db : env resp (table B) := λ t c,
  match c return table B * resp c with
  | SelectKeyByHash h => (t, Ok (first_row (with_hash h) (committed t)))
  | SelectKeyByID id => (t, Ok (first_row (with_id id) (committed t)))
  | SelectKeys ty id => (t, Ok (filter (of_target ty id) (committed t)))
  | CountKeys ty id =>
      (t, Ok (len (filter (of_target ty id) (default (committed t) (pending t)))))
  | BeginTx =>
      match base (world t) BeginTx with
      | (w, Some e) => (put t (pending t) w, Some e)
      | (w, None) => (put t (Some (committed t)) w, None)
      end
  | InsertKey row =>
      match base (world t) (InsertKey row) with
      | (w, Err e) => (put t (pending t) w, Err e)
      | (w, Ok _) =>
          let l := default (committed t) (pending t) in
          if taken row l then (put t (pending t) w, Ok None)
          else (put t (Some (l ++ [row])) w, Ok (Some row))
      end
  | Commit =>
      match base (world t) Commit with
      | (w, Some e) => (put t None w, Some e)
      | (w, None) => (mkTable (default (committed t) (pending t)) None w, None)
      end
  | Rollback => (put t None (world t), tt)
  | DeleteKeys ty id ids =>
      match base (world t) (DeleteKeys ty id ids) with
      | (w, Some e) => (put t (pending t) w, Some e)
      | (w, None) =>
          (mkTable (filter (λ k, ¬ (ak_ID k ∈ ids ∧ of_target ty id k)) (committed t)) (pending t) w, None)
      end
  | c => let '(w, r) := base (world t) c in (put t (pending t) w, r)
  end.

(** Calls that leave the table alone. *)
Definition quiet (c : call) : bool :=
  match c with InsertKey _ | DeleteKeys _ _ _ | BeginTx | Commit | Rollback => false | _ => true end.

Lemma db_quiet t c : quiet c = true →
  committed (db t c).1 = committed t ∧ pending (db t c).1 = pending t.
Proof.
  destruct c; intros Hq; try discriminate Hq; simpl; try done; by destruct (base (world t) _).
Qed.

Lemma final_quiet {A} (p : M A) t :
  only resp quiet p →
  committed (final db t p).1 = committed t ∧ pending (final db t p).1 = pending t.
Proof.
  revert t. induction p as [x|c k IH]; intros t Hp; [done|]. destruct Hp as [Hc Hk].
  unfold final in *. simpl. pose proof (db_quiet t c Hc) as [Hcom Hpen].
  destruct (db t c) as [t' r]. simpl in *. specialize (IH r t' (Hk r)).
  destruct (exec resp db t' (k r)) as [[tr t''] x]. simpl in *. destruct IH. split; congruence.
Qed.

Lemma final_call {A} t c (k : resp c → M A) :
  final db t (Call c k) = let '(t', r) := db t c in final db t' (k r).
Proof.
  unfold final. simpl. destruct (db t c) as [t' r]. by destruct (exec resp db t' (k r)) as [[tr w] x].
Qed.

Lemma final_perform {A} t c (f : resp c → M A) :
  final db t (perform c ≫= f) = let '(t', r) := db t c in final db t' (f r).
Proof. apply final_call. Qed.

Section Store.
Context {b62 : Base62} {al : AuthLibraries}.
Variable a : AuthService.

(** What a creation that succeeds inserts next to the rows [l]. *)
Record created (targetType targetID raw : string) (k : APIKeyCreate) (l : list APIKey) (row : APIKey) : Prop := {
  created_row : row_with targetType targetID (kc_Expiry k)
    (mkPermissions (kc_Scopes k) (kc_Projects k) (kc_Branches k)) row = true;
  created_name : ak_Name row = kc_Name k;
  created_hash : ak_KeyHash row = HashKey a raw;
  created_new : taken row l = false;
  created_few : len (filter (of_target targetType targetID) l) < MaxAPIKeysPerTarget
}.

Lemma insert_key_db targetType targetID raw k t l :
  pending t = Some l →
  let '(t', r) := final db t (insert_key a targetType targetID raw k) in
  match r with
  | Err _ => committed t' = committed t
  | Ok row => committed t' = l ++ [row] ∧ created targetType targetID raw k l row
  end.
Proof.
  intros Hl. unfold insert_key. rewrite (final_perform t (CountKeys targetType targetID)). cbn [db]. rewrite Hl. cbn [default from_option]. change (Datatypes.id l) with l.
  destruct (MaxAPIKeysPerTarget <=? _) eqn:Hc; [done|]. rewrite (final_perform t NewID). cbn [db].
  destruct (base (world t) NewID) as [w newID].
  set (row := mkAPIKey _ _ _ _ _ _ _ _ _ _ _ _). rewrite (final_perform _ (InsertKey row)). cbn [db put world].
  destruct (base w (InsertKey row)) as [w' [x|e]]; [|done]. cbn [pending put committed]. rewrite Hl.
  cbn [default from_option]. change (Datatypes.id l) with l.
  destruct (taken row l) eqn:Hn; [done|]. rewrite (final_perform _ Commit). cbn [db put world committed pending].
  destruct (base w' Commit) as [w'' [e|]]; [done|]. cbn. split; [done|]. split; [|done..|lia].
  unfold row_with. simpl. by rewrite !bool_decide_eq_true_2 by done.
Qed.

Lemma generateAPIKey_quiet targetType : only resp quiet (generateAPIKey targetType).
Proof. unfold generateAPIKey. repeat case_bool_decide; [..|done]; (split; [done|]; by intros []). Qed.

(** A creation is atomic: when it fails the table is as it was; when it succeeds
    the table has one more row, of a new name and within the limit. *)
Lemma CreateAPIKey_db targetType targetID k t :
  pending t = None →
  let '(t', r) := final db t (CreateAPIKey a targetType targetID k) in
  pending t' = None ∧
  match r with
  | Err _ => committed t' = committed t
  | Ok (raw, row) => committed t' = committed t ++ [row] ∧
      created targetType targetID raw
        (mkAPIKeyCreate (kc_Name k) (kc_Expiry k) (or_all (kc_Scopes k)) (or_all (kc_Projects k))
           (or_all (kc_Branches k)) (kc_CreatedBy k) (kc_CreatedByKey k)) (committed t) row
  end.
Proof.
  intros Hpen. unfold CreateAPIKey.
  set (past := match kc_Expiry k with None => mret false | Some e => _ end : M bool).
  pose proof (final_quiet past t ltac:(by destruct (kc_Expiry k))) as [Hc1 Hp1].
  destruct (final db t past) as [t1 b] eqn:Hf. rewrite (final_bind _ _ _ _ _ _ Hf). simpl in Hc1, Hp1.
  unfold guard_error. destruct b; [cbn; split; congruence|].
  destruct (MaxScopesPerAPIKey <? _); [cbn; split; congruence|].
  destruct (MaxProjectsPerAPIKey <? _); [cbn; split; congruence|].
  destruct (MaxBranchesPerAPIKey <? _); [cbn; split; congruence|].
  pose proof (final_quiet (generateAPIKey targetType) t1
    (generateAPIKey_quiet targetType)) as [Hc2 Hp2].
  destruct (final db t1 (generateAPIKey targetType)) as [t2 [raw|e]] eqn:Hg; simpl in Hc2, Hp2.
  2: { unfold pbind_ok. rewrite (final_bind _ _ _ _ _ _ Hg). cbn. split; congruence. }
  rewrite (final_bind_ok _ _ _ _ _ _ Hg), (final_perform t2 BeginTx). cbn [db].
  destruct (base (world t2) BeginTx) as [w [e|]]; [cbn; split; congruence|].
  set (t3 := put t2 (Some (committed t2)) w). set (k' := mkAPIKeyCreate _ _ _ _ _ _ _).
  pose proof (insert_key_db targetType targetID raw k' t3 (committed t2) eq_refl) as Hi.
  destruct (final db t3 (insert_key a targetType targetID raw k')) as [t4 r] eqn:Hins.
  rewrite (final_bind _ _ _ _ _ _ Hins), (final_perform t4 Rollback). cbn [db].
  destruct r as [row|e]; cbn; (split; [done|]).
  - rewrite Hc2, Hc1 in Hi. exact Hi.
  - cbn in Hi. congruence.
Qed.

Lemma first_row_last (P : APIKey → Prop) `{∀ k, Decision (P k)} l row :
  (∀ k, k ∈ l → ¬ P k) → P row → first_row P (l ++ [row]) = Some row.
Proof.
  intros Hl Hrow. assert (list_find P l = None) as Hn.
  { apply list_find_None. apply Forall_forall. exact Hl. }
  unfold first_row. rewrite list_find_app_r by done. simpl. by rewrite decide_True.
Qed.

(** C17. A created key authenticates: after a creation that returned a key and
    its row, validating that key against any later table with the same rows
    finds exactly this row, as long as it has not expired and its hash was not
    the hash of an earlier row; the row has the owner, the expiry and the
    permissions of the request, an empty list of permissions being stored as
    the wildcard. *)
Theorem created_key_authenticates targetType targetID k t t' raw row later :
  pending t = None →
  final db t (CreateAPIKey a targetType targetID k) = (t', Ok (raw, row)) →
  (∀ r, r ∈ committed t → ak_KeyHash r ≠ HashKey a raw) →
  committed later = committed t' →
  (∀ e, kc_Expiry k = Some e → (base (world later) Now).2 <= e) →
  (final db later (ValidateAPIKey a raw)).2 = Ok row ∧
  row_with targetType targetID (kc_Expiry k) (stored k) row = true.
Proof.
  intros Hpen Hf Hfresh Hlater Halive.
  pose proof (CreateAPIKey_db targetType targetID k t Hpen) as Hdb. rewrite Hf in Hdb.
  destruct Hdb as (_ & Hrows & [Hrow _ Hhash _ _]). split; [|done].
  unfold ValidateAPIKey. rewrite (final_perform later (SelectKeyByHash (HashKey a raw))). cbn [db].
  rewrite Hlater, Hrows, first_row_last by done.
  apply row_with_spec in Hrow as (_ & _ & Hexp & _). cbn in Hexp.
  destruct (ak_Expiry row) as [e|].
  - rewrite (final_perform later Now). cbn [db]. specialize (Halive e (eq_sym Hexp)).
    destruct (base (world later) Now) as [w now]. simpl in Halive.
    replace (e <? now) with false by lia. rewrite (final_perform _ (TouchKey (ak_ID row))). cbn [db].
    by destruct (base _ _).
  - rewrite (final_perform later (TouchKey (ak_ID row))). cbn [db]. by destruct (base (world later) (TouchKey (ak_ID row))).
Qed.

(** ** Requests one after the other *)

(** At most the limit of keys for every owner, and no two of one name. *)
Record well_kept (l : list APIKey) : Prop := {
  kept_few : ∀ ty id, len (filter (of_target ty id) l) <= MaxAPIKeysPerTarget;
  kept_names : ∀ i j k k', l !! i = Some k → l !! j = Some k' → same_name k k' → i = j
}.

Inductive key_step : relation (table B) :=
| step_create ty id k t :
    pending t = None → key_step t (final db t (CreateAPIKey a ty id k)).1
| step_delete ty id ids t :
    pending t = None → key_step t (final db t (DeleteAPIKeys ty id ids)).1
| step_world t w : key_step t (put t (pending t) w).

#[local] Instance keys_system : TransitionSystem (table B) := {
  ts_init t := committed t = [] ∧ pending t = None;
  ts_step := key_step
}.

Lemma of_target_spec row ty id : of_target ty id row ↔ ty = ak_TargetType row ∧ id = ak_TargetID row.
Proof. unfold of_target. intuition. Qed.

Lemma well_kept_app l row :
  well_kept l → taken row l = false →
  len (filter (of_target (ak_TargetType row) (ak_TargetID row)) l) < MaxAPIKeysPerTarget →
  well_kept (l ++ [row]).
Proof.
  intros [Hfew Hnames] Htaken Hlt.
  assert (∀ i k, l !! i = Some k → ¬ same_name row k) as Hnew.
  { intros i k Hi Hs. apply list_elem_of_lookup_2, list_elem_of_In in Hi.
    assert (taken row l = true) as Ht by (apply existsb_exists; exists k; by rewrite bool_decide_eq_true).
    congruence. }
  assert (∀ k, same_name k row → same_name row k) as Hsym.
  { intros k [[H1 H2] H3]. split; [split|]; congruence. }
  split.
  - intros ty id. rewrite filter_app. unfold len. rewrite length_app.
    destruct (decide (of_target ty id row)) as [[<- <-]|Hn].
    + rewrite filter_cons_True by done. simpl. unfold len in Hlt. lia.
    + rewrite filter_cons_False by done. specialize (Hfew ty id). unfold len in Hfew. simpl. lia.
  - intros i j k k' Hi Hj Hs.
    apply lookup_app_Some in Hi as [Hi|[Hle Hi]]; apply lookup_app_Some in Hj as [Hj|[Hle' Hj]].
    + by eapply Hnames.
    + apply list_lookup_singleton_Some in Hj as [_ <-]. by destruct (Hnew _ _ Hi (Hsym _ Hs)).
    + apply list_lookup_singleton_Some in Hi as [_ <-]. by destruct (Hnew _ _ Hj Hs).
    + apply list_lookup_singleton_Some in Hi as [? _]. apply list_lookup_singleton_Some in Hj as [? _]. lia.
Qed.

Lemma length_filter_filter (Q P : APIKey → Prop) `{∀ k, Decision (Q k)} `{∀ k, Decision (P k)} l :
  (length (filter Q (filter P l)) ≤ length (filter Q l))%nat.
Proof.
  induction l as [|k l IH]; [done|]. rewrite (filter_cons P), (filter_cons Q k l).
  destruct (decide (P k)); [rewrite filter_cons|]; destruct (decide (Q k)); simpl; lia.
Qed.

(** Removing rows keeps the table well kept: what stays keeps its order. *)
Lemma well_kept_filter (P : APIKey → Prop) `{∀ k, Decision (P k)} l : well_kept l → well_kept (filter P l).
Proof.
  induction l as [|k l IH] using rev_ind; [done|]. intros Hw.
  assert (well_kept l) as Hl.
  { destruct Hw as [Hf Hn]. split.
    - intros ty id. specialize (Hf ty id). unfold len in *. rewrite filter_app, length_app in Hf. lia.
    - intros i j x y Hx Hy. apply Hn; by apply lookup_app_l_Some. }
  rewrite filter_app. destruct (decide (P k)) as [Hk|Hk].
  2: { rewrite filter_cons_False by done. rewrite app_nil_r. by apply IH. }
  rewrite filter_cons_True by done. apply well_kept_app; [by apply IH| |].
  - apply not_true_iff_false. unfold taken. rewrite existsb_exists.
    intros (x & Hx & Hs%bool_decide_eq_true). apply list_elem_of_In, list_elem_of_filter in Hx as [_ Hx].
    apply list_elem_of_lookup in Hx as [i Hi]. destruct Hw as [_ Hn].
    pose proof (lookup_lt_Some _ _ _ Hi) as Hlt.
    assert (length l = i) as Heq; [|lia].
    apply (Hn _ _ k x); [by rewrite list_lookup_middle|by apply lookup_app_l_Some|done].
  - destruct Hw as [Hf _]. specialize (Hf (ak_TargetType k) (ak_TargetID k)).
    rewrite filter_app, filter_cons_True in Hf by done. unfold len in *. rewrite length_app in Hf. simpl in Hf.
    pose proof (length_filter_filter (of_target (ak_TargetType k) (ak_TargetID k)) P l). lia.
Qed.

(** C32. No owner ever has more keys than the limit, nor two keys of one name,
    when creations and deletions follow one another: both hold of every table
    that requests can reach from an empty one, whatever fails on the way. *)
Theorem keys_stay_within_limit t : reachable t → well_kept (committed t).
Proof.
  apply (invariant_reachable (λ t, well_kept (committed t))). split.
  - intros s [-> _]. split; [by intros ty id; vm_compute|]. intros i j k k'. by rewrite lookup_nil.
  - intros s s' Hs Hstep. revert Hs. destruct Hstep as [ty id k t0 Hp|ty id ids t0 Hp|t0 w]; intros Hs; [| |exact Hs].
    + pose proof (CreateAPIKey_db ty id k t0 Hp) as Hdb.
      destruct (final db t0 (CreateAPIKey a ty id k)) as [t1 [[raw row]|e]]; simpl.
      2: by destruct Hdb as [_ ->].
      destruct Hdb as (_ & -> & [Hrow _ _ Hnew Hfew]). apply row_with_spec in Hrow as (<- & <- & _).
      by apply well_kept_app.
    + unfold DeleteAPIKeys. destruct (is_empty ids); [done|].
      rewrite (final_perform t0 (DeleteKeys ty id ids)). cbn [db].
      destruct (base (world t0) _) as [w [e|]]; [done|]. by apply well_kept_filter.
Qed.
End Store.
End Table.

(** ** A store *)

Module Witness.
#[local] Existing Instance Access.Witness.base62.
#[local] Existing Instance Access.Witness.libraries.

Abbreviation service := Access.Witness.service.
Abbreviation world_env := Access.Witness.server.

Definition empty : table unit := mkTable [] None tt.
Definition ci : APIKeyCreate := mkAPIKeyCreate "ci" (Some 10) ["branch:read"] [] [] (Some "acme") None.

Definition after : table unit * res error (string * APIKey) :=
  final (db world_env) empty (CreateAPIKey service KeyTargetUser "acme" ci).

Lemma created_key_authenticates_witness :
  ∃ raw row, after.2 = Ok (raw, row) ∧
    (final (db world_env) after.1 (ValidateAPIKey service raw)).2 = Ok row.
Proof.
  assert (is_ok after.2 = true) as Ho by (vm_compute; reflexivity).
  destruct after as [t' [[raw row]|e]] eqn:Ha; [|discriminate Ho].
  exists raw, row. split; [reflexivity|].
  apply (created_key_authenticates world_env service KeyTargetUser "acme" ci empty t' raw row t').
  - reflexivity.
  - exact Ha.
  - intros r Hr. by apply elem_of_nil in Hr.
  - reflexivity.
  - intros e [= <-]. vm_compute. discriminate.
Defined.

Lemma keys_stay_within_limit_witness : well_kept (committed after.1).
Proof.
  apply (keys_stay_within_limit world_env service). exists empty. split; [done|].
  apply rtc_once, step_create. reflexivity.
Defined.

(** The caller holds the key [row] of [Access.Witness] and asks for less. *)
Definition caller : Claims :=
  restrict Access.Witness.row (mkClaims ∅ "acme" "" "acme@xata.io" [] [] []).
Definition body : CreateBody := mkCreateBody "child" (Some 9) (Some ["branch:read"]) None None.

Definition child_trace : list (event resp) :=
  (exec resp world_env tt (create_key service (Some caller) None (Ok body))).1.1.

Definition is_insert (e : event resp) : bool :=
  match e with ev (InsertKey _) _ => true | _ => false end.

Lemma child_key_is_attenuated_witness :
  ∃ row x, ev (resp := resp) (InsertKey row) x ∈ child_trace ∧ ak_TargetID row = "acme" ∧
    ∃ parent, ∀ rq owner, permits rq (policy_claims (restrict row owner)) →
                          permits rq (policy_claims (restrict parent owner)).
Proof.
  assert (existsb is_insert child_trace = true) as Hi by (vm_compute; reflexivity).
  apply existsb_exists in Hi as ([c x] & Hin & Hc). apply list_elem_of_In in Hin.
  destruct c; try discriminate Hc. exists row, x. split; [exact Hin|].
  destruct (child_key_is_attenuated service caller None (Ok body) child_trace _ row x
    ltac:(discriminate) (exec_runs world_env tt _) Hin) as ([_ Hown] & parent & _ & _ & Hp).
  split; [exact Hown|]. exists parent. exact Hp.
Defined.
End Witness.
