(* ===== verification/GoText.v ===== *)
(** * Quoting, hashing and CSV as the log and metric queries use them

    Go's [strconv.Quote], [regexp.QuoteMeta], the 64-bit FNV-1a hash and
    [encoding/csv] on strings of bytes, with UTF-8 decoded as [unicode/utf8]
    does.  Which runes outside ASCII are printable is Unicode data: a
    parameter. *)

From S2P Require Import Prelude GoStrings GoFloat.

#[local] Open Scope Z_scope.

Definition byte (n : Z) : ascii := ascii_of_N (Z.to_N n).
Definition between (lo n hi : Z) : bool := (lo <=? n) && (n <=? hi).

(** ** [utf8.DecodeRuneInString] *)

Definition RuneError : Z := 65533.

(** The bytes that may follow a first byte: how many, and the range of the
    first of them. *)
Definition sequence (b : Z) : option (nat * Z * Z) :=
  if between 194 b 223 then Some (1%nat, 128, 191)
  else if b =? 224 then Some (2%nat, 160, 191)
  else if b =? 237 then Some (2%nat, 128, 159)
  else if between 225 b 239 then Some (2%nat, 128, 191)
  else if b =? 240 then Some (3%nat, 144, 191)
  else if between 241 b 243 then Some (3%nat, 128, 191)
  else if b =? 244 then Some (3%nat, 128, 143)
  else None.

Fixpoint continue (n : nat) (lo hi acc : Z) (s : string) : option Z :=
  match n, s with
  | O, _ => Some acc
  | S n, String c t =>
      if between lo (byte_val c) hi then continue n 128 191 (acc * 64 + byte_val c mod 64) t else None
  | S _, EmptyString => None
  end.

(** The rune of a string and its width; an invalid byte is [RuneError]. *)
Definition decode_rune (c : ascii) (t : string) : Z * nat :=
  let b := byte_val c in
  if b <? 128 then (b, 1%nat)
  else match sequence b with
       | None => (RuneError, 1%nat)
       | Some (n, lo, hi) =>
           match continue n lo hi (b mod match n with 1%nat => 32 | 2%nat => 16 | _ => 8 end) t with
           | Some r => (r, S n)
           | None => (RuneError, 1%nat)
           end
       end.

(** ** [strconv.Quote] *)

Definition hex_digit (n : Z) : ascii := byte (if n <? 10 then 48 + n else 87 + n).

Fixpoint hex_digits (width : nat) (n : Z) : string :=
  match width with
  | O => EmptyString
  | S w => String (hex_digit (n / 16 ^ Z.of_nat w mod 16)) (hex_digits w n)
  end.

(** The escapes of a letter. *)
Definition letter_escape (r : Z) : option ascii :=
  if r =? 7 then Some "a"%char else if r =? 8 then Some "b"%char else if r =? 12 then Some "f"%char
  else if r =? 10 then Some "n"%char else if r =? 13 then Some "r"%char else if r =? 9 then Some "t"%char
  else if r =? 11 then Some "v"%char else None.

Class Unicode := { IsPrint : Z → bool }.

Section Quote.
Context `{Unicode}.

(** [strconv.IsPrint] *)
Definition printable (r : Z) : bool := if r <? 128 then between 32 r 126 else IsPrint r.

Definition escaped_rune (r : Z) (width : nat) (raw : string) : string :=
  if (r =? RuneError) && bool_decide (width = 1%nat)
  then match raw with String c _ => String backslash (String "x" (hex_digits 2 (byte_val c))) | _ => "" end
  else if (r =? 34) || (r =? 92) then String backslash (String (byte r) EmptyString)
  else if printable r then raw
  else match letter_escape r with
       | Some c => String backslash (String c EmptyString)
       | None =>
           if (r <? 32) || (r =? 127) then String backslash (String "x" (hex_digits 2 r))
           else if r <? 65536 then String backslash (String "u" (hex_digits 4 r))
           else String backslash (String "U" (hex_digits 8 r))
       end.

(** From the next rune; [skip] bytes belong to the last one. *)
Fixpoint quote_from (skip : nat) (s : string) : string :=
  match s with
  | EmptyString => String double_quote EmptyString
  | String c t =>
      match skip with
      | S n => quote_from n t
      | O => let '(r, w) := decode_rune c t in escaped_rune r w (take_str w s) +:+ quote_from (pred w) t
      end
  end.

Definition Quote (s : string) : string := String double_quote (quote_from 0 s).
End Quote.

(** ** [regexp.QuoteMeta] *)

Fixpoint QuoteMeta (s : string) : string :=
  match s with
  | EmptyString => EmptyString
  | String c t => if contains_byte c "\.+*?()|[]{}^$" then String backslash (String c (QuoteMeta t)) else String c (QuoteMeta t)
  end.

(** ** FNV-1a and [strconv.FormatUint(h, 16)] *)

Definition fnv_offset : Z := 14695981039346656037.
Definition fnv_prime : Z := 1099511628211.

Fixpoint fnv1a (h : Z) (s : string) : Z :=
  match s with
  | EmptyString => h
  | String c t => fnv1a (Z.lxor h (byte_val c) * fnv_prime mod 2 ^ 64) t
  end.

(** Sixteen digits without the zeros they begin with. *)
Fixpoint trim_zeros (s : string) : string :=
  match s with
  | String c ((String _ _) as t) => if bool_decide (c = "0"%char) then trim_zeros t else s
  | s => s
  end.

Definition FormatHex (n : Z) : string := trim_zeros (hex_digits 16 n).

(** ** [encoding/csv]: one record *)

Fixpoint csv_body (s : string) : string :=
  match s with
  | EmptyString => String double_quote EmptyString
  | String c t => if bool_decide (c = double_quote) then String c (String c (csv_body t)) else String c (csv_body t)
  end.

(** A field is quoted when it starts with a space (of any kind), is [\.], or has
    a comma, a quote or a line break. *)
Definition fieldNeedsQuotes (s : string) : bool :=
  if bool_decide (s = "") then false
  else if bool_decide (s = "\.") then true
  else contains_byte "," s || contains_byte double_quote s || contains_byte (byte 13) s
       || contains_byte (byte 10) s || bool_decide (is_Some (strip_one space_runes s)).

Definition csv_field (s : string) : string :=
  if fieldNeedsQuotes s then String double_quote (csv_body s) else s.

(** ** A text and its quoted literals *)

(** [utf8.AppendRune] *)
Definition encode_rune (r : Z) : string :=
  if r <? 128 then String (byte r) EmptyString
  else if r <? 2048 then String (byte (192 + r / 64)) (String (byte (128 + r mod 64)) EmptyString)
  else if r <? 65536 then
    String (byte (224 + r / 4096)) (String (byte (128 + r / 64 mod 64)) (String (byte (128 + r mod 64)) EmptyString))
  else String (byte (240 + r / 262144)) (String (byte (128 + r / 4096 mod 64))
         (String (byte (128 + r / 64 mod 64)) (String (byte (128 + r mod 64)) EmptyString))).

(** Where a scanner of double-quoted literals is: inside an escape it reads
    [n] more hexadecimal digits, of a byte or of a rune. *)
Inductive scan :=
| Outside
| Inside
| Escaped
| Hex (n : nat) (acc : Z) (raw : bool).

Definition hex_value (c : ascii) : option Z :=
  let n := byte_val c in
  if between 48 n 57 then Some (n - 48) else if between 97 n 102 then Some (n - 87)
  else if between 65 n 70 then Some (n - 55) else None.

(** The single-byte escapes of [strconv.Unquote]. *)
Definition unescape (c : ascii) : option Z :=
  if bool_decide (c = double_quote) then Some 34 else if bool_decide (c = backslash) then Some 92
  else if bool_decide (c = "a"%char) then Some 7 else if bool_decide (c = "b"%char) then Some 8
  else if bool_decide (c = "f"%char) then Some 12 else if bool_decide (c = "n"%char) then Some 10
  else if bool_decide (c = "r"%char) then Some 13 else if bool_decide (c = "t"%char) then Some 9
  else if bool_decide (c = "v"%char) then Some 11 else None.

(** The digits that follow an escape. *)
Definition escape_digits (c : ascii) : option (nat * bool) :=
  if bool_decide (c = "x"%char) then Some (2%nat, true)
  else if bool_decide (c = "u"%char) then Some (4%nat, false)
  else if bool_decide (c = "U"%char) then Some (8%nat, false) else None.

Definition outside (c : ascii) (r : option (string * list string)) : option (string * list string) :=
  '(text, literals) ← r; Some (String c text, literals).
Definition literal (l : string) (r : option (string * list string)) : option (string * list string) :=
  '(text, literals) ← r; Some (String double_quote text, l :: literals).

(** The text with its literals emptied, and what they denote; nothing for a
    literal that does not end or holds an unknown escape. *)
Fixpoint tokens (st : scan) (l s : string) : option (string * list string) :=
  match s, st with
  | EmptyString, Outside => Some (EmptyString, [])
  | EmptyString, _ => None
  | String c t, Outside => outside c (tokens (if bool_decide (c = double_quote) then Inside else Outside) "" t)
  | String c t, Inside =>
      if bool_decide (c = backslash) then tokens Escaped l t
      else if bool_decide (c = double_quote) then literal l (tokens Outside "" t)
      else tokens Inside (l +:+ String c EmptyString) t
  | String c t, Escaped =>
      match unescape c, escape_digits c with
      | Some n, _ => tokens Inside (l +:+ String (byte n) EmptyString) t
      | None, Some (n, raw) => tokens (Hex n 0 raw) l t
      | None, None => None
      end
  | String c t, Hex n acc raw =>
      match hex_value c with
      | None => None
      | Some d =>
          let acc := acc * 16 + d in
          match n with
          | S (S _ as n) => tokens (Hex n acc raw) l t
          | _ => tokens Inside (l +:+ if raw then String (byte acc) EmptyString else encode_rune acc) t
          end
      end
  end.

(** ** Lemmas *)

Lemma byte_byte_val c : byte (byte_val c) = c.
Proof. unfold byte, byte_val. rewrite N2Z.id. apply ascii_N_embedding. Qed.

Lemma byte_val_byte n : 0 ≤ n < 256 → byte_val (byte n) = n.
Proof. intros Hn. unfold byte, byte_val. rewrite N_ascii_embedding by lia. lia. Qed.

Lemma byte_val_range c : 0 ≤ byte_val c < 256.
Proof. unfold byte_val. pose proof (N_ascii_bounded c). lia. Qed.

Lemma hex_value_digit n : 0 ≤ n < 16 → hex_value (hex_digit n) = Some n.
Proof.
  intros Hn. assert (forallb (λ k, bool_decide (hex_value (hex_digit (Z.of_nat k)) = Some (Z.of_nat k))) (seq 0 16) = true) as Hall by by vm_compute.
  rewrite forallb_forall in Hall. specialize (Hall (Z.to_nat n)). rewrite Z2Nat.id in Hall by lia.
  apply bool_decide_eq_true in Hall; [done|]. apply in_seq. lia.
Qed.

Lemma hex_digits_mod v k n : (v ≤ k)%nat → hex_digits v n = hex_digits v (n mod 16 ^ Z.of_nat k).
Proof.
  induction v as [|v IH]; intros Hv; [done|]. cbn [hex_digits]. rewrite <-IH by lia. f_equal. f_equal.
  replace (Z.of_nat k) with (Z.of_nat v + (1 + Z.of_nat (k - S v))) by lia.
  rewrite !Z.pow_add_r, Z.pow_1_r by lia. set (a := 16 ^ Z.of_nat v). set (b := 16 ^ Z.of_nat (k - S v)).
  assert (0 < a) by (apply Z.pow_pos_nonneg; lia). assert (0 < b) by (apply Z.pow_pos_nonneg; lia).
  rewrite Z.rem_mul_r, (Z.add_comm (n mod a)), (Z.mul_comm a), Z.div_add_l, (Z.div_small (n mod a)), Z.add_0_r
    by first [lia|apply Z.mod_pos_bound; lia].
  apply Znumtheory.Zmod_div_mod; [lia..|apply Z.divide_factor_l].
Qed.

(** Reading the digits that were written. *)
Lemma tokens_hex w n acc raw l t :
  0 ≤ n < 16 ^ Z.of_nat (S w) →
  tokens (Hex (S w) acc raw) l (hex_digits (S w) n +:+ t) =
  tokens Inside (l +:+ if raw then String (byte (acc * 16 ^ Z.of_nat (S w) + n)) EmptyString
                       else encode_rune (acc * 16 ^ Z.of_nat (S w) + n)) t.
Proof.
  revert n acc. induction w as [|w IH]; intros n acc Hn.
  - simpl in Hn. cbn [hex_digits String.append tokens]. change (16 ^ Z.of_nat 0) with 1.
    rewrite Z.div_1_r, (Z.mod_small n 16), hex_value_digit by lia. by change (16 ^ Z.of_nat 1) with 16.
  - change (hex_digits (S (S w)) n) with (String (hex_digit (n / 16 ^ Z.of_nat (S w) mod 16)) (hex_digits (S w) n)).
    rewrite (hex_digits_mod (S w) (S w) n) by done. remember (hex_digits (S w) _) as rest eqn:Hr.
    pose proof (Z.div_pos n (16 ^ Z.of_nat (S w)) ltac:(lia) ltac:(lia)).
    assert (n / 16 ^ Z.of_nat (S w) < 16) as Hlt.
    { apply Z.div_lt_upper_bound; [lia|]. replace (16 ^ Z.of_nat (S w) * 16) with (16 ^ Z.of_nat (S (S w))); [lia|].
      rewrite (Nat2Z.inj_succ (S w)), Z.pow_succ_r by lia. lia. }
    rewrite Z.mod_small by lia. cbn [String.append tokens]. rewrite hex_value_digit by lia.
    rewrite Hr, IH by (apply Z.mod_pos_bound; lia).
    assert ((acc * 16 + n / 16 ^ Z.of_nat (S w)) * 16 ^ Z.of_nat (S w) + n mod 16 ^ Z.of_nat (S w)
            = acc * 16 ^ Z.of_nat (S (S w)) + n) as ->; [|done].
    rewrite (Nat2Z.inj_succ (S w)), Z.pow_succ_r by lia.
    pose proof (Z.div_mod n (16 ^ Z.of_nat (S w)) ltac:(lia)). nia.
Qed.

(** Text without quotes and backslashes is read as it is. *)
Definition plain_byte (c : ascii) : bool :=
  negb (bool_decide (c = double_quote)) && negb (bool_decide (c = backslash)).

Lemma tokens_plain l s t :
  string_forallb plain_byte s = true → tokens Inside l (s +:+ t) = tokens Inside (l +:+ s) t.
Proof.
  revert l. induction s as [|c s IH]; intros l; simpl; [by rewrite append_nil_r|].
  intros [[H1 H2]%andb_true_iff H3]%andb_true_iff. apply negb_true_iff in H1, H2. rewrite H1, H2, IH by done.
  by rewrite append_assoc.
Qed.

Lemma high_byte_plain c : 128 ≤ byte_val c → plain_byte c = true.
Proof.
  intros H. unfold plain_byte. apply andb_true_iff; split; apply negb_true_iff, bool_decide_eq_false; intros ->;
    by vm_compute in H.
Qed.

(** *** The bytes of a rune *)

Lemma sequence_cases b n lo hi : sequence b = Some (n, lo, hi) →
  (n = 1%nat ∧ 194 ≤ b ≤ 223 ∧ lo = 128 ∧ hi = 191) ∨
  (n = 2%nat ∧ 224 ≤ b ≤ 239 ∧ 128 ≤ lo ∧ hi ≤ 191 ∧ (b = 224 → lo = 160)) ∨
  (n = 3%nat ∧ 240 ≤ b ≤ 244 ∧ 128 ≤ lo ∧ hi ≤ 191 ∧ (b = 240 → lo = 144)).
Proof.
  unfold sequence, between. intros H.
  repeat (destruct (_ && _) eqn:? in H || destruct (b =? _) eqn:? in H); simplify_eq; lia.
Qed.

Lemma continue_S n lo hi acc s r : continue (S n) lo hi acc s = Some r →
  ∃ c t, s = String c t ∧ lo ≤ byte_val c ≤ hi ∧ continue n 128 191 (acc * 64 + byte_val c mod 64) t = Some r.
Proof.
  destruct s as [|c t]; simpl; [done|]. destruct (between _ _ _) eqn:Hb; [|done]. intros H.
  apply andb_true_iff in Hb as [? ?]. exists c, t. split_and!; [done|lia..|done].
Qed.

(** A byte in a range, as the sum it is written as. *)
Lemma byte_eq n c : n = byte_val c → byte n = c.
Proof. intros ->. apply byte_byte_val. Qed.

Lemma encode_decode c t r w :
  decode_rune c t = (r, w) → (r = RuneError ∧ w = 1%nat) ∨ encode_rune r = take_str w (String c t).
Proof.
  unfold decode_rune. destruct (byte_val c <? 128) eqn:Hb.
  { intros [= <- <-]. right. unfold encode_rune. rewrite Hb. simpl. by rewrite byte_byte_val; destruct t. }
  destruct (sequence (byte_val c)) as [[[n lo] hi]|] eqn:Hs; [|intros [= <- <-]; by left].
  destruct (continue n lo hi _ t) as [r'|] eqn:Hc; [|intros [= <- <-]; by left].
  intros [= <- <-]. right. apply sequence_cases in Hs as [(->&?&->&->)|[(->&?&?&?&?)|(->&?&?&?&?)]].
  - apply continue_S in Hc as (c1 & t1 & -> & ? & [= <-]). unfold encode_rune.
    rewrite (proj2 (Z.ltb_ge _ _)), (proj2 (Z.ltb_lt _ _)) by (Z.to_euclidean_division_equations; lia).
    simpl. by repeat f_equal; try (by destruct t1); apply byte_eq; Z.to_euclidean_division_equations; lia.
  - apply continue_S in Hc as (c1 & t1 & -> & ? & Hc). apply continue_S in Hc as (c2 & t2 & -> & ? & [= <-]).
    unfold encode_rune.
    rewrite (proj2 (Z.ltb_ge _ _)), (proj2 (Z.ltb_ge _ _)), (proj2 (Z.ltb_lt _ _)) by (Z.to_euclidean_division_equations; lia).
    simpl. by repeat f_equal; try (by destruct t2); apply byte_eq; Z.to_euclidean_division_equations; lia.
  - apply continue_S in Hc as (c1 & t1 & -> & ? & Hc). apply continue_S in Hc as (c2 & t2 & -> & ? & Hc).
    apply continue_S in Hc as (c3 & t3 & -> & ? & [= <-]). unfold encode_rune.
    rewrite (proj2 (Z.ltb_ge _ _)), (proj2 (Z.ltb_ge _ _)), (proj2 (Z.ltb_ge _ _)) by (Z.to_euclidean_division_equations; lia).
    simpl. by repeat f_equal; try (by destruct t3); apply byte_eq; Z.to_euclidean_division_equations; lia.
Qed.

Lemma decode_range c t r w : decode_rune c t = (r, w) → 0 ≤ r < 2097152 ∧ (0 < w)%nat.
Proof.
  unfold decode_rune, RuneError. pose proof (byte_val_range c).
  destruct (byte_val c <? 128) eqn:Hb; [intros [= <- <-]; lia|].
  destruct (sequence (byte_val c)) as [[[n lo] hi]|] eqn:Hs; [|intros [= <- <-]; lia].
  destruct (continue n lo hi _ t) as [r'|] eqn:Hc; [|intros [= <- <-]; lia]. intros [= <- <-]. split; [|lia].
  apply sequence_cases in Hs as [(->&?)|[(->&?)|(->&?)]].
  - apply continue_S in Hc as (c1 & t1 & -> & ? & [= <-]). Z.to_euclidean_division_equations. lia.
  - apply continue_S in Hc as (c1 & t1 & -> & ? & Hc). apply continue_S in Hc as (c2 & t2 & -> & ? & [= <-]).
    Z.to_euclidean_division_equations. lia.
  - apply continue_S in Hc as (c1 & t1 & -> & ? & Hc). apply continue_S in Hc as (c2 & t2 & -> & ? & Hc).
    apply continue_S in Hc as (c3 & t3 & -> & ? & [= <-]). Z.to_euclidean_division_equations. lia.
Qed.

Lemma byte_plain n : 0 ≤ n < 256 → n ≠ 34 → n ≠ 92 → plain_byte (byte n) = true.
Proof.
  intros Hn H1 H2. unfold plain_byte. apply andb_true_iff; split; apply negb_true_iff, bool_decide_eq_false;
    intros H%(f_equal byte_val); rewrite byte_val_byte in H by done; vm_compute in H; lia.
Qed.

Lemma encode_plain r : 0 ≤ r < 2097152 → r ≠ 34 → r ≠ 92 → string_forallb plain_byte (encode_rune r) = true.
Proof.
  intros Hr H1 H2. unfold encode_rune.
  repeat case_match; cbn [string_forallb]; rewrite !byte_plain; try done;
    Z.to_euclidean_division_equations; lia.
Qed.

(** *** A quoted literal denotes what it quotes *)

Lemma tokens_letter r e l t :
  letter_escape r = Some e → tokens Inside l (String backslash (String e EmptyString) +:+ t) =
  tokens Inside (l +:+ String (byte r) EmptyString) t.
Proof.
  unfold letter_escape. intros H.
  repeat (destruct (r =? _) eqn:Hr in H; [injection H as <-; apply Z.eqb_eq in Hr as ->; done|clear Hr]). done.
Qed.

Lemma tokens_escape c n raw w v l t :
  escape_digits c = Some (S w, raw) → n = S w → unescape c = None → 0 ≤ v < 16 ^ Z.of_nat n →
  tokens Inside l (String backslash (String c (hex_digits n v)) +:+ t) =
  tokens Inside (l +:+ if raw then String (byte v) EmptyString else encode_rune v) t.
Proof.
  intros He -> Hu Hv. change (tokens Escaped l (String c (hex_digits (S w) v +:+ t)) =
    tokens Inside (l +:+ if raw then String (byte v) EmptyString else encode_rune v) t).
  cbn [tokens]. rewrite Hu, He. by rewrite tokens_hex.
Qed.

Lemma tokens_piece `{Unicode} c t r w l rest :
  decode_rune c t = (r, w) →
  tokens Inside l (escaped_rune r w (take_str w (String c t)) +:+ rest) =
  tokens Inside (l +:+ take_str w (String c t)) rest.
Proof.
  intros Hd. pose proof (decode_range _ _ _ _ Hd) as [Hr Hw]. unfold escaped_rune.
  destruct ((r =? RuneError) && bool_decide (w = 1%nat)) eqn:He.
  { apply andb_true_iff in He as [_ ->%bool_decide_eq_true]. replace (take_str 1 (String c t)) with (String c "") by by destruct t.
    rewrite (tokens_escape "x" 2 true 1) by first [done|apply byte_val_range]. by rewrite byte_byte_val. }
  apply encode_decode in Hd as [[-> ->]|Hd]; [done|].
  destruct ((r =? 34) || (r =? 92)) eqn:Hq.
  { rewrite <-Hd. apply orb_true_iff in Hq as [->%Z.eqb_eq| ->%Z.eqb_eq]; done. }
  apply orb_false_iff in Hq as [H1%Z.eqb_neq H2%Z.eqb_neq]. destruct (printable r).
  { apply tokens_plain. rewrite <-Hd. by apply encode_plain. }
  rewrite <-Hd. assert (r < 128 → encode_rune r = String (byte r) EmptyString) as Hlow.
  { intros Hlt. unfold encode_rune. by rewrite (proj2 (Z.ltb_lt _ _) Hlt). }
  destruct (letter_escape r) as [e|] eqn:Hl.
  { rewrite (tokens_letter _ _ _ _ Hl), Hlow; [done|]. unfold letter_escape in Hl. repeat case_match; first [done|lia]. }
  destruct ((r <? 32) || (r =? 127)) eqn:Hc.
  { rewrite (tokens_escape "x" 2 true 1), Hlow by first [done|simpl; lia]. done. }
  destruct (r <? 65536) eqn:Hs.
  - rewrite (tokens_escape "u" 4 false 3) by first [done|simpl; lia]. done.
  - rewrite (tokens_escape "U" 8 false 7) by first [done|simpl; lia]. done.
Qed.

Lemma quote_from_skip `{Unicode} n s : quote_from n s = quote_from 0 (drop_str n s).
Proof. revert n. induction s as [|c s IH]; intros [|n]; simpl; done || apply IH. Qed.

Lemma take_drop_str n s : take_str n s +:+ drop_str n s = s.
Proof. revert n. induction s as [|c s IH]; intros [|n]; simpl; try done. by rewrite IH. Qed.

Lemma length_drop_str n s : (String.length (drop_str n s) ≤ String.length s)%nat.
Proof. revert n. induction s as [|c s IH]; intros [|n]; simpl; try done. specialize (IH n). lia. Qed.

Lemma tokens_quote_from `{Unicode} s l t :
  tokens Inside l (quote_from 0 s +:+ t) = literal (l +:+ s) (tokens Outside "" t).
Proof.
  remember (String.length s) as n eqn:Hn. revert s l Hn.
  induction (lt_wf n) as [n _ IH]. intros [|c s] l ->.
  { cbn. by rewrite append_nil_r. }
  cbn [quote_from]. destruct (decode_rune c s) as [r w] eqn:Hd.
  pose proof (decode_range _ _ _ _ Hd) as [_ Hw].
  rewrite append_assoc, (tokens_piece _ _ _ _ _ _ Hd), quote_from_skip.
  rewrite (IH (String.length (drop_str (pred w) s))); [| |done].
  2: { pose proof (length_drop_str (pred w) s). simpl. lia. }
  rewrite append_assoc. f_equal. f_equal. destruct w as [|w]; [lia|]. simpl. by rewrite take_drop_str.
Qed.

Lemma tokens_Quote `{Unicode} s t :
  tokens Outside "" (Quote s +:+ t) = outside double_quote (literal s (tokens Outside "" t)).
Proof. unfold Quote. cbn [String.append tokens]. rewrite bool_decide_eq_true_2 by done. by rewrite tokens_quote_from. Qed.

Lemma tokens_text s t :
  contains_byte double_quote s = false →
  tokens Outside "" (s +:+ t) = '(text, literals) ← tokens Outside "" t; Some (s +:+ text, literals).
Proof.
  induction s as [|c s IH]; cbn [contains_byte]; [intros _; simpl; by destruct (tokens Outside "" t) as [[]|]|].
  intros [Hc Hs]%orb_false_iff. cbn [String.append tokens]. rewrite Hc, IH by done.
  by destruct (tokens Outside "" t) as [[]|].
Qed.
