(* ===== verification/ProjectsModel.v ===== *)
(** * The projects service: data, errors and calls

    The types of [services/projects/store/store.go], the errors of
    [store/errors.go], [branch/service.go], [provisioner/errors.go] and
    [api/errors.go], and the calls the service makes: one constructor per SQL
    statement of [store_sql.go], per gRPC of a cell, and for the feature flags,
    the random sources and the clock.  Every answer is arbitrary.  Logging,
    tracing and analytics events are left out. *)

From stdpp Require Import pretty.
From S2P Require Import Prelude GoStrings IPFilterModel ProjectFilter Limits BranchBuilder ClusterStatus.

#[local] Open Scope Z_scope.
#[local] Open Scope go_scope.

(** ** The store's types ([store.go]) *)

Definition MaxNewOrgBranches : Z := 10.
Definition DefaultRegion : string := "us-east-1".

Definition ProviderAWS : string := "aws".
Definition ProviderGCP : string := "gcp".
Definition ProviderAzure : string := "azure".
Definition ProviderCustom : string := "custom".

Record RegionFlags := mkRegionFlags {
  rf_PublicAccess : bool;
  rf_BackupsEnabled : bool;
  rf_Provider : string
}.

Record Region := mkRegion {
  rg_ID : string;
  rg_PublicAccess : bool;
  rg_BackupsEnabled : bool;
  rg_Provider : string;
  rg_GatewayHostPort : string;
  rg_CreatedAt : Z;
  rg_OrganizationID : option string
}.

Record Cell := mkCell {
  ce_ID : string;
  ce_RegionID : string;
  ce_CreatedAt : Z;
  ce_ClustersGRPCURL : string;
  ce_Subdomain : option string
}.

Record Branch := mkBranch {
  b_ID : string;
  b_ParentID : option string;
  b_Name : string;
  b_Description : option string;
  b_CreatedAt : Z;
  b_UpdatedAt : Z;
  b_Region : string;
  b_PublicAccess : bool;
  b_BackupsEnabled : bool;
  b_Depth : Z;
  b_CellID : string
}.

(** The name, the scale-to-zero settings and the IP filtering are
    [ProjectFilter]'s. *)
Record Project := mkProject {
  p_ID : string;
  p_CreatedAt : Z;
  p_UpdatedAt : Z;
  p_Settings : ProjectFilter.Project
}.

Record CreateProjectConfiguration := mkCreateProject {
  cp_Name : string;
  cp_ScaleToZero : ProjectScaleToZero;
  cp_IPFiltering : IPFiltering;
  cp_UsageTier : string
}.

(** [store.OrgLimits] *)
Record BranchLimits := mkBranchLimits {
  bl_MaxBranchesPerOrg : Z;
  bl_MaxBranchesPerProject : Z;
  bl_MaxBranchesPerHour : Z
}.

(** [OrgLimits.StoreLimits] of [provisioner.go] *)
Definition StoreLimits (l : OrgLimits) : BranchLimits :=
  mkBranchLimits (ol_MaxBranchesPerOrg l) (ol_MaxBranchesPerProject l) (ol_MaxBranchesPerHour l).

Record CreateBranchConfiguration := mkCreateBranch {
  cb_Name : string;
  cb_ParentID : option string;
  cb_Description : option string;
  cb_BackupRetentionPeriod : Z;
  cb_BackupsEnabled : bool;
  cb_UsageTier : string;
  cb_Limits : option BranchLimits;
  cb_ProjectLockHeld : bool
}.

Record UpdateBranchConfiguration := mkUpdateBranch {
  ub_Name : option string;
  ub_Description : option string
}.

Record GithubInstallation := mkInstallation {
  gi_ID : string;
  gi_InstallationID : Z;
  gi_Organization : string;
  gi_CreatedAt : Z;
  gi_UpdatedAt : Z
}.

Record GithubRepoMapping := mkMapping {
  gm_ID : string;
  gm_GithubRepositoryID : Z;
  gm_Project : string;
  gm_RootBranchID : string;
  gm_CreatedAt : Z;
  gm_UpdatedAt : Z
}.

(** ** Instance types; the rates, which are only shown, are in thousandths of a
    dollar (hourly) and cents (storage) *)

Record InstanceType := mkInstanceType {
  it_Name : string;
  it_VCPUsRequest : Z;
  it_VCPUsLimit : Z;
  it_RAM : Z;
  it_HourlyRate : Z;
  it_StorageMonthlyRate : Z;
  it_StorageQoSClass : string
}.

Definition InstanceTypes : list InstanceType := [
  mkInstanceType "xata.micro" 250 2000 1 12 28 "micro";
  mkInstanceType "xata.small" 500 2000 2 24 28 "small";
  mkInstanceType "xata.medium" 1000 2000 4 48 28 "medium";
  mkInstanceType "xata.large" 2000 4000 8 96 28 "large";
  mkInstanceType "xata.xlarge" 4000 8000 16 192 28 "xlarge";
  mkInstanceType "xata.2xlarge" 8000 12000 32 384 28 "2xlarge";
  mkInstanceType "xata.4xlarge" 16000 24000 64 768 28 "4xlarge";
  mkInstanceType "xata.8xlarge" 32000 48000 128 1536 28 "8xlarge"].

(** [formatCPUResource]: whole cores are rounded down. *)
Definition formatCPUResource (milliCPUs : Z) : string :=
  if milliCPUs <? 1000 then pretty milliCPUs +:+ "m" else pretty (Z.quot milliCPUs 1000).
Definition CPURequest (it : InstanceType) : string := formatCPUResource (it_VCPUsRequest it).
Definition CPULimit (it : InstanceType) : string := formatCPUResource (it_VCPUsLimit it).
Definition Memory (it : InstanceType) : string := pretty (it_RAM it) +:+ "Gi".

(** ** Errors *)

(** The gRPC codes that are told apart or produced. *)
Inductive code :=
| NotFound | InvalidArgument | PermissionDenied | Aborted | FailedPrecondition
| ResourceExhausted | Unavailable | Unimplemented | Internal | Unknown.

#[global] Instance code_eq_dec : EqDecision code.
Proof. solve_decision. Defined.

(** An error of the database: no row, a unique constraint (code 23505) with its
    name, or any other. *)
Inductive sql_error :=
| NoRows
| Violates (constraint : string)
| SqlError (msg : string).

Inductive error :=
| SqlErr (e : sql_error)
| Status (c : code) (msg : string)
| ErrorText (msg : string)
| Wrapped (msg : string) (e : error)
| LimitsErr (e : Limits.error)
(* store *)
| ErrRegionAlreadyExists (id : string)
| ErrRegionNotFound (id : string)
| ErrCellAlreadyExists (id : string)
| ErrCellNotFound (id : string)
| ErrProjectNotFound (id : string)
| ErrProjectAlreadyExists (name : string)
| ErrInvalidProjectName (name : string)
| ErrBranchAlreadyExists (name : string)
| ErrBranchNotFound (id : string)
| ErrTooManyRecords (n : Z)
| ErrProjectNotEmpty (id : string)
| ErrProjectBusy (id : string)
| ErrMaxDepthExceeded (branch : string) (maxDepth : Z)
| ErrInvalidHierarchy (type id : string)
| ErrGithubInstallationAlreadyExists (id : Z)
| ErrGithubInstallationNotFound (id organization : string)
| ErrGithubRepoMappingAlreadyExists (project organization : string)
| ErrGithubRepositoryAlreadyMapped (repo : Z)
| ErrGithubRepoMappingNotFound (project organization : string) (repo : Z)
(* branch *)
| BranchInvalidParam (branch param message : string)
| BranchBranchNotFound (id : string)
| BranchInvalidRegion (message : string)
| BranchChildCreationDisabled
| BranchParentUnhealthy (parent : string)
(* provisioner *)
| ProvBranchNotFound (id : string)
| ProvInvalidConfiguration (name message : string)
| ProvParentUnhealthy (parent : string)
(* api *)
| HTTPError (status : Z)
| ErrorAuthorizationFailed (reason : string)
| ErrorMaxLength (limit : Z)
| ErrorInvalidDescription (message description : string)
| ErrorInvalidParam (project branch param message : string)
| ErrorInvalidRegion (message : string)
| ErrorBranchNotFound (id : string)
| ErrorCredentialsForBranchNotFound (id user : string)
| ErrorBranchCreationDisabled
| ErrorOrganizationDisabled (organization : string)
| ErrorChildBranchCreationDisabled
| ErrorParentBranchUnhealthy (parent : string)
| ErrorBranchUpdateForbidden (id : string)
| ErrorBackupNotFound (id : string)
| ErrorNoRecoveryPoint (id : string)
| ErrorBranchConflict (id : string)
| ErrorNewOrgBranchLimitExceeded (organization : string)
| ErrorGithubInstallationValidationUnavailable (e : error)
| ErrorGithubUserSessionRequired
| ErrorGithubRepositoryValidationUnavailable (e : error)
(* a run-time panic *)
| Panicked.

(** The [StatusCode] methods. *)
Definition own_status (e : error) : option Z :=
  match e with
  | ErrInvalidProjectName _ | ErrProjectNotEmpty _ | ErrMaxDepthExceeded _ _
  | ErrInvalidHierarchy _ _ | BranchInvalidParam _ _ _ | BranchInvalidRegion _
  | ErrorMaxLength _ | ErrorInvalidDescription _ _ | ErrorInvalidParam _ _ _ _ => Some 400
  | LimitsErr (ErrTooManyBranches _ _) => Some 400
  | LimitsErr (ErrOrgBranchLimitExceeded _ _) | LimitsErr (ErrOrgProjectLimitExceeded _ _) => Some 403
  | ErrorAuthorizationFailed _ | ErrorOrganizationDisabled _ | ErrorBranchUpdateForbidden _
  | ErrorNewOrgBranchLimitExceeded _ | ErrorGithubUserSessionRequired => Some 403
  | ErrRegionNotFound _ | ErrCellNotFound _ | ErrProjectNotFound _ | ErrBranchNotFound _
  | ErrGithubInstallationNotFound _ _ | ErrGithubRepoMappingNotFound _ _ _
  | BranchBranchNotFound _ | ErrorBranchNotFound _ | ErrorCredentialsForBranchNotFound _ _
  | ErrorBackupNotFound _ => Some 404
  | ErrRegionAlreadyExists _ | ErrCellAlreadyExists _ | ErrProjectAlreadyExists _
  | ErrBranchAlreadyExists _ | ErrGithubInstallationAlreadyExists _
  | ErrGithubRepoMappingAlreadyExists _ _ | ErrGithubRepositoryAlreadyMapped _
  | ErrorBranchConflict _ => Some 409
  | BranchParentUnhealthy _ | ErrorParentBranchUnhealthy _ | ErrorNoRecoveryPoint _ => Some 412
  | ErrProjectBusy _ => Some 429
  | LimitsErr (ErrBranchRateLimitExceeded _ _) | LimitsErr (ErrProjectRateLimitExceeded _ _) => Some 429
  | ErrTooManyRecords _ => Some 500
  | BranchChildCreationDisabled | ErrorBranchCreationDisabled | ErrorChildBranchCreationDisabled
  | ErrorGithubInstallationValidationUnavailable _
  | ErrorGithubRepositoryValidationUnavailable _ => Some 503
  | _ => None
  end.

(** [errors.AsType] for the interface with [StatusCode]. *)
Fixpoint StatusCode (e : error) : option Z :=
  match own_status e, e with
  | Some n, _ => Some n
  | None, Wrapped _ e => StatusCode e
  | None, _ => None
  end.

(** [status.FromError]: the gRPC status an error wraps, [Unknown] without one. *)
Fixpoint grpc_code (e : error) : code :=
  match e with
  | Status c _ => c
  | Wrapped _ e => grpc_code e
  | _ => Unknown
  end.

(** [err.Error()] and [st.Message()], as far as messages are built from them. *)
Fixpoint error_text (e : error) : string :=
  match e with
  | Status _ msg | ErrorText msg | SqlErr (SqlError msg) => msg
  | SqlErr NoRows => "sql: no rows in result set"
  | SqlErr (Violates c) => "duplicate key value violates unique constraint " +:+ q c
  | Wrapped msg e => msg +:+ ": " +:+ error_text e
  | ErrRegionNotFound id => "region [" +:+ id +:+ "] not found"
  | ErrRegionAlreadyExists id => "region [" +:+ id +:+ "] already exists"
  | ErrCellNotFound id => "cell [" +:+ id +:+ "] not found"
  | ErrCellAlreadyExists id => "cell [" +:+ id +:+ "] already exists"
  | ErrProjectNotFound id => "project with ID [" +:+ id +:+ "] not found"
  | ErrProjectAlreadyExists n => "project [" +:+ n +:+ "] already exists"
  | ErrInvalidProjectName n => "invalid project name [" +:+ n +:+ "]"
  | ErrBranchAlreadyExists n => "branch [" +:+ n +:+ "] already exists"
  | ErrBranchNotFound id => "branch with ID [" +:+ id +:+ "] not found"
  | ErrProjectBusy id => "project [" +:+ id +:+ "] is busy; retry later"
  | ErrProjectNotEmpty id => "project with ID [" +:+ id +:+ "] is not empty. Please delete its branches first."
  | BranchInvalidParam b p m =>
      (if bool_decide (b = "") then "" else "Branch [" +:+ b +:+ "]: ")
        +:+ "invalid parameter [" +:+ p +:+ "]: " +:+ m
  | ErrorInvalidParam pr b p m =>
      (if bool_decide (pr = "") then "" else "Project [" +:+ pr +:+ "]: ")
        +:+ (if bool_decide (b = "") then "" else "Branch [" +:+ b +:+ "]: ")
        +:+ "invalid parameter [" +:+ p +:+ "]: " +:+ m
  | BranchInvalidRegion m | ErrorInvalidRegion m => m
  | BranchBranchNotFound id | ErrorBranchNotFound id => "Branch with ID [" +:+ id +:+ "]: not found"
  | _ => ""
  end.

(** ** Calls *)

(** What a cell answers to [DescribePostgresCluster]. *)
Record ClusterDescription := mkDescription {
  cd_Configuration : ClusterConfiguration;
  cd_Status : ClusterStatus;
  cd_BackupConfiguration : option BackupConfiguration
}.

Record Credentials := mkCredentials { cr_Username : string; cr_Password : string }.

(** The strings of [GetRecoveryWindowResponse] that are read. *)
Record Window := mkWindow {
  wd_FirstRecoverabilityPoint : string;
  wd_LastRecoverabilityPoint : string;
  wd_LastSuccessfulBackup : string
}.

(** A row of [projects]: the CIDR column holds JSON, or what is wrong with it. *)
Record ProjectRow := mkProjectRow {
  pw_ID : string;
  pw_Name : string;
  pw_CreatedAt : Z;
  pw_UpdatedAt : Z;
  pw_ScaleToZero : ProjectScaleToZero;
  pw_Enabled : bool;
  pw_CIDRs : res string (list CIDREntry)
}.

(** The parameters of the inserts. *)
Record NewRegion := mkNewRegion {
  nr_ID : string;
  nr_Flags : RegionFlags;
  nr_OrganizationID : option string;
  nr_HostPort : string
}.

Record NewProject := mkNewProject {
  np_ID : string;
  np_Name : string;
  np_OrganizationID : string;
  np_ScaleToZero : ProjectScaleToZero;
  np_IPFiltering : IPFiltering
}.

Record NewBranch := mkNewBranch {
  nb_ID : string;
  nb_Name : string;
  nb_ProjectID : string;
  nb_ParentID : option string;
  nb_Description : option string;
  nb_CellID : string;
  nb_Depth : Z
}.

(** The columns of [branches] that [INSERT] and [UPDATE] return. *)
Record BranchRow := mkBranchRow {
  bw_ID : string;
  bw_Name : string;
  bw_ParentID : option string;
  bw_Description : option string;
  bw_CellID : string;
  bw_Depth : Z;
  bw_CreatedAt : Z;
  bw_UpdatedAt : Z
}.

(** A query that yields rows, and how the iteration over them ends. *)
Definition rows (A : Type) : Type := res sql_error (list A * query_end).

Inductive lock_mode := Exclusive | TryExclusive | Shared.

Inductive call :=
(* transactions and locks *)
| BeginTx
| Commit
| Rollback
| OrganizationXactLock (key : string)
| TryProjectXactLockShared (project : string)
| GetDBConn
| AdvisoryLock (mode : lock_mode) (key : string)
| AdvisoryUnlock (shared : bool) (key : string)
| CloseDBConn
(* regions and cells *)
| SelectRegions (org : option string)
| InsertRegion (r : NewRegion)
| RemoveRegion (id : string)
| SelectRegion (org id : string)
| SelectCells (scope : option (string * string))
| InsertCell (region id url : string) (subdomain : option string)
| SelectCell (org id : string)
| RemoveCell (id : string)
(* projects *)
| SelectProject (org id : string)
| SelectProjects (org : string)
| SelectOrganizationIDs
| InsertProject (p : NewProject)
| SelectActiveBranches (project : string)
| RemoveProjectBackups (project : string)
| TerminateProject (org id : string)
| RemoveTerminatedProjects (terminatedFor : Z)
(* branches *)
| SelectBranches (project : string)
| SelectBranch (project id : string)
| SelectBranchByName (project name : string)
| InsertBranch (b : NewBranch)
| SelectCellRegion (cell : string)
| UpdateBranchRow (id : string) (name description : option string)
| SelectBranchRow (id : string)
| TerminateBranch (id : string)
| RemoveBackup (id : string)
| RemoveTerminatedBranches (cell : string) (terminatedFor : Z)
| CountOrganizationBranches (org : string)
| SelectMisplaced (orgs projects branches : list string)
| LimitsCall (c : Limits.call)
(* GitHub *)
| InsertInstallation (id org : string) (installation : Z)
| SelectInstallations (org : string)
| UpdateInstallation (org id : string) (installation : Z)
| RemoveInstallation (installation : Z)
| InsertMapping (id org project : string) (repo : Z) (root : string)
| SelectMapping (org project : string)
| SelectMappingByRepo (repo : Z)
| UpdateMapping (org project : string) (repo : Z) (root : string)
| RemoveMapping (org project : string)
| ProjectExists (org project : string) (active : bool)
| BranchExists (project branch : string)
| MappingExists (org project : string)
| ValidateUserInstallationAccess (token : string) (installation : Z)
| ValidateRepositoryAccess (repo : Z) (installations : list Z)
(* identifiers, flags, randomness, time *)
| NewID
| BoolValue (flag : string)
| RandUintN (n : Z)
| CryptoRandInt (n : Z)
| Now
(* cells *)
| GetConn (url : string)
| CreatePostgresCluster (cell : string) (r : CreateRequest)
| DescribePostgresCluster (cell id : string)
| UpdatePostgresCluster (cell id : string) (u : UpdateConfiguration)
| DeletePostgresCluster (cell id : string)
| GetPostgresClusterCredentials (cell id user : string)
| RotatePostgresClusterCredentials (cell id user : string)
| GetRecoveryWindow (cell id : string)
| SetBranchIPFiltering (cell id : string) (config : IPFilteringConfig)
| DeleteBranchIPFiltering (cell id : string).

(** A gRPC fails with a status. *)
Definition grpc (A : Type) : Type := res (code * string) A.

Definition resp (c : call) : Type :=
  match c with
  | BeginTx | Commit | OrganizationXactLock _ | GetDBConn | CloseDBConn => option sql_error
  | Rollback | AdvisoryUnlock _ _ => unit
  | TryProjectXactLockShared _ | AdvisoryLock _ _ => res sql_error bool
  | SelectRegions _ => rows Region
  | InsertRegion _ | SelectRegion _ _ => res sql_error Region
  | SelectCells _ => rows Cell
  | InsertCell _ _ _ _ | SelectCell _ _ => res sql_error Cell
  | RemoveRegion _ | RemoveCell _ | RemoveProjectBackups _ | TerminateProject _ _
  | RemoveTerminatedProjects _ | TerminateBranch _ | RemoveBackup _
  | RemoveTerminatedBranches _ _ | CountOrganizationBranches _ | RemoveInstallation _
  | RemoveMapping _ _ => res sql_error Z
  | SelectProject _ _ | InsertProject _ => res sql_error ProjectRow
  | SelectProjects _ => rows ProjectRow
  | SelectOrganizationIDs => rows string
  | SelectActiveBranches _ => rows unit
  | SelectBranches _ => rows Branch
  | SelectBranch _ _ | SelectBranchByName _ _ => res sql_error Branch
  | InsertBranch _ | UpdateBranchRow _ _ _ | SelectBranchRow _ => res sql_error BranchRow
  | SelectCellRegion _ => res sql_error (string * bool * bool)
  | SelectMisplaced _ _ _ => res sql_error (string * string)
  | LimitsCall c => Limits.resp c
  | InsertInstallation _ _ _ | UpdateInstallation _ _ _ => res sql_error GithubInstallation
  | SelectInstallations _ => rows GithubInstallation
  | InsertMapping _ _ _ _ _ | SelectMapping _ _ | UpdateMapping _ _ _ _ => res sql_error GithubRepoMapping
  | ProjectExists _ _ _ | BranchExists _ _ | MappingExists _ _ => res sql_error bool
  | SelectMappingByRepo _ => res sql_error (GithubRepoMapping * string)
  | ValidateUserInstallationAccess _ _ | ValidateRepositoryAccess _ _ => option error
  | NewID => string
  | BoolValue _ => bool
  | RandUintN _ | Now => Z
  | CryptoRandInt _ => option Z
  | GetConn _ => option string
  | CreatePostgresCluster _ _ | UpdatePostgresCluster _ _ _ | DeletePostgresCluster _ _
  | RotatePostgresClusterCredentials _ _ _ | SetBranchIPFiltering _ _ _
  | DeleteBranchIPFiltering _ _ => grpc unit
  | DescribePostgresCluster _ _ => grpc ClusterDescription
  | GetPostgresClusterCredentials _ _ _ => grpc Credentials
  | GetRecoveryWindow _ _ => grpc Window
  end.

Abbreviation M := (prog resp).
Abbreviation E A := (prog resp (res error A)).

Definition ok {A} (a : A) : E A := mret (Ok a).
Definition fail {A} (e : error) : E A := mret (Err e).
Definition err_unit (e : option error) : E unit := match e with Some e => fail e | None => ok tt end.

(** [fmt.Errorf("msg: %w", err)] *)
Definition map_err {A} (f : error → error) (p : E A) : E A :=
  r ← p; match r with Ok a => ok a | Err e => fail (f e) end.
Definition wrap {A} (msg : string) (p : E A) : E A := map_err (Wrapped msg) p.

(** Statements. *)
Definition run {A} (p : M (res sql_error A)) : E A :=
  r ← p; match r with Ok a => ok a | Err e => fail (SqlErr e) end.
Definition attempt (p : M (option sql_error)) : E unit :=
  r ← p; match r with None => ok tt | Some e => fail (SqlErr e) end.

(** A [Scan] whose [sql.ErrNoRows] is the error [e]. *)
Definition on_no_rows {A} (e : error) (p : M (res sql_error A)) : E A :=
  map_err (λ x, match x with SqlErr NoRows => e | x => x end) (run p).

(** [IsConstraintError]: the violation of one constraint is the error [e]. *)
Definition on_violation {A} (constraint : string) (e : error) (p : E A) : E A :=
  map_err (λ x, match x with
                | SqlErr (Violates c) => if bool_decide (c = constraint) then e else x
                | x => x
                end) p.

(** The loop over the rows; [checked]: whether [rows.Err()] is consulted after
    it, without which an iteration that breaks off looks like one that ended. *)
Definition collect {A} (checked : bool) (r : rows A) : res error (list A) :=
  match r with
  | Err e => Err (SqlErr e)
  | Ok (l, RowsDone) => Ok l
  | Ok (_, ScanFailed e) => Err (SqlErr (SqlError e))
  | Ok (l, RowsFailed e) => if checked then Err (SqlErr (SqlError e)) else Ok l
  end.

(** [tx, err := BeginTx(); defer tx.Rollback()]: the rollback of a committed
    transaction does nothing. *)
Definition in_tx {A} (body : E A) : E A :=
  b ← perform BeginTx;
  match b with
  | Some e => fail (SqlErr e)
  | None => r ← body; _ ← perform Rollback; mret r
  end.

Definition commit : E unit := attempt (perform Commit).

(** The gRPCs of a cell. *)
Definition rpc {A} (p : M (grpc A)) : E A :=
  r ← p; match r with Ok a => ok a | Err (c, msg) => fail (Status c msg) end.

(** The programs of [Limits] on this service's database. *)
Definition limits {A} (p : prog Limits.resp (res Limits.error A)) : E A :=
  r ← embed LimitsCall (λ _ r, r) p;
  match r with Ok a => ok a | Err e => fail (LimitsErr e) end.

(** ** Lemmas *)

Lemma map_err_ok {A} f (p : E A) tr a : runs resp (map_err f p) tr (Ok a) → runs resp p tr (Ok a).
Proof.
  intros (tr1 & tr2 & [b|e] & -> & Hp & Hk)%runs_bind; apply runs_ret in Hk as [-> [= ->]].
  by rewrite app_nil_r.
Qed.

Lemma map_err_err {A} f (p : E A) tr e :
  runs resp (map_err f p) tr (Err e) → ∃ e', runs resp p tr (Err e') ∧ e = f e'.
Proof.
  intros (tr1 & tr2 & [b|e'] & -> & Hp & Hk)%runs_bind; apply runs_ret in Hk as [-> [= ->]].
  rewrite app_nil_r. eauto.
Qed.

Lemma run_ok {A} (p : M (res sql_error A)) tr a : runs resp (run p) tr (Ok a) → runs resp p tr (Ok a).
Proof.
  intros (tr1 & tr2 & [b|e] & -> & Hp & Hk)%runs_bind; apply runs_ret in Hk as [-> [= ->]].
  by rewrite app_nil_r.
Qed.

Lemma rpc_ok {A} (p : M (grpc A)) tr a : runs resp (rpc p) tr (Ok a) → runs resp p tr (Ok a).
Proof.
  intros (tr1 & tr2 & [b|[c m]] & -> & Hp & Hk)%runs_bind; apply runs_ret in Hk as [-> [= ->]].
  by rewrite app_nil_r.
Qed.

Lemma attempt_ok (p : M (option sql_error)) tr u : runs resp (attempt p) tr (Ok u) → runs resp p tr None.
Proof.
  intros (tr1 & tr2 & [e|] & -> & Hp & Hk)%runs_bind; apply runs_ret in Hk as [-> [= _]].
  by rewrite app_nil_r.
Qed.

Lemma on_no_rows_ok {A} e (p : M (res sql_error A)) tr a :
  runs resp (on_no_rows e p) tr (Ok a) → runs resp p tr (Ok a).
Proof. by intros ?%map_err_ok%run_ok. Qed.

Lemma err_unit_ok e tr u : runs resp (err_unit e) tr (Ok u) → e = None ∧ tr = [].
Proof. by destruct e as [e|]; intros [-> [=]]. Qed.

(** A transaction: it did not begin, or its body ran between its first and its
    last statement. *)
Lemma in_tx_runs {A} (body : E A) tr r :
  runs resp (in_tx body) tr r →
  (∃ e, tr = [ev BeginTx (Some e)] ∧ r = Err (SqlErr e)) ∨
  (∃ tr', tr = ev (resp := resp) BeginTx None :: tr' ++ [ev (resp := resp) Rollback tt] ∧ runs resp body tr' r).
Proof.
  intros (b & tr1 & -> & Hk). destruct b as [e|].
  - left. destruct Hk as [-> ->]. by exists e.
  - right. change (runs resp (body ≫= λ x, perform Rollback ≫= λ _, mret x) tr1 r) in Hk.
    apply runs_bind in Hk as (tr2 & tr3 & x & -> & Hb & Hk).
    destruct Hk as (u & tr4 & -> & [-> ->]). exists tr2. by destruct (u : unit).
Qed.

(** A call that returns [(value, error)] and its event. *)
Lemma perform_runs c tr (r : resp c) : runs resp (perform c) tr r → tr = [ev c r].
Proof. by intros (r' & tr' & -> & -> & ->). Qed.

(** ** Statements that neither commit nor reach a cell *)

(** A program stays within the database, or the flags and the clock, commits
    nothing and terminates no project. *)
Definition reads (c : call) : bool :=
  match c with
  | Commit | TerminateProject _ _ | CreatePostgresCluster _ _ | UpdatePostgresCluster _ _ _ | DeletePostgresCluster _ _
  | RotatePostgresClusterCredentials _ _ _ | SetBranchIPFiltering _ _ _
  | DeleteBranchIPFiltering _ _ => false
  | _ => true
  end.

Lemma map_err_only {A} P f (p : E A) : only resp P p → only resp P (map_err f p).
Proof. intros Hp. apply only_bind; [done|]. by intros [a|e]. Qed.
Lemma run_only {A} P (p : M (res sql_error A)) : only resp P p → only resp P (run p).
Proof. intros Hp. apply only_bind; [done|]. by intros [a|e]. Qed.
Lemma rpc_only {A} P (p : M (grpc A)) : only resp P p → only resp P (rpc p).
Proof. intros Hp. apply only_bind; [done|]. by intros [a|[c m]]. Qed.
Lemma attempt_only_if P p : only resp P p → only resp P (attempt p).
Proof. intros Hp. apply only_bind; [done|]. by intros [e|]. Qed.
Lemma on_no_rows_only {A} P e (p : M (res sql_error A)) : only resp P p → only resp P (on_no_rows e p).
Proof. intros. by apply map_err_only, run_only. Qed.
Lemma err_unit_only P e : only resp P (err_unit e).
Proof. by destruct e. Qed.
Lemma in_tx_only {A} P (body : E A) :
  P BeginTx = true → P Rollback = true → only resp P body → only resp P (in_tx body).
Proof.
  intros Hb Hr H. split; [done|]. intros [e|]; [done|]. apply only_bind; [done|].
  intros r. split; [done|]. by intros [].
Qed.
Lemma limits_only {A} P (p : prog Limits.resp (res Limits.error A)) :
  (∀ c, P (LimitsCall c) = true) → only resp P (limits p).
Proof.
  intros HP. apply only_bind; [|by intros [a|e]]. apply only_embed.
  induction p as [a|c k IH]; simpl; [done|]. split; [done|]. apply IH.
Qed.

#[export] Hint Resolve map_err_only run_only rpc_only attempt_only_if on_no_rows_only err_unit_only
  in_tx_only limits_only : go.
