(* ===== verification/ProjectStore.v ===== *)
(** * The projects store: [services/projects/store/sqlstore/store_sql.go]

    Regions, cells, projects, branches, locks and GitHub mappings, with
    [CanAddChild] and [ParseProvider] of [store.go].  A statement is a call,
    its answer comes from the environment.  The limits are
    [Limits]', the update of a project is [ProjectFilter]'s, the organization
    statuses are [OrgStatusStore]'s; migrations and the connection pool are
    left out. *)

From stdpp Require Import pretty.
From S2P Require Import Prelude GoStrings IPFilterModel ProjectFilter Limits BranchBuilder ProjectsModel.

#[local] Open Scope Z_scope.
#[local] Open Scope go_scope.

Definition UniqueConstraintProject : string := "unique_org_project_active".
Definition UniqueConstraintBranch : string := "unique_project_branch_name_active".
Definition UniqueRegionsConstraint : string := "regions_pkey".
Definition UniqueConstraintGithubInstallationOrg : string := "github_installations_unique_org_installation".
Definition UniqueConstraintGithubInstallationInstallationID : string :=
  "github_installations_unique_installation_id".

(** ** Regions *)

(** [ParseProvider]; its error names the valid providers. *)
Definition ParseProvider (s : string) : res error string :=
  if bool_decide (s ∈ [ProviderAWS; ProviderGCP; ProviderAzure; ProviderCustom]) then Ok s
  else Err (ErrorText ("unknown provider " +:+ q s +:+ ", must be one of: aws, gcp, azure, custom")).

(** Neither listing consults [rows.Err()]. *)
Definition ListRegions (organizationID : string) : E (list Region) :=
  r ← perform (SelectRegions (Some organizationID)); mret (collect false r).
Definition ListAllRegions : E (list Region) :=
  r ← perform (SelectRegions None); mret (collect false r).

Definition insert_region (organizationID : option string) (regionID : string) (flags : RegionFlags)
    (hostport : string) : E Region :=
  match ParseProvider (rf_Provider flags) with
  | Err e => fail e
  | Ok provider =>
      on_violation UniqueRegionsConstraint (ErrRegionAlreadyExists regionID)
        (run (perform (InsertRegion (mkNewRegion regionID
                (mkRegionFlags (rf_PublicAccess flags) (rf_BackupsEnabled flags) provider)
                organizationID hostport))))
  end.
Definition CreateRegion := insert_region None.
Definition CreateOrganizationRegion (organizationID : string) := insert_region (Some organizationID).

Definition DeleteRegion (regionID : string) : E unit :=
  n <-? wrap "failed to delete region" (run (perform (RemoveRegion regionID)));
  if n =? 0 then fail (ErrRegionNotFound regionID) else ok tt.

Definition GetRegion (organizationID regionID : string) : E Region :=
  on_no_rows (ErrRegionNotFound regionID) (perform (SelectRegion organizationID regionID)).

(** ** Cells *)

Definition ListCells (organizationID regionID : string) : E (list Cell) :=
  r ← perform (SelectCells (Some (organizationID, regionID))); mret (collect false r).
Definition ListAllCells : E (list Cell) :=
  r ← perform (SelectCells None); mret (collect false r).

Definition CreateCell (regionID cellID grpcURL : string) (subdomain : option string) : E Cell :=
  on_violation "cells_pkey" (ErrCellAlreadyExists cellID)
    (run (perform (InsertCell regionID cellID grpcURL subdomain))).

Definition getCell (organizationID cellID : string) : E Cell :=
  on_no_rows (ErrCellNotFound cellID) (perform (SelectCell organizationID cellID)).

Definition GetCell (organizationID cellID : string) : E Cell := in_tx (getCell organizationID cellID).

Definition DeleteCell (cellID : string) : E unit :=
  n <-? wrap "failed to delete cell" (run (perform (RemoveCell cellID)));
  if n =? 0 then fail (ErrCellNotFound cellID) else ok tt.

(** ** Projects *)

(** The [Scan] of a row and the decoding of its CIDRs. *)
Definition scan_project (row : ProjectRow) : res error Project :=
  match pw_CIDRs row with
  | Err e => Err (Wrapped "unmarshal cidrs" (ErrorText e))
  | Ok cidrs =>
      Ok (mkProject (pw_ID row) (pw_CreatedAt row) (pw_UpdatedAt row)
            (ProjectFilter.mkProject (pw_Name row) (pw_ScaleToZero row)
               (mkIPFiltering (pw_Enabled row) (Some cidrs))))
  end.

Definition getProject (organizationID projectID : string) : E Project :=
  row <-? on_no_rows (ErrProjectNotFound projectID) (perform (SelectProject organizationID projectID));
  mret (scan_project row).

Definition GetProject (organizationID projectID : string) : E Project :=
  in_tx (getProject organizationID projectID).

Fixpoint scan_projects (l : list ProjectRow) : res error (list Project) :=
  match l with
  | [] => Ok []
  | row :: l => p <~ scan_project row; ps <~ scan_projects l; Ok (p :: ps)
  end.

(** The rows are decoded as they are read: a row that cannot be decoded ends
    the loop before [rows.Err()] is consulted. *)
Definition ListProjects (organizationID : string) : E (list Project) :=
  r ← perform (SelectProjects organizationID);
  mret (match r with
        | Err e => Err (SqlErr e)
        | Ok (l, last) => ps <~ scan_projects l; _ <~ collect true (Ok (l, last)); Ok ps
        end).

Definition ListOrganizationIDs : E (list string) :=
  r ← perform SelectOrganizationIDs;
  mret (match r with
        | Err e => Err (Wrapped "list organization IDs" (SqlErr e))
        | Ok (_, ScanFailed e) => Err (Wrapped "scan organization ID" (ErrorText e))
        | r => collect true r
        end).

(** A nil list of CIDRs is stored as the empty one. *)
Definition stored_filtering (f : IPFiltering) : IPFiltering :=
  mkIPFiltering (IPF_Enabled f) (Some (default [] (CIDRs f))).

Definition CreateProject (organizationID : string) (config : CreateProjectConfiguration) : E Project :=
  if bool_decide (cp_Name config = "") then fail (ErrInvalidProjectName (cp_Name config))
  else
    b ← perform BeginTx;
    match b with
    | Some e => fail (Wrapped "begin tx" (SqlErr e))
    | None =>
        r ← (_ <-? wrap "acquire org lock"
                     (attempt (perform (OrganizationXactLock ("org:" +:+ organizationID))));
             _ <-? limits (enforceProjectCreationLimits organizationID (cp_UsageTier config));
             id ← perform NewID;
             row <-? on_violation UniqueConstraintProject (ErrProjectAlreadyExists (cp_Name config))
                       (run (perform (InsertProject (mkNewProject ("prj_" +:+ id) (cp_Name config)
                          organizationID (cp_ScaleToZero config)
                          (stored_filtering (cp_IPFiltering config))))));
             _ <-? wrap "commit tx" commit;
             mret (scan_project row));
        _ ← perform Rollback;
        mret r
    end.

(** A first row is found only when the iteration yields one. *)
Definition DeleteProject (organizationID projectID : string) : E unit :=
  in_tx
    (r ← perform (SelectActiveBranches projectID);
     match r with
     | Err e => fail (SqlErr e)
     | Ok (_ :: _, _) => fail (ErrProjectNotEmpty projectID)
     | Ok ([], _) =>
         _ <-? run (perform (RemoveProjectBackups projectID));
         n <-? run (perform (TerminateProject organizationID projectID));
         if n =? 0 then fail (ErrProjectNotFound projectID) else commit
     end).

(** ** Branches *)

Definition describeBranch (projectID branchID : string) : E Branch :=
  on_no_rows (ErrBranchNotFound branchID) (perform (SelectBranch projectID branchID)).

Definition DescribeBranch (organizationID projectID branchID : string) : E Branch :=
  in_tx (_ <-? getProject organizationID projectID; describeBranch projectID branchID).

Definition GetBranchByName (organizationID projectID name : string) : E Branch :=
  in_tx (_ <-? getProject organizationID projectID;
         on_no_rows (ErrBranchNotFound name) (perform (SelectBranchByName projectID name))).

(** [rows.Err()] is not consulted. *)
Definition ListBranches (organizationID projectID : string) : E (list Branch) :=
  in_tx (_ <-? getProject organizationID projectID;
         r ← perform (SelectBranches projectID); mret (collect false r)).

(** [CanAddChild]; [None] is the nil branch. *)
Definition CanAddChild (maxDepth : Z) (b : option Branch) : res error Z :=
  match b with
  | None => Ok 1
  | Some b => if maxDepth <=? b_Depth b then Err (ErrMaxDepthExceeded (b_ID b) maxDepth)
              else Ok (b_Depth b + 1)
  end.

Definition tryProjectXactLockShared (projectID : string) : E unit :=
  acquired <-? wrap "acquire advisory lock" (run (perform (TryProjectXactLockShared projectID)));
  if acquired : bool then ok tt else fail (ErrProjectBusy projectID).

(** The branch of a returned row; the region and its settings come from a
    query of their own. *)
Definition branch_of (row : BranchRow) (region : string) (publicAccess backupsEnabled : bool) : Branch :=
  mkBranch (bw_ID row) (bw_ParentID row) (bw_Name row) (bw_Description row) (bw_CreatedAt row)
    (bw_UpdatedAt row) region publicAccess backupsEnabled (bw_Depth row) (bw_CellID row).

(** [NULLIF(description, '')] *)
Definition nullif_empty (s : option string) : option string :=
  match s with Some "" => None | s => s end.

Section Store.
(** The maximum depth of a branch tree. *)
Variable maxDepth : Z.

Definition parent_depth (projectID : string) (parentID : option string) : E Z :=
  match parentID with
  | None => ok 1
  | Some parent => b <-? describeBranch projectID parent; mret (CanAddChild maxDepth (Some b))
  end.

(** The part of the transaction before the branch is provisioned. *)
Definition insert_branch (organizationID projectID cellID : string)
    (config : CreateBranchConfiguration) : E (Branch * Project) :=
  _ <-? (if cb_ProjectLockHeld config then ok tt else tryProjectXactLockShared projectID);
  _ <-? getCell organizationID cellID;
  project <-? getProject organizationID projectID;
  depth <-? parent_depth projectID (cb_ParentID config);
  branchID ← perform NewID;
  row <-? on_violation UniqueConstraintBranch (ErrBranchAlreadyExists (cb_Name config))
            (run (perform (InsertBranch (mkNewBranch branchID (cb_Name config) projectID
               (cb_ParentID config) (nullif_empty (cb_Description config)) cellID depth))));
  region <-? run (perform (SelectCellRegion (bw_CellID row)));
  let '(region, publicAccess, _) := region in
  ok (branch_of row region publicAccess false, project).

Definition CreateBranch (organizationID projectID cellID : string)
    (config : CreateBranchConfiguration) (provisionFn : Branch → Project → E unit) : E Branch :=
  match cb_Limits config with
  | None => fail (ErrorText "internal error: branch creation limits not resolved")
  | Some l =>
      _ <-? limits (enforceBranchCreationLimits organizationID projectID
              (bl_MaxBranchesPerOrg l) (bl_MaxBranchesPerProject l) (bl_MaxBranchesPerHour l));
      in_tx (bp <-? insert_branch organizationID projectID cellID config;
             _ <-? provisionFn bp.1 bp.2;
             _ <-? commit;
             ok bp.1)
  end.

Definition UpdateBranch (organizationID projectID branchID : string)
    (config : UpdateBranchConfiguration) (updateFn : Branch → E unit) : E Branch :=
  in_tx
    (_ <-? getProject organizationID projectID;
     _ <-? describeBranch projectID branchID;
     row <-? (if negb (bool_decide (ub_Name config = None)) || negb (bool_decide (ub_Description config = None))
              then match ub_Name config with
                   | Some name => on_violation UniqueConstraintBranch (ErrBranchAlreadyExists name)
                   | None => λ p, p
                   end (on_no_rows (ErrBranchNotFound branchID)
                          (perform (UpdateBranchRow branchID (ub_Name config) (ub_Description config))))
              else on_no_rows (ErrBranchNotFound branchID) (perform (SelectBranchRow branchID)));
     region <-? run (perform (SelectCellRegion (bw_CellID row)));
     let '(region, _, backupsEnabled) := region in
     let branch := branch_of row region false backupsEnabled in
     _ <-? updateFn branch;
     _ <-? commit;
     ok branch).

Definition DeleteBranch (organizationID projectID branchID : string)
    (deprovisionFn : Branch → E unit) : E unit :=
  in_tx
    (_ <-? getProject organizationID projectID;
     branch <-? describeBranch projectID branchID;
     n <-? run (perform (TerminateBranch branchID));
     if n =? 0 then fail (ErrBranchNotFound branchID)
     else if 1 <? n then fail (ErrTooManyRecords n)
     else
       m <-? run (perform (RemoveBackup branchID));
       if 1 <? m then fail (ErrTooManyRecords m)
       else _ <-? deprovisionFn branch; commit).
End Store.

(** ** Instance types, the hierarchy and clean-up *)

(** The multiplier of a region in hundredths; [math.Round] is half away from
    zero, in the unit of each rate. *)
Definition RegionMultiplier (region : string) : Z :=
  default 100 (list_to_map (M := gmap string Z)
    [("us-east-1", 100); ("us-west-2", 100); ("eu-central-1", 115); ("us-central1", 100);
     ("asia-southeast1", 120)] !! region).

Definition scaled_rate (rate multiplier : Z) : Z := (rate * multiplier + 50) / 100.

Definition ListInstanceTypes (region : string) : list InstanceType :=
  let m := RegionMultiplier region in
  map (λ it, mkInstanceType (it_Name it) (it_VCPUsRequest it) (it_VCPUsLimit it) (it_RAM it)
               (scaled_rate (it_HourlyRate it) m) (scaled_rate (it_StorageMonthlyRate it) m)
               (it_StorageQoSClass it)) InstanceTypes.

Definition ValidateHierarchy (organizationIds projectIds branchIds : list string) : E unit :=
  if bool_decide (organizationIds = []) || bool_decide ("" ∈ organizationIds)
  then fail (ErrInvalidHierarchy "organization" "")
  else if bool_decide (projectIds = []) && bool_decide (branchIds = []) then ok tt
  else
    r ← perform (SelectMisplaced organizationIds projectIds branchIds);
    match r with
    | Ok (itemType, itemID) => fail (ErrInvalidHierarchy itemType itemID)
    | Err NoRows => ok tt
    | Err _ => fail (ErrInvalidHierarchy "" "")
    end.

Definition CleanupTerminatedBranches (cellID : string) (terminatedFor : Z) : E Z :=
  wrap "delete terminated branches" (run (perform (RemoveTerminatedBranches cellID terminatedFor))).
Definition CleanupTerminatedProjects (terminatedFor : Z) : E Z :=
  wrap "delete terminated projects" (run (perform (RemoveTerminatedProjects terminatedFor))).
Definition CountOrganizationBranches (organizationID : string) : E Z :=
  wrap "count organization branches" (run (perform (ProjectsModel.CountOrganizationBranches organizationID))).

(** ** GitHub installations and repositories *)

Definition already_installed {A} (organization : string) (installationID : Z) (p : E A) : E A :=
  on_violation UniqueConstraintGithubInstallationOrg (ErrGithubInstallationAlreadyExists installationID)
    (on_violation UniqueConstraintGithubInstallationInstallationID
       (ErrGithubInstallationAlreadyExists installationID) p).

Definition CreateGithubInstallation (organization : string) (installationID : Z) : E GithubInstallation :=
  id ← perform NewID;
  already_installed organization installationID
    (run (perform (InsertInstallation id organization installationID))).

Definition ListGithubInstallations (organization : string) : E (list GithubInstallation) :=
  r ← perform (SelectInstallations organization); mret (collect true r).

Definition UpdateGithubInstallation (organization id : string) (installationID : Z) : E GithubInstallation :=
  already_installed organization installationID
    (on_no_rows (ErrGithubInstallationNotFound id organization)
       (perform (UpdateInstallation organization id installationID))).

Definition DeleteGithubInstallation (installationID : Z) : E unit :=
  _ <-? wrap ("delete installation " +:+ pretty installationID)
          (run (perform (RemoveInstallation installationID)));
  ok tt.

(** Why a statement on a mapping found no row: the first of the conditions, in
    the order they are asked, that does not hold. *)
Fixpoint missing {A} (checks : list (E bool * error)) (otherwise : error) : E A :=
  match checks with
  | [] => fail otherwise
  | (p, e) :: checks =>
      there <-? p;
      if there : bool then missing checks otherwise else fail e
  end.

Definition no_rows_because {A} (p : E A) (checks : list (E bool * error))
    (otherwise : error) : E A :=
  r ← p;
  match r with
  | Err (SqlErr NoRows) => missing checks otherwise
  | r => mret r
  end.

Definition CreateGithubRepoMapping (organization project : string) (repoID : Z) (rootBranchID : string)
    : E GithubRepoMapping :=
  id ← perform NewID;
  no_rows_because
    (on_violation "github_repositories_unique_project_id" (ErrGithubRepoMappingAlreadyExists project organization)
      (on_violation "github_repositories_unique_repo_id" (ErrGithubRepositoryAlreadyMapped repoID)
        (run (perform (InsertMapping id organization project repoID rootBranchID)))))
    [(run (perform (ProjectExists organization project true)), ErrProjectNotFound project);
     (run (perform (BranchExists project rootBranchID)), ErrBranchNotFound rootBranchID)]
    (Wrapped "create github repo mapping" (SqlErr NoRows)).

Definition GetGithubRepoMappingByProject (organization project : string) : E GithubRepoMapping :=
  no_rows_because (run (perform (SelectMapping organization project)))
    [(run (perform (ProjectExists organization project true)), ErrProjectNotFound project)]
    (ErrGithubRepoMappingNotFound project organization 0).

Definition UpdateGithubRepoMapping (organization project : string) (repoID : Z) (rootBranchID : string)
    : E GithubRepoMapping :=
  no_rows_because
    (on_violation "github_repositories_unique_repo_id" (ErrGithubRepositoryAlreadyMapped repoID)
       (run (perform (UpdateMapping organization project repoID rootBranchID))))
    [(run (perform (ProjectExists organization project true)), ErrProjectNotFound project);
     (run (perform (MappingExists organization project)), ErrGithubRepoMappingNotFound project organization 0);
     (run (perform (BranchExists project rootBranchID)), ErrBranchNotFound rootBranchID)]
    (Wrapped "update github repo mapping" (SqlErr NoRows)).

Definition DeleteGithubRepoMapping (organization project : string) : E unit :=
  n <-? run (perform (RemoveMapping organization project));
  if n =? 0 then
    missing [(run (perform (ProjectExists organization project false)), ErrProjectNotFound project)]
      (ErrGithubRepoMappingNotFound project organization 0)
  else ok tt.

Definition GetGithubRepoMappingByRepoID (repoID : Z) : E (GithubRepoMapping * string) :=
  on_no_rows (ErrGithubRepoMappingNotFound "" "" repoID) (perform (SelectMappingByRepo repoID)).

(** ** Session locks *)

(** What is released: the mode and the key of a lock, on a connection of its
    own. *)
Record held_lock := mkLock { hl_shared : bool; hl_key : string }.

Definition acquireAdvisoryLock (mode : lock_mode) (key : string) (onBusy : error) : E held_lock :=
  c ← perform GetDBConn;
  match c with
  | Some e => fail (Wrapped "get database connection" (SqlErr e))
  | None =>
      r ← perform (AdvisoryLock mode key);
      match r with
      | Err e => _ ← perform CloseDBConn; fail (Wrapped "acquire advisory lock" (SqlErr e))
      | Ok acquired =>
          if match mode with TryExclusive => negb acquired | _ => false end
          then _ ← perform CloseDBConn; fail onBusy
          else ok (mkLock match mode with Shared => true | _ => false end key)
      end
  end.

Definition release (l : held_lock) : E unit :=
  _ ← perform (AdvisoryUnlock (hl_shared l) (hl_key l)); attempt (perform CloseDBConn).

Definition acquireProjectLock (mode : lock_mode) (projectID : string) : E held_lock :=
  acquireAdvisoryLock mode projectID (ErrProjectBusy projectID).
Definition AcquireProjectLock := acquireProjectLock Exclusive.
Definition TryAcquireProjectLock := acquireProjectLock TryExclusive.
Definition AcquireProjectLockShared := acquireProjectLock Shared.
Definition AcquireBranchNameLock (projectID branchName : string) : E held_lock :=
  acquireAdvisoryLock Exclusive ("branch-name:" +:+ projectID +:+ ":" +:+ branchName)
    (ErrorText "").

(** [defer release()] around a body. *)
Definition with_lock {A} (lock : E held_lock) (body : E A) : E A :=
  l <-? lock;
  r ← body;
  _ ← release l;
  mret r.
