(* ===== verification/BackupSchedule.v ===== *)
(** * Backup settings of a branch: [services/projects/branch/backup.go]

    Validation of what a caller asks for, the translation to a cron schedule
    and a retention for the cell, and back ([generateSchedule] and
    [clustersToAPIBackupConfig] of [api/api_adapter.go]).  The random minute
    and hour of a default schedule are calls. *)

From stdpp Require Import pretty.
From S2P Require Import Prelude GoStrings GoFloat BranchBuilder ProjectsModel.

#[local] Open Scope Z_scope.
#[local] Open Scope go_scope.

Definition defaultBackupSchedule : string := "0 0 0 * * 0".
Definition MinRetentionPeriod : Z := 2.
Definition MaxRetentionPeriod : Z := 35.
Definition DefaultBackupRetentionPeriod : Z := 2.
Definition BackupMethodBarman : string := "barman".
Definition BackupMethodPgBackRest : string := "pgbackrest".

(** [branch.BackupConfiguration], which is also the API's. *)
Record BackupSettings := mkBackup {
  BackupTime : option string;
  RetentionPeriod : option Z
}.

(** ** Validation *)

Definition in_range (lo hi c : ascii) : bool := (byte_val lo <=? byte_val c) && (byte_val c <=? byte_val hi).

(** [^(\*|[0-6]):(0[0-9]|1[0-9]|2[0-3]):([0-5][0-9])$] *)
Definition backupTimePattern (s : string) : bool :=
  match s with
  | String d (String c1 (String h1 (String h2 (String c2 (String m1 (String m2 EmptyString)))))) =>
      (bool_decide (d = "*"%char) || in_range "0" "6" d) && bool_decide (c1 = ":"%char)
      && ((bool_decide (h1 = "0"%char) && is_digit h2) || (bool_decide (h1 = "1"%char) && is_digit h2)
          || (bool_decide (h1 = "2"%char) && in_range "0" "3" h2))
      && bool_decide (c2 = ":"%char) && in_range "0" "5" m1 && is_digit m2
  | _ => false
  end.

Definition isValidBackupTimeFormat (s : string) : bool := backupTimePattern (TrimSpace s).

Definition ValidateBackup (branchName : string) (c : option BackupSettings) : option error :=
  match c with
  | None => None
  | Some c =>
      if match RetentionPeriod c with
         | Some n => (n <? MinRetentionPeriod) || (MaxRetentionPeriod <? n)
         | None => false
         end
      then Some (BranchInvalidParam branchName "backup retentionPeriod"
                   "must be at least 2 days and maximum 35 days")
      else if match BackupTime c with Some s => negb (isValidBackupTimeFormat s) | None => false end
      then Some (BranchInvalidParam branchName "backup time"
                   ("invalid backup time format '" +:+ default "" (BackupTime c)
                    +:+ "', must match format 'D:HH:MM' where D= * or 0-6, HH=00-23, MM=00-59"))
      else None
  end.

(** ** Schedules *)

(** [strings.SplitN(s, ":", 3)] in three parts, or fewer. *)
Definition GenerateCron (schedule : string) : string :=
  match Cut ":"%char schedule with
  | (d, rest, true) =>
      match Cut ":"%char rest with
      | (hh, mm, true) =>
          if bool_decide (d = "*") then "0 " +:+ mm +:+ " " +:+ hh +:+ " * * *"
          else "0 " +:+ mm +:+ " " +:+ hh +:+ " * * " +:+ d
      | _ => defaultBackupSchedule
      end
  | _ => defaultBackupSchedule
  end.

(** A failing random source gives the default. *)
Definition GenerateRandomBackupCron : M string :=
  hour ← perform (CryptoRandInt 4);
  match hour with
  | None => mret defaultBackupSchedule
  | Some h =>
      minute ← perform (CryptoRandInt 60);
      match minute with
      | None => mret defaultBackupSchedule
      | Some m => mret ("0 " +:+ pretty m +:+ " " +:+ pretty (h + 2) +:+ " * * 0")
      end
  end.

Definition unset_retention (c : BackupSettings) : bool :=
  match RetentionPeriod c with None => true | Some n => n =? 0 end.

Definition BackupRetentionDays (c : option BackupSettings) : Z :=
  match c with
  | None => DefaultBackupRetentionPeriod
  | Some c => if unset_retention c then DefaultBackupRetentionPeriod else default 0 (RetentionPeriod c)
  end.

Definition backup_method (usePgBackRest : bool) : string :=
  if usePgBackRest then BackupMethodPgBackRest else BackupMethodBarman.

Definition ClustersBackupConfig (c : option BackupSettings) (backupsEnabled usePgBackRest : bool)
    : M BackupConfiguration :=
  if negb backupsEnabled then mret (mkBackupMsg "" "" backupsEnabled "")
  else
    schedule ← match c ≫= BackupTime with
               | None | Some "" => GenerateRandomBackupCron
               | Some s => mret (GenerateCron s)
               end;
    mret (mkBackupMsg schedule (pretty (BackupRetentionDays c) +:+ "d") backupsEnabled
            (backup_method usePgBackRest)).

(** ** Back to the API *)

(** [strings.Fields]: the runs of bytes between spaces, for text whose only
    white space is ASCII. *)
Definition ascii_space (c : ascii) : bool := (byte_val c =? 32) || ((9 <=? byte_val c) && (byte_val c <=? 13)).

Fixpoint fields_from (s current : string) : list string :=
  let flush := if bool_decide (current = "") then [] else [current] in
  match s with
  | EmptyString => flush
  | String c s => if ascii_space c then flush ++ fields_from s ""
                  else fields_from s (current +:+ String c "")
  end.
Definition Fields (s : string) : list string := fields_from s "".

Definition pad_two (s : string) : string := if (String.length s =? 1)%nat then "0" +:+ s else s.

Definition generateSchedule (cron : string) : string :=
  match Fields cron with
  | [_; minute; hour; day; month; dayOfWeek] =>
      let hour := pad_two hour in
      let minute := pad_two minute in
      if bool_decide (day = "*") && bool_decide (month = "*") && bool_decide (dayOfWeek = "*")
      then "*:" +:+ hour +:+ ":" +:+ minute else dayOfWeek +:+ ":" +:+ hour +:+ ":" +:+ minute
  | _ => "*:00:00"
  end.

(** [fmt.Sscanf(s, "%dd", &n)] into 32 bits: spaces, a sign, digits and the
    letter; what follows is ignored. *)
Definition scan_retention (s : string) : option Z :=
  let s := drop_while (λ c, bool_decide (c = " "%char)) s in
  let '(neg, s) :=
    match s with
    | String "-" s => (true, s)
    | String "+" s => (false, s)
    | _ => (false, s)
    end in
  let digits := take_while is_digit s in
  match ParseUint10 digits, CutPrefix digits s with
  | Some n, Some (String "d" _) =>
      let n := if neg : bool then - n else n in
      if (- 2 ^ 31 <=? n) && (n <? 2 ^ 31) then Some n else None
  | _, _ => None
  end.

Definition clustersToAPIBackupConfig (c : option BackupConfiguration) : option BackupSettings :=
  match c with
  | None => None
  | Some c =>
      if bool_decide (BackupSchedule c = "") && bool_decide (BackupRetention c = "") then None
      else Some (mkBackup (Some (generateSchedule (BackupSchedule c)))
                   (Some (default DefaultBackupRetentionPeriod (scan_retention (BackupRetention c)))))
  end.

(** ** Lemmas *)

Definition digit_chars (n : nat) : list ascii := map (λ i, ascii_of_nat (48 + i)) (seq 0 n).

(** The times the pattern accepts. *)
Definition day_chars : list ascii := "*"%char :: digit_chars 7.
Definition hour_chars : list (ascii * ascii) :=
  (h ← digit_chars 2; map (pair h) (digit_chars 10)) ++ map (pair "2"%char) (digit_chars 4).
Definition minute_chars : list (ascii * ascii) := m ← digit_chars 6; map (pair m) (digit_chars 10).

Definition time_of (d : ascii) (h m : ascii * ascii) : string :=
  String d (String ":" (String h.1 (String h.2 (String ":" (String m.1 (String m.2 "")))))).

Definition all_ascii : list ascii := map ascii_of_nat (seq 0 256).

(** A property of bytes is checked on every byte. *)
Lemma ascii_check (P : ascii → bool) : forallb P all_ascii = true → ∀ c, P c = true.
Proof.
  intros H c. rewrite forallb_forall in H. apply H, in_map_iff. exists (nat_of_ascii c).
  split; [apply ascii_nat_embedding|]. apply in_seq. pose proof (nat_ascii_bounded c). lia.
Qed.

Lemma chars_check (P : ascii → bool) (l : list ascii) c :
  forallb (λ c, implb (P c) (bool_decide (c ∈ l))) all_ascii = true → P c = true → c ∈ l.
Proof.
  intros H Hc. pose proof (ascii_check _ H c) as Hi. simpl in Hi. rewrite Hc in Hi.
  by apply bool_decide_eq_true in Hi.
Qed.

Definition all_times : list string :=
  d ← day_chars; h ← hour_chars; m ← minute_chars; [time_of d h m].

Lemma elem_of_hours h1 h2 :
  (bool_decide (h1 = "0"%char) && is_digit h2) || (bool_decide (h1 = "1"%char) && is_digit h2)
  || (bool_decide (h1 = "2"%char) && in_range "0" "3" h2) = true → (h1, h2) ∈ hour_chars.
Proof.
  assert (Hd : is_digit h2 = true → h2 ∈ digit_chars 10) by (apply chars_check; by vm_compute).
  unfold hour_chars.
  intros [[[->%bool_decide_eq_true Hh%Hd]%andb_true_iff|[->%bool_decide_eq_true Hh%Hd]%andb_true_iff]%orb_true_iff
         |[->%bool_decide_eq_true Hh]%andb_true_iff]%orb_true_iff; apply elem_of_app.
  1,2: left; apply list_elem_of_bind; eexists; split; [by apply list_elem_of_fmap_2|];
    by apply (bool_decide_unpack _).
  right. apply list_elem_of_fmap_2. revert Hh. apply chars_check. by vm_compute.
Qed.

Lemma pattern_times s : backupTimePattern s = true → s ∈ all_times.
Proof.
  unfold backupTimePattern. do 7 (destruct s as [|? s]; [done|]). destruct s; [|done].
  intros [[[[[Hd ->%bool_decide_eq_true]%andb_true_iff Hh%elem_of_hours]%andb_true_iff
    ->%bool_decide_eq_true]%andb_true_iff Hm1]%andb_true_iff Hm2]%andb_true_iff.
  assert (Hday : a ∈ day_chars).
  { apply (chars_check (λ c, bool_decide (c = "*"%char) || in_range "0" "6" c)); [by vm_compute|exact Hd]. }
  assert (Hmin : (a4, a5) ∈ minute_chars).
  { apply list_elem_of_bind. exists a4. split; [apply list_elem_of_fmap_2; revert Hm2|revert Hm1];
      apply chars_check; by vm_compute. }
  apply list_elem_of_bind. exists a. split; [|done].
  apply list_elem_of_bind. exists (a1, a2). split; [|done].
  apply list_elem_of_bind. exists (a4, a5). split; [|done]. by apply list_elem_of_singleton.
Qed.

Lemma times_roundtrip s :
  s ∈ all_times → generateSchedule (GenerateCron s) = s ∧ isValidBackupTimeFormat s = true.
Proof.
  assert (H : forallb (λ s, bool_decide (generateSchedule (GenerateCron s) = s)
                            && isValidBackupTimeFormat s) all_times = true) by by vm_compute.
  rewrite forallb_forall in H. intros Hs%list_elem_of_In%H. apply andb_true_iff in Hs as [H1 H2].
  by apply bool_decide_eq_true in H1.
Qed.

Lemma random_schedules (h m : Z) :
  0 <= h < 4 → 0 <= m < 60 →
  isValidBackupTimeFormat (generateSchedule ("0 " +:+ pretty m +:+ " " +:+ pretty (h + 2) +:+ " * * 0")) = true.
Proof.
  assert (H : forallb (λ hm, isValidBackupTimeFormat (generateSchedule
      ("0 " +:+ pretty hm.2 +:+ " " +:+ pretty (hm.1 + 2) +:+ " * * 0")))
      (h ← seqZ 0 4; map (pair h) (seqZ 0 60)) = true) by by vm_compute.
  rewrite forallb_forall in H. intros Hh Hm. apply (H (h, m)), list_elem_of_In, list_elem_of_bind.
  exists h. split; [|by apply elem_of_seqZ]. apply list_elem_of_fmap_2, elem_of_seqZ. lia.
Qed.

Lemma retention_roundtrip n :
  MinRetentionPeriod <= n <= MaxRetentionPeriod → scan_retention (pretty n +:+ "d") = Some n.
Proof.
  assert (H : forallb (λ n, bool_decide (scan_retention (pretty n +:+ "d") = Some n)) (seqZ 2 34) = true)
    by by vm_compute.
  rewrite forallb_forall in H. intros Hn. apply (bool_decide_eq_true_1 _), H, list_elem_of_In, elem_of_seqZ.
  unfold MinRetentionPeriod, MaxRetentionPeriod in Hn. lia.
Qed.

(** The documented range of [crypto/rand.Int]. *)
Definition random_in_range (tr : list (event resp)) : Prop :=
  ∀ n i, ev (resp := resp) (CryptoRandInt n) (Some i) ∈ tr → 0 <= i < n.

Lemma random_schedule_valid tr s :
  random_in_range tr → runs resp GenerateRandomBackupCron tr s →
  isValidBackupTimeFormat (generateSchedule s) = true.
Proof.
  intros Hr (h & tr1 & -> & Hk). destruct h as [h|]; [|by destruct Hk as [_ ->]].
  destruct Hk as (m & tr2 & -> & Hk). destruct m as [m|]; [|by destruct Hk as [_ ->]].
  destruct Hk as [-> ->]. apply random_schedules; [apply (Hr 4)|apply (Hr 60)]; set_solver.
Qed.

(** A time written without white space around it. *)
Definition trimmed (c : option BackupSettings) : Prop :=
  ∀ t, c ≫= BackupTime = Some t → TrimSpace t = t.

Definition sent_schedule (c : option BackupSettings) : M string :=
  match c ≫= BackupTime with
  | None | Some "" => GenerateRandomBackupCron
  | Some s => mret (GenerateCron s)
  end.

Lemma schedule_of_settings name c tr s :
  ValidateBackup name c = None → trimmed c → random_in_range tr → runs resp (sent_schedule c) tr s →
  isValidBackupTimeFormat (generateSchedule s) = true ∧
  ∀ t, c ≫= BackupTime = Some t → generateSchedule s = t.
Proof.
  intros Hv Htrim Hr Hrun. unfold sent_schedule in Hrun.
  destruct (c ≫= BackupTime) as [t|] eqn:Hc; [|split; [by eapply random_schedule_valid|done]].
  assert (Ht : isValidBackupTimeFormat t = true).
  { destruct c as [c|]; simpl in *; [|done]. rewrite Hc in Hv. revert Hv.
    destruct (match RetentionPeriod c with Some n => _ | None => _ end); [done|].
    by destruct (isValidBackupTimeFormat t). }
  destruct t as [|a t]; [done|]. apply runs_ret in Hrun as [_ ->].
  unfold isValidBackupTimeFormat in Ht. rewrite (Htrim _ Hc) in Ht.
  apply pattern_times, times_roundtrip in Ht as [Hg Hval]. rewrite Hg. split; [done|]. by intros ? [= <-].
Qed.

Lemma days_in_range name c :
  ValidateBackup name c = None → MinRetentionPeriod <= BackupRetentionDays c <= MaxRetentionPeriod.
Proof.
  unfold BackupRetentionDays, unset_retention, DefaultBackupRetentionPeriod, MinRetentionPeriod, MaxRetentionPeriod.
  intros Hv. destruct c as [[t [n|]]|]; simpl in *; [|lia..].
  destruct (n =? 0) eqn:Hn; [lia|]. destruct (_ || _) eqn:Hb; [done|].
  apply orb_false_iff in Hb as [H1 H2]. unfold MinRetentionPeriod, MaxRetentionPeriod in *. lia.
Qed.

(** Backup settings survive the cell: settings that validation accepts are
    sent as a cron schedule and a retention from which the API reads back the
    very time and retention that were asked for, and the defaults where they
    were not; what it reads back can be sent again. *)
Theorem backup_settings_roundtrip name c pg tr cfg :
  ValidateBackup name c = None → trimmed c → random_in_range tr →
  runs resp (ClustersBackupConfig c true pg) tr cfg →
  BackupsEnabled cfg = true ∧ BackupMethodName cfg = backup_method pg ∧
  ∃ t, clustersToAPIBackupConfig (Some cfg) = Some (mkBackup (Some t) (Some (BackupRetentionDays c))) ∧
    (∀ t', c ≫= BackupTime = Some t' → t = t') ∧
    ValidateBackup name (Some (mkBackup (Some t) (Some (BackupRetentionDays c)))) = None.
Proof.
  intros Hv Htrim Hr Hrun. pose proof (days_in_range _ _ Hv) as Hdays.
  apply runs_bind in Hrun as (tr1 & tr2 & s & -> & Hs & [-> ->]%runs_ret). split_and!; [done|done|].
  apply (schedule_of_settings name) in Hs as [Hval Hsame]; [|done..|intros n i Hin; apply Hr; set_solver].
  exists (generateSchedule s). split_and!.
  - simpl. rewrite retention_roundtrip by done. case_bool_decide; [|done].
    case_bool_decide as Hn; [|done]. by destruct (pretty (BackupRetentionDays c)) in Hn.
  - intros t' Ht'. by rewrite (Hsame _ Ht').
  - simpl. rewrite Hval. unfold MinRetentionPeriod, MaxRetentionPeriod in *.
    by rewrite (proj2 (Z.ltb_ge _ _)), (proj2 (Z.ltb_ge _ _)) by lia.
Qed.

(** ** A configuration that is asked for, and one that is drawn *)

Module Witness.

Definition asked : option BackupSettings := Some (mkBackup (Some "3:04:05"%string) (Some 7)).
Definition drawn : list (event resp) := [ev (CryptoRandInt 4) (Some 1); ev (CryptoRandInt 60) (Some 9)].

Lemma backup_settings_roundtrip_witness :
  clustersToAPIBackupConfig (Some (mkBackupMsg "0 05 04 * * 3" "7d" true "pgbackrest")) = asked ∧
  ∃ t, clustersToAPIBackupConfig (Some (mkBackupMsg "0 9 3 * * 0" "2d" true "barman"))
    = Some (mkBackup (Some t) (Some 2)).
Proof.
  pose proof (backup_settings_roundtrip "b" asked true [] (mkBackupMsg "0 05 04 * * 3" "7d" true "pgbackrest")) as H1.
  pose proof (backup_settings_roundtrip "b" None false drawn (mkBackupMsg "0 9 3 * * 0" "2d" true "barman")) as H2.
  split.
  - destruct H1 as (_ & _ & t & H & Ht & _); [done|by intros ? [= <-]|by intros ? ? ?%elem_of_nil|done|].
    rewrite H. by rewrite (Ht _ eq_refl).
  - destruct H2 as (_ & _ & t & H & _); [done|done| |by repeat eexists|by exists t].
    intros n i [H|[H|[]%elem_of_nil]%elem_of_cons]%elem_of_cons;
      apply (f_equal (λ e, match e with
                           | ev (CryptoRandInt n) (Some i) => Some (n, i)
                           | _ => None
                           end)) in H; simpl in H; injection H as -> ->; lia.
Defined.

End Witness.
