(* ===== verification/Scheduler.v ===== *)
(** * The cell of a new branch: [services/projects/scheduler]

    [scheduler.go] and the strategies of [scheduler/strategy]: random, pinned
    and weighted choices as one weighted draw over unsigned 64-bit weights.
    The YAML of a configuration is decoded by a library: a decoded document is
    the input of [NewScheduler]. *)

From S2P Require Import Prelude GoStrings ProjectsModel ProjectStore.

#[local] Open Scope Z_scope.
#[local] Open Scope go_scope.

(** ** Strategies *)

Inductive Strategy :=
| Random
| Pinned (cell : string)
| Weighted (weights : gmap string Z).

#[global] Instance Strategy_eq_dec : EqDecision Strategy.
Proof. solve_decision. Defined.

(** The [Validate] methods; [Random] has none. *)
Definition Validate (s : Strategy) : option error :=
  match s with
  | Random => None
  | Pinned cell => if bool_decide (cell = "") then Some (ErrorText "cell is required") else None
  | Weighted weights =>
      if existsb (λ kv, 0 <? kv.2) (map_to_list weights) then None
      else Some (ErrorText "at least one cell must have a positive weight")
  end.

(** A [uint] sum wraps. *)
Definition total_weight (weightOf : Cell → Z) (cells : list Cell) : Z :=
  foldl (λ total c, (total + weightOf c) mod 2 ^ 64) 0 cells.

(** The subtraction does not wrap: [r] is not below the weight. *)
Fixpoint draw (weightOf : Cell → Z) (r : Z) (cells : list Cell) : option Cell :=
  match cells with
  | [] => None
  | c :: cells => if r <? weightOf c then Some c else draw weightOf (r - weightOf c) cells
  end.

Definition no_cells : error := ErrorText "no cells available for scheduling".

Definition pick (cells : list Cell) (weightOf : Cell → Z) : E Cell :=
  let total := total_weight weightOf cells in
  if total =? 0 then fail no_cells
  else
    r ← perform (RandUintN total);
    match draw weightOf r cells with Some c => ok c | None => fail no_cells end.

Definition weight_of (s : Strategy) (c : Cell) : Z :=
  match s with
  | Random => 1
  | Pinned cell => if bool_decide (ce_ID c = cell) then 1 else 0
  | Weighted weights => default 0 (weights !! ce_ID c)
  end.

Definition Schedule (s : Strategy) (cells : list Cell) : E Cell := pick cells (weight_of s).

(** ** [scheduler.go] *)

Record Scheduler := mkScheduler {
  DefaultStrategy : Strategy;
  regionStrategies : gmap string Strategy
}.

(** The decoded document: the default, if there is one, and the regions. *)
Definition NewScheduler (default_ : option Strategy) (regions : gmap string Strategy) : Scheduler :=
  mkScheduler (default Random default_) regions.

Definition StrategyForRegion (s : Scheduler) (regionID : string) : Strategy :=
  default (DefaultStrategy s) (regionStrategies s !! regionID).

(** [allocateCell] of [branch/create.go] *)
Definition allocateCell (sched : Scheduler) (organizationID branchName regionID : string) : E string :=
  cells <-? ListCells organizationID regionID;
  match cells with
  | [] => fail (BranchInvalidParam branchName "region" "cannot allocate to given region")
  | _ =>
      cell <-? wrap ("failed to schedule branch " +:+ q branchName)
                 (Schedule (StrategyForRegion sched regionID) cells);
      ok (ce_ID cell)
  end.

(** ** The draw *)

Definition sum_weights (weightOf : Cell → Z) (cells : list Cell) : Z :=
  foldr (λ c n, weightOf c + n) 0 cells.

(** Weights that are unsigned and add up in 64 bits. *)
Definition weights_fit (weightOf : Cell → Z) (cells : list Cell) : Prop :=
  (∀ c, c ∈ cells → 0 <= weightOf c) ∧ sum_weights weightOf cells < 2 ^ 64.

Lemma sum_weights_nonneg weightOf cells :
  (∀ c, c ∈ cells → 0 <= weightOf c) → 0 <= sum_weights weightOf cells.
Proof.
  induction cells as [|c cells IH]; simpl; intros H; [lia|].
  pose proof (H c (list_elem_of_here _ _)). pose proof (IH (λ c' Hc, H c' (list_elem_of_further _ _ _ Hc))). lia.
Qed.

Lemma total_weight_from weightOf cells acc :
  (∀ c, c ∈ cells → 0 <= weightOf c) → 0 <= acc → acc + sum_weights weightOf cells < 2 ^ 64 →
  foldl (λ total c, (total + weightOf c) mod 2 ^ 64) acc cells = acc + sum_weights weightOf cells.
Proof.
  revert acc. induction cells as [|c cells IH]; simpl; intros acc H Ha Hs; [lia|].
  pose proof (H c (list_elem_of_here _ _)).
  assert (H' : ∀ c', c' ∈ cells → 0 <= weightOf c') by (intros c' Hc; apply H; by right).
  pose proof (sum_weights_nonneg _ _ H'). rewrite Z.mod_small by lia. rewrite IH by (done || lia). lia.
Qed.

Lemma total_weight_sum weightOf cells :
  weights_fit weightOf cells → total_weight weightOf cells = sum_weights weightOf cells.
Proof. intros [H Hs]. unfold total_weight. rewrite total_weight_from by (done || lia). lia. Qed.

(** The draws that pick the cell at a place: the weight of the cells before it
    and of the cell itself bound an interval. *)
Lemma draw_interval weightOf cells r before c after :
  (∀ c, c ∈ cells → 0 <= weightOf c) → cells = before ++ c :: after →
  sum_weights weightOf before <= r < sum_weights weightOf before + weightOf c →
  draw weightOf r cells = Some c.
Proof.
  intros H ->. revert r. induction before as [|b before IH]; simpl in *; intros r Hr.
  - by rewrite (proj2 (Z.ltb_lt _ _)) by lia.
  - assert (Hb : ∀ c', c' ∈ before → 0 <= weightOf c') by (intros c' Hc; apply H; set_solver).
    pose proof (sum_weights_nonneg _ _ Hb).
    rewrite (proj2 (Z.ltb_ge _ _)) by lia. apply IH; [|lia]. intros c' Hc. apply H. by right.
Qed.

Lemma draw_some weightOf cells r :
  (∀ c, c ∈ cells → 0 <= weightOf c) → 0 <= r < sum_weights weightOf cells →
  ∃ before c after, cells = before ++ c :: after ∧ draw weightOf r cells = Some c ∧
    sum_weights weightOf before <= r < sum_weights weightOf before + weightOf c.
Proof.
  revert r. induction cells as [|c cells IH]; simpl; intros r H Hr; [lia|].
  destruct (r <? weightOf c) eqn:Hlt.
  - exists [], c, cells. apply Z.ltb_lt in Hlt. split_and!; [done|done|simpl; lia..].
  - apply Z.ltb_ge in Hlt. destruct (IH (r - weightOf c)) as (bf & c' & af & -> & Hd & Hi).
    { intros c' Hc. apply H. by right. } { lia. }
    exists (c :: bf), c', af. split_and!; [done|done|simpl; lia..].
Qed.

(** A branch is placed on a cell of the list whose weight is positive: on
    the pinned cell and no other, never on a cell without a weight.  A draw
    below the total picks the cell whose share of the total it falls in, so a
    cell is picked by as many draws as its weight; the error is returned
    exactly when no cell has a weight, as long as the weights add up in 64 bits. *)
Theorem schedule_follows_weights s cells tr out :
  weights_fit (weight_of s) cells →
  (∀ n r, ev (resp := resp) (RandUintN n) r ∈ tr → 0 <= r < n) →
  runs resp (Schedule s cells) tr out →
  match out with
  | Ok c => ∃ r before after, tr = [ev (RandUintN (sum_weights (weight_of s) cells)) r] ∧
      cells = before ++ c :: after ∧ 0 < weight_of s c ∧
      sum_weights (weight_of s) before <= r < sum_weights (weight_of s) before + weight_of s c
  | Err e => e = no_cells ∧ tr = [] ∧ ∀ c, c ∈ cells → weight_of s c = 0
  end.
Proof.
  intros Hfit Hrand Hrun. unfold Schedule, pick in Hrun. cbv zeta in Hrun.
  rewrite total_weight_sum in Hrun by done. destruct Hfit as [Hpos _]. destruct (_ =? 0) eqn:Hz.
  - apply runs_ret in Hrun as [-> ->]. apply Z.eqb_eq in Hz. split_and!; [done|done|].
    revert Hpos Hz. induction cells as [|c cells IH]; [by intros _ _ ? []%elem_of_nil|]. simpl. intros H Hz.
    assert (H' : ∀ c', c' ∈ cells → 0 <= weight_of s c') by (intros c' Hc; apply H; by right).
    pose proof (sum_weights_nonneg _ _ H'). pose proof (H c (list_elem_of_here _ _)).
    intros c' [->|Hc]%elem_of_cons; [lia|]. apply IH; [done|lia|done].
  - destruct Hrun as (r & tr2 & -> & Hk).
    pose proof (Hrand _ _ (list_elem_of_here _ _)) as Hr.
    destruct (draw_some _ _ _ Hpos Hr) as (before & c & after & Hcells & Hd & Hi).
    simpl in Hk. rewrite Hd in Hk. destruct Hk as [-> ->]. exists r, before, after. split_and!; [done|done|lia|lia|lia].
Qed.

(** ** Two cells, one of them with nine tenths of the branches *)

Module Witness.

Definition cell (id : string) : Cell := mkCell id "us-east-1" 0 "" None.
Definition cells : list Cell := [cell "cell-0"; cell "cell-1"; cell "cell-2"].
Definition strategy : Strategy := Weighted {[ "cell-1" := 90; "cell-2" := 10 ]}.

Lemma schedule_follows_weights_witness :
  0 < weight_of strategy (cell "cell-2") ∧ weight_of strategy (cell "cell-0") = 0 ∧
  ∃ before after, cells = before ++ cell "cell-2" :: after ∧
    sum_weights (weight_of strategy) before <= 95.
Proof.
  pose proof (schedule_follows_weights strategy cells [ev (RandUintN 100) 95] (Ok (cell "cell-2"))) as H.
  split_and!; [done|done|]. destruct H as (r & before & after & Hr & Hc & _ & Hi).
  - split; [|by vm_compute].
    intros c [->|[->|[->|[]%elem_of_nil]%elem_of_cons]%elem_of_cons]%elem_of_cons; by vm_compute.
  - intros n r [H|[]%elem_of_nil]%elem_of_cons.
    apply (f_equal (λ e : event resp, match e with ev (RandUintN n) r => Some (n, r : Z) | _ => None end)) in H.
    simpl in H. injection H as -> ->. lia.
  - by do 2 eexists.
  - apply (f_equal (λ l : list (event resp), match l with
                                               | ev (RandUintN n) r :: _ => (r : Z)
                                               | _ => 0
                                               end)) in Hr. simpl in Hr. subst r.
    exists before, after. split; [done|lia].
Defined.

(** Weights that wrap: no cell is found although both have a weight. *)
Lemma wrapped_weights_find_no_cell :
  runs resp (Schedule (Weighted {[ "cell-1" := 2 ^ 63; "cell-2" := 2 ^ 63 ]}) cells) [] (Err no_cells) ∧
  Validate (Weighted {[ "cell-1" := 2 ^ 63; "cell-2" := 2 ^ 63 ]}) = None.
Proof. split; [|by vm_compute]. by repeat eexists. Qed.

End Witness.
