(* ===== verification/BranchService.v ===== *)
(** * Creating and deleting branches

    [services/projects/branch] ([service.go], [create.go], [image.go],
    [instancetype.go], [region.go], [connection.go], [delete.go]),
    [services/projects/provisioner/provisioner.go] and
    [services/projects/cells/cells.go].  A connection to a cell is its URL; the
    pool behind [GetConn] and the closing of connections, which does nothing,
    are left out. *)

From stdpp Require Import pretty.
From S2P Require Import Prelude GoStrings GoFloat GoTime Netip IPFilterModel ProjectFilter Limits PostgresVersions Extensions BranchTypes BranchBuilder PostgresConfig ClusterStatus ProjectsModel ProjectStore BackupSchedule Scheduler.

#[local] Open Scope Z_scope.
#[local] Open Scope go_scope.

(** ** Feature flags ([internal/flags/flags.go]) *)

Definition flag_BranchCreationDisabled : string := "branchCreationDisabled".
Definition flag_ChildBranchCreationDisabled : string := "childBranchCreationDisabled".
Definition flag_ExperimentalImages : string := "experimentalImages".
Definition flag_AnalyticsImages : string := "analyticsImages".
Definition flag_LegacyPgVersions : string := "legacyPgVersions".
Definition flag_UseClusterPool : string := "useClusterPool".
Definition flag_UseXatastor : string := "useXatastor".
Definition flag_UsePgBackRest : string := "usePgBackRest".
Definition PgMajorFlag (major : string) : string := "pgMajor" +:+ major.

Definition flag (name : string) : M bool := perform (BoolValue name).

(** ** Cells *)

(** The URL of the cell the organization may use. *)
Definition GetCellConnection (organizationID cellID : string) : E string :=
  cell <-? GetCell organizationID cellID;
  r ← perform (GetConn (ce_ClustersGRPCURL cell));
  match r with None => ok (ce_ClustersGRPCURL cell) | Some e => fail (ErrorText e) end.

Definition ApplyProjectIPFiltering (client branchID : string) (project : Project) : E unit :=
  let f := Project_IPFiltering (p_Settings project) in
  if negb (IPF_Enabled f) && bool_decide (default [] (CIDRs f) = []) then ok tt
  else wrap "set ip filtering for branch"
         (rpc (perform (SetBranchIPFiltering client branchID (mkConfig (IPF_Enabled f) (CIDRStrings f))))).

(** A cluster that is not found counts as deleted, and the IP filtering is
    removed if possible. *)
Definition DeprovisionBranch (organizationID : string) (b : Branch) : E unit :=
  client <-? wrap "get cell connection" (GetCellConnection organizationID (b_CellID b));
  r ← perform (DeletePostgresCluster client (b_ID b));
  match r with
  | Err (NotFound, _) | Ok _ => _ ← perform (DeleteBranchIPFiltering client (b_ID b)); ok tt
  | Err (c, msg) => fail (Status c msg)
  end.

(** ** Inputs and payloads *)

Record FlagsConfig := mkFlags { UsePool : bool; UseXatastor : bool }.

(** [branch.Configuration]; a map or a list that is nil is [None]. *)
Record Configuration := mkConfiguration {
  cf_Image : string;
  cf_Region : string;
  cf_InstanceType : string;
  cf_Replicas : Z;
  cf_PreloadLibraries : option (list string);
  cf_Parameters : option (gmap string string);
  cf_Storage : option Z
}.

Inductive Mode := FromParent (parentID : string) | FromConfiguration (config : Configuration).

Record CreateInput := mkInput {
  in_OrganizationID : string;
  in_ProjectID : string;
  in_Name : string;
  in_Mode : Mode;
  in_Marketplace : string;
  in_UsageTier : string;
  in_OrgLimits : OrgLimits;
  in_Flags : FlagsConfig;
  in_UsePgBackRest : bool;
  in_Description : option string;
  in_Backup : option BackupSettings;
  in_ScaleToZero : option ScaleToZeroMsg;
  in_ProjectLockHeld : bool
}.

Record Payload := mkPayload {
  py_ParentID : option string;
  py_Configuration : ClusterConfiguration;
  py_Description : option string;
  py_CellID : string;
  py_Region : string;
  py_BackupsEnabled : bool;
  py_BackupRetentionPeriod : Z;
  py_BackupConfig : option BackupConfiguration;
  py_Flags : FlagsConfig;
  py_UsageTier : string;
  py_Limits : option BranchLimits;
  py_ProjectLockHeld : bool
}.

(** The payload as it is built, before [Provision] completes it. *)
Definition new_payload (parent : option string) (c : ClusterConfiguration) (cell region : string)
    (backupsEnabled : bool) : Payload :=
  mkPayload parent c None cell region backupsEnabled 0 None (mkFlags false false) "" None false.

Definition empty_configuration : ClusterConfiguration :=
  BranchBuilder.mkConfiguration 0 0 "" "" None "" "" ∅ [] None.

Definition set_scale_to_zero (s : option ScaleToZeroMsg) (c : ClusterConfiguration) : ClusterConfiguration :=
  BranchBuilder.mkConfiguration (cc_NumInstances c) (cc_StorageSize c) (cc_ImageName c) (cc_Memory c) s
    (cc_VcpuRequest c) (cc_VcpuLimit c) (cc_Parameters c) (cc_PreloadLibraries c) (cc_StorageQosClass c).

(** A repeated field or a slice whose emptiness and absence are one. *)
Definition slice (l : list string) : option (list string) := match l with [] => None | _ => Some l end.

(** ** Regions ([region.go]) *)

Definition IsRegionAvailableForMarketplace (marketplace : string) (region : Region) : bool :=
  if bool_decide (marketplace = ProviderAWS) then bool_decide (rg_Provider region = ProviderAWS) else true.

Definition validateRegionForMarketplace (marketplace : string) (region : Region) : option error :=
  if IsRegionAvailableForMarketplace marketplace region then None
  else Some (BranchInvalidRegion ("provider " +:+ rg_Provider region +:+ " is not available for "
               +:+ marketplace +:+ " marketplace organizations")).

Definition ValidateMarketplaceRegion (organizationID marketplace region : string) : E unit :=
  if bool_decide (marketplace = "") then ok tt
  else r <-? GetRegion organizationID region; err_unit (validateRegionForMarketplace marketplace r).

(** ** Instance types ([instancetype.go]) *)

Definition FallbackInstanceType : string := "custom".

Definition InstanceTypeByName (region name : string) (maxAllowedInstanceType : Z)
    : res error InstanceType :=
  match List.find (λ it, bool_decide (it_Name it = name)) (ListInstanceTypes region) with
  | None => Err (ErrorText ("instance type " +:+ name +:+ " is not found"))
  | Some it =>
      if negb (maxAllowedInstanceType =? 0) && (maxAllowedInstanceType <? it_VCPUsRequest it)
      then Err (ErrorText ("instance type " +:+ name +:+ " is not available on your current plan; please add a payment method in your billing settings or contact support to enable larger instances"))
      else Ok it
  end.

Section Resources.
Context `{Quantities}.

Definition ParseCPUResource (cpuSpec : string) : res error Z :=
  match ParseQuantity cpuSpec with
  | None => Err (Wrapped "failed to parse cpu resource" (ErrorText cpuSpec))
  | Some q => Ok (QuantityMilliValue q)
  end.

Definition InstanceTypeByResources (region cpuRequest cpuLimit memory : string) : res error string :=
  vcpusRequest <~ ParseCPUResource cpuRequest;
  vcpusLimit <~ ParseCPUResource cpuLimit;
  match ParseInt10 memory with
  | None => Err (ErrorText ("strconv.Atoi: parsing " +:+ q memory))
  | Some ram =>
      Ok match List.find (λ it, (it_VCPUsRequest it =? vcpusRequest) && (it_VCPUsLimit it =? vcpusLimit)
                                && (it_RAM it =? ram)) (ListInstanceTypes region) with
         | Some it => it_Name it
         | None => FallbackInstanceType
         end
  end.
End Resources.

(** ** Images ([image.go]) *)

Definition image_error_text (e : image_error) : string :=
  match e with
  | InvalidImageFormat => "invalid image format, expected 'offering:version'"
  | InvalidVersionFormat => "invalid version format, expected 'major.minor'"
  | InvalidMajor => "invalid major version"
  | InvalidMinor => "invalid minor version"
  | ImageNotAvailable => "image is not available"
  end.

Section Images.
(** The sources of [versions.yaml]. *)
Variable sources : list Source.

Definition validImage : string := "postgresql:17".

Definition resolveImage (image : string) : res error string :=
  if bool_decide (image = validImage) then Ok "ghcr.io/xataio/postgres-images/cnpg-postgres-plus:17.5"%string
  else if bool_decide (image ∈ GetAllImageNames sources) then
    match BuildImageURL sources image with Some url => Ok url | None => Err Panicked end
  else Err (ErrorText ("image " +:+ image +:+ " is not valid")).

Definition not_available (image : string) : error := ErrorText ("image " +:+ image +:+ " is not available").

(** A condition under which a flag has to be enabled. *)
Definition unless_enabled (restricted : bool) (name : string) (e : error) : E unit :=
  if restricted then enabled ← flag name; (if enabled : bool then ok tt else fail e) else ok tt.

Definition MajorVersionEnabled (major : string) : M bool := flag (PgMajorFlag major).

Definition ValidateImage (image : string) : E string :=
  _ <-? unless_enabled (HasPrefix image "experimental:") flag_ExperimentalImages (not_available image);
  _ <-? unless_enabled (HasPrefix image "analytics:") flag_AnalyticsImages (not_available image);
  _ <-? match HiddenMajorImages sources !! image with
        | Some major => unless_enabled true (PgMajorFlag major) (not_available image)
        | None => ok tt
        end;
  _ <-? unless_enabled (bool_decide (image ∈ HiddenImageNames sources)) flag_LegacyPgVersions
          (not_available image);
  mret (resolveImage image).

Definition parse_image (image : string) : res error ImageVersion :=
  match ParseImageVersion image with Ok v => Ok v | Err e => Err (ErrorText (image_error_text e)) end.

Definition ValidateImageUpgrade (newImage currentImage : string) : res error string :=
  newImageURL <~ resolveImage newImage;
  new <~ parse_image newImageURL;
  current <~ parse_image currentImage;
  if negb (bool_decide (Offering new = Offering current))
  then Err (ErrorText ("incompatible offering: " +:+ Offering new +:+ " is not compatible with " +:+ Offering current))
  else if negb (Major new =? Major current)
  then Err (ErrorText ("no major version upgrades supported: " +:+ pretty (Major new)
              +:+ " is different than current " +:+ pretty (Major current)))
  else if Minor new <? Minor current
  then Err (ErrorText ("new minor: " +:+ pretty (Minor new) +:+ " is older than current  " +:+ pretty (Minor current)))
  else Ok newImageURL.
End Images.

(** ** Limits of a configuration ([create.go]); 32-bit integers wrap *)

Definition int32 (n : Z) : Z := (n + 2 ^ 31) mod 2 ^ 32 - 2 ^ 31.

Definition ValidateStorage (branchName : string) (storageGB max : Z) : option error :=
  if storageGB <? 1 then Some (BranchInvalidParam branchName "storage" "storage size must be at least 1 GB")
  else if (0 <? max) && (int32 max <? storageGB)
  then Some (BranchInvalidParam branchName "storage"
               ("storage size exceeds the maximum of " +:+ pretty max +:+ " GB"))
  else None.

Definition ValidateReplicaCount (branchName : string) (replicas min max : Z) : option error :=
  let numInstances := int32 (replicas + 1) in
  if numInstances <? int32 min
  then Some (BranchInvalidParam branchName "configuration"
               ("number of replicas requires at least " +:+ pretty min +:+ " instance(s)"))
  else if int32 max <? numInstances
  then Some (BranchInvalidParam branchName "configuration"
               ("number of replicas exceeds the maximum of " +:+ pretty max +:+ " instance(s)"))
  else None.

(** [cfg == Configuration{}] *)
Definition is_zero_configuration (c : Configuration) : bool :=
  bool_decide (cf_Image c = "") && bool_decide (cf_Region c = "") && bool_decide (cf_InstanceType c = "")
  && (cf_Replicas c =? 0) && bool_decide (cf_PreloadLibraries c = None)
  && bool_decide (cf_Parameters c = None) && bool_decide (cf_Storage c = None).

Definition validateConfiguration (name : string) (cfg : Configuration) (l : OrgLimits) : option error :=
  if is_zero_configuration cfg
  then Some (BranchInvalidParam name "configuration" "configuration is required for 'custom' mode")
  else match cf_Storage cfg ≫= λ n, ValidateStorage name n (ol_MaxStorageGBPerBranch l) with
       | Some e => Some e
       | None => ValidateReplicaCount name (cf_Replicas cfg) (ol_MinInstancesPerBranch l) (ol_MaxInstancesPerBranch l)
       end.

(** ** Payloads *)

(** A missing base parameter is a panic of the merge. *)
Definition config_error_of (wrap : string → error) (e : config_error) : error :=
  match e with
  | MissingBase _ => Panicked
  | UnknownParameterType s => wrap ("unknown parameter type: " +:+ s)
  | UnknownInstanceSize s => wrap ("unknown instance size " +:+ s)
  | InvalidInstanceType s => wrap ("invalid instance type: " +:+ s)
  | UnknownConfigurableParameter s => wrap ("unknown configurable parameter: " +:+ s)
  | UnknownOffering s => wrap ("unknown offering: " +:+ s)
  | InvalidPreloadLibrary s => wrap ("invalid preload library: " +:+ s)
  end.

Definition config_result {A} (wrap : string → error) (r : res config_error A) : res error A :=
  match r with Ok a => Ok a | Err e => Err (config_error_of wrap e) end.

Fixpoint join (sep : string) (l : list string) : string :=
  match l with
  | [] => ""
  | [s] => s
  | s :: l => s +:+ sep +:+ join sep l
  end.

Section Service.
Context `{GoRuntime} `{Quantities}.
(** The image sources, the extensions and parameters of the catalogues, the
    scheduler's strategies, the gateway's default address, the maximum depth
    of a branch tree, and how the error of a setting is printed. *)
Variable sources : list Source.
Variable imageExtensions : option ImageExtensions.
Variable configurableParameters : gmap string PostgresParameterSpec.
Variable sched : Scheduler.
Variable defaultGatewayHostPort : string.
Variable maxDepth : Z.
Variable value_error_text : value_error → string.

(** The errors of several settings, by name. *)
Definition settings_text (errs : gmap string value_error) : string :=
  join "; " (map (λ name, name +:+ ": " +:+ from_option value_error_text "" (errs !! name))
               (sort_strings (elements (dom errs)))).

Definition preload_libraries (branchName image : string) (libs : option (list string))
    : res error (list string) :=
  match libs with
  | Some ((_ :: _) as libs) =>
      match ValidatePreloadLibraries imageExtensions image libs with
      | Some e => Err (config_error_of (BranchInvalidParam branchName "preloadLibraries") e)
      | None => Ok libs
      end
  | _ => config_result (λ s, BranchInvalidParam branchName "image"
                               ("failed to get default preload libraries: " +:+ s))
           (GetDefaultPreloadLibraries image)
  end.

(** Defaults, overridden by the valid settings that were asked for. *)
Definition postgres_parameters (branchName image : string) (cfg : Configuration) (libs : list string)
    : res error (gmap string string) :=
  let majorVersion := ExtractMajorVersionFromImage image in
  _ <~ match cf_Parameters cfg with
       | None => Ok tt
       | Some params =>
           errs <~ config_result (λ s, BranchInvalidParam branchName "postgresConfigurationParameters"
                                        ("validation failed: " +:+ s))
                     (ValidateSettings imageExtensions configurableParameters (cf_InstanceType cfg)
                        params majorVersion image (Some libs));
           if bool_decide (errs = ∅) then Ok tt
           else Err (BranchInvalidParam branchName "postgresConfigurationParameters" (settings_text errs))
       end;
  defaults <~ config_result (λ s, BranchInvalidParam branchName "instanceType"
                                   ("failed to compute Postgres parameters: " +:+ s))
                (GetDefaultPostgresParameters imageExtensions configurableParameters (cf_InstanceType cfg)
                   majorVersion image (Some libs));
  Ok (default ∅ (cf_Parameters cfg) ∪ defaults).

Definition pure {A} (r : res error A) : E A := mret r.

Definition PayloadFromConfiguration (organizationID branchName : string) (cfg : Configuration)
    (orgLimits : OrgLimits) (marketplace : string) : E Payload :=
  _ <-? err_unit (validateConfiguration branchName cfg orgLimits);
  image <-? map_err (λ e, BranchInvalidParam branchName "configuration" ("invalid image: " +:+ error_text e))
              (ValidateImage sources (cf_Image cfg));
  region <-? map_err (λ e, BranchInvalidParam branchName "configuration" ("invalid region: " +:+ error_text e))
               (GetRegion organizationID (cf_Region cfg));
  _ <-? map_err (λ e, BranchInvalidParam branchName "region" (error_text e))
          (err_unit (validateRegionForMarketplace marketplace region));
  cellID <-? allocateCell sched organizationID branchName (cf_Region cfg);
  it <-? map_err (λ e, BranchInvalidParam branchName "instanceType" (error_text e))
           (pure (InstanceTypeByName (cf_Region cfg) (cf_InstanceType cfg) (ol_MaxAllowedInstanceType orgLimits)));
  libs <-? pure (preload_libraries branchName image (cf_PreloadLibraries cfg));
  params <-? pure (postgres_parameters branchName image cfg libs);
  ok (new_payload None
        (BranchBuilder.mkConfiguration (int32 (cf_Replicas cfg + 1)) (default 0 (cf_Storage cfg)) image
           (Memory it) None (CPURequest it) (CPULimit it) params libs
           (if bool_decide (it_StorageQoSClass it = "") then None else Some (it_StorageQoSClass it)))
        cellID (cf_Region cfg) (rg_BackupsEnabled region)).

Definition PayloadFromParent (organizationID projectID branchName parentID : string) : E Payload :=
  if bool_decide (parentID = "")
  then fail (BranchInvalidParam branchName "parentID" "parentId is required for 'inherit' mode")
  else
    parent <-? map_err (λ e, match e with ErrBranchNotFound _ => BranchBranchNotFound parentID | e => e end)
                 (DescribeBranch organizationID projectID parentID);
    ok (new_payload (Some parentID) empty_configuration (b_CellID parent) (b_Region parent)
          (b_BackupsEnabled parent)).

Definition BuildPayload (i : CreateInput) : E Payload :=
  if bool_decide (in_Name i = "") then fail (BranchInvalidParam "" "name" "branch name is required")
  else
    _ <-? err_unit (ValidateBackup (in_Name i) (in_Backup i));
    match in_Mode i with
    | FromParent parentID =>
        disabled ← flag flag_ChildBranchCreationDisabled;
        if disabled : bool then fail BranchChildCreationDisabled
        else
          payload <-? PayloadFromParent (in_OrganizationID i) (in_ProjectID i) (in_Name i) parentID;
          _ <-? map_err (λ e, BranchInvalidParam (in_Name i) "region" (error_text e))
                  (ValidateMarketplaceRegion (in_OrganizationID i) (in_Marketplace i) (py_Region payload));
          ok payload
    | FromConfiguration cfg =>
        PayloadFromConfiguration (in_OrganizationID i) (in_Name i) cfg (in_OrgLimits i) (in_Marketplace i)
    end.

(** ** The provisioner ([provisioner.go]) *)

(** [int64(period.Duration().Minutes())], exact for the whole minutes that the
    database holds. *)
Definition whole_minutes (period : Z) : Z := Z.quot period Minute.

Definition project_scale_to_zero (project : Project) (parent : option string) : ScaleToZeroMsg :=
  let s := Project_ScaleToZero (p_Settings project) in
  let s2z := match parent with None => BaseBranches s | Some _ => ChildBranches s end in
  mkStzMsg (STZ_Enabled s2z) (whole_minutes (InactivityPeriod s2z)).

Definition create_request (organizationID projectID idempotencyKey : string) (branch : Branch)
    (configuration : ClusterConfiguration) (payload : Payload) : CreateRequest :=
  mkCreate (b_ID branch) configuration (default "" (b_ParentID branch)) organizationID projectID
    (py_BackupConfig payload) (ClusterSnapshot <$> b_ParentID branch) (UsePool (py_Flags payload))
    (match b_ParentID branch with None => UseXatastor (py_Flags payload) | Some _ => false end)
    idempotencyKey.

(** What runs inside the store's transaction. *)
Definition provision (client organizationID projectID : string) (configuration : ClusterConfiguration)
    (payload : Payload) (branch : Branch) (lockedProject : Project) : E unit :=
  key ← perform NewID;
  _ <-? rpc (perform (CreatePostgresCluster client
               (create_request organizationID projectID key branch configuration payload)));
  ApplyProjectIPFiltering client (b_ID branch) lockedProject.

Definition create_error (name : string) (parent : option string) (e : error) : error :=
  match grpc_code e, parent with
  | NotFound, Some p => ProvBranchNotFound p
  | InvalidArgument, _ => ProvInvalidConfiguration name (error_text e)
  | FailedPrecondition, Some p => ProvParentUnhealthy p
  | _, _ => e
  end.

(** Without settings of its own a branch scales to zero as its project says. *)
Definition branch_configuration (project : Project) (payload : Payload) : ClusterConfiguration :=
  match cc_ScaleToZero (py_Configuration payload) with
  | Some _ => py_Configuration payload
  | None => set_scale_to_zero (Some (project_scale_to_zero project (py_ParentID payload)))
              (py_Configuration payload)
  end.

Definition provisioner_CreateBranch (projectID organizationID name : string) (payload : Payload) : E Branch :=
  project <-? GetProject organizationID projectID;
  let configuration := branch_configuration project payload in
  client <-? GetCellConnection organizationID (py_CellID payload);
  map_err (create_error name (py_ParentID payload))
    (CreateBranch maxDepth organizationID projectID (py_CellID payload)
       (mkCreateBranch name (py_ParentID payload) (py_Description payload)
          (py_BackupRetentionPeriod payload) (py_BackupsEnabled payload) (py_UsageTier payload)
          (py_Limits payload) (py_ProjectLockHeld payload))
       (provision client organizationID projectID configuration payload)).

Definition provisioner_DeleteBranch (organizationID projectID branchID : string) : E unit :=
  DeleteBranch organizationID projectID branchID (DeprovisionBranch organizationID).

(** The branches that were deleted and the errors of those that were not. *)
Fixpoint delete_branches (organizationID projectID : string) (branches : list Branch)
    : M (Z * list error) :=
  match branches with
  | [] => mret (0, [])
  | b :: branches =>
      r ← provisioner_DeleteBranch organizationID projectID (b_ID b);
      rest ← delete_branches organizationID projectID branches;
      mret match r with
           | Ok _ => (rest.1 + 1, rest.2)
           | Err (ErrBranchNotFound _) => rest
           | Err e => (rest.1, Wrapped ("delete branch " +:+ b_ID b) e :: rest.2)
           end
  end.

(** The number of branches that were deleted, and the errors that are joined. *)
Definition provisioner_DeleteProject (organizationID projectID : string) : M (Z * list error) :=
  l ← ListBranches organizationID projectID;
  match l with
  | Err e => mret (0, [Wrapped ("list branches for project " +:+ projectID) e])
  | Ok branches =>
      d ← delete_branches organizationID projectID branches;
      match d with
      | (deleted, []) =>
          r ← DeleteProject organizationID projectID;
          mret (deleted, match r with
                         | Ok _ | Err (ErrProjectNotFound _) => []
                         | Err e => [Wrapped ("delete project " +:+ projectID) e]
                         end)
      | d => mret d
      end
  end.

(** ** Connection strings ([connection.go]) *)

Definition branchDatabaseName : string := "xata".
Definition defaultPostgresPort : Z := 5432.
Definition deprecatedHostSuffix : string := "-deprecated".

Definition resolveGatewayHostPort (region : Region) : string :=
  if bool_decide (rg_GatewayHostPort region = "") then defaultGatewayHostPort else rg_GatewayHostPort region.

Definition BranchEndpoint (region : Region) (subdomain : option string) (hostLabel : string)
    : res error (string * Z) :=
  let hostPort := resolveGatewayHostPort region in
  if bool_decide (hostPort = "") then Err (ErrorText "no gateway host:port configured")
  else
    let hostPort := match subdomain with Some s => s +:+ "." +:+ hostPort | None => hostPort end in
    if negb (contains_byte ":"%char hostPort) then Ok (hostLabel +:+ "." +:+ hostPort, defaultPostgresPort)
    else match SplitHostPort hostPort with
         | None => Err (ErrorText ("parse gateway host:port [" +:+ hostPort +:+ "]"))
         | Some (host, portStr) =>
             match ParseInt10 portStr with
             | None => Err (ErrorText ("parse gateway port [" +:+ portStr +:+ "]"))
             | Some port => Ok (hostLabel +:+ "." +:+ host, port)
             end
         end.

Definition FormatConnectionString (username password hostname : string) (port : Z) : string :=
  let hostPort := if port =? defaultPostgresPort then hostname else hostname +:+ ":" +:+ pretty port in
  "postgresql://" +:+ username +:+ ":" +:+ password +:+ "@" +:+ hostPort +:+ "/" +:+ branchDatabaseName.

Definition ConnectionString (organizationID : string) (br : Branch) : E string :=
  client <-? GetCellConnection organizationID (b_CellID br);
  region <-? GetRegion organizationID (b_Region br);
  cell <-? GetCell organizationID (b_CellID br);
  creds <-? rpc (perform (GetPostgresClusterCredentials client (b_ID br) "app"));
  hp <-? pure (BranchEndpoint region (ce_Subdomain cell) (b_ID br +:+ deprecatedHostSuffix));
  ok (FormatConnectionString (cr_Username creds) (cr_Password creds) hp.1 hp.2 +:+ "?sslmode=require").

(** ** [Provision] *)

Definition complete_payload (i : CreateInput) (backup : BackupConfiguration) (p : Payload) : Payload :=
  mkPayload (py_ParentID p)
    (match in_ScaleToZero i with
     | Some s => set_scale_to_zero (Some s) (py_Configuration p)
     | None => py_Configuration p
     end)
    (in_Description i) (py_CellID p) (py_Region p) (py_BackupsEnabled p)
    (BackupRetentionDays (in_Backup i)) (Some backup) (in_Flags i) (in_UsageTier i)
    (Some (StoreLimits (in_OrgLimits i))) (in_ProjectLockHeld i).

(** The branch and its connection string, empty if it could not be computed. *)
Definition Provision (i : CreateInput) (payload : Payload) : E (Branch * string) :=
  if negb (py_BackupsEnabled payload) && negb (bool_decide (in_Backup i = None))
  then fail (BranchInvalidParam (in_Name i) "backupConfiguration" "backup configuration cannot be specified when backups are disabled in the selected region")
  else
    backup ← ClustersBackupConfig (in_Backup i) (py_BackupsEnabled payload) (in_UsePgBackRest i);
    created <-? map_err (λ e, match e with
                              | ProvBranchNotFound id => BranchBranchNotFound id
                              | ProvInvalidConfiguration _ m => BranchInvalidParam (in_Name i) "configuration" m
                              | ProvParentUnhealthy p => BranchParentUnhealthy p
                              | e => e
                              end)
                  (provisioner_CreateBranch (in_ProjectID i) (in_OrganizationID i) (in_Name i)
                     (complete_payload i backup payload));
    conn ← ConnectionString (in_OrganizationID i) created;
    ok (created, match conn with Ok s => s | Err _ => "" end).

Definition service_DeleteProject (organizationID projectID : string) : M (list error) :=
  d ← provisioner_DeleteProject organizationID projectID; mret d.2.
End Service.
