(* ===== verification/BranchCreation.v ===== *)
(** * Creating and deleting branches: what is committed

    The lemmas and properties of [ProjectStore] and [BranchService]: a branch is
    committed only when its cluster stands behind it, a project is deleted only
    after its branches, and what a configuration may ask for is bounded by the
    organization's limits. *)

From stdpp Require Import pretty.
From S2P Require Import Prelude GoStrings GoFloat GoTime Netip IPFilterModel ProjectFilter Limits PostgresVersions Extensions BranchTypes BranchBuilder PostgresConfig ClusterStatus ProjectsModel ProjectStore BackupSchedule Scheduler BranchService PostgresCatalogue.

#[local] Open Scope Z_scope.
#[local] Open Scope go_scope.

(** ** Statements that read *)

Lemma mret_only {A} P (a : A) : only resp P (mret a).
Proof. done. Qed.
Lemma ok_only {A} P (a : A) : only resp P (ok a).
Proof. done. Qed.
Lemma fail_only {A} P e : only resp P (@fail A e).
Proof. done. Qed.
Lemma on_violation_only {A} P c e (p : E A) : only resp P p → only resp P (on_violation c e p).
Proof. apply map_err_only. Qed.
Lemma wrap_only {A} P msg (p : E A) : only resp P p → only resp P (wrap msg p).
Proof. apply map_err_only. Qed.
#[export] Hint Resolve mret_only ok_only fail_only on_violation_only wrap_only : go.

(** Split a program along its binds and matches. *)
Ltac only_step :=
  match goal with
  | |- only _ _ (pbind_ok _ _) => apply only_bind_ok
  | |- only _ _ (_ ≫= _) => apply only_bind
  | |- only _ _ (match ?x with _ => _ end) => destruct x
  | |- only _ _ (let '_ := ?x in _) => destruct x
  | |- ∀ _, _ => intros ?
  end.
Ltac only_solve := repeat first [progress eauto with go | only_step | done].

Section Reading.
Variable P : call → bool.
Hypothesis HP : ∀ c, reads c = true → P c = true.

Lemma stmt_only c : reads c = true → only resp P (perform c).
Proof. intros ?. apply only_perform. auto. Qed.
Lemma GetRegion_only org id : only resp P (GetRegion org id).
Proof. by apply on_no_rows_only, stmt_only. Qed.
Lemma getCell_only org id : only resp P (getCell org id).
Proof. by apply on_no_rows_only, stmt_only. Qed.
Lemma GetCell_only org id : only resp P (GetCell org id).
Proof. apply in_tx_only; auto using getCell_only. Qed.
Lemma getProject_only org id : only resp P (getProject org id).
Proof. unfold getProject. apply only_bind_ok; [|done]. apply on_no_rows_only. simpl; auto. Qed.
Lemma GetProject_only org id : only resp P (GetProject org id).
Proof. apply in_tx_only; auto using getProject_only. Qed.
Lemma describeBranch_only prj id : only resp P (describeBranch prj id).
Proof. apply on_no_rows_only. simpl; auto. Qed.
Lemma DescribeBranch_only org prj id : only resp P (DescribeBranch org prj id).
Proof.
  apply in_tx_only; auto. apply only_bind_ok; auto using getProject_only, describeBranch_only.
Qed.
Lemma ListBranches_only org prj : only resp P (ListBranches org prj).
Proof.
  apply in_tx_only; auto. apply only_bind_ok; [apply getProject_only|]. intros _.
  apply only_bind; [|done]. simpl; auto.
Qed.
Lemma GetCellConnection_only org id : only resp P (GetCellConnection org id).
Proof.
  apply only_bind_ok; [apply GetCell_only|]. intros c. apply only_bind; [simpl; auto|]. by intros [].
Qed.
Lemma flag_only name : only resp P (flag name).
Proof. simpl; auto. Qed.
Lemma insert_branch_only maxDepth org prj cell config :
  only resp P (insert_branch maxDepth org prj cell config).
Proof.
  apply only_bind_ok; [|intros _; apply only_bind_ok; [apply getCell_only|]; intros _;
    apply only_bind_ok; [apply getProject_only|]; intros project; apply only_bind_ok;
    [|intros depth; apply only_bind; [simpl; auto|]; intros id; apply only_bind_ok;
      [|intros row; apply only_bind_ok; [|by intros [[??]?]]]]].
  - destruct (cb_ProjectLockHeld config); [done|]. apply only_bind_ok; [|by intros []].
    by apply wrap_only, run_only, stmt_only.
  - unfold parent_depth. destruct (cb_ParentID config); [|done].
    apply only_bind_ok; [apply describeBranch_only|done].
  - by apply on_violation_only, run_only, stmt_only.
  - by apply run_only, stmt_only.
Qed.
End Reading.

(** ** What commits *)

Definition no_commit (c : call) : bool := match c with Commit => false | _ => true end.

Lemma reads_no_commit c : reads c = true → no_commit c = true.
Proof. by destruct c. Qed.

(** The transaction was committed. *)
Definition commits (e : event resp) : bool := match e with ev Commit None => true | _ => false end.
Definition committed (tr : list (event resp)) : bool := existsb commits tr.

Lemma committed_app t1 t2 : committed (t1 ++ t2) = committed t1 || committed t2.
Proof. apply existsb_app. Qed.

Lemma no_commit_runs {A} (p : prog resp A) tr a :
  only resp no_commit p → runs resp p tr a → committed tr = false.
Proof.
  revert tr. induction p as [b|c k IH]; intros tr; simpl.
  - by intros _ [-> _].
  - intros [Hc Hk] (r & tr' & -> & Hr). simpl. rewrite (IH r tr') by done. by destruct c.
Qed.

Lemma map_err_runs {A} f (p : E A) tr r :
  runs resp (map_err f p) tr r →
  ∃ r', runs resp p tr r' ∧ r = match r' with Ok a => Ok a | Err e => Err (f e) end.
Proof.
  intros (tr1 & tr2 & r' & -> & Hp & Hk)%runs_bind. exists r'.
  destruct r'; apply runs_ret in Hk as [-> ->]; by rewrite app_nil_r.
Qed.

Lemma commit_runs tr r :
  runs resp commit tr r →
  (tr = [ev (resp := resp) Commit None] ∧ r = Ok tt) ∨ (committed tr = false ∧ ∃ e, r = Err (SqlErr e)).
Proof.
  intros (c & tr' & -> & Hk). destruct c as [e|]; simpl in Hk; destruct Hk as [-> ->]; [right|by left].
  split; [done|by eexists].
Qed.

(** [insert_branch], [provisionFn] and the commit, in one transaction. *)
Lemma CreateBranch_runs maxDepth org prj cell config prov tr r :
  (∀ b p, only resp no_commit (prov b p)) →
  runs resp (CreateBranch maxDepth org prj cell config prov) tr r →
  (committed tr = false ∧ ∃ e, r = Err e) ∨
  (∃ tl ti tp b project, r = Ok b ∧
     tr = tl ++ ev (resp := resp) BeginTx None :: ti ++ tp ++
          [ev (resp := resp) Commit None; ev (resp := resp) Rollback tt] ∧
     runs resp (insert_branch maxDepth org prj cell config) ti (Ok (b, project)) ∧
     runs resp (prov b project) tp (Ok tt)).
Proof.
  intros Hprov. unfold CreateBranch. destruct (cb_Limits config) as [l|].
  2: { intros [-> ->]. left. split; [done|by eexists]. }
  set (lim := limits _). assert (only resp no_commit lim) as Hlim by by apply limits_only.
  intros [(tl & t2 & u & -> & Hl & Hk)|(e & Hl & ->)]%runs_bind_ok.
  2: { left. split; [by eapply no_commit_runs|by eexists]. }
  assert (only resp no_commit (insert_branch maxDepth org prj cell config)) as Hins
    by by apply insert_branch_only, reads_no_commit.
  apply (no_commit_runs _ _ _ Hlim) in Hl as Htl.
  apply in_tx_runs in Hk as [(e & -> & ->)|(tb & -> & Hb)].
  { left. rewrite committed_app, Htl. split; [done|by eexists]. }
  rewrite committed_app, Htl. cbn [committed existsb commits orb]. fold (committed (tb ++ [ev (resp := resp) Rollback tt])).
  rewrite committed_app. simpl. rewrite orb_false_r.
  apply runs_bind_ok in Hb as [(ti & t3 & [b project] & -> & Hi & Hb)|(e & Hi & ->)].
  2: { left. split; [by eapply no_commit_runs|by eexists]. }
  apply (no_commit_runs _ _ _ Hins) in Hi as Hti. rewrite committed_app, Hti.
  apply runs_bind_ok in Hb as [(tp & t4 & [] & -> & Hp & Hb)|(e & Hp & ->)].
  2: { left. split; [by eapply (no_commit_runs _ _ _ (Hprov b project))|by eexists]. }
  apply (no_commit_runs _ _ _ (Hprov b project)) in Hp as Htp. rewrite committed_app, Htp.
  apply runs_bind_ok in Hb as [(tc & t5 & [] & -> & Hc & [-> ->])|(e & Hc & ->)].
  - apply commit_runs in Hc as [[-> _]|(_ & e & [=])]. right. exists tl, ti, tp, b, project.
    split_and!; [done|by rewrite <-!app_assoc|done..].
  - apply commit_runs in Hc as [[_ [=]]|(Htc & _)]. left. split; [done|by eexists].
Qed.

(** ** What the transaction inserts *)

(** A child lies one below its parent, within the maximum. *)
Definition depth_below (maxDepth : Z) (parent : option Branch) (depth : Z) : Prop :=
  match parent with
  | None => depth = 1
  | Some p => b_Depth p < maxDepth ∧ depth = b_Depth p + 1
  end.

(** The parent that is read, if there is one. *)
Definition parent_read (prj : string) (id : option string) (parent : option Branch) : list (event resp) :=
  match id, parent with
  | Some id, Some p => [ev (SelectBranch prj id) (Ok p)]
  | _, _ => []
  end.

Lemma parent_depth_ok maxDepth prj id tr d :
  runs resp (parent_depth maxDepth prj id) tr (Ok d) →
  ∃ parent, (is_Some id ↔ is_Some parent) ∧ tr = parent_read prj id parent ∧ depth_below maxDepth parent d.
Proof.
  unfold parent_depth. destruct id as [id|].
  2: { intros [-> [= ->]]. exists None. split; [|done]. by split; intros [? ?]. }
  intros [(t1 & t2 & p & -> & Hp & [-> Hd])|(e & _ & [=])]%runs_bind_ok.
  apply on_no_rows_ok, perform_runs in Hp as ->. exists (Some p).
  unfold CanAddChild in Hd. case_match; [done|]. injection Hd as ->. simpl.
  split_and!; [by eauto|done|lia|done].
Qed.

Lemma project_lock_ok prj tr u :
  runs resp (tryProjectXactLockShared prj) tr (Ok u) →
  tr = [ev (TryProjectXactLockShared prj) (Ok true)].
Proof.
  intros [(t1 & t2 & [] & -> & Hp & [-> Hd])|(e & _ & [=])]%runs_bind_ok; [|done].
  by apply map_err_ok, run_ok, perform_runs in Hp as ->.
Qed.

Lemma getProject_ok org prj tr p :
  runs resp (getProject org prj) tr (Ok p) →
  ∃ row, tr = [ev (SelectProject org prj) (Ok row)] ∧ scan_project row = Ok p.
Proof.
  intros [(t1 & t2 & row & -> & Hp & [-> Hd])|(e & _ & [=])]%runs_bind_ok.
  apply on_no_rows_ok, perform_runs in Hp as ->. by exists row.
Qed.

(** The statements that lead to a new branch, in order. *)
Definition inserting (org prj cell : string) (config : CreateBranchConfiguration) (c : Cell)
    (prow : ProjectRow) (parent : option Branch) (depth : Z) (key : string) (row : BranchRow)
    (region : string * bool * bool) : list (event resp) :=
  (if cb_ProjectLockHeld config then [] else [ev (TryProjectXactLockShared prj) (Ok true)]) ++
  [ev (SelectCell org cell) (Ok c); ev (SelectProject org prj) (Ok prow)] ++
  parent_read prj (cb_ParentID config) parent ++
  [ev NewID key;
   ev (InsertBranch (mkNewBranch key (cb_Name config) prj (cb_ParentID config)
         (nullif_empty (cb_Description config)) cell depth)) (Ok row);
   ev (SelectCellRegion (bw_CellID row)) (Ok region)].

Lemma insert_branch_ok maxDepth org prj cell config tr b project :
  runs resp (insert_branch maxDepth org prj cell config) tr (Ok (b, project)) →
  ∃ c prow parent depth key row region,
    tr = inserting org prj cell config c prow parent depth key row region ∧
    scan_project prow = Ok project ∧ (is_Some (cb_ParentID config) ↔ is_Some parent) ∧
    depth_below maxDepth parent depth ∧ b = branch_of row region.1.1 region.1.2 false.
Proof.
  intros [(t1 & t2 & [] & -> & Hlock & Hk)|(e & _ & [=])]%runs_bind_ok.
  apply runs_bind_ok in Hk as [(t3 & t4 & c & -> & Hc & Hk)|(e & _ & [=])].
  apply runs_bind_ok in Hk as [(t5 & t6 & p & -> & Hp & Hk)|(e & _ & [=])].
  apply runs_bind_ok in Hk as [(t7 & t8 & depth & -> & Hd & Hk)|(e & _ & [=])].
  destruct Hk as (key & t9 & -> & Hk).
  change (runs resp (row <-? on_violation UniqueConstraintBranch (ErrBranchAlreadyExists (cb_Name config))
    (run (perform (InsertBranch (mkNewBranch key (cb_Name config) prj (cb_ParentID config)
       (nullif_empty (cb_Description config)) cell depth))));
    region <-? run (perform (SelectCellRegion (bw_CellID row)));
    let '(region, publicAccess, _) := region in ok (branch_of row region publicAccess false, p)) t9 (Ok (b, project))) in Hk.
  apply runs_bind_ok in Hk as [(ta & tb & row & -> & Hr & Hk)|(e & _ & [=])].
  apply runs_bind_ok in Hk as [(tc & td & [[reg pub] bk] & -> & Hg & [-> [= -> ->]])|(e & _ & [=])].
  apply getProject_ok in Hp as (prow & -> & Hs). apply on_no_rows_ok, perform_runs in Hc as ->.
  apply parent_depth_ok in Hd as (parent & Hi & -> & Hd).
  apply map_err_ok, run_ok, perform_runs in Hr as ->. apply run_ok, perform_runs in Hg as ->.
  exists c, prow, parent, depth, key, row, (reg, pub, bk). split_and!; [|done..].
  unfold inserting. f_equal. destruct (cb_ProjectLockHeld config).
  - by destruct Hlock as [-> _].
  - by apply project_lock_ok in Hlock.
Qed.

(** ** What a committed branch stands on *)

(** The rules of a project that has any, set for a branch. *)
Definition rules_set (client branchID : string) (project : Project) : list (event resp) :=
  let f := Project_IPFiltering (p_Settings project) in
  if negb (IPF_Enabled f) && bool_decide (default [] (CIDRs f) = []) then []
  else [ev (SetBranchIPFiltering client branchID (mkConfig (IPF_Enabled f) (CIDRStrings f))) (Ok tt)].

Lemma ApplyProjectIPFiltering_ok client id project tr u :
  runs resp (ApplyProjectIPFiltering client id project) tr (Ok u) → tr = rules_set client id project.
Proof.
  unfold ApplyProjectIPFiltering, rules_set. destruct (_ && _).
  - by intros [-> _].
  - intros ->%map_err_ok%rpc_ok%perform_runs. by destruct u.
Qed.

Lemma ApplyProjectIPFiltering_only client id project :
  only resp no_commit (ApplyProjectIPFiltering client id project).
Proof. unfold ApplyProjectIPFiltering. destruct (_ && _); [done|]. by apply wrap_only, rpc_only. Qed.

Lemma provision_only client org prj conf payload b p :
  only resp no_commit (provision client org prj conf payload b p).
Proof.
  apply only_bind; [done|]. intros key. apply only_bind_ok; [by apply rpc_only|]. intros _.
  apply ApplyProjectIPFiltering_only.
Qed.

Lemma provision_ok client org prj conf payload b p tr u :
  runs resp (provision client org prj conf payload b p) tr (Ok u) →
  ∃ key, tr = ev NewID key ::
    ev (CreatePostgresCluster client (create_request org prj key b conf payload)) (Ok tt) ::
    rules_set client (b_ID b) p.
Proof.
  intros (key & tr' & -> & Hk). exists key. f_equal.
  change (runs resp (_ <-? rpc (perform (CreatePostgresCluster client (create_request org prj key b conf payload)));
    ApplyProjectIPFiltering client (b_ID b) p) tr' (Ok u)) in Hk.
  apply runs_bind_ok in Hk as [(t1 & t2 & [] & -> & Hc & Hk)|(e & _ & [=])].
  apply rpc_ok, perform_runs in Hc as ->. by apply ApplyProjectIPFiltering_ok in Hk as ->.
Qed.

(** A connection to a cell the organization may use. *)
Definition connected (org cell client : string) (tr : list (event resp)) : Prop :=
  ∃ c t, tr = t ++ [ev (resp := resp) BeginTx None; ev (SelectCell org cell) (Ok c);
                    ev (resp := resp) Rollback tt; ev (GetConn (ce_ClustersGRPCURL c)) None]
         ∧ client = ce_ClustersGRPCURL c.

Lemma GetCellConnection_ok org cell tr client :
  runs resp (GetCellConnection org cell) tr (Ok client) → connected org cell client tr.
Proof.
  intros [(t1 & t2 & c & -> & Hc & Hk)|(e & _ & [=])]%runs_bind_ok.
  apply in_tx_runs in Hc as [(e & _ & [=])|(t & -> & Hc)]. apply on_no_rows_ok, perform_runs in Hc as ->.
  destruct Hk as (r & t3 & -> & Hk). destruct r as [e|]; destruct Hk as [-> [= ->]].
  by exists c, [].
Qed.

Lemma connected_app org cell client t1 t2 : connected org cell client t2 → connected org cell client (t1 ++ t2).
Proof. intros (c & t & -> & ->). exists c, (t1 ++ t). by rewrite app_assoc. Qed.

Section Committed.
Variable maxDepth : Z.

Definition branch_row (name : string) (payload : Payload) : CreateBranchConfiguration :=
  mkCreateBranch name (py_ParentID payload) (py_Description payload) (py_BackupRetentionPeriod payload)
    (py_BackupsEnabled payload) (py_UsageTier payload) (py_Limits payload) (py_ProjectLockHeld payload).

(** C4. Creating a branch commits its row exactly when it succeeds, and then, in
    the one transaction of the row: the project was read under its shared lock
    (unless the caller holds it), the parent was read and has room below it,
    the row was inserted, the cluster of that very branch was created in the
    payload's cell, in which the organization has a connection, and the rules of
    the project as it was read under the lock were set on the branch. *)
Theorem branch_is_committed_with_its_cluster prj org name payload tr r :
  runs resp (provisioner_CreateBranch maxDepth prj org name payload) tr r →
  (committed tr = true ↔ ∃ b, r = Ok b) ∧
  ∀ b, r = Ok b →
    ∃ client before project0 c prow project parent depth key row region idem,
      tr = before ++ ev (resp := resp) BeginTx None ::
           inserting org prj (py_CellID payload) (branch_row name payload) c prow parent depth key row region ++
           ev NewID idem ::
           ev (CreatePostgresCluster client
                (create_request org prj idem b (branch_configuration project0 payload) payload)) (Ok tt) ::
           rules_set client (b_ID b) project ++
           [ev (resp := resp) Commit None; ev (resp := resp) Rollback tt] ∧
      (∃ t t', before = t ++ t' ∧ connected org (py_CellID payload) client t) ∧
      scan_project prow = Ok project ∧ b = branch_of row region.1.1 region.1.2 false ∧
      (is_Some (py_ParentID payload) ↔ is_Some parent) ∧ depth_below maxDepth parent depth.
Proof.
  intros [(t1 & t2 & project0 & -> & Hp & Hk)|(e & Hp & ->)]%runs_bind_ok.
  2: { split; [|by intros ? [=]]. rewrite (no_commit_runs _ _ _ (GetProject_only _ reads_no_commit _ _) Hp).
       by split; [|intros [? [=]]]. }
  rewrite committed_app, (no_commit_runs _ _ _ (GetProject_only _ reads_no_commit _ _) Hp).
  apply runs_bind_ok in Hk as [(t3 & t4 & client & -> & Hc & Hk)|(e & Hc & ->)].
  2: { split; [|by intros ? [=]]. rewrite (no_commit_runs _ _ _ (GetCellConnection_only _ reads_no_commit _ _) Hc).
       by split; [|intros [? [=]]]. }
  rewrite committed_app, (no_commit_runs _ _ _ (GetCellConnection_only _ reads_no_commit _ _) Hc).
  apply map_err_runs in Hk as (r' & Hk & ->).
  apply CreateBranch_runs in Hk as [[Hn [e ->]]|(tl & ti & tp & b & project & -> & -> & Hi & Hv)];
    [| |intros; apply provision_only].
  { simpl. rewrite Hn. split; [|by intros ? [=]]. by split; [|intros [? [=]]]. }
  split.
  { simpl. rewrite committed_app. simpl. rewrite !committed_app. simpl. rewrite !orb_true_r. by split; [eauto|]. }
  intros ? [= <-]. apply insert_branch_ok in Hi as (c & prow & parent & depth & key & row & region & -> & Hs & Hpar & Hd & Hb).
  apply provision_ok in Hv as (idem & ->). apply GetCellConnection_ok in Hc.
  exists client, (t1 ++ t3 ++ tl), project0, c, prow, project, parent, depth, key, row, region, idem.
  split_and!; [|exists (t1 ++ t3), tl; split; [by rewrite app_assoc|by apply connected_app]|done..].
  rewrite <-!app_assoc. simpl. by rewrite <- ?app_assoc.
Qed.
End Committed.

(** ** What a configuration may ask for *)

Lemma pure_ok {A} (r : res error A) tr a : runs resp (pure r) tr (Ok a) → tr = [] ∧ r = Ok a.
Proof. intros [-> H]. by rewrite <-H. Qed.

Lemma int32_id n : - 2 ^ 31 ≤ n < 2 ^ 31 → int32 n = n.
Proof. intros H. unfold int32. rewrite Z.mod_small by lia. lia. Qed.

(** The instances of a configuration, for limits that are 32-bit numbers. *)
Lemma ValidateReplicaCount_ok name replicas min max :
  - 2 ^ 31 ≤ replicas < 2 ^ 31 → 1 ≤ min < 2 ^ 31 → 0 ≤ max < 2 ^ 31 →
  ValidateReplicaCount name replicas min max = None →
  int32 (replicas + 1) = replicas + 1 ∧ min ≤ replicas + 1 ≤ max.
Proof.
  intros Hr Hmin Hmax. unfold ValidateReplicaCount. rewrite (int32_id min), (int32_id max) by lia.
  destruct (decide (replicas = 2 ^ 31 - 1)) as [->|].
  { replace (int32 _) with (- 2 ^ 31) by done. by rewrite (proj2 (Z.ltb_lt _ _)) by lia. }
  rewrite int32_id by lia. destruct (_ <? _) eqn:H1; [done|]. destruct (max <? _) eqn:H2; [done|]. lia.
Qed.

Lemma ValidateStorage_ok name n max :
  max < 2 ^ 31 → ValidateStorage name n max = None → 1 ≤ n ∧ (0 < max → n ≤ max).
Proof.
  intros Hm. unfold ValidateStorage. destruct (n <? 1) eqn:H1; [done|]. destruct (_ && _) eqn:H2; [done|].
  intros _. split; [lia|]. intros H. rewrite int32_id in H2 by lia. lia.
Qed.

Lemma InstanceTypeByName_ok region name max it :
  InstanceTypeByName region name max = Ok it →
  it ∈ ListInstanceTypes region ∧ it_Name it = name ∧ (max = 0 ∨ it_VCPUsRequest it ≤ max).
Proof.
  unfold InstanceTypeByName. destruct (List.find _ _) as [it'|] eqn:Hf; [|done].
  apply List.find_some in Hf as [Hin Hn%bool_decide_eq_true]. destruct (_ && _) eqn:Hm; [done|].
  intros [= ->]. split_and!; [by apply list_elem_of_In|done|]. lia.
Qed.

Lemma draw_in weightOf r cells c : draw weightOf r cells = Some c → c ∈ cells.
Proof.
  revert r. induction cells as [|c' cells IH]; simpl; intros r; [done|].
  destruct (_ <? _); [intros [= ->]; by left|]. intros ?. right. by eapply IH.
Qed.

Lemma Schedule_ok s cells tr c : runs resp (Schedule s cells) tr (Ok c) → c ∈ cells.
Proof.
  unfold Schedule, pick. destruct (_ =? 0); [by intros [_ [=]]|]. intros (r & tr' & -> & Hk).
  simpl in Hk. destruct (draw _ _ _) as [c'|] eqn:Hd; [|by destruct Hk as [_ [=]]].
  destruct Hk as [_ [= ->]]. by eapply draw_in.
Qed.

(** The cell is one of those listed for the region. *)
Lemma allocateCell_ok sched org name region tr cell :
  runs resp (allocateCell sched org name region) tr (Ok cell) →
  ∃ cells last c, ev (SelectCells (Some (org, region))) (Ok (cells, last)) ∈ tr ∧ c ∈ cells ∧ cell = ce_ID c.
Proof.
  intros [(t1 & t2 & cells & -> & (r & t3 & -> & [-> Hr]) & Hk)|(e & _ & [=])]%runs_bind_ok.
  assert (∃ l last, r = Ok (l, last) ∧ cells = l) as (l & last & -> & ->).
  { destruct r as [[l [|e|e]]|e]; simpl in Hr; [..|done]; [|done|]; injection Hr as ->; by eauto. }
  destruct l as [|c0 l]; [by destruct Hk as [_ [=]]|].
  apply runs_bind_ok in Hk as [(t4 & t5 & c & -> & Hs & [-> [= ->]])|(e & _ & [=])].
  apply map_err_ok, Schedule_ok in Hs. exists (c0 :: l), last, c. split_and!; [by left|done|done].
Qed.

Lemma bind_ok {A B} (r : res error A) (f : A → res error B) b :
  (x <~ r; f x) = Ok b → ∃ a, r = Ok a ∧ f a = Ok b.
Proof. destruct r as [a|e]; [by exists a|done]. Qed.

Lemma config_result_ok {A} wrap (r : res config_error A) a : config_result wrap r = Ok a → r = Ok a.
Proof. by destruct r as [b|e]; intros [=]; subst. Qed.

Section Payloads.
Context `{GoRuntime} `{Quantities}.
Variable sources : list Source.
Variable imageExtensions : option ImageExtensions.
Variable configurableParameters : gmap string PostgresParameterSpec.
Variable sched : Scheduler.
Variable value_error_text : value_error → string.

Abbreviation payload_from := (PayloadFromConfiguration sources imageExtensions configurableParameters sched value_error_text).
Abbreviation postgres_parameters := (postgres_parameters imageExtensions configurableParameters value_error_text).
Abbreviation ValidateSettings := (ValidateSettings imageExtensions configurableParameters).

(** Accepted parameters are those asked for, which are valid, over defaults. *)
Lemma postgres_parameters_ok name image cfg libs params :
  postgres_parameters name image cfg libs = Ok params →
  ∀ asked, cf_Parameters cfg = Some asked →
    asked ⊆ params ∧
    ValidateSettings (cf_InstanceType cfg) asked (ExtractMajorVersionFromImage image) image (Some libs) = Ok ∅.
Proof.
  unfold BranchService.postgres_parameters. intros Hp asked Ha. rewrite Ha in Hp.
  apply bind_ok in Hp as ([] & Hv & Hp). apply bind_ok in Hv as (errs & Hv%config_result_ok & He).
  apply bind_ok in Hp as (defaults & _ & [= <-]). case_bool_decide; [|done]. subst.
  split; [apply map_union_subseteq_l|done].
Qed.

Lemma ValidateImage_ok image tr url :
  runs resp (ValidateImage sources image) tr (Ok url) → resolveImage sources image = Ok url.
Proof.
  intros [(t1 & t2 & [] & -> & _ & Hk)|(e & _ & [=])]%runs_bind_ok.
  apply runs_bind_ok in Hk as [(t3 & t4 & [] & -> & _ & Hk)|(e & _ & [=])].
  apply runs_bind_ok in Hk as [(t5 & t6 & [] & -> & _ & Hk)|(e & _ & [=])].
  by apply runs_bind_ok in Hk as [(t7 & t8 & [] & -> & _ & [_ ->])|(e & _ & [=])].
Qed.

Lemma PayloadFromConfiguration_ok org name cfg l mkt tr p :
  runs resp (payload_from org name cfg l mkt) tr (Ok p) →
  ∃ region it cells last c params libs,
    validateConfiguration name cfg l = None ∧
    resolveImage sources (cf_Image cfg) = Ok (cc_ImageName (py_Configuration p)) ∧
    ev (SelectRegion org (cf_Region cfg)) (Ok region) ∈ tr ∧
    IsRegionAvailableForMarketplace mkt region = true ∧
    ev (SelectCells (Some (org, cf_Region cfg))) (Ok (cells, last)) ∈ tr ∧ c ∈ cells ∧
    InstanceTypeByName (cf_Region cfg) (cf_InstanceType cfg) (ol_MaxAllowedInstanceType l) = Ok it ∧
    postgres_parameters name (cc_ImageName (py_Configuration p)) cfg libs = Ok params ∧
    p = new_payload None
          (BranchBuilder.mkConfiguration (int32 (cf_Replicas cfg + 1)) (default 0 (cf_Storage cfg))
             (cc_ImageName (py_Configuration p)) (Memory it) None (CPURequest it) (CPULimit it) params libs
             (if bool_decide (it_StorageQoSClass it = "") then None else Some (it_StorageQoSClass it)))
          (ce_ID c) (cf_Region cfg) (rg_BackupsEnabled region).
Proof.
  intros [(t1 & t2 & [] & -> & Hv & Hk)|(e & _ & [=])]%runs_bind_ok.
  apply err_unit_ok in Hv as [Hv ->].
  apply runs_bind_ok in Hk as [(t3 & t4 & image & -> & Hi%map_err_ok%ValidateImage_ok & Hk)|(e & _ & [=])].
  apply runs_bind_ok in Hk as [(t5 & t6 & region & -> & Hr%map_err_ok & Hk)|(e & _ & [=])].
  apply on_no_rows_ok, perform_runs in Hr as ->.
  apply runs_bind_ok in Hk as [(t7 & t8 & [] & -> & Hm%map_err_ok & Hk)|(e & _ & [=])].
  apply err_unit_ok in Hm as [Hm ->].
  apply runs_bind_ok in Hk as [(t9 & t10 & cell & -> & Hc & Hk)|(e & _ & [=])].
  apply allocateCell_ok in Hc as (cells & last & c & Hcells & Hc & ->).
  apply runs_bind_ok in Hk as [(t11 & t12 & it & -> & Hit%map_err_ok & Hk)|(e & _ & [=])].
  apply pure_ok in Hit as [-> Hit].
  apply runs_bind_ok in Hk as [(t13 & t14 & libs & -> & Hl%pure_ok & Hk)|(e & _ & [=])].
  apply runs_bind_ok in Hk as [(t15 & t16 & params & -> & Hp%pure_ok & [-> [= ->]])|(e & _ & [=])].
  destruct Hp as [-> Hp]. exists region, it, cells, last, c, params, libs.
  unfold validateRegionForMarketplace in Hm. destruct (IsRegionAvailableForMarketplace _ _) eqn:Ha; [|done].
  split_and!; try done; rewrite !elem_of_app, ?elem_of_cons; tauto.
Qed.

(** The limits are 32-bit numbers, and every branch has an instance. *)
Definition limits_fit (l : OrgLimits) : Prop :=
  1 ≤ ol_MinInstancesPerBranch l < 2 ^ 31 ∧ 0 ≤ ol_MaxInstancesPerBranch l < 2 ^ 31 ∧
  ol_MaxStorageGBPerBranch l < 2 ^ 31.

(** C31. A configuration that is accepted for a new branch stays within the
    limits of its organization, at the width of the machine's integers: the
    primary and the replicas are between the minimum and the maximum (also for
    the replica count that wraps), the storage is at least 1 GB and within a
    positive maximum, the instance type is offered in the region and within
    the largest one allowed, the region is open to the marketplace, the cell is
    one of the region's, and the parameters asked for are valid and win over
    the defaults. *)
Theorem accepted_configuration_is_within_limits i cfg tr p :
  in_Mode i = FromConfiguration cfg →
  limits_fit (in_OrgLimits i) → - 2 ^ 31 ≤ cf_Replicas cfg < 2 ^ 31 →
  runs resp (BuildPayload sources imageExtensions configurableParameters sched value_error_text i) tr (Ok p) →
  let c := py_Configuration p in
  let l := in_OrgLimits i in
  (cc_NumInstances c = cf_Replicas cfg + 1 ∧
   ol_MinInstancesPerBranch l ≤ cc_NumInstances c ≤ ol_MaxInstancesPerBranch l) ∧
  (∀ n, cf_Storage cfg = Some n → cc_StorageSize c = n ∧ 1 ≤ n ∧
     (0 < ol_MaxStorageGBPerBranch l → n ≤ ol_MaxStorageGBPerBranch l)) ∧
  (∃ it, it ∈ ListInstanceTypes (cf_Region cfg) ∧ it_Name it = cf_InstanceType cfg ∧
     (ol_MaxAllowedInstanceType l = 0 ∨ it_VCPUsRequest it ≤ ol_MaxAllowedInstanceType l) ∧
     cc_VcpuRequest c = CPURequest it ∧ cc_VcpuLimit c = CPULimit it ∧ cc_Memory c = Memory it) ∧
  (∃ region, ev (SelectRegion (in_OrganizationID i) (cf_Region cfg)) (Ok region) ∈ tr ∧
     (in_Marketplace i = ProviderAWS → rg_Provider region = ProviderAWS)) ∧
  (∃ cells last cell, ev (SelectCells (Some (in_OrganizationID i, cf_Region cfg))) (Ok (cells, last)) ∈ tr ∧
     cell ∈ cells ∧ py_CellID p = ce_ID cell) ∧
  resolveImage sources (cf_Image cfg) = Ok (cc_ImageName c) ∧
  (∀ asked, cf_Parameters cfg = Some asked → asked ⊆ cc_Parameters c ∧ ∃ libs,
     ValidateSettings (cf_InstanceType cfg) asked (ExtractMajorVersionFromImage (cc_ImageName c))
       (cc_ImageName c) (Some libs) = Ok ∅).
Proof.
  intros Hmode (Hmin & Hmax & Hst) Hrep. unfold BuildPayload. rewrite Hmode.
  case_bool_decide; [by intros [_ [=]]|].
  intros [(t1 & t2 & [] & -> & _ & Hk)|(e & _ & [=])]%runs_bind_ok.
  apply PayloadFromConfiguration_ok in Hk as (region & it & cells & last & cell & params & libs & Hv & Hi & Hr & Ha & Hcs & Hc & Hit & Hp & Heq).
  unfold validateConfiguration in Hv. destruct (is_zero_configuration cfg); [done|].
  destruct (cf_Storage cfg ≫= _) as [e|] eqn:Hs; [done|].
  apply ValidateReplicaCount_ok in Hv as [Hw Hb]; [|lia..]. apply InstanceTypeByName_ok in Hit as (Hin & Hn & Hx).
  pose proof (postgres_parameters_ok _ _ _ _ _ Hp) as Hpar.
  split_and!.
  - rewrite Heq. simpl. lia.
  - rewrite Heq. simpl. lia.
  - rewrite Heq. simpl. lia.
  - intros n Hn'. rewrite Hn' in Hs. rewrite Heq. simpl in *. rewrite Hn'.
    by apply ValidateStorage_ok in Hs as [? ?].
  - exists it. rewrite Heq. by split_and!.
  - exists region. split; [apply elem_of_app; by right|]. intros Hmk. unfold IsRegionAvailableForMarketplace in Ha.
    rewrite bool_decide_eq_true_2 in Ha by done. by apply bool_decide_eq_true in Ha.
  - exists cells, last, cell. rewrite Heq. split_and!; [apply elem_of_app; by right|done|done].
  - done.
  - intros asked Hasked. destruct (Hpar asked Hasked) as [Hsub Hval]. split; [by rewrite Heq|by exists libs].
Qed.
End Payloads.

(** ** What a deletion leaves behind *)

(** The cluster of a branch was deleted, or there was none. *)
Definition cluster_gone (r : grpc unit) : bool :=
  match r with Ok _ | Err (NotFound, _) => true | _ => false end.

(** A transaction was committed, with these exchanges in it. *)
Definition committed_tx (P : list (event resp) → Prop) (tr : list (event resp)) : Prop :=
  ∃ t1 tx t2, tr = t1 ++ ev (resp := resp) BeginTx None :: tx ++ ev (resp := resp) Commit None :: t2 ∧
    (∀ c w, ev c w ∈ tx → no_commit c = true) ∧ P tx.

Lemma committed_tx_app_r P t1 t2 : committed_tx P t1 → committed_tx P (t1 ++ t2).
Proof. intros (u & tx & v & -> & H). exists u, tx, (v ++ t2). split; [by rewrite <- app_assoc; cbn; rewrite <- app_assoc|done]. Qed.

Lemma committed_tx_app_l P t1 t2 : committed_tx P t2 → committed_tx P (t1 ++ t2).
Proof. intros (u & tx & v & -> & H). exists (t1 ++ u), tx, v. split; [by rewrite <- app_assoc|done]. Qed.

(** A branch that is gone after a deletion: it was not found, or it was
    terminated and its cluster was gone in a transaction that was committed. *)
Definition gone (prj id : string) (tr : list (event resp)) : Prop :=
  ev (SelectBranch prj id) (Err NoRows) ∈ tr ∨ ev (TerminateBranch id) (Ok 0) ∈ tr ∨
  ∃ b client r n, n ≠ 0 ∧ n ≤ 1 ∧ cluster_gone r = true ∧
    committed_tx (λ tx, ev (SelectBranch prj id) (Ok b) ∈ tx ∧ ev (TerminateBranch id) (Ok n) ∈ tx ∧
      ev (DeletePostgresCluster client (b_ID b)) r ∈ tx) tr.

Lemma gone_app_r prj id t1 t2 : gone prj id t1 → gone prj id (t1 ++ t2).
Proof.
  unfold gone. rewrite !elem_of_app. intros [?|[?|(b & cl & r & n & Hn & Hl & Hr & H)]]; [tauto..|].
  right; right. exists b, cl, r, n. split_and!; [done..|]. by apply committed_tx_app_r.
Qed.

Lemma gone_app_l prj id t1 t2 : gone prj id t2 → gone prj id (t1 ++ t2).
Proof.
  unfold gone. rewrite !elem_of_app. intros [?|[?|(b & cl & r & n & Hn & Hl & Hr & H)]]; [tauto..|].
  right; right. exists b, cl, r, n. split_and!; [done..|]. by apply committed_tx_app_l.
Qed.

Lemma wrap_runs_err {A} msg (p : E A) tr e :
  runs resp (wrap msg p) tr (Err e) → ∃ e', e = Wrapped msg e'.
Proof. intros (r & _ & Hr)%map_err_runs. destruct r as [a|e']; [done|]. injection Hr as ->. by exists e'. Qed.

Lemma DeprovisionBranch_runs org b tr r :
  runs resp (DeprovisionBranch org b) tr r →
  match r with
  | Ok _ => ∃ client w, ev (DeletePostgresCluster client (b_ID b)) w ∈ tr ∧ cluster_gone w = true
  | Err e => ∀ id, e ≠ ErrBranchNotFound id
  end.
Proof.
  intros [(t1 & t2 & client & -> & _ & Hk)|(e & Hc & ->)]%runs_bind_ok.
  2: { by apply wrap_runs_err in Hc as [e' ->]. }
  destruct Hk as (w & t3 & -> & Hk).
  destruct (cluster_gone w) eqn:Hw.
  - assert (r = Ok tt) as ->.
    { destruct w as [u|[[] m]]; try done; by destruct Hk as (x & t & -> & [_ ->]). }
    exists client, w. split; [apply elem_of_app; right; by left|done].
  - destruct w as [u|[[] m]]; try done; by destruct Hk as [_ ->].
Qed.

Lemma run_result {A} (p : M (res sql_error A)) tr r :
  runs resp (run p) tr r →
  ∃ r', runs resp p tr r' ∧ r = match r' with Ok a => Ok a | Err e => Err (SqlErr e) end.
Proof.
  intros (tr1 & tr2 & r' & -> & Hp & Hk)%runs_bind. exists r'.
  destruct r'; apply runs_ret in Hk as [-> ->]; by rewrite app_nil_r.
Qed.

Lemma on_no_rows_runs {A} e (p : M (res sql_error A)) tr r :
  runs resp (on_no_rows e p) tr r →
  ∃ r', runs resp p tr r' ∧
    r = match r' with Ok a => Ok a | Err NoRows => Err e | Err x => Err (SqlErr x) end.
Proof.
  intros (x & (r' & Hp & ->)%run_result & ->)%map_err_runs. exists r'. split; [done|].
  by destruct r' as [a|[]].
Qed.

Lemma getProject_error org prj tr e :
  runs resp (getProject org prj) tr (Err e) → ∀ id, e ≠ ErrBranchNotFound id.
Proof.
  intros [(t1 & t2 & row & -> & _ & [_ Hd])|(e' & (w & _ & Hw)%on_no_rows_runs & [= <-])]%runs_bind_ok.
  - unfold scan_project in Hd. by destruct (pw_CIDRs row); simplify_eq/=.
  - by destruct w as [a|[]]; simplify_eq/=.
Qed.

Definition not_found (r : res error unit) : Prop :=
  match r with Ok _ => True | Err e => ∃ id, e = ErrBranchNotFound id end.

Lemma DeprovisionBranch_only P org b :
  (∀ c, reads c = true → P c = true) → (∀ client id, P (DeletePostgresCluster client id) = true) →
  (∀ client id, P (DeleteBranchIPFiltering client id) = true) → only resp P (DeprovisionBranch org b).
Proof.
  intros Hreads Hdelete Hfilter. apply only_bind_ok; [by apply wrap_only, GetCellConnection_only|].
  intros client. apply only_bind; [by split|]. by intros [u|[[] m]].
Qed.

(** The exchanges of a program without commits have none. *)
Lemma only_no_commit {A} (p : prog resp A) tr a :
  only resp no_commit p → runs resp p tr a → ∀ c w, ev c w ∈ tr → no_commit c = true.
Proof. intros Hp Hr c w. exact (only_runs _ _ _ _ _ _ Hp Hr). Qed.

Lemma DeleteBranch_gone org prj id tr r :
  runs resp (provisioner_DeleteBranch org prj id) tr r → not_found r → gone prj id tr.
Proof.
  intros Hr Hn. apply in_tx_runs in Hr as [(e & -> & ->)|(tb & -> & Hb)]; [by destruct Hn as [? [=]]|].
  apply runs_bind_ok in Hb as [(tg & t2 & p & -> & Hg & Hb)|(e & Hp & ->)].
  2: { destruct Hn as [x ->]. by pose proof (getProject_error _ _ _ _ Hp x). }
  pose proof (only_no_commit _ _ _ (getProject_only _ reads_no_commit _ _) Hg) as Hgn.
  apply runs_bind_ok in Hb as [(t3 & t4 & b & -> & Hd & Hb)|(e & Hd & ->)].
  2: { left. apply on_no_rows_runs in Hd as (w & ->%perform_runs & Hw). rewrite elem_of_cons, !elem_of_app.
       destruct w as [a|[]]; simplify_eq/=; [right; left; right; by left|by destruct Hn..]. }
  apply on_no_rows_ok, perform_runs in Hd as ->.
  apply runs_bind_ok in Hb as [(t5 & t6 & n & -> & Hx & Hb)|(e & Hx & ->)].
  2: { apply run_result in Hx as (w & _ & Hw). destruct w; simplify_eq/=. by destruct Hn. }
  apply run_ok, perform_runs in Hx as ->.
  destruct (n =? 0) eqn:Hn0.
  { apply Z.eqb_eq in Hn0 as ->. right; left. rewrite elem_of_cons, !elem_of_app, !list_elem_of_singleton. tauto. }
  destruct (1 <? n) eqn:Hn1. { destruct Hb as [_ ->]. by destruct Hn. }
  apply runs_bind_ok in Hb as [(t7 & t8 & m & -> & Hx & Hb)|(e & Hx & ->)].
  2: { apply run_result in Hx as (w & _ & Hw). destruct w; simplify_eq/=. by destruct Hn. }
  apply run_ok, perform_runs in Hx as ->. destruct (1 <? m). { destruct Hb as [_ ->]. by destruct Hn. }
  apply runs_bind_ok in Hb as [(t9 & t10 & u & -> & Hv & Hc)|(e & Hv & ->)];
    pose proof Hv as Hd; apply DeprovisionBranch_runs in Hv.
  2: { destruct Hn as [x ->]. by pose proof (Hv x). }
  assert (∀ c w, ev c w ∈ t9 → no_commit c = true) as Hdn.
  { eapply only_no_commit; [|exact Hd]. by apply DeprovisionBranch_only; [apply reads_no_commit|..]. }
  destruct Hv as (client & w & Hin & Hw). right; right.
  apply commit_runs in Hc as [[-> ->]|(_ & e & ->)]; [|by destruct Hn].
  exists b, client, w, n. split_and!; [lia|lia|done|]. exists [],
    (tg ++ [ev (SelectBranch prj id) (Ok b)] ++ [ev (TerminateBranch id) (Ok n)] ++ [ev (RemoveBackup id) (Ok m)] ++ t9),
    [ev (resp := resp) Rollback tt]. split_and!.
  - cbn. by repeat (rewrite <- app_assoc; cbn).
  - intros c x. rewrite !elem_of_app, !list_elem_of_singleton. intros [H|[[=-> _]|[[=-> _]|[[=-> _]|H]]]]; [by eapply Hgn|done..|by eapply Hdn].
  - rewrite !elem_of_app, !list_elem_of_singleton. tauto.
  - rewrite !elem_of_app, !list_elem_of_singleton. tauto.
  - rewrite !elem_of_app. tauto.
Qed.

(** The deletion of the project's row. *)
Definition no_terminate (c : call) : bool := match c with TerminateProject _ _ => false | _ => true end.

Lemma reads_no_terminate c : reads c = true → no_terminate c = true.
Proof. by destruct c. Qed.

Lemma DeleteBranch_only org prj id : only resp no_terminate (provisioner_DeleteBranch org prj id).
Proof.
  apply in_tx_only; [done..|]. apply only_bind_ok; [apply getProject_only, reads_no_terminate|]. intros p.
  apply only_bind_ok; [apply describeBranch_only, reads_no_terminate|]. intros b.
  apply only_bind_ok; [by apply run_only|]. intros n. destruct (n =? 0); [done|]. destruct (1 <? n); [done|].
  apply only_bind_ok; [by apply run_only|]. intros m. destruct (1 <? m); [done|].
  apply only_bind_ok; [by apply DeprovisionBranch_only; [apply reads_no_terminate|..]|]. intros _. by apply attempt_only_if.
Qed.

Lemma delete_branches_only org prj l : only resp no_terminate (delete_branches org prj l).
Proof.
  induction l as [|b l IH]; [done|]. apply only_bind; [apply DeleteBranch_only|]. intros r.
  apply only_bind; [apply IH|]. intros d. by destruct r as [|[]].
Qed.

(** Without an error, every branch is gone. *)
Lemma delete_branches_gone org prj l tr d :
  runs resp (delete_branches org prj l) tr d → d.2 = [] → ∀ b, b ∈ l → gone prj (b_ID b) tr.
Proof.
  revert tr d. induction l as [|b l IH]; [by intros ? ? _ _ ? []%elem_of_nil|].
  intros tr d (t1 & t2 & r & -> & Hr & Hk)%runs_bind Hd.
  apply runs_bind in Hk as (t3 & t4 & rest & -> & Hl & [-> ->]).
  assert (not_found r ∧ rest.2 = []) as [Hn Hrest].
  { destruct r as [u|e]; [done|]. destruct e; try done. split; [by eexists|done]. }
  intros b' [->|Hb]%elem_of_cons; [apply gone_app_r; by eapply DeleteBranch_gone|].
  by apply gone_app_l, gone_app_r, (IH _ _ Hl).
Qed.

Lemma ListBranches_ok org prj tr l :
  runs resp (ListBranches org prj) tr (Ok l) → ∃ last, ev (SelectBranches prj) (Ok (l, last)) ∈ tr.
Proof.
  intros [(e & _ & [=])|(tb & -> & Hb)]%in_tx_runs.
  apply runs_bind_ok in Hb as [(t1 & t2 & p & -> & _ & (w & t3 & -> & [-> Hl]))|(e & _ & [=])].
  assert (∃ last, w = Ok (l, last)) as [last ->].
  { destruct w as [[l' [|e|e]]|e]; simplify_eq/=; by eexists. }
  exists last. rewrite elem_of_cons, !elem_of_app, elem_of_cons. tauto.
Qed.

(** The row of the project was not there any more, or it was terminated in a
    transaction that was committed and that found no active branch. *)
Definition terminated (org prj : string) (tr : list (event resp)) : Prop :=
  ev (TerminateProject org prj) (Ok 0) ∈ tr ∨
  ∃ n last, n ≠ 0 ∧ committed_tx (λ tx, ev (SelectActiveBranches prj) (Ok ([], last)) ∈ tx ∧
    ev (TerminateProject org prj) (Ok n) ∈ tx) tr.

Lemma terminated_app_l org prj t1 t2 : terminated org prj t2 → terminated org prj (t1 ++ t2).
Proof.
  intros [H|(n & last & Hn & H)]; [left; apply elem_of_app; by right|right]. exists n, last. split; [done|].
  by apply committed_tx_app_l.
Qed.

(** The project is found empty before it is terminated, and one that is deleted,
    or is not found, is. *)
Lemma DeleteProject_runs org prj tr r :
  runs resp (DeleteProject org prj) tr r →
  (∀ w, ev (TerminateProject org prj) w ∈ tr → ∃ last, ev (SelectActiveBranches prj) (Ok ([], last)) ∈ tr) ∧
  (match r with Ok _ => True | Err e => ∃ id, e = ErrProjectNotFound id end → terminated org prj tr).
Proof.
  intros [(e & -> & ->)|(tb & -> & Hb)]%in_tx_runs; [split; [|by intros [? [=]]]|].
  { by intros w [[=]|[]%elem_of_nil]%elem_of_cons. }
  destruct Hb as (w & t1 & -> & Hk). destruct w as [[[|x l] last]|e].
  - split; [intros _ _; exists last; right; by left|]. intros Hr.
    apply runs_bind_ok in Hk as [(t2 & t3 & m & -> & Hm & Hk)|(e & He & ->)].
    2: { apply run_result in He as (w & _ & Hw). destruct w; simplify_eq/=. by destruct Hr. }
    apply run_ok, perform_runs in Hm as ->.
    apply runs_bind_ok in Hk as [(t4 & t5 & n & -> & Hn & Hk)|(e & He & ->)].
    2: { apply run_result in He as (w & _ & Hw). destruct w; simplify_eq/=. by destruct Hr. }
    apply run_ok, perform_runs in Hn as ->. destruct (Z.eqb_spec n 0) as [Hz|Hnz].
    { subst n. left. destruct Hk as [-> ->]. set_unfold. tauto. }
    right. exists n, last. split; [done|]. apply commit_runs in Hk as [[-> ->]|(_ & e & ->)]; [|by destruct Hr].
    exists [], [ev (SelectActiveBranches prj) (Ok ([], last)); ev (RemoveProjectBackups prj) (Ok m); ev (TerminateProject org prj) (Ok n)],
      [ev (resp := resp) Rollback tt]. split_and!; [done| |set_unfold; tauto..].
    intros c x. rewrite !elem_of_cons. by intros [[=-> _]|[[=-> _]|[[=-> _]|[]%elem_of_nil]]].
  - destruct Hk as [-> ->]. split; [|by intros [? [=]]].
    intros w Hw. exfalso. simpl in Hw. rewrite !elem_of_cons in Hw. by destruct Hw as [[=]|[[=]|[[=]|[]%elem_of_nil]]].
  - destruct Hk as [-> ->]. split; [|by intros [? [=]]].
    intros w Hw. exfalso. simpl in Hw. rewrite !elem_of_cons in Hw. by destruct Hw as [[=]|[[=]|[[=]|[]%elem_of_nil]]].
Qed.

(** C19. A project is terminated only after each of its branches, as they were
    listed, is gone: it was not found any more, or one committed transaction
    terminated its row and saw its cluster deleted; and after no active branch
    was left.  An error of any branch leaves the project as it is.  After a
    deletion without errors the branches that were listed are gone, and the
    project was terminated in a transaction that was committed, in which no
    active branch was found, or its row was not there any more. *)
Theorem project_outlives_its_branches org prj tr d :
  runs resp (provisioner_DeleteProject org prj) tr d →
  (∀ w, ev (TerminateProject org prj) w ∈ tr →
     ∃ branches last t1 t2 t3 last', tr = t1 ++ t2 ++ t3 ∧
       ev (SelectBranches prj) (Ok (branches, last)) ∈ t1 ∧
       (∀ b, b ∈ branches → gone prj (b_ID b) t2) ∧
       ev (SelectActiveBranches prj) (Ok ([], last')) ∈ t3 ∧ ev (TerminateProject org prj) w ∈ t3) ∧
  (d.2 = [] → terminated org prj tr ∧
     ∃ branches last, ev (SelectBranches prj) (Ok (branches, last)) ∈ tr ∧ ∀ b, b ∈ branches → gone prj (b_ID b) tr).
Proof.
  intros (t1 & t2 & l & -> & Hl & Hk)%runs_bind.
  assert (∀ w, ev (TerminateProject org prj) w ∉ t1) as H1.
  { intros w Hw. by pose proof (only_runs _ _ _ _ _ _ (ListBranches_only _ reads_no_terminate _ _) Hl Hw). }
  destruct l as [branches|e].
  2: { destruct Hk as [-> ->]. rewrite app_nil_r. split; [|by intros [=]]. intros w Hw. by destruct (H1 w). }
  apply runs_bind in Hk as (t3 & t4 & [n errs] & -> & Hd & Hk).
  assert (∀ w, ev (TerminateProject org prj) w ∉ t3) as H3.
  { intros w Hw. by pose proof (only_runs _ _ _ _ _ _ (delete_branches_only _ _ _) Hd Hw). }
  destruct errs as [|e errs].
  2: { destruct Hk as [-> ->]. rewrite app_nil_r. split; [|by intros [=]].
       intros w [Hw|Hw]%elem_of_app; [by destruct (H1 w)|by destruct (H3 w)]. }
  pose proof (delete_branches_gone _ _ _ _ _ Hd eq_refl) as Hgone. apply ListBranches_ok in Hl as [last Hl].
  apply runs_bind in Hk as (t5 & t6 & r & -> & Hp & [-> ->]). rewrite app_nil_r.
  apply DeleteProject_runs in Hp as [Hsafe Hdone]. split.
  - intros w Hw. assert (ev (TerminateProject org prj) w ∈ t5) as H5.
    { rewrite !elem_of_app in Hw. destruct Hw as [Hw|[Hw|Hw]]; [by destruct (H1 w)|by destruct (H3 w)|done]. }
    destruct (Hsafe w H5) as [last' Hs]. by exists branches, last, t1, t3, t5, last'.
  - intros Hr. split.
    + apply terminated_app_l, terminated_app_l, Hdone. destruct r as [u|e]; [done|]. destruct e; simplify_eq/=; by eexists.
    + exists branches, last. split; [apply elem_of_app; by left|]. intros b Hb. by apply gone_app_l, gone_app_r, Hgone.
Qed.

(** ** A service with one project, of one branch, in one cell *)

Module Witness.

Definition a_region : Region := mkRegion "us-east-1" false true "aws" "" 0 None.
Definition a_cell : Cell := mkCell "cell" "us-east-1" 0 "cell:50051" None.
Definition a_root : Branch := mkBranch "root" None "main" None 0 0 "us-east-1" false true 1 "cell".
Definition to_zero : ProjectFilter.ScaleToZero := ProjectFilter.mkScaleToZero true (30 * Minute).
Definition a_project : ProjectRow :=
  mkProjectRow "prj" "project" 0 0 (mkProjectScaleToZero to_zero to_zero) true (Ok [mkCIDREntry "10.0.0.0/8" ""]).

Definition row_of (b : NewBranch) : BranchRow :=
  mkBranchRow (nb_ID b) (nb_Name b) (nb_ParentID b) (nb_Description b) (nb_CellID b) (nb_Depth b) 0 0.
Definition no_branch_row : BranchRow := mkBranchRow "" "" None None "" 0 0 0.
Definition no_limit (c : Limits.call) : Limits.resp c :=
  match c as c return Limits.resp c with
  | QueryOrgLimits _ _ => Ok ([], Limits.RowsDone)
  | UpsertOrgLimit _ _ _ _ | RemoveOrgLimit _ _ _ => None
  | Limits.GetProject _ _ => None
  | CountActiveOrgProjects _ | CountProjectsCreatedInLastHour _ | CountActiveOrgBranches _
  | CountBranchesCreatedInLastHour _ | CountActiveProjectBranches _ => Ok 1
  end.

Definition sample (_ : unit) (c : call) : unit * resp c :=
  (tt, match c as c return resp c with
  | BeginTx | Commit | OrganizationXactLock _ | GetDBConn | CloseDBConn => None
  | Rollback | AdvisoryUnlock _ _ => tt
  | TryProjectXactLockShared _ | AdvisoryLock _ _ => Ok true
  | SelectRegions _ => Ok ([a_region], RowsDone)
  | InsertRegion _ | SelectRegion _ _ => Ok a_region
  | SelectCells _ => Ok ([a_cell], RowsDone)
  | InsertCell _ _ _ _ | SelectCell _ _ => Ok a_cell
  | RemoveRegion _ | RemoveCell _ | RemoveProjectBackups _ | TerminateProject _ _
  | RemoveTerminatedProjects _ | TerminateBranch _ | RemoveBackup _
  | RemoveTerminatedBranches _ _ | ProjectsModel.CountOrganizationBranches _ | RemoveInstallation _
  | RemoveMapping _ _ => Ok 1
  | SelectProject _ _ | InsertProject _ => Ok a_project
  | SelectProjects _ => Ok ([a_project], RowsDone)
  | SelectOrganizationIDs => Ok ([], RowsDone)
  | SelectActiveBranches _ => Ok ([], RowsDone)
  | SelectBranches _ => Ok ([a_root], RowsDone)
  | SelectBranch _ _ | SelectBranchByName _ _ => Ok a_root
  | InsertBranch b => Ok (row_of b)
  | UpdateBranchRow _ _ _ | SelectBranchRow _ => Ok no_branch_row
  | SelectCellRegion _ => Ok ("us-east-1", false, true)
  | SelectMisplaced _ _ _ => Err NoRows
  | LimitsCall c => no_limit c
  | InsertInstallation _ _ _ | UpdateInstallation _ _ _ => Err NoRows
  | SelectInstallations _ => Ok ([], RowsDone)
  | InsertMapping _ _ _ _ _ | SelectMapping _ _ | UpdateMapping _ _ _ _ => Err NoRows
  | ProjectExists _ _ _ | BranchExists _ _ | MappingExists _ _ => Ok true
  | SelectMappingByRepo _ => Err NoRows
  | ValidateUserInstallationAccess _ _ | ValidateRepositoryAccess _ _ => None
  | NewID => "id"
  | BoolValue _ => false
  | RandUintN _ | Now => 0
  | CryptoRandInt _ => Some 0
  | GetConn _ => None
  | CreatePostgresCluster _ _ | UpdatePostgresCluster _ _ _ | DeletePostgresCluster _ _
  | RotatePostgresClusterCredentials _ _ _ | SetBranchIPFiltering _ _ _
  | DeleteBranchIPFiltering _ _ => Ok tt
  | DescribePostgresCluster _ _ => Err (NotFound, "")
  | GetPostgresClusterCredentials _ _ _ => Ok (mkCredentials "app" "secret")
  | GetRecoveryWindow _ _ => Err (NotFound, "")
  end).

(** A child of the root branch. *)
Definition a_payload : Payload :=
  mkPayload (Some "root") empty_configuration None "cell" "us-east-1" true 7 None (mkFlags true true) "t2"
    (Some (mkBranchLimits 10 10 10)) false.

Definition creating := exec resp sample tt (provisioner_CreateBranch 3 "prj" "org" "dev" a_payload).

Lemma creating_runs : runs resp (provisioner_CreateBranch 3 "prj" "org" "dev" a_payload) creating.1.1 creating.2.
Proof. exact (exec_runs sample tt _). Qed.

Lemma branch_is_committed_with_its_cluster_witness :
  committed creating.1.1 = true ∧ ∃ b depth parent,
    creating.2 = Ok b ∧ b_Depth b = 2 ∧ depth_below 3 parent depth ∧ is_Some parent.
Proof.
  pose proof (branch_is_committed_with_its_cluster 3 "prj" "org" "dev" a_payload _ _ creating_runs) as [H1 H2].
  split; [apply H1; by eexists|]. destruct (H2 _ eq_refl) as (client & before & p0 & c & prow & project & parent & depth & H).
  destruct H as (key & row & region & idem & _ & _ & _ & _ & Hp & Hd).
  eexists _, depth, parent. split_and!; [reflexivity|reflexivity|done|]. apply Hp. by eexists.
Defined.

(** A primary and a replica with parameters of their own. *)
#[local] Instance amd64 : GoRuntime :=
  {| float_out_of_range := λ _, - 2 ^ 63; unicode_ToLower := λ s, s |}.

Definition a_configuration : Configuration :=
  mkConfiguration "postgresql:17" "us-east-1" "xata.small" 1 (Some ["pg_stat_statements"%string])
    (Some PostgresCatalogue.Witness.settings) (Some 50).
Definition some_limits : OrgLimits := mkOrgLimits 10 10 10 10 10 3 1 100 2000 100.
Definition an_input : CreateInput :=
  mkInput "org" "prj" "dev" (FromConfiguration a_configuration) ProviderAWS "t2" some_limits
    (mkFlags true false) false None None None false.

Definition building := exec resp sample tt
  (BuildPayload [] PostgresCatalogue.Witness.catalogue configurableParameters (mkScheduler Random ∅)
     (λ _, ""%string) an_input).

Lemma accepted_configuration_is_within_limits_witness :
  ∃ p, building.2 = Ok p ∧ cc_NumInstances (py_Configuration p) = 2 ∧ cc_StorageSize (py_Configuration p) = 50 ∧
    cc_Parameters (py_Configuration p) !! "work_mem"%string = Some "64MB"%string.
Proof.
  destruct building.2 as [p|e] eqn:Hb.
  2: { exfalso. assert (is_ok building.2 = true) as Hok by (vm_compute; reflexivity). by rewrite Hb in Hok. }
  exists p. split; [done|].
  pose proof (accepted_configuration_is_within_limits [] PostgresCatalogue.Witness.catalogue
    configurableParameters (mkScheduler Random ∅) (λ _, ""%string) an_input a_configuration building.1.1 p eq_refl) as H.
  destruct H as ((Hn & _) & Hs & _ & _ & _ & _ & Hp).
  - unfold limits_fit, some_limits. simpl. lia.
  - simpl. lia.
  - rewrite <- Hb. exact (exec_runs sample tt _).
  - split; [exact Hn|]. split; [by destruct (Hs 50 eq_refl)|].
    destruct (Hp PostgresCatalogue.Witness.settings eq_refl) as [Hsub _].
    eapply lookup_weaken; [|exact Hsub]. vm_compute. reflexivity.
Defined.

Definition listed (e : event resp) : option (list Branch) :=
  match e with ev (SelectBranches _) (Ok (l, _)) => Some l | _ => None end.
Definition deleting := exec resp sample tt (provisioner_DeleteProject "org" "prj").

Lemma project_outlives_its_branches_witness :
  deleting.2 = (1, []) ∧ terminated "org" "prj" deleting.1.1 ∧ gone "prj" "root" deleting.1.1.
Proof.
  pose proof (project_outlives_its_branches "org" "prj" deleting.1.1 deleting.2 (exec_runs sample tt _)) as [_ H].
  split; [vm_compute; reflexivity|]. destruct (H eq_refl) as (Ht & branches & last & Hl & Hg). split; [exact Ht|].
  apply (Hg a_root).
  assert (branches ∈ omap listed deleting.1.1) as Hb by (apply list_elem_of_omap; by eexists).
  assert (omap listed deleting.1.1 = [[a_root]]) as Hlist by (vm_compute; reflexivity).
  rewrite Hlist in Hb. apply list_elem_of_singleton in Hb as ->. by left.
Defined.

End Witness.
