(* ===== verification/ProjectsApi.v ===== *)
(** * The API of the projects service: projects, catalogues and branches

    The handlers of [services/projects/api/handler.go] with the conversions of
    [api_adapter.go] and [branch_adapter.go].  A reply is the HTTP status and
    the body; a body that is read is what decoding it yields.  The
    [Retry-After] header, the attributes of the request log and the analytics
    events are left out; updating a project is [ProjectFilter]'s and updating a
    branch [BranchUpdates]'. *)

From stdpp Require Import pretty sorting.
From S2P Require Import Prelude GoStrings GoFloat GoTime Netip IPFilterModel ProjectFilter Limits PostgresVersions Extensions BranchTypes BranchBuilder PostgresConfig ClusterStatus ProjectsModel ProjectStore BackupSchedule Scheduler BranchService AccessPolicy.

#[local] Open Scope Z_scope.
#[local] Open Scope go_scope.

(** ** Conversions ([api_adapter.go]) *)

Record ProjectReply := mkProjectReply {
  pr_Id : string;
  pr_Name : string;
  pr_CreatedAt : Z;
  pr_UpdatedAt : Z;
  pr_BaseBranches : ScaleToZeroBody;
  pr_ChildBranches : ScaleToZeroBody;
  pr_IpFiltering : option IPFilteringConfiguration
}.

Record BranchShortMetadata := mkShort {
  sm_Id : string;
  sm_Name : string;
  sm_ParentID : option string;
  sm_CreatedAt : Z;
  sm_UpdatedAt : Z;
  sm_Description : option string;
  sm_ConnectionString : option string;
  sm_Region : string;
  sm_PublicAccess : bool
}.

Record BranchListMetadata := mkList {
  lm_Id : string;
  lm_Name : string;
  lm_ParentID : option string;
  lm_CreatedAt : Z;
  lm_UpdatedAt : Z;
  lm_Description : option string;
  lm_Region : string;
  lm_PublicAccess : bool;
  lm_BackupsEnabled : bool
}.

Record BranchInstance := mkBranchInstance {
  bi_Id : string;
  bi_Status : string;
  bi_Primary : bool;
  bi_TargetPrimary : bool
}.

Record BranchStatus := mkBranchStatus {
  bs_Status : string;
  bs_StatusType : StatusType;
  bs_InstanceCount : Z;
  bs_InstanceReadyCount : Z;
  bs_Instances : list BranchInstance
}.

Record BranchMetadata := mkMetadata {
  bm_Short : BranchShortMetadata;
  bm_Configuration : Configuration;
  bm_Status : BranchStatus;
  bm_BackupsEnabled : bool;
  bm_ScaleToZero : ScaleToZeroBody;
  bm_BackupConfiguration : option BackupSettings
}.

Definition storeToAPIScaleToZeroConfig (s : ProjectFilter.ScaleToZero) : ScaleToZeroBody :=
  mkScaleToZeroBody (STZ_Enabled s)
    (whole_minutes (if 0 <? InactivityPeriod s then InactivityPeriod s else defaultInactivityDuration)).

Definition storeToAPICIDREntries (cidrs : list CIDREntry) : list CidrEntry :=
  map (λ e, mkCidr (CIDR e)
              (if bool_decide (CIDRDescription e = "") then None else Some (CIDRDescription e))) cidrs.

Definition storeToAPIProject (p : Project) : ProjectReply :=
  let s := Project_ScaleToZero (p_Settings p) in
  let f := Project_IPFiltering (p_Settings p) in
  let cidrs := default [] (CIDRs f) in
  mkProjectReply (p_ID p) (ProjectName (p_Settings p)) (p_CreatedAt p) (p_UpdatedAt p)
    (storeToAPIScaleToZeroConfig (BaseBranches s)) (storeToAPIScaleToZeroConfig (ChildBranches s))
    (if negb (bool_decide (cidrs = [])) || IPF_Enabled f
     then Some (mkFiltering (IPF_Enabled f) (Some (storeToAPICIDREntries cidrs))) else None).

Definition getRegion (region : string) : string :=
  if bool_decide (region = "") then DefaultRegion else region.

Definition storeToAPIBranchShortMetadata (b : Branch) (connString : string) : BranchShortMetadata :=
  mkShort (b_ID b) (b_Name b) (b_ParentID b) (b_CreatedAt b) (b_UpdatedAt b) (b_Description b)
    (if bool_decide (connString = "") then None else Some connString) (getRegion (b_Region b))
    (b_PublicAccess b).

Definition storeToAPIBranchListMetadata (b : Branch) : BranchListMetadata :=
  mkList (b_ID b) (b_Name b) (b_ParentID b) (b_CreatedAt b) (b_UpdatedAt b) (b_Description b)
    (getRegion (b_Region b)) (b_PublicAccess b) (b_BackupsEnabled b).

Definition mapInstances (instances : gmap string InstanceStatus) : list BranchInstance :=
  omap (λ id, (λ i, mkBranchInstance id (in_Status i) (in_Primary i) (in_TargetPrimary i)) <$> instances !! id)
    (sort_strings (elements (dom instances))).

Definition mapStatus (s : ClusterStatus) : BranchStatus :=
  mkBranchStatus (cs_Status s) (cs_StatusType s) (cs_InstanceCount s) (cs_InstanceReadyCount s)
    (mapInstances (cs_Instances s)).

Definition clustersToAPIScaleToZero (s : option ScaleToZeroMsg) : ScaleToZeroBody :=
  match s with
  | None => mkScaleToZeroBody false (whole_minutes defaultInactivityDuration)
  | Some s => mkScaleToZeroBody (m_Enabled s) (m_InactivityPeriodMinutes s)
  end.

(** 32-bit counts. *)
Definition storeToAPIBranchMetadata (b : Branch) (connString instanceType : string)
    (cluster : ClusterDescription) : BranchMetadata :=
  let c := cd_Configuration cluster in
  mkMetadata (storeToAPIBranchShortMetadata b connString)
    (mkConfiguration (ShortImageName (cc_ImageName c)) "" instanceType (int32 (cc_NumInstances c - 1))
       (Some (cc_PreloadLibraries c)) (Some (cc_Parameters c)) (Some (cc_StorageSize c)))
    (mapStatus (cd_Status cluster)) (b_BackupsEnabled b) (clustersToAPIScaleToZero (cc_ScaleToZero c))
    (clustersToAPIBackupConfig (cd_BackupConfiguration cluster)).

(** A new project: its name, and the configuration if there is one. *)
Record CreateProjectBody := mkCreateProjectBody {
  cpb_Name : string;
  cpb_Configuration : option (ScaleToZeroBody * ScaleToZeroBody * option IPFilteringConfiguration)
}.

Definition defaultScaleToZeroConfig : ProjectFilter.ScaleToZero :=
  ProjectFilter.mkScaleToZero false defaultInactivityDuration.

Definition apiToStoreCreateProjectConfig (req : CreateProjectBody) (usageTier : string)
    : CreateProjectConfiguration :=
  mkCreateProject (cpb_Name req)
    (match cpb_Configuration req with
     | Some (base, child, _) =>
         mkProjectScaleToZero (apiToStoreScaleToZeroConfig base) (apiToStoreScaleToZeroConfig child)
     | None => mkProjectScaleToZero defaultScaleToZeroConfig defaultScaleToZeroConfig
     end)
    (match cpb_Configuration req with
     | Some (_, _, Some f) => apiToStoreIPFiltering f
     | _ => mkIPFiltering false (Some [])
     end)
    usageTier.

Definition storeToClustersScaleToZero (s : ProjectFilter.ScaleToZero) : ScaleToZeroMsg :=
  mkStzMsg (STZ_Enabled s) (whole_minutes (InactivityPeriod s)).

Definition apiToClustersScaleToZero (s : option ScaleToZeroBody) (parentID : option string)
    (project : option Project) : option ScaleToZeroMsg :=
  match s, project with
  | Some s, _ => Some (mkStzMsg (body_Enabled s) (ProjectFilter.InactivityPeriodMinutes s))
  | None, None => None
  | None, Some p =>
      let stz := Project_ScaleToZero (p_Settings p) in
      Some (storeToClustersScaleToZero (match parentID with Some _ => ChildBranches stz | None => BaseBranches stz end))
  end.

(** [parseRecoveryWindow]: the earliest and the latest time. *)
Definition parse_time (what text : string) : res error (option Z) :=
  if bool_decide (text = "") then Ok None
  else match ParseRFC3339 text with
       | Some t => Ok (Some t)
       | None => Err (Wrapped ("unexpected timestamp for " +:+ what +:+ " restore time") (ErrorText text))
       end.

Definition parseRecoveryWindow (w : Window) : res error (option Z * option Z) :=
  earliest <~ parse_time "earliest" (wd_FirstRecoverabilityPoint w);
  latest <~ parse_time "latest"
    (if bool_decide (wd_LastRecoverabilityPoint w = "") then wd_LastSuccessfulBackup w
     else wd_LastRecoverabilityPoint w);
  Ok (earliest, latest).

(** ** Postgres parameters of a branch *)

Record PostgresConfigParameter := mkParameter {
  pp_Name : string;
  pp_Type : ParameterType;
  pp_Description : string;
  pp_Section : string;
  pp_MinValue : option string;
  pp_MaxValue : option string;
  pp_EnumValues : option (list string);
  pp_DefaultValue : string;
  pp_FromInstanceType : bool;
  pp_CurrentValue : string;
  pp_DocumentationLink : string;
  pp_Recommendation : string;
  pp_RestartRequired : bool
}.

Definition nonempty (s : string) : option string := if bool_decide (s = "") then None else Some s.

Section Parameters.
Context `{GoRuntime}.
Variable imageExtensions : option ImageExtensions.
Variable configurableParameters : ParametersMap.

(** The parameters, in an order of the map's; the default comes from the
    instance type when [DetermineConfigValueType] says so. *)
Definition postgresConfigToAPIParameters `{MapRange} (params : ParametersMap) (instanceType : string)
    (clusterParams : gmap string string) (image : string) (preloadLibraries : option (list string))
    : list PostgresConfigParameter :=
  omap (λ name,
    (λ spec, mkParameter name (ParamType spec) (PostgresConfig.Description spec) (Section_ spec)
       (nonempty (MinValue spec)) (nonempty (MaxValue spec)) (slice (Values spec)) (DefaultValue spec)
       match DetermineConfigValueType imageExtensions configurableParameters instanceType name
               (DefaultValue spec) 0 image preloadLibraries with
       | (ConfigValueInstanceDefault, None) => true
       | _ => false
       end
       (default (DefaultValue spec) (clusterParams !! name)) (DocsLink spec) (Recommendation spec)
       (RestartRequired spec)) <$> params !! name)
    (range_keys (dom params)).
End Parameters.

(** ** Access *)

Inductive Permission := All | OnlyEnabled.

(** The organization of the claims; one that is missing is the zero value. *)
Definition claimed (claims : option Claims) (organizationID : string) : Organization :=
  default (mkOrg "" "" None "" "") (claims ≫= λ c, Organizations c !! organizationID).

Definition withOrganizationAccess {A} (claims : option Claims) (organizationID : string) (p : Permission)
    (fn : E A) : E A :=
  match claims with
  | None => fail (HTTPError 401)
  | Some _ =>
      if negb (HasAccessToOrganization claims organizationID)
      then fail (ErrorAuthorizationFailed ("no access to organization [" +:+ organizationID +:+ "]"))
      else if match p with OnlyEnabled => negb (IsEnabledOrganization claims organizationID) | All => false end
      then fail (ErrorOrganizationDisabled organizationID)
      else fn
  end.

(** [IsNewOrganization]: created in the last 12 hours. *)
Definition IsNewOrganization (o : Organization) : M bool :=
  match o_CreatedAt o with
  | None => mret false
  | Some created => now ← perform Now; mret (now - created <? 12 * Hour)
  end.

(** A body that is read: what decoding it yields. *)
Definition ReadBody {A} (body : res error A) : E A := mret body.

(** The pattern: empty, or a letter or digit before letters, digits and separators. *)
Definition is_alnum (c : ascii) : bool :=
  let n := N_of_ascii c in
  is_digit c || ((65 <=? n) && (n <=? 90) || (97 <=? n) && (n <=? 122))%N.

Definition validBranchDescription (d : string) : bool :=
  match d with
  | EmptyString => true
  | String c rest => is_alnum c && forallb (λ c, is_alnum c || contains_byte c "-_./: ") (list_ascii_of_string rest)
  end.

Definition IsBranchDescriptionValid (e : option string) (maxLen : Z) : option error :=
  match e with
  | None => None
  | Some d =>
      if maxLen <? len d then Some (ErrorMaxLength maxLen)
      else if validBranchDescription d then None
      else Some (ErrorInvalidDescription ("invalid branch description " +:+ d) d)
  end.

(** ** Regions *)

Definition filterRegionsForMarketplace (marketplace : string) (regions : list Region) : list Region :=
  if bool_decide (marketplace = "") then regions
  else List.filter (IsRegionAvailableForMarketplace marketplace) regions.

Definition api_ListRegions (claims : option Claims) (organizationID : string) : E (list Region) :=
  withOrganizationAccess claims organizationID All
    (regions <-? ListRegions organizationID;
     ok (filterRegionsForMarketplace (o_Marketplace (claimed claims organizationID)) regions)).

Definition validateRegion (organizationID marketplace region : string) : E unit :=
  regions <-? ListRegions organizationID;
  match List.find (λ r, bool_decide (region = rg_ID r)) regions with
  | Some r =>
      if IsRegionAvailableForMarketplace marketplace r then ok tt
      else fail (ErrorInvalidRegion ("provider " +:+ rg_Provider r +:+ " is not available for "
                                       +:+ marketplace +:+ " marketplace organizations"))
  | None => fail (ErrorInvalidRegion ("region " +:+ region +:+ " is not found"))
  end.

Definition invalid (branch param message : string) : error := ErrorInvalidParam "" branch param message.

(** An optional region of the query. *)
Definition checkRegion (organizationID marketplace : string) (region : option string) : E unit :=
  match region with
  | None => ok tt
  | Some r =>
      map_err (λ e, match e with
                    | ErrorInvalidRegion m => invalid "" "region" ("invalid region: " +:+ m)
                    | e => e
                    end) (validateRegion organizationID marketplace r)
  end.

(** ** Images, extensions and instance types *)

(** One of the filters of [ListImages]: without the flag, only what passes. *)
Definition unless_flag (name : string) (keep : string → bool) (images : list string) : M (list string) :=
  enabled ← flag name; mret (if enabled : bool then images else List.filter keep images).

(** The hidden majors, each asked for once. *)
Fixpoint filter_majors (hidden : gmap string string) (images : list string) (asked : gmap string bool)
    : M (list string) :=
  match images with
  | [] => mret []
  | img :: images =>
      match hidden !! img with
      | None => rest ← filter_majors hidden images asked; mret (img :: rest)
      | Some major =>
          enabled ← match asked !! major with Some b => mret b | None => MajorVersionEnabled major end;
          rest ← filter_majors hidden images (<[major := enabled]> asked);
          mret (if enabled : bool then img :: rest else rest)
      end
  end.

Record Image := mkImage { im_MajorVersion : string; im_FullVersion : string; im_Name : string }.

Definition internalExtensions : list string := ["xatautils"%string].

Record InstanceTypeReply := mkInstanceTypeReply {
  ir_Name : string;
  ir_VCPUs : Z;
  ir_RAM : Z;
  ir_HourlyRate : Z;
  ir_StorageMonthlyRate : Z;
  ir_Region : string
}.

Section Catalogue.
Variable sources : list Source.
Variable imageExtensions : option ImageExtensions.

Definition listed_images : M (list string) :=
  images ← unless_flag flag_ExperimentalImages (λ i, negb (HasPrefix i "experimental:")) (GetAllImageNames sources);
  images ← unless_flag flag_AnalyticsImages (λ i, negb (HasPrefix i "analytics:")) images;
  images ← unless_flag flag_LegacyPgVersions (λ i, negb (bool_decide (i ∈ HiddenImageNames sources))) images;
  if bool_decide (HiddenMajorImages sources = ∅) then mret images
  else filter_majors (HiddenMajorImages sources) images ∅.

Definition image_reply (name : string) : Image :=
  let version := ExtractVersionFromImageName name in mkImage (GetMajorForVersion version) version name.

Definition ListImages (claims : option Claims) (organizationID : string) (region : option string) : E (list Image) :=
  withOrganizationAccess claims organizationID All
    (_ <-? checkRegion organizationID (o_Marketplace (claimed claims organizationID)) region;
     images ← listed_images;
     ok (map image_reply images)).

Definition ListExtensions (claims : option Claims) (organizationID image : string) (region : option string)
    : E (list ExtensionSpec) :=
  withOrganizationAccess claims organizationID All
    (_ <-? checkRegion organizationID (o_Marketplace (claimed claims organizationID)) region;
     match PostgresVersions.ValidateImage sources image with
     | Some e => fail (invalid "" "image" (image_error_text e))
     | None =>
         match GetExtensions imageExtensions image with
         | [] => fail (invalid "" "image" "no extensions found for image")
         | exts => ok (List.filter (λ e, negb (bool_decide (Extensions.Name e ∈ internalExtensions))) exts)
         end
     end).
End Catalogue.

Definition api_ListInstanceTypes (claims : option Claims) (organizationID region : string)
    : E (list InstanceTypeReply) :=
  withOrganizationAccess claims organizationID All
    (_ <-? map_err (λ e, invalid "" "region" ("invalid region: " +:+ error_text e))
             (validateRegion organizationID (o_Marketplace (claimed claims organizationID)) region);
     ok (map (λ it, mkInstanceTypeReply (it_Name it) (it_VCPUsRequest it) (it_RAM it) (it_HourlyRate it)
                      (it_StorageMonthlyRate it) region) (ListInstanceTypes region))).

(** ** Projects *)

Definition api_ListProjects (claims : option Claims) (organizationID : string) : E (list ProjectReply) :=
  withOrganizationAccess claims organizationID All
    (projects <-? ListProjects organizationID;
     ok (map storeToAPIProject (List.filter (λ p, HasAccessToProject claims (p_ID p)) projects))).

(** The parameter that [validateIPFiltering] rejects. *)
Definition check_filtering (f : option IPFilteringConfiguration) : E unit :=
  match validateIPFiltering f with
  | Some (param, message) => fail (invalid "" param message)
  | None => ok tt
  end.

Definition api_CreateProject (claims : option Claims) (organizationID : string) (body : res error CreateProjectBody)
    : E ProjectReply :=
  withOrganizationAccess claims organizationID OnlyEnabled
    (req <-? ReadBody body;
     _ <-? match cpb_Configuration req with Some (_, f) => check_filtering f | None => ok tt end;
     p <-? CreateProject organizationID
             (apiToStoreCreateProjectConfig req (o_UsageTier (claimed claims organizationID)));
     ok (storeToAPIProject p)).

Definition api_DeleteProject (claims : option Claims) (organizationID projectID : string) : E unit :=
  withOrganizationAccess claims organizationID All (DeleteProject organizationID projectID).

Definition api_GetProject (claims : option Claims) (organizationID projectID : string) : E ProjectReply :=
  withOrganizationAccess claims organizationID All
    (p <-? GetProject organizationID projectID; ok (storeToAPIProject p)).

Definition withProject {A} (organizationID projectID : string) (fn : Project → E A) : E A :=
  p <-? GetProject organizationID projectID; fn p.

(** ** Backups *)

Record BackupMetadata := mkBackupMetadata {
  bk_Id : string;
  bk_BranchID : string;
  bk_EarliestRestore : option Z;
  bk_LatestRestore : option Z;
  bk_Description : string
}.

Definition api_ListBackups : E unit := fail (HTTPError 501).

(** A branch that is not found has no backup; nor does one the key may not
    access. *)
Definition api_GetBackup (claims : option Claims) (organizationID projectID backupID : string) : E BackupMetadata :=
  withOrganizationAccess claims organizationID All
    (branch <-? map_err (λ e, match e with ErrBranchNotFound _ => ErrorBackupNotFound backupID | e => e end)
                  (DescribeBranch organizationID projectID backupID);
     if negb (HasAccessToBranch claims (b_ID branch)) then fail (ErrorBackupNotFound backupID)
     else
       client <-? GetCellConnection organizationID (b_CellID branch);
       w ← perform (GetRecoveryWindow client (b_ID branch));
       match w with
       | Err (NotFound, _) => fail (ErrorBackupNotFound backupID)
       | Err (c, m) => fail (Status c m)
       | Ok window =>
           times <-? pure (parseRecoveryWindow window);
           ok (mkBackupMetadata backupID (b_ID branch) times.1 times.2
                 ("Continuous backup for branch " +:+ b_ID branch))
       end).

(** ** Branches *)

Definition api_ListBranches (claims : option Claims) (organizationID projectID : string)
    : E (list BranchListMetadata) :=
  withOrganizationAccess claims organizationID All
    (branches <-? ListBranches organizationID projectID;
     ok (map storeToAPIBranchListMetadata (List.filter (λ b, HasAccessToBranch claims (b_ID b)) branches))).

(** The error of the branch service that an error is or wraps, if any. *)
Fixpoint branch_error (e : error) : option error :=
  match e with
  | BranchInvalidParam b p m => Some (ErrorInvalidParam "" b p m)
  | BranchBranchNotFound id => Some (ErrorBranchNotFound id)
  | BranchInvalidRegion m => Some (ErrorInvalidRegion m)
  | BranchChildCreationDisabled => Some ErrorChildBranchCreationDisabled
  | BranchParentUnhealthy p => Some (ErrorParentBranchUnhealthy p)
  | Wrapped _ e => branch_error e
  | _ => None
  end.

Definition apiErrorFromBranch (e : error) : error := default e (branch_error e).

Definition validateStorageSize (branchName : string) (storageGB max : Z) : option error :=
  apiErrorFromBranch <$> ValidateStorage branchName storageGB max.

Definition validateBackupConfiguration (branchName : string) (c : option BackupSettings) : option error :=
  apiErrorFromBranch <$> ValidateBackup branchName c.

Definition validateBranchRequestCommons (name : string) (c : option BackupSettings) : option error :=
  if bool_decide (name = "") then Some (invalid name "name" "branch name is required")
  else validateBackupConfiguration name c.

(** What [ValueByDiscriminator] yields: a value of a known mode, or an error. *)
Record CreateBranchBody := mkCreateBranchBody {
  bb_Name : string;
  bb_Description : option string;
  bb_BackupConfiguration : option BackupSettings;
  bb_ScaleToZero : option ScaleToZeroBody;
  bb_Mode : res string Mode
}.

Definition toBranchScaleToZero (s : option ScaleToZeroBody) : option ScaleToZeroMsg :=
  (λ s, mkStzMsg (body_Enabled s) (ProjectFilter.InactivityPeriodMinutes s)) <$> s.

(** A new organization has few branches. *)
Definition check_new_organization (claims : option Claims) (organizationID : string) (useXatastor : bool) : E unit :=
  if useXatastor then ok tt
  else match claims ≫= λ c, Organizations c !! organizationID with
       | None => ok tt
       | Some org =>
           new ← IsNewOrganization org;
           if new : bool then
             count <-? wrap "count organization branches" (CountOrganizationBranches organizationID);
             if MaxNewOrgBranches <=? count then fail (ErrorNewOrgBranchLimitExceeded organizationID) else ok tt
           else ok tt
       end.

Section Branches.
Context `{GoRuntime} `{Quantities}.
Variable sources : list Source.
Variable imageExtensions : option ImageExtensions.
Variable configurableParameters : ParametersMap.
Variable sched : Scheduler.
Variable defaultGatewayHostPort : string.
Variable maxDepth : Z.
Variable value_error_text : value_error → string.

(** The limits of an organization, from the tier of the claims. *)
Definition orgLimits (claims : option Claims) (organizationID projectID : string) (useXatastor : bool)
    : E OrgLimits :=
  limits (ResolveOrgLimits (o_UsageTier (claimed claims organizationID)) organizationID projectID useXatastor).

Definition api_CreateBranch (claims : option Claims) (organizationID projectID : string)
    (body : res error CreateBranchBody) : E BranchShortMetadata :=
  withOrganizationAccess claims organizationID OnlyEnabled
    (disabled ← flag flag_BranchCreationDisabled;
     if disabled : bool then fail ErrorBranchCreationDisabled
     else
       useXatastor ← flag flag_UseXatastor;
       usePgBackRest ← flag flag_UsePgBackRest;
       usePool ← flag flag_UseClusterPool;
       l <-? orgLimits claims organizationID projectID useXatastor;
       _ <-? check_new_organization claims organizationID useXatastor;
       body <-? ReadBody body;
       _ <-? err_unit (IsBranchDescriptionValid (bb_Description body) (ol_MaxDescriptionLength l));
       match bb_Mode body with
       | Err m => fail (invalid (bb_Name body) "body" ("failed to parse branch creation details - " +:+ m))
       | Ok mode =>
           let i := mkInput organizationID projectID (bb_Name body) mode
                      (o_Marketplace (claimed claims organizationID))
                      (o_UsageTier (claimed claims organizationID)) l (mkFlags usePool useXatastor)
                      usePgBackRest (bb_Description body) (bb_BackupConfiguration body)
                      (toBranchScaleToZero (bb_ScaleToZero body)) false in
           payload <-? map_err apiErrorFromBranch
                         (BuildPayload sources imageExtensions configurableParameters sched value_error_text i);
           created <-? map_err apiErrorFromBranch (Provision defaultGatewayHostPort maxDepth i payload);
           ok (storeToAPIBranchShortMetadata created.1 created.2)
       end).

Definition describe_cluster (client branchID : string) : E ClusterDescription :=
  r ← perform (DescribePostgresCluster client branchID);
  match r with
  | Ok c => ok c
  | Err (NotFound, _) => fail (ErrorBranchNotFound branchID)
  | Err (c, m) => fail (Status c m)
  end.

Definition instance_type (region : string) (c : ClusterConfiguration) : res error string :=
  InstanceTypeByResources region (cc_VcpuRequest c) (cc_VcpuLimit c) (cc_Memory c).

(** The cluster without internal parameters and libraries. *)
Definition public_cluster (d : ClusterDescription) : ClusterDescription :=
  let c := cd_Configuration d in
  let params := FilterConfigurableParameters imageExtensions configurableParameters (cc_Parameters c)
                  (ExtractMajorVersionFromImage (cc_ImageName c)) (cc_ImageName c) (slice (cc_PreloadLibraries c)) in
  mkDescription
    (BranchBuilder.mkConfiguration (cc_NumInstances c) (cc_StorageSize c) (cc_ImageName c) (cc_Memory c)
       (cc_ScaleToZero c) (cc_VcpuRequest c) (cc_VcpuLimit c) params
       (FilterOutInternalPreloadLibraries (cc_PreloadLibraries c)) (cc_StorageQosClass c))
    (cd_Status d) (cd_BackupConfiguration d).

Definition connection_string (organizationID : string) (b : Branch) : M string :=
  r ← ConnectionString defaultGatewayHostPort organizationID b;
  mret (match r with Ok s => s | Err _ => "" end).

Definition api_DescribeBranch (claims : option Claims) (organizationID projectID branchID : string)
    : E BranchMetadata :=
  withOrganizationAccess claims organizationID All
    (branch <-? DescribeBranch organizationID projectID branchID;
     client <-? GetCellConnection organizationID (b_CellID branch);
     cluster <-? describe_cluster client branchID;
     let cluster := public_cluster cluster in
     connString ← connection_string organizationID branch;
     it <-? wrap "converting resources to instance type"
              (pure (instance_type (b_Region branch) (cd_Configuration cluster)));
     ok (storeToAPIBranchMetadata branch connString it cluster)).

Definition api_DeleteBranch (claims : option Claims) (organizationID projectID branchID : string) : E unit :=
  withOrganizationAccess claims organizationID All
    (map_err (λ e, match grpc_code e with NotFound => ErrorBranchNotFound branchID | _ => e end)
       (provisioner_DeleteBranch organizationID projectID branchID)).

(** ** Credentials *)

Record BranchCredentials := mkBranchCredentials {
  bc_Username : string;
  bc_Password : string;
  bc_Hostname : string;
  bc_Port : Z;
  bc_Dbname : string;
  bc_ConnectionString : string
}.

Definition find_branch (organizationID projectID branchID : string) : E Branch :=
  map_err (λ e, match e with ErrBranchNotFound _ => ErrorBranchNotFound branchID | e => e end)
    (DescribeBranch organizationID projectID branchID).

(** [errors.Is] with [SecretNotFoundForIDError]: the status a cell answers with
    when the secret of a cluster is missing. *)
Definition SecretNotFoundForID (branchID : string) (c : code) (message : string) : bool :=
  bool_decide (c = NotFound) && bool_decide (message = "secret not found for ID: [" +:+ branchID +:+ "]").

Definition GetBranchCredentials (claims : option Claims) (organizationID projectID branchID : string)
    (username : option string) : E BranchCredentials :=
  withOrganizationAccess claims organizationID All
    (if match username with Some u => negb (bool_decide (u = "xata")) | None => false end
     then fail (invalid branchID "username" "only the xata user credentials can be retrieved")
     else
       branch <-? find_branch organizationID projectID branchID;
       client <-? GetCellConnection organizationID (b_CellID branch);
       r ← perform (GetPostgresClusterCredentials client (b_ID branch) "app");
       match r with
       | Err (c, m) =>
           if SecretNotFoundForID (b_ID branch) c m
           then fail (ErrorCredentialsForBranchNotFound (b_ID branch) "xata") else fail (Status c m)
       | Ok creds =>
           region <-? GetRegion organizationID (b_Region branch);
           cell <-? GetCell organizationID (b_CellID branch);
           hp <-? pure (BranchEndpoint defaultGatewayHostPort region (ce_Subdomain cell) (b_ID branch));
           ok (mkBranchCredentials (cr_Username creds) (cr_Password creds) hp.1 hp.2 branchDatabaseName
                 (FormatConnectionString (cr_Username creds) (cr_Password creds) hp.1 hp.2))
       end).

Definition RotateBranchCredentials (claims : option Claims) (organizationID projectID branchID : string)
    (body : res error string) : E unit :=
  withOrganizationAccess claims organizationID OnlyEnabled
    (username <-? ReadBody body;
     if negb (bool_decide (username = "xata"))
     then fail (invalid branchID "username" "only the xata user credentials can be rotated")
     else
       branch <-? find_branch organizationID projectID branchID;
       client <-? GetCellConnection organizationID (b_CellID branch);
       rpc (perform (RotatePostgresClusterCredentials client (b_ID branch) username))).

(** ** Limits *)

Definition GetOrganizationLimits (claims : option Claims) (organizationID : string) : E OrgLimits :=
  withOrganizationAccess claims organizationID All
    (useXatastor ← flag flag_UseXatastor; orgLimits claims organizationID "" useXatastor).

Definition GetProjectLimits (claims : option Claims) (organizationID projectID : string) : E OrgLimits :=
  withOrganizationAccess claims organizationID All
    (withProject organizationID projectID (λ _,
       useXatastor ← flag flag_UseXatastor; orgLimits claims organizationID projectID useXatastor)).

(** ** The parameters of a branch *)

Definition GetBranchPostgresConfig `{MapRange} (claims : option Claims)
    (organizationID projectID branchID : string) : E (list PostgresConfigParameter) :=
  withOrganizationAccess claims organizationID All
    (branch <-? DescribeBranch organizationID projectID branchID;
     client <-? GetCellConnection organizationID (b_CellID branch);
     cluster <-? describe_cluster client branchID;
     let c := cd_Configuration cluster in
     it <-? wrap "converting resources to instance type" (pure (instance_type (b_Region branch) c));
     let majorVersion := ExtractMajorVersionFromImage (cc_ImageName c) in
     let libs := slice (cc_PreloadLibraries c) in
     let configurable := GetConfigurableParameters imageExtensions configurableParameters majorVersion
                           (cc_ImageName c) libs in
     defaults <-? pure (config_result (λ m, Wrapped "getting instance defaults" (ErrorText m))
                          (GetParametersSpec imageExtensions configurableParameters it majorVersion
                             (cc_ImageName c) libs));
     merged <-? pure (config_result ErrorText (MergeParametersMaps configurable defaults));
     ok (postgresConfigToAPIParameters imageExtensions configurableParameters merged it (cc_Parameters c)
           (cc_ImageName c) libs)).
(** ** Restoring *)

Record RestoreBody := mkRestoreBody {
  rb_Name : string;
  rb_Description : option string;
  rb_BackupConfiguration : option BackupSettings;
  rb_ScaleToZero : option ScaleToZeroBody;
  rb_Configuration : option Configuration;
  rb_TargetTime : option Z
}.

(** The source can be restored to the target. *)
Definition checkRestoreTarget (organizationID : string) (source : Branch) (name : string)
    (target : option Z) : E unit :=
  client <-? GetCellConnection organizationID (b_CellID source);
  w ← perform (GetRecoveryWindow client (b_ID source));
  match w with
  | Err (NotFound, _) => fail (ErrorNoRecoveryPoint (b_ID source))
  | Err (c, m) => fail (Status c m)
  | Ok window =>
      times <-? pure (parseRecoveryWindow window);
      match times.1, target with
      | None, _ => fail (ErrorNoRecoveryPoint (b_ID source))
      | Some _, None => ok tt
      | Some earliest, Some t =>
          now ← perform Now;
          let upper := default now times.2 in
          if (t <? earliest) || (upper <? t)
          then fail (invalid name "targetTime"
                 ("must be between " +:+ FormatRFC3339 earliest +:+ " and " +:+ FormatRFC3339 upper
                    +:+ ", the recovery window of branch " +:+ b_ID source))
          else ok tt
      end
  end.

Definition set_source (cell parent : string) (p : Payload) : Payload :=
  mkPayload (Some parent) (py_Configuration p) (py_Description p) cell (py_Region p) (py_BackupsEnabled p)
    (py_BackupRetentionPeriod p) (py_BackupConfig p) (py_Flags p) (py_UsageTier p) (py_Limits p)
    (py_ProjectLockHeld p).

Definition set_region (region : string) (c : Configuration) : Configuration :=
  mkConfiguration (cf_Image c) region (cf_InstanceType c) (cf_Replicas c) (cf_PreloadLibraries c)
    (cf_Parameters c) (cf_Storage c).

(** The payload: the source's configuration, or one of its own in the source's
    region and cell. *)
Definition restore_payload (organizationID projectID branchID marketplace : string) (l : OrgLimits)
    (source : Branch) (body : RestoreBody) : E Payload :=
  match rb_Configuration body with
  | None =>
      disabled ← flag flag_ChildBranchCreationDisabled;
      if disabled : bool then fail ErrorChildBranchCreationDisabled
      else
        p <-? map_err apiErrorFromBranch (PayloadFromParent organizationID projectID (rb_Name body) branchID);
        _ <-? map_err (λ e, invalid (rb_Name body) "region" (error_text e))
                (ValidateMarketplaceRegion organizationID marketplace (py_Region p));
        ok p
  | Some cfg =>
      if negb (bool_decide (cf_Region cfg = "")) && negb (bool_decide (cf_Region cfg = b_Region source))
      then fail (invalid (rb_Name body) "region" "restore must be in the same region as the source branch")
      else
        p <-? map_err apiErrorFromBranch
                (PayloadFromConfiguration sources imageExtensions configurableParameters sched value_error_text
                   organizationID (rb_Name body) (set_region (b_Region source) cfg) l marketplace);
        ok (set_source (b_CellID source) branchID p)
  end.

(** The request for the cluster, and the rules of the project as it was read
    under the lock; the scale-to-zero defaults are those of [project]. *)
Definition restore_request (organizationID projectID branchID : string) (body : RestoreBody) (payload : Payload)
    (project : Project) (backup : BackupConfiguration) (key : string) (branch : Branch) : CreateRequest :=
  mkCreate (b_ID branch)
    (set_scale_to_zero (apiToClustersScaleToZero (rb_ScaleToZero body) (py_ParentID payload) (Some project))
       (py_Configuration payload))
    (default "" (b_ParentID branch)) organizationID projectID (Some backup)
    (Some (ContinuousBackup branchID (rb_TargetTime body))) false false key.

Definition restore_provision (client organizationID projectID branchID : string) (body : RestoreBody)
    (payload : Payload) (project : Project) (usePgBackRest : bool) (branch : Branch) (lockedProject : Project)
    : E unit :=
  key ← perform NewID;
  backup ← ClustersBackupConfig (rb_BackupConfiguration body) (py_BackupsEnabled payload) usePgBackRest;
  _ <-? rpc (perform (CreatePostgresCluster client
               (restore_request organizationID projectID branchID body payload project backup key branch)));
  ApplyProjectIPFiltering client (b_ID branch) lockedProject.

Definition restore_error (branchID name : string) (e : error) : error :=
  match e, grpc_code e with
  | ErrProjectBusy _, _ => e
  | _, NotFound => ErrorBranchNotFound branchID
  | _, InvalidArgument => invalid name "configuration" (error_text e)
  | _, _ => e
  end.

Definition restore (claims : option Claims) (organizationID projectID branchID : string) (l : OrgLimits)
    (body : RestoreBody) (payload : Payload) (usePgBackRest : bool) : E BranchShortMetadata :=
  withProject organizationID projectID (λ project,
    client <-? GetCellConnection organizationID (py_CellID payload);
    branch <-? map_err (restore_error branchID (rb_Name body))
      (CreateBranch maxDepth organizationID projectID (py_CellID payload)
         (mkCreateBranch (rb_Name body) (py_ParentID payload) (rb_Description body)
            (BackupRetentionDays (rb_BackupConfiguration body)) (py_BackupsEnabled payload)
            (o_UsageTier (claimed claims organizationID)) (Some (StoreLimits l)) false)
         (restore_provision client organizationID projectID branchID body payload project usePgBackRest));
    connString ← connection_string organizationID branch;
    ok (storeToAPIBranchShortMetadata branch connString)).

Definition RestoreFromBackup (claims : option Claims) (organizationID projectID branchID : string)
    (body : res error RestoreBody) : E BranchShortMetadata :=
  withOrganizationAccess claims organizationID OnlyEnabled
    (disabled ← flag flag_BranchCreationDisabled;
     if disabled : bool then fail ErrorBranchCreationDisabled
     else
       useXatastor ← flag flag_UseXatastor;
       l <-? orgLimits claims organizationID projectID useXatastor;
       body <-? ReadBody body;
       _ <-? err_unit (IsBranchDescriptionValid (rb_Description body) (ol_MaxDescriptionLength l));
       _ <-? err_unit (validateBranchRequestCommons (rb_Name body) (rb_BackupConfiguration body));
       usePgBackRest ← flag flag_UsePgBackRest;
       source <-? find_branch organizationID projectID branchID;
       payload <-? restore_payload organizationID projectID branchID
                     (o_Marketplace (claimed claims organizationID)) l source body;
       if negb (py_BackupsEnabled payload) && negb (bool_decide (rb_BackupConfiguration body = None))
       then fail (invalid (rb_Name body) "backupConfiguration" "backup configuration cannot be specified when backups are disabled in the selected region")
       else
         _ <-? checkRestoreTarget organizationID source (rb_Name body) (rb_TargetTime body);
         restore claims organizationID projectID branchID l body payload usePgBackRest).
End Branches.

(** ** GitHub installations and repositories *)

Section GitHub.
(** Whether a validator is configured, and the session token of the request. *)
Variable githubInstallationValidator : bool.
Variable sessionToken : option string.

Definition answer (p : M (option error)) : E unit := r ← p; err_unit r.

Definition validateGithubInstallationAccess (claims : option Claims) (installationID : Z) : E unit :=
  if installationID <=? 0 then fail (invalid "" "installationId" "must be greater than 0")
  else if negb githubInstallationValidator
  then fail (ErrorGithubInstallationValidationUnavailable (ErrorText "github installation validator is not configured"))
  else match claims with
       | None => fail (HTTPError 401)
       | Some _ =>
           if negb (bool_decide (APIKeyID claims = "")) then fail ErrorGithubUserSessionRequired
           else match sessionToken with
                | None => fail (HTTPError 401)
                | Some token => answer (perform (ValidateUserInstallationAccess token installationID))
                end
       end.

(** The installations of the organizations of the claims, in order and once. *)
Fixpoint collect_installations (organizations : list string) (ids : gset Z) : E (gset Z) :=
  match organizations with
  | [] => ok ids
  | organizationID :: organizations =>
      l <-? ListGithubInstallations organizationID;
      collect_installations organizations (ids ∪ list_to_set (map gi_InstallationID l))
  end.

Definition sort_ids (ids : gset Z) : list Z := merge_sort Z.le (elements ids).

Definition validateGithubRepositoryAccess (claims : option Claims) (repositoryID : Z) : E unit :=
  if negb githubInstallationValidator
  then fail (ErrorGithubRepositoryValidationUnavailable (ErrorText "github repository validator is not configured"))
  else match claims with
       | None => fail (HTTPError 401)
       | Some c =>
           ids <-? collect_installations (sort_strings (elements (dom (Organizations c)))) ∅;
           if bool_decide (ids = ∅)
           then fail (invalid "" "githubRepositoryID" "github repository is not accessible")
           else answer (perform (ValidateRepositoryAccess repositoryID (sort_ids ids)))
       end.

Definition CreateGithubAppInstallation (claims : option Claims) (organizationID : string) (body : res error Z)
    : E GithubInstallation :=
  withOrganizationAccess claims organizationID OnlyEnabled
    (installationID <-? ReadBody body;
     _ <-? validateGithubInstallationAccess claims installationID;
     CreateGithubInstallation organizationID installationID).

Definition ListGithubAppInstallations (claims : option Claims) (organizationID : string)
    : E (list GithubInstallation) :=
  withOrganizationAccess claims organizationID All (ListGithubInstallations organizationID).

Definition UpdateGithubAppInstallation (claims : option Claims) (organizationID githubInstallationID : string)
    (body : res error Z) : E GithubInstallation :=
  withOrganizationAccess claims organizationID OnlyEnabled
    (installationID <-? ReadBody body;
     _ <-? validateGithubInstallationAccess claims installationID;
     UpdateGithubInstallation organizationID githubInstallationID installationID).

(** A mapping whose root branch the key may access. *)
Definition accessible_mapping (claims : option Claims) (organizationID projectID : string) : E GithubRepoMapping :=
  mapping <-? GetGithubRepoMappingByProject organizationID projectID;
  if negb (HasAccessToBranch claims (gm_RootBranchID mapping))
  then fail (ErrGithubRepoMappingNotFound projectID organizationID 0) else ok mapping.

Definition GetGithubRepository (claims : option Claims) (organizationID projectID branchID : string)
    : E GithubRepoMapping :=
  withOrganizationAccess claims organizationID All (accessible_mapping claims organizationID projectID).

Definition check_repository (claims : option Claims) (branchID : string) (repositoryID : Z) : E unit :=
  if repositoryID <=? 0 then fail (invalid "" "githubRepositoryID" "must be greater than 0")
  else if bool_decide (TrimSpace branchID = "") then fail (invalid "" "branchID" "must not be empty")
  else validateGithubRepositoryAccess claims repositoryID.

Definition CreateGithubRepository (claims : option Claims) (organizationID projectID branchID : string)
    (body : res error Z) : E GithubRepoMapping :=
  withOrganizationAccess claims organizationID OnlyEnabled
    (repositoryID <-? ReadBody body;
     _ <-? check_repository claims branchID repositoryID;
     CreateGithubRepoMapping organizationID projectID repositoryID branchID).

Definition UpdateGithubRepository (claims : option Claims) (organizationID projectID branchID : string)
    (body : res error Z) : E GithubRepoMapping :=
  withOrganizationAccess claims organizationID OnlyEnabled
    (repositoryID <-? ReadBody body;
     _ <-? check_repository claims branchID repositoryID;
     UpdateGithubRepoMapping organizationID projectID repositoryID branchID).

Definition DeleteGithubRepository (claims : option Claims) (organizationID projectID branchID : string) : E unit :=
  withOrganizationAccess claims organizationID All
    (_ <-? accessible_mapping claims organizationID projectID;
     DeleteGithubRepoMapping organizationID projectID).
End GitHub.
