(* ===== verification/BranchUpdates.v ===== *)
(** * Updating a branch: [UpdateBranch] of [services/projects/api/handler.go]

    The request, the update of the cluster that is built from it, and the
    migration of the Postgres parameters when the instance type changes.  The
    update runs inside the store's transaction. *)

From stdpp Require Import pretty.
From S2P Require Import Prelude GoStrings GoFloat GoTime Netip IPFilterModel ProjectFilter Limits PostgresVersions Extensions BranchTypes BranchBuilder PostgresConfig ClusterStatus ProjectsModel ProjectStore BackupSchedule Scheduler BranchService AccessPolicy ProjectsApi.

#[local] Open Scope Z_scope.
#[local] Open Scope go_scope.

Record UpdateBranchBody := mkUpdateBody {
  ubb_Name : option string;
  ubb_Description : option string;
  ubb_Storage : option Z;
  ubb_InstanceType : option string;
  ubb_Replicas : option Z;
  ubb_Hibernate : option bool;
  ubb_ScaleToZero : option ScaleToZeroBody;
  ubb_Parameters : option (gmap string string);
  ubb_PreloadLibraries : option (list string);
  ubb_BackupConfiguration : option BackupSettings;
  ubb_Image : option string
}.

Definition given {A} (o : option A) : bool := match o with Some _ => true | None => false end.

Definition hasClusterConfigChanged (b : UpdateBranchBody) : bool :=
  given (ubb_Storage b) || given (ubb_InstanceType b) || given (ubb_Replicas b) || given (ubb_Hibernate b)
  || given (ubb_ScaleToZero b) || given (ubb_Parameters b) || given (ubb_PreloadLibraries b)
  || given (ubb_BackupConfiguration b) || given (ubb_Image b).

(** The instance type that is asked for; the fallback is not decoded. *)
Definition new_instance_type (b : UpdateBranchBody) : option string :=
  match ubb_InstanceType b with
  | Some it => if bool_decide (it = FallbackInstanceType) then None else Some it
  | None => None
  end.

Definition needsClusterInfo (b : UpdateBranchBody) : bool :=
  given (new_instance_type b) || given (ubb_Parameters b) || given (ubb_PreloadLibraries b)
  || given (ubb_Image b) || given (ubb_Storage b).

(** ** The migration of the parameters to another instance type *)

Section Migration.
Context `{GoRuntime}.

Definition migrated (oldSpecs newSpecs : ParametersMap) (name currentValue : string) : string :=
  match oldSpecs !! name, newSpecs !! name with
  | Some oldSpec, Some newSpec =>
      if bool_decide (currentValue = DefaultValue oldSpec) then DefaultValue newSpec
      else if negb (bool_decide (MinValue newSpec = "")) || negb (bool_decide (MaxValue newSpec = ""))
      then AdjustValueToBounds currentValue newSpec
      else currentValue
  | _, _ => currentValue
  end.

(** Every parameter that is set, and the defaults of the others. *)
Definition migrate_parameters (oldSpecs newSpecs : ParametersMap) (current : gmap string string)
    : gmap string string :=
  map_imap (λ name v, Some (migrated oldSpecs newSpecs name v)) current ∪ (DefaultValue <$> newSpecs).

(** The parameters of a cluster that moves to another instance type; [None]
    when it keeps its type. *)
Definition instance_type_parameters (imageExtensions : option ImageExtensions)
    (configurableParameters : ParametersMap) `{Quantities} (region newType : string) (c : ClusterConfiguration)
    : res error (option (gmap string string)) :=
  let resources := "(" +:+ cc_VcpuRequest c +:+ ", " +:+ cc_VcpuLimit c +:+ ", " +:+ cc_Memory c +:+ ")" in
  let specs what it :=
    config_result (λ m, Wrapped ("failed to get parameter specifications for " +:+ what +:+ " instance type " +:+ it)
                          (ErrorText m))
      (GetParametersSpec imageExtensions configurableParameters it (ExtractMajorVersionFromImage (cc_ImageName c))
         (cc_ImageName c) (slice (cc_PreloadLibraries c))) in
  oldType <~ match instance_type region c with
             | Ok it => Ok it
             | Err e => Err (Wrapped ("converting current resources " +:+ resources +:+ " to instance type") e)
             end;
  if bool_decide (oldType = newType) then Ok None
  else
    oldSpecs <~ specs "old" oldType;
    newSpecs <~ specs "new" newType;
    Ok (Some (migrate_parameters oldSpecs newSpecs (cc_Parameters c))).
End Migration.

Section Updating.
Context `{GoRuntime} `{Quantities}.
Variable sources : list Source.
Variable imageExtensions : option ImageExtensions.
Variable configurableParameters : ParametersMap.
Variable defaultGatewayHostPort : string.
Variable value_error_text : value_error → string.

(** The parameters that are asked for, if they are valid.  With an instance
    type in the same request they are validated for the fallback type. *)
Definition requested_parameters (body : UpdateBranchBody) (branchID region : string) (c : ClusterConfiguration)
    (params : gmap string string) : res error (gmap string string) :=
  it <~ match ubb_InstanceType body with
        | Some _ => Ok FallbackInstanceType
        | None => match instance_type region c with
                  | Ok it => Ok it
                  | Err e => Err (Wrapped "converting resources to instance type" e)
                  end
        end;
  errs <~ config_result (λ m, Wrapped ("invalid instance type " +:+ it) (ErrorText m))
            (ValidateSettings imageExtensions configurableParameters it params
               (ExtractMajorVersionFromImage (cc_ImageName c)) (cc_ImageName c)
               (match ubb_PreloadLibraries body with
                | Some l => Some l
                | None => slice (cc_PreloadLibraries c)
                end));
  if bool_decide (errs = ∅) then Ok params
  else Err (invalid branchID "postgres_configuration_parameters"
              ("PostgreSQL configuration validation failed: " +:+ settings_text value_error_text errs)).

(** The parameters that stay with a set of libraries, and the defaults of the
    extensions among them. *)
Definition library_parameters (libs : list string) (c : ClusterConfiguration) (current : gmap string string)
    : gmap string string :=
  let majorVersion := ExtractMajorVersionFromImage (cc_ImageName c) in
  FilterConfigurableParameters imageExtensions configurableParameters current majorVersion (cc_ImageName c) (Some libs)
  ∪ (DefaultValue <$>
       filter (λ kv, negb (bool_decide (Extension kv.2 = "")) && negb (bool_decide (DefaultValue kv.2 = "")) = true)
         (GetConfigurableParameters imageExtensions configurableParameters majorVersion (cc_ImageName c) (Some libs))).

(** A condition on what the cluster says; without a description the code would
    dereference nil. *)
Definition described {A} (cluster : option ClusterDescription) (f : ClusterConfiguration → res error A) : res error A :=
  match cluster with Some d => f (cd_Configuration d) | None => Err Panicked end.

Definition when {A B} (o : option A) (f : A → res error B) : res error (option B) :=
  match o with None => Ok None | Some a => b <~ f a; Ok (Some b) end.

(** The parameters of the update, [None] when they are left alone. *)
Definition update_parameters (body : UpdateBranchBody) (branch : Branch) (branchID : string)
    (cluster : option ClusterDescription) : res error (option (gmap string string)) :=
  migrated <~ match new_instance_type body with
              | None => Ok None
              | Some it => described cluster
                             (instance_type_parameters imageExtensions configurableParameters (b_Region branch) it)
              end;
  params <~ match ubb_Parameters body with
            | None => Ok migrated
            | Some p => described cluster (λ c, p <~ requested_parameters body branchID (b_Region branch) c p; Ok (Some p))
            end;
  match ubb_PreloadLibraries body with
  | None => Ok params
  | Some l => described cluster (λ c,
      Ok (Some (library_parameters (GetInternalPreloadLibraries ++ l) c (default (cc_Parameters c) params))))
  end.

Definition update_backup_configuration (branch : Branch) (c : BackupSettings) : res error BackupConfiguration :=
  if negb (b_BackupsEnabled branch)
  then Err (invalid (b_ID branch) "backupConfiguration" "backup configuration cannot be specified when backups are disabled in the selected region")
  else Ok (mkBackupMsg
             (match BackupTime c with
              | Some t => if bool_decide (t = "") then "" else GenerateCron t
              | None => ""
              end)
             (match RetentionPeriod c with
              | Some n => if n =? 0 then "" else pretty n +:+ "d"
              | None => ""
              end)
             true "").

Definition update_image (branch : Branch) (cluster : option ClusterDescription) (image : string) : res error string :=
  described cluster (λ c,
    match ValidateImageUpgrade sources image (cc_ImageName c) with
    | Ok url => Ok url
    | Err e => Err (invalid (b_ID branch) "image" (error_text e))
    end).

(** The new instance type's resources. *)
Definition update_resources (body : UpdateBranchBody) (branchID : string) (branch : Branch) (l : OrgLimits)
    : res error (option InstanceType) :=
  when (new_instance_type body) (λ it,
    match InstanceTypeByName (b_Region branch) it (ol_MaxAllowedInstanceType l) with
    | Ok t => Ok t
    | Err e => Err (invalid branchID "configuration" ("branch [" +:+ branchID +:+ "]: " +:+ error_text e))
    end).

Definition qos_class (it : InstanceType) : option string :=
  if bool_decide (it_StorageQoSClass it = "") then None else Some (it_StorageQoSClass it).

(** A volume does not shrink. *)
Definition check_storage (body : UpdateBranchBody) (branchID : string) (cluster : option ClusterDescription)
    : res error unit :=
  match ubb_Storage body with
  | None => Ok tt
  | Some n => described cluster (λ c,
      if n <? cc_StorageSize c
      then Err (invalid branchID "storage" ("storage size cannot be decreased (current: "
                  +:+ pretty (cc_StorageSize c) +:+ " GB)"))
      else Ok tt)
  end.

Definition check_libraries (body : UpdateBranchBody) (branchID : string) (cluster : option ClusterDescription)
    : res error unit :=
  match ubb_PreloadLibraries body with
  | None => Ok tt
  | Some l => described cluster (λ c,
      match ValidatePreloadLibraries imageExtensions (cc_ImageName c) l with
      | None => Ok tt
      | Some e => Err (config_error_of (λ m, invalid branchID "preloadLibraries" ("branch [" +:+ branchID +:+ "]: " +:+ m)) e)
      end)
  end.

(** What the description of the cluster decides. *)
Definition update_configuration (body : UpdateBranchBody) (branchID : string) (branch : Branch)
    (it : option InstanceType) (cluster : option ClusterDescription) : res error UpdateConfiguration :=
  _ <~ check_storage body branchID cluster;
  _ <~ check_libraries body branchID cluster;
  params <~ update_parameters body branch branchID cluster;
  backup <~ when (ubb_BackupConfiguration body) (update_backup_configuration branch);
  image <~ when (ubb_Image body) (update_image branch cluster);
  Ok (mkUpdate ((λ n, int32 (n + 1)) <$> ubb_Replicas body) (ubb_Storage body) image (Memory <$> it)
        (ubb_Hibernate body) (apiToClustersScaleToZero (ubb_ScaleToZero body) None None)
        (CPURequest <$> it) (CPULimit <$> it) (default ∅ params)
        (match ubb_PreloadLibraries body with Some l => GetInternalPreloadLibraries ++ l | None => [] end)
        backup (it ≫= qos_class)).

(** What runs inside the store's transaction. *)
Definition update_cluster (organizationID branchID : string) (body : UpdateBranchBody) (l : OrgLimits)
    (branch : Branch) : E unit :=
  if negb (hasClusterConfigChanged body) then ok tt
  else
    it <-? pure (update_resources body branchID branch l);
    client <-? GetCellConnection organizationID (b_CellID branch);
    cluster <-? (if needsClusterInfo body
                 then c <-? describe_cluster client branchID; ok (Some c)
                 else ok None);
    config <-? pure (update_configuration body branchID branch it cluster);
    rpc (perform (UpdatePostgresCluster client (b_ID branch) config)).

Definition update_error (branchID : string) (e : error) : error :=
  match grpc_code e with
  | NotFound => ErrorBranchNotFound branchID
  | InvalidArgument => invalid branchID "configuration" (error_text e)
  | PermissionDenied => ErrorBranchUpdateForbidden branchID
  | Aborted => ErrorBranchConflict branchID
  | _ => e
  end.

(** The checks of the request itself. *)
Definition check_update (branchID : string) (body : UpdateBranchBody) (l : OrgLimits) : option error :=
  match IsBranchDescriptionValid (ubb_Description body) (ol_MaxDescriptionLength l) with
  | Some e => Some e
  | None =>
  match ubb_Replicas body ≫= λ n, ValidateReplicaCount branchID n (ol_MinInstancesPerBranch l) (ol_MaxInstancesPerBranch l) with
  | Some e => Some (apiErrorFromBranch e)
  | None =>
  match ubb_Storage body ≫= λ n, validateStorageSize branchID n (ol_MaxStorageGBPerBranch l) with
  | Some e => Some e
  | None =>
      if given (ubb_Image body)
         && (given (ubb_Parameters body) || given (ubb_InstanceType body) || given (ubb_PreloadLibraries body))
      then Some (invalid branchID "image" "image cannot be updated together with postgres configuration parameters, instance type, or preload libraries")
      else validateBackupConfiguration branchID (ubb_BackupConfiguration body)
  end end end.

Definition api_UpdateBranch (claims : option Claims) (organizationID projectID branchID : string)
    (body : res error UpdateBranchBody) : E BranchShortMetadata :=
  withOrganizationAccess claims organizationID OnlyEnabled
    (body <-? ReadBody body;
     if negb (given (ubb_Description body)) && negb (given (ubb_Name body)) && negb (hasClusterConfigChanged body)
     then fail (invalid branchID "all" ("branch [" +:+ branchID +:+ "]: at least one of the request fields needs to be set"))
     else
       useXatastor ← flag flag_UseXatastor;
       l <-? orgLimits claims organizationID projectID useXatastor;
       _ <-? err_unit (check_update branchID body l);
       branch <-? map_err (update_error branchID)
                    (UpdateBranch organizationID projectID branchID
                       (mkUpdateBranch (ubb_Name body) (ubb_Description body))
                       (update_cluster organizationID branchID body l));
       connString ← connection_string defaultGatewayHostPort organizationID branch;
       ok (storeToAPIBranchShortMetadata branch connString)).
End Updating.
