(* ===== verification/BranchMigration.v ===== *)
(** * Changing the instance type keeps a branch's Postgres parameters valid

    The properties of [migrate_parameters] in [BranchUpdates], on the catalogue
    of parameters and the overrides of every instance type. *)

From stdpp Require Import pretty.
From S2P Require Import Prelude GoStrings GoFloat Extensions PostgresVersions PostgresConfig PostgresCatalogue BranchUpdates.

#[local] Open Scope Z_scope.

(** ** The catalogue's bounds *)

Section Catalogue.
Context `{GoRuntime}.

Definition cleanb (s : string) : bool := bool_decide (TrimSpace s = s) && negb (has_control s).
Definition boundb (ty : ParameterType) (bound : string) : bool :=
  bool_decide (bound = ""%string) || bool_decide (is_Some (denote ty bound)).

Definition bounds_ok (spec : PostgresParameterSpec) : bool :=
  cleanb (MinValue spec) && cleanb (MaxValue spec)
  && boundb (ParamType spec) (MinValue spec) && boundb (ParamType spec) (MaxValue spec)
  && match denote (ParamType spec) (MinValue spec), denote (ParamType spec) (MaxValue spec) with
     | Some x, Some y => negb (value_lt y x)
     | _, _ => true
     end.

Lemma cleanb_clean s : cleanb s = true → clean s.
Proof. intros [H1%bool_decide_eq_true H2%negb_true_iff]%andb_true_iff. done. Qed.

Lemma boundb_holds ty bound : boundb ty bound = true → bound_holds ty bound (λ _, True).
Proof.
  unfold boundb, bound_holds. intros [H1%bool_decide_eq_true|[x H1]%bool_decide_eq_true]%orb_true_iff; [by left|].
  right. by exists x.
Qed.

Lemma bounds_ok_well_formed spec : bounds_ok spec = true → well_formed_bounds spec.
Proof.
  unfold bounds_ok. rewrite !andb_true_iff. intros [[[[H1 H2] H3] H4] H5]. unfold well_formed_bounds.
  split_and!; [by apply cleanb_clean|by apply cleanb_clean|by apply boundb_holds|by apply boundb_holds|].
  intros x y Hx Hy. rewrite Hx, Hy in H5. by apply negb_true_iff in H5.
Qed.

(** The fields that overrides leave alone. *)
Definition same_kind (base spec : PostgresParameterSpec) : bool :=
  bool_decide (ParamType spec = ParamType base) && bool_decide (Values spec = Values base)
  && bool_decide (AllowEmpty spec = AllowEmpty base).

Definition spec_ok (overrides : ParametersMap) (kv : string * PostgresParameterSpec) : bool :=
  match merged_at configurableParameters overrides kv.1 with
  | Some spec => same_kind kv.2 spec && (negb (bounded_type (ParamType spec)) || bounds_ok spec)
  | None => false
  end.

Lemma all_specs_ok :
  forallb (λ o, forallb (spec_ok o.2) (map_to_list configurableParameters)) defaultParametersByInstanceType = true.
Proof. vm_compute. done. Qed.

#[local] Opaque configurableParameters defaultParametersByInstanceType.

Lemma spec_ok_at it overrides k base :
  (it, overrides) ∈ defaultParametersByInstanceType → configurableParameters !! k = Some base →
  ∃ spec, merged_at configurableParameters overrides k = Some spec ∧ same_kind base spec = true ∧
    (bounded_type (ParamType spec) = true → well_formed_bounds spec).
Proof.
  intros Hit Hb. pose proof all_specs_ok as Hall. rewrite forallb_forall in Hall.
  rewrite list_elem_of_In in Hit. specialize (Hall _ Hit). cbn [snd] in Hall.
  rewrite forallb_forall in Hall. specialize (Hall (k, base)).
  rewrite <- list_elem_of_In, elem_of_map_to_list in Hall. specialize (Hall Hb). unfold spec_ok in Hall.
  cbn [fst snd] in Hall. destruct (merged_at _ _ k) as [spec|]; [|done]. exists spec.
  apply andb_true_iff in Hall as [Hk Hw]. split_and!; [done|done|]. intros Ht. rewrite Ht in Hw.
  by apply bounds_ok_well_formed.
Qed.

(** The specification of a parameter for an instance type. *)
Lemma spec_at imageExtensions it mv image libs specs :
  GetParametersSpec imageExtensions configurableParameters it mv image libs = Ok specs →
  ∃ overrides, (it, overrides) ∈ defaultParametersByInstanceType ∧
    ∀ k, specs !! k =
      merged_at (GetConfigurableParameters imageExtensions configurableParameters mv image libs) overrides k.
Proof.
  unfold GetParametersSpec. destruct (GetDefaultPostgresConfigByInstanceType it) as [o|e] eqn:Ho; [|done].
  intros Hm. exists o. split; [by apply known_instance_type|]. intros k.
  by apply MergeParametersMaps_lookup.
Qed.

Lemma merged_at_base base overrides k : is_Some (merged_at base overrides k) ↔ is_Some (base !! k).
Proof.
  unfold merged_at. destruct (overrides !! k); [|done]. by rewrite fmap_is_Some.
Qed.
End Catalogue.

(** ** Moving a cluster between instance types *)

Section Move.
#[local] Opaque configurableParameters defaultParametersByInstanceType.
Context `{GoRuntime}.
Variable imageExtensions : option ImageExtensions.
Variable mv : Z.
Variable image : string.
Variable libs : option (list string).

Abbreviation GetParametersSpec it := (GetParametersSpec imageExtensions configurableParameters it mv image libs).
Abbreviation ValidateSettings it params := (ValidateSettings imageExtensions configurableParameters it params mv image libs).

(** Both instance types have the same parameters, of the same kinds. *)
Lemma specs_agree it1 it2 old new k o :
  GetParametersSpec it1 = Ok old → GetParametersSpec it2 = Ok new → old !! k = Some o →
  ∃ n, new !! k = Some n ∧ ParamType n = ParamType o ∧ Values n = Values o ∧ AllowEmpty n = AllowEmpty o ∧
    (bounded_type (ParamType n) = true → well_formed_bounds n) ∧
    ValidateParameterValue n (DefaultValue n) = None.
Proof.
  intros (ov1 & Hi1 & Hl1)%spec_at (ov2 & Hi2 & Hl2)%spec_at Hk. rewrite Hl1 in Hk.
  assert (is_Some (merged_at (GetConfigurableParameters imageExtensions configurableParameters mv image libs) ov2 k)) as [n Hn].
  { apply merged_at_base. apply (merged_at_base _ ov1). by rewrite Hk. }
  exists n. rewrite Hl2. split; [done|]. apply merged_at_filtered in Hk, Hn.
  assert (is_Some (configurableParameters !! k)) as [base Hb] by (apply (merged_at_base _ ov1); by rewrite Hk).
  destruct (spec_ok_at _ _ _ _ Hi1 Hb) as (o' & Ho' & Hs1 & _).
  destruct (spec_ok_at _ _ _ _ Hi2 Hb) as (n' & Hn' & Hs2 & Hw).
  rewrite Hk in Ho'. rewrite Hn in Hn'. injection Ho' as <-. injection Hn' as <-.
  unfold same_kind in *. rewrite !andb_true_iff, !bool_decide_eq_true in Hs1, Hs2.
  destruct Hs1 as [[-> ->] ->], Hs2 as [[Ht ->] ->]. split_and!; [done..|].
  by eapply default_ok_at.
Qed.

(** What is accepted is what every parameter's specification accepts. *)
Lemma settings_accepted it specs params :
  GetParametersSpec it = Ok specs →
  ValidateSettings it params = Ok ∅ ↔
  ∀ k v, params !! k = Some v → ∃ spec, specs !! k = Some spec ∧ ValidateParameterValue spec v = None.
Proof.
  intros Hs. rewrite ValidateSettings_Ok. split.
  - intros (specs' & Hs' & He) k v Hk. assert (specs' = specs) as -> by (rewrite Hs' in Hs; by injection Hs).
    apply (f_equal (.!! k)) in He. rewrite lookup_empty, map_lookup_imap, Hk in He. simpl in He.
    unfold setting_error in He. destruct (specs !! k) as [spec|]; [|done]. by exists spec.
  - intros Hall. exists specs. split; [done|]. apply map_eq. intros k.
    rewrite lookup_empty, map_lookup_imap. destruct (params !! k) as [v|] eqn:Hk; [|done]. simpl.
    destruct (Hall k v Hk) as (spec & Hspec & Hv). unfold setting_error. by rewrite Hspec.
Qed.

(** A value that is valid for the old type is valid after it is adjusted to the
    bounds of the new one. *)
Lemma adjusted_accepted o n v :
  ParamType n = ParamType o → Values n = Values o → AllowEmpty n = AllowEmpty o →
  (bounded_type (ParamType n) = true → well_formed_bounds n) →
  TrimSpace v = v → ValidateParameterValue o v = None →
  ValidateParameterValue n (AdjustValueToBounds v n) = None ∧
  (ValidateParameterValue n v = None → AdjustValueToBounds v n = v).
Proof.
  intros Ht Hvs Hae Hw Htrim (Hctl & x & Hx & Hadm)%ValidateParameterValue_iff. rewrite Htrim in Hx.
  rewrite AdjustValueToBounds_adjuster. destruct (bounded_type (ParamType n)) eqn:Hb.
  - rewrite <- Ht in Hx. destruct (adjuster_valid n v x Hb (Hw eq_refl) (conj Htrim Hctl) Hx) as [Hwt Hs].
    split; [by apply ValidateParameterValue_iff|done].
  - assert (adjuster (ParamType n) v (MinValue n) (MaxValue n) = v) as -> by by destruct (ParamType n).
    split; [|done]. apply ValidateParameterValue_iff. split; [done|]. exists x. rewrite Htrim, Ht. split; [done|].
    unfold admits in *. rewrite Hb. rewrite <- Ht, Hb in Hadm. by rewrite Hvs, Hae.
Qed.

Lemma migrated_accepted old new k v o n :
  old !! k = Some o → new !! k = Some n →
  ParamType n = ParamType o → Values n = Values o → AllowEmpty n = AllowEmpty o →
  (bounded_type (ParamType n) = true → well_formed_bounds n) →
  ValidateParameterValue n (DefaultValue n) = None →
  TrimSpace v = v → ValidateParameterValue o v = None →
  ValidateParameterValue n (migrated old new k v) = None ∧
  (v = DefaultValue o → migrated old new k v = DefaultValue n) ∧
  (v ≠ DefaultValue o → ValidateParameterValue n v = None → migrated old new k v = v).
Proof.
  intros Ho Hn Ht Hvs Hae Hw Hd Htrim Hv. unfold migrated. rewrite Ho, Hn. case_bool_decide as Heq; [done|].
  pose proof (adjusted_accepted o n v Ht Hvs Hae Hw Htrim Hv) as [Ha Hs].
  destruct (decide (MinValue n = ""%string ∧ MaxValue n = ""%string)) as [[H1 H2]|Hne].
  - rewrite H1, H2. simpl. unfold AdjustValueToBounds in Ha. rewrite H1, H2 in Ha. done.
  - replace (negb (bool_decide (MinValue n = ""%string)) || negb (bool_decide (MaxValue n = ""%string))) with true; [done|].
    destruct (decide (MinValue n = ""%string)), (decide (MaxValue n = ""%string)); repeat case_bool_decide; naive_solver.
Qed.

(** C30. When a cluster moves to another instance type, its Postgres parameters
    stay valid: if they were valid for the old type, and carry no surrounding
    space (otherwise see [Witness.untrimmed_value_is_not_adjusted]), what is
    sent to the cluster is valid for the new type.  A parameter at the old
    type's default gets the new type's default, a parameter that was not set
    gets it too, and a value of the user's that the new type accepts is kept. *)
Theorem migration_keeps_parameters_valid it1 it2 old new current :
  GetParametersSpec it1 = Ok old → GetParametersSpec it2 = Ok new →
  ValidateSettings it1 current = Ok ∅ → (∀ k v, current !! k = Some v → TrimSpace v = v) →
  ValidateSettings it2 (migrate_parameters old new current) = Ok ∅ ∧
  ∀ k n, new !! k = Some n →
    match current !! k with
    | None => migrate_parameters old new current !! k = Some (DefaultValue n)
    | Some v => ∃ o, old !! k = Some o ∧
        (v = DefaultValue o → migrate_parameters old new current !! k = Some (DefaultValue n)) ∧
        (v ≠ DefaultValue o → ValidateParameterValue n v = None →
         migrate_parameters old new current !! k = Some v)
    end.
Proof.
  intros Hold Hnew Hvalid Htrim. rewrite (settings_accepted _ _ _ Hold) in Hvalid.
  assert (∀ k, migrate_parameters old new current !! k =
    match current !! k with Some v => Some (migrated old new k v) | None => DefaultValue <$> new !! k end) as Hl.
  { intros k. unfold migrate_parameters. rewrite lookup_union, map_lookup_imap, lookup_fmap.
    destruct (current !! k); simpl; [by destruct (new !! k)|by rewrite left_id_L by apply _]. }
  assert (∀ k v, current !! k = Some v → ∃ o n, old !! k = Some o ∧ new !! k = Some n ∧
    ValidateParameterValue n (migrated old new k v) = None ∧
    (v = DefaultValue o → migrated old new k v = DefaultValue n) ∧
    (v ≠ DefaultValue o → ValidateParameterValue n v = None → migrated old new k v = v)) as Hm.
  { intros k v Hk. destruct (Hvalid k v Hk) as (o & Ho & Hv).
    destruct (specs_agree _ _ _ _ k o Hold Hnew Ho) as (n & Hn & H1 & H2 & H3 & H4 & H5).
    exists o, n. split; [done|]. split; [done|]. by eapply migrated_accepted; eauto. }
  split.
  - apply (settings_accepted _ _ _ Hnew). intros k v Hk. rewrite Hl in Hk.
    destruct (current !! k) as [w|] eqn:Hc.
    + destruct (Hm k w Hc) as (o & n & _ & Hn & Hv & _). injection Hk as <-. by exists n.
    + apply fmap_Some in Hk as (n & Hn & ->). exists n. split; [done|].
      destruct (specs_agree _ _ _ _ k n Hnew Hnew Hn) as (n' & Hn' & _ & _ & _ & _ & Hd).
      rewrite Hn in Hn'. by injection Hn' as <-.
  - intros k n Hn. rewrite Hl. destruct (current !! k) as [v|] eqn:Hc; [|by rewrite Hn].
    destruct (Hm k v Hc) as (o & n' & Ho & Hn' & _ & Hd & Hs).
    rewrite Hn in Hn'. injection Hn' as <-. exists o.
    split_and!; [done|by intros ->%Hd|by intros ? ->%Hs].
Qed.
End Move.

(** ** From the largest instance type to the smallest *)

Module Witness.
#[local] Instance amd64 : GoRuntime := {| float_out_of_range := λ _, - 2 ^ 63; unicode_ToLower := λ s, s |}.
Import PostgresCatalogue.Witness.

Definition specs (it : string) : ParametersMap :=
  match GetParametersSpec catalogue configurableParameters it 17 image libs with Ok m => m | Err _ => ∅ end.
Definition settings : gmap string string :=
  list_to_map [("max_connections", "5000"); ("shared_buffers", "32GB"); ("work_mem", "64MB")]%string.

Lemma specs_ok it :
  is_ok (GetParametersSpec catalogue configurableParameters it 17 image libs) = true →
  GetParametersSpec catalogue configurableParameters it 17 image libs = Ok (specs it).
Proof. unfold specs. by destruct (GetParametersSpec _ _ _ _ _ _). Qed.

Lemma settings_trimmed : forallb (λ kv, bool_decide (TrimSpace kv.2 = kv.2)) (map_to_list settings) = true.
Proof. vm_compute. done. Qed.

Lemma migration_keeps_parameters_valid_witness :
  ValidateSettings catalogue configurableParameters "xata.micro"
    (migrate_parameters (specs "xata.8xlarge") (specs "xata.micro") settings) 17 image libs = Ok ∅ ∧
  migrate_parameters (specs "xata.8xlarge") (specs "xata.micro") settings !! "max_connections"%string = Some "50"%string.
Proof.
  assert (∀ k v, settings !! k = Some v → TrimSpace v = v) as Ht.
  { intros k v Hk. pose proof settings_trimmed as Hall. rewrite forallb_forall in Hall.
    specialize (Hall (k, v)). rewrite <- list_elem_of_In, elem_of_map_to_list in Hall.
    by apply Hall, bool_decide_eq_true in Hk. }
  pose proof (migration_keeps_parameters_valid catalogue 17 image libs "xata.8xlarge" "xata.micro"
    (specs "xata.8xlarge") (specs "xata.micro") settings) as H.
  destruct H as [H1 _]; [apply specs_ok; vm_compute; reflexivity..|vm_compute; reflexivity|exact Ht|].
  split; [exact H1|]. vm_compute. reflexivity.
Defined.

(** A value with a space around it is valid but is not adjusted: the cluster
    gets a value its instance type does not allow. *)
Lemma untrimmed_value_is_not_adjusted :
  ValidateSettings catalogue configurableParameters "xata.8xlarge" {[ "max_connections"%string := " 4000"%string ]} 17 image libs = Ok ∅ ∧
  migrated (specs "xata.8xlarge") (specs "xata.micro") "max_connections" " 4000" = " 4000"%string ∧
  ValidateSettings catalogue configurableParameters "xata.micro" {[ "max_connections"%string := " 4000"%string ]} 17 image libs ≠ Ok ∅.
Proof.
  split_and!; [vm_compute; reflexivity..|]. intros H.
  apply (f_equal (λ r, match r with Ok errs => match errs !! "max_connections"%string with Some _ => true | None => false end | Err _ => true end)) in H.
  revert H. match goal with |- ?x = ?y → _ => assert (x = true) as -> by (vm_compute; reflexivity) end. done.
Qed.

End Witness.
