(* ===== verification/BranchRequests.v ===== *)
(** * What the requests of the API can do

    Properties of the handlers of [ProjectsApi] and [BranchUpdates]: the images
    that are listed are those that are accepted, a branch is restored only to a
    point of its recovery window, and the update that reaches a cluster was
    checked against what the cluster says. *)

From stdpp Require Import pretty.
From S2P Require Import Prelude GoStrings GoFloat GoTime Netip IPFilterModel ProjectFilter Limits PostgresVersions Extensions BranchTypes BranchBuilder PostgresConfig ClusterStatus ProjectsModel ProjectStore BackupSchedule Scheduler BranchService BranchCreation AccessPolicy ProjectsApi BranchUpdates.

#[local] Open Scope Z_scope.
#[local] Open Scope go_scope.

(** ** Images *)

(** The flags keep the values [f] for the length of a request. *)
Definition flags_are (f : string → bool) (tr : list (event resp)) : Prop :=
  ∀ name b, ev (resp := resp) (BoolValue name) b ∈ tr → b = f name.

Lemma flags_are_app f t1 t2 : flags_are f (t1 ++ t2) ↔ flags_are f t1 ∧ flags_are f t2.
Proof. unfold flags_are. setoid_rewrite elem_of_app. naive_solver. Qed.

Lemma flag_runs f name tr b : runs resp (flag name) tr b → flags_are f tr → b = f name.
Proof. intros ->%perform_runs Hf. apply Hf. by left. Qed.

Section Images.
Variable sources : list Source.
Variable f : string → bool.

(** What the flags allow. *)
Definition image_allowed (image : string) : bool :=
  (f flag_ExperimentalImages || negb (HasPrefix image "experimental:")) &&
  (f flag_AnalyticsImages || negb (HasPrefix image "analytics:")) &&
  (f flag_LegacyPgVersions || negb (bool_decide (image ∈ HiddenImageNames sources))) &&
  match HiddenMajorImages sources !! image with Some major => f (PgMajorFlag major) | None => true end.

Lemma unless_flag_runs name keep images tr l :
  runs resp (unless_flag name keep images) tr l → flags_are f tr →
  ∀ i, i ∈ l ↔ i ∈ images ∧ (f name || keep i) = true.
Proof.
  intros (t1 & t2 & b & -> & Hb & [-> ->])%runs_bind [Hf _]%flags_are_app i.
  apply (flag_runs f) in Hb as ->; [|done]. destruct (f name); simpl; [tauto|].
  rewrite !list_elem_of_In. apply List.filter_In.
Qed.

Lemma filter_majors_runs hidden images asked tr l :
  (∀ major b, asked !! major = Some b → b = f (PgMajorFlag major)) →
  runs resp (filter_majors hidden images asked) tr l → flags_are f tr →
  ∀ i, i ∈ l ↔ i ∈ images ∧ match hidden !! i with Some major => f (PgMajorFlag major) | None => true end = true.
Proof.
  revert asked tr l. induction images as [|img images IH]; intros asked tr l Hasked Hr Hf i; simpl in Hr.
  { destruct Hr as [_ ->]. rewrite !elem_of_nil. tauto. }
  destruct (hidden !! img) as [major|] eqn:Hh.
  - apply runs_bind in Hr as (t1 & t2 & b & -> & Hb & Hr). apply flags_are_app in Hf as [Hf1 Hf2].
    assert (b = f (PgMajorFlag major)) as ->.
    { destruct (asked !! major) as [b'|] eqn:Ha; [|by eapply flag_runs].
      destruct Hb as [_ ->]. by apply Hasked. }
    apply runs_bind in Hr as (t3 & t4 & rest & -> & Hrest & [-> ->]). apply flags_are_app in Hf2 as [Hf2 _].
    assert (∀ m b, <[major := f (PgMajorFlag major)]> asked !! m = Some b → b = f (PgMajorFlag m)) as Hasked'.
    { intros m b [[-> <-]|[_ ?]]%lookup_insert_Some; [done|by apply Hasked]. }
    specialize (IH _ _ _ Hasked' Hrest Hf2 i). rewrite elem_of_cons.
    destruct (f (PgMajorFlag major)) eqn:Hm; [rewrite elem_of_cons|]; rewrite IH.
    + split; [intros [->|[? ?]]|intros [[->|?] ?]]; try tauto. rewrite Hh. tauto.
    + split; [tauto|]. intros [[->|?] H2]; [|tauto]. rewrite Hh in H2. congruence.
  - apply runs_bind in Hr as (t3 & t4 & rest & -> & Hrest & [-> ->]). apply flags_are_app in Hf as [Hf _].
    specialize (IH _ _ _ Hasked Hrest Hf i). rewrite !elem_of_cons, IH.
    split; [intros [->|[? ?]]|intros [[->|?] ?]]; try tauto. rewrite Hh. tauto.
Qed.

Lemma listed_images_runs tr l :
  runs resp (listed_images sources) tr l → flags_are f tr →
  ∀ i, i ∈ l ↔ i ∈ GetAllImageNames sources ∧ image_allowed i = true.
Proof.
  intros (t1 & t2 & l1 & -> & H1 & Hr)%runs_bind [Hf1 Hf]%flags_are_app i.
  apply runs_bind in Hr as (t3 & t4 & l2 & -> & H2 & Hr). apply flags_are_app in Hf as [Hf2 Hf].
  apply runs_bind in Hr as (t5 & t6 & l3 & -> & H3 & Hr). apply flags_are_app in Hf as [Hf3 Hf].
  pose proof (unless_flag_runs _ _ _ _ _ H1 Hf1 i) as E1. pose proof (unless_flag_runs _ _ _ _ _ H2 Hf2 i) as E2.
  pose proof (unless_flag_runs _ _ _ _ _ H3 Hf3 i) as E3.
  assert (i ∈ l ↔ i ∈ l3 ∧ match HiddenMajorImages sources !! i with Some major => f (PgMajorFlag major) | None => true end = true) as E4.
  { case_bool_decide as Hm; [|eapply filter_majors_runs; [|exact Hr|exact Hf]; by intros ? ? ?%lookup_empty_Some].
    destruct Hr as [_ ->]. rewrite Hm, lookup_empty. tauto. }
  rewrite E4, E3, E2, E1. unfold image_allowed. rewrite !andb_true_iff. tauto.
Qed.

Lemma unless_enabled_runs restricted name e tr r :
  runs resp (unless_enabled restricted name e) tr r → flags_are f tr →
  r = if f name || negb restricted then Ok tt else Err e.
Proof.
  unfold unless_enabled. destruct restricted; [|intros [_ ->]; by rewrite orb_true_r].
  intros (t1 & t2 & b & -> & Hb & Hr)%runs_bind [Hf _]%flags_are_app.
  apply (flag_runs f) in Hb as ->; [|done]. rewrite orb_false_r. by destruct (f name); destruct Hr as [_ ->].
Qed.

Lemma gate_runs {A} restricted name e (k : E A) tr r :
  runs resp (_ <-? unless_enabled restricted name e; k) tr r → flags_are f tr →
  (f name || negb restricted = true ∧ ∃ tr', runs resp k tr' r ∧ flags_are f tr') ∨
  (f name || negb restricted = false ∧ r = Err e).
Proof.
  intros [(t1 & t2 & [] & -> & H & Hk)|(x & H & ->)]%runs_bind_ok Hf.
  - apply flags_are_app in Hf as [Hf1 Hf2]. apply unless_enabled_runs in H; [|done].
    left. destruct (_ || _); [|done]. split; [done|by exists t2].
  - apply unless_enabled_runs in H; [|done]. right. destruct (_ || _); [done|]. split; [done|congruence].
Qed.

(** The API lists an image exactly when it accepts it: for flags that keep
    their values, an image of the registry is in [ListImages] when creating a
    branch with it resolves it, and otherwise creating the branch fails because
    the image is not available. *)
Theorem listed_images_are_accepted image tr1 l tr2 r :
  image ∈ GetAllImageNames sources →
  runs resp (listed_images sources) tr1 l → flags_are f tr1 →
  runs resp (ValidateImage sources image) tr2 r → flags_are f tr2 →
  r = if bool_decide (image ∈ l) then resolveImage sources image else Err (not_available image).
Proof.
  intros Hin Hl Hf1 Hv Hf2. pose proof (listed_images_runs _ _ Hl Hf1 image) as Hiff.
  assert (bool_decide (image ∈ l) = image_allowed image) as ->.
  { destruct (image_allowed image); case_bool_decide; naive_solver. }
  unfold image_allowed. clear Hiff Hl.
  apply gate_runs in Hv as [(-> & t2 & Hv & Hf)|(-> & ->)]; [|done|done]. simpl.
  apply gate_runs in Hv as [(-> & t3 & Hv & Hf3)|(-> & ->)]; [|done|done]. simpl.
  destruct (HiddenMajorImages sources !! image) as [major|].
  - apply gate_runs in Hv as [(Hm & t4 & Hv & Hf4)|(Hm & ->)]; [| |done]; rewrite orb_false_r in Hm; rewrite Hm; [|by rewrite andb_false_r].
    rewrite andb_true_r. by apply gate_runs in Hv as [(-> & t5 & [_ ->] & Hf5)|(-> & ->)].
  - rewrite andb_true_r. apply runs_bind_ok in Hv as [(t4 & t5 & [] & -> & [-> _] & Hv)|(e & [_ [=]] & _)].
    by apply gate_runs in Hv as [(-> & t6 & [_ ->] & _)|(-> & ->)].
Qed.
End Images.

(** ** Locating a call *)

(** The checks of [withOrganizationAccess] call nothing. *)
Lemma access_runs {A} claims org p (fn : E A) tr r c w :
  runs resp (withOrganizationAccess claims org p fn) tr r → ev c w ∈ tr →
  runs resp fn tr r ∧ HasAccessToOrganization claims org = true ∧
  (p = OnlyEnabled → IsEnabledOrganization claims org = true).
Proof.
  unfold withOrganizationAccess. intros Hr Hin.
  destruct claims as [cl|]; [|destruct Hr as [-> _]; by apply elem_of_nil in Hin].
  destruct (HasAccessToOrganization (Some cl) org); [|destruct Hr as [-> _]; by apply elem_of_nil in Hin].
  cbn [negb] in Hr. destruct p; [by split_and!|].
  destruct (IsEnabledOrganization (Some cl) org); [by split_and!|destruct Hr as [-> _]; by apply elem_of_nil in Hin].
Qed.

(** ** Statements that read *)

Section Reading.
Context `{GoRuntime} `{Quantities}.
Variable P : call → bool.
Hypothesis HP : ∀ c, reads c = true → P c = true.

Lemma flag_reads name : only resp P (flag name).
Proof. by apply flag_only. Qed.

Lemma unless_enabled_reads restricted name e : only resp P (unless_enabled restricted name e).
Proof.
  unfold unless_enabled. destruct restricted; [|done]. apply only_bind; [apply flag_reads|]. by intros [].
Qed.

Lemma ValidateImage_reads sources image : only resp P (ValidateImage sources image).
Proof.
  unfold ValidateImage. repeat (apply only_bind_ok; [|intros []]); try apply unless_enabled_reads; [|done].
  destruct (HiddenMajorImages sources !! image); [apply unless_enabled_reads|done].
Qed.

Lemma ListCells_reads org region : only resp P (ListCells org region).
Proof. apply only_bind; [simpl; auto|done]. Qed.

Lemma allocateCell_reads sched org name region : only resp P (allocateCell sched org name region).
Proof.
  apply only_bind_ok; [apply ListCells_reads|]. intros [|c l]; [done|]. apply only_bind_ok; [|done].
  apply wrap_only. unfold Schedule, pick. destruct (_ =? 0); [done|]. apply only_bind; [simpl; auto|].
  intros r. by destruct (draw _ _ _).
Qed.

Lemma err_unit_reads e : only resp P (err_unit e).
Proof. by destruct e. Qed.

Lemma PayloadFromConfiguration_reads sources ext params sched vet org name cfg l mkt :
  only resp P (PayloadFromConfiguration sources ext params sched vet org name cfg l mkt).
Proof.
  unfold PayloadFromConfiguration. apply only_bind_ok; [apply err_unit_reads|]. intros _.
  apply only_bind_ok; [apply map_err_only, ValidateImage_reads|]. intros image.
  apply only_bind_ok; [by apply map_err_only, GetRegion_only|]. intros region.
  apply only_bind_ok; [apply map_err_only, err_unit_reads|]. intros _.
  apply only_bind_ok; [apply allocateCell_reads|]. intros cell.
  apply only_bind_ok; [by apply map_err_only|]. intros it.
  by do 2 (apply only_bind_ok; [done|]; intros ?).
Qed.

Lemma PayloadFromParent_reads org prj name parent : only resp P (PayloadFromParent org prj name parent).
Proof.
  unfold PayloadFromParent. case_bool_decide; [done|].
  by apply only_bind_ok; [apply map_err_only, DescribeBranch_only|].
Qed.

Lemma orgLimits_reads claims org prj x : only resp P (orgLimits claims org prj x).
Proof. apply limits_only. intros c. by apply HP. Qed.

Lemma find_branch_reads org prj id : only resp P (find_branch org prj id).
Proof. by apply map_err_only, DescribeBranch_only. Qed.

Lemma ConnectionString_reads hp org b : only resp P (ConnectionString hp org b).
Proof.
  apply only_bind_ok; [by apply GetCellConnection_only|]. intros client.
  apply only_bind_ok; [by apply GetRegion_only|]. intros region.
  apply only_bind_ok; [by apply GetCell_only|]. intros cell.
  apply only_bind_ok; [apply rpc_only; simpl; auto|]. intros creds. by apply only_bind_ok.
Qed.

Lemma connection_string_reads hp org b : only resp P (connection_string hp org b).
Proof. apply only_bind; [apply ConnectionString_reads|done]. Qed.
End Reading.

(** ** Restoring *)

#[local] Instance DataSource_eq_dec : EqDecision DataSource.
Proof. solve_decision. Defined.

(** The only cluster that is created restores the branch [id] to [target]. *)
Definition restores (id : string) (target : option Z) (c : call) : bool :=
  match c with
  | CreatePostgresCluster _ req => bool_decide (cr_DataSource req = Some (ContinuousBackup id target))
  | _ => true
  end.

Lemma reads_restores id target c : reads c = true → restores id target c = true.
Proof. by destruct c. Qed.

Lemma CreateBranch_only P maxDepth org prj cell config prov :
  (∀ c, reads c = true → P c = true) → P Commit = true → (∀ b p, only resp P (prov b p)) →
  only resp P (CreateBranch maxDepth org prj cell config prov).
Proof.
  intros HP Hc Hprov. unfold CreateBranch. destruct (cb_Limits config) as [l|]; [|done].
  apply only_bind_ok; [apply limits_only; intros c; by apply HP|]. intros _. apply in_tx_only; [by apply HP..|].
  apply only_bind_ok; [by apply insert_branch_only|]. intros bp.
  apply only_bind_ok; [apply Hprov|]. intros _. apply only_bind_ok; [by apply attempt_only_if|done].
Qed.

Lemma ClustersBackupConfig_only P c enabled pg :
  (∀ x, reads x = true → P x = true) → only resp P (ClustersBackupConfig c enabled pg).
Proof.
  intros HP. assert (∀ n, P (CryptoRandInt n) = true) as Hr by (intros; by apply HP).
  unfold ClustersBackupConfig. repeat first [done | apply only_bind | progress simpl | intros ?
    | match goal with |- only _ _ match ?x with _ => _ end => destruct x end | case_bool_decide | split].
Qed.

Section Restore.
Context `{GoRuntime} `{Quantities}.
Variable sources : list Source.
Variable imageExtensions : option ImageExtensions.
Variable configurableParameters : ParametersMap.
Variable sched : Scheduler.
Variable defaultGatewayHostPort : string.
Variable maxDepth : Z.
Variable value_error_text : value_error → string.

Abbreviation RestoreFromBackup := (RestoreFromBackup sources imageExtensions configurableParameters sched
  defaultGatewayHostPort maxDepth value_error_text).
Abbreviation restore_payload := (restore_payload sources imageExtensions configurableParameters sched value_error_text).
Abbreviation restore := (restore defaultGatewayHostPort maxDepth).

Lemma restore_payload_reads P org prj id mkt l source body :
  (∀ c, reads c = true → P c = true) → only resp P (restore_payload org prj id mkt l source body).
Proof.
  intros HP. unfold ProjectsApi.restore_payload. destruct (rb_Configuration body) as [cfg|].
  - destruct (_ && _); [done|]. by apply only_bind_ok; [apply map_err_only, PayloadFromConfiguration_reads|].
  - apply only_bind; [by apply flag_reads|]. intros []; [done|].
    apply only_bind_ok; [by apply map_err_only, PayloadFromParent_reads|]. intros p.
    apply only_bind_ok; [|done]. apply map_err_only. unfold ValidateMarketplaceRegion. case_bool_decide; [done|].
    apply only_bind_ok; [by apply GetRegion_only|]. intros region. by apply err_unit_reads.
Qed.

Lemma checkRestoreTarget_reads P org source name target :
  (∀ c, reads c = true → P c = true) → only resp P (checkRestoreTarget org source name target).
Proof.
  intros HP. apply only_bind_ok; [by apply GetCellConnection_only|]. intros client.
  apply only_bind; [by apply only_perform, HP|]. intros [w|[[] m]]; try done. apply only_bind_ok; [done|]. intros times.
  destruct times.1; [|done]. destruct target; [|done]. apply only_bind; [by apply only_perform, HP|]. intros now.
  cbv zeta. match goal with |- only _ _ (if ?b then _ else _) => by destruct b end.
Qed.

Lemma restore_only claims org prj id l body payload pg :
  only resp (restores id (rb_TargetTime body)) (restore claims org prj id l body payload pg).
Proof.
  pose proof (reads_restores id (rb_TargetTime body)) as HP.
  apply only_bind_ok; [by apply GetProject_only|]. intros project.
  apply only_bind_ok; [by apply GetCellConnection_only|]. intros client.
  apply only_bind_ok; [|intros b; apply only_bind; [by apply connection_string_reads|done]].
  apply map_err_only, CreateBranch_only; [done..|]. intros b p.
  apply only_bind; [done|]. intros key. apply only_bind; [by apply ClustersBackupConfig_only|]. intros backup.
  apply only_bind_ok; [apply rpc_only, only_perform; simpl; by apply bool_decide_eq_true|]. intros _.
  unfold ApplyProjectIPFiltering. destruct (_ && _); [done|]. by apply wrap_only, rpc_only.
Qed.

(** A target the check lets through: within the window of the source, which its
    cell answers. *)
Definition in_window (org : string) (source : Branch) (target : option Z) (tr : list (event resp)) : Prop :=
  ∃ client window earliest latest t1 t2, tr = t1 ++ ev (GetRecoveryWindow client (b_ID source)) (Ok window) :: t2 ∧
    connected org (b_CellID source) client t1 ∧ parseRecoveryWindow window = Ok (Some earliest, latest) ∧
    ∀ t, target = Some t → ∃ upper, earliest ≤ t ≤ upper ∧
      match latest with Some last => upper = last | None => ev Now upper ∈ t2 end.

Lemma checkRestoreTarget_ok org source name target tr u :
  runs resp (checkRestoreTarget org source name target) tr (Ok u) → in_window org source target tr.
Proof.
  intros [(t1 & t2 & client & -> & Hc%GetCellConnection_ok & Hk)|(e & _ & [=])]%runs_bind_ok.
  destruct Hk as (w & t3 & -> & Hk). destruct w as [window|[[] m]]; try by destruct Hk as [_ [=]].
  apply runs_bind_ok in Hk as [(t4 & t5 & [earliest latest] & -> & [-> Hw]%pure_ok & Hk)|(e & _ & [=])].
  simpl in Hk. destruct earliest as [earliest|]; [|by destruct Hk as [_ [=]]].
  exists client, window, earliest, latest, t1, ([] ++ t5). split_and!; [done|done|done|].
  intros t ->. destruct Hk as (now & t6 & -> & Hk). simpl in Hk.
  destruct ((t <? earliest) || _) eqn:Hb; [by destruct Hk as [_ [=]]|]. apply orb_false_iff in Hb as [H1 H2].
  exists (default now latest). destruct latest; simpl in *; [split; [lia|done]|]. split; [lia|by left].
Qed.

(** C22. A branch is restored only to a point of its source's recovery window:
    a cluster is created only by an organization that is enabled and may be
    accessed, from the backup of the very source that was found, after its cell
    reported a window with an earliest point, to a target (if there is one) from
    that point to the latest one, or to the current time where no latest point
    is known. *)
Theorem restore_stays_in_window claims org prj id body tr r client req w :
  runs resp (RestoreFromBackup claims org prj id (Ok body)) tr r →
  ev (CreatePostgresCluster client req) w ∈ tr →
  HasAccessToOrganization claims org = true ∧ IsEnabledOrganization claims org = true ∧
  cr_DataSource req = Some (ContinuousBackup id (rb_TargetTime body)) ∧
  ∃ source t1 t2 t3, tr = t1 ++ t2 ++ t3 ∧ ev (SelectBranch prj id) (Ok source) ∈ t1 ∧
    in_window org source (rb_TargetTime body) t2 ∧ ev (CreatePostgresCluster client req) w ∈ t3.
Proof.
  intros Hr Hin. pose proof (access_runs _ _ _ _ _ _ _ _ Hr Hin) as (Hfn & Ha & He). clear Hr.
  split; [done|]. split; [by apply He|].
  set (P := λ c, match c with CreatePostgresCluster _ _ => false | _ => true end).
  assert (∀ c, reads c = true → P c = true) as HP by by intros [].
  eapply in_later_bind with (P := P) in Hfn as (u1 & u2 & dis & -> & _ & Hfn & Hin'); [|eassumption|done|done].
  destruct dis; [destruct Hfn as [-> _]; by apply elem_of_nil in Hin'|].
  eapply in_later_bind with (P := P) in Hfn as (u3 & u4 & x & -> & _ & Hfn & H4); [|eassumption|done|done].
  eapply in_later with (P := P) in Hfn as (u5 & u6 & l & -> & _ & Hfn & H6); [|eassumption|by apply orgLimits_reads|done].
  eapply in_later with (P := P) in Hfn as (u7 & u8 & b & -> & [-> [= ->]] & Hfn & H8); [|eassumption|done|done].
  eapply in_later with (P := P) in Hfn as (u9 & u10 & [] & -> & _ & Hfn & H10); [|eassumption|by apply err_unit_reads|done].
  eapply in_later with (P := P) in Hfn as (u11 & u12 & [] & -> & _ & Hfn & H12); [|eassumption|by apply err_unit_reads|done].
  eapply in_later_bind with (P := P) in Hfn as (u13 & u14 & pg & -> & _ & Hfn & H14); [|eassumption|done|done].
  eapply in_later with (P := P) in Hfn as (u15 & u16 & source & -> & Hs & Hfn & H16); [|eassumption|by apply find_branch_reads|done].
  eapply in_later with (P := P) in Hfn as (u17 & u18 & p & -> & _ & Hfn & H18); [|eassumption|by apply restore_payload_reads|done].
  destruct (_ && _); [destruct Hfn as [-> _]; by apply elem_of_nil in H18|].
  eapply in_later with (P := P) in Hfn as (u19 & u20 & [] & -> & Hc & Hfn & H20); [|eassumption|by apply checkRestoreTarget_reads|done].
  split.
  { pose proof (only_runs _ _ _ _ _ _ (restore_only _ _ _ _ _ _ _ _) Hfn H20) as Hd. by apply bool_decide_eq_true in Hd. }
  apply map_err_ok, in_tx_runs in Hs as [(e & _ & [=])|(tb & -> & Hs)].
  apply runs_bind_ok in Hs as [(v1 & v2 & pr & -> & _ & Hs)|(e & _ & [=])].
  apply on_no_rows_ok, perform_runs in Hs as ->. apply checkRestoreTarget_ok in Hc.
  exists source, (u1 ++ u3 ++ u5 ++ [] ++ u9 ++ u11 ++ u13 ++ (ev (resp := resp) BeginTx None :: (v1 ++ [ev (SelectBranch prj id) (Ok source)]) ++ [ev (resp := resp) Rollback tt]) ++ u17), u19, u20.
  split_and!; [by rewrite <-!app_assoc|rewrite !elem_of_app, elem_of_cons, !elem_of_app, list_elem_of_singleton; tauto|done|done].
Qed.
End Restore.

(** ** Updating *)

Section Update.
Context `{GoRuntime} `{Quantities}.
Variable sources : list Source.
Variable imageExtensions : option ImageExtensions.
Variable configurableParameters : ParametersMap.
Variable defaultGatewayHostPort : string.
Variable value_error_text : value_error → string.

Abbreviation update_cluster := (update_cluster sources imageExtensions configurableParameters value_error_text).
Abbreviation update_configuration := (update_configuration sources imageExtensions configurableParameters value_error_text).
Abbreviation api_UpdateBranch := (api_UpdateBranch sources imageExtensions configurableParameters
  defaultGatewayHostPort value_error_text).

(** An image upgrade keeps the offering and the major version and does not go
    back to an older minor version. *)
Definition upgrades (from to : string) : Prop :=
  ∃ current new, parse_image from = Ok current ∧ parse_image to = Ok new ∧
    Offering new = Offering current ∧ Major new = Major current ∧ Minor current ≤ Minor new.

Lemma ValidateImageUpgrade_ok image current url :
  ValidateImageUpgrade sources image current = Ok url → resolveImage sources image = Ok url ∧ upgrades current url.
Proof.
  unfold ValidateImageUpgrade. intros (u & Hu & H1)%bind_ok. apply bind_ok in H1 as (new & Hn & H1).
  apply bind_ok in H1 as (cur & Hc & H1). case_bool_decide as Ho; [|done]. simpl in H1.
  destruct (Major new =? Major cur) eqn:Hmj; [|done]. simpl in H1. destruct (_ <? _) eqn:Hmn; [done|].
  injection H1 as <-. split; [done|]. exists cur, new. split_and!; [done..|lia|lia].
Qed.

Lemma described_ok {A} cluster (f : ClusterConfiguration → res error A) a :
  described cluster f = Ok a → ∃ d, cluster = Some d ∧ f (cd_Configuration d) = Ok a.
Proof. destruct cluster as [d|]; [by exists d|done]. Qed.

Lemma when_ok {A B} (o : option A) (f : A → res error B) b :
  when o f = Ok b → match o, b with None, None => True | Some a, Some b => f a = Ok b | _, _ => False end.
Proof. destruct o as [a|]; [|by intros [= <-]]. intros (x & Hx & [= <-])%bind_ok. done. Qed.

(** What a request that passes the checks leaves for the cluster. *)
Lemma update_configuration_ok body id branch it cluster u :
  update_configuration body id branch it cluster = Ok u →
  u_NumInstances u = (λ n, int32 (n + 1)) <$> ubb_Replicas body ∧ u_StorageSize u = ubb_Storage body ∧
  u_Memory u = Memory <$> it ∧ (ubb_PreloadLibraries body = None → u_PreloadLibraries u = []) ∧
  (∀ n, ubb_Storage body = Some n → ∃ d, cluster = Some d ∧ cc_StorageSize (cd_Configuration d) ≤ n) ∧
  (∀ url, u_ImageName u = Some url → ∃ image d, ubb_Image body = Some image ∧ cluster = Some d ∧
     upgrades (cc_ImageName (cd_Configuration d)) url) ∧
  (ubb_Parameters body = None → ubb_PreloadLibraries body = None → new_instance_type body = None →
   u_Parameters u = ∅).
Proof.
  intros ([] & Hst & Hk)%bind_ok. apply bind_ok in Hk as ([] & _ & Hk).
  apply bind_ok in Hk as (params & Hp & Hk). apply bind_ok in Hk as (backup & _ & Hk).
  apply bind_ok in Hk as (image & Hi & [= <-]). simpl. split_and!; [done..| | | |].
  - by intros ->.
  - intros n Hn. unfold check_storage in Hst. rewrite Hn in Hst. apply described_ok in Hst as (d & -> & Hd).
    exists d. split; [done|]. destruct (_ <? _) eqn:Hlt; [done|]. lia.
  - intros url Hu. apply when_ok in Hi. rewrite Hu in Hi. destruct (ubb_Image body) as [img|]; [|done].
    apply described_ok in Hi as (d & -> & Hd). exists img, d.
    destruct (ValidateImageUpgrade _ _ _) as [v|] eqn:Hv; [|done]. injection Hd as ->.
    by apply ValidateImageUpgrade_ok in Hv as [_ ?].
  - intros H1 H2 H3. unfold update_parameters in Hp. rewrite H1, H2, H3 in Hp. by injection Hp as <-.
Qed.

Lemma describe_cluster_ok client id tr d :
  runs resp (describe_cluster client id) tr (Ok d) → tr = [ev (DescribePostgresCluster client id) (Ok d)].
Proof.
  intros (w & t & -> & Hk). destruct w as [d'|[[] m]]; simpl in Hk; try by destruct Hk as [_ [=]].
  by destruct Hk as [-> [= ->]].
Qed.

(** No call to a cell changes it. *)
Definition no_update (c : call) : bool := match c with UpdatePostgresCluster _ _ _ => false | _ => true end.

Lemma reads_no_update c : reads c = true → no_update c = true.
Proof. by destruct c. Qed.

Lemma update_cluster_runs org id body l branch tr r client bid u w :
  runs resp (update_cluster org id body l branch) tr r → ev (UpdatePostgresCluster client bid u) w ∈ tr →
  bid = b_ID branch ∧ (match w with Ok _ => r = Ok tt | Err (c, m) => r = Err (Status c m) end) ∧
  ∃ it cluster, (∀ it', it = Some it' → new_instance_type body ≠ None) ∧
    (∀ d, cluster = Some d → ev (DescribePostgresCluster client id) (Ok d) ∈ tr) ∧
    update_configuration body id branch it cluster = Ok u.
Proof.
  unfold BranchUpdates.update_cluster. destruct (hasClusterConfigChanged body); [|intros [-> _]; by intros ?%elem_of_nil].
  simpl. intros Hr Hin.
  eapply in_later with (P := no_update) in Hr as (t1 & t2 & it & -> & [-> Hit]%pure_ok & Hr & H2); [|eassumption|done|done].
  eapply in_later with (P := no_update) in Hr as (t3 & t4 & cl & -> & _ & Hr & H4);
    [|eassumption|by apply GetCellConnection_only, reads_no_update|done].
  assert (only resp no_update (if needsClusterInfo body then c <-? describe_cluster cl id; ok (Some c) else ok None)) as Ho.
  { destruct (needsClusterInfo body); [|done]. apply only_bind_ok; [|done]. apply only_bind; [done|]. by intros [d|[[] m]]. }
  eapply in_later with (P := no_update) in Hr as (t5 & t6 & cluster & -> & Hc & Hr & H6); [|eassumption|exact Ho|done].
  eapply in_later with (P := no_update) in Hr as (t7 & t8 & cfg & -> & [-> Hcfg]%pure_ok & Hr & H8); [|eassumption|done|done].
  apply runs_bind in Hr as (t9 & t10 & w' & -> & ->%perform_runs & Hr).
  assert (t10 = [] ∧ r = match w' with Ok a => Ok a | Err (c, m) => Err (Status c m) end) as [-> ->].
  { by destruct w' as [a|[c m]]; destruct Hr as [-> ->]. }
  rewrite app_nil_r in H8. apply list_elem_of_singleton in H8.
  assert (client = cl ∧ bid = b_ID branch ∧ u = cfg ∧ w = w') as (-> & -> & -> & ->).
  { apply (f_equal (λ e : event resp, match e with ev (UpdatePostgresCluster c b u) w => Some (c, b, u, w : grpc unit) | _ => None end)) in H8.
    by injection H8. }
  split; [done|]. split; [destruct w' as [[]|[c m]]; done|]. exists it, cluster. split; [|split; [|done]].
  - intros it' -> Hn. unfold update_resources in Hit. rewrite Hn in Hit. done.
  - intros d ->. destruct (needsClusterInfo body); [|by destruct Hc as [_ [=]]].
    apply runs_bind_ok in Hc as [(v1 & v2 & d' & -> & ->%describe_cluster_ok & [-> [= ->]])|(e & _ & [=])].
    rewrite !elem_of_app, list_elem_of_singleton. tauto.
Qed.

Lemma in_earlier {A B} P (p : E A) (k : A → E B) tr b c w :
  runs resp (pbind_ok p k) tr b → ev c w ∈ tr → (∀ a, only resp P (k a)) → P c = false →
  ∃ t1 t2 r, tr = t1 ++ t2 ∧ runs resp p t1 r ∧ ev c w ∈ t1 ∧
    match r with Ok a => runs resp (k a) t2 b | Err _ => t2 = [] end.
Proof.
  intros [(t1 & t2 & a & -> & Hp & Hk)|(e & Hp & ->)]%runs_bind_ok Hin Ho Hc.
  - exists t1, t2, (Ok a). split_and!; [done|done| |done]. apply elem_of_app in Hin as [Hin|Hin]; [done|].
    pose proof (only_runs _ _ _ _ _ _ (Ho a) Hk Hin). congruence.
  - exists tr, [], (Err e). by rewrite app_nil_r.
Qed.

(** The update of the cluster inside the store's transaction, which is committed
    after it succeeded. *)
Lemma store_UpdateBranch_runs org prj id cfg upd tr r client bid u w :
  (∀ b, only resp no_commit (upd b)) →
  runs resp (UpdateBranch org prj id cfg upd) tr r → ev (UpdatePostgresCluster client bid u) w ∈ tr →
  ∃ branch t1 t2 t3 r', tr = t1 ++ t2 ++ t3 ∧ runs resp (upd branch) t2 r' ∧
    ev (UpdatePostgresCluster client bid u) w ∈ t2 ∧ (committed tr = true → ∃ a, r' = Ok a).
Proof.
  intros Hupd Hr Hin. apply in_tx_runs in Hr as [(e & -> & _)|(tb & -> & Hb)].
  { by apply list_elem_of_singleton in Hin. }
  rewrite elem_of_cons, elem_of_app, list_elem_of_singleton in Hin. destruct Hin as [[=]|[Hin|[=]]].
  assert (∀ c, reads c = true → no_update c && no_commit c = true) as HP by by intros [].
  set (P := λ c, no_update c && no_commit c) in HP.
  eapply in_later with (P := P) in Hb as (v1 & v2 & p & -> & Hv1 & Hb & H2); [|eassumption|by apply getProject_only|done].
  eapply in_later with (P := P) in Hb as (v3 & v4 & b & -> & Hv3 & Hb & H4); [|eassumption|by apply describeBranch_only|done].
  match type of Hb with runs _ (pbind_ok ?q _) _ _ => assert (only resp P q) as Hq end.
  { destruct (_ || _); [|by apply on_no_rows_only].
    destruct (ub_Name cfg); [apply on_violation_only|]; by apply on_no_rows_only. }
  eapply in_later with (P := P) in Hb as (v5 & v6 & row & -> & Hv5 & Hb & H6); [|eassumption|exact Hq|done].
  eapply in_later with (P := P) in Hb as (v7 & v8 & [[reg pub] bk] & -> & Hv7 & Hb & H8); [|eassumption|by apply run_only|done].
  cbv beta iota zeta in Hb.
  eapply in_earlier with (P := no_update) in Hb as (t2 & t3 & r' & -> & Hu & H9 & Herr); [|eassumption| |done].
  2: { intros _. apply only_bind_ok; [by apply attempt_only_if|done]. }
  exists (branch_of row reg false bk), (ev (resp := resp) BeginTx None :: v1 ++ v3 ++ v5 ++ v7), t2, (t3 ++ [ev (resp := resp) Rollback tt]), r'.
  split_and!; [cbn [app]; by rewrite <-!app_assoc|done|done|].
  destruct r' as [a|e]; [by exists a|]. rewrite Herr, app_nil_r.
  assert (∀ A (q : prog resp A) t a, only resp P q → runs resp q t a → committed t = false) as Hnc.
  { intros A q t a Ho. apply no_commit_runs. eapply only_mono; [|exact Ho]. by intros c [_ ?]%andb_true_iff. }
  cbn [committed existsb commits orb]. fold (committed ((v1 ++ v3 ++ v5 ++ v7 ++ t2) ++ [ev (resp := resp) Rollback tt])).
  rewrite !committed_app, (no_commit_runs _ _ _ (Hupd _) Hu).
  rewrite (Hnc _ _ _ _ (getProject_only P HP _ _) Hv1), (Hnc _ _ _ _ (describeBranch_only P HP _ _) Hv3), (Hnc _ _ _ _ Hq Hv5).
  assert (only resp P (run (perform (SelectCellRegion (bw_CellID row))))) as H7 by by apply run_only.
  by rewrite (Hnc _ _ _ _ H7 Hv7).
Qed.

Lemma update_cluster_only org id body l b : only resp no_commit (update_cluster org id body l b).
Proof.
  unfold BranchUpdates.update_cluster. destruct (negb _); [done|].
  apply only_bind_ok; [done|]. intros it. apply only_bind_ok; [by apply GetCellConnection_only, reads_no_commit|]. intros client.
  apply only_bind_ok; [|intros cl; apply only_bind_ok; [done|]; intros cfg; by apply rpc_only].
  destruct (needsClusterInfo body); [|done]. apply only_bind_ok; [|done]. apply only_bind; [done|]. by intros [d|[[] m]].
Qed.

(** The checks of the request itself. *)
Lemma check_update_ok id body l :
  check_update id body l = None →
  (∀ n, ubb_Replicas body = Some n →
     ValidateReplicaCount id n (ol_MinInstancesPerBranch l) (ol_MaxInstancesPerBranch l) = None) ∧
  (∀ n, ubb_Storage body = Some n → ValidateStorage id n (ol_MaxStorageGBPerBranch l) = None) ∧
  (is_Some (ubb_Image body) →
     ubb_Parameters body = None ∧ ubb_InstanceType body = None ∧ ubb_PreloadLibraries body = None).
Proof.
  unfold check_update. destruct (IsBranchDescriptionValid _ _); [done|].
  destruct (ubb_Replicas body ≫= _) eqn:Hr; [done|]. destruct (ubb_Storage body ≫= _) eqn:Hs; [done|].
  destruct (given (ubb_Image body) && _) eqn:Hi; [done|]. intros _. split_and!.
  - intros n Hn. by rewrite Hn in Hr.
  - intros n Hn. rewrite Hn in Hs. simpl in Hs. unfold validateStorageSize in Hs. by destruct (ValidateStorage _ _ _).
  - intros [image Himg]. rewrite Himg in Hi. simpl in Hi.
    by destruct (ubb_Parameters body), (ubb_InstanceType body), (ubb_PreloadLibraries body).
Qed.

(** C27. The update a cluster receives was checked.  It comes from an enabled
    organization; the storage it asks for is not below what the cluster reported
    to this request; storage and number of instances are within the
    organization's limits as this request read them, before the update (for
    limits that are 32-bit numbers in order and a number of replicas that is
    one); an image it sets keeps the offering and the major version of the
    cluster's image, is not an older minor, and comes without parameters,
    resources and libraries.  The branch's row is committed only if the cell
    accepted the update. *)
Theorem update_is_checked claims org prj id body tr r client bid u w :
  runs resp (api_UpdateBranch claims org prj id (Ok body)) tr r →
  ev (UpdatePostgresCluster client bid u) w ∈ tr →
  IsEnabledOrganization claims org = true ∧ (committed tr = true → w = Ok tt) ∧
  (∀ n, u_StorageSize u = Some n → ∃ d, ev (DescribePostgresCluster client id) (Ok d) ∈ tr ∧
     cc_StorageSize (cd_Configuration d) ≤ n) ∧
  (∀ url, u_ImageName u = Some url →
     (∃ d, ev (DescribePostgresCluster client id) (Ok d) ∈ tr ∧ upgrades (cc_ImageName (cd_Configuration d)) url) ∧
     u_Parameters u = ∅ ∧ u_Memory u = None ∧ u_PreloadLibraries u = []) ∧
  ∃ xatastor read later l, tr = ev (BoolValue flag_UseXatastor) xatastor :: read ++ later ∧
    runs resp (orgLimits claims org prj xatastor) read (Ok l) ∧ ev (UpdatePostgresCluster client bid u) w ∈ later ∧
    (limits_fit l → (∀ n, ubb_Replicas body = Some n → - 2 ^ 31 ≤ n < 2 ^ 31) →
     (∀ n, u_NumInstances u = Some n → ol_MinInstancesPerBranch l ≤ n ≤ ol_MaxInstancesPerBranch l) ∧
     (∀ n, u_StorageSize u = Some n → 1 ≤ n ∧ (0 < ol_MaxStorageGBPerBranch l → n ≤ ol_MaxStorageGBPerBranch l))).
Proof.
  intros Hr Hin. pose proof (access_runs _ _ _ _ _ _ _ _ Hr Hin) as (Hfn & _ & He). clear Hr.
  split; [by apply He|]. pose proof reads_no_update as HP.
  eapply in_later with (P := no_update) in Hfn as (t1 & t2 & b & -> & [-> [= ->]] & Hfn & H2); [|eassumption|done|done].
  destruct (_ && _); [destruct Hfn as [-> _]; by apply elem_of_nil in H2|].
  eapply in_later_bind with (P := no_update) in Hfn as (t3 & t4 & x & -> & Hx & Hfn & H4); [|eassumption|done|done].
  eapply in_later with (P := no_update) in Hfn as (t5 & t6 & l & -> & Hl & Hfn & H6); [|eassumption|by apply orgLimits_reads|done].
  eapply in_later with (P := no_update) in Hfn as (t7 & t8 & [] & -> & Hc & Hfn & H8); [|eassumption|by apply err_unit_reads|done].
  apply err_unit_ok in Hc as [Hc ->]. apply check_update_ok in Hc as (Hrep & Hsto & Himg).
  eapply in_earlier with (P := no_update) in Hfn as (t9 & t10 & r' & -> & Hu & H9 & Herr); [|eassumption| |done].
  2: { intros b. apply only_bind; [by apply connection_string_reads|done]. }
  apply map_err_runs in Hu as (r9 & Hu & Hr9).
  eapply store_UpdateBranch_runs in Hu as (branch & ta & tb & tc & rb & -> & Hub & Hinb & Hcom);
    [|intros; apply update_cluster_only|exact H9].
  apply (update_cluster_runs _ _ _ _ _ _ _ _ _ _ _ Hub) in Hinb as (-> & Hw & it & cluster & Hit & Hd & Hcfg).
  apply update_configuration_ok in Hcfg as (Hni & Hss & Hmem & Hlib & Hst & Himage & Hpar).
  assert (∀ d, cluster = Some d → ev (DescribePostgresCluster client id) (Ok d) ∈ [] ++ t3 ++ t5 ++ [] ++ (ta ++ tb ++ tc) ++ t10) as Hd'.
  { intros d Hd0. rewrite !elem_of_app. pose proof (Hd d Hd0). tauto. }
  split; [|split; [|split]].
  - cbn [app]. rewrite !committed_app. rewrite (no_commit_runs _ _ _ (flag_reads _ reads_no_commit _) Hx).
    rewrite (no_commit_runs _ _ _ (orgLimits_reads _ reads_no_commit _ _ _ _) Hl). simpl.
    assert (committed t10 = false) as ->.
    { destruct r' as [b|e]; [|by rewrite Herr]. eapply no_commit_runs; [|exact Herr].
      apply only_bind; [by apply connection_string_reads, reads_no_commit|done]. }
    rewrite orb_false_r, <-!committed_app. intros [[] ->]%Hcom. by destruct w as [[]|[c m]].
  - intros n Hn. rewrite Hss in Hn. destruct (Hst n Hn) as (d & Hc & Hle). exists d. by split; [apply Hd'|].
  - intros url Hurl. destruct (Himage url Hurl) as (image & d & Hi & Hc & Hup).
    destruct (Himg (ex_intro _ _ Hi)) as (H1 & H5 & H7). split; [exists d; by split; [apply Hd'|]|].
    assert (new_instance_type body = None) as Hnt by (unfold new_instance_type; by rewrite H5).
    split_and!; [by apply Hpar| |by apply Hlib]. rewrite Hmem. destruct it as [it'|]; [by destruct (Hit it')|done].
  - apply perform_runs in Hx as ->. exists x, t5, ((ta ++ tb ++ tc) ++ t10), l.
    split; [done|]. split; [done|]. split; [apply elem_of_app; by left|]. intros (Hmin & Hmax & Hstl) H32. split.
    + intros n Hn. rewrite Hni in Hn. apply fmap_Some in Hn as (m & Hm & ->).
      destruct (ValidateReplicaCount_ok id m (ol_MinInstancesPerBranch l) (ol_MaxInstancesPerBranch l)) as [-> ?]; [by apply H32|lia|lia|by apply Hrep|done].
    + intros n Hn. rewrite Hss in Hn. by apply (ValidateStorage_ok id), Hsto.
Qed.

(** Parameters and an instance type in one request never reach the cluster: the
    parameters are validated for the type [custom], which has none. *)
Lemma instance_type_with_parameters_is_rejected body id branch it cluster type params :
  ubb_InstanceType body = Some type → ubb_Parameters body = Some params →
  is_ok (update_configuration body id branch it cluster) = false.
Proof.
  intros Ht Hp. destruct (update_configuration _ _ _ _ _) as [u|e] eqn:Hu; [exfalso|done].
  apply bind_ok in Hu as ([] & _ & Hk). apply bind_ok in Hk as ([] & _ & Hk).
  apply bind_ok in Hk as (ps & Hps & _). apply bind_ok in Hps as (m & _ & Hps). rewrite Hp in Hps.
  apply bind_ok in Hps as (ps' & Hps' & _). apply described_ok in Hps' as (d & _ & Hd).
  apply bind_ok in Hd as (ps'' & Hd & _). unfold requested_parameters in Hd. rewrite Ht in Hd. done.
Qed.
End Update.

(** ** Requests to the service of [BranchCreation] *)

Module Witness.
Import BranchCreation.Witness.
#[local] Existing Instance BranchBuilder.Witness.quantities.

#[local] Instance amd64 : GoRuntime :=
  {| float_out_of_range := λ _, - 2 ^ 63; unicode_ToLower := λ s, s |}.

(** The root branch's cluster, and a window that ends at its last backup. *)
Definition a_cluster : ClusterDescription :=
  mkDescription
    (BranchBuilder.mkConfiguration 1 50 "ghcr.io/xataio/postgres-images/cnpg-postgres-plus:17.5" "1" None "250m" "2000m"
       ∅ [] None)
    (mkClusterStatus "healthy" STATUS_TYPE_HEALTHY 1 1 ∅) None.
Definition a_window : Window := mkWindow "2025-01-01T00:00:00Z" "" "2025-02-01T00:00:00Z".

Definition cell_sample (w : unit) (c : call) : unit * resp c :=
  match c as c return unit * resp c with
  | GetRecoveryWindow _ _ => (w, Ok a_window)
  | DescribePostgresCluster _ _ => (w, Ok a_cluster)
  | c => sample w c
  end.

Definition a_user : option Claims :=
  Some (mkClaims {[ "org" := mkOrg "org" "enabled" None "t1" "" ]} "user" "" "" [] ["*"%string] ["*"%string]).

Definition no_flags (name : string) : bool := false.
Definition registry : list Source :=
  [mkSource "ghcr.io/xataio/postgres-images/cnpg-postgres-plus"
     {[ "17" := mkMajorVersion ["17.5"; "17.6"] "17.6" true true false ]}].

Definition flag_answers (tr : list (event resp)) : bool :=
  forallb (λ e, match e with ev (BoolValue _) b => negb b | _ => true end) tr.

Lemma no_flags_answered tr : flag_answers tr = true → flags_are no_flags tr.
Proof.
  intros Hall name b Hin. unfold flag_answers in Hall. rewrite forallb_forall in Hall.
  specialize (Hall (ev (BoolValue name) b)). rewrite <- list_elem_of_In in Hall. by apply Hall, negb_true_iff in Hin.
Qed.

Definition listing := exec resp sample tt (listed_images registry).
Definition validating := exec resp sample tt (ValidateImage registry "postgres:17.6").

(** The latest minor is listed and resolved. *)
Lemma listed_images_are_accepted_witness :
  ("postgres:17.6"%string ∈ listing.2) ∧ validating.2 = resolveImage registry "postgres:17.6".
Proof.
  assert ("postgres:17.6"%string ∈ listing.2) as Hin by (apply (bool_decide_unpack _); vm_compute; exact I).
  split; [exact Hin|].
  pose proof (listed_images_are_accepted registry no_flags "postgres:17.6" listing.1.1 listing.2 validating.1.1 validating.2) as H.
  rewrite H; [rewrite bool_decide_eq_true_2 by exact Hin; reflexivity|..].
  - apply (bool_decide_unpack _). vm_compute. exact I.
  - exact (exec_runs sample tt _).
  - apply no_flags_answered. vm_compute. reflexivity.
  - exact (exec_runs sample tt _).
  - apply no_flags_answered. vm_compute. reflexivity.
Defined.

(** A child of the root at a point of its window. *)
Definition a_restore : RestoreBody := mkRestoreBody "copy" None None None None (ParseRFC3339 "2025-01-15T00:00:00Z").
Definition restoring := exec resp cell_sample tt
  (RestoreFromBackup registry None ∅ (mkScheduler Random ∅) "gateway:5432" 3 (λ _, ""%string) a_user "org" "prj" "root" (Ok a_restore)).

Definition created (e : event resp) : option (string * CreateRequest) :=
  match e with ev (CreatePostgresCluster c r) (Ok _) => Some (c, r) | _ => None end.

Lemma created_in (tr : list (event resp)) x :
  omap created tr = [x] → ev (CreatePostgresCluster x.1 x.2) (Ok tt) ∈ tr.
Proof.
  intros H. assert (x ∈ omap created tr) as Hin by (rewrite H; by left).
  apply list_elem_of_omap in Hin as ([c w] & Hin & Hx). destruct c; try done. destruct w as [[]|]; [|done].
  injection Hx as <-. done.
Qed.

Lemma restore_stays_in_window_witness :
  is_ok restoring.2 = true ∧ ∃ req, ev (CreatePostgresCluster "cell:50051" req) (Ok tt) ∈ restoring.1.1 ∧
    cr_DataSource req = Some (ContinuousBackup "root" (rb_TargetTime a_restore)).
Proof.
  split; [vm_compute; reflexivity|].
  destruct (omap created restoring.1.1) as [|[c req] [|]] eqn:Hc.
  1,3: exfalso; apply (f_equal length) in Hc; vm_compute in Hc; discriminate.
  assert (c = "cell:50051"%string) as -> by (apply (f_equal (λ l, default ""%string (fst <$> head l))) in Hc; simpl in Hc; rewrite <- Hc; vm_compute; reflexivity).
  apply created_in in Hc as Hin. exists req. split; [exact Hin|].
  pose proof (restore_stays_in_window registry None ∅ (mkScheduler Random ∅) "gateway:5432" 3 (λ _, ""%string)
    a_user "org" "prj" "root" a_restore restoring.1.1 restoring.2 "cell:50051" req (Ok tt)) as H.
  destruct H as (_ & _ & H & _); [exact (exec_runs cell_sample tt _)|exact Hin|exact H].
Defined.

(** More storage and the next minor. *)
Definition an_update : UpdateBranchBody :=
  mkUpdateBody None None (Some 60) None (Some 0) None None None None None (Some "postgres:17.6"%string).
Definition updating := exec resp cell_sample tt
  (api_UpdateBranch registry None ∅ "gateway:5432" (λ _, ""%string) a_user "org" "prj" "root" (Ok an_update)).

Definition updated (e : event resp) : option (string * string * UpdateConfiguration) :=
  match e with ev (UpdatePostgresCluster c b u) (Ok _) => Some (c, b, u) | _ => None end.

Lemma updated_in (tr : list (event resp)) x :
  omap updated tr = [x] → ev (UpdatePostgresCluster x.1.1 x.1.2 x.2) (Ok tt) ∈ tr.
Proof.
  intros H. assert (x ∈ omap updated tr) as Hin by (rewrite H; by left).
  apply list_elem_of_omap in Hin as ([c w] & Hin & Hx). destruct c; try done. destruct w as [[]|]; [|done].
  injection Hx as <-. done.
Qed.

Lemma update_is_checked_witness :
  is_ok updating.2 = true ∧ committed updating.1.1 = true ∧ ∃ client bid u d,
    ev (UpdatePostgresCluster client bid u) (Ok tt) ∈ updating.1.1 ∧ u_StorageSize u = Some 60 ∧
    cc_StorageSize (cd_Configuration d) ≤ 60.
Proof.
  split; [vm_compute; reflexivity|]. split; [vm_compute; reflexivity|].
  destruct (omap updated updating.1.1) as [|[[c b] u] [|]] eqn:Hc.
  1,3: exfalso; apply (f_equal length) in Hc; vm_compute in Hc; discriminate.
  assert (u_StorageSize u = Some 60) as Hs.
  { apply (f_equal (λ l, head l ≫= λ x, u_StorageSize x.2)) in Hc. simpl in Hc. rewrite <- Hc. vm_compute. reflexivity. }
  apply updated_in in Hc as Hin. simpl in Hin.
  pose proof (update_is_checked registry None ∅ "gateway:5432" (λ _, ""%string) a_user "org" "prj" "root" an_update
    updating.1.1 updating.2 c b u (Ok tt)) as H.
  destruct H as (_ & _ & H & _); [exact (exec_runs cell_sample tt _)|exact Hin|].
  destruct (H 60 Hs) as (d & _ & Hd). exists c, b, u, d. split; [exact Hin|]. split; [exact Hs|exact Hd].
Defined.
End Witness.
