(* ===== verification/ProjectsRpc.v ===== *)
(** * The gRPC interface of the projects service: [services/projects/rpc]

    [projects.go] and [provisioning.go]; the limits are [Limits]'.  The branch
    service and the feature flags may be missing from a server.  A lock that is
    held for a deletion is released when the handler returns.  Logging is left
    out. *)

From stdpp Require Import pretty.
From S2P Require Import Prelude GoStrings GoFloat GoTime Netip IPFilterModel ProjectFilter Limits PostgresVersions Extensions BranchTypes BranchBuilder PostgresConfig ProjectsModel ProjectStore BackupSchedule Scheduler BranchService BranchCreation.

#[local] Open Scope Z_scope.
#[local] Open Scope go_scope.

(** ** Errors *)

(** A gRPC status with its details (the HTTP status of the error, and the
    parameter that is invalid), or an error that the server turns into one;
    [errors.Join] is the list of its errors. *)
Inductive rpc_error :=
| StatusDetails (c : code) (httpStatus : Z) (violation : option (string * string)) (errs : list error)
| StatusError (c : code) (msg : string)
| Plain (msg : option string) (errs : list error).

Definition codeForHTTPStatus (httpStatus : Z) : code :=
  if httpStatus =? 400 then InvalidArgument
  else if httpStatus =? 403 then PermissionDenied
  else if httpStatus =? 404 then NotFound
  else if httpStatus =? 409 then Aborted
  else if httpStatus =? 412 then FailedPrecondition
  else if httpStatus =? 429 then ResourceExhausted
  else if httpStatus =? 503 then Unavailable
  else Unknown.

(** [errors.AsType[branch.ErrInvalidParam]] *)
Fixpoint invalid_param (e : error) : option (string * string) :=
  match e with
  | BranchInvalidParam _ param message => Some (param, message)
  | Wrapped _ e => invalid_param e
  | _ => None
  end.

Definition provisioningError (op : string) (errs : list error) : rpc_error :=
  match omap StatusCode errs with
  | [] => Plain (Some op) errs
  | httpStatus :: _ =>
      let violation := match omap invalid_param errs with
                       | (param, message) :: _ => if bool_decide (param = "") then None else Some (param, message)
                       | [] => None
                       end in
      StatusDetails (codeForHTTPStatus httpStatus) httpStatus violation errs
  end.

(** ** Calls *)

Inductive rpc_call :=
| Projects (c : call)
| UpsertOrganizationStatus (organization : string) (disabled : bool)
| DeleteOrganizationStatus (organization : string)
| Nudge.

Definition rpc_resp (c : rpc_call) : Type :=
  match c with
  | Projects c => resp c
  | UpsertOrganizationStatus _ _ | DeleteOrganizationStatus _ => option error
  | Nudge => unit
  end.

Abbreviation R A := (prog rpc_resp (res rpc_error A)).

Definition lift {A} (p : M A) : prog rpc_resp A := embed Projects (λ c (r : rpc_resp (Projects c)), r) p.
Definition refuse {A} (e : rpc_error) : R A := mret (Err e).
Definition rpc_ok {A} (a : A) : R A := mret (Ok a).

(** An error of the store or of the branch service. *)
Definition or_error {A} (f : error → rpc_error) (p : E A) : R A :=
  r ← lift p; match r with Ok a => rpc_ok a | Err e => refuse (f e) end.
Definition plain {A} (p : E A) : R A := or_error (λ e, Plain None [e]) p.
Definition provisioning {A} (op : string) (p : E A) : R A := or_error (λ e, provisioningError op [e]) p.

(** ** Cells, regions, organizations ([projects.go]) *)

Definition rpc_CreateCell (regionID id url : string) (subdomain : option string) : R unit :=
  _ <-? plain (CreateCell regionID id url subdomain); rpc_ok tt.

Definition rpc_CreateRegion (organizationID : option string) (id : string) (publicAccess backupsEnabled : bool)
    (provider hostport : string) : R unit :=
  match ParseProvider provider with
  | Err e => refuse (StatusError InvalidArgument (error_text e))
  | Ok provider =>
      let flags := mkRegionFlags publicAccess backupsEnabled provider in
      _ <-? plain match organizationID with
                  | Some org => CreateOrganizationRegion org id flags hostport
                  | None => CreateRegion id flags hostport
                  end;
      rpc_ok tt
  end.

Record CellMsg := mkCellMsg { cm_Id : string; cm_RegionId : string; cm_ClustersGrpcUrl : string; cm_Subdomain : option string }.
Record RegionMsg := mkRegionMsg {
  rm_Id : string; rm_PublicAccess : bool; rm_OrganizationId : option string; rm_BackupsEnabled : bool; rm_Provider : string
}.

Definition rpc_ListCells : R (list CellMsg) :=
  cells <-? plain ListAllCells;
  rpc_ok (map (λ c, mkCellMsg (ce_ID c) (ce_RegionID c) (ce_ClustersGRPCURL c) (ce_Subdomain c)) cells).

Definition rpc_ListRegions : R (list RegionMsg) :=
  regions <-? plain ListAllRegions;
  rpc_ok (map (λ r, mkRegionMsg (rg_ID r) (rg_PublicAccess r) (rg_OrganizationID r) (rg_BackupsEnabled r) (rg_Provider r)) regions).

Definition rpc_ValidateHierarchy (organizationIds projectIds branchIds : list string) : R unit :=
  plain (ValidateHierarchy organizationIds projectIds branchIds).

Definition HasActiveProjects (organizationID : string) : R bool :=
  projects <-? plain (wrap "list projects" (ListProjects organizationID));
  rpc_ok (negb (bool_decide (length projects = 0%nat))).

(** [nudger]: whether a worker is wired. *)
Definition UpdateOrganizationStatus (nudger : bool) (organizationID : string) (disabled : bool) : R string :=
  r ← perform (UpsertOrganizationStatus organizationID disabled);
  match r with
  | Some e => refuse (Plain None [Wrapped ("record organization [" +:+ organizationID +:+ "] status") e])
  | None =>
      if nudger then _ ← perform Nudge; rpc_ok organizationID else rpc_ok organizationID
  end.

Record DeleteProjectsInOrgResponse := mkDeleteResponse {
  dp_BranchesDeleted : Z;
  dp_ProjectsDeleted : Z;
  dp_Errors : list (list error)
}.

Fixpoint delete_projects (organizationID : string) (projects : list Project) : prog rpc_resp DeleteProjectsInOrgResponse :=
  match projects with
  | [] => mret (mkDeleteResponse 0 0 [])
  | project :: projects =>
      d ← lift (provisioner_DeleteProject organizationID (p_ID project));
      rest ← delete_projects organizationID projects;
      mret match d.2 with
           | [] => mkDeleteResponse (int32 (dp_BranchesDeleted rest + d.1)) (int32 (dp_ProjectsDeleted rest + 1)) (dp_Errors rest)
           | errs => mkDeleteResponse (int32 (dp_BranchesDeleted rest + d.1)) (dp_ProjectsDeleted rest) (errs :: dp_Errors rest)
           end
  end.

Definition DeleteProjectsInOrg (organizationID : string) : R DeleteProjectsInOrgResponse :=
  projects <-? plain (ListProjects organizationID);
  response ← delete_projects organizationID projects;
  if bool_decide (length (dp_Errors response) = 0%nat) then
    r ← perform (DeleteOrganizationStatus organizationID);
    match r with
    | Some e => rpc_ok (mkDeleteResponse (dp_BranchesDeleted response) (dp_ProjectsDeleted response)
                          [[Wrapped "delete organization status" e]])
    | None => rpc_ok response
    end
  else rpc_ok response.

(** ** Provisioning ([provisioning.go]) *)

Definition no_scale_to_zero : ProjectFilter.ScaleToZero := ProjectFilter.mkScaleToZero false 0.

Definition rpc_CreateProject (organizationID name usageTier : string) : R string :=
  project <-? provisioning "create project"
    (CreateProject organizationID
       (mkCreateProject name (mkProjectScaleToZero no_scale_to_zero no_scale_to_zero) (mkIPFiltering false None) usageTier));
  rpc_ok (p_ID project).

(** The [mode] of a request, a oneof that may be unset. *)
Inductive mode_msg :=
| FromParentBranchId (id : string)
| FromConfigurationMsg (image region instanceType : string) (replicas : Z) (preloadLibraries : list string)
    (parameters : gmap string string) (storageGb : option Z).

Definition branchModeFromProto (m : option mode_msg) : res rpc_error Mode :=
  match m with
  | Some (FromParentBranchId id) => Ok (FromParent id)
  | Some (FromConfigurationMsg image region instanceType replicas libraries parameters storage) =>
      Ok (FromConfiguration (BranchService.mkConfiguration image region instanceType replicas (slice libraries)
            (if bool_decide (parameters = ∅) then None else Some parameters) storage))
  | None => Err (StatusError InvalidArgument "mode is required (from_configuration or from_parent_branch_id)")
  end.

Record CreateBranchRequest := mkCreateBranchRequest {
  cq_OrganizationId : string;
  cq_ProjectId : string;
  cq_Name : string;
  cq_Mode : option mode_msg;
  cq_Marketplace : string;
  cq_UsageTier : string;
  cq_ScaleToZero : option ScaleToZeroMsg
}.

Definition not_configured : rpc_error := StatusError Unimplemented "branch provisioning is not configured".

Section Provisioning.
Context `{GoRuntime} `{Quantities}.
Variable sources : list Source.
Variable imageExtensions : option ImageExtensions.
Variable configurableParameters : gmap string PostgresParameterSpec.
Variable sched : Scheduler.
Variable defaultGatewayHostPort : string.
Variable maxDepth : Z.
Variable value_error_text : value_error → string.

(** Whether the branch service and the flags are wired. *)
Variable branches feat : bool.

Definition feature (name : string) : R bool := if feat then b ← lift (flag name); rpc_ok b else rpc_ok false.

Definition rpc_CreateBranch (req : CreateBranchRequest) : R (string * string) :=
  if negb branches then refuse not_configured
  else
    disabled <-? feature flag_BranchCreationDisabled;
    if disabled : bool then refuse (StatusError FailedPrecondition "branch creation is disabled")
    else
      match branchModeFromProto (cq_Mode req) with
      | Err e => refuse e
      | Ok mode =>
          usePool <-? feature flag_UseClusterPool;
          useXatastor <-? feature flag_UseXatastor;
          usePgBackRest <-? feature flag_UsePgBackRest;
          l <-? provisioning "resolve org limits"
                  (limits (ResolveOrgLimits (cq_UsageTier req) (cq_OrganizationId req) (cq_ProjectId req) useXatastor));
          let i := mkInput (cq_OrganizationId req) (cq_ProjectId req) (cq_Name req) mode (cq_Marketplace req)
                     (cq_UsageTier req) l (mkFlags usePool useXatastor) usePgBackRest None None (cq_ScaleToZero req) false in
          payload <-? provisioning "build branch payload"
                        (BuildPayload sources imageExtensions configurableParameters sched value_error_text i);
          created <-? provisioning "provision branch" (Provision defaultGatewayHostPort maxDepth i payload);
          rpc_ok (b_ID created.1, created.2)
      end.

Definition rpc_DeleteProject (organizationID projectID : string) : R unit :=
  if negb branches then refuse not_configured
  else
    l <-? provisioning "acquire project lock" (AcquireProjectLock projectID);
    errs ← lift (service_DeleteProject organizationID projectID);
    _ ← lift (release l);
    match errs with
    | [] => rpc_ok tt
    | _ => refuse (provisioningError "delete project" errs)
    end.

Definition GetBranchConnectionString (organizationID projectID branchID : string) : R string :=
  if negb branches then refuse not_configured
  else
    br <-? provisioning "describe branch" (DescribeBranch organizationID projectID branchID);
    provisioning "connection string" (ConnectionString defaultGatewayHostPort organizationID br).
End Provisioning.

(** ** Runs *)

Lemma lifted_runs {A} (p : M A) tr a :
  runs rpc_resp (lift p) tr a →
  ∃ tr1, runs resp p tr1 a ∧ tr = map (λ e, match e with ev c r => ev (resp := rpc_resp) (Projects c) r end) tr1.
Proof.
  revert tr. induction p as [b|c k IH]; intros tr; simpl; [intros [-> ->]; by exists []|].
  intros (r & tr' & -> & Hr). apply IH in Hr as (tr1 & H1 & ->). exists (ev c r :: tr1). split; [by exists r, tr1|done].
Qed.

Abbreviation lifted tr := (map (λ e : event resp, match e with ev c r => ev (resp := rpc_resp) (Projects c) r end) tr).

Lemma in_lifted c w (tr : list (event resp)) : ev (resp := rpc_resp) (Projects c) w ∈ lifted tr ↔ ev c w ∈ tr.
Proof.
  induction tr as [|[d x] tr IH]; simpl; [by rewrite !elem_of_nil|]. rewrite !elem_of_cons, IH. split; intros [He|?]; auto; left.
  - set (back := λ e : event rpc_resp, match e return event resp with ev (Projects c) r => ev c r | _ => ev d x end).
    exact (f_equal back He).
  - exact (f_equal (λ e : event resp, match e with ev c r => ev (resp := rpc_resp) (Projects c) r end) He).
Qed.

Lemma or_error_runs {A} f (p : E A) tr r :
  runs rpc_resp (or_error f p) tr r → ∃ tr1 x, runs resp p tr1 x ∧ tr = lifted tr1 ∧
    r = match x with Ok a => Ok a | Err e => Err (f e) end.
Proof.
  intros (t1 & t2 & x & -> & Hp & Hk)%runs_bind. apply lifted_runs in Hp as (tr1 & Hp & ->). exists tr1, x.
  destruct x; destruct Hk as [-> ->]; by rewrite app_nil_r.
Qed.

(** ** Deleting a project *)

(** An exchange that takes a lock, and one that uses the session of locks. *)
Definition acquired (e : event resp) : bool := match e with ev (AdvisoryLock _ _) (Ok _) => true | _ => false end.
Definition locking (e : event resp) : bool :=
  match e with ev GetDBConn _ | ev (AdvisoryLock _ _) _ | ev CloseDBConn _ => true | _ => false end.
Definition no_lock (c : call) : bool := match c with AdvisoryLock _ _ | AdvisoryUnlock _ _ => false | _ => true end.

Lemma acquire_runs prj tr x : runs resp (AcquireProjectLock prj) tr x →
  match x with
  | Ok l => l = mkLock false prj ∧ ∃ b, tr = [ev (resp := resp) GetDBConn None; ev (resp := resp) (AdvisoryLock Exclusive prj) (Ok b)]
  | Err _ => forallb (λ e, locking e && negb (acquired e)) tr = true
  end.
Proof.
  intros (conn & t1 & -> & Hk). destruct conn as [e|]; [by destruct Hk as [-> ->]|].
  destruct Hk as (lock & t2 & -> & Hk). destruct lock as [b|e].
  - cbn in Hk. destruct Hk as [-> ->]. split; [done|]. by exists b.
  - by destruct Hk as (u & t3 & -> & [-> ->]).
Qed.

Lemma provisioner_DeleteProject_no_lock org prj : only resp no_lock (provisioner_DeleteProject org prj).
Proof.
  assert (∀ id, only resp no_lock (getProject org id)) as Hp.
  { intros id. apply only_bind_ok; [by apply on_no_rows_only|done]. }
  assert (∀ c, only resp no_lock (DeprovisionBranch org c)) as Hd.
  { intros c. apply only_bind_ok.
    - apply wrap_only, only_bind_ok; [by apply in_tx_only, on_no_rows_only|].
      intros cell. apply only_bind; [done|]. by intros [].
    - intros client. apply only_bind; [done|]. by intros [u|[[] m]]. }
  apply only_bind; [apply in_tx_only; [done..|]; apply only_bind_ok; [apply Hp|]; by only_solve|].
  intros [branches|e]; [|done]. apply only_bind.
  - induction branches as [|b branches IH]; [done|]. apply only_bind.
    + apply in_tx_only; [done..|]. apply only_bind_ok; [apply Hp|]. intros _.
      apply only_bind_ok; [by apply on_no_rows_only|]. intros c.
      apply only_bind_ok; [by apply run_only|]. intros n. destruct (n =? 0); [done|]. destruct (1 <? n); [done|].
      apply only_bind_ok; [by apply run_only|]. intros m. destruct (1 <? m); [done|].
      apply only_bind_ok; [apply Hd|]. intros _. by apply attempt_only_if.
    + intros r. apply only_bind; [apply IH|]. by destruct r as [|[]].
  - intros [n [|e errs]]; [|done]. apply only_bind; [|done].
    apply in_tx_only; [done..|]. apply only_bind; [done|]. intros [[[|] ?]|]; [|done..].
    apply only_bind_ok; [by apply run_only|]. intros _. apply only_bind_ok; [by apply run_only|].
    intros m. destruct (m =? 0); [done|]. by apply attempt_only_if.
Qed.

(** The branches of a project that were listed are gone, each in a committed
    transaction or not found, and so is its row. *)
Definition torn_down (org prj : string) (tr : list (event resp)) : Prop :=
  (∃ branches last, ev (SelectBranches prj) (Ok (branches, last)) ∈ tr ∧ ∀ b, b ∈ branches → gone prj (b_ID b) tr) ∧
  terminated org prj tr.

Lemma provisioner_DeleteProject_done org prj tr d :
  runs resp (provisioner_DeleteProject org prj) tr d → d.2 = [] → torn_down org prj tr.
Proof.
  intros (t1 & t2 & l & -> & Hl & Hk)%runs_bind Hd. destruct l as [branches|e]; [|by destruct Hk as [-> ->]].
  apply runs_bind in Hk as (t3 & t4 & [n errs] & -> & Hb & Hk). destruct errs; [|by destruct Hk as [-> ->]].
  pose proof (delete_branches_gone _ _ _ _ _ Hb eq_refl) as Hgone. apply ListBranches_ok in Hl as [last Hl].
  apply runs_bind in Hk as (t5 & t6 & r & -> & Hp & [-> ->]). apply DeleteProject_runs in Hp as [_ Hdone].
  rewrite app_nil_r.
  split; [exists branches, last|apply terminated_app_l, terminated_app_l, Hdone].
  2: { destruct r as [u|e]; [done|]. destruct e; simplify_eq/=; by eexists. }
  split; [apply elem_of_app; by left|]. intros b Hin. by apply gone_app_l, gone_app_r, Hgone.
Qed.

(** C20. A project is deleted while its lock is held: either the lock is not
    acquired, and nothing but the attempt happens and the call fails; or the
    exclusive lock of the project is taken first and at the end it is unlocked and
    its connection closed (the answers to that are ignored), whatever the
    deletion answers, and nothing takes or releases a lock between.
    The call succeeds only when, under the lock, each branch that was listed was
    deleted by a committed transaction or not found any more, and the project was
    terminated by one that found no active branch, or not found any more. *)
Theorem project_deletion_holds_the_lock org prj tr r :
  runs rpc_resp (rpc_DeleteProject true org prj) tr r →
  (∃ tried e, tr = lifted tried ∧ r = Err e ∧ forallb (λ e, locking e && negb (acquired e)) tried = true) ∨
  ∃ got body unlock close,
    tr = lifted (ev (resp := resp) GetDBConn None :: ev (AdvisoryLock Exclusive prj) (Ok got) :: body ++
                 [ev (AdvisoryUnlock false prj) unlock; ev (resp := resp) CloseDBConn close]) ∧
    (∀ c w, ev c w ∈ body → no_lock c = true) ∧
    (r = Ok tt → torn_down org prj body).
Proof.
  intros (t1 & t2 & l & -> & Hl & Hk)%runs_bind.
  apply or_error_runs in Hl as (ta & x & Ha & -> & ->). apply acquire_runs in Ha. destruct x as [l|e].
  2: { destruct Hk as [-> ->]. left. rewrite app_nil_r. by eexists ta, _. }
  right. destruct Ha as (-> & got & ->).
  apply runs_bind in Hk as (t3 & t4 & errs & -> & Hd & Hk). apply lifted_runs in Hd as (td & Hd & ->).
  apply runs_bind in Hk as (t5 & t6 & u & -> & Hu & Hk). apply lifted_runs in Hu as (tu & Hu & ->).
  apply runs_bind in Hd as (body & t7 & d & -> & Hd & [-> ->]). rewrite app_nil_r.
  destruct Hu as (unlock & t8 & -> & (close & t9 & -> & Hc)).
  assert (t9 = []) as -> by (destruct close; by destruct Hc).
  assert (t6 = []) as -> by (destruct d.2; by destruct Hk).
  exists got, body, unlock, close. split_and!.
  - by rewrite app_nil_r, <- map_app.
  - intros c w Hin. exact (only_runs _ _ _ _ _ _ (provisioner_DeleteProject_no_lock _ _) Hd Hin).
  - intros ->. eapply provisioner_DeleteProject_done; [exact Hd|]. destruct d.2; [done|]. by destruct Hk.
Qed.

(** ** Deleting the projects of an organization *)

Lemma int32_add n m : int32 (int32 n + m) = int32 (n + m).
Proof.
  unfold int32. f_equal. transitivity (((n + 2 ^ 31) mod 2 ^ 32 + m) mod 2 ^ 32); [f_equal; lia|].
  rewrite Zplus_mod_idemp_l. f_equal. lia.
Qed.

Lemma delete_projects_runs org projects tr response :
  runs rpc_resp (delete_projects org projects) tr response →
  ∃ tr1, tr = lifted tr1 ∧
    (dp_Errors response = [] → dp_ProjectsDeleted response = int32 (Z.of_nat (length projects)) ∧
       ∀ p, p ∈ projects → ∃ t1 t2 t3, tr1 = t1 ++ t2 ++ t3 ∧ torn_down org (p_ID p) t2).
Proof.
  revert tr response. induction projects as [|p projects IH]; intros tr response.
  - intros [-> ->]. exists []. split; [done|]. split; [done|]. by intros p ?%not_elem_of_nil.
  - intros (t1 & t2 & d & -> & Hd & Hk)%runs_bind. apply lifted_runs in Hd as (td & Hd & ->).
    apply runs_bind in Hk as (t3 & t4 & rest & -> & Hr & [-> ->]). apply IH in Hr as (tr & -> & Hrest).
    exists (td ++ tr). split; [by rewrite app_nil_r, map_app|]. intros He.
    assert (d.2 = [] ∧ dp_Errors rest = []) as [Hd2 Hr] by (by destruct d.2).
    destruct (Hrest Hr) as [Hn Hgone]. rewrite Hd2. split.
    { cbn [dp_ProjectsDeleted length]. rewrite Hn, int32_add. f_equal. lia. }
    intros q [->|Hq]%elem_of_cons.
    + exists [], td, tr. split; [done|]. by eapply provisioner_DeleteProject_done.
    + destruct (Hgone q Hq) as (u1 & u2 & u3 & -> & Ht). exists (td ++ u1), u2, u3. by rewrite <- app_assoc.
Qed.

Lemma ListProjects_runs org tr r :
  runs resp (ListProjects org) tr r →
  ∃ w, tr = [ev (SelectProjects org) w] ∧
    ∀ projects, r = Ok projects → ∃ rows last, w = Ok (rows, last) ∧ scan_projects rows = Ok projects.
Proof.
  intros (w & t & -> & [-> ->]). exists w. split; [done|]. intros projects Hr. destruct w as [[rows last]|e]; [|done].
  exists rows, last. split; [done|]. destruct (scan_projects rows) as [ps|e]; [|done].
  cbn [res_bind] in Hr. by destruct (collect true _); simplify_eq/=.
Qed.

(** The status of an organization outlives its projects: its row is deleted
    at most once, as the last step of a deletion, after each project that was
    listed was torn down; and a deletion that answers without errors deleted the
    row, and counts every project that was listed. *)
Theorem status_outlives_projects org tr r :
  runs rpc_resp (DeleteProjectsInOrg org) tr r →
  (∀ org' w, ev (DeleteOrganizationStatus org') w ∈ tr →
     org' = org ∧ ∃ rows last projects tr1,
       tr = lifted (ev (SelectProjects org) (Ok (rows, last)) :: tr1) ++ [ev (resp := rpc_resp) (DeleteOrganizationStatus org) w] ∧
       scan_projects rows = Ok projects ∧
       ∀ p, p ∈ projects → ∃ t1 t2 t3, tr1 = t1 ++ t2 ++ t3 ∧ torn_down org (p_ID p) t2) ∧
  (∀ response, r = Ok response → dp_Errors response = [] →
     ev (resp := rpc_resp) (DeleteOrganizationStatus org) None ∈ tr ∧
     ∃ rows last projects, ev (resp := rpc_resp) (Projects (SelectProjects org)) (Ok (rows, last)) ∈ tr ∧
       scan_projects rows = Ok projects ∧ dp_ProjectsDeleted response = int32 (Z.of_nat (length projects))).
Proof.
  intros (t1 & t2 & l & -> & Hl & Hk)%runs_bind.
  apply or_error_runs in Hl as (tl & x & (w & -> & Hx)%ListProjects_runs & -> & ->).
  assert (∀ org' w t, ev (resp := rpc_resp) (DeleteOrganizationStatus org') w ∉ lifted t) as Hno.
  { intros org' v t Hin. apply list_elem_of_fmap in Hin as ([c x'] & He & _).
    by apply (f_equal (λ e, match e with ev (DeleteOrganizationStatus _) _ => true | _ => false end)) in He. }
  destruct x as [projects|e].
  2: { destruct Hk as [-> ->]. rewrite app_nil_r. split; [by intros ? ? ?%Hno|done]. }
  destruct (Hx _ eq_refl) as (rows & last & -> & Hrows).
  apply runs_bind in Hk as (t3 & t4 & response & -> & Hd & Hk).
  apply delete_projects_runs in Hd as (td & -> & Hd). case_bool_decide as He.
  2: { destruct Hk as [-> ->]. rewrite app_nil_r, <- map_app. split; [by intros ? ? ?%Hno|].
       intros ? [= <-] Hnil. by rewrite Hnil in He. }
  apply length_zero_iff_nil, Hd in He as [Hn Hgone]. destruct Hk as (del & t5 & -> & Hk).
  assert (t5 = []) as -> by (destruct del; by destruct Hk). rewrite app_assoc, <- map_app. split.
  - intros org' v [?%Hno|Hin%list_elem_of_singleton]%elem_of_app; [done|].
    pose proof (f_equal (λ e, match e with ev (DeleteOrganizationStatus o) _ => o | _ => ""%string end) Hin) as Ho.
    cbn in Ho. subst org'. split; [done|]. exists rows, last, projects, td.
    split_and!; [by rewrite Hin|done|done].
  - intros resp' -> Hnil. destruct del as [e|]; destruct Hk as [_ [= ->]]; [done|].
    split; [rewrite elem_of_app; right; by left|]. exists rows, last, projects. split_and!; [by left|done|done].
Qed.

(** ** A service with one project, of one branch *)

Module Witness.

Definition sample (u : unit) (c : rpc_call) : unit * rpc_resp c :=
  match c with
  | Projects c => BranchCreation.Witness.sample u c
  | UpsertOrganizationStatus _ _ | DeleteOrganizationStatus _ => (tt, None)
  | Nudge => (tt, tt)
  end.

Definition deleting := exec rpc_resp sample tt (rpc_DeleteProject true "org" "prj").

Lemma project_deletion_holds_the_lock_witness :
  deleting.2 = Ok tt ∧ ∃ got body unlock close,
    deleting.1.1 = lifted (ev (resp := resp) GetDBConn None :: ev (AdvisoryLock Exclusive "prj"%string) (Ok got) :: body ++
      [ev (AdvisoryUnlock false "prj"%string) unlock; ev (resp := resp) CloseDBConn close]) ∧
    torn_down "org" "prj" body.
Proof.
  pose proof (project_deletion_holds_the_lock "org" "prj" deleting.1.1 deleting.2 (exec_runs sample tt _)) as H.
  assert (deleting.2 = Ok tt) as Hok by (vm_compute; reflexivity).
  split; [done|]. destruct H as [(tried & e & _ & He & _)|(got & body & unlock & close & Heq & _ & Hd)].
  - by rewrite He in Hok.
  - exists got, body, unlock, close. split; [done|by apply Hd].
Defined.

Definition clearing := exec rpc_resp sample tt (DeleteProjectsInOrg "org").

Lemma status_outlives_projects_witness :
  clearing.2 = Ok (mkDeleteResponse 1 1 []) ∧ ∃ rows last projects tr1,
    clearing.1.1 = lifted (ev (SelectProjects "org") (Ok (rows, last)) :: tr1) ++
      [ev (resp := rpc_resp) (DeleteOrganizationStatus "org"%string) None] ∧
    scan_projects rows = Ok projects ∧
    ∀ p, p ∈ projects → ∃ t1 t2 t3, tr1 = t1 ++ t2 ++ t3 ∧ torn_down "org" (p_ID p) t2.
Proof.
  pose proof (status_outlives_projects "org" clearing.1.1 clearing.2 (exec_runs sample tt _)) as [H1 H2].
  assert (clearing.2 = Ok (mkDeleteResponse 1 1 [])) as Hok by (vm_compute; reflexivity). split; [done|].
  destruct (H2 _ Hok eq_refl) as [Hin _]. by destruct (H1 _ _ Hin) as [_ H].
Defined.

End Witness.
