(* ===== verification/LogQueries.v ===== *)
(** * LogsQL queries: [services/clusters/observability/logs.go]

    The filters of a branch's logs as one LogsQL expression.  The main result
    is that whatever the values of the filters are, the expression keeps its
    shape and its scope: every value stays inside the literal it is quoted in. *)

From stdpp Require Import pretty.
From S2P Require Import Prelude GoStrings GoFloat GoTime GoText.

#[local] Open Scope Z_scope.
#[local] Open Scope go_scope.

Record LogFilter := mkLogFilter {
  lf_Field : string;
  lf_Op : string;
  lf_Values : list string;
  lf_Value : string
}.

(** ** Levels *)

Definition schemaLevelToSeverities (level : string) : list string :=
  if bool_decide (level = "debug") then ["DEBUG"; "DEBUG1"; "DEBUG2"; "DEBUG3"; "DEBUG4"; "DEBUG5"]%string
  else if bool_decide (level = "info") then ["INFO"; "LOG"; "NOTICE"]%string
  else if bool_decide (level = "warning") then ["WARN"; "WARNING"]%string
  else if bool_decide (level = "error") then ["ERROR"; "FATAL"; "PANIC"; "CRITICAL"]%string
  else [].

Definition levels : list string := ["debug"; "info"; "warning"; "error"]%string.

(** The level of a severity, empty for one that is not mapped. *)
Definition severityToLevel (severity : string) : string :=
  default "" (List.find (λ level, bool_decide (severity ∈ schemaLevelToSeverities level)) levels).

Definition expandLevels (asked : list string) : list string := asked ≫= schemaLevelToSeverities.

(** ** Clauses *)

(** [strings.Join] *)
Fixpoint Join (sep : string) (l : list string) : string :=
  match l with
  | [] => ""
  | [s] => s
  | s :: l => s +:+ sep +:+ Join sep l
  end.

Section Clauses.
Context `{Unicode}.

Definition inClause (field : string) (values : list string) : string :=
  field +:+ ":in (" +:+ Join "," (map Quote values) +:+ ")".

Definition not_allowed (op field : string) : string :=
  "op [" +:+ op +:+ "] not allowed for field [" +:+ field +:+ "]".

(** The pattern of a filter on the message. *)
Definition body_pattern (op value : string) : option string :=
  if bool_decide (op = "contains") then Some (QuoteMeta value)
  else if bool_decide (op = "icontains") then Some ("(?i)" +:+ QuoteMeta value)
  else if bool_decide (op = "regex") then Some value
  else if bool_decide (op = "iregex") then Some ("(?i)" +:+ value)
  else None.

(** The column that a list of values is asked of. *)
Definition list_column (field : string) : option string :=
  if bool_decide (field = "instance") then Some "kubernetes.pod_name"%string
  else if bool_decide (field = "level") then Some "severity_text"%string
  else if bool_decide (field = "process") then Some "backend_type"%string
  else if bool_decide (field = "logger") then Some "logger"%string
  else None.

Definition compileLogFilter (f : LogFilter) : res string string :=
  match list_column (lf_Field f) with
  | Some column =>
      if negb (bool_decide (lf_Op f = "in")) then Err (not_allowed (lf_Op f) (lf_Field f))
      else if bool_decide (lf_Field f = "level") then
        match expandLevels (lf_Values f) with
        | [] => Err "invalid log level set"%string
        | expanded => Ok (inClause column expanded)
        end
      else Ok (inClause column (lf_Values f))
  | None =>
      if bool_decide (lf_Field f = "body") then
        match body_pattern (lf_Op f) (lf_Value f) with
        | Some pattern => Ok ("_msg:~" +:+ Quote pattern)
        | None => Err (not_allowed (lf_Op f) (lf_Field f))
        end
      else Err ("unknown field [" +:+ lf_Field f +:+ "]")
  end.

(** ** The expression *)

Definition scope (namespace branchID : string) : string :=
  "kubernetes.namespace_name:=" +:+ Quote namespace +:+ " AND kubernetes.container_name:=" +:+ Quote "postgres"
    +:+ " AND logger:in (" +:+ Quote "postgres" +:+ "," +:+ Quote "pgaudit" +:+ ")"
    +:+ " AND branch_id:=" +:+ Quote branchID.

(** The rows of the previous page's last instant are asked for again. *)
Definition resume (nanos : Z) : string :=
  if 0 <? nanos then " AND _time:<=" +:+ FormatRFC3339Nano nanos else "".

Fixpoint compile_all (filters : list LogFilter) : res string string :=
  match filters with
  | [] => Ok ""%string
  | f :: filters => clause <~ compileLogFilter f; rest <~ compile_all filters; Ok (" AND " +:+ clause +:+ rest)
  end.

Definition buildLogsQL (namespace branchID : string) (filters : list LogFilter) (nanos : Z) : res string string :=
  clauses <~ compile_all filters; Ok (scope namespace branchID +:+ resume nanos +:+ clauses).
End Clauses.

(** ** The shape of an expression *)

(** A clause without what stands in its literals: it depends on the field, and
    on how many values are asked for. *)
Definition empty_literal : string := String double_quote (String double_quote EmptyString).

Definition clause_shape (f : LogFilter) : string :=
  match list_column (lf_Field f) with
  | Some column =>
      let n := if bool_decide (lf_Field f = "level") then length (expandLevels (lf_Values f))
               else length (lf_Values f) in
      column +:+ ":in (" +:+ Join "," (repeat empty_literal n) +:+ ")"
  | None => "_msg:~" +:+ empty_literal
  end.

Definition query_shape (filters : list LogFilter) (nanos : Z) : string :=
  "kubernetes.namespace_name:=" +:+ empty_literal +:+ " AND kubernetes.container_name:=" +:+ empty_literal
    +:+ " AND logger:in (" +:+ empty_literal +:+ "," +:+ empty_literal +:+ ")"
    +:+ " AND branch_id:=" +:+ empty_literal +:+ resume nanos
    +:+ foldr (λ f rest, " AND " +:+ clause_shape f +:+ rest) ""%string filters.

(** What its literals denote. *)
Definition clause_values (f : LogFilter) : list string :=
  match list_column (lf_Field f) with
  | Some _ => if bool_decide (lf_Field f = "level") then expandLevels (lf_Values f) else lf_Values f
  | None => option_list (body_pattern (lf_Op f) (lf_Value f))
  end.

(** ** Lemmas *)

Lemma digits_no_quote acc s n : digits_val_acc acc s = Some n → contains_byte double_quote s = false.
Proof.
  revert acc. induction s as [|c s IH]; intros acc; [done|]. simpl. destruct (is_digit c) eqn:Hc; [|done].
  intros H. rewrite (IH _ H), orb_false_r. apply bool_decide_eq_false. intros ->. by vm_compute in Hc.
Qed.

Lemma pretty_N_no_quote (n : N) : contains_byte double_quote (pretty n) = false.
Proof.
  pose proof (pretty_N_unsigned n) as H. unfold ParseUint10 in H. destruct (pretty n); [done|]. by eapply digits_no_quote.
Qed.

Lemma pad_no_quote w s : contains_byte double_quote s = false → contains_byte double_quote (pad w s) = false.
Proof. intros H. induction w as [|w IH]; simpl; [done|]. by destruct (_ <=? _)%nat. Qed.

Lemma appendInt_no_quote n w : contains_byte double_quote (appendInt n w) = false.
Proof.
  unfold appendInt. destruct (n <? 0); [cbn [String.append contains_byte]; apply orb_false_iff; split; [done|]|];
    apply pad_no_quote, pretty_N_no_quote.
Qed.

Lemma trim_fraction_no_quote w n : contains_byte double_quote (trim_fraction w n) = false.
Proof.
  revert n. induction w as [|w IH]; intros n; [done|]. cbn [trim_fraction].
  repeat destruct (_ =? _); [done|apply IH|apply appendInt_no_quote].
Qed.

Lemma resume_no_quote nanos : contains_byte double_quote (resume nanos) = false.
Proof.
  unfold resume, FormatRFC3339Nano, FormatDate, FormatClock. destruct (_ <? _); [|done].
  destruct (civil_of_days _) as [[y m] d]. destruct (bool_decide _);
    by rewrite !contains_byte_app, !appendInt_no_quote, ?trim_fraction_no_quote.
Qed.

(** A list of literals. *)
Lemma tokens_Join `{Unicode} l t :
  tokens Outside "" (Join "," (map Quote l) +:+ t) =
  '(text, literals) ← tokens Outside "" t; Some (Join "," (repeat empty_literal (length l)) +:+ text, l ++ literals).
Proof.
  induction l as [|v [|v' l] IH].
  - simpl. by destruct (tokens Outside "" t) as [[]|].
  - cbn [map Join repeat length]. rewrite tokens_Quote. by destruct (tokens Outside "" t) as [[]|].
  - change (Join "," (map Quote (v :: v' :: l))) with (Quote v +:+ "," +:+ Join "," (map Quote (v' :: l))).
    change (repeat empty_literal (length (v :: v' :: l))) with (empty_literal :: repeat empty_literal (length (v' :: l))).
    rewrite !append_assoc, tokens_Quote, tokens_text, IH by done.
    by destruct (tokens Outside "" t) as [[]|].
Qed.

Lemma list_column_no_quote field column :
  list_column field = Some column → contains_byte double_quote (column +:+ ":in (") = false.
Proof. unfold list_column. intros H. repeat case_bool_decide; simplify_eq; done. Qed.

Lemma tokens_clause `{Unicode} f clause t :
  compileLogFilter f = Ok clause →
  tokens Outside "" (clause +:+ t) =
  '(text, literals) ← tokens Outside "" t; Some (clause_shape f +:+ text, clause_values f ++ literals).
Proof.
  unfold compileLogFilter, clause_shape, clause_values. intros Hc.
  assert (∀ field column values, list_column field = Some column →
    tokens Outside "" (inClause column values +:+ t) =
    '(text, literals) ← tokens Outside "" t;
      Some ((column +:+ ":in (" +:+ Join "," (repeat empty_literal (length values)) +:+ ")") +:+ text, values ++ literals)) as Hin.
  { intros field column values Hf. unfold inClause.
    rewrite <-(append_assoc column), append_assoc, tokens_text by exact (list_column_no_quote _ _ Hf).
    rewrite append_assoc, tokens_Join, (tokens_text ")") by done.
    destruct (tokens Outside "" t) as [[text literals]|]; [|done]. cbn [mbind option_bind].
    do 2 f_equal. by rewrite !append_assoc. }
  destruct (list_column (lf_Field f)) as [column|] eqn:Hcol.
  - destruct (negb _); [done|]. destruct (bool_decide (lf_Field f = "level")).
    + destruct (expandLevels (lf_Values f)) eqn:He; [done|]. injection Hc as <-. by eapply Hin.
    + injection Hc as <-. by eapply Hin.
  - destruct (bool_decide (lf_Field f = "body")); [|done]. destruct (body_pattern _ _) as [p|]; [|done].
    assert (clause = "_msg:~" +:+ Quote p) as -> by congruence. rewrite append_assoc, tokens_text, tokens_Quote by done.
    by destruct (tokens Outside "" t) as [[]|].
Qed.

Lemma tokens_clauses `{Unicode} filters clauses :
  compile_all filters = Ok clauses →
  tokens Outside "" clauses =
  Some (foldr (λ f rest, " AND " +:+ clause_shape f +:+ rest) ""%string filters, filters ≫= clause_values).
Proof.
  revert clauses. induction filters as [|f filters IH]; intros clauses; cbn [compile_all]; [by intros [= <-]|].
  destruct (compileLogFilter f) as [clause|] eqn:Hf; cbn [res_bind]; [|done].
  destruct (compile_all filters) as [rest|]; cbn [res_bind]; [|done]. intros Hr.
  assert (clauses = " AND " +:+ clause +:+ rest) as -> by congruence. clear Hr.
  rewrite (tokens_text " AND "), (tokens_clause _ _ _ Hf), (IH _ eq_refl) by done. done.
Qed.

(** ** The main result *)

(** C29. The logs of a branch are asked for in its own scope, whatever the filters
    say.  The expression that is built reads, token by token, as the conditions
    on the namespace, the container, the loggers and the branch, the instant to
    resume from, and one condition for each filter, all joined by AND; the
    literals denote the namespace, the branch and exactly the values that were
    asked for, so no value ends its literal or adds a condition. *)
Theorem log_query_keeps_its_scope `{Unicode} namespace branchID filters nanos query :
  buildLogsQL namespace branchID filters nanos = Ok query →
  tokens Outside "" query =
  Some (query_shape filters nanos,
        namespace :: "postgres"%string :: "postgres"%string :: "pgaudit"%string :: branchID :: (filters ≫= clause_values)).
Proof.
  unfold buildLogsQL, scope, query_shape. destruct (compile_all filters) as [clauses|] eqn:Hc; cbn [res_bind]; [|done].
  intros Hq. match type of Hq with Ok ?e = _ => assert (query = e) as -> by congruence end.
  apply tokens_clauses in Hc. rewrite !append_assoc.
  rewrite (tokens_text "kubernetes.namespace_name:="), tokens_Quote by done.
  rewrite (tokens_text " AND kubernetes.container_name:="), tokens_Quote by done.
  rewrite (tokens_text " AND logger:in ("), tokens_Quote, (tokens_text ","), tokens_Quote, (tokens_text ")") by done.
  rewrite (tokens_text " AND branch_id:="), tokens_Quote, tokens_text, Hc by by try apply resume_no_quote.
  cbn. by rewrite ?append_assoc.
Qed.

(** ** Witness *)

Module Witness.
#[local] Instance plain_runes : Unicode := { IsPrint := λ _, true }.

(** A value that tries to end its literal. *)
Definition hostile : string :=
  String double_quote (") OR branch_id:=" +:+ String double_quote "other").

Definition asked : list LogFilter :=
  [mkLogFilter "instance" "in" [hostile; "pod-1"%string] ""; mkLogFilter "body" "contains" [] hostile].

Definition query : string := match buildLogsQL "ns" "br" asked 7 with Ok s => s | Err _ => "" end.

Lemma log_query_keeps_its_scope_witness :
  tokens Outside "" query =
  Some (query_shape asked 7,
        ["ns"; "postgres"; "postgres"; "pgaudit"; "br"; hostile; "pod-1"; QuoteMeta hostile])%string.
Proof. exact (log_query_keeps_its_scope "ns" "br" asked 7 query eq_refl). Defined.
End Witness.
