(* ===== verification/MetricQueries.v ===== *)
(** * Metrics of a branch: [services/clusters/observability/metrics.go] and [vm_client.go]

    One PromQL expression for each metric and aggregation.  The main result is
    that whatever the instances are called, an expression selects series of the
    branch alone: each value stays inside the literal it is quoted in. *)

From Stdlib Require Import SpecFloat.
From stdpp Require Import pretty.
From S2P Require Import Prelude GoStrings GoFloat GoTime GoText LogQueries.

#[local] Open Scope Z_scope.
#[local] Open Scope go_scope.

Inductive MetricKind := Counter | Gauge.

Definition scrapeInterval : Z := 30 * Second.

Record MetricInfo := mkMetricInfo {
  mi_PromName : string;
  mi_Unit : string;
  mi_Kind : MetricKind;
  mi_SpaceAggDefault : string;
  mi_TemporalAggDefault : string;
  mi_AdditionalLabels : gmap string string;
  mi_ExcludeLabels : gmap string string;
  mi_WithinPodCombiner : string
}.

Definition counter (name unit temporal : string) : MetricInfo := mkMetricInfo name unit Counter "" temporal ∅ ∅ "".
Definition gauge (name unit space : string) : MetricInfo := mkMetricInfo name unit Gauge space "" ∅ ∅ "".

Definition metricCatalog : list (string * MetricInfo) :=
  [("cpu", mkMetricInfo "container_cpu_usage_seconds_total" "percentage" Counter "" "rate" ∅ {["container" := ""]} "sum");
   ("memory", gauge "container_memory_working_set_bytes" "bytes" "avg");
   ("disk", gauge "cnpg_pg_database_size_bytes" "bytes" "sum");
   ("connections_active", gauge "cnpg_pg_stat_activity_connections_active" "connections" "sum");
   ("connections_idle", gauge "cnpg_pg_stat_activity_connections_idle" "connections" "sum");
   ("network_ingress", counter "container_network_receive_bytes_total" "bytes" "increase");
   ("network_egress", counter "container_network_transmit_bytes_total" "bytes" "increase");
   ("iops_read", counter "cnpg_pg_stat_io_total_reads" "iops" "rate");
   ("iops_write", counter "cnpg_pg_stat_io_total_writes" "iops" "rate");
   ("latency_read", counter "cnpg_pg_stat_io_total_read_time_ms" "ms" "rate");
   ("latency_write", counter "cnpg_pg_stat_io_total_write_time_ms" "ms" "rate");
   ("throughput_read", counter "container_fs_reads_bytes_total" "bytes" "rate");
   ("throughput_write", counter "container_fs_writes_bytes_total" "bytes" "rate");
   ("wal_sync_time", counter "cnpg_collector_wal_sync_time" "ms" "rate");
   ("replication_lag_time", gauge "cnpg_pg_replication_lag" "s" "avg")]%string.

Definition LookupMetric (name : string) : option MetricInfo :=
  snd <$> List.find (λ kv, bool_decide (kv.1 = name)) metricCatalog.

Definition validAggregations : list string := ["avg"; "min"; "max"; "sum"]%string.

(** ** Steps and windows *)

Definition CalculateStep (from to : Z) : Z :=
  let diff := TimeSub to from in
  if diff <? 24 * Hour then Minute
  else if diff <? 3 * 24 * Hour then 15 * Minute
  else if diff <? 7 * 24 * Hour then 30 * Minute
  else if diff <? 30 * 24 * Hour then Hour
  else 6 * Hour.

Definition rateWindow (step : Z) : Z := if step <? 4 * scrapeInterval then 4 * scrapeInterval else step.

Definition formatRange (step : Z) : string :=
  if (Hour <=? step) && (Z.rem step Hour =? 0) then pretty (Z.quot step Hour) +:+ "h"
  else if Z.rem step Minute =? 0 then pretty (Z.quot step Minute) +:+ "m"
  else pretty (Z.quot step Second) +:+ "s".

(** ** Matchers *)

(** A label, how it is compared, and with what. *)
Record condition := mkCondition { cn_label : string; cn_op : string; cn_value : string }.

Definition instance_pattern (instances : list string) : string :=
  "^(" +:+ Join "|" (map QuoteMeta instances) +:+ ")$".

Section Queries.
Context `{Unicode} `{MapRange}.

(** The labels of a map, in the order they are ranged over. *)
Definition label_conditions (op : string) (labels : gmap string string) : list condition :=
  omap (λ k, mkCondition k op <$> labels !! k) (range_keys (dom labels)).

Definition conditions (namespace branchID : string) (instances : list string) (extra exclude : gmap string string)
    : list condition :=
  [mkCondition "namespace" "=" namespace; mkCondition "branch_id" "=" branchID]
  ++ (if bool_decide (instances = []) then [] else [mkCondition "pod" "=~" (instance_pattern instances)])
  ++ label_conditions "=" extra ++ label_conditions "!=" exclude.

Definition render (c : condition) : string := cn_label c +:+ cn_op c +:+ Quote (cn_value c).

Definition buildMatchers (namespace branchID : string) (instances : list string) (extra exclude : gmap string string)
    : string :=
  Join "," (map render (conditions namespace branchID instances extra exclude)).

(** ** Expressions *)

Definition buildPromQL (info : MetricInfo) (userAgg matchers : string) (step : Z) : string :=
  match mi_Kind info with
  | Counter =>
      let inner := mi_TemporalAggDefault info +:+ "(" +:+ mi_PromName info +:+ "{" +:+ matchers +:+ "}["
                     +:+ formatRange (rateWindow step) +:+ "])" in
      let inner := if bool_decide (mi_WithinPodCombiner info = "") then inner
                   else mi_WithinPodCombiner info +:+ " by (pod) (" +:+ inner +:+ ")" in
      userAgg +:+ " by (pod) (" +:+ inner +:+ ")"
  | Gauge =>
      if bool_decide (mi_SpaceAggDefault info = "") then
        userAgg +:+ " by (pod) (" +:+ mi_PromName info +:+ "{" +:+ matchers +:+ "})"
      else
        mi_SpaceAggDefault info +:+ " by (pod) (" +:+ userAgg +:+ "_over_time(" +:+ mi_PromName info +:+ "{"
          +:+ matchers +:+ "}[" +:+ formatRange step +:+ "]))"
  end.

(** ** The fan-out *)

Record PromSample := mkPromSample { ps_Timestamp : Z; ps_Value : float64 }.
Record PromSeries := mkPromSeries { pm_Labels : gmap string string; pm_Values : list PromSample }.

(** [float32(f)]: rounded to nearest even. *)
Definition to_float32 (f : float64) : spec_float :=
  match f with S754_finite s m e => binary_round 24 128 s m e | f => f end.

Record MetricValue := mkMetricValue { mv_Timestamp : Z; mv_Value : spec_float }.
Record MetricSeries := mkMetricSeries { ms_Aggregation : string; ms_InstanceID : string; ms_Values : list MetricValue }.
Record Result := mkResult { re_Metric : string; re_Unit : string; re_Series : list MetricSeries }.

Inductive metrics_error := ErrInvalidMetricsRequest (msg : string) | MetricsFailed (msg : string).

Definition toMetricValues (samples : list PromSample) : list MetricValue :=
  map (λ s, mkMetricValue (ps_Timestamp s) (to_float32 (ps_Value s))) samples.

Definition to_series (agg : string) (s : PromSeries) : MetricSeries :=
  mkMetricSeries agg (default "" (pm_Labels s !! "pod")) (toMetricValues (pm_Values s)).

(** [VMClient.QueryRange]: what the Prometheus client answers is a matrix or
    something else; samples that are not numbers are dropped. *)
Inductive prom_value := Matrix (streams : list PromSeries) | OtherValue (type : string).

Definition is_number (f : float64) : bool := match f with S754_nan | S754_infinity _ => false | _ => true end.

Definition QueryRange (api : string → Z → Z → Z → res string prom_value) (query : string) (from to step : Z)
    : res string (list PromSeries) :=
  match api query from to step with
  | Err e => Err ("query_range: " +:+ e)
  | Ok (OtherValue type) => Err ("unexpected result type " +:+ type +:+ ", want matrix")
  | Ok (Matrix streams) =>
      Ok (map (λ s, mkPromSeries (pm_Labels s) (List.filter (λ v, is_number (ps_Value v)) (pm_Values s))) streams)
  end.

(** The task of one metric and aggregation. *)
Definition task (backend : string → Z → Z → Z → res string (list PromSeries)) (namespace branchID : string)
    (instances : list string) (from to : Z) (metric : string * MetricInfo) (agg : string) : res string (list MetricSeries) :=
  let '(m, info) := metric in
  let matchers := buildMatchers namespace branchID instances (mi_AdditionalLabels info) (mi_ExcludeLabels info) in
  let step := CalculateStep from to in
  match backend (buildPromQL info agg matchers step) from to step with
  | Err e => Err ("query backend (metric=" +:+ m +:+ " agg=" +:+ agg +:+ "): " +:+ e)
  | Ok series => Ok (map (to_series agg) series)
  end.

Fixpoint lookup_all (metrics : list string) : res metrics_error (list (string * MetricInfo)) :=
  match metrics with
  | [] => Ok []
  | m :: metrics =>
      match LookupMetric m with
      | None => Err (ErrInvalidMetricsRequest ("unknown metric: " +:+ m))
      | Some info => rest <~ lookup_all metrics; Ok ((m, info) :: rest)
      end
  end.

Definition errors_of {A} (l : list (res string A)) : list string :=
  omap (λ r, match r with Err e => Some e | Ok _ => None end) l.
Definition values_of {A} (l : list (res string (list A))) : list A :=
  l ≫= (λ r, match r with Ok v => v | Err _ => [] end).

(** [first]: of the errors of the tasks that fail, the one that is reported,
    that of the task which fails first. *)
Definition MetricsQuery (first : list string → string) (backend : string → Z → Z → Z → res string (list PromSeries))
    (namespace branchID : string) (metrics instances aggregations : list string) (from to : Z)
    : res metrics_error (list Result) :=
  if bool_decide (metrics = []) then Err (ErrInvalidMetricsRequest "at least one metric is required")
  else if bool_decide (aggregations = []) then Err (ErrInvalidMetricsRequest "at least one aggregation is required")
  else
    match List.find (λ a, negb (bool_decide (a ∈ validAggregations))) aggregations with
    | Some agg => Err (ErrInvalidMetricsRequest ("unsupported aggregation: " +:+ agg))
    | None =>
        infos <~ lookup_all metrics;
        let slots := map (λ m, map (task backend namespace branchID instances from to m) aggregations) infos in
        match errors_of (concat slots) with
        | [] => Ok (zip_with (λ (m : string * MetricInfo) slot, mkResult m.1 (mi_Unit m.2) (values_of slot)) infos slots)
        | errors => Err (MetricsFailed (first errors))
        end
    end.
End Queries.

(** ** Lemmas *)

Definition emptied (c : condition) : string := cn_label c +:+ cn_op c +:+ empty_literal.

(** The names in a condition and in an expression hold no quotation mark. *)
Definition plain (s : string) : Prop := contains_byte double_quote s = false.
Definition plain_condition (c : condition) : Prop := plain (cn_label c +:+ cn_op c).
Definition plain_info (info : MetricInfo) : Prop :=
  plain (mi_PromName info) ∧ plain (mi_SpaceAggDefault info) ∧ plain (mi_TemporalAggDefault info)
  ∧ plain (mi_WithinPodCombiner info) ∧ (∀ k, k ∈ dom (mi_AdditionalLabels info) ∪ dom (mi_ExcludeLabels info) → plain k).

Lemma plain_app a b : plain (a +:+ b) ↔ plain a ∧ plain b.
Proof. unfold plain. by rewrite contains_byte_app, orb_false_iff. Qed.

Lemma tokens_Join_render `{Unicode} l t :
  Forall plain_condition l →
  tokens Outside "" (Join "," (map render l) +:+ t) =
  '(text, literals) ← tokens Outside "" t; Some (Join "," (map emptied l) +:+ text, map cn_value l ++ literals).
Proof.
  assert (∀ c t, plain_condition c → tokens Outside "" (render c +:+ t) =
    '(text, literals) ← tokens Outside "" t; Some (emptied c +:+ text, cn_value c :: literals)) as Hone.
  { intros c u Hc. unfold render, emptied. rewrite <-!(append_assoc (cn_label c)), (append_assoc (_ +:+ _) (Quote _)).
    rewrite tokens_text, tokens_Quote by exact Hc. destruct (tokens Outside "" u) as [[]|]; [|done].
    cbn. by rewrite !append_assoc. }
  induction l as [|c [|c' l] IH]; intros Hl.
  - simpl. by destruct (tokens Outside "" t) as [[]|].
  - apply Forall_cons in Hl as [Hc _]. by apply Hone.
  - apply Forall_cons in Hl as [Hc Hl].
    change (Join "," (map render (c :: c' :: l))) with (render c +:+ "," +:+ Join "," (map render (c' :: l))).
    change (Join "," (map emptied (c :: c' :: l))) with (emptied c +:+ "," +:+ Join "," (map emptied (c' :: l))).
    rewrite !append_assoc, Hone, tokens_text, IH by done.
    destruct (tokens Outside "" t) as [[]|]; [|done]. cbn. by rewrite !append_assoc.
Qed.

Section Scope.
Context `{Unicode} `{MapRange}.

Lemma label_conditions_plain op (labels : gmap string string) :
  plain op → (∀ k, k ∈ dom labels → plain k) → Forall plain_condition (label_conditions op labels).
Proof.
  intros Hop Hk. apply Forall_forall. intros c Hc. apply list_elem_of_omap in Hc as (k & Hr & Hl).
  rewrite range_perm, elem_of_elements in Hr. destruct (labels !! k); [|done]. injection Hl as <-.
  apply plain_app. split; [by apply Hk|done].
Qed.

Lemma conditions_plain namespace branchID instances extra exclude :
  (∀ k, k ∈ dom extra ∪ dom exclude → plain k) →
  Forall plain_condition (conditions namespace branchID instances extra exclude).
Proof.
  intros Hk. unfold conditions. apply Forall_app. split; [by repeat constructor|].
  apply Forall_app. split; [case_bool_decide; [done|by repeat constructor]|].
  apply Forall_app. split; apply label_conditions_plain; try done; intros k Hin; apply Hk; set_solver.
Qed.

Lemma formatRange_plain step : 0 ≤ step → plain (formatRange step).
Proof.
  intros Hs. assert (∀ n, 0 ≤ n → plain (pretty n)) as Hp.
  { intros n Hn. destruct n as [|p|p]; [done|exact (pretty_N_no_quote (N.pos p))|lia]. }
  unfold formatRange. repeat destruct (_ && _) || destruct (_ =? _); apply plain_app; split; try done;
    apply Hp, Z.quot_pos; unfold Hour, Minute, Second, Millisecond, Microsecond, Nanosecond; lia.
Qed.

Lemma CalculateStep_nonneg from to : 0 ≤ CalculateStep from to.
Proof.
  unfold CalculateStep. repeat destruct (_ <? _);
    unfold Hour, Minute, Second, Millisecond, Microsecond, Nanosecond; lia.
Qed.

Lemma rateWindow_nonneg step : 0 ≤ step → 0 ≤ rateWindow step.
Proof.
  intros Hs. unfold rateWindow, scrapeInterval. destruct (_ <? _); [|done].
  unfold Second, Millisecond, Microsecond, Nanosecond. lia.
Qed.

(** Every metric of the catalogue is written with plain names. *)
Definition plain_infob (info : MetricInfo) : bool :=
  forallb (λ s, negb (contains_byte double_quote s))
    ([mi_PromName info; mi_SpaceAggDefault info; mi_TemporalAggDefault info; mi_WithinPodCombiner info]
     ++ elements (dom (mi_AdditionalLabels info) ∪ dom (mi_ExcludeLabels info))).

Lemma plain_infob_spec info : plain_infob info = true → plain_info info.
Proof.
  unfold plain_infob. rewrite forallb_forall. intros Hall.
  assert (∀ s, s ∈ [mi_PromName info; mi_SpaceAggDefault info; mi_TemporalAggDefault info; mi_WithinPodCombiner info]
     ++ elements (dom (mi_AdditionalLabels info) ∪ dom (mi_ExcludeLabels info)) → plain s) as Hp.
  { intros s Hs. by apply negb_true_iff, Hall, list_elem_of_In. }
  split_and!; [apply Hp; set_solver..|]. intros k Hk. apply Hp, elem_of_app. right. by apply elem_of_elements.
Qed.

Lemma LookupMetric_plain name info : LookupMetric name = Some info → plain_info info.
Proof.
  assert (forallb (λ kv, plain_infob kv.2) metricCatalog = true) as Hall by by vm_compute.
  rewrite forallb_forall in Hall. unfold LookupMetric. destruct (List.find _ _) as [[k i]|] eqn:Hf; [|done].
  intros [= <-]. apply plain_infob_spec. apply List.find_some in Hf as [Hin _]. exact (Hall _ Hin).
Qed.

(** The text around the matchers does not depend on them. *)
Lemma buildPromQL_around info agg step : plain_info info → plain agg → 0 ≤ step →
  ∃ before after, plain before ∧ plain after ∧ ∀ matchers, buildPromQL info agg matchers step = before +:+ matchers +:+ after.
Proof.
  intros (Hname & Hspace & Htime & Hcomb & _) Ha Hs. pose proof (formatRange_plain step Hs) as Hr.
  pose proof (formatRange_plain (rateWindow step) (rateWindow_nonneg _ Hs)) as Hw.
  unfold buildPromQL. destruct (mi_Kind info); case_bool_decide as Hc.
  - exists (agg +:+ " by (pod) (" +:+ mi_TemporalAggDefault info +:+ "(" +:+ mi_PromName info +:+ "{"),
      ("}[" +:+ formatRange (rateWindow step) +:+ "])" +:+ ")").
    rewrite !plain_app. split_and!; try done. intros matchers. by rewrite !append_assoc.
  - exists (agg +:+ " by (pod) (" +:+ mi_WithinPodCombiner info +:+ " by (pod) (" +:+ mi_TemporalAggDefault info +:+ "("
        +:+ mi_PromName info +:+ "{"), ("}[" +:+ formatRange (rateWindow step) +:+ "])" +:+ ")" +:+ ")").
    rewrite !plain_app. split_and!; try done. intros matchers. by rewrite !append_assoc.
  - exists (agg +:+ " by (pod) (" +:+ mi_PromName info +:+ "{"), "})"%string.
    rewrite !plain_app. split_and!; try done. intros matchers. by rewrite !append_assoc.
  - exists (mi_SpaceAggDefault info +:+ " by (pod) (" +:+ agg +:+ "_over_time(" +:+ mi_PromName info +:+ "{"),
      ("}[" +:+ formatRange step +:+ "]))").
    rewrite !plain_app. split_and!; try done. intros matchers. by rewrite !append_assoc.
Qed.

(** ** The main result *)

(** Every expression that is sent for a branch selects by the namespace and the
    branch.  Read token by token it is the expression with empty literals, whose
    text does not depend on the values; the first two literals denote the
    namespace and the branch, and the next one the pattern of the instances when
    some are asked for. *)
Theorem metric_query_keeps_its_scope name info agg namespace branchID instances from to :
  LookupMetric name = Some info → agg ∈ validAggregations →
  let asked := conditions namespace branchID instances (mi_AdditionalLabels info) (mi_ExcludeLabels info) in
  let step := CalculateStep from to in
  let matchers := buildMatchers namespace branchID instances (mi_AdditionalLabels info) (mi_ExcludeLabels info) in
  tokens Outside "" (buildPromQL info agg matchers step) =
  Some (buildPromQL info agg (Join "," (map emptied asked)) step,
        namespace :: branchID :: (if bool_decide (instances = []) then [] else [instance_pattern instances])
        ++ map cn_value (label_conditions "=" (mi_AdditionalLabels info))
        ++ map cn_value (label_conditions "!=" (mi_ExcludeLabels info))).
Proof.
  intros Hm Ha. cbn zeta. apply LookupMetric_plain in Hm as Hi.
  assert (plain agg) as Hagg by (unfold validAggregations in Ha; rewrite !elem_of_cons, elem_of_nil in Ha; naive_solver).
  destruct (buildPromQL_around info agg (CalculateStep from to)) as (before & after & Hb & Hf & E);
    [done|done|apply CalculateStep_nonneg|]. rewrite !E, tokens_text by done. unfold buildMatchers.
  rewrite tokens_Join_render by (apply conditions_plain, Hi).
  rewrite <-(append_nil_r after), tokens_text, append_nil_r by done. cbn [tokens mbind option_bind].
  do 2 f_equal; [by rewrite !append_nil_r|]. rewrite app_nil_r. unfold conditions. rewrite !map_app. cbn [map cn_value app].
  by case_bool_decide.
Qed.
End Scope.

(** ** Witness *)

Module Witness.
#[local] Instance plain_runes : Unicode := { IsPrint := λ _, true }.
#[local] Instance range : MapRange := { range_keys := elements; range_perm := λ s, reflexivity _ }.

(** An instance whose name tries to end its literal. *)
Definition hostile : string := String double_quote (",branch_id=" +:+ String double_quote "other").

Definition cpu : MetricInfo := default (counter "" "" "") (LookupMetric "cpu").
Definition matchers : string := buildMatchers "ns" "br" [hostile] (mi_AdditionalLabels cpu) (mi_ExcludeLabels cpu).

Lemma metric_query_keeps_its_scope_witness :
  tokens Outside "" (buildPromQL cpu "avg" matchers (CalculateStep 0 Hour)) =
  Some (buildPromQL cpu "avg"
          (Join "," (map emptied (conditions "ns" "br" [hostile] (mi_AdditionalLabels cpu) (mi_ExcludeLabels cpu))))
          (CalculateStep 0 Hour),
        ["ns"; "br"; instance_pattern [hostile]; ""])%string.
Proof.
  etransitivity; [apply (metric_query_keeps_its_scope "cpu" cpu "avg" "ns" "br" [hostile] 0 Hour)|by vm_compute].
  - reflexivity.
  - apply (bool_decide_unpack _). by vm_compute.
Defined.
End Witness.
