(* ===== verification/LogEntries.v ===== *)
(** * Log entries: [services/clusters/observability/logs.go] and [internal/grpc/pagination]

    A row of VictoriaLogs becomes an entry: the message is taken out of CNPG's
    envelope, the password of a role statement is cut off, and a long message
    is clipped.  The main result is that nothing of a password reaches the
    entry. *)

From S2P Require Import Prelude GoStrings GoFloat GoText LogQueries.

#[local] Open Scope Z_scope.
#[local] Open Scope go_scope.

Definition maxLogPageBytes : Z := 8 * 1024 * 1024.
Definition maxLogMessageBytes : Z := 1024 * 1024.
Definition rowKeyMessageBytes : nat := 2048.

(** The ellipsis of the marker takes three bytes. *)
Definition logTruncationMarker : string :=
  String (byte 226) (String (byte 128) (String (byte 166) " [truncated]")).

Record LogRow := mkLogRow {
  lr_Timestamp : Z;
  lr_Pod : string;
  lr_Severity : string;
  lr_Process : string;
  lr_Message : string
}.

Record LogEntry := mkLogEntry {
  le_Timestamp : Z;
  le_InstanceID : string;
  le_Level : string;
  le_Message : string;
  le_Process : string
}.

(** ** [internal/grpc/pagination] *)

Record Page := mkPage { pg_budget : Z; pg_used : Z; pg_count : Z; pg_stopped : bool }.

Definition new_page (budget : Z) : Page := mkPage budget 0 0 false.

Definition Add (p : Page) (size : Z) : Page * bool :=
  if (0 <? pg_count p) && (pg_budget p <? pg_used p + size)
  then (mkPage (pg_budget p) (pg_used p) (pg_count p) true, false)
  else (mkPage (pg_budget p) (pg_used p + size) (pg_count p + 1) (pg_stopped p), true).

Definition len (s : string) : Z := Z.of_nat (String.length s).

(** [utf8.RuneStart] *)
Definition RuneStart (c : ascii) : bool := negb (between 128 (byte_val c) 191).

(** The cut moves back to the start of a rune. *)
Fixpoint rune_cut (cut : nat) (s : string) : nat :=
  match cut with
  | O => O
  | S n => match String.get cut s with
           | Some c => if RuneStart c then cut else rune_cut n s
           | None => cut
           end
  end.

Definition Truncate (s marker : string) (n : Z) : string :=
  if len s <=? n then s
  else take_str (rune_cut (Z.to_nat (n - len marker)) s) s +:+ marker.

(** ** Passwords *)

(** A letter of the pattern, in any case; the letter s also matches U+017F. *)
Definition fold_letter (p : ascii) (s : string) : option string :=
  match s with
  | EmptyString => None
  | String c t =>
      if bool_decide (to_lower_byte c = p) then Some t
      else if bool_decide (p = "s"%char) && bool_decide (c = byte 197)
      then match t with
           | String d u => if bool_decide (d = byte 191) then Some u else None
           | EmptyString => None
           end
      else None
  end.

Fixpoint word (w s : string) : option string :=
  match w with
  | EmptyString => Some s
  | String p w => rest ← fold_letter p s; word w rest
  end.

Definition word_byte (c : ascii) : bool :=
  let n := byte_val c in between 48 n 57 || between 65 n 90 || between 97 n 122 || (n =? 95).

Definition starts_word (s : string) : bool := match s with String c _ => word_byte c | EmptyString => false end.

(** [\s] *)
Definition space_byte (c : ascii) : bool :=
  let n := byte_val c in (n =? 9) || (n =? 10) || (n =? 12) || (n =? 13) || (n =? 32).

Fixpoint skip_spaces (s : string) : string :=
  match s with
  | String c t => if space_byte c then skip_spaces t else s
  | EmptyString => s
  end.

Definition spaces (s : string) : option string :=
  match s with String c t => if space_byte c then Some (skip_spaces t) else None | EmptyString => None end.

Definition or_else {A} (a b : option A) : option A := match a with Some _ => a | None => b end.

(** [(?:create|alter)\s+(?:role|user|group)\b] at the head of a text: what
    follows it. *)
Definition role_statement (s : string) : option string :=
  s ← or_else (word "create" s) (word "alter" s);
  s ← spaces s;
  s ← or_else (word "role" s) (or_else (word "user" s) (word "group" s));
  if starts_word s then None else Some s.

(** [.*?\bpassword\b]: what follows the first such keyword; [prev] says
    whether the byte before the text belongs to a word. *)
Definition password_here (prev : bool) (s : string) : option string :=
  if prev then None
  else rest ← word "password" s; if starts_word rest then None else Some rest.

Fixpoint after_password (prev : bool) (s : string) : option string :=
  or_else (password_here prev s)
    match s with
    | EmptyString => None
    | String c t => after_password (word_byte c) t
    end.

(** What the leftmost match replaces. *)
Fixpoint secret (s : string) : option string :=
  or_else (rest ← role_statement s; after_password true rest)
    match s with
    | EmptyString => None
    | String _ t => secret t
    end.

Definition redaction : string := " <REDACTED>".

Definition redactPassword (s : string) : string :=
  match secret s with
  | Some rest => take_str (String.length s - String.length rest) s +:+ redaction
  | None => s
  end.

(** ** Envelopes *)

Definition member (key : string) (m : list (string * json)) : option json :=
  snd <$> List.find (λ kv, bool_decide (kv.1 = key)) m.
Definition string_member (key : string) (m : list (string * json)) : string :=
  match member key m with Some (JString s) => s | _ => "" end.
Definition object_member (key : string) (m : list (string * json)) : option (list (string * json)) :=
  match member key m with Some (JObject o) => Some o | _ => None end.

Definition pgauditRecordFields : list string :=
  ["audit_type"; "statement_id"; "substatement_id"; "class"; "command";
   "object_type"; "object_name"; "statement"; "parameter"]%string.

(** The record ends with a line break, which is trimmed. *)
Definition renderPgAuditRecord (audit : list (string * json)) : string :=
  let fields := map (λ key, string_member key audit) pgauditRecordFields in
  let rows := string_member "rows" audit in
  "AUDIT: " +:+ Join "," (map csv_field (fields ++ if bool_decide (rows = "") then [] else [rows])).

(** [json.Unmarshal] into a map. *)
Class JSON := { UnmarshalObject : string → option (list (string * json)) }.

Section Rows.
Context `{JSON}.

Definition unwrapCNPGBody (body : string) : string * string :=
  if negb (HasPrefix body "{") || negb (HasSuffix body "}") then (body, "")
  else
    match UnmarshalObject body with
    | None => (body, "")
    | Some parsed =>
        let logger := string_member "logger" parsed in
        let unwrapped :=
          match object_member "record" parsed with
          | None => None
          | Some record =>
              match object_member "audit" record with
              | Some audit => Some (renderPgAuditRecord audit)
              | None => let msg := string_member "message" record in
                        if bool_decide (msg = "") then None else Some msg
              end
          end in
        match unwrapped with
        | Some msg => (msg, logger)
        | None => let msg := string_member "msg" parsed in
                  if bool_decide (msg = "") then (body, logger) else (msg, logger)
        end
    end%string.

(** [strings.ToUpper] as far as its result can be a severity: the letters that
    have an ASCII capital are those of ASCII, U+0131 and U+017F. *)
Fixpoint to_upper (s : string) : string :=
  match s with
  | EmptyString => EmptyString
  | String c ((String d u) as t) =>
      if bool_decide (c = byte 196) && bool_decide (d = byte 177) then String "I" (to_upper u)
      else if bool_decide (c = byte 197) && bool_decide (d = byte 191) then String "S" (to_upper u)
      else String (if between 97 (byte_val c) 122 then byte (byte_val c - 32) else c) (to_upper t)
  | String c t => String (if between 97 (byte_val c) 122 then byte (byte_val c - 32) else c) (to_upper t)
  end.

(** The entry of a row. *)
Definition entry_of (r : LogRow) : LogEntry :=
  let '(message, logger) := unwrapCNPGBody (lr_Message r) in
  mkLogEntry (lr_Timestamp r) (lr_Pod r) (severityToLevel (to_upper (lr_Severity r)))
    (Truncate (redactPassword message) logTruncationMarker maxLogMessageBytes)
    (if bool_decide (logger = "pgaudit"%string) then "pgaudit" else lr_Process r).
End Rows.

(** ** Keys of rows *)

Definition hash_piece (h : Z) (s : string) : Z := fnv1a (fnv1a h s) (String (byte 0) EmptyString).

Definition rowKey (r : LogRow) : string :=
  FormatHex (foldl hash_piece fnv_offset
    [lr_Pod r; lr_Severity r; lr_Process r; take_str rowKeyMessageBytes (lr_Message r)]).

(** ** What a text may be followed by *)

(** Whether the byte before the end of a text belongs to a word. *)
Fixpoint ends_word (prev : bool) (s : string) : bool :=
  match s with
  | EmptyString => prev
  | String c t => ends_word (word_byte c) t
  end.

Definition is_statement (st : string) : Prop := ∀ u, starts_word u = false → role_statement (st +:+ u) = Some u.
Definition is_keyword (k : string) : Prop := word "password" k = Some ""%string.

(** A text that ends with a match of the group of the pattern: a role
    statement, anything, and the keyword as a word of its own. *)
Definition ends_with_keyword (p : string) : Prop :=
  ∃ before st middle k, p = before +:+ st +:+ middle +:+ k
    ∧ is_statement st ∧ starts_word middle = false ∧ ends_word true middle = false ∧ is_keyword k.

(** How the keyword begins: no other word of the pattern runs into it. *)
Definition key_head (x : string) : Prop :=
  ∃ c t, x = String c t ∧ to_lower_byte c = "p"%char ∧ starts_word t = true.

(** ** Words *)

Lemma fold_letter_app p s t x : fold_letter p s = Some t → fold_letter p (s +:+ x) = Some (t +:+ x).
Proof.
  destruct s as [|c s]; [done|]. simpl. case_bool_decide; [by intros [= ->]|].
  destruct (_ && _); [|done]. destruct s as [|d s]; [done|]. simpl. case_bool_decide; by intros [= ->].
Qed.

Lemma word_app w s t x : word w s = Some t → word w (s +:+ x) = Some (t +:+ x).
Proof.
  revert s. induction w as [|p w IH]; intros s; simpl; [by intros [= ->]|].
  destruct (fold_letter p s) as [u|] eqn:Hf; [|done]. intros Hw. rewrite (fold_letter_app _ _ _ _ Hf). by apply IH.
Qed.

Lemma fold_letter_prefix p s t : fold_letter p s = Some t → ∃ k, s = k +:+ t ∧ fold_letter p k = Some ""%string.
Proof.
  destruct s as [|c s]; [done|]. simpl. destruct (bool_decide (to_lower_byte c = p)) eqn:Hc.
  - intros [= ->]. exists (String c ""). simpl. by rewrite Hc.
  - destruct (_ && _) eqn:Hs; [|done]. destruct s as [|d s]; [done|].
    destruct (bool_decide (d = byte 191)) eqn:Hd; [|done]. intros [= ->].
    exists (String c (String d "")). split; [done|]. by cbn [fold_letter]; rewrite Hc, Hs, Hd.
Qed.

Lemma word_prefix w s t : word w s = Some t → ∃ k, s = k +:+ t ∧ word w k = Some ""%string.
Proof.
  revert s. induction w as [|p w IH]; intros s; simpl; [intros [= ->]; by exists ""%string|].
  destruct (fold_letter p s) as [u|] eqn:Hf; [|done]. intros Hw.
  destruct (IH _ Hw) as (k & -> & Hk). destruct (fold_letter_prefix _ _ _ Hf) as (c & -> & Hc).
  exists (c +:+ k). split; [by rewrite append_assoc|]. by rewrite (fold_letter_app _ _ _ _ Hc).
Qed.

Lemma keyword_head k x : is_keyword k → key_head (k +:+ x).
Proof.
  intros Hk. destruct k as [|c [|d k]]; [done| |].
  - unfold is_keyword in Hk. simpl in Hk. by case_bool_decide.
  - exists c, (String d (k +:+ x)). unfold is_keyword in Hk.
    cbn [word fold_letter] in Hk. destruct (bool_decide (to_lower_byte c = "p"%char)) eqn:Hc; [|done].
    apply bool_decide_eq_true in Hc. split; [done|split; [done|]]. cbn [mbind option_bind fold_letter] in Hk.
    destruct (bool_decide (to_lower_byte d = "a"%char)) eqn:Hd; [|done].
    apply bool_decide_eq_true in Hd. clear -Hd. by destruct d as [[] [] [] [] [] [] [] []]; vm_compute in *.
Qed.

Lemma key_head_starts x : key_head x → starts_word x = true.
Proof. intros (c & t & -> & Hc & _). clear -Hc. by destruct c as [[] [] [] [] [] [] [] []]; vm_compute in *. Qed.

(** A word without the letter p stops before the keyword, so that what stands
    there does not matter. *)
Lemma fold_letter_stops p q x u : p ≠ "p"%char → key_head x → fold_letter p (q +:+ x) = Some u →
  ∃ q', u = q' +:+ x ∧ ∀ y, fold_letter p (q +:+ y) = Some (q' +:+ y).
Proof.
  intros Hp (c & t & -> & Hc & _). destruct q as [|a q]; simpl.
  - rewrite bool_decide_eq_false_2 by congruence. destruct (_ && _) eqn:Hs; [|done].
    apply andb_prop in Hs as [_ Hs]. apply bool_decide_eq_true in Hs. subst c. by vm_compute in Hc.
  - destruct (bool_decide (to_lower_byte a = p)); [intros [= <-]; by exists q|]. destruct (_ && _); [|done].
    destruct q as [|d q]; simpl.
    + case_bool_decide as Hd; [|done]. subst c. by vm_compute in Hc.
    + case_bool_decide; [|done]. intros [= <-]. by exists q.
Qed.

Lemma word_stops w q x u : contains_byte "p" w = false → key_head x → word w (q +:+ x) = Some u →
  ∃ q', u = q' +:+ x ∧ ∀ y, word w (q +:+ y) = Some (q' +:+ y).
Proof.
  intros Hw Hx. revert q. induction w as [|p w IH]; intros q; simpl in *; [intros [= <-]; by exists q|].
  apply orb_false_elim in Hw as [Hp Hw]. apply bool_decide_eq_false in Hp.
  destruct (fold_letter p (q +:+ x)) as [v|] eqn:Hf; [|done]. intros Hv.
  destruct (fold_letter_stops _ _ _ _ Hp Hx Hf) as (q1 & -> & H1). destruct (IH Hw _ Hv) as (q2 & -> & H2).
  exists q2. split; [done|]. intros y. by rewrite H1, <-H2.
Qed.

(** ** Role statements *)

Definition command (s : string) : option string := or_else (word "create" s) (word "alter" s).
Definition object (s : string) : option string := or_else (word "role" s) (or_else (word "user" s) (word "group" s)).

Lemma role_statement_eq s :
  role_statement s = (s ← command s; s ← spaces s; s ← object s; if starts_word s then None else Some s).
Proof. done. Qed.

Lemma or_else_some {A} (a b : option A) x : or_else a b = Some x → a = Some x ∨ a = None ∧ b = Some x.
Proof. destruct a; simpl; intros [= ->]; auto. Qed.

(** Words that begin with different letters are not mistaken for each other. *)
Lemma word_cons p w c t : p ≠ "s"%char →
  word (String p w) (String c t) = if bool_decide (to_lower_byte c = p) then word w t else None.
Proof. intros Hs. cbn [word fold_letter]. rewrite (bool_decide_eq_false_2 _ Hs). by destruct (bool_decide _). Qed.

Lemma word_other p w c t :
  p ≠ "s"%char → to_lower_byte c ≠ p → word (String p w) (String c t) = None.
Proof. intros Hs Hc. by rewrite word_cons, bool_decide_eq_false_2. Qed.

Lemma command_prefix s u : command s = Some u → ∃ k, s = k +:+ u ∧ ∀ x, command (k +:+ x) = Some x.
Proof.
  intros [Hc|[_ Ha]]%or_else_some.
  - apply word_prefix in Hc as (k & -> & Hk). exists k. split; [done|]. intros x. unfold command.
    by rewrite (word_app _ _ _ x Hk).
  - apply word_prefix in Ha as (k & -> & Hk). exists k. split; [done|]. intros x. unfold command.
    rewrite (word_app _ _ _ x Hk). destruct k as [|c k]; [done|].
    assert (to_lower_byte c = "a"%char) as Hc.
    { destruct (decide (to_lower_byte c = "a"%char)); [done|]. by rewrite word_other in Hk. }
    cbn [String.append]. rewrite word_other; [done|done|]. by rewrite Hc.
Qed.

Lemma object_prefix s u : object s = Some u →
  ∃ k, s = k +:+ u ∧ starts_word k = true ∧ ∀ x, object (k +:+ x) = Some x.
Proof.
  unfold object. intros Ho.
  assert (∀ k p w, word (String p w) k = Some ""%string → p ≠ "s"%char →
    ∃ c k', k = String c k' ∧ to_lower_byte c = p) as Hhead.
  { intros k p w Hk Hp. destruct k as [|c k]; [done|].
    destruct (decide (to_lower_byte c = p)); [by eauto|]. by rewrite word_other in Hk. }
  assert (∀ c, to_lower_byte c ∈ ["r"; "u"; "g"]%char → word_byte c = true) as Hbyte.
  { intros c Hc. rewrite !elem_of_cons, elem_of_nil in Hc. clear -Hc.
    by destruct c as [[] [] [] [] [] [] [] []]; vm_compute in Hc |- *; naive_solver. }
  destruct (or_else_some _ _ _ Ho) as [Hr|[_ Ho']]; [|destruct (or_else_some _ _ _ Ho') as [Hu|[_ Hg]]].
  all: match goal with H : word _ _ = Some _ |- _ => apply word_prefix in H as (k & -> & Hk) end.
  all: exists k; split; [done|]; destruct (Hhead _ _ _ Hk) as (c & k' & -> & Hc); [done|].
  all: split; [apply Hbyte; rewrite Hc; set_solver|]; intros x; rewrite (word_app _ _ _ x Hk); cbn [String.append].
  - done.
  - by rewrite (word_other "r"); [|done|rewrite Hc].
  - by rewrite (word_other "r"), (word_other "u"); [|done|rewrite Hc|done|rewrite Hc].
Qed.

(** ** Spaces *)

Lemma append_inj_r (a b c : string) : a +:+ c = b +:+ c → a = b.
Proof.
  revert b. induction a as [|x a IH]; intros [|y b] Heq; [done| | |].
  1, 2: apply (f_equal String.length) in Heq; simpl in Heq; rewrite string_length_app in Heq; lia.
  simpl in Heq. injection Heq as -> Heq. f_equal. by apply IH.
Qed.

Definition starts_space (s : string) : bool := match s with String c _ => space_byte c | EmptyString => false end.

Lemma word_not_space s : starts_word s = true → starts_space s = false.
Proof. destruct s as [|c s]; [done|]. simpl. by destruct c as [[] [] [] [] [] [] [] []]. Qed.

Lemma starts_word_app k x : starts_word k = true → starts_word (k +:+ x) = true.
Proof. by destruct k. Qed.

Lemma skip_spaces_prefix s : ∃ sp, s = sp +:+ skip_spaces s ∧ ∀ x, starts_space x = false → skip_spaces (sp +:+ x) = x.
Proof.
  induction s as [|c s (sp & Hs & IH)].
  - exists ""%string. split; [done|]. intros [|d x]; simpl; [done|]. by intros ->.
  - simpl. destruct (space_byte c) eqn:Hc.
    + exists (String c sp). split; [simpl; by rewrite <-Hs|]. intros x Hx. simpl. rewrite Hc. by apply IH.
    + exists ""%string. split; [done|]. intros [|d x]; simpl; [done|]. by intros ->.
Qed.

Lemma spaces_prefix s u : spaces s = Some u →
  ∃ sp, s = sp +:+ u ∧ ∀ x, starts_space x = false → spaces (sp +:+ x) = Some x.
Proof.
  destruct s as [|c s]; [done|]. simpl. destruct (space_byte c) eqn:Hc; [|done]. intros [= <-].
  destruct (skip_spaces_prefix s) as (sp & Hs & Hsp). exists (String c sp).
  split; [simpl; by rewrite <-Hs|]. intros x Hx. simpl. rewrite Hc. f_equal. by apply Hsp.
Qed.

(** What a statement is followed by does not matter, unless it continues the
    last word. *)
Lemma statement_prefix s u : role_statement s = Some u →
  ∃ st, s = st +:+ u ∧ is_statement st ∧ starts_word u = false.
Proof.
  rewrite role_statement_eq. destruct (command s) as [s1|] eqn:H1; [|done]. cbn [mbind option_bind].
  destruct (spaces s1) as [s2|] eqn:H2; [|done]. cbn [mbind option_bind].
  destruct (object s2) as [s3|] eqn:H3; [|done]. cbn [mbind option_bind].
  destruct (starts_word s3) eqn:Hw; [done|]. intros [= <-].
  apply command_prefix in H1 as (k1 & -> & E1). apply spaces_prefix in H2 as (sp & -> & E2).
  apply object_prefix in H3 as (k2 & -> & Hk & E3). exists (k1 +:+ sp +:+ k2).
  split; [by rewrite !append_assoc|]. split; [|done]. intros x Hx.
  rewrite role_statement_eq, !append_assoc, E1. cbn [mbind option_bind].
  rewrite E2 by by apply word_not_space, starts_word_app. cbn [mbind option_bind].
  by rewrite E3; cbn [mbind option_bind]; rewrite Hx.
Qed.

(** ** A statement before the keyword *)

Lemma command_stops q x u : key_head x → command (q +:+ x) = Some u →
  ∃ q', u = q' +:+ x ∧ ∀ y, command (q +:+ y) = Some (q' +:+ y).
Proof.
  intros Hx Hc. destruct (command_prefix _ _ Hc) as (k & Hk & Hall).
  assert (∃ q', u = q' +:+ x) as (q' & ->).
  { apply or_else_some in Hc as [Hc|[_ Hc]]; apply word_stops in Hc as (q' & -> & _); eauto. }
  exists q'. split; [done|]. intros y. rewrite <-append_assoc in Hk. apply append_inj_r in Hk as ->.
  by rewrite append_assoc.
Qed.

Lemma spaces_stops q x y u : key_head x → key_head y → spaces (q +:+ x) = Some u →
  ∃ q', u = q' +:+ x ∧ spaces (q +:+ y) = Some (q' +:+ y).
Proof.
  intros Hx Hy Hs. apply key_head_starts, word_not_space in Hx, Hy.
  assert (∀ q, ∃ q', skip_spaces (q +:+ x) = q' +:+ x ∧ skip_spaces (q +:+ y) = q' +:+ y) as Hskip.
  { clear q Hs. induction q as [|c q (q' & IH1 & IH2)].
    - exists ""%string. split; [destruct x|destruct y]; simpl in *; by rewrite ?Hx, ?Hy.
    - simpl. destruct (space_byte c); [by exists q'|]. by exists (String c q). }
  destruct q as [|c q]; simpl in *.
  - destruct x as [|d x]; [done|]. simpl in *. by rewrite Hx in Hs.
  - destruct (space_byte c); [|done]. injection Hs as <-. destruct (Hskip q) as (q' & -> & ->). by exists q'.
Qed.

(** The word group ends where the keyword begins only if it is part of a longer
    word. *)
Lemma object_stops q x u : key_head x → object (q +:+ x) = Some u → starts_word u = false →
  ∃ q', u = q' +:+ x ∧ ∀ y, object (q +:+ y) = Some (q' +:+ y).
Proof.
  intros Hx Ho Hu. destruct (object_prefix _ _ Ho) as (k & Hk & _ & Hall).
  assert (∃ q', u = q' +:+ x) as (q' & ->).
  { apply or_else_some in Ho as [Ho|[_ Ho]]; [|apply or_else_some in Ho as [Ho|[_ Ho]]].
    1, 2: apply word_stops in Ho as (q' & -> & _); by eauto.
    change "group"%string with ("grou" +:+ "p") in Ho.
    assert (word ("grou" +:+ "p") (q +:+ x) = (v ← word "grou" (q +:+ x); fold_letter "p" v)) as Hw.
    { cbn [word String.append]. repeat (destruct (fold_letter _ _); [|done]; cbn [mbind option_bind]). done. }
    rewrite Hw in Ho. destruct (word "grou" (q +:+ x)) as [v|] eqn:Hv; [|done]. cbn [mbind option_bind] in Ho.
    apply word_stops in Hv as (q1 & -> & _); [|done|done]. destruct q1 as [|c q1].
    - destruct Hx as (c & t & -> & Hc & Ht). simpl in Ho. rewrite bool_decide_eq_true_2 in Ho by done.
      injection Ho as <-. by rewrite Hu in Ht.
    - simpl in Ho. case_bool_decide; [|done]. injection Ho as <-. by exists q1. }
  exists q'. split; [done|]. intros y. rewrite <-append_assoc in Hk. apply append_inj_r in Hk as ->.
  by rewrite append_assoc.
Qed.

Lemma append_nonempty (a b : string) : a ≠ ""%string → starts_word (a +:+ b) = starts_word a.
Proof. by destruct a. Qed.

Lemma statement_stops q x y u : key_head x → key_head y → role_statement (q +:+ x) = Some u →
  ∃ st q', q = st +:+ q' ∧ q' ≠ ""%string ∧ u = q' +:+ x ∧ role_statement (q +:+ y) = Some (q' +:+ y).
Proof.
  intros Hx Hy Hr. destruct (statement_prefix _ _ Hr) as (st & Hst & _ & Hu). rewrite role_statement_eq in Hr.
  destruct (command (q +:+ x)) as [s1|] eqn:H1; [|done]. cbn [mbind option_bind] in Hr.
  apply command_stops in H1 as (q1 & -> & E1); [|done].
  destruct (spaces (q1 +:+ x)) as [s2|] eqn:H2; [|done]. cbn [mbind option_bind] in Hr.
  apply (spaces_stops _ _ y) in H2 as (q2 & -> & E2); [|done|done].
  destruct (object (q2 +:+ x)) as [s3|] eqn:H3; [|done]. cbn [mbind option_bind] in Hr.
  assert (s3 = u ∧ starts_word s3 = false) as [-> Hw] by (destruct (starts_word s3); [done|by split; [congruence|]]).
  apply object_stops in H3 as (q3 & -> & E3); [|done|done].
  assert (q3 ≠ ""%string) as Hne by (intros ->; simpl in Hu; by rewrite (key_head_starts _ Hx) in Hu).
  exists st, q3. rewrite <-append_assoc in Hst. apply append_inj_r in Hst. split_and!; [done..|].
  rewrite role_statement_eq, E1. cbn [mbind option_bind]. rewrite E2. cbn [mbind option_bind].
  rewrite E3. cbn [mbind option_bind]. rewrite (append_nonempty q3) in Hu by done.
  by rewrite (append_nonempty q3), Hu by done.
Qed.

(** ** The first keyword *)

Lemma ends_word_nonempty prev prev' s : s ≠ ""%string → ends_word prev s = ends_word prev' s.
Proof. by destruct s. Qed.

Lemma ends_word_app prev a b : b ≠ ""%string → ends_word prev (a +:+ b) = ends_word true b.
Proof.
  intros Hb. revert prev. induction a as [|c a IH]; intros prev; [by apply ends_word_nonempty|]. apply IH.
Qed.

Lemma keyword_stops prev c q x y u : key_head x → key_head y → password_here prev (String c q +:+ x) = Some u →
  ∃ q', u = q' +:+ x ∧ password_here prev (String c q +:+ y) = Some (q' +:+ y).
Proof.
  intros Hx Hy. unfold password_here. destruct prev; [done|].
  cbn [String.append]. rewrite !word_cons by done. destruct (bool_decide (to_lower_byte c = "p"%char)); [|done].
  destruct (word "assword" (q +:+ x)) as [v|] eqn:Hw; [|done]. cbn [mbind option_bind].
  destruct (starts_word v) eqn:Hv; [done|]. intros [= <-]. apply word_stops in Hw as (q' & -> & E); [|done|done].
  exists q'. split; [done|]. rewrite E. cbn [mbind option_bind].
  assert (q' ≠ ""%string) as Hne by (intros ->; simpl in Hv; by rewrite (key_head_starts _ Hx) in Hv).
  rewrite (append_nonempty q') in Hv by done. by rewrite (append_nonempty q'), Hv by done.
Qed.

(** Two results that differ only in what follows the keyword. *)
Definition same_cut (x y : string) (r r' : option string) : Prop :=
  ∃ m, r = Some (m +:+ x) ∧ r' = Some (m +:+ y).

Section Cut.
Context (k t1 t2 : string) (Hk : is_keyword k).
Context (H1 : starts_word t1 = false) (H2 : starts_word t2 = false).

Lemma keyword_here t : starts_word t = false → password_here false (k +:+ t) = Some t.
Proof. intros Ht. unfold password_here. rewrite (word_app _ _ _ t Hk). simpl. by rewrite Ht. Qed.

Lemma after_password_cut prev q : ends_word prev q = false →
  same_cut t1 t2 (after_password prev (q +:+ k +:+ t1)) (after_password prev (q +:+ k +:+ t2)).
Proof.
  revert prev. induction q as [|c q IH]; intros prev Hq.
  - simpl in Hq. subst prev. exists ""%string.
    assert (∀ t, starts_word t = false → after_password false (k +:+ t) = Some t) as Hhere.
    { intros t Ht. pose proof (keyword_here t Ht) as Hp. by destruct (k +:+ t); cbn [after_password]; rewrite Hp. }
    cbn [String.append]. by rewrite !Hhere.
  - cbn [String.append after_password].
    change (String c (q +:+ k +:+ t1)) with (String c q +:+ (k +:+ t1)).
    change (String c (q +:+ k +:+ t2)) with (String c q +:+ (k +:+ t2)).
    pose proof (keyword_head _ t1 Hk) as K1. pose proof (keyword_head _ t2 Hk) as K2.
    destruct (password_here prev (String c q +:+ (k +:+ t1))) as [u|] eqn:E1.
    + apply (keyword_stops _ _ _ _ _ _ K1 K2) in E1 as (q' & -> & ->). exists (q' +:+ k). by rewrite !append_assoc.
    + destruct (password_here prev (String c q +:+ (k +:+ t2))) as [u|] eqn:E2; [|by apply IH].
      apply (keyword_stops _ _ _ _ _ _ K2 K1) in E2 as (q' & _ & E2). by rewrite E2 in E1.
Qed.

(** A match that begins before the keyword. *)
Definition match_here (s : string) : option string := rest ← role_statement s; after_password true rest.

Lemma match_here_cut q : ends_word true q = false →
  same_cut t1 t2 (match_here (q +:+ k +:+ t1)) (match_here (q +:+ k +:+ t2))
  ∨ match_here (q +:+ k +:+ t1) = None ∧ match_here (q +:+ k +:+ t2) = None.
Proof.
  intros Hq. unfold match_here. pose proof (keyword_head _ t1 Hk) as K1. pose proof (keyword_head _ t2 Hk) as K2.
  destruct (role_statement (q +:+ k +:+ t1)) as [u|] eqn:E1.
  - destruct (statement_stops _ _ _ _ K1 K2 E1) as (st & q' & -> & Hne & -> & ->). left.
    rewrite ends_word_app in Hq by done. by apply after_password_cut.
  - right. split; [done|]. destruct (role_statement (q +:+ k +:+ t2)) as [u|] eqn:E2; [|done].
    destruct (statement_stops _ _ _ _ K2 K1 E2) as (st & q' & -> & _ & _ & E). by rewrite E in E1.
Qed.

Lemma secret_eq s : secret s = or_else (match_here s) (match s with EmptyString => None | String _ t => secret t end).
Proof. by destruct s. Qed.

Lemma secret_cut before st middle :
  is_statement st → starts_word middle = false → ends_word true middle = false →
  same_cut t1 t2 (secret (before +:+ st +:+ middle +:+ k +:+ t1)) (secret (before +:+ st +:+ middle +:+ k +:+ t2)).
Proof.
  intros Hst Hs He. assert (middle ≠ ""%string) as Hm by by intros ->.
  induction before as [|c before IH].
  - cbn [String.append]. rewrite !secret_eq.
    assert (∀ t, match_here (st +:+ middle +:+ k +:+ t) = after_password true (middle +:+ k +:+ t)) as Hhere.
    { intros t. unfold match_here. by rewrite Hst by by rewrite append_nonempty. }
    rewrite !Hhere. destruct (after_password_cut true middle He) as (m & -> & ->). by exists m.
  - cbn [String.append]. rewrite (secret_eq (String c _)), (secret_eq (String c (before +:+ st +:+ middle +:+ k +:+ t2))).
    assert (∀ t, String c (before +:+ st +:+ middle +:+ k +:+ t) = (String c before +:+ st +:+ middle) +:+ k +:+ t) as Heq.
    { intros t. by rewrite !append_assoc. }
    destruct (match_here_cut (String c before +:+ st +:+ middle)) as [(m & E1 & E2)|[E1 E2]].
    + by rewrite <-append_assoc, ends_word_app.
    + rewrite !Heq, E1, E2. by exists m.
    + rewrite !Heq, E1, E2. exact IH.
Qed.
End Cut.

Lemma take_str_within n a b : (n ≤ String.length a)%nat → take_str n (a +:+ b) = take_str n a.
Proof.
  revert a. induction n as [|n IH]; intros [|c a] Hn; [by destruct b|done|simpl in Hn; lia|].
  simpl. f_equal. apply IH. simpl in Hn. lia.
Qed.

Lemma redacted_alike p t1 t2 : ends_with_keyword p → starts_word t1 = false → starts_word t2 = false →
  redactPassword (p +:+ t1) = redactPassword (p +:+ t2).
Proof.
  intros (before & st & middle & k & -> & Hst & Hs & He & Hk) H1 H2. rewrite !append_assoc.
  destruct (secret_cut k t1 t2 Hk H1 H2 before st middle Hst Hs He) as (m & E1 & E2).
  unfold redactPassword. rewrite E1, E2. f_equal. rewrite !string_length_app.
  replace (before +:+ st +:+ middle +:+ k +:+ t1) with ((before +:+ st +:+ middle +:+ k) +:+ t1) by by rewrite !append_assoc.
  replace (before +:+ st +:+ middle +:+ k +:+ t2) with ((before +:+ st +:+ middle +:+ k) +:+ t2) by by rewrite !append_assoc.
  rewrite (take_str_within _ _ t1), (take_str_within _ _ t2) by (rewrite !string_length_app; lia). f_equal. lia.
Qed.

(** ** The main result *)

(** C12. Nothing that follows the password keyword of a role statement reaches the
    reader of the logs.  Two rows whose messages, taken out of their envelopes,
    agree up to the end of the keyword give the same entry, whatever the
    passwords and the rest of the messages are, and wherever in the message the
    statement stands: the text that is kept, the marker, and where a long
    message is cut are the same. *)
Theorem passwords_are_not_shown `{JSON} t pod severity process body1 body2 p t1 t2 logger :
  unwrapCNPGBody body1 = (p +:+ t1, logger) → unwrapCNPGBody body2 = (p +:+ t2, logger) →
  ends_with_keyword p → starts_word t1 = false → starts_word t2 = false →
  entry_of (mkLogRow t pod severity process body1) = entry_of (mkLogRow t pod severity process body2).
Proof.
  intros E1 E2 Hp H1 H2. unfold entry_of. cbn [lr_Message lr_Timestamp lr_Pod lr_Severity lr_Process].
  rewrite E1, E2. by rewrite (redacted_alike p t1 t2 Hp H1 H2).
Qed.

(** ** Witness *)

Module Witness.
#[local] Instance no_objects : JSON := { UnmarshalObject := λ _, None }.

Lemma alter_role : is_statement "ALTER ROLE".
Proof. intros u Hu. unfold role_statement. simpl. by rewrite Hu. Qed.

Lemma statement_prefix_of_role : ends_with_keyword "statement: ALTER ROLE app WITH PASSWORD".
Proof.
  exists "statement: "%string, "ALTER ROLE"%string, " app WITH "%string, "PASSWORD"%string.
  split; [reflexivity|]. split; [exact alter_role|]. by repeat split.
Qed.

Lemma passwords_are_not_shown_witness :
  entry_of (mkLogRow 1 "pod-1" "LOG" "client backend" "statement: ALTER ROLE app WITH PASSWORD 'secret'") =
  entry_of (mkLogRow 1 "pod-1" "LOG" "client backend" "statement: ALTER ROLE app WITH PASSWORD 'other' VALID UNTIL 'infinity'").
Proof.
  apply (passwords_are_not_shown 1 "pod-1" "LOG" "client backend" _ _ "statement: ALTER ROLE app WITH PASSWORD"
    " 'secret'" " 'other' VALID UNTIL 'infinity'" "");
    [reflexivity|reflexivity|exact statement_prefix_of_role|reflexivity|reflexivity].
Defined.

(** What is shown of such a row. *)
Example redacted_statement :
  le_Message (entry_of (mkLogRow 1 "pod-1" "LOG" "client backend" "statement: ALTER ROLE app WITH PASSWORD 'secret'"))
  = "statement: ALTER ROLE app WITH PASSWORD <REDACTED>"%string.
Proof. by vm_compute. Qed.
End Witness.
