(* ===== verification/LogPages.v ===== *)
(** * Pages of logs: [services/clusters/observability/logs.go] and [vl_client.go]

    A page of entries and the cursor of the next one.  The rows of the last
    instant of a page are asked for again by the next one, and the cursor
    carries their keys so that they are skipped.  The main result is that
    following the cursors returns every row once, in order. *)

From stdpp Require Import pretty sorting.
From S2P Require Import Prelude GoStrings GoFloat GoTime GoText LogQueries LogEntries.

#[local] Open Scope Z_scope.
#[local] Open Scope go_scope.

Definition UnixNano (t : Z) : Z := wrap_int64 t.

(** ** Cursors *)

Definition encodeCursor (nanos : Z) (keys : list string) : string :=
  pretty nanos +:+ String ":" (Join "," keys).

Definition decodeCursor (c : string) : res string (Z * gset string) :=
  if bool_decide (c = "") then Ok (0, ∅)
  else
    let '(nanos, keys, ok) := Cut ":" c in
    if negb ok then Err "cut cursor"%string
    else
      match ParseInt10 nanos with
      | Some n =>
          if n <=? 0 then Err "parse cursor timestamp"%string
          else Ok (n, if bool_decide (keys = "") then ∅ else list_to_set (Split "," keys))
      | None => Err "parse cursor timestamp"%string
      end.

(** ** One page *)

Record LogsResult := mkLogsResult { lg_Entries : list LogEntry; lg_NextCursor : string }.

(** What the loop over the rows keeps. *)
Record progress := mkProgress {
  pr_entries : list LogEntry;
  pr_page : Page;
  pr_boundary : Z;
  pr_keys : list string
}.

Definition no_progress (pageBytes : Z) : progress := mkProgress [] (new_page pageBytes) 0 [].

(** A row that fits is added to the page. *)
Definition emit (st : progress) (page : Page) (entry : LogEntry) (nanos : Z) (key : string) : progress :=
  mkProgress (pr_entries st ++ [entry]) page nanos
    ((if nanos =? pr_boundary st then pr_keys st else []) ++ [key]).

Section Querier.
Context `{JSON} `{Unicode}.

(** The rest of the rows; the boolean is [capped]. *)
Fixpoint collect (cursorNanos : Z) (cursorSeen : gset string) (limit : Z) (st : progress) (rows : list LogRow)
    : progress * bool :=
  match rows with
  | [] => (st, false)
  | r :: rows =>
      let key := rowKey r in
      let nanos := UnixNano (lr_Timestamp r) in
      if (nanos =? cursorNanos) && bool_decide (key ∈ cursorSeen) then collect cursorNanos cursorSeen limit st rows
      else if Z.of_nat (length (pr_entries st)) =? limit then (st, true)
      else
        let entry := entry_of r in
        let '(page, fits) := Add (pr_page st) (len (le_Message entry)) in
        if negb fits then (mkProgress (pr_entries st) page (pr_boundary st) (pr_keys st), false)
        else collect cursorNanos cursorSeen limit (emit st page entry nanos key) rows
  end.

(** [LogsBackend.Query] *)
Context (backend : string → Z → Z → Z → res string (list LogRow)).
Context (namespace : string) (pageBytes : Z).

Definition Query `{MapRange} (branchID : string) (from to : Z) (filters : list LogFilter) (limit : Z) (cursor : string)
    : res string LogsResult :=
  if limit <=? 0 then Err "limit must be positive"%string
  else
    match decodeCursor cursor with
    | Err e => Err ("decode cursor: " +:+ e)
    | Ok (cursorNanos, cursorSeen) =>
        lql <~ buildLogsQL namespace branchID filters cursorNanos;
        let fetchLimit := limit + Z.of_nat (size cursorSeen) in
        match backend lql from to fetchLimit with
        | Err e => Err ("query backend: " +:+ e)
        | Ok rows =>
            let '(st, capped) := collect cursorNanos cursorSeen limit (no_progress pageBytes) rows in
            if negb (capped || pg_stopped (pr_page st) || (fetchLimit <=? Z.of_nat (length rows))) then
              Ok (mkLogsResult (pr_entries st) "")
            else if bool_decide (pr_entries st = []) then
              Ok (mkLogsResult [] (encodeCursor (wrap_int64 (cursorNanos - 1)) []))
            else
              let carried := if pr_boundary st =? cursorNanos then range_keys cursorSeen else [] in
              Ok (mkLogsResult (pr_entries st) (encodeCursor (pr_boundary st) (pr_keys st ++ carried)))
        end
    end.

(** A client that follows the cursors: the pages it gets. *)
Fixpoint follow `{MapRange} (fuel : nat) (branchID : string) (from to : Z) (filters : list LogFilter) (limit : Z)
    (cursor : string) : res string (list (list LogEntry)) :=
  match fuel with
  | O => Err "out of fuel"%string
  | S fuel =>
      page <~ Query branchID from to filters limit cursor;
      if bool_decide (lg_NextCursor page = "") then Ok [lg_Entries page]
      else rest <~ follow fuel branchID from to filters limit (lg_NextCursor page); Ok (lg_Entries page :: rest)
  end.
End Querier.

(** ** [VLClient] *)

(** The instant of [time.Time{}]. *)
Definition zero_time : Z := -62135596800 * Second.

Definition decodeRow (raw : list (string * json)) : LogRow :=
  mkLogRow
    (match member "_time" raw with
     | Some (JString ts) => default zero_time (ParseRFC3339 ts)
     | _ => zero_time
     end)
    (string_member "kubernetes.pod_name" raw)
    (string_member "severity_text" raw)
    (string_member "backend_type" raw)
    (match member "_msg" raw with
     | Some (JString msg) => msg
     | _ => string_member "body" raw
     end).

(** A reply to a request: the objects that were decoded, and the error that
    decoding stopped with. *)
Inductive reply :=
| Unreachable (e : string)
| Replied (status : Z) (snippet : string) (objects : list (list (string * json))) (malformed : option string).

Definition request_values (query : string) (from to limit : Z) : list (string * string) :=
  [("query", query); ("start", FormatRFC3339Nano from); ("end", FormatRFC3339Nano to); ("limit", pretty limit)]%string.

Definition kept (r : LogRow) : bool :=
  negb ((lr_Timestamp r =? zero_time) || bool_decide (lr_Message r = "")).

Definition VLClient_Query (do : list (string * string) → reply) (query : string) (from to limit : Z)
    : res string (list LogRow) :=
  match do (request_values query from to limit) with
  | Unreachable e => Err ("execute request: " +:+ e)
  | Replied status snippet objects malformed =>
      if negb (status =? 200) then Err ("victoria-logs responded " +:+ pretty status +:+ ": " +:+ snippet)
      else match malformed with
           | Some e => Err ("decode response: " +:+ e)
           | None => Ok (List.filter kept (map decodeRow objects))
           end
  end.

(** ** What is assumed of the backend *)

Definition instant (r : LogRow) : Z := UnixNano (lr_Timestamp r).
Definition newest_first (a b : LogRow) : Prop := instant b ≤ instant a.
Definition row_id (r : LogRow) : Z * string := (instant r, rowKey r).

(** The rows of a branch, newest first; no two of one instant have the same
    key.  The backend answers a query with the first ones that satisfy it. *)
Record serves `{Unicode} (backend : string → Z → Z → Z → res string (list LogRow)) (namespace branchID : string)
    (from to : Z) (filters : list LogFilter) (all : list LogRow) : Prop := {
  sv_range : Forall (λ r, 0 < lr_Timestamp r ≤ max_int64) all;
  sv_sorted : StronglySorted newest_first all;
  sv_distinct : NoDup (map row_id all);
  sv_answer : ∀ n query limit,
    n ∈ 0 :: map instant all → 0 ≤ limit → buildLogsQL namespace branchID filters n = Ok query →
    backend query from to limit = Ok (take (Z.to_nat limit) (filter (λ r, n = 0 ∨ instant r ≤ n) all))
}.

(** A page that a gRPC reply can carry. *)
Definition message_bytes (entries : list LogEntry) : Z := foldr (λ e n, len (le_Message e) + n) 0 entries.
Definition page_fits (pageBytes limit : Z) (entries : list LogEntry) : Prop :=
  Z.of_nat (length entries) ≤ limit ∧ (length entries = 1%nat ∨ message_bytes entries ≤ pageBytes).

(** ** Keys and cursors *)

Definition key_ok (k : string) : Prop := k ≠ ""%string ∧ contains_byte "," k = false.

Lemma hex_digit_not_comma n : 0 ≤ n < 16 → hex_digit n ≠ ","%char.
Proof.
  intros Hn Hc. pose proof (hex_value_digit n Hn) as Hv. rewrite Hc in Hv. by vm_compute in Hv.
Qed.

Lemma hex_digits_no_comma w n : contains_byte "," (hex_digits w n) = false.
Proof.
  revert n. induction w as [|w IH]; intros n; [done|]. cbn [hex_digits contains_byte].
  rewrite IH, orb_false_r. apply bool_decide_eq_false, hex_digit_not_comma, Z.mod_pos_bound. lia.
Qed.

Lemma trim_zeros_ok s : key_ok s → key_ok (trim_zeros s).
Proof.
  unfold key_ok. induction s as [|c [|d t] IH]; intros [Hn Hc]; [done|done|]. cbn [trim_zeros].
  case_bool_decide; [|done]. apply IH. split; [done|]. cbn [contains_byte] in *. by apply orb_false_elim in Hc as [_ ?].
Qed.

Lemma rowKey_ok r : key_ok (rowKey r).
Proof. apply trim_zeros_ok. split; [done|]. apply hex_digits_no_comma. Qed.

Lemma Split_Join keys : keys ≠ [] → Forall key_ok keys → Split "," (Join "," keys) = keys.
Proof.
  induction keys as [|k [|k' keys] IH]; intros Hne Hok; [done| |].
  - apply Forall_cons in Hok as [[_ Hk] _]. by apply Split_none.
  - apply Forall_cons in Hok as [[_ Hk] Hok].
    change (Join "," (k :: k' :: keys)) with (k +:+ String "," (Join "," (k' :: keys))).
    rewrite Split_app by done. by rewrite IH.
Qed.

Lemma digits_no_colon acc s n : digits_val_acc acc s = Some n → contains_byte ":" s = false.
Proof.
  revert acc. induction s as [|c s IH]; intros acc; [done|]. simpl. destruct (is_digit c) eqn:Hc; [|done].
  intros H. rewrite (IH _ H), orb_false_r. apply bool_decide_eq_false. intros ->. by vm_compute in Hc.
Qed.

Lemma pretty_no_colon n : 0 ≤ n → contains_byte ":" (pretty n) = false.
Proof.
  intros Hn. destruct n as [|p|p]; [by vm_compute| |lia]. change (pretty (Z.pos p)) with (pretty (N.pos p)).
  pose proof (pretty_N_unsigned (N.pos p)) as H. unfold ParseUint10 in H.
  destruct (pretty (N.pos p)); [done|]. by eapply digits_no_colon.
Qed.

Lemma Join_nonempty keys : keys ≠ [] → Forall key_ok keys → Join "," keys ≠ ""%string.
Proof. intros Hne Hok Hj. apply Split_Join in Hok as Hs; [|done]. rewrite Hj in Hs. subst. by inversion Hok as [|?? [? ?]]. Qed.

Lemma decode_encode n keys : 0 < n ≤ max_int64 → keys ≠ [] → Forall key_ok keys →
  encodeCursor n keys ≠ ""%string ∧ decodeCursor (encodeCursor n keys) = Ok (n, list_to_set keys).
Proof.
  intros Hn Hne Hok.
  assert (encodeCursor n keys ≠ ""%string) as Hc.
  { unfold encodeCursor. intros He. apply (f_equal String.length) in He. rewrite string_length_app in He. simpl in He. lia. }
  split; [done|]. unfold decodeCursor. rewrite bool_decide_eq_false_2 by done. unfold encodeCursor.
  rewrite Cut_app by (apply pretty_no_colon; lia). cbn [negb].
  rewrite ParseInt10_pretty by (unfold min_int64, max_int64 in *; lia).
  replace (n <=? 0) with false by lia.
  by rewrite bool_decide_eq_false_2, Split_Join by auto using Join_nonempty.
Qed.

(** ** The rows that have been returned *)

Definition boundary (done : list LogRow) : Z := default 0 (instant <$> last done).
Definition keys_at (n : Z) (l : list LogRow) : list string := map rowKey (filter (λ r, instant r = n) l).

(** The loop has emitted the rows [l]. *)
Definition emitted `{JSON} (l : list LogRow) (st : progress) : Prop :=
  pr_entries st = map entry_of l ∧ pr_boundary st = boundary l ∧ pr_keys st = keys_at (boundary l) l
  ∧ pg_count (pr_page st) = Z.of_nat (length l).

(** A cursor carries the last instant of those rows, and their keys at it. *)
Definition resumes (done : list LogRow) (cursor : string) : Prop :=
  decodeCursor cursor = Ok (boundary done, list_to_set (keys_at (boundary done) done)).

Lemma boundary_snoc l r : boundary (l ++ [r]) = instant r.
Proof. unfold boundary. by rewrite last_snoc. Qed.

Lemma boundary_app l p : p ≠ [] → boundary (l ++ p) = boundary p.
Proof. intros Hp. unfold boundary. rewrite last_app. by destruct (last p) eqn:E; [|apply last_None in E]. Qed.

Lemma keys_at_app n l p : keys_at n (l ++ p) = keys_at n l ++ keys_at n p.
Proof. unfold keys_at. by rewrite filter_app, map_app. Qed.

Lemma keys_at_ok n l : Forall key_ok (keys_at n l).
Proof. apply Forall_map, Forall_forall. intros r _. apply rowKey_ok. Qed.

Lemma keys_at_none n l : Forall (λ r, instant r ≠ n) l → keys_at n l = [].
Proof.
  unfold keys_at. induction l as [|r l IH]; intros Hl; [done|]. apply Forall_cons in Hl as [Hr Hl].
  rewrite filter_cons, decide_False by done. by apply IH.
Qed.

(** What was emitted before is at the boundary or newer. *)
Lemma sorted_boundary l : StronglySorted newest_first l → Forall (λ r, boundary l ≤ instant r) l.
Proof.
  induction l as [|r l IH] using rev_ind; intros Hs; [done|]. rewrite boundary_snoc.
  apply StronglySorted_app in Hs as (Hc & _ & _). apply Forall_app. split; [|by repeat constructor].
  apply Forall_forall. intros x Hx. by apply (Hc x r); [|constructor].
Qed.

Lemma emitted_emit `{JSON} l st page r :
  emitted l st → StronglySorted newest_first (l ++ [r]) →
  pg_count page = Z.of_nat (length l) + 1 →
  emitted (l ++ [r]) (emit st page (entry_of r) (instant r) (rowKey r)).
Proof.
  intros (He & Hb & Hk & _) Hs Hc. unfold emitted, emit. cbn [pr_entries pr_boundary pr_keys pr_page].
  rewrite boundary_snoc, keys_at_app, map_app, length_app, He, Hb, Hk.
  assert (keys_at (instant r) [r] = [rowKey r]) as ->.
  { unfold keys_at. cbn [filter list_filter]. by rewrite decide_True. }
  repeat split; [|simpl; lia]. f_equal. destruct (Z.eqb_spec (instant r) (boundary l)) as [->|Hne]; [done|].
  symmetry. apply keys_at_none, Forall_forall. intros x Hx Heq.
  apply StronglySorted_app in Hs as (Hc' & Hl & _). apply sorted_boundary in Hl.
  rewrite Forall_forall in Hl. pose proof (Hl x Hx) as Hbx. apply Hne. unfold boundary in *.
  destruct (last l) as [y|] eqn:Hy; [|apply last_None in Hy; subst; by apply not_elem_of_nil in Hx]. cbn in *.
  assert (y ∈ l) as Hyl by (apply last_Some in Hy as [? ->]; apply elem_of_app; right; constructor).
  specialize (Hc' y r Hyl ltac:(constructor)). unfold newest_first in Hc'. lia.
Qed.

(** ** The loop *)

Section Loop.
Context `{JSON}.

(** Rows that an earlier page returned are passed over. *)
Lemma collect_seen n seen limit st old rows :
  Forall (λ r, instant r = n ∧ rowKey r ∈ seen) old →
  collect n seen limit st (old ++ rows) = collect n seen limit st rows.
Proof.
  induction old as [|r old IH]; intros Hold; [done|]. apply Forall_cons in Hold as [[Hr Hk] Hold].
  cbn [app collect]. fold (instant r). rewrite Hr, Z.eqb_refl, bool_decide_eq_true_2 by done. by apply IH.
Qed.

(** Of the others, those that fit are emitted in order; there is at least one. *)
Lemma collect_fresh n seen limit rows : ∀ l st,
  Forall (λ r, instant r = n → rowKey r ∉ seen) rows →
  StronglySorted newest_first (l ++ rows) →
  emitted l st → pg_stopped (pr_page st) = false →
  Z.of_nat (length l + length rows) ≤ limit →
  ∃ p rest st', rows = p ++ rest ∧ collect n seen limit st rows = (st', false) ∧ emitted (l ++ p) st'
    ∧ pg_stopped (pr_page st') = negb (bool_decide (rest = [])) ∧ (l = [] → rows ≠ [] → p ≠ []).
Proof.
  induction rows as [|r rows IH]; intros l st Hf Hs He Hst Hlim.
  { exists [], [], st. rewrite (app_nil_r l). split_and!; [done..|congruence]. }
  apply Forall_cons in Hf as [Hr Hf]. cbn [collect]. fold (instant r).
  replace ((instant r =? n) && bool_decide (rowKey r ∈ seen)) with false.
  2: { symmetry. apply andb_false_iff. destruct (Z.eqb_spec (instant r) n); [right|by left].
       apply bool_decide_eq_false. auto. }
  pose proof He as (Hen & _ & _ & Hc). simpl in Hlim.
  replace (Z.of_nat (length (pr_entries st)) =? limit) with false by (rewrite Hen, length_map; lia).
  unfold Add at 1. destruct ((0 <? pg_count (pr_page st)) && _) eqn:Hfit; cbn [negb].
  - exists [], (r :: rows), (mkProgress (pr_entries st) (mkPage (pg_budget (pr_page st)) (pg_used (pr_page st))
      (pg_count (pr_page st)) true) (pr_boundary st) (pr_keys st)).
    rewrite (app_nil_r l). split_and!; [done|done|by repeat split; try apply He|done|].
    intros -> _. apply andb_prop in Hfit as [Hp _]. rewrite Hc in Hp. done.
  - replace (l ++ r :: rows) with ((l ++ [r]) ++ rows) in Hs by by rewrite <-app_assoc.
    match goal with |- context [collect _ _ _ ?next rows] =>
      destruct (IH (l ++ [r]) next) as (p & rest & st' & -> & Hcol & He' & Hst' & _) end; [done|done| | | |].
    + apply emitted_emit; [done|by eapply StronglySorted_app_1_l|]. cbn. by rewrite Hc.
    + done.
    + rewrite length_app. simpl. lia.
    + exists (r :: p), rest, st'. rewrite <-app_assoc in He'. by repeat split; try apply He'.
Qed.
End Loop.

(** ** The size of a page *)

Lemma message_bytes_snoc l e : message_bytes (l ++ [e]) = message_bytes l + len (le_Message e).
Proof. unfold message_bytes. induction l as [|x l IH]; simpl in *; lia. Qed.

(** The page counts the entries and their bytes. *)
Definition accounted (pageBytes limit : Z) (st : progress) : Prop :=
  pg_count (pr_page st) = Z.of_nat (length (pr_entries st)) ∧ pg_used (pr_page st) = message_bytes (pr_entries st)
  ∧ pg_budget (pr_page st) = pageBytes ∧ page_fits pageBytes limit (pr_entries st).

Lemma collect_accounted `{JSON} pageBytes limit n seen rows : ∀ st,
  accounted pageBytes limit st → accounted pageBytes limit (collect n seen limit st rows).1.
Proof.
  induction rows as [|r rows IH]; intros st Hst; [done|]. cbn [collect]. fold (instant r).
  destruct (_ && _); [by apply IH|]. destruct (Z.eqb_spec (Z.of_nat (length (pr_entries st))) limit) as [|Hl]; [done|].
  unfold Add at 1. destruct Hst as (Hc & Hu & Hb & Hlen & Hp). destruct (_ && _) eqn:Hfit; cbn [negb]; [done|].
  apply IH. unfold accounted, emit, page_fits.
  cbn [pr_page pr_entries pg_count pg_used pg_budget]. rewrite message_bytes_snoc, length_app. simpl length.
  split_and!; [lia|lia|done|lia|]. rewrite Hc, Hu, Hb in Hfit.
  destruct (decide (length (pr_entries st) = 0%nat)) as [H0|H0]; [left; lia|right].
  apply andb_false_iff in Hfit as [Hfit|Hfit]; lia.
Qed.

(** ** One page *)

Lemma filter_ext_in {A} (P Q : A → Prop) `{!∀ x, Decision (P x), !∀ x, Decision (Q x)} l :
  Forall (λ x, P x ↔ Q x) l → filter P l = filter Q l.
Proof.
  induction 1 as [|x l Hx _ IH]; [done|]. rewrite !filter_cons, IH. by destruct (decide (P x)), (decide (Q x)); naive_solver.
Qed.

Lemma keys_at_elem n l k : k ∈ keys_at n l → ∃ r, r ∈ l ∧ instant r = n ∧ rowKey r = k.
Proof.
  intros Hk. apply list_elem_of_fmap in Hk as (r & -> & Hr). apply list_elem_of_filter in Hr as [? ?]. by exists r.
Qed.

Lemma keys_at_NoDup n l : NoDup (map row_id l) → NoDup (keys_at n l).
Proof.
  unfold keys_at. induction l as [|r l IH]; intros Hnd; [constructor|].
  apply NoDup_cons in Hnd as [Hr Hnd]. rewrite filter_cons. case_decide as Hn; [|by apply IH].
  apply NoDup_cons. split; [|by apply IH]. intros Hk. apply keys_at_elem in Hk as (x & Hx & Hxn & Hxk).
  apply Hr. apply list_elem_of_fmap. exists x. split; [|done]. unfold row_id. by rewrite Hxn, Hxk, Hn.
Qed.

Section Answers.
Context `{JSON} `{Unicode} `{MapRange}.
Context (backend : string → Z → Z → Z → res string (list LogRow)) (namespace branchID : string).
Context (from to : Z) (filters : list LogFilter) (all : list LogRow) (pageBytes limit : Z).
Context (Hserves : serves backend namespace branchID from to filters all).
Context (Hcompiles : is_ok (compile_all filters) = true) (Hlimit : 0 < limit) (Hbytes : 0 ≤ pageBytes).

Lemma instant_range r : r ∈ all → 0 < instant r ≤ max_int64.
Proof.
  intros Hr. pose proof (sv_range _ _ _ _ _ _ _ Hserves) as Hrange. rewrite Forall_forall in Hrange.
  specialize (Hrange r Hr). cbn in Hrange. unfold instant, UnixNano.
  rewrite wrap_int64_id; [done|unfold min_int64, max_int64 in *; lia].
Qed.

(** What a cursor asks for again, and what is left. *)
Lemma refetched done rest : all = done ++ rest →
  filter (λ r, boundary done = 0 ∨ instant r ≤ boundary done) all =
  filter (λ r, instant r = boundary done) done ++ rest.
Proof.
  intros Hall. pose proof (sv_sorted _ _ _ _ _ _ _ Hserves) as Hs. rewrite Hall in Hs |- *.
  rewrite filter_app. apply StronglySorted_app in Hs as (Hc & Hd & _). pose proof (sorted_boundary _ Hd) as Hb.
  destruct (last done) as [y|] eqn:Hy.
  - assert (y ∈ done) as Hyd by (apply last_Some in Hy as [? ->]; apply elem_of_app; right; constructor).
    assert (boundary done = instant y) as Hby by (unfold boundary; by rewrite Hy).
    pose proof (instant_range y ltac:(rewrite Hall; apply elem_of_app; by left)) as Hy0. f_equal.
    + apply filter_ext_in. eapply Forall_impl; [exact Hb|]. cbn. intros x Hx. lia.
    + apply filter_id. intros x Hx. right. rewrite Hby. by apply Hc.
  - apply last_None in Hy as ->. apply filter_id. intros x _. by left.
Qed.

(** No row that is left has a key of the cursor at its instant. *)
Lemma left_is_fresh done rest : all = done ++ rest →
  Forall (λ r, instant r = boundary done → rowKey r ∉ (list_to_set (keys_at (boundary done) done) : gset string)) rest.
Proof.
  intros Hall. pose proof (sv_distinct _ _ _ _ _ _ _ Hserves) as Hnd. rewrite Hall, map_app in Hnd.
  apply NoDup_app in Hnd as (_ & Hd & _). apply Forall_forall. intros r Hr Hb Hk.
  apply elem_of_list_to_set, keys_at_elem in Hk as (x & Hx & Hxb & Hxk).
  apply (Hd (row_id x)); apply list_elem_of_fmap; [by exists x|].
  exists r. split; [|done]. unfold row_id. by rewrite Hxb, Hxk, Hb.
Qed.

Lemma seen_size done rest : all = done ++ rest →
  size (list_to_set (keys_at (boundary done) done) : gset string)
  = length (filter (λ r, instant r = boundary done) done).
Proof.
  intros Hall. rewrite size_list_to_set; [unfold keys_at; by rewrite length_map|].
  apply keys_at_NoDup. pose proof (sv_distinct _ _ _ _ _ _ _ Hserves) as Hnd.
  rewrite Hall, map_app in Hnd. by apply NoDup_app in Hnd as [? _].
Qed.

(** The cursor of a page that is not the last one. *)
Lemma next_resumes done p rest : all = done ++ p ++ rest → p ≠ [] →
  let carried := if boundary p =? boundary done then range_keys (list_to_set (keys_at (boundary done) done)) else [] in
  let next := encodeCursor (boundary p) (keys_at (boundary p) p ++ carried) in
  next ≠ ""%string ∧ resumes (done ++ p) next.
Proof.
  intros Hall Hp carried. cbn zeta. destruct (last p) as [y|] eqn:Hy; [|by apply last_None in Hy].
  assert (y ∈ p) as Hyp by (apply last_Some in Hy as [? ->]; apply elem_of_app; right; constructor).
  assert (boundary p = instant y) as Hby by (unfold boundary; by rewrite Hy).
  assert (Forall key_ok carried) as Hok.
  { subst carried. destruct (_ =? _); [|done]. rewrite range_perm. apply Forall_forall. intros k Hk.
    apply elem_of_elements, elem_of_list_to_set, keys_at_elem in Hk as (x & _ & _ & <-). apply rowKey_ok. }
  assert (rowKey y ∈ keys_at (boundary p) p) as Hky.
  { apply list_elem_of_fmap. exists y. split; [done|]. by apply list_elem_of_filter. }
  destruct (decode_encode (boundary p) (keys_at (boundary p) p ++ carried)) as [Hne Hd].
  - rewrite Hby. apply instant_range. rewrite Hall. by rewrite !elem_of_app; auto.
  - intros Hnil. apply app_nil in Hnil as [Hnil _]. rewrite Hnil in Hky. by apply not_elem_of_nil in Hky.
  - apply Forall_app. split; [apply keys_at_ok|done].
  - split; [done|]. unfold resumes. rewrite Hd, boundary_app, keys_at_app, !list_to_set_app_L by done. do 2 f_equal.
    rewrite union_comm_L. f_equal. subst carried. destruct (Z.eqb_spec (boundary p) (boundary done)) as [->|Hn].
    + apply set_eq. intros k. by rewrite elem_of_list_to_set, range_perm, elem_of_elements.
    + rewrite keys_at_none; [done|]. pose proof (sv_sorted _ _ _ _ _ _ _ Hserves) as Hs. rewrite Hall in Hs.
      apply StronglySorted_app in Hs as (Hc & Hds & _). pose proof (sorted_boundary _ Hds) as Hb.
      rewrite Forall_forall in Hb |- *. intros x Hx Hxp. specialize (Hb x Hx). apply Hn.
      destruct (last done) as [z|] eqn:Hz; [|apply last_None in Hz; subst; by apply not_elem_of_nil in Hx].
      assert (z ∈ done) as Hzd by (apply last_Some in Hz as [? ->]; apply elem_of_app; right; constructor).
      specialize (Hc z y Hzd ltac:(apply elem_of_app; by left)). unfold newest_first in Hc.
      assert (boundary done = instant z) as Hbz by (unfold boundary; by rewrite Hz). lia.
Qed.

(** What the backend returns for a cursor, and what the loop makes of it. *)
Lemma collect_page done rest : all = done ++ rest →
  let n := boundary done in
  let seen : gset string := list_to_set (keys_at n done) in
  let old := filter (λ r, instant r = n) done in
  let rows := old ++ take (Z.to_nat limit) rest in
  ∃ p behind st, take (Z.to_nat limit) rest = p ++ behind
    ∧ collect n seen limit (no_progress pageBytes) rows = (st, false)
    ∧ emitted p st ∧ pg_stopped (pr_page st) = negb (bool_decide (behind = []))
    ∧ (take (Z.to_nat limit) rest ≠ [] → p ≠ []) ∧ page_fits pageBytes limit (pr_entries st).
Proof.
  intros Hall. cbn zeta.
  pose proof (collect_accounted pageBytes limit (boundary done) (list_to_set (keys_at (boundary done) done))
    (filter (λ r, instant r = boundary done) done ++ take (Z.to_nat limit) rest) (no_progress pageBytes)) as Hacc.
  rewrite collect_seen in *.
  2, 3: apply Forall_forall; intros r Hr; split; [by apply list_elem_of_filter in Hr as [? _]|];
    apply elem_of_list_to_set, list_elem_of_fmap; by exists r.
  destruct (collect_fresh (boundary done) (list_to_set (keys_at (boundary done) done)) limit
    (take (Z.to_nat limit) rest) [] (no_progress pageBytes)) as (p & behind & st & Hp & Hc & He & Hst & Hne).
  - apply left_is_fresh in Hall. rewrite Forall_forall in Hall |- *. intros r Hr. apply Hall.
    rewrite <-(take_drop (Z.to_nat limit) rest). apply elem_of_app. by left.
  - pose proof (sv_sorted _ _ _ _ _ _ _ Hserves) as Hs. rewrite Hall in Hs.
    apply StronglySorted_app_1_r in Hs. rewrite <-(take_drop (Z.to_nat limit) rest) in Hs.
    by apply StronglySorted_app_1_l in Hs.
  - done.
  - done.
  - rewrite length_take. simpl. lia.
  - exists p, behind, st. rewrite Hc in Hacc. destruct Hacc as (_ & _ & _ & Hfit).
    + unfold accounted, page_fits. simpl. split_and!; [done|done|done|lia|by right].
    + split_and!; auto.
Qed.

Lemma page_resumes done rest cursor : all = done ++ rest → resumes done cursor →
  ∃ p rest' next, rest = p ++ rest'
    ∧ Query backend namespace pageBytes branchID from to filters limit cursor = Ok (mkLogsResult (map entry_of p) next)
    ∧ page_fits pageBytes limit (map entry_of p)
    ∧ (next = ""%string ∧ rest' = [] ∨ next ≠ ""%string ∧ p ≠ [] ∧ resumes (done ++ p) next).
Proof.
  intros Hall Hc. unfold Query. replace (limit <=? 0) with false by lia. rewrite Hc.
  destruct (buildLogsQL namespace branchID filters (boundary done)) as [lql|] eqn:Hq.
  2: { unfold buildLogsQL in Hq. by destruct (compile_all filters). }
  cbn [res_bind]. assert (boundary done ∈ 0 :: map instant all) as Hb.
  { unfold boundary. destruct (last done) as [y|] eqn:Hy; cbn; [right|left]. apply last_Some in Hy as [l Hl].
    apply list_elem_of_fmap. exists y. split; [done|]. rewrite Hall, Hl, !elem_of_app. left; right; constructor. }
  rewrite (sv_answer _ _ _ _ _ _ _ Hserves _ _ _ Hb) with (2 := Hq) by lia.
  rewrite (refetched _ _ Hall), (seen_size _ _ Hall). set (old := filter _ done).
  replace (Z.to_nat (limit + Z.of_nat (length old))) with (length old + Z.to_nat limit)%nat by lia.
  rewrite take_app_add. destruct (collect_page _ _ Hall) as (p & behind & st & Hp & Hcol & He & Hst & Hne & Hfit).
  fold old in Hcol. rewrite Hcol. destruct He as (Hen & Hbd & Hks & _). rewrite Hen, Hst, Hbd, Hks in *.
  exists p, (behind ++ drop (Z.to_nat limit) rest).
  assert (rest = p ++ behind ++ drop (Z.to_nat limit) rest) as Hrest by (by rewrite app_assoc, <-Hp, take_drop).
  rewrite length_app, orb_false_l. match goal with |- context [if negb ?more then _ else _] =>
    destruct more eqn:Hmore end; cbn [negb].
  - assert (p ≠ []) as Hpn.
    { apply Hne. intros Ht. apply orb_true_iff in Hmore as [Hm|Hlen].
      - rewrite Ht in Hp. symmetry in Hp. apply app_nil in Hp as [_ ->]. done.
      - rewrite Ht in Hlen. apply Z.leb_le in Hlen. cbn [length] in Hlen. clearbody old. lia. }
    rewrite (bool_decide_eq_false_2 (map entry_of p = [])) by (by destruct p).
    rewrite Hrest in Hall. destruct (next_resumes _ _ _ Hall Hpn) as [Hn1 Hn2].
    eexists. split_and!; [done|done|done|]. right. done.
  - exists ""%string. split_and!; [done|done|done|]. left. split; [done|].
    apply orb_false_iff in Hmore as [Hm Hlen]. rewrite negb_false_iff, bool_decide_eq_true in Hm.
    apply Z.leb_gt in Hlen. rewrite length_take in Hlen. rewrite Hm, drop_ge by lia. done.
Qed.

Lemma follow_resumes fuel done rest cursor : all = done ++ rest → resumes done cursor → (length rest < fuel)%nat →
  ∃ pages, follow backend namespace pageBytes fuel branchID from to filters limit cursor = Ok pages
    ∧ concat pages = map entry_of rest ∧ Forall (page_fits pageBytes limit) pages.
Proof.
  revert done rest cursor. induction fuel as [|fuel IH]; intros done rest cursor Hall Hc Hlen; [lia|].
  destruct (page_resumes _ _ _ Hall Hc) as (p & rest' & next & -> & Hq & Hfit & Hn). cbn [follow]. rewrite Hq.
  cbn [res_bind lg_NextCursor lg_Entries]. destruct Hn as [[-> ->]|(Hn & Hp & Hr)].
  - exists [map entry_of p]. simpl. rewrite app_nil_r, app_nil_r. split_and!; [done|done|]. by constructor.
  - rewrite bool_decide_eq_false_2 by done. rewrite app_assoc in Hall. rewrite length_app in Hlen.
    destruct (IH (done ++ p) rest' next) as (pages & -> & Hcat & Hall'); [done|done|destruct p; simpl in *; [done|lia]|].
    exists (map entry_of p :: pages). simpl. rewrite Hcat, map_app. split_and!; [done|done|by constructor].
Qed.
End Answers.

(** ** The main result *)

(** Following the cursors over any backend that serves the rows. *)
Lemma cursors_return_served_rows `{JSON} `{Unicode} `{MapRange}
    (backend : string → Z → Z → Z → res string (list LogRow)) namespace branchID from to filters all pageBytes limit :
  serves backend namespace branchID from to filters all →
  is_ok (compile_all filters) = true → 0 < limit → 0 ≤ pageBytes →
  ∃ pages,
    follow backend namespace pageBytes (S (length all)) branchID from to filters limit "" = Ok pages
    ∧ concat pages = map entry_of all
    ∧ Forall (page_fits pageBytes limit) pages.
Proof.
  intros Hserves Hcompiles Hlimit Hbytes.
  by apply (follow_resumes backend namespace branchID from to filters all pageBytes limit
    Hserves Hcompiles Hlimit Hbytes (S (length all)) [] all); [done|done|lia].
Qed.

(** What is assumed of the log store: the objects of the branch are newest first,
    each is decoded to a row with a timestamp and a message, no two rows of one
    instant have the same key, and a request is replied to with the first objects
    that satisfy its query. *)
Record holds `{Unicode} (do : list (string * string) → reply) (namespace branchID : string)
    (from to : Z) (filters : list LogFilter) (objects : list (list (string * json))) : Prop := {
  ho_complete : Forall (λ o, kept (decodeRow o) = true) objects;
  ho_range : Forall (λ o, 0 < lr_Timestamp (decodeRow o) ≤ max_int64) objects;
  ho_sorted : StronglySorted newest_first (map decodeRow objects);
  ho_distinct : NoDup (map row_id (map decodeRow objects));
  ho_reply : ∀ n query limit,
    n ∈ 0 :: map instant (map decodeRow objects) → 0 ≤ limit → buildLogsQL namespace branchID filters n = Ok query →
    ∃ snippet, do (request_values query from to limit) =
      Replied 200 snippet (take (Z.to_nat limit) (filter (λ o, n = 0 ∨ instant (decodeRow o) ≤ n) objects)) None
}.

Lemma kept_all l : Forall (λ o, kept (decodeRow o) = true) l → List.filter kept (map decodeRow l) = map decodeRow l.
Proof. induction 1 as [|o l Ho _ IH]; [done|]. simpl. by rewrite Ho, IH. Qed.

Lemma filter_decoded n l :
  map decodeRow (filter (λ o, n = 0 ∨ instant (decodeRow o) ≤ n) l) = filter (λ r, n = 0 ∨ instant r ≤ n) (map decodeRow l).
Proof.
  induction l as [|o l IH]; [done|]. cbn [map]. rewrite !filter_cons.
  destruct (decide (n = 0 ∨ instant (decodeRow o) ≤ n)); cbn [map]; [f_equal|]; exact IH.
Qed.

(** [VLClient] over such a store serves its rows. *)
Lemma holds_serves `{Unicode} do namespace branchID from to filters objects :
  holds do namespace branchID from to filters objects →
  serves (VLClient_Query do) namespace branchID from to filters (map decodeRow objects).
Proof.
  intros [Hc Hr Hs Hd Hreply]. split; [by apply Forall_map|done|done|].
  intros n query limit Hn Hl Hq. destruct (Hreply n query limit Hn Hl Hq) as [snippet Hdo].
  unfold VLClient_Query. rewrite Hdo. change (negb (200 =? 200)) with false. cbn iota.
  rewrite kept_all.
  2: { apply Forall_take, Forall_forall. intros o [_ Ho]%list_elem_of_filter. rewrite Forall_forall in Hc. by apply Hc. }
  by rewrite <-firstn_map, filter_decoded.
Qed.

(** C13. Following the cursors from the first page returns the entry of every row
    exactly once, newest first, and needs at most one request more than there
    are rows, if the store's client is [VLClient], every row has a timestamp and
    a message, and the store replies with the first rows that satisfy a query.
    No page has more entries than were asked for, and the messages of a page with
    more than one entry fit the bytes of a reply.  This holds although a page may
    end within the rows of one instant, and whatever order the keys of the cursor
    are ranged over.  A row without a message ends the pages too early
    ([Witness.dropped_row_ends_the_pages]). *)
Theorem cursors_return_every_row `{JSON} `{Unicode} `{MapRange} do namespace branchID from to filters objects pageBytes limit :
  holds do namespace branchID from to filters objects →
  is_ok (compile_all filters) = true → 0 < limit → 0 ≤ pageBytes →
  ∃ pages,
    follow (VLClient_Query do) namespace pageBytes (S (length objects)) branchID from to filters limit "" = Ok pages
    ∧ concat pages = map (λ o, entry_of (decodeRow o)) objects
    ∧ Forall (page_fits pageBytes limit) pages.
Proof.
  intros Hh Hc Hl Hb. apply holds_serves in Hh.
  destruct (cursors_return_served_rows _ _ _ _ _ _ _ pageBytes limit Hh Hc Hl Hb) as (pages & Hf & Hp & Hfit).
  rewrite length_map in Hf. rewrite map_map in Hp. by exists pages.
Qed.

(** ** Witness *)

Module Witness.
#[local] Instance plain_runes : Unicode := { IsPrint := λ _, true }.
#[local] Instance no_objects : JSON := { UnmarshalObject := λ _, None }.
#[local] Instance range : MapRange := { range_keys := elements; range_perm := λ s, reflexivity _ }.

Definition object (time message : string) : list (string * json) :=
  [("_time", JString time); ("kubernetes.pod_name", JString "pod-1"); ("severity_text", JString "LOG");
   ("backend_type", JString "client backend"); ("_msg", JString message)]%string.

(** Three rows of one instant among five. *)
Definition held : list (list (string * json)) :=
  [object "1970-01-01T00:00:09Z" "e"; object "1970-01-01T00:00:07Z" "d"; object "1970-01-01T00:00:07Z" "c";
   object "1970-01-01T00:00:07Z" "b"; object "1970-01-01T00:00:05Z" "a"]%string.

Definition held_instants : list Z := map instant (map decodeRow held).

(** A store of complete rows that knows the queries it is asked. *)
Definition value_of (k : string) (values : list (string * string)) : string :=
  default ""%string (snd <$> List.find (λ kv, bool_decide (kv.1 = k)) values).

Definition asked (query : string) (n : Z) : bool :=
  match buildLogsQL "ns" "br" [] n with Ok known => bool_decide (known = query) | Err _ => false end.

Definition store (values : list (string * string)) : reply :=
  let limit := default 0 (ParseUint10 (value_of "limit" values)) in
  match List.find (asked (value_of "query" values)) (0 :: held_instants) with
  | Some n => Replied 200 "" (take (Z.to_nat limit) (filter (λ o, n = 0 ∨ instant (decodeRow o) ≤ n) held)) None
  | None => Unreachable "unknown query"
  end.

Lemma pretty_unsigned limit : 0 ≤ limit → ParseUint10 (pretty limit) = Some limit.
Proof. destruct limit as [|p|p]; [done| |lia]. intros _. apply (pretty_N_unsigned (N.pos p)). Qed.

Lemma asks_for n query : n ∈ 0 :: held_instants → buildLogsQL "ns" "br" [] n = Ok query →
  List.find (asked query) (0 :: held_instants) = Some n.
Proof.
  intros Hn Hq. set (l := 0 :: held_instants) in *. vm_compute in l. subst l. rewrite !elem_of_cons in Hn.
  destruct_or!; [..|by apply not_elem_of_nil in Hn]; subst n; vm_compute in Hq; injection Hq as <-; by vm_compute.
Qed.

Lemma store_holds : holds store "ns" "br" 0 10 [] held.
Proof.
  constructor.
  - by repeat constructor.
  - apply (bool_decide_unpack _). by vm_compute.
  - by repeat constructor.
  - apply (bool_decide_unpack _). by vm_compute.
  - intros n query limit Hn Hl Hq. exists ""%string. unfold store.
    change (value_of "query" (request_values query 0 10 limit)) with query.
    change (value_of "limit" (request_values query 0 10 limit)) with (pretty limit : string).
    by rewrite (asks_for _ _ Hn Hq), pretty_unsigned.
Qed.

Lemma cursors_return_every_row_witness :
  ∃ pages, follow (VLClient_Query store) "ns" 100 6 "br" 0 10 [] 2 "" = Ok pages
    ∧ concat pages = map (λ o, entry_of (decodeRow o)) held ∧ Forall (page_fits 100 2) pages.
Proof.
  apply (cursors_return_every_row store "ns" "br" 0 10 [] held 100 2).
  - apply store_holds.
  - reflexivity.
  - lia.
  - lia.
Defined.

(** A row without a message is dropped after the limit has been applied, and the
    page looks like the last one: the row of instant 5 is never returned. *)
Definition stored : list (list (string * json)) :=
  [[("_time", JString "1970-01-01T00:00:09Z"); ("_msg", JString "b")];
   [("_time", JString "1970-01-01T00:00:07Z"); ("_msg", JString "")];
   [("_time", JString "1970-01-01T00:00:05Z"); ("_msg", JString "a")]]%string.

Definition server (values : list (string * string)) : reply :=
  let limit := default ""%string (snd <$> List.find (λ kv, bool_decide (kv.1 = "limit"%string)) values) in
  Replied 200 "" (take (Z.to_nat (default 0 (ParseInt10 limit))) stored) None.

Lemma dropped_row_ends_the_pages :
  follow (VLClient_Query server) "ns" 100 6 "br" 0 10 [] 2 "" = Ok [[entry_of (mkLogRow (9 * Second) "" "" "" "b")]].
Proof. by vm_compute. Qed.
End Witness.
