(* ===== verification/Observability.v ===== *)
(** * Logs and metrics from the API to the cell

    The handlers [BranchLogs] and [BranchMetrics] of
    [services/projects/api/handler.go] with the checks of [logs.go], the client
    of [services/projects/metrics/cells_client.go], and the gRPCs of
    [services/clusters/clusters.go] that answer them.  A timestamp is the
    instant in nanoseconds: [timestamppb.New] and [AsTime] are inverse on the
    years that JSON and RFC 3339 can write. *)

From Stdlib Require Import SpecFloat.
From stdpp Require Import pretty.
From S2P Require Import Prelude GoStrings GoFloat GoTime GoText ClusterStatus ProjectsModel ProjectStore AccessPolicy Scheduler BranchService ProjectsApi BranchRequests LogQueries MetricQueries LogEntries LogPages.

#[local] Open Scope Z_scope.
#[local] Open Scope go_scope.

(** ** Messages *)

Record GetBranchLogsRequest := mkLogsRequest {
  lq_BranchId : string;
  lq_Start : option Z;
  lq_End : option Z;
  lq_Filters : list LogFilter;
  lq_Limit : Z;
  lq_Cursor : string
}.

Record LogEntryMsg := mkLogEntryMsg {
  lm_Timestamp : Z;
  lm_InstanceId : string;
  lm_Level : option string;
  lm_Message : string;
  lm_Process : option string
}.

Record GetBranchLogsResponse := mkLogsResponse {
  lp_Start : option Z;
  lp_End : option Z;
  lp_Logs : list LogEntryMsg;
  lp_NextCursor : option string
}.

Record GetBranchMetricsRequest := mkMetricsRequest {
  mq_BranchId : string;
  mq_Start : option Z;
  mq_End : option Z;
  mq_Metrics : list string;
  mq_Instances : list string;
  mq_Aggregations : list string
}.

Record GetBranchMetricsResponse := mkMetricsResponse {
  mp_Start : option Z;
  mp_End : option Z;
  mp_Results : list Result
}.

(** ** The cell: [ClustersService] *)

Record LogsQuerier := mkLogsQuerier {
  qr_backend : string → Z → Z → Z → res string (list LogRow);
  qr_namespace : string;
  qr_pageBytes : Z
}.

Record MetricsQuerier := mkMetricsQuerier {
  mr_backend : string → Z → Z → Z → res string (list PromSeries);
  mr_namespace : string
}.

Section Cell.
Context `{JSON} `{Unicode} `{MapRange}.

Definition to_entry_msg (e : LogEntry) : LogEntryMsg :=
  mkLogEntryMsg (le_Timestamp e) (le_InstanceID e) (nonempty (le_Level e)) (le_Message e) (nonempty (le_Process e)).

Definition GetBranchLogs (querier : option LogsQuerier) (r : GetBranchLogsRequest) : grpc GetBranchLogsResponse :=
  match querier with
  | None => Err (Unimplemented, "logs backend not configured for this cell")%string
  | Some q =>
      if bool_decide (lq_BranchId r = "") then Err (InvalidArgument, "branch_id is required")%string
      else
        match lq_Start r, lq_End r with
        | Some from, Some to =>
            let limit := if lq_Limit r <=? 0 then 100 else lq_Limit r in
            match Query (qr_backend q) (qr_namespace q) (qr_pageBytes q) (lq_BranchId r) from to (lq_Filters r) limit (lq_Cursor r) with
            | Err e => Err (Internal, "query logs: " +:+ e)
            | Ok result =>
                Ok (mkLogsResponse (lq_Start r) (lq_End r) (map to_entry_msg (lg_Entries result))
                      (nonempty (lg_NextCursor result)))
            end
        | _, _ => Err (InvalidArgument, "start and end are required")%string
        end
  end.

Definition GetBranchMetrics (first : list string → string) (querier : option MetricsQuerier)
    (r : GetBranchMetricsRequest) : grpc GetBranchMetricsResponse :=
  match querier with
  | None => Err (Unimplemented, "metrics backend not configured for this cell")%string
  | Some q =>
      if bool_decide (mq_BranchId r = "") then Err (InvalidArgument, "branch_id is required")%string
      else
        match mq_Start r, mq_End r with
        | Some from, Some to =>
            if bool_decide (mq_Metrics r = []) then Err (InvalidArgument, "metrics is required")%string
            else
              match MetricsQuery first (mr_backend q) (mr_namespace q) (mq_BranchId r) (mq_Metrics r)
                      (mq_Instances r) (mq_Aggregations r) from to with
              | Err (ErrInvalidMetricsRequest e) =>
                  Err (InvalidArgument, "query metrics: invalid metrics request: " +:+ e)
              | Err (MetricsFailed e) => Err (Internal, "query metrics: " +:+ e)
              | Ok results => Ok (mkMetricsResponse (mq_Start r) (mq_End r) results)
              end
        | _, _ => Err (InvalidArgument, "start and end are required")%string
        end
  end.
End Cell.

(** ** Calls of the handlers *)

Inductive obs_call :=
| Projects (c : call)
| CallGetBranchLogs (cell : string) (r : GetBranchLogsRequest)
| CallGetBranchMetrics (cell : string) (r : GetBranchMetricsRequest).

Definition obs_resp (c : obs_call) : Type :=
  match c with
  | Projects c => resp c
  | CallGetBranchLogs _ _ => grpc GetBranchLogsResponse
  | CallGetBranchMetrics _ _ => grpc GetBranchMetricsResponse
  end.

Abbreviation O A := (prog obs_resp (res error A)).

Definition lift {A} (p : E A) : O A := embed Projects (λ c (r : obs_resp (Projects c)), r) p.
Definition refuse {A} (e : error) : O A := mret (Err e).
Definition checked {A} (r : res error A) : O A := mret r.
Definition remote {A} (msg : string) (p : prog obs_resp (grpc A)) : O A :=
  r ← p; match r with Ok a => mret (Ok a) | Err (c, m) => refuse (Wrapped msg (Status c m)) end.

(** ** [logs.go] *)

Definition DefaultLogLimit : Z := 100.
Definition MaxLogLimit : Z := 200.
Definition maxLogFilters : nat := 16.
Definition maxLogFilterValueLen : nat := 1024.
Definition maxLogFilterValuesPerList : nat := 100.

Record ApiLogFilter := mkApiLogFilter {
  al_Field : string;
  al_Op : string;
  al_Value : option string;
  al_Values : option (list string)
}.

(** [regexp.Compile]: the error of an invalid expression. *)
Class RegexpCompile := { Compile : string → option string }.

Definition validateLogsLimit (branchID : string) (limit : option Z) : option error :=
  match limit with
  | Some n => if (n <? 1) || (MaxLogLimit <? n)
              then Some (invalid branchID "limit" ("limit must be between 1 and " +:+ pretty MaxLogLimit)) else None
  | None => None
  end.

Definition valueParam (idx : nat) : string := "filters[" +:+ pretty idx +:+ "].value".
Definition valuesParam (idx : nat) : string := "filters[" +:+ pretty idx +:+ "].values".
Definition opParam (idx : nat) : string := "filters[" +:+ pretty idx +:+ "].op".

Definition requireInValues (branchID : string) (idx : nat) (f : ApiLogFilter) : res error (list string) :=
  let values := default [] (al_Values f) in
  if negb (bool_decide (al_Op f = "in")) then
    Err (invalid branchID (opParam idx) ("op [" +:+ al_Op f +:+ "] not allowed for field [" +:+ al_Field f +:+ "]"))
  else if bool_decide (values = []) then
    Err (invalid branchID (valuesParam idx) "values must be non-empty for op [in]")
  else if (maxLogFilterValuesPerList <? length values)%nat then
    Err (invalid branchID (valuesParam idx) ("at most " +:+ pretty maxLogFilterValuesPerList +:+ " values are allowed"))
  else match al_Value f with
       | Some _ => Err (invalid branchID (valueParam idx) "value must be unset for op [in]")
       | None => Ok values
       end.

Definition requireValue (branchID : string) (idx : nat) (f : ApiLogFilter) : res error string :=
  let value := default ""%string (al_Value f) in
  if bool_decide (value = ""%string) then
    Err (invalid branchID (valueParam idx) ("value must be non-empty for op [" +:+ al_Op f +:+ "]"))
  else if (maxLogFilterValueLen <? String.length value)%nat then
    Err (invalid branchID (valueParam idx) ("value must be at most " +:+ pretty maxLogFilterValueLen +:+ " characters"))
  else if negb (bool_decide (default [] (al_Values f) = [])) then
    Err (invalid branchID (valuesParam idx) ("values must be unset for op [" +:+ al_Op f +:+ "]"))
  else Ok value.

Section Api.
Context `{RegexpCompile}.

Definition validateLogFilter (branchID : string) (idx : nat) (f : ApiLogFilter) : res error LogFilter :=
  if bool_decide (al_Field f = "instance") then
    values <~ requireInValues branchID idx f; Ok (mkLogFilter "instance" "in" values "")
  else if bool_decide (al_Field f = "level") then
    values <~ requireInValues branchID idx f;
    match List.find (λ v, negb (bool_decide (v ∈ levels))) values with
    | Some v => Err (invalid branchID (valuesParam idx) ("invalid log level [" +:+ v +:+ "]"))
    | None => Ok (mkLogFilter "level" "in" values "")
    end
  else if bool_decide (al_Field f = "process") then
    values <~ requireInValues branchID idx f; Ok (mkLogFilter "process" "in" values "")
  else if bool_decide (al_Field f = "body") then
    value <~ requireValue branchID idx f;
    if bool_decide (al_Op f = "contains") || bool_decide (al_Op f = "icontains") then
      Ok (mkLogFilter "body" (al_Op f) [] value)
    else if bool_decide (al_Op f = "regex") || bool_decide (al_Op f = "iregex") then
      match Compile value with
      | Some e => Err (invalid branchID (valueParam idx) ("invalid regex: " +:+ e))
      | None => Ok (mkLogFilter "body" (al_Op f) [] value)
      end
    else Err (invalid branchID (opParam idx)
                ("op [" +:+ al_Op f +:+ "] not allowed for field [" +:+ al_Field f +:+ "]"))
  else Err (invalid branchID ("filters[" +:+ pretty idx +:+ "].field") ("unknown field [" +:+ al_Field f +:+ "]")).

Fixpoint validate_from (branchID : string) (idx : nat) (filters : list ApiLogFilter) : res error (list LogFilter) :=
  match filters with
  | [] => Ok []
  | f :: filters =>
      validated <~ validateLogFilter branchID idx f;
      rest <~ validate_from branchID (S idx) filters; Ok (validated :: rest)
  end.

Definition validateLogFilters (branchID : string) (filters : list ApiLogFilter) : res error (list LogFilter) :=
  if (maxLogFilters <? length filters)%nat then
    Err (invalid branchID "filters" ("at most " +:+ pretty maxLogFilters +:+ " filters are allowed"))
  else validate_from branchID 0 filters.

(** ** [handler.go] *)

Definition maxDateRange : Z := 6 * 30 * 24 * Hour.
Definition maxMetricsPerRequest : nat := 15.

Definition validateTimeRange (branchID : string) (from to : Z) : option error :=
  if to <? from then Some (invalid branchID "start" "start time must come before end time")
  else if maxDateRange <? TimeSub to from then Some (invalid branchID "end" "maximum date range is 4320h0m0s")
  else None.

Definition unless {A} (e : option error) (p : O A) : O A :=
  match e with Some e => refuse e | None => p end.

(** [CellsClient.GetLogs] *)
Record BranchLogsReply := mkBranchLogs {
  br_Start : option Z;
  br_End : option Z;
  br_Logs : list LogEntryMsg;
  br_NextCursor : option string
}.

(** [t.GetTimestamp().AsTime()] of a nil message is the Unix epoch. *)
Definition as_time (t : option Z) : Z := default 0 t.

Definition convertBranchLogs (r : GetBranchLogsResponse) : BranchLogsReply :=
  mkBranchLogs (Some (as_time (lp_Start r))) (Some (as_time (lp_End r))) (lp_Logs r)
    (lp_NextCursor r ≫= nonempty).

Definition wrap_int32 (n : Z) : Z := (n + 2 ^ 31) mod 2 ^ 32 - 2 ^ 31.

Definition GetLogs (organizationID cellID : string) (from to : Z) (branchID : string) (filters : list LogFilter)
    (limit : Z) (cursor : string) : O BranchLogsReply :=
  conn <-? lift (wrap "get cell connection" (GetCellConnection organizationID cellID));
  r <-? remote "get branch logs"
          (perform (CallGetBranchLogs conn (mkLogsRequest branchID (Some from) (Some to) filters (wrap_int32 limit) cursor)));
  mret (Ok (convertBranchLogs r)).

Definition GetMetrics (organizationID cellID : string) (from to : Z) (branchID : string)
    (metrics instances aggregations : list string) : O (list Result) :=
  conn <-? lift (wrap "get cell connection" (GetCellConnection organizationID cellID));
  r <-? remote "get branch metrics"
          (perform (CallGetBranchMetrics conn (mkMetricsRequest branchID (Some from) (Some to) metrics instances aggregations)));
  mret (Ok (mp_Results r)).

Record BranchLogsBody := mkLogsBody {
  lb_Start : Z;
  lb_End : Z;
  lb_Limit : option Z;
  lb_Filters : option (list ApiLogFilter);
  lb_Cursor : option string
}.

Record BranchMetricsBody := mkMetricsBody {
  mb_Start : Z;
  mb_End : Z;
  mb_Metrics : list string;
  mb_Aggregations : list string;
  mb_Instances : option (list string)
}.

Definition obs_map_err {A} (f : error → error) (p : O A) : O A :=
  r ← p; match r with Ok a => mret (Ok a) | Err e => refuse (f e) end.

Definition access (claims : option Claims) (organizationID : string) : O unit :=
  lift (withOrganizationAccess claims organizationID All (ok tt)).

Definition BranchLogs (claims : option Claims) (organizationID projectID branchID : string)
    (body : res error BranchLogsBody) : O BranchLogsReply :=
  _ <-? access claims organizationID;
  req <-? checked body;
  unless (validateTimeRange branchID (lb_Start req) (lb_End req))
    (unless (validateLogsLimit branchID (lb_Limit req))
       (userFilters <-? checked (validateLogFilters branchID (default [] (lb_Filters req)));
        branch <-? lift (DescribeBranch organizationID projectID branchID);
        obs_map_err (Wrapped ("getting logs for branch [" +:+ branchID +:+ "]"))
          (GetLogs organizationID (b_CellID branch) (lb_Start req) (lb_End req) branchID userFilters
             (default DefaultLogLimit (lb_Limit req)) (default ""%string (lb_Cursor req))))).

(** [Valid] of the metric names and of the aggregations of a request. *)
Definition BranchMetricNames : list string :=
  ["connections_active"; "connections_idle"; "cpu"; "disk"; "iops_read"; "iops_write"; "latency_read"; "latency_write";
   "memory"; "network_egress"; "network_ingress"; "replication_lag_time"; "throughput_read"; "throughput_write";
   "wal_sync_time"]%string.

Definition BranchMetricsRequestAggregations : list string := ["avg"; "max"; "min"]%string.

Definition first_unknown (known names : list string) : option string :=
  List.find (λ n, negb (bool_decide (n ∈ known))) names.

Definition validateBranchInstances (organizationID : string) (branch : Branch) (instances : list string) : E unit :=
  if bool_decide (instances = []) then ok tt
  else
    client <-? GetCellConnection organizationID (b_CellID branch);
    cluster <-? describe_cluster client (b_ID branch);
    match List.find (λ i, bool_decide (cs_Instances (cd_Status cluster) !! i = None)) instances with
    | Some i => fail (invalid (b_ID branch) "instances" ("unknown instance [" +:+ i +:+ "]"))
    | None => ok tt
    end.

Definition check_metrics (branchID : string) (req : BranchMetricsBody) : option error :=
  if bool_decide (mb_Metrics req = []) then Some (invalid branchID "metrics" "`metrics` must not be empty")
  else if (maxMetricsPerRequest <? length (mb_Metrics req))%nat then
    Some (invalid branchID "metrics" ("at most " +:+ pretty maxMetricsPerRequest +:+ " metrics may be requested"))
  else match first_unknown BranchMetricNames (mb_Metrics req) with
  | Some m => Some (invalid branchID "metrics" ("unknown metric [" +:+ m +:+ "]"))
  | None =>
      if bool_decide (mb_Aggregations req = []) then
        Some (invalid branchID "aggregations" "`aggregations` must not be empty")
      else match first_unknown BranchMetricsRequestAggregations (mb_Aggregations req) with
      | Some a => Some (invalid branchID "aggregations" ("unsupported aggregation [" +:+ a +:+ "]"))
      | None => validateTimeRange branchID (mb_Start req) (mb_End req)
      end
  end.

Record BranchMetricsReply := mkBranchMetrics { bt_Start : Z; bt_End : Z; bt_Results : list Result }.

Definition BranchMetrics (claims : option Claims) (organizationID projectID branchID : string)
    (body : res error BranchMetricsBody) : O BranchMetricsReply :=
  _ <-? access claims organizationID;
  req <-? checked body;
  unless (check_metrics branchID req)
    (branch <-? lift (DescribeBranch organizationID projectID branchID);
     let instances := default [] (mb_Instances req) in
     _ <-? lift (validateBranchInstances organizationID branch instances);
     let failed := "get metrics for branch [" +:+ branchID +:+ "]" in
     results <-? obs_map_err (Wrapped failed)
       (GetMetrics organizationID (b_CellID branch) (mb_Start req) (mb_End req) branchID (mb_Metrics req) instances
          (mb_Aggregations req));
     if bool_decide (length results = 0%nat) then refuse (Wrapped failed (ErrorText "backend returned no results"))
     else mret (Ok (mkBranchMetrics (mb_Start req) (mb_End req) results))).
End Api.

(** ** Filters *)

Lemma expandLevels_nonempty asked :
  asked ≠ [] → Forall (λ v, v ∈ levels) asked → expandLevels asked ≠ [].
Proof.
  destruct asked as [|v asked]; [done|]. intros _ Hl. apply Forall_cons in Hl as [Hv _].
  unfold expandLevels. cbn [mbind list_bind]. intros Hnil. apply app_nil in Hnil as [Hnil _].
  unfold levels in Hv. rewrite !elem_of_cons, elem_of_nil in Hv.
  destruct Hv as [->|[->|[->|[->|[]]]]]; by vm_compute in Hnil.
Qed.

Lemma requireInValues_ok branchID idx f values : requireInValues branchID idx f = Ok values → values ≠ [].
Proof.
  unfold requireInValues. destruct (negb _); [done|]. case_bool_decide; [done|].
  destruct (_ <? _)%nat; [done|]. destruct (al_Value f); [done|]. by intros [= <-].
Qed.

Section Filters.
Context `{RegexpCompile} `{Unicode}.

Lemma validated_compiles branchID idx f g :
  validateLogFilter branchID idx f = Ok g → is_ok (compileLogFilter g) = true.
Proof.
  unfold validateLogFilter.
  destruct (bool_decide (al_Field f = "instance")); [|destruct (bool_decide (al_Field f = "level"));
    [|destruct (bool_decide (al_Field f = "process")); [|destruct (bool_decide (al_Field f = "body")); [|done]]]].
  1-3: destruct (requireInValues branchID idx f) as [values|] eqn:Hv; cbn [res_bind]; [|done].
  4: destruct (requireValue branchID idx f) as [value|] eqn:Hv; cbn [res_bind]; [|done].
  - by intros [= <-].
  - destruct (List.find _ _) eqn:Hf; [done|]. intros [= <-]. unfold compileLogFilter.
    cbn [lf_Field lf_Op lf_Values]. change (list_column "level") with (Some "severity_text"%string). cbn [bool_decide negb].
    assert (expandLevels values ≠ []) as He; [|by destruct (expandLevels values)].
    apply expandLevels_nonempty; [by eapply requireInValues_ok|]. apply Forall_forall. intros v Hin.
    apply list_elem_of_In in Hin. eapply List.find_none in Hf; [|exact Hin]. by apply negb_false_iff, bool_decide_eq_true in Hf.
  - by intros [= <-].
  - assert (∀ op, op ∈ ["contains"; "icontains"; "regex"; "iregex"]%string →
      is_ok (compileLogFilter (mkLogFilter "body" op [] value)) = true) as Hbody.
    { intros op. rewrite !elem_of_cons, elem_of_nil. by intros [->|[->|[->|[->|[]]]]]. }
    destruct (bool_decide (al_Op f = "contains")) eqn:H1; [|destruct (bool_decide (al_Op f = "icontains")) eqn:H2;
      [|destruct (bool_decide (al_Op f = "regex")) eqn:H3; [|destruct (bool_decide (al_Op f = "iregex")) eqn:H4; [|done]]]];
      cbn [orb]; try destruct (Compile value); try done; intros [= <-]; apply Hbody;
      repeat match goal with E : bool_decide _ = true |- _ => apply bool_decide_eq_true in E; rewrite E end;
      apply (bool_decide_unpack _); by vm_compute.
Qed.

Lemma validated_compile branchID idx filters out :
  validate_from branchID idx filters = Ok out → is_ok (compile_all out) = true.
Proof.
  revert idx out. induction filters as [|f filters IH]; intros idx out; cbn [validate_from]; [by intros [= <-]|].
  destruct (validateLogFilter branchID idx f) as [g|] eqn:Hg; cbn [res_bind]; [|done].
  destruct (validate_from branchID (S idx) filters) as [rest|] eqn:Hr; cbn [res_bind]; [|done].
  intros [= <-]. apply validated_compiles in Hg. apply IH in Hr. cbn [compile_all].
  destruct (compileLogFilter g); [|done]. cbn [res_bind]. by destruct (compile_all rest).
Qed.
End Filters.

(** ** Requests *)

Definition local (c : obs_call) : bool := match c with Projects _ => true | _ => false end.

Lemma lift_only {A} (p : E A) : only obs_resp local (lift p).
Proof. apply only_embed. induction p as [a|c k IH]; simpl; auto. Qed.

Lemma lift_runs {A} (p : E A) tr a :
  runs obs_resp (lift p) tr a →
  ∃ tr1, runs resp p tr1 a ∧ ∀ c w, ev c w ∈ tr1 → ev (resp := obs_resp) (Projects c) w ∈ tr.
Proof.
  intros (tr1 & H1 & _ & He)%runs_embed. exists tr1. split; [done|]. intros c w Hin.
  destruct (He c w Hin) as (r' & -> & Hin'). done.
Qed.

Lemma DescribeBranch_runs org prj id tr b : runs resp (DescribeBranch org prj id) tr (Ok b) →
  (∃ row, ev (resp := resp) (SelectProject org prj) (Ok row) ∈ tr) ∧ ev (resp := resp) (SelectBranch prj id) (Ok b) ∈ tr.
Proof.
  intros [(e & _ & [=])|(tr' & -> & Hb)]%in_tx_runs.
  apply runs_bind_ok in Hb as [(t1 & t2 & p & -> & Hp & Hb)|(e & _ & [=])].
  apply on_no_rows_ok, perform_runs in Hb as ->.
  apply runs_bind_ok in Hp as [(t3 & t4 & row & -> & Hp & [-> _])|(e & _ & [=])].
  apply on_no_rows_ok, perform_runs in Hp as ->. split; [exists row|]; set_solver.
Qed.

(** The checks of a request call nothing. *)
Lemma unless_runs {A} e (p : O A) tr r c w :
  runs obs_resp (unless e p) tr r → ev c w ∈ tr → e = None ∧ runs obs_resp p tr r.
Proof. destruct e; [|done]. intros [-> _] Hin. by apply not_elem_of_nil in Hin. Qed.

Lemma checked_later {A B} (x : res error A) (k : A → O B) tr r c w :
  runs obs_resp (pbind_ok (checked x) k) tr r → ev c w ∈ tr → ∃ a, x = Ok a ∧ runs obs_resp (k a) tr r.
Proof. destruct x as [a|e]; [by exists a|]. intros [-> _] Hin. by apply not_elem_of_nil in Hin. Qed.

Lemma access_later {A} claims org (k : O A) tr r c w :
  runs obs_resp (pbind_ok (access claims org) (λ _ : unit, k)) tr r → ev c w ∈ tr →
  HasAccessToOrganization claims org = true ∧ runs obs_resp k tr r.
Proof.
  unfold access, withOrganizationAccess. intros Hr Hin.
  destruct claims as [cl|]; [|destruct Hr as [-> _]; by apply not_elem_of_nil in Hin].
  destruct (HasAccessToOrganization (Some cl) org); [done|].
  destruct Hr as [-> _]. by apply not_elem_of_nil in Hin.
Qed.

Lemma lift_later {A B} (p : E A) (k : A → O B) tr r c w :
  runs obs_resp (pbind_ok (lift p) k) tr r → ev c w ∈ tr → local c = false →
  ∃ t1 t2 a, tr = t1 ++ t2 ∧ runs obs_resp (lift p) t1 (Ok a) ∧ runs obs_resp (k a) t2 r ∧ ev c w ∈ t2.
Proof. intros Hr Hin Hc. eapply in_later; [exact Hr|exact Hin|apply lift_only|exact Hc]. Qed.

Lemma obs_map_err_runs {A} f (p : O A) tr r :
  runs obs_resp (obs_map_err f p) tr r → ∃ r', runs obs_resp p tr r'.
Proof. intros (t1 & t2 & r' & -> & Hp & Hk)%runs_bind. exists r'. destruct r'; destruct Hk as [-> _]; by rewrite app_nil_r. Qed.

(** The one request a client sends. *)
Definition call_of (e : event obs_resp) : obs_call := match e with ev c _ => c end.

Lemma then_ret {A B} (p : O A) (f : A → B) tr r :
  runs obs_resp (pbind_ok p (λ a, mret (Ok (f a)))) tr r → ∃ r', runs obs_resp p tr r'.
Proof.
  intros (t1 & t2 & r' & -> & Hp & Hk)%runs_bind. exists r'. destruct r'; destruct Hk as [-> _]; by rewrite app_nil_r.
Qed.

Lemma remote_sends {A} msg (p : prog obs_resp (grpc A)) tr r : runs obs_resp (remote msg p) tr r → ∃ r', runs obs_resp p tr r'.
Proof.
  intros (t1 & t2 & r' & -> & Hp & Hk)%runs_bind. exists r'. destruct r' as [|[]]; destruct Hk as [-> _]; by rewrite app_nil_r.
Qed.

Lemma perform_sends c tr r c' w : runs obs_resp (perform c) tr r → ev c' w ∈ tr → c' = c.
Proof.
  intros (r' & t & -> & [-> _]) Hin. apply list_elem_of_singleton in Hin. exact (f_equal call_of Hin).
Qed.

Lemma GetLogs_request org cellID from to branchID filters limit cursor tr r cell req w :
  runs obs_resp (GetLogs org cellID from to branchID filters limit cursor) tr r →
  ev (resp := obs_resp) (CallGetBranchLogs cell req) w ∈ tr →
  req = mkLogsRequest branchID (Some from) (Some to) filters (wrap_int32 limit) cursor.
Proof.
  intros Hr Hin. apply (lift_later _ _ _ _ _ _ Hr) in Hin as (t1 & t2 & conn & -> & _ & Hk & Hin); [|done].
  apply then_ret in Hk as [r1 Hk]. apply remote_sends in Hk as [r2 Hk].
  by pose proof (perform_sends _ _ _ _ _ Hk Hin) as [= _ ->].
Qed.

Lemma GetMetrics_request org cellID from to branchID metrics instances aggregations tr r cell req w :
  runs obs_resp (GetMetrics org cellID from to branchID metrics instances aggregations) tr r →
  ev (resp := obs_resp) (CallGetBranchMetrics cell req) w ∈ tr →
  req = mkMetricsRequest branchID (Some from) (Some to) metrics instances aggregations.
Proof.
  intros Hr Hin. apply (lift_later _ _ _ _ _ _ Hr) in Hin as (t1 & t2 & conn & -> & _ & Hk & Hin); [|done].
  apply then_ret in Hk as [r1 Hk]. apply remote_sends in Hk as [r2 Hk].
  by pose proof (perform_sends _ _ _ _ _ Hk Hin) as [= _ ->].
Qed.

(** ** Answers *)

Lemma collect_within `{JSON} n seen limit rows : ∀ st,
  Z.of_nat (length (pr_entries st)) ≤ limit →
  Z.of_nat (length (pr_entries (collect n seen limit st rows).1)) ≤ limit.
Proof.
  induction rows as [|r rows IH]; intros st Hst; [done|]. cbn [collect]. destruct (_ && _); [by apply IH|].
  destruct (Z.eqb_spec (Z.of_nat (length (pr_entries st))) limit); [done|].
  destruct (Add _ _) as [page fits]. destruct fits; cbn [negb]; [|done].
  apply IH. unfold emit. cbn [pr_entries]. rewrite length_app. simpl. lia.
Qed.

Section Answered.
Context `{JSON} `{Unicode} `{MapRange}.

Lemma Query_within backend ns pageBytes branchID from to filters limit cursor page :
  Query backend ns pageBytes branchID from to filters limit cursor = Ok page →
  Z.of_nat (length (lg_Entries page)) ≤ limit.
Proof.
  unfold Query. destruct (Z.leb_spec limit 0) as [|Hl]; [done|]. destruct (decodeCursor cursor) as [[n seen]|]; [|done].
  destruct (buildLogsQL _ _ _ _); cbn [res_bind]; [|done]. destruct (backend _ _ _ _) as [rows|]; [|done].
  pose proof (collect_within n seen limit rows (no_progress pageBytes) ltac:(simpl; lia)) as Hw.
  destruct (collect _ _ _ _ _) as [st capped]. cbn [fst] in Hw.
  destruct (negb _); [by intros [= <-]|]. case_bool_decide; intros [= <-]; simpl; lia.
Qed.

Lemma Query_fails backend ns pageBytes branchID from to filters limit cursor e :
  is_ok (compile_all filters) = true → 0 < limit →
  Query backend ns pageBytes branchID from to filters limit cursor = Err e →
  (∃ e, decodeCursor cursor = Err e) ∨ (∃ query n e, backend query from to n = Err e).
Proof.
  intros Hc Hl. unfold Query. replace (limit <=? 0) with false by lia.
  destruct (decodeCursor cursor) as [[n seen]|]; [|by eauto]. unfold buildLogsQL.
  destruct (compile_all filters); [|done]. cbn [res_bind].
  destruct (backend _ _ _ _) as [rows|e'] eqn:Hb; [|by eauto 6]. intros Hq. exfalso. revert Hq.
  destruct (collect _ _ _ _ _) as [st capped]. destruct (negb _); [done|]. by case_bool_decide.
Qed.
End Answered.

(** ** Metrics *)

Lemma first_unknown_none known names : first_unknown known names = None → Forall (λ n, n ∈ known) names.
Proof.
  intros Hf. apply Forall_forall. intros n Hin. apply list_elem_of_In in Hin.
  eapply List.find_none in Hf; [|exact Hin]. by apply negb_false_iff, bool_decide_eq_true in Hf.
Qed.

Lemma lookup_all_ok metrics : Forall (λ m, m ∈ BranchMetricNames) metrics →
  ∃ infos, lookup_all metrics = Ok infos ∧ map fst infos = metrics.
Proof.
  assert (forallb (λ m, bool_decide (is_Some (LookupMetric m))) BranchMetricNames = true) as Hknown by by vm_compute.
  rewrite forallb_forall in Hknown. induction 1 as [|m metrics Hm _ (infos & IH & Hf)]; [by exists []|].
  specialize (Hknown m). rewrite <-list_elem_of_In in Hknown. apply Hknown, bool_decide_eq_true in Hm as [info Hi].
  exists ((m, info) :: infos). cbn [lookup_all]. rewrite Hi, IH. split; [done|]. simpl. by rewrite Hf.
Qed.

Lemma valid_aggregations aggs : Forall (λ a, a ∈ BranchMetricsRequestAggregations) aggs →
  List.find (λ a, negb (bool_decide (a ∈ validAggregations))) aggs = None.
Proof.
  induction 1 as [|a aggs Ha _ IH]; [done|]. cbn [List.find]. rewrite IH.
  unfold BranchMetricsRequestAggregations in Ha. rewrite !elem_of_cons, elem_of_nil in Ha.
  by destruct Ha as [->|[->|[->|[]]]].
Qed.

(** What the cell makes of a request that was checked. *)
Lemma MetricsQuery_answers `{Unicode} `{MapRange} first backend ns branchID metrics instances aggs from to :
  metrics ≠ [] → aggs ≠ [] →
  Forall (λ m, m ∈ BranchMetricNames) metrics → Forall (λ a, a ∈ BranchMetricsRequestAggregations) aggs →
  match MetricsQuery first backend ns branchID metrics instances aggs from to with
  | Ok results => map re_Metric results = metrics
  | Err (ErrInvalidMetricsRequest _) => False
  | Err (MetricsFailed _) => True
  end.
Proof.
  intros Hm Ha Hms Has. unfold MetricsQuery. rewrite !bool_decide_eq_false_2, valid_aggregations by done.
  destruct (lookup_all_ok metrics Hms) as (infos & -> & <-). cbn [res_bind].
  destruct (errors_of _); [|done]. clear. induction infos as [|[m info] infos IH]; [done|]. simpl. by f_equal.
Qed.

Lemma validateBranchInstances_ok org branch instances tr u :
  runs resp (validateBranchInstances org branch instances) tr (Ok u) →
  instances = [] ∨ ∃ conn cluster, ev (resp := resp) (DescribePostgresCluster conn (b_ID branch)) (Ok cluster) ∈ tr
    ∧ Forall (λ i, i ∈ dom (cs_Instances (cd_Status cluster))) instances.
Proof.
  unfold validateBranchInstances. case_bool_decide; [by left|]. intros Hr. right.
  apply runs_bind_ok in Hr as [(t1 & t2 & conn & -> & _ & Hr)|(e & _ & [=])].
  apply runs_bind_ok in Hr as [(t3 & t4 & cluster & -> & Hd & Hr)|(e & _ & [=])].
  apply describe_cluster_ok in Hd as ->. exists conn, cluster. split; [set_solver|].
  destruct (List.find _ _) eqn:Hf; [by destruct Hr as [_ [=]]|]. apply Forall_forall. intros i Hi.
  apply list_elem_of_In in Hi. eapply List.find_none in Hf; [|exact Hi].
  apply bool_decide_eq_false in Hf. apply elem_of_dom. by apply not_eq_None_Some.
Qed.

Lemma check_metrics_none branchID req : check_metrics branchID req = None →
  mb_Metrics req ≠ [] ∧ mb_Aggregations req ≠ [] ∧ Forall (λ m, m ∈ BranchMetricNames) (mb_Metrics req)
  ∧ Forall (λ a, a ∈ BranchMetricsRequestAggregations) (mb_Aggregations req).
Proof.
  unfold check_metrics. case_bool_decide; [done|]. destruct (_ <? _)%nat; [done|].
  destruct (first_unknown BranchMetricNames _) eqn:Hm; [done|]. case_bool_decide; [done|].
  destruct (first_unknown BranchMetricsRequestAggregations _) eqn:Ha; [done|].
  apply first_unknown_none in Hm, Ha. done.
Qed.

(** ** The main result *)

(** C28. A request for logs that reaches a cell was checked first: the user has
    access to the organization, and the project and the branch were found in it.
    It asks for the logs of that branch, for 1 to 200 entries, with filters that
    compile; so the cell can only fail to answer because of the cursor or of its
    backend, and never returns more entries than were asked for. *)
Theorem log_requests_are_served `{RegexpCompile} `{JSON} `{Unicode} `{MapRange}
    claims org prj branchID body tr out cell req r :
  runs obs_resp (BranchLogs claims org prj branchID body) tr out →
  ev (resp := obs_resp) (CallGetBranchLogs cell req) r ∈ tr → branchID ≠ ""%string →
  HasAccessToOrganization claims org = true
  ∧ (∃ row, ev (resp := obs_resp) (Projects (SelectProject org prj)) (Ok row) ∈ tr)
  ∧ (∃ branch, ev (resp := obs_resp) (Projects (SelectBranch prj branchID)) (Ok branch) ∈ tr)
  ∧ lq_BranchId req = branchID ∧ 1 ≤ lq_Limit req ≤ MaxLogLimit
  ∧ ∀ q, match GetBranchLogs (Some q) req with
         | Ok answer => Z.of_nat (length (lp_Logs answer)) ≤ lq_Limit req
         | Err _ => (∃ e, decodeCursor (lq_Cursor req) = Err e)
                    ∨ (∃ query from to n e, qr_backend q query from to n = Err e)
         end.
Proof.
  intros Hr Hin Hid. apply (access_later _ _ _ _ _ _ _ Hr) in Hin as Ha. destruct Ha as [Haccess Hr1].
  destruct (checked_later _ _ _ _ _ _ Hr1 Hin) as (b & _ & Hr2).
  destruct (unless_runs _ _ _ _ _ _ Hr2 Hin) as [_ Hr3]. destruct (unless_runs _ _ _ _ _ _ Hr3 Hin) as [Hlimit Hr4].
  destruct (checked_later _ _ _ _ _ _ Hr4 Hin) as (filters & Hfilters & Hr5).
  destruct (lift_later _ _ _ _ _ _ Hr5 Hin) as (t1 & t2 & branch & -> & Hd & Hr6 & Hin6); [done|].
  apply lift_runs in Hd as (t & Hd & Hev). apply DescribeBranch_runs in Hd as [(row & Hp) Hb].
  split; [done|]. split; [exists row; apply elem_of_app; left; by apply Hev|].
  split; [exists branch; apply elem_of_app; left; by apply Hev|].
  apply obs_map_err_runs in Hr6 as (r' & Hr6). apply (GetLogs_request _ _ _ _ _ _ _ _ _ _ _ _ _ Hr6) in Hin6 as ->.
  cbn [lq_BranchId lq_Limit lq_Cursor].
  assert (1 ≤ default DefaultLogLimit (lb_Limit b) ≤ MaxLogLimit) as Hl.
  { unfold validateLogsLimit in Hlimit. unfold DefaultLogLimit, MaxLogLimit in *. destruct (lb_Limit b) as [n|]; simpl; [|lia].
    destruct (_ || _) eqn:Hn; [done|]. lia. }
  assert (wrap_int32 (default DefaultLogLimit (lb_Limit b)) = default DefaultLogLimit (lb_Limit b)) as ->.
  { unfold wrap_int32, MaxLogLimit in *. rewrite Z.mod_small; lia. }
  split; [done|]. split; [done|]. intros q. unfold GetBranchLogs.
  cbn [lq_BranchId lq_Limit lq_Cursor lq_Start lq_End lq_Filters]. rewrite bool_decide_eq_false_2 by done.
  replace (default DefaultLogLimit (lb_Limit b) <=? 0) with false by lia.
  assert (is_ok (compile_all filters) = true) as Hc.
  { unfold validateLogFilters in Hfilters. destruct (_ <? _)%nat; [done|]. by eapply validated_compile. }
  destruct (Query _ _ _ _ _ _ _ _ _) as [page|e] eqn:Hq.
  - apply Query_within in Hq. cbn [lp_Logs]. by rewrite length_map.
  - apply Query_fails in Hq as [?|(query & n & e' & He)]; [by left|right|done|lia]. by eauto 10.
Qed.

(** A request for metrics that reaches a cell asks for the branch that the user
    has access to, and for instances of its cluster alone; the cell finds all of
    its metrics and aggregations valid, and answers with one result for each
    metric in the order they were asked for. *)
Theorem metric_requests_are_served `{Unicode} `{MapRange} claims org prj branchID body tr out cell req r :
  runs obs_resp (BranchMetrics claims org prj branchID body) tr out →
  ev (resp := obs_resp) (CallGetBranchMetrics cell req) r ∈ tr → branchID ≠ ""%string →
  HasAccessToOrganization claims org = true
  ∧ (∃ row, ev (resp := obs_resp) (Projects (SelectProject org prj)) (Ok row) ∈ tr)
  ∧ (∃ branch, ev (resp := obs_resp) (Projects (SelectBranch prj branchID)) (Ok branch) ∈ tr
      ∧ (mq_Instances req = []
         ∨ ∃ conn cluster, ev (resp := obs_resp) (Projects (DescribePostgresCluster conn (b_ID branch))) (Ok cluster) ∈ tr
             ∧ Forall (λ i, i ∈ dom (cs_Instances (cd_Status cluster))) (mq_Instances req)))
  ∧ mq_BranchId req = branchID
  ∧ ∀ first q, match GetBranchMetrics first (Some q) req with
               | Ok answer => map re_Metric (mp_Results answer) = mq_Metrics req
               | Err (c, _) => c = Internal
               end.
Proof.
  intros Hr Hin Hid. apply (access_later _ _ _ _ _ _ _ Hr) in Hin as Ha. destruct Ha as [Haccess Hr1].
  destruct (checked_later _ _ _ _ _ _ Hr1 Hin) as (b & _ & Hr2).
  destruct (unless_runs _ _ _ _ _ _ Hr2 Hin) as [Hcheck Hr3].
  destruct (lift_later _ _ _ _ _ _ Hr3 Hin) as (t1 & t2 & branch & -> & Hd & Hr4 & Hin4); [done|].
  apply lift_runs in Hd as (t & Hd & Hev). apply DescribeBranch_runs in Hd as [(row & Hp) Hb].
  destruct (lift_later _ _ _ _ _ _ Hr4 Hin4) as (t3 & t4 & u & -> & Hv & Hr5 & Hin5); [done|].
  apply lift_runs in Hv as (tv & Hv & Hevv). apply validateBranchInstances_ok in Hv.
  apply runs_bind in Hr5 as (t5 & t6 & x & -> & Hr6 & Hend).
  assert (t6 = []) as -> by (destruct x; [destruct (bool_decide _)|]; by destruct Hend as [-> _]).
  rewrite app_nil_r in Hin5 |- *. apply obs_map_err_runs in Hr6 as (r' & Hr6).
  apply (GetMetrics_request _ _ _ _ _ _ _ _ _ _ _ _ _ Hr6) in Hin5 as ->. cbn [mq_BranchId mq_Instances].
  split; [done|]. split; [exists row; apply elem_of_app; left; by apply Hev|]. split.
  { exists branch. split; [apply elem_of_app; left; by apply Hev|].
    destruct Hv as [Hv|(conn & cluster & Hv & Hall)]; [by left|right]. exists conn, cluster.
    split; [|done]. apply elem_of_app; right; apply elem_of_app; left. by apply Hevv. }
  split; [done|]. intros first q. unfold GetBranchMetrics. cbn [mq_BranchId mq_Start mq_End mq_Metrics mq_Instances mq_Aggregations].
  apply check_metrics_none in Hcheck as (Hm & Hag & Hms & Has). rewrite !bool_decide_eq_false_2 by done.
  pose proof (MetricsQuery_answers first (mr_backend q) (mr_namespace q) branchID (mb_Metrics b)
    (default [] (mb_Instances b)) (mb_Aggregations b) (mb_Start b) (mb_End b) Hm Hag Hms Has) as Hq.
  by destruct (MetricsQuery _ _ _ _ _ _ _ _ _) as [results|[e|e]].
Qed.

(** ** Witnesses *)

Module Witness.
#[local] Instance plain_runes : Unicode := { IsPrint := λ _, true }.
#[local] Instance range : MapRange := { range_keys := elements; range_perm := λ s, reflexivity _ }.
#[local] Instance no_objects : JSON := { UnmarshalObject := λ _, None }.
#[local] Instance all_compile : RegexpCompile := { Compile := λ _, None }.

(** A cell that answers with its own handlers. *)
Definition querier : LogsQuerier :=
  mkLogsQuerier (λ _ _ _ _, Ok [mkLogRow 9 "pod-1" "LOG" "client backend" "ready"]) "ns" 100.
Definition cell_answers (w : unit) (c : obs_call) : unit * obs_resp c :=
  match c as c return unit * obs_resp c with
  | Projects c => BranchRequests.Witness.cell_sample w c
  | CallGetBranchLogs _ r => (w, GetBranchLogs (Some querier) r)
  | CallGetBranchMetrics _ r => (w, GetBranchMetrics (λ _, ""%string) None r)
  end.

Definition body : BranchLogsBody :=
  mkLogsBody 0 10 (Some 2) (Some [mkApiLogFilter "level" "in" None (Some ["error"%string])]) None.
Definition reading := exec obs_resp cell_answers tt
  (BranchLogs BranchRequests.Witness.a_user "org" "prj" "root" (Ok body)).

Definition asked (e : event obs_resp) : option GetBranchLogsRequest :=
  match e with ev (CallGetBranchLogs "cell:50051" q) (Ok _) => Some q | _ => None end.

Lemma asked_in (tr : list (event obs_resp)) q :
  omap asked tr = [q] → ∃ r, ev (resp := obs_resp) (CallGetBranchLogs "cell:50051" q) r ∈ tr.
Proof.
  intros H. assert (q ∈ omap asked tr) as Hin by (rewrite H; by left).
  apply list_elem_of_omap in Hin as (e & Hin & Hx). unfold asked in Hx.
  repeat case_match; simplify_eq. by eexists.
Qed.

Definition request : GetBranchLogsRequest :=
  mkLogsRequest "root" (Some 0) (Some 10) [mkLogFilter "level" "in" ["error"%string] ""] 2 "".

Lemma log_requests_are_served_witness :
  (∃ r, ev (resp := obs_resp) (CallGetBranchLogs "cell:50051" request) r ∈ reading.1.1) ∧ 1 ≤ lq_Limit request ≤ MaxLogLimit.
Proof.
  assert (omap asked reading.1.1 = [request]) as Hq by (vm_compute; reflexivity).
  apply asked_in in Hq as [r Hin]. split; [by exists r|].
  destruct (log_requests_are_served BranchRequests.Witness.a_user "org" "prj" "root" (Ok body) reading.1.1 reading.2
    "cell:50051" request r (exec_runs cell_answers tt _) Hin ltac:(discriminate)) as (_ & _ & _ & _ & Hl & _).
  exact Hl.
Defined.

Definition metrics_body : BranchMetricsBody := mkMetricsBody 0 10 ["cpu"; "disk"]%string ["avg"%string] None.
Definition measuring := exec obs_resp cell_answers tt
  (BranchMetrics BranchRequests.Witness.a_user "org" "prj" "root" (Ok metrics_body)).

Definition measured (e : event obs_resp) : option GetBranchMetricsRequest :=
  match e with ev (CallGetBranchMetrics "cell:50051" q) _ => Some q | _ => None end.

Lemma measured_in (tr : list (event obs_resp)) q :
  omap measured tr = [q] → ∃ r, ev (resp := obs_resp) (CallGetBranchMetrics "cell:50051" q) r ∈ tr.
Proof.
  intros H. assert (q ∈ omap measured tr) as Hin by (rewrite H; by left).
  apply list_elem_of_omap in Hin as (e & Hin & Hx). unfold measured in Hx.
  repeat case_match; simplify_eq. by eexists.
Qed.

Definition metrics_request : GetBranchMetricsRequest :=
  mkMetricsRequest "root" (Some 0) (Some 10) ["cpu"; "disk"]%string [] ["avg"%string].

Lemma metric_requests_are_served_witness :
  (∃ r, ev (resp := obs_resp) (CallGetBranchMetrics "cell:50051" metrics_request) r ∈ measuring.1.1)
  ∧ ∀ q, match GetBranchMetrics (λ _, ""%string) (Some q) metrics_request with
         | Ok answer => map re_Metric (mp_Results answer) = ["cpu"; "disk"]%string
         | Err (c, _) => c = Internal
         end.
Proof.
  assert (omap measured measuring.1.1 = [metrics_request]) as Hq by (vm_compute; reflexivity).
  apply measured_in in Hq as [r Hin]. split; [by exists r|].
  destruct (metric_requests_are_served BranchRequests.Witness.a_user "org" "prj" "root" (Ok metrics_body) measuring.1.1
    measuring.2 "cell:50051" metrics_request r (exec_runs cell_answers tt _) Hin ltac:(discriminate)) as (_ & _ & _ & _ & Hq).
  intros q. exact (Hq (λ _, ""%string) q).
Defined.

(** A cursor that the user made up is reported as an internal error. *)
Example made_up_cursor :
  GetBranchLogs (Some querier) (mkLogsRequest "root" (Some 0) (Some 10) [] 2 "page-2")
  = Err (Internal, "query logs: decode cursor: cut cursor"%string).
Proof. by vm_compute. Qed.
End Witness.
