(* ===== verification/ServiceTokens.v ===== *)
(** * Tokens between services: [internal/grpc/auth] and [internal/api/config.go]

    A caller mints a short-lived token signed with its private key and keeps it
    until it is about to expire; a server verifies it against the public keys it
    trusts before a call is handled.  JSON Web Tokens, signatures and the cache
    of tokens are third-party.  Instants and durations are nanoseconds; metrics
    and logging are left out. *)

From stdpp Require Import pretty.
From S2P Require Import Prelude GoStrings GoFloat GoTime GoText.

#[local] Open Scope Z_scope.
#[local] Open Scope go_scope.

(** ** Tokens ([token.go]) *)

Definition HeaderKey : string := "authorization".
Definition DefaultTTL : Z := 5 * Minute.
Definition refreshBefore : Z := 1 * Minute.
Definition notBeforeSlack : Z := 30 * Second.

Record Claims := mkClaims {
  cl_Issuer : string;
  cl_Subject : string;
  cl_Audience : list string;
  cl_IssuedAt : Z;
  cl_NotBefore : Z;
  cl_ExpiresAt : Z;
  cl_ID : string
}.

Record Token := mkToken { tk_AccessToken : string; tk_Expiry : Z }.

(** Of the libraries: the public key of a private one, SHA-256, an instant as a
    token keeps it, signing with a key identifier in the header, and parsing for
    an audience, with a leeway, at an instant, with the key that a function finds
    for the identifier; EdDSA is the only method that is valid.  [Reuse] is
    whether the cache still answers with a token. *)
Class TokenLibraries := {
  Public : string → string;
  Sum256 : string → string;
  NewNumericDate : Z → Z;
  SignedString : string → Claims → string → res string string;
  ParseWithClaims : (string → res string string) → string → Z → Z → string → res string Claims;
  Reuse : Z → Token → Z → bool
}.

(** [hex.EncodeToString] *)
Definition EncodeToString (s : string) : string :=
  foldr (λ c t, hex_digits 2 (byte_val c) +:+ t) "" (String.list_ascii_of_string s).

Section Tokens.
Context `{TokenLibraries}.

Definition KeyID (pub : string) : string := EncodeToString (take_str 8 (Sum256 pub)).

Record minter := mkMinter { mi_key : string; mi_kid : string; mi_issuer : string; mi_audience : string; mi_ttl : Z }.

Definition NewTokenSource (key issuer audience : string) (ttl : Z) : minter :=
  mkMinter key (KeyID (Public key)) issuer audience (if ttl <=? 0 then DefaultTTL else ttl).

Definition claims_at (m : minter) (now : Z) (jti : string) : Claims :=
  mkClaims (mi_issuer m) (mi_issuer m) [mi_audience m] (NewNumericDate now) (NewNumericDate (now - notBeforeSlack))
    (NewNumericDate (now + mi_ttl m)) (EncodeToString jti).

Inductive call := Now | RandRead (n : Z).
Definition resp (c : call) : Type := match c with Now => Z | RandRead _ => res string string end.

(** [minter.Token] *)
Definition mint (m : minter) : prog resp (res string Token) :=
  now ← perform Now;
  r ← perform (RandRead 16);
  mret match r with
       | Err e => Err ("generate token id: " +:+ e)
       | Ok jti =>
           match SignedString (mi_kid m) (claims_at m now jti) (mi_key m) with
           | Err e => Err ("sign token: " +:+ e)
           | Ok signed => Ok (mkToken signed (now + mi_ttl m))
           end
       end.

(** [TokenSource.Token]: the token, and the cache afterwards. *)
Definition TokenSource_Token (m : minter) (cached : option Token) : prog resp (res string string * option Token) :=
  now ← perform Now;
  match cached with
  | Some t => if Reuse refreshBefore t now then mret (Ok (tk_AccessToken t), cached)
              else r ← mint m; mret match r with Ok t => (Ok (tk_AccessToken t), Some t) | Err e => (Err e, cached) end
  | None => r ← mint m; mret match r with Ok t => (Ok (tk_AccessToken t), Some t) | Err e => (Err e, cached) end
  end.

(** The metadata of a call, or the text of an internal error. *)
Definition GetRequestMetadata (m : minter) (cached : option Token) : prog resp (res string (string * string) * option Token) :=
  r ← TokenSource_Token m cached;
  mret (match r.1 with
        | Ok tok => Ok (HeaderKey, "Bearer " +:+ tok)
        | Err e => Err ("mint grpc auth token: " +:+ e)
        end, r.2).

Record Verifier := mkVerifier { vf_keys : gmap string string; vf_audience : string; vf_leeway : Z }.

Definition NewVerifier (keys : list string) (audience : string) (leeway : Z) : Verifier :=
  mkVerifier (foldl (λ m k, <[KeyID k := k]> m) ∅ keys) audience leeway.

Definition keyFunc (v : Verifier) (kid : string) : res string string :=
  match vf_keys v !! kid with Some key => Ok key | None => Err ("unknown key id " +:+ q kid) end.

Definition Verify (v : Verifier) (now : Z) (raw : string) : res string Claims :=
  match ParseWithClaims (keyFunc v) (vf_audience v) (vf_leeway v) now raw with
  | Ok claims => Ok claims
  | Err e => Err ("parse token: " +:+ e)
  end.
End Tokens.

(** ** The interceptor ([interceptor.go]) *)

Inductive Mode := ModeOff | ModeLog | ModeEnforce.
Inductive TLSMode := TLSModeOff | TLSModeOptional | TLSModeRequire.
#[global] Instance Mode_eq_dec : EqDecision Mode.
Proof. solve_decision. Defined.
#[global] Instance TLSMode_eq_dec : EqDecision TLSMode.
Proof. solve_decision. Defined.

Section Modes.
Context `{GoRuntime}.

Definition ParseMode (s : string) : res string Mode :=
  let m := ToLower s in
  if bool_decide (m = "") || bool_decide (m = "off") then Ok ModeOff
  else if bool_decide (m = "log") then Ok ModeLog
  else if bool_decide (m = "enforce") then Ok ModeEnforce
  else Err ("unknown auth mode " +:+ q s +:+ ", want off, log or enforce").

Definition ParseTLSMode (s : string) : res string TLSMode :=
  let m := ToLower s in
  if bool_decide (m = "off") then Ok TLSModeOff
  else if bool_decide (m = "optional") then Ok TLSModeOptional
  else if bool_decide (m = "require") then Ok TLSModeRequire
  else Err ("unknown tls mode " +:+ q s +:+ ", want off, optional or require").
End Modes.

Definition exemptPrefixes : list string :=
  ["/grpc.health.v1.Health/"; "/grpc.reflection.v1.ServerReflection/"; "/grpc.reflection.v1alpha.ServerReflection/"].

Definition DefaultExempt (fullMethod : string) : bool := existsb (HasPrefix fullMethod) exemptPrefixes.

Record Config := mkConfig { cg_Mode : Mode; cg_Verifier : option Verifier; cg_TLSMode : TLSMode }.

Definition mode_name (m : Mode) : string := match m with ModeOff => "off" | ModeLog => "log" | ModeEnforce => "enforce" end.

(** [New]: the configuration of an interceptor, whose exemptions are the
    defaults. *)
Definition New (cfg : Config) : res string Config :=
  match cg_Mode cfg, cg_Verifier cfg with
  | ModeOff, _ | _, Some _ => Ok cfg
  | m, None => Err ("auth mode " +:+ q (mode_name m) +:+ " requires a verifier")
  end.

(** A call that is handled, with the service that was verified to make it, or is
    refused as unauthenticated. *)
Inductive verdict := Handled (caller : option string) | Unauthenticated (msg : string).

(** Of a call: its method, whether its peer connected over TLS, and the bearer
    token of its metadata. *)
Record incoming := mkIncoming { ic_Method : string; ic_TLS : bool; ic_Bearer : option string }.

Section Interceptor.
Context `{TokenLibraries}.

Definition interceptor_verify (cfg : Config) (now : Z) (bearer : option string) : option string :=
  match bearer, cg_Verifier cfg with
  | Some raw, Some v => match Verify v now raw with Ok claims => Some (cl_Issuer claims) | Err _ => None end
  | _, _ => None
  end.

Definition check (cfg : Config) (now : Z) (c : incoming) : verdict :=
  if DefaultExempt (ic_Method c) then Handled None
  else if bool_decide (cg_TLSMode cfg = TLSModeRequire) && negb (ic_TLS c) then Unauthenticated "transport security required"
  else
    match cg_Mode cfg with
    | ModeOff => Handled None
    | m =>
        match interceptor_verify cfg now (ic_Bearer c) with
        | Some issuer => Handled (Some issuer)
        | None => if bool_decide (m = ModeEnforce) then Unauthenticated "invalid or missing token" else Handled None
        end
    end.

(** [CallerFromContext] *)
Definition CallerFromContext (v : verdict) : option string :=
  match v with Handled (Some issuer) => if bool_decide (issuer = "") then None else Some issuer | _ => None end.
End Interceptor.

(** ** The settings of a server ([config.go]) *)

Record Settings := mkSettings {
  GRPCAuthMode : string;
  GRPCAuthTrustedKeys : list string;
  GRPCAuthAudience : string;
  GRPCAuthLeeway : Z
}.

Section Settings.
Context `{GoRuntime} `{TokenLibraries}.

Definition AfterRead (s : Settings) : option string :=
  match ParseMode (GRPCAuthMode s) with
  | Err e => Some ("XATA_GRPC_AUTH_MODE: " +:+ e)
  | Ok ModeOff => None
  | Ok mode =>
      if bool_decide (GRPCAuthTrustedKeys s = []) then
        Some ("XATA_GRPC_AUTH_TRUSTED_KEYS is required when XATA_GRPC_AUTH_MODE is " +:+ q (mode_name mode))
      else if bool_decide (GRPCAuthAudience s = "") then
        Some ("XATA_GRPC_AUTH_AUDIENCE is required when XATA_GRPC_AUTH_MODE is " +:+ q (mode_name mode))
      else None
  end.

Definition GRPCAuth (s : Settings) : res string Config :=
  mode <~ ParseMode (GRPCAuthMode s);
  Ok (mkConfig mode
        (if bool_decide (mode = ModeOff) then None
         else Some (NewVerifier (GRPCAuthTrustedKeys s) (GRPCAuthAudience s) (GRPCAuthLeeway s)))
        TLSModeOff).

(** What a server does with a call: the interceptor is installed unless the mode
    is off. *)
Definition serve_call (s : Settings) (now : Z) (c : incoming) : res string verdict :=
  cfg <~ GRPCAuth s;
  if bool_decide (cg_Mode cfg = ModeOff) then Ok (Handled None)
  else cfg <~ New cfg; Ok (check cfg now c).
End Settings.

(** ** What the libraries document

    An instant is kept to the second; the cache answers with a token until its
    expiry is within the buffer; a token is accepted exactly when it was signed
    with the private key of the key that is found, for the audience, and its
    times hold within the leeway (an audience that is empty counts as missing);
    a signed token has its claims. *)
Class TokenLaws `{TokenLibraries} := {
  date_floor : ∀ t, t - Second < NewNumericDate t ≤ t;
  reuse_unexpired : ∀ d t now, Reuse d t now = true → now + d ≤ tk_Expiry t;
  signed_claims : ∀ kid claims key kid' claims' key' raw,
    SignedString kid claims key = Ok raw → SignedString kid' claims' key' = Ok raw → claims = claims';
  parse_accepts : ∀ find audience leeway now kid claims key raw,
    SignedString kid claims key = Ok raw → find kid = Ok (Public key) → audience ≠ "" → audience ∈ cl_Audience claims →
    now < cl_ExpiresAt claims + leeway → cl_NotBefore claims ≤ now + leeway → cl_IssuedAt claims ≤ now + leeway →
    ParseWithClaims find audience leeway now raw = Ok claims;
  parse_accepted : ∀ find audience leeway now raw claims,
    ParseWithClaims find audience leeway now raw = Ok claims → ∃ kid key,
      SignedString kid claims key = Ok raw ∧ find kid = Ok (Public key) ∧ audience ∈ cl_Audience claims ∧
      now < cl_ExpiresAt claims + leeway ∧ cl_NotBefore claims ≤ now + leeway ∧ cl_IssuedAt claims ≤ now + leeway
}.

Section Properties.
Context `{TokenLaws}.

(** A token that the source minted, not after an instant. *)
Definition minted (m : minter) (t : Token) (bound : Z) : Prop :=
  ∃ now jti, now ≤ bound ∧ SignedString (mi_kid m) (claims_at m now jti) (mi_key m) = Ok (tk_AccessToken t) ∧
    tk_Expiry t = now + mi_ttl m.

(** The clock's answers do not go back. *)
Definition clock_of (e : event resp) : option Z := match e with ev Now now => Some now | _ => None end.

Lemma mint_runs m tr r :
  runs resp (mint m) tr r →
  ∃ now, omap clock_of tr = [now] ∧ ∀ t, r = Ok t → minted m t now.
Proof.
  intros (now & t1 & -> & (jti & t2 & -> & [-> ->])). exists now. split; [done|]. intros t Ht.
  destruct jti as [jti|e]; [|done]. destruct (SignedString _ _ _) as [signed|e] eqn:Hs; [|done]. injection Ht as <-.
  exists now, jti. split_and!; [lia|done|done].
Qed.

Lemma keyFunc_trusted keys audience leeway kid key :
  keyFunc (NewVerifier keys audience leeway) kid = Ok key → key ∈ keys.
Proof.
  unfold keyFunc, NewVerifier. cbn [vf_keys].
  assert (∀ (m : gmap string string), foldl (λ m k, <[KeyID k := k]> m) m keys !! kid = Some key → m !! kid = Some key ∨ key ∈ keys) as Hf.
  { induction keys as [|k keys IH]; intros m; [by left|]. cbn [foldl]. intros [Hm|?]%IH; [|right; by right].
    apply lookup_insert_Some in Hm as [[_ ->]|[_ Hm]]; [right; by left|by left]. }
  destruct (_ !! kid) as [k|] eqn:Hk; [|done]. intros [= ->]. apply Hf in Hk as [Hk|?]; [|done]. by rewrite lookup_empty in Hk.
Qed.

Lemma keyFunc_finds keys audience leeway key :
  key ∈ keys → (∀ k, k ∈ keys → KeyID k = KeyID key → k = key) →
  keyFunc (NewVerifier keys audience leeway) (KeyID key) = Ok key.
Proof.
  intros Hin Hinj. unfold keyFunc, NewVerifier. cbn [vf_keys].
  assert (∀ (m : gmap string string), key ∈ keys ∨ m !! KeyID key = Some key →
    foldl (λ m k, <[KeyID k := k]> m) m keys !! KeyID key = Some key) as Hf.
  { clear Hin. induction keys as [|k keys IH]; intros m; [by intros [?%not_elem_of_nil|]|]. cbn [foldl]. intros Hm. apply IH.
    - intros k' ?. apply Hinj. by right.
    - destruct (decide (KeyID k = KeyID key)) as [Hk|Hk].
      + right. rewrite Hk, lookup_insert_eq. f_equal. apply Hinj; [by left|done].
      + destruct Hm as [[->|?]%elem_of_cons|?]; [done|by left|right]. by rewrite lookup_insert_ne. }
  by rewrite Hf by (by left).
Qed.

Lemma Verify_minted key issuer audience ttl keys leeway t at_ window x :
  Public key ∈ keys → (∀ k, k ∈ keys → KeyID k = KeyID (Public key) → k = Public key) → 0 ≤ leeway → audience ≠ "" →
  minted (NewTokenSource key issuer audience ttl) t at_ → at_ + window ≤ tk_Expiry t →
  at_ - leeway ≤ x ≤ at_ + window - Second →
  ∃ claims, Verify (NewVerifier keys audience leeway) x (tk_AccessToken t) = Ok claims ∧ cl_Issuer claims = issuer.
Proof.
  intros Hin Hinj Hle Haud (now & jti & Hnow & Hs & He) Hex Hx. set (m := NewTokenSource key issuer audience ttl) in *.
  exists (claims_at m now jti). split; [|done]. unfold Verify.
  rewrite (parse_accepts _ _ _ _ _ _ _ _ Hs); [done|by apply keyFunc_finds|done|by left|..]; cbn [claims_at cl_ExpiresAt cl_NotBefore cl_IssuedAt].
  - pose proof (date_floor (now + mi_ttl m)). unfold NewVerifier. cbn [vf_leeway]. lia.
  - pose proof (date_floor (now - notBeforeSlack)). unfold NewVerifier, notBeforeSlack, Second, Millisecond, Microsecond, Nanosecond in *. cbn [vf_leeway]. lia.
  - pose proof (date_floor now). unfold NewVerifier. cbn [vf_leeway]. lia.
Qed.

(** C16. A token that a caller attaches is one that the server accepts.  Against
    a server that trusts the caller's public key, no other trusted key having
    its identifier, expects its audience, which is not empty, and grants a
    leeway that is not negative, whatever token the source answers with, cached
    or new, is verified as the caller's at any instant from the leeway before it
    was handed out until a second less than a minute after, or than its lifetime
    if that is shorter; and what the source then caches is again one of its
    tokens. *)
Theorem handed_out_tokens_are_accepted key issuer audience ttl keys leeway cached tr r x at_ :
  let m := NewTokenSource key issuer audience ttl in
  Public key ∈ keys → (∀ k, k ∈ keys → KeyID k = KeyID (Public key) → k = Public key) → 0 ≤ leeway → audience ≠ "" →
  runs resp (TokenSource_Token m cached) tr r →
  last (omap clock_of tr) = Some at_ → (∀ t, cached = Some t → minted m t at_) →
  (∀ t, r.2 = Some t → minted m t at_) ∧
  ∀ tok, r.1 = Ok tok → at_ - leeway ≤ x ≤ at_ + Z.min refreshBefore (mi_ttl m) - Second →
    ∃ claims, Verify (NewVerifier keys audience leeway) x tok = Ok claims ∧ cl_Issuer claims = issuer.
Proof.
  intros m Hin Hinj Hle Haud Hr Hat Hc.
  assert (∀ t, minted m t at_ → at_ + Z.min refreshBefore (mi_ttl m) ≤ tk_Expiry t → at_ - leeway ≤ x ≤ at_ + Z.min refreshBefore (mi_ttl m) - Second →
    ∃ claims, Verify (NewVerifier keys audience leeway) x (tk_AccessToken t) = Ok claims ∧ cl_Issuer claims = issuer) as Hv
    by (intros t Hm He Hx; by eapply Verify_minted).
  assert (∀ t2 w, runs resp (mint m) t2 w → last (omap clock_of t2) = Some at_ →
    ∀ t, w = Ok t → minted m t at_ ∧ at_ + Z.min refreshBefore (mi_ttl m) ≤ tk_Expiry t) as Hnew.
  { intros t2 w Hm Hl t ->. unfold mint in Hm. destruct Hm as (now & t3 & -> & (jti & t4 & -> & [-> Hw])).
    injection Hl as ->. destruct jti as [jti|e]; [|done]. destruct (SignedString _ _ _) as [signed|e] eqn:Hs; [|done].
    injection Hw as ->. split; [|change (at_ + Z.min refreshBefore (mi_ttl m) ≤ at_ + mi_ttl m); lia]. exists at_, jti. split_and!; [lia|done|done]. }
  assert (∀ t2 w, runs resp (mint m) t2 w → last (omap clock_of t2) = Some at_ →
    r = match w with Ok t => (Ok (tk_AccessToken t), Some t) | Err e => (Err e, cached) end →
    (∀ t, r.2 = Some t → minted m t at_) ∧ ∀ tok, r.1 = Ok tok → at_ - leeway ≤ x ≤ at_ + Z.min refreshBefore (mi_ttl m) - Second →
      ∃ claims, Verify (NewVerifier keys audience leeway) x tok = Ok claims ∧ cl_Issuer claims = issuer) as Hmint.
  { intros t2 w Hm Hl ->. destruct w as [t|e]; [|split; [exact Hc|done]].
    destruct (Hnew _ _ Hm Hl t eq_refl) as [H1 H2]. split; [by intros ? [= <-]|intros tok [= <-]]. by apply Hv. }
  apply runs_bind in Hr as (t0 & t1 & now & -> & (now' & t0' & -> & [-> ->]) & Hk).
  assert (∀ p, runs resp (r ← mint m; mret (p r)) t1 r → ∃ t2 w, runs resp (mint m) t2 w ∧ last (omap clock_of t2) = Some at_ ∧ r = p w) as Hrun.
  { intros p (t2 & t3 & w & -> & Hm & [-> ->])%runs_bind. exists t2, w. split_and!; [done| |done].
    destruct (mint_runs _ _ _ Hm) as (n & Hn & _). rewrite app_nil_r in Hat. cbn in Hat. by rewrite Hn in Hat |- *. }
  destruct cached as [t|]; [destruct (Reuse refreshBefore t now') eqn:Hre|].
  - destruct Hk as [-> ->]. injection Hat as ->. split; [exact Hc|]. intros tok [= <-]. apply Hv; [by apply Hc|].
    apply reuse_unexpired in Hre. lia.
  - apply Hrun in Hk as (t2 & w & Hm & Hl & ->). by eapply Hmint.
  - apply Hrun in Hk as (t2 & w & Hm & Hl & ->). by eapply Hmint.
Qed.

(** An enforcing server handles no call that is not authenticated: unless the
    method is one of the exempt ones, the call carries a token that was signed
    with the private key of a trusted public key, for the server's audience, has
    not expired and is not from the future beyond the leeway, and the caller is
    the token's issuer. *)
Theorem enforced_calls_are_verified `{GoRuntime} s now c caller :
  ParseMode (GRPCAuthMode s) = Ok ModeEnforce → serve_call s now c = Ok (Handled caller) →
  DefaultExempt (ic_Method c) = true ∨
  ∃ raw claims kid key, ic_Bearer c = Some raw ∧ caller = Some (cl_Issuer claims) ∧
    Public key ∈ GRPCAuthTrustedKeys s ∧ SignedString kid claims key = Ok raw ∧
    GRPCAuthAudience s ∈ cl_Audience claims ∧
    now < cl_ExpiresAt claims + GRPCAuthLeeway s ∧ cl_IssuedAt claims ≤ now + GRPCAuthLeeway s.
Proof.
  intros Hm. unfold serve_call, GRPCAuth. rewrite Hm. cbn [res_bind cg_Mode]. rewrite bool_decide_eq_false_2 by done.
  unfold New. cbn [cg_Mode cg_Verifier res_bind]. unfold check. cbn [cg_Mode cg_TLSMode].
  destruct (DefaultExempt (ic_Method c)); [by left|]. rewrite bool_decide_eq_false_2 by done. cbn [andb].
  unfold interceptor_verify. cbn [cg_Verifier]. rewrite (bool_decide_eq_true_2 (ModeEnforce = ModeEnforce)) by done.
  destruct (ic_Bearer c) as [raw|] eqn:Hb; [|done]. unfold Verify.
  destruct (ParseWithClaims _ _ _ _ _) as [claims|e] eqn:Hp; [|done]. intros [= <-]. right.
  apply parse_accepted in Hp as (kid & key & Hs & Hk & Ha & He & _ & Hi). apply keyFunc_trusted in Hk.
  by exists raw, claims, kid, key.
Qed.

(** The slack of a token's start is not granted: a verifier whose clock is
    behind by less than it, and by more than the leeway, refuses the token for
    the instant at which it was issued. *)
Theorem slack_is_not_granted m jti signed v now x :
  SignedString (mi_kid m) (claims_at m now jti) (mi_key m) = Ok signed →
  x + vf_leeway v < NewNumericDate now →
  ∃ e, Verify v x signed = Err e.
Proof.
  intros Hs Hx. unfold Verify. destruct (ParseWithClaims _ _ _ _ _) as [claims|e] eqn:Hp; [|by eexists].
  apply parse_accepted in Hp as (kid & key & Hs' & _ & _ & _ & _ & Hi).
  assert (claims = claims_at m now jti) as -> by (by eapply signed_claims). cbn [claims_at cl_IssuedAt] in Hi. lia.
Qed.
End Properties.

(** ** A library whose tokens are their claims *)

Module Witness.

Fixpoint bits (p : positive) : string :=
  match p with xH => "" | xO p => String "0"%char (bits p) | xI p => String "1"%char (bits p) end.
Fixpoint unbits (s : string) : positive :=
  match s with EmptyString => xH | String c s => if bool_decide (c = "0"%char) then xO (unbits s) else xI (unbits s) end.

Lemma unbits_bits p : unbits (bits p) = p.
Proof. induction p as [p IH|p IH|]; cbn; [by rewrite IH..|done]. Qed.

Definition fields : Type := string * (string * string * list string * Z * Z * Z * string) * string.
Definition pack (kid : string) (c : Claims) (key : string) : fields :=
  (kid, (cl_Issuer c, cl_Subject c, cl_Audience c, cl_IssuedAt c, cl_NotBefore c, cl_ExpiresAt c, cl_ID c), key).
Definition unpack (f : fields) : string * Claims * string :=
  let '(kid, (i, s, a, t, n, e, j), key) := f in (kid, mkClaims i s a t n e j, key).

Lemma unpack_pack kid c key : unpack (pack kid c key) = (kid, c, key).
Proof. by destruct c. Qed.

Definition ok_value (r : res string string) : option string := match r with Ok k => Some k | Err _ => None end.

#[local] Instance libraries : TokenLibraries := {|
  Public := λ key, key;
  Sum256 := λ s, s;
  NewNumericDate := λ t, t / Second * Second;
  SignedString := λ kid c key, Ok (bits (encode (pack kid c key)));
  ParseWithClaims := λ find audience leeway now raw,
    match decode (A := fields) (unbits raw) with
    | Some f =>
        let '(kid, c, key) := unpack f in
        if bool_decide (bits (encode (pack kid c key)) = raw ∧ ok_value (find kid) = Some key ∧ audience ∈ cl_Audience c) &&
           (now <? cl_ExpiresAt c + leeway) && (cl_NotBefore c <=? now + leeway) && (cl_IssuedAt c <=? now + leeway)
        then Ok c else Err "invalid"
    | None => Err "malformed"
    end;
  Reuse := λ d t now, now + d <=? tk_Expiry t
|}.

Lemma signed_unpack kid c key raw : SignedString kid c key = Ok raw → unpack <$> decode (A := fields) (unbits raw) = Some (kid, c, key).
Proof. intros [= <-]. rewrite unbits_bits, decode_encode. cbn [fmap option_fmap option_map]. by rewrite unpack_pack. Qed.

#[local] Instance laws : TokenLaws.
Proof.
  split.
  - intros t. unfold NewNumericDate, libraries. assert (0 < Second) by done.
    pose proof (Z.div_mod t Second ltac:(lia)). pose proof (Z.mod_pos_bound t Second ltac:(lia)). lia.
  - intros d t now. cbn. lia.
  - intros kid c key kid' c' key' raw H1%signed_unpack H2%signed_unpack. rewrite H1 in H2. congruence.
  - intros find audience leeway now kid c key raw Hs Hf _ Ha H1 H2 H3. pose proof (signed_unpack _ _ _ _ Hs) as Hu.
    cbn [ParseWithClaims libraries]. destruct (decode (unbits raw)) as [f|]; [|done].
    injection Hu as ->. rewrite bool_decide_eq_true_2; [|injection Hs as <-; by rewrite Hf]. cbn [andb].
    rewrite (proj2 (Z.ltb_lt _ _)), !(proj2 (Z.leb_le _ _)) by lia. done.
  - intros find audience leeway now raw c. cbn [ParseWithClaims libraries].
    destruct (decode (unbits raw)) as [f|]; [|done]. destruct (unpack f) as [[kid c'] key].
    destruct (_ && _) eqn:Hc; [|done]. intros [= ->]. rewrite !andb_true_iff, bool_decide_eq_true, Z.ltb_lt, !Z.leb_le in Hc.
    destruct Hc as ((((Hr & Hf & Ha) & H1) & H2) & H3). exists kid, key. split_and!; [by rewrite <- Hr| |done..].
    destruct (find kid); [by injection Hf as ->|done].
Qed.

Definition clock (_ : unit) (c : call) : unit * resp c :=
  (tt, match c as c return resp c with Now => 1000 * Second | RandRead _ => Ok "0123456789abcdef" end).

Definition source : minter := NewTokenSource "key" "projects" "clusters" 0.
Definition asking := exec resp clock tt (TokenSource_Token source None).

Lemma handed_out_tokens_are_accepted_witness : ∃ tok claims,
  asking.2.1 = Ok tok ∧ Verify (NewVerifier ["key"] "clusters" 0) (1059 * Second) tok = Ok claims ∧ cl_Issuer claims = "projects".
Proof.
  pose proof (handed_out_tokens_are_accepted "key" "projects" "clusters" 0 ["key"] 0 None asking.1.1 asking.2
    (1059 * Second) (1000 * Second)) as H. cbv zeta in H.
  destruct H as [_ H]; [by left|by intros k ->%list_elem_of_singleton|lia|done|exact (exec_runs clock tt _)|reflexivity|done|].
  destruct asking.2.1 as [tok|e] eqn:Ht; [|vm_compute in Ht; done].
  destruct (H tok eq_refl) as (claims & H1 & H2); [vm_compute; done|]. by exists tok, claims.
Defined.

#[local] Instance amd64 : GoRuntime := {| float_out_of_range := λ _, - 2 ^ 63; unicode_ToLower := λ s, s |}.

Definition settings : Settings := mkSettings "ENFORCE" ["key"] "clusters" 0.
Definition issued : Claims := claims_at source (1000 * Second) "id".
Definition signed : string := bits (encode (pack (mi_kid source) issued "key")).
Definition incoming_call : incoming := mkIncoming "/clusters.v1.ClustersService/Describe" false (Some signed).

Lemma enforced_calls_are_verified_witness :
  serve_call settings (1059 * Second) incoming_call = Ok (Handled (Some "projects")) ∧
  ∃ claims, cl_Issuer claims = "projects" ∧ 1059 * Second < cl_ExpiresAt claims + 0.
Proof.
  assert (serve_call settings (1059 * Second) incoming_call = Ok (Handled (Some "projects"))) as Hs by (vm_compute; reflexivity).
  split; [done|].
  destruct (enforced_calls_are_verified settings (1059 * Second) incoming_call (Some "projects") eq_refl Hs)
    as [He|(raw & claims & kid & key & _ & Hc & _ & _ & _ & He & _)]; [vm_compute in He; done|].
  exists claims. split; [by injection Hc|exact He].
Defined.

End Witness.
