(* ===== verification/GcsFolders.v ===== *)
(** * Folders of backups in Cloud Storage: [branch-operator/pkg/gcp/gcsfolder]

    The reconciler that gives the ServiceAccount of a branch access to the folder
    its annotation asks for, and [ParseGCSFolderURI] ([internal/pgbackrest]).
    The Cloud Storage client and the finalizers of controller-runtime are
    third-party. *)

From S2P Require Import Prelude GoStrings GoUrl Kube PgBackRestNames BranchOperatorModel.

#[local] Open Scope Z_scope.
#[local] Open Scope go_scope.

(** ** Locations *)

Definition ParseGCSFolderURI `{URLs} (location : string) : res string (string * string) :=
  let invalid := Err ("invalid managed folder URI " +:+ q location) in
  match ParseURL location with
  | None => invalid
  | Some u =>
      if negb (bool_decide (us_Scheme u = "gs")) || bool_decide (us_Host u = "") || negb (bool_decide (us_Hostname u = us_Host u))
         || match us_User u with Some _ => true | None => false end || negb (bool_decide (us_RawQuery u = "")) || us_ForceQuery u
         || negb (bool_decide (us_Fragment u = "")) || negb (bool_decide (us_Opaque u = ""))
      then invalid
      else
        let folder := TrimSlashes (us_Path u) in
        if bool_decide (folder = "") then invalid else Ok (us_Host u, folder +:+ "/")
  end.

(** ** State *)

Record ServiceAccount := mkSA {
  sa_Namespace : string;
  sa_Name : string;
  sa_Annotations : gmap string string;
  sa_Finalizers : list string;
  sa_Deleting : bool
}.

Definition Finalizer : string := "xata.io/gcs-managed-folder".
Definition ObservedFolderAnnotation : string := "xata.io/gcs-managed-folder-observed".
Definition Role : string := "roles/storage.objectUser".

(** [controllerutil]'s functions on the finalizers of an object. *)
Class Finalizers := {
  ContainsFinalizer : list string → string → bool;
  AddFinalizer : list string → string → list string;
  RemoveFinalizer : list string → string → list string
}.
Class FinalizersLaws `{Finalizers} := {
  contains_added : ∀ l f, ContainsFinalizer (AddFinalizer l f) f = true;
  contains_removed : ∀ l f, ContainsFinalizer (RemoveFinalizer l f) f = false
}.

Record Binding := mkBinding { bi_Role : string; bi_Members : list string; bi_Condition : option string }.

(** An error of the storage client: the code of its [googleapi.Error], if it is
    one. *)
Record storage_error := mkStorageError { se_Code : option Z; se_Text : string }.

Inductive call :=
| GetSA
| PatchSA (sa : ServiceAccount)
| DeleteFolder (bucket folder : string)
| InsertFolder (bucket folder : string)
| GetIamPolicy (bucket folder : string)
| SetIamPolicy (bucket folder : string) (policy : list Binding).

(** [PatchSA] is a patch from the version that was read, which fails when the
    object has changed. *)
Definition resp (c : call) : Type :=
  match c with
  | GetSA => res api_error ServiceAccount
  | PatchSA _ => option api_error
  | DeleteFolder _ _ | InsertFolder _ _ | SetIamPolicy _ _ _ => option storage_error
  | GetIamPolicy _ _ => res storage_error (list Binding)
  end.

Inductive error :=
| Api (msg : string) (e : api_error)
| Storage (msg : string) (e : storage_error)
| InvalidURI (msg : string).

Abbreviation M A := (prog resp A).
Abbreviation E A := (M (res error A)).
Definition ok {A} (a : A) : E A := mret (Ok a).
Definition fail {A} (e : error) : E A := mret (Err e).

Definition isStatus (e : storage_error) (code : Z) : bool := bool_decide (se_Code e = Some code).

(** ** Steps *)

Definition deleteFolder (bucket folder : string) : E unit :=
  r ← perform (DeleteFolder bucket folder);
  match r with
  | Some e => if isStatus e 404 then ok tt else fail (Storage ("delete managed folder " +:+ bucket +:+ "/" +:+ folder) e)
  | None => ok tt
  end.

Definition createFolder (bucket folder : string) : E unit :=
  r ← perform (InsertFolder bucket folder);
  match r with
  | Some e => if isStatus e 409 then ok tt else fail (Storage ("create managed folder " +:+ folder) e)
  | None => ok tt
  end.

Definition granted (member : string) (b : Binding) : bool :=
  bool_decide (bi_Role b = Role) && bool_decide (bi_Condition b = None) && bool_decide (member ∈ bi_Members b).

Definition grant (bucket folder member : string) : E unit :=
  r ← perform (GetIamPolicy bucket folder);
  match r with
  | Err e => fail (Storage ("get IAM policy of managed folder " +:+ folder) e)
  | Ok policy =>
      if existsb (granted member) policy then ok tt
      else
        w ← perform (SetIamPolicy bucket folder (policy ++ [mkBinding Role [member] None]));
        match w with Some e => fail (Storage ("set IAM policy of managed folder " +:+ folder) e) | None => ok tt end
  end.

Definition patch (msg : string) (sa : ServiceAccount) : E unit :=
  r ← perform (PatchSA sa); match r with Some e => fail (Api msg e) | None => ok tt end.

Definition with_finalizers (f : list string → list string) (sa : ServiceAccount) : ServiceAccount :=
  mkSA (sa_Namespace sa) (sa_Name sa) (sa_Annotations sa) (f (sa_Finalizers sa)) (sa_Deleting sa).
Definition with_annotations (f : gmap string string → gmap string string) (sa : ServiceAccount) : ServiceAccount :=
  mkSA (sa_Namespace sa) (sa_Name sa) (f (sa_Annotations sa)) (sa_Finalizers sa) (sa_Deleting sa).

Section Reconciler.
Context `{URLs} `{Finalizers}.
Variables ProjectNumber WorkloadIdentityPool : string.

Definition Principal (namespace serviceAccount : string) : string :=
  "principal://iam.googleapis.com/projects/" +:+ ProjectNumber +:+ "/locations/global/workloadIdentityPools/" +:+
  WorkloadIdentityPool +:+ "/subject/ns/" +:+ namespace +:+ "/sa/" +:+ serviceAccount.

(** The location of an annotation, empty when there is none. *)
Definition location_of (sa : ServiceAccount) (annotation : string) : res string (string * string) :=
  let location := default "" (sa_Annotations sa !! annotation) in
  if bool_decide (location = "") then Ok ("", "") else ParseGCSFolderURI location.

(** The previous folder, when it is another one than the requested. *)
Definition superseded (requested previous : string * string) : bool :=
  negb (bool_decide (previous.2 = "")) && negb (bool_decide (previous = requested)).

Definition delete_previous (requested previous : string * string) : E unit :=
  if superseded requested previous then deleteFolder previous.1 previous.2 else ok tt.

Definition delete_ (sa : ServiceAccount) (requested previous : string * string) : E unit :=
  if negb (ContainsFinalizer (sa_Finalizers sa) Finalizer) then ok tt
  else
    _ <-? delete_previous requested previous;
    _ <-? (if bool_decide (requested.2 = "") then ok tt else deleteFolder requested.1 requested.2);
    patch "remove finalizer"
      (with_annotations (delete ObservedFolderAnnotation) (with_finalizers (λ l, RemoveFinalizer l Finalizer) sa)).

(** The finalizer is there before anything is created. *)
Definition ensure_finalizer (sa : ServiceAccount) : E ServiceAccount :=
  if ContainsFinalizer (sa_Finalizers sa) Finalizer then ok sa
  else
    let sa := with_finalizers (λ l, AddFinalizer l Finalizer) sa in
    _ <-? patch "add finalizer" sa; ok sa.

(** A folder that is not recorded yet, which takes the place of the previous
    one. *)
Definition establish (sa : ServiceAccount) (requested previous : string * string) : E unit :=
  _ <-? createFolder requested.1 requested.2;
  _ <-? grant requested.1 requested.2 (Principal (sa_Namespace sa) (sa_Name sa));
  _ <-? delete_previous requested previous;
  patch "record observed folder"
    (with_annotations (<[ObservedFolderAnnotation := GCSFolderURI requested.1 requested.2]>) sa).

Definition provision (sa : ServiceAccount) (requested previous : string * string) : E unit :=
  sa <-? ensure_finalizer sa;
  if bool_decide (default "" (sa_Annotations sa !! ObservedFolderAnnotation) = GCSFolderURI requested.1 requested.2)
  then ok tt else establish sa requested previous.

Definition Reconcile : E unit :=
  r ← perform GetSA;
  match r with
  | Err e => if api_not_found e then ok tt else fail (Api "" e)
  | Ok sa =>
      match location_of sa GCSFolderAnnotation with
      | Err e => fail (InvalidURI e)
      | Ok requested =>
          match location_of sa ObservedFolderAnnotation with
          | Err e => fail (InvalidURI e)
          | Ok previous =>
              if sa_Deleting sa || bool_decide (requested.1 = "") then delete_ sa requested previous
              else provision sa requested previous
          end
      end
  end.
End Reconciler.

(** ** What a pass does *)

(** A folder that was deleted, or was not there. *)
Definition folder_gone (bucket folder : string) (tr : list (event resp)) : Prop :=
  ∃ d, ev (DeleteFolder bucket folder) d ∈ tr ∧ match d with Some e => isStatus e 404 = true | None => True end.

Lemma exchange (c d : call) w v : ev (resp := resp) c w = ev d v → c = d.
Proof. intros He. exact (f_equal (λ e, match e with ev c _ => c end) He). Qed.

Lemma one_exchange c tr (r : resp c) : runs resp (perform c) tr r → tr = [ev c r].
Proof. by intros (r' & tr' & -> & -> & ->). Qed.

Lemma deleteFolder_runs bucket folder tr x :
  runs resp (deleteFolder bucket folder) tr x →
  (∃ d, tr = [ev (resp := resp) (DeleteFolder bucket folder) d]) ∧ (x = Ok tt → folder_gone bucket folder tr).
Proof.
  intros (t1 & t2 & d & -> & ->%one_exchange & Hk)%runs_bind. unfold folder_gone. destruct d as [e|].
  - destruct (isStatus e 404) eqn:He; destruct Hk as [-> ->].
    + split; [by eexists|]. intros _. exists (Some e). split; [by left|done].
    + split; [by eexists|done].
  - destruct Hk as [-> ->]. split; [by eexists|]. intros _. exists None. split; [by left|done].
Qed.

Lemma patch_runs msg sa tr x : runs resp (patch msg sa) tr x →
  ∃ w, tr = [ev (resp := resp) (PatchSA sa) w] ∧ (x = Ok tt → w = None).
Proof.
  intros (t1 & t2 & w & -> & ->%one_exchange & Hk)%runs_bind. exists w. destruct w; by destruct Hk as [-> ->].
Qed.

Lemma createFolder_runs bucket folder tr x : runs resp (createFolder bucket folder) tr x →
  ∃ w, tr = [ev (resp := resp) (InsertFolder bucket folder) w].
Proof.
  intros (t1 & t2 & w & -> & ->%one_exchange & Hk)%runs_bind. exists w.
  destruct w as [e|]; [destruct (isStatus e 409)|]; by destruct Hk as [-> _].
Qed.

Lemma grant_runs bucket folder member tr x : runs resp (grant bucket folder member) tr x →
  ∃ w, tr = [ev (resp := resp) (GetIamPolicy bucket folder) w] ∨
  ∃ old s, w = Ok old ∧
    tr = [ev (resp := resp) (GetIamPolicy bucket folder) (Ok old);
          ev (resp := resp) (SetIamPolicy bucket folder (old ++ [mkBinding Role [member] None])) s].
Proof.
  intros (t1 & t2 & w & -> & ->%one_exchange & Hk)%runs_bind. exists w.
  destruct w as [policy|e]; [|destruct Hk as [-> _]; by left].
  destruct (existsb _ _); [destruct Hk as [-> _]; by left|]. right.
  apply runs_bind in Hk as (t3 & t4 & s & -> & ->%one_exchange & Hk). exists policy, s. split; [done|].
  destruct s; by destruct Hk as [-> _].
Qed.

Section Properties.
Context `{URLs} `{FinalizersLaws}.
Variables ProjectNumber WorkloadIdentityPool : string.

Definition has_finalizer (sa : ServiceAccount) : bool := ContainsFinalizer (sa_Finalizers sa) Finalizer.

Lemma delete_previous_runs requested previous tr x :
  runs resp (delete_previous requested previous) tr x →
  (∀ c w, ev c w ∈ tr → c = DeleteFolder previous.1 previous.2 ∧ previous ≠ requested) ∧
  (x = Ok tt → superseded requested previous = true → folder_gone previous.1 previous.2 tr).
Proof.
  unfold delete_previous. destruct (superseded requested previous) eqn:Hs.
  - intros [[d ->] Hok]%deleteFolder_runs. split; [|auto]. intros c w ->%list_elem_of_singleton%exchange. split; [done|].
    unfold superseded in Hs. apply andb_true_iff in Hs as [_ Hs]. by apply negb_true_iff, bool_decide_eq_false in Hs.
  - intros [-> _]. split; [by intros c w ?%not_elem_of_nil|done].
Qed.

Lemma ensure_finalizer_runs sa tr x :
  runs resp (ensure_finalizer sa) tr x →
  (∀ c w, ev c w ∈ tr → ∃ sa', c = PatchSA sa' ∧ has_finalizer sa' = true) ∧
  ∀ sa', x = Ok sa' → sa_Namespace sa' = sa_Namespace sa ∧ sa_Name sa' = sa_Name sa ∧ has_finalizer sa' = true ∧
    (has_finalizer sa = true ∨ ev (PatchSA sa') None ∈ tr).
Proof.
  unfold ensure_finalizer. destruct (ContainsFinalizer (sa_Finalizers sa) Finalizer) eqn:Hc.
  - intros [-> ->]. split; [by intros c w ?%not_elem_of_nil|]. intros sa' [= <-]. split_and!; [done..|by left].
  - set (sa1 := with_finalizers _ sa). assert (has_finalizer sa1 = true) as Hadded by apply contains_added.
    intros [(t1 & t2 & u & -> & (w & -> & Hw)%patch_runs & [-> ->])|(e & (w & -> & _)%patch_runs & ->)]%runs_bind_ok.
    + split; [intros c w' ->%list_elem_of_singleton%exchange; by exists sa1|]. intros sa' [= <-].
      split_and!; [done..|]. right. rewrite Hw by (by destruct u). by left.
    + split; [intros c w' ->%list_elem_of_singleton%exchange; by exists sa1|done].
Qed.

(** What establishing a folder does. *)
Definition establishing (sa : ServiceAccount) (requested previous : string * string) (tr : list (event resp)) (c : call) : Prop :=
  match c with
  | GetSA => False
  | PatchSA sa' => has_finalizer sa' = has_finalizer sa
  | InsertFolder b f | GetIamPolicy b f => (b, f) = requested
  | SetIamPolicy b f policy => (b, f) = requested ∧
      ∃ old, ev (GetIamPolicy b f) (Ok old) ∈ tr ∧
        policy = old ++ [mkBinding Role [Principal ProjectNumber WorkloadIdentityPool (sa_Namespace sa) (sa_Name sa)] None]
  | DeleteFolder b f => (b, f) = previous ∧ previous ≠ requested
  end.

Lemma establishing_app sa requested previous t1 t2 c :
  establishing sa requested previous t1 c ∨ establishing sa requested previous t2 c →
  establishing sa requested previous (t1 ++ t2) c.
Proof.
  destruct c; cbn [establishing]; try tauto.
  intros [(He & old & Ho & ->)|(He & old & Ho & ->)]; (split; [done|]); exists old; rewrite elem_of_app; tauto.
Qed.

(** Each event of a trace satisfies a property that the trace may extend. *)
Definition throughout (P : list (event resp) → call → Prop) (tr : list (event resp)) : Prop := ∀ c w, ev c w ∈ tr → P tr c.

Lemma throughout_app (P : list (event resp) → call → Prop) t1 t2 :
  (∀ t1 t2 c, P t1 c ∨ P t2 c → P (t1 ++ t2) c) → throughout P t1 → throughout P t2 → throughout P (t1 ++ t2).
Proof. intros HP Ht1 Ht2 c w [Hc|Hc]%elem_of_app; apply HP; eauto. Qed.

Lemma throughout_one (P : list (event resp) → call → Prop) c w : P [ev c w] c → throughout P [ev c w].
Proof. intros HP d v He. apply list_elem_of_singleton, exchange in He as ->. done. Qed.

Lemma throughout_bind {A B} (P : list (event resp) → call → Prop) (p : E A) (k : A → E B) tr x :
  (∀ t1 t2 c, P t1 c ∨ P t2 c → P (t1 ++ t2) c) →
  (∀ t y, runs resp p t y → throughout P t) → (∀ a t y, runs resp (k a) t y → throughout P t) →
  runs resp (pbind_ok p k) tr x → throughout P tr.
Proof.
  intros HP Hp Hk [(t1 & t2 & a & -> & Hr1 & Hr2)|(e & Hr1 & _)]%runs_bind_ok; [apply throughout_app; eauto|eauto].
Qed.

Lemma establish_runs sa requested previous tr x :
  runs resp (establish ProjectNumber WorkloadIdentityPool sa requested previous) tr x →
  throughout (establishing sa requested previous) tr.
Proof.
  pose proof (establishing_app sa requested previous) as HP.
  apply throughout_bind; [done| |intros _ t y; apply throughout_bind; [done| |
    intros _ t' y'; apply throughout_bind; [done| |]]].
  - intros t y [w ->]%createFolder_runs. apply throughout_one. by destruct requested.
  - intros t1 y1 (w & [->|(old & s & -> & ->)])%grant_runs; [apply throughout_one; by destruct requested|].
    intros c v [->%exchange| ->%list_elem_of_singleton%exchange]%elem_of_cons; [by destruct requested|].
    split; [by destruct requested|]. exists old. split; [by left|done].
  - intros t1 y1 [Hd _]%delete_previous_runs c w [-> Hne]%Hd. by destruct previous.
  - intros _ t1 y1 (w & -> & _)%patch_runs. by apply throughout_one.
Qed.

Lemma ensure_throughout sa tr x :
  runs resp (ensure_finalizer sa) tr x → throughout (λ _ c, ∃ sa', c = PatchSA sa' ∧ has_finalizer sa' = true) tr.
Proof. by intros [He _]%ensure_finalizer_runs. Qed.

(** What releasing the folders does, and what came before the last step. *)
Lemma delete_runs sa requested previous tr x :
  runs resp (delete_ sa requested previous) tr x →
  (∀ c w, ev c w ∈ tr → match c with
     | DeleteFolder b f => (b, f) = previous ∧ previous ≠ requested ∨ (b, f) = requested ∧ f ≠ ""
     | PatchSA sa' => has_finalizer sa = true ∧ has_finalizer sa' = false ∧ ∃ t w', tr = t ++ [ev (resp := resp) (PatchSA sa') w'] ∧
         (superseded requested previous = true → folder_gone previous.1 previous.2 t) ∧
         (requested.2 ≠ "" → folder_gone requested.1 requested.2 t)
     | _ => False
     end).
Proof.
  unfold delete_. destruct (ContainsFinalizer (sa_Finalizers sa) Finalizer) eqn:Hf.
  2: { intros [-> _] c w ?%not_elem_of_nil. done. }
  cbn [negb]. intros [(t1 & t2 & [] & -> & [Hp Hpok]%delete_previous_runs & Hk)|(e & [Hp _]%delete_previous_runs & ->)]%runs_bind_ok.
  2: { intros c w [-> Hne]%Hp. left. by destruct previous. }
  assert (∀ c w, ev c w ∈ t1 → match c with
     | DeleteFolder b f => (b, f) = previous ∧ previous ≠ requested ∨ (b, f) = requested ∧ f ≠ "" | _ => False end) as Hp'.
  { intros c w [-> Hne]%Hp. left. by destruct previous. }
  set (second := if bool_decide (requested.2 = "") then _ else _) in Hk.
  assert (∀ t y, runs resp second t y →
    (∀ c w, ev c w ∈ t → match c with DeleteFolder b f => (b, f) = requested ∧ f ≠ "" | _ => False end) ∧
    (y = Ok tt → requested.2 ≠ "" → folder_gone requested.1 requested.2 t)) as Hsecond.
  { intros t y. unfold second. case_bool_decide as Hr2.
    - intros [-> _]. split; [by intros c w ?%not_elem_of_nil|done].
    - intros [[d ->] Hok]%deleteFolder_runs. split; [|auto]. intros c w ->%list_elem_of_singleton%exchange. by destruct requested. }
  apply runs_bind_ok in Hk as [(t3 & t4 & [] & -> & [Hq Hqok]%Hsecond & (w & -> & _)%patch_runs)|(e & [Hq _]%Hsecond & ->)].
  - intros c v [Hc%Hp'|[Hc%Hq| ->%list_elem_of_singleton%exchange]%elem_of_app]%elem_of_app; [by destruct c|destruct c; try done; by right|].
    split; [done|]. split; [apply contains_removed|]. exists (t1 ++ t3), w. split; [by rewrite app_assoc|].
    unfold folder_gone. split; intros Hx; [destruct (Hpok eq_refl Hx) as (d & ? & ?)|destruct (Hqok eq_refl Hx) as (d & ? & ?)];
      exists d; rewrite elem_of_app; tauto.
  - intros c v [Hc%Hp'|Hc%Hq]%elem_of_app; [by destruct c|destruct c; try done; by right].
Qed.

Lemma Reconcile_runs tr x :
  runs resp (Reconcile ProjectNumber WorkloadIdentityPool) tr x →
  ∃ r t, tr = ev (resp := resp) GetSA r :: t ∧
    (t = [] ∨ ∃ sa requested previous y, r = Ok sa ∧ location_of sa GCSFolderAnnotation = Ok requested ∧
       location_of sa ObservedFolderAnnotation = Ok previous ∧
       (((sa_Deleting sa = true ∨ requested.1 = "") ∧ runs resp (delete_ sa requested previous) t y) ∨
        (sa_Deleting sa = false ∧ runs resp (provision ProjectNumber WorkloadIdentityPool sa requested previous) t y))).
Proof.
  intros (t1 & t & r & -> & ->%one_exchange & Hk)%runs_bind. exists r, t. split; [done|]. destruct r as [sa|e].
  2: { left. destruct (api_not_found e); by destruct Hk as [-> _]. }
  destruct (location_of sa GCSFolderAnnotation) as [requested|e] eqn:Hr; [|destruct Hk as [-> _]; by left].
  destruct (location_of sa ObservedFolderAnnotation) as [previous|e] eqn:Hp; [|destruct Hk as [-> _]; by left].
  right. exists sa, requested, previous, x. split_and!; [done..|]. destruct (sa_Deleting sa); cbn [orb] in Hk.
  - left. split; [by left|done].
  - case_bool_decide; [left|right]; split; auto.
Qed.

Lemma provision_runs sa requested previous t y :
  runs resp (provision ProjectNumber WorkloadIdentityPool sa requested previous) t y →
  ∃ t1 t2, t = t1 ++ t2 ∧ (∀ c w, ev c w ∈ t1 → ∃ sa', c = PatchSA sa' ∧ has_finalizer sa' = true) ∧
    (t2 = [] ∨ ∃ sa1, sa_Namespace sa1 = sa_Namespace sa ∧ sa_Name sa1 = sa_Name sa ∧ has_finalizer sa1 = true ∧
       (has_finalizer sa = true ∨ ev (PatchSA sa1) None ∈ t1) ∧ throughout (establishing sa1 requested previous) t2).
Proof.
  intros [(t1 & t2 & sa1 & -> & [He Hok]%ensure_finalizer_runs & Hk)|(e & [He _]%ensure_finalizer_runs & ->)]%runs_bind_ok.
  2: { exists t, []. rewrite app_nil_r. split_and!; [done..|by left]. }
  exists t1, t2. split_and!; [done..|]. destruct (Hok sa1 eq_refl) as (? & ? & ? & ?).
  case_bool_decide; [destruct Hk as [-> _]; by left|]. right. exists sa1. split_and!; [done..|]. by eapply establish_runs.
Qed.

(** C21. The finalizer keeps the ServiceAccount until its folders are gone: a pass
    removes it only from an account that is being deleted or asks for no folder,
    in its last step, after the folder that is recorded and the one asked for,
    where there is one, were deleted or not found. *)
Theorem finalizer_is_removed_last tr x sa sa' w :
  runs resp (Reconcile ProjectNumber WorkloadIdentityPool) tr x →
  ev (resp := resp) GetSA (Ok sa) ∈ tr → ev (PatchSA sa') w ∈ tr → has_finalizer sa' = false →
  ∃ requested previous t w',
    location_of sa GCSFolderAnnotation = Ok requested ∧ location_of sa ObservedFolderAnnotation = Ok previous ∧
    (sa_Deleting sa = true ∨ requested.1 = "") ∧ tr = t ++ [ev (resp := resp) (PatchSA sa') w'] ∧
    (previous.2 ≠ "" → previous ≠ requested → folder_gone previous.1 previous.2 t) ∧
    (requested.2 ≠ "" → folder_gone requested.1 requested.2 t).
Proof.
  intros (r & t & -> & Ht)%Reconcile_runs Hsa Hpatch Hno.
  apply elem_of_cons in Hpatch as [Hp|Hpatch]; [by apply exchange in Hp|].
  destruct Ht as [->|(sa0 & requested & previous & y & -> & Hr & Hp & Ht)]; [by apply not_elem_of_nil in Hpatch|].
  assert (∀ w, ev (resp := resp) GetSA w ∉ t) as Honce.
  { intros w' Hin. destruct Ht as [[_ Hd]|[_ Hd]].
    - by apply (delete_runs _ _ _ _ _ Hd) in Hin.
    - apply provision_runs in Hd as (t1 & t2 & -> & He1 & He2).
      apply elem_of_app in Hin as [(sa1 & ? & _)%He1|Hin]; [done|].
      destruct He2 as [->|(sa1 & _ & _ & _ & _ & He2)]; [by apply not_elem_of_nil in Hin|by apply He2 in Hin]. }
  assert (sa = sa0) as ->.
  { apply elem_of_cons in Hsa as [Hsa|Hsa]; [|by destruct (Honce _ Hsa)].
    by apply (f_equal (λ e, match e with ev GetSA (Ok s) => s | _ => sa0 end)) in Hsa. }
  destruct Ht as [[Hwhy Hd]|[_ Hd]].
  - pose proof (delete_runs _ _ _ _ _ Hd _ _ Hpatch) as (_ & _ & t' & w' & -> & Hprev & Hreq).
    exists requested, previous, (ev (resp := resp) GetSA (Ok sa0) :: t'), w'. split_and!; [done..| |].
    + intros Hne Hdiff. destruct (Hprev) as (d & ? & ?); [|exists d; split; [by right|done]].
      unfold superseded. by rewrite !bool_decide_eq_false_2.
    + intros Hne. destruct (Hreq Hne) as (d & ? & ?). exists d. split; [by right|done].
  - exfalso. apply provision_runs in Hd as (t1 & t2 & -> & He1 & He2).
    apply elem_of_app in Hpatch as [(sa1 & [= <-] & ?)%He1|Hin]; [congruence|].
    destruct He2 as [->|(sa1 & _ & _ & Hf & _ & He2)]; [by apply not_elem_of_nil in Hin|].
    apply He2 in Hin. cbn [establishing] in Hin. congruence.
Qed.

(** A branch's backups are given to its own account and to no other: the
    policy of a folder is written only for the folder that the account asks for,
    as it was read with one binding added, of the account's own principal to the
    one role; and only once the finalizer is in place. *)
Theorem access_is_granted_to_its_own tr x bucket folder policy w :
  runs resp (Reconcile ProjectNumber WorkloadIdentityPool) tr x →
  ev (SetIamPolicy bucket folder policy) w ∈ tr →
  ∃ sa old, ev (resp := resp) GetSA (Ok sa) ∈ tr ∧ sa_Deleting sa = false ∧
    location_of sa GCSFolderAnnotation = Ok (bucket, folder) ∧ ev (GetIamPolicy bucket folder) (Ok old) ∈ tr ∧
    policy = old ++ [mkBinding Role [Principal ProjectNumber WorkloadIdentityPool (sa_Namespace sa) (sa_Name sa)] None] ∧
    (has_finalizer sa = true ∨ ∃ sa', has_finalizer sa' = true ∧ ev (PatchSA sa') None ∈ tr).
Proof.
  intros (r & t & -> & Ht)%Reconcile_runs Hin. apply elem_of_cons in Hin as [He|Hin]; [by apply exchange in He|].
  destruct Ht as [->|(sa & requested & previous & y & -> & Hr & Hp & [[_ Hd]|[Hdel Hd]])]; [by apply not_elem_of_nil in Hin| |].
  { by pose proof (delete_runs _ _ _ _ _ Hd _ _ Hin). }
  apply provision_runs in Hd as (t1 & t2 & -> & He1 & He2).
  apply elem_of_app in Hin as [(sa1 & ? & _)%He1|Hin]; [done|].
  destruct He2 as [->|(sa1 & Hns & Hnm & Hf & Hfin & He2)]; [by apply not_elem_of_nil in Hin|].
  apply He2 in Hin as (<- & old & Hold & ->). exists sa, old. split_and!; [by left|done|done| |by rewrite Hns, Hnm|].
  - right. apply elem_of_app. by right.
  - destruct Hfin as [?|Hfin]; [by left|]. right. exists sa1. split; [done|]. right. apply elem_of_app. by left.
Qed.
End Properties.

(** ** An account that asks for a folder, and is deleted later *)

Module Witness.

#[local] Instance urls : URLs :=
  {| ParseURL := λ s, match CutPrefix "gs://b/" s with
                      | Some folder => Some (mkURL "gs" "" None "b" "b" (String "/"%char folder) "" false "") | None => None end |}.
#[local] Instance finalizers : Finalizers :=
  {| ContainsFinalizer := λ l f, bool_decide (f ∈ l); AddFinalizer := λ l f, l ++ [f]; RemoveFinalizer := λ l f, filter (λ g, g ≠ f) l |}.
#[local] Instance laws : FinalizersLaws.
Proof.
  split; intros l f; cbn.
  - apply bool_decide_eq_true_2, elem_of_app. right. by left.
  - apply bool_decide_eq_false_2. by intros [? _]%list_elem_of_filter.
Qed.

Definition asking : ServiceAccount := mkSA "xata-clusters" "sa" {[GCSFolderAnnotation := "gs://b/new/"; ObservedFolderAnnotation := "gs://b/old/"]} [] false.
Definition leaving : ServiceAccount := mkSA "xata-clusters" "sa" (sa_Annotations asking) [Finalizer] true.

Definition cloud (sa : ServiceAccount) (_ : unit) (c : call) : unit * resp c :=
  (tt, match c as c return resp c with
       | GetSA => Ok sa
       | PatchSA _ | InsertFolder _ _ | SetIamPolicy _ _ _ => None
       | DeleteFolder _ _ => Some (mkStorageError (Some 404) "not found")
       | GetIamPolicy _ _ => Ok [mkBinding "roles/owner" ["user:a"] None]
       end).

Definition granting := exec resp (cloud asking) tt (Reconcile "1" "pool").
Definition releasing := exec resp (cloud leaving) tt (Reconcile "1" "pool").

Definition own : Binding := mkBinding Role ["principal://iam.googleapis.com/projects/1/locations/global/workloadIdentityPools/pool/subject/ns/xata-clusters/sa/sa"] None.

Definition owner : Binding := mkBinding "roles/owner" ["user:a"] None.

Lemma access_is_granted_to_its_own_witness :
  ev (SetIamPolicy "b" "new/" [owner; own]) None ∈ granting.1.1 ∧
  ∃ sa old, ev (GetIamPolicy "b" "new/") (Ok old) ∈ granting.1.1 ∧
    [owner; own] = old ++ [mkBinding Role [Principal "1" "pool" (sa_Namespace sa) (sa_Name sa)] None].
Proof.
  assert (ev (SetIamPolicy "b" "new/" [owner; own]) None ∈ granting.1.1) as Hin by (vm_compute; do 4 right; by left).
  split; [exact Hin|].
  destruct (access_is_granted_to_its_own "1" "pool" granting.1.1 granting.2 _ _ _ _ (exec_runs (cloud asking) tt _) Hin)
    as (sa & old & _ & _ & _ & Hold & Hpol & _).
  exists sa, old. split; [exact Hold|exact Hpol].
Defined.

Lemma finalizer_is_removed_last_witness :
  releasing.2 = Ok tt ∧ ∃ t w, releasing.1.1 = t ++ [ev (resp := resp) (PatchSA (mkSA "xata-clusters" "sa" {[GCSFolderAnnotation := "gs://b/new/"]} [] true)) w] ∧
    folder_gone "b" "old/" t ∧ folder_gone "b" "new/" t.
Proof.
  split; [vm_compute; reflexivity|].
  set (sa' := mkSA "xata-clusters" "sa" {[GCSFolderAnnotation := "gs://b/new/"]} [] true).
  assert (ev (PatchSA sa') None ∈ releasing.1.1) as Hin by (vm_compute; do 3 right; by left).
  assert (ev (resp := resp) GetSA (Ok leaving) ∈ releasing.1.1) as Hsa by (vm_compute; by left).
  destruct (finalizer_is_removed_last "1" "pool" releasing.1.1 releasing.2 leaving sa' None (exec_runs (cloud leaving) tt _) Hsa Hin eq_refl)
    as (requested & previous & t & w & Hr & Hp & _ & Ht & H1 & H2).
  assert (requested = ("b", "new/")) as -> by (vm_compute in Hr; congruence).
  assert (previous = ("b", "old/")) as -> by (vm_compute in Hp; congruence).
  exists t, w. split; [exact Ht|]. split; [by apply H1|by apply H2].
Defined.

End Witness.
