(* ===== verification/Sessions.v ===== *)
(** * Sessions of the gateway: [services/gateway/session/session.go]

    Two goroutines copy between a client and a branch; the first copy loop that
    ends, or the end of the session's context, ends the session.  The goroutine
    of [ServeSQLSession], the two copy loops and the hook that closes the
    connections are interleaved freely.  Byte counts and the kernel's statistics
    are only logged and are left out. *)

From S2P Require Import Prelude.

(** ** Errors *)

(** What errors are made of: sentinels, an error number, the error of a TLS
    record, an operation of a socket with what its [Timeout] method says, another
    network error, a text, and a wrapper. *)
Inductive error :=
| EOF
| ErrUnexpectedEOF
| ErrClosed
| Errno (n : Z)
| RecordHeaderError
| OpError (op : string) (timeout : bool) (e : error)
| NetError (timeout : bool)
| ErrorText (msg : string)
| Wrapped (msg : string) (e : error).

(** [golang.org/x/sys/unix.ErrnoName], empty for an unknown number. *)
Class ErrnoNames := { ErrnoName : Z → string }.

(** The error and what it wraps, as [errors.Unwrap] finds it. *)
Fixpoint chain (e : error) : list error :=
  e :: match e with OpError _ _ e | Wrapped _ e => chain e | _ => [] end.

Definition Is (P : error → bool) (e : error) : bool := existsb P (chain e).
Definition is_eof (e : error) : bool := match e with EOF => true | _ => false end.
Definition is_unexpected_eof (e : error) : bool := match e with ErrUnexpectedEOF => true | _ => false end.
Definition is_closed (e : error) : bool := match e with ErrClosed => true | _ => false end.
Definition is_record_header (e : error) : bool := match e with RecordHeaderError => true | _ => false end.

(** ** Classification *)

Definition observedAtClient : string := "client".
Definition observedAtServer : string := "server".
Definition observedAtGateway : string := "gateway".

Inductive copyDirection := directionServerToClient | directionClientToServer.
#[global] Instance copyDirection_eq_dec : EqDecision copyDirection.
Proof. solve_decision. Defined.

Record copyResult := mkCopyResult {
  cr_direction : copyDirection;
  cr_err : option error;
  cr_contextCancelled : bool
}.

Record terminationDetails := mkDetails { td_observedAt : string; td_errorType : string; td_operation : string }.

(** [errors.As] for an error number, and for a network error, which an error
    number is too; its [Timeout] is that of EAGAIN and ETIMEDOUT.  The sentinel
    of a closed connection is a network error without a timeout. *)
Definition as_errno (e : error) : option Z :=
  head (omap (λ e, match e with Errno n => Some n | _ => None end) (chain e)).

Definition as_net_error (e : error) : option bool :=
  head (omap (λ e, match e with
                   | OpError _ timeout _ | NetError timeout => Some timeout
                   | Errno n => Some (bool_decide (n = 11%Z) || bool_decide (n = 110%Z))
                   | ErrClosed => Some false
                   | _ => None
                   end) (chain e)).

Section Classification.
Context `{ErrnoNames}.

Definition errnoName (err : option error) : string :=
  match err ≫= as_errno with Some n => ErrnoName n | None => "" end.

(** The loop over the wrappers: the innermost operation stays. *)
Fixpoint innermost_operation (operation : string) (e : error) : string :=
  match e with
  | OpError op _ e => innermost_operation op e
  | Wrapped _ e => innermost_operation operation e
  | _ => operation
  end.

Definition socketOperation (err : option error) : string :=
  match err with Some e => innermost_operation "" e | None => "" end.

Definition terminationObservedAt (direction : copyDirection) (operation : string) : string :=
  if bool_decide (operation = "write") then
    if bool_decide (direction = directionServerToClient) then observedAtClient else observedAtServer
  else if bool_decide (direction = directionServerToClient) then observedAtServer else observedAtClient.

Definition isTimeout (e : error) : bool := default false (as_net_error e).

(** The observed side and the type of an error. *)
Definition observed (direction : copyDirection) (err : option error) : string * string :=
  let observedAt := terminationObservedAt direction (socketOperation err) in
  match err with
  | None => (observedAt, "")
  | Some e =>
      if Is is_eof e then (observedAt, "")
      else if Is is_unexpected_eof e then (observedAt, "io.ErrUnexpectedEOF")
      else if Is is_closed e then (observedAtGateway, "net.ErrClosed")
      else if negb (bool_decide (errnoName err = "")) then (observedAt, errnoName err)
      else if isTimeout e then (observedAt, "timeout")
      else if Is is_record_header e then (observedAt, "crypto/tls.RecordHeaderError")
      else (observedAt, "_OTHER")
  end.

Definition classifyTermination (direction : copyDirection) (err : option error) (contextCancelled : bool) : terminationDetails :=
  let operation := socketOperation err in
  if contextCancelled then mkDetails observedAtGateway "context.Canceled" operation
  else let '(observedAt, errorType) := observed direction err in mkDetails observedAt errorType operation.

Definition canceled : terminationDetails := mkDetails observedAtGateway "context.Canceled" "".

(** The details that are logged for what was received, if anything was. *)
Definition details_of (first : option copyResult) : terminationDetails * option error :=
  match first with
  | Some r => (classifyTermination (cr_direction r) (cr_err r) (cr_contextCancelled r), cr_err r)
  | None => (canceled, None)
  end.

(** ** State *)

(** A copy goroutine, the hook of the session's context, and the goroutine of
    [ServeSQLSession]. *)
Inductive copy_pc := NotStarted | Refused | Copying | Returned (err : option error) | Sending (r : copyResult) | Sent.
Inductive hook_pc := HookIdle | HookInboundClosed | HookDone.
Inductive main_pc :=
| Starting
| Go1
| Go2
| Awaiting
| Cancelling (first : option copyResult)
| Waiting (first : option copyResult)
| Finished (details : terminationDetails) (err : option error).

(** [parentDone]: the context of the caller is done; [cancelled]: [cancel] was
    called; [serverClosed]: the server closed the client's connection, as its own
    hook does. *)
Record session := mkSession {
  parentDone : bool;
  cancelled : bool;
  serverClosed : bool;
  hook : hook_pc;
  inboundClosed : bool;
  outboundClosed : bool;
  toClient : copy_pc;
  toServer : copy_pc;
  results : list copyResult;
  main : main_pc
}.

Definition New : session := mkSession false false false HookIdle false false NotStarted NotStarted [] Starting.

Definition copy (s : session) (d : copyDirection) : copy_pc :=
  match d with directionServerToClient => toClient s | directionClientToServer => toServer s end.

Definition set_copy (s : session) (d : copyDirection) (pc : copy_pc) : session :=
  let '(c, v) := match d with directionServerToClient => (pc, toServer s) | directionClientToServer => (toClient s, pc) end in
  mkSession (parentDone s) (cancelled s) (serverClosed s) (hook s) (inboundClosed s) (outboundClosed s) c v (results s) (main s).

Definition set_main (s : session) (pc : main_pc) : session :=
  mkSession (parentDone s) (cancelled s) (serverClosed s) (hook s) (inboundClosed s) (outboundClosed s)
    (toClient s) (toServer s) (results s) pc.

(** ** Steps *)

Definition cancel_parent (s : session) : session :=
  mkSession true (cancelled s) (serverClosed s) (hook s) (inboundClosed s) (outboundClosed s)
    (toClient s) (toServer s) (results s) (main s).

Definition close_inbound (s : session) : session :=
  mkSession (parentDone s) (cancelled s) true (hook s) true (outboundClosed s) (toClient s) (toServer s) (results s) (main s).

(** [session.close], one connection after the other. *)
Definition close_first (s : session) : session :=
  mkSession (parentDone s) (cancelled s) (serverClosed s) HookInboundClosed true (outboundClosed s)
    (toClient s) (toServer s) (results s) (main s).
Definition close_second (s : session) : session :=
  mkSession (parentDone s) (cancelled s) (serverClosed s) HookDone (inboundClosed s) true
    (toClient s) (toServer s) (results s) (main s).

(** [copyLoop]'s error. *)
Definition copyLoop (err : option error) : option error := Wrapped "copy loop" <$> err.

(** A copy goroutine after its loop: the context is looked at, and then the
    result is sent; the channel has room for both. *)
Definition evaluate (s : session) (d : copyDirection) (err : option error) : session :=
  set_copy s d (Sending (mkCopyResult d err (parentDone s))).
Definition send (s : session) (d : copyDirection) (r : copyResult) : session :=
  set_copy (mkSession (parentDone s) (cancelled s) (serverClosed s) (hook s) (inboundClosed s) (outboundClosed s)
              (toClient s) (toServer s) (results s ++ [r]) (main s)) d Sent.

Definition take_result (s : session) (r : copyResult) (rest : list copyResult) : session :=
  mkSession (parentDone s) (cancelled s) (serverClosed s) (hook s) (inboundClosed s) (outboundClosed s)
    (toClient s) (toServer s) rest (Cancelling (Some r)).

Definition cancel_ (s : session) (pc : main_pc) : session :=
  mkSession (parentDone s) true (serverClosed s) (hook s) (inboundClosed s) (outboundClosed s)
    (toClient s) (toServer s) (results s) pc.

Definition finish (s : session) (first : option copyResult) : session :=
  let '(d, err) := details_of first in cancel_ s (Finished d err).

Definition ended (pc : copy_pc) : bool := match pc with Refused | Sent => true | _ => false end.
Definition gateway_closed (s : session) : bool := inboundClosed s || outboundClosed s.

(** The group refuses a task once the context is done or a task has ended. *)
Definition may_refuse (s : session) (other : copyDirection) : Prop := hook s = HookDone ∨ copy s other = Sent.

(** What the gateway does by itself. *)
Inductive internal : relation session :=
| step_hook_first s : parentDone s = true ∨ cancelled s = true → hook s = HookIdle → internal s (close_first s)
| step_hook_second s : hook s = HookInboundClosed → internal s (close_second s)
| step_fails s d : copy s d = Copying → gateway_closed s = true → internal s (set_copy s d (Returned (copyLoop (Some ErrClosed))))
| step_evaluate s d err : copy s d = Returned err → internal s (evaluate s d err)
| step_send s d r : copy s d = Sending r → internal s (send s d r)
| step_check_done s : main s = Starting → hook s = HookDone → internal s (finish s None)
| step_check s : main s = Starting → hook s ≠ HookDone → internal s (set_main s Go1)
| step_go1 s : main s = Go1 → internal s (set_main (set_copy s directionServerToClient Copying) Go2)
| step_go1_refused s : main s = Go1 → hook s = HookDone → internal s (set_main (set_copy s directionServerToClient Refused) Go2)
| step_go2 s : main s = Go2 → internal s (set_main (set_copy s directionClientToServer Copying) Awaiting)
| step_go2_refused s : main s = Go2 → may_refuse s directionServerToClient →
    internal s (set_main (set_copy s directionClientToServer Refused) Awaiting)
| step_receive s r rest : main s = Awaiting → results s = r :: rest → internal s (take_result s r rest)
| step_no_result s : main s = Awaiting → parentDone s = true → results s = [] → internal s (set_main s (Cancelling None))
| step_cancel s first : main s = Cancelling first → internal s (cancel_ s (Waiting first))
| step_wait s first : main s = Waiting first → (∀ d, ended (copy s d) = true) → internal s (finish s first).

(** A copy loop also ends when its endpoint does; that an error says that the
    connection was closed here is only so when it was. *)
Inductive step : relation session :=
| step_internal s s' : internal s s' → step s s'
| step_copy_ends s d err :
    copy s d = Copying → (∀ e, err = Some e → Is is_closed e = true → gateway_closed s = true) →
    step s (set_copy s d (Returned (copyLoop err)))
| step_parent s : parentDone s = false → step s (cancel_parent s)
| step_server_closes s : serverClosed s = false → step s (close_inbound s).

#[global] Instance session_ts : TransitionSystem session := { ts_init s := s = New; ts_step := step }.
End Classification.

(** ** Every step is one of finitely many *)

Section Runs.
Context `{ErrnoNames}.

Definition hook_left (pc : hook_pc) : nat := match pc with HookIdle => 2 | HookInboundClosed => 1 | HookDone => 0 end.
Definition copy_left (pc : copy_pc) : nat :=
  match pc with NotStarted => 4 | Copying => 3 | Returned _ => 2 | Sending _ => 1 | Refused | Sent => 0 end.
Definition main_left (pc : main_pc) : nat :=
  match pc with Starting => 6 | Go1 => 5 | Go2 => 4 | Awaiting => 3 | Cancelling _ => 2 | Waiting _ => 1 | Finished _ _ => 0 end.

(** The steps that are left, at most. *)
Definition left (s : session) : nat :=
  (if parentDone s then 0 else 1) + (if serverClosed s then 0 else 1) + hook_left (hook s) +
  copy_left (toClient s) + copy_left (toServer s) + main_left (main s).

(** Where the goroutines are. *)
Definition before_copies (pc : main_pc) : bool := match pc with Starting | Go1 => true | _ => false end.
Definition before_second (pc : main_pc) : bool := match pc with Starting | Go1 | Go2 => true | _ => false end.
Definition one_started (pc : main_pc) : bool := match pc with Go2 | Awaiting | Cancelling _ | Waiting _ => true | _ => false end.
Definition both_started (pc : main_pc) : bool := match pc with Awaiting | Cancelling _ | Waiting _ => true | _ => false end.
Definition before_result (pc : main_pc) : bool := match pc with Starting | Go1 | Go2 | Awaiting => true | _ => false end.
Definition stopped (pc : main_pc) : bool := match pc with Waiting _ | Finished _ _ => true | _ => false end.
Definition finished (pc : main_pc) : bool := match pc with Finished _ _ => true | _ => false end.
Definition idle (pc : copy_pc) : bool := match pc with NotStarted | Refused | Sent => true | _ => false end.

Record Inv (s : session) : Prop := {
  inv_cancelled : cancelled s = stopped (main s);
  inv_idle : hook s = HookIdle → outboundClosed s = false ∧ (inboundClosed s = true → serverClosed s = true);
  inv_hook : hook s ≠ HookIdle → (parentDone s = true ∨ cancelled s = true) ∧ inboundClosed s = true;
  inv_done : hook s = HookDone → outboundClosed s = true;
  inv_client : before_copies (main s) = true → toClient s = NotStarted;
  inv_server : before_second (main s) = true → toServer s = NotStarted;
  inv_one : one_started (main s) = true → toClient s ≠ NotStarted;
  inv_both : both_started (main s) = true → toServer s ≠ NotStarted;
  inv_client_sent : before_result (main s) = true → toClient s = Sent → results s ≠ [];
  inv_server_sent : before_result (main s) = true → toServer s = Sent → results s ≠ [];
  inv_finished : finished (main s) = true → idle (toClient s) = true ∧ idle (toServer s) = true
}.

Lemma step_left s s' : Inv s → step s s' → left s' < left s.
Proof.
  intros HI Hst. destruct Hst as [s s' Hint|s d err Hc _|s Hp|s Hs]; [|destruct d; cbn in Hc..| |];
    [|unfold left, set_copy; cbn; try rewrite Hc; try rewrite Hp; try rewrite Hs; cbn; lia..].
  destruct Hint as [s _ Hh|s Hh|s d Hc _|s d err Hc|s d r Hc|s Hm _|s Hm _|s Hm|s Hm _|s Hm|s Hm _|s r rest Hm _|s Hm _ _|s f Hm|s f Hm _];
    try destruct d; cbn [copy] in *; unfold left, evaluate, send, set_copy, set_main, finish, cancel_, close_first, close_second, take_result;
    try destruct (details_of _); cbn; rewrite ?Hh, ?Hc, ?Hm; cbn; try lia;
    first [rewrite (inv_client _ HI) by (by rewrite Hm)|rewrite (inv_server _ HI) by (by rewrite Hm)]; cbn; lia.
Qed.

Lemma session_Inv_New : Inv New.
Proof. by split. Qed.

Lemma session_Inv_internal s s' : Inv s → internal s s' → Inv s'.
Proof.
  intros [H1 H2 H3 H4 H5 H6 H7 H8 H9 H10 H11] Hst.
  destruct Hst as [s Hw Hh|s Hh|s d Hc Hg|s d err Hc|s d r Hc|s Hm Hh|s Hm Hh|s Hm|s Hm Hh|s Hm|s Hm Hr|s r rest Hm Hr|s Hm Hp Hr|s f Hm|s f Hm He];
    try destruct d; cbn [copy] in *;
    unfold evaluate, send, set_copy, set_main, finish, cancel_, close_first, close_second, take_result in *;
    try destruct (details_of _) as [? ?]; rewrite ?Hm, ?Hc, ?Hh in *; split; cbn in *; try assumption; try done; try (intuition congruence).
  1-4: intros _ _ [_ ?]%app_nil; done.
  - intros _. by rewrite H5, H6.
  - intros _. pose proof (He directionServerToClient) as He1. pose proof (He directionClientToServer) as He2. cbn in He1, He2.
    by destruct (toClient s), (toServer s).
Qed.

Lemma session_Inv_step s s' : Inv s → step s s' → Inv s'.
Proof.
  intros HI Hst. destruct Hst as [s s' Hint|s d err Hc _|s Hp|s Hs]; [by eapply session_Inv_internal| | |];
    destruct HI as [H1 H2 H3 H4 H5 H6 H7 H8 H9 H10 H11].
  - destruct d; cbn [copy] in Hc; rewrite Hc in *; split; cbn in *; try assumption; try done; try (intuition congruence).
  - split; cbn in *; try assumption; try done; intuition congruence.
  - split; cbn in *; try assumption; try done; intuition congruence.
Qed.

Lemma session_Inv_reachable s : reachable s → Inv s.
Proof. apply invariant_reachable. split; [by intros ? ->|apply session_Inv_step]. Qed.

(** ** Whom a session's end is ascribed to *)

(** What excuses an end that is observed at the gateway. *)
Definition excused (s : session) : Prop := parentDone s = true ∨ serverClosed s = true.
Definition fair_error (s : session) (err : option error) : Prop := ∀ e, err = Some e → Is is_closed e = true → excused s.
Definition fair_result (s : session) (r : copyResult) : Prop :=
  (cr_contextCancelled r = true → parentDone s = true) ∧ fair_error s (cr_err r).
Definition fair_copy (s : session) (pc : copy_pc) : Prop :=
  match pc with Returned err => fair_error s err | Sending r => fair_result s r | _ => True end.
Definition fair_first (s : session) (first : option copyResult) : Prop :=
  match first with Some r => fair_result s r | None => parentDone s = true end.
Definition fair_main (s : session) : Prop :=
  match main s with
  | Cancelling first | Waiting first => fair_first s first
  | Finished d _ => td_observedAt d = observedAtGateway → excused s
  | _ => True
  end.

(** Until the session cancels itself, every result is a fair one. *)
Record Fair (s : session) : Prop := {
  fair_copies : cancelled s = false → ∀ d, fair_copy s (copy s d);
  fair_results : cancelled s = false → Forall (fair_result s) (results s);
  fair_end : fair_main s
}.

Lemma observed_at_gateway d err : (observed d err).1 = observedAtGateway → ∃ e, err = Some e ∧ Is is_closed e = true.
Proof.
  assert (∀ op, terminationObservedAt d op ≠ observedAtGateway) as Hn
    by (intros op; unfold terminationObservedAt; repeat case_bool_decide; done).
  unfold observed. destruct err as [e|]; [|by intros ?%Hn].
  destruct (Is is_eof e); [by intros ?%Hn|]. destruct (Is is_unexpected_eof e); [by intros ?%Hn|].
  destruct (Is is_closed e) eqn:Hc; [by exists e|].
  by destruct (negb _), (isTimeout e), (Is is_record_header e); intros ?%Hn.
Qed.

Lemma details_fair s first : fair_first s first → td_observedAt (details_of first).1 = observedAtGateway → excused s.
Proof.
  destruct first as [r|]; [|by left]. intros [Hc He] Ho. cbn [details_of fst] in Ho. unfold classifyTermination in Ho.
  destruct (cr_contextCancelled r); [left; by apply Hc|].
  destruct (observed _ _) as [at_ ty] eqn:E. cbn [td_observedAt] in Ho.
  destruct (observed_at_gateway (cr_direction r) (cr_err r)) as (e & H1 & H2); [by rewrite E|]. by apply (He e).
Qed.

(** What is excused stays so. *)
Lemma excused_mono s s' : (parentDone s = true → parentDone s' = true) → (serverClosed s = true → serverClosed s' = true) →
  (∀ err, fair_error s err → fair_error s' err) ∧ (∀ r, fair_result s r → fair_result s' r) ∧
  (∀ pc, fair_copy s pc → fair_copy s' pc) ∧ (∀ f, fair_first s f → fair_first s' f).
Proof.
  intros Hp Hs. assert (∀ err, fair_error s err → fair_error s' err) as He.
  { intros err H1 e -> Hc. destruct (H1 e eq_refl Hc); [left|right]; auto. }
  assert (∀ r, fair_result s r → fair_result s' r) as Hr by (intros r [? ?]; split; auto).
  split_and!; [done|done|intros []; simpl; auto|intros []; simpl; auto].
Qed.

Lemma Fair_keep s s' : (parentDone s = true → parentDone s' = true) → (serverClosed s = true → serverClosed s' = true) →
  cancelled s' = cancelled s → (∀ d, copy s' d = copy s d) → results s' = results s → main s' = main s → Fair s → Fair s'.
Proof.
  intros Hp Hs Hc Hcp Hr Hm [F1 F2 F3]. destruct (excused_mono s s' Hp Hs) as (_ & Mr & Mc & Mf). split.
  - intros Hn d. rewrite Hcp. apply Mc, F1. congruence.
  - intros Hn. rewrite Hr. eapply Forall_impl; [apply F2; congruence|apply Mr].
  - unfold fair_main in *. rewrite Hm. destruct (main s); auto. intros Hg. destruct (F3 Hg); [left|right]; auto.
Qed.

Lemma Fair_set_copy s d pc : Fair s → (cancelled s = false → fair_copy s pc) → Fair (set_copy s d pc).
Proof.
  intros [F1 F2 F3] Hpc. split; [|by destruct d..].
  intros Hn d'. assert (cancelled s = false) as Hn' by (by destruct d). specialize (F1 Hn'). specialize (Hpc Hn').
  pose proof (F1 directionServerToClient). pose proof (F1 directionClientToServer). by destruct d, d'.
Qed.

Lemma Fair_set_main s pc : Fair s → fair_main (set_main s pc) → Fair (set_main s pc).
Proof. intros [F1 F2 F3] Hm. split; [|done..]. intros Hn []; [apply (F1 Hn directionServerToClient)|apply (F1 Hn directionClientToServer)]. Qed.

Lemma Fair_stop s pc : fair_main (cancel_ s pc) → Fair (cancel_ s pc).
Proof. by split. Qed.

Lemma Fair_finish s first : fair_first s first → Fair (finish s first).
Proof.
  intros Hf. pose proof (details_fair s first Hf) as Hd. unfold finish. destruct (details_of first) as [d err].
  apply Fair_stop. exact Hd.
Qed.

Lemma closed_excused s : Inv s → cancelled s = false → gateway_closed s = true → excused s.
Proof.
  intros HI Hn Hg. assert (hook s = HookIdle ∨ hook s ≠ HookIdle) as [Hh|Hh] by (destruct (hook s); auto).
  - destruct (inv_idle _ HI Hh) as [Ho Hi]. unfold gateway_closed in Hg. rewrite Ho, orb_false_r in Hg. right. by apply Hi.
  - destruct (inv_hook _ HI Hh) as [[?|?] _]; [by left|congruence].
Qed.

Lemma fair_copyLoop s err : Inv s → (∀ e, err = Some e → Is is_closed e = true → gateway_closed s = true) →
  cancelled s = false → fair_error s (copyLoop err).
Proof. intros HI He Hn e Heq Hc. destruct err as [e'|]; [|done]. injection Heq as <-. apply closed_excused; [done..|]. by apply (He e'). Qed.

Lemma Fair_internal s s' : Inv s → Fair s → internal s s' → Fair s'.
Proof.
  intros HI HF Hst.
  destruct Hst as [s _ _|s _|s d Hc Hg|s d err Hc|s d r Hc|s Hm Hh|s Hm Hh|s Hm|s Hm Hh|s Hm|s Hm Hr|s r rest Hm Hr|s Hm Hp Hr|s f Hm|s f Hm He].
  - by apply (Fair_keep s); [..|intros []| | |].
  - by apply (Fair_keep s); [..|intros []| | |].
  - apply Fair_set_copy; [done|]. intros Hn. apply fair_copyLoop; [done|by intros|done].
  - apply Fair_set_copy; [done|]. intros Hn. split; [done|]. pose proof (fair_copies _ HF Hn d) as Hd. by rewrite Hc in Hd.
  - apply Fair_set_copy; [|done]. destruct HF as [F1 F2 F3]. split; [exact F1| |exact F3]. intros Hn.
    apply Forall_app. split; [by apply F2|]. apply Forall_singleton. specialize (F1 Hn d). by rewrite Hc in F1.
  - apply Fair_finish. destruct (inv_hook _ HI) as [[?|Hn] _]; [by rewrite Hh|done|]. by rewrite (inv_cancelled _ HI), Hm in Hn.
  - by apply Fair_set_main.
  - by apply Fair_set_main; [apply Fair_set_copy|].
  - by apply Fair_set_main; [apply Fair_set_copy|].
  - by apply Fair_set_main; [apply Fair_set_copy|].
  - by apply Fair_set_main; [apply Fair_set_copy|].
  - destruct HF as [F1 F2 F3]. split; [exact F1|..].
    + intros Hn. specialize (F2 Hn). rewrite Hr in F2. by apply Forall_cons in F2 as [_ ?].
    + assert (cancelled s = false) as Hn by (by rewrite (inv_cancelled _ HI), Hm). specialize (F2 Hn). rewrite Hr in F2.
      by apply Forall_cons in F2 as [? _].
  - by apply Fair_set_main.
  - apply Fair_stop. pose proof (fair_end _ HF) as Hf. unfold fair_main in Hf. by rewrite Hm in Hf.
  - apply Fair_finish. pose proof (fair_end _ HF) as Hf. unfold fair_main in Hf. by rewrite Hm in Hf.
Qed.

Lemma Fair_step s s' : Inv s → Fair s → step s s' → Fair s'.
Proof.
  intros HI HF Hst. destruct Hst as [s s' Hint|s d err Hc He|s Hp|s Hs]; [by eapply Fair_internal| | |].
  - apply Fair_set_copy; [done|]. by apply fair_copyLoop.
  - by apply (Fair_keep s); [..|intros []| | |].
  - by apply (Fair_keep s); [..|intros []| | |].
Qed.

Lemma Fair_reachable s : reachable s → Inv s ∧ Fair s.
Proof.
  apply (invariant_reachable (λ s, Inv s ∧ Fair s)). split; [intros ? ->; split; [done|split; [by intros _ []|done|done]]|].
  intros s1 s2 [HI HF] Hst. split; [by eapply session_Inv_step|by eapply Fair_step].
Qed.

(** A session is ascribed to the gateway only for the gateway's own doing:
    when the details that are logged name the gateway, the session's context was
    done or the server had closed the client's connection.  The connections that
    the session itself closes, to stop the loop that is left, never count,
    because the result that came before is the one that is reported. *)
Theorem cleanup_is_not_blamed s details err :
  reachable s → main s = Finished details err → td_observedAt details = observedAtGateway →
  parentDone s = true ∨ serverClosed s = true.
Proof. intros [_ HF]%Fair_reachable Hm Ho. pose proof (fair_end _ HF) as Hf. unfold fair_main in Hf. rewrite Hm in Hf. by apply Hf. Qed.

(** ** The end of a session *)

(** What every run comes to, as long as the gateway keeps taking its steps. *)
Inductive inevitably (P : session → Prop) : session → Prop :=
| inevitably_now s : P s → inevitably P s
| inevitably_later s : (∃ s', internal s s') → (∀ s', step s s' → inevitably P s') → inevitably P s.

(** Something happened that ends the session. *)
Definition over (pc : copy_pc) : bool := match pc with Returned _ | Sending _ | Sent => true | _ => false end.
Definition ending (s : session) : Prop :=
  parentDone s = true ∨ (∃ d, over (copy s d) = true) ∨ before_result (main s) = false.

(** The session has returned, no goroutine is left, and both connections are
    closed. *)
Definition ended_clean (s : session) : Prop :=
  finished (main s) = true ∧ (∀ d, idle (copy s d) = true) ∧ inboundClosed s = true ∧ outboundClosed s = true ∧ hook s = HookDone.

Lemma ending_keep s s' : (parentDone s = true → parentDone s' = true) →
  (∀ d, over (copy s d) = true → over (copy s' d) = true) →
  (before_result (main s) = false → before_result (main s') = false) → ending s → ending s'.
Proof. intros Hp Hc Hm [?|[[d ?]|?]]; [left|right; left; exists d|right; right]; auto. Qed.

Lemma ending_set_copy s d pc : (over (copy s d) = true → over pc = true) → ending s → ending (set_copy s d pc).
Proof. intros Hd. apply ending_keep; [by destruct d|intros d'; destruct d, d'; cbn in *; auto|by destruct d]. Qed.

Lemma ending_set_main s pc : before_result (main s) = true → ending s → ending (set_main s pc).
Proof. intros Hm. apply ending_keep; [done|by intros []|by rewrite Hm]. Qed.

Lemma ending_internal s s' : Inv s → internal s s' → ending s → ending s'.
Proof.
  intros HI Hst He.
  destruct Hst as [s _ _|s _|s d Hc Hg|s d err Hc|s d r Hc|s Hm Hh|s Hm Hh|s Hm|s Hm Hh|s Hm|s Hm Hr|s r rest Hm Hr|s Hm Hp Hr|s f Hm|s f Hm Hw];
    try (right; right; unfold finish; try destruct (details_of _); done).
  - revert He. by apply ending_keep; [|intros []|].
  - revert He. by apply ending_keep; [|intros []|].
  - by apply ending_set_copy.
  - by apply ending_set_copy.
  - apply ending_set_copy; [done|]. revert He. by apply ending_keep; [|intros []|].
  - apply ending_set_main; [by rewrite Hm|done].
  - apply ending_set_main; [by cbn; rewrite Hm|]. apply ending_set_copy; [|done]. cbn. by rewrite (inv_client _ HI) by (by rewrite Hm).
  - apply ending_set_main; [by cbn; rewrite Hm|]. apply ending_set_copy; [|done]. cbn. by rewrite (inv_client _ HI) by (by rewrite Hm).
  - apply ending_set_main; [by cbn; rewrite Hm|]. apply ending_set_copy; [|done]. cbn. by rewrite (inv_server _ HI) by (by rewrite Hm).
  - apply ending_set_main; [by cbn; rewrite Hm|]. apply ending_set_copy; [|done]. cbn. by rewrite (inv_server _ HI) by (by rewrite Hm).
Qed.

Lemma ending_step s s' : Inv s → step s s' → ending s → ending s'.
Proof.
  intros HI Hst. destruct Hst as [s s' Hint|s d err Hc _|s Hp|s Hs].
  - by apply ending_internal.
  - by apply ending_set_copy.
  - intros _. by left.
  - by apply ending_keep; [|intros []|].
Qed.

(** A copy goroutine that is between two steps takes the next one. *)
Definition busy (pc : copy_pc) : bool := match pc with Returned _ | Sending _ => true | _ => false end.

Lemma busy_moves s d : busy (copy s d) = true → ∃ s', internal s s'.
Proof. destruct (copy s d) eqn:Hc; try done; intros _; eexists; [by eapply step_evaluate|by eapply step_send]. Qed.

Lemma hook_moves s : Inv s → parentDone s = true ∨ cancelled s = true → hook s = HookDone ∨ ∃ s', internal s s'.
Proof.
  intros HI Hw. destruct (hook s) eqn:Hh; [right; eexists; by apply step_hook_first|right; eexists; by apply step_hook_second|by left].
Qed.

(** Waiting for the goroutines: their connections are closed first. *)
Lemma waiting_moves s first : Inv s → main s = Waiting first → ∃ s', internal s s'.
Proof.
  intros HI Hm. destruct (hook_moves s HI) as [Hh|?]; [right; by rewrite (inv_cancelled _ HI), Hm| |done].
  assert (gateway_closed s = true) as Hg by (unfold gateway_closed; rewrite (inv_done _ HI Hh); apply orb_true_r).
  assert (∀ d, copy s d ≠ NotStarted) as Hn by (intros []; cbn; [apply (inv_one _ HI)|apply (inv_both _ HI)]; by rewrite Hm).
  assert (∀ d, ended (copy s d) = true ∨ ∃ s', internal s s') as Hd.
  { intros d. destruct (copy s d) eqn:Hc; [by destruct (Hn d)|by left|right; eexists; by eapply step_fails| | |by left];
      right; by apply (busy_moves s d); rewrite Hc. }
  destruct (Hd directionServerToClient) as [H1|?]; [|done]. destruct (Hd directionClientToServer) as [H2|?]; [|done].
  eexists. eapply step_wait; [done|by intros []].
Qed.

Lemma ending_moves s : Inv s → ending s → ended_clean s ∨ ∃ s', internal s s'.
Proof.
  intros HI He. destruct (main s) as [| | | |f|f|dt err] eqn:Hm.
  - right. destruct (hook s) eqn:Hh; eexists; [apply step_check; [done|congruence]..|by apply step_check_done].
  - right. eexists. by apply step_go1.
  - right. eexists. by apply step_go2.
  - right. destruct (results s) as [|r rest] eqn:Hr; [|eexists; by eapply step_receive].
    destruct He as [Hp|[[d Hd]|Hb]]; [eexists; by apply step_no_result| |by rewrite Hm in Hb].
    destruct (copy s d) eqn:Hc; try done; [by apply (busy_moves s d); rewrite Hc..|].
    exfalso. destruct d; [by apply (inv_client_sent _ HI); [rewrite Hm|..]|by apply (inv_server_sent _ HI); [rewrite Hm|..]].
  - right. eexists. by eapply step_cancel.
  - right. by eapply waiting_moves.
  - destruct (hook_moves s HI) as [Hh|?]; [right; by rewrite (inv_cancelled _ HI), Hm| |by right].
    left. destruct (inv_finished _ HI) as [H1 H2]; [by rewrite Hm|].
    split_and!; [by rewrite Hm|by intros []|by apply (inv_hook _ HI); rewrite Hh|by apply (inv_done _ HI)|done].
Qed.

(** C38. A session ends, and leaves nothing behind: once a copy loop has ended or
    the context is done, every run comes to a state in which [ServeSQLSession]
    has returned, neither copy goroutine runs and both connections are closed,
    whatever the endpoints and the server do meanwhile and in whatever order the
    goroutines take their steps. *)
Theorem session_ends_cleanly s : reachable s → ending s → inevitably ended_clean s.
Proof.
  intros [HI _]%Fair_reachable He. remember (left s) as n eqn:Hn.
  revert s HI He Hn. induction (lt_wf n) as [n _ IH]. intros s HI He ->.
  destruct (ending_moves s HI He) as [Hd|Hi]; [by apply inevitably_now|].
  apply inevitably_later; [done|]. intros s' Hst.
  eapply (IH (left s')); [by apply step_left|by eapply session_Inv_step|by eapply ending_step|done].
Qed.
End Runs.

Module Witness.

#[local] Instance names : ErrnoNames := { ErrnoName := λ n, if bool_decide (n = 104%Z) then "ECONNRESET" else "" }.

(** The client leaves: its copy loop ends at the end of the stream, and its
    result is sent. *)
Definition copying : session := set_main (set_copy (set_main (set_copy (set_main New Go1) directionServerToClient Copying) Go2) directionClientToServer Copying) Awaiting.
Definition client_left : session := evaluate (set_copy copying directionClientToServer (Returned (copyLoop None))) directionClientToServer None.

Lemma reach_copying : reachable copying.
Proof.
  eapply reachable_step; [|by apply step_internal, step_go2].
  eapply reachable_step; [|by apply step_internal, step_go1].
  eapply reachable_step; [|by apply step_internal, step_check].
  by apply reachable_init.
Qed.

Lemma reach_client_left : reachable client_left.
Proof.
  eapply reachable_step; [|by apply step_internal, (step_evaluate _ directionClientToServer None)].
  eapply reachable_step; [|by apply (step_copy_ends _ directionClientToServer None)].
  exact reach_copying.
Qed.

Lemma session_ends_cleanly_witness : ending client_left ∧ inevitably ended_clean client_left.
Proof.
  assert (ending client_left) as He by (right; left; by exists directionClientToServer).
  split; [exact He|exact (session_ends_cleanly client_left reach_client_left He)].
Defined.

(** The server closes the client's connection while the loops copy, and the loop
    to the client fails before the session's context is done. *)
Definition server_closed : session := close_inbound copying.
Definition failing : session := set_copy server_closed directionServerToClient (Returned (copyLoop (Some ErrClosed))).
Definition reset : copyResult := mkCopyResult directionServerToClient (copyLoop (Some ErrClosed)) false.
Definition reported : session := send (evaluate failing directionServerToClient (cr_err reset)) directionServerToClient reset.
Definition stopping : session := cancel_ (take_result reported reset []) (Waiting (Some reset)).
Definition stopped_loop : session :=
  let s := set_copy stopping directionClientToServer (Returned (copyLoop (Some ErrClosed))) in
  let s := evaluate s directionClientToServer (copyLoop (Some ErrClosed)) in
  send s directionClientToServer (mkCopyResult directionClientToServer (copyLoop (Some ErrClosed)) false).
Definition ended_session : session := finish stopped_loop (Some reset).

Lemma reach_ended : reachable ended_session.
Proof.
  eapply reachable_step; [|apply step_internal, step_wait; [done|by intros []]].
  eapply reachable_step; [|by apply step_internal, step_send].
  eapply reachable_step; [|by apply step_internal, step_evaluate].
  eapply reachable_step; [|by apply step_internal, step_fails].
  eapply reachable_step; [|by apply step_internal, step_cancel].
  eapply reachable_step; [|by apply step_internal, step_receive].
  eapply reachable_step; [|by apply step_internal, step_send].
  eapply reachable_step; [|by apply step_internal, step_evaluate].
  eapply reachable_step; [|by apply step_internal, step_fails].
  eapply reachable_step; [|by apply step_server_closes].
  exact reach_copying.
Qed.

Lemma cleanup_is_not_blamed_witness : parentDone ended_session = true ∨ serverClosed ended_session = true.
Proof.
  exact (cleanup_is_not_blamed ended_session (mkDetails observedAtGateway "net.ErrClosed" "") (cr_err reset)
    reach_ended eq_refl eq_refl).
Defined.

(** A reset by the client while the gateway writes to it. *)
Example reset_by_client :
  classifyTermination directionServerToClient (copyLoop (Some (OpError "write" false (Errno 104)))) false =
  mkDetails observedAtClient "ECONNRESET" "write".
Proof. reflexivity. Qed.
End Witness.
